(* ===== verification/_CoqProject ===== *)
-Q . S2P
Prelude.v
Memory.v
Kernel.v
CmdDb.v
RpmhRsc.v
RpmhTcs.v
Rpmh.v
RpmhCache.v
RpmhFlush.v
RpmhSend.v
RpmhPm.v
Smem.v
SmemSafe.v
SmemHeap.v
SmemDev.v
SmemProbe.v
Smp2p.v
Smp2pLink.v
Smp2pNames.v
Smp2pSafe.v
QmiEncDec.v
QmiSafe.v
QmiSchema.v
QmiEncode.v
QmiRound.v
WaltVoter.v
WaltBoost.v
WaltHalt.v
HabPipe.v
HabChan.v
HabMsg.v
HabMem.v
HabPages.v
HabShare.v
HabImport.v
WaltData.v
WaltDemand.v
WaltTop.v
WaltWindow.v
WaltBusy.v
WaltMigrate.v
WaltHooks.v
WaltInv.v
WaltSystem.v
WaltStats.v
WaltQueue.v
WaltTypes.v
WaltCases.v
CoreCtl.v
CoreCtlAct.v
CoreCtlPick.v
CoreCtlExact.v
CoreCtlVotes.v
CoreCtlSystem.v
CoreCtlCases.v
RpmhActive.v
Bcm.v
BcmBatch.v
BcmVoter.v
BcmCommit.v
BcmSystem.v
BcmVotes.v
BcmCases.v
SchedAvg.v
SchedAvgSpec.v
SchedAvgCases.v
HabOpen.v
HabHandshake.v
HabOpenCases.v
QmiMsg.v
QmiMsgInv.v
QmiMsgSystem.v
QmiRpc.v
QmiMsgCases.v
QrtrNs.v
QrtrNsInv.v
QrtrNsSystem.v
QrtrNsCases.v
