(* ===== verification/Prelude.v ===== *)
(** * Verification of the Qualcomm resource, messaging and scheduling drivers

    The repository is the vendor part of an Android kernel: drivers under [src/drivers/], the
    WALT scheduler under [src/kernel/sched/walt/] and their headers.  This library models the
    parts in which several processors, virtual machines or kernel clients share state, and
    proves what each part promises to the others.

    ** The parts and their files

    - Resource votes.  Drivers look up the address of a resource in the command database
      (cmd-db.c: CmdDb) and ask the RPMh client layer (rpmh.c: Rpmh) for values.  The client
      layer caches them and hands them to the resource state coordinator (rpmh-rsc.c: RpmhRsc,
      RpmhPm), which writes them into the TCS registers.  RpmhTcs says what the registers hold,
      RpmhCache what the cache means, RpmhFlush and RpmhSend join the layers, RpmhActive is
      about active batches beside the sleep and wake sets.
    - Bandwidth votes.  The interconnect provider (icc-rpmh.c) sums the bandwidth requests of a
      node, the BCM voter (bcm-voter.c) turns the sums of a BCM's nodes into votes and commits
      them through the RPMh client layer.  Bcm has both; BcmBatch proves how commands are
      divided, BcmVoter, BcmCommit and BcmSystem carry the votes down to the TCS registers of
      RpmhFlush, BcmVotes relates votes to demand, BcmCases runs the definitions.
    - Memory shared by processors.  smem.c (Smem) allocates named items in a global heap and in
      partitions of pairs of processors; smp2p.c (Smp2p) exchanges words of state bits through
      two such items and an interrupt.
    - Messages between processors.  qmi_encdec.c (QmiEncDec) turns C structures into TLV bytes
      and back, driven by tables; qmi_interface.c (QmiMsg) sends them over a socket, keeps the
      transactions that wait for responses and follows the name service.  QmiMsgInv and
      QmiMsgSystem are about a handle's life, QmiRpc about a call and its answer, QmiMsgCases
      has runs.  The name service (net/qrtr/ns.c: QrtrNs) tells clients which servers there are;
      QrtrNsInv and QrtrNsSystem are about what they hear, QrtrNsCases has runs.
    - Messages between virtual machines (HAB).  hab_pipe.c (HabPipe) is a byte ring in shared
      memory, qvm_comm.c (HabChan) sends headed messages over two rings, hab_msg.c, hab_vchan.c
      and hab_open.c (HabMsg) sort them into virtual channels; hab.c (HabOpen) opens, uses and
      closes these channels for a context, with the proofs in HabHandshake and runs in
      HabOpenCases; hab_mimex.c, hab_mem_linux.c and
      the handlers of hab_msg.c (HabMem, HabPages, HabShare) share memory over these messages.
    - The WALT scheduler's requests.  voter.c (WaltVoter) elects a value among the votes of
      clients, boost.c (WaltBoost) counts boost requests, walt_halt.c (WaltHalt) keeps CPUs
      halted while someone votes for it.
    - The WALT scheduler's core control (core_ctl.c).  CoreCtl evaluates how many CPUs each
      cluster needs, with its sysfs files and boosts, CoreCtlAct picks CPUs and pauses or resumes
      them through WaltHalt.  CoreCtlPick and CoreCtlExact are about the picking, CoreCtlVotes
      about the votes, CoreCtlSystem about all operations together, CoreCtlCases has runs.
    - The averages core control and the governors poll (sched_avg.c).  SchedAvg has the counters,
      polling and the hysteresis, SchedAvgSpec a specification by segments of time and the
      refinement, SchedAvgCases runs.
    - The WALT scheduler's load tracking (walt.c).  WaltData has the statistics of a task and of
      a run queue; WaltDemand the demand of a task and its prediction, WaltTop the tables of top
      tasks, WaltWindow the windows, busy time and [walt_update_task_ravg]; WaltMigrate how busy
      time follows a task to another CPU or group, WaltHooks enqueue and dequeue.  WaltSystem
      puts all run queues and tasks together, with every hook call as an operation.  WaltBusy
      and WaltInv prove the balance of busy time for one task against the rest, WaltStats and
      WaltQueue the same for the aggregate statistics, WaltTypes the types of the demand record.

    ** How code becomes Rocq

    This file has the machine integers ([u8] to [u32], [s32], the wrapping operators of
    [c_scope]), error codes, and the monad [KM]: code runs from a state to an outcome ([Done],
    or [Hang], [Bug], [Undef]) and a state; [Undef] stands for an access outside of memory or
    the use of an uninitialised variable.  [preserves], the database [kpres] and the tactic
    [kpreserve] carry invariants through a body.  Memory has byte memory ([put], [has],
    [within]), Kernel the classes [BitmapSearch] and [Device] for what the drivers call in the
    rest of the kernel, each with its laws and a reference instance.  A [struct] is a record
    without its locks, list links and wait queues; packed structures in shared memory are
    offsets into bytes.  Definitions keep the names of the source.  A wait is given the list of
    what the rest of the system does meanwhile, a loop that polls its bound.  Answers of the
    rest of the kernel (allocation, device tree, mailboxes, lock results, frame numbers) are
    arguments.

    ** What is proved

    - RpmhFlush: a flush that succeeds leaves the sleep and wake TCSes programmed with exactly
      the cached batches and valid votes, one that fails leaves the cache dirty; any sequence of
      client calls on sleep and wake sets keeps cache and registers coherent, as long as no
      vote is 0xFFFFFFFF.  RpmhActive: so does an active batch whose TCSes are apart.  RpmhCache: the cache refines a map from
      addresses to votes, and a clean cache would send the same again.  RpmhSend: an active
      request claims one free TCS and touches no other; solver mode excludes active requests.
      RpmhRsc: the slot search ends and finds room inside one TCS exactly when there is some.
      RpmhPm: the probe carves disjoint groups; no CPU is the last one down with a dirty cache.
      RpmhTcs: no two registers alias.  CmdDb: lookups find the entry of a name.
    - BcmSystem: whatever the requests, commits (of one payload each, with active writes that
      return) and flushes, the votes are the aggregation of the
      bandwidth asked for, and a flush that finds room leaves in the TCSes exactly the commands
      of the BCMs whose sleep and wake votes differ.  BcmBatch: commands stay inside their arrays
      and VCDs are kept together.  BcmVotes: requests add up in any order; a vote is zero only
      without demand.
    - SmemSafe: with any bytes in a partition a lookup ends inside the partition and an
      allocation of at most 2^32 bytes writes one header or nothing.  SmemHeap and SmemDev:
      well-formed heaps refine maps from items to contents, for items of one byte or more, and
      the exported call acts on the host's heap alone.  SmemProbe:
      the partition table is accepted exactly when it is consistent.
    - Smp2pLink: a link refines a bank of edge detectors, and restarts are acknowledged.
      Smp2pNames: published names are found.  Smp2pSafe: the interrupt handler stays inside the
      items whatever the peer wrote, as long as the local names have at most 15 bytes.
    - QmiSchema, QmiEncode, QmiRound: for every well-formed schema what is encoded is decoded to
      the same values.  QmiSafe: the decoder stays inside its buffers on any bytes and ends.
      QmiMsgSystem: in every life of a handle whose sends succeed and whose release meets no
      work, each server reported is withdrawn, the current
      socket knows all registrations and no transaction is left waiting.  QmiRpc: a request and
      its response carry their values to the handler and to the transaction.  QrtrNsSystem: while
      its sends succeed, what
      a client has heard from the name service is exactly the servers that its lookups ask for.
    - HabPipe: the ring is a queue of bytes with a commit point, and reads and writes stay
      inside it whatever the peer writes, as long as its size word is not above the real size.  HabChan: header fields are
      independent.  HabMsg: messages arrive in order at their channels, are received once each,
      the table of channels and the open queue stay consistent.  HabHandshake: a frontend and a
      backend that open against each other end with two channels that name each other; an open
      that is not answered, and closing, restore the state before.
    - HabPages: a page table is rebuilt to the pages it was made of, and one received from the
      other machine can be walked safely.  HabImport: while sends and allocations succeed,
      buffers exported from the start of an entry can be imported page for
      page, and a buffer that is imported cannot be taken back.
    - WaltSystem: in every state reached from the start of WALT by hook calls, in any order, the
      busy-time sums of a CPU cover what its tasks have in them and no check of the code (each
      of which panics the device) fails.  The premises [op_ok] are the kernel's guarantees (a
      call is about a task on its own CPU, clocks do not run backwards, a run queue is not idle
      for 2^31 windows; the window size is fixed) and two that it does not give: a migration,
      the enqueue after it and a group change see a clock past the task's last event or a run
      queue in the task's window, and a group change that settles a new task's migration reads
      its clocks in one window; WaltCases has the checks that fail otherwise.  WaltQueue: under
      the kernel's queueing rules ([queue_ok]) the statistics of a CPU are exactly the sums over
      its queued tasks and none of the queueing checks fails.
      WaltTypes: demand records keep their types, capping the number of windows pushed is
      exact, and predictions lie in the first used bucket.  WaltCases runs the definitions
      where the code departs from its comments.
    - CoreCtlSystem: core control's books match the votes and halted CPUs in every state it
      reaches, and it never pauses CPUs a cluster needs.  CoreCtlExact: how many CPUs are picked.
      SchedAvgSpec: a poll reports the time-weighted averages since the last one, between the
      least and the largest number of tasks.
    - WaltVoter, WaltBoost, WaltHalt: the elected value follows the enabled votes, boosts are
      active exactly while requested, CPUs are halted exactly while voted for.

    Examples next to the theorems run the definitions where the code departs from what it means
    to do, such as a page table of a buffer with an offset, or a release that races a second
    import.

    ** Bounds and fuel

    Loops over lists are structural.  The others carry fuel, and the theorems show how much is
    enough: the slot search takes the number of slots; RETRY_FUEL (1002) covers the retries of
    a pipe read (one per millisecond up to its limit); the dispatcher of a channel takes one
    more than the messages waiting; walks of a partition take one more than its size in bytes,
    because each entry advances; the decoder takes [decode_fuel], the length of the message and
    the size of the tables; the encoder the size of the tables.  A polling loop runs its binary
    counter, at most the number of microseconds of the source.

    ** Not modelled, and plans

    Logging, tracing, statistics for debugfs, memory barriers and the interleaving inside one
    operation that holds a lock.  Registration with the driver core, and mapping of resources.
    The rest of the repository (PCIe, USB, UFS, networking, clocks, regulators, cameras and
    other device drivers) is register sequencing against hardware whose behaviour is not in the
    tree, or glue to frameworks outside of it.  Of WALT's load tracking: a change of the window
    size, the irq work that aggregates loads at a rollover, and how tasks get into groups.
    Of HAB: creating and freeing contexts, making the physical channels, and the back ends for
    other hypervisors.  Of QRTR: its sockets and transports.  Races between threads that a lock does not exclude are
    not modelled, except where a component's theorems say so. *)

From Stdlib Require Export ZArith Lia.
From stdpp Require Export base functions list gmap strings numbers.
#[export] Set Default Goal Selector "!".
Open Scope Z_scope.
#[global] Arguments seqZ : simpl never.

(** ** Machine integers *)

Declare Scope c_scope.
Delimit Scope c_scope with C.

Definition u8 (z : Z) : Z := z mod 2 ^ 8.
Definition u16 (z : Z) : Z := z mod 2 ^ 16.
Definition u32 (z : Z) : Z := z mod 2 ^ 32.
Definition u64 (z : Z) : Z := z mod 2 ^ 64.
Definition s32 (z : Z) : Z := (z + 2 ^ 31) mod 2 ^ 32 - 2 ^ 31.

Notation "a +₃₂ b" := (u32 (a + b)) (at level 50, left associativity) : c_scope.
Notation "a -₃₂ b" := (u32 (a - b)) (at level 50, left associativity) : c_scope.
Open Scope c_scope.

Lemma u32_small z : 0 ≤ z < 2 ^ 32 → u32 z = z.
Proof. apply Z.mod_small. Qed.
Lemma u64_small z : 0 ≤ z < 2 ^ 64 → u64 z = z.
Proof. apply Z.mod_small. Qed.
Lemma u64_add_l a b : u64 (u64 a + b) = u64 (a + b).
Proof. apply Zplus_mod_idemp_l. Qed.
Lemma u64_mul_l a b : u64 (u64 a * b) = u64 (a * b).
Proof. apply Zmult_mod_idemp_l. Qed.
Lemma u32_range z : 0 ≤ u32 z < 2 ^ 32.
Proof. apply Z.mod_pos_bound. lia. Qed.
Lemma u32_diff a n : u32 (u32 (a + n) - a) = u32 n.
Proof. unfold u32. rewrite Zminus_mod_idemp_l. f_equal. lia. Qed.
Lemma u32_plus a b c : u32 (u32 (a + b) + c) = u32 (a + (b + c)).
Proof. unfold u32. rewrite Zplus_mod_idemp_l. f_equal. lia. Qed.
Lemma s32_small z : - 2 ^ 31 ≤ z < 2 ^ 31 → s32 z = z.
Proof. intros Hz. unfold s32. rewrite Z.mod_small by lia. lia. Qed.
Lemma s32_mod z : - 2 ^ 31 ≤ z < 2 ^ 31 → s32 (z mod 2 ^ 32) = z.
Proof. intros Hz. unfold s32. rewrite Zplus_mod_idemp_l. fold (s32 z). by apply s32_small. Qed.

Definition U8_MAX : Z := 255.
Definition UINT_MAX : Z := 2 ^ 32 - 1.
Definition INT_MAX : Z := 2 ^ 31 - 1.
Definition INT_MIN : Z := - 2 ^ 31.

(** ** Error codes (include/uapi/asm-generic/errno-base.h, linux/errno.h) *)

Definition EIO : Z := 5.
Definition EAGAIN : Z := 11.
Definition ENOMEM : Z := 12.
Definition EFAULT : Z := 14.
Definition EBUSY : Z := 16.
Definition ENODEV : Z := 19.
Definition EINVAL : Z := 22.
Definition ETIMEDOUT : Z := 110.
Definition EPROBE_DEFER : Z := 517.
Definition ETOOSMALL : Z := 525.

(** ** A monad for kernel code

    Code that mutates a driver context runs in [KM]: from a state it ends with
    an outcome and a new state.  [Hang] is a wait that the environment never
    ends, [Bug] a [BUG_ON] that fires, [Undef] the use of an uninitialised
    variable; error codes are ordinary values. *)

Inductive outcome (A : Type) : Type :=
  | Done (a : A)
  | Hang
  | Bug
  | Undef.
Arguments Done {A} a.
Arguments Hang {A}.
Arguments Bug {A}.
Arguments Undef {A}.

Definition KM (S A : Type) : Type := S → outcome A * S.
Definition kret {S A} (a : A) : KM S A := λ s, (Done a, s).
Definition kfail {S A} (o : outcome A) : KM S A := λ s, (o, s).
Definition kbind {S A B} (m : KM S A) (k : A → KM S B) : KM S B :=
  λ s, match m s with
       | (Done a, s') => k a s'
       | (Hang, s') => (Hang, s')
       | (Bug, s') => (Bug, s')
       | (Undef, s') => (Undef, s')
       end.
Definition kget {S} : KM S S := λ s, (Done s, s).
Definition kgets {S A} (f : S → A) : KM S A := λ s, (Done (f s), s).
Definition kmodify {S} (f : S → S) : KM S unit := λ s, (Done tt, f s).

Notation "'let*' x ':=' m 'in' k" := (kbind m (λ x, k))
  (at level 10, x binder, m at level 100, k at level 200) : c_scope.
Notation "m ;;; k" := (kbind m (λ _, k)) (at level 100, right associativity) : c_scope.

Fixpoint for_each {S A} (l : list A) (body : A → KM S unit) : KM S unit :=
  match l with
  | [] => kret tt
  | x :: l => body x ;;; for_each l body
  end.

(** [for_until l body] is a [for] loop whose body may [return]: it stops at the
    first element whose body yields a value. *)
Fixpoint for_until {S A R} (l : list A) (body : A → KM S (option R)) : KM S (option R) :=
  match l with
  | [] => kret None
  | x :: l =>
      let* r := body x in
      match r with Some _ => kret r | None => for_until l body end
  end.

(** [poll n body] runs [body] at most [n] times, until it yields a value.  The
    counter is binary, so that a bound such as [USEC_PER_SEC] costs nothing
    when the body succeeds early. *)
Fixpoint poll {S R} (n : positive) (body : KM S (option R)) : KM S (option R) :=
  match n with
  | xH => body
  | xO p =>
      let* r := poll p body in
      match r with Some _ => kret r | None => poll p body end
  | xI p =>
      let* r := body in
      match r with
      | Some _ => kret r
      | None =>
          let* r := poll p body in
          match r with Some _ => kret r | None => poll p body end
      end
  end.

(** [wait_event env cond]: sleep until [cond] yields a value; each element of
    [env] is what the rest of the system does while the caller sleeps. *)
Fixpoint wait_event {S R} (env : list (S → S)) (cond : KM S (option R)) : KM S R :=
  let* r := cond in
  match r with
  | Some x => kret x
  | None =>
      match env with
      | [] => kfail Hang
      | e :: env => kmodify e ;;; wait_event env cond
      end
  end.

Lemma kbind_Done {S A B} (m : KM S A) (k : A → KM S B) s a s' :
  m s = (Done a, s') → kbind m k s = k a s'.
Proof. intros H. unfold kbind. by rewrite H. Qed.

Lemma kbind_inv {S A B} (m : KM S A) (k : A → KM S B) s b s' :
  kbind m k s = (Done b, s') → ∃ a s1, m s = (Done a, s1) ∧ k a s1 = (Done b, s').
Proof. unfold kbind. destruct (m s) as [[a| | |] s1]; naive_solver. Qed.

Lemma poll_first {S R} n (body : KM S (option R)) s r s' :
  body s = (Done (Some r), s') → poll n body s = (Done (Some r), s').
Proof.
  intros H. revert s s' H.
  induction n as [n IH|n IH|]; intros s s' H; simpl; [| |done].
  - by rewrite (kbind_Done _ _ _ _ _ H).
  - by rewrite (kbind_Done _ _ _ _ _ (IH _ _ H)).
Qed.

(** ** Bit masks and the kernel's bitmap API, on one machine word *)

Definition BIT (n : Z) : Z := Z.shiftl 1 n.
Definition test_bit (n map : Z) : bool := Z.testbit map n.
Definition set_bit (n map : Z) : Z := Z.setbit map n.
Definition clear_bit (n map : Z) : Z := Z.clearbit map n.
Definition set_bits (map size : Z) : list Z := filter (λ i, Z.testbit map i = true) (seqZ 0 size).
Definition bitmap_set (map start n : Z) : Z := Z.lor map (Z.shiftl (Z.ones n) start).
Definition bitmap_empty (map n : Z) : bool := Z.land map (Z.ones n) =? 0.
Definition bitmap_zero (map n : Z) : Z := if n =? 0 then map else 0.

(** ** Little-endian fields in byte buffers *)

Definition zlen {A} (l : list A) : Z := Z.of_nat (length l).

Lemma zlen_app {A} (l l' : list A) : zlen (l ++ l') = zlen l + zlen l'.
Proof. unfold zlen. rewrite length_app. lia. Qed.
Lemma zlen_nonneg {A} (l : list A) : 0 ≤ zlen l.
Proof. unfold zlen. lia. Qed.

Fixpoint le_decode (bs : list Z) : Z :=
  match bs with
  | [] => 0
  | b :: bs => b + 256 * le_decode bs
  end.

Fixpoint le_encode (n : nat) (z : Z) : list Z :=
  match n with
  | O => []
  | S n => z mod 256 :: le_encode n (z / 256)
  end.

(** [subrange off n bs]: the [n] bytes of [bs] at [off], [None] when the access
    leaves the buffer. *)
Definition subrange {A} (off n : Z) (bs : list A) : option (list A) :=
  if bool_decide (0 ≤ off ∧ 0 ≤ n ∧ off + n ≤ Z.of_nat (length bs))
  then Some (take (Z.to_nat n) (drop (Z.to_nat off) bs))
  else None.

Definition read_le (n : Z) (bs : list Z) (off : Z) : option Z :=
  le_decode <$> subrange off n bs.

Lemma length_le_encode n z : length (le_encode n z) = n.
Proof. revert z; induction n as [|n IH]; intros z; simpl; [done|by rewrite IH]. Qed.

Lemma le_decode_encode n z : le_decode (le_encode n z) = z mod 2 ^ (8 * Z.of_nat n).
Proof.
  revert z; induction n as [|n IH]; intros z; simpl.
  { by rewrite Z.mod_1_r. }
  rewrite IH.
  replace (8 * Z.of_nat (S n)) with (8 + 8 * Z.of_nat n) by lia.
  rewrite Z.pow_add_r by lia. change (2 ^ 8) with 256.
  rewrite Z.rem_mul_r by (try apply Z.pow_pos_nonneg; lia). done.
Qed.

Lemma le_encode_bytes n z : Forall (λ b, 0 ≤ b < 256) (le_encode n z).
Proof.
  revert z; induction n as [|n IH]; intros z; simpl; constructor; [|by apply IH].
  by apply Z.mod_pos_bound.
Qed.

Lemma subrange_Some {A} off n (bs r : list A) :
  subrange off n bs = Some r →
  0 ≤ off ∧ 0 ≤ n ∧ off + n ≤ Z.of_nat (length bs) ∧
  r = take (Z.to_nat n) (drop (Z.to_nat off) bs).
Proof. unfold subrange. case_bool_decide; [|done]. naive_solver. Qed.

Lemma subrange_app {A} off n (pre mid post : list A) :
  off = Z.of_nat (length pre) → n = Z.of_nat (length mid) →
  subrange off n (pre ++ mid ++ post) = Some mid.
Proof.
  intros -> ->. unfold subrange. rewrite bool_decide_true by (rewrite !length_app; lia).
  rewrite !Nat2Z.id, drop_app_length, take_app_length. done.
Qed.

Lemma subrange_within {A} k off n (pre mid post : list A) :
  off = Z.of_nat (length pre) + k → 0 ≤ k → k + n ≤ Z.of_nat (length mid) →
  subrange off n (pre ++ mid ++ post) = subrange k n mid.
Proof.
  intros -> Hk Hn. unfold subrange. rewrite !length_app.
  destruct (decide (0 ≤ n)) as [Hn0|Hn0]; [|by rewrite !bool_decide_false by lia].
  rewrite !bool_decide_true by lia. f_equal.
  rewrite drop_app_ge by lia. replace (Z.to_nat _ - length pre)%nat with (Z.to_nat k) by lia.
  rewrite drop_app_le by lia. rewrite take_app_le; [done|]. rewrite length_drop. lia.
Qed.

Lemma read_le_encode n z : 0 ≤ z < 2 ^ (8 * Z.of_nat n) → le_decode (le_encode n z) = z.
Proof. intros Hz. by rewrite le_decode_encode, Z.mod_small. Qed.

(** ** Invariants of kernel code

    [preserves I m]: however [m] ends, the state satisfies [I] again.  The
    database [kpres] holds the rules for the combinators, and components add
    their own operations; [kpreserve] walks through a function body with it. *)

Definition preserves {S A} (I : S → Prop) (m : KM S A) : Prop := ∀ s, I s → I (m s).2.

Section preserves.
Context {S : Type} (I : S → Prop).

Lemma preserves_ret {A} (a : A) : preserves I (kret a).
Proof. by intros s Hs. Qed.
Lemma preserves_fail {A} (o : outcome A) : preserves I (kfail o).
Proof. by intros s Hs. Qed.
Lemma preserves_gets {A} (f : S → A) : preserves I (kgets f).
Proof. by intros s Hs. Qed.
Lemma preserves_modify f : (∀ s, I s → I (f s)) → preserves I (kmodify f).
Proof. intros Hf s Hs. by apply Hf. Qed.

Lemma preserves_bind {A B} (m : KM S A) (k : A → KM S B) :
  preserves I m → (∀ a, preserves I (k a)) → preserves I (kbind m k).
Proof.
  intros Hm Hk s Hs. unfold kbind. specialize (Hm s Hs).
  destruct (m s) as [[a| | |] s']; simpl in *; [by apply Hk|done..].
Qed.

Lemma preserves_for_each {A} (l : list A) body :
  (∀ x, preserves I (body x)) → preserves I (for_each l body).
Proof.
  intros Hb. induction l as [|x l IH]; simpl; [apply preserves_ret|by apply preserves_bind].
Qed.

Lemma preserves_for_until {A R} (l : list A) (body : A → KM S (option R)) :
  (∀ x, preserves I (body x)) → preserves I (for_until l body).
Proof.
  intros Hb. induction l as [|x l IH]; simpl; [apply preserves_ret|].
  apply preserves_bind; [done|]. intros [r|]; [apply preserves_ret|done].
Qed.

Lemma preserves_poll {R} n (body : KM S (option R)) : preserves I body → preserves I (poll n body).
Proof.
  intros Hb. induction n as [n IH|n IH|]; simpl; [| |done];
    repeat (apply preserves_bind; [done|]; intros [?|]; [apply preserves_ret|]); done.
Qed.

Lemma preserves_wait_event {R} env (cond : KM S (option R)) :
  Forall (λ e, ∀ s, I s → I (e s)) env → preserves I cond → preserves I (wait_event env cond).
Proof.
  intros He Hc. induction He as [|e env He _ IH]; simpl;
    (apply preserves_bind; [done|]; intros [?|]; [apply preserves_ret|]).
  - apply preserves_fail.
  - apply preserves_bind; [by apply preserves_modify|done].
Qed.
End preserves.

Create HintDb kpres.
#[export] Hint Resolve preserves_ret preserves_fail preserves_gets : kpres.


Ltac kpreserve :=
  repeat first
    [ progress intros
    | progress cbv beta
    | progress cbv zeta
    | match goal with
      | |- preserves _ (kbind _ _) => apply preserves_bind
      | |- preserves _ (for_each _ _) => apply preserves_for_each
      | |- preserves _ (for_until _ _) => apply preserves_for_until
      | |- preserves _ (poll _ _) => apply preserves_poll
      | |- preserves _ (match ?x with _ => _ end) => destruct x
      end
    | solve [auto with kpres nocore] ].

(** ** Association lists *)

Lemma list_to_map_update {A} (l : list (Z * A)) i a x y :
  NoDup l.*1 → l !! i = Some (a, x) →
  (list_to_map (<[i := (a, y)]> l) : gmap Z A) = <[a := y]> (list_to_map l).
Proof.
  revert i. induction l as [|[b z] l IH]; intros [|i] Hnd Hi; simplify_eq/=.
  - by rewrite insert_insert_eq.
  - apply list.NoDup_cons in Hnd as [Hb Hnd]. rewrite (IH i) by done.
    rewrite insert_insert_ne; [done|]. intros ->. apply Hb.
    apply (list_elem_of_lookup_2 l.*1 i). by rewrite list_lookup_fmap, Hi.
Qed.

(** ** Running loops under an invariant *)

Lemma poll_total {S R} (I : S → Prop) n (body : KM S (option R)) s :
  (∀ s, I s → ∃ r s', body s = (Done r, s') ∧ I s') → I s →
  ∃ r s', poll n body s = (Done r, s') ∧ I s'.
Proof.
  intros Hb. revert s.
  assert (∀ m : KM S (option R), (∀ s, I s → ∃ r s', m s = (Done r, s') ∧ I s') → ∀ s (k : KM S (option R)),
    (∀ s, I s → ∃ r s', k s = (Done r, s') ∧ I s') → I s →
    ∃ r s', (let* r := m in match r with Some _ => kret r | None => k end) s = (Done r, s') ∧ I s') as Hseq.
  { intros m Hm s k Hk Hs. destruct (Hm s Hs) as ([r|] & s1 & Hr & Hs1);
      rewrite (kbind_Done _ _ _ _ _ Hr); [by eexists _, _|by apply Hk]. }
  induction n as [n IH|n IH|]; intros s Hs; simpl; [| |by apply Hb].
  - apply Hseq; [done| |done]. intros. by apply Hseq.
  - by apply Hseq.
Qed.

(** A loop that looks for an element with property [P], under the invariant [I]. *)
Lemma for_until_search {S A R} (I : S → Prop) (P : A → Prop) (r0 : R) (l : list A) body s :
  (∀ x s, x ∈ l → I s → ∃ r s', body x s = (Done r, s') ∧ I s' ∧
     (r = None ∧ ¬ P x ∨ r = Some r0 ∧ P x)) →
  I s →
  ∃ r s', for_until l body s = (Done r, s') ∧ I s' ∧
    (r = None ∧ (∀ x, x ∈ l → ¬ P x) ∨ r = Some r0 ∧ ∃ x, x ∈ l ∧ P x).
Proof.
  revert s. induction l as [|x l IH]; intros s Hb Hs; simpl.
  { exists None, s. split; [done|]. split; [done|]. left. split; [done|]. set_solver. }
  destruct (Hb x s ltac:(left) Hs) as (r & s1 & Hr & Hs1 & Hcase).
  rewrite (kbind_Done _ _ _ _ _ Hr). destruct Hcase as [[-> Hx]|[-> Hx]].
  - destruct (IH s1) as (r & s2 & Hr2 & Hs2 & Hcase); [set_solver|done|].
    exists r, s2. split; [done|]. split; [done|]. set_solver.
  - exists (Some r0), s1. split; [done|]. split; [done|]. right. set_solver.
Qed.

Lemma for_until_None {S A R} (l : list A) (body : A → KM S (option R)) s s' x :
  for_until l body s = (Done None, s') → x ∈ l → ∃ s1 s2, body x s1 = (Done None, s2).
Proof.
  revert s. induction l as [|y l IH]; intros s Hrun Hx; [by apply not_elem_of_nil in Hx|].
  apply kbind_inv in Hrun as ([r|] & s1 & Hy & Hrun); [done|].
  apply elem_of_cons in Hx as [->|Hx]; eauto.
Qed.

Lemma for_until_Some {S A R} (l : list A) (body : A → KM S (option R)) s s' r :
  for_until l body s = (Done (Some r), s') → ∃ x s1 s2, x ∈ l ∧ body x s1 = (Done (Some r), s2).
Proof.
  revert s. induction l as [|y l IH]; intros s Hrun; [done|].
  apply kbind_inv in Hrun as ([r'|] & s1 & Hy & Hrun).
  - injection Hrun as <- <-. exists y, s, s1. split; [by left|done].
  - destruct (IH _ Hrun) as (x & s2 & s3 & Hx & Hb). exists x, s2, s3. split; [by right|done].
Qed.

(** Joining two bytes. *)
Lemma lor_bytes b c : 0 ≤ b < 256 → 0 ≤ c → Z.lor b (Z.shiftl c 8) = b + 256 * c.
Proof.
  intros Hb Hc. rewrite <- Z.add_nocarry_lor; [rewrite Z.shiftl_mul_pow2 by lia; lia|].
  apply Z.bits_inj'. intros n Hn. rewrite Z.land_spec, Z.testbit_0_l.
  destruct (decide (n < 8)).
  - rewrite Z.shiftl_spec_low by lia. by rewrite andb_false_r.
  - rewrite <- (Z.mod_small b (2 ^ 8)) by (change (2 ^ 8) with 256; lia).
    by rewrite Z.mod_pow2_bits_high by lia.
Qed.
