(* ===== verification/Memory.v ===== *)
(** * Byte memory

    A region of memory is a list of bytes and an address in it is an offset.  [put]
    overwrites a range, [has] says what stands at an offset, [within] and [same_on]
    bound what changed between two states.  The components that work on raw memory
    share these lemmas. *)

From S2P Require Import Prelude.

Definition is_byte (b : Z) : Prop := 0 ≤ b < 256.

(** ** What changed *)

(** [m'] differs from [m] only inside [dst, dst + size). *)
Definition within (dst size : Z) (m m' : list Z) : Prop :=
  length m' = length m ∧ ∀ i : nat, ¬ (dst ≤ Z.of_nat i < dst + size) → m' !! i = m !! i.

Section within.
Context (dst size : Z).

Lemma within_refl m : within dst size m m.
Proof. done. Qed.
Lemma within_trans m1 m2 m3 : within dst size m1 m2 → within dst size m2 m3 → within dst size m1 m3.
Proof. intros [Hl1 H1] [Hl2 H2]. split; [congruence|]. intros i Hi. by rewrite H2, H1. Qed.

End within.

Lemma within_zlen dst size m m' : within dst size m m' → zlen m' = zlen m.
Proof. intros [Hl _]. unfold zlen. by rewrite Hl. Qed.

Lemma within_mono dst size dst' size' m m' :
  within dst size m m' → dst' ≤ dst → dst + size ≤ dst' + size' → within dst' size' m m'.
Proof. intros [Hl H] H1 H2. split; [done|]. intros i Hi. apply H. lia. Qed.

(** ** Writing *)

Definition put (off : Z) (bs m : list Z) : list Z :=
  take (Z.to_nat off) m ++ bs ++ drop (Z.to_nat off + length bs) m.

Lemma zlen_put off bs m : 0 ≤ off → off + zlen bs ≤ zlen m → zlen (put off bs m) = zlen m.
Proof. intros H1 H2. unfold put, zlen in *. rewrite !length_app, length_take, length_drop. lia. Qed.

Lemma put_nil off m : put off [] m = m.
Proof. unfold put. rewrite Nat.add_0_r. apply take_drop. Qed.

Lemma put_app off a b m :
  0 ≤ off → off + zlen a + zlen b ≤ zlen m → put (off + zlen a) b (put off a m) = put off (a ++ b) m.
Proof.
  intros H1 H2. unfold put, zlen in *.
  replace (Z.to_nat (off + Z.of_nat (length a))) with (Z.to_nat off + length a)%nat by lia.
  rewrite take_app_ge, drop_app_ge by (rewrite length_take; lia). rewrite length_take, Nat.min_l by lia.
  replace (Z.to_nat off + length a - Z.to_nat off)%nat with (length a) by lia.
  replace (Z.to_nat off + length a + length b - Z.to_nat off)%nat with (length a + length b)%nat by lia.
  rewrite take_app_length, <- !(app_assoc). do 2 f_equal. rewrite drop_app_ge by lia. rewrite drop_drop, length_app.
  do 2 f_equal. lia.
Qed.

Lemma put_before off a b m :
  0 ≤ off → off + zlen a + zlen b ≤ zlen m → put off a (put (off + zlen a) b m) = put off (a ++ b) m.
Proof.
  intros H1 H2. unfold put, zlen in *.
  replace (Z.to_nat (off + Z.of_nat (length a))) with (Z.to_nat off + length a)%nat by lia.
  rewrite take_app_le by (rewrite length_take; lia). rewrite take_take, Nat.min_l by lia.
  rewrite (drop_app_ge (take _ _)) by (rewrite length_take; lia).
  rewrite length_take, Nat.min_l by lia. rewrite Nat.sub_diag. rewrite length_app, <- app_assoc.
  by rewrite Nat.add_assoc.
Qed.

Lemma put_next off off' a b m : off' = off + zlen a → 0 ≤ off → off' + zlen b ≤ zlen m →
  put off' b (put off a m) = put off (a ++ b) m.
Proof. intros ->. apply put_app. Qed.

Lemma put_prev off off' a b m : off' = off + zlen a → 0 ≤ off → off' + zlen b ≤ zlen m →
  put off a (put off' b m) = put off (a ++ b) m.
Proof. intros ->. apply put_before. Qed.

Lemma put_over off a b m : zlen a = zlen b → 0 ≤ off → off + zlen a ≤ zlen m → put off a (put off b m) = put off a m.
Proof.
  intros Hl H1 H2. unfold put, zlen in *. rewrite take_app_ge, drop_app_ge by (rewrite length_take; lia).
  rewrite length_take, Nat.min_l by lia. rewrite Nat.sub_diag, take_0, app_nil_r.
  replace (Z.to_nat off + length a - Z.to_nat off)%nat with (length a) by lia.
  rewrite drop_app_ge by lia. rewrite drop_drop. do 3 f_equal. lia.
Qed.

Lemma zlen_le n z : zlen (le_encode n z) = Z.of_nat n.
Proof. unfold zlen. by rewrite length_le_encode. Qed.

Lemma subrange_put off bs m :
  0 ≤ off → off + zlen bs ≤ zlen m → subrange off (zlen bs) (put off bs m) = Some bs.
Proof.
  intros H1 H2. unfold put. apply subrange_app; [|done]. unfold zlen in *. rewrite length_take. lia.
Qed.

Lemma put_within off bs m : 0 ≤ off → off + zlen bs ≤ zlen m → within off (zlen bs) m (put off bs m).
Proof.
  intros H1 H2. pose proof (zlen_put off bs m H1 H2) as Hl. unfold zlen in *. split; [lia|]. intros i Hi. unfold put.
  destruct (decide (i < Z.to_nat off)%nat) as [Hlt|Hge].
  - rewrite lookup_app_l, lookup_take_lt; [done|lia|]. rewrite length_take. lia.
  - rewrite lookup_app_r; rewrite length_take; [|lia]. rewrite lookup_app_r by lia.
    rewrite lookup_drop. f_equal. lia.
Qed.

(** Reading depends on the bytes read. *)
Definition same_on (lo hi : Z) (m m' : list Z) : Prop :=
  length m' = length m ∧ ∀ i : nat, lo ≤ Z.of_nat i < hi → m' !! i = m !! i.

Lemma subrange_same lo hi off n m m' :
  same_on lo hi m m' → lo ≤ off → off + n ≤ hi → subrange off n m' = subrange off n m.
Proof.
  intros [Hl H] H1 H2. unfold subrange. rewrite Hl. case_bool_decide as Hb; [|done]. f_equal.
  apply list_eq. intros i. destruct (decide (i < Z.to_nat n)%nat) as [Hi|Hi].
  - rewrite !lookup_take_lt, !lookup_drop by done. apply H. lia.
  - by rewrite !lookup_take_ge by lia.
Qed.

Lemma same_on_mono lo hi lo' hi' m m' : same_on lo hi m m' → lo ≤ lo' → hi' ≤ hi → same_on lo' hi' m m'.
Proof. intros [Hl H] H1 H2. split; [done|]. intros i Hi. apply H. lia. Qed.

Lemma within_same dst size lo hi m m' :
  within dst size m m' → hi ≤ dst ∨ dst + size ≤ lo → same_on lo hi m m'.
Proof. intros [Hl H] Hd. split; [done|]. intros i Hi. apply H. lia. Qed.

Lemma read_le_same lo hi n off m m' :
  same_on lo hi m m' → lo ≤ off → off + n ≤ hi → read_le n m' off = read_le n m off.
Proof. intros H H1 H2. unfold read_le. by rewrite (subrange_same lo hi _ _ m m'). Qed.

Lemma read_zero m off : 0 ≤ off → m !! Z.to_nat off = Some 0 → read_le 1 m off = Some 0.
Proof.
  intros Ho Hm. unfold read_le, subrange. pose proof (lookup_lt_Some _ _ _ Hm). rewrite bool_decide_true by lia.
  cbn [fmap option_fmap option_map]. rewrite (drop_S _ 0 _ Hm). done.
Qed.

Lemma put_zeros pre w k n :
  zlen pre = k → k + zlen w ≤ n →
  put 0 pre (put k w (replicate (Z.to_nat n) 0)) = pre ++ w ++ replicate (Z.to_nat (n - k - zlen w)) 0.
Proof.
  intros <- Hn. pose proof (zlen_nonneg pre). pose proof (zlen_nonneg w).
  assert (zlen (replicate (Z.to_nat n) (0 : Z)) = n) as Hz by (unfold zlen; rewrite length_replicate; lia).
  replace (zlen pre) with (0 + zlen pre) at 1 by lia. rewrite put_before by lia.
  unfold put. cbn [Z.to_nat take app]. rewrite <- app_assoc, drop_replicate, Nat.add_0_l, length_app.
  replace (Z.to_nat n - (length pre + length w))%nat with (Z.to_nat (n - zlen pre - zlen w)) by (unfold zlen in *; lia). done.
Qed.

(** ** What stands where *)

(** The bytes [bs] stand at [off] in [src]. *)
Definition has (src : list Z) (off : Z) (bs : list Z) : Prop := subrange off (zlen bs) src = Some bs.

Lemma subrange_zlen {A} off n (m bs : list A) : subrange off n m = Some bs → zlen bs = n.
Proof.
  intros (H1 & H2 & H3 & ->)%subrange_Some. unfold zlen. rewrite length_take, length_drop. lia.
Qed.

Lemma subrange_has off n m bs : subrange off n m = Some bs → has m off bs.
Proof. intros H. unfold has. by rewrite (subrange_zlen _ _ _ _ H). Qed.

Lemma has_split src off bs : has src off bs ↔ ∃ pre post, src = pre ++ bs ++ post ∧ off = zlen pre.
Proof.
  split.
  - intros (H1 & H2 & H3 & Hbs)%subrange_Some. unfold zlen in *.
    exists (take (Z.to_nat off) src), (drop (length bs) (drop (Z.to_nat off) src)). split.
    + rewrite Hbs at 1. rewrite Nat2Z.id, take_drop, take_drop. done.
    + rewrite length_take. lia.
  - intros (pre & post & -> & ->). by apply subrange_app.
Qed.

Lemma has_app src off a b : has src off (a ++ b) ↔ has src off a ∧ has src (off + zlen a) b.
Proof.
  split.
  - intros (pre & post & -> & ->)%has_split. split; apply has_split.
    + exists pre, (b ++ post). by rewrite <- app_assoc.
    + exists (pre ++ a), post. by rewrite <- !app_assoc, zlen_app.
  - intros [(pre & post & -> & ->)%has_split (pre' & post' & Heq & Hl)%has_split]. apply has_split.
    rewrite <- zlen_app in Hl. unfold zlen in Hl. rewrite app_assoc in Heq.
    apply app_inj_1 in Heq as [<- ->]; [|lia]. exists pre, post'. by rewrite <- !app_assoc.
Qed.

Lemma has_range src off bs : has src off bs → 0 ≤ off ∧ off + zlen bs ≤ zlen src.
Proof. intros (H1 & _ & H3 & _)%subrange_Some. done. Qed.

(** Bytes decode to a number of their width. *)
Lemma le_decode_range bs : Forall is_byte bs → 0 ≤ le_decode bs < 256 ^ zlen bs.
Proof.
  unfold zlen. induction 1 as [|b bs Hb _ IH]; [done|]. unfold is_byte in Hb. cbn [le_decode length].
  rewrite Nat2Z.inj_succ, Z.pow_succ_r by lia. lia.
Qed.
