(* ===== verification/Kernel.v ===== *)
(** * Interfaces of the drivers to what lies below them

    The searches of the kernel's bitmap library and the memory-mapped hardware
    are not part of this source tree.  They are classes here: the operations,
    and separately the documented behaviour that theorems rely on.  A
    reference instance of each shows that the laws can be met and lets the
    drivers run on concrete inputs. *)

From S2P Require Import Prelude.

(** ** Bitmap searches (linux/bitmap.h, linux/find.h) *)

Class BitmapSearch := {
  find_next_bit : Z → Z → Z → Z;                  (* map, size, start *)
  find_next_zero_bit : Z → Z → Z → Z;
  bitmap_find_next_zero_area : Z → Z → Z → Z → Z; (* map, size, start, nr *)
}.

Definition area_free (map k nr : Z) : Prop := ∀ i, k ≤ i < k + nr → Z.testbit map i = false.

Class BitmapSearchSpec (B : BitmapSearch) : Prop := {
  find_next_bit_spec map size start :
    let r := find_next_bit map size start in
    (r = size ∨ start ≤ r < size ∧ Z.testbit map r = true) ∧
    (∀ k, start ≤ k < size → k < r → Z.testbit map k = false);
  find_next_zero_bit_spec map size start :
    let r := find_next_zero_bit map size start in
    (r = size ∨ start ≤ r < size ∧ Z.testbit map r = false) ∧
    (∀ k, start ≤ k < size → k < r → Z.testbit map k = true);
  zero_area_spec map size start nr :
    0 ≤ start → 0 < nr →
    let r := bitmap_find_next_zero_area map size start nr in
    (size < r ∧ ∀ k, start ≤ k → k + nr ≤ size → ¬ area_free map k nr) ∨
    (start ≤ r ∧ r + nr ≤ size ∧ area_free map r nr ∧
     ∀ k, start ≤ k < r → ¬ area_free map k nr);
}.

(** Reference instance: linear searches. *)
Definition first_in (P : Z → bool) (l : list Z) (d : Z) : Z :=
  match list_find (λ i, P i = true) l with Some (_, i) => i | None => d end.

Definition area_freeb (map k nr : Z) : bool :=
  forallb (λ i, negb (Z.testbit map i)) (seqZ k nr).

#[export] Instance linear_search : BitmapSearch := {|
  find_next_bit map size start := first_in (λ i, Z.testbit map i) (seqZ start (size - start)) size;
  find_next_zero_bit map size start :=
    first_in (λ i, negb (Z.testbit map i)) (seqZ start (size - start)) size;
  bitmap_find_next_zero_area map size start nr :=
    first_in (λ k, area_freeb map k nr) (seqZ start (size - nr + 1 - start)) (size + nr);
|}.

Lemma area_freeb_spec map k nr : area_freeb map k nr = true ↔ area_free map k nr.
Proof.
  unfold area_freeb, area_free. rewrite forallb_forall. split.
  - intros H i Hi. specialize (H i).
    rewrite <- list_elem_of_In, elem_of_seqZ in H. apply negb_true_iff, H. lia.
  - intros H i. rewrite <- list_elem_of_In, elem_of_seqZ. intros Hi. rewrite H; [done|lia].
Qed.

Lemma first_in_spec P start n d :
  let r := first_in P (seqZ start n) d in
  (r = d ∧ (∀ k, start ≤ k < start + n → P k = false)) ∨
  (start ≤ r < start + n ∧ P r = true ∧ ∀ k, start ≤ k < r → P k = false).
Proof.
  unfold first_in. destruct (list_find _ _) as [[i r]|] eqn:E; simpl.
  - right. apply list_find_Some in E as (Hl & HP & Hmin).
    apply lookup_seqZ in Hl as [-> Hi]. split; [lia|]. split; [done|].
    intros k Hk. apply not_true_iff_false. eapply (Hmin (Z.to_nat (k - start)) k); [|lia].
    apply lookup_seqZ. lia.
  - left. split; [done|]. intros k Hk. apply list_find_None in E.
    rewrite list.Forall_forall in E. apply not_true_iff_false. apply E. apply elem_of_seqZ. lia.
Qed.

#[export] Instance linear_search_spec : BitmapSearchSpec linear_search.
Proof.
  split.
  - intros map size start. simpl.
    destruct (first_in_spec (λ i, Z.testbit map i) start (size - start) size)
      as [[-> H]|(Hr & HP & H)].
    + split; [by left|]. intros k Hk _. apply H. lia.
    + split; [right; split; [lia|done]|]. intros k Hk Hkr. apply H. lia.
  - intros map size start. simpl.
    destruct (first_in_spec (λ i, negb (Z.testbit map i)) start (size - start) size)
      as [[-> H]|(Hr & HP & H)].
    + split; [by left|]. intros k Hk _. apply negb_false_iff, H. lia.
    + split; [right; split; [lia|by apply negb_true_iff]|].
      intros k Hk Hkr. apply negb_false_iff, H. lia.
  - intros map size start nr Hs Hnr. simpl.
    destruct (first_in_spec (λ k, area_freeb map k nr) start (size - nr + 1 - start) (size + nr))
      as [[-> H]|(Hr & HP & H)].
    + left. split; [lia|]. intros k Hk Hkn. rewrite <- area_freeb_spec, H by lia. done.
    + right. split; [lia|]. split; [lia|]. split; [by apply area_freeb_spec|].
      intros k Hk. rewrite <- area_freeb_spec, H by lia. done.
Qed.

(** ** Memory-mapped registers (readl, writel) *)

Class Device := {
  dev : Type;
  readl : Z → dev → Z * dev;          (* reads may have side effects *)
  writel : Z → Z → dev → dev;         (* address, value *)
}.

(** [stored] is the set of addresses at which the hardware keeps what software
    wrote; elsewhere (status, interrupt and trigger registers) it answers as it
    likes.  [peek] observes a stored register without touching the device. *)
Class StorageDevice (D : Device) := {
  stored : Z → Prop;
  peek : dev → Z → Z;
  read_stored a d : stored a → (readl a d).1 = peek d a;
  read_keeps a b d : stored b → peek (readl a d).2 b = peek d b;
  write_stored a v d : stored a → peek (writel a v d) a = v;
  write_keeps a b v d : stored b → a ≠ b → peek (writel a v d) b = peek d b;
}.

(** Reference instance: every register is storage, initially zero. *)
#[export] Instance mem_device : Device := {|
  dev := gmap Z Z;
  readl a d := (default 0 (d !! a), d);
  writel a v d := <[a := v]> d;
|}.

#[export] Instance mem_storage : StorageDevice mem_device.
Proof.
  refine {| stored := λ _, True; peek := λ (d : @dev mem_device) a, default 0 ((d : gmap Z Z) !! a) |}.
  - done.
  - done.
  - intros a v d _. simpl. by rewrite lookup_insert_eq.
  - intros a b v d _ Hne. simpl. by rewrite lookup_insert_ne.
Defined.
