(* ===== verification/CmdDb.v ===== *)
(** * The command database (drivers/soc/qcom/cmd-db.c)

    The boot firmware leaves in memory a table that maps resource names to
    the addresses of the RPMh accelerators.  [cmd_db_header] is the mapped
    table: fixed headers as records and the flexible [data] array as bytes, so
    that entries are read at the byte offsets the code computes.  An access
    outside the mapping is [None]; errors are negative codes. *)

From S2P Require Import Prelude.

Definition NUM_PRIORITY : Z := 2.
Definition MAX_SLV_ID : Z := 8.
Definition SLAVE_ID_MASK : Z := 7.
Definition SLAVE_ID_SHIFT : Z := 16.
Definition CMD_DB_STANDALONE_MASK : Z := BIT 0.

(** [enum cmd_db_hw_type] *)
Definition CMD_DB_HW_INVALID : Z := 0.
Definition CMD_DB_HW_ARC : Z := 3.
Definition CMD_DB_HW_VRM : Z := 4.
Definition CMD_DB_HW_BCM : Z := 5.

(** [FIELD_GET (GENMASK h l)] of a 32-bit register. *)
Definition FIELD_GET (h l x : Z) : Z := Z.land (Z.shiftr x l) (Z.ones (h - l + 1)).
Definition SLAVE_ID (addr : Z) : Z := FIELD_GET 19 16 addr.
Definition VRM_ADDR (addr : Z) : Z := FIELD_GET 19 4 addr.

Record entry_header := mk_entry_header {
  eh_id : list Z;          (* u8 id[8] *)
  eh_priority : list Z;    (* __le32 priority[NUM_PRIORITY] *)
  eh_addr : Z;
  eh_len : Z;
  eh_offset : Z;
}.

Record rsc_hdr := mk_rsc_hdr {
  rh_slv_id : Z;
  rh_header_offset : Z;
  rh_data_offset : Z;
  rh_cnt : Z;
  rh_version : Z;
}.

Record cmd_db_header := mk_cmd_db_header {
  db_version : Z;
  db_magic : list Z;            (* u8 magic[4] *)
  db_header : list rsc_hdr;     (* header[MAX_SLV_ID] *)
  db_reserved : Z;
  db_data : list Z;             (* u8 data[] *)
}.

Definition sizeof_entry_header : Z := 24.

(** The bytes of one [struct entry_header], and reading one back from memory. *)
Definition load_entry_header (data : list Z) (off : Z) : option entry_header :=
  id ← subrange off 8 data;
  p0 ← read_le 4 data (off + 8);
  p1 ← read_le 4 data (off + 12);
  addr ← read_le 4 data (off + 16);
  len ← read_le 2 data (off + 20);
  offset ← read_le 2 data (off + 22);
  Some (mk_entry_header id [p0; p1] addr len offset).

Definition CMD_DB_MAGIC : list Z := [0xdb; 0x30; 0x03; 0x0c].

Definition cmd_db_magic_matches (header : cmd_db_header) : bool :=
  bool_decide (db_magic header = CMD_DB_MAGIC).

(** Offsets from [cmd_db_header->data]. *)
Definition rsc_to_entry_header (hdr : rsc_hdr) : Z := rh_header_offset hdr.
Definition rsc_offset (hdr : rsc_hdr) (ent : entry_header) : Z :=
  rh_data_offset hdr + eh_offset ent.

Definition cmd_db_ready (db : option cmd_db_header) : Z :=
  match db with
  | None => - EPROBE_DEFER
  | Some h => if cmd_db_magic_matches h then 0 else - EINVAL
  end.

(** [strtomem_pad (query, id, 0)]: at most eight characters, zero padded. *)
Definition strtomem_pad (id : list Z) : list Z :=
  take 8 id ++ replicate (8 - length id) 0.

(** The inner loop over the [cnt] entries of one slave, the entry pointer
    advancing by one [struct entry_header] each time. *)
Fixpoint find_entry (data query : list Z) (ent : Z) (cnt : nat) : option (option entry_header) :=
  match cnt with
  | O => Some None
  | S cnt =>
      e ← load_entry_header data ent;
      if bool_decide (eh_id e = query) then Some (Some e)
      else find_entry data query (ent + sizeof_entry_header) cnt
  end.

(** The outer loop over [header[0..MAX_SLV_ID-1]]. *)
Fixpoint find_slave (data query : list Z) (hdrs : list rsc_hdr)
    : option (Z + (entry_header * rsc_hdr)) :=
  match hdrs with
  | [] => Some (inl (- ENODEV))
  | h :: hdrs =>
      if rh_slv_id h =? 0 then Some (inl (- ENODEV))
      else
        r ← find_entry data query (rsc_to_entry_header h) (Z.to_nat (rh_cnt h));
        match r with
        | Some e => Some (inr (e, h))
        | None => find_slave data query hdrs
        end
  end.

Definition cmd_db_get_header (db : option cmd_db_header) (id : list Z)
    : option (Z + (entry_header * rsc_hdr)) :=
  let ret := cmd_db_ready db in
  match db with
  | Some h =>
      if ret =? 0 then
        find_slave (db_data h) (strtomem_pad id) (take (Z.to_nat MAX_SLV_ID) (db_header h))
      else Some (inl ret)
  | None => Some (inl ret)
  end.

Definition cmd_db_read_addr (db : option cmd_db_header) (id : list Z) : option Z :=
  r ← cmd_db_get_header db id;
  match r with
  | inl ret => Some 0
  | inr (ent, _) => Some (eh_addr ent)
  end.

(** The pointer returned is an offset from [data]; [*len] comes with it. *)
Definition cmd_db_read_aux_data (db : option cmd_db_header) (id : list Z)
    : option (Z + (Z * Z)) :=
  r ← cmd_db_get_header db id;
  match r with
  | inl ret => Some (inl ret)
  | inr (ent, rsc) => Some (inr (rsc_offset rsc ent, eh_len ent))
  end.

Definition cmd_db_match_resource_addr (addr1 addr2 : Z) : bool :=
  if addr1 =? addr2 then true
  else if (SLAVE_ID addr1 =? CMD_DB_HW_VRM) && (VRM_ADDR addr1 =? VRM_ADDR addr2) then true
  else false.

Definition cmd_db_read_slave_id (db : option cmd_db_header) (id : list Z) : option Z :=
  r ← cmd_db_get_header db id;
  match r with
  | inl ret => Some CMD_DB_HW_INVALID
  | inr (ent, _) => Some (Z.land (Z.shiftr (eh_addr ent) SLAVE_ID_SHIFT) SLAVE_ID_MASK)
  end.

(** [cmd_db_header->reserved] is read before the result of [cmd_db_ready] is
    looked at: with no table mapped the read is through a null pointer. *)
Definition cmd_db_is_standalone (db : option cmd_db_header) : option bool :=
  let ret := cmd_db_ready db in
  h ← db;
  let standalone := Z.land (db_reserved h) CMD_DB_STANDALONE_MASK in
  Some ((ret =? 0) && negb (standalone =? 0)).

(** ** What the table holds *)

Definition entry_bytes (e : entry_header) : list Z :=
  eh_id e ++ (eh_priority e ≫= le_encode 4) ++
  le_encode 4 (eh_addr e) ++ le_encode 2 (eh_len e) ++ le_encode 2 (eh_offset e).

Record entry_ok (e : entry_header) : Prop := {
  eok_id : length (eh_id e) = 8%nat;
  eok_prio : length (eh_priority e) = 2%nat ∧ Forall (λ p, 0 ≤ p < 2 ^ 32) (eh_priority e);
  eok_addr : 0 ≤ eh_addr e < 2 ^ 32;
  eok_len : 0 ≤ eh_len e < 2 ^ 16;
  eok_offset : 0 ≤ eh_offset e < 2 ^ 16;
}.

(** [db_holds db l]: the table lists the slaves of [l], each with its entries
    stored contiguously from its [header_offset]. *)
Definition slave_stored (data : list Z) (s : rsc_hdr * list entry_header) : Prop :=
  rh_slv_id s.1 ≠ 0 ∧ rh_cnt s.1 = Z.of_nat (length s.2) ∧ Forall entry_ok s.2 ∧
  ∃ pre post, data = pre ++ (s.2 ≫= entry_bytes) ++ post ∧
              rh_header_offset s.1 = Z.of_nat (length pre).

Definition db_holds (h : cmd_db_header) (l : list (rsc_hdr * list entry_header)) : Prop :=
  db_magic h = CMD_DB_MAGIC ∧ Forall (slave_stored (db_data h)) l ∧
  (length l ≤ 8)%nat ∧
  ∃ rest, db_header h = l.*1 ++ rest ∧
    (length l = 8%nat ∨ ∃ z rest', rest = z :: rest' ∧ rh_slv_id z = 0).

(** The intended meaning of a query: the first slave with an entry of that
    name, and the first such entry in it. *)
Fixpoint db_query (l : list (rsc_hdr * list entry_header)) (query : list Z)
    : Z + (entry_header * rsc_hdr) :=
  match l with
  | [] => inl (- ENODEV)
  | (h, es) :: l =>
      match list_find (λ e, eh_id e = query) es with
      | Some (_, e) => inr (e, h)
      | None => db_query l query
      end
  end.

(** ** Lookups *)

Lemma length_entry_bytes e : entry_ok e → length (entry_bytes e) = 24%nat.
Proof.
  intros [Hid [Hp _] _ _ _]. destruct (eh_priority e) as [|p0 [|p1 [|]]] eqn:E; try done.
  unfold entry_bytes. rewrite E. cbn [mbind list_bind]. rewrite !length_app, !length_le_encode, Hid. done.
Qed.

Lemma load_entry_header_bytes e (pre post : list Z) :
  entry_ok e →
  load_entry_header (pre ++ entry_bytes e ++ post) (Z.of_nat (length pre)) = Some e.
Proof.
  intros Hok. pose proof (length_entry_bytes e Hok) as Hlen.
  destruct Hok as [Hid [Hp HF] Ha Hl Ho].
  unfold load_entry_header, read_le.
  rewrite (subrange_within 0 (Z.of_nat (length pre)) 8) by lia.
  rewrite !(subrange_within _ (_ + _) _ pre _ post eq_refl) by lia.
  clear Hlen. destruct e as [id prio addr len offset]; simpl in *.
  destruct prio as [|p0 [|p1 [|]]]; try done.
  do 8 (destruct id as [|? id]; [done|]). destruct id; [|done].
  inversion HF as [|? ? H0 HF1]; subst. inversion HF1 as [|? ? H1 _]; subst.
  rewrite <- (read_le_encode 4 p0 H0), <- (read_le_encode 4 p1 H1),
    <- (read_le_encode 4 addr Ha), <- (read_le_encode 2 len Hl), <- (read_le_encode 2 offset Ho) at 2.
  reflexivity.
Qed.

Lemma find_entry_stored es query (pre post : list Z) :
  Forall entry_ok es →
  find_entry (pre ++ (es ≫= entry_bytes) ++ post) query (Z.of_nat (length pre)) (length es)
  = Some (snd <$> list_find (λ e, eh_id e = query) es).
Proof.
  revert pre. induction es as [|e es IH]; intros pre Hok; [done|].
  inversion Hok as [|? ? He Hes]; subst.
  cbn [length find_entry mbind list_bind]. rewrite <- app_assoc, load_entry_header_bytes by done.
  cbn [mbind option_bind list_find]. unfold decide_rel.
  destruct (decide (eh_id e = query)) as [Heq|Hne].
  { by rewrite bool_decide_true by done. }
  rewrite bool_decide_false by done.
  rewrite app_assoc.
  replace (Z.of_nat (length pre) + sizeof_entry_header)
    with (Z.of_nat (length (pre ++ entry_bytes e)))
    by (rewrite length_app, length_entry_bytes by done; unfold sizeof_entry_header; lia).
  rewrite IH by done. by destruct (list_find _ es) as [[]|].
Qed.

Lemma find_slave_stored data query l rest :
  Forall (slave_stored data) l →
  rest = [] ∨ (∃ z rest', rest = z :: rest' ∧ rh_slv_id z = 0) →
  find_slave data query (l.*1 ++ rest) = Some (db_query l query).
Proof.
  intros Hl Hrest. induction Hl as [|[h es] l (Hid & Hcnt & Hok & pre & post & Hd & Hoff) _ IH].
  { destruct Hrest as [->|(z & rest' & -> & Hz)]; [done|]. simpl. by rewrite Hz. }
  simpl in *. rewrite (proj2 (Z.eqb_neq _ _) Hid).
  unfold rsc_to_entry_header. rewrite Hcnt, Hoff, Nat2Z.id.
  rewrite Hd at 1. rewrite find_entry_stored by done. simpl.
  destruct (list_find _ es) as [[i e]|]; [done|]. apply IH.
Qed.

Lemma cmd_db_ready_ok h : db_magic h = CMD_DB_MAGIC → cmd_db_ready (Some h) = 0.
Proof. intros H. unfold cmd_db_ready, cmd_db_magic_matches. by rewrite bool_decide_true. Qed.

Lemma cmd_db_get_header_holds h l id :
  db_holds h l → cmd_db_get_header (Some h) id = Some (db_query l (strtomem_pad id)).
Proof.
  intros (Hm & Hl & Hlen & rest & Hh & Hrest). unfold cmd_db_get_header.
  rewrite cmd_db_ready_ok by done. simpl. rewrite Hh.
  change (Z.to_nat MAX_SLV_ID) with 8%nat.
  rewrite take_app, length_fmap, take_ge by (rewrite length_fmap; lia).
  apply find_slave_stored; [done|].
  destruct Hrest as [Hl8|(z & rest' & -> & Hz)].
  - left. rewrite Hl8. done.
  - destruct (decide (length l = 8%nat)) as [->|Hne]; [by left|].
    right. exists z.
    destruct (8 - length l)%nat eqn:E; [lia|]. simpl. eauto.
Qed.

(** C40: on any table that stores a list of slaves and their entries in the
    documented layout (a [rsc_hdr] array ended by a zero [slv_id] or full,
    entries of 24 little-endian bytes from each [header_offset]), querying a
    resource address gives the address of the first entry whose eight-byte
    name is the zero-padded query, and 0 when there is none; no access leaves
    the table. *)
Theorem cmd_db_read_addr_correct h l id :
  db_holds h l →
  cmd_db_read_addr (Some h) id =
    Some (match db_query l (strtomem_pad id) with inl _ => 0 | inr (e, _) => eh_addr e end).
Proof.
  intros H. unfold cmd_db_read_addr. rewrite (cmd_db_get_header_holds _ _ _ H). simpl.
  by destruct (db_query _ _) as [|[]].
Qed.

(** ** Resource addresses *)

Lemma FIELD_GET_testbit h l x i :
  0 ≤ l ≤ h → 0 ≤ i → Z.testbit (FIELD_GET h l x) i = (i <? h - l + 1) && Z.testbit x (i + l).
Proof.
  intros Hl Hi. unfold FIELD_GET. rewrite Z.land_spec, Z.shiftr_spec by done.
  destruct (Z.ltb_spec i (h - l + 1)).
  - rewrite Z.ones_spec_low by lia. by rewrite andb_true_r.
  - rewrite Z.ones_spec_high by lia. by rewrite andb_false_r.
Qed.

Lemma VRM_ADDR_slave a b : VRM_ADDR a = VRM_ADDR b → SLAVE_ID a = SLAVE_ID b.
Proof.
  intros H. apply Z.bits_inj'. intros i Hi. unfold SLAVE_ID.
  rewrite !FIELD_GET_testbit by lia.
  destruct (Z.ltb_spec i (19 - 16 + 1)); [|done]. simpl.
  apply (f_equal (λ z, Z.testbit z (i + 12))) in H. unfold VRM_ADDR in H.
  rewrite !FIELD_GET_testbit in H by lia.
  rewrite (proj2 (Z.ltb_lt _ _)) in H by lia. simpl in H.
  by replace (i + 16) with (i + 12 + 4) by lia.
Qed.

Definition same_resource (a b : Z) : Prop := cmd_db_match_resource_addr a b = true.

Lemma same_resource_iff a b :
  same_resource a b ↔ a = b ∨ (SLAVE_ID a = CMD_DB_HW_VRM ∧ VRM_ADDR a = VRM_ADDR b).
Proof.
  unfold same_resource, cmd_db_match_resource_addr.
  destruct (Z.eqb_spec a b); [naive_solver|].
  destruct (Z.eqb_spec (SLAVE_ID a) CMD_DB_HW_VRM); destruct (Z.eqb_spec (VRM_ADDR a) (VRM_ADDR b));
    simpl; naive_solver.
Qed.

(** [cmd_db_match_resource_addr], which decides whether two requests
    conflict, is an equivalence relation on addresses: "same resource" does
    not depend on the order the addresses are compared in. *)
Theorem cmd_db_match_resource_addr_equiv : Equivalence same_resource.
Proof.
  split.
  - intros a. apply same_resource_iff. by left.
  - intros a b. rewrite !same_resource_iff. intros [->|[Hs Hv]]; [by left|].
    right. by rewrite <- (VRM_ADDR_slave _ _ Hv).
  - intros a b c. rewrite !same_resource_iff.
    intros [->|[Hs Hv]] [->|[Hs' Hv']]; auto. right. by rewrite Hv.
Qed.

(** A table with one VRM slave and two entries. *)
Definition sample_entry (name addr : Z) : entry_header :=
  mk_entry_header [name; 0; 0; 0; 0; 0; 0; 0] [0; 0] addr 2 0.
Definition sample_slave : rsc_hdr := mk_rsc_hdr CMD_DB_HW_VRM 4 60 2 1.
Definition end_slave : rsc_hdr := mk_rsc_hdr 0 0 0 0 0.
Definition sample_entries : list entry_header := [sample_entry 97 0x40000; sample_entry 98 0x40010].
Definition sample_db : cmd_db_header :=
  mk_cmd_db_header 1 CMD_DB_MAGIC (sample_slave :: replicate 7 end_slave) 0
    ([9; 9; 9; 9] ++ (sample_entries ≫= entry_bytes) ++ [1; 2; 3; 4]).

Lemma sample_entries_ok : Forall entry_ok sample_entries.
Proof. repeat constructor; simpl; lia. Qed.

Lemma sample_db_holds : db_holds sample_db [(sample_slave, sample_entries)].
Proof.
  split; [done|]. split; [|split; [simpl; lia|]].
  - constructor; [|constructor]. split; [done|]. split; [done|].
    split; [apply sample_entries_ok|]. by exists [9; 9; 9; 9], [1; 2; 3; 4].
  - exists (replicate 7 end_slave). split; [done|]. right. by eexists _, _.
Qed.

Lemma cmd_db_read_addr_witness : cmd_db_read_addr (Some sample_db) [98] = Some 0x40010.
Proof.
  rewrite (cmd_db_read_addr_correct sample_db [(sample_slave, sample_entries)] [98]).
  - reflexivity.
  - apply sample_db_holds.
Defined.

(** The standalone test dereferences the table before checking that there is one. *)
Lemma cmd_db_is_standalone_null : cmd_db_is_standalone None = None.
Proof. reflexivity. Qed.
