(* ===== verification/RpmhRsc.v ===== *)
(** * The RPMh resource state coordinator (drivers/soc/qcom/rpmh-rsc.c)

    One [rsc_drv] drives the trigger command sets (TCS) of a controller.  Its
    registers are reached through a [Device]; requests, slot bitmaps and the
    in-use mask are driver state.  The functions keep the names, the order of
    register accesses and the early returns of the source.  Locks are taken
    around whole functions and are not modelled; [wait_event_lock_irq] drops
    the lock, so the steps of the rest of the system are an argument there. *)

From S2P Require Import Prelude Kernel CmdDb.

(** ** Data (rpmh-internal.h, dt-bindings/soc/qcom,rpmh-rsc.h) *)

Definition CH0 : Z := 0.
Definition CH1 : Z := 1.
Definition MAX_CHANNEL : Z := 2.
Definition TCS_TYPE_NR : Z := 5.
Definition MAX_CMDS_PER_TCS : Z := 16.
Definition MAX_TCS_PER_TYPE : Z := 3.
Definition MAX_TCS_NR : Z := MAX_TCS_PER_TYPE * TCS_TYPE_NR.
Definition MAX_TCS_SLOTS : Z := MAX_CMDS_PER_TCS * MAX_TCS_PER_TYPE.
Definition SOLVER_PRESENT : Z := 1.
Definition HW_CHANNEL_PRESENT : Z := 2.
Definition CMD_DB_MAX_RESOURCES : Z := 250.

Definition SLEEP_TCS : nat := 0.
Definition WAKE_TCS : nat := 1.
Definition ACTIVE_TCS : nat := 2.
Definition CONTROL_TCS : nat := 3.
Definition FAST_PATH_TCS : nat := 4.

Inductive rpmh_state := RPMH_SLEEP_STATE | RPMH_WAKE_ONLY_STATE | RPMH_ACTIVE_ONLY_STATE.
#[export] Instance rpmh_state_eq_dec : EqDecision rpmh_state.
Proof. solve_decision. Defined.

Record tcs_cmd := mk_cmd { cmd_addr : Z; cmd_data : Z; cmd_wait : Z }.
#[export] Instance tcs_cmd_inhabited : Inhabited tcs_cmd := populate (mk_cmd 0 0 0).

Record tcs_request := mk_tcs_request {
  req_state : rpmh_state;
  wait_for_compl : bool;
  num_cmds : Z;
  cmds : list tcs_cmd;
}.

(** A request as the client keeps it.  The controller only holds a pointer to
    its [msg] and recovers the rest with [container_of]; [completion] is the
    identity of the client's completion object, [None] for NULL. *)
Record rpmh_request := mk_rpmh_request {
  msg : tcs_request;
  completion : option nat;
}.

Record cache_req := mk_cache_req { cr_addr : Z; sleep_val : Z; wake_val : Z }.
#[export] Instance cache_req_inhabited : Inhabited cache_req := populate (mk_cache_req 0 0 0).

Record tcs_group := mk_tcs_group {
  tg_drv : bool;                        (* the back pointer is set *)
  tg_type : nat;
  tg_mask : Z;
  tg_offset : Z;
  tg_num_tcs : Z;
  tg_ncpt : Z;
  tg_req : list (option rpmh_request);  (* req[MAX_TCS_PER_TYPE] *)
  tg_slots : Z;                         (* bitmap of MAX_TCS_SLOTS bits *)
}.
Definition zero_tcs_group : tcs_group := mk_tcs_group false 0 0 0 0 0 [None; None; None] 0.
#[export] Instance tcs_group_inhabited : Inhabited tcs_group := populate zero_tcs_group.

Record drv_channel := mk_drv_channel {
  chn_tcs : list tcs_group;             (* tcs[TCS_TYPE_NR] *)
  chn_initialized : bool;
}.
Definition zero_drv_channel : drv_channel := mk_drv_channel (replicate 5 zero_tcs_group) false.
#[export] Instance drv_channel_inhabited : Inhabited drv_channel := populate zero_drv_channel.

Record rpmh_ctrlr := mk_rpmh_ctrlr {
  dirty : bool;
  ctrlr_in_solver_mode : bool;
  flags : Z;
  batch_cache : list rpmh_request;      (* batch_cache[RPMH_ACTIVE_ONLY_STATE] *)
  non_batch_cache_idx : Z;
  non_batch_cache : list cache_req;     (* CMD_DB_MAX_RESOURCES entries *)
}.

(** The register enumeration. *)
Inductive rsc_reg :=
  | RSC_DRV_TCS_OFFSET | RSC_DRV_CMD_OFFSET | DRV_SOLVER_CONFIG | DRV_PRNT_CHLD_CONFIG
  | RSC_DRV_IRQ_ENABLE | RSC_DRV_IRQ_STATUS | RSC_DRV_IRQ_CLEAR | RSC_DRV_CMD_WAIT_FOR_CMPL
  | RSC_DRV_CONTROL | RSC_DRV_STATUS | RSC_DRV_CMD_ENABLE | RSC_DRV_CMD_MSGID
  | RSC_DRV_CMD_ADDR | RSC_DRV_CMD_DATA | RSC_DRV_CMD_STATUS | RSC_DRV_CMD_RESP_DATA
  | RSC_DRV_CHN_TCS_TRIGGER | RSC_DRV_CHN_TCS_COMPLETE | RSC_DRV_CHN_SEQ_BUSY
  | RSC_DRV_CHN_SEQ_PC | RSC_DRV_CHN_UPDATE | RSC_DRV_CHN_BUSY | RSC_DRV_CHN_EN.

Definition rpmh_rsc_reg_offset_ver_2_7 (r : rsc_reg) : Z :=
  match r with
  | RSC_DRV_TCS_OFFSET => 672 | RSC_DRV_CMD_OFFSET => 20
  | DRV_SOLVER_CONFIG => 0x04 | DRV_PRNT_CHLD_CONFIG => 0x0C
  | RSC_DRV_IRQ_ENABLE => 0x00 | RSC_DRV_IRQ_STATUS => 0x04 | RSC_DRV_IRQ_CLEAR => 0x08
  | RSC_DRV_CMD_WAIT_FOR_CMPL => 0x10 | RSC_DRV_CONTROL => 0x14 | RSC_DRV_STATUS => 0x18
  | RSC_DRV_CMD_ENABLE => 0x1C | RSC_DRV_CMD_MSGID => 0x30 | RSC_DRV_CMD_ADDR => 0x34
  | RSC_DRV_CMD_DATA => 0x38 | RSC_DRV_CMD_STATUS => 0x3C | RSC_DRV_CMD_RESP_DATA => 0x40
  | RSC_DRV_CHN_SEQ_BUSY => 0x0 | RSC_DRV_CHN_SEQ_PC => 0x0 | RSC_DRV_CHN_TCS_TRIGGER => 0x0
  | RSC_DRV_CHN_TCS_COMPLETE => 0x0 | RSC_DRV_CHN_UPDATE => 0x0 | RSC_DRV_CHN_BUSY => 0x0
  | RSC_DRV_CHN_EN => 0x0
  end.

Definition rpmh_rsc_reg_offset_ver_3_0 (r : rsc_reg) : Z :=
  match r with
  | RSC_DRV_TCS_OFFSET => 672 | RSC_DRV_CMD_OFFSET => 24
  | DRV_SOLVER_CONFIG => 0x04 | DRV_PRNT_CHLD_CONFIG => 0x0C
  | RSC_DRV_IRQ_ENABLE => 0x00 | RSC_DRV_IRQ_STATUS => 0x04 | RSC_DRV_IRQ_CLEAR => 0x08
  | RSC_DRV_CMD_WAIT_FOR_CMPL => 0x20 | RSC_DRV_CONTROL => 0x24 | RSC_DRV_STATUS => 0x28
  | RSC_DRV_CMD_ENABLE => 0x2C | RSC_DRV_CMD_MSGID => 0x34 | RSC_DRV_CMD_ADDR => 0x38
  | RSC_DRV_CMD_DATA => 0x3C | RSC_DRV_CMD_STATUS => 0x40 | RSC_DRV_CMD_RESP_DATA => 0x44
  | RSC_DRV_CHN_SEQ_BUSY => 0x464 | RSC_DRV_CHN_SEQ_PC => 0x468
  | RSC_DRV_CHN_TCS_TRIGGER => 0x490 | RSC_DRV_CHN_TCS_COMPLETE => 0x494
  | RSC_DRV_CHN_UPDATE => 0x498 | RSC_DRV_CHN_BUSY => 0x49C | RSC_DRV_CHN_EN => 0x4A0
  end.

(** As version 3.0, with the TCSes 336 bytes apart. *)
Definition rpmh_rsc_reg_offset_ver_3_0_hw_channel (r : rsc_reg) : Z :=
  match r with
  | RSC_DRV_TCS_OFFSET => 336 | RSC_DRV_CMD_OFFSET => 24
  | DRV_SOLVER_CONFIG => 0x04 | DRV_PRNT_CHLD_CONFIG => 0x0C
  | RSC_DRV_IRQ_ENABLE => 0x00 | RSC_DRV_IRQ_STATUS => 0x04 | RSC_DRV_IRQ_CLEAR => 0x08
  | RSC_DRV_CMD_WAIT_FOR_CMPL => 0x20 | RSC_DRV_CONTROL => 0x24 | RSC_DRV_STATUS => 0x28
  | RSC_DRV_CMD_ENABLE => 0x2C | RSC_DRV_CMD_MSGID => 0x34 | RSC_DRV_CMD_ADDR => 0x38
  | RSC_DRV_CMD_DATA => 0x3C | RSC_DRV_CMD_STATUS => 0x40 | RSC_DRV_CMD_RESP_DATA => 0x44
  | RSC_DRV_CHN_SEQ_BUSY => 0x464 | RSC_DRV_CHN_SEQ_PC => 0x468
  | RSC_DRV_CHN_TCS_TRIGGER => 0x490 | RSC_DRV_CHN_TCS_COMPLETE => 0x494
  | RSC_DRV_CHN_UPDATE => 0x498 | RSC_DRV_CHN_BUSY => 0x49C | RSC_DRV_CHN_EN => 0x4A0
  end.

Record rsc_drv := mk_rsc_drv {
  base : Z;
  tcs_base : Z;
  tcs_distance : Z;
  drv_id : Z;
  num_tcs : Z;
  num_channels : Z;
  drv_in_solver_mode : bool;
  drv_initialized : bool;
  genpd_notifier : bool;                (* genpd_nb.notifier_call is set *)
  cpus_in_pm : Z;
  drv_tcs : list tcs_group;             (* tcs[TCS_TYPE_NR] *)
  ch : list drv_channel;                (* ch[MAX_CHANNEL] *)
  tcs_in_use : Z;
  client : rpmh_ctrlr;
  regs : rsc_reg → Z;
}.

Definition TCS_AMC_MODE_ENABLE : Z := BIT 16.
Definition TCS_AMC_MODE_TRIGGER : Z := BIT 24.
Definition CMD_MSGID_LEN : Z := 8.
Definition CMD_MSGID_RESP_REQ : Z := BIT 8.
Definition CMD_MSGID_WRITE : Z := BIT 16.
Definition CH0_CHN_BUSY : Z := BIT 0.
Definition CH1_CHN_BUSY : Z := BIT 1.
Definition USEC_PER_SEC : positive := 1000000.

Definition tcs_reg_addr (drv : rsc_drv) (reg tcs_id : Z) : Z :=
  if tcs_distance drv =? 0 then tcs_base drv + regs drv RSC_DRV_TCS_OFFSET * tcs_id + reg
  else tcs_base drv + tcs_distance drv * tcs_id + reg.

Definition tcs_cmd_addr (drv : rsc_drv) (reg tcs_id cmd_id : Z) : Z :=
  tcs_reg_addr drv reg tcs_id + regs drv RSC_DRV_CMD_OFFSET * cmd_id.

(** Field updates. *)
Definition set_chs (x : list drv_channel) (d : rsc_drv) : rsc_drv :=
  mk_rsc_drv (base d) (tcs_base d) (tcs_distance d) (drv_id d) (num_tcs d) (num_channels d)
    (drv_in_solver_mode d) (drv_initialized d) (genpd_notifier d) (cpus_in_pm d) (drv_tcs d)
    x (tcs_in_use d) (client d) (regs d).
Definition set_tcs_in_use (x : Z) (d : rsc_drv) : rsc_drv :=
  mk_rsc_drv (base d) (tcs_base d) (tcs_distance d) (drv_id d) (num_tcs d) (num_channels d)
    (drv_in_solver_mode d) (drv_initialized d) (genpd_notifier d) (cpus_in_pm d) (drv_tcs d)
    (ch d) x (client d) (regs d).
Definition set_client (x : rpmh_ctrlr) (d : rsc_drv) : rsc_drv :=
  mk_rsc_drv (base d) (tcs_base d) (tcs_distance d) (drv_id d) (num_tcs d) (num_channels d)
    (drv_in_solver_mode d) (drv_initialized d) (genpd_notifier d) (cpus_in_pm d) (drv_tcs d)
    (ch d) (tcs_in_use d) x (regs d).
Definition set_drv_solver (x : bool) (d : rsc_drv) : rsc_drv :=
  mk_rsc_drv (base d) (tcs_base d) (tcs_distance d) (drv_id d) (num_tcs d) (num_channels d)
    x (drv_initialized d) (genpd_notifier d) (cpus_in_pm d) (drv_tcs d)
    (ch d) (tcs_in_use d) (client d) (regs d).
Definition set_cpus_in_pm (x : Z) (d : rsc_drv) : rsc_drv :=
  mk_rsc_drv (base d) (tcs_base d) (tcs_distance d) (drv_id d) (num_tcs d) (num_channels d)
    (drv_in_solver_mode d) (drv_initialized d) (genpd_notifier d) x (drv_tcs d)
    (ch d) (tcs_in_use d) (client d) (regs d).

Definition set_slots (x : Z) (g : tcs_group) : tcs_group :=
  mk_tcs_group (tg_drv g) (tg_type g) (tg_mask g) (tg_offset g) (tg_num_tcs g) (tg_ncpt g)
    (tg_req g) x.
Definition set_req (i : nat) (r : rpmh_request) (g : tcs_group) : tcs_group :=
  mk_tcs_group (tg_drv g) (tg_type g) (tg_mask g) (tg_offset g) (tg_num_tcs g) (tg_ncpt g)
    (<[i := Some r]> (tg_req g)) (tg_slots g).

Definition channel_of (d : rsc_drv) (c : Z) : drv_channel := ch d !!! Z.to_nat c.
(** [&drv->ch[c].tcs[type]] *)
Definition tcs_of (d : rsc_drv) (c : Z) (type : nat) : tcs_group := chn_tcs (channel_of d c) !!! type.
Definition upd_tcs (c : Z) (type : nat) (f : tcs_group → tcs_group) (d : rsc_drv) : rsc_drv :=
  set_chs (alter (λ k, mk_drv_channel (alter f type (chn_tcs k)) (chn_initialized k))
             (Z.to_nat c) (ch d)) d.

(** The controller, its hardware and the completion objects signalled so far. *)
Record rsc `{D : Device} := mk_rsc { drv : rsc_drv; hw : dev; completed : list nat }.

Section rsc.
Context `{D : Device} {B : BitmapSearch}.

Abbreviation M := (KM rsc).

Definition on_drv (f : rsc_drv → rsc_drv) (s : rsc) : rsc := mk_rsc _ (f (drv s)) (hw s) (completed s).
Definition mod_drv (f : rsc_drv → rsc_drv) : M unit := kmodify (on_drv f).

Definition readl_relaxed (a : Z) : M Z :=
  λ s, let '(v, d) := readl a (hw s) in (Done v, mk_rsc _ (drv s) d (completed s)).
Definition writel_relaxed (v a : Z) : M unit :=
  λ s, (Done tt, mk_rsc _ (drv s) (writel a v (hw s)) (completed s)).

Definition read_tcs_cmd (reg : rsc_reg) (tcs_id cmd_id : Z) : M Z :=
  let* d := kgets drv in readl_relaxed (tcs_cmd_addr d (regs d reg) tcs_id cmd_id).
Definition read_tcs_reg (reg : rsc_reg) (tcs_id : Z) : M Z :=
  let* d := kgets drv in readl_relaxed (tcs_reg_addr d (regs d reg) tcs_id).
Definition write_tcs_cmd (reg : rsc_reg) (tcs_id cmd_id data : Z) : M unit :=
  let* d := kgets drv in writel_relaxed data (tcs_cmd_addr d (regs d reg) tcs_id cmd_id).
Definition write_tcs_reg (reg : rsc_reg) (tcs_id data : Z) : M unit :=
  let* d := kgets drv in writel_relaxed data (tcs_reg_addr d (regs d reg) tcs_id).

(** Writes, then reads back until the value sticks; a timeout is only logged. *)
Definition write_tcs_reg_sync (reg : rsc_reg) (tcs_id data : Z) : M unit :=
  write_tcs_reg reg tcs_id data ;;;
  poll USEC_PER_SEC (let* v := read_tcs_reg reg tcs_id in
                     kret (if v =? data then Some tt else None)) ;;;
  kret tt.

Definition tcs_invalidate (type : nat) (c : Z) : M unit :=
  let* d := kgets drv in
  let tcs := tcs_of d c type in
  if bitmap_empty (tg_slots tcs) (tg_ncpt tcs * tg_num_tcs tcs) then kret tt
  else
    for_each (seqZ (tg_offset tcs) (tg_num_tcs tcs)) (λ m,
      write_tcs_reg_sync RSC_DRV_CMD_ENABLE m 0 ;;;
      write_tcs_reg_sync RSC_DRV_CMD_WAIT_FOR_CMPL m 0) ;;;
    mod_drv (upd_tcs c type (λ g, set_slots (bitmap_zero (tg_slots g) (tg_ncpt g * tg_num_tcs g)) g)).

(** The [do ... while] that waits for the hardware to leave a channel switch has
    no bound of its own; [spin] bounds the reads considered here. *)
Definition rpmh_rsc_get_channel (spin : positive) : M Z :=
  let* d := kgets drv in
  if num_channels d =? 1 then kret CH0
  else
    let* r := poll spin (
      let* chn_update := readl_relaxed (base d + regs d RSC_DRV_CHN_UPDATE) in
      let* chn_busy := readl_relaxed (base d + regs d RSC_DRV_CHN_BUSY) in
      kret (if chn_busy =? chn_update then Some chn_busy else None)) in
    match r with
    | None => kfail Hang
    | Some chn_busy =>
        kret (if negb (Z.land chn_busy CH0_CHN_BUSY =? 0) then CH1
              else if negb (Z.land chn_busy CH1_CHN_BUSY =? 0) then CH0
              else - EBUSY)
    end.

Definition rpmh_rsc_invalidate (c : Z) : M unit :=
  tcs_invalidate SLEEP_TCS c ;;; tcs_invalidate WAKE_TCS c.

(** Which TCS group carries a request: its type (the group is [tcs_of d c type]). *)
Definition get_tcs_for_msg (d : rsc_drv) (state : rpmh_state) (c : Z) : nat :=
  let type := match state with
              | RPMH_ACTIVE_ONLY_STATE => ACTIVE_TCS
              | RPMH_WAKE_ONLY_STATE => WAKE_TCS
              | RPMH_SLEEP_STATE => SLEEP_TCS
              end in
  if bool_decide (state = RPMH_ACTIVE_ONLY_STATE) && (tg_num_tcs (tcs_of d c type) =? 0)
  then WAKE_TCS else type.

(** The stashed request and, through [*ch], the channel it was found on. *)
Fixpoint req_search (d : rsc_drv) (tcs_id : Z) (chans : list Z)
    : option (Z * option rpmh_request) :=
  match chans with
  | [] => None
  | i :: chans =>
      if negb (chn_initialized (channel_of d i)) then req_search d tcs_id chans
      else
        let tcs := tcs_of d i (get_tcs_for_msg d RPMH_ACTIVE_ONLY_STATE i) in
        if negb (Z.land (tg_mask tcs) (BIT tcs_id) =? 0)
        then Some (i, mjoin (tg_req tcs !! Z.to_nat (tcs_id - tg_offset tcs)))
        else req_search d tcs_id chans
  end.
Definition get_req_from_tcs (d : rsc_drv) (tcs_id : Z) : option (Z * option rpmh_request) :=
  req_search d tcs_id (seqZ 0 MAX_CHANNEL).

Definition __tcs_set_trigger (tcs_id : Z) (trigger : bool) : M unit :=
  let* enable := read_tcs_reg RSC_DRV_CONTROL tcs_id in
  let enable := Z.land enable (Z.lnot TCS_AMC_MODE_TRIGGER) in
  write_tcs_reg_sync RSC_DRV_CONTROL tcs_id enable ;;;
  let enable := Z.land enable (Z.lnot TCS_AMC_MODE_ENABLE) in
  write_tcs_reg_sync RSC_DRV_CONTROL tcs_id enable ;;;
  if trigger then
    let enable := TCS_AMC_MODE_ENABLE in
    write_tcs_reg_sync RSC_DRV_CONTROL tcs_id enable ;;;
    write_tcs_reg RSC_DRV_CONTROL tcs_id (Z.lor enable TCS_AMC_MODE_TRIGGER)
  else kret tt.

Definition enable_tcs_irq (tcs_id : Z) (enable : bool) : M unit :=
  let* d := kgets drv in
  let reg := tcs_base d + regs d RSC_DRV_IRQ_ENABLE in
  let* data := readl_relaxed reg in
  writel_relaxed (u32 (if enable then Z.lor data (BIT tcs_id)
                       else Z.land data (Z.lnot (BIT tcs_id)))) reg.

(** [rpmh_tx_done] (rpmh.c): signal the completion of the enclosing request. *)
Definition rpmh_tx_done (r : rpmh_request) : M unit :=
  match completion r with
  | None => kret tt
  | Some c => kmodify (λ s, mk_rsc _ (drv s) (hw s) (c :: completed s))
  end.

(** One iteration of the interrupt handler; [c] is its local [ch], [None] while
    it has not been assigned. *)
Definition tcs_tx_done_one (i : Z) (c : option Z) : M (option Z) :=
  let* d := kgets drv in
  let found := get_req_from_tcs d i in
  let c := match found with Some (k, _) => Some k | None => c end in
  let req := match found with Some (_, r) => r | None => None end in
  match req, c with
  | Some _, Some k =>
      if tg_num_tcs (tcs_of d k ACTIVE_TCS) =? 0 then __tcs_set_trigger i false else kret tt
  | _, _ => kret tt
  end ;;;
  write_tcs_reg RSC_DRV_CMD_ENABLE i 0 ;;;
  write_tcs_reg RSC_DRV_CMD_WAIT_FOR_CMPL i 0 ;;;
  writel_relaxed (BIT i) (tcs_base d + regs d RSC_DRV_IRQ_CLEAR) ;;;
  mod_drv (λ d, set_tcs_in_use (clear_bit i (tcs_in_use d)) d) ;;;
  match c with
  | None => kfail Undef
  | Some k =>
      (if tg_num_tcs (tcs_of d k ACTIVE_TCS) =? 0 then enable_tcs_irq i false else kret tt) ;;;
      match req with Some r => rpmh_tx_done r | None => kret tt end ;;;
      kret (Some k)
  end.

Fixpoint tcs_tx_done_loop (l : list Z) (c : option Z) : M unit :=
  match l with
  | [] => kret tt
  | i :: l => let* c := tcs_tx_done_one i c in tcs_tx_done_loop l c
  end.

Definition tcs_tx_done : M unit :=
  let* d := kgets drv in
  let* irq_status := readl_relaxed (tcs_base d + regs d RSC_DRV_IRQ_STATUS) in
  tcs_tx_done_loop (set_bits irq_status 32) None.

Definition nth_cmd (m : tcs_request) (i : Z) : tcs_cmd := cmds m !!! Z.to_nat i.

(** The loop of [__tcs_buffer_write]: command [i] of the message goes to slot
    [cmd_id + i]; [cmd_enable] and [cmd_complete] accumulate. *)
Fixpoint buffer_write_loop (m : tcs_request) (tcs_id cmd_id : Z) (l : list Z)
    (cmd_enable cmd_complete : Z) : M (Z * Z) :=
  match l with
  | [] => kret (cmd_enable, cmd_complete)
  | i :: l =>
      let j := cmd_id + i in
      let cmd := nth_cmd m i in
      let cmd_enable := Z.lor cmd_enable (u32 (BIT j)) in
      let cmd_complete := Z.lor cmd_complete (u32 (Z.shiftl (cmd_wait cmd) j)) in
      let cmd_msgid := Z.lor (Z.lor CMD_MSGID_LEN CMD_MSGID_WRITE)
                         (if wait_for_compl m then CMD_MSGID_RESP_REQ else 0) in
      let msgid := Z.lor cmd_msgid (if cmd_wait cmd =? 0 then 0 else CMD_MSGID_RESP_REQ) in
      write_tcs_cmd RSC_DRV_CMD_MSGID tcs_id j msgid ;;;
      write_tcs_cmd RSC_DRV_CMD_ADDR tcs_id j (cmd_addr cmd) ;;;
      write_tcs_cmd RSC_DRV_CMD_DATA tcs_id j (cmd_data cmd) ;;;
      buffer_write_loop m tcs_id cmd_id l cmd_enable cmd_complete
  end.

Definition __tcs_buffer_write (tcs_id cmd_id : Z) (m : tcs_request) : M unit :=
  let* cmd_complete := read_tcs_reg RSC_DRV_CMD_WAIT_FOR_CMPL tcs_id in
  let* ec := buffer_write_loop m tcs_id cmd_id (seqZ 0 (num_cmds m)) 0 cmd_complete in
  write_tcs_reg RSC_DRV_CMD_WAIT_FOR_CMPL tcs_id ec.2 ;;;
  let* enabled := read_tcs_reg RSC_DRV_CMD_ENABLE tcs_id in
  write_tcs_reg RSC_DRV_CMD_ENABLE tcs_id (Z.lor ec.1 enabled).

(** [for_each_set_bit_from (i, map, size)] starting at [start]. *)
Definition set_bits_from (map start size : Z) : list Z :=
  filter (λ i, Z.testbit map i = true) (seqZ start (size - start)).

Definition check_for_req_inflight (tcs : tcs_group) (m : tcs_request) : M Z :=
  let* d := kgets drv in
  let* r := for_until
    (set_bits_from (tcs_in_use d) (tg_offset tcs) (tg_offset tcs + tg_num_tcs tcs)) (λ i,
      let* curr_enabled := read_tcs_reg RSC_DRV_CMD_ENABLE i in
      for_until (set_bits curr_enabled (tg_ncpt tcs)) (λ j,
        let* addr := read_tcs_cmd RSC_DRV_CMD_ADDR i j in
        kret (if existsb (λ k, cmd_db_match_resource_addr (cmd_addr (nth_cmd m k)) addr)
                   (seqZ 0 (num_cmds m))
              then Some (- EBUSY) else None))) in
  kret (default 0 r).

Definition find_free_tcs (tcs : tcs_group) : M Z :=
  let* d := kgets drv in
  let max := tg_offset tcs + tg_num_tcs tcs in
  let i := find_next_zero_bit (tcs_in_use d) max (tg_offset tcs) in
  if max <=? i then kret (- EBUSY)
  else
    read_tcs_reg RSC_DRV_STATUS i ;;;
    let* r := poll 100 (let* sts := read_tcs_reg RSC_DRV_STATUS i in
                        kret (if sts =? 0 then None else Some tt)) in
    kret (match r with Some _ => i | None => - EBUSY end).

Definition claim_tcs_for_req (tcs : tcs_group) (m : tcs_request) : M Z :=
  let* ret := check_for_req_inflight tcs m in
  if negb (ret =? 0) then kret ret else find_free_tcs tcs.

(** [env] is what happens while the caller sleeps for a free TCS. *)
Definition rpmh_rsc_send_data (env : list (rsc → rsc)) (r : rpmh_request) (c : Z) : M Z :=
  let m := msg r in
  let* d := kgets drv in
  let type := get_tcs_for_msg d (req_state m) c in
  if drv_in_solver_mode d then kret (- EBUSY)
  else
    let* tcs_id := wait_event env (
      let* d := kgets drv in
      let* id := claim_tcs_for_req (tcs_of d c type) m in
      kret (if 0 <=? id then Some id else None)) in
    let tcs := tcs_of d c type in
    mod_drv (upd_tcs c type (set_req (Z.to_nat (tcs_id - tg_offset tcs)) r)) ;;;
    mod_drv (λ d, set_tcs_in_use (set_bit tcs_id (tcs_in_use d)) d) ;;;
    write_tcs_reg_sync RSC_DRV_CMD_ENABLE tcs_id 0 ;;;
    write_tcs_reg_sync RSC_DRV_CMD_WAIT_FOR_CMPL tcs_id 0 ;;;
    enable_tcs_irq tcs_id
      (wait_for_compl m ||
       (bool_decide (req_state m = RPMH_ACTIVE_ONLY_STATE) && negb (tg_type tcs =? ACTIVE_TCS)%nat)) ;;;
    __tcs_buffer_write tcs_id 0 m ;;;
    __tcs_set_trigger tcs_id true ;;;
    (if wait_for_compl m then kret tt
     else mod_drv (λ d, set_tcs_in_use (clear_bit tcs_id (tcs_in_use d)) d)) ;;;
    kret 0.

(** The [do ... while] of [find_slots]; [i] grows by [ncpt] each time round. *)
Fixpoint find_slots_loop (fuel : nat) (tcs : tcs_group) (n i : Z) : option (option Z) :=
  match fuel with
  | O => None
  | S fuel =>
      let slot := bitmap_find_next_zero_area (tg_slots tcs) (tg_ncpt tcs * tg_num_tcs tcs) i n in
      if tg_num_tcs tcs * tg_ncpt tcs <=? slot then Some None
      else
        let i := i + tg_ncpt tcs in
        if u32 i <=? u32 (slot + n - 1) then find_slots_loop fuel tcs n i
        else Some (Some slot)
  end.

(** [None] is out of fuel; otherwise an error code, or the group with the slots
    taken together with [*tcs_id] and [*cmd_id]. *)
Definition find_slots (tcs : tcs_group) (m : tcs_request) : option (Z + (tcs_group * Z * Z)) :=
  r ← find_slots_loop (S (S (Z.to_nat (tg_num_tcs tcs)))) tcs (num_cmds m) 0;
  match r with
  | None => Some (inl (- ENOMEM))
  | Some slot =>
      let tcs' := set_slots (bitmap_set (tg_slots tcs) slot (num_cmds m)) tcs in
      Some (inr (tcs', Z.quot slot (tg_ncpt tcs) + tg_offset tcs, Z.rem slot (tg_ncpt tcs)))
  end.

Definition rpmh_rsc_write_ctrl_data (m : tcs_request) (c : Z) : M Z :=
  if num_cmds m =? 0 then kret 0
  else
    let* d := kgets drv in
    let type := get_tcs_for_msg d (req_state m) c in
    match find_slots (tcs_of d c type) m with
    | None => kfail Hang
    | Some (inl ret) => kret ret
    | Some (inr (tcs', tcs_id, cmd_id)) =>
        mod_drv (upd_tcs c type (λ _, tcs')) ;;;
        __tcs_buffer_write tcs_id cmd_id m ;;;
        kret 0
    end.

Definition rpmh_rsc_ctrlr_is_busy : M bool :=
  let* d := kgets drv in
  let* r := for_until (seqZ 0 MAX_CHANNEL) (λ i,
    if negb (chn_initialized (channel_of d i)) then kret None
    else
      let tcs := if tg_num_tcs (tcs_of d i ACTIVE_TCS) =? 0 then tcs_of d i WAKE_TCS
                 else tcs_of d i ACTIVE_TCS in
      let max := tg_offset tcs + tg_num_tcs tcs in
      let set := find_next_bit (tcs_in_use d) max (tg_offset tcs) in
      if set <? max then kret (Some true)
      else
        let tcs := tcs_of d i FAST_PATH_TCS in
        if tg_num_tcs tcs =? 0 then kret None
        else
          let* sts := read_tcs_reg RSC_DRV_STATUS (tg_offset tcs) in
          kret (if sts =? 0 then Some true else None)) in
  kret (default false r).

(** *** Diagnostics

    The reports read registers and print them; the reads are kept, the printing
    is not. *)

Definition get_tcs_from_index (d : rsc_drv) (tcs_id : Z) : option tcs_group :=
  head (i ← seq 0 (Z.to_nat TCS_TYPE_NR); j ← seqZ 0 MAX_CHANNEL;
        if chn_initialized (channel_of d j) && negb (Z.land (tg_mask (tcs_of d j i)) (BIT tcs_id) =? 0)
        then [tcs_of d j i] else []).

Definition print_tcs_info (tcs_id : Z) : M unit :=
  let* d := kgets drv in
  let tcs_grp := get_tcs_from_index d tcs_id in
  let req := match get_req_from_tcs d tcs_id with Some (_, r) => r | None => None end in
  read_tcs_reg RSC_DRV_STATUS tcs_id ;;;
  let* cmds_enabled := read_tcs_reg RSC_DRV_CMD_ENABLE tcs_id in
  match tcs_grp with
  | None => kret tt
  | Some g =>
      if cmds_enabled =? 0 then kret tt
      else
        match req with
        | None => kret tt
        | Some _ =>
            read_tcs_reg RSC_DRV_CONTROL tcs_id ;;;
            readl_relaxed (tcs_base d + regs d RSC_DRV_IRQ_STATUS) ;;; kret tt
        end ;;;
        for_each (set_bits cmds_enabled (tg_ncpt g)) (λ i,
          read_tcs_cmd RSC_DRV_CMD_ADDR tcs_id i ;;;
          read_tcs_cmd RSC_DRV_CMD_DATA tcs_id i ;;;
          read_tcs_cmd RSC_DRV_CMD_MSGID tcs_id i ;;;
          read_tcs_cmd RSC_DRV_CMD_STATUS tcs_id i ;;; kret tt)
  end.

Definition rpmh_rsc_debug_channel_busy : M unit :=
  let* d := kgets drv in
  for_each [RSC_DRV_CHN_TCS_COMPLETE; RSC_DRV_CHN_TCS_TRIGGER; RSC_DRV_CHN_UPDATE; RSC_DRV_CHN_BUSY;
            RSC_DRV_CHN_EN; RSC_DRV_CHN_SEQ_BUSY; RSC_DRV_CHN_SEQ_PC]
    (λ r, readl_relaxed (base d + regs d r) ;;; kret tt).

(** Stops the system when a TCS is in use; [irq_data] is whether the interrupt
    has its descriptor, without which the function returns early. *)
Definition rpmh_rsc_debug (irq_data : bool) : M unit :=
  let* d := kgets drv in
  let busy := filter (λ i, test_bit i (tcs_in_use d) = true) (seqZ 0 (num_tcs d)) in
  for_each busy print_tcs_info ;;;
  if negb irq_data then kret tt
  else
    for_each (seqZ 0 MAX_CHANNEL) (λ i,
      if negb (chn_initialized (channel_of d i)) then kret tt
      else
        let tcs := tcs_of d i FAST_PATH_TCS in
        if tg_num_tcs tcs =? 0 then kret tt
        else
          let* sts := read_tcs_reg RSC_DRV_STATUS (tg_offset tcs) in
          if sts =? 0 then print_tcs_info (tg_offset tcs) else kret tt) ;;;
    if (length busy =? 0)%nat then kret tt else kfail Bug.

(** *** Solver mode, channel switch, fast path *)

(** [trylock] is the result of [spin_trylock (&drv->lock)]. *)
Definition rpmh_rsc_mode_solver_set (trylock enable : bool) : M Z :=
  if trylock then
    let* busy := (if negb enable then kret false else rpmh_rsc_ctrlr_is_busy) in
    if negb enable || negb busy then
      mod_drv (set_drv_solver enable) ;;; kret 0
    else kret (- EBUSY)
  else kret (- EBUSY).

Definition CH0_WAKE_TCS_STATUS : Z := BIT 0.
Definition CH1_WAKE_TCS_STATUS : Z := BIT 2.
Definition CH_CLEAR_STATUS : Z := BIT 31.

(** The polling loop, returning what is left of [retry]. *)
Fixpoint tcs_completed_loop (retry : nat) (c : Z) : M nat :=
  let* d := kgets drv in
  let* sts := readl_relaxed (base d + regs d RSC_DRV_CHN_TCS_COMPLETE) in
  let sts := Z.land sts (if c =? 0 then CH0_WAKE_TCS_STATUS else CH1_WAKE_TCS_STATUS) in
  match retry with
  | O => kret O
  | S O => kret O
  | S retry => if sts =? 0 then tcs_completed_loop retry c else kret retry
  end.

Definition rpmh_rsc_is_tcs_completed (c : Z) : M Z :=
  let* retry := tcs_completed_loop 10 c in
  let* d := kgets drv in
  (if (retry =? 0)%nat then kret tt
   else writel_relaxed CH_CLEAR_STATUS (base d + regs d RSC_DRV_CHN_TCS_COMPLETE)) ;;;
  kret 0.

Definition rpmh_rsc_switch_channel (c : Z) : M Z :=
  let* d := kgets drv in
  writel_relaxed (BIT c) (base d + regs d RSC_DRV_CHN_UPDATE) ;;;
  rpmh_rsc_is_tcs_completed c.

Definition rpmh_rsc_init_fast_path (m : tcs_request) (c : Z) : M Z :=
  let* d := kgets drv in
  if tg_num_tcs (tcs_of d c FAST_PATH_TCS) =? 0 then kret (- ENODEV)
  else
    let tcs_id := tg_offset (tcs_of d c FAST_PATH_TCS) in
    enable_tcs_irq tcs_id false ;;;
    __tcs_buffer_write tcs_id 0 m ;;;
    kret 0.

(** Five reads at most: the fifth that finds the TCS busy gives up. *)
Definition rpmh_rsc_update_fast_path (m : tcs_request) (mask c : Z) : M Z :=
  let* d := kgets drv in
  if tg_num_tcs (tcs_of d c FAST_PATH_TCS) =? 0 then kret (- ENODEV)
  else
    let tcs_id := tg_offset (tcs_of d c FAST_PATH_TCS) in
    let* r := poll 5 (let* sts := read_tcs_reg RSC_DRV_STATUS tcs_id in
                      kret (if sts =? 0 then None else Some tt)) in
    match r with
    | None => kret (- EBUSY)
    | Some _ =>
        for_each (seqZ 0 (num_cmds m)) (λ i,
          if Z.land mask (BIT i) =? 0 then kret tt
          else write_tcs_cmd RSC_DRV_CMD_DATA tcs_id i (cmd_data (nth_cmd m i))) ;;;
        __tcs_set_trigger tcs_id true ;;;
        kret 0
    end.

Definition rpmh_rsc_tcs_irq_enable : M unit :=
  let* d := kgets drv in
  for_each (seqZ 0 MAX_CHANNEL) (λ c,
    if negb (chn_initialized (channel_of d c)) then kret tt
    else
      let reg := tcs_base d + regs d RSC_DRV_IRQ_ENABLE in
      let* tcs_mask := readl_relaxed reg in
      writel_relaxed (Z.lor tcs_mask (tg_mask (tcs_of d c ACTIVE_TCS))) reg).

(** *** The next wakeup *)

(** The clocks the code reads. *)
Record timebase := mk_timebase {
  tb_suspend : bool;          (* system_state == SYSTEM_SUSPEND *)
  tb_next_hrtimer : Z;        (* dev_pm_genpd_get_next_hrtimer, ns *)
  tb_now : Z;                 (* ktime_get, ns *)
  tb_counter : Z;             (* arch_timer_read_counter *)
  tb_loops_per_jiffy : Z;
  tb_HZ : Z;
}.

Definition xloops_to_cycles (tb : timebase) (xloops : Z) : Z :=
  Z.shiftr (u64 (u64 (xloops * tb_loops_per_jiffy tb) * tb_HZ tb)) 32.

Definition RSC_DRV_CTL_TCS_DATA_HI : Z := 0x38.
Definition RSC_DRV_CTL_TCS_DATA_HI_MASK : Z := 0xFFFFFF.
Definition RSC_DRV_CTL_TCS_DATA_HI_VALID : Z := BIT 31.
Definition RSC_DRV_CTL_TCS_DATA_LO : Z := 0x40.
Definition RSC_DRV_CTL_TCS_DATA_LO_MASK : Z := 0xFFFFFFFF.
Definition RSC_DRV_CTL_TCS_DATA_SIZE : Z := 32.

Definition rpmh_rsc_write_next_wakeup (tb : timebase) : M unit :=
  let* d := kgets drv in
  if (tg_num_tcs (drv_tcs d !!! CONTROL_TCS) =? 0) || negb (genpd_notifier d) then kret tt
  else
    let wakeup_cycles :=
      if tb_suspend tb then 2 ^ 64 - 1
      else
        let wakeup := tb_next_hrtimer tb - tb_now tb in
        let wakeup_us := u64 (Z.quot wakeup 1000) in
        u64 (xloops_to_cycles tb (u64 (wakeup_us * 0x10C7)) + tb_counter tb) in
    let lo := Z.land wakeup_cycles RSC_DRV_CTL_TCS_DATA_LO_MASK in
    let hi := Z.land (u32 (Z.shiftr wakeup_cycles RSC_DRV_CTL_TCS_DATA_SIZE))
                RSC_DRV_CTL_TCS_DATA_HI_MASK in
    let hi := Z.lor hi RSC_DRV_CTL_TCS_DATA_HI_VALID in
    writel_relaxed lo (base d + RSC_DRV_CTL_TCS_DATA_LO) ;;;
    writel_relaxed hi (base d + RSC_DRV_CTL_TCS_DATA_HI).

End rsc.

(** ** Slot allocation *)

Record group_ok (g : tcs_group) : Prop := {
  gok_ncpt : 0 < tg_ncpt g;
  gok_num : 0 ≤ tg_num_tcs g;
  gok_size : tg_ncpt g * tg_num_tcs g ≤ MAX_TCS_SLOTS;
}.

(** [n] free slots at [p], all inside TCS number [t] of the group. *)
Definition fits (g : tcs_group) (n t p : Z) : Prop :=
  0 ≤ t < tg_num_tcs g ∧ t * tg_ncpt g ≤ p ∧ p + n ≤ (t + 1) * tg_ncpt g ∧
  area_free (tg_slots g) p n.

Lemma bitmap_set_testbit map start n i :
  0 ≤ start → 0 ≤ n → 0 ≤ i →
  Z.testbit (bitmap_set map start n) i = Z.testbit map i || bool_decide (start ≤ i < start + n).
Proof.
  intros Hs Hn Hi. unfold bitmap_set. rewrite Z.lor_spec, Z.shiftl_spec by done. f_equal.
  destruct (decide (start ≤ i < start + n)) as [H|H].
  - rewrite bool_decide_true by done. apply Z.ones_spec_low. lia.
  - rewrite bool_decide_false by done. destruct (decide (i < start)).
    + apply Z.testbit_neg_r. lia.
    + apply Z.ones_spec_high. lia.
Qed.

Section slots.
Context {B : BitmapSearch} {HB : BitmapSearchSpec B}.

Lemma find_slots_loop_spec g n (fuel : nat) k :
  group_ok g → 0 < n → 0 ≤ k ≤ tg_num_tcs g → tg_num_tcs g - k < Z.of_nat fuel →
  match find_slots_loop fuel g n (k * tg_ncpt g) with
  | None => False
  | Some None => ∀ t p, k ≤ t → ¬ fits g n t p
  | Some (Some slot) => ∃ t, k ≤ t ∧ fits g n t slot
  end.
Proof.
  intros [Hc Hnum Hsize] Hn. revert k. change MAX_TCS_SLOTS with 48 in Hsize.
  induction fuel as [|fuel IH]; intros k Hk Hfuel; [lia|]. simpl.
  destruct (zero_area_spec (tg_slots g) (tg_ncpt g * tg_num_tcs g) (k * tg_ncpt g) n)
    as [[Hbig Hnone]|(Hge & Hle & Hfree & Hmin)]; [nia|done| |];
    set (slot := bitmap_find_next_zero_area _ _ _ _) in *.
  - rewrite (proj2 (Z.leb_le _ _)) by lia.
    intros t p Ht (Htr & Hp1 & Hp2 & Hf). apply (Hnone p); [nia|nia|done].
  - rewrite (proj2 (Z.leb_gt _ _)) by lia.
    assert (0 ≤ k * tg_ncpt g) by nia. assert (1 ≤ tg_num_tcs g) by nia.
    assert (tg_ncpt g ≤ tg_ncpt g * tg_num_tcs g) by nia.
    rewrite !u32_small by lia.
    replace (k * tg_ncpt g + tg_ncpt g) with ((k + 1) * tg_ncpt g) by lia.
    destruct (Z.leb_spec ((k + 1) * tg_ncpt g) (slot + n - 1)) as [Hover|Hin].
    + assert (k + 1 ≤ tg_num_tcs g) by nia.
      specialize (IH (k + 1) ltac:(lia) ltac:(lia)).
      destruct (find_slots_loop _ _ _ _) as [[s|]|]; [| |done].
      * destruct IH as (t & Ht & Hfit). exists t. split; [lia|done].
      * intros t p Ht Hfit. destruct (decide (t = k)) as [->|Hne]; [|by apply (IH t p); [lia|]].
        destruct Hfit as (Htr & Hp1 & Hp2 & Hf).
        destruct (decide (p < slot)) as [Hlt|]; [|lia]. apply (Hmin p); [lia|done].
    + exists k. split; [lia|]. unfold fits. split; [nia|]. split; [lia|]. split; [lia|done].
Qed.

Lemma find_slots_spec g m :
  group_ok g → 0 < num_cmds m →
  match find_slots g m with
  | None => False
  | Some (inl e) => e = - ENOMEM ∧ ∀ t p, ¬ fits g (num_cmds m) t p
  | Some (inr (g', tcs_id, cmd_id)) =>
      let slot := (tcs_id - tg_offset g) * tg_ncpt g + cmd_id in
      0 ≤ cmd_id ∧ cmd_id + num_cmds m ≤ tg_ncpt g ∧
      fits g (num_cmds m) (tcs_id - tg_offset g) slot ∧
      g' = set_slots (tg_slots g') g ∧
      (∀ i, 0 ≤ i → Z.testbit (tg_slots g') i =
                    Z.testbit (tg_slots g) i || bool_decide (slot ≤ i < slot + num_cmds m))
  end.
Proof.
  intros Hok Hn. unfold find_slots.
  pose proof (find_slots_loop_spec g (num_cmds m) (S (S (Z.to_nat (tg_num_tcs g)))) 0 Hok Hn) as HL.
  destruct Hok as [Hc Hnum Hsize].
  rewrite Z.mul_0_l in HL. specialize (HL ltac:(lia) ltac:(lia)).
  destruct (find_slots_loop _ _ _ _) as [[slot|]|]; [| |done]; cbn [mbind option_bind].
  - destruct HL as (t & _ & (Ht & Hs1 & Hs2 & Hf)).
    assert (slot = tg_ncpt g * t + (slot - t * tg_ncpt g)) as Hs by lia.
    assert (0 ≤ slot) by nia.
    rewrite Z.quot_div_nonneg, Z.rem_mod_nonneg by lia.
    rewrite <- (Z.div_unique_pos slot (tg_ncpt g) t (slot - t * tg_ncpt g) ltac:(lia) Hs).
    rewrite <- (Z.mod_unique_pos slot (tg_ncpt g) t (slot - t * tg_ncpt g) ltac:(lia) Hs).
    replace (t + tg_offset g - tg_offset g) with t by lia.
    replace (t * tg_ncpt g + (slot - t * tg_ncpt g)) with slot by lia.
    cbv zeta. split; [lia|]. split; [lia|]. split; [done|]. split; [done|].
    intros i Hi. cbn [set_slots tg_slots]. apply bitmap_set_testbit; lia.
  - split; [done|]. intros t p Hfit. apply (HL t p); [|done]. by destruct Hfit as [? _]; lia.
Qed.

(** [find_slots] always ends; when it succeeds the message lands on slots that
    were free and lie inside a single TCS of the group, and exactly those slots
    become taken; when it answers -ENOMEM no TCS of the group has room for the
    message. *)
Theorem find_slots_correct g m :
  group_ok g → 0 < num_cmds m →
  match find_slots g m with
  | None => False
  | Some (inl e) => e = - ENOMEM ∧ ∀ t p, ¬ fits g (num_cmds m) t p
  | Some (inr (g', tcs_id, cmd_id)) =>
      let slot := (tcs_id - tg_offset g) * tg_ncpt g + cmd_id in
      0 ≤ cmd_id ∧ cmd_id + num_cmds m ≤ tg_ncpt g ∧
      fits g (num_cmds m) (tcs_id - tg_offset g) slot ∧
      g' = set_slots (tg_slots g') g ∧
      (∀ i, 0 ≤ i → Z.testbit (tg_slots g') i =
                    Z.testbit (tg_slots g) i || bool_decide (slot ≤ i < slot + num_cmds m))
  end.
Proof. apply find_slots_spec. Qed.
End slots.

(** Two TCSes of four commands, three slots taken in the first one. *)
Definition sample_group : tcs_group := mk_tcs_group true SLEEP_TCS 0x6 1 2 4 [None; None; None] 0x7.
Definition sample_msg (n : Z) : tcs_request :=
  mk_tcs_request RPMH_SLEEP_STATE false n (replicate (Z.to_nat n) (mk_cmd 0x100 1 0)).

Lemma sample_group_ok : group_ok sample_group.
Proof. split; vm_compute; congruence. Qed.

Lemma find_slots_witness :
  find_slots sample_group (sample_msg 2) = Some (inr (set_slots 0x37 sample_group, 2, 0)) ∧
  fits sample_group 2 1 4.
Proof.
  split; [reflexivity|].
  exact (proj1 (proj2 (proj2 (find_slots_correct sample_group (sample_msg 2) sample_group_ok eq_refl)))).
Defined.
