(* ===== verification/RpmhTcs.v ===== *)
(** * What the TCS registers hold

    The command registers of a controller, seen as a table indexed by register,
    TCS and command number, and the effect of the routines of [RpmhRsc] on
    that table.  The table is well defined because the register addresses do
    not overlap ([reg_table_distinct]) and because the hardware keeps what is
    written there ([StorageDevice]). *)

From S2P Require Import Prelude Kernel CmdDb RpmhRsc.

#[export] Instance rsc_reg_eq_dec : EqDecision rsc_reg.
Proof. solve_decision. Defined.

(** Registers that exist once per TCS, and once per command of a TCS. *)
Inductive cfg := Creg (r : rsc_reg) (m : Z) | Ccmd (r : rsc_reg) (m j : Z).
#[export] Instance cfg_eq_dec : EqDecision cfg.
Proof. solve_decision. Defined.

Definition cfg_addr (d : rsc_drv) (c : cfg) : Z :=
  match c with
  | Creg r m => tcs_reg_addr d (regs d r) m
  | Ccmd r m j => tcs_cmd_addr d (regs d r) m j
  end.

Definition tcs_reg_kind (r : rsc_reg) : bool :=
  match r with RSC_DRV_CMD_ENABLE | RSC_DRV_CMD_WAIT_FOR_CMPL | RSC_DRV_CONTROL => true | _ => false end.
Definition tcs_cmd_kind (r : rsc_reg) : bool :=
  match r with RSC_DRV_CMD_MSGID | RSC_DRV_CMD_ADDR | RSC_DRV_CMD_DATA => true | _ => false end.

(** The registers of TCSes [0..N-1] with [C] commands each. *)
Definition cfg_valid (N C : Z) (c : cfg) : Prop :=
  match c with
  | Creg r m => tcs_reg_kind r = true ∧ 0 ≤ m < N
  | Ccmd r m j => tcs_cmd_kind r = true ∧ 0 ≤ m < N ∧ 0 ≤ j < C
  end.

Definition no_alias (d : rsc_drv) (N C : Z) : Prop :=
  ∀ c c', cfg_valid N C c → cfg_valid N C c' → cfg_addr d c = cfg_addr d c' → c = c'.

(** How many commands a TCS of each register table can hold. *)
Definition max_cmds (tbl : rsc_reg → Z) : Z := if tbl RSC_DRV_TCS_OFFSET =? 336 then 12 else 16.

Definition reg_tables : list (rsc_reg → Z) :=
  [rpmh_rsc_reg_offset_ver_2_7; rpmh_rsc_reg_offset_ver_3_0; rpmh_rsc_reg_offset_ver_3_0_hw_channel].

(** Position of a register inside its TCS, and the distance between TCSes. *)
Definition cfg_tcs (c : cfg) : Z := match c with Creg _ m => m | Ccmd _ m _ => m end.
Definition cfg_off (tbl : rsc_reg → Z) (c : cfg) : Z :=
  match c with Creg r _ => tbl r | Ccmd r _ j => tbl r + tbl RSC_DRV_CMD_OFFSET * j end.
Definition tcs_stride (d : rsc_drv) : Z :=
  if tcs_distance d =? 0 then regs d RSC_DRV_TCS_OFFSET else tcs_distance d.

Lemma cfg_addr_split d c :
  cfg_addr d c = tcs_base d + tcs_stride d * cfg_tcs c + cfg_off (regs d) c.
Proof.
  unfold cfg_addr, tcs_cmd_addr, tcs_reg_addr, tcs_stride.
  destruct c; simpl; destruct (tcs_distance d =? 0); lia.
Qed.

Lemma cfg_off_range tbl N C c :
  tbl ∈ reg_tables → C ≤ max_cmds tbl → cfg_valid N C c → 0 ≤ cfg_off tbl c < tbl RSC_DRV_TCS_OFFSET.
Proof.
  intros Htbl HC Hc. unfold reg_tables in Htbl.
  destruct c as [r m|r m j]; destruct Hc as [Hr Hc]; destruct r; try discriminate Hr;
    set_unfold in Htbl; destruct Htbl as [->|[->|[->|[]]]]; unfold max_cmds in HC; simpl in *; lia.
Qed.

Lemma cfg_off_inj tbl N C c c' :
  tbl ∈ reg_tables → cfg_valid N C c → cfg_valid N C c' →
  cfg_tcs c = cfg_tcs c' → cfg_off tbl c = cfg_off tbl c' → c = c'.
Proof.
  intros Htbl Hc Hc' Hm. unfold reg_tables in Htbl. set_unfold in Htbl.
  destruct c as [r m|r m j]; destruct Hc as [Hr Hc]; destruct r; try discriminate Hr;
    destruct c' as [r' m'|r' m' j']; destruct Hc' as [Hr' Hc']; destruct r'; try discriminate Hr';
    simpl in Hm; subst m';
    destruct Htbl as [->|[->|[->|[]]]]; simpl; intros Heq; first [done | lia | f_equal; lia].
Qed.

Lemma reg_table_distinct d N C :
  regs d ∈ reg_tables →
  tcs_distance d = 0 ∨ regs d RSC_DRV_TCS_OFFSET ≤ tcs_distance d →
  C ≤ max_cmds (regs d) → no_alias d N C.
Proof.
  intros Htbl Hdist HC c c' Hc Hc' Heq. rewrite !cfg_addr_split in Heq.
  pose proof (cfg_off_range _ _ _ _ Htbl HC Hc). pose proof (cfg_off_range _ _ _ _ Htbl HC Hc').
  assert (regs d RSC_DRV_TCS_OFFSET ≤ tcs_stride d).
  { unfold tcs_stride. destruct (Z.eqb_spec (tcs_distance d) 0); lia. }
  assert (cfg_tcs c = cfg_tcs c') as Hm by nia.
  apply (cfg_off_inj (regs d) N C); [done..|]. rewrite Hm in Heq. lia.
Qed.

(** with each of the three register tables and the TCS stride of that table
    (or a larger "qcom,tcs-distance"), the command-enable, wait-for-completion,
    control, message-id, address and data registers of all TCSes are pairwise
    different, up to 16 commands per TCS (12 for the hardware-channel layout). *)
Theorem reg_table_no_alias d N C :
  regs d ∈ reg_tables →
  tcs_distance d = 0 ∨ regs d RSC_DRV_TCS_OFFSET ≤ tcs_distance d →
  C ≤ max_cmds (regs d) → no_alias d N C.
Proof. apply reg_table_distinct. Qed.

(** A controller with two active, three sleep and three wake TCSes on one channel. *)
Definition sample_tcs (type : nat) (offset num : Z) : tcs_group :=
  mk_tcs_group true type (Z.shiftl (Z.ones num) offset) offset num 16 [None; None; None] 0.
Definition sample_channel : drv_channel :=
  mk_drv_channel [sample_tcs SLEEP_TCS 2 3; sample_tcs WAKE_TCS 5 3; sample_tcs ACTIVE_TCS 0 2;
                  zero_tcs_group; zero_tcs_group] true.
Definition sample_drv (k : rpmh_ctrlr) : rsc_drv :=
  mk_rsc_drv 0 0xD00 0 2 8 1 false true false 0 (replicate 5 zero_tcs_group)
    [sample_channel; zero_drv_channel] 0 k rpmh_rsc_reg_offset_ver_3_0.

Lemma reg_table_witness :
  no_alias (sample_drv (mk_rpmh_ctrlr false false 0 [] 0 [])) 8 16.
Proof.
  apply (reg_table_no_alias (sample_drv (mk_rpmh_ctrlr false false 0 [] 0 [])) 8 16).
  - right. left.
  - left. reflexivity.
  - vm_compute. discriminate.
Defined.

(** ** Register accesses on the table *)

Section table.
Context `{D : Device} {SD : StorageDevice D} (N C : Z).

(** The hardware keeps the command registers, at distinct addresses. *)
Record layout_ok (d : rsc_drv) : Prop := {
  lo_alias : no_alias d N C;
  lo_stored c : cfg_valid N C c → stored (cfg_addr d c);
}.

Definition table (s : rsc) (F : cfg → Z) : Prop :=
  ∀ c, cfg_valid N C c → peek (hw s) (cfg_addr (drv s) c) = F c.

(** Nothing but the hardware changed. *)
Definition hw_only (s s' : rsc) : Prop := drv s' = drv s ∧ completed s' = completed s.

Lemma hw_only_refl s : hw_only s s.
Proof. done. Qed.
Lemma hw_only_trans s1 s2 s3 : hw_only s1 s2 → hw_only s2 s3 → hw_only s1 s3.
Proof. intros [??] [??]. split; congruence. Qed.

Lemma table_ext s F F' : table s F → (∀ c, cfg_valid N C c → F c = F' c) → table s F'.
Proof. intros HT HF c Hc. rewrite HT, HF by done. done. Qed.

Lemma read_cfg_run s F c :
  layout_ok (drv s) → table s F → cfg_valid N C c →
  ∃ s', readl_relaxed (cfg_addr (drv s) c) s = (Done (F c), s') ∧ hw_only s s' ∧ table s' F.
Proof.
  intros [_ Hst] HT Hc. unfold readl_relaxed.
  pose proof (read_stored _ (hw s) (Hst c Hc)) as Hr.
  pose proof (λ c', read_keeps (cfg_addr (drv s) c) (cfg_addr (drv s) c') (hw s)) as Hk.
  destruct (readl _ (hw s)) as [v h] eqn:E. simpl in *.
  eexists. split; [by rewrite Hr, HT|]. split; [done|].
  intros c' Hc'. simpl. rewrite Hk by eauto. by apply HT.
Qed.

Lemma write_cfg_run s F c v :
  layout_ok (drv s) → table s F → cfg_valid N C c →
  ∃ s', writel_relaxed v (cfg_addr (drv s) c) s = (Done tt, s') ∧ hw_only s s' ∧
        table s' (<[c := v]> F).
Proof.
  intros [Hal Hst] HT Hc. eexists. split; [done|]. split; [done|].
  intros c' Hc'. simpl. destruct (decide (c = c')) as [<-|Hne].
  - rewrite fn_lookup_insert. by apply write_stored, Hst.
  - rewrite fn_lookup_insert_ne by done. rewrite write_keeps; [by apply HT|by apply Hst|].
    intros Heq. by apply Hne, Hal.
Qed.

Lemma read_tcs_reg_run s F r m :
  layout_ok (drv s) → table s F → cfg_valid N C (Creg r m) →
  ∃ s', read_tcs_reg r m s = (Done (F (Creg r m)), s') ∧ hw_only s s' ∧ table s' F.
Proof. intros HL HT Hc. exact (read_cfg_run s F _ HL HT Hc). Qed.

Lemma write_tcs_reg_run s F r m v :
  layout_ok (drv s) → table s F → cfg_valid N C (Creg r m) →
  ∃ s', write_tcs_reg r m v s = (Done tt, s') ∧ hw_only s s' ∧ table s' (<[Creg r m := v]> F).
Proof. intros HL HT Hc. exact (write_cfg_run s F _ v HL HT Hc). Qed.

Lemma write_tcs_cmd_run s F r m j v :
  layout_ok (drv s) → table s F → cfg_valid N C (Ccmd r m j) →
  ∃ s', write_tcs_cmd r m j v s = (Done tt, s') ∧ hw_only s s' ∧ table s' (<[Ccmd r m j := v]> F).
Proof. intros HL HT Hc. exact (write_cfg_run s F _ v HL HT Hc). Qed.

End table.

(** Run one step of a routine with the lemma [L], leaving the rest of the
    routine on the new state. *)
Ltac kstep L :=
  let s' := fresh "s" in let Hrun := fresh "Hrun" in
  let Hsame := fresh "Hsame" in let HT := fresh "HT" in
  edestruct L as (s' & Hrun & Hsame & HT);
  [..|rewrite (kbind_Done _ _ _ _ _ Hrun); clear Hrun].

Section effects.
Context `{D : Device} {SD : StorageDevice D} (N C : Z).
Abbreviation layout_ok := (layout_ok N C).
Abbreviation table := (table N C).
Abbreviation cfg_valid := (cfg_valid N C).

Lemma write_tcs_reg_sync_run s F r m v :
  layout_ok (drv s) → table s F → cfg_valid (Creg r m) →
  ∃ s', write_tcs_reg_sync r m v s = (Done tt, s') ∧ hw_only s s' ∧ table s' (<[Creg r m := v]> F).
Proof.
  intros HL HT Hc. unfold write_tcs_reg_sync. kstep write_tcs_reg_run; [done..|].
  assert (layout_ok (drv s0)) as HL0 by (destruct Hsame as [-> _]; done).
  destruct (read_tcs_reg_run N C s0 _ r m HL0 HT0 Hc) as (s1 & Hrun & Hsame1 & HT1).
  rewrite fn_lookup_insert in Hrun.
  exists s1. split.
  { erewrite kbind_Done; [reflexivity|]. apply poll_first. rewrite (kbind_Done _ _ _ _ _ Hrun).
    unfold kret. by rewrite Z.eqb_refl. }
  split; [by eapply hw_only_trans|done].
Qed.

Lemma clear_tcs_run s F l :
  layout_ok (drv s) → table s F → (∀ m, m ∈ l → 0 ≤ m < N) →
  ∃ s', for_each l (λ m, write_tcs_reg_sync RSC_DRV_CMD_ENABLE m 0 ;;;
                         write_tcs_reg_sync RSC_DRV_CMD_WAIT_FOR_CMPL m 0) s = (Done tt, s') ∧
    hw_only s s' ∧
    table s' (λ c, match c with
                   | Creg (RSC_DRV_CMD_ENABLE | RSC_DRV_CMD_WAIT_FOR_CMPL) m =>
                       if bool_decide (m ∈ l) then 0 else F c
                   | _ => F c
                   end).
Proof.
  revert s F. induction l as [|m l IH]; intros s F HL HT Hl; simpl.
  { exists s. split; [done|]. split; [done|]. eapply table_ext; [done|].
    intros [[]|] _; try done. }
  assert (0 ≤ m < N) by (apply Hl; left).
  unfold kbind at 1. kstep write_tcs_reg_sync_run; [done..|].
  destruct (write_tcs_reg_sync_run s0 (<[Creg RSC_DRV_CMD_ENABLE m:=0]> F) RSC_DRV_CMD_WAIT_FOR_CMPL m 0)
    as (s1 & Hr1 & Hs1 & HT1); [by destruct Hsame as [-> _]|done..|].
  rewrite Hr1.
  destruct (IH s1 _ ltac:(by destruct Hs1 as [-> _], Hsame as [-> _]) HT1) as (s2 & Hr2 & Hs2 & HT2).
  { intros m' Hm'. apply Hl. by right. }
  exists s2. split; [done|]. split; [eauto using hw_only_trans|].
  eapply table_ext; [done|]. intros [r m'|r m' j] _; [|by rewrite !fn_lookup_insert_ne].
  destruct r; rewrite ?fn_lookup_insert_ne by done; try done.
  - destruct (decide (m' = m)) as [->|Hne].
    + rewrite fn_lookup_insert, (bool_decide_true (m ∈ m :: l)) by left. by case_bool_decide.
    + rewrite !fn_lookup_insert_ne by congruence.
      by rewrite (bool_decide_ext (m' ∈ m :: l) (m' ∈ l)) by set_solver.
  - destruct (decide (m' = m)) as [->|Hne].
    + rewrite fn_lookup_insert, (bool_decide_true (m ∈ m :: l)) by left. by case_bool_decide.
    + rewrite !fn_lookup_insert_ne by congruence.
      by rewrite (bool_decide_ext (m' ∈ m :: l) (m' ∈ l)) by set_solver.
Qed.

(** The values [__tcs_buffer_write] puts in the command registers. *)
Definition msg_msgid (m : tcs_request) (i : Z) : Z :=
  Z.lor (Z.lor (Z.lor CMD_MSGID_LEN CMD_MSGID_WRITE)
           (if wait_for_compl m then CMD_MSGID_RESP_REQ else 0))
    (if cmd_wait (nth_cmd m i) =? 0 then 0 else CMD_MSGID_RESP_REQ).

Definition with_cmds (tcs_id cmd_id : Z) (m : tcs_request) (l : list Z) (F : cfg → Z) (c : cfg) : Z :=
  match c with
  | Ccmd r t j =>
      if bool_decide (t = tcs_id ∧ j - cmd_id ∈ l) then
        match r with
        | RSC_DRV_CMD_MSGID => msg_msgid m (j - cmd_id)
        | RSC_DRV_CMD_ADDR => cmd_addr (nth_cmd m (j - cmd_id))
        | RSC_DRV_CMD_DATA => cmd_data (nth_cmd m (j - cmd_id))
        | _ => F c
        end
      else F c
  | _ => F c
  end.

Lemma with_cmds_cons tcs_id cmd_id m i l F c :
  with_cmds tcs_id cmd_id m l
    (<[Ccmd RSC_DRV_CMD_DATA tcs_id (cmd_id + i) := cmd_data (nth_cmd m i)]>
     (<[Ccmd RSC_DRV_CMD_ADDR tcs_id (cmd_id + i) := cmd_addr (nth_cmd m i)]>
      (<[Ccmd RSC_DRV_CMD_MSGID tcs_id (cmd_id + i) := msg_msgid m i]> F))) c
  = with_cmds tcs_id cmd_id m (i :: l) F c.
Proof.
  destruct c as [r t|r t j]; simpl; [by rewrite !fn_lookup_insert_ne|].
  destruct (decide (t = tcs_id ∧ j - cmd_id ∈ l)) as [[-> Hin]|Hnot].
  - rewrite !bool_decide_true by (split; [done|try right; done]).
    by destruct r; rewrite ?fn_lookup_insert_ne by done.
  - rewrite (bool_decide_false (t = tcs_id ∧ j - cmd_id ∈ l)) by done.
    destruct (decide (t = tcs_id ∧ j = cmd_id + i)) as [[-> ->]|Hne].
    + rewrite bool_decide_true by (split; [done|]; apply elem_of_cons; left; lia).
      replace (cmd_id + i - cmd_id) with i by lia.
      by destruct r; rewrite ?fn_lookup_insert_ne, ?fn_lookup_insert by done.
    + rewrite !fn_lookup_insert_ne by naive_solver.
      rewrite bool_decide_false; [done|]. intros [-> Hin].
      apply elem_of_cons in Hin as [Hin|Hin]; [apply Hne; split; [done|lia]|by apply Hnot].
Qed.

Lemma u32_BIT j : 0 ≤ j < 32 → u32 (BIT j) = 2 ^ j.
Proof.
  intros Hj. unfold BIT. rewrite Z.shiftl_1_l. apply u32_small.
  split; [apply Z.pow_nonneg; lia|apply Z.pow_lt_mono_r; lia].
Qed.

Lemma lor_BIT_testbit x j b :
  0 ≤ j < 32 → 0 ≤ b → Z.testbit (Z.lor x (u32 (BIT j))) b = Z.testbit x b || bool_decide (b = j).
Proof.
  intros Hj Hb. rewrite Z.lor_spec, u32_BIT by done. f_equal.
  destruct (decide (b = j)) as [->|Hne].
  - rewrite bool_decide_true by done. apply Z.pow2_bits_true. lia.
  - rewrite bool_decide_false by done. apply Z.pow2_bits_false. lia.
Qed.

Lemma buffer_write_loop_run s F m tcs_id cmd_id l ce cc :
  layout_ok (drv s) → table s F → 0 ≤ tcs_id < N →
  (∀ i, i ∈ l → 0 ≤ cmd_id + i < C ∧ cmd_id + i < 32) →
  ∃ ce' cc' s',
    buffer_write_loop m tcs_id cmd_id l ce cc s = (Done (ce', cc'), s') ∧
    hw_only s s' ∧ table s' (with_cmds tcs_id cmd_id m l F) ∧
    ∀ b, 0 ≤ b → Z.testbit ce' b = Z.testbit ce b || bool_decide (b - cmd_id ∈ l).
Proof.
  revert s F ce cc. induction l as [|i l IH]; intros s F ce cc HL HT Ht Hl; simpl.
  { exists ce, cc, s. split; [done|]. split; [done|]. split.
    - eapply table_ext; [done|]. intros [|r t j] _; simpl; [done|].
      by rewrite bool_decide_false by set_solver.
    - intros b _. by rewrite orb_false_r. }
  destruct (Hl i) as [Hi Hi32]; [by left|].
  kstep write_tcs_cmd_run; [done|done|done|].
  kstep write_tcs_cmd_run; [by destruct Hsame as [-> _]|done|done|].
  kstep write_tcs_cmd_run; [by destruct Hsame0 as [-> _], Hsame as [-> _]|done|done|].
  assert (hw_only s s2) as Hs by eauto using hw_only_trans.
  edestruct (IH s2 _ (Z.lor ce (u32 (BIT (cmd_id + i))))
      (Z.lor cc (u32 (Z.shiftl (cmd_wait (nth_cmd m i)) (cmd_id + i)))) ltac:(by destruct Hs as [-> _]) HT2 Ht)
    as (ce' & cc' & s3 & Hrun & Hs3 & HT3 & Hbits).
  { intros k Hk. apply Hl. by right. }
  exists ce', cc', s3. split; [apply Hrun|]. split; [by eapply hw_only_trans|]. split.
  - eapply table_ext; [done|]. intros c _. apply with_cmds_cons.
  - intros b Hb. rewrite Hbits, lor_BIT_testbit, <- orb_assoc by lia. f_equal.
    rewrite <- bool_decide_or. apply bool_decide_ext. rewrite elem_of_cons.
    split; (intros [?|?]; [left; lia|by right]).
Qed.

(** Slots [cmd_id .. cmd_id+n-1] of a TCS now hold the commands of the message
    and are enabled; nothing else changed. *)
Lemma tcs_buffer_write_run s F m tcs_id cmd_id :
  layout_ok (drv s) → table s F → 0 ≤ tcs_id < N → 0 ≤ cmd_id →
  cmd_id + num_cmds m ≤ C → cmd_id + num_cmds m ≤ 32 →
  ∃ s' F', __tcs_buffer_write tcs_id cmd_id m s = (Done tt, s') ∧ hw_only s s' ∧ table s' F' ∧
    (∀ c, cfg_tcs c ≠ tcs_id → F' c = F c) ∧
    (∀ r j, F' (Ccmd r tcs_id j) = with_cmds tcs_id cmd_id m (seqZ 0 (num_cmds m)) F (Ccmd r tcs_id j)) ∧
    (∀ b, 0 ≤ b → Z.testbit (F' (Creg RSC_DRV_CMD_ENABLE tcs_id)) b =
       Z.testbit (F (Creg RSC_DRV_CMD_ENABLE tcs_id)) b ||
       bool_decide (cmd_id ≤ b < cmd_id + num_cmds m)).
Proof.
  intros HL HT Ht Hcmd HC H32. unfold __tcs_buffer_write.
  kstep read_tcs_reg_run; [done|done|done|].
  destruct (buffer_write_loop_run s0 F m tcs_id cmd_id (seqZ 0 (num_cmds m)) 0
              (F (Creg RSC_DRV_CMD_WAIT_FOR_CMPL tcs_id)))
    as (ce & cc & s1 & Hr1 & Hs1 & HT1 & Hbits); [by destruct Hsame as [-> _]|done|done| |].
  { intros i Hi. apply elem_of_seqZ in Hi. lia. }
  rewrite (kbind_Done _ _ _ _ _ Hr1). cbn [fst snd].
  assert (hw_only s s1) as Hs01 by eauto using hw_only_trans.
  kstep write_tcs_reg_run; [by destruct Hs01 as [-> _]|done|done|].
  assert (hw_only s s2) as Hs02 by eauto using hw_only_trans.
  kstep read_tcs_reg_run; [by destruct Hs02 as [-> _]|done|done|].
  assert (hw_only s s3) as Hs03 by eauto using hw_only_trans.
  rewrite fn_lookup_insert_ne by done. simpl.
  destruct (write_tcs_reg_run N C s3 _ RSC_DRV_CMD_ENABLE tcs_id
     (Z.lor ce (F (Creg RSC_DRV_CMD_ENABLE tcs_id))) ltac:(by destruct Hs03 as [-> _]) HT3 ltac:(done))
    as (s4 & Hr4 & Hs4 & HT4).
  eexists s4, _. split; [exact Hr4|]. split; [by eapply hw_only_trans|]. split; [exact HT4|].
  split; [|split].
  - intros [r t|r t j] Hne; simpl in Hne; rewrite !fn_lookup_insert_ne by congruence; simpl; [done|].
    by rewrite bool_decide_false by naive_solver.
  - intros r j. by rewrite !fn_lookup_insert_ne by done.
  - intros b Hb. rewrite fn_lookup_insert, Z.lor_spec, Hbits by done.
    rewrite Z.testbit_0_l, orb_false_l, orb_comm. f_equal. apply bool_decide_ext.
    rewrite elem_of_seqZ. lia.
Qed.
End effects.

(** ** What a group of TCSes is programmed to send *)

Section groups.
Context `{D : Device} {SD : StorageDevice D} {B : BitmapSearch} {HB : BitmapSearchSpec B} (N C : Z).
Abbreviation layout_ok := (layout_ok N C).
Abbreviation table := (table N C).

Record group_at (g : tcs_group) : Prop := {
  ga_ok : group_ok g;
  ga_off : 0 ≤ tg_offset g;
  ga_end : tg_offset g + tg_num_tcs g ≤ N;
  ga_ncpt : tg_ncpt g ≤ C;
  ga_max : tg_ncpt g ≤ MAX_CMDS_PER_TCS;
}.

Definition in_group (g : tcs_group) (m : Z) : Prop := tg_offset g ≤ m < tg_offset g + tg_num_tcs g.

(** The slot bitmap says which commands are enabled. *)
Definition slot_sync (F : cfg → Z) (g : tcs_group) : Prop :=
  ∀ t j, 0 ≤ t < tg_num_tcs g → 0 ≤ j < tg_ncpt g →
    Z.testbit (F (Creg RSC_DRV_CMD_ENABLE (tg_offset g + t))) j =
    Z.testbit (tg_slots g) (t * tg_ncpt g + j).

Definition programmed (F : cfg → Z) (g : tcs_group) (a v : Z) : Prop :=
  ∃ t j, 0 ≤ t < tg_num_tcs g ∧ 0 ≤ j < tg_ncpt g ∧
    Z.testbit (F (Creg RSC_DRV_CMD_ENABLE (tg_offset g + t))) j = true ∧
    F (Ccmd RSC_DRV_CMD_ADDR (tg_offset g + t) j) = a ∧
    F (Ccmd RSC_DRV_CMD_DATA (tg_offset g + t) j) = v.

Definition sends (m : tcs_request) (a v : Z) : Prop :=
  ∃ i, 0 ≤ i < num_cmds m ∧ cmd_addr (nth_cmd m i) = a ∧ cmd_data (nth_cmd m i) = v.

Lemma slot_inj ncpt t j t' j' :
  0 ≤ j < ncpt → 0 ≤ j' < ncpt → t * ncpt + j = t' * ncpt + j' → t = t' ∧ j = j'.
Proof. intros. assert (t = t') by nia. subst. split; lia. Qed.

(** Writing [n] commands on free slots of TCS [t0]. *)
Lemma programmed_write F F' g g' m t0 cmd_id :
  0 < num_cmds m → slot_sync F g → 0 ≤ cmd_id → cmd_id + num_cmds m ≤ tg_ncpt g →
  fits g (num_cmds m) t0 (t0 * tg_ncpt g + cmd_id) →
  g' = set_slots (tg_slots g') g →
  (∀ i, 0 ≤ i → Z.testbit (tg_slots g') i = Z.testbit (tg_slots g) i ||
     bool_decide (t0 * tg_ncpt g + cmd_id ≤ i < t0 * tg_ncpt g + cmd_id + num_cmds m)) →
  (∀ c, cfg_tcs c ≠ tg_offset g + t0 → F' c = F c) →
  (∀ r j, F' (Ccmd r (tg_offset g + t0) j) =
     with_cmds (tg_offset g + t0) cmd_id m (seqZ 0 (num_cmds m)) F (Ccmd r (tg_offset g + t0) j)) →
  (∀ b, 0 ≤ b → Z.testbit (F' (Creg RSC_DRV_CMD_ENABLE (tg_offset g + t0))) b =
     Z.testbit (F (Creg RSC_DRV_CMD_ENABLE (tg_offset g + t0))) b ||
     bool_decide (cmd_id ≤ b < cmd_id + num_cmds m)) →
  slot_sync F' g' ∧ (∀ a v, programmed F' g' a v ↔ programmed F g a v ∨ sends m a v).
Proof.
  intros Hn Hsync Hc0 Hc1 (Ht0 & _ & _ & Hfree) Hg' Hbits Hother Hcmds Hen.
  destruct g' as [? ? ? ? ? ? ? sl']. simpl in Hg'. injection Hg' as -> -> -> -> -> -> ->.
  assert (∀ j, 0 ≤ j < tg_ncpt g →
    (t0 * tg_ncpt g + cmd_id ≤ t0 * tg_ncpt g + j < t0 * tg_ncpt g + cmd_id + num_cmds m)
    ↔ cmd_id ≤ j < cmd_id + num_cmds m) as Harea by (intros; lia).
  assert (∀ t j, 0 ≤ t < tg_num_tcs g → 0 ≤ j < tg_ncpt g → t ≠ t0 →
    ¬ (t0 * tg_ncpt g + cmd_id ≤ t * tg_ncpt g + j < t0 * tg_ncpt g + cmd_id + num_cmds m)) as Hnarea.
  { intros t j Ht Hj Hne Hin. assert (t = t0) by nia. done. }
  split.
  - intros t j Ht Hj. simpl in *. rewrite Hbits by nia.
    destruct (decide (t = t0)) as [->|Hne].
    + rewrite Hen, Hsync by lia. f_equal. apply bool_decide_ext. symmetry. by apply Harea.
    + rewrite Hother by (simpl; lia). rewrite Hsync, (bool_decide_false _ (Hnarea t j Ht Hj Hne)) by lia.
      by rewrite orb_false_r.
  - intros a v. unfold programmed, sends. simpl. split.
    + intros (t & j & Ht & Hj & Hbit & Ha & Hv). destruct (decide (t = t0)) as [->|Hne].
      * rewrite Hcmds in Ha, Hv. rewrite Hen in Hbit by lia. simpl in Ha, Hv.
        destruct (decide (cmd_id ≤ j < cmd_id + num_cmds m)) as [Hin|Hnin].
        -- right. exists (j - cmd_id).
           rewrite bool_decide_true in Ha, Hv by (split; [done|]; apply elem_of_seqZ; lia).
           split; [lia|done].
        -- left. exists t0, j.
           rewrite bool_decide_false in Ha, Hv by (rewrite elem_of_seqZ; lia).
           rewrite (bool_decide_false (_ ≤ _ < _)), orb_false_r in Hbit by done. done.
      * rewrite !Hother in Ha, Hv, Hbit by (simpl; lia). left. by exists t, j.
    + intros [(t & j & Ht & Hj & Hbit & Ha & Hv)|(i & Hi & Ha & Hv)].
      * exists t, j. split; [done|]. split; [done|]. destruct (decide (t = t0)) as [->|Hne].
        -- assert (¬ (cmd_id ≤ j < cmd_id + num_cmds m)) as Hnin.
           { intros Hin. rewrite Hsync in Hbit by lia. rewrite Hfree in Hbit; [done|lia]. }
           rewrite !Hcmds, Hen by lia. simpl.
           rewrite !bool_decide_false by (rewrite ?elem_of_seqZ; lia). by rewrite Hbit.
        -- by rewrite !Hother by (simpl; lia).
      * exists t0, (cmd_id + i). split; [done|]. split; [lia|]. rewrite !Hcmds, Hen by lia. simpl.
        rewrite !bool_decide_true by (rewrite ?elem_of_seqZ; lia).
        replace (cmd_id + i - cmd_id) with i by lia.
        rewrite orb_true_r. done.
Qed.

(** *** The sleep and wake groups of one channel *)

Definition channel_wf (d : rsc_drv) (c : Z) : Prop :=
  (Z.to_nat c < length (ch d))%nat ∧ length (chn_tcs (channel_of d c)) = 5%nat.

Lemma channel_of_upd d c type f :
  channel_wf d c →
  channel_of (upd_tcs c type f d) c =
  mk_drv_channel (alter f type (chn_tcs (channel_of d c))) (chn_initialized (channel_of d c)).
Proof.
  intros [Hc _]. unfold channel_of, upd_tcs. simpl.
  apply list_lookup_total_correct. rewrite list_lookup_alter, decide_True by done.
  by rewrite (list_lookup_lookup_total_lt _ _ Hc).
Qed.

Lemma tcs_of_upd d c type f :
  channel_wf d c → (type < 5)%nat → tcs_of (upd_tcs c type f d) c type = f (tcs_of d c type).
Proof.
  intros Hwf Ht. unfold tcs_of. rewrite channel_of_upd by done. simpl.
  apply list_lookup_total_correct. rewrite list_lookup_alter, decide_True by done.
  rewrite (list_lookup_lookup_total_lt (chn_tcs (channel_of d c)) type); [done|].
  destruct Hwf as [_ ->]. lia.
Qed.

Lemma tcs_of_upd_ne d c type type' f :
  channel_wf d c → type ≠ type' → tcs_of (upd_tcs c type f d) c type' = tcs_of d c type'.
Proof.
  intros Hwf Hne. unfold tcs_of. rewrite channel_of_upd by done. simpl.
  rewrite !list_lookup_total_alt, list_lookup_alter_ne by done. done.
Qed.

Lemma channel_wf_upd d c c' type f : channel_wf d c → channel_wf (upd_tcs c' type f d) c.
Proof.
  intros [Hc Hlen]. unfold channel_wf, channel_of, upd_tcs in *. cbn [ch set_chs]. rewrite length_alter.
  split; [done|]. rewrite list_lookup_total_alt, list_lookup_alter.
  rewrite list_lookup_total_alt in Hlen. case_decide as Heq; [|done].
  rewrite Heq, (list_lookup_lookup_total_lt _ _ Hc) in *.
  cbn [fmap option_fmap option_map default from_option id chn_tcs] in *. by rewrite length_alter.
Qed.

Lemma layout_ok_upd d c type f : layout_ok d → layout_ok (upd_tcs c type f d).
Proof. intros [Ha Hs]. split; [exact Ha|exact Hs]. Qed.

(** The sleep ([type = 0]) and wake ([type = 1]) groups of channel [c] are set up,
    in step with their slot bitmaps, and hold exactly the commands [P]. *)
Record tcs_holds (s : rsc) (c : Z) (P : nat → Z → Z → Prop) : Prop := {
  th_layout : layout_ok (drv s);
  th_wf : channel_wf (drv s) c;
  th_group type : (type < 2)%nat → group_at (tcs_of (drv s) c type);
  th_disj m : in_group (tcs_of (drv s) c SLEEP_TCS) m → ¬ in_group (tcs_of (drv s) c WAKE_TCS) m;
  th_table : ∃ F, table s F ∧ ∀ type, (type < 2)%nat →
    slot_sync F (tcs_of (drv s) c type) ∧
    ∀ a v, programmed F (tcs_of (drv s) c type) a v ↔ P type a v;
}.

Lemma tcs_holds_disj s c P type type' m :
  tcs_holds s c P → (type < 2)%nat → (type' < 2)%nat → type ≠ type' →
  in_group (tcs_of (drv s) c type) m → ¬ in_group (tcs_of (drv s) c type') m.
Proof.
  intros [_ _ _ Hd _] H1 H2 Hne Hin Hin'.
  destruct type as [|[|]], type' as [|[|]]; try lia; [by apply (Hd m)|by apply (Hd m)].
Qed.

(** A group only depends on the registers of its own TCSes. *)
Lemma group_frame F F' g :
  (∀ c, in_group g (cfg_tcs c) → F' c = F c) →
  (slot_sync F g → slot_sync F' g) ∧ (∀ a v, programmed F' g a v ↔ programmed F g a v).
Proof.
  intros HF. assert (∀ t r, 0 ≤ t < tg_num_tcs g → F' (Creg r (tg_offset g + t)) = F (Creg r (tg_offset g + t))) as H1.
  { intros t r Ht. apply HF. unfold in_group. simpl. lia. }
  assert (∀ t r j, 0 ≤ t < tg_num_tcs g → F' (Ccmd r (tg_offset g + t) j) = F (Ccmd r (tg_offset g + t) j)) as H2.
  { intros t r j Ht. apply HF. unfold in_group. simpl. lia. }
  split.
  - intros Hs t j Ht Hj. rewrite H1 by done. by apply Hs.
  - intros a v. unfold programmed. split; intros (t & j & Ht & Hj & Hb & Ha & Hv);
      exists t, j; rewrite ?H1, ?H2 in * by done; done.
Qed.

Definition sw_type (st : rpmh_state) : nat :=
  match st with RPMH_SLEEP_STATE => SLEEP_TCS | RPMH_WAKE_ONLY_STATE => WAKE_TCS
              | RPMH_ACTIVE_ONLY_STATE => ACTIVE_TCS end.

Definition add_cmds (type : nat) (m : tcs_request) (P : nat → Z → Z → Prop) : nat → Z → Z → Prop :=
  λ t a v, P t a v ∨ (t = type ∧ sends m a v).

(** A sleep or wake message either fits, and is then programmed in its group on
    top of what was there, or is refused with -ENOMEM and nothing changes. *)
Lemma write_ctrl_data_holds s c P m :
  tcs_holds s c P → req_state m ≠ RPMH_ACTIVE_ONLY_STATE → 0 ≤ num_cmds m →
  ∃ r s', rpmh_rsc_write_ctrl_data m c s = (Done r, s') ∧
    client (drv s') = client (drv s) ∧ completed s' = completed s ∧
    (r = 0 ∧ tcs_holds s' c (add_cmds (sw_type (req_state m)) m P) ∨ r = - ENOMEM ∧ s' = s).
Proof.
  intros HS Hst Hn. unfold rpmh_rsc_write_ctrl_data.
  destruct (Z.eqb_spec (num_cmds m) 0) as [Hz|Hz].
  { exists 0, s. do 3 (split; [done|]). left. split; [done|].
    destruct HS as [HL Hwf Hg Hd (F & HT & HF)]. split; [done..|].
    exists F. split; [done|]. intros type Ht. destruct (HF type Ht) as [Hs Hp]. split; [done|].
    intros a v. rewrite Hp. unfold add_cmds, sends. split; [by left|].
    intros [?|(_ & i & Hi & _)]; [done|lia]. }
  unfold kgets at 1. unfold kbind at 1.
  set (type := get_tcs_for_msg (drv s) (req_state m) c).
  assert (type = sw_type (req_state m) ∧ (type < 2)%nat) as [Htype Hlt].
  { unfold type, get_tcs_for_msg. by destruct (req_state m); simpl; [split; [done|unfold SLEEP_TCS, WAKE_TCS; lia]..|]. }
  set (g := tcs_of (drv s) c type).
  pose proof (th_group _ _ _ HS type Hlt) as Hga. fold g in Hga.
  pose proof (find_slots_spec g m (ga_ok _ Hga) ltac:(lia)) as Hfind.
  destruct (find_slots g m) as [[e|[[g' tcs_id] cmd_id]]|]; [|cbv zeta in Hfind|done].
  { destruct Hfind as [-> _]. exists (- ENOMEM), s. do 3 (split; [done|]). by right. }
  destruct Hfind as (Hc0 & Hc1 & Hfit & Hg' & Hbits).
  set (s1 := on_drv (upd_tcs c type (λ _, g')) s).
  pose proof HS as [HL Hwf Hgr Hd (F & HT & HF)].
  pose proof Hga as [[Hncpt Hnum Hsize] Hoff Hend Hcap Hmax].
  assert (0 ≤ tcs_id - tg_offset g < tg_num_tcs g) as Hti by (by destruct Hfit).
  unfold MAX_CMDS_PER_TCS in Hmax.
  destruct (tcs_buffer_write_run N C s1 F m tcs_id cmd_id) as
    (s2 & F' & Hrun & [Hdrv Hcomp] & HT' & Hother & Hcmds & Hen); [by apply layout_ok_upd|exact HT|lia..|].
  exists 0, s2. unfold mod_drv, kmodify. unfold kbind at 1. fold s1.
  rewrite (kbind_Done _ _ _ _ _ Hrun). split; [done|].
  rewrite Hdrv. split; [done|]. split; [done|]. left. split; [done|].
  destruct (HF type Hlt) as [Hsync Hprog]. fold g in Hsync, Hprog.
  replace tcs_id with (tg_offset g + (tcs_id - tg_offset g)) in Hother, Hcmds, Hen by lia.
  destruct (programmed_write F F' g g' m (tcs_id - tg_offset g) cmd_id) as [Hsync' Hprog'];
    [lia|done..|].
  assert (∀ t, (t < 2)%nat → t ≠ type → tcs_of (drv s1) c t = tcs_of (drv s) c t) as Hne.
  { intros t _ Ht. by apply tcs_of_upd_ne. }
  assert (tcs_of (drv s1) c type = g') as Hg1 by (apply tcs_of_upd; [done|lia]).
  assert (tg_offset g' = tg_offset g ∧ tg_num_tcs g' = tg_num_tcs g) as [Ho' Hn'] by (by rewrite Hg').
  assert (∀ t x, (t < 2)%nat → in_group (tcs_of (drv s1) c t) x ↔ in_group (tcs_of (drv s) c t) x) as Hin.
  { intros t x Ht. destruct (decide (t = type)) as [->|]; [|by rewrite Hne].
    rewrite Hg1. unfold in_group. by rewrite Ho', Hn'. }
  split; rewrite Hdrv.
  - by apply layout_ok_upd.
  - by apply channel_wf_upd.
  - intros t Ht. destruct (decide (t = type)) as [->|]; [|rewrite Hne by done; by apply Hgr].
    rewrite Hg1, Hg'. split; [split|..]; simpl; done.
  - intros x. rewrite !Hin by (unfold SLEEP_TCS, WAKE_TCS; lia). apply Hd.
  - exists F'. split; [done|]. intros t Ht. destruct (decide (t = type)) as [->|Htne].
    + rewrite Hg1. split; [done|]. intros a v. rewrite Hprog', Hprog. unfold add_cmds.
      rewrite <- Htype. naive_solver.
    + rewrite Hne by done. destruct (HF t Ht) as [Hs Hp].
      destruct (group_frame F F' (tcs_of (drv s) c t)) as [Hfs Hfp].
      { intros x Hx. apply Hother. intros Heq.
        eapply (tcs_holds_disj s c P t type (cfg_tcs x)); [done..|].
        unfold in_group. fold g. lia. }
      split; [by apply Hfs|]. intros a v. rewrite Hfp, Hp. unfold add_cmds. rewrite <- Htype. naive_solver.
Qed.

Definition drop_cmds (type : nat) (P : nat → Z → Z → Prop) : nat → Z → Z → Prop :=
  λ t a v, t ≠ type ∧ P t a v.

(** Bits of the slot bitmap of a group that [bitmap_empty] looks at. *)
Lemma bitmap_empty_bits map n i : bitmap_empty map n = true → 0 ≤ i < n → Z.testbit map i = false.
Proof.
  unfold bitmap_empty. intros H Hi. apply Z.eqb_eq in H.
  apply (f_equal (λ z, Z.testbit z i)) in H. rewrite Z.land_spec, Z.testbit_0_l in H.
  rewrite Z.ones_spec_low, andb_true_r in H by lia. done.
Qed.

Lemma slot_index_range g t j :
  0 ≤ t < tg_num_tcs g → 0 ≤ j < tg_ncpt g → 0 ≤ t * tg_ncpt g + j < tg_ncpt g * tg_num_tcs g.
Proof. nia. Qed.

(** A group whose slots are all free sends nothing. *)
Lemma empty_group_sends F g :
  slot_sync F g → (∀ i, 0 ≤ i < tg_ncpt g * tg_num_tcs g → Z.testbit (tg_slots g) i = false) →
  ∀ a v, ¬ programmed F g a v.
Proof.
  intros Hs He a v (t & j & Ht & Hj & Hbit & _). rewrite Hs, He in Hbit by eauto using slot_index_range.
  done.
Qed.

Lemma tcs_invalidate_holds s c type P :
  tcs_holds s c P → (type < 2)%nat →
  ∃ s', tcs_invalidate type c s = (Done tt, s') ∧ client (drv s') = client (drv s) ∧
    completed s' = completed s ∧ tcs_holds s' c (drop_cmds type P).
Proof.
  intros HS Hlt. unfold tcs_invalidate, kgets. unfold kbind at 1.
  pose proof HS as [HL Hwf Hgr Hd (F & HT & HF)].
  set (g := tcs_of (drv s) c type). destruct (HF type Hlt) as [Hsync _]. fold g in Hsync.
  destruct (bitmap_empty _ _) eqn:Hempty.
  { exists s. do 3 (split; [done|]). split; [done..|]. exists F. split; [done|].
    intros t Ht. destruct (HF t Ht) as [Hs Hp]. split; [done|]. intros a v. unfold drop_cmds.
    destruct (decide (t = type)) as [->|]; [|rewrite Hp; naive_solver].
    split; [|naive_solver]. intros Hprog. exfalso. eapply empty_group_sends; [exact Hs| |exact Hprog].
    intros i Hi. by eapply bitmap_empty_bits. }
  pose proof (Hgr type Hlt) as Hga. fold g in Hga. pose proof Hga as [[Hncpt Hnum Hsize] Hoff Hend Hcap Hmax].
  edestruct (clear_tcs_run N C s F (seqZ (tg_offset g) (tg_num_tcs g))) as (s1 & Hrun & [Hdrv Hcomp] & HT1);
    [done|done| |].
  { intros m Hm. apply elem_of_seqZ in Hm. lia. }
  rewrite (kbind_Done _ _ _ _ _ Hrun). eexists. split; [done|]. simpl. rewrite Hdrv.
  split; [done|]. split; [done|].
  set (f := λ g0, set_slots (bitmap_zero (tg_slots g0) (tg_ncpt g0 * tg_num_tcs g0)) g0).
  assert (tcs_of (upd_tcs c type f (drv s)) c type = f g) as Hf by (apply tcs_of_upd; [done|lia]).
  assert (∀ t, t ≠ type → tcs_of (upd_tcs c type f (drv s)) c t = tcs_of (drv s) c t) as Hne
    by (intros t Ht; by apply tcs_of_upd_ne).
  assert (∀ t x, in_group (tcs_of (upd_tcs c type f (drv s)) c t) x ↔ in_group (tcs_of (drv s) c t) x) as Hin.
  { intros t x. destruct (decide (t = type)) as [->|]; [by rewrite Hf|by rewrite Hne]. }
  split; simpl; rewrite Hdrv.
  - by apply layout_ok_upd.
  - by apply channel_wf_upd.
  - intros t Ht. destruct (decide (t = type)) as [->|]; [|rewrite Hne by done; by apply Hgr].
    rewrite Hf. split; [split|..]; simpl; done.
  - intros x. rewrite !Hin. apply Hd.
  - eexists. split; [intros x Hx; simpl; rewrite Hdrv; change (cfg_addr _ x) with (cfg_addr (drv s) x);
                     rewrite <- Hdrv; by apply HT1|].
    intros t Ht. unfold drop_cmds. destruct (decide (t = type)) as [->|Htne].
    + rewrite Hf.
      assert (∀ i, Z.testbit (tg_slots (f g)) i = false) as Hz.
      { intros i. unfold f, bitmap_zero, bitmap_empty in *. simpl.
        destruct (Z.eqb_spec (tg_ncpt g * tg_num_tcs g) 0) as [E|]; [|apply Z.testbit_0_l].
        rewrite E, Z.land_0_r in Hempty. done. }
      assert (slot_sync (λ x, match x with
                   | Creg (RSC_DRV_CMD_ENABLE | RSC_DRV_CMD_WAIT_FOR_CMPL) m =>
                       if bool_decide (m ∈ seqZ (tg_offset g) (tg_num_tcs g)) then 0 else F x
                   | _ => F x end) (f g)) as Hs'.
      { intros t j Hr Hj. rewrite Hz, bool_decide_true, Z.testbit_0_l; [done|].
        apply elem_of_seqZ. simpl in *. lia. }
      split; [exact Hs'|]. intros a v. split; [|naive_solver]. intros Hprog. exfalso.
      eapply empty_group_sends; [exact Hs'| |exact Hprog]. intros i _. apply Hz.
    + rewrite Hne by done. destruct (HF t Ht) as [Hs Hp].
      edestruct (group_frame F) as [Hfs Hfp]; [|split; [apply Hfs, Hs|intros a v; rewrite Hfp, Hp; naive_solver]].
      intros x Hx. assert (¬ in_group g (cfg_tcs x)) as Hnin
        by (by eapply (tcs_holds_disj s c P t type)).
      destruct x as [[]|]; try done; simpl in Hnin;
        rewrite bool_decide_false; [done|by rewrite elem_of_seqZ|done|by rewrite elem_of_seqZ].
Qed.

Lemma rpmh_rsc_invalidate_holds s c P :
  tcs_holds s c P →
  ∃ s', rpmh_rsc_invalidate c s = (Done tt, s') ∧ client (drv s') = client (drv s) ∧
    completed s' = completed s ∧ tcs_holds s' c (λ _ _ _, False).
Proof.
  intros HS. unfold rpmh_rsc_invalidate.
  destruct (tcs_invalidate_holds s c SLEEP_TCS P HS) as (s1 & Hr1 & Hc1 & Hcm1 & HS1); [unfold SLEEP_TCS; lia|].
  rewrite (kbind_Done _ _ _ _ _ Hr1).
  destruct (tcs_invalidate_holds s1 c WAKE_TCS _ HS1) as (s2 & Hr2 & Hc2 & Hcm2 & HS2); [unfold WAKE_TCS; lia|].
  exists s2. split; [done|]. split; [congruence|]. split; [congruence|].
  destruct HS2 as [HL Hwf Hgr Hd (F & HT & HF)]. split; [done..|]. exists F. split; [done|].
  intros t Ht. destruct (HF t Ht) as [Hs Hp]. split; [done|]. intros a v. rewrite Hp.
  unfold drop_cmds, SLEEP_TCS, WAKE_TCS. split; [|done]. intros (? & ? & ?). lia.
Qed.
End groups.

(** ** Parts of the driver state the controller's routines leave alone

    A projection is [Framed] when it does not look at the fields that the
    routines of rpmh-rsc.c assign: the channels, the in-use mask and the solver
    flag.  The client's cache is such a projection. *)

Class Framed {X} (f : rsc_drv → X) : Prop := {
  framed_chs x d : f (set_chs x d) = f d;
  framed_in_use x d : f (set_tcs_in_use x d) = f d;
  framed_solver x d : f (set_drv_solver x d) = f d;
}.
#[export] Instance client_framed : Framed client.
Proof. by split. Qed.
#[export] Instance drv_tcs_framed : Framed drv_tcs.
Proof. by split. Qed.
#[export] Instance genpd_framed : Framed genpd_notifier.
Proof. by split. Qed.
#[export] Instance cpus_in_pm_framed : Framed cpus_in_pm.
Proof. by split. Qed.

Definition part_is `{D : Device} {X} (f : rsc_drv → X) (x : X) (s : rsc) : Prop := f (drv s) = x.

Section frame.
Context `{D : Device} {B : BitmapSearch} {X : Type} (f : rsc_drv → X) {HF : Framed f} (x : X).
Abbreviation keeps := (preserves (part_is f x)).

Lemma readl_keeps a : keeps (readl_relaxed a).
Proof. intros s Hs. unfold readl_relaxed. by destruct (readl a (hw s)). Qed.
Lemma writel_keeps v a : keeps (writel_relaxed v a).
Proof. by intros s Hs. Qed.
Lemma mod_drv_keeps g : (∀ d, f (g d) = f d) → keeps (mod_drv g).
Proof. intros Hg s Hs. unfold part_is, mod_drv, kmodify, on_drv. simpl. by rewrite Hg. Qed.
Lemma tx_done_keeps r : keeps (rpmh_tx_done r).
Proof. unfold rpmh_tx_done. destruct (completion r); by intros s Hs. Qed.
#[local] Hint Resolve readl_keeps writel_keeps tx_done_keeps : kpres.
#[local] Hint Extern 1 (preserves _ (mod_drv _)) =>
  apply mod_drv_keeps; intros; first [apply framed_chs | apply framed_in_use | apply framed_solver] : kpres.

Ltac frame op := unfold op; kpreserve.

Lemma write_tcs_reg_keeps r m v : keeps (write_tcs_reg r m v).
Proof. frame @write_tcs_reg. Qed.
Lemma write_tcs_cmd_keeps r m j v : keeps (write_tcs_cmd r m j v).
Proof. frame @write_tcs_cmd. Qed.
Lemma read_tcs_reg_keeps r m : keeps (read_tcs_reg r m).
Proof. frame @read_tcs_reg. Qed.
Lemma read_tcs_cmd_keeps r m j : keeps (read_tcs_cmd r m j).
Proof. frame @read_tcs_cmd. Qed.
#[local] Hint Resolve write_tcs_reg_keeps write_tcs_cmd_keeps read_tcs_reg_keeps
  read_tcs_cmd_keeps : kpres.

Lemma write_tcs_reg_sync_keeps r m v : keeps (write_tcs_reg_sync r m v).
Proof. frame @write_tcs_reg_sync. Qed.
Lemma enable_tcs_irq_keeps i b : keeps (enable_tcs_irq i b).
Proof. frame @enable_tcs_irq. Qed.
#[local] Hint Resolve write_tcs_reg_sync_keeps enable_tcs_irq_keeps : kpres.

Lemma tcs_set_trigger_keeps i b : keeps (__tcs_set_trigger i b).
Proof. frame @__tcs_set_trigger. Qed.
Lemma tcs_invalidate_keeps t c : keeps (tcs_invalidate t c).
Proof. frame @tcs_invalidate. Qed.
Lemma get_channel_keeps spin : keeps (rpmh_rsc_get_channel spin).
Proof. frame @rpmh_rsc_get_channel. Qed.
Lemma buffer_write_loop_keeps m t j l e c : keeps (buffer_write_loop m t j l e c).
Proof. revert e c. induction l; intros e c; simpl; kpreserve. Qed.
#[local] Hint Resolve tcs_set_trigger_keeps tcs_invalidate_keeps get_channel_keeps
  buffer_write_loop_keeps : kpres.

Lemma tcs_buffer_write_keeps t j m : keeps (__tcs_buffer_write t j m).
Proof. frame @__tcs_buffer_write. Qed.
Lemma check_for_req_inflight_keeps g m : keeps (check_for_req_inflight g m).
Proof. frame @check_for_req_inflight. Qed.
Lemma find_free_tcs_keeps g : keeps (find_free_tcs g).
Proof. frame @find_free_tcs. Qed.
#[local] Hint Resolve tcs_buffer_write_keeps check_for_req_inflight_keeps find_free_tcs_keeps : kpres.

Lemma claim_keeps g m : keeps (claim_tcs_for_req g m).
Proof. frame @claim_tcs_for_req. Qed.
#[local] Hint Resolve claim_keeps : kpres.

Lemma send_data_keeps env r c :
  Forall (λ e, ∀ s, part_is f x s → part_is f x (e s)) env → keeps (rpmh_rsc_send_data env r c).
Proof. intros He. unfold rpmh_rsc_send_data. kpreserve. apply preserves_wait_event; [done|]. kpreserve. Qed.
Lemma write_ctrl_data_keeps m c : keeps (rpmh_rsc_write_ctrl_data m c).
Proof. frame @rpmh_rsc_write_ctrl_data. Qed.
Lemma invalidate_keeps c : keeps (rpmh_rsc_invalidate c).
Proof. frame @rpmh_rsc_invalidate. Qed.
Lemma tcs_completed_loop_keeps n c : keeps (tcs_completed_loop n c).
Proof. induction n as [|n IH]; simpl; kpreserve; exact IH. Qed.
#[local] Hint Resolve tcs_completed_loop_keeps : kpres.
Lemma switch_channel_keeps c : keeps (rpmh_rsc_switch_channel c).
Proof. unfold rpmh_rsc_switch_channel, rpmh_rsc_is_tcs_completed. kpreserve. Qed.
Lemma write_next_wakeup_keeps tb : keeps (rpmh_rsc_write_next_wakeup tb).
Proof. frame @rpmh_rsc_write_next_wakeup. Qed.
Lemma ctrlr_is_busy_keeps : keeps rpmh_rsc_ctrlr_is_busy.
Proof. frame @rpmh_rsc_ctrlr_is_busy. Qed.
#[local] Hint Resolve ctrlr_is_busy_keeps : kpres.
Lemma rsc_mode_solver_keeps b e : keeps (rpmh_rsc_mode_solver_set b e).
Proof. frame @rpmh_rsc_mode_solver_set. Qed.
Lemma rsc_init_fast_path_keeps m c : keeps (rpmh_rsc_init_fast_path m c).
Proof. frame @rpmh_rsc_init_fast_path. Qed.
Lemma rsc_update_fast_path_keeps m mask c : keeps (rpmh_rsc_update_fast_path m mask c).
Proof. frame @rpmh_rsc_update_fast_path. Qed.
End frame.

#[export] Hint Resolve readl_keeps writel_keeps tx_done_keeps get_channel_keeps send_data_keeps
  write_ctrl_data_keeps invalidate_keeps switch_channel_keeps write_next_wakeup_keeps
  ctrlr_is_busy_keeps rsc_mode_solver_keeps rsc_init_fast_path_keeps rsc_update_fast_path_keeps : kpres.
#[export] Hint Extern 0 (Framed _) => typeclasses eauto : kpres.
