(* ===== verification/Rpmh.v ===== *)
(** * The RPMh client layer (drivers/soc/qcom/rpmh.c)

    Clients write sets of commands for the active, wake and sleep states.
    Active sets go to the controller at once; wake and sleep sets are cached in
    [rpmh_ctrlr] and flushed to the TCSes when the system is about to sleep.
    The cache is [client (drv s)].  [MAX_RPMH_PAYLOAD] (soc/qcom/tcs.h) is a
    parameter.  A blocking write names its completion object and takes, as
    arguments, what the rest of the system does while it sleeps. *)

From S2P Require Import Prelude Kernel CmdDb RpmhRsc RpmhTcs.

Section defs.
Context (MAX_RPMH_PAYLOAD : Z).
Context `{D : Device} {B : BitmapSearch}.
Abbreviation M := (KM rsc).

Definition zero_cmds : list tcs_cmd := replicate (Z.to_nat MAX_RPMH_PAYLOAD) (mk_cmd 0 0 0).

(** [DEFINE_RPMH_MSG_ONSTACK]; [cmds] is the content of the request's own array. *)
Definition rpmh_msg_onstack (s : rpmh_state) (q : option nat) : rpmh_request :=
  mk_rpmh_request (mk_tcs_request s true 0 zero_cmds) q.

(** A request after [memset (.., 0, ..)]. *)
Definition zero_request : rpmh_request :=
  mk_rpmh_request (mk_tcs_request RPMH_SLEEP_STATE false 0 zero_cmds) None.
#[local] Instance rpmh_request_inhabited : Inhabited rpmh_request := populate zero_request.

Definition set_dirty (x : bool) (k : rpmh_ctrlr) : rpmh_ctrlr :=
  mk_rpmh_ctrlr x (ctrlr_in_solver_mode k) (flags k) (batch_cache k) (non_batch_cache_idx k)
    (non_batch_cache k).
Definition set_ctrlr_solver (x : bool) (k : rpmh_ctrlr) : rpmh_ctrlr :=
  mk_rpmh_ctrlr (dirty k) x (flags k) (batch_cache k) (non_batch_cache_idx k) (non_batch_cache k).
Definition set_batch (x : list rpmh_request) (k : rpmh_ctrlr) : rpmh_ctrlr :=
  mk_rpmh_ctrlr (dirty k) (ctrlr_in_solver_mode k) (flags k) x (non_batch_cache_idx k)
    (non_batch_cache k).
Definition set_cache (idx : Z) (x : list cache_req) (k : rpmh_ctrlr) : rpmh_ctrlr :=
  mk_rpmh_ctrlr (dirty k) (ctrlr_in_solver_mode k) (flags k) (batch_cache k) idx x.

Definition mod_ctrlr (f : rpmh_ctrlr → rpmh_ctrlr) : M unit :=
  mod_drv (λ d, set_client (f (client d)) d).

Definition check_ctrlr_state (ctrlr : rpmh_ctrlr) (state : rpmh_state) : Z :=
  if bool_decide (state ≠ RPMH_ACTIVE_ONLY_STATE) then 0
  else if Z.land (flags ctrlr) SOLVER_PRESENT =? 0 then 0
  else if ctrlr_in_solver_mode ctrlr then - EBUSY else 0.

(** The search loop: index of the first of the [n] used entries with this address. *)
Definition cache_search (cache : list cache_req) (n : Z) (addr : Z) : option nat :=
  fst <$> list_find (λ r, cr_addr r = addr) (take (Z.to_nat n) cache).

(** The entry (its index) for an address, or [None] for NULL. *)
Definition get_non_batch_cache_req (ctrlr : rpmh_ctrlr) (addr : Z) : option (nat * rpmh_ctrlr) :=
  if CMD_DB_MAX_RESOURCES <=? non_batch_cache_idx ctrlr then None
  else
    match cache_search (non_batch_cache ctrlr) (non_batch_cache_idx ctrlr) addr with
    | Some i => Some (i, ctrlr)
    | None =>
        let i := Z.to_nat (non_batch_cache_idx ctrlr) in
        let cache := alter (λ r, mk_cache_req (cr_addr r) UINT_MAX UINT_MAX) i (non_batch_cache ctrlr) in
        Some (i, set_cache (u32 (non_batch_cache_idx ctrlr + 1)) cache ctrlr)
    end.

(** [inl] is an error pointer. *)
Definition cache_rpm_request (ctrlr : rpmh_ctrlr) (state : rpmh_state) (cmd : tcs_cmd)
    : (Z + nat) * rpmh_ctrlr :=
  match get_non_batch_cache_req ctrlr (cmd_addr cmd) with
  | None => (inl (- ENOMEM), ctrlr)
  | Some (i, ctrlr) =>
      let req := non_batch_cache ctrlr !!! i in
      let old_sleep_val := sleep_val req in
      let old_wake_val := wake_val req in
      let req := match state with
                 | RPMH_ACTIVE_ONLY_STATE | RPMH_WAKE_ONLY_STATE =>
                     mk_cache_req (cmd_addr cmd) (sleep_val req) (cmd_data cmd)
                 | RPMH_SLEEP_STATE => mk_cache_req (cmd_addr cmd) (cmd_data cmd) (wake_val req)
                 end in
      let changed := (negb (sleep_val req =? old_sleep_val) || negb (wake_val req =? old_wake_val))
                     && negb (sleep_val req =? UINT_MAX) && negb (wake_val req =? UINT_MAX) in
      let ctrlr := set_cache (non_batch_cache_idx ctrlr) (<[i := req]> (non_batch_cache ctrlr)) ctrlr in
      (inr i, set_dirty (dirty ctrlr || changed) ctrlr)
  end.

(** The loop of [__rpmh_write] that caches the commands one by one. *)
Fixpoint cache_cmds (ctrlr : rpmh_ctrlr) (state : rpmh_state) (l : list tcs_cmd) : Z * rpmh_ctrlr :=
  match l with
  | [] => (0, ctrlr)
  | cmd :: l =>
      match cache_rpm_request ctrlr state cmd with
      | (inl e, ctrlr) => (e, ctrlr)
      | (inr _, ctrlr) => cache_cmds ctrlr state l
      end
  end.

Definition __rpmh_write (spin : positive) (env : list (rsc → rsc)) (state : rpmh_state)
    (rpm_msg : rpmh_request) : M Z :=
  let* k := kgets (λ s, client (drv s)) in
  let '(err, k') := cache_cmds k state (nth_cmd (msg rpm_msg) <$> seqZ 0 (num_cmds (msg rpm_msg))) in
  mod_ctrlr (λ _, k') ;;;
  if negb (err =? 0) then kret err
  else if bool_decide (state = RPMH_ACTIVE_ONLY_STATE) then
    let* c := rpmh_rsc_get_channel spin in
    if c <? 0 then kret c else rpmh_rsc_send_data env rpm_msg c
  else
    rpmh_tx_done rpm_msg ;;; kret 0.

(** [cmd] is [None] for a null pointer. *)
Definition __fill_rpmh_msg (req : rpmh_request) (state : rpmh_state)
    (cmd : option (list tcs_cmd)) (n : Z) : Z * rpmh_request :=
  match cmd with
  | Some l =>
      if (n =? 0) || (MAX_RPMH_PAYLOAD <? n) then (- EINVAL, req)
      else
        let arr := take (Z.to_nat n) l ++ drop (Z.to_nat n) (cmds (msg req)) in
        (0, mk_rpmh_request (mk_tcs_request state (wait_for_compl (msg req)) n arr) (completion req))
  | None => (- EINVAL, req)
  end.

Definition set_wait_for_compl (x : bool) (r : rpmh_request) : rpmh_request :=
  mk_rpmh_request (mk_tcs_request (req_state (msg r)) x (num_cmds (msg r)) (cmds (msg r)))
    (completion r).

Definition rpmh_write_async (rpmh_standalone : bool) (spin : positive) (env : list (rsc → rsc))
    (state : rpmh_state) (cmd : option (list tcs_cmd)) (n : Z) : M Z :=
  let rpm_msg := rpmh_msg_onstack state None in
  if rpmh_standalone then kret 0
  else
    let rpm_msg := set_wait_for_compl false rpm_msg in
    let* k := kgets (λ s, client (drv s)) in
    let ret := check_ctrlr_state k state in
    if negb (ret =? 0) then kret ret
    else
      let '(ret, rpm_msg) := __fill_rpmh_msg rpm_msg state cmd n in
      if negb (ret =? 0) then kret ret else __rpmh_write spin env state rpm_msg.

(** [wait_for_completion_timeout]: [true] when the completion was signalled in time. *)
Fixpoint wait_for_completion_timeout (env : list (rsc → rsc)) (compl : nat) : M bool :=
  let* done := kgets (λ s, bool_decide (compl ∈ completed s)) in
  if (done : bool) then kret true
  else match env with
       | [] => kret false
       | e :: env => kmodify e ;;; wait_for_completion_timeout env compl
       end.

Definition rpmh_write (rpmh_standalone irq_data : bool) (spin : positive)
    (env_tcs env_compl : list (rsc → rsc)) (compl : nat)
    (state : rpmh_state) (cmd : option (list tcs_cmd)) (n : Z) : M Z :=
  let rpm_msg := rpmh_msg_onstack state (Some compl) in
  if rpmh_standalone then kret 0
  else
    let* k := kgets (λ s, client (drv s)) in
    let ret := check_ctrlr_state k state in
    if negb (ret =? 0) then kret ret
    else
      let '(ret, rpm_msg) := __fill_rpmh_msg rpm_msg state cmd n in
      if negb (ret =? 0) then kret ret
      else
        let* ret := __rpmh_write spin env_tcs state rpm_msg in
        if negb (ret =? 0) then kret ret
        else
          let* done := wait_for_completion_timeout env_compl compl in
          if (done : bool) then kret 0
          else rpmh_rsc_debug irq_data ;;; kret (- ETIMEDOUT).

Definition batch (k : rpmh_ctrlr) (state : rpmh_state) : rpmh_request :=
  batch_cache k !!! sw_type state.

Definition flush_batch (c : Z) : M Z :=
  let* k := kgets (λ s, client (drv s)) in
  let* ret := rpmh_rsc_write_ctrl_data (msg (batch k RPMH_SLEEP_STATE)) c in
  if negb (ret =? 0) then kret ret
  else rpmh_rsc_write_ctrl_data (msg (batch k RPMH_WAKE_ONLY_STATE)) c.

(** [n] points to an array of counts; only its first element is read. *)
Definition rpmh_write_batch (rpmh_standalone irq_data : bool) (spin : positive)
    (env_tcs env_compl : list (rsc → rsc)) (compl : nat)
    (state : rpmh_state) (cmd : option (list tcs_cmd)) (n : list Z) : M Z :=
  let rpm_msg := rpmh_msg_onstack state (Some compl) in
  if rpmh_standalone then kret 0
  else
    let* k := kgets (λ s, client (drv s)) in
    let ret := check_ctrlr_state k state in
    if negb (ret =? 0) then kret ret
    else if bool_decide (state = RPMH_ACTIVE_ONLY_STATE) then
      let '(ret, rpm_msg) := __fill_rpmh_msg rpm_msg state cmd (n !!! 0%nat) in
      if negb (ret =? 0) then kret ret
      else
        let* c := rpmh_rsc_get_channel spin in
        if c <? 0 then kret c
        else
          let* ret := rpmh_rsc_send_data env_tcs rpm_msg c in
          if negb (ret =? 0) then kret ret
          else
            let* done := wait_for_completion_timeout env_compl compl in
            if (done : bool) then kret 0
            else rpmh_rsc_debug irq_data ;;; kfail Bug
    else
      let '(ret, req) := __fill_rpmh_msg zero_request state cmd (n !!! 0%nat) in
      mod_ctrlr (λ k, set_dirty true (set_batch (<[sw_type state := req]> (batch_cache k)) k)) ;;;
      kret ret.

Definition is_req_valid (req : cache_req) : bool :=
  negb (sleep_val req =? UINT_MAX) && negb (wake_val req =? UINT_MAX) &&
  negb (sleep_val req =? wake_val req).

Definition send_single (state : rpmh_state) (addr data c : Z) : M Z :=
  let m := mk_tcs_request state (bool_decide (state = RPMH_WAKE_ONLY_STATE)) 1
             (<[0%nat := mk_cmd addr data 0]> zero_cmds) in
  rpmh_rsc_write_ctrl_data m c.

(** The flushing loop over the cached requests; [Some ret] is the [goto exit]. *)
Definition flush_cached (c : Z) (p : cache_req) : M (option Z) :=
  if negb (is_req_valid p) then kret None
  else
    let* ret := send_single RPMH_SLEEP_STATE (cr_addr p) (sleep_val p) c in
    if negb (ret =? 0) then kret (Some ret)
    else
      let* ret := send_single RPMH_WAKE_ONLY_STATE (cr_addr p) (wake_val p) c in
      kret (if negb (ret =? 0) then Some ret else None).

Definition _rpmh_flush (tb : timebase) (c : Z) : M Z :=
  let* k := kgets (λ s, client (drv s)) in
  if negb (dirty k) then
    rpmh_rsc_write_next_wakeup tb ;;; kret 0
  else
    rpmh_rsc_invalidate c ;;;
    let* ret := flush_batch c in
    if negb (ret =? 0) then kret ret
    else
      let* err := for_until (take (Z.to_nat (non_batch_cache_idx k)) (non_batch_cache k)) (flush_cached c) in
      match err with
      | Some ret => kret ret
      | None =>
          mod_ctrlr (set_dirty false) ;;;
          rpmh_rsc_write_next_wakeup tb ;;;
          kret 0
      end.

Definition rpmh_flush (rpmh_standalone : bool) (tb : timebase) (c : Z) : M Z :=
  if rpmh_standalone then kret 0 else _rpmh_flush tb c.

Definition rpmh_write_sleep_and_wake (rpmh_standalone : bool) (spin : positive) (tb : timebase) : M Z :=
  let* k := kgets (λ s, client (drv s)) in
  let* c := rpmh_rsc_get_channel spin in
  if c <? 0 then kret c
  else
    let* ret := rpmh_flush rpmh_standalone tb c in
    if negb (ret =? 0) || (Z.land (flags k) HW_CHANNEL_PRESENT =? 0) then kret ret
    else rpmh_rsc_switch_channel c.

(** As above for devices that are not children of the controller; a failure stops the system. *)
Definition rpmh_write_sleep_and_wake_no_child (rpmh_standalone : bool) (spin : positive)
    (tb : timebase) : M Z :=
  let* k := kgets (λ s, client (drv s)) in
  let* c := rpmh_rsc_get_channel spin in
  if c <? 0 then rpmh_rsc_debug_channel_busy ;;; kfail Bug
  else
    let* ret := rpmh_flush rpmh_standalone tb c in
    if negb (ret =? 0) || (Z.land (flags k) HW_CHANNEL_PRESENT =? 0) then kret ret
    else
      let* ret := rpmh_rsc_switch_channel c in
      if negb (ret =? 0) then rpmh_rsc_debug_channel_busy ;;; kfail Bug else kret ret.

Definition rpmh_invalidate (rpmh_standalone : bool) : M unit :=
  if rpmh_standalone then kret tt
  else
    mod_ctrlr (λ k, set_dirty true
      (set_batch (<[sw_type RPMH_WAKE_ONLY_STATE := zero_request]>
                  (<[sw_type RPMH_SLEEP_STATE := zero_request]> (batch_cache k))) k)).

Definition rpmh_mode_solver_set (rpmh_standalone trylock enable : bool) : M Z :=
  let* k := kgets (λ s, client (drv s)) in
  if rpmh_standalone then kret 0
  else if Z.land (flags k) SOLVER_PRESENT =? 0 then kret (- EINVAL)
  else
    let* ret := rpmh_rsc_mode_solver_set trylock enable in
    (if ret =? 0 then mod_ctrlr (set_ctrlr_solver enable) else kret tt) ;;;
    kret ret.

Definition rpmh_init_fast_path (rpmh_standalone : bool) (spin : positive)
    (cmd : list tcs_cmd) (n : Z) : M Z :=
  if rpmh_standalone then kret 0
  else
    let* c := rpmh_rsc_get_channel spin in
    if c <? 0 then kret c
    else rpmh_rsc_init_fast_path (mk_tcs_request RPMH_ACTIVE_ONLY_STATE false n cmd) c.

Definition rpmh_update_fast_path (rpmh_standalone : bool) (spin : positive)
    (cmd : list tcs_cmd) (n update_mask : Z) : M Z :=
  if rpmh_standalone then kret 0
  else
    let* c := rpmh_rsc_get_channel spin in
    if c <? 0 then kret c
    else rpmh_rsc_update_fast_path (mk_tcs_request RPMH_ACTIVE_ONLY_STATE false n cmd) update_mask c.

End defs.
