(* ===== verification/RpmhCache.v ===== *)
(** * The request cache of the RPMh client layer

    The cache of [rpmh_ctrlr] as a finite map from resource addresses to the
    pair of their sleep and wake votes, the invariant every client call keeps,
    and what the [dirty] flag guarantees. *)

From S2P Require Import Prelude Kernel CmdDb RpmhRsc RpmhTcs Rpmh.

(** ** The abstract cache *)

Definition cache_used (k : rpmh_ctrlr) : list cache_req :=
  take (Z.to_nat (non_batch_cache_idx k)) (non_batch_cache k).
Definition cache_pair (r : cache_req) : Z * (Z * Z) := (cr_addr r, (sleep_val r, wake_val r)).
Definition cache_map (k : rpmh_ctrlr) : gmap Z (Z * Z) := list_to_map (cache_pair <$> cache_used k).

(** The effect of a vote on the sleep and wake values of a resource. *)
Definition vote (state : rpmh_state) (data : Z) (old : Z * Z) : Z * Z :=
  match state with
  | RPMH_SLEEP_STATE => (data, old.2)
  | RPMH_WAKE_ONLY_STATE | RPMH_ACTIVE_ONLY_STATE => (old.1, data)
  end.
Definition no_vote : Z * Z := (UINT_MAX, UINT_MAX).

Record cache_ok (k : rpmh_ctrlr) : Prop := {
  co_size : length (non_batch_cache k) = Z.to_nat CMD_DB_MAX_RESOURCES;
  co_idx : 0 ≤ non_batch_cache_idx k ≤ CMD_DB_MAX_RESOURCES;
  co_nodup : NoDup (cr_addr <$> cache_used k);
}.

Lemma cache_pair_fst l : (cache_pair <$> l).*1 = cr_addr <$> l.
Proof. by rewrite <- list_fmap_compose. Qed.

Lemma cache_map_lookup k a sv wv :
  cache_ok k →
  cache_map k !! a = Some (sv, wv) ↔ mk_cache_req a sv wv ∈ cache_used k.
Proof.
  intros Hok. unfold cache_map. rewrite <- elem_of_list_to_map.
  2:{ rewrite cache_pair_fst. apply Hok. }
  rewrite list_elem_of_fmap. split.
  - intros ([] & Heq & Hin). unfold cache_pair in Heq. by simplify_eq/=.
  - intros Hin. by exists (mk_cache_req a sv wv).
Qed.

Lemma cache_map_None k a : cache_map k !! a = None ↔ a ∉ cr_addr <$> cache_used k.
Proof. unfold cache_map. by rewrite <- not_elem_of_list_to_map, cache_pair_fst. Qed.

Definition voted (state : rpmh_state) (cmd : tcs_cmd) (old : cache_req) : cache_req :=
  let v := vote state (cmd_data cmd) (sleep_val old, wake_val old) in
  mk_cache_req (cmd_addr cmd) v.1 v.2.

(** The test that sets [dirty]. *)
Definition vote_changes (old new : cache_req) : bool :=
  (negb (sleep_val new =? sleep_val old) || negb (wake_val new =? wake_val old))
  && negb (sleep_val new =? UINT_MAX) && negb (wake_val new =? UINT_MAX).

Lemma u32_idx n : 0 ≤ n < CMD_DB_MAX_RESOURCES → u32 (n + 1) = n + 1.
Proof. unfold CMD_DB_MAX_RESOURCES. intros. apply u32_small. lia. Qed.

(** One cached command either updates the entry of its address in place or
    appends an entry. *)
Lemma cache_rpm_request_step k st cmd :
  cache_ok k → non_batch_cache_idx k < CMD_DB_MAX_RESOURCES →
  ∃ i k' old, cache_rpm_request k st cmd = (inr i, k') ∧
    batch_cache k' = batch_cache k ∧ length (non_batch_cache k') = length (non_batch_cache k) ∧
    dirty k' = dirty k || vote_changes old (voted st cmd old) ∧
    (cache_used k !! i = Some old ∧ cr_addr old = cmd_addr cmd ∧
     non_batch_cache_idx k' = non_batch_cache_idx k ∧
     cache_used k' = <[i := voted st cmd old]> (cache_used k) ∨
     cmd_addr cmd ∉ cr_addr <$> cache_used k ∧ (sleep_val old, wake_val old) = no_vote ∧
     non_batch_cache_idx k' = non_batch_cache_idx k + 1 ∧
     cache_used k' = cache_used k ++ [voted st cmd old]).
Proof.
  intros [Hsz Hidx Hnd] Hlt. unfold cache_rpm_request, get_non_batch_cache_req, cache_search.
  rewrite (proj2 (Z.leb_gt _ _)) by done. fold (cache_used k).
  destruct (list_find _ (cache_used k)) as [[i old]|] eqn:Hf; cbn [fmap option_fmap option_map fst].
  - apply list_find_Some in Hf as (Hi & Ha & _).
    pose proof Hi as Hi'. unfold cache_used in Hi'. apply lookup_take_Some in Hi' as [Hi' Hin].
    rewrite (list_lookup_total_correct _ _ _ Hi').
    eexists i, _, old. split; [reflexivity|]. destruct st; simpl;
      (split; [done|]; split; [by rewrite length_insert|]; split; [done|];
       left; do 3 (split; [done|]); unfold cache_used; simpl; by rewrite take_insert_lt).
  - apply list_find_None in Hf.
    set (n := Z.to_nat (non_batch_cache_idx k)) in *.
    assert (n < length (non_batch_cache k))%nat as Hn by lia.
    destruct (lookup_lt_is_Some_2 _ _ Hn) as [r Hr].
    cbn [set_cache non_batch_cache non_batch_cache_idx dirty].
    erewrite (list_lookup_total_correct (alter _ _ _)) by (by rewrite list_lookup_alter_eq, Hr).
    eexists n, _, (mk_cache_req (cr_addr r) UINT_MAX UINT_MAX). split; [reflexivity|].
    destruct st; simpl; rewrite u32_idx by lia;
      (split; [done|]; split; [by rewrite length_insert, length_alter|]; split; [done|]; right;
       split; [intros (x & Hx & Hin)%list_elem_of_fmap; rewrite list.Forall_forall in Hf; by apply (Hf x)|];
       do 2 (split; [done|]); unfold cache_used; simpl;
       replace (Z.to_nat (non_batch_cache_idx k + 1)) with (S n) by lia;
       erewrite take_S_r by (apply list_lookup_insert_eq; by rewrite length_alter);
       rewrite take_insert_ge, take_alter_ge by lia; done).
Qed.

Lemma cache_rpm_request_full k st cmd :
  CMD_DB_MAX_RESOURCES ≤ non_batch_cache_idx k → cache_rpm_request k st cmd = (inl (- ENOMEM), k).
Proof.
  intros H. unfold cache_rpm_request, get_non_batch_cache_req.
  by rewrite (proj2 (Z.leb_le _ _)) by done.
Qed.

Lemma cache_used_length k :
  cache_ok k → length (cache_used k) = Z.to_nat (non_batch_cache_idx k).
Proof. intros [Hsz Hidx _]. unfold cache_used. rewrite length_take. lia. Qed.

Lemma cache_rpm_request_ok k st cmd r k' :
  cache_ok k → cache_rpm_request k st cmd = (r, k') → cache_ok k'.
Proof.
  intros Hok Hrun. destruct (decide (non_batch_cache_idx k < CMD_DB_MAX_RESOURCES)) as [Hlt|Hge].
  2:{ rewrite cache_rpm_request_full in Hrun by lia. by simplify_eq. }
  destruct (cache_rpm_request_step k st cmd Hok Hlt)
    as (i & k2 & old & Hr & _ & Hlen & _ & Hcase). rewrite Hr in Hrun. simplify_eq.
  destruct Hok as [Hsz Hidx Hnd]. split.
  - by rewrite Hlen.
  - destruct Hcase as [(_ & _ & -> & _)|(_ & _ & -> & _)]; [done|lia].
  - destruct Hcase as [(Hi & Ha & _ & ->)|(Hnew & _ & _ & ->)].
    + rewrite list_fmap_insert, list_insert_id; [done|].
      rewrite list_lookup_fmap, Hi. simpl. by f_equal.
    + rewrite fmap_app. apply list.NoDup_app. split; [done|]. split; [|apply NoDup_singleton].
      intros a Ha ->%list_elem_of_singleton. by apply Hnew.
Qed.

(** caching one command is an update of the map from addresses to votes.  With
    room left in the cache, the sleep (resp. wake and active) value of the
    command's address becomes the command's data, an address seen for the first
    time starting with no votes; no other address is affected, the batch cache
    is untouched and the cache stays well-formed.  With the cache full the call
    answers -ENOMEM and changes nothing, even for an address already present. *)
Theorem cache_rpm_request_refines k st cmd :
  cache_ok k →
  if bool_decide (non_batch_cache_idx k < CMD_DB_MAX_RESOURCES) then
    ∃ i k', cache_rpm_request k st cmd = (inr i, k') ∧ cache_ok k' ∧
      batch_cache k' = batch_cache k ∧
      cache_map k' =
        <[cmd_addr cmd := vote st (cmd_data cmd) (default no_vote (cache_map k !! cmd_addr cmd))]>
          (cache_map k)
  else cache_rpm_request k st cmd = (inl (- ENOMEM), k).
Proof.
  intros Hok. case_bool_decide as Hlt; [|apply cache_rpm_request_full; lia].
  destruct (cache_rpm_request_step k st cmd Hok Hlt)
    as (i & k' & old & Hrun & Hbatch & Hlen & _ & Hcase).
  exists i, k'. split; [done|]. split; [by eapply cache_rpm_request_ok|]. split; [done|].
  unfold cache_map. destruct Hcase as [(Hi & Ha & _ & ->)|(Hnew & Hold & _ & ->)].
  - assert (cache_map k !! cmd_addr cmd = Some (sleep_val old, wake_val old)) as Hlook.
    { rewrite <- Ha. apply cache_map_lookup; [done|]. destruct old. by eapply list_elem_of_lookup_2. }
    fold (cache_map k). rewrite Hlook. simpl. rewrite list_fmap_insert.
    unfold cache_pair at 1, voted. simpl. rewrite <- surjective_pairing.
    apply (list_to_map_update _ i _ (sleep_val old, wake_val old)).
    + rewrite cache_pair_fst. apply Hok.
    + rewrite list_lookup_fmap, Hi. unfold cache_pair. simpl. by rewrite Ha.
  - fold (cache_map k). rewrite (proj2 (cache_map_None k _) Hnew). simpl.
    rewrite fmap_app. simpl. unfold cache_pair at 2, voted. simpl. rewrite Hold, <- surjective_pairing.
    apply list_to_map_snoc. by rewrite cache_pair_fst.
Qed.

(** ** What a flush sends, and the [dirty] flag *)

Definition pair_valid (v : Z * Z) : bool :=
  negb (v.1 =? UINT_MAX) && negb (v.2 =? UINT_MAX) && negb (v.1 =? v.2).

(** The value a group of type [type] gets from a pair of votes. *)
Definition side (type : nat) (v : Z * Z) : Z := if (type =? SLEEP_TCS)%nat then v.1 else v.2.

Definition cached_cmds (k : rpmh_ctrlr) (type : nat) (a v : Z) : Prop :=
  ∃ p, cache_map k !! a = Some p ∧ pair_valid p = true ∧ v = side type p.

Lemma cached_cmds_used k type a v :
  cache_ok k →
  cached_cmds k type a v ↔
  ∃ p, p ∈ cache_used k ∧ is_req_valid p = true ∧ cr_addr p = a ∧ v = side type (sleep_val p, wake_val p).
Proof.
  intros Hok. unfold cached_cmds. split.
  - intros ([sv wv] & Hl & Hv & ->). apply cache_map_lookup in Hl; [|done].
    by exists (mk_cache_req a sv wv).
  - intros ([a' sv wv] & Hin & Hv & <- & ->). exists (sv, wv).
    split; [by apply cache_map_lookup|done].
Qed.

Lemma dirty_mono k st cmd r k' :
  cache_ok k → cache_rpm_request k st cmd = (r, k') → dirty k = true → dirty k' = true.
Proof.
  intros Hok Hrun Hd. destruct (decide (non_batch_cache_idx k < CMD_DB_MAX_RESOURCES)) as [Hlt|Hge].
  2:{ rewrite cache_rpm_request_full in Hrun by lia. by simplify_eq. }
  destruct (cache_rpm_request_step k st cmd Hok Hlt)
    as (i & k2 & old & Hr & _ & _ & Hdirty & _). rewrite Hr in Hrun. simplify_eq.
  by rewrite Hdirty, Hd.
Qed.

(** A vote that does not set [dirty] leaves an entry valid or invalid, with the same values. *)
Lemma quiet_vote st cmd old :
  cmd_data cmd ≠ UINT_MAX → vote_changes old (voted st cmd old) = false →
  is_req_valid old || is_req_valid (voted st cmd old) = false ∨
  (sleep_val old, wake_val old) = (sleep_val (voted st cmd old), wake_val (voted st cmd old)).
Proof.
  intros Hd. unfold vote_changes, is_req_valid, voted, vote.
  destruct old as [a sv wv], st; simpl; rewrite ?Z.eqb_refl; simpl;
    destruct (Z.eqb_spec (cmd_data cmd) UINT_MAX); [done| |done| |done|];
    destruct (Z.eqb_spec sv UINT_MAX), (Z.eqb_spec wv UINT_MAX); simpl; auto;
    rewrite ?andb_true_r, ?orb_false_r, ?andb_false_r; auto; intros H;
    apply negb_false_iff, Z.eqb_eq in H; right; by subst.
Qed.

Lemma elem_of_insert_invalid (l : list cache_req) i old new p :
  l !! i = Some old → is_req_valid old = false → is_req_valid new = false →
  is_req_valid p = true → p ∈ <[i := new]> l ↔ p ∈ l.
Proof.
  intros Hi Ho Hn Hp. rewrite !list_elem_of_lookup. split; intros [j Hj].
  - destruct (decide (i = j)) as [->|Hne].
    + rewrite list_lookup_insert_eq in Hj by (by eapply lookup_lt_Some). simplify_eq. congruence.
    + rewrite list_lookup_insert_ne in Hj by done. by exists j.
  - destruct (decide (i = j)) as [->|Hne]; [simplify_eq; congruence|].
    exists j. by rewrite list_lookup_insert_ne.
Qed.

Lemma quiet_step k st cmd r k' :
  cache_ok k → cache_rpm_request k st cmd = (r, k') → dirty k' = false → cmd_data cmd ≠ UINT_MAX →
  ∀ type a v, cached_cmds k' type a v ↔ cached_cmds k type a v.
Proof.
  intros Hok Hrun Hd Hdata type a v.
  destruct (decide (non_batch_cache_idx k < CMD_DB_MAX_RESOURCES)) as [Hlt|Hge].
  2:{ rewrite cache_rpm_request_full in Hrun by lia. by simplify_eq. }
  pose proof (cache_rpm_request_ok _ _ _ _ _ Hok Hrun) as Hok'.
  destruct (cache_rpm_request_step k st cmd Hok Hlt)
    as (i & k2 & old & Hr & _ & _ & Hdirty & Hcase). rewrite Hr in Hrun. simplify_eq.
  rewrite Hdirty in Hd. apply orb_false_iff in Hd as [_ Hq].
  apply quiet_vote in Hq; [|done].
  rewrite !cached_cmds_used by done. apply exist_proper. intros p.
  destruct (is_req_valid p) eqn:Hp; [|naive_solver].
  cut (p ∈ cache_used k' ↔ p ∈ cache_used k); [naive_solver|].
  destruct Hcase as [(Hi & Ha & _ & ->)|(_ & Hold & _ & ->)].
  - destruct Hq as [[Hv1 Hv2]%orb_false_iff|Heq]; [by eapply elem_of_insert_invalid|].
    rewrite list_insert_id; [done|]. rewrite Hi. f_equal.
    unfold voted in *. destruct old as [a0 sv wv]. simpl in *. congruence.
  - rewrite elem_of_app, list_elem_of_singleton. split; [|by left]. intros [?|Hp']; [done|].
    destruct Hq as [[_ Hv2]%orb_false_iff|Heq]; [by rewrite Hp', Hv2 in Hp|].
    rewrite Hold in Heq. apply (f_equal fst) in Heq. cbn [fst no_vote] in Heq.
    rewrite Hp' in Hp. unfold is_req_valid in Hp. by rewrite <- Heq in Hp.
Qed.

Lemma cache_cmds_ok k st l r k' : cache_ok k → cache_cmds k st l = (r, k') → cache_ok k'.
Proof.
  revert k. induction l as [|cmd l IH]; intros k Hok Hrun; simpl in Hrun; [by simplify_eq|].
  destruct (cache_rpm_request k st cmd) as [[e|i] k1] eqn:E;
    pose proof (cache_rpm_request_ok _ _ _ _ _ Hok E); [by simplify_eq|by eapply IH].
Qed.

Lemma cache_cmds_dirty k st l r k' :
  cache_ok k → cache_cmds k st l = (r, k') → dirty k' = false → dirty k = false.
Proof.
  revert k. induction l as [|cmd l IH]; intros k Hok Hrun Hd; simpl in Hrun; [by simplify_eq|].
  apply not_true_is_false. intros Hk.
  destruct (cache_rpm_request k st cmd) as [[e|i] k1] eqn:E;
    pose proof (dirty_mono _ _ _ _ _ Hok E Hk); [simplify_eq; congruence|].
  eapply IH in Hrun; [congruence|by eapply cache_rpm_request_ok|done].
Qed.

Lemma cache_cmds_batch k st l r k' :
  cache_ok k → cache_cmds k st l = (r, k') → batch_cache k' = batch_cache k.
Proof.
  revert k. induction l as [|cmd l IH]; intros k Hok Hrun; simpl in Hrun; [by simplify_eq|].
  assert (batch_cache (cache_rpm_request k st cmd).2 = batch_cache k) as Hb.
  { destruct (decide (non_batch_cache_idx k < CMD_DB_MAX_RESOURCES)) as [Hlt|Hge].
    - by destruct (cache_rpm_request_step k st cmd Hok Hlt) as (i & k2 & old & -> & Hb & _).
    - by rewrite cache_rpm_request_full by lia. }
  destruct (cache_rpm_request k st cmd) as [[e|i] k1] eqn:E; simpl in Hb; [by simplify_eq|].
  rewrite <- Hb. eapply IH; [|done]. by eapply cache_rpm_request_ok.
Qed.

Lemma cache_cmds_quiet k st l r k' :
  cache_ok k → Forall (λ cmd, cmd_data cmd ≠ UINT_MAX) l →
  cache_cmds k st l = (r, k') → dirty k' = false →
  ∀ type a v, cached_cmds k' type a v ↔ cached_cmds k type a v.
Proof.
  intros Hok Hl Hrun Hd. revert k Hok Hrun.
  induction Hl as [|cmd l Hcmd _ IH]; intros k Hok Hrun type a v; simpl in Hrun; [by simplify_eq|].
  destruct (cache_rpm_request k st cmd) as [res k1] eqn:E.
  pose proof (cache_rpm_request_ok _ _ _ _ _ Hok E) as Hok1.
  assert (dirty k1 = false) as Hd1.
  { destruct res; [by simplify_eq|by eapply cache_cmds_dirty]. }
  rewrite <- (quiet_step _ _ _ _ _ Hok E Hd1 Hcmd type a v).
  destruct res; [by simplify_eq|by apply IH].
Qed.

(** the [dirty] flag is sound for ordinary data.  When a set of votes, none of
    them 0xFFFFFFFF, has been cached and [dirty] is still clear, then it was clear
    before, and the sleep and wake commands a flush would program from the
    request cache are exactly those it would have programmed before: skipping
    the flush loses nothing. *)
Theorem clean_cache_sends_the_same k st l r k' :
  cache_ok k → Forall (λ cmd, cmd_data cmd ≠ UINT_MAX) l →
  cache_cmds k st l = (r, k') → dirty k' = false →
  dirty k = false ∧ ∀ type a v, cached_cmds k' type a v ↔ cached_cmds k type a v.
Proof. eauto using cache_cmds_dirty, cache_cmds_quiet. Qed.

(** A controller with one resource voted (sleep 1, wake 2), in step with its TCSes. *)
Definition sample_ctrlr (idx : nat) (used : list cache_req) : rpmh_ctrlr :=
  mk_rpmh_ctrlr false false 0 [] (Z.of_nat idx) (used ++ replicate (250 - idx) (mk_cache_req 0 0 0)).
Definition one_vote : rpmh_ctrlr := sample_ctrlr 1 [mk_cache_req 0x30000 1 2].

Lemma one_vote_ok : cache_ok one_vote.
Proof.
  split; [done|vm_compute; split; discriminate|].
  apply (bool_decide_unpack _). by vm_compute.
Qed.

Lemma cache_rpm_request_witness :
  ∃ i k', cache_rpm_request one_vote RPMH_SLEEP_STATE (mk_cmd 0x30000 7 0) = (inr i, k') ∧
    cache_map k' !! 0x30000 = Some (7, 2).
Proof.
  destruct (cache_rpm_request_refines one_vote RPMH_SLEEP_STATE (mk_cmd 0x30000 7 0) one_vote_ok)
    as (i & k' & Hrun & _ & _ & Hmap).
  exists i, k'. split; [exact Hrun|]. rewrite Hmap. vm_compute. reflexivity.
Defined.

Lemma clean_cache_witness :
  let l := [mk_cmd 0x30000 2 0; mk_cmd 0x30004 5 0] in
  let '(r, k') := cache_cmds one_vote RPMH_WAKE_ONLY_STATE l in
  dirty k' = false ∧ (cached_cmds k' SLEEP_TCS 0x30000 1 ↔ cached_cmds one_vote SLEEP_TCS 0x30000 1).
Proof.
  intros l. destruct (cache_cmds one_vote RPMH_WAKE_ONLY_STATE l) as [r k'] eqn:E.
  assert (dirty k' = false) as Hd by (by injection E as _ <-).
  split; [exact Hd|].
  refine (proj2 (clean_cache_sends_the_same one_vote RPMH_WAKE_ONLY_STATE l r k' one_vote_ok _ E Hd) _ _ _).
  repeat constructor; discriminate.
Defined.

(** The restriction on the data matters: a vote of 0xFFFFFFFF withdraws a
    command that the TCSes still hold, without setting [dirty]. *)
Lemma withdrawn_vote_is_not_dirty :
  ∃ k', cache_cmds one_vote RPMH_SLEEP_STATE [mk_cmd 0x30000 UINT_MAX 0] = (0, k') ∧
    dirty k' = false ∧ cached_cmds one_vote SLEEP_TCS 0x30000 1 ∧ ¬ cached_cmds k' SLEEP_TCS 0x30000 1.
Proof.
  eexists. split; [reflexivity|]. split; [reflexivity|]. split.
  - exists (1, 2). by vm_compute.
  - intros (p & Hp & Hv & _). assert (p = (UINT_MAX, 2)) as -> by (vm_compute in Hp; by injection Hp as <-).
    by vm_compute in Hv.
Qed.
