(* ===== verification/RpmhFlush.v ===== *)
(** * Flushing the RPMh cache to the controller

    The end-to-end theorems of the RPMh stack: what the sleep and wake TCSes
    hold after [rpmh_flush], and the invariant of the controller that every call
    of the client interface keeps. *)

From S2P Require Import Prelude Kernel CmdDb RpmhRsc RpmhTcs Rpmh RpmhCache.

(** ** The flush *)

Section flush.
Context (MAX_RPMH_PAYLOAD : Z) (Hpayload : 1 ≤ MAX_RPMH_PAYLOAD).
Context `{D : Device} {SD : StorageDevice D} {B : BitmapSearch} {HB : BitmapSearchSpec B} (N C : Z).
Abbreviation tcs_holds := (tcs_holds N C).
Abbreviation batch := (batch MAX_RPMH_PAYLOAD).

(** A batch is empty or made for the state it is cached under. *)
Definition batch_ok (st : rpmh_state) (m : tcs_request) : Prop :=
  0 ≤ num_cmds m ∧ req_state m ≠ RPMH_ACTIVE_ONLY_STATE ∧ (num_cmds m = 0 ∨ req_state m = st).

Record ctrlr_ok (k : rpmh_ctrlr) : Prop := {
  ko_cache : cache_ok k;
  ko_batches : length (batch_cache k) = 2%nat;
  ko_batch st : st ≠ RPMH_ACTIVE_ONLY_STATE → batch_ok st (msg (batch k st));
}.

(** What a flush programs: the cached batch of the group's state and the valid
    cached votes. *)
Definition batch_cmds (k : rpmh_ctrlr) (type : nat) (a v : Z) : Prop :=
  ∃ st, st ≠ RPMH_ACTIVE_ONLY_STATE ∧ sw_type st = type ∧ sends (msg (batch k st)) a v.
Definition flush_cmds (k : rpmh_ctrlr) (type : nat) (a v : Z) : Prop :=
  batch_cmds k type a v ∨ cached_cmds k type a v.

Lemma tcs_holds_ext s c P P' :
  tcs_holds s c P → (∀ type a v, (type < 2)%nat → P type a v ↔ P' type a v) → tcs_holds s c P'.
Proof.
  intros [HL Hwf Hg Hd (F & HT & HF)] HP. split; [done..|]. exists F. split; [done|].
  intros type Ht. destruct (HF type Ht) as [Hs Hp]. split; [done|].
  intros a v. by rewrite Hp, HP.
Qed.

(** The outcome of a step of the flush: the client state is untouched, and the
    TCSes hold [P] or room was lacking. *)
Definition flush_step {A} (ok : A) (err : A) (s : rsc) (c : Z) (P : nat → Z → Z → Prop)
    (res : outcome A * rsc) : Prop :=
  ∃ r s', res = (Done r, s') ∧ client (drv s') = client (drv s) ∧
    (r = ok ∧ tcs_holds s' c P ∨ r = err ∧ ∃ P', tcs_holds s' c P').

Lemma sends_empty m a v : num_cmds m = 0 → ¬ sends m a v.
Proof. intros Hz (i & Hi & _). lia. Qed.

Lemma write_batch_step s c P m st :
  tcs_holds s c P → st ≠ RPMH_ACTIVE_ONLY_STATE → batch_ok st m →
  flush_step 0 (- ENOMEM) s c (λ t a v, P t a v ∨ (t = sw_type st ∧ sends m a v))
    (rpmh_rsc_write_ctrl_data m c s).
Proof.
  intros HS Hst (Hn & Hact & Hb).
  destruct (write_ctrl_data_holds N C s c P m HS Hact Hn) as (r & s' & Hrun & Hc & _ & Hcase).
  exists r, s'. split; [done|]. split; [done|].
  destruct Hcase as [[-> HS']|[-> ->]]; [left|right; eauto]. split; [done|].
  eapply tcs_holds_ext; [done|]. intros type a v _. unfold add_cmds.
  destruct Hb as [Hz| ->]; [|done]. split; (intros [?|[_ []%sends_empty]]; [by left|done]).
Qed.

Lemma send_single_step s c P st a0 v0 :
  tcs_holds s c P → st ≠ RPMH_ACTIVE_ONLY_STATE →
  flush_step 0 (- ENOMEM) s c (λ t a v, P t a v ∨ (t = sw_type st ∧ a = a0 ∧ v = v0))
    (send_single MAX_RPMH_PAYLOAD st a0 v0 c s).
Proof.
  intros HS Hst. unfold send_single. set (m := mk_tcs_request _ _ _ _).
  destruct (write_batch_step s c P m st HS Hst) as (r & s' & Hrun & Hc & Hcase).
  { split; [done|]. split; [done|by right]. }
  exists r, s'. split; [done|]. split; [done|].
  destruct Hcase as [[-> HS']|]; [left; split; [done|]|by right].
  eapply tcs_holds_ext; [done|]. intros type a v _.
  assert (nth_cmd m 0 = mk_cmd a0 v0 0) as H0.
  { unfold nth_cmd. simpl. apply list_lookup_total_correct, list_lookup_insert_eq.
    unfold zero_cmds. rewrite length_replicate. lia. }
  assert (sends m a v ↔ a = a0 ∧ v = v0) as Hs; [|cbv beta; by rewrite Hs].
  split.
  - intros (i & Hi & Ha & Hv). replace i with 0 in * by (simpl in Hi; lia). by rewrite H0 in Ha, Hv.
  - intros [-> ->]. exists 0. rewrite H0. simpl. lia.
Qed.

(** The commands one cache entry contributes. *)
Definition entry_cmds (p : cache_req) (type : nat) (a v : Z) : Prop :=
  is_req_valid p = true ∧ cr_addr p = a ∧ v = side type (sleep_val p, wake_val p).

Lemma flush_cached_step s c P p :
  tcs_holds s c P →
  flush_step None (Some (- ENOMEM)) s c (λ t a v, P t a v ∨ entry_cmds p t a v)
    (flush_cached MAX_RPMH_PAYLOAD c p s).
Proof.
  intros HS. unfold flush_cached. destruct (is_req_valid p) eqn:Hv; simpl.
  2:{ exists None, s. do 2 (split; [done|]). left. split; [done|]. eapply tcs_holds_ext; [done|].
      unfold entry_cmds. rewrite Hv. naive_solver. }
  destruct (send_single_step s c P RPMH_SLEEP_STATE (cr_addr p) (sleep_val p) HS)
    as (r1 & s1 & Hr1 & Hc1 & Hcase1); [done|].
  rewrite (kbind_Done _ _ _ _ _ Hr1).
  destruct Hcase1 as [[-> HS1]|[-> HP]]; simpl; [|exists (Some (- ENOMEM)), s1; by eauto].
  destruct (send_single_step s1 c _ RPMH_WAKE_ONLY_STATE (cr_addr p) (wake_val p) HS1)
    as (r2 & s2 & Hr2 & Hc2 & Hcase2); [done|].
  rewrite (kbind_Done _ _ _ _ _ Hr2).
  destruct Hcase2 as [[-> HS2]|[-> HP]]; simpl;
    [|exists (Some (- ENOMEM)), s2; split; [done|]; split; [congruence|by right]].
  exists None, s2. split; [done|]. split; [congruence|]. left. split; [done|].
  eapply tcs_holds_ext; [done|]. intros type a v Ht. unfold entry_cmds, side, SLEEP_TCS, WAKE_TCS. simpl.
  destruct type as [|[|]]; [| |lia]; simpl; naive_solver.
Qed.

Lemma flush_loop_step l s c P :
  tcs_holds s c P →
  flush_step None (Some (- ENOMEM)) s c (λ t a v, P t a v ∨ ∃ p, p ∈ l ∧ entry_cmds p t a v)
    (for_until l (flush_cached MAX_RPMH_PAYLOAD c) s).
Proof.
  revert s P. induction l as [|p l IH]; intros s P HS; simpl.
  { exists None, s. do 2 (split; [done|]). left. split; [done|]. eapply tcs_holds_ext; [done|].
    intros type a v _. set_solver. }
  destruct (flush_cached_step s c P p HS) as (r1 & s1 & Hr1 & Hc1 & Hcase1).
  rewrite (kbind_Done _ _ _ _ _ Hr1).
  destruct Hcase1 as [[-> HS1]|[-> HP]]; [|exists (Some (- ENOMEM)), s1; by eauto].
  destruct (IH s1 _ HS1) as (r2 & s2 & Hr2 & Hc2 & Hcase2).
  exists r2, s2. split; [done|]. split; [congruence|].
  destruct Hcase2 as [[-> HS2]|?]; [left; split; [done|]|by right].
  eapply tcs_holds_ext; [done|]. intros type a v _. set_solver.
Qed.

Lemma flush_batch_step s c P k :
  tcs_holds s c P → client (drv s) = k → ctrlr_ok k →
  flush_step 0 (- ENOMEM) s c (λ t a v, P t a v ∨ batch_cmds k t a v)
    (flush_batch MAX_RPMH_PAYLOAD c s).
Proof.
  intros HS <- [_ _ Hb]. unfold flush_batch, kgets. unfold kbind at 1.
  destruct (write_batch_step s c P _ RPMH_SLEEP_STATE HS ltac:(done) (Hb RPMH_SLEEP_STATE ltac:(done)))
    as (r1 & s1 & Hr1 & Hc1 & Hcase1).
  rewrite (kbind_Done _ _ _ _ _ Hr1).
  destruct Hcase1 as [[-> HS1]|[-> HP]]; [|exists (- ENOMEM), s1; by eauto].
  destruct (write_batch_step s1 c _ _ RPMH_WAKE_ONLY_STATE HS1 ltac:(done) (Hb RPMH_WAKE_ONLY_STATE ltac:(done)))
    as (r2 & s2 & Hr2 & Hc2 & Hcase2).
  exists r2, s2. split; [done|]. split; [congruence|].
  destruct Hcase2 as [[-> HS2]|?]; [left; split; [done|]|by right].
  eapply tcs_holds_ext; [done|]. intros type a v _. unfold batch_cmds. split.
  - intros [[?|[-> ?]]|[-> ?]]; [by left|right; by eexists RPMH_SLEEP_STATE|right; by eexists RPMH_WAKE_ONLY_STATE].
  - intros [?|([] & Hst & <- & Hs)]; [by do 2 left|by left; right|by right|done].
Qed.

Lemma tcs_holds_set_client s c P f :
  tcs_holds s c P → tcs_holds (on_drv (λ d, set_client (f (client d)) d) s) c P.
Proof.
  intros [HL Hwf Hg Hd HT]. split; [|done..]. destruct HL as [Ha Hs]. split; [exact Ha|exact Hs].
Qed.

(** The probe never assigns the control TCS of [drv->tcs]. *)
Definition no_control (d : rsc_drv) : Prop := tg_num_tcs (drv_tcs d !!! CONTROL_TCS) = 0.

Lemma write_next_wakeup_off tb s :
  no_control (drv s) → rpmh_rsc_write_next_wakeup tb s = (Done tt, s).
Proof. unfold no_control, rpmh_rsc_write_next_wakeup, kgets, kbind. intros ->. done. Qed.

Lemma flush_frame {X} (f : rsc_drv → X) `{!Framed f} (x : X) c k :
  preserves (part_is f x)
    (rpmh_rsc_invalidate c ;;;
     let* ret := flush_batch MAX_RPMH_PAYLOAD c in
     if negb (ret =? 0) then kret (Some ret)
     else for_until (cache_used k) (flush_cached MAX_RPMH_PAYLOAD c)).
Proof. unfold flush_batch, flush_cached, send_single. kpreserve. Qed.

Definition flush_body (c : Z) (k : rpmh_ctrlr) : KM rsc (option Z) :=
  rpmh_rsc_invalidate c ;;;
  let* ret := flush_batch MAX_RPMH_PAYLOAD c in
  if negb (ret =? 0) then kret (Some ret)
  else for_until (cache_used k) (flush_cached MAX_RPMH_PAYLOAD c).

Lemma flush_body_step s c P k :
  tcs_holds s c P → client (drv s) = k → ctrlr_ok k →
  flush_step None (Some (- ENOMEM)) s c (flush_cmds k) (flush_body c k s).
Proof.
  intros HS Hk Hok. unfold flush_body.
  destruct (rpmh_rsc_invalidate_holds N C s c P HS) as (s1 & Hr1 & Hc1 & _ & HS1).
  rewrite (kbind_Done _ _ _ _ _ Hr1).
  destruct (flush_batch_step s1 c _ k HS1) as (r2 & s2 & Hr2 & Hc2 & Hcase2); [congruence|done|].
  rewrite (kbind_Done _ _ _ _ _ Hr2).
  destruct Hcase2 as [[-> HS2]|[-> HP]]; simpl;
    [|exists (Some (- ENOMEM)), s2; split; [done|]; split; [congruence|by right]].
  destruct (flush_loop_step (cache_used k) s2 c _ HS2) as (r3 & s3 & Hr3 & Hc3 & Hcase3).
  exists r3, s3. split; [done|]. split; [congruence|].
  destruct Hcase3 as [[-> HS3]|?]; [left; split; [done|]|by right].
  eapply tcs_holds_ext; [done|]. intros type a v _. unfold flush_cmds.
  rewrite cached_cmds_used by apply Hok. unfold entry_cmds. naive_solver.
Qed.

Lemma flush_run tb c s :
  _rpmh_flush MAX_RPMH_PAYLOAD tb c s =
  if negb (dirty (client (drv s))) then (rpmh_rsc_write_next_wakeup tb ;;; kret 0) s
  else (let* err := flush_body c (client (drv s)) in
        match err with
        | Some ret => kret ret
        | None => mod_ctrlr (set_dirty false) ;;; rpmh_rsc_write_next_wakeup tb ;;; kret 0
        end) s.
Proof.
  unfold _rpmh_flush, flush_body, kgets. unfold kbind at 1. destruct (negb _); [done|].
  unfold kbind. destruct (rpmh_rsc_invalidate c s) as [[[]| | |] s1]; try done.
  destruct (flush_batch _ c s1) as [[r| | |] s2]; try done. by destruct (negb (r =? 0)).
Qed.

Lemma rpmh_flush_spec tb c s P :
  tcs_holds s c P → ctrlr_ok (client (drv s)) → dirty (client (drv s)) = true → no_control (drv s) →
  ∃ r s', rpmh_flush MAX_RPMH_PAYLOAD false tb c s = (Done r, s') ∧
    (r = 0 ∧ client (drv s') = set_dirty false (client (drv s)) ∧
     tcs_holds s' c (flush_cmds (client (drv s))) ∨
     r = - ENOMEM ∧ client (drv s') = client (drv s) ∧ ∃ P', tcs_holds s' c P').
Proof.
  intros HS Hok Hd Hnc. unfold rpmh_flush. rewrite flush_run, Hd. cbn [negb].
  destruct (flush_body_step s c P _ HS eq_refl Hok) as (r & s1 & Hrun & Hc & Hcase).
  rewrite (kbind_Done _ _ _ _ _ Hrun).
  destruct Hcase as [[-> HS1]|[-> HP]]; [|exists (- ENOMEM), s1; by eauto].
  assert (drv_tcs (drv s1) = drv_tcs (drv s)) as Hframe.
  { pose proof (flush_frame drv_tcs _ c (client (drv s)) s eq_refl) as Hf.
    unfold flush_body in Hrun. by rewrite Hrun in Hf. }
  unfold mod_ctrlr, mod_drv, kmodify. unfold kbind at 1. set (s2 := on_drv _ s1).
  rewrite (kbind_Done _ _ _ _ _ (write_next_wakeup_off tb s2 ltac:(unfold no_control, s2; simpl; by rewrite Hframe))).
  exists 0, s2. split; [done|]. left. split; [done|]. split; [simpl; by rewrite Hc|].
  by apply tcs_holds_set_client.
Qed.

(** C14: flushing a dirty controller.  Whatever the sleep and wake groups held, after
    a successful [rpmh_flush] they are programmed with exactly the commands of the
    cached sleep and wake batches and of the cached resources whose two votes are
    present and differ, each group with its own side of the votes; the cache is
    unchanged but no longer dirty.  Otherwise the groups were too small: the
    flush answers -ENOMEM and the controller stays dirty, so that the next flush
    starts over. *)
Theorem rpmh_flush_programs tb c s P :
  tcs_holds s c P → ctrlr_ok (client (drv s)) → dirty (client (drv s)) = true → no_control (drv s) →
  ∃ r s', rpmh_flush MAX_RPMH_PAYLOAD false tb c s = (Done r, s') ∧
    (r = 0 ∧ client (drv s') = set_dirty false (client (drv s)) ∧
     tcs_holds s' c (flush_cmds (client (drv s))) ∨
     r = - ENOMEM ∧ client (drv s') = client (drv s) ∧ ∃ P', tcs_holds s' c P').
Proof. apply rpmh_flush_spec. Qed.

Lemma rpmh_flush_clean tb c s :
  dirty (client (drv s)) = false → no_control (drv s) →
  rpmh_flush MAX_RPMH_PAYLOAD false tb c s = (Done 0, s).
Proof.
  intros Hd Hnc. unfold rpmh_flush. rewrite flush_run, Hd. cbn [negb].
  by rewrite (kbind_Done _ _ _ _ _ (write_next_wakeup_off tb s Hnc)).
Qed.

(** ** The client interface as a whole *)

(** The calls that deal with the sleep and wake sets. *)
Inductive call :=
  | Write_async (st : rpmh_state) (cmd : option (list tcs_cmd)) (n : Z)
  | Write (compl : nat) (st : rpmh_state) (cmd : option (list tcs_cmd)) (n : Z)
  | Write_batch (compl : nat) (st : rpmh_state) (cmd : option (list tcs_cmd)) (n : list Z)
  | Invalidate
  | Flush (tb : timebase).

Definition run_call (c : Z) (k : call) : KM rsc unit :=
  match k with
  | Write_async st cmd n => rpmh_write_async MAX_RPMH_PAYLOAD false 1 [] st cmd n ;;; kret tt
  | Write compl st cmd n => rpmh_write MAX_RPMH_PAYLOAD false false 1 [] [] compl st cmd n ;;; kret tt
  | Write_batch compl st cmd n =>
      rpmh_write_batch MAX_RPMH_PAYLOAD false false 1 [] [] compl st cmd n ;;; kret tt
  | Invalidate => rpmh_invalidate MAX_RPMH_PAYLOAD false
  | Flush tb => rpmh_flush MAX_RPMH_PAYLOAD false tb c ;;; kret tt
  end.

(** A sleep or wake set, with the array as long as announced; votes are not 0xFFFFFFFF. *)
Definition set_ok (st : rpmh_state) (cmd : option (list tcs_cmd)) (n : Z) : Prop :=
  st ≠ RPMH_ACTIVE_ONLY_STATE ∧
  ∀ l, cmd = Some l → Z.of_nat (length l) = n ∧ Forall (λ x, cmd_data x ≠ UINT_MAX) l.
Definition call_ok (k : call) : Prop :=
  match k with
  | Write_async st cmd n | Write _ st cmd n => set_ok st cmd n
  | Write_batch _ st cmd n => set_ok st cmd (n !!! 0%nat)
  | Invalidate | Flush _ => True
  end.

(** The TCSes are ready, the cache is well-formed, and a clean cache is in the TCSes. *)
Record coherent (s : rsc) (c : Z) : Prop := {
  ch_holds : ∃ P, tcs_holds s c P;
  ch_ctrlr : ctrlr_ok (client (drv s));
  ch_control : no_control (drv s);
  ch_clean : dirty (client (drv s)) = false → tcs_holds s c (flush_cmds (client (drv s)));
}.

(** Replacing the client state, and signalling completions. *)
Definition with_client (k : rpmh_ctrlr) (done : list nat) (s : rsc) : rsc :=
  mk_rsc _ (set_client k (drv s)) (hw s) done.

Lemma tcs_holds_with_client s c P k l : tcs_holds s c P → tcs_holds (with_client k l s) c P.
Proof.
  intros [HL Hwf Hg Hd HT]. split; [|done..]. destruct HL as [Ha Hs]. split; [exact Ha|exact Hs].
Qed.

Lemma coherent_with_client s c k l :
  coherent s c → ctrlr_ok k →
  (dirty k = false → dirty (client (drv s)) = false ∧
     ∀ type a v, flush_cmds k type a v ↔ flush_cmds (client (drv s)) type a v) →
  coherent (with_client k l s) c.
Proof.
  intros [[P HP] Hok Hnc Hcl] Hk Hd. split; [exists P; by apply tcs_holds_with_client|done|done|].
  simpl. intros Hf. destruct (Hd Hf) as [Hf' Heq].
  eapply tcs_holds_ext; [by apply tcs_holds_with_client, Hcl|]. intros type a v _. by rewrite Heq.
Qed.

Lemma batch_eq k k' st : batch_cache k' = batch_cache k → batch k' st = batch k st.
Proof. unfold Rpmh.batch. by intros ->. Qed.

(** Caching a sleep or wake set: the client state becomes that of [cache_cmds]. *)
Lemma rpmh_write_cached env st r s :
  st ≠ RPMH_ACTIVE_ONLY_STATE →
  let '(err, k) := cache_cmds (client (drv s)) st (nth_cmd (msg r) <$> seqZ 0 (num_cmds (msg r))) in
  __rpmh_write 1 env st r s =
  (Done err, with_client k (if err =? 0 then default [] ((λ x, [x]) <$> completion r) ++ completed s
                            else completed s) s).
Proof.
  intros Hst. unfold __rpmh_write, kgets. unfold kbind at 1.
  destruct (cache_cmds _ _ _) as [err k]. unfold mod_ctrlr, mod_drv, kmodify. unfold kbind at 1.
  destruct (Z.eqb_spec err 0) as [->|Hne]; simpl; [|done].
  rewrite bool_decide_false by done. unfold rpmh_tx_done. by destruct (completion r).
Qed.

Lemma coherent_cached s c st l err k done :
  coherent s c → Forall (λ x, cmd_data x ≠ UINT_MAX) l →
  cache_cmds (client (drv s)) st l = (err, k) → coherent (with_client k done s) c.
Proof.
  intros HC Hl Hrun. pose proof (ch_ctrlr _ _ HC) as [Hca Hlen Hb].
  pose proof (cache_cmds_batch _ _ _ _ _ Hca Hrun) as Hbatch.
  apply coherent_with_client; [done| |].
  - split; [by eapply cache_cmds_ok|by rewrite Hbatch|]. intros st' Hst'.
    rewrite (batch_eq _ _ _ Hbatch). by apply Hb.
  - intros Hd. split; [by eapply cache_cmds_dirty|]. intros type a v. unfold flush_cmds, batch_cmds.
    rewrite (cache_cmds_quiet _ _ _ _ _ Hca Hl Hrun Hd).
    apply or_iff_compat_r, exist_proper. intros st'. by rewrite (batch_eq _ _ _ Hbatch).
Qed.

Lemma fill_rpmh_msg_cmds req st l n r :
  Z.of_nat (length l) = n → __fill_rpmh_msg MAX_RPMH_PAYLOAD req st (Some l) n = (0, r) →
  nth_cmd (msg r) <$> seqZ 0 (num_cmds (msg r)) = l ∧ completion r = completion req.
Proof.
  unfold __fill_rpmh_msg. intros Hl. destruct (_ || _); [done|]. intros [= <-]. simpl. split; [|done].
  apply list_eq. intros i. rewrite list_lookup_fmap. unfold nth_cmd. simpl.
  destruct (decide (i < length l)%nat) as [Hi|Hi].
  - rewrite lookup_seqZ_lt by lia. simpl. rewrite Z.add_0_l, Nat2Z.id.
    destruct (lookup_lt_is_Some_2 _ _ Hi) as [x Hx]. rewrite Hx. f_equal.
    apply list_lookup_total_correct. rewrite lookup_app_l, lookup_take_lt; [done|lia|].
    rewrite length_take. lia.
  - rewrite lookup_seqZ_ge by lia. rewrite lookup_ge_None_2 by lia. done.
Qed.

Lemma fill_rpmh_msg_error req st cmd n :
  (__fill_rpmh_msg MAX_RPMH_PAYLOAD req st cmd n).1 = 0 ∨
  __fill_rpmh_msg MAX_RPMH_PAYLOAD req st cmd n = (- EINVAL, req).
Proof.
  unfold __fill_rpmh_msg. destruct cmd as [l|]; [|by right]. destruct (_ || _); [by right|by left].
Qed.

Lemma check_ctrlr_state_passive k st : st ≠ RPMH_ACTIVE_ONLY_STATE → check_ctrlr_state k st = 0.
Proof. intros Hst. unfold check_ctrlr_state. by rewrite bool_decide_true. Qed.

(** A blocking or non-blocking write of a sleep or wake set. *)
Lemma write_async_coherent s c st cmd n :
  coherent s c → set_ok st cmd n →
  ∃ r s', rpmh_write_async MAX_RPMH_PAYLOAD false 1 [] st cmd n s = (Done r, s') ∧ coherent s' c ∧
    batch_cache (client (drv s')) = batch_cache (client (drv s)).
Proof.
  intros HC [Hst Hl]. unfold rpmh_write_async, kgets. unfold kbind at 1.
  rewrite check_ctrlr_state_passive by done. simpl.
  destruct (fill_rpmh_msg_error (set_wait_for_compl false (rpmh_msg_onstack MAX_RPMH_PAYLOAD st None)) st cmd n)
    as [Hz|He]; [|rewrite He; by exists (- EINVAL), s].
  destruct (__fill_rpmh_msg _ _ _ _ _) as [z r] eqn:E. simpl in Hz. subst z. simpl.
  destruct cmd as [l|]; [|done]. destruct (Hl l eq_refl) as [Hlen Hdata].
  destruct (fill_rpmh_msg_cmds _ _ _ _ _ Hlen E) as [Hcmds _].
  pose proof (rpmh_write_cached [] st r s Hst) as Hw. rewrite Hcmds in Hw.
  destruct (cache_cmds _ st l) as [err k] eqn:Ek.
  eexists _, _. split; [exact Hw|]. split; [by eapply coherent_cached|]. eapply cache_cmds_batch; [apply HC|done].
Qed.

Lemma write_coherent s c compl st cmd n :
  coherent s c → set_ok st cmd n →
  ∃ r s', rpmh_write MAX_RPMH_PAYLOAD false false 1 [] [] compl st cmd n s = (Done r, s') ∧ coherent s' c ∧
    batch_cache (client (drv s')) = batch_cache (client (drv s)).
Proof.
  intros HC [Hst Hl]. unfold rpmh_write, kgets. unfold kbind at 1.
  rewrite check_ctrlr_state_passive by done. simpl.
  destruct (fill_rpmh_msg_error (rpmh_msg_onstack MAX_RPMH_PAYLOAD st (Some compl)) st cmd n)
    as [Hz|He]; [|rewrite He; by exists (- EINVAL), s].
  destruct (__fill_rpmh_msg _ _ _ _ _) as [z r] eqn:E. simpl in Hz. subst z. simpl.
  destruct cmd as [l|]; [|done]. destruct (Hl l eq_refl) as [Hlen Hdata].
  destruct (fill_rpmh_msg_cmds _ _ _ _ _ Hlen E) as [Hcmds Hcompl].
  pose proof (rpmh_write_cached [] st r s Hst) as Hw. rewrite Hcmds in Hw.
  destruct (cache_cmds _ st l) as [err k] eqn:Ek.
  rewrite (kbind_Done _ _ _ _ _ Hw). pose proof (λ d, coherent_cached s c st l err k d HC Hdata Ek) as Hco.
  pose proof (cache_cmds_batch _ _ _ _ _ (ko_cache _ (ch_ctrlr _ _ HC)) Ek) as Hb.
  destruct (Z.eqb_spec err 0) as [->|Hne]; simpl; [|eauto].
  rewrite Hcompl. unfold kbind, kgets. simpl. rewrite bool_decide_true by left.
  eexists _, _. split; [done|]. split; [apply Hco|done].
Qed.

Lemma coherent_dirty s c k :
  coherent s c → ctrlr_ok k → dirty k = true → coherent (on_drv (set_client k) s) c.
Proof.
  intros HC Hk Hd. apply (coherent_with_client s c k (completed s) HC Hk). congruence.
Qed.

Lemma batch_ok_zero st : batch_ok st (msg (zero_request MAX_RPMH_PAYLOAD)).
Proof. split; [done|]. split; [done|by left]. Qed.

Lemma ctrlr_ok_batch k st req :
  ctrlr_ok k → st ≠ RPMH_ACTIVE_ONLY_STATE → batch_ok st (msg req) →
  ctrlr_ok (set_dirty true (set_batch (<[sw_type st := req]> (batch_cache k)) k)).
Proof.
  intros [Hca Hlen Hb] Hst Hreq. split.
  - destruct Hca as [? ? ?]. by split.
  - simpl. by rewrite length_insert.
  - intros st' Hst'. unfold Rpmh.batch in *. simpl. destruct (decide (st' = st)) as [->|Hne].
    + rewrite list_lookup_total_insert_eq; [done|]. rewrite Hlen. destruct st; [vm_compute; lia..|done].
    + rewrite list_lookup_total_insert_ne; [by apply Hb|]. by destruct st, st'.
Qed.

Lemma write_batch_coherent s c compl st cmd n :
  coherent s c → set_ok st cmd (n !!! 0%nat) →
  ∃ r s', rpmh_write_batch MAX_RPMH_PAYLOAD false false 1 [] [] compl st cmd n s = (Done r, s') ∧ coherent s' c.
Proof.
  intros HC [Hst Hl]. unfold rpmh_write_batch, kgets. unfold kbind at 1.
  rewrite check_ctrlr_state_passive by done. simpl. rewrite bool_decide_false by done.
  destruct (__fill_rpmh_msg _ _ _ _ _) as [ret req] eqn:E.
  eexists _, _. split; [reflexivity|]. apply coherent_dirty; [done| |done].
  apply ctrlr_ok_batch; [apply HC|done|].
  destruct (fill_rpmh_msg_error (zero_request MAX_RPMH_PAYLOAD) st cmd (n !!! 0%nat)) as [Hz|He];
    rewrite E in *; simplify_eq/=; [|apply batch_ok_zero].
  unfold __fill_rpmh_msg in E. destruct cmd as [l|]; [|done]. destruct (_ || _); [done|].
  injection E as <-. destruct (Hl l eq_refl) as [Hlen _]. split; [simpl; lia|]. split; [done|by right].
Qed.

Lemma invalidate_coherent s c :
  coherent s c → ∃ s', rpmh_invalidate MAX_RPMH_PAYLOAD false s = (Done tt, s') ∧ coherent s' c.
Proof.
  intros HC. eexists. split; [reflexivity|]. apply coherent_dirty; [done| |done].
  apply (ctrlr_ok_batch (set_batch _ _) RPMH_WAKE_ONLY_STATE); [|done|apply batch_ok_zero].
  pose proof (ctrlr_ok_batch _ RPMH_SLEEP_STATE _ (ch_ctrlr _ _ HC) ltac:(done) (batch_ok_zero _)) as [[] ? ?].
  by split.
Qed.

Lemma ctrlr_ok_set_dirty k b : ctrlr_ok k → ctrlr_ok (set_dirty b k).
Proof. intros [[] ? ?]. by split. Qed.

Lemma flush_no_control tb c s s' r :
  rpmh_flush MAX_RPMH_PAYLOAD false tb c s = (r, s') → no_control (drv s) → no_control (drv s').
Proof.
  intros Hrun Hnc. unfold no_control. enough (drv_tcs (drv s') = drv_tcs (drv s)) as -> by done.
  cut (preserves (part_is drv_tcs (drv_tcs (drv s))) (rpmh_flush MAX_RPMH_PAYLOAD false tb c)).
  { intros Hp. specialize (Hp s eq_refl). by rewrite Hrun in Hp. }
  unfold rpmh_flush, _rpmh_flush, flush_batch, flush_cached, send_single, mod_ctrlr. kpreserve.
  by apply mod_drv_keeps.
Qed.

Lemma flush_coherent tb s c :
  coherent s c → ∃ r s', rpmh_flush MAX_RPMH_PAYLOAD false tb c s = (Done r, s') ∧ coherent s' c ∧
    batch_cache (client (drv s')) = batch_cache (client (drv s)).
Proof.
  intros HC. destruct (dirty (client (drv s))) eqn:Hd.
  2:{ exists 0, s. split; [apply rpmh_flush_clean; [done|apply HC]|done]. }
  pose proof HC as [[P HP] Hok Hnc _].
  destruct (rpmh_flush_spec tb c s P HP Hok Hd Hnc) as (r & s' & Hrun & Hcase).
  exists r, s'. split; [done|]. pose proof (flush_no_control _ _ _ _ _ Hrun Hnc).
  split; [|by destruct Hcase as [(_ & -> & _)|(_ & -> & _)]].
  destruct Hcase as [(-> & Hk & HS)|(-> & Hk & HP')]; split; rewrite ?Hk; eauto using ctrlr_ok_set_dirty.
  congruence.
Qed.

(** C15: the client interface keeps cache and hardware coherent. Starting from a coherent
    controller without a control TCS, any sequence of blocking or non-blocking writes, batch
    writes, invalidations and flushes of sleep and wake sets ends without hanging or stopping
    the system, and whenever the controller is clean afterwards the sleep and wake TCSes are
    programmed with exactly the cached batches and votes. Each write meets [call_ok]: it is
    not an active set, its array is as long as announced, and no vote is 0xFFFFFFFF, which the
    cache takes for no vote (with it coherence is lost, see [withdrawn_vote_is_not_dirty] in
    RpmhCache). *)
Theorem client_calls_coherent c calls s :
  coherent s c → Forall call_ok calls →
  ∃ s', for_each calls (run_call c) s = (Done tt, s') ∧ coherent s' c.
Proof.
  intros HC Hcalls. revert s HC.
  induction Hcalls as [|k calls Hk _ IH]; intros s HC; simpl; [by exists s|].
  cut (∃ s1, run_call c k s = (Done tt, s1) ∧ coherent s1 c).
  { intros (s1 & Hrun & HC1). rewrite (kbind_Done _ _ _ _ _ Hrun). by apply IH. }
  destruct k as [st cmd n|compl st cmd n|compl st cmd n| |tb]; simpl in *;
    [edestruct (write_async_coherent s c st cmd n HC Hk) as (r & s1 & Hrun & ? & _)
    |edestruct (write_coherent s c compl st cmd n HC Hk) as (r & s1 & Hrun & ? & _)
    |edestruct (write_batch_coherent s c compl st cmd n HC Hk) as (r & s1 & Hrun & ?)
    |by apply invalidate_coherent
    |edestruct (flush_coherent tb s c HC) as (r & s1 & Hrun & ? & _)];
    exists s1; rewrite (kbind_Done _ _ _ _ _ Hrun); done.
Qed.
End flush.

(** ** A concrete controller *)

Definition sample_batch : rpmh_request :=
  mk_rpmh_request (mk_tcs_request RPMH_SLEEP_STATE false 2 [mk_cmd 0x50000 8 0; mk_cmd 0x50004 9 0]) None.
Definition sample_client : rpmh_ctrlr :=
  mk_rpmh_ctrlr true false 0 [sample_batch; zero_request 16] 2
    (mk_cache_req 0x30000 1 2 :: mk_cache_req 0x30004 5 5 :: replicate 248 (mk_cache_req 0 0 0)).
Definition sample_rsc : rsc := mk_rsc mem_device (sample_drv sample_client) ∅ [].

Lemma sample_client_ok : ctrlr_ok 16 sample_client.
Proof.
  split; [split| |].
  - reflexivity.
  - vm_compute. split; discriminate.
  - apply (bool_decide_unpack _). by vm_compute.
  - reflexivity.
  - intros [] Hst; [|split; [done|split; [done|by left]]|done]. split; [done|]. split; [done|by right].
Qed.

Lemma sample_rsc_holds : tcs_holds 8 16 sample_rsc 0 (λ _ _ _, False).
Proof.
  split.
  - split; [|done]. apply reg_table_distinct; [right; left|by left|vm_compute; discriminate].
  - split; vm_compute; [lia|done].
  - intros [|[|]] Ht; [| |lia]; (split; [split|..]; vm_compute; congruence).
  - intros m. unfold in_group. simpl. lia.
  - exists (λ _, 0). split; [intros c _; done|]. intros [|[|]] Ht; [| |lia]; simpl;
      (split; [intros t j ? ?; by rewrite !Z.testbit_0_l|]);
      intros a v; (split; [intros (t & j & _ & _ & Hb & _); by rewrite Z.testbit_0_l in Hb|done]).
Qed.

Definition sample_tb : timebase := mk_timebase false 0 0 0 0 0.

Lemma rpmh_flush_witness :
  ∃ r s', rpmh_flush 16 false sample_tb 0 sample_rsc = (Done r, s') ∧ r = 0 ∧
    tcs_holds 8 16 s' 0 (flush_cmds 16 sample_client).
Proof.
  destruct (rpmh_flush_programs 16 ltac:(lia) 8 16 sample_tb 0 sample_rsc _ sample_rsc_holds
              sample_client_ok eq_refl eq_refl) as (r & s' & Hrun & Hcase).
  exists r, s'. split; [exact Hrun|].
  assert (r = 0) as -> by (apply (f_equal fst) in Hrun; vm_compute in Hrun; congruence).
  split; [done|]. destruct Hcase as [(_ & _ & H)|(He & _)]; [exact H|discriminate He].
Defined.

Lemma sample_rsc_coherent : coherent 16 8 16 sample_rsc 0.
Proof. split; [eexists; apply sample_rsc_holds|apply sample_client_ok|done|done]. Qed.

(** Vote, flush, then withdraw the difference between the votes. *)
Definition sample_calls : list call :=
  [ Write_async RPMH_SLEEP_STATE (Some [mk_cmd 0x30008 3 0]) 1;
    Write 7 RPMH_WAKE_ONLY_STATE (Some [mk_cmd 0x30008 4 0]) 1;
    Flush sample_tb;
    Write_batch 8 RPMH_WAKE_ONLY_STATE (Some [mk_cmd 0x50000 1 0]) [1; 0];
    Invalidate;
    Flush sample_tb ].

Lemma client_calls_witness :
  ∃ s', for_each sample_calls (run_call 16 0) sample_rsc = (Done tt, s') ∧
    dirty (client (drv s')) = false ∧ tcs_holds 8 16 s' 0 (flush_cmds 16 (client (drv s'))).
Proof.
  destruct (client_calls_coherent 16 ltac:(lia) 8 16 0 sample_calls sample_rsc sample_rsc_coherent)
    as (s' & Hrun & HC).
  { repeat apply Forall_cons_2; [..|apply Forall_nil_2]; try exact I;
      (split; [discriminate|]; intros l [= <-]; split; [reflexivity|];
       apply Forall_cons_2; [discriminate|apply Forall_nil_2]). }
  exists s'. split; [exact Hrun|].
  assert (dirty (client (drv s')) = false) as Hd.
  { replace s' with ((for_each sample_calls (run_call 16 0) sample_rsc).2) by (by rewrite Hrun).
    vm_compute. reflexivity. }
  split; [exact Hd|exact (ch_clean _ _ _ _ _ HC Hd)].
Defined.
