(* ===== verification/RpmhSend.v ===== *)
(** * Sending an active request

    [rpmh_rsc_send_data] claims a TCS, programs it and triggers it.  The
    theorems say that the TCS was free, that no TCS of the group still in flight
    addresses the same resource, and what the registers hold afterwards; and
    that solver mode keeps active requests away from the hardware. *)

From S2P Require Import Prelude Kernel CmdDb RpmhRsc RpmhTcs Rpmh.

Section send.
Context `{D : Device} {SD : StorageDevice D} {B : BitmapSearch} {HB : BitmapSearchSpec B} (N C : Z).
Abbreviation layout_ok := (layout_ok N C).
Abbreviation table := (table N C).
Abbreviation cfg_valid := (cfg_valid N C).
Abbreviation group_at := (group_at N C).

(** Only the hardware changed, and the command registers still read as [F]. *)
Definition reads (s0 : rsc) (F : cfg → Z) (s : rsc) : Prop := hw_only s0 s ∧ table s F.

Lemma reads_layout s0 F s : layout_ok (drv s0) → reads s0 F s → layout_ok (drv s).
Proof. by intros HL [[-> _] _]. Qed.

(** Reading any register keeps the table. *)
Lemma readl_reads s0 F s a :
  layout_ok (drv s0) → reads s0 F s → ∃ v s', readl_relaxed a s = (Done v, s') ∧ reads s0 F s'.
Proof.
  intros HL [Hs HT]. unfold readl_relaxed. pose proof (λ c, read_keeps a (cfg_addr (drv s) c) (hw s)) as Hk.
  destruct (readl a (hw s)) as [v h]. eexists v, _. split; [done|]. split; [done|].
  intros c Hc. simpl in *. rewrite Hk; [by apply HT|]. destruct Hs as [-> _]. by apply HL.
Qed.

Lemma read_tcs_reg_reads s0 F s r m :
  layout_ok (drv s0) → reads s0 F s → ∃ v s', read_tcs_reg r m s = (Done v, s') ∧ reads s0 F s'.
Proof. intros HL HR. exact (readl_reads s0 F s _ HL HR). Qed.

(** An in-use TCS of the group has an enabled command for a resource of the message. *)
Definition cmd_clash (F : cfg → Z) (m : tcs_request) (i j : Z) : Prop :=
  ∃ k, 0 ≤ k < num_cmds m ∧
    cmd_db_match_resource_addr (cmd_addr (nth_cmd m k)) (F (Ccmd RSC_DRV_CMD_ADDR i j)) = true.
Definition tcs_clash (F : cfg → Z) (g : tcs_group) (m : tcs_request) (i : Z) : Prop :=
  ∃ j, 0 ≤ j < tg_ncpt g ∧ Z.testbit (F (Creg RSC_DRV_CMD_ENABLE i)) j = true ∧ cmd_clash F m i j.
Definition in_flight (F : cfg → Z) (in_use : Z) (g : tcs_group) (m : tcs_request) : Prop :=
  ∃ i, in_group g i ∧ Z.testbit in_use i = true ∧ tcs_clash F g m i.

Lemma existsb_seqZ (f : Z → bool) n : existsb f (seqZ 0 n) = true ↔ ∃ k, 0 ≤ k < n ∧ f k = true.
Proof.
  rewrite existsb_exists. split.
  - intros (k & Hk & Hf). exists k. split; [|done]. apply list_elem_of_In, elem_of_seqZ in Hk. lia.
  - intros (k & Hk & Hf). exists k. split; [|done]. apply list_elem_of_In, elem_of_seqZ. lia.
Qed.

Lemma elem_of_set_bits map n j : j ∈ set_bits map n ↔ 0 ≤ j < n ∧ Z.testbit map j = true.
Proof. unfold set_bits. rewrite list_elem_of_filter, elem_of_seqZ. naive_solver lia. Qed.

Lemma elem_of_set_bits_from map start size j :
  j ∈ set_bits_from map start size ↔ start ≤ j < size ∧ Z.testbit map j = true.
Proof. unfold set_bits_from. rewrite list_elem_of_filter, elem_of_seqZ. naive_solver lia. Qed.

Lemma check_cmds_run s0 F s g m i :
  layout_ok (drv s0) → group_at g → in_group g i → reads s0 F s →
  ∃ r s', for_until (set_bits (F (Creg RSC_DRV_CMD_ENABLE i)) (tg_ncpt g)) (λ j,
      let* addr := read_tcs_cmd RSC_DRV_CMD_ADDR i j in
      kret (if existsb (λ k, cmd_db_match_resource_addr (cmd_addr (nth_cmd m k)) addr) (seqZ 0 (num_cmds m))
            then Some (- EBUSY) else None)) s = (Done r, s') ∧ reads s0 F s' ∧
    (r = None ∧ ¬ tcs_clash F g m i ∨ r = Some (- EBUSY) ∧ tcs_clash F g m i).
Proof.
  intros HL [Hok Hoff Hend Hcap Hmax] Hi HR.
  edestruct (for_until_search (reads s0 F) (cmd_clash F m i) (- EBUSY)) as (r & s' & Hrun & HR' & Hcase);
    [|exact HR|].
  2:{ exists r, s'. split; [exact Hrun|]. split; [done|]. unfold tcs_clash.
      destruct Hcase as [[-> Hno]|(-> & j & Hj & Hc)].
      - left. split; [done|]. intros (j & Hj & Hb & Hc). by apply (Hno j); [apply elem_of_set_bits|].
      - right. split; [done|]. apply elem_of_set_bits in Hj as [Hj Hb]. by exists j. }
  intros j s1 Hj HR1. apply elem_of_set_bits in Hj as [Hj _]. unfold in_group in Hi.
  pose proof HR1 as [Hs1 HT1].
  destruct (read_cfg_run N C s1 F (Ccmd RSC_DRV_CMD_ADDR i j)) as (s2 & Hr & Hs2 & HT2);
    [by eapply reads_layout|done|split; [done|lia]|].
  unfold read_tcs_cmd, kgets. unfold kbind at 1. unfold kbind at 1. simpl in Hr. rewrite Hr.
  eexists _, s2. split; [reflexivity|]. split; [split; [by eapply hw_only_trans|done]|].
  unfold cmd_clash. destruct (existsb _ _) eqn:E.
  - right. split; [done|]. by apply existsb_seqZ in E.
  - left. split; [done|]. intros Hex. apply existsb_seqZ in Hex. congruence.
Qed.

Lemma check_for_req_inflight_run s F g m :
  layout_ok (drv s) → table s F → group_at g →
  ∃ r s', check_for_req_inflight g m s = (Done r, s') ∧ reads s F s' ∧
    (r = 0 ∧ ¬ in_flight F (tcs_in_use (drv s)) g m ∨ r = - EBUSY ∧ in_flight F (tcs_in_use (drv s)) g m).
Proof.
  intros HL HT Hg. unfold check_for_req_inflight, kgets. unfold kbind at 1.
  edestruct (for_until_search (reads s F) (tcs_clash F g m) (- EBUSY)
    (set_bits_from (tcs_in_use (drv s)) (tg_offset g) (tg_offset g + tg_num_tcs g)))
    as (r & s' & Hrun & HR' & Hcase); [|by split|].
  2:{ rewrite (kbind_Done _ _ _ _ _ Hrun). eexists _, s'. split; [reflexivity|]. split; [done|].
      unfold in_flight, in_group. destruct Hcase as [[-> Hno]|(-> & i & Hi & Hc)]; simpl.
      - left. split; [done|]. intros (i & Hi & Hb & Hc). by apply (Hno i); [apply elem_of_set_bits_from|].
      - right. split; [done|]. apply elem_of_set_bits_from in Hi as [Hi Hb]. by exists i. }
  intros i s1 Hi HR1. apply elem_of_set_bits_from in Hi as [Hi _]. pose proof HR1 as [Hs1 HT1].
  pose proof Hg as [Hok Hoff Hend Hcap Hmax].
  destruct (read_tcs_reg_run N C s1 F RSC_DRV_CMD_ENABLE i) as (s2 & Hr & Hs2 & HT2);
    [by eapply reads_layout|done|split; [done|lia]|].
  rewrite (kbind_Done _ _ _ _ _ Hr). apply check_cmds_run; [done..|].
  split; [by eapply hw_only_trans|done].
Qed.

Lemma find_free_tcs_run s0 F s g :
  layout_ok (drv s0) → reads s0 F s →
  ∃ r s', find_free_tcs g s = (Done r, s') ∧ reads s0 F s' ∧
    (r = - EBUSY ∨ in_group g r ∧ Z.testbit (tcs_in_use (drv s0)) r = false).
Proof.
  intros HL HR. unfold find_free_tcs, kgets. unfold kbind at 1.
  pose proof HR as [[Hdrv _] _]. rewrite Hdrv.
  pose proof (find_next_zero_bit_spec (tcs_in_use (drv s0)) (tg_offset g + tg_num_tcs g) (tg_offset g))
    as [Hspec _]. set (i := find_next_zero_bit _ _ _) in *.
  destruct (Z.leb_spec (tg_offset g + tg_num_tcs g) i) as [Hge|Hlt].
  { exists (- EBUSY), s. split; [done|]. split; [done|by left]. }
  destruct (read_tcs_reg_reads s0 F s RSC_DRV_STATUS i HL HR) as (v & s1 & Hr1 & HR1).
  rewrite (kbind_Done _ _ _ _ _ Hr1).
  edestruct (poll_total (reads s0 F) 100 (let* sts := read_tcs_reg RSC_DRV_STATUS i in
    kret (if sts =? 0 then None else Some tt))) as (r & s2 & Hr2 & HR2); [|exact HR1|].
  2:{ rewrite (kbind_Done _ _ _ _ _ Hr2). eexists _, s2. split; [reflexivity|]. split; [done|].
      destruct r; [right|by left]. unfold in_group. destruct Hspec; [lia|done]. }
  intros s3 HR3. destruct (read_tcs_reg_reads s0 F s3 RSC_DRV_STATUS i HL HR3) as (v' & s4 & Hr4 & HR4).
  rewrite (kbind_Done _ _ _ _ _ Hr4). eexists _, s4. by split.
Qed.

Lemma claim_tcs_run s F g m :
  layout_ok (drv s) → table s F → group_at g →
  ∃ r s', claim_tcs_for_req g m s = (Done r, s') ∧ reads s F s' ∧
    (r = - EBUSY ∨ in_group g r ∧ Z.testbit (tcs_in_use (drv s)) r = false ∧
       ¬ in_flight F (tcs_in_use (drv s)) g m).
Proof.
  intros HL HT Hg. unfold claim_tcs_for_req.
  destruct (check_for_req_inflight_run s F g m HL HT Hg) as (r & s1 & Hr1 & HR1 & Hcase).
  rewrite (kbind_Done _ _ _ _ _ Hr1). destruct Hcase as [[-> Hno]|[-> _]]; simpl.
  2:{ exists (- EBUSY), s1. split; [done|]. split; [done|by left]. }
  destruct (find_free_tcs_run s F s1 g HL HR1) as (r & s2 & Hr2 & HR2 & Hcase).
  exists r, s2. split; [done|]. split; [done|]. naive_solver.
Qed.

(** *** Programming and triggering the TCS *)

(** The interrupt-enable register is not one of the command registers. *)
Definition irq_apart (d : rsc_drv) : Prop :=
  ∀ c, cfg_valid c → tcs_base d + regs d RSC_DRV_IRQ_ENABLE ≠ cfg_addr d c.

Lemma enable_tcs_irq_run s F i b :
  layout_ok (drv s) → irq_apart (drv s) → table s F →
  ∃ s', enable_tcs_irq i b s = (Done tt, s') ∧ hw_only s s' ∧ table s' F.
Proof.
  intros HL Hirq HT. unfold enable_tcs_irq, kgets. unfold kbind at 1.
  edestruct (readl_reads s F s) as (v & s1 & Hr & HR); [done|by split|].
  rewrite (kbind_Done _ _ _ _ _ Hr). eexists. split; [reflexivity|]. destruct HR as [[Hd Hc] HT1].
  split; [done|]. intros c Hv. simpl. rewrite Hd. rewrite write_keeps; [|by apply HL|by apply Hirq].
  rewrite <- Hd. by apply HT1.
Qed.

Lemma tcs_set_trigger_run s F i :
  layout_ok (drv s) → table s F → 0 ≤ i < N →
  ∃ s', __tcs_set_trigger i true s = (Done tt, s') ∧ hw_only s s' ∧
    table s' (<[Creg RSC_DRV_CONTROL i := Z.lor TCS_AMC_MODE_ENABLE TCS_AMC_MODE_TRIGGER]> F).
Proof.
  intros HL HT Hi. unfold __tcs_set_trigger.
  kstep (read_tcs_reg_run N C); [done|done|by split|].
  assert (layout_ok (drv s0)) as HL0 by (by destruct Hsame as [-> _]).
  kstep (write_tcs_reg_sync_run N C); [done|done|by split|].
  assert (layout_ok (drv s1)) as HL1 by (by destruct Hsame0 as [-> _]).
  kstep (write_tcs_reg_sync_run N C); [done|done|by split|].
  assert (layout_ok (drv s2)) as HL2 by (by destruct Hsame1 as [-> _]).
  kstep (write_tcs_reg_sync_run N C); [done|done|by split|].
  assert (layout_ok (drv s3)) as HL3 by (by destruct Hsame2 as [-> _]).
  destruct (write_tcs_reg_run N C s3 _ RSC_DRV_CONTROL i (Z.lor TCS_AMC_MODE_ENABLE TCS_AMC_MODE_TRIGGER)
    HL3 HT3 ltac:(by split)) as (s4 & Hr & Hsame3 & HT4).
  exists s4. split; [exact Hr|]. split; [eauto 6 using hw_only_trans|].
  eapply table_ext; [exact HT4|]. intros c _. destruct (decide (Creg RSC_DRV_CONTROL i = c)) as [<-|Hne].
  - by rewrite !fn_lookup_insert.
  - by rewrite !fn_lookup_insert_ne.
Qed.

(** TCS [id] holds exactly the commands of [m] and has been triggered. *)
Record tcs_sent (F : cfg → Z) (id : Z) (m : tcs_request) : Prop := {
  ts_enabled b : 0 ≤ b →
    Z.testbit (F (Creg RSC_DRV_CMD_ENABLE id)) b = bool_decide (0 ≤ b < num_cmds m);
  ts_addr i : 0 ≤ i < num_cmds m → F (Ccmd RSC_DRV_CMD_ADDR id i) = cmd_addr (nth_cmd m i);
  ts_data i : 0 ≤ i < num_cmds m → F (Ccmd RSC_DRV_CMD_DATA id i) = cmd_data (nth_cmd m i);
  ts_trigger : F (Creg RSC_DRV_CONTROL id) = Z.lor TCS_AMC_MODE_ENABLE TCS_AMC_MODE_TRIGGER;
}.

(** The part of [rpmh_rsc_send_data] that programs the claimed TCS. *)
Lemma program_tcs_run s F id m b :
  layout_ok (drv s) → irq_apart (drv s) → table s F → 0 ≤ id < N →
  num_cmds m ≤ C → num_cmds m ≤ 32 →
  ∃ s' F', (write_tcs_reg_sync RSC_DRV_CMD_ENABLE id 0 ;;;
            write_tcs_reg_sync RSC_DRV_CMD_WAIT_FOR_CMPL id 0 ;;;
            enable_tcs_irq id b ;;;
            __tcs_buffer_write id 0 m ;;;
            __tcs_set_trigger id true) s = (Done tt, s') ∧
    hw_only s s' ∧ table s' F' ∧ tcs_sent F' id m ∧ (∀ c, cfg_tcs c ≠ id → F' c = F c).
Proof.
  intros HL Hirq HT Hid HC H32.
  kstep (write_tcs_reg_sync_run N C); [done|done|by split|].
  assert (layout_ok (drv s0)) as HL0 by (by destruct Hsame as [-> _]).
  kstep (write_tcs_reg_sync_run N C); [done|done|by split|].
  assert (hw_only s s1) as H01 by (by eapply hw_only_trans).
  kstep enable_tcs_irq_run; [by destruct H01 as [-> _]|by destruct H01 as [-> _]|done|].
  assert (hw_only s s2) as H02 by (by eapply hw_only_trans).
  destruct (tcs_buffer_write_run N C s2 _ m id 0 ltac:(by destruct H02 as [-> _]) HT2 Hid)
    as (s3 & F3 & Hr3 & Hs3 & HT3 & Hother & Hcmds & Hen); [lia..|].
  rewrite (kbind_Done _ _ _ _ _ Hr3). assert (hw_only s s3) as H03 by (by eapply hw_only_trans).
  destruct (tcs_set_trigger_run s3 F3 id ltac:(by destruct H03 as [-> _]) HT3 Hid) as (s4 & Hr4 & Hs4 & HT4).
  eexists s4, _. split; [exact Hr4|]. split; [by eapply hw_only_trans|]. split; [exact HT4|].
  assert (∀ r i, 0 ≤ i < num_cmds m → with_cmds id 0 m (seqZ 0 (num_cmds m))
    (<[Creg RSC_DRV_CMD_WAIT_FOR_CMPL id:=0]> (<[Creg RSC_DRV_CMD_ENABLE id:=0]> F)) (Ccmd r id i) =
    match r with RSC_DRV_CMD_MSGID => msg_msgid m i | RSC_DRV_CMD_ADDR => cmd_addr (nth_cmd m i)
               | RSC_DRV_CMD_DATA => cmd_data (nth_cmd m i) | _ => F (Ccmd r id i) end) as Hw.
  { intros r i Hi. simpl. rewrite bool_decide_true by (rewrite elem_of_seqZ; lia).
    rewrite Z.sub_0_r. destruct r; rewrite ?fn_lookup_insert_ne by done; done. }
  split; [split|].
  - intros i Hi. rewrite fn_lookup_insert_ne, Hen by done.
    by rewrite fn_lookup_insert_ne, fn_lookup_insert, Z.testbit_0_l, Z.add_0_l by done.
  - intros i Hi. by rewrite fn_lookup_insert_ne, Hcmds, Hw by done.
  - intros i Hi. by rewrite fn_lookup_insert_ne, Hcmds, Hw by done.
  - by rewrite fn_lookup_insert.
  - intros c Hc. rewrite fn_lookup_insert_ne, Hother by (intros <-; done).
    rewrite !fn_lookup_insert_ne; [done|intros <-; done|intros <-; done].
Qed.

(** The same block in front of the rest of the function. *)
Lemma program_tcs_then {A} (a b c d e : KM rsc unit) (k : KM rsc A) s s' :
  (a ;;; b ;;; c ;;; d ;;; e) s = (Done tt, s') → (a ;;; b ;;; c ;;; d ;;; e ;;; k) s = k s'.
Proof.
  unfold kbind. destruct (a s) as [[?| | |] s1]; [|done..]. destruct (b s1) as [[?| | |] s2]; [|done..].
  destruct (c s2) as [[?| | |] s3]; [|done..]. destruct (d s3) as [[?| | |] s4]; [|done..].
  by intros ->.
Qed.

Lemma wait_event_now {R} (cond : KM rsc (option R)) s r s1 :
  cond s = (Done r, s1) →
  wait_event [] cond s = match r with Some x => (Done x, s1) | None => (Hang, s1) end.
Proof. intros Hc. simpl. rewrite (kbind_Done _ _ _ _ _ Hc). by destruct r. Qed.

(** The driver state once TCS [id] has been given the request [r]. *)
Definition claimed_drv (c : Z) (type : nat) (id : Z) (r : rpmh_request) (d : rsc_drv) : rsc_drv :=
  let d1 := upd_tcs c type (set_req (Z.to_nat (id - tg_offset (tcs_of d c type))) r) d in
  let d2 := set_tcs_in_use (set_bit id (tcs_in_use d1)) d1 in
  if wait_for_compl (msg r) then d2 else set_tcs_in_use (clear_bit id (tcs_in_use d2)) d2.

(** C34: sending an active request when nobody else runs.  Outside solver mode, either
    no TCS of the group can be claimed, the caller goes to sleep and no command
    register nor driver field has changed; or the request is given a TCS of the
    group that was not in use, no TCS in use had an enabled command for one of
    its resources, that TCS ends up enabled for exactly the commands of the
    message and triggered, every other TCS keeps its registers, and the driver
    records the request and, when its completion is awaited, the TCS as in use. *)
Theorem rpmh_rsc_send_data_claims s F r c (g := tcs_of (drv s) c (get_tcs_for_msg (drv s) (req_state (msg r)) c)) :
  layout_ok (drv s) → irq_apart (drv s) → table s F → group_at g →
  drv_in_solver_mode (drv s) = false → num_cmds (msg r) ≤ tg_ncpt g →
  ∃ o s', rpmh_rsc_send_data [] r c s = (o, s') ∧
    (o = Hang ∧ reads s F s' ∨
     o = Done 0 ∧ ∃ id F',
       in_group g id ∧ Z.testbit (tcs_in_use (drv s)) id = false ∧
       ¬ in_flight F (tcs_in_use (drv s)) g (msg r) ∧
       table s' F' ∧ tcs_sent F' id (msg r) ∧ (∀ x, cfg_tcs x ≠ id → F' x = F x) ∧
       drv s' = claimed_drv c (get_tcs_for_msg (drv s) (req_state (msg r)) c) id r (drv s)).
Proof.
  intros HL Hirq HT Hg Hsolver Hn. unfold rpmh_rsc_send_data, kgets. unfold kbind at 1. rewrite Hsolver.
  set (type := get_tcs_for_msg _ _ _) in *. fold g.
  destruct (claim_tcs_run s F g (msg r) HL HT Hg) as (id & s1 & Hr1 & HR1 & Hcase).
  unfold kbind at 1. erewrite wait_event_now.
  2:{ unfold kbind at 1. rewrite (kbind_Done _ _ _ _ _ Hr1). reflexivity. }
  destruct (Z.leb_spec 0 id) as [Hid|Hid]; [|exists Hang, s1; auto].
  destruct Hcase as [->|(Hin & Hfree & Hno)]; [done|].
  destruct HR1 as [[Hd1 Hc1] HT1]. pose proof Hg as [Hok Hoff Hend Hcap Hmax]. pose proof Hin as Hin'.
  unfold in_group in Hin'. unfold MAX_CMDS_PER_TCS in Hmax.
  unfold mod_drv at 1 2, kmodify. unfold kbind at 1 2. set (s3 := on_drv _ (on_drv _ s1)).
  assert (layout_ok (drv s3) ∧ irq_apart (drv s3) ∧ table s3 F) as (HL3 & Hirq3 & HT3).
  { unfold s3. simpl. rewrite Hd1. split; [destruct HL as [Ha Hs]; split; [exact Ha|exact Hs]|].
    split; [exact Hirq|]. intros x Hx. simpl. rewrite Hd1. rewrite <- (HT1 x Hx), Hd1. done. }
  edestruct (program_tcs_run s3 F id (msg r)) as (s4 & F' & Hrun & [Hd4 _] & HT4 & Hsent & Hother);
    [done..|lia|lia|lia|].
  erewrite program_tcs_then by exact Hrun.
  assert (drv s3 = set_tcs_in_use (set_bit id (tcs_in_use (drv s)))
            (upd_tcs c type (set_req (Z.to_nat (id - tg_offset g)) r) (drv s))) as Hd3
    by (unfold s3; simpl; by rewrite Hd1).
  unfold claimed_drv. fold type g.
  destruct (wait_for_compl (msg r)).
  - eexists _, s4. split; [reflexivity|]. right. split; [done|]. exists id, F'. by rewrite Hd4, Hd3.
  - eexists _, _. split; [reflexivity|]. right. split; [done|]. exists id, F'.
    do 3 (split; [done|]). split; [|by simpl; rewrite Hd4, Hd3].
    intros x Hx. simpl. exact (HT4 x Hx).
Qed.
End send.

(** *** A concrete send *)

Lemma irq_apart_tables d N C :
  regs d ∈ reg_tables → 0 ≤ tcs_distance d → irq_apart N C d.
Proof.
  intros Htbl Hdist c Hc. rewrite cfg_addr_split.
  assert (0 ≤ cfg_tcs c) by (destruct c, Hc as [_ ?]; simpl; lia).
  assert (0 ≤ regs d RSC_DRV_TCS_OFFSET ∧ regs d RSC_DRV_IRQ_ENABLE < cfg_off (regs d) c) as [? ?].
  { unfold reg_tables in Htbl. set_unfold in Htbl.
    destruct c as [r m|r m j]; destruct Hc as [Hr Hc]; destruct r; try discriminate Hr;
      destruct Htbl as [->|[->|[->|[]]]]; simpl; lia. }
  assert (0 ≤ tcs_stride d) by (unfold tcs_stride; destruct (tcs_distance d =? 0); lia). nia.
Qed.

(** The status register of TCS 0 says idle; everything else reads zero. *)
Definition idle_rsc : rsc :=
  mk_rsc mem_device (sample_drv (mk_rpmh_ctrlr false false 0 [] 0 [])) {[0xD28 := 1]} [].
Definition active_req : rpmh_request :=
  mk_rpmh_request (mk_tcs_request RPMH_ACTIVE_ONLY_STATE true 1 [mk_cmd 0x30000 5 0]) (Some 1%nat).

Lemma send_data_witness :
  ∃ s' F', rpmh_rsc_send_data [] active_req 0 idle_rsc = (Done 0, s') ∧
    table 8 16 s' F' ∧ tcs_sent F' 0 (msg active_req).
Proof.
  destruct (rpmh_rsc_send_data_claims 8 16 idle_rsc (λ c, peek (hw idle_rsc) (cfg_addr (drv idle_rsc) c))
              active_req 0) as (o & s' & Hrun & Hcase).
  - split; [|done]. apply reg_table_distinct; [right; left|by left|vm_compute; discriminate].
  - apply irq_apart_tables; [right; left|vm_compute; discriminate].
  - done.
  - split; [split|..]; vm_compute; congruence.
  - reflexivity.
  - vm_compute. discriminate.
  - destruct Hcase as [[-> _]|(-> & id & F' & Hin & _ & _ & HT & Hsent & _ & Hd)].
    { apply (f_equal fst) in Hrun. vm_compute in Hrun. discriminate Hrun. }
    exists s', F'. split; [exact Hrun|]. split; [exact HT|].
    assert (tcs_in_use (drv s') = 1) as Hu.
    { replace s' with (rpmh_rsc_send_data [] active_req 0 idle_rsc).2 by (by rewrite Hrun).
      vm_compute. reflexivity. }
    rewrite Hd in Hu. assert (id = 0) as ->; [|exact Hsent].
    unfold in_group in Hin. assert (0 ≤ id < 2) as Hr by exact Hin.
    assert (id = 0 ∨ id = 1) as [-> | ->] by lia; [done|by vm_compute in Hu].
Defined.

(** ** Solver mode *)

Section solver.
Context (MAX_RPMH_PAYLOAD : Z) `{D : Device} {B : BitmapSearch} {HB : BitmapSearchSpec B}.

(** The group whose TCSes carry the active requests of a channel. *)
Definition active_group (d : rsc_drv) (i : Z) : tcs_group :=
  if tg_num_tcs (tcs_of d i ACTIVE_TCS) =? 0 then tcs_of d i WAKE_TCS else tcs_of d i ACTIVE_TCS.

Lemma ctrlr_not_busy s s' :
  rpmh_rsc_ctrlr_is_busy s = (Done false, s') →
  ∀ i b, 0 ≤ i < MAX_CHANNEL → chn_initialized (channel_of (drv s) i) = true →
    in_group (active_group (drv s) i) b → Z.testbit (tcs_in_use (drv s)) b = false.
Proof.
  unfold rpmh_rsc_ctrlr_is_busy, kgets. unfold kbind at 1. intros Hrun i b Hi Hinit Hb.
  apply kbind_inv in Hrun as (r & s1 & Hloop & Hr). assert (r = None) as ->.
  { destruct r as [[]|]; [done| |done]. apply for_until_Some in Hloop as (j & s2 & s3 & _ & Hbody).
    destruct (negb _); [done|]. destruct (_ <? _); [done|]. destruct (_ =? 0) in Hbody; [done|].
    apply kbind_inv in Hbody as (v & s4 & _ & Hv). by destruct (v =? 0). }
  eapply for_until_None in Hloop as (s2 & s3 & Hbody); [|apply elem_of_seqZ; exact Hi].
  rewrite Hinit in Hbody. cbn [negb] in Hbody. fold (active_group (drv s) i) in Hbody.
  pose proof (find_next_bit_spec (tcs_in_use (drv s))
    (tg_offset (active_group (drv s) i) + tg_num_tcs (active_group (drv s) i))
    (tg_offset (active_group (drv s) i))) as [_ Hbits].
  destruct (Z.ltb_spec (find_next_bit (tcs_in_use (drv s))
    (tg_offset (active_group (drv s) i) + tg_num_tcs (active_group (drv s) i))
    (tg_offset (active_group (drv s) i)))
    (tg_offset (active_group (drv s) i) + tg_num_tcs (active_group (drv s) i))) as [Hlt|Hge]; [done|].
  unfold in_group in Hb. apply Hbits; lia.
Qed.

Lemma mode_solver_set_on s s' trylock :
  Z.land (flags (client (drv s))) SOLVER_PRESENT ≠ 0 →
  rpmh_mode_solver_set false trylock true s = (Done 0, s') →
  drv_in_solver_mode (drv s') = true ∧ ctrlr_in_solver_mode (client (drv s')) = true ∧
  flags (client (drv s')) = flags (client (drv s)) ∧
  ∃ s1, rpmh_rsc_ctrlr_is_busy s = (Done false, s1).
Proof.
  intros Hflag Hrun. unfold rpmh_mode_solver_set, kgets in Hrun. unfold kbind at 1 in Hrun.
  rewrite (proj2 (Z.eqb_neq _ _) Hflag) in Hrun.
  apply kbind_inv in Hrun as (r & s1 & Hset & Hrun).
  pose proof (rsc_mode_solver_keeps client (client (drv s)) trylock true s eq_refl) as Hcl.
  rewrite Hset in Hcl. unfold part_is in Hcl. simpl in Hcl.
  destruct (Z.eqb_spec r 0) as [->|Hr]; [|injection Hrun; done].
  injection Hrun as <-. simpl. rewrite Hcl. unfold rpmh_rsc_mode_solver_set in Hset.
  destruct trylock; [|done]. simpl in Hset. apply kbind_inv in Hset as ([] & s2 & Hbusy & Hset); [done|].
  injection Hset as <-. simpl. eauto.
Qed.

(** solver mode excludes active requests.  When the solver is present and
    [rpmh_mode_solver_set] has switched it on, no TCS that carries active
    requests of an initialised channel was in use at that moment, and from then
    on every active write (blocking, non-blocking or batch), and every attempt to
    send to the controller, answers -EBUSY and changes neither the driver nor
    the hardware. *)
Theorem solver_mode_excludes_active s s' trylock :
  Z.land (flags (client (drv s))) SOLVER_PRESENT ≠ 0 →
  rpmh_mode_solver_set false trylock true s = (Done 0, s') →
  (∀ i b, 0 ≤ i < MAX_CHANNEL → chn_initialized (channel_of (drv s) i) = true →
     in_group (active_group (drv s) i) b → Z.testbit (tcs_in_use (drv s)) b = false) ∧
  (∀ spin env env' compl irq cmd n ns r c,
     rpmh_write_async MAX_RPMH_PAYLOAD false spin env RPMH_ACTIVE_ONLY_STATE cmd n s' = (Done (- EBUSY), s') ∧
     rpmh_write MAX_RPMH_PAYLOAD false irq spin env env' compl RPMH_ACTIVE_ONLY_STATE cmd n s' = (Done (- EBUSY), s') ∧
     rpmh_write_batch MAX_RPMH_PAYLOAD false irq spin env env' compl RPMH_ACTIVE_ONLY_STATE cmd ns s' = (Done (- EBUSY), s') ∧
     rpmh_rsc_send_data env r c s' = (Done (- EBUSY), s')).
Proof.
  intros Hflag Hrun. destruct (mode_solver_set_on _ _ _ Hflag Hrun) as (Hd & Hc & Hf & s1 & Hbusy).
  split; [by eapply ctrlr_not_busy|]. intros spin env env' compl irq cmd n ns r c.
  assert (check_ctrlr_state (client (drv s')) RPMH_ACTIVE_ONLY_STATE = - EBUSY) as Hstate.
  { unfold check_ctrlr_state. rewrite Hf, Hc. simpl. by rewrite (proj2 (Z.eqb_neq _ _) Hflag). }
  unfold rpmh_write_async, rpmh_write, rpmh_write_batch, rpmh_rsc_send_data, kgets.
  do 3 (split; [unfold kbind at 1; by rewrite Hstate|]). unfold kbind at 1. by rewrite Hd.
Qed.
End solver.

Definition solver_rsc : rsc :=
  mk_rsc mem_device (sample_drv (mk_rpmh_ctrlr false false SOLVER_PRESENT [] 0 [])) ∅ [].

Lemma solver_mode_witness :
  ∃ s', rpmh_mode_solver_set false true true solver_rsc = (Done 0, s') ∧
    rpmh_rsc_send_data [] active_req 0 s' = (Done (- EBUSY), s').
Proof.
  exists (rpmh_mode_solver_set false true true solver_rsc).2.
  assert (rpmh_mode_solver_set false true true solver_rsc =
          (Done 0, (rpmh_mode_solver_set false true true solver_rsc).2)) as Hrun by reflexivity.
  split; [exact Hrun|].
  destruct (solver_mode_excludes_active 16 solver_rsc _ true ltac:(vm_compute; discriminate) Hrun) as [_ H].
  exact (proj2 (proj2 (proj2 (H 1%positive [] [] 0%nat false None 0 [] active_req 0)))).
Defined.
