(* ===== verification/RpmhPm.v ===== *)
(** * Power management and configuration of the controller (rpmh-rsc.c, rpmh.c)

    The notifiers that flush the cache when the last CPU or the cluster powers
    down, starting and stopping a controller, and the probe code that carves the
    hardware's TCSes into groups. *)

From S2P Require Import Prelude Kernel CmdDb RpmhRsc RpmhTcs Rpmh RpmhCache RpmhFlush.

Definition EOVERFLOW : Z := 75.
Definition NOTIFY_DONE : Z := 0.
Definition NOTIFY_OK : Z := 1.
Definition NOTIFY_BAD : Z := 0x8002.

Inductive pm_action := CPU_PM_ENTER | CPU_PM_ENTER_FAILED | CPU_PM_EXIT | CPU_PM_OTHER.

(** Field updates of the probe. *)
Definition set_tcs_base (b dist : Z) (d : rsc_drv) : rsc_drv :=
  mk_rsc_drv (base d) b dist (drv_id d) (num_tcs d) (num_channels d) (drv_in_solver_mode d)
    (drv_initialized d) (genpd_notifier d) (cpus_in_pm d) (drv_tcs d) (ch d) (tcs_in_use d) (client d) (regs d).
Definition set_num_tcs (x : Z) (d : rsc_drv) : rsc_drv :=
  mk_rsc_drv (base d) (tcs_base d) (tcs_distance d) (drv_id d) x (num_channels d) (drv_in_solver_mode d)
    (drv_initialized d) (genpd_notifier d) (cpus_in_pm d) (drv_tcs d) (ch d) (tcs_in_use d) (client d) (regs d).
Definition set_num_channels (x : Z) (d : rsc_drv) : rsc_drv :=
  mk_rsc_drv (base d) (tcs_base d) (tcs_distance d) (drv_id d) (num_tcs d) x (drv_in_solver_mode d)
    (drv_initialized d) (genpd_notifier d) (cpus_in_pm d) (drv_tcs d) (ch d) (tcs_in_use d) (client d) (regs d).
Definition set_channel_tcs (c : Z) (l : list tcs_group) (init : bool) (d : rsc_drv) : rsc_drv :=
  set_chs (<[Z.to_nat c := mk_drv_channel l init]> (ch d)) d.

Definition DRV_NUM_TCS_MASK : Z := 0x3F.
Definition DRV_NUM_TCS_SHIFT : Z := 6.
Definition DRV_NCPT_MASK : Z := 0x1F.
Definition DRV_NCPT_SHIFT : Z := 27.

(** The first loop: the (type, count) pairs of "qcom,tcs-config"; [inl] is an error. *)
Fixpoint read_tcs_cfg (cfg : list Z) (idx : list nat) : Z + list (nat * Z) :=
  match idx with
  | [] => inr []
  | i :: idx =>
      match cfg !! (i * 2)%nat with
      | None => inl (- EOVERFLOW)
      | Some type =>
          if TCS_TYPE_NR <=? type then inl (- EINVAL)
          else
            match cfg !! (i * 2 + 1)%nat with
            | None => inl (- EOVERFLOW)
            | Some n =>
                if MAX_TCS_PER_TYPE <? n then inl (- EINVAL)
                else
                  match read_tcs_cfg cfg idx with
                  | inl e => inl e
                  | inr l => inr ((Z.to_nat type, n) :: l)
                  end
            end
      end
  end.

(** The second loop, on the channel's groups and the running count [st];
    [first] is [drv->num_tcs]. *)
Fixpoint assign_groups (first max_tcs ncpt : Z) (cfg : list (nat * Z)) (gs : list tcs_group) (st : Z)
    : Z * list tcs_group * Z :=
  match cfg with
  | [] => (0, gs, st)
  | (type, n) :: cfg =>
      let tcs := gs !!! type in
      if tg_drv tcs then (- EINVAL, gs, st)
      else
        let tcs := mk_tcs_group true type (tg_mask tcs) (tg_offset tcs) n ncpt (tg_req tcs) (tg_slots tcs) in
        let gs := <[type := tcs]> gs in
        if (n =? 0) || (type =? CONTROL_TCS)%nat then assign_groups first max_tcs ncpt cfg gs st
        else if (max_tcs <? st + n) || (32 <=? st + n) then (- EINVAL, gs, st)
        else
          let mask := u32 (Z.shiftl (Z.shiftl 1 n - 1) (st + first)) in
          let gs := <[type := mk_tcs_group true type mask (st + first) n ncpt (tg_req tcs) (tg_slots tcs)]> gs in
          assign_groups first max_tcs ncpt cfg gs (st + n)
  end.

Section pm.
Context (MAX_RPMH_PAYLOAD : Z).
Context `{D : Device} {B : BitmapSearch}.
Abbreviation M := (KM rsc).

(** [cfg] is the content of "qcom,tcs-config"; a channel number outside the
    array of channels is undefined behaviour. *)
Definition rpmh_probe_channel_tcs_config (cfg : list Z) (max_tcs ncpt c : Z) : M Z :=
  if MAX_CHANNEL <=? c then kfail Undef
  else if negb (Z.of_nat (length cfg) =? 2 * TCS_TYPE_NR) then kret (- EINVAL)
  else
    match read_tcs_cfg cfg (seq 0 (Z.to_nat TCS_TYPE_NR)) with
    | inl e => kret e
    | inr pairs =>
        let* d := kgets drv in
        let '(ret, gs, st) := assign_groups (num_tcs d) max_tcs ncpt pairs (chn_tcs (channel_of d c)) 0 in
        mod_drv (set_channel_tcs c gs (chn_initialized (channel_of d c))) ;;;
        if negb (ret =? 0) then kret ret
        else
          let reg := tcs_base d + regs d RSC_DRV_IRQ_ENABLE in
          let* tcs_mask := readl_relaxed reg in
          writel_relaxed (Z.lor tcs_mask (tg_mask (gs !!! ACTIVE_TCS))) reg ;;;
          mod_drv (set_channel_tcs c gs true) ;;;
          mod_drv (λ d, set_num_tcs (num_tcs d + st) d) ;;;
          kret 0
    end.

(** The loop over the "channel" children of the device node. *)
Fixpoint probe_channels (channels : list (list Z)) (max_tcs ncpt c : Z) : M (Z + Z) :=
  match channels with
  | [] => kret (inr c)
  | cfg :: channels =>
      let* ret := rpmh_probe_channel_tcs_config cfg max_tcs ncpt c in
      if negb (ret =? 0) then kret (inl ret) else probe_channels channels max_tcs ncpt (c + 1)
  end.

(** The properties of the device node: "qcom,tcs-offset" or the error of reading
    it, "qcom,tcs-distance" when present, and the channels. *)
Record drv_node := mk_drv_node {
  dt_tcs_offset : Z + Z;
  dt_tcs_distance : option Z;
  dt_channels : list (list Z);
}.

Definition rpmh_probe_tcs_config (np : drv_node) : M Z :=
  match dt_tcs_offset np with
  | inl e => kret e
  | inr offset =>
      mod_drv (λ d, set_tcs_base (base d + offset) (default 0 (dt_tcs_distance np)) d) ;;;
      let* d := kgets drv in
      let* config := readl_relaxed (base d + regs d DRV_PRNT_CHLD_CONFIG) in
      let max_tcs := Z.shiftr (Z.land config (u32 (Z.shiftl DRV_NUM_TCS_MASK (DRV_NUM_TCS_SHIFT * drv_id d))))
                       (DRV_NUM_TCS_SHIFT * drv_id d) in
      let ncpt := Z.shiftr (Z.land config (u32 (Z.shiftl DRV_NCPT_MASK DRV_NCPT_SHIFT))) DRV_NCPT_SHIFT in
      let* r := probe_channels (dt_channels np) max_tcs ncpt 0 in
      match r with
      | inl ret => kret ret
      | inr c => mod_drv (set_num_channels c) ;;; kret 0
      end
  end.

(** [online] and [online'] are the two snapshots of [num_online_cpus ()]. *)
Definition rpmh_rsc_cpu_pm_callback (rpmh_standalone : bool) (spin : positive) (tb : timebase)
    (online online' : Z) (trylock : bool) (action : pm_action) : M Z :=
  match action with
  | CPU_PM_ENTER_FAILED | CPU_PM_EXIT =>
      mod_drv (λ d, set_cpus_in_pm (s32 (cpus_in_pm d - 1)) d) ;;; kret NOTIFY_OK
  | CPU_PM_OTHER => kret NOTIFY_DONE
  | CPU_PM_ENTER =>
      mod_drv (λ d, set_cpus_in_pm (s32 (cpus_in_pm d + 1)) d) ;;;
      let* n := kgets (λ s, cpus_in_pm (drv s)) in
      if n <? online then kret NOTIFY_OK
      else if negb trylock then kret NOTIFY_OK
      else
        let* c := rpmh_rsc_get_channel spin in
        let* bad :=
          (if c <? 0 then kret true
           else
             let* busy := rpmh_rsc_ctrlr_is_busy in
             if (busy : bool) then kret true
             else let* ret := rpmh_flush MAX_RPMH_PAYLOAD rpmh_standalone tb c in kret (negb (ret =? 0))) in
        if (bad : bool) then
          if n <? online' then kret NOTIFY_OK
          else mod_drv (λ d, set_cpus_in_pm (s32 (cpus_in_pm d - 1)) d) ;;; kret NOTIFY_BAD
        else kret NOTIFY_OK
  end.

(** [pre_off] is [action == GENPD_NOTIFY_PRE_OFF]. *)
Definition rpmh_rsc_pd_callback (spin : positive) (tb : timebase) (pre_off : bool) : M Z :=
  let* c := rpmh_rsc_get_channel spin in
  if negb pre_off then kret NOTIFY_OK
  else if c <? 0 then kret NOTIFY_BAD
  else
    let* busy := rpmh_rsc_ctrlr_is_busy in
    if (busy : bool) then kret NOTIFY_BAD
    else
      let* ret := _rpmh_flush MAX_RPMH_PAYLOAD tb c in
      kret (if ret =? 0 then NOTIFY_OK else NOTIFY_BAD).

Definition rpmh_rsc_drv_enable (rpmh_standalone : bool) (spin : positive) (tb : timebase) (enable : bool) : M Z :=
  let* d := kgets drv in
  let* chn_en := readl_relaxed (base d + regs d RSC_DRV_CHN_EN) in
  if chn_en =? (if enable then 1 else 0) then kret (- EINVAL)
  else if enable then
    let* ret := rpmh_flush MAX_RPMH_PAYLOAD rpmh_standalone tb 0 in
    if negb (ret =? 0) then kret ret
    else
      writel_relaxed 1 (base d + regs d RSC_DRV_CHN_EN) ;;;
      rpmh_rsc_switch_channel 0
  else
    let* c := rpmh_rsc_get_channel spin in
    if c <? 0 then kret 0
    else
      let* ret := rpmh_flush MAX_RPMH_PAYLOAD rpmh_standalone tb c in
      if negb (ret =? 0) then kret ret
      else
        let* ret := rpmh_rsc_switch_channel c in
        if negb (ret =? 0) then kret ret
        else
          writel_relaxed 0 (base d + regs d RSC_DRV_CHN_UPDATE) ;;;
          writel_relaxed 0 (base d + regs d RSC_DRV_CHN_EN) ;;;
          kret 0.

Definition drv_start_stop (rpmh_standalone : bool) (spin : positive) (tb : timebase) (enable : bool) : M Z :=
  if rpmh_standalone then kret 0
  else
    let* ret := rpmh_rsc_drv_enable rpmh_standalone spin tb enable in
    if negb (ret =? 0) then rpmh_rsc_debug_channel_busy ;;; kfail Bug else kret ret.
Definition rpmh_drv_start (rpmh_standalone : bool) (spin : positive) (tb : timebase) : M Z :=
  drv_start_stop rpmh_standalone spin tb true.
Definition rpmh_drv_stop (rpmh_standalone : bool) (spin : positive) (tb : timebase) : M Z :=
  drv_start_stop rpmh_standalone spin tb false.

End pm.

(** ** How the probe carves up the TCSes *)

(** A group is empty, or a run of TCSes inside [lo, hi) that its mask describes. *)
Definition placed (lo hi : Z) (g : tcs_group) : Prop :=
  (∀ m, in_group g m → lo ≤ m < hi) ∧
  (∀ b, 0 ≤ b → Z.testbit (tg_mask g) b = bool_decide (in_group g b)).

Definition hw_type (t : nat) : Prop := (t < 5)%nat ∧ t ≠ CONTROL_TCS.

Record groups_inv (lo hi : Z) (gs : list tcs_group) : Prop := {
  gi_len : length gs = 5%nat;
  gi_placed t : hw_type t → placed lo hi (gs !!! t);
  gi_disj t t' m : hw_type t → hw_type t' → t ≠ t' → in_group (gs !!! t) m → ¬ in_group (gs !!! t') m;
  gi_fresh t : hw_type t → tg_drv (gs !!! t) = false → tg_num_tcs (gs !!! t) = 0 ∧ tg_mask (gs !!! t) = 0;
}.

Lemma placed_empty lo hi g : tg_num_tcs g = 0 → tg_mask g = 0 → placed lo hi g.
Proof.
  intros Hn Hm. unfold placed, in_group. rewrite Hn, Hm. split; [lia|].
  intros b Hb. rewrite Z.testbit_0_l, bool_decide_false by lia. done.
Qed.

Lemma placed_mono lo hi lo' hi' g : placed lo hi g → lo' ≤ lo → hi ≤ hi' → placed lo' hi' g.
Proof. intros [Hr Hm] H1 H2. split; [|done]. intros m Hin. specialize (Hr m Hin). lia. Qed.

Lemma run_mask n st b :
  0 ≤ n → 0 ≤ st → st + n ≤ 32 → 0 ≤ b →
  Z.testbit (u32 (Z.shiftl (Z.shiftl 1 n - 1) st)) b = bool_decide (st ≤ b < st + n).
Proof.
  intros Hn Hst H32 Hb. unfold u32.
  replace (Z.shiftl 1 n - 1) with (Z.ones n) by (rewrite Z.ones_equiv, Z.shiftl_1_l; lia).
  destruct (decide (b < 32)) as [Hlt|Hge].
  - rewrite Z.mod_pow2_bits_low, Z.shiftl_spec by lia.
    destruct (decide (st ≤ b < st + n)) as [Hin|Hout].
    + rewrite bool_decide_true by done. apply Z.ones_spec_low. lia.
    + rewrite bool_decide_false by done. destruct (decide (b < st)); [apply Z.testbit_neg_r; lia|].
      apply Z.ones_spec_high. lia.
  - rewrite Z.mod_pow2_bits_high by lia. rewrite bool_decide_false by lia. done.
Qed.

(** Replacing one group by an empty one or by the next run of TCSes. *)
Lemma groups_inv_insert lo hi hi' gs type g :
  groups_inv lo hi gs → (type < 5)%nat → hi ≤ hi' → tg_drv g = true →
  (type ≠ CONTROL_TCS → placed lo hi' g ∧ ∀ m, in_group g m → hi ≤ m) →
  groups_inv lo hi' (<[type := g]> gs).
Proof.
  intros [Hlen Hpl Hdis Hfr] Ht Hhi Hdrv Hg.
  assert (∀ t, (t < 5)%nat → <[type := g]> gs !!! t = if decide (t = type) then g else gs !!! t) as Hlook.
  { intros t Ht'. case_decide as Heq.
    - subst. apply list_lookup_total_insert_eq. lia.
    - by apply list_lookup_total_insert_ne. }
  split.
  - by rewrite length_insert.
  - intros t [Ht' Hc]. rewrite Hlook by done. case_decide as Heq; [subst; by apply Hg|].
    eapply placed_mono; [by apply Hpl|lia|done].
  - intros t t' m [Ht1 Hc1] [Ht2 Hc2] Hne. rewrite !Hlook by done.
    case_decide as H1; case_decide as H2; [congruence| | |by apply Hdis].
    + intros Hin Hin'. subst. pose proof (proj2 (Hg Hc1) m Hin). pose proof (proj1 (Hpl t' (conj Ht2 Hc2)) m Hin'). lia.
    + intros Hin Hin'. subst. pose proof (proj2 (Hg Hc2) m Hin'). pose proof (proj1 (Hpl t (conj Ht1 Hc1)) m Hin). lia.
  - intros t [Ht' Hc]. rewrite Hlook by done. case_decide; [congruence|by apply Hfr].
Qed.

Definition pair_ok (p : nat * Z) : Prop := (p.1 < 5)%nat ∧ 0 ≤ p.2 ≤ MAX_TCS_PER_TYPE.

Lemma assign_groups_inv lo max_tcs ncpt cfg gs st gs' st' :
  groups_inv lo (lo + st) gs → 0 ≤ lo → 0 ≤ st → lo + st + 3 * Z.of_nat (length cfg) ≤ 32 →
  Forall pair_ok cfg → assign_groups lo max_tcs ncpt cfg gs st = (0, gs', st') →
  groups_inv lo (lo + st') gs' ∧ st ≤ st' ≤ st + 3 * Z.of_nat (length cfg).
Proof.
  intros Hinv Hlo Hst Hroom Hcfg. revert gs st Hinv Hst Hroom.
  induction Hcfg as [|[type n] cfg [Ht Hn] _ IH]; intros gs st Hinv Hst Hroom Hrun; simpl in Hrun.
  { injection Hrun as <- <-. simpl. split; [done|lia]. }
  simpl in Ht, Hn. change MAX_TCS_PER_TYPE with 3 in Hn. cbn [length] in *. rewrite Nat2Z.inj_succ in *.
  destruct (tg_drv (gs !!! type)) eqn:Hdrv; [done|].
  assert (type ≠ CONTROL_TCS → tg_mask (gs !!! type) = 0) as Hmask.
  { intros Hc. eapply gi_fresh; [done|by split|done]. }
  destruct ((n =? 0) || (type =? CONTROL_TCS)%nat) eqn:Hskip.
  - apply IH in Hrun; [destruct Hrun; split; [done|lia]| |lia|lia].
    apply (groups_inv_insert lo (lo + st)); [done|done|lia|done|]. intros Hc.
    apply orb_true_iff in Hskip as [->%Z.eqb_eq|He%Nat.eqb_eq]; [|done].
    split; [apply placed_empty; [done|by apply Hmask]|]. unfold in_group. simpl. lia.
  - apply orb_false_iff in Hskip as [Hn0%Z.eqb_neq Hc%Nat.eqb_neq].
    destruct ((max_tcs <? st + n) || (32 <=? st + n)); [done|].
    rewrite list_insert_insert_eq in Hrun.
    apply IH in Hrun; [destruct Hrun; split; [done|lia]| |lia|lia].
    apply (groups_inv_insert lo (lo + st)); [done|done|lia|done|]. intros _.
    split; [split|]; unfold in_group; simpl; [lia| |lia].
    intros b Hb. by apply run_mask; lia.
Qed.

Lemma read_tcs_cfg_ok cfg idx l :
  Forall (λ z, 0 ≤ z) cfg → read_tcs_cfg cfg idx = inr l → Forall pair_ok l ∧ length l = length idx.
Proof.
  intros Hcfg. revert l. induction idx as [|i idx IH]; intros l Hrun; simpl in Hrun; [by simplify_eq|].
  destruct (cfg !! _) as [type|] eqn:E1; [|done]. destruct (Z.leb_spec TCS_TYPE_NR type) as [|Ht]; [done|].
  destruct (cfg !! (_ + 1)%nat) as [n|] eqn:E2; [|done]. destruct (Z.ltb_spec MAX_TCS_PER_TYPE n) as [|Hn]; [done|].
  destruct (read_tcs_cfg cfg idx) as [|l'] eqn:E3; [done|]. simplify_eq.
  destruct (IH l' eq_refl) as [HF Hlen]. simpl. split; [|by rewrite Hlen]. constructor; [|done].
  rewrite list.Forall_forall in Hcfg. unfold TCS_TYPE_NR in Ht.
  pose proof (Hcfg _ (list_elem_of_lookup_2 _ _ _ E1)). pose proof (Hcfg _ (list_elem_of_lookup_2 _ _ _ E2)).
  split; simpl; lia.
Qed.

(** The TCSes of the first [k] channels are carved up; the other channels are untouched. *)
Record carved (d : rsc_drv) (k : Z) : Prop := {
  cv_len : length (ch d) = 2%nat;
  cv_count : 0 ≤ num_tcs d ≤ 15 * k;
  cv_init i : 0 ≤ i < k → chn_initialized (channel_of d i) = true;
  cv_placed i t : 0 ≤ i < k → hw_type t → placed 0 (num_tcs d) (tcs_of d i t);
  cv_disj i t i' t' m : 0 ≤ i < k → 0 ≤ i' < k → hw_type t → hw_type t' → (i, t) ≠ (i', t') →
    in_group (tcs_of d i t) m → ¬ in_group (tcs_of d i' t') m;
  cv_rest i : k ≤ i < MAX_CHANNEL → channel_of d i = zero_drv_channel;
}.

Lemma channel_of_set c l b d i :
  0 ≤ c < Z.of_nat (length (ch d)) → 0 ≤ i →
  channel_of (set_channel_tcs c l b d) i =
  if decide (i = c) then mk_drv_channel l b else channel_of d i.
Proof.
  intros Hc Hi. unfold channel_of, set_channel_tcs. simpl. case_decide as H.
  - subst. apply list_lookup_total_insert_eq. lia.
  - apply list_lookup_total_insert_ne. lia.
Qed.

Lemma groups_inv_zero lo : groups_inv lo lo (chn_tcs zero_drv_channel).
Proof.
  assert (∀ t, hw_type t → chn_tcs zero_drv_channel !!! t = zero_tcs_group) as Hz.
  { intros t [Ht _]. apply list_lookup_total_correct. by apply lookup_replicate_2. }
  split; [done|..].
  - intros t Ht. rewrite Hz by done. by apply placed_empty.
  - intros t t' m Ht Ht' _ Hin. rewrite Hz in Hin by done. unfold in_group in Hin. simpl in Hin. lia.
  - intros t Ht _. by rewrite Hz.
Qed.

Lemma carved_step d k gs st ncpt max_tcs pairs :
  carved d k → 0 ≤ k < MAX_CHANNEL → Forall pair_ok pairs → length pairs = 5%nat →
  assign_groups (num_tcs d) max_tcs ncpt pairs (chn_tcs (channel_of d k)) 0 = (0, gs, st) →
  carved (set_num_tcs (num_tcs d + st) (set_channel_tcs k gs true d)) (k + 1).
Proof.
  intros [Hlen Hcnt Hinit Hpl Hdis Hrest] Hk Hpairs H5 Hrun. change MAX_CHANNEL with 2 in *.
  rewrite Hrest in Hrun by lia.
  apply assign_groups_inv in Hrun as [[Hgl Hgp Hgd _] Hst];
    [|rewrite Z.add_0_r; apply groups_inv_zero|lia|lia|lia|done].
  set (d' := set_num_tcs _ _).
  assert (∀ i, 0 ≤ i → channel_of d' i = if decide (i = k) then mk_drv_channel gs true else channel_of d i) as Hch.
  { intros i Hi. apply channel_of_set; lia. }
  assert (∀ i t, 0 ≤ i → tcs_of d' i t = if decide (i = k) then gs !!! t else tcs_of d i t) as Htcs.
  { intros i t Hi. unfold tcs_of. rewrite Hch by done. by case_decide. }
  split.
  - simpl. by rewrite length_insert.
  - simpl. lia.
  - intros i Hi. rewrite Hch by lia. case_decide; [done|]. apply Hinit. lia.
  - intros i t Hi Ht. rewrite Htcs by lia. simpl. case_decide.
    + eapply placed_mono; [by apply Hgp|lia|lia].
    + eapply placed_mono; [apply Hpl; [lia|done]|lia|lia].
  - intros i t i' t' m Hi Hi' Ht Ht' Hne. rewrite !Htcs by lia.
    case_decide as H1; case_decide as H2; intros Hin Hin'.
    + subst. eapply Hgd; [exact Ht|exact Ht'|congruence|done|done].
    + pose proof (proj1 (Hgp t Ht) m Hin). pose proof (proj1 (Hpl i' t' ltac:(lia) Ht') m Hin'). lia.
    + pose proof (proj1 (Hgp t' Ht') m Hin'). pose proof (proj1 (Hpl i t ltac:(lia) Ht) m Hin). lia.
    + eapply (Hdis i t i' t'); [lia|lia|done..].
  - intros i Hi. change MAX_CHANNEL with 2 in Hi. rewrite Hch by lia. case_decide; [lia|]. apply Hrest. lia.
Qed.

Section probe.
Context `{D : Device}.

Lemma probe_channel_carved cfg max_tcs ncpt k s s' :
  carved (drv s) k → 0 ≤ k → Forall (λ z, 0 ≤ z) cfg →
  rpmh_probe_channel_tcs_config cfg max_tcs ncpt k s = (Done 0, s') →
  k < MAX_CHANNEL ∧ carved (drv s') (k + 1) ∧ drv_tcs (drv s') = drv_tcs (drv s).
Proof.
  intros Hcv Hk Hcfg Hrun. unfold rpmh_probe_channel_tcs_config in Hrun.
  destruct (Z.leb_spec MAX_CHANNEL k) as [|Hlt]; [done|]. split; [done|].
  destruct (negb _) in Hrun; [done|].
  destruct (read_tcs_cfg _ _) as [e|pairs] eqn:Ep.
  { injection Hrun as -> _. exfalso. revert Ep. generalize (seq 0 (Z.to_nat TCS_TYPE_NR)). intros l.
    induction l as [|i l IH]; simpl; [done|]. repeat (case_match; try done). }
  apply read_tcs_cfg_ok in Ep as [Hpairs H5]; [|done].
  unfold kgets in Hrun. unfold kbind at 1 in Hrun.
  destruct (assign_groups _ _ _ _ _ _) as [[ret gs] st] eqn:Ea.
  unfold mod_drv at 1, kmodify at 1 in Hrun. unfold kbind at 1 in Hrun.
  destruct (Z.eqb_spec ret 0) as [->|Hr]; [|injection Hrun; done]. simpl in Hrun.
  unfold kbind, readl_relaxed, writel_relaxed, mod_drv, kmodify, kret in Hrun.
  destruct (readl _ _) as [v h] in Hrun. injection Hrun as <-. simpl.
  split; [|done]. pose proof (carved_step _ _ _ _ _ _ _ Hcv (conj Hk Hlt) Hpairs H5 Ea) as Hc.
  unfold set_channel_tcs in *. simpl in *. by rewrite list_insert_insert_eq.
Qed.

Lemma probe_channels_carved channels max_tcs ncpt k s s' c :
  carved (drv s) k → 0 ≤ k ≤ MAX_CHANNEL → Forall (Forall (λ z, 0 ≤ z)) channels →
  probe_channels channels max_tcs ncpt k s = (Done (inr c), s') →
  carved (drv s') c ∧ c = k + Z.of_nat (length channels) ∧ c ≤ MAX_CHANNEL ∧
  drv_tcs (drv s') = drv_tcs (drv s).
Proof.
  intros Hcv Hk Hch. revert k s Hcv Hk.
  induction Hch as [|cfg channels Hcfg _ IH]; intros k s Hcv Hk Hrun; simpl in Hrun.
  { injection Hrun as <- <-. simpl. split; [done|]. split; [lia|]. split; [lia|done]. }
  apply kbind_inv in Hrun as (ret & s1 & Hone & Hrun).
  destruct (Z.eqb_spec ret 0) as [->|]; [|done]. simpl in Hrun.
  apply probe_channel_carved in Hone as (Hlt & Hcv1 & Ht1); [|done|lia|done].
  apply IH in Hrun as (? & -> & ? & ->); [|done|lia]. cbn [length].
  split; [done|]. split; [lia|]. split; [lia|done].
Qed.

Lemma probe_channels_error channels max_tcs ncpt k s s' ret :
  probe_channels channels max_tcs ncpt k s = (Done (inl ret), s') → ret ≠ 0.
Proof.
  revert k s. induction channels as [|cfg channels IH]; intros k s Hrun; [done|].
  apply kbind_inv in Hrun as (r & s1 & _ & Hrun).
  destruct (Z.eqb_spec r 0) as [->|Hr]; simpl in Hrun; [by eapply IH|by injection Hrun as <- _].
Qed.

(** the probe carves the TCSes correctly.  From a zeroed controller, a successful
    [rpmh_probe_tcs_config] has seen at most two channels and marked each of
    them initialised; every TCS of a sleep, wake, active or fast-path group of any
    channel is one of the first [num_tcs] (at most 30) TCSes, the groups of all
    types and channels are pairwise disjoint, and the mask of each group has
    exactly the bits of its TCSes. *)
Theorem rpmh_probe_tcs_config_carves np s s' :
  carved (drv s) 0 → Forall (Forall (λ z, 0 ≤ z)) (dt_channels np) → dt_tcs_offset np ≠ inl 0 →
  rpmh_probe_tcs_config np s = (Done 0, s') →
  num_channels (drv s') = Z.of_nat (length (dt_channels np)) ∧ num_channels (drv s') ≤ MAX_CHANNEL ∧
  carved (drv s') (num_channels (drv s')) ∧ drv_tcs (drv s') = drv_tcs (drv s).
Proof.
  intros Hcv Hch Hoff Hrun. unfold rpmh_probe_tcs_config in Hrun.
  destruct (dt_tcs_offset np) as [e|offset]; [by injection Hrun as -> _|].
  unfold mod_drv at 1, kmodify at 1, kgets in Hrun. unfold kbind at 1 2 in Hrun.
  apply kbind_inv in Hrun as (config & s1 & Hread & Hrun).
  apply kbind_inv in Hrun as ([ret|c] & s2 & Hloop & Hrun).
  { injection Hrun as -> <-. by apply probe_channels_error in Hloop. }
  injection Hrun as <-.
  assert (drv s1 = set_tcs_base (base (drv s) + offset) (default 0 (dt_tcs_distance np)) (drv s)) as Hd1.
  { unfold readl_relaxed in Hread. destruct (readl _ _). by injection Hread as <- <-. }
  apply probe_channels_carved in Hloop as (Hc & -> & Hle & Ht); [| |done|done].
  - simpl. rewrite Ht, Hd1. split; [lia|]. split; [lia|]. split; [|done]. by destruct Hc.
  - rewrite Hd1. by destruct Hcv.
Qed.
End probe.

(** A fresh controller whose hardware reports 12 TCSes of 16 commands. *)
Definition fresh_drv : rsc_drv :=
  mk_rsc_drv 0 0 0 0 0 0 false false false 0 (replicate 5 zero_tcs_group)
    [zero_drv_channel; zero_drv_channel] 0 (mk_rpmh_ctrlr false false 0 [] 0 []) rpmh_rsc_reg_offset_ver_3_0.
Definition fresh_rsc : rsc := mk_rsc mem_device fresh_drv {[0xC := Z.lor (Z.shiftl 16 27) 12]} [].
(** active 2, sleep 3, wake 3, control 1, no fast path *)
Definition sample_node : drv_node := mk_drv_node (inr 0xD00) None [[2; 2; 0; 3; 1; 3; 3; 1; 4; 0]].

Lemma fresh_carved : carved fresh_drv 0.
Proof.
  split; [done|simpl; lia|lia|lia|lia|]. intros i Hi. change MAX_CHANNEL with 2 in Hi.
  assert (i = 0 ∨ i = 1) as [-> | ->] by lia; reflexivity.
Qed.

Lemma probe_carves_witness :
  ∃ s', rpmh_probe_tcs_config sample_node fresh_rsc = (Done 0, s') ∧ carved (drv s') 1 ∧
    tg_mask (tcs_of (drv s') 0 WAKE_TCS) = 0xE0.
Proof.
  exists (rpmh_probe_tcs_config sample_node fresh_rsc).2.
  assert (rpmh_probe_tcs_config sample_node fresh_rsc =
          (Done 0, (rpmh_probe_tcs_config sample_node fresh_rsc).2)) as Hrun by reflexivity.
  split; [exact Hrun|].
  destruct (rpmh_probe_tcs_config_carves sample_node fresh_rsc _ fresh_carved
    ltac:(repeat constructor; discriminate) ltac:(discriminate) Hrun) as (_ & _ & H & _).
  split; [exact H|reflexivity].
Defined.

(** ** The last CPU going down *)

Section last_cpu.
Context (MAX_RPMH_PAYLOAD : Z) `{D : Device} {B : BitmapSearch}.

Lemma flush_cached_error c p s s' r :
  flush_cached MAX_RPMH_PAYLOAD c p s = (Done (Some r), s') → r ≠ 0.
Proof.
  unfold flush_cached. destruct (negb _); [done|]. intros (r1 & s1 & _ & Hrun)%kbind_inv.
  destruct (Z.eqb_spec r1 0) as [->|]; simpl in Hrun; [|by injection Hrun as <- _].
  apply kbind_inv in Hrun as (r2 & s2 & _ & Hrun). destruct (Z.eqb_spec r2 0); simpl in Hrun; [done|by injection Hrun as <- _].
Qed.

Lemma flush_zero_clean tb c s s' :
  rpmh_flush MAX_RPMH_PAYLOAD false tb c s = (Done 0, s') → dirty (client (drv s')) = false.
Proof.
  unfold rpmh_flush. rewrite flush_run. destruct (dirty (client (drv s))) eqn:Hd; simpl.
  - intros (err & s1 & Hbody & Hrun)%kbind_inv. destruct err as [ret|].
    + injection Hrun as -> <-. exfalso. unfold flush_body in Hbody.
      apply kbind_inv in Hbody as (u & s2 & _ & Hbody). apply kbind_inv in Hbody as (ret & s3 & _ & Hbody).
      destruct (Z.eqb_spec ret 0); simpl in Hbody; [|by injection Hbody].
      apply for_until_Some in Hbody as (p & s4 & s5 & _ & Hp). by apply flush_cached_error in Hp.
    + unfold mod_ctrlr, mod_drv, kmodify in Hrun. unfold kbind at 1 in Hrun. set (s2 := on_drv _ s1) in Hrun.
      apply kbind_inv in Hrun as (u & s3 & Hw & Hrun). injection Hrun as <-.
      pose proof (write_next_wakeup_keeps client (client (drv s2)) tb s2 eq_refl) as Hk.
      rewrite Hw in Hk. unfold part_is in Hk. simpl in Hk. by rewrite Hk.
  - intros (u & s1 & Hw & Hrun)%kbind_inv. injection Hrun as <-.
    pose proof (write_next_wakeup_keeps client (client (drv s)) tb s eq_refl) as Hk.
    rewrite Hw in Hk. unfold part_is in Hk. simpl in Hk. by rewrite Hk.
Qed.

Lemma flush_cpus tb c x : preserves (part_is cpus_in_pm x) (rpmh_flush MAX_RPMH_PAYLOAD false tb c).
Proof.
  unfold rpmh_flush, _rpmh_flush, flush_batch, flush_cached, send_single, mod_ctrlr. kpreserve.
  by apply mod_drv_keeps.
Qed.

(** The part under the lock: [bad] tells whether the flush could not be done. *)
Definition flush_attempt (spin : positive) (tb : timebase) : KM rsc bool :=
  let* c := rpmh_rsc_get_channel spin in
  if c <? 0 then kret true
  else
    let* busy := rpmh_rsc_ctrlr_is_busy in
    if (busy : bool) then kret true
    else let* ret := rpmh_flush MAX_RPMH_PAYLOAD false tb c in kret (negb (ret =? 0)).

Lemma flush_attempt_spec spin tb s bad s' :
  flush_attempt spin tb s = (Done bad, s') →
  cpus_in_pm (drv s') = cpus_in_pm (drv s) ∧ (bad = false → dirty (client (drv s')) = false).
Proof.
  intros Hrun. split.
  - cut (preserves (part_is cpus_in_pm (cpus_in_pm (drv s))) (flush_attempt spin tb)).
    { intros Hp. specialize (Hp s eq_refl). by rewrite Hrun in Hp. }
    unfold flush_attempt. pose proof flush_cpus. kpreserve.
  - intros ->. unfold flush_attempt in Hrun. apply kbind_inv in Hrun as (c & s1 & _ & Hrun).
    destruct (c <? 0); [done|]. apply kbind_inv in Hrun as (busy & s2 & _ & Hrun).
    destruct busy; [done|]. apply kbind_inv in Hrun as (ret & s3 & Hf & Hrun).
    destruct (Z.eqb_spec ret 0) as [->|]; [|done]. injection Hrun as <-. by eapply flush_zero_clean.
Qed.

(** the last CPU flushes.  When [rpmh_rsc_cpu_pm_callback] lets a CPU power down,
    the CPU is counted, and either it was not the last one (another CPU is online
    by one of the two snapshots, or holds the lock) or the cache has been flushed
    and is clean; when it refuses, the CPU is not counted and no other CPU was
    seen. *)
Theorem cpu_pm_callback_last_cpu spin tb online online' trylock s r s' :
  0 ≤ cpus_in_pm (drv s) < INT_MAX →
  rpmh_rsc_cpu_pm_callback MAX_RPMH_PAYLOAD false spin tb online online' trylock CPU_PM_ENTER s = (Done r, s') →
  let n := cpus_in_pm (drv s) + 1 in
  r = NOTIFY_OK ∧ cpus_in_pm (drv s') = n ∧
    (n < online ∨ n < online' ∨ trylock = false ∨ dirty (client (drv s')) = false) ∨
  r = NOTIFY_BAD ∧ cpus_in_pm (drv s') = cpus_in_pm (drv s) ∧ online ≤ n ∧ online' ≤ n.
Proof.
  intros Hn Hrun n. unfold INT_MAX in Hn. unfold rpmh_rsc_cpu_pm_callback, mod_drv, kmodify, kgets in Hrun.
  unfold kbind at 1 2 in Hrun. simpl in Hrun. rewrite s32_small in Hrun by lia. fold n in Hrun.
  destruct (Z.ltb_spec n online) as [|Hon]; [injection Hrun as <- <-; simpl; rewrite s32_small by lia; auto 8|].
  destruct trylock; simpl in Hrun; [|injection Hrun as <- <-; simpl; rewrite s32_small by lia; auto 8].
  set (s1 := on_drv _ s) in Hrun.
  assert (cpus_in_pm (drv s1) = n) as Hn1 by (simpl; apply s32_small; lia).
  assert (∃ bad s2, flush_attempt spin tb s1 = (Done bad, s2) ∧
    (if bad : bool then
       if n <? online' then kret NOTIFY_OK
       else mod_drv (λ d, set_cpus_in_pm (s32 (cpus_in_pm d - 1)) d) ;;; kret NOTIFY_BAD
     else kret NOTIFY_OK) s2 = (Done r, s')) as (bad & s2 & Hatt & Hrest).
  { apply kbind_inv in Hrun as (c & s2 & Hc & Hrun). apply kbind_inv in Hrun as (bad & s3 & Hbad & Hrun).
    exists bad, s3. split; [|done]. unfold flush_attempt. by rewrite (kbind_Done _ _ _ _ _ Hc). }
  apply flush_attempt_spec in Hatt as [Hcpu Hclean]. rewrite Hn1 in Hcpu.
  destruct bad; [|injection Hrest as <- <-; rewrite Hcpu; auto 8].
  destruct (Z.ltb_spec n online'); [injection Hrest as <- <-; rewrite Hcpu; auto 8|].
  injection Hrest as <- <-. right. split; [done|]. simpl. rewrite Hcpu, s32_small by lia. lia.
Qed.
End last_cpu.

Lemma last_cpu_witness :
  ∃ s', rpmh_rsc_cpu_pm_callback 16 false 1 sample_tb 1 1 true CPU_PM_ENTER sample_rsc = (Done NOTIFY_OK, s') ∧
    dirty (client (drv s')) = false.
Proof.
  exists (rpmh_rsc_cpu_pm_callback 16 false 1 sample_tb 1 1 true CPU_PM_ENTER sample_rsc).2.
  assert (rpmh_rsc_cpu_pm_callback 16 false 1 sample_tb 1 1 true CPU_PM_ENTER sample_rsc =
    (Done NOTIFY_OK, (rpmh_rsc_cpu_pm_callback 16 false 1 sample_tb 1 1 true CPU_PM_ENTER sample_rsc).2))
    as Hrun by (vm_compute; reflexivity).
  split; [exact Hrun|].
  destruct (cpu_pm_callback_last_cpu 16 1 sample_tb 1 1 true sample_rsc _ _ ltac:(vm_compute; split; congruence) Hrun)
    as [(_ & _ & [H|[H|[H|H]]])|(H & _)]; [by vm_compute in H|by vm_compute in H|discriminate H|exact H|discriminate H].
Defined.
