(* ===== verification/Smem.v ===== *)
(** * The shared memory manager (drivers/soc/qcom/smem.c)

    SMEM is a heap that several processors share and that only grows.  Items live
    in partitions: a partition starts with a header and holds two lists of items,
    the uncached ones from the start and the cached ones from the end.  The bytes of
    a mapping are the state, so that whatever another processor left there is what
    the code reads; pointers are 64-bit addresses and an access outside the mapping
    is [Undef].  The mapping of a partition, of the global heap and of the partition
    table are separate.  The hardware spinlock is taken around whole operations; its
    return code is an argument.  [devm_ioremap_wc] and the device tree are arguments
    of the probe. *)

From S2P Require Import Prelude Memory.

Definition EEXIST : Z := 17.
Definition ENXIO : Z := 6.
Definition ENOENT : Z := 2.
Definition ENOSPC : Z := 28.

(** ** Constants and layout *)

Definition SMEM_MASTER_SBL_VERSION_INDEX : Z := 7.
Definition SMEM_GLOBAL_HEAP_VERSION : Z := 11.
Definition SMEM_GLOBAL_PART_VERSION : Z := 12.
Definition SMEM_ITEM_LAST_FIXED : Z := 8.
Definition SMEM_ITEM_COUNT : Z := 512.
Definition SMEM_HOST_APPS : Z := 0.
Definition SMEM_GLOBAL_HOST : Z := 0xfffe.
Definition SMEM_HOST_COUNT : Z := 25.
Definition AUX_BASE_MASK : Z := 0xfffffffc.
Definition SMEM_PRIVATE_CANARY : Z := 0xa5a5.
Definition SMEM_PTABLE_MAGIC : list Z := [0x24; 0x54; 0x4f; 0x43].
Definition SMEM_PART_MAGIC : list Z := [0x24; 0x50; 0x52; 0x54].
Definition SMEM_INFO_MAGIC : list Z := [0x53; 0x49; 0x49; 0x49].
Definition SZ_4K : Z := 4096.

(** Offsets of the fields of the packed structures. *)
Definition sizeof_private_entry : Z := 16.
Definition e_canary : Z := 0.
Definition e_item : Z := 2.
Definition e_size : Z := 4.
Definition e_padding_data : Z := 8.
Definition e_padding_hdr : Z := 10.

Definition sizeof_partition_header : Z := 32.
Definition ph_magic : Z := 0.
Definition ph_host0 : Z := 4.
Definition ph_host1 : Z := 6.
Definition ph_size : Z := 8.
Definition ph_offset_free_uncached : Z := 12.
Definition ph_offset_free_cached : Z := 16.

Definition h_version : Z := 64.
Definition h_initialized : Z := 192.
Definition h_free_offset : Z := 196.
Definition h_available : Z := 200.
Definition h_reserved : Z := 204.
Definition h_toc : Z := 208.
Definition sizeof_global_entry : Z := 16.
Definition g_allocated : Z := 0.
Definition g_offset : Z := 4.
Definition g_size : Z := 8.
Definition g_aux_base : Z := 12.

Definition pt_magic : Z := 0.
Definition pt_version : Z := 4.
Definition pt_num_entries : Z := 8.
Definition pt_entry : Z := 32.
Definition sizeof_ptable_entry : Z := 48.
Definition pe_offset : Z := 0.
Definition pe_size : Z := 4.
Definition pe_host0 : Z := 12.
Definition pe_host1 : Z := 14.
Definition pe_cacheline : Z := 16.
Definition si_magic : Z := 0.
Definition si_num_items : Z := 16.

(** ** Mappings *)

Record mapping := mk_map { m_base : Z; m_bytes : list Z }.

Definition ld (n addr : Z) : KM mapping Z := λ m,
  match read_le n (m_bytes m) (addr - m_base m) with Some z => (Done z, m) | None => (Undef, m) end.
Definition ld_bytes (n addr : Z) : KM mapping (list Z) := λ m,
  match subrange (addr - m_base m) n (m_bytes m) with Some bs => (Done bs, m) | None => (Undef, m) end.
Definition st (n : nat) (addr z : Z) : KM mapping unit := λ m,
  let off := addr - m_base m in
  if bool_decide (0 ≤ off ∧ off + Z.of_nat n ≤ zlen (m_bytes m))
  then (Done tt, mk_map (m_base m) (put off (le_encode n z) (m_bytes m))) else (Undef, m).

Definition le16 (addr : Z) := ld 2 addr.
Definition le32 (addr : Z) := ld 4 addr.

(** [ALIGN] on [size_t]; the mask of an alignment of 0 is all ones. *)
Definition ALIGN (x a : Z) : Z :=
  let mask := u64 (a - 1) in Z.land (u64 (x + mask)) (Z.lxor mask (2 ^ 64 - 1)).

(** [phys_base], [cacheline] and [size] of [struct smem_partition]; the mapping is
    [virt_base], [None] for NULL. *)
Record smem_partition := mk_part {
  part_map : option mapping;
  phys_base : Z;
  cacheline : Z;
  part_size : Z;
}.

Record smem_region := mk_region { aux_base : Z; r_map : option mapping; r_size : Z }.

Record qcom_smem := mk_smem {
  item_count : Z;
  ptable : option mapping;
  global_partition : smem_partition;
  partitions : list smem_partition;
  regions : list smem_region;
}.

Definition no_part : smem_partition := mk_part None 0 0 0.

(** ** Partitions *)

Definition IN_PARTITION_RANGE (ptr size start end_ : Z) : bool :=
  (start <=? ptr) && (ptr <=? u64 (ptr + size)) && (u64 (ptr + size) <=? end_).

Definition phdr_to_last_uncached_entry (phdr : Z) : KM mapping Z :=
  let* o := le32 (phdr + ph_offset_free_uncached) in kret (u64 (phdr + o)).
Definition phdr_to_last_cached_entry (phdr : Z) : KM mapping Z :=
  let* o := le32 (phdr + ph_offset_free_cached) in kret (u64 (phdr + o)).
Definition phdr_to_first_uncached_entry (phdr : Z) : Z := u64 (phdr + sizeof_partition_header).
Definition phdr_to_first_cached_entry (phdr cacheline : Z) : KM mapping Z :=
  let* s := le32 (phdr + ph_size) in kret (u64 (phdr + s - ALIGN sizeof_private_entry cacheline)).
Definition uncached_entry_next (e : Z) : KM mapping Z :=
  let* pad := le16 (e + e_padding_hdr) in
  let* s := le32 (e + e_size) in kret (u64 (e + sizeof_private_entry + pad + s)).
Definition cached_entry_next (e cacheline : Z) : KM mapping Z :=
  let* s := le32 (e + e_size) in kret (u64 (e - s - ALIGN sizeof_private_entry cacheline)).
Definition uncached_entry_to_item (e : Z) : KM mapping Z :=
  let* pad := le16 (e + e_padding_hdr) in kret (u64 (e + sizeof_private_entry + pad)).
Definition cached_entry_to_item (e : Z) : KM mapping Z :=
  let* s := le32 (e + e_size) in kret (u64 (e - s)).

(** The [while] loop of the allocation: the error it returns, or where it stops. *)
Fixpoint alloc_walk (fuel : nat) (item hdr end_ : Z) : KM mapping (Z + Z) :=
  match fuel with
  | O => kfail Hang
  | S fuel =>
      if (hdr <? end_) && (u64 (hdr + sizeof_private_entry) <? end_) then
        let* canary := le16 (hdr + e_canary) in
        if negb (canary =? SMEM_PRIVATE_CANARY) then kret (inl (- EINVAL))
        else
          let* it := le16 (hdr + e_item) in
          if it =? item then kret (inl (- EEXIST))
          else
            let* next_hdr := uncached_entry_next hdr in
            if next_hdr <=? hdr then kret (inl (- EINVAL)) else alloc_walk fuel item next_hdr end_
      else kret (inr hdr)
  end.

Definition qcom_smem_alloc_private (fuel : nat) (part_size item size : Z) : KM mapping Z :=
  let* phdr := kgets m_base in
  let p_end := u64 (phdr + part_size) in
  let* end_ := phdr_to_last_uncached_entry phdr in
  let* cached := phdr_to_last_cached_entry phdr in
  if negb (IN_PARTITION_RANGE end_ 0 phdr cached) || (p_end <? cached) then kret (- EINVAL)
  else
    let* r := alloc_walk fuel item (phdr_to_first_uncached_entry phdr) end_ in
    match r with
    | inl err => kret err
    | inr hdr =>
        if end_ <? hdr then kret (- EINVAL)
        else
          let alloc_size := u64 (sizeof_private_entry + ALIGN size 8) in
          if cached <? u64 (hdr + alloc_size) then kret (- ENOSPC)
          else
            st 2 (hdr + e_canary) SMEM_PRIVATE_CANARY ;;;
            st 2 (hdr + e_item) item ;;;
            st 4 (hdr + e_size) (ALIGN size 8) ;;;
            let* s := le32 (hdr + e_size) in
            st 2 (hdr + e_padding_data) (u64 (s - size)) ;;;
            st 2 (hdr + e_padding_hdr) 0 ;;;
            let* o := le32 (phdr + ph_offset_free_uncached) in
            st 4 (phdr + ph_offset_free_uncached) (u32 (o + alloc_size)) ;;;
            kret 0
    end.

(** A found item: its address and size, or an error. *)
Definition found_item (part_size e : Z) (to_item : Z → KM mapping Z) (lo hi : Z) : KM mapping (Z + Z * Z) :=
  let* s := le32 (e + e_size) in
  let* padding_data := le16 (e + e_padding_data) in
  if (s <? part_size) && (padding_data <? s) then
    let* item_ptr := to_item e in
    if IN_PARTITION_RANGE item_ptr (s - padding_data) lo hi then kret (inr (item_ptr, s - padding_data))
    else kret (inl (- EINVAL))
  else kret (inl (- EINVAL)).

(** The search of the uncached list ends with the answer or with where it stopped. *)
Fixpoint get_uncached (fuel : nat) (part_size item e uncached_end : Z) : KM mapping ((Z + Z * Z) + Z) :=
  match fuel with
  | O => kfail Hang
  | S fuel =>
      if (e <? uncached_end) && (u64 (e + sizeof_private_entry) <? uncached_end) then
        let* canary := le16 (e + e_canary) in
        if negb (canary =? SMEM_PRIVATE_CANARY) then kret (inl (inl (- EINVAL)))
        else
          let* it := le16 (e + e_item) in
          if it =? item then
            let* r := found_item part_size e uncached_entry_to_item e uncached_end in kret (inl r)
          else
            let* next_e := uncached_entry_next e in
            if next_e <=? e then kret (inl (inl (- EINVAL))) else get_uncached fuel part_size item next_e uncached_end
      else kret (inr e)
  end.

Fixpoint get_cached (fuel : nat) (part_size cacheline item e cached_end : Z) : KM mapping ((Z + Z * Z) + Z) :=
  match fuel with
  | O => kfail Hang
  | S fuel =>
      if cached_end <? e then
        let* canary := le16 (e + e_canary) in
        if negb (canary =? SMEM_PRIVATE_CANARY) then kret (inl (inl (- EINVAL)))
        else
          let* it := le16 (e + e_item) in
          if it =? item then
            let* r := found_item part_size e cached_entry_to_item cached_end e in kret (inl r)
          else
            let* next_e := cached_entry_next e cacheline in
            if e <=? next_e then kret (inl (inl (- EINVAL))) else get_cached fuel part_size cacheline item next_e cached_end
      else kret (inr e)
  end.

Definition qcom_smem_get_private (fuel : nat) (part_size cacheline item : Z) : KM mapping (Z + Z * Z) :=
  let* phdr := kgets m_base in
  let p_end := u64 (phdr + part_size) in
  let* uncached_end := phdr_to_last_uncached_entry phdr in
  let* cached_end := phdr_to_last_cached_entry phdr in
  if negb (IN_PARTITION_RANGE uncached_end 0 phdr cached_end) || (p_end <? cached_end) then kret (inl (- EINVAL))
  else
    let* r := get_uncached fuel part_size item (phdr_to_first_uncached_entry phdr) uncached_end in
    match r with
    | inl answer => kret answer
    | inr e =>
        if uncached_end <? e then kret (inl (- EINVAL))
        else if cached_end =? p_end then kret (inl (- ENOENT))
        else
          let* e := phdr_to_first_cached_entry phdr cacheline in
          if negb (IN_PARTITION_RANGE cached_end 0 uncached_end p_end) ||
             negb (IN_PARTITION_RANGE e sizeof_private_entry cached_end p_end) then kret (inl (- EINVAL))
          else
            let* r := get_cached fuel part_size cacheline item e cached_end in
            match r with
            | inl answer => kret answer
            | inr e => if e <? phdr then kret (inl (- EINVAL)) else kret (inl (- ENOENT))
            end
    end.

(** ** The global heap *)

Definition toc_entry (header item : Z) : Z := header + h_toc + item * sizeof_global_entry.

(** On the mapping of [regions[0]]. *)
Definition qcom_smem_alloc_global (item size : Z) : KM mapping Z :=
  let* header := kgets m_base in
  let entry := toc_entry header item in
  let* allocated := le32 (entry + g_allocated) in
  if negb (allocated =? 0) then kret (- EEXIST)
  else
    let size := ALIGN size 8 in
    let* available := le32 (header + h_available) in
    if available <? size then kret (- ENOMEM)
    else
      let* free_offset := le32 (header + h_free_offset) in
      st 4 (entry + g_offset) free_offset ;;;
      st 4 (entry + g_size) size ;;;
      st 4 (entry + g_allocated) 1 ;;;
      let* o := le32 (header + h_free_offset) in
      st 4 (header + h_free_offset) (u32 (o + size)) ;;;
      let* a := le32 (header + h_available) in
      st 4 (header + h_available) (u32 (a - size)) ;;;
      kret 0.

(** The first region that may hold the item decides. *)
Fixpoint find_region (regions : list smem_region) (aux s off : Z) : Z + Z * Z :=
  match regions with
  | [] => inl (- ENOENT)
  | region :: regions =>
      if (u32 (aux_base region) =? aux) || (aux =? 0) then
        if r_size region <? u64 (s + off) then inl (- EINVAL)
        else inr (u64 (match r_map region with Some m => m_base m | None => 0 end + off), s)
      else find_region regions aux s off
  end.

Definition qcom_smem_get_global (regions : list smem_region) (item : Z) : KM mapping (Z + Z * Z) :=
  let* header := kgets m_base in
  let entry := toc_entry header item in
  let* allocated := le32 (entry + g_allocated) in
  if allocated =? 0 then kret (inl (- ENXIO))
  else
    let* aux := le32 (entry + g_aux_base) in
    let* s := le32 (entry + g_size) in
    let* off := le32 (entry + g_offset) in
    kret (find_region regions (Z.land aux AUX_BASE_MASK) s off).

(** ** The device *)

Abbreviation SM := (KM (option qcom_smem)).

Definition set_map (m : option mapping) (p : smem_partition) : smem_partition :=
  mk_part m (phys_base p) (cacheline p) (part_size p).
Definition set_partitions (l : list smem_partition) (d : qcom_smem) : qcom_smem :=
  mk_smem (item_count d) (ptable d) (global_partition d) l (regions d).
Definition set_global_part (p : smem_partition) (d : qcom_smem) : qcom_smem :=
  mk_smem (item_count d) (ptable d) p (partitions d) (regions d).
Definition set_regions (l : list smem_region) (d : qcom_smem) : qcom_smem :=
  mk_smem (item_count d) (ptable d) (global_partition d) (partitions d) l.
Definition set_item_count (n : Z) (d : qcom_smem) : qcom_smem :=
  mk_smem n (ptable d) (global_partition d) (partitions d) (regions d).

(** The heap an access goes to: the partition of the host, else the global
    partition, else the global heap. *)
Inductive heap := HostPart (host : Z) | GlobalPart | GlobalHeap.

Definition choose_heap (d : qcom_smem) (host : Z) : heap :=
  if (host <? SMEM_HOST_COUNT) && bool_decide (is_Some (partitions d !! Z.to_nat host ≫= part_map)) then HostPart host
  else if bool_decide (is_Some (part_map (global_partition d))) then GlobalPart
  else GlobalHeap.

(** Run [f] on the mapping of a heap. *)
Definition on_heap {A} (d : qcom_smem) (h : heap) (f : KM mapping A) : outcome A * qcom_smem :=
  let run o := match o with Some m => let '(a, m) := f m in (a, Some m) | None => (Undef, None) end in
  match h with
  | HostPart host =>
      match partitions d !! Z.to_nat host with
      | Some p => let '(a, o) := run (part_map p) in (a, set_partitions (<[Z.to_nat host := set_map o p]> (partitions d)) d)
      | None => (Undef, d)
      end
  | GlobalPart => let '(a, o) := run (part_map (global_partition d)) in (a, set_global_part (set_map o (global_partition d)) d)
  | GlobalHeap =>
      match regions d with
      | r :: l => let '(a, o) := run (r_map r) in (a, set_regions (mk_region (aux_base r) o (r_size r) :: l) d)
      | [] => (Undef, d)
      end
  end.

Definition heap_part (d : qcom_smem) (h : heap) : smem_partition :=
  match h with HostPart host => default no_part (partitions d !! Z.to_nat host) | _ => global_partition d end.

(** [lock] is the return code of [hwspin_lock_timeout_irqsave]. *)
Definition qcom_smem_alloc (fuel : nat) (lock host item size : Z) : SM Z := λ s,
  match s with
  | None => (Done (- EPROBE_DEFER), s)
  | Some d =>
      if item <? SMEM_ITEM_LAST_FIXED then (Done (- EINVAL), s)
      else if item_count d <=? item then (Done (- EINVAL), s)
      else if negb (lock =? 0) then (Done lock, s)
      else
        let h := choose_heap d host in
        let '(ret, d) := on_heap d h
          (match h with
           | GlobalHeap => qcom_smem_alloc_global item size
           | _ => qcom_smem_alloc_private fuel (part_size (heap_part d h)) item size
           end) in
        (ret, Some d)
  end.

Definition qcom_smem_get (fuel : nat) (host item : Z) : SM (Z + Z * Z) := λ s,
  match s with
  | None => (Done (inl (- EPROBE_DEFER)), s)
  | Some d =>
      if item_count d <=? item then (Done (inl (- EINVAL)), s)
      else
        let h := choose_heap d host in
        let '(ret, d) := on_heap d h
          (match h with
           | GlobalHeap => qcom_smem_get_global (regions d) item
           | _ => qcom_smem_get_private fuel (part_size (heap_part d h)) (cacheline (heap_part d h)) item
           end) in
        (ret, Some d)
  end.

Definition qcom_smem_get_free_space (host : Z) : SM Z := λ s,
  match s with
  | None => (Done (- EPROBE_DEFER), s)
  | Some d =>
      let h := choose_heap d host in
      let '(ret, d) := on_heap d h
        (let* base := kgets m_base in
         match h with
         | GlobalHeap =>
             let* ret := le32 (base + h_available) in
             kret (if default 0 (r_size <$> head (regions d)) <? ret then - EINVAL else s32 ret)
         | _ =>
             let* c := le32 (base + ph_offset_free_cached) in
             let* o := le32 (base + ph_offset_free_uncached) in
             kret (if u32 (part_size (heap_part d h)) <? u32 (c - o) then - EINVAL else s32 (u32 (c - o)))
         end) in
      (ret, Some d)
  end.

Definition addr_in_range (m : option mapping) (size addr : Z) : bool :=
  match m with Some m => (m_base m <=? addr) && (addr <? u64 (m_base m + size)) | None => false end.

(** The mappings in the order of the search, each with its physical address and size. *)
Definition phys_ranges (d : qcom_smem) : list (option mapping * Z * Z) :=
  ((λ p, (part_map p, phys_base p, part_size p)) <$> partitions d ++ [global_partition d]) ++
  ((λ r, (r_map r, aux_base r, r_size r)) <$> regions d).

Definition qcom_smem_virt_to_phys (d : qcom_smem) (p : Z) : Z :=
  match list_find (λ x, addr_in_range x.1.1 x.2 p = true) (phys_ranges d) with
  | Some (_, (m, phys, _)) => u64 (phys + (p - match m with Some m => m_base m | None => 0 end))
  | None => 0
  end.

(** ** Finding the partitions *)

Abbreviation DM := (KM qcom_smem).

Definition on_ptable {A} (f : Z → KM mapping A) : DM A := λ d,
  match ptable d with
  | Some m => let '(a, m) := f (m_base m) m in (a, mk_smem (item_count d) (Some m) (global_partition d) (partitions d) (regions d))
  | None => (Undef, d)
  end.

Definition qcom_smem_get_sbl_version : KM mapping Z :=
  let* header := kgets m_base in le32 (header + h_version + 4 * SMEM_MASTER_SBL_VERSION_INDEX).

(** 0, or the error in the returned pointer. *)
Definition qcom_smem_get_ptable : DM Z :=
  on_ptable (λ p,
    let* magic := ld_bytes 4 (p + pt_magic) in
    if negb (bool_decide (magic = SMEM_PTABLE_MAGIC)) then kret (- ENOENT)
    else
      let* version := le32 (p + pt_version) in
      if negb (version =? 1) then kret (- EINVAL) else kret 0).

Definition ptable_entry (p i : Z) : Z := p + pt_entry + i * sizeof_ptable_entry.

Definition qcom_smem_get_item_count : DM Z :=
  let* err := qcom_smem_get_ptable in
  if negb (err =? 0) then kret SMEM_ITEM_COUNT
  else on_ptable (λ p,
    let* n := le32 (p + pt_num_entries) in
    let info := ptable_entry p n in
    let* magic := ld_bytes 4 (info + si_magic) in
    if negb (bool_decide (magic = SMEM_INFO_MAGIC)) then kret SMEM_ITEM_COUNT
    else le16 (info + si_num_items)).

Section mapping.
Context (devm_ioremap_wc : Z → Z → option mapping).

Definition region0_base (d : qcom_smem) : Z := default 0 (aux_base <$> head (regions d)).

(** The checks of a freshly mapped header. *)
Definition valid_header (host0 host1 entry_size : Z) : KM mapping bool :=
  let* header := kgets m_base in
  let* magic := ld_bytes 4 (header + ph_magic) in
  if negb (bool_decide (magic = SMEM_PART_MAGIC)) then kret false
  else
    let* h0 := le16 (header + ph_host0) in
    if negb (host0 =? h0) then kret false
    else
      let* h1 := le16 (header + ph_host1) in
      if negb (host1 =? h1) then kret false
      else
        let* size := le32 (header + ph_size) in
        if negb (size =? entry_size) then kret false
        else
          let* o := le32 (header + ph_offset_free_uncached) in
          kret (negb (size <? o)).

Definition qcom_smem_partition_header (entry host0 host1 : Z) : DM (option mapping) :=
  let* base := kgets region0_base in
  let* off := on_ptable (λ _, le32 (entry + pe_offset)) in
  let* size := on_ptable (λ _, le32 (entry + pe_size)) in
  match devm_ioremap_wc (u32 (base + off)) size with
  | None => kret None
  | Some m => λ d, match valid_header host0 host1 size m with
                   | (Done true, m) => (Done (Some m), d)
                   | (Done false, _) => (Done None, d)
                   | (Hang, _) => (Hang, d) | (Bug, _) => (Bug, d) | (Undef, _) => (Undef, d)
                   end
  end.

(** The partition of a mapped entry. *)
Definition entry_partition (entry : Z) (m : mapping) : DM smem_partition :=
  let* base := kgets region0_base in
  let* off := on_ptable (λ _, le32 (entry + pe_offset)) in
  let* size := on_ptable (λ _, le32 (entry + pe_size)) in
  let* line := on_ptable (λ _, le32 (entry + pe_cacheline)) in
  kret (mk_part (Some m) (base + off) line size).

(** The [continue]s at the start of both loops. *)
Definition unused_entry (entry : Z) : KM mapping bool :=
  let* off := le32 (entry + pe_offset) in
  if off =? 0 then kret true else let* size := le32 (entry + pe_size) in kret (size =? 0).

Definition global_entry (p i : Z) : KM mapping (option Z) :=
  let entry := ptable_entry p i in
  let* unused := unused_entry entry in
  if unused then kret None
  else
    let* h0 := le16 (entry + pe_host0) in
    if negb (h0 =? SMEM_GLOBAL_HOST) then kret None
    else let* h1 := le16 (entry + pe_host1) in kret (if h1 =? SMEM_GLOBAL_HOST then Some entry else None).

Definition qcom_smem_set_global_partition : DM Z :=
  let* already := kgets (λ d, bool_decide (is_Some (part_map (global_partition d)))) in
  if already then kret (- EINVAL)
  else
    let* err := qcom_smem_get_ptable in
    if negb (err =? 0) then kret err
    else
      let* found := on_ptable (λ p,
        let* n := le32 (p + pt_num_entries) in for_until (seqZ 0 n) (global_entry p)) in
      match found with
      | None => kret (- EINVAL)
      | Some entry =>
          let* header := qcom_smem_partition_header entry SMEM_GLOBAL_HOST SMEM_GLOBAL_HOST in
          match header with
          | None => kret (- EINVAL)
          | Some m => let* part := entry_partition entry m in kmodify (set_global_part part) ;;; kret 0
          end
      end.

(** One entry: an error to return, or on to the next. *)
Definition enumerate_entry (local_host p i : Z) : DM (option Z) :=
  let entry := ptable_entry p i in
  let* unused := on_ptable (λ _, unused_entry entry) in
  if unused then kret None
  else
    let* host0 := on_ptable (λ _, le16 (entry + pe_host0)) in
    let* host1 := on_ptable (λ _, le16 (entry + pe_host1)) in
    match (if host0 =? local_host then Some host1 else if host1 =? local_host then Some host0 else None) with
    | None => kret None
    | Some remote_host =>
        if SMEM_HOST_COUNT <=? remote_host then kret (Some (- EINVAL))
        else
          let* taken := kgets (λ d, bool_decide (is_Some (partitions d !! Z.to_nat remote_host ≫= part_map))) in
          if taken then kret (Some (- EINVAL))
          else
            let* header := qcom_smem_partition_header entry host0 host1 in
            match header with
            | None => kret (Some (- EINVAL))
            | Some m =>
                let* part := entry_partition entry m in
                kmodify (λ d, set_partitions (<[Z.to_nat remote_host := part]> (partitions d)) d) ;;; kret None
            end
    end.

Definition qcom_smem_enumerate_partitions (local_host : Z) : DM Z :=
  let* err := qcom_smem_get_ptable in
  if negb (err =? 0) then kret err
  else
    let* pn := on_ptable (λ p, let* n := le32 (p + pt_num_entries) in kret (p, n)) in
    let* r := for_until (seqZ 0 pn.2) (enumerate_entry local_host pn.1) in
    kret (default 0 r).

Definition qcom_smem_map_toc (region : smem_region) : DM Z := λ d,
  let virt := devm_ioremap_wc (aux_base region) SZ_4K in
  let table := devm_ioremap_wc (u32 (aux_base region + r_size region - SZ_4K)) SZ_4K in
  let region := mk_region (aux_base region) virt (r_size region) in
  let d := mk_smem (item_count d) table (global_partition d) (partitions d) (<[0%nat := region]> (regions d)) in
  (Done (match virt, table with Some _, Some _ => 0 | _, _ => - ENOMEM end), d).

Definition qcom_smem_map_global (size : Z) : DM Z := λ d,
  let phys := u32 (region0_base d) in
  let virt := devm_ioremap_wc phys size in
  let regions := match regions d with r :: l => mk_region (aux_base r) virt size :: l | [] => [] end in
  (Done (match virt with Some _ => 0 | None => - ENOMEM end), set_regions regions d).

(** What the probe finds in the device tree and from the lock framework. *)
Record probe_env := mk_env {
  rpm_msg_ram : bool;
  kzalloc_ok : bool;
  reserved_mem : option (Z * Z);
  region_node : bool → option (Z + Z * Z); (* the node of "memory-region", or of "qcom,rpm-msg-ram" for [true]:
                                              the error of [of_address_to_resource], or start and size *)
  hwlock_id : Z;
  hwlock_ok : bool;
  hwlock_ret : Z;
}.

(** An error, or the base and size of the region. *)
Definition qcom_smem_resolve_mem (env : probe_env) (rpm : bool) : Z + Z * Z :=
  match region_node env rpm with
  | None => inl (- EINVAL)
  | Some r => r
  end.

Definition on_region0 {A} (f : KM mapping A) : DM A := λ d, on_heap d GlobalHeap f.

(** The header checks and the switch on the version, once everything is mapped. *)
Definition probe_version (env : probe_env) : DM Z :=
  let* ready := on_region0 (let* h := kgets m_base in
                            let* i := le32 (h + h_initialized) in
                            if negb (i =? 1) then kret false
                            else let* r := le32 (h + h_reserved) in kret (r =? 0)) in
  if negb ready then kret (- EINVAL)
  else if hwlock_id env <? 0 then kret (hwlock_id env)
  else if negb (hwlock_ok env) then kret (- ENXIO)
  else if negb (hwlock_ret env =? 0) then kret (hwlock_ret env)
  else
    let* size := on_region0 (let* h := kgets m_base in
                             let* a := le32 (h + h_available) in
                             let* o := le32 (h + h_free_offset) in kret (u32 (a + o))) in
    let* version := on_region0 qcom_smem_get_sbl_version in
    (* [devm_iounmap]: the pointer stays, the bytes are gone *)
    kmodify (λ d, set_regions (match regions d with
      | r :: l => mk_region (aux_base r) ((λ m, mk_map (m_base m) []) <$> r_map r) (r_size r) :: l
      | [] => [] end) d) ;;;
    let v := Z.shiftr version 16 in
    let* ret :=
      (if v =? SMEM_GLOBAL_PART_VERSION then
         let* ret := qcom_smem_set_global_partition in
         if ret <? 0 then kret ret
         else let* n := qcom_smem_get_item_count in kmodify (set_item_count n) ;;; kret 0
       else if v =? SMEM_GLOBAL_HEAP_VERSION then
         let* _ := qcom_smem_map_global size in kmodify (set_item_count SMEM_ITEM_COUNT) ;;; kret 0
       else kret (- EINVAL)) in
    if ret <? 0 then kret ret
    else
      let* ret := qcom_smem_enumerate_partitions SMEM_HOST_APPS in
      if (ret <? 0) && negb (ret =? - ENOENT) then kret ret else kret 0.

(** [__smem] is set only on success. *)
Definition qcom_smem_probe (env : probe_env) : SM Z := λ s,
  if negb (kzalloc_ok env) then (Done (- ENOMEM), s)
  else
    let r0 := match reserved_mem env with Some r => inr r | None => qcom_smem_resolve_mem env false end in
    let r1 := if rpm_msg_ram env then Some (qcom_smem_resolve_mem env true) else None in
    match r0, r1 with
    | inl err, _ => (Done err, s)
    | inr _, Some (inl err) => (Done err, s)
    | inr (b0, s0), _ =>
        let region0 := mk_region b0 None s0 in
        let region1 := match r1 with Some (inr (b1, s1)) => [mk_region b1 None s1] | _ => [] end in
        let d := mk_smem 0 None no_part (replicate (Z.to_nat SMEM_HOST_COUNT) no_part) (region0 :: region1) in
        let '(out, d) := (
          let* ret := qcom_smem_map_toc region0 in
          if negb (ret =? 0) then kret ret
          else
            let* ok := (λ d, let l := (λ r, mk_region (aux_base r) (devm_ioremap_wc (aux_base r) (r_size r)) (r_size r)) <$> tail (regions d) in
                            (Done (forallb (λ r, match r_map r with Some _ => true | None => false end) l),
                             set_regions (take 1 (regions d) ++ l) d)) in
            if negb ok then kret (- ENOMEM) else probe_version env) d in
        match out with
        | Done 0 => (Done 0, Some d)
        | out => (out, s)
        end
    end.
End mapping.

(** [qcom_smem_remove] and [qcom_smem_freeze]. *)
Definition qcom_smem_remove : SM unit := λ s,
  match s with Some _ => (Done tt, None) | None => (Undef, None) end.
