(* ===== verification/SmemSafe.v ===== *)
(** * Safety of the shared memory manager against its peers

    Whatever bytes the other processors leave in a partition, looking up an item and
    allocating one end, stay inside the mapping, answer only places inside the
    partition, and write nothing but the new header and the free offset. *)

From S2P Require Import Prelude Memory Smem.

(** ** Accesses *)

Lemma read_le_range n bs off : Forall is_byte bs → 0 ≤ off → 0 ≤ n → off + n ≤ zlen bs →
  ∃ z, read_le n bs off = Some z ∧ 0 ≤ z < 256 ^ n.
Proof.
  intros Hb Ho Hn Hl. unfold read_le, subrange. rewrite bool_decide_true by done. cbn. eexists. split; [done|].
  set (l := take _ _). assert (zlen l = n) as Hz.
  { unfold l, zlen in *. rewrite length_take, length_drop. lia. }
  rewrite <- Hz. apply le_decode_range. by apply Forall_take, Forall_drop.
Qed.

(** The mapping of a partition: bytes, at an address that leaves room around it for
    the sums of pointers and 32-bit sizes. *)
Record mapped (psize : Z) (m : mapping) : Prop := {
  mp_bytes : Forall is_byte (m_bytes m);
  mp_size : sizeof_partition_header ≤ psize < 2 ^ 32;
  mp_len : psize ≤ zlen (m_bytes m);
  mp_base : 2 ^ 35 ≤ m_base m ≤ 2 ^ 64 - 2 ^ 35;
}.

Lemma ld_run psize m n addr :
  mapped psize m → 0 ≤ n → m_base m ≤ addr → addr + n ≤ m_base m + psize →
  ∃ z, ld n addr m = (Done z, m) ∧ 0 ≤ z < 256 ^ n.
Proof.
  intros [Hb _ Hl _] Hn H1 H2. destruct (read_le_range n (m_bytes m) (addr - m_base m)) as (z & Hz & Hr); [done|lia..|].
  exists z. split; [|done]. unfold ld. by rewrite Hz.
Qed.

Lemma land_le a b : 0 ≤ a → 0 ≤ b → 0 ≤ Z.land a b ≤ a.
Proof.
  intros Ha Hb. split; [by apply Z.land_nonneg; left|].
  apply Z.ldiff_le; [done|]. apply Z.bits_inj'. intros n Hn.
  rewrite Z.ldiff_spec, Z.land_spec, Z.bits_0. by destruct (Z.testbit a n), (Z.testbit b n).
Qed.

Lemma align_range a : 0 ≤ a < 2 ^ 32 → 0 ≤ ALIGN sizeof_private_entry a < 2 ^ 33.
Proof.
  intros Ha. unfold ALIGN, sizeof_private_entry. set (x := u64 (16 + u64 (a - 1))).
  assert (0 ≤ x < 2 ^ 33) as Hx.
  { unfold x. destruct (decide (a = 0)) as [->|]; [vm_compute; split; congruence|]. rewrite (u64_small (a - 1)), u64_small; lia. }
  assert (0 ≤ Z.lxor (u64 (a - 1)) (2 ^ 64 - 1)) as Hy.
  { apply Z.lxor_nonneg. split; [done|]. intros _. apply Z.mod_pos_bound. lia. }
  pose proof (land_le x _ (proj1 Hx) Hy). lia.
Qed.

(** ** Looking up *)

(** Where an answer may lie. *)
Definition answer_in (lo hi : Z) (r : Z + Z * Z) : Prop :=
  match r with
  | inl e => e = - EINVAL ∨ e = - ENOENT
  | inr (ptr, size) => lo ≤ ptr ∧ 0 < size ∧ ptr + size ≤ hi
  end.

(** Load the field at [addr]. *)
Ltac load z H :=
  match goal with
  | Hm : mapped ?psize ?m |- context [kbind (ld ?n ?addr) _ ?m] =>
      destruct (ld_run psize m n addr Hm) as (z & H & ?); [lia|lia|lia|]; rewrite (kbind_Done _ _ _ _ _ H); clear H
  end.

Section safe.
Context (psize : Z) (m : mapping) (Hm : mapped psize m).

Lemma found_item_safe e to_item lo hi :
  m_base m ≤ e → e + sizeof_private_entry ≤ m_base m + psize → 0 ≤ lo → hi < 2 ^ 64 →
  (∃ p, to_item e m = (Done p, m) ∧ 0 ≤ p < 2 ^ 64 - 2 ^ 32) →
  ∃ r, found_item psize e to_item lo hi m = (Done r, m) ∧ answer_in lo hi r.
Proof using All.
  unfold sizeof_private_entry. intros H1 H2 Hlo Hhi (p & Hp & Hpr). pose proof Hm as [_ Hs _ Hb].
  unfold found_item, le32, le16, e_size, e_padding_data.
  load s Hs'. load pd Hpd. destruct (_ && _) eqn:Hc; [|exists (inl (- EINVAL)); split; [done|by left]].
  rewrite (kbind_Done _ _ _ _ _ Hp). unfold IN_PARTITION_RANGE.
  destruct (Z.ltb_spec pd s); [|by rewrite andb_false_r in Hc]. destruct (Z.ltb_spec s psize); [|done].
  rewrite u64_small by lia.
  destruct (Z.leb_spec lo p); [|exists (inl (- EINVAL)); split; [done|by left]].
  destruct (Z.leb_spec p (p + (s - pd))); [|lia].
  destruct (Z.leb_spec (p + (s - pd)) hi); [|exists (inl (- EINVAL)); split; [done|by left]].
  eexists. split; [reflexivity|]. cbn. lia.
Qed.

Lemma uncached_item_run e :
  m_base m ≤ e → e + sizeof_private_entry ≤ m_base m + psize →
  ∃ p, uncached_entry_to_item e m = (Done p, m) ∧ 0 ≤ p < 2 ^ 64 - 2 ^ 32.
Proof using All.
  unfold sizeof_private_entry. intros H1 H2. pose proof Hm as [_ Hs _ Hb]. unfold uncached_entry_to_item, le16, e_padding_hdr.
  load pad Hpad. eexists. split; [reflexivity|]. unfold sizeof_private_entry. rewrite u64_small; lia.
Qed.

Lemma cached_item_run e :
  m_base m ≤ e → e + sizeof_private_entry ≤ m_base m + psize →
  ∃ p, cached_entry_to_item e m = (Done p, m) ∧ 0 ≤ p < 2 ^ 64 - 2 ^ 32.
Proof using All.
  unfold sizeof_private_entry. intros H1 H2. pose proof Hm as [_ Hs _ Hb]. unfold cached_entry_to_item, le32, e_size.
  load s Hs'. eexists. split; [reflexivity|]. rewrite u64_small; lia.
Qed.

Lemma uncached_next_run e :
  m_base m ≤ e → e + sizeof_private_entry ≤ m_base m + psize →
  ∃ p, uncached_entry_next e m = (Done p, m) ∧ e + 16 ≤ p < 2 ^ 64 - 2 ^ 33.
Proof using All.
  unfold sizeof_private_entry. intros H1 H2. pose proof Hm as [_ Hs _ Hb].
  unfold uncached_entry_next, le16, le32, e_padding_hdr, e_size, sizeof_private_entry.
  load pad Hpad. load s Hs'. eexists. split; [reflexivity|]. rewrite u64_small; lia.
Qed.

Lemma cached_next_run line e :
  0 ≤ line < 2 ^ 32 → m_base m ≤ e → e + sizeof_private_entry ≤ m_base m + psize →
  ∃ p, cached_entry_next e line m = (Done p, m) ∧ 0 ≤ p ≤ e.
Proof using All.
  unfold sizeof_private_entry. intros Hline H1 H2. pose proof Hm as [_ Hs _ Hb]. pose proof (align_range line Hline) as Ha.
  unfold cached_entry_next, le32, e_size. load s Hs'. eexists. split; [reflexivity|]. rewrite u64_small; lia.
Qed.

Lemma get_uncached_safe item end_ : end_ ≤ m_base m + psize → ∀ fuel e,
  m_base m ≤ e < 2 ^ 64 - 2 ^ 33 → end_ - e < Z.of_nat fuel → (0 < fuel)%nat →
  ∃ r, get_uncached fuel psize item e end_ m = (Done r, m) ∧
    match r with inl a => answer_in (m_base m) (m_base m + psize) a | inr e' => True end.
Proof using All.
  intros Hend. pose proof Hm as [_ Hs _ Hb]. unfold sizeof_partition_header in Hs.
  induction fuel as [|fuel IH]; intros e He Hfuel Hpos; [lia|]. cbn [get_uncached]. unfold sizeof_private_entry.
  rewrite u64_small by lia.
  destruct (Z.ltb_spec e end_); [|by eexists]. destruct (Z.ltb_spec (e + 16) end_); [|by eexists].
  cbn [andb]. unfold le16, e_canary, e_item. load c Hc.
  destruct (negb _); [eexists; split; [reflexivity|by left]|]. load it Hit. destruct (it =? item).
  - destruct (found_item_safe e uncached_entry_to_item e end_) as (r & Hr & Ha); unfold sizeof_private_entry; try lia.
    { apply uncached_item_run; unfold sizeof_private_entry; lia. }
    rewrite (kbind_Done _ _ _ _ _ Hr). eexists. split; [reflexivity|]. destruct r as [err|[p s]]; cbn in *; [done|lia].
  - destruct (uncached_next_run e) as (p & Hp & Hpr); unfold sizeof_private_entry; [lia..|].
    rewrite (kbind_Done _ _ _ _ _ Hp). destruct (Z.leb_spec p e); [lia|]. apply IH; lia.
Qed.

Lemma get_cached_safe line item end_ : 0 ≤ line < 2 ^ 32 → m_base m ≤ end_ → ∀ fuel e,
  0 ≤ e → e + 16 ≤ m_base m + psize → e - end_ < Z.of_nat fuel → (0 < fuel)%nat →
  ∃ r, get_cached fuel psize line item e end_ m = (Done r, m) ∧
    match r with inl a => answer_in (m_base m) (m_base m + psize) a | inr e' => True end.
Proof using All.
  intros Hline Hend. pose proof Hm as [_ Hs _ Hb]. pose proof (align_range line Hline) as Ha.
  induction fuel as [|fuel IH]; intros e He1 He2 Hfuel Hpos; [lia|]. cbn [get_cached].
  destruct (Z.ltb_spec end_ e); [|by eexists]. unfold le16, e_canary, e_item. load c Hc.
  destruct (negb _); [eexists; split; [reflexivity|by left]|]. load it Hit. destruct (it =? item).
  - destruct (found_item_safe e cached_entry_to_item end_ e) as (r & Hr & Har); unfold sizeof_private_entry; try lia.
    { apply cached_item_run; unfold sizeof_private_entry; lia. }
    rewrite (kbind_Done _ _ _ _ _ Hr). eexists. split; [reflexivity|]. destruct r as [err|[p s]]; cbn in *; [done|lia].
  - destruct (cached_next_run line e Hline) as (p & Hp & Hpr); unfold sizeof_private_entry; [lia..|].
    rewrite (kbind_Done _ _ _ _ _ Hp). destruct (Z.leb_spec e p); [eexists; split; [reflexivity|by left]|]. apply IH; lia.
Qed.
End safe.

Section answers.
Context (psize : Z) (m : mapping) (Hm : mapped psize m).

(** The two free offsets of the header. *)
Lemma free_offsets :
  ∃ u c, phdr_to_last_uncached_entry (m_base m) m = (Done (m_base m + u), m) ∧
    phdr_to_last_cached_entry (m_base m) m = (Done (m_base m + c), m) ∧
    read_le 4 (m_bytes m) ph_offset_free_uncached = Some u ∧ read_le 4 (m_bytes m) ph_offset_free_cached = Some c ∧
    0 ≤ u < 2 ^ 32 ∧ 0 ≤ c < 2 ^ 32.
Proof using All.
  pose proof Hm as [Hb Hs Hl Hba]. unfold sizeof_partition_header in Hs.
  destruct (read_le_range 4 (m_bytes m) 12) as (u & Hu & Hur); [done|lia..|].
  destruct (read_le_range 4 (m_bytes m) 16) as (c & Hc & Hcr); [done|lia..|].
  exists u, c. change (256 ^ 4) with (2 ^ 32) in *. split_and!; try lia; try done.
  - unfold phdr_to_last_uncached_entry, le32, ph_offset_free_uncached, kbind, ld.
    replace (m_base m + 12 - m_base m) with 12 by lia. rewrite Hu. unfold kret. by rewrite u64_small by lia.
  - unfold phdr_to_last_cached_entry, le32, ph_offset_free_cached, kbind, ld.
    replace (m_base m + 16 - m_base m) with 16 by lia. rewrite Hc. unfold kret. by rewrite u64_small by lia.
Qed.

Lemma range_refused (u c : Z) : 0 ≤ u < 2 ^ 32 → 0 ≤ c < 2 ^ 32 →
  negb (IN_PARTITION_RANGE (m_base m + u) 0 (m_base m) (m_base m + c)) || (u64 (m_base m + psize) <? m_base m + c) = false →
  u ≤ c ≤ psize.
Proof using All.
  intros Hu Hc. pose proof Hm as [_ Hs _ Hb]. unfold sizeof_partition_header in Hs. unfold IN_PARTITION_RANGE.
  rewrite !u64_small by lia. intros Hf.
  destruct (Z.leb_spec (m_base m) (m_base m + u)); [|lia]. destruct (Z.leb_spec (m_base m + u) (m_base m + u + 0)); [|lia].
  destruct (Z.leb_spec (m_base m + u + 0) (m_base m + c)); [|done]. destruct (Z.ltb_spec (m_base m + psize) (m_base m + c)); [done|lia].
Qed.

(** C27: looking up an item in a partition whose memory other processors may have filled
    with anything.  For every content of the mapping the search of both lists ends (the
    fuel is one more than the size of the partition), reads only inside the mapping, changes
    nothing, and answers -EINVAL, -ENOENT or a non-empty range inside the partition. *)
Theorem smem_get_private_safe line item :
  0 ≤ line < 2 ^ 32 →
  ∃ r, qcom_smem_get_private (S (Z.to_nat psize)) psize line item m = (Done r, m) ∧
    answer_in (m_base m) (m_base m + psize) r.
Proof using All.
  intros Hline. pose proof Hm as [_ Hs _ Hb]. unfold sizeof_partition_header in Hs. pose proof (align_range line Hline) as Ha.
  unfold qcom_smem_get_private. unfold kgets at 1, kbind at 1.
  destruct free_offsets as (u & c & Hu & Hc & _ & _ & Hur & Hcr).
  rewrite (kbind_Done _ _ _ _ _ Hu), (kbind_Done _ _ _ _ _ Hc).
  destruct (_ || _) eqn:Hrange; [eexists; split; [reflexivity|by left]|]. apply range_refused in Hrange; [|done..].
  unfold phdr_to_first_uncached_entry, sizeof_partition_header. rewrite !(u64_small (m_base m + _)) by lia.
  destruct (get_uncached_safe psize m Hm item (m_base m + u) ltac:(lia) (S (Z.to_nat psize)) (m_base m + 32))
    as (r & Hr & Har); [lia..|]. rewrite (kbind_Done _ _ _ _ _ Hr).
  destruct r as [a|e']; [by eexists|]. clear Hr Har.
  destruct (_ <? e'); [eexists; split; [reflexivity|by left]|].
  destruct (_ =? _); [eexists; split; [reflexivity|by right]|].
  destruct (ld_run psize m 4 (m_base m + ph_size) Hm) as (s & Hls & Hsr); [lia|unfold ph_size; lia..|].
  unfold phdr_to_first_cached_entry, le32. unfold kbind at 1 2. rewrite Hls. unfold kret at 1.
  rewrite u64_small by lia. set (e := m_base m + s - _).
  destruct (negb _ || _) eqn:Hrange2; [eexists; split; [reflexivity|by left]|].
  apply orb_false_elim in Hrange2 as [_ Hrange2]. unfold IN_PARTITION_RANGE, sizeof_private_entry in Hrange2.
  assert (m_base m + c ≤ e ∧ e + 16 ≤ m_base m + psize) as [He1 He2].
  { rewrite u64_small in Hrange2 by (unfold e; lia). apply negb_false_iff in Hrange2. lia. }
  destruct (get_cached_safe psize m Hm line item (m_base m + c) Hline ltac:(lia) (S (Z.to_nat psize)) e)
    as (r & Hr & Har); [lia..|]. rewrite (kbind_Done _ _ _ _ _ Hr).
  destruct r as [a|e'']; [by eexists|]. destruct (_ <? m_base m); (eexists; split; [reflexivity|]); [by left|by right].
Qed.
End answers.

(** A partition of 80 bytes another processor filled at will: an item that claims to be larger
    than the partition. *)
Definition hostile : mapping := mk_map (2 ^ 40)
  ([0x24; 0x50; 0x52; 0x54; 0; 0; 1; 0; 80; 0; 0; 0; 64; 0; 0; 0; 80; 0; 0; 0] ++ replicate 12 0 ++
   [0xa5; 0xa5; 9; 0; 0xf0; 0xff; 0xff; 0xff; 0; 0; 0xff; 0xff] ++ replicate 36 7).

Lemma hostile_mapped : mapped 80 hostile.
Proof.
  split; [|unfold sizeof_partition_header; lia|vm_compute; congruence|cbn; lia].
  apply Forall_forall. intros b Hb. assert (forallb (λ b, (0 <=? b) && (b <? 256)) (m_bytes hostile) = true) as H by done.
  rewrite forallb_forall in H. specialize (H b Hb). unfold is_byte. lia.
Qed.

Lemma smem_get_private_safe_witness :
  ∃ r, qcom_smem_get_private (S (Z.to_nat 80)) 80 0 9 hostile = (Done r, hostile) ∧
    answer_in (m_base hostile) (m_base hostile + 80) r.
Proof. apply (smem_get_private_safe 80 hostile hostile_mapped 0 9). lia. Defined.

(** ** Allocating *)

(** Rounding up to a multiple of 8. *)
Lemma align8 s : 0 ≤ s ≤ 2 ^ 32 → ALIGN s 8 = (s + 7) / 8 * 8.
Proof.
  intros Hs. unfold ALIGN. change (Z.lxor (u64 (8 - 1)) (2 ^ 64 - 1)) with (Z.shiftl (Z.ones 61) 3).
  change (u64 (8 - 1)) with 7. rewrite u64_small by lia.
  rewrite <- (Z.shiftr_div_pow2 _ 3), <- (Z.shiftl_mul_pow2 _ 3) by lia.
  apply Z.bits_inj'. intros n Hn. rewrite Z.land_spec, !Z.shiftl_spec by lia.
  destruct (decide (n < 3)); [rewrite !(Z.testbit_neg_r _ (n - 3)) by lia; by rewrite andb_false_r|].
  rewrite Z.shiftr_spec by lia. replace (n - 3 + 3) with n by lia. rewrite Z.testbit_ones_nonneg by lia.
  destruct (Z.ltb_spec (n - 3) 61); [by rewrite andb_true_r|]. rewrite andb_false_r. symmetry.
  rewrite <- (Z.mod_small (s + 7) (2 ^ 64)) by lia. apply Z.mod_pow2_bits_high. lia.
Qed.

Lemma align8_range s : 0 ≤ s ≤ 2 ^ 32 → s ≤ ALIGN s 8 < s + 8.
Proof. intros Hs. rewrite align8 by done. pose proof (Z.div_mod (s + 7) 8). pose proof (Z.mod_pos_bound (s + 7) 8). lia. Qed.

Lemma mapped_put psize m off bs :
  mapped psize m → Forall is_byte bs → 0 ≤ off → off + zlen bs ≤ zlen (m_bytes m) →
  mapped psize (mk_map (m_base m) (put off bs (m_bytes m))).
Proof.
  intros [Hb Hs Hl Hba] Hbs H1 H2. split; cbn [m_bytes m_base]; try done.
  - unfold put. apply Forall_app; split; [by apply Forall_take|]. apply Forall_app; split; [done|by apply Forall_drop].
  - by rewrite zlen_put.
Qed.

Lemma st_run base bs n addr off z : addr = base + off → 0 ≤ off → off + Z.of_nat n ≤ zlen bs →
  st n addr z (mk_map base bs) = (Done tt, mk_map base (put off (le_encode n z) bs)).
Proof.
  intros -> H1 H2. unfold st. cbn [m_base m_bytes]. replace (base + off - base) with off by lia.
  by rewrite bool_decide_true.
Qed.

Lemma ld_at base bs n addr off z : addr = base + off → read_le n bs off = Some z →
  ld n addr (mk_map base bs) = (Done z, mk_map base bs).
Proof. intros -> H. unfold ld. cbn [m_base m_bytes]. replace (base + off - base) with off by lia. by rewrite H. Qed.

Lemma read_put n off z bs : 0 ≤ off → off + Z.of_nat n ≤ zlen bs → 0 ≤ z < 2 ^ (8 * Z.of_nat n) →
  read_le (Z.of_nat n) (put off (le_encode n z) bs) off = Some z.
Proof.
  intros H1 H2 H3. unfold read_le. rewrite <- (zlen_le n z). rewrite subrange_put by (rewrite ?zlen_le; lia).
  cbn. by rewrite read_le_encode.
Qed.

(** The header the allocation writes. *)
Definition private_header (item size : Z) : list Z :=
  le_encode 2 SMEM_PRIVATE_CANARY ++ le_encode 2 item ++ le_encode 4 (ALIGN size 8) ++
  le_encode 2 (ALIGN size 8 - size) ++ le_encode 2 0.

Lemma zlen_private_header item size : zlen (private_header item size) = 12.
Proof. unfold private_header. by rewrite !zlen_app, !zlen_le. Qed.

Lemma private_header_bytes item size : Forall is_byte (private_header item size).
Proof. unfold private_header. repeat apply Forall_app_2; apply le_encode_bytes. Qed.

(** The memory after an allocation with header at [h]. *)
Definition allocated (h item size u : Z) (bs : list Z) : list Z :=
  put 12 (le_encode 4 (u32 (u + (16 + ALIGN size 8)))) (put h (private_header item size) bs).

(** Run the store or the load at offset [off] of the mapping. *)
Ltac store off :=
  match goal with
  | |- kbind (st ?n ?addr ?z) _ (mk_map ?base ?bs) = _ =>
      rewrite (kbind_Done _ _ _ _ _ (st_run base bs n addr off z ltac:(lia) ltac:(lia) ltac:(lia)))
  end.
Ltac fetch off z tac :=
  match goal with
  | |- context [kbind (ld ?n ?addr) _ (mk_map ?base ?bs)] =>
      rewrite (kbind_Done _ _ _ _ _ (ld_at base bs n addr off z ltac:(lia) ltac:(tac)))
  end.

Lemma alloc_writes base bs h item size u alloc :
  32 ≤ h → h + 12 ≤ zlen bs → 0 ≤ size ≤ 2 ^ 32 → ALIGN size 8 < 2 ^ 32 →
  read_le 4 bs 12 = Some u → alloc = 16 + ALIGN size 8 →
  (st 2 (base + h + e_canary) SMEM_PRIVATE_CANARY ;;;
   st 2 (base + h + e_item) item ;;;
   st 4 (base + h + e_size) (ALIGN size 8) ;;;
   let* s := le32 (base + h + e_size) in
   st 2 (base + h + e_padding_data) (u64 (s - size)) ;;;
   st 2 (base + h + e_padding_hdr) 0 ;;;
   let* o := le32 (base + ph_offset_free_uncached) in
   st 4 (base + ph_offset_free_uncached) (u32 (o + alloc)) ;;;
   kret 0) (mk_map base bs) = (Done 0, mk_map base (allocated h item size u bs)).
Proof.
  intros Hh Hl Hs Ha Hu ->. pose proof (align8_range size Hs) as Hal.
  unfold e_canary, e_item, e_size, e_padding_data, e_padding_hdr, ph_offset_free_uncached, le32.
  store h.
  set (b1 := put h _ bs). assert (zlen b1 = zlen bs) as L1 by (apply zlen_put; rewrite ?zlen_le; lia).
  store (h + 2).
  set (b2 := put _ _ b1). assert (zlen b2 = zlen bs) as L2 by (unfold b2; rewrite zlen_put; rewrite ?zlen_le; lia).
  store (h + 4).
  set (b3 := put _ _ b2). assert (zlen b3 = zlen bs) as L3 by (unfold b3; rewrite zlen_put; rewrite ?zlen_le; lia).
  fetch (h + 4) (ALIGN size 8) ltac:(apply (read_put 4); lia).
  rewrite u64_small by lia.
  store (h + 8).
  set (b4 := put _ _ b3). assert (zlen b4 = zlen bs) as L4 by (unfold b4; rewrite zlen_put; rewrite ?zlen_le; lia).
  store (h + 10).
  assert (put (h + 10) (le_encode 2 0) b4 = put h (private_header item size) bs) as Hp.
  { unfold b4, b3, b2, b1, private_header.
    rewrite (put_next h (h + 2)), (put_next h (h + 4)), (put_next h (h + 8)), (put_next h (h + 10))
      by (rewrite ?zlen_app, ?zlen_le; lia). by rewrite <- !app_assoc. }
  rewrite Hp. clear -Hh Hl Hu Hal Hs.
  assert (within h 12 bs (put h (private_header item size) bs)) as Hw.
  { rewrite <- (zlen_private_header item size) at 1. apply put_within; rewrite ?zlen_private_header; lia. }
  pose proof (within_zlen _ _ _ _ Hw) as Hwl.
  fetch 12 u ltac:(rewrite (read_le_same 0 h _ _ bs); [done|eapply within_same; [done|lia]|lia..]).
  store 12. done.
Qed.

(** What an allocation may do to a partition: nothing but fail, or write one header. *)
Definition alloc_outcome (psize item size : Z) (m : mapping) (r : Z) (m' : mapping) : Prop :=
  r ∈ [- EINVAL; - EEXIST; - ENOSPC] ∧ m' = m ∨
  r = 0 ∧ ∃ h u c, read_le 4 (m_bytes m) ph_offset_free_uncached = Some u ∧
    read_le 4 (m_bytes m) ph_offset_free_cached = Some c ∧
    sizeof_partition_header ≤ h ≤ u ∧ h + (sizeof_private_entry + ALIGN size 8) ≤ c ≤ psize ∧
    m' = mk_map (m_base m) (allocated h item size u (m_bytes m)).

Lemma mapped_allocated psize base bs h item size u :
  mapped psize (mk_map base bs) → 0 ≤ h → h + 12 ≤ zlen bs →
  mapped psize (mk_map base (allocated h item size u bs)).
Proof.
  intros Hm Hh Hl. pose proof Hm as [_ Hs Hlen _]. unfold sizeof_partition_header in Hs. cbn [m_bytes] in Hlen.
  assert (zlen (put h (private_header item size) bs) = zlen bs) as Hz by (apply zlen_put; rewrite ?zlen_private_header; lia).
  unfold allocated. set (bs' := put h _ bs) in *.
  apply (mapped_put psize (mk_map base bs')); [|apply le_encode_bytes|lia|cbn [m_bytes]; rewrite zlen_le; lia].
  apply (mapped_put psize (mk_map base bs)); [done|apply private_header_bytes|done|cbn [m_bytes]; rewrite zlen_private_header; lia].
Qed.

Section alloc.
Context (psize : Z) (m : mapping) (Hm : mapped psize m).

Lemma alloc_walk_safe item end_ : end_ ≤ m_base m + psize → ∀ fuel e,
  m_base m ≤ e < 2 ^ 64 - 2 ^ 33 → end_ - e < Z.of_nat fuel → (0 < fuel)%nat →
  ∃ r, alloc_walk fuel item e end_ m = (Done r, m) ∧
    match r with inl err => err = - EINVAL ∨ err = - EEXIST | inr h => e ≤ h end.
Proof using All.
  intros Hend. pose proof Hm as [_ Hs _ Hb]. unfold sizeof_partition_header in Hs.
  induction fuel as [|fuel IH]; intros e He Hfuel Hpos; [lia|]. cbn [alloc_walk]. unfold sizeof_private_entry.
  rewrite u64_small by lia.
  destruct (Z.ltb_spec e end_); [|by eexists; split; [reflexivity|cbn; lia]].
  destruct (Z.ltb_spec (e + 16) end_); [|by eexists; split; [reflexivity|cbn; lia]].
  cbn [andb]. unfold le16, e_canary, e_item. load c Hc.
  destruct (negb _); [eexists; split; [reflexivity|by left]|]. load it Hit.
  destruct (it =? item); [eexists; split; [reflexivity|by right]|].
  destruct (uncached_next_run psize m Hm e) as (p & Hp & Hpr); unfold sizeof_private_entry; [lia..|].
  rewrite (kbind_Done _ _ _ _ _ Hp). destruct (Z.leb_spec p e); [lia|].
  destruct (IH p) as (r & Hr & Har); [lia..|]. exists r. split; [done|]. destruct r; [done|lia].
Qed.

(** C28: allocating at most 2^32 bytes in a partition (below 4 GB, mapped away from the ends
    of the address space) whose memory other processors may have filled with anything. The
    call ends; it fails with -EINVAL, -EEXIST or -ENOSPC and changes nothing, or it writes
    exactly one item header between the partition's header and the cached items, with room for
    the item behind it, and then advances the free offset. The bound on the size is needed:
    near 2^64 the rounding to eight bytes wraps around. *)
Theorem smem_alloc_private_safe item size :
  0 ≤ size ≤ 2 ^ 32 →
  ∃ r m', qcom_smem_alloc_private (S (Z.to_nat psize)) psize item size m = (Done r, m') ∧ mapped psize m' ∧
    alloc_outcome psize item size m r m'.
Proof using All.
  intros Hsize. pose proof Hm as [_ Hs Hl Hb]. pose proof (align8_range size Hsize) as Hal.
  destruct (free_offsets psize m Hm) as (u & c & Hu & Hc & Hru & Hrc & Hur & Hcr).
  assert (∀ e, e ∈ [- EINVAL; - EEXIST; - ENOSPC] → ∃ r m', (Done e, m) = (Done r, m') ∧ mapped psize m' ∧
    alloc_outcome psize item size m r m') as Hfail.
  { intros e He. exists e, m. split_and!; [done|done|by left]. }
  unfold qcom_smem_alloc_private, sizeof_partition_header, sizeof_private_entry in *. unfold kgets at 1, kbind at 1.
  rewrite (kbind_Done _ _ _ _ _ Hu), (kbind_Done _ _ _ _ _ Hc).
  destruct (_ || _) eqn:Hrange; [apply Hfail; set_solver|]. apply range_refused in Hrange; [|done..].
  unfold phdr_to_first_uncached_entry, sizeof_partition_header. rewrite !(u64_small (m_base m + _)) by lia.
  destruct (alloc_walk_safe item (m_base m + u) ltac:(lia) (S (Z.to_nat psize)) (m_base m + 32))
    as (r & Hr & Har); [lia..|]. rewrite (kbind_Done _ _ _ _ _ Hr).
  destruct r as [err|h]; [apply Hfail; destruct Har as [->| ->]; set_solver|].
  destruct (Z.ltb_spec (m_base m + u) h); [apply Hfail; set_solver|]. rewrite !(u64_small (16 + _)), u64_small by lia.
  destruct (Z.ltb_spec (m_base m + c) (h + (16 + ALIGN size 8))); [apply Hfail; set_solver|].
  assert (∃ h', h = m_base m + h') as [h' ->] by (exists (h - m_base m); lia). destruct m as [base bs]. cbn [m_base m_bytes] in *.
  rewrite (alloc_writes base bs h' item size u) by (done || lia). eexists _, _. split; [reflexivity|]. split.
  { apply mapped_allocated; (done || lia). }
  right. split; [done|]. exists h', u, c. unfold sizeof_partition_header, sizeof_private_entry.
  split_and!; (done || lia).
Qed.
End alloc.

Lemma smem_alloc_private_safe_witness :
  ∃ r m', qcom_smem_alloc_private (S (Z.to_nat 80)) 80 11 4 hostile = (Done r, m') ∧ mapped 80 m' ∧
    alloc_outcome 80 11 4 hostile r m'.
Proof. apply (smem_alloc_private_safe 80 hostile hostile_mapped 11 4). lia. Defined.
