(* ===== verification/SmemHeap.v ===== *)
(** * A partition is a heap of named items

    Seen from its clients a partition is two lists of items with contents: those this
    processor can extend and those the other side keeps cached, and some room.  The
    theorem is that the walks over raw memory of [qcom_smem_alloc_private] and
    [qcom_smem_get_private] implement this: items keep their contents whatever is
    allocated or written elsewhere, and allocation fails exactly for a duplicate or for
    lack of room. *)

From S2P Require Import Prelude Memory Smem SmemSafe.

(** ** The specification *)

Abbreviation items := (list (Z * list Z)).

Record heap_spec := mk_heap { sh_items : items; sh_cached : items; sh_room : Z }.

Fixpoint slookup (item : Z) (l : items) : option (list Z) :=
  match l with [] => None | (i, d) :: l => if i =? item then Some d else slookup item l end.

Fixpoint supd (item : Z) (f : list Z → list Z) (l : items) : items :=
  match l with [] => [] | (i, d) :: l => if i =? item then (i, f d) :: l else (i, d) :: supd item f l end.

Definition heap_lookup (item : Z) (S : heap_spec) : option (list Z) :=
  match slookup item (sh_items S) with Some d => Some d | None => slookup item (sh_cached S) end.

Definition heap_upd (item : Z) (f : list Z → list Z) (S : heap_spec) : heap_spec :=
  match slookup item (sh_items S) with
  | Some _ => mk_heap (supd item f (sh_items S)) (sh_cached S) (sh_room S)
  | None => mk_heap (sh_items S) (supd item f (sh_cached S)) (sh_room S)
  end.

Inductive call := CAlloc (item size : Z) | CRead (item : Z) | CWrite (item off : Z) (bs : list Z).
Inductive answer := AErr (err : Z) | AOk | ABytes (bs : list Z).

Definition rounded (size : Z) : Z := sizeof_private_entry + (size + 7) / 8 * 8.

(** What each call answers and does; only the first contents of an item are open. *)
Inductive heap_step (S : heap_spec) : call → answer → heap_spec → Prop :=
  | step_exists item size d : slookup item (sh_items S) = Some d →
      heap_step S (CAlloc item size) (AErr (- EEXIST)) S
  | step_full item size : slookup item (sh_items S) = None → sh_room S < rounded size →
      heap_step S (CAlloc item size) (AErr (- ENOSPC)) S
  | step_alloc item size d : slookup item (sh_items S) = None → rounded size ≤ sh_room S → zlen d = size →
      heap_step S (CAlloc item size) AOk
        (mk_heap (sh_items S ++ [(item, d)]) (sh_cached S) (sh_room S - rounded size))
  | step_absent_read item : heap_lookup item S = None → heap_step S (CRead item) (AErr (- ENOENT)) S
  | step_read item d : heap_lookup item S = Some d → heap_step S (CRead item) (ABytes d) S
  | step_absent_write item off w : heap_lookup item S = None → heap_step S (CWrite item off w) (AErr (- ENOENT)) S
  | step_refuse item off w d : heap_lookup item S = Some d → ¬ (0 ≤ off ∧ off + zlen w ≤ zlen d) →
      heap_step S (CWrite item off w) (AErr (- EINVAL)) S
  | step_write item off w d : heap_lookup item S = Some d → 0 ≤ off → off + zlen w ≤ zlen d →
      heap_step S (CWrite item off w) AOk (heap_upd item (put off w) S).

Inductive heap_steps (S : heap_spec) : list call → list answer → heap_spec → Prop :=
  | steps_nil : heap_steps S [] [] S
  | steps_cons c a S1 cs ans S2 : heap_step S c a S1 → heap_steps S1 cs ans S2 → heap_steps S (c :: cs) (a :: ans) S2.

(** ** The clients

    A client allocates, and looks an item up before it reads or writes the whole or a
    part of it. *)

Definition memcpy_toio (addr : Z) (w : list Z) : KM mapping unit := λ m,
  let off := addr - m_base m in
  if bool_decide (0 ≤ off ∧ off + zlen w ≤ zlen (m_bytes m))
  then (Done tt, mk_map (m_base m) (put off w (m_bytes m))) else (Undef, m).

Definition smem_call (psize line : Z) (c : call) : KM mapping answer :=
  let fuel := S (Z.to_nat psize) in
  match c with
  | CAlloc item size =>
      let* r := qcom_smem_alloc_private fuel psize item size in kret (if r =? 0 then AOk else AErr r)
  | CRead item =>
      let* r := qcom_smem_get_private fuel psize line item in
      match r with
      | inl err => kret (AErr err)
      | inr (ptr, size) => let* bs := ld_bytes size ptr in kret (ABytes bs)
      end
  | CWrite item off w =>
      let* r := qcom_smem_get_private fuel psize line item in
      match r with
      | inl err => kret (AErr err)
      | inr (ptr, size) =>
          if (0 <=? off) && (off + zlen w <=? size) then memcpy_toio (ptr + off) w ;;; kret AOk
          else kret (AErr (- EINVAL))
      end
  end.

Fixpoint smem_calls (psize line : Z) (cs : list call) : KM mapping (list answer) :=
  match cs with
  | [] => kret []
  | c :: cs => let* a := smem_call psize line c in let* l := smem_calls psize line cs in kret (a :: l)
  end.

(** ** The representation *)

(** An item in memory: where its header and its data are, and what the header says. *)
Record ent := mk_ent { pos : Z; ptr : Z; eid : Z; esz : Z; epad : Z; dat : list Z }.

Definition ent_ok (psize : Z) (bs : list Z) (e : ent) : Prop :=
  read_le 2 bs (pos e + e_canary) = Some SMEM_PRIVATE_CANARY ∧ read_le 2 bs (pos e + e_item) = Some (eid e) ∧
  read_le 4 bs (pos e + e_size) = Some (esz e) ∧ read_le 2 bs (pos e + e_padding_data) = Some (epad e) ∧
  has bs (ptr e) (dat e) ∧ zlen (dat e) = esz e - epad e ∧ 0 ≤ epad e < esz e ∧ esz e < psize.

(** Uncached items follow one another up to the free offset. *)
Fixpoint uchain (psize : Z) (bs : list Z) (o : Z) (l : list ent) (u : Z) : Prop :=
  match l with
  | [] => o = u
  | e :: l => pos e = o ∧ ent_ok psize bs e ∧ read_le 2 bs (o + e_padding_hdr) = Some (ptr e - o - 16) ∧
      o + 16 ≤ ptr e ∧ ptr e + esz e ≤ u ∧ uchain psize bs (ptr e + esz e) l u
  end.

(** Cached items go down from the end, each below its header. *)
Fixpoint cchain (psize A : Z) (bs : list Z) (o : Z) (l : list ent) (c : Z) : Prop :=
  match l with
  | [] => 0 ≤ o ≤ c
  | e :: l => pos e = o ∧ ent_ok psize bs e ∧ ptr e = o - esz e ∧ c ≤ ptr e ∧
      cchain psize A bs (ptr e - A) l c
  end.

Definition item_of (e : ent) : Z * list Z := (eid e, dat e).

(** Both lists of a partition, with the free offsets [u] and [c] between them. *)
Record placed (psize line : Z) (bs : list Z) (u c : Z) (ul cl : list ent) : Prop := {
  pl_size : read_le 4 bs ph_size = Some psize;
  pl_free_uncached : read_le 4 bs ph_offset_free_uncached = Some u;
  pl_free_cached : read_le 4 bs ph_offset_free_cached = Some c;
  pl_order : 32 ≤ u ≤ c;
  pl_end : c ≤ psize;
  pl_uncached : uchain psize bs 32 ul u;
  pl_cached : cl = [] ∧ c = psize ∨
    c < psize ∧ 16 ≤ ALIGN sizeof_private_entry line ∧ c ≤ psize - ALIGN sizeof_private_entry line ∧
    cchain psize (ALIGN sizeof_private_entry line) bs (psize - ALIGN sizeof_private_entry line) cl c;
}.

Definition rep (psize line : Z) (m : mapping) (S : heap_spec) : Prop :=
  mapped psize m ∧ 0 ≤ line < 2 ^ 32 ∧ ∃ u c ul cl, placed psize line (m_bytes m) u c ul cl ∧
    S = mk_heap (item_of <$> ul) (item_of <$> cl) (c - u).

(** ** Finding and updating *)

Fixpoint efind (item : Z) (l : list ent) : option ent :=
  match l with [] => None | e :: l => if eid e =? item then Some e else efind item l end.

Definition set_dat (f : list Z → list Z) (e : ent) : ent := mk_ent (pos e) (ptr e) (eid e) (esz e) (epad e) (f (dat e)).

Fixpoint eupd (item : Z) (f : list Z → list Z) (l : list ent) : list ent :=
  match l with [] => [] | e :: l => if eid e =? item then set_dat f e :: l else e :: eupd item f l end.

Lemma slookup_find item l : slookup item (item_of <$> l) = dat <$> efind item l.
Proof. induction l as [|e l IH]; [done|]. cbn. destruct (eid e =? item); [done|apply IH]. Qed.

Lemma supd_upd item f l : supd item f (item_of <$> l) = item_of <$> eupd item f l.
Proof.
  induction l as [|e l IH]; [done|]. cbn. destruct (eid e =? item); [done|]. cbn. f_equal. apply IH.
Qed.

Lemma has_same lo hi bs bs' off d : same_on lo hi bs bs' → lo ≤ off → off + zlen d ≤ hi → has bs off d → has bs' off d.
Proof. intros H H1 H2. unfold has. by rewrite (subrange_same lo hi _ _ bs bs'). Qed.

Lemma ent_ok_same lo hi psize bs bs' e : same_on lo hi bs bs' → lo ≤ pos e → pos e + 10 ≤ hi → lo ≤ ptr e →
  ptr e + zlen (dat e) ≤ hi → ent_ok psize bs e → ent_ok psize bs' e.
Proof.
  unfold ent_ok, e_canary, e_item, e_size, e_padding_data. intros H H1 H2 H3 H4 (E1 & E2 & E3 & E4 & E5 & E6).
  rewrite !(read_le_same lo hi _ _ bs bs') by (done || lia). pose proof (has_same lo hi bs bs' _ _ H H3 H4 E5). tauto.
Qed.

Lemma uchain_le psize bs o l u : uchain psize bs o l u → o ≤ u.
Proof.
  revert o. induction l as [|e l IH]; intros o; cbn [uchain]; [lia|].
  intros (_ & (_ & _ & _ & _ & _ & _ & Hp & _) & _ & H1 & H2 & H3). lia.
Qed.

Lemma uchain_same psize bs bs' o l u : same_on o u bs bs' → uchain psize bs o l u → uchain psize bs' o l u.
Proof.
  revert o. induction l as [|e l IH]; intros o Hs; cbn [uchain]; [done|].
  intros (Hpos & Hok & Hp & H1 & H2 & H3). pose proof Hok as (_ & _ & _ & _ & _ & Hz & Hpad & _).
  unfold e_padding_hdr in *. split_and!; try done.
  - eapply ent_ok_same; [done|lia..|done].
  - by rewrite (read_le_same o u _ _ bs bs') by (done || lia).
  - apply IH; [|done]. eapply same_on_mono; [done|lia..].
Qed.

Lemma cchain_same psize A bs bs' hi o l c : 16 ≤ A → same_on c hi bs bs' → o + 16 ≤ hi →
  cchain psize A bs o l c → cchain psize A bs' o l c.
Proof.
  intros HA Hs. revert o. induction l as [|e l IH]; intros o Ho; cbn [cchain]; [done|].
  intros (Hpos & Hok & Hp & H1 & H2). pose proof Hok as (_ & _ & _ & _ & _ & Hz & Hpad & _).
  split_and!; try done.
  - eapply ent_ok_same; [done|lia..|done].
  - apply IH; [lia|done].
Qed.

(** ** Looking up *)

(** Load at an offset of the mapping, from a hypothesis. *)
Ltac fetch_hyp :=
  match goal with
  | H : read_le ?n ?bs ?off = Some ?z |- context [kbind (ld ?n ?addr) _ (mk_map ?base ?bs)] =>
      rewrite (kbind_Done _ _ _ _ _ (ld_at base bs n addr off z ltac:(lia) H))
  end.

Lemma uncached_next_at base bs o p s :
  read_le 2 bs (o + 10) = Some (p - o - 16) → read_le 4 bs (o + 4) = Some s → 0 ≤ base + (p + s) < 2 ^ 64 →
  uncached_entry_next (base + o) (mk_map base bs) = (Done (base + (p + s)), mk_map base bs).
Proof.
  intros H1 H2 H3. unfold uncached_entry_next, le16, le32, e_padding_hdr, e_size, sizeof_private_entry, kret. do 2 fetch_hyp.
  rewrite u64_small by lia. do 2 f_equal; lia.
Qed.

Section lookup.
Context (psize base : Z) (bs : list Z) (Hm : mapped psize (mk_map base bs)).

Lemma found_run e lo hi to_item : ent_ok psize bs e →
  to_item (base + pos e) (mk_map base bs) = (Done (base + ptr e), mk_map base bs) →
  0 ≤ base + ptr e → lo ≤ base + ptr e → base + ptr e + zlen (dat e) ≤ hi → hi < 2 ^ 64 →
  found_item psize (base + pos e) to_item lo hi (mk_map base bs) = (Done (inr (base + ptr e, zlen (dat e))), mk_map base bs).
Proof using All.
  intros (_ & _ & E3 & E4 & _ & E6 & E7 & E8) Hto H0 H1 H2 H3. pose proof (zlen_nonneg (dat e)).
  unfold found_item, le32, le16. unfold e_size, e_padding_data in *. do 2 fetch_hyp.
  destruct (Z.ltb_spec (esz e) psize); [|lia]. destruct (Z.ltb_spec (epad e) (esz e)); [|lia]. cbn [andb].
  rewrite (kbind_Done _ _ _ _ _ Hto). unfold IN_PARTITION_RANGE. rewrite <- E6, u64_small by lia.
  destruct (Z.leb_spec lo (base + ptr e)); [|lia]. destruct (Z.leb_spec (base + ptr e) (base + ptr e + zlen (dat e))); [|lia].
  destruct (Z.leb_spec (base + ptr e + zlen (dat e)) hi); [done|lia].
Qed.

Lemma get_uncached_chain item u : u ≤ psize → ∀ l o fuel,
  32 ≤ o → uchain psize bs o l u → u - o < Z.of_nat fuel → (0 < fuel)%nat →
  get_uncached fuel psize item (base + o) (base + u) (mk_map base bs) =
  (Done (match efind item l with Some e => inl (inr (base + ptr e, zlen (dat e))) | None => inr (base + u) end), mk_map base bs).
Proof using All.
  intros Hu. pose proof Hm as [_ Hs _ Hb]. cbn [m_base] in Hb.
  induction l as [|e l IH]; intros o [|fuel] Ho Hch Hf Hf0; try lia;
    pose proof (uchain_le _ _ _ _ _ Hch); cbn [get_uncached uchain efind] in *;
    unfold sizeof_private_entry; rewrite u64_small by lia.
  - subst o. destruct (Z.ltb_spec (base + u) (base + u)); [lia|done].
  - destruct Hch as (Hpos & Hok & Hpad & H1 & H2 & H3). pose proof Hok as (E1 & E2 & E3 & E4 & E5 & E6 & E7 & E8).
    unfold e_canary, e_item, e_size, e_padding_data, e_padding_hdr, le16, le32 in *. rewrite Hpos in E1, E2, E3, E4.
    destruct (Z.ltb_spec (base + o) (base + u)); [|lia]. destruct (Z.ltb_spec (base + o + 16) (base + u)); [|lia].
    cbn [andb]. fetch_hyp. rewrite Z.eqb_refl. cbn [negb]. fetch_hyp. destruct (eid e =? item).
    + rewrite <- Hpos. rewrite (kbind_Done _ _ _ _ _ (found_run e (base + pos e) (base + u) uncached_entry_to_item Hok ltac:(
        unfold uncached_entry_to_item, le16; rewrite Hpos; unfold e_padding_hdr; fetch_hyp; unfold sizeof_private_entry, kret;
        rewrite u64_small by lia; do 2 f_equal; lia) ltac:(lia) ltac:(lia) ltac:(lia) ltac:(lia))). done.
    + rewrite (kbind_Done _ _ _ _ _ (uncached_next_at base bs o (ptr e) (esz e) Hpad E3 ltac:(lia))). destruct (Z.leb_spec (base + (ptr e + esz e)) (base + o)); [lia|].
      apply IH; [lia|done|lia..].
Qed.

Lemma get_cached_chain line item c : 0 ≤ c → 0 ≤ line < 2 ^ 32 → ∀ l o fuel,
  o + 16 ≤ psize → cchain psize (ALIGN sizeof_private_entry line) bs o l c → o - c < Z.of_nat fuel → (0 < fuel)%nat →
  ∃ r, get_cached fuel psize line item (base + o) (base + c) (mk_map base bs) =
    (Done (match efind item l with Some e => inl (inr (base + ptr e, zlen (dat e))) | None => inr (base + r) end), mk_map base bs) ∧
    0 ≤ r.
Proof using All.
  intros Hc Hline. pose proof Hm as [_ Hs _ Hb]. cbn [m_base] in Hb. pose proof (align_range line Hline) as HA.
  induction l as [|e l IH]; intros o [|fuel] Ho Hch Hf Hf0; try lia; cbn [get_cached cchain efind] in *.
  - exists o. destruct (Z.ltb_spec (base + c) (base + o)); [lia|]. split; [done|lia].
  - destruct Hch as (Hpos & Hok & Hptr & H1 & H2). pose proof Hok as (E1 & E2 & E3 & E4 & E5 & E6 & E7 & E8).
    unfold e_canary, e_item, e_size, e_padding_data, e_padding_hdr, le16, le32 in *. rewrite Hpos in E1, E2, E3, E4.
    destruct (Z.ltb_spec (base + c) (base + o)); [|lia]. fetch_hyp. rewrite Z.eqb_refl. cbn [negb]. fetch_hyp.
    destruct (eid e =? item).
    + rewrite <- Hpos. rewrite (kbind_Done _ _ _ _ _ (found_run e (base + c) (base + pos e) cached_entry_to_item Hok ltac:(
        unfold cached_entry_to_item, le32; rewrite Hpos; unfold e_size; fetch_hyp; unfold kret;
        rewrite u64_small by lia; do 2 f_equal; lia) ltac:(lia) ltac:(lia) ltac:(lia) ltac:(lia))). by exists 0.
    + assert (cached_entry_next (base + o) line (mk_map base bs) =
        (Done (base + (ptr e - ALIGN sizeof_private_entry line)), mk_map base bs)) as Hn.
      { unfold cached_entry_next, le32, e_size, kret. fetch_hyp. rewrite u64_small by lia. do 2 f_equal; lia. }
      rewrite (kbind_Done _ _ _ _ _ Hn).
      destruct (Z.leb_spec (base + o) (base + (ptr e - ALIGN sizeof_private_entry line))); [lia|].
      apply IH; [lia|done|lia..].
Qed.

(** The two free pointers, from their offsets. *)
Lemma last_entries u c :
  read_le 4 bs ph_offset_free_uncached = Some u → read_le 4 bs ph_offset_free_cached = Some c → 0 ≤ u < 2 ^ 32 → 0 ≤ c < 2 ^ 32 →
  phdr_to_last_uncached_entry base (mk_map base bs) = (Done (base + u), mk_map base bs) ∧
  phdr_to_last_cached_entry base (mk_map base bs) = (Done (base + c), mk_map base bs).
Proof using All.
  intros Hu Hc Hur Hcr. pose proof Hm as [_ Hs _ Hb]. cbn [m_base] in Hb.
  unfold phdr_to_last_uncached_entry, phdr_to_last_cached_entry, le32, kret. split; fetch_hyp; by rewrite u64_small by lia.
Qed.

Lemma range_ok lo p hi : 0 ≤ lo ≤ p → p ≤ hi → hi < 2 ^ 64 → IN_PARTITION_RANGE p 0 lo hi = true.
Proof.
  intros H1 H2 H3. unfold IN_PARTITION_RANGE. rewrite Z.add_0_r, u64_small by lia. rewrite !andb_true_iff, !Z.leb_le. lia.
Qed.
End lookup.

Definition pfind (item : Z) (ul cl : list ent) : option ent :=
  match efind item ul with Some e => Some e | None => efind item cl end.

Lemma get_private_run psize line base bs item u c ul cl :
  mapped psize (mk_map base bs) → 0 ≤ line < 2 ^ 32 → placed psize line bs u c ul cl →
  qcom_smem_get_private (S (Z.to_nat psize)) psize line item (mk_map base bs) =
  (Done (match pfind item ul cl with Some e => inr (base + ptr e, zlen (dat e)) | None => inl (- ENOENT) end), mk_map base bs).
Proof.
  intros Hm Hline [Hps Hu Hc Huc Hcp Hch Hcl]. pose proof Hm as [_ Hs _ Hb]. cbn [m_base] in Hb.
  pose proof (align_range line Hline) as HA.
  destruct (last_entries psize base bs Hm u c Hu Hc) as [Lu Lc]; [lia..|].
  unfold qcom_smem_get_private. unfold kgets at 1, kbind at 1. cbn [m_base].
  rewrite (kbind_Done _ _ _ _ _ Lu), (kbind_Done _ _ _ _ _ Lc), range_ok by lia.
  rewrite (u64_small (base + psize)) by lia.
  destruct (Z.ltb_spec (base + psize) (base + c)); [lia|]. cbn [negb orb].
  unfold phdr_to_first_uncached_entry, sizeof_partition_header. rewrite u64_small by lia.
  rewrite (kbind_Done _ _ _ _ _ (get_uncached_chain psize base bs Hm item u ltac:(lia) ul 32 (S (Z.to_nat psize)) ltac:(lia) Hch ltac:(lia) ltac:(lia))).
  unfold pfind. destruct (efind item ul) as [e|]; [done|]. destruct (Z.ltb_spec (base + u) (base + u)); [lia|].
  destruct Hcl as [[-> ->]|(Hlt & H16 & Hca & Hcc)]; [by rewrite Z.eqb_refl|].
  destruct (Z.eqb_spec (base + c) (base + psize)); [lia|].
  assert (phdr_to_first_cached_entry base line (mk_map base bs) =
    (Done (base + (psize - ALIGN sizeof_private_entry line)), mk_map base bs)) as Hf.
  { unfold phdr_to_first_cached_entry, le32, ph_size, kret in *. fetch_hyp. rewrite u64_small by lia. do 2 f_equal; lia. }
  rewrite (kbind_Done _ _ _ _ _ Hf), range_ok by lia. cbn [negb orb].
  assert (IN_PARTITION_RANGE (base + (psize - ALIGN sizeof_private_entry line)) sizeof_private_entry (base + c) (base + psize) = true) as ->.
  { unfold IN_PARTITION_RANGE. rewrite u64_small by (unfold sizeof_private_entry in *; lia).
    rewrite !andb_true_iff, !Z.leb_le. unfold sizeof_private_entry in *; lia. }
  cbn [negb]. destruct (get_cached_chain psize base bs Hm line item c ltac:(lia) Hline cl
    (psize - ALIGN sizeof_private_entry line) (S (Z.to_nat psize))) as (r & Hr & Hr0); [lia|done|lia..|].
  rewrite (kbind_Done _ _ _ _ _ Hr). destruct (efind item cl) as [e|]; [done|].
  destruct (Z.ltb_spec (base + r) base); [lia|done].
Qed.

(** ** Writing *)

Lemma has_put bs p d off w : has bs p d → 0 ≤ off → off + zlen w ≤ zlen d → has (put (p + off) w bs) p (put off w d).
Proof.
  intros (pre & post & -> & ->)%has_split H1 H2. apply has_split.
  exists pre, post. split; [|done]. unfold put, zlen in *.
  replace (Z.to_nat (Z.of_nat (length pre) + off)) with (length pre + Z.to_nat off)%nat by lia.
  rewrite take_app_add, <- app_assoc. f_equal.
  rewrite <- Nat.add_assoc, drop_app_add, <- !app_assoc.
  rewrite take_app_le by lia. f_equal. f_equal. rewrite drop_app_le by lia. done.
Qed.

Lemma set_dat_ok psize bs e off w : ent_ok psize bs e → 0 ≤ off → off + zlen w ≤ zlen (dat e) →
  ptr e + esz e ≤ pos e ∨ pos e + 10 ≤ ptr e → 0 ≤ pos e →
  ent_ok psize (put (ptr e + off) w bs) (set_dat (put off w) e).
Proof.
  intros (E1 & E2 & E3 & E4 & E5 & E6 & E7 & E8) H1 H2 Hd Hp. pose proof (has_range _ _ _ E5) as [R1 R2].
  pose proof (put_within (ptr e + off) w bs ltac:(lia) ltac:(lia)) as Hw.
  assert (same_on (pos e) (pos e + 10) bs (put (ptr e + off) w bs)) as Hs by (eapply within_same; [done|lia]).
  unfold ent_ok, set_dat, e_canary, e_item, e_size, e_padding_data in *; cbn [pos ptr eid esz epad dat].
  rewrite !(read_le_same (pos e) (pos e + 10) _ _ bs _ Hs) by lia. split_and!; try done; try lia; [by apply has_put|].
  rewrite zlen_put by lia. done.
Qed.

(** Where an item's data lies. *)
Lemma ufind_in psize bs item u l o e : uchain psize bs o l u → efind item l = Some e →
  ent_ok psize bs e ∧ o + 16 ≤ ptr e ∧ ptr e + esz e ≤ u.
Proof.
  revert o. induction l as [|e' l IH]; intros o; cbn [uchain efind]; [done|]. intros (Hpos & Hok & _ & H1 & H2 & H3) Hf.
  pose proof Hok as (_ & _ & _ & _ & _ & _ & Hp & _).
  destruct (eid e' =? item); [by simplify_eq|]. destruct (IH _ H3 Hf) as (? & ? & ?). split_and!; [done|lia|done].
Qed.

Lemma cfind_in psize A bs item c l o e : 0 ≤ A → cchain psize A bs o l c → efind item l = Some e →
  ent_ok psize bs e ∧ c ≤ ptr e ∧ ptr e + esz e ≤ o.
Proof.
  intros HA. revert o. induction l as [|e' l IH]; intros o; cbn [cchain efind]; [done|]. intros (Hpos & Hok & Hp & H1 & H2) Hf.
  pose proof Hok as (_ & _ & _ & _ & _ & _ & Hpad & _).
  destruct (eid e' =? item); [simplify_eq; split_and!; (done || lia)|].
  destruct (IH _ H2 Hf) as (? & ? & ?). split_and!; [done|lia|lia].
Qed.

Lemma uchain_write psize bs item off w u l o e : 0 ≤ o → uchain psize bs o l u → efind item l = Some e →
  0 ≤ off → off + zlen w ≤ zlen (dat e) →
  uchain psize (put (ptr e + off) w bs) o (eupd item (put off w) l) u.
Proof.
  intros Ho Hch Hf H1 H2. revert o Ho Hch Hf.
  induction l as [|e' l IH]; intros o Ho Hch Hf; [done|].
  destruct (ufind_in _ _ _ _ _ _ _ Hch Hf) as (Hok & Hlo & Hhi). pose proof Hok as (_ & _ & _ & _ & E5 & E6 & E7 & _).
  pose proof (has_range _ _ _ E5) as [R1 R2]. pose proof (put_within (ptr e + off) w bs ltac:(lia) ltac:(lia)) as Hw.
  cbn [uchain efind eupd] in *. destruct Hch as (Hpos & Hok' & Hp & H3 & H4 & H5). unfold e_padding_hdr in *.
  destruct (eid e' =? item).
  - simplify_eq. cbn [uchain set_dat pos ptr esz].
    assert (same_on (pos e) (ptr e) bs (put (ptr e + off) w bs)) as Hs by (eapply within_same; [done|lia]).
    split_and!; try done; [apply set_dat_ok; (done || lia)| |].
    + by rewrite (read_le_same (pos e) (ptr e) _ _ bs _ Hs) by (unfold e_padding_hdr; lia).
    + eapply uchain_same; [|done]. eapply within_same; [done|lia].
  - destruct (ufind_in _ _ _ _ _ _ _ H5 Hf) as (_ & Hlo' & _). pose proof Hok' as (_ & _ & _ & _ & _ & E6' & E7' & _).
    assert (same_on o (ptr e' + esz e') bs (put (ptr e + off) w bs)) as Hs by (eapply within_same; [done|lia]).
    cbn [uchain]. split_and!; try done.
    + eapply ent_ok_same; [done|lia..|done].
    + by rewrite (read_le_same o (ptr e' + esz e') _ _ bs _ Hs) by (unfold e_padding_hdr; lia).
    + apply IH; [lia|done..].
Qed.

Lemma cchain_write psize A bs item off w c l o e : 16 ≤ A → 0 ≤ c → cchain psize A bs o l c → efind item l = Some e →
  0 ≤ off → off + zlen w ≤ zlen (dat e) →
  cchain psize A (put (ptr e + off) w bs) o (eupd item (put off w) l) c.
Proof.
  intros HA Hc Hch Hf H1 H2. assert (0 ≤ A) as HA0 by lia. revert o Hch Hf.
  induction l as [|e' l IH]; intros o Hch Hf; [done|].
  destruct (cfind_in _ _ _ _ _ _ _ _ HA0 Hch Hf) as (Hok & Hlo & Hhi). pose proof Hok as (_ & _ & _ & _ & E5 & E6 & E7 & _).
  pose proof (has_range _ _ _ E5) as [R1 R2]. pose proof (put_within (ptr e + off) w bs ltac:(lia) ltac:(lia)) as Hw.
  cbn [cchain efind eupd] in *. destruct Hch as (Hpos & Hok' & Hp & H3 & H4).
  destruct (eid e' =? item).
  - simplify_eq. cbn [cchain set_dat pos ptr esz]. split_and!; try done; [apply set_dat_ok; (done || lia)|].
    eapply (cchain_same _ _ bs _ (ptr e)); [done| |lia|done]. eapply within_same; [done|lia].
  - destruct (cfind_in _ _ _ _ _ _ _ _ HA0 H4 Hf) as (_ & _ & Hhi'). pose proof Hok' as (_ & _ & _ & _ & _ & E6' & E7' & _).
    cbn [cchain]. split_and!; try done; [|by apply IH].
    eapply (ent_ok_same (ptr e') (pos e' + 16)); [eapply within_same; [done|lia]|lia..|done].
Qed.

Lemma placed_write psize line bs u c ul cl item e off w : 0 ≤ line < 2 ^ 32 →
  placed psize line bs u c ul cl → pfind item ul cl = Some e → 0 ≤ off → off + zlen w ≤ zlen (dat e) →
  ∃ ul' cl', placed psize line (put (ptr e + off) w bs) u c ul' cl' ∧
    mk_heap (item_of <$> ul') (item_of <$> cl') (c - u) =
    heap_upd item (put off w) (mk_heap (item_of <$> ul) (item_of <$> cl) (c - u)).
Proof.
  intros Hline [Hps Hu Hc Huc Hcp Hch Hcl] Hf H1 H2. pose proof (align_range line Hline) as HA. unfold heap_upd. cbn [sh_items sh_cached sh_room].
  rewrite slookup_find. unfold pfind in Hf.
  assert (∀ lo hi, 0 ≤ ptr e → ptr e + zlen (dat e) ≤ zlen bs → hi ≤ ptr e ∨ ptr e + zlen (dat e) ≤ lo →
    same_on lo hi bs (put (ptr e + off) w bs)) as Hs.
  { intros lo hi P1 P2 P3. eapply within_same; [apply put_within|]; lia. }
  unfold ph_size, ph_offset_free_uncached, ph_offset_free_cached in *.
  destruct (efind item ul) as [e'|] eqn:Hfu; cbn [fmap option_fmap option_map].
  - simplify_eq. exists (eupd item (put off w) ul), cl. rewrite supd_upd. split; [|done].
    destruct (ufind_in _ _ _ _ _ _ _ Hch Hfu) as (Hok & P1 & P2). pose proof Hok as (_ & _ & _ & _ & E5 & E6 & E7 & _).
    pose proof (has_range _ _ _ E5) as [R1 R2].
    split; unfold ph_size, ph_offset_free_uncached, ph_offset_free_cached;
      rewrite ?(read_le_same 0 32 _ _ bs _ (Hs 0 32 ltac:(lia) ltac:(lia) ltac:(lia))) by lia; try (done || lia).
    + by apply uchain_write.
    + destruct Hcl as [?|(Q1 & Q2 & Q3 & Q4)]; [by left|]. right. split_and!; try done.
      eapply (cchain_same _ _ bs _ psize); [done|apply Hs; lia|lia|done].
  - destruct Hcl as [[-> _]|(Q1 & Q2 & Q3 & Q4)]; [done|].
    exists ul, (eupd item (put off w) cl). rewrite supd_upd. split; [|done].
    destruct (cfind_in _ _ _ _ _ _ _ _ (proj1 HA) Q4 Hf) as (Hok & P1 & P2). pose proof Hok as (_ & _ & _ & _ & E5 & E6 & E7 & _).
    pose proof (has_range _ _ _ E5) as [R1 R2].
    split; unfold ph_size, ph_offset_free_uncached, ph_offset_free_cached;
      rewrite ?(read_le_same 0 32 _ _ bs _ (Hs 0 32 ltac:(lia) ltac:(lia) ltac:(lia))) by lia; try (done || lia).
    + eapply uchain_same; [apply Hs; lia|done].
    + right. split_and!; try done. apply cchain_write; (done || lia).
Qed.

(** ** Allocating *)

Lemma alloc_walk_chain psize base bs item u : mapped psize (mk_map base bs) → u ≤ psize → ∀ l o fuel,
  32 ≤ o → uchain psize bs o l u → u - o < Z.of_nat fuel → (0 < fuel)%nat →
  alloc_walk fuel item (base + o) (base + u) (mk_map base bs) =
  (Done (match efind item l with Some e => inl (- EEXIST) | None => inr (base + u) end), mk_map base bs).
Proof.
  intros Hm Hu. pose proof Hm as [_ Hs _ Hb]. cbn [m_base] in Hb.
  induction l as [|e l IH]; intros o [|fuel] Ho Hch Hf Hf0; try lia;
    pose proof (uchain_le _ _ _ _ _ Hch); cbn [alloc_walk uchain efind] in *;
    unfold sizeof_private_entry; rewrite u64_small by lia.
  - subst o. destruct (Z.ltb_spec (base + u) (base + u)); [lia|done].
  - destruct Hch as (Hpos & Hok & Hpad & H1 & H2 & H3). pose proof Hok as (E1 & E2 & E3 & E4 & E5 & E6 & E7 & E8).
    unfold e_canary, e_item, e_size, e_padding_data, e_padding_hdr, le16, le32 in *. rewrite Hpos in E1, E2, E3, E4.
    destruct (Z.ltb_spec (base + o) (base + u)); [|lia]. destruct (Z.ltb_spec (base + o + 16) (base + u)); [|lia].
    cbn [andb]. fetch_hyp. rewrite Z.eqb_refl. cbn [negb]. fetch_hyp. destruct (eid e =? item); [done|].
    rewrite (kbind_Done _ _ _ _ _ (uncached_next_at base bs o (ptr e) (esz e) Hpad E3 ltac:(lia))). destruct (Z.leb_spec (base + (ptr e + esz e)) (base + o)); [lia|].
    apply IH; [lia|done|lia..].
Qed.

Lemma alloc_private_run psize line base bs item size u c ul cl :
  mapped psize (mk_map base bs) → placed psize line bs u c ul cl → 0 ≤ size ≤ 2 ^ 32 →
  qcom_smem_alloc_private (S (Z.to_nat psize)) psize item size (mk_map base bs) =
  match efind item ul with
  | Some _ => (Done (- EEXIST), mk_map base bs)
  | None => if c - u <? rounded size then (Done (- ENOSPC), mk_map base bs)
            else (Done 0, mk_map base (allocated u item size u bs))
  end.
Proof.
  intros Hm [Hps Hu Hc Huc Hcp Hch Hcl] Hsz. pose proof Hm as [_ Hs Hl Hb]. cbn [m_base m_bytes] in Hb, Hl.
  pose proof (align8_range size Hsz) as Hal.
  destruct (last_entries psize base bs Hm u c Hu Hc) as [Lu Lc]; [lia..|].
  unfold qcom_smem_alloc_private. unfold kgets at 1, kbind at 1. cbn [m_base].
  rewrite (kbind_Done _ _ _ _ _ Lu), (kbind_Done _ _ _ _ _ Lc), range_ok by lia.
  rewrite (u64_small (base + psize)) by lia.
  destruct (Z.ltb_spec (base + psize) (base + c)); [lia|]. cbn [negb orb].
  unfold phdr_to_first_uncached_entry, sizeof_partition_header. rewrite (u64_small (base + 32)) by lia.
  rewrite (kbind_Done _ _ _ _ _ (alloc_walk_chain psize base bs item u Hm ltac:(lia) ul 32 (S (Z.to_nat psize)) ltac:(lia) Hch ltac:(lia) ltac:(lia))).
  destruct (efind item ul) as [e|]; [done|]. destruct (Z.ltb_spec (base + u) (base + u)); [lia|].
  unfold rounded. rewrite <- (align8 size Hsz). unfold sizeof_private_entry. rewrite (u64_small (16 + _)), u64_small by lia.
  destruct (Z.ltb_spec (base + c) (base + u + (16 + ALIGN size 8))); destruct (Z.ltb_spec (c - u) (16 + ALIGN size 8)); try lia; [done|].
  apply alloc_writes; (done || lia).
Qed.

Lemma read_has n bs off z : has bs off (le_encode n z) → 0 ≤ z < 2 ^ (8 * Z.of_nat n) → read_le (Z.of_nat n) bs off = Some z.
Proof.
  unfold has, read_le. rewrite zlen_le. intros -> Hz. cbn. by rewrite read_le_encode.
Qed.

Lemma uchain_snoc psize bs o l u e : uchain psize bs o l u → ent_ok psize bs e → pos e = u →
  read_le 2 bs (u + e_padding_hdr) = Some (ptr e - u - 16) → u + 16 ≤ ptr e →
  uchain psize bs o (l ++ [e]) (ptr e + esz e).
Proof.
  intros Hch Hok Hpos Hp H1. pose proof Hok as (_ & _ & _ & _ & _ & _ & E7 & _). revert o Hch.
  induction l as [|e' l IH]; intros o Hch; cbn [uchain app] in *.
  - subst o. split_and!; (done || lia).
  - destruct Hch as (? & ? & ? & ? & ? & ?). split_and!; try done; [lia|by apply IH].
Qed.

(** The new header reads back. *)
Lemma new_entry psize bs u item size d :
  0 ≤ item < 2 ^ 16 → 1 ≤ size ≤ 2 ^ 32 → ALIGN size 8 < psize → psize < 2 ^ 32 →
  has bs u (private_header item size) → has bs (u + 16) d → zlen d = size →
  ent_ok psize bs (mk_ent u (u + 16) item (ALIGN size 8) (ALIGN size 8 - size) d) ∧ read_le 2 bs (u + 10) = Some 0.
Proof.
  intros Hi Hs Ha Hp Hh Hd Hz. pose proof (align8_range size ltac:(lia)) as Hal. unfold private_header in Hh.
  rewrite !has_app, !zlen_le in Hh. destruct Hh as (H1 & H2 & H3 & H4 & H5).
  apply (read_has 2) in H1; [|unfold SMEM_PRIVATE_CANARY; lia]. apply (read_has 2) in H2; [|lia].
  apply (read_has 4) in H3; [|lia]. apply (read_has 2) in H4; [|lia]. apply (read_has 2) in H5; [|lia].
  unfold ent_ok, e_canary, e_item, e_size, e_padding_data; cbn [pos ptr eid esz epad dat].
  replace (u + 10) with (u + 2 + 2 + 4 + 2) by lia. replace (u + 8) with (u + 2 + 2 + 4) by lia.
  replace (u + 4) with (u + 2 + 2) by lia. rewrite Z.add_0_r. split_and!; (done || lia).
Qed.

Lemma placed_alloc psize line bs u c ul cl item size :
  psize ≤ zlen bs → psize < 2 ^ 32 → 0 ≤ line < 2 ^ 32 →
  placed psize line bs u c ul cl → 0 ≤ item < 2 ^ 16 → 1 ≤ size ≤ 2 ^ 32 → rounded size ≤ c - u →
  ∃ e, placed psize line (allocated u item size u bs) (u + rounded size) c (ul ++ [e]) cl ∧
    eid e = item ∧ zlen (dat e) = size.
Proof.
  intros Hl Hp32 Hline [Hps Hu Hc Huc Hcp Hch Hcl] Hi Hsz. pose proof (align8_range size ltac:(lia)) as Hal.
  unfold rounded. rewrite <- (align8 size) by lia. unfold sizeof_private_entry. intros Hr.
  pose proof (zlen_private_header item size) as Hz.
  unfold allocated. rewrite u32_small by lia. set (b1 := put u (private_header item size) bs).
  assert (within u 12 bs b1) as W1 by (rewrite <- Hz at 1; apply put_within; lia).
  pose proof (within_zlen _ _ _ _ W1) as L1. set (b2 := put 12 _ b1).
  assert (within 12 4 b1 b2) as W2 by (apply (put_within 12 (le_encode 4 _) b1); rewrite ?zlen_le; lia).
  assert (same_on 16 u bs b2) as S1.
  { destruct (within_same _ _ 16 u _ _ W1 ltac:(lia)) as [A1 B1], (within_same _ _ 16 u _ _ W2 ltac:(lia)) as [A2 B2].
    split; [congruence|]. intros i Hi'. by rewrite B2, B1. }
  assert (same_on 8 12 bs b2 ∧ same_on (u + 12) (zlen bs) bs b2) as [S0 S2].
  { destruct W1 as [A1 B1], W2 as [A2 B2]. split; (split; [congruence|]; intros i Hi'; rewrite B2, B1 by lia; done). }
  assert (has b2 u (private_header item size)) as Hh.
  { eapply (has_same 16 (zlen bs) b1); [eapply within_same; [done|lia]|lia|lia|]. apply subrange_put; lia. }
  assert (∃ d, has b2 (u + 16) d ∧ zlen d = size) as (d & Hd & Hdz).
  { pose proof (within_zlen _ _ _ _ W2). assert (∃ d, subrange (u + 16) size b2 = Some d) as [d Hd].
    { unfold subrange. rewrite bool_decide_true by (unfold zlen in *; lia). by eexists. }
    exists d. split; [by eapply subrange_has|by eapply subrange_zlen]. }
  destruct (new_entry psize b2 u item size d) as [Hok Hpad]; try (done || lia).
  exists (mk_ent u (u + 16) item (ALIGN size 8) (ALIGN size 8 - size) d). split; [|done]. unfold ph_size, ph_offset_free_cached in *.
  split; unfold ph_size, ph_offset_free_uncached, ph_offset_free_cached; try lia.
  - by rewrite (read_le_same 8 12 _ _ bs b2 S0) by lia.
  - apply (read_put 4); lia.
  - by rewrite (read_le_same 16 u _ _ bs b2 S1) by lia.
  - replace (u + (16 + ALIGN size 8)) with (u + 16 + ALIGN size 8) by lia.
    apply (uchain_snoc _ _ _ _ u (mk_ent u (u + 16) item (ALIGN size 8) (ALIGN size 8 - size) d)); try done.
    + eapply uchain_same; [|done]. eapply same_on_mono; [exact S1|lia..].
    + cbn [ptr]. unfold e_padding_hdr. rewrite Hpad. f_equal. lia.
  - destruct Hcl as [?|(Q1 & Q2 & Q3 & Q4)]; [by left|]. right. split_and!; try done.
    eapply (cchain_same _ _ bs _ psize); [done|eapply same_on_mono; [exact S2|lia..]|lia|done].
Qed.

(** ** Refinement *)

(** Items have 16-bit numbers and at least one byte; data are bytes. *)
Definition call_ok (c : call) : Prop :=
  match c with
  | CAlloc item size => 0 ≤ item < 2 ^ 16 ∧ 1 ≤ size ≤ 2 ^ 32
  | CRead _ => True
  | CWrite _ _ w => Forall is_byte w
  end.

Lemma pfind_lookup item ul cl n : heap_lookup item (mk_heap (item_of <$> ul) (item_of <$> cl) n) = dat <$> pfind item ul cl.
Proof. unfold heap_lookup, pfind. cbn [sh_items sh_cached]. rewrite !slookup_find. by destruct (efind item ul). Qed.

Lemma pfind_has psize line bs u c ul cl item e : 0 ≤ line < 2 ^ 32 → placed psize line bs u c ul cl →
  pfind item ul cl = Some e → has bs (ptr e) (dat e) ∧ 0 ≤ ptr e.
Proof.
  intros Hline [_ _ _ Huc _ Hch Hcl]. unfold pfind. destruct (efind item ul) as [e'|] eqn:Hf.
  - intros [= <-]. destruct (ufind_in _ _ _ _ _ _ _ Hch Hf) as (H1 & H2 & H3). split; [apply H1|lia].
  - destruct Hcl as [[-> _]|(Q1 & Q2 & Q3 & Q4)]; [done|]. intros Hc.
    destruct (cfind_in _ _ _ _ _ _ _ _ (proj1 (align_range line Hline)) Q4 Hc) as (H1 & H2 & H3). split; [apply H1|lia].
Qed.

Lemma rep_intro psize line base bs u c ul cl : mapped psize (mk_map base bs) → 0 ≤ line < 2 ^ 32 →
  placed psize line bs u c ul cl → rep psize line (mk_map base bs) (mk_heap (item_of <$> ul) (item_of <$> cl) (c - u)).
Proof. intros Hm Hl Hp. split; [done|split; [done|]]. by exists u, c, ul, cl. Qed.

Section refines.
Context (psize line : Z).

Lemma alloc_refines item size m S : rep psize line m S → call_ok (CAlloc item size) →
  ∃ a m' S', smem_call psize line (CAlloc item size) m = (Done a, m') ∧ heap_step S (CAlloc item size) a S' ∧ rep psize line m' S'.
Proof.
  intros (Hm & Hline & u & c & ul & cl & Hp & ->) [Hi Hsz]. destruct m as [base bs].
  unfold smem_call. unfold kbind at 1. rewrite (alloc_private_run psize line base bs item size u c ul cl Hm Hp) by lia. cbn [m_bytes] in Hp.
  pose proof (slookup_find item ul) as Hl. destruct (efind item ul) as [e|] eqn:Hf; cbn [fmap option_fmap option_map] in Hl.
  { eexists _, _, _. split; [reflexivity|]. split; [by econstructor|]. by eapply rep_intro. }
  destruct (Z.ltb_spec (c - u) (rounded size)).
  { eexists _, _, _. split; [reflexivity|]. split; [by apply step_full|]. by eapply rep_intro. }
  pose proof Hm as [_ Hs Hlen _]. cbn [m_bytes] in Hlen. pose proof Hp as [_ _ _ Huc Hcp _ _].
  destruct (placed_alloc psize line bs u c ul cl item size) as (e & Hp' & He & Hz); try (done || lia).
  eexists _, _, _. split; [reflexivity|]. split; [apply (step_alloc _ item size (dat e)); (done || lia)|].
  unfold rounded, sizeof_private_entry in *. assert (0 ≤ (size + 7) / 8) by (apply Z.div_pos; lia).
  split; [apply mapped_allocated; (done || lia)|split; [done|]].
  exists (u + (16 + (size + 7) / 8 * 8)), c, (ul ++ [e]), cl. split; [done|]. cbn [sh_items sh_cached sh_room].
  rewrite fmap_app. change (item_of <$> [e]) with [(eid e, dat e)]. rewrite He. f_equal. lia.
Qed.

Lemma part_read_refines item m S : rep psize line m S →
  ∃ a S', smem_call psize line (CRead item) m = (Done a, m) ∧ heap_step S (CRead item) a S' ∧ rep psize line m S'.
Proof.
  intros (Hm & Hline & u & c & ul & cl & Hp & ->). destruct m as [base bs]. unfold smem_call. unfold kbind at 1.
  rewrite (get_private_run psize line base bs item u c ul cl Hm Hline Hp). cbn [m_bytes] in Hp.
  pose proof (pfind_lookup item ul cl (c - u)) as Hl. destruct (pfind item ul cl) as [e|] eqn:Hf; cbn [fmap option_fmap option_map] in Hl.
  - destruct (pfind_has _ _ _ _ _ _ _ _ _ Hline Hp Hf) as [Hh _]. eexists _, _. split.
    { unfold kbind, ld_bytes. cbn [m_base m_bytes]. replace (base + ptr e - base) with (ptr e) by lia. by rewrite Hh. }
    split; [by constructor|]. by eapply rep_intro.
  - eexists _, _. split; [reflexivity|]. split; [by constructor|]. by eapply rep_intro.
Qed.

Lemma part_write_refines item off w m S : rep psize line m S → Forall is_byte w →
  ∃ a m' S', smem_call psize line (CWrite item off w) m = (Done a, m') ∧ heap_step S (CWrite item off w) a S' ∧ rep psize line m' S'.
Proof.
  intros (Hm & Hline & u & c & ul & cl & Hp & ->) Hw. destruct m as [base bs]. unfold smem_call. unfold kbind at 1.
  rewrite (get_private_run psize line base bs item u c ul cl Hm Hline Hp). cbn [m_bytes] in Hp.
  assert (rep psize line (mk_map base bs) (mk_heap (item_of <$> ul) (item_of <$> cl) (c - u))) as Hsame.
  { by eapply rep_intro. }
  pose proof (pfind_lookup item ul cl (c - u)) as Hl. destruct (pfind item ul cl) as [e|] eqn:Hf; cbn [fmap option_fmap option_map] in Hl;
    [|by eexists _, _, _; split; [reflexivity|]; split; [by constructor|]].
  destruct ((0 <=? off) && (off + zlen w <=? zlen (dat e))) eqn:Hc;
    [|by eexists _, _, _; split; [reflexivity|]; split; [eapply step_refuse; [done|lia]|]].
  destruct (pfind_has _ _ _ _ _ _ _ _ _ Hline Hp Hf) as [Hh H0]. pose proof (has_range _ _ _ Hh) as [R1 R2].
  destruct (placed_write psize line bs u c ul cl item e off w) as (ul' & cl' & Hp' & Hs); try (done || lia).
  eexists _, _, _. split.
  { unfold memcpy_toio, kbind. cbn [m_base m_bytes]. replace (base + ptr e + off - base) with (ptr e + off) by lia.
    rewrite bool_decide_true by lia. reflexivity. }
  split; [eapply step_write; [done|lia..]|].
  split; [apply (mapped_put psize (mk_map base bs)); cbn [m_bytes]; (done || lia)|split; [done|]].
  exists u, c, ul', cl'. by rewrite Hs.
Qed.
End refines.

(** C26: a partition is a heap of named items. Started on a well-formed partition (below 4 GB,
    mapped away from the ends of the address space), any sequence of allocations, reads and
    writes of items runs to its end and answers as the specification does: allocation fails
    with -EEXIST exactly when this side's list has the item, with -ENOSPC exactly when the
    rounded size does not fit between the two lists; an item reads back as last written
    whatever else was allocated or written since; and the partition is well-formed again.
    Allocations are of 1 to 2^32 bytes under 16-bit item numbers ([call_ok]); an item of zero
    bytes is allocated but not found again ([zero_size_is_lost]). *)
Theorem smem_partition_refines psize line cs m S :
  rep psize line m S → Forall call_ok cs →
  ∃ ans m' S', smem_calls psize line cs m = (Done ans, m') ∧ heap_steps S cs ans S' ∧ rep psize line m' S'.
Proof.
  intros Hr Hok. revert m S Hr. induction Hok as [|c cs Hc _ IH]; intros m S Hr; cbn [smem_calls].
  { exists [], m, S. split_and!; [done|constructor|done]. }
  assert (∃ a m' S', smem_call psize line c m = (Done a, m') ∧ heap_step S c a S' ∧ rep psize line m' S') as (a & m1 & S1 & H1 & H2 & H3).
  { destruct c as [item size|item|item off w]; [by apply alloc_refines| |by apply part_write_refines].
    destruct (part_read_refines psize line item m S Hr) as (a & S' & ?). by exists a, m, S'. }
  destruct (IH _ _ H3) as (ans & m2 & S2 & H4 & H5 & H6). exists (a :: ans), m2, S2.
  rewrite (kbind_Done _ _ _ _ _ H1), (kbind_Done _ _ _ _ _ H4). split_and!; [done|by econstructor|done].
Qed.

(** A fresh partition of 128 bytes with one cached item of the other side. *)
Definition fresh : mapping := mk_map (2 ^ 40)
  ([0x24; 0x50; 0x52; 0x54; 0; 0; 1; 0; 128; 0; 0; 0; 32; 0; 0; 0; 88; 0; 0; 0] ++ replicate 68 0 ++
   [1; 2; 3; 4; 5; 0; 0; 0] ++ [0xa5; 0xa5; 20; 0; 8; 0; 0; 0; 3; 0; 0; 0; 0; 0; 0; 0] ++ replicate 16 0).

Lemma fresh_rep : rep 128 32 fresh (mk_heap [] [(20, [1; 2; 3; 4; 5])] 56).
Proof.
  split; [|split; [lia|]].
  - split; [|unfold sizeof_partition_header; lia|vm_compute; congruence|cbn; lia].
    apply Forall_forall. intros b Hb. assert (forallb (λ b, (0 <=? b) && (b <? 256)) (m_bytes fresh) = true) as H by done.
    rewrite forallb_forall in H. specialize (H b Hb). unfold is_byte. lia.
  - exists 32, 88, [], [mk_ent 96 88 20 8 3 [1; 2; 3; 4; 5]]. split; [|done].
    split; try reflexivity; try lia. right. split; [lia|]. change (ALIGN sizeof_private_entry 32) with 32.
    split; [lia|]. split; [lia|]. cbn. unfold ent_ok; cbn. split_and!; reflexivity || lia || vm_compute; congruence.
Qed.

Lemma smem_partition_refines_witness :
  ∃ ans m' S', smem_calls 128 32 [CAlloc 9 6; CWrite 9 1 [7; 8]; CRead 9; CRead 20; CAlloc 9 1; CAlloc 10 40; CRead 11] fresh = (Done ans, m') ∧
    heap_steps (mk_heap [] [(20, [1; 2; 3; 4; 5])] 56)
      [CAlloc 9 6; CWrite 9 1 [7; 8]; CRead 9; CRead 20; CAlloc 9 1; CAlloc 10 40; CRead 11] ans S' ∧ rep 128 32 m' S'.
Proof.
  apply (smem_partition_refines 128 32 _ fresh _ fresh_rep).
  repeat constructor; cbn; try lia; unfold is_byte; lia.
Defined.

Example fresh_answers :
  (smem_calls 128 32 [CAlloc 9 6; CWrite 9 1 [7; 8]; CRead 9; CRead 20; CAlloc 9 1; CAlloc 10 40; CRead 11] fresh).1 =
  Done [AOk; AOk; ABytes [0; 7; 8; 0; 0; 0]; ABytes [1; 2; 3; 4; 5]; AErr (- EEXIST); AErr (- ENOSPC); AErr (- ENOENT)].
Proof. reflexivity. Qed.

(** An allocation of no bytes is not found by the walks: it can be repeated, and the next
    allocation overwrites its header. *)
Example zero_size_is_lost :
  (smem_calls 128 32 [CAlloc 9 0; CRead 9; CAlloc 9 0] fresh).1 = Done [AOk; AErr (- ENOENT); AOk] ∧
  read_le 2 (m_bytes (smem_calls 128 32 [CAlloc 9 0; CAlloc 10 4] fresh).2) (32 + e_item) = Some 10.
Proof. split; reflexivity. Qed.

(** Allocation does not look at the cached items: one of the same number is hidden by the new. *)
Example alloc_hides_cached :
  (smem_calls 128 32 [CRead 20; CAlloc 20 2; CRead 20] fresh).1 = Done [ABytes [1; 2; 3; 4; 5]; AOk; ABytes [0; 0]].
Proof. reflexivity. Qed.
