(* ===== verification/SmemDev.v ===== *)
(** * The global heap and the device

    The global heap is a table of items and a bump allocator behind it; its items never
    overlap.  The exported calls check their arguments, take the lock and work on one heap
    only: the partition shared with the host, else the global partition, else the global
    heap. *)

From S2P Require Import Prelude Memory Smem SmemSafe SmemHeap.

(** ** The global heap *)

(** The end of the header: the table of items has 512 entries. *)
Definition header_end : Z := h_toc + SMEM_ITEM_COUNT * sizeof_global_entry.

(** The table entry of [item]. *)
Definition gentry (bs : list Z) (item : Z) (x : option (Z * Z)) : Prop :=
  let e := h_toc + item * sizeof_global_entry in
  read_le 4 bs (e + g_aux_base) = Some 0 ∧
  match x with
  | Some (off, size) => (∃ a, read_le 4 bs (e + g_allocated) = Some a ∧ a ≠ 0) ∧
      read_le 4 bs (e + g_offset) = Some off ∧ read_le 4 bs (e + g_size) = Some size
  | None => read_le 4 bs (e + g_allocated) = Some 0
  end.

(** [G] is where the allocated items are, in a region of [size] bytes.  Items lie between the
    header and the free offset, and do not overlap. *)
Record gheap (size : Z) (m : mapping) (G : gmap Z (Z * Z)) (free avail : Z) : Prop := {
  gh_size : header_end ≤ size < 2 ^ 32;
  gh_len : size ≤ zlen (m_bytes m);
  gh_base : 0 ≤ m_base m ≤ 2 ^ 64 - 2 ^ 33;
  gh_free : read_le 4 (m_bytes m) h_free_offset = Some free;
  gh_available : read_le 4 (m_bytes m) h_available = Some avail;
  gh_bounds : header_end ≤ free ∧ 0 ≤ avail ∧ free + avail ≤ size;
  gh_toc : ∀ i, 0 ≤ i < SMEM_ITEM_COUNT → gentry (m_bytes m) i (G !! i);
  gh_placed : ∀ i off s, G !! i = Some (off, s) → header_end ≤ off ∧ 0 ≤ s ∧ off + s ≤ free;
  gh_disjoint : ∀ i j oi si oj sj, i ≠ j → G !! i = Some (oi, si) → G !! j = Some (oj, sj) →
    oi + si ≤ oj ∨ oj + sj ≤ oi;
}.

Lemma gentry_same bs bs' item x : same_on (h_toc + item * 16) (h_toc + item * 16 + 16) bs bs' →
  gentry bs item x → gentry bs' item x.
Proof.
  unfold gentry, sizeof_global_entry, g_aux_base, g_allocated, g_offset, g_size. set (e := h_toc + item * 16). intros Hs.
  rewrite !(read_le_same e (e + 16) _ _ bs bs' Hs) by lia. done.
Qed.

(** The stores of an allocation: the entry, then the two counters. *)
Definition gallocated (item free avail size : Z) (bs : list Z) : list Z :=
  let e := h_toc + item * 16 in
  put 200 (le_encode 4 (u32 (avail - size))) (put 196 (le_encode 4 (u32 (free + size)))
    (put (e + 0) (le_encode 4 1) (put (e + 8) (le_encode 4 size) (put (e + 4) (le_encode 4 free) bs)))).

Lemma put_le_within n off z bs : 0 ≤ off → off + Z.of_nat n ≤ zlen bs → within off (Z.of_nat n) bs (put off (le_encode n z) bs).
Proof. intros H1 H2. rewrite <- (zlen_le n z) at 1. apply put_within; rewrite ?zlen_le; lia. Qed.

(** A 4-byte field elsewhere is not touched by a store. *)
Lemma read_put_ne n k off off' z bs : 0 ≤ off → off + Z.of_nat k ≤ zlen bs → off' + n ≤ off ∨ off + Z.of_nat k ≤ off' →
  read_le n (put off (le_encode k z) bs) off' = read_le n bs off'.
Proof.
  intros H1 H2 H3. apply (read_le_same off' (off' + n)); [|lia..].
  eapply within_same; [by apply put_le_within|lia].
Qed.

Lemma zlen_put_le n off z bs : 0 ≤ off → off + Z.of_nat n ≤ zlen bs → zlen (put off (le_encode n z) bs) = zlen bs.
Proof. intros H1 H2. apply zlen_put; rewrite ?zlen_le; lia. Qed.

(** Solve a bound that mentions the length of a memory after some stores. *)
Ltac bounds := repeat (rewrite zlen_put_le; [|lia|bounds]); lia.

Lemma put_le_in lo size n off z bs bs' : within lo size bs bs' → 0 ≤ lo ≤ off → off + Z.of_nat n ≤ lo + size → lo + size ≤ zlen bs →
  within lo size bs (put off (le_encode n z) bs').
Proof.
  intros Hw H1 H2 H3. eapply within_trans; [done|]. pose proof (within_zlen _ _ _ _ Hw).
  eapply within_mono; [apply put_le_within; lia|lia..].
Qed.

Section gallocated.
Context (item free avail size : Z) (bs : list Z).
Context (Hi : 0 ≤ item < SMEM_ITEM_COUNT) (Hl : header_end ≤ zlen bs).
Local Abbreviation bs' := (gallocated item free avail size bs).

Lemma gallocated_within : within 0 header_end bs bs'.
Proof using All.
  unfold gallocated, header_end, h_toc, SMEM_ITEM_COUNT, sizeof_global_entry in *. cbn zeta.
  repeat (apply put_le_in; [|lia..]). apply within_refl.
Qed.

Lemma gallocated_other j : 0 ≤ j < SMEM_ITEM_COUNT → j ≠ item → same_on (h_toc + j * 16) (h_toc + j * 16 + 16) bs bs'.
Proof using All.
  intros Hj Hne. unfold header_end, SMEM_ITEM_COUNT, sizeof_global_entry in *.
  assert (within (h_toc + item * 16) 16 bs (put (h_toc + item * 16 + 0) (le_encode 4 1)
    (put (h_toc + item * 16 + 8) (le_encode 4 size) (put (h_toc + item * 16 + 4) (le_encode 4 free) bs)))) as H1.
  { unfold h_toc in *. repeat (apply put_le_in; [|lia..]). apply within_refl. }
  set (b3 := put _ _ _) in H1. pose proof (within_zlen _ _ _ _ H1) as Hz.
  assert (within 196 8 b3 bs') as H2.
  { unfold gallocated. cbn zeta. unfold h_toc in *. repeat (apply put_le_in; [|lia..]). apply within_refl. }
  destruct (within_same _ _ (h_toc + j * 16) (h_toc + j * 16 + 16) _ _ H1 ltac:(lia)) as [A1 B1].
  destruct (within_same _ _ (h_toc + j * 16) (h_toc + j * 16 + 16) _ _ H2 ltac:(unfold h_toc; lia)) as [A2 B2].
  split; [congruence|]. intros i Hi'. by rewrite B2, B1.
Qed.

Lemma gallocated_fields : 0 ≤ free < 2 ^ 32 → 0 ≤ size < 2 ^ 32 → 0 ≤ avail < 2 ^ 32 → 0 ≤ avail - size → free + size < 2 ^ 32 →
  read_le 4 bs (h_toc + item * 16 + 12) = Some 0 →
  gentry bs' item (Some (free, size)) ∧ read_le 4 bs' 196 = Some (free + size) ∧ read_le 4 bs' 200 = Some (avail - size).
Proof using All.
  intros Hf Hs Ha H1 H2 Hx. unfold gallocated, gentry, g_aux_base, g_allocated, g_offset, g_size, sizeof_global_entry.
  unfold header_end, h_toc, SMEM_ITEM_COUNT, sizeof_global_entry in *. cbn zeta. rewrite !u32_small by lia.
  set (e := 208 + item * 16) in *.
  split_and!.
  - rewrite !read_put_ne by (lia || bounds). done.
  - exists 1. split; [|done]. do 2 rewrite read_put_ne by (lia || bounds). apply (read_put 4); (lia || bounds).
  - do 4 rewrite read_put_ne by (lia || bounds). apply (read_put 4); (lia || bounds).
  - do 3 rewrite read_put_ne by (lia || bounds). apply (read_put 4); (lia || bounds).
  - rewrite read_put_ne by (lia || bounds). apply (read_put 4); (lia || bounds).
  - apply (read_put 4); (lia || bounds).
Qed.
End gallocated.

(** Run a store at offset [off], after other stores. *)
Ltac gstore off :=
  match goal with
  | |- context [kbind (st ?n ?addr ?z) _ (mk_map ?base ?bs)] =>
      rewrite (kbind_Done _ _ _ _ _ (st_run base bs n addr off z ltac:(lia) ltac:(lia) ltac:(bounds)))
  end.

Lemma alloc_global_run rsize base bs G free avail item size :
  gheap rsize (mk_map base bs) G free avail → 0 ≤ item < SMEM_ITEM_COUNT → 0 ≤ size ≤ 2 ^ 32 →
  qcom_smem_alloc_global item size (mk_map base bs) =
  match G !! item with
  | Some _ => (Done (- EEXIST), mk_map base bs)
  | None => if avail <? ALIGN size 8 then (Done (- ENOMEM), mk_map base bs)
            else (Done 0, mk_map base (gallocated item free avail (ALIGN size 8) bs))
  end.
Proof.
  intros [Hs Hl _ Hf Ha (B1 & B2 & B3) Ht _ _] Hi Hsz. specialize (Ht item Hi). cbn [m_bytes] in *.
  unfold qcom_smem_alloc_global. unfold kgets at 1, kbind at 1. cbn [m_base].
  unfold toc_entry, le32, gentry, header_end, SMEM_ITEM_COUNT, h_toc, sizeof_global_entry, g_allocated, g_offset, g_size, g_aux_base,
    h_available, h_free_offset in *. cbn zeta in Ht.
  set (e := 208 + item * 16) in *. destruct Ht as [_ Ht]. destruct (G !! item) as [[o s]|].
  - destruct Ht as [(a & Hal & Hne) _]. fetch_hyp. destruct (Z.eqb_spec a 0); [done|]. done.
  - fetch_hyp. cbn [Z.eqb negb]. fetch_hyp. destruct (Z.ltb_spec avail (ALIGN size 8)); [done|]. fetch_hyp.
    pose proof (align8_range size Hsz).
    gstore (e + 4). gstore (e + 8). gstore (e + 0).
    fetch 196 free ltac:(rewrite !read_put_ne by (lia || bounds); done). gstore 196.
    fetch 200 avail ltac:(rewrite !read_put_ne by (lia || bounds); done). gstore 200. done.
Qed.

(** Allocation keeps the heap well-formed. *)
Lemma gheap_alloc rsize base bs G free avail item size :
  gheap rsize (mk_map base bs) G free avail → 0 ≤ item < SMEM_ITEM_COUNT → G !! item = None → 0 ≤ size ≤ avail →
  gheap rsize (mk_map base (gallocated item free avail size bs)) (<[item := (free, size)]> G) (free + size) (avail - size).
Proof.
  intros [Hs Hl Hb Hf Ha (B1 & B2 & B3) Ht Hp Hd] Hi HG Hsz. cbn [m_base m_bytes] in *.
  pose proof (gallocated_within item free avail size bs Hi ltac:(lia)) as Hw.
  assert (0 < header_end) by done.
  destruct (gallocated_fields item free avail size bs Hi) as (F1 & F2 & F3); try lia.
  { specialize (Ht item Hi). apply Ht. }
  split; cbn [m_base m_bytes]; try done; try lia.
  - by rewrite (within_zlen _ _ _ _ Hw).
  - intros i Hi'. destruct (decide (i = item)) as [->|Hne]; [by rewrite lookup_insert_eq|].
    rewrite lookup_insert_ne by done. eapply gentry_same; [apply gallocated_other; (done || lia)|by apply Ht].
  - intros i off s. destruct (decide (i = item)) as [->|Hne].
    + rewrite lookup_insert_eq. intros [= <- <-]. lia.
    + rewrite lookup_insert_ne by done. intros H1. specialize (Hp _ _ _ H1). lia.
  - intros i j oi si oj sj Hij. destruct (decide (i = item)) as [->|Hni], (decide (j = item)) as [->|Hnj]; try done;
      rewrite ?lookup_insert_eq, ?lookup_insert_ne by done.
    + intros [= <- <-] H1. specialize (Hp _ _ _ H1). lia.
    + intros H1 [= <- <-]. specialize (Hp _ _ _ H1). lia.
    + by apply Hd.
Qed.

Definition galloc_all (l : list (Z * Z)) : KM mapping (list Z) :=
  (fix go l := match l with
   | [] => kret []
   | (item, size) :: l => let* r := qcom_smem_alloc_global item size in let* rs := go l in kret (r :: rs)
   end) l.

(** The abstract heap: items never move, a new one takes the free offset. *)
Definition gspec (G : gmap Z (Z * Z)) (free avail item size : Z) : Z * gmap Z (Z * Z) * Z * Z :=
  let n := (size + 7) / 8 * 8 in
  match G !! item with
  | Some _ => (- EEXIST, G, free, avail)
  | None => if decide (avail < n) then (- ENOMEM, G, free, avail) else (0, <[item := (free, n)]> G, free + n, avail - n)
  end.

Fixpoint gspecs (G : gmap Z (Z * Z)) (free avail : Z) (l : list (Z * Z)) : list Z * gmap Z (Z * Z) * Z * Z :=
  match l with
  | [] => ([], G, free, avail)
  | (item, size) :: l =>
      let '(r, G, free, avail) := gspec G free avail item size in
      let '(rs, G, free, avail) := gspecs G free avail l in (r :: rs, G, free, avail)
  end.

Lemma get_global_run rsize r l base bs G free avail item :
  gheap rsize (mk_map base bs) G free avail → 0 ≤ item < SMEM_ITEM_COUNT → r_map r = Some (mk_map base bs) → r_size r = rsize →
  qcom_smem_get_global (r :: l) item (mk_map base bs) =
  (Done (match G !! item with Some (off, s) => inr (base + off, s) | None => inl (- ENXIO) end), mk_map base bs).
Proof.
  intros [Hs Hl Hb Hf Ha (B1 & B2 & B3) Ht Hp Hd] Hi Hrm Hrs. specialize (Ht item Hi). specialize (Hp item). cbn [m_bytes m_base] in *.
  unfold qcom_smem_get_global. unfold kgets at 1, kbind at 1. cbn [m_base].
  unfold toc_entry, le32, gentry, header_end, SMEM_ITEM_COUNT, h_toc, sizeof_global_entry, g_allocated, g_offset, g_size, g_aux_base in *.
  cbn zeta in Ht. set (e := 208 + item * 16) in *. destruct Ht as [Hx Ht]. destruct (G !! item) as [[o s]|].
  - destruct Ht as ((a & Hal & Hne) & Ho & Hsz). fetch_hyp. destruct (Z.eqb_spec a 0); [done|]. do 3 fetch_hyp.
    destruct (Hp o s eq_refl) as (P1 & P2 & P3). unfold kret. cbn [find_region Z.land]. rewrite Z.land_0_l, orb_true_r, Hrs, Hrm.
    cbn [m_base]. rewrite u64_small by lia. destruct (Z.ltb_spec rsize (s + o)); [lia|]. by rewrite u64_small by lia.
  - fetch_hyp. done.
Qed.

(** the global heap.  Any sequence of allocations with any item numbers and sizes runs
    to its end and answers as a bump allocator with a table does: -EEXIST exactly for an item
    that is there, -ENOMEM exactly when the rounded size exceeds what is left.  The heap stays
    well-formed: its items lie behind the header and never overlap.  Nothing behind the header
    is written, and a lookup then answers every item's place and size, or -ENXIO. *)
Theorem smem_global_heap rsize aux others cs m G free avail rs G' free' avail' :
  gheap rsize m G free avail → Forall (λ x, 0 ≤ x.1 < SMEM_ITEM_COUNT ∧ 0 ≤ x.2 ≤ 2 ^ 32) cs →
  gspecs G free avail cs = (rs, G', free', avail') →
  ∃ m', galloc_all cs m = (Done rs, m') ∧ gheap rsize m' G' free' avail' ∧
    within 0 header_end (m_bytes m) (m_bytes m') ∧
    ∀ item, 0 ≤ item < SMEM_ITEM_COUNT →
      qcom_smem_get_global (mk_region aux (Some m') rsize :: others) item m' =
      (Done (match G' !! item with Some (off, s) => inr (m_base m' + off, s) | None => inl (- ENXIO) end), m').
Proof.
  intros Hg Hcs. revert m G free avail rs G' free' avail' Hg.
  induction Hcs as [|[item size] cs [Hi Hsz] _ IH]; intros m G free avail rs G' free' avail' Hg Hspec; cbn [gspecs galloc_all fst snd] in *.
  { simplify_eq. exists m. split_and!; [done|done|apply within_refl|]. intros item Hi. destruct m. by eapply get_global_run. }
  destruct (gspec G free avail item size) as [[[r G1] f1] a1] eqn:H1.
  destruct (gspecs G1 f1 a1 cs) as [[[rs1 G2] f2] a2] eqn:H2. simplify_eq.
  assert (∃ m1, qcom_smem_alloc_global item size m = (Done r, m1) ∧ gheap rsize m1 G1 f1 a1 ∧
    within 0 header_end (m_bytes m) (m_bytes m1)) as (m1 & R1 & Hg1 & Hw1).
  { destruct m as [base bs]. rewrite (alloc_global_run _ _ _ _ _ _ item size Hg Hi Hsz). unfold gspec in H1.
    rewrite (align8 size Hsz). pose proof Hg as [Hs Hl _ _ _ _ _ _ _]. cbn [m_bytes] in Hl. pose proof (Z.div_pos (size + 7) 8).
    destruct (G !! item) as [x|] eqn:HG; [simplify_eq; eexists; split_and!; [done|done|apply within_refl]|].
    destruct (Z.ltb_spec avail ((size + 7) / 8 * 8)); [rewrite decide_True in H1 by done; simplify_eq; eexists; split_and!; [done|done|apply within_refl]|].
    rewrite decide_False in H1 by lia. simplify_eq. eexists. split; [done|]. split; [apply gheap_alloc; (done || lia)|].
    apply gallocated_within; [done|lia]. }
  destruct (IH _ _ _ _ _ _ _ _ Hg1 H2) as (m2 & R2 & Hg2 & Hw2 & Hget). exists m2.
  rewrite (kbind_Done _ _ _ _ _ R1). unfold galloc_all in R2. rewrite (kbind_Done _ _ _ _ _ R2).
  split_and!; [done|done|by eapply within_trans|done].
Qed.

(** An empty heap of 9000 bytes. *)
Definition empty_heap : mapping := mk_map (2 ^ 40)
  (replicate 196 0 ++ le_encode 4 8400 ++ le_encode 4 600 ++ replicate 8796 0).

Lemma empty_gheap : gheap 9000 empty_heap ∅ 8400 600.
Proof.
  assert (forallb (λ i, bool_decide (read_le 4 (m_bytes empty_heap) (h_toc + i * 16 + 12) = Some 0) &&
    bool_decide (read_le 4 (m_bytes empty_heap) (h_toc + i * 16 + 0) = Some 0)) (seqZ 0 512) = true) as Hz by (vm_compute; reflexivity).
  split.
  - unfold header_end, h_toc, SMEM_ITEM_COUNT, sizeof_global_entry. lia.
  - vm_compute. congruence.
  - cbn [m_base empty_heap]. lia.
  - vm_compute. reflexivity.
  - vm_compute. reflexivity.
  - unfold header_end, h_toc, SMEM_ITEM_COUNT, sizeof_global_entry. lia.
  - intros i Hi. rewrite forallb_forall in Hz. specialize (Hz i).
    rewrite <- list_elem_of_In, elem_of_seqZ, andb_true_iff, !bool_decide_eq_true in Hz.
    destruct Hz as [H1 H2]; [unfold SMEM_ITEM_COUNT in Hi; lia|]. rewrite lookup_empty. split; [exact H1|exact H2].
  - intros i off s. by rewrite lookup_empty.
  - intros i j oi si oj sj _. by rewrite lookup_empty.
Qed.

Lemma smem_global_heap_witness :
  ∃ m', galloc_all [(9, 13); (10, 900); (9, 1); (511, 8)] empty_heap = (Done [0; - ENOMEM; - EEXIST; 0], m') ∧
    gheap 9000 m' (<[511 := (8416, 8)]> (<[9 := (8400, 16)]> ∅)) 8424 576 ∧
    within 0 header_end (m_bytes empty_heap) (m_bytes m') ∧
    ∀ item, 0 ≤ item < SMEM_ITEM_COUNT →
      qcom_smem_get_global (mk_region 0 (Some m') 9000 :: []) item m' =
      (Done (match (<[511 := (8416, 8)]> (<[9 := (8400, 16)]> ∅) : gmap Z (Z * Z)) !! item with
             | Some (off, s) => inr (m_base m' + off, s) | None => inl (- ENXIO) end), m').
Proof.
  apply (smem_global_heap 9000 0 [] [(9, 13); (10, 900); (9, 1); (511, 8)] empty_heap ∅ 8400 600).
  - apply empty_gheap.
  - repeat constructor; cbn; unfold SMEM_ITEM_COUNT; lia.
  - reflexivity.
Defined.

(** ** The exported calls *)

(** A mapped partition is a heap, an unmapped one is none. *)
Definition part_rep (p : smem_partition) (S : option heap_spec) : Prop :=
  match part_map p, S with
  | Some m, Some h => rep (part_size p) (cacheline p) m h
  | None, None => True
  | _, _ => False
  end.

(** A device with a global partition: [Σ] are the heaps shared with each host, [g] the global one. *)
Record dev_rep (d : qcom_smem) (Σ : list (option heap_spec)) (g : heap_spec) : Prop := {
  dr_hosts : zlen (partitions d) = SMEM_HOST_COUNT;
  dr_count : item_count d ≤ 2 ^ 16;
  dr_parts : Forall2 part_rep (partitions d) Σ;
  dr_global : part_rep (global_partition d) (Some g);
}.

(** The heap a host's items are in. *)
Definition heap_for (Σ : list (option heap_spec)) (g : heap_spec) (host : Z) : heap_spec :=
  match Σ !! Z.to_nat host with Some (Some h) => h | _ => g end.

Definition heap_set (Σ : list (option heap_spec)) (g : heap_spec) (host : Z) (S : heap_spec) : list (option heap_spec) * heap_spec :=
  match Σ !! Z.to_nat host with Some (Some _) => (<[Z.to_nat host := Some S]> Σ, g) | _ => (Σ, S) end.

Definition code_of (a : answer) : Z := match a with AErr e => e | _ => 0 end.

Definition call_fuel (d : qcom_smem) (host : Z) : nat := S (Z.to_nat (part_size (heap_part d (choose_heap d host)))).

Lemma alloc_step psize line m S item size : rep psize line m S → call_ok (CAlloc item size) →
  ∃ a m' S', qcom_smem_alloc_private (Datatypes.S (Z.to_nat psize)) psize item size m = (Done (code_of a), m') ∧
    heap_step S (CAlloc item size) a S' ∧ rep psize line m' S'.
Proof.
  intros Hr Hok. destruct (alloc_refines psize line item size m S Hr Hok) as (a & m' & S' & Hc & Hst & Hr').
  exists a, m', S'. split; [|done]. cbn [smem_call] in Hc. apply kbind_inv in Hc as (r & m1 & Hc & Ht).
  unfold kret in Ht. injection Ht as <- <-. rewrite Hc. destruct (Z.eqb_spec r 0); by subst.
Qed.

(** Choosing the heap agrees with the specification. *)
Lemma choose_spec d Σ g host : dev_rep d Σ g → 0 ≤ host →
  (∃ p m S, choose_heap d host = HostPart host ∧ partitions d !! Z.to_nat host = Some p ∧ part_map p = Some m ∧
     Σ !! Z.to_nat host = Some (Some S) ∧ rep (part_size p) (cacheline p) m S) ∨
  (∃ m, choose_heap d host = GlobalPart ∧ part_map (global_partition d) = Some m ∧
     (∀ S, Σ !! Z.to_nat host ≠ Some (Some S)) ∧ rep (part_size (global_partition d)) (cacheline (global_partition d)) m g).
Proof.
  intros [Hl _ Hp Hg] Hh. unfold choose_heap. unfold part_rep in Hg.
  destruct (part_map (global_partition d)) as [mg|] eqn:Eg; [|done]. rewrite (bool_decide_true (is_Some (Some mg))) by done.
  pose proof (list.Forall2_length _ _ _ Hp) as Hlen. unfold zlen, SMEM_HOST_COUNT in *.
  destruct (partitions d !! Z.to_nat host) as [p|] eqn:Ep.
  - destruct (Forall2_lookup_l _ _ _ _ _ Hp Ep) as (s & Es & Hps). pose proof (lookup_lt_Some _ _ _ Ep).
    destruct (Z.ltb_spec host 25); [|lia]. cbn [andb mbind option_bind]. unfold part_rep in Hps.
    destruct (part_map p) as [m|] eqn:Em, s as [S|]; try done.
    + left. exists p, m, S. by rewrite bool_decide_true by done.
    + right. exists mg. rewrite bool_decide_false by (by intros [? ?]). split_and!; try done. intros S. by rewrite Es.
  - right. exists mg. cbn [mbind option_bind]. rewrite bool_decide_false by (by intros [? ?]). rewrite andb_false_r.
    split_and!; try done. intros S HS. apply lookup_lt_Some in HS. apply lookup_ge_None in Ep. lia.
Qed.

(** C36: the exported allocation on a probed device that has a mapped global partition
    ([dev_rep]; the legacy global heap is the subject of [smem_global_heap]), for sizes from 1
    to 2^32. Items below the fixed ones or not below the item count are refused with -EINVAL
    and a lock that cannot be taken gives its code, with the device unchanged; otherwise the
    call does what the specification of the one heap the host's items are in says (the host's
    partition, else the global one), and every other heap is as before. *)
Theorem smem_alloc_on_device d Σ g lock host item size :
  dev_rep d Σ g → 0 ≤ host → 0 ≤ item → 1 ≤ size ≤ 2 ^ 32 →
  ∃ ret d', qcom_smem_alloc (call_fuel d host) lock host item size (Some d) = (Done ret, Some d') ∧
    if decide (item < SMEM_ITEM_LAST_FIXED ∨ item_count d ≤ item) then ret = - EINVAL ∧ d' = d
    else if decide (lock ≠ 0) then ret = lock ∧ d' = d
    else ∃ a S', heap_step (heap_for Σ g host) (CAlloc item size) a S' ∧ ret = code_of a ∧
      let '(Σ', g') := heap_set Σ g host S' in dev_rep d' Σ' g'.
Proof.
  intros Hd Hh Hi Hs. unfold qcom_smem_alloc.
  destruct (Z.ltb_spec item SMEM_ITEM_LAST_FIXED); [eexists _, _; split; [done|]; by rewrite decide_True by (by left)|].
  destruct (Z.leb_spec (item_count d) item); [eexists _, _; split; [done|]; by rewrite decide_True by (by right)|].
  destruct (Z.eqb_spec lock 0) as [->|Hne]; cbn [negb];
    [|eexists _, _; split; [done|]; by rewrite decide_False, decide_True by (done || lia)].
  pose proof Hd as [Hl Hc Hp Hg]. assert (call_ok (CAlloc item size)) as Hok by (split; lia).
  destruct (choose_spec d Σ g host Hd Hh) as [(p & m & S & Hch & Ep & Em & Es & Hr)|(m & Hch & Em & Es & Hr)];
    unfold call_fuel; rewrite Hch; unfold heap_part, on_heap.
  - rewrite Ep, Em. cbn [default from_option id]. destruct (alloc_step _ _ _ _ item size Hr Hok) as (a & m' & S' & Ha & Hst & Hr').
    rewrite Ha. eexists _, _. split; [done|]. rewrite !decide_False by lia. exists a, S'.
    unfold heap_for, heap_set. rewrite Es. split_and!; [done|done|]. split; cbn [partitions item_count global_partition set_partitions].
    + unfold zlen. by rewrite length_insert.
    + done.
    + apply Forall2_insert; [done|]. done.
    + done.
  - rewrite Em. destruct (alloc_step _ _ _ _ item size Hr Hok) as (a & m' & S' & Ha & Hst & Hr').
    rewrite Ha. eexists _, _. split; [done|]. rewrite !decide_False by lia. exists a, S'.
    unfold heap_for, heap_set. destruct (Σ !! Z.to_nat host) as [[S|]|] eqn:E; [by edestruct Es| |];
      (split_and!; [done|done|split; done]).
Qed.

(** Host 1 shares a partition of its own, every other host the global one. *)
Definition sample_dev : qcom_smem :=
  mk_smem 512 None (mk_part (Some fresh) 0 32 128)
    (<[1%nat := mk_part (Some fresh) 4096 32 128]> (replicate 25 no_part)) [].

Definition sample_heap : heap_spec := mk_heap [] [(20, [1; 2; 3; 4; 5])] 56.

Lemma sample_dev_rep : dev_rep sample_dev (<[1%nat := Some sample_heap]> (replicate 25 None)) sample_heap.
Proof.
  split; [done|done| |apply fresh_rep]. apply Forall2_insert; [|apply fresh_rep].
  apply Forall2_same_length_lookup. split; [done|]. intros i x y.
  rewrite !lookup_replicate. by intros [-> _] [-> _].
Qed.

Lemma smem_alloc_on_device_witness :
  ∃ ret d', qcom_smem_alloc (call_fuel sample_dev 1) 0 1 9 6 (Some sample_dev) = (Done ret, Some d') ∧
    if decide (9 < SMEM_ITEM_LAST_FIXED ∨ item_count sample_dev ≤ 9) then ret = - EINVAL ∧ d' = sample_dev
    else if decide (0 ≠ 0) then ret = 0 ∧ d' = sample_dev
    else ∃ a S', heap_step (heap_for (<[1%nat := Some sample_heap]> (replicate 25 None)) sample_heap 1) (CAlloc 9 6) a S' ∧ ret = code_of a ∧
      let '(Σ', g') := heap_set (<[1%nat := Some sample_heap]> (replicate 25 None)) sample_heap 1 S' in dev_rep d' Σ' g'.
Proof. apply (smem_alloc_on_device sample_dev _ sample_heap 0 1 9 6 sample_dev_rep); lia. Defined.
