(* ===== verification/SmemProbe.v ===== *)
(** * Finding the partitions

    The partition table names pairs of hosts.  [qcom_smem_enumerate_partitions] maps the
    partitions this processor shares, and refuses a table that names a host twice, a host
    out of range, or a partition whose header does not agree with the table. *)

From S2P Require Import Prelude Memory Smem SmemSafe SmemHeap.

(** ** The table *)

Record tentry := mk_tentry { te_off : Z; te_size : Z; te_host0 : Z; te_host1 : Z; te_line : Z }.

Definition entry_at (bs : list Z) (i : Z) (e : tentry) : Prop :=
  let o := pt_entry + i * sizeof_ptable_entry in
  read_le 4 bs (o + pe_offset) = Some (te_off e) ∧ read_le 4 bs (o + pe_size) = Some (te_size e) ∧
  read_le 2 bs (o + pe_host0) = Some (te_host0 e) ∧ read_le 2 bs (o + pe_host1) = Some (te_host1 e) ∧
  read_le 4 bs (o + pe_cacheline) = Some (te_line e).

Record table (m : mapping) (l : list tentry) : Prop := {
  tb_magic : has (m_bytes m) pt_magic SMEM_PTABLE_MAGIC;
  tb_version : read_le 4 (m_bytes m) pt_version = Some 1;
  tb_count : read_le 4 (m_bytes m) pt_num_entries = Some (zlen l);
  tb_entries : ∀ i e, l !! i = Some e → entry_at (m_bytes m) (Z.of_nat i) e;
  tb_fields : Forall (λ e, 0 ≤ te_host0 e ∧ 0 ≤ te_host1 e ∧ (te_size e ≠ 0 → sizeof_partition_header ≤ te_size e < 2 ^ 32)) l;
}.

(** The host an entry shares with [local], [None] for entries in no use or of others. *)
Definition remote_of (local : Z) (e : tentry) : option Z :=
  if decide (te_off e = 0 ∨ te_size e = 0) then None
  else if decide (te_host0 e = local) then Some (te_host1 e)
  else if decide (te_host1 e = local) then Some (te_host0 e)
  else None.

(** A header that agrees with its entry. *)
Definition header_ok (e : tentry) (m : mapping) : Prop :=
  has (m_bytes m) ph_magic SMEM_PART_MAGIC ∧
  read_le 2 (m_bytes m) ph_host0 = Some (te_host0 e) ∧ read_le 2 (m_bytes m) ph_host1 = Some (te_host1 e) ∧
  read_le 4 (m_bytes m) ph_size = Some (te_size e) ∧
  ∃ o, read_le 4 (m_bytes m) ph_offset_free_uncached = Some o ∧ o ≤ te_size e.

Section table.
Context (devm_ioremap_wc : Z → Z → option mapping).
(** A mapping has the size that was asked for and lies away from the ends of the address space. *)
Context (ioremap_size : ∀ pa size m, devm_ioremap_wc pa size = Some m → sizeof_partition_header ≤ size < 2 ^ 32 → mapped size m).

(** The partition of an entry. *)
Definition entry_maps (base : Z) (e : tentry) (p : smem_partition) : Prop :=
  ∃ m, devm_ioremap_wc (u32 (base + te_off e)) (te_size e) = Some m ∧ header_ok e m ∧
    p = mk_part (Some m) (base + te_off e) (te_line e) (te_size e).

(** The partitions after the entries [l]. *)
Record mapped_for (local base : Z) (l : list tentry) (parts : list smem_partition) : Prop := {
  mf_len : zlen parts = SMEM_HOST_COUNT;
  mf_unique : NoDup (omap (remote_of local) l);
  mf_range : Forall (λ h, 0 ≤ h < SMEM_HOST_COUNT) (omap (remote_of local) l);
  mf_used : ∀ e h, e ∈ l → remote_of local e = Some h → ∃ p, parts !! Z.to_nat h = Some p ∧ entry_maps base e p;
  mf_free : ∀ h p, 0 ≤ h → h ∉ omap (remote_of local) l → parts !! Z.to_nat h = Some p → p = no_part;
}.

(** Why an entry is refused after the entries [pre]. *)
Definition refused (local base : Z) (pre : list tentry) (e : tentry) : Prop :=
  ∃ h, remote_of local e = Some h ∧
    (SMEM_HOST_COUNT ≤ h ∨ h ∈ omap (remote_of local) pre ∨ ¬ ∃ p, entry_maps base e p).

(** ** Reading *)

Lemma on_ptable_run {A} d m (f : Z → KM mapping A) z :
  ptable d = Some m → f (m_base m) m = (Done z, m) → on_ptable f d = (Done z, d).
Proof. intros Hp Hf. unfold on_ptable. rewrite Hp, Hf. destruct d; cbn in *. by rewrite Hp. Qed.

Lemma has_read base bs addr off d : addr = base + off → has bs off d →
  ld_bytes (zlen d) addr (mk_map base bs) = (Done d, mk_map base bs).
Proof. intros -> H. unfold ld_bytes. cbn [m_base m_bytes]. replace (base + off - base) with off by lia. by rewrite H. Qed.

Lemma ld_bytes_run psize base bs n addr off : mapped psize (mk_map base bs) → addr = base + off → 0 ≤ off → 0 ≤ n → off + n ≤ psize →
  ∃ d, ld_bytes n addr (mk_map base bs) = (Done d, mk_map base bs) ∧ zlen d = n ∧ has bs off d.
Proof.
  intros [_ _ Hl _] -> H1 H2 H3. cbn [m_bytes] in Hl. assert (∃ d, subrange off n bs = Some d) as [d Hd].
  { unfold subrange. rewrite bool_decide_true by (unfold zlen in *; lia). by eexists. }
  exists d. unfold ld_bytes. cbn [m_base m_bytes]. replace (base + off - base) with off by lia. rewrite Hd.
  split_and!; [done|by eapply subrange_zlen|by eapply subrange_has].
Qed.

Lemma has_inj bs off d d' : has bs off d → has bs off d' → zlen d = zlen d' → d = d'.
Proof. unfold has. intros H1 H2 Hz. rewrite Hz in H1. congruence. Qed.

(** Load from a mapping known by its size: the value, and that it is what stands there. *)
Lemma ld_val psize base bs n addr off : mapped psize (mk_map base bs) → addr = base + off → 0 ≤ off → 0 ≤ n → off + n ≤ psize →
  ∃ z, ld n addr (mk_map base bs) = (Done z, mk_map base bs) ∧ read_le n bs off = Some z.
Proof.
  intros [Hb _ Hl _] -> H1 H2 H3. cbn [m_bytes] in *. destruct (read_le_range n bs off) as (z & Hz & _); [done|lia..|].
  exists z. split; [by eapply ld_at|done].
Qed.

Lemma valid_header_run e m : mapped (te_size e) m →
  ∃ b, valid_header (te_host0 e) (te_host1 e) (te_size e) m = (Done b, m) ∧ (b = true ↔ header_ok e m).
Proof.
  intros Hm. pose proof Hm as [_ Hs _ _]. unfold sizeof_partition_header in Hs. destruct m as [base bs].
  unfold valid_header, header_ok, le16, le32, ph_magic, ph_host0, ph_host1, ph_size, ph_offset_free_uncached.
  unfold kgets at 1, kbind at 1. cbn [m_base m_bytes].
  destruct (ld_bytes_run _ _ _ 4 (base + 0) 0 Hm) as (d & Hd & Hz & Hh); [lia..|]. rewrite (kbind_Done _ _ _ _ _ Hd). clear Hd.
  case_bool_decide as Hmag; cbn [negb]; cycle 1.
  { exists false. split; [done|]. split; [done|]. intros (H1 & _). destruct Hmag. by eapply has_inj. }
  destruct (ld_val _ _ _ 2 (base + 4) 4 Hm) as (h0 & H0 & R0); [lia..|]. rewrite (kbind_Done _ _ _ _ _ H0). clear H0.
  destruct (Z.eqb_spec (te_host0 e) h0) as [E0|]; cbn [negb]; [|exists false; split; [done|]; naive_solver congruence].
  destruct (ld_val _ _ _ 2 (base + 6) 6 Hm) as (h1 & H1 & R1); [lia..|]. rewrite (kbind_Done _ _ _ _ _ H1). clear H1.
  destruct (Z.eqb_spec (te_host1 e) h1) as [E1|]; cbn [negb]; [|exists false; split; [done|]; naive_solver congruence].
  destruct (ld_val _ _ _ 4 (base + 8) 8 Hm) as (s & H2 & R2); [lia..|]. rewrite (kbind_Done _ _ _ _ _ H2). clear H2.
  destruct (Z.eqb_spec s (te_size e)) as [E2|]; cbn [negb]; [|exists false; split; [done|]; naive_solver congruence].
  destruct (ld_val _ _ _ 4 (base + 12) 12 Hm) as (o & H3 & R3); [lia..|]. rewrite (kbind_Done _ _ _ _ _ H3). clear H3.
  exists (negb (s <? o)). split; [done|]. subst. rewrite negb_true_iff, Z.ltb_ge. split.
  - intros Ho. split_and!; try done. by exists o.
  - intros (_ & _ & _ & _ & o' & Ho' & ?). congruence.
Qed.

(** ** One entry *)

Section entry.
Context (d : qcom_smem) (base : Z) (bs : list Z) (i : Z) (e : tentry).
Context (Hpt : ptable d = Some (mk_map base bs)) (Hat : entry_at bs i e).
Context (Hsize : te_size e ≠ 0 → sizeof_partition_header ≤ te_size e < 2 ^ 32).
Local Abbreviation entry := (ptable_entry base i).

Lemma field n f z : read_le n bs (pt_entry + i * sizeof_ptable_entry + f) = Some z →
  on_ptable (λ _, ld n (entry + f)) d = (Done z, d).
Proof using Hpt.
  intros Hr. eapply on_ptable_run; [done|]. cbn [m_base]. eapply ld_at; [|done]. unfold ptable_entry. lia.
Qed.

Lemma unused_run : on_ptable (λ _, unused_entry entry) d = (Done (bool_decide (te_off e = 0 ∨ te_size e = 0)), d).
Proof using Hpt Hat.
  clear Hsize. destruct Hat as (H1 & H2 & _). eapply on_ptable_run; [done|]. unfold unused_entry, le32. cbn [m_base].
  rewrite (kbind_Done _ _ _ _ _ (ld_at base bs 4 (entry + pe_offset) (pt_entry + i * sizeof_ptable_entry + pe_offset) (te_off e) ltac:(unfold ptable_entry; lia) H1)).
  destruct (Z.eqb_spec (te_off e) 0); [by rewrite bool_decide_true by (by left)|].
  rewrite (kbind_Done _ _ _ _ _ (ld_at base bs 4 (entry + pe_size) (pt_entry + i * sizeof_ptable_entry + pe_size) (te_size e) ltac:(unfold ptable_entry; lia) H2)).
  unfold kret. do 2 f_equal. destruct (Z.eqb_spec (te_size e) 0); [by rewrite bool_decide_true by (by right)|].
  by rewrite bool_decide_false by tauto.
Qed.

Lemma partition_header_run : te_size e ≠ 0 →
  ∃ o, qcom_smem_partition_header devm_ioremap_wc entry (te_host0 e) (te_host1 e) d = (Done o, d) ∧
    match o with
    | Some m => entry_maps (region0_base d) e (mk_part (Some m) (region0_base d + te_off e) (te_line e) (te_size e))
    | None => ¬ ∃ p, entry_maps (region0_base d) e p
    end.
Proof using All.
  intros Hne. destruct Hat as (H1 & H2 & _). unfold qcom_smem_partition_header. unfold kgets at 1, kbind at 1.
  unfold le32. rewrite (kbind_Done _ _ _ _ _ (field 4 pe_offset _ H1)), (kbind_Done _ _ _ _ _ (field 4 pe_size _ H2)).
  destruct (devm_ioremap_wc _ _) as [m|] eqn:Hio; [|eexists; split; [done|]; intros (p & m & ? & _); congruence].
  destruct (valid_header_run e m) as (b & -> & Hb); [by eapply ioremap_size; [done|apply Hsize]|].
  destruct b; eexists; (split; [done|]); [exists m; split_and!; [done|by apply Hb|done]|].
  intros (p & m' & Hio' & Hok & _). rewrite Hio in Hio'. simplify_eq. by apply Hb in Hok.
Qed.

Lemma entry_partition_run m : entry_partition entry m d =
  (Done (mk_part (Some m) (region0_base d + te_off e) (te_line e) (te_size e)), d).
Proof using Hpt Hat.
  destruct Hat as (H1 & H2 & _ & _ & H5). unfold entry_partition. unfold kgets at 1, kbind at 1. unfold le32.
  rewrite (kbind_Done _ _ _ _ _ (field 4 pe_offset _ H1)), (kbind_Done _ _ _ _ _ (field 4 pe_size _ H2)),
    (kbind_Done _ _ _ _ _ (field 4 pe_cacheline _ H5)). done.
Qed.
End entry.

Lemma omap_snoc {A B} (f : A → option B) l x : omap f (l ++ [x]) = omap f l ++ option_list (f x).
Proof. rewrite omap_app. f_equal; cbn; by destruct (f x). Qed.

Lemma mapped_for_skip local base pre e parts :
  remote_of local e = None → mapped_for local base pre parts → mapped_for local base (pre ++ [e]) parts.
Proof.
  intros Hr [H1 H2 H3 H4 H5]. split; rewrite ?omap_snoc, ?Hr; cbn [option_list]; rewrite ?app_nil_r; try done.
  intros e' h [He'|Heq%list_elem_of_singleton]%elem_of_app Hh; [by eapply H4|subst; congruence].
Qed.

Lemma mapped_for_add local base pre e h p parts :
  remote_of local e = Some h → 0 ≤ h < SMEM_HOST_COUNT → h ∉ omap (remote_of local) pre → entry_maps base e p →
  mapped_for local base pre parts → mapped_for local base (pre ++ [e]) (<[Z.to_nat h := p]> parts).
Proof.
  intros Hr Hh Hn Hp [H1 H2 H3 H4 H5]. unfold SMEM_HOST_COUNT in *.
  split; rewrite ?omap_snoc, ?Hr; cbn [option_list].
  - unfold zlen in *. by rewrite length_insert.
  - apply list.NoDup_app. split_and!; [done|set_solver|apply NoDup_singleton].
  - apply Forall_app_2; [done|]. by constructor.
  - intros e' h' [He'|Heq%list_elem_of_singleton]%elem_of_app Hh'.
    + assert (h' ∈ omap (remote_of local) pre) as Hin by (apply list_elem_of_omap; by exists e').
      rewrite list.Forall_forall in H3. pose proof (H3 _ Hin).
      rewrite list_lookup_insert_ne; [by eapply H4|]. intros Heq. apply Z2Nat.inj in Heq; [|lia..]. by subst.
    + subst e'. simplify_eq. exists p. split; [|done]. apply list_lookup_insert_eq. unfold zlen in *. lia.
  - intros h' p' H0 Hn' Hl. rewrite list_lookup_insert_ne in Hl; [eapply H5; [done|set_solver|done]|].
    intros Heq. apply Z2Nat.inj in Heq; [|lia..]. set_solver.
Qed.

Lemma enumerate_entry_run d base bs i e local pre :
  ptable d = Some (mk_map base bs) → entry_at bs i e →
  (0 ≤ te_host0 e ∧ 0 ≤ te_host1 e ∧ (te_size e ≠ 0 → sizeof_partition_header ≤ te_size e < 2 ^ 32)) →
  mapped_for local (region0_base d) pre (partitions d) →
  ∃ r d', enumerate_entry devm_ioremap_wc local base i d = (Done r, d') ∧
    (r = None ∧ (∃ parts, d' = set_partitions parts d ∧ mapped_for local (region0_base d) (pre ++ [e]) parts) ∨
     r = Some (- EINVAL) ∧ d' = d ∧ refused local (region0_base d) pre e).
Proof using All.
  intros Hpt Hat (Hh0 & Hh1 & Hsize) Hmf. pose proof Hat as (A1 & A2 & A3 & A4 & A5). unfold enumerate_entry, le16.
  assert (d = set_partitions (partitions d) d) as Hself by (by destruct d).
  rewrite (kbind_Done _ _ _ _ _ (unused_run d base bs i e Hpt Hat)).
  case_bool_decide as Hun.
  { exists None, d. split; [done|]. left. split; [done|]. exists (partitions d). split; [done|].
    apply mapped_for_skip; [|done]. unfold remote_of. by rewrite decide_True. }
  rewrite (kbind_Done _ _ _ _ _ (field d base bs i Hpt 2 pe_host0 _ A3)), (kbind_Done _ _ _ _ _ (field d base bs i Hpt 2 pe_host1 _ A4)).
  assert ((if te_host0 e =? local then Some (te_host1 e) else if te_host1 e =? local then Some (te_host0 e) else None) = remote_of local e) as ->.
  { unfold remote_of. rewrite decide_False by done. destruct (Z.eqb_spec (te_host0 e) local); [by rewrite decide_True|]. rewrite (decide_False (P := te_host0 e = local)) by done.
    destruct (Z.eqb_spec (te_host1 e) local); [by rewrite decide_True|]. by rewrite decide_False. }
  destruct (remote_of local e) as [h|] eqn:Hr.
  2:{ exists None, d. split; [done|]. left. split; [done|]. exists (partitions d). split; [done|by apply mapped_for_skip]. }
  assert (0 ≤ h) as Hh. { unfold remote_of in Hr. repeat case_decide; simplify_eq; lia. }
  destruct (Z.leb_spec SMEM_HOST_COUNT h).
  { exists (Some (- EINVAL)), d. split; [done|]. right. split_and!; [done|done|]. exists h. split; [done|by left]. }
  unfold kgets at 1, kbind at 1. pose proof Hmf as [M1 M2 M3 M4 M5].
  assert (∃ p, partitions d !! Z.to_nat h = Some p) as [p Hp].
  { apply lookup_lt_is_Some. unfold zlen, SMEM_HOST_COUNT in *. lia. }
  rewrite Hp. cbn [mbind option_bind]. case_bool_decide as Htaken.
  { exists (Some (- EINVAL)), d. split; [done|]. right. split_and!; [done|done|]. exists h. split; [done|]. right. left.
    destruct (decide (h ∈ omap (remote_of local) pre)) as [|Hn]; [done|].
    rewrite (M5 h p Hh Hn Hp) in Htaken. by destruct Htaken. }
  assert (h ∉ omap (remote_of local) pre) as Hn.
  { intros (e' & He' & Hr')%list_elem_of_omap. destruct (M4 e' h He' Hr') as (p' & Hp' & m' & _ & _ & ->).
    rewrite Hp in Hp'. simplify_eq. apply Htaken. by eexists. }
  destruct (partition_header_run d base bs i e Hpt Hat Hsize ltac:(tauto)) as (o & Ho & Hom).
  rewrite (kbind_Done _ _ _ _ _ Ho). destruct o as [m|].
  2:{ exists (Some (- EINVAL)), d. split; [done|]. right. split_and!; [done|done|]. exists h. split; [done|]. by right; right. }
  rewrite (kbind_Done _ _ _ _ _ (entry_partition_run d base bs i e Hpt Hat m)).
  eexists None, _. split; [done|]. left. split; [done|]. eexists. split; [done|]. by apply mapped_for_add.
Qed.

(** ** The whole table *)

Lemma get_ptable_run d m l : ptable d = Some m → table m l → qcom_smem_get_ptable d = (Done 0, d).
Proof.
  intros Hpt [Hm Hv _ _ _]. destruct m as [base bs]. eapply on_ptable_run; [done|]. cbn [m_base m_bytes] in *.
  change 4 with (zlen SMEM_PTABLE_MAGIC) at 1. rewrite (kbind_Done _ _ _ _ _ (has_read base bs (base + pt_magic) _ _ eq_refl Hm)).
  rewrite bool_decide_true by done. cbn [negb]. unfold le32.
  by rewrite (kbind_Done _ _ _ _ _ (ld_at base bs 4 (base + pt_version) _ 1 eq_refl Hv)).
Qed.

Definition fields_ok (e : tentry) : Prop :=
  0 ≤ te_host0 e ∧ 0 ≤ te_host1 e ∧ (te_size e ≠ 0 → sizeof_partition_header ≤ te_size e < 2 ^ 32).

Lemma enumerate_loop base bs local : ∀ post pre d,
  ptable d = Some (mk_map base bs) → (∀ i e, (pre ++ post) !! i = Some e → entry_at bs (Z.of_nat i) e) → Forall fields_ok post →
  mapped_for local (region0_base d) pre (partitions d) →
  ∃ r parts, for_until (seqZ (zlen pre) (zlen post)) (enumerate_entry devm_ioremap_wc local base) d = (Done r, set_partitions parts d) ∧
    (r = None ∧ mapped_for local (region0_base d) (pre ++ post) parts ∨
     r = Some (- EINVAL) ∧ ∃ pre' e post', pre ++ post = pre' ++ e :: post' ∧ refused local (region0_base d) pre' e ∧
       mapped_for local (region0_base d) pre' parts).
Proof using All.
  induction post as [|e post IH]; intros pre d Hpt Hat Hf Hmf.
  { exists None, (partitions d). cbn. split; [by destruct d|]. left. by rewrite app_nil_r. }
  apply list.Forall_cons in Hf as [Hfe Hf].
  replace (zlen (e :: post)) with (Z.succ (zlen post)) by (unfold zlen; cbn; lia).
  rewrite seqZ_cons by (pose proof (zlen_nonneg post); lia). rewrite Z.pred_succ. cbn [for_until].
  destruct (enumerate_entry_run d base bs (zlen pre) e local pre Hpt) as (r & d' & Hr & Hcase); [|done|done|].
  { apply Hat. rewrite lookup_app_r, Nat.sub_diag by lia. done. }
  rewrite (kbind_Done _ _ _ _ _ Hr). destruct Hcase as [(-> & parts & -> & Hmf')|(-> & -> & Href)].
  - destruct (IH (pre ++ [e]) (set_partitions parts d)) as (r & parts' & Hl & Hcase); [done|by rewrite <- app_assoc|done|done|].
    rewrite <- app_assoc in Hcase. exists r, parts'. split; [|done].
    replace (Z.succ (zlen pre)) with (zlen (pre ++ [e])) by (rewrite zlen_app; unfold zlen; cbn; lia). done.
  - exists (Some (- EINVAL)), (partitions d). split; [by destruct d|]. right. split; [done|]. by exists pre, e, post.
Qed.

End table.

(** A table of three entries: one in no use, one shared with host 1, one of other hosts. *)
Definition sample_table : mapping :=
  let entry off size h0 h1 line := le_encode 4 off ++ le_encode 4 size ++ le_encode 4 0 ++ le_encode 2 h0 ++ le_encode 2 h1 ++
    le_encode 4 line ++ replicate 28 0 in
  mk_map (2 ^ 41) (SMEM_PTABLE_MAGIC ++ le_encode 4 1 ++ le_encode 4 3 ++ replicate 20 0 ++
    entry 0 0 0 2 32 ++ entry 4096 128 0 1 32 ++ entry 8192 64 3 4 32 ++ replicate 3920 0).

Definition sample_entries : list tentry := [mk_tentry 0 0 0 2 32; mk_tentry 4096 128 0 1 32; mk_tentry 8192 64 3 4 32].

Definition sample_ioremap (pa size : Z) : option mapping := if decide (size = 128) then Some fresh else None.

Lemma sample_ioremap_size pa size m :
  sample_ioremap pa size = Some m → sizeof_partition_header ≤ size < 2 ^ 32 → mapped size m.
Proof. unfold sample_ioremap. case_decide; [|done]. intros [= <-] _. subst size. apply fresh_rep. Qed.

Lemma sample_table_ok : table sample_table sample_entries.
Proof.
  split; [vm_compute; reflexivity..| |].
  - intros i e. do 3 (destruct i as [|i]; [intros [= <-]; vm_compute; split_and!; reflexivity|]). done.
  - unfold sizeof_partition_header. repeat apply Forall_cons_2; [cbn; lia..|apply Forall_nil_2].
Qed.

Definition unmapped_dev : qcom_smem := mk_smem 0 (Some sample_table) no_part (replicate 25 no_part) [mk_region 65536 None 65536].


Example sample_enumerated :
  (λ x, (x.1, (λ p, (phys_base p, part_size p)) <$> take 3 (partitions x.2)))
    (qcom_smem_enumerate_partitions sample_ioremap 0 unmapped_dev) = (Done 0, [(0, 0); (69632, 128); (0, 0)]).
Proof. vm_compute. reflexivity. Qed.
