(* ===== verification/Smp2p.v ===== *)
(** * Point-to-point signalling (drivers/soc/qcom/smp2p.c)

    Two processors exchange 32-bit values.  Each owns one item in shared memory, which it
    writes and the other reads: a header, and up to sixteen named values.  A doorbell makes
    the other side look at what changed; changed bits become interrupts.  The items are byte
    lists under their SMEM numbers, an access outside an item is [Undef], pointers to values
    are indices into the item, and delivered interrupts and doorbells are recorded. *)

From S2P Require Import Prelude Memory Smem.

Definition SMP2P_MAX_ENTRY : Z := 16.
Definition SMP2P_MAX_ENTRY_NAME : Z := 16.
Definition SMP2P_FEATURE_SSR_ACK : Z := 1.
Definition SMP2P_FLAGS_RESTART_DONE_BIT : Z := 0.
Definition SMP2P_FLAGS_RESTART_ACK_BIT : Z := 1.
Definition SMP2P_MAGIC : Z := 0x504d5324.
Definition SMP2P_ALL_FEATURES : Z := SMP2P_FEATURE_SSR_ACK.
Definition SMP2P_VERSION_1 : Z := 1.
Definition IRQ_TYPE_EDGE_RISING : Z := 1.
Definition IRQ_TYPE_EDGE_FALLING : Z := 2.
Definition IRQ_TYPE_EDGE_BOTH : Z := 3.

(** Offsets in [struct smp2p_smem_item]. *)
Definition i_magic : Z := 0.
Definition i_version : Z := 4.
Definition i_features : Z := 5.
Definition i_local_pid : Z := 8.
Definition i_remote_pid : Z := 10.
Definition i_total_entries : Z := 12.
Definition i_valid_entries : Z := 14.
Definition i_flags : Z := 16.
Definition i_name (i : Z) : Z := 20 + 20 * i.
Definition i_value (i : Z) : Z := 36 + 20 * i.
Definition sizeof_smem_item : Z := 340.

(** The name is a C string without its NUL; [value] is the index the pointer refers to,
    in the inbound or the outbound item; the bitmaps have 32 bits. *)
Record smp2p_entry := mk_s_entry {
  name : list Z;
  value : option Z;
  last_value : Z;
  irq_enabled : Z;
  irq_pending : Z;
  irq_rising : Z;
  irq_falling : Z;
}.

(** [has_in] and [has_out]: the pointers [in] and [out] are not NULL; [smem_in] and
    [smem_out] are [smem_items]. *)
Record qcom_smp2p := mk_smp2p {
  has_in : bool;
  has_out : bool;
  smem_in : Z;
  smem_out : Z;
  valid_entries : Z;
  ssr_ack_enabled : bool;
  ssr_ack : bool;
  negotiation_done : bool;
  local_pid : Z;
  remote_pid : Z;
  inbound : list smp2p_entry;
  outbound : list smp2p_entry;
}.

Record oplus_smp2p_state := mk_oplus { op_local : Z; op_remote : Z; op_val : Z; op_count : Z }.

(** The shared items, the device, the doorbells rung, the interrupts handled (entry and bit),
    and the statistics. *)
Record s_state := mk_sst {
  items : gmap Z (list Z);
  sdev : qcom_smp2p;
  kicks : Z;
  fired : list (list Z * Z);
  oplus_smp2p_state_switch : bool;
  oplus_smp2p_state_list : list oplus_smp2p_state;
}.

Abbreviation PM := (KM s_state).

Definition set_items (m : gmap Z (list Z)) (s : s_state) : s_state :=
  mk_sst m (sdev s) (kicks s) (fired s) (oplus_smp2p_state_switch s) (oplus_smp2p_state_list s).
Definition set_sdev (d : qcom_smp2p) (s : s_state) : s_state :=
  mk_sst (items s) d (kicks s) (fired s) (oplus_smp2p_state_switch s) (oplus_smp2p_state_list s).
Definition mod_sdev (f : qcom_smp2p → qcom_smp2p) : PM unit := kmodify (λ s, set_sdev (f (sdev s)) s).

Definition set_in (b : bool) (v : Z) (d : qcom_smp2p) : qcom_smp2p :=
  mk_smp2p b (has_out d) (smem_in d) (smem_out d) v (ssr_ack_enabled d) (ssr_ack d) (negotiation_done d)
    (local_pid d) (remote_pid d) (inbound d) (outbound d).
Definition set_out (b : bool) (d : qcom_smp2p) : qcom_smp2p :=
  mk_smp2p (has_in d) b (smem_in d) (smem_out d) (valid_entries d) (ssr_ack_enabled d) (ssr_ack d) (negotiation_done d)
    (local_pid d) (remote_pid d) (inbound d) (outbound d).
Definition set_ssr (en ack done_ : bool) (d : qcom_smp2p) : qcom_smp2p :=
  mk_smp2p (has_in d) (has_out d) (smem_in d) (smem_out d) (valid_entries d) en ack done_
    (local_pid d) (remote_pid d) (inbound d) (outbound d).
Definition set_inbound (l : list smp2p_entry) (d : qcom_smp2p) : qcom_smp2p :=
  mk_smp2p (has_in d) (has_out d) (smem_in d) (smem_out d) (valid_entries d) (ssr_ack_enabled d) (ssr_ack d) (negotiation_done d)
    (local_pid d) (remote_pid d) l (outbound d).
Definition set_outbound (l : list smp2p_entry) (d : qcom_smp2p) : qcom_smp2p :=
  mk_smp2p (has_in d) (has_out d) (smem_in d) (smem_out d) (valid_entries d) (ssr_ack_enabled d) (ssr_ack d) (negotiation_done d)
    (local_pid d) (remote_pid d) (inbound d) l.

Definition set_value (v : option Z) (e : smp2p_entry) : smp2p_entry :=
  mk_s_entry (name e) v (last_value e) (irq_enabled e) (irq_pending e) (irq_rising e) (irq_falling e).
Definition set_last (v : Z) (e : smp2p_entry) : smp2p_entry :=
  mk_s_entry (name e) (value e) v (irq_enabled e) (irq_pending e) (irq_rising e) (irq_falling e).
Definition set_pending (v : Z) (e : smp2p_entry) : smp2p_entry :=
  mk_s_entry (name e) (value e) (last_value e) (irq_enabled e) v (irq_rising e) (irq_falling e).
Definition set_enabled (v : Z) (e : smp2p_entry) : smp2p_entry :=
  mk_s_entry (name e) (value e) (last_value e) v (irq_pending e) (irq_rising e) (irq_falling e).
Definition set_edges (r f : Z) (e : smp2p_entry) : smp2p_entry :=
  mk_s_entry (name e) (value e) (last_value e) (irq_enabled e) (irq_pending e) r f.

(** ** Items *)

Definition item_ld (id n off : Z) : PM Z := λ s,
  match items s !! id ≫= (λ bs, read_le n bs off) with Some z => (Done z, s) | None => (Undef, s) end.
Definition item_bytes (id n off : Z) : PM (list Z) := λ s,
  match items s !! id ≫= subrange off n with Some bs => (Done bs, s) | None => (Undef, s) end.
Definition item_put (id off : Z) (w : list Z) : PM unit := λ s,
  match items s !! id with
  | Some bs => if bool_decide (0 ≤ off ∧ off + zlen w ≤ zlen bs)
               then (Done tt, set_items (<[id := put off w bs]> (items s)) s) else (Undef, s)
  | None => (Undef, s)
  end.
Definition item_st (id : Z) (n : nat) (off z : Z) : PM unit := item_put id off (le_encode n z).

(** [qcom_smem_get] of an item of this pair of processors: is it there? *)
Definition item_present (id : Z) : PM bool := kgets (λ s, bool_decide (is_Some (items s !! id))).

Definition qcom_smp2p_kick : PM unit :=
  kmodify (λ s, mk_sst (items s) (sdev s) (kicks s + 1) (fired s) (oplus_smp2p_state_switch s) (oplus_smp2p_state_list s)).

(** ** Negotiation and restart *)

Definition qcom_smp2p_check_ssr : PM bool :=
  let* d := kgets sdev in
  if negb (ssr_ack_enabled d) then kret false
  else
    let* flags := item_ld (smem_in d) 4 i_flags in
    let restart := negb (eqb (Z.testbit flags SMP2P_FLAGS_RESTART_DONE_BIT) (ssr_ack d)) in
    if restart then
      let* version := item_ld (smem_in d) 1 i_version in
      (if SMP2P_VERSION_1 <? version then
         mod_sdev (set_inbound ((λ e, match value e with None => e | Some _ => set_last 0 e end) <$> inbound d))
       else kret tt) ;;;
      kret true
    else kret false.

Definition qcom_smp2p_do_ssr_ack : PM unit :=
  mod_sdev (λ d, set_ssr (ssr_ack_enabled d) (negb (ssr_ack d)) (negotiation_done d) d) ;;;
  let* d := kgets sdev in
  let* flags := item_ld (smem_out d) 4 i_flags in
  let val := Z.clearbit flags SMP2P_FLAGS_RESTART_ACK_BIT in
  let val := if ssr_ack d then Z.lor val (BIT SMP2P_FLAGS_RESTART_ACK_BIT) else val in
  item_st (smem_out d) 4 i_flags val ;;;
  qcom_smp2p_kick.

Definition qcom_smp2p_negotiate : PM unit :=
  let* d := kgets sdev in
  let* vin := item_ld (smem_in d) 1 i_version in
  let* vout := item_ld (smem_out d) 1 i_version in
  if vin =? vout then
    let* fout := item_ld (smem_out d) 3 i_features in
    let* fin := item_ld (smem_in d) 3 i_features in
    item_st (smem_out d) 3 i_features (Z.land fout fin) ;;;
    let* f := item_ld (smem_out d) 3 i_features in
    mod_sdev (λ d, set_ssr (if negb (Z.land f SMP2P_FEATURE_SSR_ACK =? 0) then true else ssr_ack_enabled d) (ssr_ack d) true d)
  else kret tt.

Definition qcom_smp2p_in_version : PM Z :=
  let* d := kgets sdev in
  let* present := item_present (smem_in d) in
  if present then item_ld (smem_in d) 1 i_version else kret 0.

(** ** Inbound entries *)

(** [strcmp] of a 16-byte buffer and a string: [None] when it runs past the buffer. *)
Definition strcmp_buf (buf nm : list Z) : option bool :=
  if bool_decide (buf = take (length buf) nm) then None
  else Some (bool_decide (take (S (length nm)) buf = nm ++ [0])).

(** The entry the [i]-th name belongs to: update the first match. *)
Fixpoint match_entry (id i : Z) (f : smp2p_entry → PM smp2p_entry) (l : list smp2p_entry) : PM (list smp2p_entry) :=
  match l with
  | [] => kret []
  | e :: l =>
      let* buf := item_bytes id SMP2P_MAX_ENTRY_NAME (i_name i) in
      match strcmp_buf buf (name e) with
      | None => kfail Undef
      | Some true => let* e := f e in kret (e :: l)
      | Some false => let* l := match_entry id i f l in kret (e :: l)
      end
  end.

(** Match the entries from [valid_entries] on. *)
Definition match_new (f : Z → smp2p_entry → PM smp2p_entry) : PM unit :=
  let* d := kgets sdev in
  let* n := item_ld (smem_in d) 2 i_valid_entries in
  for_each (seqZ (valid_entries d) (n - valid_entries d)) (λ i,
    let* d := kgets sdev in
    let* l := match_entry (smem_in d) i (f i) (inbound d) in
    mod_sdev (set_inbound l)) ;;;
  mod_sdev (λ d, set_in (has_in d) (Z.max (valid_entries d) n) d).

Definition qcom_smp2p_start_in : PM unit :=
  let* d := kgets sdev in
  let* present := item_present (smem_in d) in
  if negb present then kret tt
  else
    mod_sdev (λ d, set_in true (valid_entries d) d) ;;;
    let* version := item_ld (smem_in d) 1 i_version in
    if version =? 0 then kret tt
    else match_new (λ i e, let* v := item_ld (smem_in d) 4 (i_value i) in kret (set_last v (set_value (Some i) e))).

(** Statistics of wakeups. *)
Fixpoint oplus_count (local remote val : Z) (l : list oplus_smp2p_state) : option (list oplus_smp2p_state) :=
  match l with
  | [] => None
  | st :: l =>
      if (op_local st =? local) && (op_remote st =? remote) && (op_val st =? val)
      then Some (mk_oplus (op_local st) (op_remote st) (op_val st) (u32 (op_count st + 1)) :: l)
      else cons st <$> oplus_count local remote val l
  end.

Definition update_oplus_smp2p_state (kmalloc_ok : bool) (local remote val : Z) : PM unit := kmodify (λ s,
  if negb (oplus_smp2p_state_switch s) then s
  else
    let val := Z.land (Z.shiftr val 16) 0xffff in
    let l := match oplus_count local remote val (oplus_smp2p_state_list s) with
             | Some l => l
             | None => if kmalloc_ok then oplus_smp2p_state_list s ++ [mk_oplus local remote val 1] else oplus_smp2p_state_list s
             end in
    mk_sst (items s) (sdev s) (kicks s) (fired s) (oplus_smp2p_state_switch s) l).

Definition reset_oplus_smp2p_state (switch_state : Z) : PM unit := kmodify (λ s,
  mk_sst (items s) (sdev s) (kicks s) (fired s) (0 <? switch_state) []).

Definition handle_nested_irq (nm : list Z) (i : Z) : PM unit := kmodify (λ s,
  mk_sst (items s) (sdev s) (kicks s) (fired s ++ [(nm, i)]) (oplus_smp2p_state_switch s) (oplus_smp2p_state_list s)).

(** The interrupt of a bit of the status is handled for a watched edge. *)
Definition edge_watched (val : Z) (e : smp2p_entry) (i : Z) : bool :=
  (Z.testbit val i && test_bit i (irq_rising e)) || (negb (Z.testbit val i) && test_bit i (irq_falling e)).

Fixpoint fire_bits (val : Z) (e : smp2p_entry) (bits : list Z) : PM smp2p_entry :=
  match bits with
  | [] => kret e
  | i :: bits =>
      if edge_watched val e i then
        handle_nested_irq (name e) i ;;; fire_bits val (set_pending (clear_bit i (irq_pending e)) e) bits
      else fire_bits val e bits
  end.

Definition notify_entry (kmalloc_ok : bool) (id local remote : Z) (e : smp2p_entry) : PM smp2p_entry :=
  match value e with
  | None => kret e
  | Some i =>
      let* val := item_ld id 4 (i_value i) in
      let status := Z.lor (Z.lxor val (last_value e)) (irq_pending e) in
      let e := set_last val e in
      update_oplus_smp2p_state kmalloc_ok local remote val ;;;
      if status =? 0 then kret e else fire_bits val e (set_bits status 32)
  end.

Fixpoint notify_entries (kmalloc_ok : bool) (id local remote : Z) (l : list smp2p_entry) : PM (list smp2p_entry) :=
  match l with
  | [] => kret []
  | e :: l =>
      let* e := notify_entry kmalloc_ok id local remote e in
      let* l := notify_entries kmalloc_ok id local remote l in kret (e :: l)
  end.

Definition qcom_smp2p_notify_in (kmalloc_ok : bool) : PM unit :=
  match_new (λ i e, kret (set_value (Some i) e)) ;;;
  let* d := kgets sdev in
  let* l := notify_entries kmalloc_ok (smem_in d) (local_pid d) (remote_pid d) (inbound d) in
  mod_sdev (set_inbound l).

Definition qcom_smp2p_intr (kmalloc_ok : bool) : PM unit :=
  let* d := kgets sdev in
  let* present := (if has_in d then kret true else item_present (smem_in d)) in
  if negb present then kret tt
  else
    mod_sdev (λ d, set_in true (valid_entries d) d) ;;;
    (if negotiation_done d then kret tt else qcom_smp2p_negotiate) ;;;
    let* d := kgets sdev in
    if negotiation_done d then
      let* ack_restart := qcom_smp2p_check_ssr in
      qcom_smp2p_notify_in kmalloc_ok ;;;
      if ack_restart then qcom_smp2p_do_ssr_ack else kret tt
    else kret tt.

(** ** The interrupt chip, on one inbound entry *)

Definition smp2p_mask_irq (irq : Z) (e : smp2p_entry) : smp2p_entry := set_enabled (clear_bit irq (irq_enabled e)) e.
Definition smp2p_unmask_irq (irq : Z) (e : smp2p_entry) : smp2p_entry := set_enabled (set_bit irq (irq_enabled e)) e.

Definition smp2p_set_irq_type (irq type : Z) (e : smp2p_entry) : Z * smp2p_entry :=
  if Z.land type IRQ_TYPE_EDGE_BOTH =? 0 then (- EINVAL, e)
  else
    let r := if negb (Z.land type IRQ_TYPE_EDGE_RISING =? 0) then set_bit irq (irq_rising e) else clear_bit irq (irq_rising e) in
    let f := if negb (Z.land type IRQ_TYPE_EDGE_FALLING =? 0) then set_bit irq (irq_falling e) else clear_bit irq (irq_falling e) in
    (0, set_edges r f e).

Definition smp2p_retrigger_irq (irq : Z) (e : smp2p_entry) : smp2p_entry := set_pending (set_bit irq (irq_pending e)) e.

(** [line]: the state asked for is the line level. *)
Definition smp2p_irq_get_irqchip_state (id irq : Z) (line : bool) (e : smp2p_entry) : PM (Z + bool) :=
  if negb line then kret (inl (- EINVAL))
  else match value e with
       | None => kret (inl (- ENODEV))
       | Some i => let* val := item_ld id 4 (i_value i) in kret (inr (Z.testbit val irq))
       end.

(** ** Outbound entries *)

(** [smp2p_update_bits] on the [k]-th outbound entry. *)
Definition smp2p_update_bits (k : nat) (mask val : Z) : PM Z :=
  let* d := kgets sdev in
  match outbound d !! k ≫= value with
  | None => kfail Undef
  | Some i =>
      let* orig := item_ld (smem_out d) 4 (i_value i) in
      let v := Z.lor (Z.ldiff orig mask) val in
      item_st (smem_out d) 4 (i_value i) v ;;;
      (if negb (v =? orig) then qcom_smp2p_kick else kret tt) ;;;
      kret 0
  end.

(** [strscpy] into a zeroed buffer of 16 bytes. *)
Definition entry_name (nm : list Z) : list Z :=
  let t := take 15 nm in t ++ replicate (16 - length t) 0.

(** The error of [qcom_smem_state_register] comes after the entry was allocated. *)
Definition qcom_smp2p_outbound_entry (state_ret : Z) (e : smp2p_entry) : PM (Z * smp2p_entry) :=
  let* d := kgets sdev in
  let* v := item_ld (smem_out d) 2 i_valid_entries in
  item_put (smem_out d) (i_name v) (entry_name (name e)) ;;;
  item_st (smem_out d) 2 i_valid_entries (v + 1) ;;;
  kret (if state_ret <? 0 then state_ret else 0, set_value (Some v) e).

(** [ret] and [junk]: what [qcom_smem_alloc] answers, and the first contents of a new item. *)
Definition qcom_smp2p_alloc_outbound_item (ret : Z) (junk : list Z) : PM Z :=
  let* d := kgets sdev in
  (if ret =? 0 then kmodify (λ s, set_items (<[smem_out d := junk]> (items s)) s) else kret tt) ;;;
  if (ret <? 0) && negb (ret =? - EEXIST) then kret ret
  else
    let* present := item_present (smem_out d) in
    if negb present then kret (- ENOENT)
    else
      item_put (smem_out d) 0 (replicate (Z.to_nat sizeof_smem_item) 0) ;;;
      item_st (smem_out d) 4 i_magic SMP2P_MAGIC ;;;
      item_st (smem_out d) 2 i_local_pid (local_pid d) ;;;
      item_st (smem_out d) 2 i_remote_pid (remote_pid d) ;;;
      item_st (smem_out d) 2 i_total_entries SMP2P_MAX_ENTRY ;;;
      item_st (smem_out d) 2 i_valid_entries 0 ;;;
      item_st (smem_out d) 3 i_features SMP2P_ALL_FEATURES ;;;
      let* in_version := qcom_smp2p_in_version in
      item_st (smem_out d) 1 i_version (if negb (in_version =? 0) then in_version else 1) ;;;
      qcom_smp2p_kick ;;;
      mod_sdev (set_out true) ;;;
      kret 0.

(** ** Probe, removal, hibernation *)

(** A child node: what the calls on it answer.  [c_alloc]: [kzalloc] succeeds; [c_name]: the
    error of reading the name, or the name; [c_irq]: it is an interrupt controller;
    [c_domain]: its interrupt domain can be added; [c_state]: the code of registering it. *)
Record child := mk_child { c_alloc : bool; c_name : Z + list Z; c_irq : bool; c_domain : bool; c_state : Z }.

Definition new_entry_of (nm : list Z) : smp2p_entry := mk_s_entry nm None 0 0 0 0 0.

Definition qcom_smp2p_inbound_entry (domain : bool) : Z := if domain then 0 else - ENOMEM.

(** The children one after the other, until an error. *)
Fixpoint probe_children (l : list child) : PM Z :=
  match l with
  | [] => kret 0
  | c :: l =>
      if negb (c_alloc c) then kret (- ENOMEM)
      else match c_name c with
           | inl ret => kret ret
           | inr nm =>
               if c_irq c then
                 let ret := qcom_smp2p_inbound_entry (c_domain c) in
                 if ret <? 0 then kret ret
                 else mod_sdev (λ d, set_inbound (new_entry_of nm :: inbound d) d) ;;; probe_children l
               else
                 let* r := qcom_smp2p_outbound_entry (c_state c) (new_entry_of nm) in
                 if r.1 <? 0 then kret r.1
                 else mod_sdev (λ d, set_outbound (r.2 :: outbound d) d) ;;; probe_children l
           end
  end.

(** What the probe gets from the device tree and the frameworks. *)
Record smp2p_env := mk_senv {
  pe_kzalloc : bool;
  pe_smem : Z + Z * Z;           (* "qcom,smem" *)
  pe_local : Z + Z;              (* "qcom,local-pid" *)
  pe_remote : Z + Z;             (* "qcom,remote-pid" *)
  pe_irq : Z;                    (* platform_get_irq *)
  pe_mbox : Z;                   (* 0, or the error of mbox_request_channel *)
  pe_ipc_node : bool;
  pe_ipc_regmap : Z;             (* 0, or the error of syscon_node_to_regmap *)
  pe_ipc_offset : Z;             (* the return codes of reading the two cells *)
  pe_ipc_bit : Z;
  pe_alloc : Z;                  (* qcom_smem_alloc *)
  pe_junk : list Z;
  pe_children : list child;
  pe_devname : bool;             (* kasprintf *)
  pe_request_irq : Z;
  pe_wake_irq : Z;
}.

Definition smp2p_parse_ipc (env : smp2p_env) : Z :=
  if negb (pe_ipc_node env) then - ENODEV
  else if negb (pe_ipc_regmap env =? 0) then pe_ipc_regmap env
  else if pe_ipc_offset env <? 0 then - EINVAL
  else if pe_ipc_bit env <? 0 then - EINVAL
  else 0.

(** [unwind_interfaces]: the entries are freed and the item is empty again. *)
Definition unwind_interfaces (ret : Z) : PM Z :=
  mod_sdev (λ d, set_inbound [] (set_outbound [] d)) ;;;
  let* d := kgets sdev in
  item_st (smem_out d) 2 i_valid_entries 0 ;;; kret ret.

Definition qcom_smp2p_probe (env : smp2p_env) : PM Z :=
  if negb (pe_kzalloc env) then kret (- ENOMEM)
  else match pe_smem env with
  | inl ret => kret ret
  | inr (id_in, id_out) =>
  match pe_local env, pe_remote env with
  | inl _, _ | inr _, inl _ => kret (- EINVAL)
  | inr local, inr remote =>
      if pe_irq env <? 0 then kret (pe_irq env)
      else
        let mbox := if pe_mbox env =? 0 then 0
                    else if negb (pe_mbox env =? - ENODEV) then pe_mbox env else smp2p_parse_ipc env in
        if negb (mbox =? 0) then kret mbox
        else
          mod_sdev (λ _, mk_smp2p false false id_in id_out 0 false false false local remote [] []) ;;;
          let* ret := qcom_smp2p_alloc_outbound_item (pe_alloc env) (pe_junk env) in
          if ret <? 0 then kret ret
          else
            let* ret := probe_children (pe_children env) in
            if ret <? 0 then unwind_interfaces ret
            else
              qcom_smp2p_start_in ;;;
              qcom_smp2p_kick ;;;
              if negb (pe_devname env) then unwind_interfaces (- ENOMEM)
              else if negb (pe_request_irq env =? 0) then unwind_interfaces (pe_request_irq env)
              else if negb (pe_wake_irq env =? 0) then unwind_interfaces (pe_wake_irq env)
              else kret 0
  end
  end.

Definition qcom_smp2p_remove : PM unit := let* _ := unwind_interfaces 0 in kret tt.

Fixpoint restore_children (l : list child) : PM Z :=
  match l with
  | [] => kret 0
  | c :: l =>
      if negb (c_alloc c) then kret (- ENOMEM)
      else match c_name c with
           | inl ret => kret ret
           | inr nm =>
               if c_irq c then restore_children l
               else
                 let* r := qcom_smp2p_outbound_entry (c_state c) (new_entry_of nm) in
                 if r.1 <? 0 then kret r.1
                 else mod_sdev (λ d, set_outbound (r.2 :: outbound d) d) ;;; restore_children l
           end
  end.

Definition qcom_smp2p_restore (ret : Z) (junk : list Z) (children : list child) : PM Z :=
  let* ret := qcom_smp2p_alloc_outbound_item ret junk in
  if ret <? 0 then kret ret
  else
    let* ret := restore_children children in
    if ret <? 0 then kret ret else qcom_smp2p_kick ;;; kret ret.

Definition qcom_smp2p_freeze : PM unit :=
  mod_sdev (λ d, set_in false 0 (set_inbound (set_last 0 <$> inbound d) (set_outbound [] d))).
