(* ===== verification/Smp2pLink.v ===== *)
(** * What a link between two processors does

    The sender changes bits of its values and rings; the receiver's interrupt handler turns
    every bit that changed since it last looked, on an edge someone watches, into exactly one
    interrupt.  A link of both sides' code refines this edge detector. *)

From S2P Require Import Prelude Memory SmemSafe SmemDev Smp2p.

(** ** Accesses to items *)

Lemma item_ld_run s id bs n off z : items s !! id = Some bs → read_le n bs off = Some z → item_ld id n off s = (Done z, s).
Proof. intros H1 H2. unfold item_ld. rewrite H1. cbn [mbind option_bind]. by rewrite H2. Qed.

Lemma item_put_run s id bs off w : items s !! id = Some bs → 0 ≤ off → off + zlen w ≤ zlen bs →
  item_put id off w s = (Done tt, set_items (<[id := put off w bs]> (items s)) s).
Proof. intros H1 H2 H3. unfold item_put. rewrite H1, bool_decide_true; done. Qed.

Lemma item_st_run s id bs n off z : items s !! id = Some bs → 0 ≤ off → off + Z.of_nat n ≤ zlen bs →
  item_st id n off z s = (Done tt, set_items (<[id := put off (le_encode n z) bs]> (items s)) s).
Proof. intros H1 H2 H3. apply item_put_run; [done..|]. rewrite zlen_le. lia. Qed.

Lemma u32_lor a b : u32 (Z.lor a b) = Z.lor (u32 a) (u32 b).
Proof. unfold u32. rewrite <- !Z.land_ones by lia. by rewrite Z.land_lor_distr_l. Qed.

Lemma lor_u32 a b : 0 ≤ a < 2 ^ 32 → 0 ≤ b < 2 ^ 32 → 0 ≤ Z.lor a b < 2 ^ 32.
Proof. intros Ha Hb. rewrite <- (u32_small a Ha), <- (u32_small b Hb), <- u32_lor. apply u32_range. Qed.

Lemma ldiff_u32 a b : 0 ≤ a < 2 ^ 32 → 0 ≤ Z.ldiff a b < 2 ^ 32.
Proof.
  intros Ha. assert (Z.ldiff a b = u32 (Z.ldiff a b)) as ->; [|apply u32_range].
  rewrite <- (u32_small a Ha) at 1. unfold u32. rewrite <- !Z.land_ones by lia.
  apply Z.bits_inj'. intros n Hn. rewrite !Z.land_spec, !Z.ldiff_spec, Z.land_spec.
  destruct (Z.testbit a n), (Z.testbit b n), (Z.testbit _ n); done.
Qed.

(** ** The edge detector *)

(** The bits of an entry that are signalled when its value is [val]: changed or retriggered,
    and the new level is watched. *)
Definition signals (val : Z) (e : smp2p_entry) : list Z :=
  filter (λ i, (Z.testbit val i ≠ Z.testbit (last_value e) i ∨ Z.testbit (irq_pending e) i = true) ∧
               (if Z.testbit val i then Z.testbit (irq_rising e) i else Z.testbit (irq_falling e) i) = true) (seqZ 0 32).

Definition signalled (val : Z) (e : smp2p_entry) : smp2p_entry :=
  set_pending (foldl (λ p i, clear_bit i p) (irq_pending e) (signals val e)) (set_last val e).

Definition see (vals : Z → Z) (e : smp2p_entry) : smp2p_entry :=
  match value e with Some i => signalled (vals i) e | None => e end.

Definition seen (vals : Z → Z) (e : smp2p_entry) : list (list Z * Z) :=
  match value e with Some i => (λ b, (name e, b)) <$> signals (vals i) e | None => [] end.

Definition add_fired (l : list (list Z * Z)) (s : s_state) : s_state :=
  mk_sst (items s) (sdev s) (kicks s) (fired s ++ l) (oplus_smp2p_state_switch s) (oplus_smp2p_state_list s).

Lemma add_fired_nil s : add_fired [] s = s.
Proof. destruct s. unfold add_fired. cbn. by rewrite app_nil_r. Qed.

Lemma add_fired_app l k s : add_fired k (add_fired l s) = add_fired (l ++ k) s.
Proof. unfold add_fired. cbn. by rewrite app_assoc. Qed.

(** Clearing pending bits does not change which edges are watched. *)
Lemma fire_bits_run val e bits s :
  fire_bits val e bits s =
  (let l := filter (λ i, edge_watched val e i = true) bits in
   (Done (set_pending (foldl (λ p i, clear_bit i p) (irq_pending e) l) e), add_fired ((λ b, (name e, b)) <$> l) s)).
Proof.
  revert e s. induction bits as [|i bits IH]; intros e s; cbn zeta in *.
  { cbn. unfold kret. rewrite add_fired_nil. by destruct e. }
  cbn [fire_bits]. rewrite filter_cons. destruct (edge_watched val e i) eqn:Hw.
  - rewrite decide_True by done. unfold handle_nested_irq, kmodify, kbind. rewrite IH. unfold add_fired. cbn. by rewrite <- app_assoc.
  - by rewrite decide_False by done.
Qed.

Lemma filter_filter_and {A} (P Q R : A → Prop) `{!∀ x, Decision (P x), !∀ x, Decision (Q x), !∀ x, Decision (R x)} (l : list A) :
  (∀ x, R x ↔ Q x ∧ P x) → filter P (filter Q l) = filter R l.
Proof.
  intros Hiff. induction l as [|x l IH]; [done|]. rewrite !filter_cons. specialize (Hiff x).
  destruct (decide (Q x)); rewrite ?filter_cons; repeat case_decide; rewrite ?IH; done || tauto.
Qed.

Lemma signals_eq val e :
  filter (λ i, edge_watched val e i = true) (set_bits (Z.lor (Z.lxor val (last_value e)) (irq_pending e)) 32) = signals val e.
Proof.
  unfold set_bits, signals. apply filter_filter_and. intros i. rewrite Z.lor_spec, Z.lxor_spec, orb_true_iff.
  unfold edge_watched, test_bit.
  destruct (Z.testbit val i), (Z.testbit (last_value e) i), (Z.testbit (irq_pending e) i), (Z.testbit (irq_rising e) i), (Z.testbit (irq_falling e) i);
    cbn; intuition congruence.
Qed.

Lemma no_status val e : Z.lor (Z.lxor val (last_value e)) (irq_pending e) = 0 → signals val e = [].
Proof. intros H. by rewrite <- signals_eq, H. Qed.

(** ** The receiver *)

(** An item with [n] entries and the values [vals]. *)
Record carries (bs : list Z) (n : Z) (vals : Z → Z) : Prop := {
  ca_len : zlen bs = sizeof_smem_item;
  ca_valid : read_le 2 bs i_valid_entries = Some n;
  ca_vals : ∀ i, 0 ≤ i < SMP2P_MAX_ENTRY → read_le 4 bs (i_value i) = Some (vals i);
  ca_range : ∀ i, 0 ≤ vals i < 2 ^ 32;
}.

Definition in_item (e : smp2p_entry) : Prop := ∀ i, value e = Some i → 0 ≤ i < SMP2P_MAX_ENTRY.

Lemma notify_entry_run ok id lo re e s bs n vals :
  items s !! id = Some bs → carries bs n vals → in_item e → oplus_smp2p_state_switch s = false →
  notify_entry ok id lo re e s = (Done (see vals e), add_fired (seen vals e) s).
Proof.
  intros Hs Hc He Hsw. unfold notify_entry, see, seen. destruct (value e) as [i|] eqn:Hv; [|unfold kret; by rewrite add_fired_nil].
  rewrite (kbind_Done _ _ _ _ _ (item_ld_run s id bs 4 (i_value i) (vals i) Hs (ca_vals _ _ _ Hc i (He i Hv)))).
  assert (update_oplus_smp2p_state ok lo re (vals i) s = (Done tt, s)) as Hop.
  { unfold update_oplus_smp2p_state, kmodify. by rewrite Hsw. }
  rewrite (kbind_Done _ _ _ _ _ Hop). unfold signalled. rewrite <- signals_eq.
  destruct (Z.eqb_spec (Z.lor (Z.lxor (vals i) (last_value e)) (irq_pending e)) 0) as [H0|H0].
  - rewrite H0. unfold kret. cbn. rewrite add_fired_nil. by destruct e.
  - rewrite fire_bits_run. done.
Qed.

Lemma notify_entries_run ok id lo re l s bs n vals :
  items s !! id = Some bs → carries bs n vals → Forall in_item l → oplus_smp2p_state_switch s = false →
  notify_entries ok id lo re l s = (Done (see vals <$> l), add_fired (concat (seen vals <$> l)) s).
Proof.
  intros Hs Hc Hl Hsw. revert s Hs Hsw. induction Hl as [|e l He _ IH]; intros s Hs Hsw; cbn [notify_entries fmap list_fmap concat].
  { unfold kret. by rewrite add_fired_nil. }
  rewrite (kbind_Done _ _ _ _ _ (notify_entry_run ok id lo re e s bs n vals Hs Hc He Hsw)).
  rewrite (kbind_Done _ _ _ _ _ (IH (add_fired (seen vals e) s) Hs Hsw)). unfold kret. by rewrite add_fired_app.
Qed.

(** An established link: names are matched, no restart is under way. *)
Record established (d : qcom_smp2p) (bs : list Z) (vals : Z → Z) : Prop := {
  es_in : has_in d = true;
  es_done : negotiation_done d = true;
  es_item : carries bs (valid_entries d) vals;
  es_entries : Forall in_item (inbound d);
  es_flags : ssr_ack_enabled d = true → ∃ f, read_le 4 bs i_flags = Some f ∧ Z.testbit f 0 = ssr_ack d;
}.

Definition seen_all (vals : Z → Z) (d : qcom_smp2p) : qcom_smp2p := set_inbound (see vals <$> inbound d) d.

Lemma notify_in_run ok s bs vals :
  items s !! smem_in (sdev s) = Some bs → carries bs (valid_entries (sdev s)) vals → Forall in_item (inbound (sdev s)) →
  oplus_smp2p_state_switch s = false →
  qcom_smp2p_notify_in ok s = (Done tt, add_fired (concat (seen vals <$> inbound (sdev s))) (set_sdev (seen_all vals (sdev s)) s)).
Proof.
  intros Hs Hc Hl Hsw.
  assert (∀ f, match_new f s = (Done tt, s)) as Hm.
  { intros f. unfold match_new. unfold kgets at 1, kbind at 1.
    rewrite (kbind_Done _ _ _ _ _ (item_ld_run s _ bs 2 i_valid_entries _ Hs (ca_valid _ _ _ Hc))).
    rewrite Z.sub_diag. change (seqZ _ 0) with (@nil Z). cbn [for_each]. unfold kbind, kret, mod_sdev, kmodify.
    rewrite Z.max_id. by destruct s as [it d k fi sw ol], d. }
  unfold qcom_smp2p_notify_in. rewrite (kbind_Done _ _ _ _ _ (Hm _)). unfold kgets at 1, kbind at 1.
  by rewrite (kbind_Done _ _ _ _ _ (notify_entries_run ok _ _ _ _ s bs _ vals Hs Hc Hl Hsw)).
Qed.

(** The interrupt of a negotiated device, up to the check for a restart. *)
Lemma intr_negotiated ok s : has_in (sdev s) = true → negotiation_done (sdev s) = true →
  qcom_smp2p_intr ok s =
  (let* ack := qcom_smp2p_check_ssr in qcom_smp2p_notify_in ok ;;; if ack then qcom_smp2p_do_ssr_ack else kret tt) s.
Proof.
  intros Hin Hdone. unfold qcom_smp2p_intr. unfold kgets at 1, kbind at 1. rewrite Hin, Hdone.
  unfold kbind at 1, kret at 1. cbn [negb]. unfold mod_sdev at 1, kmodify at 1, kbind at 1. unfold kbind at 1, kret at 1.
  assert (set_sdev (set_in true (valid_entries (sdev s)) (sdev s)) s = s) as ->.
  { destruct s as [it d k f sw ol], d; cbn in *. by subst. }
  unfold kgets at 1, kbind at 1. by rewrite Hdone.
Qed.

Lemma intr_run ok s bs vals :
  items s !! smem_in (sdev s) = Some bs → established (sdev s) bs vals → oplus_smp2p_state_switch s = false →
  qcom_smp2p_intr ok s = (Done tt, add_fired (concat (seen vals <$> inbound (sdev s))) (set_sdev (seen_all vals (sdev s)) s)).
Proof.
  intros Hs [Hin Hdone Hc Hl Hf] Hsw. rewrite intr_negotiated by done.
  assert (qcom_smp2p_check_ssr s = (Done false, s)) as Hssr.
  { unfold qcom_smp2p_check_ssr. unfold kgets at 1, kbind at 1. destruct (ssr_ack_enabled (sdev s)); [|done]. cbn [negb].
    destruct Hf as (f & Hf & Hb); [done|]. rewrite (kbind_Done _ _ _ _ _ (item_ld_run s _ bs 4 i_flags f Hs Hf)).
    unfold SMP2P_FLAGS_RESTART_DONE_BIT. rewrite Hb. by rewrite eqb_reflx. }
  rewrite (kbind_Done _ _ _ _ _ Hssr). by rewrite (kbind_Done _ _ _ _ _ (notify_in_run ok s bs vals Hs Hc Hl Hsw)).
Qed.

(** ** The sender *)

Lemma carries_store bs n vals i v : carries bs n vals → 0 ≤ i < SMP2P_MAX_ENTRY → 0 ≤ v < 2 ^ 32 →
  carries (put (i_value i) (le_encode 4 v) bs) n (<[i := v]> vals) ∧
  read_le 4 (put (i_value i) (le_encode 4 v) bs) i_flags = read_le 4 bs i_flags.
Proof.
  intros [Hl Hv Hvals Hr] Hi Hv32. unfold sizeof_smem_item, SMP2P_MAX_ENTRY, i_value, i_flags, i_valid_entries in *.
  split; [|rewrite read_put_ne; (done || lia)]. split; unfold sizeof_smem_item, SMP2P_MAX_ENTRY, i_value, i_valid_entries.
  - rewrite zlen_put_le; lia.
  - rewrite read_put_ne; (done || lia).
  - intros j Hj. destruct (decide (j = i)) as [->|Hne].
    + rewrite fn_lookup_insert. apply (read_put 4); lia.
    + rewrite fn_lookup_insert_ne by done. rewrite read_put_ne; [by apply Hvals|lia..].
  - intros j. destruct (decide (j = i)) as [->|Hne]; [by rewrite fn_lookup_insert|by rewrite fn_lookup_insert_ne].
Qed.

Definition updated (old mask val : Z) : Z := Z.lor (Z.ldiff old mask) val.

Definition ring (changed : bool) (s : s_state) : s_state :=
  mk_sst (items s) (sdev s) (if changed then kicks s + 1 else kicks s) (fired s) (oplus_smp2p_state_switch s) (oplus_smp2p_state_list s).

Lemma update_bits_run s k e i mask val bs n vals :
  outbound (sdev s) !! k = Some e → value e = Some i → 0 ≤ i < SMP2P_MAX_ENTRY →
  items s !! smem_out (sdev s) = Some bs → carries bs n vals →
  let v := updated (vals i) mask val in
  smp2p_update_bits k mask val s =
  (Done 0, ring (negb (v =? vals i)) (set_items (<[smem_out (sdev s) := put (i_value i) (le_encode 4 v) bs]> (items s)) s)).
Proof.
  intros He Hv Hi Hs Hc v. pose proof Hc as [Hl _ Hvals _]. unfold smp2p_update_bits. unfold kgets at 1, kbind at 1.
  rewrite He. cbn [mbind option_bind]. rewrite Hv.
  rewrite (kbind_Done _ _ _ _ _ (item_ld_run s _ bs 4 (i_value i) (vals i) Hs (Hvals i Hi))). fold (updated (vals i) mask val). fold v.
  rewrite (kbind_Done _ _ _ _ _ (item_st_run s _ bs 4 (i_value i) v Hs ltac:(unfold i_value; lia)
    ltac:(unfold i_value, sizeof_smem_item, SMP2P_MAX_ENTRY in *; lia))).
  unfold kbind, kret, qcom_smp2p_kick, kmodify, ring. by destruct (v =? vals i).
Qed.

(** ** Both sides *)

Record link := mk_link {
  lk_items : gmap Z (list Z);
  lk_a : qcom_smp2p;
  lk_b : qcom_smp2p;
  lk_bells : Z;                     (* rung by the sender *)
  lk_fired : list (list Z * Z);     (* handled by the receiver *)
}.

(** A call on the sender's or on the receiver's side; they share the items. *)
Definition on_a {A} (m : PM A) : KM link A := λ L,
  let '(o, s) := m (mk_sst (lk_items L) (lk_a L) (lk_bells L) [] false []) in
  (o, mk_link (items s) (sdev s) (lk_b L) (kicks s) (lk_fired L)).
Definition on_b {A} (m : PM A) : KM link A := λ L,
  let '(o, s) := m (mk_sst (lk_items L) (lk_b L) 0 (lk_fired L) false []) in
  (o, mk_link (items s) (lk_a L) (sdev s) (lk_bells L) (fired s)).

Inductive event := EUpdate (k : nat) (mask val : Z) | EIntr.

Definition link_event (ok : bool) (v : event) : KM link unit :=
  match v with
  | EUpdate k mask val => on_a (let* _ := smp2p_update_bits k mask val in kret tt)
  | EIntr => on_b (qcom_smp2p_intr ok)
  end.

(** The specification: values on one side, edge detectors on the other. *)
Record signal := mk_signal {
  sg_vals : Z → Z;
  sg_entries : list smp2p_entry;
  sg_bells : Z;
  sg_fired : list (list Z * Z);
}.

Definition signal_step (outs : list Z) (sg : signal) (v : event) : signal :=
  match v with
  | EUpdate k mask val =>
      match outs !! k with
      | Some i =>
          let new := updated (sg_vals sg i) mask val in
          mk_signal (<[i := new]> (sg_vals sg)) (sg_entries sg)
            (if decide (new = sg_vals sg i) then sg_bells sg else sg_bells sg + 1) (sg_fired sg)
      | None => sg
      end
  | EIntr => mk_signal (sg_vals sg) (see (sg_vals sg) <$> sg_entries sg) (sg_bells sg)
               (sg_fired sg ++ concat (seen (sg_vals sg) <$> sg_entries sg))
  end.

Definition event_ok (outs : list Z) (v : event) : Prop :=
  match v with
  | EUpdate k mask val => (k < length outs)%nat ∧ 0 ≤ val < 2 ^ 32
  | EIntr => True
  end.

Record link_ok (outs : list Z) (L : link) (sg : signal) : Prop := {
  lo_shared : smem_out (lk_a L) = smem_in (lk_b L);
  lo_outs : value <$> outbound (lk_a L) = Some <$> outs;
  lo_range : Forall (λ i, 0 ≤ i < SMP2P_MAX_ENTRY) outs;
  lo_item : ∃ bs, lk_items L !! smem_in (lk_b L) = Some bs ∧ established (lk_b L) bs (sg_vals sg);
  lo_entries : inbound (lk_b L) = sg_entries sg;
  lo_bells : lk_bells L = sg_bells sg;
  lo_fired : lk_fired L = sg_fired sg;
}.

Lemma see_in_item vals l : Forall in_item l → Forall in_item (see vals <$> l).
Proof.
  intros H. apply Forall_fmap. eapply list.Forall_impl; [exact H|]. intros e He i. unfold compose, see.
  destruct (value e) as [j|] eqn:Hv; [|by rewrite Hv]. unfold signalled. cbn. intros Hi. apply He. congruence.
Qed.

Lemma event_refines ok outs v L sg : link_ok outs L sg → event_ok outs v →
  ∃ L', link_event ok v L = (Done tt, L') ∧ link_ok outs L' (signal_step outs sg v).
Proof.
  intros [Hsh Ho Hr (bs & Hb & Hes) He Hbe Hf] Hok. destruct v as [k mask val|]; cbn [event_ok link_event signal_step] in *.
  - destruct Hok as [Hk Hval]. destruct (lookup_lt_is_Some_2 outs k Hk) as [i Hi]. rewrite Hi.
    assert (∃ e, outbound (lk_a L) !! k = Some e ∧ value e = Some i) as (e & Hoe & Hve).
    { assert ((value <$> outbound (lk_a L)) !! k = Some (Some i)) as H1 by (rewrite Ho, list_lookup_fmap, Hi; done).
      apply list_lookup_fmap_Some in H1 as (e & H1 & ->). by exists e. }
    rewrite list.Forall_forall in Hr. pose proof (Hr i ltac:(by eapply list_elem_of_lookup_2)) as Hir.
    pose proof Hes as [E1 E2 E3 E4 E5]. pose proof (ca_range _ _ _ E3 i) as Hvr.
    unfold on_a, kbind. rewrite (update_bits_run (mk_sst (lk_items L) (lk_a L) (lk_bells L) [] false []) k e i mask val bs _ (sg_vals sg) Hoe Hve Hir ltac:(cbn; by rewrite Hsh) E3).
    unfold kret. eexists. split; [done|].
    destruct (carries_store bs _ _ i (updated (sg_vals sg i) mask val) E3 Hir) as [C1 C2].
    { apply lor_u32; [by apply ldiff_u32|done]. }
    split; cbn; try done; [by apply list.Forall_forall| |].
    + exists (put (i_value i) (le_encode 4 (updated (sg_vals sg i) mask val)) bs).
      split; [rewrite Hsh; apply lookup_insert_eq|]. split; try done. intros Hen. rewrite C2. by apply E5.
    + rewrite Hbe. destruct (Z.eqb_spec (updated (sg_vals sg i) mask val) (sg_vals sg i)); [by rewrite decide_True|by rewrite decide_False].
  - unfold on_b. rewrite (intr_run ok (mk_sst (lk_items L) (lk_b L) 0 (lk_fired L) false []) bs (sg_vals sg) Hb Hes eq_refl). eexists. split; [done|].
    pose proof Hes as [E1 E2 E3 E4 E5]. cbn [sdev items fired add_fired set_sdev]. rewrite He, Hf.
    split; cbn; try done; [|by rewrite He].
    exists bs. split; [done|]. split; try done. cbn. rewrite He in *. by apply see_in_item.
Qed.

(** C33: signalling.  On an established link, any sequence of bit updates by one processor and
    interrupts of the other runs to its end and behaves as a bank of edge detectors: an update
    that changes the value rings the bell exactly once, and an interrupt signals, for each
    matched entry, exactly the bits that differ from the last look or were retriggered and
    whose new level is watched, each once, and remembers what it saw. *)
Theorem smp2p_link_refines ok outs evs L sg :
  link_ok outs L sg → Forall (event_ok outs) evs →
  ∃ L', for_each evs (link_event ok) L = (Done tt, L') ∧ link_ok outs L' (foldl (signal_step outs) sg evs).
Proof.
  intros HL Hev. revert L sg HL. induction Hev as [|v evs Hv _ IH]; intros L sg HL; cbn [for_each foldl].
  { by exists L. }
  destruct (event_refines ok outs v L sg HL Hv) as (L1 & H1 & HL1). destruct (IH _ _ HL1) as (L2 & H2 & HL2).
  exists L2. by rewrite (kbind_Done _ _ _ _ _ H1).
Qed.

(** ** Restart of the other processor *)

(** What a restart makes the receiver forget: the values it saw, from version 2 on. *)
Definition forget (version : Z) (e : smp2p_entry) : smp2p_entry :=
  if decide (SMP2P_VERSION_1 < version) then match value e with None => e | Some _ => set_last 0 e end else e.

Lemma check_ssr_restart s bs f version :
  items s !! smem_in (sdev s) = Some bs → read_le 4 bs i_flags = Some f → read_le 1 bs i_version = Some version →
  ssr_ack_enabled (sdev s) = true → Z.testbit f 0 ≠ ssr_ack (sdev s) →
  qcom_smp2p_check_ssr s = (Done true, set_sdev (set_inbound (forget version <$> inbound (sdev s)) (sdev s)) s).
Proof.
  intros Hs Hf Hv Hen Hne. unfold qcom_smp2p_check_ssr. unfold kgets at 1, kbind at 1. rewrite Hen. cbn [negb].
  rewrite (kbind_Done _ _ _ _ _ (item_ld_run s _ bs 4 i_flags f Hs Hf)). unfold SMP2P_FLAGS_RESTART_DONE_BIT.
  assert (eqb (Z.testbit f 0) (ssr_ack (sdev s)) = false) as -> by (by apply eqb_false_iff). cbn [negb].
  rewrite (kbind_Done _ _ _ _ _ (item_ld_run s _ bs 1 i_version version Hs Hv)). unfold forget.
  destruct (Z.ltb_spec SMP2P_VERSION_1 version), (decide (SMP2P_VERSION_1 < version)); try lia.
  - done.
  - unfold kbind, kret. do 2 f_equal.
    rewrite (list_fmap_ext _ id) by done. rewrite list_fmap_id. by destruct s as [it d k fi sw ol], d.
Qed.

(** The acknowledgement in the flags: bit 1 set to [ack], the others kept. *)
Definition acked (g : Z) (ack : bool) : Z :=
  let v := Z.clearbit g SMP2P_FLAGS_RESTART_ACK_BIT in if ack then Z.lor v (BIT SMP2P_FLAGS_RESTART_ACK_BIT) else v.

Lemma acked_bits g ack j : 0 ≤ j → Z.testbit (acked g ack) j = if decide (j = 1) then ack else Z.testbit g j.
Proof.
  intros Hj. unfold acked, SMP2P_FLAGS_RESTART_ACK_BIT, BIT. change (Z.shiftl 1 1) with (2 ^ 1).
  case_decide as H1; [subst j|]; destruct ack; rewrite ?Z.lor_spec, ?Z.pow2_bits_true, ?orb_true_r by lia; try done;
    rewrite ?Z.pow2_bits_false, ?orb_false_r by lia; [by apply Z.clearbit_eq|by apply Z.clearbit_neq|by apply Z.clearbit_neq].
Qed.

Lemma acked_range g ack : 0 ≤ g < 2 ^ 32 → 0 ≤ acked g ack < 2 ^ 32.
Proof.
  intros Hg. unfold acked. assert (0 ≤ Z.clearbit g SMP2P_FLAGS_RESTART_ACK_BIT < 2 ^ 32) as H by (rewrite Z.clearbit_spec'; by apply ldiff_u32).
  destruct ack; [|done]. apply lor_u32; [done|by vm_compute].
Qed.

(** restart of the other processor.  When the peer's restart flag differs from the state
    acknowledged last, the interrupt signals the entries (from version 2 on against forgotten
    values, so that every set bit is an edge again), then acknowledges exactly once: it takes
    over the peer's flag, shows it in bit 1 of its own flags leaving the other bits, and rings
    once.  After that no restart is pending. *)
Theorem smp2p_restart_acked ok s bsi bso vals f g version :
  items s !! smem_in (sdev s) = Some bsi → items s !! smem_out (sdev s) = Some bso → smem_in (sdev s) ≠ smem_out (sdev s) →
  has_in (sdev s) = true → negotiation_done (sdev s) = true → ssr_ack_enabled (sdev s) = true →
  carries bsi (valid_entries (sdev s)) vals → Forall in_item (inbound (sdev s)) → oplus_smp2p_state_switch s = false →
  read_le 4 bsi i_flags = Some f → read_le 1 bsi i_version = Some version →
  zlen bso = sizeof_smem_item → read_le 4 bso i_flags = Some g → 0 ≤ g < 2 ^ 32 → Z.testbit f 0 ≠ ssr_ack (sdev s) →
  ∃ s' bso', qcom_smp2p_intr ok s = (Done tt, s') ∧
    fired s' = fired s ++ concat (seen vals <$> (forget version <$> inbound (sdev s))) ∧
    ssr_ack (sdev s') = Z.testbit f 0 ∧ kicks s' = kicks s + 1 ∧
    items s' = <[smem_out (sdev s) := bso']> (items s) ∧ read_le 4 bso' i_flags = Some (acked g (Z.testbit f 0)) ∧
    (∀ j, 0 ≤ j → Z.testbit (acked g (Z.testbit f 0)) j = if decide (j = 1) then Z.testbit f 0 else Z.testbit g j) ∧
    established (sdev s') bsi vals.
Proof.
  intros Hi Ho Hne Hin Hdone Hen Hc Hl Hsw Hf Hv Hlo Hg Hg32 Hpend. rewrite intr_negotiated by done.
  rewrite (kbind_Done _ _ _ _ _ (check_ssr_restart s bsi f version Hi Hf Hv Hen Hpend)).
  set (s1 := set_sdev _ s).
  assert (Forall in_item (forget version <$> inbound (sdev s))) as Hl1.
  { apply Forall_fmap. eapply list.Forall_impl; [exact Hl|]. intros e He i. unfold compose, forget. case_decide; [|apply He].
    destruct (value e) eqn:E; [|by rewrite E]. cbn. rewrite E. intros Hi'. apply He. congruence. }
  rewrite (kbind_Done _ _ _ _ _ (notify_in_run ok s1 bsi vals Hi Hc Hl1 Hsw)).
  assert (negb (ssr_ack (sdev s)) = Z.testbit f 0) as Hack by (by destruct (ssr_ack (sdev s)), (Z.testbit f 0)).
  unfold qcom_smp2p_do_ssr_ack. unfold mod_sdev at 1, kmodify at 1, kbind at 1. unfold kgets at 1, kbind at 1.
  set (s2 := set_sdev _ _). assert (items s2 = items s) as Hit by done.
  rewrite (kbind_Done _ _ _ _ _ (item_ld_run s2 _ bso 4 i_flags g Ho Hg)).
  rewrite (kbind_Done _ _ _ _ _ (item_st_run s2 (smem_out (sdev s)) bso 4 i_flags _ Ho ltac:(unfold i_flags; lia)
    ltac:(unfold i_flags, sizeof_smem_item in *; lia))).
  change (ssr_ack (sdev s2)) with (negb (ssr_ack (sdev s))). rewrite Hack. fold (acked g (Z.testbit f 0)).
  eexists _, _. split; [done|]. split_and!; try done.
  - apply (read_put 4); unfold i_flags, sizeof_smem_item in *; [lia..|by apply acked_range].
  - intros j Hj. by apply acked_bits.
  - split; try done; [by apply see_in_item|]. intros _. exists f. split; [done|]. cbn. by rewrite Hack.
Qed.

(** One value, watched for rising edges of bit 0 and falling edges of bit 1. *)
Definition sample_bytes : list Z := put 14 (le_encode 2 1) (put 4 [1] (replicate 340 0)).
Definition sample_rx : smp2p_entry := mk_s_entry [115] (Some 0) 0 0 0 1 2.
Definition sample_link : link :=
  mk_link {[7 := sample_bytes]}
    (mk_smp2p false true 8 7 0 false false false 0 1 [] [mk_s_entry [115] (Some 0) 0 0 0 0 0])
    (mk_smp2p true true 7 8 1 false false true 1 0 [sample_rx] []) 0 [].
Definition sample_signal : signal := mk_signal (λ _, 0) [sample_rx] 0 [].

Lemma zero_carries bs n : zlen bs = sizeof_smem_item → read_le 2 bs i_valid_entries = Some n →
  forallb (λ i, bool_decide (read_le 4 bs (i_value i) = Some 0)) (seqZ 0 16) = true → carries bs n (λ _, 0).
Proof.
  intros Hl Hn Hz. split; [done|done| |intros i; cbn; lia]. intros i Hi. rewrite forallb_forall in Hz. specialize (Hz i).
  rewrite <- list_elem_of_In, elem_of_seqZ, bool_decide_eq_true in Hz. apply Hz. unfold SMP2P_MAX_ENTRY in Hi. lia.
Qed.

Lemma sample_link_ok : link_ok [0] sample_link sample_signal.
Proof.
  split; try reflexivity.
  - apply Forall_cons_2; [unfold SMP2P_MAX_ENTRY; lia|apply Forall_nil_2].
  - exists sample_bytes. split; [done|]. split; try reflexivity; try done.
    + by apply zero_carries.
    + apply Forall_cons_2; [|apply Forall_nil_2]. intros i [= <-]. unfold SMP2P_MAX_ENTRY. lia.
Qed.

Lemma smp2p_link_refines_witness :
  ∃ L', for_each [EUpdate 0 3 3; EIntr; EUpdate 0 2 0; EUpdate 0 1 1; EIntr; EIntr] (link_event true) sample_link = (Done tt, L') ∧
    link_ok [0] L' (foldl (signal_step [0]) sample_signal [EUpdate 0 3 3; EIntr; EUpdate 0 2 0; EUpdate 0 1 1; EIntr; EIntr]).
Proof.
  apply (smp2p_link_refines true [0] _ sample_link sample_signal sample_link_ok).
  repeat apply Forall_cons_2; try apply Forall_nil_2; cbn; lia.
Defined.

Example sample_signals :
  sg_fired (foldl (signal_step [0]) sample_signal [EUpdate 0 3 3; EIntr; EUpdate 0 2 0; EUpdate 0 1 1; EIntr; EIntr]) = [([115], 0); ([115], 1)].
Proof. vm_compute. reflexivity. Qed.

(** The peer of version 2 has restarted. *)
Definition restarted_bytes : list Z := put 16 [1] (put 14 (le_encode 2 1) (put 4 [2] (replicate 340 0))).
Definition restarted : s_state :=
  mk_sst (<[7 := restarted_bytes]> {[8 := replicate 340 0]})
    (mk_smp2p true true 7 8 1 true false true 1 0 [mk_s_entry [115] (Some 0) 5 0 0 1 2] []) 4 [] false [].

Lemma smp2p_restart_acked_witness :
  ∃ s' bso', qcom_smp2p_intr true restarted = (Done tt, s') ∧
    fired s' = fired restarted ++ concat (seen (λ _, 0) <$> (forget 2 <$> inbound (sdev restarted))) ∧
    ssr_ack (sdev s') = Z.testbit 1 0 ∧ kicks s' = kicks restarted + 1 ∧
    items s' = <[smem_out (sdev restarted) := bso']> (items restarted) ∧ read_le 4 bso' i_flags = Some (acked 0 (Z.testbit 1 0)) ∧
    (∀ j, 0 ≤ j → Z.testbit (acked 0 (Z.testbit 1 0)) j = if decide (j = 1) then Z.testbit 1 0 else Z.testbit 0 j) ∧
    established (sdev s') restarted_bytes (λ _, 0).
Proof.
  apply (smp2p_restart_acked true restarted restarted_bytes (replicate 340 0) (λ _, 0) 1 0 2); try reflexivity; try done.
  - by apply zero_carries.
  - apply Forall_cons_2; [|apply Forall_nil_2]. intros i [= <-]. unfold SMP2P_MAX_ENTRY. lia.
Defined.
