(* ===== verification/Smp2pNames.v ===== *)
(** * Names

    The probe of one processor publishes the names of its outbound entries in its item; the
    other processor looks its inbound entries up by name.  Both then mean the same value. *)

From S2P Require Import Prelude Memory Smem SmemSafe SmemHeap SmemDev Smp2p Smp2pLink.

(** A name of the device tree that fits: a C string of at most 15 bytes. *)
Definition good_name (nm : list Z) : Prop := (length nm ≤ 15)%nat ∧ Forall (λ b, 0 < b < 256) nm.

Lemma entry_name_good nm : good_name nm → entry_name nm = nm ++ replicate (16 - length nm) 0.
Proof. intros [Hl _]. unfold entry_name. by rewrite take_ge by lia. Qed.

Lemma zlen_entry_name nm : zlen (entry_name nm) = 16.
Proof. unfold entry_name, zlen. rewrite length_app, length_replicate, length_take. lia. Qed.

Lemma replicate_zero k : (0 < k)%nat → ∃ k', replicate k (0 : Z) = 0 :: replicate k' 0.
Proof. intros Hk. destruct k as [|k]; [lia|]. by exists k. Qed.

(** Zero-terminated strings of bytes are equal when their padded forms agree up to the NUL. *)
Lemma padded_prefix nm nm' k : Forall (λ b, 0 < b < 256) nm → Forall (λ b, 0 < b < 256) nm' →
  take (S (length nm')) (nm ++ replicate k 0) = nm' ++ [0] → nm = nm'.
Proof.
  revert nm'. induction nm as [|b nm IH]; intros [|b' nm'] H1 H2 Heq.
  - done.
  - apply list.Forall_cons in H2 as [? _]. destruct k; [done|]. inversion Heq. lia.
  - apply list.Forall_cons in H1 as [? _]. inversion Heq. lia.
  - cbn in Heq. injection Heq as -> Heq. apply list.Forall_cons in H1 as [_ H1], H2 as [_ H2]. f_equal. by apply IH.
Qed.

Lemma strcmp_name nm nm' : good_name nm → good_name nm' → strcmp_buf (entry_name nm) nm' = Some (bool_decide (nm' = nm)).
Proof.
  intros Hn Hn'. pose proof (zlen_entry_name nm) as Hz. rewrite entry_name_good in * by done. destruct Hn as [Hl Hb], Hn' as [Hl' Hb'].
  unfold strcmp_buf. rewrite bool_decide_false.
  - f_equal. apply bool_decide_ext. split; [|intros ->].
    + intros Heq. symmetry. by eapply padded_prefix.
    + rewrite firstn_app. rewrite take_ge by lia. f_equal. destruct (replicate_zero (16 - length nm)) as [k' ->]; [lia|].
      by replace (S (length nm) - length nm)%nat with 1%nat by lia.
  - intros Heq. apply (f_equal length) in Heq. unfold zlen in Hz. rewrite length_take in Heq. lia.
Qed.

(** ** The receiver *)

(** The item publishes these names. *)
Record publishes (bs : list Z) (names : list (list Z)) : Prop := {
  pub_len : zlen bs = sizeof_smem_item;
  pub_count : zlen names ≤ SMP2P_MAX_ENTRY;
  pub_valid : read_le 2 bs i_valid_entries = Some (zlen names);
  pub_names : ∀ i nm, names !! i = Some nm → has bs (i_name (Z.of_nat i)) (entry_name nm);
}.

(** Where a name stands in the list. *)
Definition index_of (nm : list Z) (names : list (list Z)) : option Z :=
  (λ x, Z.of_nat x.1) <$> list_find (eq nm) names.

Lemma index_of_snoc nm x names : x ∉ names →
  index_of nm (names ++ [x]) = if decide (nm = x) then Some (zlen names) else index_of nm names.
Proof.
  intros Hx. unfold index_of. destruct (list_find (eq nm) names) as [[i y]|] eqn:Hf.
  - rewrite (list_find_app_l _ _ _ _ _ Hf). apply list_find_Some in Hf as (Hl & <- & _).
    rewrite decide_False; [done|]. intros ->. apply Hx. by eapply list_elem_of_lookup_2.
  - rewrite list_find_app_r by done. cbn. by case_decide.
Qed.

Section matching.
(** How a matched entry changes. *)
Context (g : Z → smp2p_entry → smp2p_entry) (g_name : ∀ i e, name (g i e) = name e).

Definition matched (names : list (list Z)) (e : smp2p_entry) : smp2p_entry :=
  match index_of (name e) names with Some i => g i e | None => e end.

Lemma match_entry_run (f : smp2p_entry → PM smp2p_entry) s id bs i nm l :
  items s !! id = Some bs → has bs (i_name i) (entry_name nm) → good_name nm →
  Forall (λ e, good_name (name e)) l → NoDup (name <$> l) → (∀ e, f e s = (Done (g i e), s)) →
  match_entry id i f l s = (Done ((λ e, if decide (name e = nm) then g i e else e) <$> l), s).
Proof.
  intros Hs Hh Hn Hl Hnd Hf. revert Hnd. induction Hl as [|e l He _ IH]; intros Hnd; cbn [match_entry fmap list_fmap]; [done|].
  assert (item_bytes id SMP2P_MAX_ENTRY_NAME (i_name i) s = (Done (entry_name nm), s)) as Hb.
  { unfold item_bytes, SMP2P_MAX_ENTRY_NAME. rewrite Hs. cbn [mbind option_bind]. unfold has in Hh. rewrite zlen_entry_name in Hh. by rewrite Hh. }
  rewrite (kbind_Done _ _ _ _ _ Hb). rewrite strcmp_name by done. apply list.NoDup_cons in Hnd as [Hni Hnd].
  case_bool_decide as Hc.
  - rewrite decide_True by done. rewrite (kbind_Done _ _ _ _ _ (Hf e)). unfold kret. do 3 f_equal.
    rewrite <- (list_fmap_id l) at 1. apply list_fmap_ext. intros j e' Hj. cbn. rewrite decide_False; [done|].
    intros Heq. apply Hni. rewrite Hc, <- Heq. apply list_elem_of_fmap_2. by eapply list_elem_of_lookup_2.
  - rewrite decide_False by done. by rewrite (kbind_Done _ _ _ _ _ (IH Hnd)).
Qed.

Lemma matched_name names e : name (matched names e) = name e.
Proof using g_name. unfold matched. destruct (index_of _ _); [apply g_name|done]. Qed.

Lemma matched_snoc names nm e : nm ∉ names →
  (if decide (name (matched names e) = nm) then g (zlen names) (matched names e) else matched names e) = matched (names ++ [nm]) e.
Proof using g_name.
  intros Hn. rewrite matched_name. unfold matched. rewrite index_of_snoc by done. case_decide as Hc; [|done].
  assert (index_of (name e) names = None) as ->; [|done].
  unfold index_of. rewrite (proj2 (list_find_None _ _)); [done|]. apply list.Forall_forall. intros x Hx Heq. apply Hn. by rewrite <- Hc, Heq.
Qed.

Lemma match_loop (f : Z → smp2p_entry → PM smp2p_entry) id bs d l s :
  items s !! id = Some bs → smem_in d = id → Forall (λ e, good_name (name e)) l → NoDup (name <$> l) →
  (∀ i e s', 0 ≤ i < SMP2P_MAX_ENTRY → items s' = items s → f i e s' = (Done (g i e), s')) →
  ∀ post pre, zlen (pre ++ post) ≤ SMP2P_MAX_ENTRY → NoDup (pre ++ post) → Forall good_name post →
  (∀ i nm, (pre ++ post) !! i = Some nm → has bs (i_name (Z.of_nat i)) (entry_name nm)) →
  for_each (seqZ (zlen pre) (zlen post)) (λ i,
    let* d := kgets sdev in
    let* l := match_entry (smem_in d) i (f i) (inbound d) in
    mod_sdev (set_inbound l)) (set_sdev (set_inbound (matched pre <$> l) d) s) =
  (Done tt, set_sdev (set_inbound (matched (pre ++ post) <$> l) d) s).
Proof using g_name.
  intros Hs Hid Hl Hnd Hf. induction post as [|nm post IH]; intros pre Hlen Hnn Hgood Hhas.
  { rewrite app_nil_r. done. }
  apply list.Forall_cons in Hgood as [Hg Hgood].
  replace (zlen (nm :: post)) with (Z.succ (zlen post)) by (unfold zlen; cbn; lia).
  rewrite seqZ_cons by (pose proof (zlen_nonneg post); lia). rewrite Z.pred_succ. cbn [for_each].
  assert (nm ∉ pre) as Hni by (apply list.NoDup_app in Hnn as (_ & H & _); intros Hin; apply (H _ Hin); by left).
  unfold kbind at 1. unfold kgets at 1, kbind at 1. cbn [sdev set_sdev set_inbound smem_in inbound].
  rewrite Hid. rewrite (kbind_Done _ _ _ _ _ (match_entry_run (f (zlen pre)) (set_sdev (set_inbound (matched pre <$> l) d) s) id bs (zlen pre) nm (matched pre <$> l)
    Hs ltac:(apply Hhas; rewrite lookup_app_r, Nat.sub_diag by lia; done) Hg
    ltac:(apply Forall_fmap; eapply list.Forall_impl; [exact Hl|]; intros e He; unfold compose; by rewrite matched_name)
    ltac:(rewrite <- list_fmap_compose, (list_fmap_ext _ name); [done|]; intros j e _; apply matched_name)
    ltac:(intros e; apply Hf; [|done]; rewrite zlen_app in Hlen; unfold zlen in *; cbn [length] in Hlen; lia))).
  unfold mod_sdev, kmodify. rewrite <- list_fmap_compose.
  rewrite (list_fmap_ext _ (matched (pre ++ [nm])) l) by (intros j e _; apply (matched_snoc pre nm e Hni)).
  replace (Z.succ (zlen pre)) with (zlen (pre ++ [nm])) by (rewrite zlen_app; unfold zlen; cbn; lia).
  specialize (IH (pre ++ [nm])). rewrite <- app_assoc in IH. apply IH; done.
Qed.

Lemma match_new_run (f : Z → smp2p_entry → PM smp2p_entry) s bs names :
  items s !! smem_in (sdev s) = Some bs → publishes bs names → valid_entries (sdev s) = 0 →
  Forall good_name names → NoDup names → Forall (λ e, good_name (name e)) (inbound (sdev s)) → NoDup (name <$> inbound (sdev s)) →
  (∀ i e s', 0 ≤ i < SMP2P_MAX_ENTRY → items s' = items s → f i e s' = (Done (g i e), s')) →
  match_new f s = (Done tt, set_sdev (set_in (has_in (sdev s)) (zlen names) (set_inbound (matched names <$> inbound (sdev s)) (sdev s))) s).
Proof using g_name.
  intros Hs [Hl Hc Hv Hn] Hve Hg Hnn Hgl Hnl Hf. unfold match_new. unfold kgets at 1, kbind at 1.
  rewrite (kbind_Done _ _ _ _ _ (item_ld_run s _ bs 2 i_valid_entries _ Hs Hv)). rewrite Hve, Z.sub_0_r.
  assert (s = set_sdev (set_inbound (matched [] <$> inbound (sdev s)) (sdev s)) s) as Hself.
  { assert (matched [] <$> inbound (sdev s) = inbound (sdev s)) as -> by (etrans; [|apply list_fmap_id]; by apply list_fmap_ext).
    by destruct s as [it d k fi sw ol], d. }
  pose proof (match_loop f (smem_in (sdev s)) bs (sdev s) (inbound (sdev s)) s Hs eq_refl Hgl Hnl Hf names [] Hc Hnn Hg Hn) as Hml.
  change (zlen []) with 0 in Hml. rewrite <- Hself in Hml. rewrite (kbind_Done _ _ _ _ _ Hml).
  unfold mod_sdev, kmodify. cbn [sdev set_sdev valid_entries set_inbound app]. rewrite Hve, Z.max_r by (apply zlen_nonneg). done.
Qed.
End matching.

(** ** The sender *)

(** What the sender's item says: its version, its names, and values that are still zero. *)
Record announced (bs : list Z) (ver : Z) (names : list (list Z)) : Prop := {
  an_version : read_le 1 bs i_version = Some ver;
  an_names : publishes bs names;
  an_values : ∀ i, 0 ≤ i < SMP2P_MAX_ENTRY → read_le 4 bs (i_value i) = Some 0;
}.

Lemma has_put_ne bs off off' w d : has bs off d → 0 ≤ off' → off' + zlen w ≤ zlen bs → off + zlen d ≤ off' ∨ off' + zlen w ≤ off →
  has (put off' w bs) off d.
Proof.
  intros Hh H1 H2 H3. eapply has_same; [eapply within_same; [by apply put_within|exact H3]|lia..|done].
Qed.

Lemma read_put_bytes n off off' w bs : 0 ≤ off → off + zlen w ≤ zlen bs → off' + n ≤ off ∨ off + zlen w ≤ off' →
  read_le n (put off w bs) off' = read_le n bs off'.
Proof.
  intros H1 H2 H3. apply (read_le_same off' (off' + n)); [|lia..].
  eapply within_same; [by apply put_within|lia].
Qed.

(** The item after one more name. *)
Definition with_name (bs : list Z) (v : Z) (nm : list Z) : list Z :=
  put i_valid_entries (le_encode 2 (v + 1)) (put (i_name v) (entry_name nm) bs).

Lemma announced_name bs ver names nm : announced bs ver names → zlen names < SMP2P_MAX_ENTRY →
  announced (with_name bs (zlen names) nm) ver (names ++ [nm]).
Proof.
  intros [Hv [Hl Hc Hva Hn] Hz] Hlt. unfold SMP2P_MAX_ENTRY, sizeof_smem_item in *. pose proof (zlen_nonneg names).
  pose proof (zlen_entry_name nm) as Hen. unfold with_name. set (b1 := put _ (entry_name nm) bs).
  assert (zlen b1 = 340) as Hl1 by (unfold b1; rewrite zlen_put; unfold i_name; lia).
  unfold i_valid_entries in *. split.
  - rewrite read_put_ne by (unfold i_version; lia). unfold b1. by rewrite read_put_bytes by (unfold i_name, i_version; lia).
  - split; unfold sizeof_smem_item, SMP2P_MAX_ENTRY, i_valid_entries.
    + rewrite zlen_put_le; lia.
    + rewrite zlen_app. unfold zlen at 2. cbn. lia.
    + rewrite zlen_app. unfold zlen at 3. cbn [length]. apply (read_put 2); lia.
    + intros i x Hi. apply has_put_ne; [|lia|rewrite zlen_le; lia|rewrite zlen_le; unfold i_name; lia].
      apply lookup_app_Some in Hi as [Hi|[Hge Hi]].
      * pose proof (lookup_lt_Some _ _ _ Hi). unfold b1. apply has_put_ne; [by apply Hn|unfold i_name; lia..|].
        rewrite !zlen_entry_name. unfold i_name, zlen in *. lia.
      * apply list_lookup_singleton_Some in Hi as [Hi ->]. replace (Z.of_nat i) with (zlen names) by (unfold zlen; lia).
        unfold b1, has. apply subrange_put; unfold i_name; lia.
  - intros i Hi. rewrite read_put_ne by (unfold i_value; lia). unfold b1.
    rewrite read_put_bytes by (unfold i_name, i_value, zlen in *; lia). by apply Hz.
Qed.

Lemma outbound_entry_run s bs ver names nm : items s !! smem_out (sdev s) = Some bs → announced bs ver names → zlen names < SMP2P_MAX_ENTRY →
  qcom_smp2p_outbound_entry 0 (new_entry_of nm) s =
  (Done (0, set_value (Some (zlen names)) (new_entry_of nm)),
   set_items (<[smem_out (sdev s) := with_name bs (zlen names) nm]> (items s)) s).
Proof.
  intros Hs [_ [Hl Hc Hva _] _] Hlt. unfold SMP2P_MAX_ENTRY, sizeof_smem_item in *. pose proof (zlen_nonneg names).
  pose proof (zlen_entry_name nm) as Hen.
  unfold qcom_smp2p_outbound_entry. unfold kgets at 1, kbind at 1.
  rewrite (kbind_Done _ _ _ _ _ (item_ld_run s _ bs 2 i_valid_entries _ Hs Hva)). cbn [name new_entry_of].
  rewrite (kbind_Done _ _ _ _ _ (item_put_run s _ bs (i_name (zlen names)) (entry_name nm) Hs ltac:(unfold i_name; lia) ltac:(unfold i_name; lia))).
  set (b1 := put _ (entry_name nm) bs). assert (zlen b1 = 340) as Hl1 by (unfold b1; rewrite zlen_put; unfold i_name; lia).
  rewrite (kbind_Done _ _ _ _ _ (item_st_run (set_items (<[smem_out (sdev s) := b1]> (items s)) s) (smem_out (sdev s)) b1 2 i_valid_entries (zlen names + 1)
    ltac:(apply lookup_insert_eq) ltac:(unfold i_valid_entries; lia) ltac:(unfold i_valid_entries; lia))).
  unfold kret, set_items. cbn [items sdev kicks fired oplus_smp2p_state_switch oplus_smp2p_state_list]. by rewrite insert_insert_eq.
Qed.

(** Nodes of a device tree without faults: interrupt controllers are inbound. *)
Definition node (x : bool * list Z) : child := mk_child true (inr x.2) x.1 true 0.
Definition out_names (l : list (bool * list Z)) : list (list Z) := omap (λ x : bool * list Z, if x.1 then None else Some x.2) l.
Definition in_names (l : list (bool * list Z)) : list (list Z) := omap (λ x : bool * list Z, if x.1 then Some x.2 else None) l.

Lemma out_names_in nm l : out_names ((true, nm) :: l) = out_names l.
Proof. done. Qed.
Lemma out_names_out nm l : out_names ((false, nm) :: l) = nm :: out_names l.
Proof. done. Qed.
Lemma in_names_in nm l : in_names ((true, nm) :: l) = nm :: in_names l.
Proof. done. Qed.
Lemma in_names_out nm l : in_names ((false, nm) :: l) = in_names l.
Proof. done. Qed.

Fixpoint out_entries (k : Z) (names : list (list Z)) : list smp2p_entry :=
  match names with [] => [] | nm :: names => set_value (Some k) (new_entry_of nm) :: out_entries (k + 1) names end.

Definition add_children (k : Z) (l : list (bool * list Z)) (d : qcom_smp2p) : qcom_smp2p :=
  set_inbound (reverse (new_entry_of <$> in_names l) ++ inbound d)
    (set_outbound (reverse (out_entries k (out_names l)) ++ outbound d) d).

Lemma probe_children_run ver l : ∀ s bs names,
  items s !! smem_out (sdev s) = Some bs → announced bs ver names → zlen (names ++ out_names l) ≤ SMP2P_MAX_ENTRY →
  ∃ bs', probe_children (node <$> l) s =
    (Done 0, set_items (<[smem_out (sdev s) := bs']> (items s)) (set_sdev (add_children (zlen names) l (sdev s)) s)) ∧
    announced bs' ver (names ++ out_names l).
Proof.
  induction l as [|[irq nm] l IH]; intros s bs names Hs Ha Hlen.
  { exists bs. split; [|by rewrite app_nil_r]. cbn. unfold kret. do 2 f_equal. destruct s as [it d k fi sw ol], d; cbn in *.
    unfold set_items. cbn. f_equal. by rewrite insert_id. }
  cbn [fmap list_fmap probe_children node c_alloc c_name c_irq c_domain c_state fst snd negb qcom_smp2p_inbound_entry Z.ltb Z.compare].
  destruct irq.
  - rewrite out_names_in in Hlen |- *. unfold mod_sdev at 1, kmodify at 1, kbind at 1.
    destruct (IH (set_sdev (set_inbound (new_entry_of nm :: inbound (sdev s)) (sdev s)) s) bs names Hs Ha Hlen) as (bs' & Hr & Ha').
    exists bs'. split; [|exact Ha']. rewrite Hr. do 2 f_equal. unfold add_children. rewrite out_names_in, in_names_in, fmap_cons, reverse_cons.
    cbn [inbound set_inbound set_sdev sdev]. by rewrite <- app_assoc.
  - rewrite out_names_out in Hlen |- *. assert (zlen names < SMP2P_MAX_ENTRY) as Hlt.
    { rewrite zlen_app in Hlen. unfold zlen in *. cbn [length] in Hlen. lia. }
    rewrite (kbind_Done _ _ _ _ _ (outbound_entry_run s bs ver names nm Hs Ha Hlt)). cbn [fst snd Z.ltb Z.compare].
    unfold mod_sdev at 1, kmodify at 1, kbind at 1.
    destruct (IH (set_sdev (set_outbound (set_value (Some (zlen names)) (new_entry_of nm) :: outbound (sdev s)) (sdev s))
      (set_items (<[smem_out (sdev s) := with_name bs (zlen names) nm]> (items s)) s)) (with_name bs (zlen names) nm) (names ++ [nm]))
      as (bs' & Hr & Ha'); [apply lookup_insert_eq|by apply announced_name|by rewrite <- app_assoc|].
    exists bs'. split; [|by rewrite <- app_assoc in Ha']. cbn [set_items sdev] in Hr |- *. rewrite Hr.
    unfold add_children, set_items, set_sdev. cbn [items sdev kicks fired oplus_smp2p_state_switch oplus_smp2p_state_list smem_out set_outbound inbound outbound].
    rewrite out_names_out, in_names_out, insert_insert_eq. cbn [out_entries]. rewrite reverse_cons, <- app_assoc, zlen_app. done.
Qed.

Lemma read_zeros n off k : 0 ≤ off → 0 ≤ n → off + n ≤ Z.of_nat k → read_le n (replicate k 0) off = Some 0.
Proof.
  intros H1 H2 H3. unfold read_le, subrange. rewrite length_replicate, bool_decide_true by lia. cbn.
  rewrite drop_replicate, take_replicate. f_equal. by induction (_ `min` _)%nat as [|j IH]; cbn [replicate le_decode]; [|rewrite IH].
Qed.

(** The header of a new item. *)
Definition new_item (lp rp : Z) : list Z :=
  put i_version (le_encode 1 1) (put i_features (le_encode 3 SMP2P_ALL_FEATURES) (put i_valid_entries (le_encode 2 0)
    (put i_total_entries (le_encode 2 SMP2P_MAX_ENTRY) (put i_remote_pid (le_encode 2 rp) (put i_local_pid (le_encode 2 lp)
      (put i_magic (le_encode 4 SMP2P_MAGIC) (replicate 340 0))))))).

Lemma new_item_announced lp rp : announced (new_item lp rp) 1 [].
Proof.
  assert (zlen (replicate 340 (0 : Z)) = 340) as Hz by done.
  unfold new_item, i_version, i_features, i_valid_entries, i_total_entries, i_remote_pid, i_local_pid, i_magic.
  split; unfold i_version; [apply (read_put 1); [lia|bounds|lia]| |].
  - split; [unfold sizeof_smem_item; bounds|done| |done].
    unfold i_valid_entries. do 2 rewrite read_put_ne by (lia || bounds). apply (read_put 2); [lia|bounds|done].
  - intros i Hi. unfold SMP2P_MAX_ENTRY, i_value in *. rewrite !read_put_ne by (lia || bounds). apply read_zeros; lia.
Qed.

(** Store into the item under [id]. *)
Ltac istore Hz :=
  match goal with
  | |- context [kbind (item_st ?id ?n ?off ?z) _ (set_items (<[?id := ?bs]> ?it) ?s)] =>
      rewrite (kbind_Done _ _ _ _ _ (item_st_run (set_items (<[id := bs]> it) s) id bs n off z
        ltac:(apply lookup_insert_eq) ltac:(done) ltac:(bounds)));
      unfold set_items; cbn [items sdev kicks fired oplus_smp2p_state_switch oplus_smp2p_state_list]; rewrite insert_insert_eq;
      match goal with |- context [mk_sst (<[id := ?b]> it) ?d ?k ?f ?sw ?l] =>
        change (mk_sst (<[id := b]> it) d k f sw l) with (set_items (<[id := b]> it) s) end
  end.

Lemma alloc_outbound_run s junk : zlen junk = sizeof_smem_item →
  smem_in (sdev s) ≠ smem_out (sdev s) → items s !! smem_in (sdev s) = None →
  qcom_smp2p_alloc_outbound_item 0 junk s =
  (Done 0, mk_sst (<[smem_out (sdev s) := new_item (local_pid (sdev s)) (remote_pid (sdev s))]> (items s))
             (set_out true (sdev s)) (kicks s + 1) (fired s) (oplus_smp2p_state_switch s) (oplus_smp2p_state_list s)).
Proof.
  intros Hj Hne Hin. assert (zlen (replicate 340 (0 : Z)) = 340) as Hz by done.
  unfold qcom_smp2p_alloc_outbound_item. unfold kgets at 1, kbind at 1. cbn [Z.eqb Z.ltb Z.compare andb].
  set (d := sdev s) in *. unfold kbind at 1, kmodify at 1. unfold item_present at 1, kgets at 1, kbind at 1. cbn [items set_items].
  rewrite lookup_insert_eq, bool_decide_true by done. cbn [negb].
  rewrite (kbind_Done _ _ _ _ _ (item_put_run (set_items (<[smem_out d := junk]> (items s)) s) (smem_out d) junk 0
    (replicate (Z.to_nat sizeof_smem_item) 0) ltac:(apply lookup_insert_eq) ltac:(done) ltac:(rewrite Hj; done))).
  assert (put 0 (replicate (Z.to_nat sizeof_smem_item) 0) junk = replicate 340 0) as ->.
  { unfold put. cbn [Z.to_nat take app]. rewrite drop_ge; [apply app_nil_r|]. rewrite length_replicate. unfold zlen, sizeof_smem_item in *. lia. }
  unfold set_items at 1. cbn [items sdev kicks fired oplus_smp2p_state_switch oplus_smp2p_state_list set_items]. rewrite insert_insert_eq.
  change (mk_sst (<[smem_out d := replicate 340 0]> (items s)) (sdev s) (kicks s) (fired s) (oplus_smp2p_state_switch s) (oplus_smp2p_state_list s))
    with (set_items (<[smem_out d := replicate 340 0]> (items s)) s).
  unfold i_version, i_features, i_valid_entries, i_total_entries, i_remote_pid, i_local_pid, i_magic.
  do 6 istore Hz. unfold qcom_smp2p_in_version. unfold kbind at 1. unfold kgets at 1, kbind at 1. cbn [sdev set_items]. fold d.
  unfold item_present at 1, kgets at 1, kbind at 1. cbn [items set_items]. rewrite lookup_insert_ne, Hin by done.
  rewrite bool_decide_false by (by intros [? ?]). unfold kret at 1. cbn [Z.eqb negb]. istore Hz.
  unfold new_item, qcom_smp2p_kick, mod_sdev, kmodify, kbind, kret. done.
Qed.

Lemma index_of_lookup names (i : nat) nm : NoDup names → names !! i = Some nm → index_of nm names = Some (Z.of_nat i).
Proof.
  intros Hnd Hi. unfold index_of. destruct (list_find (eq nm) names) as [[j x]|] eqn:Hf.
  - apply list_find_Some in Hf as (Hj & <- & _). cbn. by rewrite (NoDup_lookup _ _ _ _ Hnd Hj Hi).
  - apply list_find_None in Hf. rewrite list.Forall_forall in Hf. by destruct (Hf nm); [by eapply list_elem_of_lookup_2|].
Qed.

Lemma out_entries_spec names : ∀ post pre, NoDup names → names = pre ++ post →
  Forall (λ e, value e = index_of (name e) names) (out_entries (zlen pre) post) ∧ name <$> out_entries (zlen pre) post = post.
Proof.
  induction post as [|nm post IH]; intros pre Hnd Heq; [done|]. cbn [out_entries fmap list_fmap].
  destruct (IH (pre ++ [nm]) Hnd) as [H1 H2]; [by rewrite <- app_assoc|]. rewrite zlen_app in H1, H2.
  change (zlen [nm]) with 1 in H1, H2. split; [|by f_equal].
  apply Forall_cons_2; [|done]. cbn [value name set_value new_entry_of]. symmetry. rewrite Heq in *.
  apply index_of_lookup; [done|]. by rewrite lookup_app_r, Nat.sub_diag by lia.
Qed.

Lemma start_in_run s bs names : items s !! smem_in (sdev s) = Some bs → announced bs 1 names → valid_entries (sdev s) = 0 →
  Forall good_name names → NoDup names → Forall (λ e, good_name (name e)) (inbound (sdev s)) → NoDup (name <$> inbound (sdev s)) →
  qcom_smp2p_start_in s = (Done tt, set_sdev (set_in true (zlen names)
    (set_inbound (matched (λ i e, set_last 0 (set_value (Some i) e)) names <$> inbound (sdev s)) (sdev s))) s).
Proof.
  intros Hs [Hv Hp Hz] Hve Hg Hnn Hgl Hnl. unfold qcom_smp2p_start_in. unfold kgets at 1, kbind at 1.
  unfold item_present at 1, kgets at 1, kbind at 1. rewrite Hs, bool_decide_true by done. cbn [negb].
  unfold mod_sdev at 1, kmodify at 1, kbind at 1.
  rewrite (kbind_Done _ _ _ _ _ (item_ld_run (set_sdev (set_in true (valid_entries (sdev s)) (sdev s)) s) (smem_in (sdev s)) bs 1 i_version 1 Hs Hv)).
  cbn [Z.eqb Pos.eqb]. rewrite (match_new_run (λ i e, set_last 0 (set_value (Some i) e)) (λ _ _, eq_refl) _
    (set_sdev (set_in true (valid_entries (sdev s)) (sdev s)) s) bs names); try done.
  intros i e s' Hi Hit. by rewrite (kbind_Done _ _ _ _ _ (item_ld_run s' (smem_in (sdev s)) bs 4 (i_value i) 0 ltac:(by rewrite Hit) (Hz i Hi))).
Qed.

(** A device tree and frameworks without faults. *)
Definition good_env (id_in id_out lp rp : Z) (junk : list Z) (nodes : list (bool * list Z)) : smp2p_env :=
  mk_senv true (inr (id_in, id_out)) (inr lp) (inr rp) 5 0 true 0 0 0 0 junk (node <$> nodes) true 0 0.

Lemma probe_run s id_in id_out lp rp junk nodes :
  id_in ≠ id_out → items s !! id_in = None → zlen junk = sizeof_smem_item → zlen (out_names nodes) ≤ SMP2P_MAX_ENTRY →
  ∃ bs k, qcom_smp2p_probe (good_env id_in id_out lp rp junk nodes) s =
    (Done 0, mk_sst (<[id_out := bs]> (items s))
      (add_children 0 nodes (mk_smp2p false true id_in id_out 0 false false false lp rp [] [])) k (fired s)
      (oplus_smp2p_state_switch s) (oplus_smp2p_state_list s)) ∧ announced bs 1 (out_names nodes).
Proof.
  intros Hne Hin Hj Hl. unfold qcom_smp2p_probe, good_env. cbn [pe_kzalloc pe_smem pe_local pe_remote pe_irq pe_mbox pe_alloc pe_junk pe_children pe_devname pe_request_irq pe_wake_irq negb Z.ltb Z.compare Z.eqb].
  unfold mod_sdev at 1, kmodify at 1, kbind at 1. set (d0 := mk_smp2p _ _ _ _ _ _ _ _ _ _ _ _).
  rewrite (kbind_Done _ _ _ _ _ (alloc_outbound_run (set_sdev d0 s) junk Hj Hne Hin)). cbn [Z.ltb Z.compare sdev set_sdev smem_out local_pid remote_pid items kicks fired oplus_smp2p_state_switch oplus_smp2p_state_list].
  set (s1 := mk_sst _ _ _ _ _ _).
  destruct (probe_children_run 1 nodes s1 (new_item lp rp) []) as (bs & Hr & Ha); [apply lookup_insert_eq|apply new_item_announced|done|].
  rewrite (kbind_Done _ _ _ _ _ Hr). cbn [Z.ltb Z.compare]. change (zlen []) with 0. cbn [app] in Ha.
  assert (∀ s2, smem_in (sdev s2) = id_in → items s2 !! id_in = None → qcom_smp2p_start_in s2 = (Done tt, s2)) as Hstart.
  { intros s2 H1 H2. unfold qcom_smp2p_start_in, item_present, kgets, kbind. rewrite H1, H2, bool_decide_false by (by intros [? ?]). done. }
  rewrite (kbind_Done _ _ _ _ _ (Hstart (set_items (<[smem_out (sdev s1) := bs]> (items s1)) (set_sdev (add_children 0 nodes (sdev s1)) s1)) eq_refl
    ltac:(cbn; by rewrite !lookup_insert_ne by done))).
  exists bs, (kicks s1 + 1). split; [|done]. unfold qcom_smp2p_kick, kmodify, kbind, kret, set_items, set_sdev. cbn. by rewrite insert_insert_eq.
Qed.

(** names.  The probe of one processor publishes its outbound names; the start of the
    other then points each inbound entry whose name was published at the value the first
    processor writes under that name, with the value it has there, and leaves every other
    entry without a value.  Entries of both sides agree on the index of a name. *)
Theorem smp2p_names_roundtrip id_in id_out lp rp junk nodes L :
  id_in ≠ id_out → lk_items L !! id_in = None → zlen junk = sizeof_smem_item →
  zlen (out_names nodes) ≤ SMP2P_MAX_ENTRY → Forall good_name (out_names nodes) → NoDup (out_names nodes) →
  smem_in (lk_b L) = id_out → valid_entries (lk_b L) = 0 →
  Forall (λ e, good_name (name e)) (inbound (lk_b L)) → NoDup (name <$> inbound (lk_b L)) →
  ∃ L', (let* r := on_a (qcom_smp2p_probe (good_env id_in id_out lp rp junk nodes)) in on_b qcom_smp2p_start_in ;;; kret r) L = (Done 0, L') ∧
    inbound (lk_b L') = (λ e, match index_of (name e) (out_names nodes) with
                              | Some i => set_last 0 (set_value (Some i) e) | None => e end) <$> inbound (lk_b L) ∧
    name <$> outbound (lk_a L') = reverse (out_names nodes) ∧
    Forall (λ e, value e = index_of (name e) (out_names nodes)) (outbound (lk_a L')).
Proof.
  intros Hne Hin Hj Hl Hg Hnd Hb Hve Hgl Hnl.
  destruct (probe_run (mk_sst (lk_items L) (lk_a L) (lk_bells L) [] false []) id_in id_out lp rp junk nodes Hne Hin Hj Hl) as (bs & k & Hp & Ha).
  assert (on_a (qcom_smp2p_probe (good_env id_in id_out lp rp junk nodes)) L = (Done 0, mk_link (<[id_out := bs]> (lk_items L))
    (add_children 0 nodes (mk_smp2p false true id_in id_out 0 false false false lp rp [] [])) (lk_b L) k (lk_fired L))) as Ho by (unfold on_a; by rewrite Hp).
  rewrite (kbind_Done _ _ _ _ _ Ho). unfold kbind, on_b. cbn [lk_items lk_a lk_b lk_bells lk_fired].
  rewrite (start_in_run (mk_sst (<[id_out := bs]> (lk_items L)) (lk_b L) 0 (lk_fired L) false []) bs (out_names nodes));
    [|cbn; rewrite Hb; apply lookup_insert_eq|done..].
  eexists. split; [done|]. split; [done|]. cbn [lk_a outbound add_children set_inbound set_outbound].
  destruct (out_entries_spec (out_names nodes) (out_names nodes) [] Hnd eq_refl) as [H1 H2]. change (zlen []) with 0 in H1, H2.
  rewrite app_nil_r. split; [by rewrite fmap_reverse, H2|by apply Forall_reverse].
Qed.

Definition sample_peer : qcom_smp2p :=
  mk_smp2p false false 2 3 0 false false false 1 0 [mk_s_entry [109; 97] None 0 0 0 1 0; mk_s_entry [120] None 0 0 0 0 0] [].
Definition sample_start : link := mk_link ∅ sample_peer sample_peer 0 [].
Definition sample_nodes : list (bool * list Z) := [(false, [115; 115]); (true, [115; 115]); (false, [109; 97])].

Lemma smp2p_names_roundtrip_witness :
  ∃ L', (let* r := on_a (qcom_smp2p_probe (good_env 1 2 0 1 (replicate 340 7) sample_nodes)) in on_b qcom_smp2p_start_in ;;; kret r) sample_start = (Done 0, L') ∧
    inbound (lk_b L') = (λ e, match index_of (name e) (out_names sample_nodes) with
                              | Some i => set_last 0 (set_value (Some i) e) | None => e end) <$> inbound (lk_b sample_start) ∧
    name <$> outbound (lk_a L') = reverse (out_names sample_nodes) ∧
    Forall (λ e, value e = index_of (name e) (out_names sample_nodes)) (outbound (lk_a L')).
Proof.
  apply (smp2p_names_roundtrip 1 2 0 1 (replicate 340 7) sample_nodes sample_start); try reflexivity; try done.
  - repeat apply Forall_cons_2; try apply Forall_nil_2; (split; [cbn; lia|]; repeat apply Forall_cons_2; try apply Forall_nil_2; lia).
  - apply (bool_decide_unpack _). vm_compute. exact I.
  - repeat apply Forall_cons_2; try apply Forall_nil_2; (split; [cbn; lia|]; repeat apply Forall_cons_2; try apply Forall_nil_2; lia).
  - apply (bool_decide_unpack _). vm_compute. exact I.
Defined.

(** Index 1, and no value for the name nobody published. *)
Example sample_values :
  value <$> inbound (lk_b (((let* r := on_a (qcom_smp2p_probe (good_env 1 2 0 1 (replicate 340 7) sample_nodes)) in
    on_b qcom_smp2p_start_in ;;; kret r) sample_start).2)) = [Some 1; None].
Proof. vm_compute. reflexivity. Qed.
