(* ===== verification/Smp2pSafe.v ===== *)
(** * The interrupt handler against any contents of the peer's item

    The peer's item may hold anything, as long as it has its full size and counts at most
    sixteen entries: the handler ends, reads only inside the items, and writes only the
    features and flags of its own. *)

From S2P Require Import Prelude Memory SmemSafe SmemDev Smp2p Smp2pLink.

Definition entry_safe (e : smp2p_entry) : Prop := in_item e ∧ (length (name e) ≤ 15)%nat.

Record intr_safe (s : s_state) (bsi bso : list Z) : Prop := {
  sa_in : items s !! smem_in (sdev s) = Some bsi;
  sa_out : items s !! smem_out (sdev s) = Some bso;
  sa_ids : smem_in (sdev s) ≠ smem_out (sdev s);
  sa_in_len : zlen bsi = sizeof_smem_item;
  sa_in_bytes : Forall is_byte bsi;
  sa_out_len : zlen bso = sizeof_smem_item;
  sa_out_bytes : Forall is_byte bso;
  sa_count : ∃ n, read_le 2 bsi i_valid_entries = Some n ∧ 0 ≤ n ≤ SMP2P_MAX_ENTRY;
  sa_valid : 0 ≤ valid_entries (sdev s);
  sa_entries : Forall entry_safe (inbound (sdev s));
}.

(** Reading a field of the own or of the peer's item. *)
Lemma safe_ld s bs id n off : items s !! id = Some bs → zlen bs = sizeof_smem_item → Forall is_byte bs →
  0 ≤ off → 0 ≤ n → off + n ≤ sizeof_smem_item → ∃ z, item_ld id n off s = (Done z, s) ∧ 0 ≤ z < 256 ^ n.
Proof.
  intros Hs Hl Hb H1 H2 H3. destruct (read_le_range n bs off) as (z & Hz & Hr); [done|lia..|].
  exists z. split; [by eapply item_ld_run|done].
Qed.

Lemma strcmp_short buf nm : length buf = 16%nat → (length nm ≤ 15)%nat → ∃ b, strcmp_buf buf nm = Some b.
Proof.
  intros Hb Hn. unfold strcmp_buf. rewrite bool_decide_false; [by eexists|]. intros Heq.
  apply (f_equal length) in Heq. rewrite length_take in Heq. lia.
Qed.

Lemma match_entry_safe s bs id i l : items s !! id = Some bs → zlen bs = sizeof_smem_item → 0 ≤ i < SMP2P_MAX_ENTRY →
  Forall entry_safe l →
  ∃ l', match_entry id i (λ e, kret (set_value (Some i) e)) l s = (Done l', s) ∧ Forall entry_safe l'.
Proof.
  intros Hs Hl Hi. induction 1 as [|e l He Hf IH]; cbn [match_entry]; [by exists []|].
  assert (∃ buf, item_bytes id SMP2P_MAX_ENTRY_NAME (i_name i) s = (Done buf, s) ∧ length buf = 16%nat) as (buf & Hb & Hlen).
  { unfold item_bytes. rewrite Hs. cbn [mbind option_bind]. unfold subrange, SMP2P_MAX_ENTRY_NAME, SMP2P_MAX_ENTRY, i_name, sizeof_smem_item, zlen in *.
    rewrite bool_decide_true by lia. eexists. split; [done|]. rewrite length_take, length_drop. lia. }
  rewrite (kbind_Done _ _ _ _ _ Hb). destruct (strcmp_short buf (name e) Hlen (proj2 He)) as [[] ->].
  - unfold kbind, kret. eexists. split; [done|]. apply Forall_cons_2; [|done]. split; [|apply He]. intros j [= <-]. done.
  - destruct IH as (l' & Hl' & Hf'). rewrite (kbind_Done _ _ _ _ _ Hl'). eexists. split; [done|]. by apply Forall_cons_2.
Qed.

Lemma intr_safe_inbound s bsi bso l : intr_safe s bsi bso → Forall entry_safe l → intr_safe (set_sdev (set_inbound l (sdev s)) s) bsi bso.
Proof. intros [] Hl. by split. Qed.

Lemma match_loop_safe bsi bso l : Forall (λ i, 0 ≤ i < SMP2P_MAX_ENTRY) l → ∀ s, intr_safe s bsi bso →
  ∃ s', for_each l (λ i,
    let* d := kgets sdev in
    let* l := match_entry (smem_in d) i (λ e, kret (set_value (Some i) e)) (inbound d) in
    mod_sdev (set_inbound l)) s = (Done tt, s') ∧ intr_safe s' bsi bso ∧ items s' = items s.
Proof.
  induction 1 as [|i l Hi _ IH]; intros s Hs; cbn [for_each]; [by exists s|].
  unfold kbind at 1. unfold kgets at 1, kbind at 1.
  destruct (match_entry_safe s bsi _ i _ (sa_in _ _ _ Hs) (sa_in_len _ _ _ Hs) Hi (sa_entries _ _ _ Hs)) as (l' & Hl & Hf).
  rewrite (kbind_Done _ _ _ _ _ Hl). unfold mod_sdev, kmodify.
  destruct (IH (set_sdev (set_inbound l' (sdev s)) s)) as (s' & Hr & Hs' & Hi'); [by apply intr_safe_inbound|]. by exists s'.
Qed.

(** The state after a step that leaves items and device alone. *)
Definition only_log (s s' : s_state) : Prop := items s' = items s ∧ sdev s' = sdev s.

Lemma fire_bits_log val e bits s : ∃ e' s', fire_bits val e bits s = (Done e', s') ∧ only_log s s' ∧ value e' = value e ∧ name e' = name e.
Proof. rewrite fire_bits_run. eexists _, _. split; [done|]. done. Qed.

Lemma notify_entry_safe ok lo re s bs id e : items s !! id = Some bs → zlen bs = sizeof_smem_item → Forall is_byte bs → entry_safe e →
  ∃ e' s', notify_entry ok id lo re e s = (Done e', s') ∧ only_log s s' ∧ entry_safe e'.
Proof.
  intros Hs Hl Hb [He Hn]. unfold notify_entry. destruct (value e) as [i|] eqn:Hv; [|eexists _, _; split; [done|done]].
  pose proof (He i Hv) as Hi. unfold SMP2P_MAX_ENTRY in Hi.
  destruct (safe_ld s bs id 4 (i_value i) Hs Hl Hb) as (v & Hld & _); [unfold i_value, sizeof_smem_item; lia..|].
  rewrite (kbind_Done _ _ _ _ _ Hld). unfold update_oplus_smp2p_state, kmodify, kbind at 1.
  set (s1 := if negb (oplus_smp2p_state_switch s) then s else _).
  assert (only_log s s1) as Hlog by (unfold s1; by destruct (negb _)).
  assert (∀ e', value e' = value e → name e' = name e → entry_safe e') as Hsafe.
  { intros e' H1 H2. split; [intros j Hj; apply He; congruence|congruence]. }
  destruct (_ =? 0); [eexists _, _; split; [done|]; split; [done|by apply Hsafe]|].
  destruct (fire_bits_log v (set_last v e) (set_bits (Z.lor (Z.lxor v (last_value e)) (irq_pending e)) 32) s1) as (e' & s' & Hf & [L1 L2] & V & N).
  exists e', s'. split; [done|]. destruct Hlog as [M1 M2]. split; [split; congruence|by apply Hsafe].
Qed.

Lemma notify_entries_safe ok lo re bs id l : Forall entry_safe l → ∀ s, items s !! id = Some bs → zlen bs = sizeof_smem_item → Forall is_byte bs →
  ∃ l' s', notify_entries ok id lo re l s = (Done l', s') ∧ only_log s s' ∧ Forall entry_safe l'.
Proof.
  induction 1 as [|e l He _ IH]; intros s Hs Hl Hb; cbn [notify_entries]; [by exists [], s|].
  destruct (notify_entry_safe ok lo re s bs id e Hs Hl Hb He) as (e' & s1 & H1 & [L1 L2] & S1). rewrite (kbind_Done _ _ _ _ _ H1).
  destruct (IH s1) as (l' & s2 & H2 & [M1 M2] & S2); [by rewrite L1|done|done|]. rewrite (kbind_Done _ _ _ _ _ H2).
  eexists _, _. split; [done|]. split; [split; congruence|by apply Forall_cons_2].
Qed.

Lemma intr_safe_log s s' bsi bso : intr_safe s bsi bso → only_log s s' → intr_safe s' bsi bso.
Proof. intros [] [H1 H2]. split; rewrite ?H1, ?H2; done. Qed.

Lemma notify_in_safe ok s bsi bso : intr_safe s bsi bso →
  ∃ s', qcom_smp2p_notify_in ok s = (Done tt, s') ∧ intr_safe s' bsi bso ∧ items s' = items s.
Proof.
  intros Hs. unfold qcom_smp2p_notify_in.
  assert (∃ s1, match_new (λ i e, kret (set_value (Some i) e)) s = (Done tt, s1) ∧ intr_safe s1 bsi bso ∧ items s1 = items s) as (s1 & R1 & S1 & I1).
  { unfold match_new. unfold kgets at 1, kbind at 1. destruct (sa_count _ _ _ Hs) as (n & Hn & Hn16). pose proof (sa_valid _ _ _ Hs).
    rewrite (kbind_Done _ _ _ _ _ (item_ld_run s _ bsi 2 i_valid_entries n (sa_in _ _ _ Hs) Hn)).
    destruct (match_loop_safe bsi bso (seqZ (valid_entries (sdev s)) (n - valid_entries (sdev s)))) with (s := s) as (s1 & R1 & S1 & I1).
    { apply list.Forall_forall. intros i Hi%elem_of_seqZ. lia. } { done. }
    rewrite (kbind_Done _ _ _ _ _ R1). eexists. split; [done|]. split; [|done]. destruct S1. split; try done. cbn. lia. }
  rewrite (kbind_Done _ _ _ _ _ R1). unfold kgets at 1, kbind at 1.
  destruct (notify_entries_safe ok (local_pid (sdev s1)) (remote_pid (sdev s1)) bsi (smem_in (sdev s1)) _ (sa_entries _ _ _ S1) s1
    (sa_in _ _ _ S1) (sa_in_len _ _ _ S1) (sa_in_bytes _ _ _ S1)) as (l' & s2 & R2 & L2 & F2).
  rewrite (kbind_Done _ _ _ _ _ R2). eexists. split; [done|]. split.
  - apply intr_safe_inbound; [by eapply intr_safe_log|done].
  - destruct L2 as [M1 _]. cbn. congruence.
Qed.

(** A store into the own item keeps everything. *)
Lemma intr_safe_store s bsi bso n off z : intr_safe s bsi bso → 0 ≤ off → off + Z.of_nat n ≤ sizeof_smem_item →
  intr_safe (set_items (<[smem_out (sdev s) := put off (le_encode n z) bso]> (items s)) s) bsi (put off (le_encode n z) bso).
Proof.
  intros [] H1 H2. split; cbn [items sdev set_items]; try done.
  - by rewrite lookup_insert_ne.
  - apply lookup_insert_eq.
  - rewrite zlen_put_le; lia.
  - unfold put. apply Forall_app_2; [by apply Forall_take|]. apply Forall_app_2; [apply le_encode_bytes|by apply Forall_drop].
Qed.

Lemma intr_safe_dev s bsi bso d : intr_safe s bsi bso → smem_in d = smem_in (sdev s) → smem_out d = smem_out (sdev s) →
  valid_entries d = valid_entries (sdev s) → inbound d = inbound (sdev s) → intr_safe (set_sdev d s) bsi bso.
Proof. intros [] H1 H2 H3 H4. split; cbn [items sdev set_sdev]; rewrite ?H1, ?H2, ?H3, ?H4; done. Qed.

(** Where the handler may write in its own item: from the features to the flags. *)
Definition touched (s : s_state) (bsi bso : list Z) (s' : s_state) : Prop :=
  ∃ bso', intr_safe s' bsi bso' ∧ within i_features 15 bso bso'.

Lemma touched_refl s bsi bso : intr_safe s bsi bso → touched s bsi bso s.
Proof. intros H. exists bso. split; [done|apply within_refl]. Qed.

Lemma negotiate_safe s bsi bso : intr_safe s bsi bso → ∃ s', qcom_smp2p_negotiate s = (Done tt, s') ∧ touched s bsi bso s'.
Proof.
  intros Hs. pose proof Hs as [Hi Ho Hne Hil Hib Hol Hob _ _ _]. unfold qcom_smp2p_negotiate. unfold kgets at 1, kbind at 1.
  destruct (safe_ld s bsi _ 1 i_version Hi Hil Hib) as (vi & R1 & _); [unfold i_version, sizeof_smem_item; lia..|]. rewrite (kbind_Done _ _ _ _ _ R1).
  destruct (safe_ld s bso _ 1 i_version Ho Hol Hob) as (vo & R2 & _); [unfold i_version, sizeof_smem_item; lia..|]. rewrite (kbind_Done _ _ _ _ _ R2).
  destruct (vi =? vo); [|eexists; split; [done|by apply touched_refl]].
  destruct (safe_ld s bso _ 3 i_features Ho Hol Hob) as (fo & R3 & _); [unfold i_features, sizeof_smem_item; lia..|]. rewrite (kbind_Done _ _ _ _ _ R3).
  destruct (safe_ld s bsi _ 3 i_features Hi Hil Hib) as (fi & R4 & _); [unfold i_features, sizeof_smem_item; lia..|]. rewrite (kbind_Done _ _ _ _ _ R4).
  rewrite (kbind_Done _ _ _ _ _ (item_st_run s _ bso 3 i_features (Z.land fo fi) Ho ltac:(unfold i_features; lia) ltac:(rewrite Hol; unfold i_features, sizeof_smem_item; lia))).
  pose proof (intr_safe_store s bsi bso 3 i_features (Z.land fo fi) Hs ltac:(unfold i_features; lia) ltac:(unfold i_features, sizeof_smem_item; lia)) as Hs1.
  set (s1 := set_items _ s) in *.
  destruct (safe_ld s1 _ _ 3 i_features (sa_out _ _ _ Hs1) (sa_out_len _ _ _ Hs1) (sa_out_bytes _ _ _ Hs1)) as (f & R5 & _); [unfold i_features, sizeof_smem_item; lia..|].
  change (smem_out (sdev s1)) with (smem_out (sdev s)) in R5. rewrite (kbind_Done _ _ _ _ _ R5). eexists. split; [done|].
  eexists. split; [by apply intr_safe_dev|]. eapply within_mono; [apply put_le_within; rewrite ?Hol|..]; unfold i_features, sizeof_smem_item; lia.
Qed.

Lemma check_ssr_safe s bsi bso : intr_safe s bsi bso → ∃ b s', qcom_smp2p_check_ssr s = (Done b, s') ∧ intr_safe s' bsi bso.
Proof.
  intros Hs. pose proof Hs as [Hi Ho Hne Hil Hib Hol Hob _ _ Hl]. unfold qcom_smp2p_check_ssr. unfold kgets at 1, kbind at 1.
  destruct (ssr_ack_enabled (sdev s)); cbn [negb]; [|by eexists _, s].
  destruct (safe_ld s bsi _ 4 i_flags Hi Hil Hib) as (f & R1 & _); [unfold i_flags, sizeof_smem_item; lia..|]. rewrite (kbind_Done _ _ _ _ _ R1).
  destruct (negb _); [|by eexists _, s].
  destruct (safe_ld s bsi _ 1 i_version Hi Hil Hib) as (v & R2 & _); [unfold i_version, sizeof_smem_item; lia..|]. rewrite (kbind_Done _ _ _ _ _ R2).
  destruct (_ <? v); unfold mod_sdev, kmodify, kbind, kret; eexists _, _; (split; [done|]); [|done].
  apply intr_safe_inbound; [done|]. apply Forall_fmap. eapply list.Forall_impl; [exact Hl|]. intros e [He Hn]. unfold compose.
  destruct (value e) as [i|] eqn:Hv; [|by split]. split; [|done]. intros j Hj. apply He. by cbn in Hj.
Qed.

Lemma do_ssr_ack_safe s bsi bso : intr_safe s bsi bso → ∃ s', qcom_smp2p_do_ssr_ack s = (Done tt, s') ∧ touched s bsi bso s'.
Proof.
  intros Hs. unfold qcom_smp2p_do_ssr_ack. unfold mod_sdev at 1, kmodify at 1, kbind at 1. unfold kgets at 1, kbind at 1.
  set (s1 := set_sdev _ s). assert (intr_safe s1 bsi bso) as Hs1 by (by apply intr_safe_dev).
  pose proof Hs1 as [_ Ho _ _ _ Hol Hob _ _ _].
  destruct (safe_ld s1 bso _ 4 i_flags Ho Hol Hob) as (f & R1 & _); [unfold i_flags, sizeof_smem_item; lia..|]. rewrite (kbind_Done _ _ _ _ _ R1).
  rewrite (kbind_Done _ _ _ _ _ (item_st_run s1 _ bso 4 i_flags _ Ho ltac:(unfold i_flags; lia) ltac:(rewrite Hol; unfold i_flags, sizeof_smem_item; lia))).
  eexists. split; [done|]. eexists. split.
  - eapply intr_safe_log; [apply (intr_safe_store s1 bsi bso 4 i_flags); [done|unfold i_flags, sizeof_smem_item; lia..]|done].
  - eapply within_mono; [apply put_le_within; rewrite ?Hol|..]; unfold i_flags, i_features, sizeof_smem_item; lia.
Qed.

(** C37: the interrupt handler against its peer. Whatever the peer's item holds (with its full
    size and at most sixteen entries), and whatever the own item holds, the handler ends
    without an access outside the items; it leaves the peer's item alone and changes at most
    the bytes from the features to the flags of its own; and the state is safe for the next
    interrupt. The inbound entries of this side have names of at most 15 bytes and values
    inside the item ([entry_safe]); a longer name is compared past the peer's name field
    ([long_name_compares_past_buffer]). *)
Theorem smp2p_intr_peer_safe ok s bsi bso :
  intr_safe s bsi bso → ∃ s', qcom_smp2p_intr ok s = (Done tt, s') ∧ touched s bsi bso s'.
Proof.
  intros Hs. pose proof Hs as [Hi _ _ _ _ _ _ _ _ _]. unfold qcom_smp2p_intr. unfold kgets at 1, kbind at 1.
  assert ((if has_in (sdev s) then kret true else item_present (smem_in (sdev s))) s = (Done true, s)) as Hp.
  { destruct (has_in _); [done|]. unfold item_present, kgets. by rewrite Hi, bool_decide_true. }
  rewrite (kbind_Done _ _ _ _ _ Hp). cbn [negb]. unfold mod_sdev at 1, kmodify at 1, kbind at 1.
  set (s1 := set_sdev _ s). assert (intr_safe s1 bsi bso) as Hs1 by (by apply intr_safe_dev).
  assert (∃ s2, (if negotiation_done (sdev s) then kret tt else qcom_smp2p_negotiate) s1 = (Done tt, s2) ∧ touched s1 bsi bso s2) as (s2 & R2 & b2 & S2 & W2).
  { destruct (negotiation_done _); [exists s1; split; [done|by apply touched_refl]|by apply negotiate_safe]. }
  rewrite (kbind_Done _ _ _ _ _ R2). unfold kgets at 1, kbind at 1.
  destruct (negotiation_done (sdev s2)); [|exists s2; split; [done|by exists b2]].
  destruct (check_ssr_safe s2 bsi b2 S2) as (b & s3 & R3 & S3). rewrite (kbind_Done _ _ _ _ _ R3).
  destruct (notify_in_safe ok s3 bsi b2 S3) as (s4 & R4 & S4 & _). rewrite (kbind_Done _ _ _ _ _ R4).
  destruct b; [|exists s4; split; [done|by exists b2]].
  destruct (do_ssr_ack_safe s4 bsi b2 S4) as (s5 & R5 & b5 & S5 & W5). exists s5. split; [done|]. exists b5. split; [done|by eapply within_trans].
Qed.

(** A peer of an odd version with noise in its item. *)
Definition noisy : s_state :=
  mk_sst (<[7 := put 14 (le_encode 2 16) (replicate 340 255)]> {[8 := put 4 [255] (replicate 340 9)]})
    (mk_smp2p false true 7 8 0 false false false 1 0 [mk_s_entry [115] (Some 3) 5 0 7 255 2; mk_s_entry [] None 0 0 0 0 0] []) 4 [] true [].

Lemma smp2p_intr_peer_safe_witness :
  ∃ s', qcom_smp2p_intr true noisy = (Done tt, s') ∧
    touched noisy (put 14 (le_encode 2 16) (replicate 340 255)) (put 4 [255] (replicate 340 9)) s'.
Proof.
  assert (∀ l, forallb (λ b, (0 <=? b) && (b <? 256)) l = true → Forall is_byte l) as Hbytes.
  { intros l H. apply Forall_forall. intros b Hb. rewrite forallb_forall in H. specialize (H b Hb). unfold is_byte. lia. }
  apply (smp2p_intr_peer_safe true noisy). split; try reflexivity; try done.
  - by apply Hbytes.
  - by apply Hbytes.
  - exists 16. split; [reflexivity|]. unfold SMP2P_MAX_ENTRY. lia.
  - repeat apply Forall_cons_2; try apply Forall_nil_2; (split; [|cbn; lia]); intros i; cbn; [intros [= <-]; unfold SMP2P_MAX_ENTRY; lia|done].
Defined.

(** A count above sixteen makes the handler read behind the item. *)
Example large_count_reads_past_item :
  (qcom_smp2p_start_in (mk_sst {[7 := put 4 [1] (put 14 (le_encode 2 17) (replicate 340 0))]}
    (mk_smp2p false true 7 8 0 false false false 1 0 [mk_s_entry [115] None 0 0 0 0 0] []) 0 [] false [])).1 = Undef.
Proof. vm_compute. reflexivity. Qed.

(** A name of sixteen bytes or more is compared past the end of the buffer. *)
Example long_name_compares_past_buffer : strcmp_buf (replicate 16 97) (replicate 20 97) = None.
Proof. reflexivity. Qed.

(** The seventeenth outbound entry is written behind the item. *)
Example many_entries_write_past_item :
  (probe_children (replicate 17 (mk_child true (inr [97]) false true 0))
    (mk_sst {[8 := replicate 340 0]} (mk_smp2p false true 7 8 0 false false false 1 0 [] []) 0 [] false [])).1 = Undef.
Proof. vm_compute. reflexivity. Qed.

(** The statistics are not limited to fifty records. *)
Example statistics_not_limited :
  zlen (oplus_smp2p_state_list (for_each (seqZ 0 60) (λ i, update_oplus_smp2p_state true 0 1 (Z.shiftl i 16))
    (mk_sst ∅ (mk_smp2p false true 7 8 0 false false false 1 0 [] []) 0 [] true [])).2) = 60.
Proof. vm_compute. reflexivity. Qed.
