(* ===== verification/QmiEncDec.v ===== *)
(** * The QMI encoder and decoder (drivers/soc/qcom/qmi_encdec.c)

    A message is described by a table of [qmi_elem_info].  The encoder copies the
    fields of a C structure into a TLV buffer, the decoder goes the other way.
    Memory is a list of bytes and a pointer is an offset into it: the encoder's
    state is the output buffer, the decoder's the C structure.  An access outside
    a buffer, the use of a NULL table or a walk past the end of a table is
    [Undef]; running out of fuel is [Hang].  Error codes are the returned values.
    Sums that involve a [sizeof] are 64-bit in the source and do not wrap here. *)

From S2P Require Import Prelude.

Inductive qmi_elem_type :=
  | QMI_EOTI | QMI_OPT_FLAG | QMI_DATA_LEN
  | QMI_UNSIGNED_1_BYTE | QMI_UNSIGNED_2_BYTE | QMI_UNSIGNED_4_BYTE | QMI_UNSIGNED_8_BYTE
  | QMI_SIGNED_2_BYTE_ENUM | QMI_SIGNED_4_BYTE_ENUM
  | QMI_STRUCT | QMI_STRING.
#[export] Instance qmi_elem_type_eq_dec : EqDecision qmi_elem_type.
Proof. solve_decision. Defined.

Inductive qmi_array_type := NO_ARRAY | STATIC_ARRAY | VAR_LEN_ARRAY.

(** A table ends with a [QMI_EOTI] element; [ei_array] is [None] for NULL. *)
Inductive qmi_elem_info := mk_ei {
  data_type : qmi_elem_type;
  elem_len : Z;
  elem_size : Z;
  array_type : qmi_array_type;
  tlv_type : Z;
  offset : Z;
  ei_array : option (list qmi_elem_info);
}.

Definition TLV_LEN_SIZE : Z := 2.
Definition TLV_TYPE_SIZE : Z := 1.
Definition OPTIONAL_TLV_TYPE_START : Z := 0x10.

(** ** Memory *)

Abbreviation M := (KM (list Z)).

Definition store (off : Z) (bs : list Z) : M unit := λ m,
  if bool_decide (0 ≤ off ∧ off + Z.of_nat (length bs) ≤ Z.of_nat (length m))
  then (Done tt, take (Z.to_nat off) m ++ bs ++ drop (Z.to_nat off + length bs) m)
  else (Undef, m).

Definition load (src : list Z) (off n : Z) : M (list Z) :=
  match subrange off n src with Some bs => kret bs | None => kfail Undef end.

(** The first element of what is left of a table. *)
Definition deref (ei : list qmi_elem_info) : M qmi_elem_info :=
  match ei with e :: _ => kret e | [] => kfail Undef end.

(** [memcpy (&var, src, n)] of [n] bytes into a u32 variable: the low bytes. *)
Definition low_bytes (bs : list Z) (old : Z) : Z :=
  let n := 8 * Z.of_nat (length bs) in u32 (Z.shiftl (Z.shiftr old n) n + le_decode bs).

(** [strlen]: the bytes of the string at [off]. *)
Fixpoint c_string (bs : list Z) : option (list Z) :=
  match bs with
  | [] => None
  | b :: bs => if b =? 0 then Some [] else cons b <$> c_string bs
  end.
Definition strlen (src : list Z) (off : Z) : M Z :=
  match subrange off (Z.of_nat (length src) - off) src with
  | Some bs => match c_string bs with Some s => kret (Z.of_nat (length s)) | None => kfail Undef end
  | None => kfail Undef
  end.

(** ** Table walking *)

(** [None] is a walk past the end of the table. *)
Fixpoint skip_same_type (type : Z) (ei : list qmi_elem_info) : option (list qmi_elem_info) :=
  match ei with
  | [] => None
  | e :: ei' => if type =? tlv_type e then skip_same_type (tlv_type e) ei' else Some ei
  end.
Definition skip_to_next_elem (ei : list qmi_elem_info) (level : Z) : option (list qmi_elem_info) :=
  match ei with
  | [] => None
  | e :: ei => if 1 <? level then Some ei else skip_same_type (tlv_type e) ei
  end.

Fixpoint find_ei (ei : list qmi_elem_info) (type : Z) : option (option (list qmi_elem_info)) :=
  match ei with
  | [] => None
  | e :: ei' =>
      if bool_decide (data_type e = QMI_EOTI) then Some None
      else if tlv_type e =? u8 type then Some (Some ei)
      else find_ei ei' type
  end.

Definition basic_type (t : qmi_elem_type) : bool :=
  match t with
  | QMI_UNSIGNED_1_BYTE | QMI_UNSIGNED_2_BYTE | QMI_UNSIGNED_4_BYTE | QMI_UNSIGNED_8_BYTE
  | QMI_SIGNED_2_BYTE_ENUM | QMI_SIGNED_4_BYTE_ENUM => true
  | _ => false
  end.

Definition data_len_size (e : qmi_elem_info) : Z := if elem_size e =? 1 then 1 else 2.
Definition string_len_size (e : qmi_elem_info) : Z := if elem_len e <=? U8_MAX then 1 else 2.

(** [None] is out of fuel or past the end; the loop is a [while], the nested table
    a recursive call. *)
Fixpoint qmi_calc_min_msg_len (fuel : nat) (ei : list qmi_elem_info) (level : Z) : option Z :=
  match fuel, ei with
  | S fuel, e :: ei' =>
      let tlv := if level =? 1 then TLV_TYPE_SIZE + TLV_LEN_SIZE else 0 in
      match data_type e with
      | QMI_EOTI => Some 0
      | QMI_OPT_FLAG =>
          match skip_to_next_elem ei level with
          | Some ei => qmi_calc_min_msg_len fuel ei level
          | None => None
          end
      | QMI_DATA_LEN => rest ← qmi_calc_min_msg_len fuel ei' level; Some (data_len_size e + rest)
      | QMI_STRUCT =>
          inner ← match ei_array e with
                  | None => Some 0
                  | Some t => qmi_calc_min_msg_len fuel t (level + 1)
                  end;
          rest ← qmi_calc_min_msg_len fuel ei' level; Some (inner + tlv + rest)
      | QMI_STRING =>
          rest ← qmi_calc_min_msg_len fuel ei' level;
          Some ((if 1 <? level then string_len_size e else 0) + elem_len e * elem_size e + tlv + rest)
      | _ =>
          rest ← qmi_calc_min_msg_len fuel ei' level;
          Some (elem_len e * elem_size e + tlv + rest)
      end
  | _, _ => None
  end.

(** ** Encoding *)

(** The copying loop: [n] elements of [size] bytes. *)
Fixpoint copy_elems (n : nat) (dst : Z) (src : list Z) (soff size : Z) : M unit :=
  match n with
  | O => kret tt
  | S n =>
      let* bs := load src soff size in
      store dst bs ;;; copy_elems n (dst + size) src (soff + size) size
  end.

Definition qmi_encode_basic_elem (dst : Z) (src : list Z) (soff n size : Z) : M Z :=
  copy_elems (Z.to_nat n) dst src soff size ;;; kret (u32 (n * size)).

(** The instances of a structure, with the encoder of its table as [enc] (destination,
    source offset, room); [done] is [encoded_bytes]. *)
Fixpoint encode_struct_loop (enc : Z → Z → Z → M Z) (n : nat) (dst soff size room done : Z) : M Z :=
  match n with
  | O => kret done
  | S n =>
      let* rc := enc dst soff (u32 (room - done)) in
      if rc <? 0 then kret rc
      else encode_struct_loop enc n (dst + rc) (soff + size) size room (done + rc)
  end.

Definition qmi_encode_string_elem (e : qmi_elem_info) (dst : Z) (src : list Z) (soff out_buf_len enc_level : Z)
    : M Z :=
  let* string_len := strlen src soff in
  let string_len_sz := string_len_size e in
  if elem_len e <? string_len then kret (- EINVAL)
  else if enc_level =? 1 then
    if out_buf_len <? string_len + TLV_LEN_SIZE + TLV_TYPE_SIZE then kret (- ETOOSMALL)
    else qmi_encode_basic_elem dst src soff string_len (elem_size e)
  else
    if out_buf_len <? u32 (string_len + string_len_sz) then kret (- ETOOSMALL)
    else
      let* rc := qmi_encode_basic_elem dst (le_encode 4 string_len) 0 1 string_len_sz in
      let* rc' := qmi_encode_basic_elem (dst + rc) src soff string_len (elem_size e) in
      kret (rc + rc').

(** The local variables of [qmi_encode]; pointers are offsets into the buffer. *)
Record enc_vars := mk_enc {
  ev_dst : Z; ev_tlv : Z; ev_tlv_len : Z; ev_data_len : Z; ev_bytes : Z;
}.

(** [UPDATE_ENCODE_VARIABLES], then [QMI_ENCDEC_ENCODE_TLV] when the TLV is complete. *)
Definition end_elem (level : Z) (type : Z) (encode_tlv : bool) (rc : Z) (v : enc_vars) : M enc_vars :=
  let v := mk_enc (ev_dst v + rc) (ev_tlv v) (u32 (ev_tlv_len v + rc)) (ev_data_len v) (u32 (ev_bytes v + rc)) in
  if encode_tlv && (level =? 1) then
    store (ev_tlv v) [u8 type; Z.land (ev_tlv_len v) 0xFF; Z.land (Z.shiftr (ev_tlv_len v) 8) 0xFF] ;;;
    kret (mk_enc (ev_dst v + TLV_LEN_SIZE + TLV_TYPE_SIZE) (ev_dst v) 0 (ev_data_len v)
            (u32 (ev_bytes v + TLV_TYPE_SIZE + TLV_LEN_SIZE)))
  else kret v.

(** The number of instances of an element, or an error. *)
Definition encode_count (e : qmi_elem_info) (data_len : Z) : option Z :=
  match array_type e with
  | NO_ARRAY => Some 1
  | STATIC_ARRAY => Some (elem_len e)
  | VAR_LEN_ARRAY => if (data_len <=? 0) || (elem_len e <? data_len) then None else Some data_len
  end.

Definition set_data_len (n : Z) (v : enc_vars) : enc_vars :=
  mk_enc (ev_dst v) (ev_tlv v) (ev_tlv_len v) n (ev_bytes v).

(** The main loop; [ei] is [temp_ei], [base] the start of the C structure in [src]. *)
Fixpoint encode_loop (fuel : nat) (ei : list qmi_elem_info) (src : list Z) (base out_buf_len level : Z)
    (v : enc_vars) : M Z :=
  match fuel with
  | O => kfail Hang
  | S fuel =>
      let* e := deref ei in
      let next := tail ei in
      if bool_decide (data_type e = QMI_EOTI) then kret (ev_bytes v)
      else
        let buf_src := base + offset e in
        match encode_count e (ev_data_len v) with
        | None => kret (- EINVAL)
        | Some n =>
            let v := set_data_len n v in
            let continue ei v := encode_loop fuel ei src base out_buf_len level v in
            let skip ei k := match skip_to_next_elem ei level with Some ei => k ei | None => kfail Undef end in
            match data_type e with
            | QMI_OPT_FLAG =>
                let* bs := load src buf_src 1 in
                if le_decode bs =? 0 then skip ei (λ ei, continue ei v) else continue next v
            | QMI_DATA_LEN =>
                let* bs := load src buf_src (elem_size e) in
                let data_len := low_bytes bs (ev_data_len v) in
                let v := set_data_len data_len v in
                let sz := data_len_size e in
                if out_buf_len <? u32 (sz + ev_bytes v) + TLV_LEN_SIZE + TLV_TYPE_SIZE then kret (- ETOOSMALL)
                else
                  let* rc := qmi_encode_basic_elem (ev_dst v) (le_encode 4 data_len) 0 1 sz in
                  let* v := end_elem level (tlv_type e) (data_len =? 0) rc v in
                  if data_len =? 0 then skip next (λ ei, continue ei v) else continue next v
            | QMI_STRUCT =>
                let* rc := encode_struct_loop
                  (λ dst soff room,
                     match ei_array e with
                     | None => kret 0
                     | Some t => encode_loop fuel t src soff room (level + 1) (mk_enc dst dst 0 0 0)
                     end)
                  (Z.to_nat n) (ev_dst v) buf_src (elem_size e) (u32 (out_buf_len - ev_bytes v)) 0 in
                if rc <? 0 then kret rc
                else let* v := end_elem level (tlv_type e) true rc v in continue next v
            | QMI_STRING =>
                let* rc := qmi_encode_string_elem e (ev_dst v) src buf_src (u32 (out_buf_len - ev_bytes v)) level in
                if rc <? 0 then kret rc
                else let* v := end_elem level (tlv_type e) true rc v in continue next v
            | _ =>
                if out_buf_len <? u32 (n * elem_size e + ev_bytes v) + TLV_LEN_SIZE + TLV_TYPE_SIZE
                then kret (- ETOOSMALL)
                else
                  let* rc := qmi_encode_basic_elem (ev_dst v) src buf_src n (elem_size e) in
                  let* v := end_elem level (tlv_type e) true rc v in continue next v
            end
        end
  end.

(** At level 1 the first TLV header is left room for. *)
Definition qmi_encode (fuel : nat) (ei : option (list qmi_elem_info)) (dst : Z) (src : list Z)
    (base out_buf_len level : Z) : M Z :=
  match ei with
  | None => kret 0
  | Some t =>
      let start := if level =? 1 then dst + TLV_LEN_SIZE + TLV_TYPE_SIZE else dst in
      encode_loop fuel t src base out_buf_len level (mk_enc start dst 0 0 0)
  end.

(** ** Decoding *)

Definition qmi_decode_basic_elem (dst : Z) (src : list Z) (soff n size src_len : Z) : M Z :=
  if src_len <? u32 (n * size) then kret (- EINVAL)
  else copy_elems (Z.to_nat n) dst src soff size ;;; kret (u32 (n * size)).

(** One element of [size] bytes decoded into a u32 variable: the new value, or an error. *)
Definition decode_var (old : Z) (src : list Z) (soff size src_len : Z) : M (Z + Z) :=
  if src_len <? u32 size then kret (inl (- EINVAL))
  else let* bs := load src soff size in kret (inr (low_bytes bs old)).

(** The instances of a structure, with the decoder of its table as [dec] (destination,
    source offset, length); ends with the error, or with the number of instances
    left over and [decoded_bytes]. *)
Fixpoint decode_struct_loop (dec : Z → Z → Z → M Z) (n : nat) (dst soff size tlv_len done : Z)
    : M (Z + nat * Z) :=
  match n with
  | O => kret (inr (O, done))
  | S n' =>
      if tlv_len <=? done then kret (inr (n, done))
      else
        let* rc := dec dst soff (u32 (tlv_len - done)) in
        if rc <? 0 then kret (inl rc)
        else decode_struct_loop dec n' (dst + size) (soff + rc) size tlv_len (done + rc)
  end.

Definition qmi_decode_struct_elem (dec : Z → Z → Z → M Z) (e : qmi_elem_info)
    (dst soff n tlv_len dec_level src_len : Z) : M Z :=
  if src_len <? tlv_len then kret (- EINVAL)
  else
    let* r := decode_struct_loop dec (Z.to_nat n) dst soff (elem_size e) tlv_len 0 in
    match r with
    | inl rc => kret rc
    | inr (remaining, decoded_bytes) =>
        if ((dec_level <=? 2) && negb (decoded_bytes =? tlv_len)) ||
           ((2 <? dec_level) && (negb (remaining =? 0)%nat || (tlv_len <? decoded_bytes)))
        then kret (- EFAULT) else kret decoded_bytes
    end.

Definition qmi_decode_string_elem (e : qmi_elem_info) (dst : Z) (src : list Z)
    (soff tlv_len dec_level src_len : Z) : M Z :=
  let* r := (if dec_level =? 1 then kret (inr (tlv_len, 0))
             else
               let sz := string_len_size e in
               let* r := decode_var 0 src soff sz src_len in
               kret (match r with inl e => inl e | inr n => inr (n, sz) end)) in
  match r with
  | inl err => kret err
  | inr (string_len, decoded_bytes) =>
      if elem_len e <=? string_len then kret (- ETOOSMALL)
      else if tlv_len <? string_len then kret (- EFAULT)
      else
        let* rc := qmi_decode_basic_elem dst src (soff + decoded_bytes) string_len (elem_size e)
                     (u32 (src_len - decoded_bytes)) in
        if rc <? 0 then kret rc
        else store (dst + string_len) [0] ;;; kret (decoded_bytes + rc)
  end.

(** A presence flag is set in the structure and passed over. *)
Definition decode_opt_flag (base : Z) (ei : list qmi_elem_info) : M (list qmi_elem_info) :=
  let* e := deref ei in
  if bool_decide (data_type e = QMI_OPT_FLAG)
  then store (base + offset e) [1] ;;; kret (tail ei) else kret ei.

(** A length is decoded over [data_len_value], stored as a u32 and passed over. *)
Definition decode_data_len (base : Z) (src : list Z) (soff in_buf_len : Z) (ei : list qmi_elem_info)
    (data_len tlv_len decoded : Z) : M (Z + list qmi_elem_info * Z * Z * Z) :=
  let* e := deref ei in
  if bool_decide (data_type e = QMI_DATA_LEN) then
    let sz := data_len_size e in
    let* r := decode_var data_len src (soff + decoded) sz (u32 (in_buf_len - decoded)) in
    match r with
    | inl err => kret (inl err)
    | inr n =>
        store (base + offset e) (le_encode 4 n) ;;;
        kret (inr (tail ei, n, u32 (tlv_len - sz), u32 (decoded + sz)))
    end
  else kret (inr (ei, data_len, tlv_len, decoded)).

Definition decode_count (e : qmi_elem_info) (data_len : Z) : option Z :=
  match array_type e with
  | NO_ARRAY => Some 1
  | STATIC_ARRAY => Some (elem_len e)
  | VAR_LEN_ARRAY => if elem_len e <? data_len then None else Some data_len
  end.

(** The [switch] on the type; [dec] decodes a nested table (table, destination,
    source offset, length). *)
Definition decode_value (dec : list qmi_elem_info → Z → Z → Z → M Z) (e : qmi_elem_info) (dst : Z)
    (src : list Z) (soff n tlv_len level room : Z) : M Z :=
  match data_type e with
  | QMI_STRUCT =>
      qmi_decode_struct_elem (dec (default [] (ei_array e))) e dst soff n tlv_len (level + 1) room
  | QMI_STRING => qmi_decode_string_elem e dst src soff tlv_len level room
  | t =>
      if basic_type t then qmi_decode_basic_elem dst src soff n (elem_size e) room
      else kret (- EINVAL)
  end.

(** The body of the loop once [temp_ei], [tlv_len] and [decoded_bytes] are known;
    [next] is the rest of the loop (table position, [data_len_value], [decoded_bytes]). *)
Definition decode_element (dec : list qmi_elem_info → Z → Z → Z → M Z)
    (next : list qmi_elem_info → Z → Z → M Z) (base : Z) (src : list Z) (soff in_buf_len level : Z)
    (ei : list qmi_elem_info) (data_len tlv_len decoded : Z) : M Z :=
  let* ei := decode_opt_flag base ei in
  let* r := decode_data_len base src soff in_buf_len ei data_len tlv_len decoded in
  match r with
  | inl err => kret err
  | inr (ei, data_len, tlv_len, decoded) =>
      let* e := deref ei in
      match decode_count e data_len with
      | None => kret (- ETOOSMALL)
      | Some n =>
          let* rc := decode_value dec e (base + offset e) src (soff + decoded) n tlv_len level
                       (u32 (in_buf_len - decoded)) in
          if rc <? 0 then kret rc else next (tail ei) n (u32 (decoded + rc))
      end
  end.

(** The main loop.  [tbl] is the table and [ei] is [temp_ei]; the C structure starts
    at [base]; [buf_src] is always [soff + decoded]; [data_len] and [decoded] are
    [data_len_value] and [decoded_bytes]. *)
Fixpoint decode_loop (fuel : nat) (tbl ei : list qmi_elem_info) (base : Z) (src : list Z)
    (soff in_buf_len level data_len decoded : Z) : M Z :=
  match fuel with
  | O => kfail Hang
  | S fuel =>
      let dec t dst soff len := decode_loop fuel t t dst src soff len (level + 1) 0 0 in
      let next ei data_len decoded :=
        decode_loop fuel tbl ei base src soff in_buf_len level data_len decoded in
      if in_buf_len <=? decoded then kret decoded
      else if level =? 1 then
        if in_buf_len <? decoded + TLV_TYPE_SIZE + TLV_LEN_SIZE then kret (- EINVAL)
        else
          let* hdr := load src (soff + decoded) 3 in
          let type := hdr !!! 0%nat in
          let tlv_len := Z.lor (hdr !!! 1%nat) (Z.shiftl (hdr !!! 2%nat) 8) in
          let decoded := u32 (decoded + TLV_TYPE_SIZE + TLV_LEN_SIZE) in
          match find_ei tbl type with
          | None => kfail Undef
          | Some None =>
              if type <? OPTIONAL_TLV_TYPE_START then kret (- EINVAL)
              else next [] data_len (u32 (decoded + tlv_len))
          | Some (Some ei) =>
              decode_element dec next base src soff in_buf_len level ei data_len tlv_len decoded
          end
      else
        let* e := deref ei in
        if bool_decide (data_type e = QMI_EOTI) then kret decoded
        else
          decode_element dec next base src soff in_buf_len level ei data_len
            (u32 (in_buf_len - decoded)) decoded
  end.

Definition qmi_decode (fuel : nat) (ei : list qmi_elem_info) (base : Z) (src : list Z)
    (soff in_buf_len level : Z) : M Z :=
  decode_loop fuel ei ei base src soff in_buf_len level 0 0.

(** ** Messages *)

Definition QMI_HEADER_SIZE : Z := 7.

(** [struct qmi_header], packed. *)
Definition header_bytes (type txn_id msg_id msg_len : Z) : list Z :=
  [u8 type] ++ le_encode 2 txn_id ++ le_encode 2 msg_id ++ le_encode 2 msg_len.

(** The buffer is [kzalloc]ed; [alloc] is whether that succeeds.  The result is an
    error or the buffer with its new length. *)
Definition qmi_encode_message (alloc : bool) (fuel : nat) (type msg_id len txn_id : Z)
    (ei : option (list qmi_elem_info)) (c_struct : option (list Z)) : outcome (Z + list Z * Z) :=
  let min_len := match c_struct, ei with
                 | None, Some t => qmi_calc_min_msg_len fuel t 1
                 | _, _ => Some 0
                 end in
  match min_len with
  | None => Undef
  | Some n =>
  if negb (n =? 0) then Done (inl (- EINVAL))
  else if negb alloc then Done (inl (- ENOMEM))
  else
    let msg := replicate (Z.to_nat (QMI_HEADER_SIZE + len)) 0 in
    let body := match c_struct with
                | Some s => qmi_encode fuel ei QMI_HEADER_SIZE s 0 len 1
                | None => kret 0
                end in
    fst ((let* msglen := body in
          if msglen <? 0 then kret (inl msglen)
          else
            store 0 (header_bytes type txn_id msg_id msglen) ;;;
            let* msg := kget in
            kret (inr (msg, QMI_HEADER_SIZE + msglen))) msg)
  end.

(** The C structure is the state; NULL pointers are [None]. *)
Definition qmi_decode_message (fuel : nat) (buf : option (list Z)) (len : Z)
    (ei : option (list qmi_elem_info)) (c_struct_null : bool) : M Z :=
  match ei, buf with
  | Some t, Some b =>
      if c_struct_null || (len =? 0) then kret (- EINVAL)
      else qmi_decode fuel t 0 b QMI_HEADER_SIZE (u32 (len - QMI_HEADER_SIZE)) 1
  | _, _ => kret (- EINVAL)
  end.

Definition QMI_COMMON_TLV_TYPE : Z := 0.
Definition qmi_response_type_v01_ei : list qmi_elem_info :=
  [ mk_ei QMI_SIGNED_2_BYTE_ENUM 1 2 NO_ARRAY QMI_COMMON_TLV_TYPE 0 None;
    mk_ei QMI_SIGNED_2_BYTE_ENUM 1 2 NO_ARRAY QMI_COMMON_TLV_TYPE 2 None;
    mk_ei QMI_EOTI 0 0 NO_ARRAY QMI_COMMON_TLV_TYPE 0 None ].

(** ** Examples *)

(** One mandatory u32, an optional string, an array of at most 300 u16 with its length,
    and a nested structure with a string. *)
Definition demo_inner : list qmi_elem_info :=
  [ mk_ei QMI_UNSIGNED_1_BYTE 1 1 NO_ARRAY 0 0 None;
    mk_ei QMI_STRING 8 1 NO_ARRAY 0 1 None;
    mk_ei QMI_EOTI 0 0 NO_ARRAY 0 0 None ].
Definition demo_tbl : list qmi_elem_info :=
  [ mk_ei QMI_UNSIGNED_4_BYTE 1 4 NO_ARRAY 1 0 None;
    mk_ei QMI_OPT_FLAG 1 1 NO_ARRAY 0x10 4 None;
    mk_ei QMI_STRING 6 1 NO_ARRAY 0x10 5 None;
    mk_ei QMI_DATA_LEN 1 1 NO_ARRAY 2 12 None;
    mk_ei QMI_UNSIGNED_2_BYTE 4 2 VAR_LEN_ARRAY 2 16 None;
    mk_ei QMI_STRUCT 1 9 NO_ARRAY 3 24 (Some demo_inner);
    mk_ei QMI_EOTI 0 0 NO_ARRAY 0 0 None ].
Definition demo_struct : list Z :=
  [1; 2; 3; 4; 1; 65; 66; 0; 0; 0; 0; 0; 2; 0; 0; 0; 7; 0; 8; 0; 0; 0; 0; 0; 9; 67; 68; 0; 0; 0; 0; 0; 0].

Example demo_encode :
  qmi_encode 30 (Some demo_tbl) 0 demo_struct 0 64 1 (replicate 64 0) =
  (Done 27, [1; 4; 0; 1; 2; 3; 4; 0x10; 2; 0; 65; 66; 2; 5; 0; 2; 7; 0; 8; 0; 3; 4; 0; 9; 2; 67; 68] ++ replicate 37 0).
Proof. vm_compute. reflexivity. Qed.

(** Decoding gives the structure back (the array keeps its unused slots). *)
Example demo_decode :
  qmi_decode 60 demo_tbl 0
    [1; 4; 0; 1; 2; 3; 4; 0x10; 2; 0; 65; 66; 2; 5; 0; 2; 7; 0; 8; 0; 3; 4; 0; 9; 2; 67; 68] 0 27 1
    (replicate 33 0) = (Done 27, demo_struct).
Proof. vm_compute. reflexivity. Qed.

(** The length check of a string inside a structure leaves out the three bytes of
    the TLV header: with a buffer of seven bytes the encoder writes past its end. *)
Example nested_string_overflow :
  (qmi_encode 10 (Some [mk_ei QMI_STRUCT 1 8 NO_ARRAY 1 0 (Some
      [mk_ei QMI_STRING 8 1 NO_ARRAY 0 0 None; mk_ei QMI_EOTI 0 0 NO_ARRAY 0 0 None]);
      mk_ei QMI_EOTI 0 0 NO_ARRAY 0 0 None])
    0 [65; 66; 67; 68; 69; 70; 0; 0] 0 7 1 (replicate 7 0)).1 = Undef.
Proof. vm_compute. reflexivity. Qed.

(** A length of one byte is decoded over the low byte of the previous length: after an
    array of 256 elements an array of one element is taken for one of 257. *)
Definition stale_tbl : list qmi_elem_info :=
  [ mk_ei QMI_DATA_LEN 1 2 NO_ARRAY 1 0 None;
    mk_ei QMI_UNSIGNED_1_BYTE 256 1 VAR_LEN_ARRAY 1 4 None;
    mk_ei QMI_DATA_LEN 1 1 NO_ARRAY 2 260 None;
    mk_ei QMI_UNSIGNED_1_BYTE 4 1 VAR_LEN_ARRAY 2 264 None;
    mk_ei QMI_EOTI 0 0 NO_ARRAY 0 0 None ].
Example stale_data_len :
  (qmi_decode 600 stale_tbl 0 ([1; 2; 1; 0; 1] ++ replicate 256 9 ++ [2; 2; 0; 1; 5]) 0 266 1
     (replicate 268 0)).1 = Done (- ETOOSMALL).
Proof. vm_compute. reflexivity. Qed.

(** The encoder accepts a string as long as its field, the decoder refuses it. *)
Example full_string_not_decoded :
  let tbl := [mk_ei QMI_STRING 3 1 NO_ARRAY 1 0 None; mk_ei QMI_EOTI 0 0 NO_ARRAY 0 0 None] in
  qmi_encode 5 (Some tbl) 0 [65; 66; 67; 0] 0 6 1 (replicate 6 0) = (Done 6, [1; 3; 0; 65; 66; 67]) ∧
  (qmi_decode 20 tbl 0 [1; 3; 0; 65; 66; 67] 0 6 1 (replicate 4 0)).1 = Done (- ETOOSMALL).
Proof. vm_compute. split; reflexivity. Qed.
