(* ===== verification/QmiSafe.v ===== *)
(** * Memory safety of the QMI decoder

    Whatever bytes arrive, decoding them with a well-formed table reads only inside
    the message and writes only inside the C structure, and ends. *)

From S2P Require Import Prelude Memory QmiEncDec.

(** ** A small program logic for code on a byte buffer *)

(** On a buffer of length [L] the code ends normally, having changed only that
    region, with a result that satisfies [P]. *)
Definition safe {A} (dst size L : Z) (P : A → Prop) (c : M A) : Prop :=
  ∀ m, Z.of_nat (length m) = L → ∃ a m', c m = (Done a, m') ∧ within dst size m m' ∧ P a.

Section logic.
Context (dst size L : Z).

Lemma safe_ret {A} (P : A → Prop) a : P a → safe dst size L P (kret a).
Proof. intros Ha m Hm. by exists a, m. Qed.

Lemma safe_bind {A B} (P : A → Prop) (Q : B → Prop) (c : M A) (k : A → M B) :
  safe dst size L P c → (∀ a, P a → safe dst size L Q (k a)) → safe dst size L Q (kbind c k).
Proof.
  intros Hc Hk m Hm. destruct (Hc m Hm) as (a & m1 & Hr & Hw & Ha).
  destruct (Hk a Ha m1 ltac:(destruct Hw as [-> _]; done)) as (b & m2 & Hr2 & Hw2 & Hb).
  exists b, m2. rewrite (kbind_Done _ _ _ _ _ Hr). eauto using within_trans.
Qed.

Lemma safe_weaken {A} dst' size' (P Q : A → Prop) c :
  safe dst' size' L P c → dst ≤ dst' → dst' + size' ≤ dst + size → (∀ a, P a → Q a) → safe dst size L Q c.
Proof.
  intros Hc H1 H2 HPQ m Hm. destruct (Hc m Hm) as (a & m' & Hr & [Hl Hw] & Ha).
  exists a, m'. split; [done|]. split; [|by apply HPQ]. split; [done|]. intros i Hi. apply Hw. lia.
Qed.

Lemma safe_load (src : list Z) off n :
  0 ≤ off → 0 ≤ n → off + n ≤ Z.of_nat (length src) →
  safe dst size L (λ bs, Z.of_nat (length bs) = n ∧ ∀ x, x ∈ bs → x ∈ src) (load src off n).
Proof.
  intros H1 H2 H3 m Hm. unfold load, subrange. rewrite bool_decide_true by done.
  eexists _, m. split; [done|]. split; [done|]. split.
  - rewrite length_take, length_drop. lia.
  - intros x [i Hi]%list_elem_of_lookup. apply lookup_take_Some in Hi as [Hi _].
    rewrite lookup_drop in Hi. by eapply list_elem_of_lookup_2.
Qed.

Lemma safe_store off bs :
  0 ≤ off → off + Z.of_nat (length bs) ≤ L → dst ≤ off → off + Z.of_nat (length bs) ≤ dst + size →
  safe dst size L (λ _, True) (store off bs).
Proof.
  intros H1 H2 H3 H4 m Hm. unfold store. rewrite bool_decide_true by lia. fold (put off bs m).
  eexists _, _. split; [done|]. split; [|done]. eapply within_mono; [apply put_within; unfold zlen; lia|unfold zlen; lia..].
Qed.
End logic.

Create HintDb qmi.
#[export] Hint Resolve safe_ret safe_load safe_store : qmi.

(** ** Well-formed tables *)

(** The bytes of the structure an element may touch. *)
Definition span (e : qmi_elem_info) : Z :=
  match data_type e with
  | QMI_DATA_LEN => 4
  | QMI_OPT_FLAG => 1
  | QMI_STRING => elem_len e * elem_size e
  | _ => match array_type e with NO_ARRAY => elem_size e | _ => elem_len e * elem_size e end
  end.

Record elem_ok (size : Z) (e : qmi_elem_info) : Prop := {
  eo_off : 0 ≤ offset e;
  eo_len : 0 ≤ elem_len e < 2 ^ 32;
  eo_size : 0 < elem_size e;
  eo_span : 0 ≤ span e < 2 ^ 32;
  eo_fits : offset e + span e ≤ size;
}.

(** A table (or what is left of it) for a structure of [size] bytes. *)
Inductive table_ok : Z → list qmi_elem_info → Prop :=
  | table_end size e l : data_type e = QMI_EOTI → table_ok size (e :: l)
  | table_elem size e l :
      data_type e ≠ QMI_EOTI → data_type e ≠ QMI_STRUCT → elem_ok size e → table_ok size l →
      table_ok size (e :: l)
  | table_struct size e l t :
      data_type e = QMI_STRUCT → ei_array e = Some t → elem_ok size e → table_ok (elem_size e) t →
      table_ok size l → table_ok size (e :: l).

(** Number of elements of a table, nested tables included. *)
Fixpoint esize (e : qmi_elem_info) : nat :=
  match e with
  | mk_ei _ _ _ _ _ _ None => 1
  | mk_ei _ _ _ _ _ _ (Some t) => S (sum_list_with esize t)
  end.
Definition tsize (t : list qmi_elem_info) : nat := sum_list_with esize t.

Lemma esize_pos e : (1 ≤ esize e)%nat.
Proof. destruct e as [? ? ? ? ? ? [t|]]; simpl; lia. Qed.

Lemma tsize_nested e t : ei_array e = Some t → (tsize t < esize e)%nat.
Proof. destruct e as [? ? ? ? ? ? [t'|]]; simpl; [|done]. intros [= ->]. unfold tsize. lia. Qed.

Lemma table_ok_cons size ei :
  table_ok size ei → ∃ e l, ei = e :: l ∧
    (data_type e = QMI_EOTI ∨
     data_type e ≠ QMI_EOTI ∧ elem_ok size e ∧ table_ok size l ∧
     (data_type e = QMI_STRUCT → ∃ t, ei_array e = Some t ∧ table_ok (elem_size e) t)).
Proof.
  intros H. destruct H as [size e l He|size e l He Hs Hok Hl|size e l t Hs Ht Hok Htl Hl]; exists e, l.
  - split; [done|by left].
  - split; [done|]. right. split; [done|]. split; [done|]. split; [done|]. by intros ?.
  - split; [done|]. right. split; [congruence|]. split; [done|]. split; [done|]. intros _. by exists t.
Qed.

Lemma find_ei_ok size tbl type :
  table_ok size tbl →
  ∃ r, find_ei tbl type = Some r ∧
    (∀ ei, r = Some ei → table_ok size ei ∧ (tsize ei ≤ tsize tbl)%nat ∧
       ∃ e l, ei = e :: l ∧ data_type e ≠ QMI_EOTI).
Proof.
  intros H. assert (table_ok size tbl) as H0 by done.
  induction H as [size e l He|size e l He Hs Hok Hl IH|size e l t Hs Ht Hok Htl _ Hl IH]; simpl.
  - exists None. by rewrite bool_decide_true.
  - rewrite bool_decide_false by done. destruct (_ =? _).
    { exists (Some (e :: l)). split; [done|]. intros ei [= <-]. split; [done|]. split; [done|]. by exists e, l. }
    destruct (IH Hl) as (r & -> & Hr). exists r. split; [done|]. intros ei Hei.
    destruct (Hr ei Hei) as (? & ? & ?). unfold tsize in *. simpl. split; [done|]. split; [lia|done].
  - rewrite bool_decide_false by congruence. destruct (_ =? _).
    { exists (Some (e :: l)). split; [done|]. intros ei [= <-]. split; [done|]. split; [done|].
      exists e, l. split; [done|congruence]. }
    destruct (IH Hl) as (r & -> & Hr). exists r. split; [done|]. intros ei Hei.
    destruct (Hr ei Hei) as (? & ? & ?). unfold tsize in *. simpl. split; [done|]. split; [lia|done].
Qed.

(** ** The routines of the decoder *)

Section decoder.
Context (src : list Z) (L : Z).
Hypothesis Hbytes : Forall (λ b, 0 ≤ b < 256) src.
Hypothesis Hlen : Z.of_nat (length src) < 2 ^ 31.

Lemma copy_elems_safe d0 s0 n dst soff size :
  0 ≤ size → 0 ≤ soff → soff + Z.of_nat n * size ≤ Z.of_nat (length src) →
  0 ≤ dst → d0 ≤ dst → dst + Z.of_nat n * size ≤ L → dst + Z.of_nat n * size ≤ d0 + s0 →
  safe d0 s0 L (λ _, True) (copy_elems n dst src soff size).
Proof.
  revert dst soff. induction n as [|n IH]; intros dst soff H1 H2 H3 H4 H5 H6 H7; simpl; [by apply safe_ret|].
  rewrite Nat2Z.inj_succ, Z.mul_succ_l in *.
  eapply safe_bind; [apply safe_load; nia|]. intros bs [Hbs _].
  eapply safe_bind; [apply safe_store; nia|]. intros _ _. apply IH; nia.
Qed.

(** What a step may answer: an error, or a number of bytes within the room it had. *)
Definition answer (room r : Z) : Prop := r < 0 ∨ 0 ≤ r ≤ room.

Lemma decode_basic_safe d0 s0 dst soff n size src_len :
  0 ≤ n → 0 ≤ size → n * size < 2 ^ 32 → 0 ≤ soff → 0 ≤ src_len → soff + src_len ≤ Z.of_nat (length src) →
  0 ≤ dst → d0 ≤ dst → dst + n * size ≤ L → dst + n * size ≤ d0 + s0 →
  safe d0 s0 L (answer src_len) (qmi_decode_basic_elem dst src soff n size src_len).
Proof.
  intros. unfold qmi_decode_basic_elem. rewrite u32_small by nia.
  destruct (Z.ltb_spec src_len (n * size)) as [|Hle]; [apply safe_ret; by left|].
  eapply safe_bind; [apply copy_elems_safe; rewrite ?Z2Nat.id by lia; lia|].
  intros _ _. apply safe_ret. right. nia.
Qed.

Lemma decode_var_safe d0 s0 old soff size src_len :
  0 ≤ size < 2 ^ 32 → 0 ≤ soff → 0 ≤ src_len → soff + src_len ≤ Z.of_nat (length src) →
  safe d0 s0 L (λ r, match r with inl e => e < 0 | inr n => 0 ≤ n < 2 ^ 32 ∧ size ≤ src_len end)
    (decode_var old src soff size src_len).
Proof.
  intros. unfold decode_var. rewrite u32_small by lia.
  destruct (Z.ltb_spec src_len size) as [|Hle]; [by apply safe_ret|].
  eapply safe_bind; [apply safe_load; lia|]. intros bs _. apply safe_ret. split; [apply u32_range|done].
Qed.

Lemma decode_string_safe d0 s0 e dst soff tlv_len level src_len :
  0 ≤ elem_len e → 0 < elem_size e → elem_len e * elem_size e < 2 ^ 32 →
  0 ≤ tlv_len → 0 ≤ soff → 0 ≤ src_len → soff + src_len ≤ Z.of_nat (length src) →
  0 ≤ dst → d0 ≤ dst → dst + elem_len e * elem_size e ≤ L → dst + elem_len e * elem_size e ≤ d0 + s0 →
  safe d0 s0 L (answer src_len) (qmi_decode_string_elem e dst src soff tlv_len level src_len).
Proof.
  intros. unfold qmi_decode_string_elem.
  eapply (safe_bind _ _ _ (λ r, match r with
    | inl err => err < 0 | inr (n, d) => 0 ≤ n ∧ 0 ≤ d ≤ src_len end)).
  { destruct (level =? 1); [apply safe_ret; lia|].
    assert (0 < string_len_size e < 2 ^ 32) by (unfold string_len_size; destruct (_ <=? _); lia).
    eapply safe_bind; [apply decode_var_safe; lia|]. intros [err|n] Hr; apply safe_ret; [done|lia]. }
  intros [err|[n d]]; [intros; apply safe_ret; by left|]. intros [Hn Hd].
  destruct (Z.leb_spec (elem_len e) n); [apply safe_ret; by left|].
  destruct (Z.ltb_spec tlv_len n); [apply safe_ret; by left|].
  rewrite u32_small by lia.
  eapply safe_bind; [apply decode_basic_safe; nia|]. intros rc Hrc.
  destruct (Z.ltb_spec rc 0); [apply safe_ret; by left|].
  eapply safe_bind; [apply safe_store; simpl; nia|]. intros _ _. apply safe_ret.
  unfold answer in *. lia.
Qed.

(** [dec] decodes one instance of [size] bytes, safely for every place in the buffers. *)
Definition dec_safe (size : Z) (dec : Z → Z → Z → M Z) : Prop :=
  ∀ dst soff len, 0 ≤ dst → dst + size ≤ L → 0 ≤ soff → 0 ≤ len → soff + len ≤ Z.of_nat (length src) →
    safe dst size L (answer len) (dec dst soff len).

Lemma decode_struct_loop_safe d0 s0 dec n dst soff size tlv_len done :
  dec_safe size dec → 0 ≤ size → 0 ≤ soff → 0 ≤ done ≤ tlv_len →
  soff + (tlv_len - done) ≤ Z.of_nat (length src) →
  0 ≤ dst → d0 ≤ dst → dst + Z.of_nat n * size ≤ L → dst + Z.of_nat n * size ≤ d0 + s0 →
  safe d0 s0 L (λ r, match r with inl e => e < 0 | inr (_, d) => 0 ≤ d ≤ tlv_len end)
    (decode_struct_loop dec n dst soff size tlv_len done).
Proof.
  intros Hdec Hsize. revert dst soff done.
  induction n as [|n IH]; intros dst soff done H1 H2 H3 H4 H5 H6 H7; simpl; [by apply safe_ret|].
  rewrite Nat2Z.inj_succ, Z.mul_succ_l in *.
  destruct (Z.leb_spec tlv_len done); [apply safe_ret; lia|]. rewrite u32_small by lia.
  eapply safe_bind.
  { eapply safe_weaken; [apply Hdec; nia|lia|nia|]. intros rc Hrc. exact Hrc. }
  intros rc Hrc. unfold answer in Hrc. destruct (Z.ltb_spec rc 0); [by apply safe_ret|].
  apply IH; nia.
Qed.

Lemma decode_struct_safe d0 s0 dec e dst soff n tlv_len level src_len :
  dec_safe (elem_size e) dec → 0 ≤ n → 0 ≤ elem_size e → 0 ≤ tlv_len →
  0 ≤ soff → 0 ≤ src_len → soff + src_len ≤ Z.of_nat (length src) →
  0 ≤ dst → d0 ≤ dst → dst + n * elem_size e ≤ L → dst + n * elem_size e ≤ d0 + s0 →
  safe d0 s0 L (answer src_len) (qmi_decode_struct_elem dec e dst soff n tlv_len level src_len).
Proof.
  intros. unfold qmi_decode_struct_elem.
  destruct (Z.ltb_spec src_len tlv_len); [apply safe_ret; by left|].
  eapply safe_bind; [apply decode_struct_loop_safe; rewrite ?Z2Nat.id by lia; (done || lia)|].
  intros [err|[k d]]; intros Hr; [apply safe_ret; by left|].
  destruct (_ || _); apply safe_ret; [by left|right; lia].
Qed.

(** *** One element *)

Lemma safe_deref d0 s0 e l : safe d0 s0 L (λ x, x = e) (deref (e :: l)).
Proof. by apply safe_ret. Qed.

(** Tables position after a flag or a length: still in the table, not longer. *)
Definition rest_of (size : Z) (ei ei' : list qmi_elem_info) : Prop :=
  table_ok size ei' ∧ (tsize ei' ≤ tsize ei)%nat.

Lemma tsize_cons e l : tsize (e :: l) = (esize e + tsize l)%nat.
Proof. done. Qed.

Section element.
Context (base size : Z) (Hbase : 0 ≤ base) (Hregion : base + size ≤ L).

Lemma decode_opt_flag_safe ei :
  table_ok size ei → safe base size L (rest_of size ei) (decode_opt_flag base ei).
Proof.
  intros H. apply table_ok_cons in H as Hc. destruct Hc as (e & l & -> & Hcase). unfold decode_opt_flag.
  eapply safe_bind; [apply safe_deref|]. intros x ->. case_bool_decide as Hf; [|by apply safe_ret].
  destruct Hcase as [He|(_ & [Ho _ _ _ Hfit] & Hl & _)]; [congruence|].
  unfold span in Hfit. rewrite Hf in Hfit.
  eapply safe_bind; [apply safe_store; simpl; lia|]. intros _ _. apply safe_ret.
  split; [done|]. rewrite tsize_cons. simpl. lia.
Qed.

Lemma decode_data_len_safe ei soff len data_len tlv_len decoded :
  table_ok size ei → 0 ≤ soff → 0 ≤ decoded ≤ len → soff + len ≤ Z.of_nat (length src) →
  0 ≤ data_len < 2 ^ 32 → 0 ≤ tlv_len < 2 ^ 32 →
  safe base size L (λ r, match r with
    | inl err => err < 0
    | inr (ei', n, tlv_len', decoded') =>
        rest_of size ei ei' ∧ 0 ≤ n < 2 ^ 32 ∧ 0 ≤ tlv_len' < 2 ^ 32 ∧ decoded ≤ decoded' ≤ len
    end) (decode_data_len base src soff len ei data_len tlv_len decoded).
Proof.
  intros H Hs Hd Hsrc Hn Ht. apply table_ok_cons in H as Hc. destruct Hc as (e & l & -> & Hcase).
  unfold decode_data_len. eapply safe_bind; [apply safe_deref|]. intros x ->.
  case_bool_decide as Hf; [|apply safe_ret; split; [done|lia]].
  destruct Hcase as [He|(_ & [Ho _ _ _ Hfit] & Hl & _)]; [congruence|].
  unfold span in Hfit. rewrite Hf in Hfit. rewrite u32_small by lia.
  assert (0 < data_len_size e < 2 ^ 32) by (unfold data_len_size; destruct (_ =? _); lia).
  eapply safe_bind; [apply decode_var_safe; lia|]. intros [err|n]; [intros; by apply safe_ret|].
  intros [Hn' Hroom]. eapply safe_bind; [apply safe_store; rewrite ?length_le_encode; lia|].
  intros _ _. apply safe_ret. rewrite (u32_small (decoded + _)) by lia.
  split; [split; [done|rewrite tsize_cons; simpl; lia]|]. split; [done|]. split; [apply u32_range|lia].
Qed.

Lemma decode_count_span e data_len n :
  elem_ok size e → 0 ≤ data_len → decode_count e data_len = Some n →
  (data_type e = QMI_STRUCT ∨ basic_type (data_type e) = true) →
  0 ≤ n ∧ n * elem_size e ≤ span e.
Proof.
  intros [_ Hl Hs Hsp _] Hd Hc Ht. unfold decode_count in Hc.
  assert (span e = match array_type e with NO_ARRAY => elem_size e | _ => elem_len e * elem_size e end) as ->.
  { unfold span. by destruct Ht as [->|Ht]; [|destruct (data_type e)]. }
  destruct (array_type e); simplify_eq; [lia|lia|].
  destruct (Z.ltb_spec (elem_len e) data_len); simplify_eq. nia.
Qed.

(** The nested decoder is safe for the nested table of [e]. *)
Definition nested_safe (dec : list qmi_elem_info → Z → Z → Z → M Z) (e : qmi_elem_info) : Prop :=
  ∀ t, ei_array e = Some t → table_ok (elem_size e) t → dec_safe (elem_size e) (dec t).

Lemma decode_value_safe dec e soff data_len n tlv_len level room :
  elem_ok size e → (data_type e = QMI_STRUCT → ∃ t, ei_array e = Some t ∧ table_ok (elem_size e) t) →
  nested_safe dec e → 0 ≤ data_len → decode_count e data_len = Some n → 0 ≤ tlv_len →
  0 ≤ soff → 0 ≤ room → soff + room ≤ Z.of_nat (length src) →
  safe base size L (answer room) (decode_value dec e (base + offset e) src soff n tlv_len level room).
Proof.
  intros Hok Hst Hdec Hd Hc Ht Hs Hr Hsrc. unfold decode_value.
  pose proof (decode_count_span e data_len n Hok Hd Hc) as Hspan. pose proof Hok as [Ho Hl Hz Hsp Hfit].
  destruct (data_type e) eqn:Ety; simpl; try (by apply safe_ret; left);
    try (destruct Hspan as [? ?]; [by right|]; apply decode_basic_safe; lia).
  - destruct Hspan as [? ?]; [by left|]. destruct (Hst eq_refl) as (t & Het & Htok). rewrite Het. simpl.
    apply decode_struct_safe; try lia. by apply Hdec.
  - assert (span e = elem_len e * elem_size e) as Hse by (unfold span; by rewrite Ety).
    apply decode_string_safe; lia.
Qed.

Lemma decode_element_safe dec next ei soff len level data_len tlv_len decoded (Q : Z → Prop) :
  table_ok size ei → (∀ r, r < 0 → Q r) →
  0 ≤ soff → 0 ≤ decoded ≤ len → soff + len ≤ Z.of_nat (length src) →
  0 ≤ data_len < 2 ^ 32 → 0 ≤ tlv_len < 2 ^ 32 →
  (∀ e, (esize e ≤ tsize ei)%nat → nested_safe dec e) →
  (∀ ei' n decoded', table_ok size ei' → (tsize ei' < tsize ei)%nat → 0 ≤ n < 2 ^ 32 →
     decoded ≤ decoded' ≤ len → safe base size L Q (next ei' n decoded')) →
  safe base size L Q (decode_element dec next base src soff len level ei data_len tlv_len decoded).
Proof.
  intros H HQ Hs Hd Hsrc Hn Ht Hdec Hnext. unfold decode_element.
  eapply safe_bind; [by apply decode_opt_flag_safe|]. intros ei1 [H1 Hsz1].
  eapply safe_bind; [by apply decode_data_len_safe|].
  intros [err|[[[ei2 n2] tlv2] d2]]; [intros; apply safe_ret; by apply HQ|].
  intros ([H2 Hsz2] & Hn2 & Ht2 & Hd2).
  apply table_ok_cons in H2 as (e & l & -> & Hcase). rewrite tsize_cons in Hsz2.
  eapply safe_bind; [apply safe_deref|]. intros x ->.
  destruct (decode_count e n2) as [n|] eqn:Ec; [|apply safe_ret; by apply HQ].
  rewrite u32_small by lia.
  eapply (safe_bind _ _ _ (λ r, answer (len - d2) r ∧ (data_type e = QMI_EOTI → r < 0))).
  { destruct Hcase as [He|(Hne & Hok & Hl & Hst)].
    - unfold decode_value. rewrite He. simpl. apply safe_ret. split; [by left|done].
    - eapply safe_weaken; [eapply (decode_value_safe dec e _ n2)|..]; try done; try lia.
      apply Hdec. lia. }
  intros rc [Hrc Heoti]. destruct (Z.ltb_spec rc 0); [apply safe_ret; by apply HQ|].
  destruct Hrc as [|Hrc]; [lia|]. rewrite u32_small by lia. pose proof (esize_pos e).
  destruct Hcase as [He|(_ & [_ Hl _ _ _] & Htl & _)]; [specialize (Heoti He); lia|].
  apply Hnext; [done|simpl; lia| |lia]. unfold decode_count in Ec.
  destruct (array_type e); simplify_eq; [lia|lia|]. destruct (elem_len e <? n2); by simplify_eq.
Qed.
End element.

(** *** The loop *)

Definition fuel_needed (level len decoded : Z) (tbl ei : list qmi_elem_info) : Z :=
  if level =? 1 then Z.max 0 (len - decoded) + Z.of_nat (tsize tbl) else Z.of_nat (tsize ei).

(** The largest answer: at level 1 an unknown TLV may reach past the end. *)
Definition max_answer (level len : Z) : Z := if level =? 1 then len + 65535 else len.

Lemma header_len hdr :
  Z.of_nat (length hdr) = 3 → (∀ x, x ∈ hdr → x ∈ src) →
  0 ≤ Z.lor (hdr !!! 1%nat) (Z.shiftl (hdr !!! 2%nat) 8) ≤ 65535.
Proof.
  intros Hl Hin. destruct hdr as [|a [|b [|c [|]]]]; simpl in Hl; try lia. cbn.
  rewrite list.Forall_forall in Hbytes.
  pose proof (Hbytes b (Hin b ltac:(set_solver))). pose proof (Hbytes c (Hin c ltac:(set_solver))).
  rewrite lor_bytes by lia. lia.
Qed.

Lemma decode_loop_safe fuel tbl ei base size soff len level data_len decoded :
  table_ok size tbl → 1 ≤ level → (level ≠ 1 → table_ok size ei) → 0 ≤ base → base + size ≤ L →
  0 ≤ soff → 0 ≤ len → soff + len ≤ Z.of_nat (length src) → 0 ≤ data_len < 2 ^ 32 →
  0 ≤ decoded ≤ max_answer level len → fuel_needed level len decoded tbl ei < Z.of_nat fuel →
  safe base size L (answer (max_answer level len))
    (decode_loop fuel tbl ei base src soff len level data_len decoded).
Proof.
  revert tbl ei base size soff len level data_len decoded.
  induction fuel as [|fuel IH];
    intros tbl ei base size soff len level data_len decoded Htbl Hlev Hei Hb HL Hs Hl Hsrc Hn Hd Hfuel.
  { exfalso. unfold fuel_needed in Hfuel. destruct (level =? 1); lia. }
  cbn [decode_loop]. destruct (Z.leb_spec len decoded) as [|Hlt]; [apply safe_ret; by right|].
  assert (∀ e, (esize e ≤ fuel)%nat → nested_safe (λ t dst soff len,
    decode_loop fuel t t dst src soff len (level + 1) 0 0) e) as Hnested.
  { intros e He t Het Ht dst' soff' len' H1 H2 H3 H4 H5. pose proof (tsize_nested e t Het).
    assert ((level + 1 =? 1) = false) as Hlv by lia.
    assert (max_answer (level + 1) len' = len') as Hma by (unfold max_answer; by rewrite Hlv).
    rewrite <- Hma at 1. apply IH; rewrite ?Hma; try done; try lia. unfold fuel_needed. rewrite Hlv. lia. }
  destruct (Z.eqb_spec level 1) as [->|Hl1].
  - unfold fuel_needed in Hfuel. simpl in Hfuel. change (TLV_TYPE_SIZE) with 1. change (TLV_LEN_SIZE) with 2.
    change (max_answer 1 len) with (len + 65535) in *.
    destruct (Z.ltb_spec len (decoded + 1 + 2)); [apply safe_ret; by left|].
    eapply safe_bind; [apply safe_load; lia|]. intros hdr [Hhl Hhin].
    pose proof (header_len hdr Hhl Hhin) as Htlv. rewrite (u32_small (decoded + 1 + 2)) by lia.
    destruct (find_ei_ok size tbl (hdr !!! 0%nat) Htbl) as (r & -> & Hr).
    destruct r as [ei'|].
    + destruct (Hr ei' eq_refl) as (Hok & Hsz & _). apply decode_element_safe; try done; try lia.
      * intros r Hr0. by left.
      * intros e He. apply Hnested. lia.
      * intros ei2 n d2 H1 H2 H3 H4. apply IH; try done; try lia;
          unfold fuel_needed, max_answer; simpl; lia.
    + destruct (_ <? _); [apply safe_ret; by left|]. rewrite u32_small by lia.
      apply IH; try done; unfold fuel_needed, max_answer; simpl; lia.
  - assert ((level =? 1) = false) as Hlv by lia.
    unfold fuel_needed in Hfuel. unfold max_answer in *. rewrite Hlv in *.
    specialize (Hei Hl1). apply table_ok_cons in Hei as Hc. destruct Hc as (e & l & -> & _).
    eapply safe_bind; [apply safe_deref|]. intros x ->.
    case_bool_decide; [apply safe_ret; right; lia|]. rewrite u32_small by lia.
    apply decode_element_safe; try done; try lia.
    + intros r Hr0. by left.
    + intros e' He'. apply Hnested. lia.
    + intros ei2 n d2 H1 H2 H3 H4. replace len with (max_answer level len) at 1 by (unfold max_answer; by rewrite Hlv).
      apply IH; try done; try lia; unfold fuel_needed, max_answer; rewrite Hlv; lia.
Qed.
End decoder.

(** The fuel that suffices for a message of [len] bytes. *)
Definition decode_fuel (tbl : list qmi_elem_info) (len : Z) : nat := S (Z.to_nat len + tsize tbl).

(** C25: the decoder is memory safe and terminates.  For every message (any bytes, up to
    2 GiB) and every well-formed table, [qmi_decode] at the top level ends within
    the given fuel, never reads outside the message nor writes outside the C
    structure (here the [size] bytes at [base]), and answers a negative error or a
    byte count that exceeds the message length by at most 65535. *)
Theorem qmi_decode_safe tbl size base src soff len m :
  Forall (λ b, 0 ≤ b < 256) src → Z.of_nat (length src) < 2 ^ 31 → table_ok size tbl →
  0 ≤ base → base + size ≤ Z.of_nat (length m) → 0 ≤ soff → 0 ≤ len → soff + len ≤ Z.of_nat (length src) →
  ∃ r m', qmi_decode (decode_fuel tbl len) tbl base src soff len 1 m = (Done r, m') ∧
    within base size m m' ∧ (r < 0 ∨ 0 ≤ r ≤ len + 65535).
Proof.
  intros Hb Hsl Htbl H1 H2 H3 H4 H5.
  destruct (decode_loop_safe src (Z.of_nat (length m)) Hb Hsl (decode_fuel tbl len) tbl tbl base size soff len 1 0 0)
    with (m := m) as (r & m' & Hrun & Hw & Ha); try done; try lia.
  - unfold max_answer. simpl. lia.
  - unfold fuel_needed, decode_fuel. simpl. lia.
  - by exists r, m'.
Qed.

Lemma demo_tbl_ok : table_ok 33 demo_tbl.
Proof.
  unfold demo_tbl, demo_inner.
  repeat first
    [ apply table_end; reflexivity
    | eapply table_struct; [reflexivity|reflexivity|split; vm_compute; try split; congruence| |]
    | apply table_elem; [discriminate|discriminate|split; vm_compute; try split; congruence|] ].
Qed.

Lemma qmi_decode_safe_witness :
  ∃ r m', qmi_decode (decode_fuel demo_tbl 27) demo_tbl 0
    [1; 4; 0; 1; 2; 3; 4; 0x10; 2; 0; 65; 66; 2; 5; 0; 2; 7; 0; 8; 0; 3; 4; 0; 9; 2; 67; 68] 0 27 1
    (replicate 40 0) = (Done r, m') ∧ within 0 33 (replicate 40 0) m'.
Proof.
  destruct (qmi_decode_safe demo_tbl 33 0
    [1; 4; 0; 1; 2; 3; 4; 0x10; 2; 0; 65; 66; 2; 5; 0; 2; 7; 0; 8; 0; 3; 4; 0; 9; 2; 67; 68] 0 27 (replicate 40 0))
    as (r & m' & Hrun & Hw & _).
  - repeat constructor; lia.
  - vm_compute. reflexivity.
  - exact demo_tbl_ok.
  - lia.
  - vm_compute. congruence.
  - lia.
  - lia.
  - vm_compute. congruence.
  - exists r, m'. split; [exact Hrun|exact Hw].
Defined.
