(* ===== verification/QmiSchema.v ===== *)
(** * Message schemas for the QMI encoder and decoder

    The tables of [QmiEncDec] that real messages use have a shape: a field is an
    optional presence flag, an optional length and a value.  A schema describes
    such a structure; [table] gives its element table, [view] reads the value of
    a field out of a C structure and [wire] is the encoding of a value as the QMI
    specification has it: type, length and value at the top level, the bare values
    inside a structure.  This file has the schemas and what [view] depends on. *)

From S2P Require Import Prelude Memory QmiEncDec QmiSafe.

(** ** Schemas *)

(** How many instances a field has: one, [n], or up to [max] with the number in a
    32-bit word at [loff], sent in one byte when [lsize] is 1 and in two otherwise. *)
Inductive count := One | Static (n : Z) | Var (lsize loff max : Z).

Inductive shape (F : Type) :=
  | Basic (t : qmi_elem_type) (size : Z)
  | Text (max : Z)
  | Struct (size : Z) (fs : list F).
Arguments Basic {F}.
Arguments Text {F}.
Arguments Struct {F}.

(** [f_flag] is the offset of the presence flag of an optional field. *)
Inductive field := mk_field {
  f_tlv : Z;
  f_flag : option Z;
  f_count : count;
  f_off : Z;
  f_shape : shape field;
}.

Definition max_count (c : count) : Z := match c with One => 1 | Static n => n | Var _ _ max => max end.
Definition atype (c : count) : qmi_array_type :=
  match c with One => NO_ARRAY | Static _ => STATIC_ARRAY | Var _ _ _ => VAR_LEN_ARRAY end.

(** ** Element tables *)

Definition eoti : qmi_elem_info := mk_ei QMI_EOTI 0 0 NO_ARRAY 0 0 None.

Definition flag_elems (tlv : Z) (flag : option Z) : list qmi_elem_info :=
  match flag with Some o => [mk_ei QMI_OPT_FLAG 1 1 NO_ARRAY tlv o None] | None => [] end.
Definition len_elems (tlv : Z) (c : count) : list qmi_elem_info :=
  match c with Var lsize loff _ => [mk_ei QMI_DATA_LEN 1 lsize NO_ARRAY tlv loff None] | _ => [] end.

Fixpoint elems (f : field) : list qmi_elem_info :=
  match f with
  | mk_field tlv flag c off sh =>
      flag_elems tlv flag ++ len_elems tlv c ++
      [match sh with
       | Basic t size => mk_ei t (max_count c) size (atype c) tlv off None
       | Text max => mk_ei QMI_STRING max 1 NO_ARRAY tlv off None
       | Struct size fs =>
           mk_ei QMI_STRUCT (max_count c) size (atype c) tlv off (Some (flat_map elems fs ++ [eoti]))
       end]
  end.
Definition table (fs : list field) : list qmi_elem_info := flat_map elems fs ++ [eoti].

Definition value_elem (f : field) : qmi_elem_info :=
  match f_shape f with
  | Basic t size => mk_ei t (max_count (f_count f)) size (atype (f_count f)) (f_tlv f) (f_off f) None
  | Text max => mk_ei QMI_STRING max 1 NO_ARRAY (f_tlv f) (f_off f) None
  | Struct size fs =>
      mk_ei QMI_STRUCT (max_count (f_count f)) size (atype (f_count f)) (f_tlv f) (f_off f) (Some (table fs))
  end.

Lemma elems_eq f : elems f = flag_elems (f_tlv f) (f_flag f) ++ len_elems (f_tlv f) (f_count f) ++ [value_elem f].
Proof. by destruct f as [? ? ? ? []]. Qed.

(** ** Values *)

Inductive value := Absent | Items (l : list (list Z)) | Chars (l : list Z) | Structs (l : list (list value)).

(** [n] results of [g], at [o], [o + size], ... *)
Fixpoint every {A} (g : Z → option A) (o size : Z) (n : nat) : option (list A) :=
  match n with
  | O => Some []
  | S n => x ← g o; l ← every g (o + size) size n; Some (x :: l)
  end.

Definition count_at (c : count) (base : Z) (m : list Z) : option Z :=
  match c with
  | One => Some 1
  | Static n => Some n
  | Var _ loff max => k ← read_le 4 m (base + loff); if k <=? max then Some k else None
  end.

(** The value of a field of the structure at [base] in [m]. *)
Fixpoint view (f : field) (base : Z) (m : list Z) : option value :=
  match f with
  | mk_field _ flag c off sh =>
      p ← match flag with None => Some 1 | Some o => read_le 1 m (base + o) end;
      if p =? 0 then Some Absent
      else
        n ← count_at c base m;
        match sh with
        | Basic _ size => Items <$> every (λ o, subrange o size m) (base + off) size (Z.to_nat n)
        | Text max => bs ← subrange (base + off) max m; Chars <$> c_string bs
        | Struct size fs =>
            Structs <$> every (λ o, mapM (λ g, view g o m) fs) (base + off) size (Z.to_nat n)
        end
  end.
Definition views (fs : list field) (base : Z) (m : list Z) : option (list value) :=
  mapM (λ f, view f base m) fs.

(** ** The wire format *)

Definition len_width (lsize : Z) : nat := if lsize =? 1 then 1 else 2.
Definition number (v : value) : Z := match v with Items l => zlen l | Structs l => zlen l | _ => 1 end.
Definition len_bytes (c : count) (n : Z) : list Z :=
  match c with Var lsize _ _ => le_encode (len_width lsize) n | _ => [] end.

(** A complete field: with type and length at the top level. *)
Definition frame (level tlv : Z) (payload : list Z) : list Z :=
  if level =? 1 then tlv :: le_encode 2 (zlen payload) ++ payload else payload.

Definition zip_flat {A B C} (g : A → B → list C) : list A → list B → list C :=
  fix go l k := match l, k with a :: l, b :: k => g a b ++ go l k | _, _ => [] end.

Definition text_bytes (level max : Z) (s : list Z) : list Z :=
  if level =? 1 then s else le_encode (if max <=? U8_MAX then 1 else 2) (zlen s) ++ s.

Fixpoint wire (level : Z) (f : field) (v : value) : list Z :=
  match f with
  | mk_field tlv _ c _ sh =>
      match v with
      | Absent => []
      | _ =>
          frame level tlv (len_bytes c (number v) ++
            match sh, v with
            | Basic _ _, Items l => concat l
            | Text max, Chars s => text_bytes level max s
            | Struct _ fs, Structs l => concat (zip_flat (wire (level + 1)) fs <$> l)
            | _, _ => []
            end)
      end
  end.
Definition wires (level : Z) : list field → list value → list Z := zip_flat (wire level).

Definition body (level : Z) (f : field) (v : value) : list Z :=
  match f_shape f, v with
  | Basic _ _, Items l => concat l
  | Text max, Chars s => text_bytes level max s
  | Struct _ fs, Structs l => concat (wires (level + 1) fs <$> l)
  | _, _ => []
  end.
Definition payload (level : Z) (f : field) (v : value) : list Z :=
  len_bytes (f_count f) (number v) ++ body level f v.

Lemma wire_eq level f v :
  wire level f v = match v with Absent => [] | _ => frame level (f_tlv f) (payload level f v) end.
Proof. by destruct f as [? ? ? ? []], v. Qed.

(** ** Well-formed schemas *)

Definition value_span (f : field) : Z :=
  match f_shape f with
  | Basic _ size | Struct size _ => max_count (f_count f) * size
  | Text max => max
  end.
Definition f_end (f : field) : Z := f_off f + value_span f.
Definition after_flag (lo : Z) (f : field) : Z := match f_flag f with Some o => o + 1 | None => lo end.
Definition after_len (lo : Z) (f : field) : Z :=
  match f_count f with Var _ loff _ => loff + 4 | _ => after_flag lo f end.

(** A field at [lo] or later, after fields with at most [prev] instances: flag, length
    and value follow one another; only top-level fields are optional; a length field is
    wide enough for the array and for every earlier one. *)
Record field_ok (level lo prev : Z) (f : field) : Prop := {
  fo_flag o : f_flag f = Some o → level = 1 ∧ lo ≤ o;
  fo_len lsize loff max : f_count f = Var lsize loff max →
    after_flag lo f ≤ loff ∧ 1 ≤ lsize ≤ 4 ∧ max < 256 ^ Z.of_nat (len_width lsize) ∧
    prev < 256 ^ Z.of_nat (len_width lsize);
  fo_count : 1 ≤ max_count (f_count f);
  fo_off : after_len lo f ≤ f_off f;
  fo_basic t size : f_shape f = Basic t size → basic_type t = true ∧ 1 ≤ size;
  fo_text max : f_shape f = Text max → f_count f = One ∧ 1 ≤ max ∧ (level = 1 ∨ max ≤ 2 ^ 16);
  fo_struct size fs : f_shape f = Struct size fs → 1 ≤ size ∧ fs ≠ [];
}.

Inductive fields_ok : Z → Z → Z → list field → Z → Prop :=
  | fields_nil level lo prev size : lo ≤ size → fields_ok level lo prev [] size
  | fields_cons level lo prev f fs size :
      field_ok level lo prev f →
      (∀ sz gs, f_shape f = Struct sz gs → fields_ok (level + 1) 0 0 gs sz) →
      fields_ok level (f_end f) (Z.max prev (max_count (f_count f))) fs size →
      fields_ok level lo prev (f :: fs) size.

(** A message: the types of its TLVs are different bytes, none of them 0, which marks
    the end of the table. *)
Record schema_ok (fs : list field) (size : Z) : Prop := {
  so_fields : fields_ok 1 0 0 fs size;
  so_types : NoDup (0 :: (f_tlv <$> fs));
  so_bytes : Forall (λ f, 0 ≤ f_tlv f < 256) fs;
}.

(** The schema of [demo_tbl]. *)
Definition demo_fields : list field :=
  [ mk_field 1 None One 0 (Basic QMI_UNSIGNED_4_BYTE 4);
    mk_field 0x10 (Some 4) One 5 (Text 6);
    mk_field 2 None (Var 1 12 4) 16 (Basic QMI_UNSIGNED_2_BYTE 2);
    mk_field 3 None One 24 (Struct 9
      [ mk_field 0 None One 0 (Basic QMI_UNSIGNED_1_BYTE 1); mk_field 0 None One 1 (Text 8) ]) ].

Example demo_table : table demo_fields = demo_tbl.
Proof. reflexivity. Qed.
Example demo_wire :
  wires 1 demo_fields <$> views demo_fields 0 demo_struct =
  Some [1; 4; 0; 1; 2; 3; 4; 0x10; 2; 0; 65; 66; 2; 5; 0; 2; 7; 0; 8; 0; 3; 4; 0; 9; 2; 67; 68].
Proof. vm_compute. reflexivity. Qed.

(** ** Reading memory *)

Lemma store_put off bs m :
  0 ≤ off → off + zlen bs ≤ zlen m → store off bs m = (Done tt, put off bs m).
Proof. intros H1 H2. unfold store. by rewrite bool_decide_true. Qed.

Lemma every_same {A} (g g' : Z → option A) o size n :
  (∀ k, 0 ≤ k < Z.of_nat n → g (o + k * size) = g' (o + k * size)) → every g o size n = every g' o size n.
Proof.
  revert o. induction n as [|n IH]; intros o H; [done|]. cbn [every].
  pose proof (H 0 ltac:(lia)) as H0. rewrite Z.mul_0_l, Z.add_0_r in H0. rewrite H0.
  destruct (g' o); [|done]. cbn. rewrite (IH (o + size)); [done|]. intros k Hk.
  specialize (H (k + 1) ltac:(lia)). by replace (o + size + k * size) with (o + (k + 1) * size) by lia.
Qed.

Lemma every_length {A} (g : Z → option A) o size n l : every g o size n = Some l → length l = n.
Proof.
  revert o l. induction n as [|n IH]; intros o l; cbn [every]; [by intros [= <-]|].
  intros (x & _ & (l' & Hl & [= <-])%bind_Some)%bind_Some. cbn. f_equal. by eapply IH.
Qed.

(** ** Where a field lies *)

Lemma field_bounds level lo prev f :
  field_ok level lo prev f →
  lo ≤ after_flag lo f ∧ after_flag lo f ≤ after_len lo f ∧ after_len lo f ≤ f_off f ∧ f_off f ≤ f_end f.
Proof.
  intros [Hflag Hlen Hcount Hoff Hb Ht Hs]. split_and!; [| |done|].
  - unfold after_flag. destruct (f_flag f) as [o|]; [destruct (Hflag o eq_refl); lia|lia].
  - unfold after_len. destruct (f_count f) as [| |lsize loff max]; [lia|lia|].
    destruct (Hlen lsize loff max eq_refl); lia.
  - unfold f_end, value_span. destruct (f_shape f) as [t size|max|size fs].
    + destruct (Hb t size eq_refl). nia.
    + destruct (Ht max eq_refl). lia.
    + destruct (Hs size fs eq_refl). nia.
Qed.

Lemma fields_bounds level lo prev fs size : fields_ok level lo prev fs size → lo ≤ size.
Proof.
  induction 1 as [|level lo prev f fs size Hf _ _ _ IH]; [done|]. apply field_bounds in Hf. lia.
Qed.

(** The value of a field that is present, with [n] instances. *)
Definition value_at (f : field) (base : Z) (m : list Z) (n : Z) : option value :=
  match f_shape f with
  | Basic _ size => Items <$> every (λ o, subrange o size m) (base + f_off f) size (Z.to_nat n)
  | Text max => bs ← subrange (base + f_off f) max m; Chars <$> c_string bs
  | Struct size fs => Structs <$> every (λ o, views fs o m) (base + f_off f) size (Z.to_nat n)
  end.
Definition present (f : field) (base : Z) (m : list Z) : option Z :=
  match f_flag f with None => Some 1 | Some o => read_le 1 m (base + o) end.

Lemma view_eq f base m :
  view f base m =
    (p ← present f base m;
     if p =? 0 then Some Absent else n ← count_at (f_count f) base m; value_at f base m n).
Proof. by destruct f as [? ? ? ? []]. Qed.

Lemma count_at_max c base m n : count_at c base m = Some n → n ≤ max_count c.
Proof.
  destruct c as [|k|lsize loff max]; cbn; [intros [= <-]; lia|intros [= <-]; lia|].
  intros (k & Hk & Hn)%bind_Some. destruct (Z.leb_spec k max); [|done]. by injection Hn as <-.
Qed.

(** The value of a field depends on the bytes of the field. *)
Lemma view_same_field level lo prev f base m m' :
  field_ok level lo prev f →
  (∀ sz gs, f_shape f = Struct sz gs → ∀ o, base + f_off f ≤ o → o + sz ≤ base + f_end f → views gs o m' = views gs o m) →
  same_on (base + lo) (base + f_end f) m m' → view f base m' = view f base m.
Proof.
  intros Hf Hst Hsame. pose proof (field_bounds _ _ _ _ Hf) as (B1 & B2 & B3 & B4). rewrite !view_eq.
  assert (present f base m' = present f base m) as ->.
  { unfold after_flag, present in *. destruct (f_flag f) as [o|] eqn:Ho; [|done].
    destruct (fo_flag _ _ _ _ Hf o Ho). apply (read_le_same _ _ _ _ _ _ Hsame); lia. }
  destruct (present f base m) as [p|]; [|done]. cbn. destruct (p =? 0); [done|].
  assert (count_at (f_count f) base m' = count_at (f_count f) base m) as ->.
  { unfold after_len in *. destruct (f_count f) as [| |lsize loff max] eqn:Hc; [done..|]. cbn.
    destruct (fo_len _ _ _ _ Hf _ _ _ Hc).
    rewrite (read_le_same _ _ 4 (base + loff) m m' Hsame); [done|lia..]. }
  destruct (count_at (f_count f) base m) as [n|] eqn:Hn; [|done]. cbn.
  pose proof (count_at_max _ _ _ _ Hn) as Hr.
  unfold value_at, f_end, value_span in *. destruct (f_shape f) as [t size|max|size fs] eqn:Hs.
  - destruct (fo_basic _ _ _ _ Hf t size Hs). f_equal. apply every_same. intros k Hk.
    apply (subrange_same _ _ _ _ _ _ Hsame); nia.
  - rewrite (subrange_same _ _ _ _ _ _ Hsame); [done|lia..].
  - destruct (fo_struct _ _ _ _ Hf size fs Hs). f_equal. apply every_same. intros k Hk.
    apply (Hst size fs eq_refl); nia.
Qed.

Lemma views_same level lo prev fs size base m m' :
  fields_ok level lo prev fs size →
  same_on (base + lo) (base + size) m m' → views fs base m' = views fs base m.
Proof.
  intros Hok. revert base m m'. induction Hok as [|level lo prev f fs size Hf Hst IHst Hok IH];
    intros base m m' Hsame; [done|].
  pose proof (field_bounds _ _ _ _ Hf) as HB. pose proof (fields_bounds _ _ _ _ _ Hok) as HB'.
  unfold views. cbn. rewrite (view_same_field level lo prev f base m m'); try done.
  - change (mapM (λ f, view f base m') fs) with (views fs base m').
    rewrite (IH base m m'); [done|]. apply (same_on_mono _ _ _ _ _ _ Hsame); lia.
  - intros sz gs Hs o H1 H2. apply (IHst sz gs Hs o m m'). apply (same_on_mono _ _ _ _ _ _ Hsame); lia.
  - apply (same_on_mono _ _ _ _ _ _ Hsame); lia.
Qed.
