(* ===== verification/QmiEncode.v ===== *)
(** * The QMI encoder writes the wire format

    For every well-formed schema and every structure that holds values of it,
    [qmi_encode] writes exactly [wires] of these values, provided that the
    buffer has room for them. *)

From S2P Require Import Prelude Memory QmiEncDec QmiSafe QmiSchema.

(** ** Copies *)

Lemma load_has src off bs n m : has src off bs → n = zlen bs → load src off n m = (Done bs, m).
Proof. intros H ->. unfold load. by rewrite H. Qed.

(** The elements of an array, one by one and in one piece. *)
Lemma every_has src off size n items :
  every (λ o, subrange o size src) off size n = Some items →
  Forall (λ x, zlen x = size) items ∧ (n ≠ 0%nat → has src off (concat items)).
Proof.
  revert off items. induction n as [|n IH]; intros off items; cbn [every]; [by intros [= <-]|].
  intros (x & Hx & (l & Hl & [= <-])%bind_Some)%bind_Some. destruct (IH _ _ Hl) as [Hall Hhas].
  pose proof (subrange_zlen _ _ _ _ Hx) as Hsz. split; [by constructor|]. intros _. cbn [concat].
  apply subrange_has in Hx. destruct n; [|by apply has_app; rewrite Hsz; auto].
  injection Hl as <-. by rewrite app_nil_r.
Qed.

Lemma has_every src off size items :
  Forall (λ x, zlen x = size) items → has src off (concat items) →
  every (λ o, subrange o size src) off size (length items) = Some items.
Proof.
  intros Hall. revert off. induction Hall as [|x items Hx Hall IH]; intros off Hh; [done|]. cbn in *.
  apply has_app in Hh as [H1 H2]. unfold has in H1. rewrite Hx in H1, H2. rewrite H1. cbn. by rewrite IH.
Qed.

Lemma concat_zlen {A} size (items : list (list A)) :
  Forall (λ x, zlen x = size) items → zlen (concat items) = zlen items * size.
Proof.
  induction 1 as [|x items Hx _ IH]; [done|]. cbn [concat]. rewrite zlen_app, IH, Hx.
  unfold zlen. cbn [length]. lia.
Qed.

Lemma copy_run src size soff n items dst m :
  every (λ o, subrange o size src) soff size n = Some items → 0 ≤ dst → dst + zlen (concat items) ≤ zlen m →
  copy_elems n dst src soff size m = (Done tt, put dst (concat items) m).
Proof.
  revert soff items dst m. induction n as [|n IH]; intros soff items dst m; cbn [every copy_elems].
  { intros [= <-] _ _. cbn. by rewrite put_nil. }
  intros (x & Hx & (l & Hl & [= <-])%bind_Some)%bind_Some H1 H2. pose proof (subrange_zlen _ _ _ _ Hx) as Hsz.
  cbn [concat] in *. rewrite zlen_app in H2. pose proof (zlen_nonneg (concat l)). pose proof (zlen_nonneg x).
  rewrite (kbind_Done _ _ _ _ _ (load_has _ _ _ _ m (subrange_has _ _ _ _ Hx) (eq_sym Hsz))).
  rewrite (kbind_Done _ _ _ _ _ (store_put dst x m H1 ltac:(lia))).
  rewrite (IH _ l); [|done|lia|rewrite zlen_put; lia]. f_equal. rewrite <- Hsz. apply put_app; lia.
Qed.

Lemma encode_basic_run src size soff n items dst m :
  every (λ o, subrange o size src) soff size (Z.to_nat n) = Some items → 0 ≤ n → n * size < 2 ^ 32 → 0 ≤ size →
  0 ≤ dst → dst + zlen (concat items) ≤ zlen m →
  qmi_encode_basic_elem dst src soff n size m = (Done (zlen (concat items)), put dst (concat items) m).
Proof.
  intros Hev Hn Hlt Hsz H1 H2. unfold qmi_encode_basic_elem.
  rewrite (kbind_Done _ _ _ _ _ (copy_run _ _ _ _ _ _ _ Hev H1 H2)).
  destruct (every_has _ _ _ _ _ Hev) as [Hall _]. pose proof (every_length _ _ _ _ _ Hev) as Hl.
  rewrite (concat_zlen size) by done. unfold zlen. rewrite Hl, Z2Nat.id by done. by rewrite u32_small by nia.
Qed.

(** A string is an array of single bytes. *)
Lemma chars_every src off s :
  has src off s → every (λ o, subrange o 1 src) off 1 (length s) = Some ((λ c, [c]) <$> s) ∧
  concat ((λ c, [c]) <$> s) = s.
Proof.
  intros Hs. assert (concat ((λ c, [c]) <$> s) = s) as Hc by (clear; induction s; cbn; congruence).
  split; [|done]. rewrite <- (length_fmap (λ c : Z, [c]) s) at 1.
  apply has_every; [by apply Forall_fmap, Forall_true|by rewrite Hc].
Qed.

Lemma c_string_Some bs s : c_string bs = Some s ↔ ∃ junk, bs = s ++ 0 :: junk ∧ Forall (λ c, c ≠ 0) s.
Proof.
  split.
  - revert s. induction bs as [|b bs IH]; intros s; cbn; [done|]. destruct (Z.eqb_spec b 0) as [->|Hb].
    { intros [= <-]. by exists bs. }
    intros (s' & Hs & ->)%fmap_Some. destruct (IH _ Hs) as (junk & -> & Hall). exists junk. by split; [|constructor].
  - intros (junk & -> & Hall). induction Hall as [|c s Hc _ IH]; [done|]. cbn.
    rewrite (proj2 (Z.eqb_neq c 0) Hc), IH. done.
Qed.

Lemma strlen_run src off max bs s m :
  subrange off max src = Some bs → c_string bs = Some s → strlen src off m = (Done (zlen s), m).
Proof.
  intros (H1 & H2 & H3 & ->)%subrange_Some (junk & Hbs & Hall)%c_string_Some. unfold strlen, subrange.
  rewrite bool_decide_true by lia. rewrite take_ge by (rewrite length_drop; lia).
  rewrite (proj2 (c_string_Some (drop (Z.to_nat off) src) s)); [done|].
  exists (junk ++ drop (Z.to_nat max) (drop (Z.to_nat off) src)). split; [|done].
  rewrite app_comm_cons, app_assoc, <- Hbs. by rewrite take_drop.
Qed.

(** ** TLV framing *)

Definition hdr (level : Z) : Z := if level =? 1 then 3 else 0.

Lemma zlen_frame level tlv pl : zlen (frame level tlv pl) = hdr level + zlen pl.
Proof.
  unfold frame, hdr. destruct (level =? 1); [|done]. unfold zlen. cbn [length]. rewrite length_app, length_le_encode. lia.
Qed.

Lemma le_encode_2 n : 0 ≤ n → le_encode 2 n = [Z.land n 0xFF; Z.land (Z.shiftr n 8) 0xFF].
Proof.
  intros Hn. cbn. change 255 with (Z.ones 8). rewrite !Z.land_ones, Z.shiftr_div_pow2 by lia. done.
Qed.

(** The encoder's variables when the TLV at [p] has [k] bytes of value so far and [bytes]
    bytes were encoded before it; inside a structure there is no header. *)
Record mid (level p k bytes : Z) (v : enc_vars) : Prop := {
  mid_dst : ev_dst v = p + hdr level + k;
  mid_tlv : level = 1 → ev_tlv v = p ∧ ev_tlv_len v = k;
  mid_bytes : ev_bytes v = bytes + k;
}.

Lemma mid_set_data_len level p k bytes n v : mid level p k bytes v → mid level p k bytes (set_data_len n v).
Proof. by intros [? ? ?]. Qed.

Lemma end_more level tlv p k bytes rc v m :
  mid level p k bytes v → 0 ≤ rc → 0 ≤ k → 0 ≤ bytes → bytes + k + rc < 2 ^ 32 →
  ∃ v', end_elem level tlv false rc v m = (Done v', m) ∧ mid level p (k + rc) bytes v' ∧ ev_data_len v' = ev_data_len v.
Proof.
  intros [Hd Ht Hb] H1 H2 H3 H4. eexists. split; [reflexivity|]. split; [|done]. split; cbn [ev_dst ev_tlv ev_tlv_len ev_bytes].
  - lia.
  - intros H. destruct (Ht H) as [-> ->]. split; [done|]. apply u32_small. lia.
  - rewrite u32_small; lia.
Qed.

Lemma end_last level tlv p k bytes rc pl v m :
  mid level p k bytes v → zlen pl = k + rc → 0 ≤ rc → 0 ≤ k → 0 ≤ bytes → bytes + k + rc + 3 < 2 ^ 32 →
  (level = 1 → 0 ≤ tlv < 256) → 0 ≤ p → p + hdr level + zlen pl ≤ zlen m →
  ∃ v', end_elem level tlv true rc v (put (p + hdr level) pl m) = (Done v', put p (frame level tlv pl) m) ∧
    mid level (p + zlen (frame level tlv pl)) 0 (bytes + zlen (frame level tlv pl)) v'.
Proof.
  intros [Hd Ht Hb] Hpl H1 H2 H3 H4 Htlv Hp Hm. rewrite zlen_frame. unfold end_elem, frame, hdr in *. cbn [andb].
  cbn [ev_dst ev_tlv ev_tlv_len ev_bytes]. destruct (Z.eqb_spec level 1) as [->|Hl].
  - destruct (Ht eq_refl) as [-> ->]. specialize (Htlv eq_refl).
    rewrite (u32_small (k + rc)) by lia. rewrite <- Hpl.
    set (h := [u8 tlv; _; _]). assert (h = tlv :: le_encode 2 (zlen pl)) as Hh.
    { rewrite le_encode_2 by apply zlen_nonneg. unfold h, u8. by rewrite Z.mod_small. }
    assert (zlen h = 3) as Hh3 by done.
    rewrite (kbind_Done _ _ _ _ _ (store_put p h (put (p + 3) pl m) Hp ltac:(rewrite zlen_put; lia))).
    eexists. split.
    + unfold kret. f_equal. replace (p + 3) with (p + zlen h) by lia. rewrite put_before by lia.
      by rewrite Hh.
    + unfold TLV_TYPE_SIZE, TLV_LEN_SIZE. split; cbn [ev_dst ev_tlv ev_tlv_len ev_bytes].
      * unfold hdr. cbn. lia.
      * intros _. split; lia.
      * rewrite (u32_small (ev_bytes v + rc)), u32_small by lia. lia.
  - replace (p + 0) with p by lia. eexists. split; [reflexivity|]. split; cbn [ev_dst ev_tlv ev_tlv_len ev_bytes].
    + unfold hdr. rewrite (proj2 (Z.eqb_neq level 1) Hl). lia.
    + done.
    + rewrite u32_small; lia.
Qed.

(** ** Values *)

Lemma zlen_concat_cons {A} (x : list A) l : zlen (concat (x :: l)) = zlen x + zlen (concat l).
Proof. cbn [concat]. apply zlen_app. Qed.

Lemma encode_struct_run enc level src gs size n soff vss dst room done m :
  (∀ dst soff room vs m, views gs soff src = Some vs → 0 ≤ dst → zlen (wires level gs vs) + 3 ≤ room < 2 ^ 31 →
     dst + zlen (wires level gs vs) ≤ zlen m →
     enc dst soff room m = (Done (zlen (wires level gs vs)), put dst (wires level gs vs) m)) →
  every (λ o, views gs o src) soff size n = Some vss →
  0 ≤ done → done + zlen (concat (wires level gs <$> vss)) + 3 ≤ room < 2 ^ 31 → 0 ≤ dst →
  dst + zlen (concat (wires level gs <$> vss)) ≤ zlen m →
  encode_struct_loop enc n dst soff size room done m =
    (Done (done + zlen (concat (wires level gs <$> vss))), put dst (concat (wires level gs <$> vss)) m).
Proof.
  intros Henc. revert soff vss dst done m. induction n as [|n IH]; intros soff vss dst done m; cbn [every encode_struct_loop].
  { intros [= <-] _ _ _ _. cbn. by rewrite put_nil, Z.add_0_r. }
  intros (vs & Hvs & (l & Hl & [= <-])%bind_Some)%bind_Some H1 H2 H3 H4.
  rewrite fmap_cons in *. rewrite zlen_concat_cons in *. set (w := wires level gs vs) in *.
  pose proof (zlen_nonneg w). pose proof (zlen_nonneg (concat (wires level gs <$> l))).
  rewrite (u32_small (room - done)) by lia.
  rewrite (kbind_Done _ _ _ _ _ (Henc dst soff (room - done) vs m Hvs H3 ltac:(fold w; lia) ltac:(fold w; lia))).
  fold w. destruct (Z.ltb_spec (zlen w) 0); [lia|].
  rewrite (IH _ l); [|done|lia|lia|lia|rewrite zlen_put; lia].
  cbn [concat]. rewrite put_app by lia. do 2 f_equal. lia.
Qed.

Lemma take_le_encode k n z : (k ≤ n)%nat → take k (le_encode n z) = le_encode k z.
Proof.
  revert k z. induction n as [|n IH]; intros [|k] z Hk; cbn; [done|lia|done|]. f_equal. apply IH. lia.
Qed.

Lemma zlen_le_encode k z : zlen (le_encode k z) = Z.of_nat k.
Proof. unfold zlen. by rewrite length_le_encode. Qed.

(** The low [k] bytes of a 32-bit variable. *)
Lemma encode_var_run k z dst m :
  (k ≤ 4)%nat → 0 ≤ dst → dst + Z.of_nat k ≤ zlen m →
  qmi_encode_basic_elem dst (le_encode 4 z) 0 1 (Z.of_nat k) m = (Done (Z.of_nat k), put dst (le_encode k z) m).
Proof.
  intros Hk H1 H2. pose proof (zlen_le_encode k z) as Hz.
  replace (le_encode k z) with (concat [le_encode k z]) by (cbn; apply app_nil_r). rewrite <- Hz at 2.
  replace (zlen (le_encode k z)) with (zlen (concat [le_encode k z])) by (cbn; by rewrite app_nil_r).
  apply encode_basic_run; cbn [concat]; rewrite ?app_nil_r, ?Hz; try lia.
  change (Z.to_nat 1) with 1%nat. cbn [every]. unfold subrange. rewrite bool_decide_true by (rewrite length_le_encode; lia).
  cbn [mbind option_bind]. by rewrite Nat2Z.id, drop_0, take_le_encode.
Qed.

Lemma encode_string_run e src off max bs s level dst room m :
  elem_len e = max → elem_size e = 1 →
  subrange off max src = Some bs → c_string bs = Some s → (level = 1 ∨ max ≤ 2 ^ 16) →
  zlen (text_bytes level max s) + 3 ≤ room < 2 ^ 31 → 0 ≤ dst → dst + zlen (text_bytes level max s) ≤ zlen m →
  qmi_encode_string_elem e dst src off room level m =
    (Done (zlen (text_bytes level max s)), put dst (text_bytes level max s) m).
Proof.
  intros Hlen Hsz Hbs Hs Hmax Hroom Hdst Hm. unfold qmi_encode_string_elem, text_bytes in *.
  rewrite (kbind_Done _ _ _ _ _ (strlen_run _ _ _ _ _ m Hbs Hs)). rewrite Hlen, Hsz.
  apply subrange_has in Hbs as Hhas. pose proof (subrange_zlen _ _ _ _ Hbs) as Hbl.
  apply c_string_Some in Hs as (junk & -> & _). apply has_app in Hhas as [Hhas _]. rewrite zlen_app in Hbl.
  pose proof (zlen_nonneg s). assert (1 ≤ zlen (0 :: junk)) by (unfold zlen; cbn; lia).
  destruct (Z.ltb_spec max (zlen s)); [lia|].
  destruct (chars_every _ _ _ Hhas) as [Hev Hcat]. unfold TLV_TYPE_SIZE, TLV_LEN_SIZE.
  assert (∀ d m', zlen s < 2 ^ 31 → 0 ≤ d → d + zlen s ≤ zlen m' →
    qmi_encode_basic_elem d src off (zlen s) 1 m' = (Done (zlen s), put d s m')) as Hcopy.
  { intros d m' Hlt Hd Hm'. rewrite <- Hcat at 2 3. apply encode_basic_run; rewrite ?Hcat; try lia.
    unfold zlen. by rewrite Nat2Z.id. }
  destruct (Z.eqb_spec level 1) as [->|Hl].
  { destruct (Z.ltb_spec room (zlen s + 2 + 1)); [lia|]. apply Hcopy; lia. }
  set (k := (if max <=? U8_MAX then 1%nat else 2%nat)) in *.
  assert (string_len_size e = Z.of_nat k) as -> by (unfold string_len_size, k; rewrite Hlen; by destruct (max <=? U8_MAX)).
  rewrite zlen_app, zlen_le_encode in *. assert (1 ≤ k ≤ 2)%nat by (unfold k; destruct (max <=? U8_MAX); lia).
  rewrite u32_small by lia. destruct (Z.ltb_spec room (zlen s + Z.of_nat k)); [lia|].
  rewrite (kbind_Done _ _ _ _ _ (encode_var_run k (zlen s) dst m ltac:(lia) Hdst ltac:(lia))).
  rewrite (kbind_Done _ _ _ _ _ (Hcopy (dst + Z.of_nat k) (put dst (le_encode k (zlen s)) m) ltac:(lia) ltac:(lia)
    ltac:(rewrite zlen_put; rewrite ?zlen_le_encode; lia))).
  unfold kret. f_equal. rewrite <- (zlen_le_encode k (zlen s)) at 1. apply put_app; rewrite ?zlen_le_encode; lia.
Qed.

(** ** One field *)

(** What the encoder of a table does, at any level: the values are appended at [p]. *)
Definition enc_ok (level : Z) (fs : list field) : Prop := ∀ fuel src base room vs p bytes vr m,
  views fs base src = Some vs → Forall is_byte src → zlen src < 2 ^ 31 →
  (tsize (table fs) ≤ fuel)%nat → mid level p 0 bytes vr → 0 ≤ bytes → 0 ≤ p →
  bytes + zlen (wires level fs vs) + 3 - hdr level ≤ room < 2 ^ 31 → p + zlen (wires level fs vs) ≤ zlen m →
  (level = 1 → NoDup (0 :: (f_tlv <$> fs)) ∧ Forall (λ f, is_byte (f_tlv f)) fs) →
  encode_loop fuel (table fs) src base room level vr m =
    (Done (bytes + zlen (wires level fs vs)), put p (wires level fs vs) m).

Lemma encode_loop_basic fuel e rest src base room level vr n :
  basic_type (data_type e) = true → encode_count e (ev_data_len vr) = Some n →
  encode_loop (S fuel) (e :: rest) src base room level vr =
    kbind (deref (e :: rest)) (λ e,
      if room <? u32 (n * elem_size e + ev_bytes vr) + TLV_LEN_SIZE + TLV_TYPE_SIZE then kret (- ETOOSMALL)
      else
        let* rc := qmi_encode_basic_elem (ev_dst vr) src (base + offset e) n (elem_size e) in
        let* v := end_elem level (tlv_type e) true rc (set_data_len n vr) in
        encode_loop fuel rest src base room level v).
Proof.
  intros Ht Hn. cbn [encode_loop]. unfold deref, kbind at 1 3, kret at 1 3. rewrite Hn.
  destruct (data_type e) eqn:E; (done || by rewrite bool_decide_false).
Qed.

Lemma value_elem_props f : tlv_type (value_elem f) = f_tlv f ∧ offset (value_elem f) = f_off f.
Proof. unfold value_elem. by destruct (f_shape f). Qed.

Section field.
Context (level lo prev : Z) (f : field) (Hf : field_ok level lo prev f) (Hlevel : 1 ≤ level).
Context (Hnested : ∀ sz gs, f_shape f = Struct sz gs → enc_ok (level + 1) gs).
Context (src : list Z) (Hsrc : Forall is_byte src) (Hlen : zlen src < 2 ^ 31).
Context (base room : Z).

Lemma count_encoded n dl :
  1 ≤ n ≤ max_count (f_count f) →
  match f_count f with One => n = 1 | Static k => n = k | Var _ _ _ => dl = n end →
  (∀ max, f_shape f = Text max → n = 1) →
  encode_count (value_elem f) dl = Some n.
Proof using All.
  intros Hr Hn Htext. unfold encode_count, value_elem.
  destruct (f_shape f) as [t size|max|size gs] eqn:Hs; [..|]; cbn.
  2: { f_equal. by rewrite (Htext max). }
  all: destruct (f_count f) as [|k|lsize loff max]; cbn in *; subst; [done..|].
  all: rewrite (proj2 (Z.leb_gt n 0)), (proj2 (Z.ltb_ge max n)) by lia; done.
Qed.

Lemma value_finish {A} (K : enc_vars → M A) n lb bd p bytes vr m :
  mid level p (zlen lb) bytes vr → 0 ≤ bytes → 0 ≤ p → bytes + zlen (lb ++ bd) + 3 < 2 ^ 32 →
  p + hdr level + zlen (lb ++ bd) ≤ zlen m → (level = 1 → is_byte (f_tlv f)) →
  ∃ v', (let* v := end_elem level (f_tlv f) true (zlen bd) (set_data_len n vr) in K v)
          (put (p + hdr level + zlen lb) bd (put (p + hdr level) lb m)) =
        K v' (put p (frame level (f_tlv f) (lb ++ bd)) m) ∧
    mid level (p + zlen (frame level (f_tlv f) (lb ++ bd))) 0 (bytes + zlen (frame level (f_tlv f) (lb ++ bd))) v'.
Proof using Hlevel.
  intros Hmid Hb Hp Hlt Hm Ht. pose proof (zlen_nonneg lb). pose proof (zlen_nonneg bd).
  assert (0 ≤ hdr level) by (unfold hdr; destruct (level =? 1); lia). rewrite zlen_app in *.
  rewrite put_app by lia.
  destruct (end_last level (f_tlv f) p (zlen lb) bytes (zlen bd) (lb ++ bd) (set_data_len n vr) m) as (v' & He & Hv');
    rewrite ?zlen_app; try done; try lia; [by apply mid_set_data_len|].
  exists v'. split; [|done]. by rewrite (kbind_Done _ _ _ _ _ He).
Qed.

(** The [switch] of one iteration, by shape: the value is written at [ev_dst]. *)
Definition switch_ok (fuel : nat) (rest : list qmi_elem_info) (n : Z) (v : value) (vr : enc_vars) (m : list Z) : Prop :=
  encode_loop (S fuel) (value_elem f :: rest) src base room level vr m =
  (let* v := end_elem level (f_tlv f) true (zlen (body level f v)) (set_data_len n vr) in
   encode_loop fuel rest src base room level v) (put (ev_dst vr) (body level f v) m).

Lemma switch_basic t size fuel rest n items vr m :
  f_shape f = Basic t size → every (λ o, subrange o size src) (base + f_off f) size (Z.to_nat n) = Some items →
  0 ≤ n → encode_count (value_elem f) (ev_data_len vr) = Some n → 0 ≤ ev_bytes vr → 0 ≤ ev_dst vr →
  ev_bytes vr + zlen (concat items) + 3 ≤ room < 2 ^ 31 → ev_dst vr + zlen (concat items) ≤ zlen m →
  switch_ok fuel rest n (Items items) vr m.
Proof using All.
  intros Hs Hev Hn Hec Hb Hd Hroom Hm. destruct (fo_basic _ _ _ _ Hf t size Hs) as [Ht Hsz].
  destruct (value_elem_props f) as [Htl Hoff]. unfold switch_ok.
  assert (body level f (Items items) = concat items) as -> by (unfold body; by rewrite Hs).
  assert (data_type (value_elem f) = t ∧ elem_size (value_elem f) = size) as [Hdt Hes] by (unfold value_elem; by rewrite Hs).
  rewrite (encode_loop_basic _ _ _ _ _ _ _ _ n) by (by rewrite ?Hdt). unfold deref, kbind at 1, kret at 1.
  destruct (every_has _ _ _ _ _ Hev) as [Hall _]. pose proof (every_length _ _ _ _ _ Hev) as Hil.
  pose proof (concat_zlen size items Hall) as Hcz. unfold zlen at 2 in Hcz. rewrite Hil, Z2Nat.id in Hcz by lia.
  rewrite Hes, Htl, Hoff. rewrite u32_small by nia. unfold TLV_LEN_SIZE, TLV_TYPE_SIZE.
  destruct (Z.ltb_spec room (n * size + ev_bytes vr + 2 + 1)); [lia|].
  by rewrite (kbind_Done _ _ _ _ _ (encode_basic_run _ _ _ _ _ (ev_dst vr) m
    Hev ltac:(lia) ltac:(lia) ltac:(lia) ltac:(lia) ltac:(lia))).
Qed.

Lemma switch_text max fuel rest n bs s vr m :
  f_shape f = Text max → subrange (base + f_off f) max src = Some bs → c_string bs = Some s →
  encode_count (value_elem f) (ev_data_len vr) = Some n → 0 ≤ ev_bytes vr → 0 ≤ ev_dst vr →
  ev_bytes vr + zlen (text_bytes level max s) + 3 ≤ room < 2 ^ 31 → ev_dst vr + zlen (text_bytes level max s) ≤ zlen m →
  switch_ok fuel rest n (Chars s) vr m.
Proof using All.
  intros Hs Hbs Hc Hec Hb Hd Hroom Hm. destruct (fo_text _ _ _ _ Hf max Hs) as (_ & Hmax & Hlev).
  destruct (value_elem_props f) as [Htl Hoff]. unfold switch_ok.
  assert (body level f (Chars s) = text_bytes level max s) as -> by (unfold body; by rewrite Hs).
  cbn [encode_loop]. unfold deref, kbind at 1, kret at 1. rewrite Hec. cbn [tail].
  assert (data_type (value_elem f) = QMI_STRING ∧ elem_len (value_elem f) = max ∧ elem_size (value_elem f) = 1)
    as (Hdt & Hel & Hes) by (unfold value_elem; by rewrite Hs).
  rewrite Hdt. rewrite bool_decide_false by done. rewrite Htl, Hoff.
  pose proof (zlen_nonneg (text_bytes level max s)).
  cbn [set_data_len ev_dst ev_bytes ev_data_len]. rewrite u32_small by lia.
  rewrite (kbind_Done _ _ _ _ _ (encode_string_run (value_elem f) src _ max bs s level (ev_dst vr) (room - ev_bytes vr)
    m Hel Hes Hbs Hc Hlev ltac:(lia) ltac:(lia) ltac:(lia))).
  by rewrite (proj2 (Z.ltb_ge (zlen (text_bytes level max s)) 0)).
Qed.

Lemma switch_struct size gs fuel rest n vss vr m (w := concat (wires (level + 1) gs <$> vss)) :
  f_shape f = Struct size gs → every (λ o, views gs o src) (base + f_off f) size (Z.to_nat n) = Some vss →
  encode_count (value_elem f) (ev_data_len vr) = Some n → 0 ≤ ev_bytes vr → 0 ≤ ev_dst vr →
  ev_bytes vr + zlen w + 3 ≤ room < 2 ^ 31 → ev_dst vr + zlen w ≤ zlen m → (esize (value_elem f) ≤ S fuel)%nat →
  switch_ok fuel rest n (Structs vss) vr m.
Proof using All.
  intros Hs Hev Hec Hb Hd Hroom Hm Hfuel. destruct (fo_struct _ _ _ _ Hf size gs Hs) as [Hsz Hne].
  destruct (value_elem_props f) as [Htl Hoff]. unfold switch_ok.
  assert (body level f (Structs vss) = w) as -> by (unfold body; by rewrite Hs).
  cbn [encode_loop]. unfold deref, kbind at 1, kret at 1. rewrite Hec. cbn [tail].
  assert (data_type (value_elem f) = QMI_STRUCT ∧ ei_array (value_elem f) = Some (table gs) ∧ elem_size (value_elem f) = size)
    as (Hdt & Hea & Hes) by (unfold value_elem; by rewrite Hs).
  rewrite Hdt. rewrite bool_decide_false by done. rewrite Htl, Hoff, Hea, Hes. pose proof (zlen_nonneg w).
  cbn [set_data_len ev_dst ev_bytes ev_data_len]. rewrite u32_small by lia.
  pose proof (tsize_nested _ _ Hea) as Hts. assert ((level + 1 =? 1) = false) as Hl1 by lia.
  erewrite kbind_Done; [|eapply (encode_struct_run _ (level + 1) src gs _ _ _ vss); [|exact Hev|fold w; lia..]].
  - rewrite Z.add_0_l. fold w. by rewrite (proj2 (Z.ltb_ge (zlen w) 0)).
  - intros dst soff room' vs m' Hvs H1 H2 H3.
    rewrite (Hnested _ _ Hs fuel src soff room' vs dst 0 _ m'); rewrite ?Z.add_0_l; try done; try lia.
    + split; unfold hdr; rewrite ?Hl1; cbn; [lia|lia|done].
    + unfold hdr. rewrite Hl1. lia.
Qed.

Lemma value_step fuel rest n v lb p bytes vr m :
  value_at f base src n = Some v → 1 ≤ n ≤ max_count (f_count f) →
  match f_count f with One => n = 1 | Static k => n = k | Var _ _ _ => ev_data_len vr = n end →
  mid level p (zlen lb) bytes vr → 0 ≤ bytes → 0 ≤ p →
  bytes + zlen (lb ++ body level f v) + 3 ≤ room < 2 ^ 31 →
  p + hdr level + zlen (lb ++ body level f v) ≤ zlen m →
  (level = 1 → is_byte (f_tlv f)) → (esize (value_elem f) ≤ S fuel)%nat →
  ∃ v', encode_loop (S fuel) (value_elem f :: rest) src base room level vr (put (p + hdr level) lb m) =
          encode_loop fuel rest src base room level v' (put p (frame level (f_tlv f) (lb ++ body level f v)) m) ∧
    mid level (p + zlen (frame level (f_tlv f) (lb ++ body level f v))) 0
      (bytes + zlen (frame level (f_tlv f) (lb ++ body level f v))) v'.
Proof using All.
  intros Hv Hr Hcnt Hmid Hb Hp Hroom Hm Htlv Hfuel.
  assert (0 ≤ hdr level) by (unfold hdr; destruct (level =? 1); lia).
  pose proof (zlen_nonneg lb). pose proof (zlen_nonneg (body level f v)).
  rewrite zlen_app in Hroom, Hm. pose proof Hmid as [Hd _ Hbytes].
  assert (zlen (put (p + hdr level) lb m) = zlen m) as Hput by (rewrite zlen_put; lia).
  assert (∀ max, f_shape f = Text max → n = 1) as Htext.
  { intros max Hs. destruct (fo_text _ _ _ _ Hf max Hs) as [Hone _]. by rewrite Hone in Hcnt. }
  pose proof (count_encoded n _ Hr Hcnt Htext) as Hec.
  edestruct (value_finish (λ v, encode_loop fuel rest src base room level v) n lb (body level f v) p bytes vr m)
    as (v' & Hfin & Hmid'); [exact Hmid|done|done|rewrite zlen_app; lia|rewrite zlen_app; lia|done|].
  exists v'. split; [|done]. rewrite <- Hfin. clear v' Hmid' Hfin. rewrite <- Hd.
  unfold value_at in Hv. assert (∃ sh, f_shape f = sh) as [sh Hs] by eauto. rewrite Hs in Hv.
  destruct sh as [t size|max|size gs].
  - apply fmap_Some in Hv as (items & Hev & ->).
    assert (body level f (Items items) = concat items) as Hbody by (unfold body; by rewrite Hs).
    rewrite Hbody in Hroom, Hm. eapply switch_basic; try done; lia.
  - apply bind_Some in Hv as (bs & Hbs & (s & Hc & ->)%fmap_Some).
    assert (body level f (Chars s) = text_bytes level max s) as Hbody by (unfold body; by rewrite Hs).
    rewrite Hbody in Hroom, Hm. eapply switch_text; try done; lia.
  - apply fmap_Some in Hv as (vss & Hev & ->).
    assert (body level f (Structs vss) = concat (wires (level + 1) gs <$> vss)) as Hbody by (unfold body; by rewrite Hs).
    rewrite Hbody in Hroom, Hm. eapply switch_struct; try done; lia.
Qed.
End field.

(** ** Lengths and flags *)

(** What is left of the table starts with another type. *)
Definition other_type (tlv : Z) (rest : list qmi_elem_info) : Prop :=
  match rest with e :: _ => tlv ≠ tlv_type e | [] => False end.

Lemma skip_other tlv rest : other_type tlv rest → skip_same_type tlv rest = Some rest.
Proof. destruct rest as [|e rest]; [done|]. cbn. intros H. by rewrite (proj2 (Z.eqb_neq _ _) H). Qed.

Lemma low_len src off n lsize :
  read_le 4 src off = Some n → Forall is_byte src → 1 ≤ lsize ≤ 4 → n < 256 ^ Z.of_nat (len_width lsize) →
  0 ≤ n ∧ ∃ bs, subrange off lsize src = Some bs ∧ low_bytes bs 1 = n.
Proof.
  intros (bs & Hbs & ->)%fmap_Some Hsrc Hl Hn.
  apply subrange_has in Hbs as Hhas. pose proof (subrange_zlen _ _ _ _ Hbs) as Hz.
  assert (Forall is_byte bs) as Hb.
  { apply subrange_Some in Hbs as (_ & _ & _ & ->). by apply Forall_take, Forall_drop. }
  destruct bs as [|a [|b [|c [|d [|]]]]]; unfold zlen in Hz; cbn in Hz; try lia.
  rewrite !list.Forall_cons in Hb. unfold is_byte in Hb. destruct Hb as (Ha & Hb & Hc & Hd & _).
  cbn [le_decode] in *. split; [lia|]. unfold len_width in Hn.
  assert (lsize = 1 ∨ lsize = 2 ∨ lsize = 3 ∨ lsize = 4) as Hcase by lia.
  assert (∀ xs ys, [a; b; c; d] = xs ++ ys → zlen xs = lsize → subrange off lsize src = Some xs) as Hsub.
  { intros xs ys Heq <-. rewrite Heq in Hhas. by apply has_app in Hhas as [? _]. }
  unfold low_bytes.
  destruct Hcase as [->|[->|[->| ->]]]; cbn in Hn;
    [exists [a]|exists [a; b]|exists [a; b; c]|exists [a; b; c; d]]; (split; [by eapply Hsub|]);
    cbn [length]; match goal with |- context [Z.shiftl ?x ?k] => change (Z.shiftl x k) with 0 end;
    cbn [le_decode]; rewrite u32_small; lia.
Qed.

Section field_steps.
Context (level lo prev : Z) (f : field) (Hf : field_ok level lo prev f) (Hlevel : 1 ≤ level).
Context (src : list Z) (Hsrc : Forall is_byte src) (base room : Z).

Lemma len_width_size lsize tlv loff : data_len_size (mk_ei QMI_DATA_LEN 1 lsize NO_ARRAY tlv loff None) = Z.of_nat (len_width lsize).
Proof. unfold data_len_size, len_width. cbn. by destruct (lsize =? 1). Qed.

Lemma len_step lsize loff max fuel rest n p bytes vr m (lb := le_encode (len_width lsize) n) :
  f_count f = Var lsize loff max → read_le 4 src (base + loff) = Some n → n ≤ max →
  mid level p 0 bytes vr → 0 ≤ bytes → 0 ≤ p → bytes + zlen lb + 3 ≤ room < 2 ^ 31 →
  p + hdr level + zlen lb ≤ zlen m → (level = 1 → is_byte (f_tlv f)) → (level = 1 → other_type (f_tlv f) rest) →
  0 ≤ n ∧ ∃ v',
    encode_loop (S fuel) (len_elems (f_tlv f) (f_count f) ++ value_elem f :: rest) src base room level vr m =
      (if n =? 0
       then encode_loop fuel rest src base room level v' (put p (frame level (f_tlv f) lb) m)
       else encode_loop fuel (value_elem f :: rest) src base room level v' (put (p + hdr level) lb m)) ∧
    (if n =? 0 then mid level (p + zlen (frame level (f_tlv f) lb)) 0 (bytes + zlen (frame level (f_tlv f) lb)) v'
     else mid level p (zlen lb) bytes v' ∧ ev_data_len v' = n).
Proof using All.
  intros Hc Hn Hmax Hmid Hb Hp Hroom Hm Htlv Hrest. pose proof (fo_len _ _ _ _ Hf _ _ _ Hc) as (_ & Hls & Hw & _).
  destruct (low_len _ _ _ lsize Hn Hsrc Hls ltac:(lia)) as (Hn0 & bs & Hbs & Hlow). split; [done|].
  assert (0 ≤ hdr level) by (unfold hdr; destruct (level =? 1); lia).
  rewrite Hc. cbn [len_elems app]. set (e := mk_ei QMI_DATA_LEN _ _ _ _ _ _).
  assert (zlen lb = Z.of_nat (len_width lsize)) as Hlb by (unfold lb; apply zlen_le_encode).
  cbn [encode_loop]. unfold deref, kbind at 1, kret at 1. cbn [tail data_type e encode_count array_type].
  rewrite bool_decide_false by done. cbn [elem_size offset tlv_type]. cbn [set_data_len ev_dst ev_bytes ev_data_len].
  rewrite (kbind_Done _ _ _ _ _ (load_has _ _ _ lsize m (subrange_has _ _ _ _ Hbs) (eq_sym (subrange_zlen _ _ _ _ Hbs)))).
  rewrite Hlow. unfold e at 1. rewrite len_width_size. pose proof Hmid as [Hd _ Hby]. rewrite Hd, Hby, !Z.add_0_r.
  rewrite u32_small by lia. unfold TLV_LEN_SIZE, TLV_TYPE_SIZE.
  destruct (Z.ltb_spec room (Z.of_nat (len_width lsize) + bytes + 2 + 1)); [lia|].
  unfold e at 1. rewrite len_width_size.
  assert (len_width lsize ≤ 4)%nat by (unfold len_width; destruct (lsize =? 1); lia).
  rewrite (kbind_Done _ _ _ _ _ (encode_var_run (len_width lsize) n (p + hdr level) m ltac:(done) ltac:(lia) ltac:(lia))).
  fold lb. rewrite <- Hlb. pose proof (mid_set_data_len level p 0 bytes n _ (mid_set_data_len _ _ _ _ 1 _ Hmid)) as Hmid1.
  destruct (Z.eqb_spec n 0) as [Hz|Hz].
  - destruct (end_last level (f_tlv f) p 0 bytes (zlen lb) lb _ m Hmid1) as (v' & He & Hv'); try done; try lia.
    exists v'. split; [|done].
    replace (set_data_len n _) with (set_data_len n (set_data_len 1 vr)) by done.
    rewrite (kbind_Done _ _ _ _ _ He). cbn [skip_to_next_elem].
    destruct (Z.ltb_spec 1 level) as [|Hl1]; [done|].
    destruct (value_elem_props f) as [-> _]. by rewrite skip_other by (apply Hrest; lia).
  - destruct (end_more level (f_tlv f) p 0 bytes (zlen lb) _ (put (p + hdr level) lb m) Hmid1) as (v' & He & Hv' & Hdl);
      try lia. exists v'. split; [|by rewrite Hdl]. by rewrite (kbind_Done _ _ _ _ _ He).
Qed.
End field_steps.

Lemma value_at_number f base m n v :
  value_at f base m n = Some v → 0 ≤ n → (∀ max, f_shape f = Text max → n = 1) → number v = n.
Proof.
  unfold value_at. intros Hv Hn Htext. destruct (f_shape f) as [t size|max|size gs].
  - apply fmap_Some in Hv as (l & Hl & ->). apply every_length in Hl. cbn. unfold zlen. lia.
  - apply bind_Some in Hv as (bs & _ & (s & _ & ->)%fmap_Some). by rewrite (Htext max).
  - apply fmap_Some in Hv as (l & Hl & ->). apply every_length in Hl. cbn. unfold zlen. lia.
Qed.

Lemma value_at_some f base m n v : value_at f base m n = Some v → v ≠ Absent.
Proof.
  unfold value_at. destruct (f_shape f) as [t size|max|size gs]; intros Hv ->.
  - by apply fmap_Some in Hv as (? & _ & ?).
  - by apply bind_Some in Hv as (? & _ & (? & _ & ?)%fmap_Some).
  - by apply fmap_Some in Hv as (? & _ & ?).
Qed.

Lemma body_empty level f base m v :
  (∀ max, f_shape f ≠ Text max) → value_at f base m 0 = Some v → body level f v = [].
Proof.
  intros Ht. unfold value_at, body. destruct (f_shape f) as [t size|max|size gs]; cbn.
  - by intros [= <-].
  - by destruct (Ht max).
  - by intros [= <-].
Qed.

Lemma tsize_app a b : tsize (a ++ b) = (tsize a + tsize b)%nat.
Proof. unfold tsize. induction a as [|e a IH]; cbn; [done|]. rewrite IH. lia. Qed.

Section field_run.
Context (level lo prev : Z) (f : field) (Hf : field_ok level lo prev f) (Hlevel : 1 ≤ level).
Context (Hnested : ∀ sz gs, f_shape f = Struct sz gs → enc_ok (level + 1) gs).
Context (src : list Z) (Hsrc : Forall is_byte src) (Hlen : zlen src < 2 ^ 31) (base room : Z) (Hroom : room < 2 ^ 31).
Context (rest : list qmi_elem_info) (Hrest : level = 1 → other_type (f_tlv f) rest ∧ is_byte (f_tlv f)).

(** [w] bytes were appended, and the rest of the table follows. *)
Definition appended (fuel k : nat) (ei : list qmi_elem_info) (w : list Z) (p bytes : Z) (vr : enc_vars) (m : list Z) : Prop :=
  ∃ fuel' v', encode_loop fuel ei src base room level vr m = encode_loop fuel' rest src base room level v' (put p w m) ∧
    mid level (p + zlen w) 0 (bytes + zlen w) v' ∧ (fuel ≤ fuel' + k)%nat.

Lemma present_fixed fuel n v p bytes vr m (w := frame level (f_tlv f) (payload level f v)) :
  (f_count f = One ∧ n = 1 ∨ f_count f = Static n) → value_at f base src n = Some v →
  mid level p 0 bytes vr → 0 ≤ bytes → 0 ≤ p →
  bytes + zlen w + 3 - hdr level ≤ room → p + zlen w ≤ zlen m → (esize (value_elem f) ≤ fuel)%nat →
  appended fuel (esize (value_elem f)) (value_elem f :: rest) w p bytes vr m.
Proof using All.
  intros Hn Hv Hmid Hb Hp Hr Hm Hfuel. unfold appended. subst w. pose proof (fo_count _ _ _ _ Hf) as Hmax.
  pose proof (esize_pos (value_elem f)) as Hpos. rewrite zlen_frame in Hr, Hm. pose proof (zlen_nonneg (payload level f v)).
  assert (payload level f v = [] ++ body level f v) as Hpl.
  { unfold payload. by destruct Hn as [[-> _]| ->]. }
  rewrite Hpl, zlen_app in *. destruct fuel as [|fuel]; [lia|].
  destruct (value_step level lo prev f Hf Hlevel Hnested src Hsrc Hlen base room fuel rest n v [] p bytes vr m)
    as (v' & Hrun & Hmid'); rewrite ?zlen_app; try done; try lia.
  - destruct Hn as [[-> ->]|Hc]; [done|]. by rewrite Hc in *.
  - by destruct Hn as [[-> ->]| ->].
  - by intros; apply Hrest.
  - rewrite put_nil in Hrun. exists fuel, v'. split; [exact Hrun|]. split; [exact Hmid'|]. lia.
Qed.

Lemma present_var lsize loff max fuel n v p bytes vr m (w := frame level (f_tlv f) (payload level f v)) :
  f_count f = Var lsize loff max → count_at (f_count f) base src = Some n → value_at f base src n = Some v →
  mid level p 0 bytes vr → 0 ≤ bytes → 0 ≤ p →
  bytes + zlen w + 3 - hdr level ≤ room → p + zlen w ≤ zlen m → (S (esize (value_elem f)) ≤ fuel)%nat →
  appended fuel (S (esize (value_elem f))) (len_elems (f_tlv f) (f_count f) ++ value_elem f :: rest) w p bytes vr m.
Proof using All.
  intros Hc Hn Hv Hmid Hb Hp Hr Hm Hfuel. unfold appended. subst w.
  pose proof (esize_pos (value_elem f)) as Hpos. rewrite zlen_frame in Hr, Hm. rewrite Hc in Hn.
  apply bind_Some in Hn as (k & Hk & Hle). destruct (Z.leb_spec k max) as [Hkm|]; [|done]. injection Hle as ->.
  assert (∀ max, f_shape f ≠ Text max) as Hnt.
  { intros mx Hs. destruct (fo_text _ _ _ _ Hf mx Hs) as [Hone _]. congruence. }
  pose proof (fo_len _ _ _ _ Hf _ _ _ Hc) as (_ & Hls & Hw & _).
  destruct (low_len _ _ _ lsize Hk Hsrc Hls ltac:(lia)) as (Hn0 & _).
  pose proof (value_at_number _ _ _ _ _ Hv Hn0 ltac:(by intros mx Hs; destruct (Hnt mx))) as Hnum.
  assert (payload level f v = le_encode (len_width lsize) n ++ body level f v) as Hpl
    by (unfold payload; by rewrite Hc, Hnum).
  rewrite Hpl, zlen_app in *. set (lb := le_encode (len_width lsize) n) in *.
  pose proof (zlen_nonneg lb). pose proof (zlen_nonneg (body level f v)).
  destruct fuel as [|fuel]; [lia|].
  destruct (len_step level lo prev f Hf Hlevel src Hsrc base room lsize loff max fuel rest n p bytes vr m Hc Hk Hkm Hmid)
    as (_ & v1 & Hrun & Hv1); fold lb; try lia; try (by intros; apply Hrest).
  fold lb in Hrun, Hv1. rewrite Hrun. clear Hrun. destruct (Z.eqb_spec n 0) as [->|Hz].
  - rewrite (body_empty level f base src v Hnt Hv), app_nil_r. exists fuel, v1. split; [done|]. split; [done|lia].
  - destruct Hv1 as [Hmid1 Hdl]. destruct fuel as [|fuel]; [lia|].
    destruct (value_step level lo prev f Hf Hlevel Hnested src Hsrc Hlen base room fuel rest n v lb p bytes v1 m)
      as (v' & Hrun & Hmid'); rewrite ?Hc, ?zlen_app; try done; try (cbn; lia); [by intros; apply Hrest|].
    exists fuel, v'. split; [exact Hrun|]. split; [exact Hmid'|lia].
Qed.

Lemma present_step fuel n v p bytes vr m (w := frame level (f_tlv f) (payload level f v)) :
  count_at (f_count f) base src = Some n → value_at f base src n = Some v → mid level p 0 bytes vr → 0 ≤ bytes → 0 ≤ p →
  bytes + zlen w + 3 - hdr level ≤ room → p + zlen w ≤ zlen m →
  (tsize (len_elems (f_tlv f) (f_count f) ++ [value_elem f]) ≤ fuel)%nat →
  appended fuel (tsize (len_elems (f_tlv f) (f_count f) ++ [value_elem f]))
    (len_elems (f_tlv f) (f_count f) ++ value_elem f :: rest) w p bytes vr m.
Proof using All.
  intros Hn Hv Hmid Hb Hp Hr Hm. assert (∃ c, f_count f = c) as [c Hc] by eauto.
  assert (tsize (len_elems (f_tlv f) c ++ [value_elem f]) =
    match c with Var _ _ _ => S (esize (value_elem f)) | _ => esize (value_elem f) end) as Hts
    by (destruct c; unfold tsize; cbn; lia). rewrite Hc, Hts. intros Hfuel. rewrite Hc in Hn.
  destruct c as [|k|lsize loff max]; cbn [len_elems app].
  - injection Hn as <-. apply (present_fixed fuel 1); auto.
  - injection Hn as <-. apply (present_fixed fuel k); auto.
  - pose proof (present_var lsize loff max fuel n v p bytes vr m) as H. rewrite Hc in H. by apply H.
Qed.

Lemma skip_field o :
  level = 1 →
  skip_to_next_elem (mk_ei QMI_OPT_FLAG 1 1 NO_ARRAY (f_tlv f) o None ::
    (len_elems (f_tlv f) (f_count f) ++ [value_elem f]) ++ rest) level = Some rest.
Proof using Hrest.
  intros Hl. destruct (Hrest Hl) as [Hother _]. rewrite Hl. cbn [skip_to_next_elem Z.ltb Z.compare tlv_type].
  destruct (value_elem_props f) as [Htl _].
  destruct (f_count f) as [|k|lsize loff max]; cbn [len_elems app skip_same_type tlv_type];
    rewrite ?Z.eqb_refl; cbn [skip_same_type]; by rewrite Htl, Z.eqb_refl, skip_other.
Qed.

Lemma field_step fuel v p bytes vr m (w := wire level f v) :
  view f base src = Some v → mid level p 0 bytes vr → 0 ≤ bytes → 0 ≤ p →
  bytes + zlen w + 3 - hdr level ≤ room → p + zlen w ≤ zlen m → (tsize (elems f) ≤ fuel)%nat →
  appended fuel (tsize (elems f)) (elems f ++ rest) w p bytes vr m.
Proof using All.
  intros Hv Hmid Hb Hp Hr Hm Hfuel. subst w. rewrite view_eq in Hv.
  apply bind_Some in Hv as (pr & Hpr & Hv). rewrite elems_eq in *. rewrite tsize_app in *.
  set (es := len_elems (f_tlv f) (f_count f) ++ [value_elem f]) in *.
  assert (es ++ rest = len_elems (f_tlv f) (f_count f) ++ value_elem f :: rest) as Hes
    by (unfold es; by rewrite <- app_assoc).
  assert ((if pr =? 0 then Some Absent else n ← count_at (f_count f) base src; value_at f base src n) = Some v →
    pr ≠ 0 → ∀ fuel vr, mid level p 0 bytes vr → (tsize es ≤ fuel)%nat →
    appended fuel (tsize es) (es ++ rest) (wire level f v) p bytes vr m) as Hpresent.
  { intros Hv' Hpr0 fuel' vr' Hmid' Hfuel'. rewrite (proj2 (Z.eqb_neq pr 0) Hpr0) in Hv'.
    apply bind_Some in Hv' as (n & Hn & Hv'). rewrite Hes. rewrite wire_eq in *.
    pose proof (value_at_some _ _ _ _ _ Hv'). destruct v; [done|..]; by apply (present_step fuel' n). }
  unfold present in Hpr. assert (∃ fl, f_flag f = fl) as [fl Hfl] by eauto. rewrite Hfl in *.
  destruct fl as [o|]; cbn [flag_elems app] in *; [|by injection Hpr as <-; apply Hpresent].
  destruct (fo_flag _ _ _ _ Hf o Hfl) as [Hl1 _]. apply fmap_Some in Hpr as (bs & Hbs & ->).
  destruct fuel as [|fuel]; [unfold tsize in Hfuel; cbn in Hfuel; lia|]. unfold appended. cbn [encode_loop].
  unfold deref, kbind at 1, kret at 1. cbn [data_type encode_count array_type offset tail].
  rewrite bool_decide_false by done.
  rewrite (kbind_Done _ _ _ _ _ (load_has _ _ _ 1 m (subrange_has _ _ _ _ Hbs) (eq_sym (subrange_zlen _ _ _ _ Hbs)))).
  apply (mid_set_data_len _ _ _ _ 1) in Hmid. destruct (Z.eqb_spec (le_decode bs) 0) as [Hz|Hz].
  - injection Hv as <-. fold es. unfold es. rewrite skip_field by done. exists fuel, (set_data_len 1 vr).
    rewrite wire_eq. rewrite put_nil, !Z.add_0_r. split; [done|]. split; [done|]. unfold tsize. cbn. lia.
  - destruct (Hpresent Hv Hz fuel (set_data_len 1 vr) Hmid) as (fuel' & v' & Hrun & Hmid' & Hf');
      [unfold tsize in *; cbn in Hfuel; lia|].
    exists fuel', v'. split; [exact Hrun|]. split; [done|]. unfold tsize in *. cbn. lia.
Qed.
End field_run.

(** ** Whole tables *)

Lemma wires_cons level f fs v vs : wires level (f :: fs) (v :: vs) = wire level f v ++ wires level fs vs.
Proof. done. Qed.

Lemma other_next f fs : NoDup (0 :: (f_tlv <$> f :: fs)) → other_type (f_tlv f) (table fs).
Proof.
  rewrite fmap_cons, !list.NoDup_cons. intros (H0 & Hf & _). destruct fs as [|g fs]; [set_solver|].
  unfold table. cbn [flat_map]. rewrite elems_eq. destruct (value_elem_props g) as [Htl _].
  destruct (f_flag g), (f_count g); cbn; rewrite ?Htl; set_solver.
Qed.

Lemma encode_fields level lo prev fs size : fields_ok level lo prev fs size → 1 ≤ level → enc_ok level fs.
Proof.
  induction 1 as [level lo prev size Hlo|level lo prev f fs size Hf Hst IHst Hok IH]; intros Hlevel
    fuel src base room vs p bytes vr m Hvs Hsrc Hlen Hfuel Hmid Hb Hp Hroom Hm Hl1.
  { injection Hvs as <-. destruct fuel as [|fuel]; [cbn in Hfuel; lia|].
    pose proof (mid_bytes _ _ _ _ _ Hmid) as Hby. cbn. unfold kret. rewrite Hby, put_nil. done. }
  apply bind_Some in Hvs as (v & Hv & Hvs). apply bind_Some in Hvs as (vs' & Hvs & [= <-]).
  rewrite wires_cons, zlen_app in *. pose proof (zlen_nonneg (wire level f v)). pose proof (zlen_nonneg (wires level fs vs')).
  change (table (f :: fs)) with ((elems f ++ flat_map elems fs) ++ [eoti]) in *. rewrite <- app_assoc in *.
  change (flat_map elems fs ++ [eoti]) with (table fs) in *. rewrite tsize_app in Hfuel.
  destruct (field_step level lo prev f Hf Hlevel) with (src := src) (base := base) (room := room) (rest := table fs)
    (fuel := fuel) (v := v) (p := p) (bytes := bytes) (vr := vr) (m := m) as (fuel' & v' & Hrun & Hmid' & Hf'); try done; try lia.
  - intros sz gs Hs. apply (IHst sz gs Hs). lia.
  - intros Hl. destruct (Hl1 Hl) as [Hnd Hby]. split; [by apply other_next|]. by apply list.Forall_cons in Hby as [? _].
  - rewrite Hrun. rewrite (IH Hlevel fuel' src base room vs' (p + zlen (wire level f v)) (bytes + zlen (wire level f v)) v');
      try done; try lia.
    + rewrite put_app by lia. do 2 f_equal. lia.
    + rewrite zlen_put; lia.
    + intros Hl. destruct (Hl1 Hl) as [Hnd Hby]. split; [|by apply list.Forall_cons in Hby as [_ ?]].
      rewrite fmap_cons, !list.NoDup_cons in *. set_solver.
Qed.

(** The encoder.  For every well-formed schema and every structure that holds values of
    it, [qmi_encode] at the top level ends within the given fuel and writes exactly the
    wire format of the values, provided that the buffer has room for it: it answers
    their length and changes no other byte of the buffer. *)
Lemma qmi_encode_writes fs size src base vs dst len m :
  schema_ok fs size → views fs base src = Some vs → Forall is_byte src → zlen src < 2 ^ 31 →
  zlen (wires 1 fs vs) ≤ len < 2 ^ 31 → 0 ≤ dst → dst + zlen (wires 1 fs vs) ≤ zlen m →
  qmi_encode (tsize (table fs)) (Some (table fs)) dst src base len 1 m =
    (Done (zlen (wires 1 fs vs)), put dst (wires 1 fs vs) m).
Proof.
  intros [Hok Htypes Hbytes] Hvs Hsrc Hlen Hroom Hdst Hm. unfold qmi_encode. cbn [Z.eqb].
  apply (encode_fields 1 0 0 fs size Hok ltac:(lia) _ src base len vs dst 0); try done; try lia.
  - split; cbn; unfold TLV_LEN_SIZE, TLV_TYPE_SIZE, hdr; cbn; lia.
  - unfold hdr. cbn. lia.
Qed.

(** Schemas with concrete offsets are checked by computation. *)
Ltac field_check :=
  split; cbn; intros; simplify_eq; cbn; repeat split; try (vm_compute; congruence); auto with lia.
Ltac fields_check :=
  repeat first
    [ apply fields_nil; vm_compute; discriminate
    | apply fields_cons; [field_check|intros ? ? [= <- <-]|] ].

Lemma demo_schema_ok : schema_ok demo_fields 33.
Proof.
  split.
  - unfold demo_fields. fields_check.
  - repeat (apply list.NoDup_cons; split; [set_solver|]). apply NoDup_nil_2.
  - repeat (apply Forall_cons_2; [split; vm_compute; congruence|]). apply Forall_nil_2.
Qed.
