(* ===== verification/QmiRound.v ===== *)
(** * What the QMI encoder writes, the decoder reads back

    For every well-formed schema: decoding the wire format of the values of a
    structure into a zeroed structure gives a structure that holds the same
    values, and so does a message that [qmi_encode_message] produced when it goes
    through [qmi_decode_message]. *)

From S2P Require Import Prelude Memory QmiEncDec QmiSafe QmiSchema QmiEncode.

(** ** Values *)

Lemma decode_basic_run src size soff n items dst room m :
  every (λ o, subrange o size src) soff size (Z.to_nat n) = Some items → 0 ≤ n → 0 ≤ size →
  zlen (concat items) ≤ room → zlen (concat items) < 2 ^ 32 → 0 ≤ dst → dst + zlen (concat items) ≤ zlen m →
  qmi_decode_basic_elem dst src soff n size room m = (Done (zlen (concat items)), put dst (concat items) m).
Proof.
  intros Hev Hn Hsz Hroom Hlt H1 H2. unfold qmi_decode_basic_elem.
  destruct (every_has _ _ _ _ _ Hev) as [Hall _]. pose proof (every_length _ _ _ _ _ Hev) as Hl.
  pose proof (concat_zlen size items Hall) as Hcz. unfold zlen at 2 in Hcz. rewrite Hl, Z2Nat.id in Hcz by done.
  pose proof (zlen_nonneg (concat items)). rewrite <- Hcz, u32_small by lia.
  destruct (Z.ltb_spec room (zlen (concat items))); [lia|].
  by rewrite (kbind_Done _ _ _ _ _ (copy_run _ _ _ _ _ _ _ Hev H1 H2)).
Qed.

(** The number goes into the low bytes of a variable that holds nothing above them. *)
Lemma low_bytes_encode k n old :
  0 ≤ n < 256 ^ Z.of_nat k → 0 ≤ old < 256 ^ Z.of_nat k → (k ≤ 4)%nat → low_bytes (le_encode k n) old = n.
Proof.
  intros Hn Hold Hk. unfold low_bytes. rewrite length_le_encode.
  assert (256 ^ Z.of_nat k = 2 ^ (8 * Z.of_nat k)) as Hp by (rewrite Z.pow_mul_r by lia; done).
  rewrite Z.shiftr_div_pow2, <- Hp, Z.div_small, Z.shiftl_0_l by lia.
  rewrite read_le_encode by (by rewrite <- Hp). apply u32_small. split; [lia|].
  assert (256 ^ Z.of_nat k ≤ 256 ^ 4) by (apply Z.pow_le_mono_r; lia). change (2 ^ 32) with (256 ^ 4). lia.
Qed.

Lemma decode_var_run k n old src soff room m :
  has src soff (le_encode k n) → 0 ≤ n < 256 ^ Z.of_nat k → 0 ≤ old < 256 ^ Z.of_nat k → (k ≤ 4)%nat →
  Z.of_nat k ≤ room → decode_var old src soff (Z.of_nat k) room m = (Done (inr n), m).
Proof.
  intros Hh Hn Hold Hk Hroom. unfold decode_var. rewrite u32_small by lia.
  destruct (Z.ltb_spec room (Z.of_nat k)); [lia|].
  rewrite (kbind_Done _ _ _ _ _ (load_has _ _ _ _ m Hh (eq_sym (zlen_le_encode k n)))).
  by rewrite low_bytes_encode.
Qed.

Lemma decode_chars_run src off s dst room d m :
  has src off s → zlen s ≤ room < 2 ^ 31 → 0 ≤ dst → dst + zlen s < zlen m →
  (let* rc := qmi_decode_basic_elem dst src off (zlen s) 1 room in
   if rc <? 0 then kret rc else store (dst + zlen s) [0] ;;; kret (d + rc)) m =
    (Done (d + zlen s), put dst (s ++ [0]) m).
Proof.
  intros Ho Hr Hd Hm. destruct (chars_every _ _ _ Ho) as [Hev Hcat]. pose proof (zlen_nonneg s).
  assert (zlen [0] = 1) by done.
  pose proof (decode_basic_run src 1 off (zlen s) _ dst room m ltac:(unfold zlen; rewrite Nat2Z.id; exact Hev)) as Hrun.
  rewrite Hcat in Hrun. rewrite (kbind_Done _ _ _ _ _ (Hrun ltac:(lia) ltac:(lia) ltac:(lia) ltac:(lia) ltac:(lia) ltac:(lia))).
  destruct (Z.ltb_spec (zlen s) 0); [lia|].
  rewrite (kbind_Done _ _ _ _ _ (store_put (dst + zlen s) [0] (put dst s m) ltac:(lia) ltac:(rewrite zlen_put; lia))).
  unfold kret. by rewrite put_app by lia.
Qed.

Lemma decode_string_run e src soff max s level dst tlv_len room m :
  elem_len e = max → elem_size e = 1 → has src soff (text_bytes level max s) → zlen s < max →
  (level = 1 ∨ max ≤ 2 ^ 16) → zlen (text_bytes level max s) ≤ tlv_len → (level = 1 → tlv_len = zlen s) →
  tlv_len ≤ room < 2 ^ 31 → 0 ≤ dst → dst + max ≤ zlen m →
  qmi_decode_string_elem e dst src soff tlv_len level room m =
    (Done (zlen (text_bytes level max s)), put dst (s ++ [0]) m).
Proof.
  intros Hel Hes Hh Hs Hmax Htlv Hone Hroom Hd Hm. unfold qmi_decode_string_elem. rewrite Hel, Hes.
  unfold text_bytes in *. pose proof (zlen_nonneg s). destruct (Z.eqb_spec level 1) as [->|Hl].
  - rewrite (Hone eq_refl). specialize (Hone eq_refl).
    rewrite (kbind_Done _ _ m (inr (zlen s, 0)) m) by done. cbn beta iota.
    destruct (Z.leb_spec max (zlen s)); [lia|]. rewrite Z.ltb_irrefl, u32_small, Z.add_0_r by lia.
    rewrite decode_chars_run; [done|done|lia..].
  - set (k := if max <=? U8_MAX then 1%nat else 2%nat) in *.
    apply has_app in Hh as [Hk Ho]. rewrite zlen_app, zlen_le_encode in *.
    assert (string_len_size e = Z.of_nat k) as -> by (unfold string_len_size, k; rewrite Hel; by destruct (max <=? U8_MAX)).
    assert (1 ≤ k ≤ 2)%nat by (unfold k; destruct (max <=? U8_MAX); lia).
    assert (zlen s < 256 ^ Z.of_nat k) by (unfold k; destruct (Z.leb_spec max U8_MAX); unfold U8_MAX in *; cbn; lia).
    rewrite (kbind_Done _ _ m (inr (zlen s, Z.of_nat k)) m).
    2: { by rewrite (kbind_Done _ _ _ _ _ (decode_var_run k (zlen s) 0 src soff room m Hk ltac:(lia) ltac:(lia) ltac:(lia) ltac:(lia))). }
    cbn beta iota. destruct (Z.leb_spec max (zlen s)); [lia|]. destruct (Z.ltb_spec tlv_len (zlen s)); [lia|].
    rewrite u32_small, decode_chars_run; [done|done|lia..].
Qed.

(** ** Inside a structure every field has at least one byte *)

Lemma every_cons_inv {A} (g : Z → option A) o size n l :
  every g o size (S n) = Some l → ∃ x l', l = x :: l' ∧ g o = Some x ∧ every g (o + size) size n = Some l'.
Proof. cbn [every]. intros (x & Hx & (l' & Hl & [= <-])%bind_Some)%bind_Some. eauto. Qed.

Lemma wires_pos level lo prev fs size base m vs :
  fields_ok level lo prev fs size → 2 ≤ level → fs ≠ [] → views fs base m = Some vs → 1 ≤ zlen (wires level fs vs).
Proof.
  intros Hok. revert base m vs. induction Hok as [|level lo prev f fs size Hf Hst IHst Hok IH]; intros base m vs Hl Hne Hvs; [done|].
  apply bind_Some in Hvs as (v & Hv & Hvs). apply bind_Some in Hvs as (vs' & Hvs & [= <-]).
  rewrite wires_cons, zlen_app. pose proof (zlen_nonneg (wires level fs vs')). cut (1 ≤ zlen (wire level f v)); [lia|].
  rewrite view_eq in Hv. apply bind_Some in Hv as (p & Hp & Hv). unfold present in Hp.
  destruct (f_flag f) as [o|] eqn:Hfl; [destruct (fo_flag _ _ _ _ Hf o Hfl); lia|]. injection Hp as <-. cbn [Z.eqb] in Hv.
  apply bind_Some in Hv as (n & Hn & Hv). pose proof (value_at_some _ _ _ _ _ Hv) as Hna.
  rewrite wire_eq. replace (match v with Absent => _ | _ => _ end) with (payload level f v)
    by (unfold frame; rewrite (proj2 (Z.eqb_neq level 1)) by lia; by destruct v).
  unfold payload. rewrite zlen_app. pose proof (fo_count _ _ _ _ Hf) as Hmax.
  pose proof (zlen_nonneg (body level f v)). pose proof (zlen_nonneg (len_bytes (f_count f) (number v))).
  destruct (f_count f) as [|k|lsize loff max] eqn:Hc.
  3: { cbn [len_bytes] in *. rewrite zlen_le_encode. unfold len_width. destruct (lsize =? 1); lia. }
  all: injection Hn as <-; cbn [max_count] in Hmax; cut (1 ≤ zlen (body level f v)); [lia|].
  all: unfold value_at in Hv; unfold body; destruct (f_shape f) as [t sz|mx|sz gs] eqn:Hs.
  all: try (apply fmap_Some in Hv as (l & Hev & ->)).
  all: try (apply bind_Some in Hv as (bs & _ & (s & _ & ->)%fmap_Some)).
  all: try (unfold text_bytes; rewrite (proj2 (Z.eqb_neq level 1)), zlen_app, zlen_le_encode by lia;
    pose proof (zlen_nonneg s); destruct (mx <=? U8_MAX); lia).
  all: try (destruct (Z.to_nat _) as [|k'] eqn:Hk in Hev; [lia|];
    apply every_cons_inv in Hev as (x & l' & -> & Hx & _); rewrite ?fmap_cons, zlen_concat_cons).
  all: try (destruct (fo_basic _ _ _ _ Hf t sz Hs); pose proof (zlen_nonneg (concat l'));
    rewrite (subrange_zlen _ _ _ _ Hx); lia).
  all: destruct (fo_struct _ _ _ _ Hf sz gs Hs) as [_ Hgs];
    pose proof (zlen_nonneg (concat (wires (level + 1) gs <$> l')));
    pose proof (IHst sz gs eq_refl _ _ _ ltac:(lia) Hgs Hx); lia.
Qed.

(** ** Values in memory *)

(** Decoding a structure of [size] bytes into [dst]: the fields hold the values. *)
Definition inst_ok (dec : Z → Z → Z → M Z) (level : Z) (gs : list field) (size : Z) (src : list Z) : Prop :=
  ∀ dst soff len m orig o vs, views gs o orig = Some vs → Forall is_byte orig → has src soff (wires level gs vs) →
    zlen (wires level gs vs) ≤ len < 2 ^ 31 → 0 ≤ dst → dst + size ≤ zlen m →
    ∃ m', dec dst soff len m = (Done (zlen (wires level gs vs)), m') ∧ within dst size m m' ∧ views gs dst m' = Some vs.

Lemma decode_struct_loop_run dec level gs size src prev tlv_len :
  fields_ok level 0 prev gs size → 2 ≤ level → gs ≠ [] → 1 ≤ size → inst_ok dec level gs size src → tlv_len < 2 ^ 31 →
  ∀ n dst soff done m orig o vss, every (λ o, views gs o orig) o size n = Some vss → Forall is_byte orig →
    has src soff (concat (wires level gs <$> vss)) → 0 ≤ done → done + zlen (concat (wires level gs <$> vss)) ≤ tlv_len →
    0 ≤ dst → dst + Z.of_nat n * size ≤ zlen m →
    ∃ m', decode_struct_loop dec n dst soff size tlv_len done m =
        (Done (inr (0%nat, done + zlen (concat (wires level gs <$> vss)))), m') ∧
      within dst (Z.of_nat n * size) m m' ∧ every (λ o, views gs o m') dst size n = Some vss.
Proof.
  intros Hok Hl Hne Hsz Hdec Htl. induction n as [|n IH]; intros dst soff done m orig o vss Hev Hby Hh H1 H2 H3 H4.
  { injection Hev as <-. exists m. cbn. by rewrite Z.add_0_r. }
  apply every_cons_inv in Hev as (vs & l & -> & Hvs & Hev). rewrite fmap_cons in *. rewrite zlen_concat_cons in *.
  cbn [concat] in Hh. apply has_app in Hh as [Hh Hhl].
  pose proof (wires_pos _ _ _ _ _ _ _ _ Hok Hl Hne Hvs) as Hpos. pose proof (zlen_nonneg (concat (wires level gs <$> l))).
  cbn [decode_struct_loop]. destruct (Z.leb_spec tlv_len done); [lia|]. rewrite u32_small by lia.
  destruct (Hdec dst soff (tlv_len - done) m orig o vs Hvs Hby Hh ltac:(lia) H3 ltac:(lia)) as (m1 & Hrun & Hw1 & Hv1).
  rewrite (kbind_Done _ _ _ _ _ Hrun). destruct (Z.ltb_spec (zlen (wires level gs vs)) 0); [lia|].
  pose proof (within_zlen _ _ _ _ Hw1) as Hz1.
  destruct (IH (dst + size) (soff + zlen (wires level gs vs)) (done + zlen (wires level gs vs)) m1 orig (o + size) l Hev Hby Hhl)
    as (m2 & Hrun2 & Hw2 & Hv2); try lia.
  exists m2. rewrite Hrun2. split; [by rewrite Z.add_assoc|]. split.
  - eapply within_trans; [eapply within_mono; [exact Hw1|lia..]|eapply within_mono; [exact Hw2|lia..]].
  - cbn [every]. assert (views gs dst m2 = Some vs) as ->.
    { rewrite <- Hv1. apply (views_same level 0 prev gs size); [done|].
      eapply within_same; [exact Hw2|]. left. lia. }
    cbn. by rewrite Hv2.
Qed.

Lemma string_read off max s m :
  has m off (s ++ [0]) → Forall (λ c, c ≠ 0) s → zlen s < max → off + max ≤ zlen m →
  (bs ← subrange off max m; c_string bs) = Some s.
Proof.
  intros Hh Hs Hmax Hm. pose proof (has_range _ _ _ Hh) as [Hoff _]. unfold subrange.
  rewrite bool_decide_true by (unfold zlen in *; lia). cbn [mbind option_bind]. apply c_string_Some.
  apply has_split in Hh as (pre & post & -> & ->). unfold zlen. rewrite Nat2Z.id, drop_app_length.
  rewrite <- app_assoc. cbn [app]. unfold zlen in Hmax.
  destruct (Z.to_nat max - length s)%nat as [|k] eqn:Hk; [lia|]. exists (take k post). split; [|done].
  rewrite take_app_ge, Hk by lia. done.
Qed.

Lemma decode_value_basic dec e dst src soff n tlv_len level room :
  basic_type (data_type e) = true →
  decode_value dec e dst src soff n tlv_len level room = qmi_decode_basic_elem dst src soff n (elem_size e) room.
Proof. unfold decode_value. by destruct (data_type e). Qed.

Section field.
Context (level lo prev : Z) (f : field) (Hf : field_ok level lo prev f) (Hlevel : 1 ≤ level).
Context (src : list Z) (dec : list qmi_elem_info → Z → Z → Z → M Z).
Context (Hdec : ∀ sz gs, f_shape f = Struct sz gs →
  inst_ok (dec (table gs)) (level + 1) gs sz src ∧ fields_ok (level + 1) 0 0 gs sz).

(** The decoder writes the value [v] of [n] instances, found at [soff], into the field. *)
Definition value_written (base n : Z) (v : value) (soff tlv_len room : Z) (m : list Z) : Prop :=
  ∃ m', decode_value dec (value_elem f) (base + f_off f) src soff n tlv_len level room m =
      (Done (zlen (body level f v)), m') ∧
    within (base + f_off f) (value_span f) m m' ∧ value_at f base m' n = Some v.

Lemma basic_written t size base orig o n items soff tlv_len room m :
  f_shape f = Basic t size → every (λ o, subrange o size orig) o size (Z.to_nat n) = Some items →
  0 ≤ n ≤ max_count (f_count f) → has src soff (concat items) → zlen (concat items) ≤ room < 2 ^ 31 →
  0 ≤ base + f_off f → base + f_end f ≤ zlen m → value_written base n (Items items) soff tlv_len room m.
Proof using All.
  intros Hs Hev Hn Hh Hr Hb Hm. destruct (fo_basic _ _ _ _ Hf t size Hs) as [Ht Hsz].
  destruct (every_has _ _ _ _ _ Hev) as [Hall _]. pose proof (every_length _ _ _ _ _ Hev) as Hl.
  pose proof (concat_zlen size items Hall) as Hcz. unfold zlen at 2 in Hcz. rewrite Hl, Z2Nat.id in Hcz by lia.
  unfold f_end, value_span in *. rewrite Hs in *. assert (n * size ≤ max_count (f_count f) * size) by nia.
  pose proof (has_every _ _ _ _ Hall Hh) as Hev2. rewrite Hl in Hev2.
  exists (put (base + f_off f) (concat items) m). split; [|split].
  - rewrite decode_value_basic by (unfold value_elem; by rewrite Hs). unfold value_elem, body. rewrite Hs.
    cbn [elem_size]. apply decode_basic_run; try done; lia.
  - unfold value_span. rewrite Hs. eapply within_mono; [apply put_within; lia|lia|lia].
  - unfold value_at. rewrite Hs. rewrite <- Hl. rewrite has_every; [done|done|]. apply subrange_put; lia.
Qed.

Lemma text_written max base bs s n soff tlv_len room m :
  f_shape f = Text max → c_string bs = Some s → zlen bs = max → has src soff (text_bytes level max s) →
  zlen (text_bytes level max s) ≤ tlv_len → (level = 1 → tlv_len = zlen s) → tlv_len ≤ room < 2 ^ 31 →
  0 ≤ base + f_off f → base + f_end f ≤ zlen m → value_written base n (Chars s) soff tlv_len room m.
Proof using All.
  intros Hs (junk & -> & Hnz)%c_string_Some Hmax Hh Htl Hone Hr Hb Hm.
  destruct (fo_text _ _ _ _ Hf max Hs) as (_ & _ & Hlev). unfold f_end, value_span in *. rewrite Hs in *.
  assert (zlen s + 1 ≤ max ∧ zlen (s ++ [0]) = zlen s + 1) as [Hsm Hs0].
  { rewrite zlen_app in Hmax. rewrite zlen_app. unfold zlen in *. cbn [length] in *. lia. }
  exists (put (base + f_off f) (s ++ [0]) m). split; [|split].
  - unfold decode_value, value_elem, body. rewrite Hs. cbn [data_type].
    apply decode_string_run; try done; lia.
  - unfold value_span. rewrite Hs. eapply within_mono; [apply put_within; lia|lia|lia].
  - unfold value_at. rewrite Hs. pose proof (string_read (base + f_off f) max s (put (base + f_off f) (s ++ [0]) m)) as Hread.
    destruct (subrange _ _ _) as [bs|]; cbn [mbind option_bind] in *.
    + rewrite Hread; [done|apply subrange_put; lia|done|lia|rewrite zlen_put; lia].
    + discriminate Hread; [apply subrange_put; lia|done|lia|rewrite zlen_put; lia].
Qed.

Lemma struct_written size gs base orig o n vss soff tlv_len room m (w := concat (wires (level + 1) gs <$> vss)) :
  f_shape f = Struct size gs → every (λ o, views gs o orig) o size (Z.to_nat n) = Some vss → Forall is_byte orig →
  0 ≤ n ≤ max_count (f_count f) → has src soff w → zlen w ≤ tlv_len → (level = 1 → tlv_len = zlen w) →
  tlv_len ≤ room < 2 ^ 31 →
  0 ≤ base + f_off f → base + f_end f ≤ zlen m → value_written base n (Structs vss) soff tlv_len room m.
Proof using All.
  intros Hs Hev Hby Hn Hh Htl Hone Hr Hb Hm. destruct (fo_struct _ _ _ _ Hf size gs Hs) as [Hsz Hne].
  destruct (Hdec size gs Hs) as [Hinst Hok]. unfold f_end, value_span in *. rewrite Hs in *.
  assert (n * size ≤ max_count (f_count f) * size) by nia.
  destruct (decode_struct_loop_run _ (level + 1) gs size src 0 tlv_len Hok ltac:(lia) Hne Hsz Hinst ltac:(lia)
    (Z.to_nat n) (base + f_off f) soff 0 m orig o vss Hev Hby Hh) as (m' & Hrun & Hw & Hv); fold w; rewrite ?Z2Nat.id by lia; try lia.
  fold w in Hrun. rewrite Z2Nat.id in Hw by lia. exists m'. split; [|split].
  - unfold decode_value, value_elem, body. rewrite Hs. cbn [data_type ei_array default]. unfold id, qmi_decode_struct_elem.
    cbn [elem_size]. destruct (Z.ltb_spec room tlv_len); [lia|]. rewrite (kbind_Done _ _ _ _ _ Hrun). rewrite Z.add_0_l.
    fold w. cbn [Nat.eqb negb orb]. destruct (Z.ltb_spec tlv_len (zlen w)); [lia|]. rewrite !andb_false_r, orb_false_r.
    destruct (Z.leb_spec (level + 1) 2); [|done]. rewrite (Hone ltac:(lia)), Z.eqb_refl. done.
  - unfold value_span. rewrite Hs. eapply within_mono; [exact Hw|lia|lia].
  - unfold value_at. rewrite Hs, Hv. done.
Qed.

Lemma value_run base orig o n v soff tlv_len room m :
  value_at f o orig n = Some v → Forall is_byte orig → 0 ≤ n ≤ max_count (f_count f) → has src soff (body level f v) →
  zlen (body level f v) ≤ tlv_len → (level = 1 → tlv_len = zlen (body level f v)) → tlv_len ≤ room < 2 ^ 31 →
  0 ≤ base + f_off f → base + f_end f ≤ zlen m → value_written base n v soff tlv_len room m.
Proof using All.
  intros Hv Hby Hn Hh Htl Hone Hr Hb Hm. unfold value_at in Hv. unfold body in Hh, Htl, Hone.
  assert (∃ sh, f_shape f = sh) as [sh Hs] by eauto. rewrite Hs in Hv, Hh, Htl, Hone. destruct sh as [t size|max|size gs].
  - apply fmap_Some in Hv as (items & Hev & ->). eapply basic_written; try done; lia.
  - apply bind_Some in Hv as (bs & Hbs & (s & Hc & ->)%fmap_Some). pose proof (subrange_zlen _ _ _ _ Hbs).
    eapply text_written; try done. intros Hl. rewrite (Hone Hl). unfold text_bytes. by rewrite Hl.
  - apply fmap_Some in Hv as (vss & Hev & ->). eapply struct_written; try done; lia.
Qed.

(** ** One element *)

Context (rest : list qmi_elem_info) (base : Z).

Lemma value_type : data_type (value_elem f) ≠ QMI_OPT_FLAG ∧ data_type (value_elem f) ≠ QMI_DATA_LEN ∧
  data_type (value_elem f) ≠ QMI_EOTI.
Proof using All.
  unfold value_elem. assert (∃ sh, f_shape f = sh) as [sh Hs] by eauto. rewrite Hs. destruct sh as [t size|max|size gs]; cbn; [|done..].
  destruct (fo_basic _ _ _ _ Hf t size Hs) as [Ht _]. by destruct t.
Qed.

Definition flag_put (m : list Z) : list Z := match f_flag f with Some o => put (base + o) [1] m | None => m end.
Definition len_put (n : Z) (m : list Z) : list Z :=
  match f_count f with Var _ loff _ => put (base + loff) (le_encode 4 n) m | _ => m end.

Lemma opt_run m :
  0 ≤ base + lo → base + f_end f ≤ zlen m →
  decode_opt_flag base (elems f ++ rest) m = (Done (len_elems (f_tlv f) (f_count f) ++ value_elem f :: rest), flag_put m) ∧
  within (base + lo) (after_flag lo f - lo) m (flag_put m) ∧ ∃ p, present f base (flag_put m) = Some p ∧ p ≠ 0.
Proof using All.
  intros Hb Hm. pose proof (field_bounds _ _ _ _ Hf) as (B1 & B2 & B3 & B4). rewrite elems_eq, <- !app_assoc. cbn [app].
  unfold decode_opt_flag, flag_put, present, after_flag in *.
  assert (∃ fl, f_flag f = fl) as [fl Hfl] by eauto. rewrite Hfl in *. destruct fl as [o|]; cbn [flag_elems app].
  - destruct (fo_flag _ _ _ _ Hf o Hfl) as [_ Ho]. assert (zlen [1] = 1) as Hz by done. split; [|split].
    + unfold deref, kbind at 1, kret at 1. cbn [data_type]. rewrite bool_decide_true by done. cbn [offset tail].
      by rewrite (kbind_Done _ _ _ _ _ (store_put (base + o) [1] m ltac:(lia) ltac:(lia))).
    + eapply within_mono; [apply put_within; lia|lia|lia].
    + exists 1. unfold read_le. rewrite <- Hz at 1. rewrite subrange_put by lia. done.
  - split; [|split; [done|by exists 1]].
    destruct value_type as (Hv1 & _).
    destruct (f_count f) as [|k|lsize loff max]; cbn [len_elems app]; unfold deref, kbind, kret; cbn;
      by rewrite bool_decide_false.
Qed.

Lemma decoded_count n dl :
  0 ≤ n ≤ max_count (f_count f) → (∀ max, f_shape f = Text max → n = 1) →
  match f_count f with One => n = 1 | Static k => n = k | Var _ _ _ => dl = n end → decode_count (value_elem f) dl = Some n.
Proof using All.
  intros Hr Htext Hn. unfold decode_count, value_elem.
  assert (∃ sh, f_shape f = sh) as [sh Hs] by eauto. rewrite Hs. destruct sh as [t size|max|size gs]; cbn.
  2: { f_equal. by rewrite (Htext max). }
  all: destruct (f_count f) as [|k|lsize loff max]; cbn in *; subst; [done..|].
  all: by rewrite (proj2 (Z.ltb_ge max n)) by lia.
Qed.

Lemma len_run soff len dl tlv_len d n m (lb := len_bytes (f_count f) n) :
  0 ≤ n ≤ max_count (f_count f) → has src (soff + d) lb → 0 ≤ d → d + zlen lb ≤ len < 2 ^ 31 → zlen lb ≤ tlv_len < 2 ^ 31 →
  0 ≤ dl ≤ prev → 0 ≤ base + lo → base + f_end f ≤ zlen m →
  (match f_count f with One => n = 1 | Static k => n = k | Var _ _ _ => True end) →
  ∃ dl', decode_data_len base src soff len (len_elems (f_tlv f) (f_count f) ++ value_elem f :: rest) dl tlv_len d m =
      (Done (inr (value_elem f :: rest, dl', tlv_len - zlen lb, d + zlen lb)), len_put n m) ∧
    (match f_count f with Var _ _ _ => dl' = n | _ => True end) ∧
    within (base + after_flag lo f) (after_len lo f - after_flag lo f) m (len_put n m) ∧
    count_at (f_count f) base (len_put n m) = Some n.
Proof using All.
  intros Hn Hh Hd Hlen Htl Hdl Hb Hm Hcnt. pose proof (field_bounds _ _ _ _ Hf) as (B1 & B2 & B3 & B4).
  unfold decode_data_len, len_put, lb, after_len in *. destruct value_type as (_ & Hv2 & _).
  assert (∃ c, f_count f = c) as [c Hc] by eauto. rewrite Hc in *.
  destruct c as [|k|lsize loff max]; cbn [len_elems app len_bytes] in *.
  1, 2: exists dl; rewrite !Z.sub_0_r, !Z.add_0_r; subst;
    (split; [unfold deref, kbind, kret; cbn; by rewrite bool_decide_false|done]).
  destruct (fo_len _ _ _ _ Hf _ _ _ Hc) as (Hlo & Hls & Hmax & Hprev). cbn [max_count] in Hn.
  rewrite zlen_le_encode in *. exists n. set (w := len_width lsize) in *.
  assert (w ≤ 2)%nat by (unfold w, len_width; destruct (lsize =? 1); lia).
  assert (zlen (le_encode 4 n) = 4) as H4 by (by rewrite zlen_le_encode).
  split; [|split; [done|split]].
  - unfold deref, kbind at 1, kret at 1. cbn [data_type]. rewrite bool_decide_true by done.
    rewrite len_width_size, u32_small by lia. fold w.
    rewrite (kbind_Done _ _ _ _ _ (decode_var_run w n dl src (soff + d) (len - d) m Hh ltac:(lia) ltac:(lia) ltac:(lia) ltac:(lia))).
    cbn [offset tail]. rewrite (kbind_Done _ _ _ _ _ (store_put (base + loff) (le_encode 4 n) m ltac:(lia) ltac:(lia))).
    unfold kret. by rewrite !u32_small by lia.
  - eapply within_mono; [apply put_within; lia|lia|lia].
  - cbn [count_at]. unfold read_le. rewrite <- H4 at 1. rewrite subrange_put by lia. cbn [fmap option_fmap option_map mbind option_bind].
    rewrite read_le_encode; [by rewrite (proj2 (Z.leb_le n max)) by lia|].
    assert (256 ^ Z.of_nat w ≤ 256 ^ 4) by (apply Z.pow_le_mono_r; lia). change (2 ^ (8 * Z.of_nat 4)) with (256 ^ 4). lia.
Qed.

Lemma view_present orig o v :
  view f o orig = Some v → v ≠ Absent → Forall is_byte orig →
  ∃ n, value_at f o orig n = Some v ∧ 0 ≤ n ≤ max_count (f_count f) ∧ number v = n ∧
    match f_count f with One => n = 1 | Static k => n = k | Var _ _ _ => True end ∧
    (∀ max, f_shape f = Text max → n = 1).
Proof using All.
  rewrite view_eq. intros (p & _ & Hv)%bind_Some Hna Hby. destruct (p =? 0); [congruence|].
  apply bind_Some in Hv as (n & Hn & Hv). exists n. pose proof (count_at_max _ _ _ _ Hn) as Hmax.
  pose proof (fo_count _ _ _ _ Hf) as Hc1.
  assert (0 ≤ n ∧ match f_count f with One => n = 1 | Static k => n = k | Var _ _ _ => True end) as [Hn0 Hcnt].
  { assert (∃ c, f_count f = c) as [c Hc] by eauto. rewrite Hc in *. destruct c as [|k|lsize loff max]; cbn in Hn.
    - injection Hn as <-. lia.
    - injection Hn as <-. cbn in *. lia.
    - apply bind_Some in Hn as (k & Hk & Hle). destruct (k <=? max) eqn:Hkm; [|done]. injection Hle as <-.
      destruct (fo_len _ _ _ _ Hf _ _ _ Hc) as (_ & Hls & Hw & _).
      destruct (low_len _ _ _ lsize Hk Hby Hls ltac:(lia)) as [? _]. done. }
  assert (∀ max, f_shape f = Text max → n = 1) as Htext.
  { intros max Hs. destruct (fo_text _ _ _ _ Hf max Hs) as [Hone _]. by rewrite Hone in Hcnt. }
  split_and!; try done. by apply (value_at_number f o orig).
Qed.

Lemma element_run next soff len dl tlv_len d orig o v m (pl := payload level f v) :
  view f o orig = Some v → v ≠ Absent → Forall is_byte orig → has src (soff + d) pl → 0 ≤ d →
  d + zlen pl ≤ len < 2 ^ 31 → zlen pl ≤ tlv_len ≤ len - d → (level = 1 → tlv_len = zlen pl) → 0 ≤ dl ≤ prev →
  0 ≤ base + lo → base + f_end f ≤ zlen m →
  ∃ n m', decode_element dec next base src soff len level (elems f ++ rest) dl tlv_len d m =
      next rest n (d + zlen pl) m' ∧
    within (base + lo) (f_end f - lo) m m' ∧ view f base m' = Some v ∧ 0 ≤ n ≤ max_count (f_count f).
Proof using All.
  intros Hv Hna Hby Hh Hd Hlen Htl Hone Hdl Hb Hm. pose proof (field_bounds _ _ _ _ Hf) as (B1 & B2 & B3 & B4).
  destruct (view_present orig o v Hv Hna Hby) as (n & Hval & Hn & Hnum & Hcnt & Htext).
  subst pl. unfold payload in *. rewrite Hnum in *. set (lb := len_bytes (f_count f) n) in *.
  apply has_app in Hh as [Hhl Hhb]. rewrite zlen_app in *. pose proof (zlen_nonneg lb). pose proof (zlen_nonneg (body level f v)).
  destruct (opt_run m Hb Hm) as (Hopt & Hw1 & p & Hp & Hp0). pose proof (within_zlen _ _ _ _ Hw1) as Hz1.
  destruct (len_run soff len dl tlv_len d n (flag_put m)) as (dl' & Hlr & Hdl' & Hw2 & Hcount); fold lb; try done; try lia.
  pose proof (within_zlen _ _ _ _ Hw2) as Hz2. set (m2 := len_put n (flag_put m)) in *.
  destruct (value_run base orig o n v (soff + (d + zlen lb)) (tlv_len - zlen lb) (len - (d + zlen lb)) m2)
    as (m3 & Hvr & Hw3 & Hval3); try done; try lia; [by rewrite Z.add_assoc|].
  exists n, m3. split; [|split; [|split; [|done]]].
  - unfold decode_element. rewrite (kbind_Done _ _ _ _ _ Hopt). rewrite (kbind_Done _ _ _ _ _ Hlr).
    fold lb. cbn beta iota. unfold deref, kbind at 1, kret at 1.
    rewrite (decoded_count n dl' Hn Htext) by (by destruct (f_count f)).
    destruct (value_elem_props f) as [_ ->]. rewrite (u32_small (len - _)) by lia.
    rewrite (kbind_Done _ _ _ _ _ Hvr). cbn [tail].
    destruct (Z.ltb_spec (zlen (body level f v)) 0); [lia|]. rewrite u32_small by lia. by rewrite Z.add_assoc.
  - eapply within_trans; [eapply within_mono; [exact Hw1|lia..]|].
    eapply within_trans; [eapply within_mono; [exact Hw2|lia..]|]. unfold f_end. eapply within_mono; [exact Hw3|lia..].
  - rewrite view_eq. assert (present f base m3 = Some p) as ->.
    { rewrite <- Hp. unfold present, after_flag in *. destruct (f_flag f) as [fo|] eqn:Hfl; [|done].
      transitivity (read_le 1 m2 (base + fo)).
      - eapply read_le_same; [eapply (within_same _ _ (base + fo) (base + fo + 1)); [exact Hw3|left; lia]|lia..].
      - eapply read_le_same; [eapply (within_same _ _ (base + fo) (base + fo + 1)); [exact Hw2|left; lia]|lia..]. }
    cbn [mbind option_bind]. rewrite (proj2 (Z.eqb_neq p 0) Hp0).
    assert (count_at (f_count f) base m3 = Some n) as ->.
    { rewrite <- Hcount. unfold count_at, after_len in *. destruct (f_count f) as [| |lsize loff max]; [done..|].
      rewrite (read_le_same (base + loff) (base + loff + 4) 4 (base + loff) m2 m3); [done| |lia..].
      eapply within_same; [exact Hw3|left; lia]. }
    exact Hval3.
Qed.
End field.

(** ** Inside a structure *)

Lemma elems_head level lo prev f : field_ok level lo prev f → ∃ e l, elems f = e :: l ∧ data_type e ≠ QMI_EOTI.
Proof.
  intros Hf. rewrite elems_eq. destruct (f_flag f), (f_count f); cbn; try (by eexists _, _);
    eexists _, _; (split; [done|]); unfold value_elem; destruct (f_shape f) as [t size|max|size gs] eqn:Hs; try done;
    cbn; destruct (fo_basic _ _ _ _ Hf t size Hs) as [Ht _]; by destruct t.
Qed.

Lemma table_cons f fs : table (f :: fs) = elems f ++ table fs.
Proof. unfold table. cbn [flat_map]. by rewrite app_assoc. Qed.

(** The nested tables of a field need less fuel than the field. *)
Lemma nested_fuel f sz gs : f_shape f = Struct sz gs → (tsize (table gs) < tsize (elems f))%nat.
Proof.
  intros Hs. rewrite elems_eq, !tsize_app. unfold value_elem. rewrite Hs.
  pose proof (tsize_nested (mk_ei QMI_STRUCT (max_count (f_count f)) sz (atype (f_count f)) (f_tlv f) (f_off f)
    (Some (table gs))) (table gs) eq_refl). unfold tsize at 4. cbn [sum_list_with]. lia.
Qed.

Lemma nested_wire level lo prev f o orig v :
  field_ok level lo prev f → 2 ≤ level → view f o orig = Some v → v ≠ Absent ∧ wire level f v = payload level f v.
Proof.
  intros Hf Hl Hv. assert (v ≠ Absent) as Hna.
  { rewrite view_eq in Hv. apply bind_Some in Hv as (p & Hp & Hv). unfold present in Hp.
    destruct (f_flag f) as [fo|] eqn:Hfl; [destruct (fo_flag _ _ _ _ Hf fo Hfl); lia|]. injection Hp as <-.
    cbn [Z.eqb] in Hv. apply bind_Some in Hv as (n & _ & Hv). by eapply value_at_some. }
  split; [done|]. rewrite wire_eq. unfold frame. rewrite (proj2 (Z.eqb_neq level 1)) by lia. by destruct v.
Qed.

Lemma views_cons f fs base m v vs :
  view f base m = Some v → views fs base m = Some vs → views (f :: fs) base m = Some (v :: vs).
Proof. intros H1 H2. unfold views in *. cbn. rewrite H1. cbn. by rewrite H2. Qed.

(** Decoding the later fields keeps the value of a field. *)
Lemma view_kept level lo prev f base size m m' :
  field_ok level lo prev f → (∀ sz gs, f_shape f = Struct sz gs → fields_ok (level + 1) 0 0 gs sz) →
  within (base + f_end f) size m m' → view f base m' = view f base m.
Proof.
  intros Hf Hst Hw. eapply (view_same_field level lo prev); [done| |].
  - intros sz gs Hs o' Ho1 Ho2. eapply (views_same (level + 1) 0 0 gs sz); [by apply Hst|].
    eapply within_same; [exact Hw|left; lia].
  - eapply within_same; [exact Hw|left; lia].
Qed.

Lemma decode_nested level lo prev fs size :
  fields_ok level lo prev fs size → 2 ≤ level →
  ∀ fuel tbl src soff len base dl d orig o vs m (w := wires level fs vs),
    views fs o orig = Some vs → Forall is_byte orig → has src (soff + d) w → 0 ≤ d → d + zlen w ≤ len < 2 ^ 31 →
    0 ≤ dl ≤ prev → 0 ≤ base + lo → base + size ≤ zlen m → (tsize (table fs) ≤ fuel)%nat →
    ∃ m', decode_loop fuel tbl (table fs) base src soff len level dl d m = (Done (d + zlen w), m') ∧
      within (base + lo) (size - lo) m m' ∧ views fs base m' = Some vs.
Proof.
  induction 1 as [level lo prev size Hlo|level lo prev f fs size Hf Hst IHst Hok IH];
    intros Hl fuel tbl src soff len base dl d orig o vs m w Hvs Hby Hh Hd Hlen Hdl Hb Hm Hfuel; subst w.
  { injection Hvs as <-. exists m. destruct fuel as [|fuel]; [cbn in Hfuel; lia|]. cbn [decode_loop table flat_map app wires zip_flat].
    rewrite Z.add_0_r. split; [|done]. destruct (len <=? d); [done|]. by rewrite (proj2 (Z.eqb_neq level 1)) by lia. }
  pose proof (wires_pos _ _ _ _ _ _ _ _ (fields_cons _ _ _ _ _ _ Hf Hst Hok) Hl ltac:(done) Hvs) as Hpos.
  apply bind_Some in Hvs as (v & Hv & Hvs). apply bind_Some in Hvs as (vs' & Hvs & [= <-]).
  rewrite wires_cons, zlen_app in *. apply has_app in Hh as [Hhf Hhr].
  pose proof (zlen_nonneg (wire level f v)). pose proof (zlen_nonneg (wires level fs vs')).
  rewrite table_cons, tsize_app in *. destruct (elems_head _ _ _ _ Hf) as (e & l & He & Hne).
  assert (1 ≤ tsize (elems f))%nat by (rewrite He; unfold tsize; cbn; pose proof (esize_pos e); lia).
  destruct fuel as [|fuel]; [lia|]. pose proof (field_bounds _ _ _ _ Hf) as HB. pose proof (fields_bounds _ _ _ _ _ Hok) as HB'.
  destruct (nested_wire _ _ _ _ _ _ _ Hf Hl Hv) as [Hna Hw]. rewrite Hw in *.
  destruct (element_run level lo prev f Hf ltac:(lia) src
    (λ t dst soff len, decode_loop fuel t t dst src soff len (level + 1) 0 0)) with (rest := table fs) (base := base)
    (next := λ ei data_len decoded, decode_loop fuel tbl ei base src soff len level data_len decoded)
    (soff := soff) (len := len) (dl := dl) (tlv_len := len - d) (d := d) (orig := orig) (o := o) (v := v) (m := m)
    as (n & m1 & Hrun & Hw1 & Hv1 & Hn); try done; try lia.
  { intros sz gs Hs. split; [|by apply Hst]. intros dst' soff' len' m' orig' o' vs2 Hvs2 Hby2 Hh2 Hlen2 Hdst2 Hm2.
    pose proof (nested_fuel f sz gs Hs).
    destruct (IHst sz gs Hs ltac:(lia) fuel (table gs) src soff' len' dst' 0 0 orig' o' vs2 m') as (m'' & Hr & Hwi & Hvi);
      rewrite ?Z.add_0_r; try done; try lia.
    exists m''. rewrite Z.add_0_l in Hr. rewrite Z.add_0_r, Z.sub_0_r in Hwi. done. }
  pose proof (within_zlen _ _ _ _ Hw1) as Hz1.
  destruct (IH Hl fuel tbl src soff len base n (d + zlen (payload level f v)) orig o vs' m1) as (m2 & Hrun2 & Hw2 & Hv2);
    try done; try lia; [by rewrite Z.add_assoc|].
  exists m2. split; [|split].
  - cbn [decode_loop]. destruct (Z.leb_spec len d); [lia|]. rewrite (proj2 (Z.eqb_neq level 1)) by lia.
    rewrite (kbind_Done (deref (elems f ++ table fs)) _ m e m) by (by rewrite He).
    rewrite bool_decide_false by done. rewrite u32_small by lia. rewrite Hrun, Hrun2. by rewrite Z.add_assoc.
  - eapply within_trans; [eapply within_mono; [exact Hw1|lia..]|eapply within_mono; [exact Hw2|lia..]].
  - apply views_cons; [|done]. rewrite <- Hv1. by eapply view_kept.
Qed.

(** ** Messages *)

Lemma nested_inst level gs sz fuel src :
  fields_ok level 0 0 gs sz → 2 ≤ level → (tsize (table gs) ≤ fuel)%nat →
  inst_ok (λ dst soff len, decode_loop fuel (table gs) (table gs) dst src soff len level 0 0) level gs sz src.
Proof.
  intros Hok Hl Hfuel dst soff len m orig o vs Hvs Hby Hh Hlen Hdst Hm.
  destruct (decode_nested level 0 0 gs sz Hok Hl fuel (table gs) src soff len dst 0 0 orig o vs m) as (m' & Hr & Hw & Hv);
    rewrite ?Z.add_0_r; try done; try lia.
  exists m'. rewrite Z.add_0_l in Hr. rewrite Z.add_0_r, Z.sub_0_r in Hw. done.
Qed.

Lemma skip_elems f rest type : f_tlv f ≠ u8 type → (∃ level lo prev, field_ok level lo prev f) →
  find_ei (elems f ++ rest) type = find_ei rest type.
Proof.
  intros Ht (level & lo & prev & Hf). rewrite elems_eq, <- !app_assoc. cbn [app].
  assert (find_ei (value_elem f :: rest) type = find_ei rest type) as Hv.
  { destruct (value_elem_props f) as [Htl _]. cbn. rewrite Htl, (proj2 (Z.eqb_neq _ _) Ht).
    rewrite bool_decide_false; [done|]. unfold value_elem. destruct (f_shape f) as [t size|max|size gs] eqn:Hs; [|done..].
    cbn. destruct (fo_basic _ _ _ _ Hf t size Hs) as [Hb _]. by destruct t. }
  destruct (f_flag f), (f_count f); cbn; rewrite ?(proj2 (Z.eqb_neq _ _) Ht); exact Hv.
Qed.

Lemma find_field lo prev pre f fs size :
  fields_ok 1 lo prev (pre ++ f :: fs) size → NoDup (f_tlv <$> pre ++ f :: fs) → is_byte (f_tlv f) →
  find_ei (table (pre ++ f :: fs)) (f_tlv f) = Some (Some (elems f ++ table fs)).
Proof.
  revert lo prev. induction pre as [|g pre IH]; intros lo prev Hok Hnd Hby; cbn [app] in *.
  - rewrite table_cons. inversion Hok as [|? ? ? ? ? ? Hf _ _]; subst. destruct (elems_head _ _ _ _ Hf) as (e & l & He & Hne).
    assert (tlv_type e = f_tlv f) as Htl.
    { rewrite elems_eq in He. destruct (value_elem_props f) as [Htl _]. destruct (f_flag f), (f_count f); cbn in He; by simplify_eq. }
    rewrite He. cbn. rewrite bool_decide_false by done. rewrite Htl. unfold u8, is_byte in *. by rewrite Z.mod_small, Z.eqb_refl.
  - inversion Hok as [|? ? ? ? ? ? Hf _ Hok']; subst. rewrite fmap_cons, list.NoDup_cons in Hnd. destruct Hnd as [Hni Hnd].
    rewrite table_cons, skip_elems; [by eapply IH| |by eexists _, _, _].
    unfold u8, is_byte in *. rewrite Z.mod_small by done. intros Heq. apply Hni. rewrite Heq.
    apply list_elem_of_fmap_2. set_solver.
Qed.

Lemma absent_flag f o orig : view f o orig = Some Absent → ∃ fo, f_flag f = Some fo.
Proof.
  rewrite view_eq. intros (p & Hp & Hv)%bind_Some. unfold present in Hp. destruct (f_flag f) as [fo|]; [eauto|].
  injection Hp as <-. cbn [Z.eqb] in Hv. apply bind_Some in Hv as (n & _ & Hv). by apply value_at_some in Hv.
Qed.

Lemma frame_header tlv pl : 0 ≤ zlen pl < 2 ^ 16 →
  ∃ a b, frame 1 tlv pl = [tlv; a; b] ++ pl ∧ Z.lor a (Z.shiftl b 8) = zlen pl.
Proof.
  intros Hpl. exists (zlen pl mod 256), (zlen pl / 256 mod 256). split; [done|].
  rewrite lor_bytes; [|by apply Z.mod_pos_bound|by apply Z.mod_pos_bound].
  rewrite (Z.mod_small (zlen pl / 256)); [pose proof (Z.div_mod (zlen pl) 256); lia|].
  split; [apply Z.div_pos; lia|]. apply Z.div_lt_upper_bound; lia.
Qed.

(** The table position that belongs to a type, for every field still to come. *)
Definition finds (tbl : list qmi_elem_info) (fs : list field) : Prop :=
  ∀ pre g gs, fs = pre ++ g :: gs → find_ei tbl (f_tlv g) = Some (Some (elems g ++ table gs)).

(** A field that is absent is decoded from nothing: its flag stays zero. *)
Lemma absent_kept lo prev f o orig base size end_ m m' :
  field_ok 1 lo prev f → view f o orig = Some Absent → within (base + f_end f) size m m' → f_end f ≤ end_ → 0 ≤ base + lo →
  (∀ i : nat, base + lo ≤ Z.of_nat i < base + end_ → m !! i = Some 0) → view f base m' = Some Absent.
Proof.
  intros Hf Hv Hw Hend Hb Hzero. pose proof (field_bounds _ _ _ _ Hf) as HB.
  destruct (absent_flag _ _ _ Hv) as [fo Hfo]. destruct (fo_flag _ _ _ _ Hf fo Hfo) as [_ Hlo].
  unfold after_flag in HB. rewrite Hfo in HB. rewrite view_eq. unfold present. rewrite Hfo.
  rewrite (read_le_same (base + fo) (base + fo + 1) 1 _ m m'); [|eapply within_same; [exact Hw|left; lia]|lia..].
  rewrite read_zero; [done|lia|apply Hzero; lia].
Qed.

(** One TLV of a message. *)
Lemma tlv_run lo prev f : field_ok 1 lo prev f → (∀ sz gs, f_shape f = Struct sz gs → fields_ok (1 + 1) 0 0 gs sz) →
  ∀ fuel tbl ei src soff len base dl d orig o v m rest,
    view f o orig = Some v → v ≠ Absent → Forall is_byte orig →
    has src (soff + d) (frame 1 (f_tlv f) (payload 1 f v)) → 0 ≤ d → d + 3 + zlen (payload 1 f v) ≤ len → len < 2 ^ 31 →
    zlen (payload 1 f v) < 2 ^ 16 → 0 ≤ dl ≤ prev → 0 ≤ base + lo → base + f_end f ≤ zlen m → (tsize (elems f) ≤ S fuel)%nat →
    find_ei tbl (f_tlv f) = Some (Some (elems f ++ rest)) →
    ∃ n m', decode_loop (S fuel) tbl ei base src soff len 1 dl d m =
        decode_loop fuel tbl rest base src soff len 1 n (d + 3 + zlen (payload 1 f v)) m' ∧
      within (base + lo) (f_end f - lo) m m' ∧ view f base m' = Some v ∧ 0 ≤ n ≤ max_count (f_count f).
Proof.
  intros Hf Hst fuel tbl ei src soff len base dl d orig o v m rest Hv Hna Hby Hh Hd Hlen Hlt Hsize Hdl Hb Hm Hfuel Hfind.
  pose proof (zlen_nonneg (payload 1 f v)). destruct (frame_header (f_tlv f) (payload 1 f v) ltac:(lia)) as (a & b & Hfr & Htl).
  rewrite Hfr in Hh. apply has_app in Hh as [Hhh Hhp]. change (zlen [f_tlv f; a; b]) with 3 in Hhp.
  destruct (element_run 1 lo prev f Hf ltac:(lia) src
    (λ t dst soff len, decode_loop fuel t t dst src soff len (1 + 1) 0 0)) with (rest := rest) (base := base)
    (next := λ ei data_len decoded, decode_loop fuel tbl ei base src soff len 1 data_len decoded)
    (soff := soff) (len := len) (dl := dl) (tlv_len := zlen (payload 1 f v)) (d := d + 3) (orig := orig) (o := o) (v := v) (m := m)
    as (n & m1 & Hrun & Hw1 & Hv1 & Hn); try done; try lia.
  { intros sz gs Hs. split; [|by apply Hst]. pose proof (nested_fuel f sz gs Hs). apply nested_inst; [by apply Hst|lia|lia]. }
  { by rewrite Z.add_assoc. }
  exists n, m1. split; [|done]. cbn [decode_loop]. rewrite Z.eqb_refl. destruct (Z.leb_spec len d); [lia|].
  unfold TLV_TYPE_SIZE, TLV_LEN_SIZE. destruct (Z.ltb_spec len (d + 1 + 2)); [lia|].
  rewrite (kbind_Done _ _ _ _ _ (load_has _ _ _ 3 m Hhh eq_refl)). cbn [lookup_total list_lookup_total]. rewrite Htl, Hfind.
  replace (d + 1 + 2) with (d + 3) by lia. rewrite u32_small by lia. exact Hrun.
Qed.

Lemma decode_top lo prev fs size :
  fields_ok 1 lo prev fs size →
  ∀ fuel tbl ei src soff len base dl d orig o vs m (w := wires 1 fs vs),
    views fs o orig = Some vs → Forall is_byte orig → has src (soff + d) w → 0 ≤ d → d + zlen w = len → len < 2 ^ 31 →
    0 ≤ dl ≤ prev → 0 ≤ base + lo → base + size ≤ zlen m → (tsize (table fs) ≤ fuel)%nat →
    (∀ i : nat, base + lo ≤ Z.of_nat i < base + size → m !! i = Some 0) → finds tbl fs →
    Forall2 (λ f v, zlen (payload 1 f v) < 2 ^ 16) fs vs →
    ∃ m', decode_loop fuel tbl ei base src soff len 1 dl d m = (Done len, m') ∧
      within (base + lo) (size - lo) m m' ∧ views fs base m' = Some vs.
Proof.
  intros Hok. remember 1 as level eqn:Hl in Hok |- *. revert Hl.
  induction Hok as [level lo prev size Hlo|level lo prev f fs size Hf Hst _ Hok IH]; intros ->
    fuel tbl ei src soff len base dl d orig o vs m w Hvs Hby Hh Hd Hlen Hlt Hdl Hb Hm Hfuel Hzero Hfinds Hsizes; subst w.
  { injection Hvs as <-. exists m. destruct fuel as [|fuel]; [cbn in Hfuel; lia|]. split; [|done].
    assert (len = d) as -> by (unfold zlen in Hlen; cbn in Hlen; lia). cbn [decode_loop]. by rewrite Z.leb_refl. }
  apply bind_Some in Hvs as (v & Hv & Hvs). apply bind_Some in Hvs as (vs' & Hvs & [= <-]).
  apply Forall2_cons_1 in Hsizes as [Hsize Hsizes].
  rewrite wires_cons, zlen_app in *. apply has_app in Hh as [Hhf Hhr].
  pose proof (zlen_nonneg (wire 1 f v)). pose proof (zlen_nonneg (wires 1 fs vs')).
  pose proof (field_bounds _ _ _ _ Hf) as HB. pose proof (fields_bounds _ _ _ _ _ Hok) as HB'.
  rewrite table_cons, tsize_app in Hfuel. destruct (elems_head _ _ _ _ Hf) as (e & l & He & Hne).
  assert (1 ≤ tsize (elems f))%nat by (rewrite He; unfold tsize; cbn; pose proof (esize_pos e); lia).
  assert (finds tbl fs) as Hfinds' by (intros pre g gs ->; by apply (Hfinds (f :: pre))).
  assert (v = Absent ∨ v ≠ Absent) as [->|Hna] by (destruct v; auto).
  { rewrite (wire_eq 1 f Absent) in *. change (zlen (@nil Z)) with 0 in *. rewrite Z.add_0_r in Hhr.
    destruct (IH eq_refl fuel tbl ei src soff len base dl d orig o vs' m) as (m' & Hrun & Hw & Hv'); try done; try lia.
    - intros i Hi. apply Hzero. lia.
    - exists m'. split; [done|]. split; [eapply within_mono; [exact Hw|lia..]|]. apply views_cons; [|done].
      by eapply absent_kept. }
  assert (wire 1 f v = frame 1 (f_tlv f) (payload 1 f v)) as Hw by (rewrite wire_eq; by destruct v).
  pose proof (zlen_nonneg (payload 1 f v)). destruct fuel as [|fuel]; [lia|].
  rewrite Hw, zlen_frame in *. change (hdr 1) with 3 in *.
  destruct (tlv_run lo prev f Hf Hst fuel tbl ei src soff len base dl d orig o v m (table fs))
    as (n & m1 & Hrun & Hw1 & Hv1 & Hn); try done; try lia; [by apply (Hfinds [])|].
  pose proof (within_zlen _ _ _ _ Hw1) as Hz1.
  destruct (IH eq_refl fuel tbl (table fs) src soff len base n (d + 3 + zlen (payload 1 f v)) orig o vs' m1)
    as (m2 & Hrun2 & Hw2 & Hv2); try done; try lia.
  { replace (soff + (d + 3 + zlen (payload 1 f v))) with (soff + d + (3 + zlen (payload 1 f v))) by lia. done. }
  { intros i Hi. destruct Hw1 as [_ Hsame]. rewrite Hsame by lia. apply Hzero. lia. }
  exists m2. split; [|split].
  - by rewrite Hrun.
  - eapply within_trans; [eapply within_mono; [exact Hw1|lia..]|eapply within_mono; [exact Hw2|lia..]].
  - apply views_cons; [|done]. rewrite <- Hv1. by eapply view_kept.
Qed.

(** The two directions of a message; the fuel of the decoder may be larger. *)
Lemma encode_message_wire fs size s vs type msg_id len txn_id (w := wires 1 fs vs) :
  schema_ok fs size → views fs 0 s = Some vs → Forall is_byte s → zlen s < 2 ^ 31 →
  zlen w ≤ len → len + QMI_HEADER_SIZE < 2 ^ 31 →
  qmi_encode_message true (tsize (table fs)) type msg_id len txn_id (Some (table fs)) (Some s) =
    Done (inr (header_bytes type txn_id msg_id (zlen w) ++ w ++ replicate (Z.to_nat (len - zlen w)) 0, QMI_HEADER_SIZE + zlen w)).
Proof.
  intros Hok Hvs Hby Hs Hlen Hlt. pose proof (zlen_nonneg w) as Hw0. unfold QMI_HEADER_SIZE in *.
  assert (zlen (header_bytes type txn_id msg_id (zlen w)) = 7) as Hh by done.
  assert (zlen (replicate (Z.to_nat (7 + len)) (0 : Z)) = 7 + len) as Hz by (unfold zlen; rewrite length_replicate; lia).
  unfold qmi_encode_message, QMI_HEADER_SIZE. cbn [Z.eqb negb].
  pose proof (qmi_encode_writes fs size s 0 vs 7 len (replicate (Z.to_nat (7 + len)) 0) Hok Hvs Hby Hs
    ltac:(fold w; lia) ltac:(lia) ltac:(fold w; lia)) as Henc. fold w in Henc.
  rewrite (kbind_Done _ _ _ _ _ Henc). destruct (Z.ltb_spec (zlen w) 0); [lia|].
  rewrite (kbind_Done _ _ _ _ _ (store_put 0 (header_bytes type txn_id msg_id (zlen w))
    (put 7 w (replicate (Z.to_nat (7 + len)) 0)) ltac:(lia) ltac:(rewrite zlen_put; lia))).
  unfold kbind, kget, kret. cbn [fst]. rewrite put_zeros by lia. do 6 f_equal. lia.
Qed.

Lemma decode_message_wire fs size s vs type msg_id txn_id rest fuel (w := wires 1 fs vs) :
  schema_ok fs size → views fs 0 s = Some vs → Forall is_byte s → zlen s < 2 ^ 31 →
  zlen w + QMI_HEADER_SIZE < 2 ^ 31 → Forall2 (λ f v, zlen (payload 1 f v) < 2 ^ 16) fs vs → (decode_fuel (table fs) (zlen w) ≤ fuel)%nat →
  ∃ m', qmi_decode_message fuel (Some (header_bytes type txn_id msg_id (zlen w) ++ w ++ rest)) (QMI_HEADER_SIZE + zlen w) (Some (table fs)) false
      (replicate (Z.to_nat size) 0) = (Done (zlen w), m') ∧ views fs 0 m' = Some vs.
Proof.
  intros Hok Hvs Hby Hs Hlt Hsizes Hfuel. pose proof (zlen_nonneg w) as Hw0. unfold QMI_HEADER_SIZE in *.
  pose proof (fields_bounds _ _ _ _ _ (so_fields _ _ Hok)) as Hsize.
  unfold qmi_decode_message, QMI_HEADER_SIZE. cbn [orb]. destruct (Z.eqb_spec (7 + zlen w) 0); [lia|].
  rewrite u32_small by lia. replace (7 + zlen w - 7) with (zlen w) by lia. destruct Hok as [Hfok Htypes Hbytes].
  destruct (decode_top 0 0 fs size Hfok fuel (table fs) (table fs) (header_bytes type txn_id msg_id (zlen w) ++ w ++ rest) 7 (zlen w) 0 0 0 s 0 vs
    (replicate (Z.to_nat size) 0)) as (m' & Hrun & _ & Hv'); fold w; try done; try lia.
  + apply has_split. exists (header_bytes type txn_id msg_id (zlen w)), rest. done.
  + unfold zlen at 1. rewrite length_replicate. lia.
  + unfold decode_fuel in Hfuel. lia.
  + intros i Hi. apply lookup_replicate. split; [done|lia].
  + intros pre g gs ->. apply list.NoDup_cons in Htypes as [_ Hnd]. eapply find_field; [done|done|].
    rewrite list.Forall_forall in Hbytes. apply Hbytes. set_solver.
  + by exists m'.
Qed.

(** C24: what is encoded can be decoded.  Take any well-formed schema and any structure [s]
    that holds values [vs] of it, with no TLV of 64 KiB or more.  When the buffer has room,
    [qmi_encode_message] returns a message that consists of the header, the wire format of
    the values and zeros, and [qmi_decode_message], given that message and a zeroed
    structure, accounts for every byte and leaves a structure that holds the same values.
    Both end within the given fuel. *)
Theorem qmi_round_trip fs size s vs type msg_id len txn_id (w := wires 1 fs vs) :
  schema_ok fs size → views fs 0 s = Some vs → Forall is_byte s → zlen s < 2 ^ 31 →
  zlen w ≤ len → len + QMI_HEADER_SIZE < 2 ^ 31 → Forall2 (λ f v, zlen (payload 1 f v) < 2 ^ 16) fs vs →
  let msg := header_bytes type txn_id msg_id (zlen w) ++ w ++ replicate (Z.to_nat (len - zlen w)) 0 in
  qmi_encode_message true (tsize (table fs)) type msg_id len txn_id (Some (table fs)) (Some s) =
    Done (inr (msg, QMI_HEADER_SIZE + zlen w)) ∧
  ∃ m', qmi_decode_message (decode_fuel (table fs) (zlen w)) (Some msg) (QMI_HEADER_SIZE + zlen w) (Some (table fs)) false
      (replicate (Z.to_nat size) 0) = (Done (zlen w), m') ∧
    views fs 0 m' = Some vs.
Proof.
  intros Hok Hvs Hby Hs Hlen Hlt Hsizes msg. split; [by apply (encode_message_wire fs size)|].
  apply (decode_message_wire fs size s); try done. fold w. lia.
Qed.

Lemma qmi_round_trip_witness :
  ∃ vs, views demo_fields 0 demo_struct = Some vs ∧
  let msg := header_bytes 2 5 0x20 27 ++ wires 1 demo_fields vs ++ replicate 13 0 in
  qmi_encode_message true (tsize (table demo_fields)) 2 0x20 40 5 (Some (table demo_fields)) (Some demo_struct) =
    Done (inr (msg, 34)) ∧
  ∃ m', qmi_decode_message (decode_fuel (table demo_fields) 27) (Some msg) 34 (Some (table demo_fields)) false
      (replicate 33 0) = (Done 27, m') ∧ views demo_fields 0 m' = Some vs.
Proof.
  eexists. split; [reflexivity|]. set (vs := [_; _; _; _]).
  assert (zlen (wires 1 demo_fields vs) = 27) as Hz by reflexivity.
  assert (views demo_fields 0 demo_struct = Some vs) as Hvs by reflexivity.
  destruct (qmi_round_trip demo_fields 33 demo_struct vs 2 0x20 40 5) as [Henc Hdec].
  - exact demo_schema_ok.
  - exact Hvs.
  - repeat (apply Forall_cons_2; [split; vm_compute; congruence|]). apply Forall_nil_2.
  - vm_compute. reflexivity.
  - rewrite Hz. lia.
  - unfold QMI_HEADER_SIZE. lia.
  - unfold demo_fields, vs. repeat (apply Forall2_cons_2; [vm_compute; reflexivity|]). apply Forall2_nil_2.
  - rewrite Hz in Henc, Hdec. split; [exact Henc|exact Hdec].
Defined.
