(* ===== verification/WaltVoter.v ===== *)
(** * Votables (kernel/sched/walt/voter.c)

    Clients vote on a shared setting; a votable elects the minimum or maximum of
    the enabled votes, or whether any is set, and calls back when the result
    changes.  The callback is code of the votable's owner: a function from the
    result and client to its return code; the calls made so far are logged. *)

From S2P Require Import Prelude.

Definition NUM_MAX_CLIENTS : Z := 8.

Definition VOTE_MIN : Z := 0.
Definition VOTE_MAX : Z := 1.
Definition VOTE_SET_ANY : Z := 2.
Definition NUM_VOTABLE_TYPES : Z := 3.

Record client_vote := mk_vote { enabled : bool; value : Z }.
#[export] Instance client_vote_inhabited : Inhabited client_vote := populate (mk_vote false 0).
#[export] Instance client_vote_eq_dec : EqDecision client_vote.
Proof. solve_decision. Defined.

Record votable := mk_votable {
  votes : list client_vote;             (* votes[NUM_MAX_CLIENTS] *)
  num_clients : Z;
  type : Z;
  effective_client_id : Z;
  effective_result : Z;
  callback : option (Z → Z → Z);
  voted_on : bool;
}.

(** A votable and its callback invocations, latest first. *)
Record vstate := mk_vstate { vt : votable; calls : list (Z * Z) }.

Definition b2z (b : bool) : Z := if b then 1 else 0.

Definition set_votes (x : list client_vote) (v : votable) : votable :=
  mk_votable x (num_clients v) (type v) (effective_client_id v) (effective_result v) (callback v) (voted_on v).
Definition set_effective (id res : Z) (v : votable) : votable :=
  mk_votable (votes v) (num_clients v) (type v) id res (callback v) (voted_on v).
Definition set_voted_on (v : votable) : votable :=
  mk_votable (votes v) (num_clients v) (type v) (effective_client_id v) (effective_result v) (callback v) true.

(** The elections: effective result and client. *)
Definition vote_set_any (v : votable) (client_id : Z) : Z * Z :=
  (foldl (λ r i, Z.lor r (b2z (enabled (votes v !!! i)))) 0 (seq 0 (Z.to_nat (num_clients v))), client_id).

(** The loop shared by [vote_min] and [vote_max]; [beats new old] is the comparison. *)
Definition elect_step (beats : Z → Z → bool) (v : votable) (acc : Z * Z) (i : nat) : Z * Z :=
  let '(res, id) := acc in
  if enabled (votes v !!! i) && beats (value (votes v !!! i)) res
  then (value (votes v !!! i), Z.of_nat i) else (res, id).
Definition elect (beats : Z → Z → bool) (start : Z) (v : votable) : Z * Z :=
  let '(res, id) := foldl (elect_step beats v) (start, - EINVAL) (seq 0 (Z.to_nat (num_clients v))) in
  if id =? - EINVAL then (- EINVAL, id) else (res, id).
Definition vote_min (v : votable) : Z * Z := elect (λ new old, new <? old) INT_MAX v.
Definition vote_max (v : votable) : Z * Z := elect (λ new old, old <? new) INT_MIN v.

(** A client number outside the array is undefined behaviour. *)
Definition get_client_vote_locked (v : option votable) (client_id : Z) : outcome Z :=
  match v with
  | None => Done (- EINVAL)
  | Some v =>
      if client_id <? 0 then Done (- EINVAL)
      else
        match votes v !! Z.to_nat client_id with
        | None => Undef
        | Some c => if negb (type v =? VOTE_SET_ANY) && negb (enabled c) then Done (- EINVAL)
                    else Done (value c)
        end
  end.
(** Under the votable's lock, after the same tests. *)
Definition get_client_vote (v : option votable) (client_id : Z) : outcome Z :=
  match v with
  | None => Done (- EINVAL)
  | Some _ => if client_id <? 0 then Done (- EINVAL) else get_client_vote_locked v client_id
  end.

Definition get_effective_result_locked (v : option votable) : Z :=
  match v with None => - EINVAL | Some v => effective_result v end.
Definition get_effective_result (v : option votable) : Z :=
  match v with None => - EINVAL | Some _ => get_effective_result_locked v end.
Definition get_effective_client_locked (v : option votable) : Z :=
  match v with None => - EINVAL | Some v => effective_client_id v end.
Definition get_effective_client (v : option votable) : Z :=
  match v with None => - EINVAL | Some _ => get_effective_client_locked v end.

Definition run_callback (res id : Z) : KM vstate Z :=
  let* v := kgets vt in
  match callback v with
  | None => kret 0
  | Some f => kmodify (λ s, mk_vstate (vt s) ((res, id) :: calls s)) ;;; kret (f res id)
  end.

Definition mod_vt (f : votable → votable) : KM vstate unit := kmodify (λ s, mk_vstate (f (vt s)) (calls s)).

Definition vote (client_id : Z) (en : bool) (val : Z) : KM vstate Z :=
  if client_id <? 0 then kret (- EINVAL)
  else
    let* v := kgets vt in
    let val := if type v =? VOTE_SET_ANY then b2z en else val in
    match votes v !! Z.to_nat client_id with
    | None => kfail Undef
    | Some old =>
        let similar_vote := Bool.eqb (enabled old) en && (value old =? val) in
        (if similar_vote then kret tt
         else mod_vt (λ v, set_votes (<[Z.to_nat client_id := mk_vote en val]> (votes v)) v)) ;;;
        if similar_vote && voted_on v then kret 0
        else
          let* v := kgets vt in
          let election :=
            if type v =? VOTE_MIN then Some (vote_min v)
            else if type v =? VOTE_MAX then Some (vote_max v)
            else if type v =? VOTE_SET_ANY then Some (vote_set_any v client_id)
            else None in
          match election with
          | None => kret (- EINVAL)
          | Some (effective_result', effective_id) =>
              let* rc :=
                (if negb (voted_on v) || negb (effective_result' =? effective_result v) then
                   mod_vt (set_effective effective_id effective_result') ;;;
                   run_callback effective_result' effective_id
                 else kret 0) in
              mod_vt set_voted_on ;;;
              kret rc
          end
    end.

Definition rerun_election : KM vstate Z :=
  let* v := kgets vt in
  run_callback (effective_result v) (effective_client_id v).

(** [named]: the name is not NULL; [alloc], [dup]: the two allocations succeed. *)
Definition create_votable (named alloc dup : bool) (votable_type : Z) (cb : option (Z → Z → Z)) : Z + vstate :=
  if negb named then inl (- EINVAL)
  else if NUM_VOTABLE_TYPES <=? votable_type then inl (- EINVAL)
  else if negb alloc then inl (- ENOMEM)
  else if negb dup then inl (- ENOMEM)
  else
    inr (mk_vstate
      (mk_votable (replicate (Z.to_nat NUM_MAX_CLIENTS) (mk_vote false 0)) NUM_MAX_CLIENTS votable_type
         (- EINVAL) (if votable_type =? VOTE_SET_ANY then 0 else - EINVAL) cb false) []).

(** ** What is elected *)

(** The specification: [res] is the result the votes of type [ty] should give. *)
Definition elected (ty : Z) (l : list client_vote) (res : Z) : Prop :=
  if ty =? VOTE_SET_ANY then res = b2z (existsb enabled l)
  else if ty =? VOTE_MIN then
    (∃ c, c ∈ l ∧ enabled c = true ∧ value c = res ∧ res < INT_MAX ∧
       ∀ c', c' ∈ l → enabled c' = true → res ≤ value c') ∨
    (res = - EINVAL ∧ ∀ c, c ∈ l → enabled c = true → INT_MAX ≤ value c)
  else
    (∃ c, c ∈ l ∧ enabled c = true ∧ value c = res ∧ INT_MIN < res ∧
       ∀ c', c' ∈ l → enabled c' = true → value c' ≤ res) ∨
    (res = - EINVAL ∧ ∀ c, c ∈ l → enabled c = true → value c ≤ INT_MIN).

Record votable_ok (v : votable) : Prop := {
  vo_votes : Z.of_nat (length (votes v)) = NUM_MAX_CLIENTS;
  vo_num : num_clients v = NUM_MAX_CLIENTS;
  vo_type : 0 ≤ type v < NUM_VOTABLE_TYPES;
}.

(** The loop over the first [n] clients: no vote has won yet, or the winner beats
    or equals every enabled vote seen so far. *)
Definition loop_inv (beats : Z → Z → bool) (start : Z) (v : votable) (n : nat) (acc : Z * Z) : Prop :=
  (acc = (start, - EINVAL) ∧ ∀ j, (j < n)%nat → enabled (votes v !!! j) = true → beats (value (votes v !!! j)) start = false) ∨
  (∃ i, (i < n)%nat ∧ acc = (value (votes v !!! i), Z.of_nat i) ∧ enabled (votes v !!! i) = true ∧
     beats (value (votes v !!! i)) start = true ∧
     ∀ j, (j < n)%nat → enabled (votes v !!! j) = true → beats (value (votes v !!! j)) (value (votes v !!! i)) = false).

Section election.
Context (beats : Z → Z → bool) (start : Z).
Hypothesis beats_irrefl : ∀ x, beats x x = false.
Hypothesis beats_trans : ∀ x y z, beats x y = true → beats y z = true → beats x z = true.
Hypothesis beats_weak : ∀ x y z, beats x y = true → beats z y = false → beats z x = false.

Lemma elect_loop v n : loop_inv beats start v n (foldl (elect_step beats v) (start, - EINVAL) (seq 0 n)).
Proof using beats_irrefl beats_trans beats_weak.
  induction n as [|n IH]; [left; split; [done|lia]|].
  rewrite seq_S, foldl_app. simpl. destruct IH as [[-> Hno]|(i & Hi & -> & Hen & Hb & Hbest)]; unfold elect_step at 1.
  - destruct (enabled (votes v !!! n)) eqn:En; simpl.
    + destruct (beats (value (votes v !!! n)) start) eqn:Eb.
      * right. exists n. split; [lia|]. do 3 (split; [done|]). intros j Hj Hej.
        destruct (decide (j = n)) as [->|]; [apply beats_irrefl|].
        eapply beats_weak; [exact Eb|apply Hno; [lia|done]].
      * left. split; [done|]. intros j Hj Hej. destruct (decide (j = n)) as [->|]; [done|apply Hno; [lia|done]].
    + left. split; [done|]. intros j Hj Hej. destruct (decide (j = n)) as [->|]; [congruence|apply Hno; [lia|done]].
  - destruct (enabled (votes v !!! n) && beats (value (votes v !!! n)) (value (votes v !!! i))) eqn:E.
    + apply andb_true_iff in E as [En Eb]. right. exists n. split; [lia|]. split; [done|]. split; [done|].
      split; [by eapply beats_trans|]. intros j Hj Hej. destruct (decide (j = n)) as [->|]; [apply beats_irrefl|].
      eapply beats_weak; [exact Eb|apply Hbest; [lia|done]].
    + right. exists i. split; [lia|]. do 3 (split; [done|]). intros j Hj Hej.
      destruct (decide (j = n)) as [->|]; [|apply Hbest; [lia|done]].
      by rewrite Hej in E.
Qed.

Lemma elect_spec v :
  votable_ok v →
  (∃ c, c ∈ votes v ∧ enabled c = true ∧ value c = (elect beats start v).1 ∧ beats (value c) start = true ∧
     ∀ c', c' ∈ votes v → enabled c' = true → beats (value c') (value c) = false) ∨
  ((elect beats start v).1 = - EINVAL ∧ ∀ c, c ∈ votes v → enabled c = true → beats (value c) start = false).
Proof using beats_irrefl beats_trans beats_weak.
  intros [Hlen Hnum _]. unfold elect. rewrite Hnum, <- Hlen, Nat2Z.id.
  pose proof (elect_loop v (length (votes v))) as Hinv.
  assert (∀ c, c ∈ votes v → ∃ j, (j < length (votes v))%nat ∧ votes v !!! j = c) as Hidx.
  { intros c [j Hj]%list_elem_of_lookup. exists j. split; [by eapply lookup_lt_Some|by apply list_lookup_total_correct]. }
  destruct Hinv as [[-> Hno]|(i & Hi & -> & Hen & Hb & Hbest)].
  - right. split; [done|]. intros c (j & Hj & <-)%Hidx. by apply Hno.
  - left. exists (votes v !!! i).
    split; [apply list_elem_of_lookup_2 with i; by apply list_lookup_lookup_total_lt|]. split; [done|].
    rewrite (proj2 (Z.eqb_neq _ _)) by (unfold EINVAL; lia).
    split; [done|]. split; [done|]. intros c (j & Hj & <-)%Hidx. by apply Hbest.
Qed.
End election.

Lemma vote_min_elected v : votable_ok v → type v = VOTE_MIN → elected (type v) (votes v) (vote_min v).1.
Proof.
  intros Hok Hty. unfold elected, vote_min. rewrite Hty. simpl.
  destruct (elect_spec (λ new old, new <? old) INT_MAX) with (v := v)
    as [(c & Hin & Hen & Hval & Hb & Hbest)|[He Hno]]; [lia..|done| |].
  - left. exists c. apply Z.ltb_lt in Hb. rewrite <- Hval. do 4 (split; [done|]).
    intros c' Hin' Hen'. apply Z.ltb_ge. by apply Hbest.
  - right. split; [done|]. intros c Hin Hen. apply Z.ltb_ge. by apply Hno.
Qed.

Lemma vote_max_elected v : votable_ok v → type v = VOTE_MAX → elected (type v) (votes v) (vote_max v).1.
Proof.
  intros Hok Hty. unfold elected, vote_max. rewrite Hty. simpl.
  destruct (elect_spec (λ new old, old <? new) INT_MIN) with (v := v)
    as [(c & Hin & Hen & Hval & Hb & Hbest)|[He Hno]]; [lia..|done| |].
  - left. exists c. apply Z.ltb_lt in Hb. rewrite <- Hval. do 4 (split; [done|]).
    intros c' Hin' Hen'. apply Z.ltb_ge. by apply Hbest.
  - right. split; [done|]. intros c Hin Hen. apply Z.ltb_ge. by apply Hno.
Qed.

Lemma vote_set_any_elected v id :
  votable_ok v → type v = VOTE_SET_ANY → elected (type v) (votes v) (vote_set_any v id).1.
Proof.
  intros [Hlen Hnum _] Hty. unfold elected, vote_set_any. rewrite Hty, Hnum, <- Hlen, Nat2Z.id. simpl.
  assert (∀ l pre, foldl (λ r i, Z.lor r (b2z (enabled ((pre ++ l) !!! i)))) (b2z (existsb enabled pre))
            (seq (length pre) (length l)) = b2z (existsb enabled (pre ++ l))) as Hgen.
  { intros l. induction l as [|c l IH]; intros pre; simpl; [by rewrite app_nil_r|].
    specialize (IH (pre ++ [c])). rewrite <- app_assoc in IH. simpl in IH.
    rewrite length_app in IH. simpl in IH. rewrite Nat.add_1_r in IH. rewrite <- IH. f_equal.
    rewrite existsb_app. simpl. rewrite list_lookup_total_middle by done.
    by destruct (existsb enabled pre), (enabled c). }
  exact (Hgen (votes v) []).
Qed.

(** ** Any sequence of votes *)

(** No two consecutive callbacks report the same result. *)
Fixpoint changes (l : list (Z * Z)) : Prop :=
  match l with
  | (r, _) :: (((r', _) :: _) as l') => r ≠ r' ∧ changes l'
  | _ => True
  end.

Record voter_inv (s : vstate) : Prop := {
  vi_ok : votable_ok (vt s);
  vi_elected : voted_on (vt s) = true → elected (type (vt s)) (votes (vt s)) (effective_result (vt s));
  vi_log : callback (vt s) ≠ None →
    if voted_on (vt s) then ∃ id rest, calls s = (effective_result (vt s), id) :: rest else calls s = [];
  vi_changes : changes (calls s);
}.

(** A ballot: client, enabled, value. *)
Definition ballot : Type := Z * bool * Z.
Definition ballot_ok (b : ballot) : Prop := 0 ≤ b.1.1 < NUM_MAX_CLIENTS.
Definition cast (ty : Z) (l : list client_vote) (b : ballot) : list client_vote :=
  <[Z.to_nat b.1.1 := mk_vote b.1.2 (if ty =? VOTE_SET_ANY then b2z b.1.2 else b.2)]> l.
Definition cast_vote (b : ballot) : KM vstate unit := vote b.1.1 b.1.2 b.2 ;;; kret tt.

(** The election part of [vote], on the updated votes. *)
Lemma vote_election s client_id v res id :
  vt s = v → votable_ok v →
  (if type v =? VOTE_MIN then Some (vote_min v)
   else if type v =? VOTE_MAX then Some (vote_max v)
   else if type v =? VOTE_SET_ANY then Some (vote_set_any v client_id) else None) = Some (res, id) →
  elected (type v) (votes v) res.
Proof.
  intros _ Hok. destruct (Z.eqb_spec (type v) VOTE_MIN) as [E|]; [|destruct (Z.eqb_spec (type v) VOTE_MAX) as [E|]];
    [| |destruct (Z.eqb_spec (type v) VOTE_SET_ANY) as [E|]; [|done]]; intros H.
  - pose proof (vote_min_elected v Hok E) as Hel. injection H as H. by rewrite H in Hel.
  - pose proof (vote_max_elected v Hok E) as Hel. injection H as H. by rewrite H in Hel.
  - pose proof (vote_set_any_elected v client_id Hok E) as Hel.
    assert (vote_set_any v client_id = (res, id)) as Hr by congruence. by rewrite Hr in Hel.
Qed.

Lemma cast_same ty v b old :
  ty = type v → votes v !! Z.to_nat b.1.1 = Some old →
  Bool.eqb (enabled old) b.1.2 && (value old =? (if ty =? VOTE_SET_ANY then b2z b.1.2 else b.2)) = true →
  cast ty (votes v) b = votes v.
Proof.
  intros -> Hold [He%Bool.eqb_prop Hv%Z.eqb_eq]%andb_true_iff. apply list_insert_id. rewrite Hold.
  f_equal. destruct old. simpl in *. by subst.
Qed.

Lemma vote_step s b :
  voter_inv s → ballot_ok b →
  ∃ s', cast_vote b s = (Done tt, s') ∧ voter_inv s' ∧
    type (vt s') = type (vt s) ∧ callback (vt s') = callback (vt s) ∧ voted_on (vt s') = true ∧
    votes (vt s') = cast (type (vt s)) (votes (vt s)) b.
Proof.
  intros [Hok Hel Hlog Hch] Hb. unfold ballot_ok in Hb. unfold cast_vote, vote.
  rewrite (proj2 (Z.ltb_ge b.1.1 0)) by lia.
  destruct (lookup_lt_is_Some_2 (votes (vt s)) (Z.to_nat b.1.1)) as [old Hold].
  { pose proof (vo_votes _ Hok). lia. }
  unfold kgets. unfold kbind at 1 2. rewrite Hold.
  set (val := if type (vt s) =? VOTE_SET_ANY then b2z b.1.2 else b.2).
  set (similar := Bool.eqb (enabled old) b.1.2 && (value old =? val)).
  set (s1 := mk_vstate (set_votes (cast (type (vt s)) (votes (vt s)) b) (vt s)) (calls s)).
  assert ((if similar then kret tt
           else mod_vt (λ v, set_votes (<[Z.to_nat b.1.1 := mk_vote b.1.2 val]> (votes v)) v)) s = (Done tt, s1)) as Hs1.
  { unfold s1. destruct similar eqn:E; [|reflexivity].
    rewrite (cast_same _ (vt s) b old eq_refl Hold E). by destruct s as [[] ?]. }
  rewrite (kbind_Done _ _ _ _ _ Hs1).
  assert (votable_ok (vt s1)) as Hok1.
  { destruct Hok as [H1 H2 H3]. split; [|done..]. simpl. unfold cast. by rewrite length_insert. }
  destruct (similar && voted_on (vt s)) eqn:Esim.
  { apply andb_true_iff in Esim as [E Hvo]. exists s1. split; [done|].
    unfold s1 in *. rewrite (cast_same _ (vt s) b old eq_refl Hold E) in *.
    split; [|done]. split; [done|exact Hel|exact Hlog|exact Hch]. }
  unfold kbind at 1. destruct (_ : option (Z * Z)) as [[res id]|] eqn:Ee.
  2:{ exfalso. pose proof (vo_type _ Hok1) as Ht. unfold NUM_VOTABLE_TYPES in Ht.
      destruct (Z.eqb_spec (type (vt s1)) VOTE_MIN) as [|N0]; [done|].
      destruct (Z.eqb_spec (type (vt s1)) VOTE_MAX) as [|N1]; [done|].
      destruct (Z.eqb_spec (type (vt s1)) VOTE_SET_ANY) as [|N2]; [done|].
      unfold VOTE_MIN, VOTE_MAX, VOTE_SET_ANY in *. lia. }
  apply (vote_election s1) in Ee; [|done|done].
  unfold mod_vt, kmodify, run_callback, kgets, kret. unfold kbind.
  destruct (voted_on (vt s)) eqn:Evo; simpl; rewrite ?Evo; simpl;
    [destruct (Z.eqb_spec res (effective_result (vt s))) as [->|Hne]; simpl|];
    try (destruct (callback (vt s)) as [f|] eqn:Ecb; simpl);
    eexists; (split; [reflexivity|]); (split; [split|]); simpl; rewrite ?Ecb; try done; try (destruct Hok1; by split); eauto.
  - destruct (Hlog ltac:(congruence)) as (id0 & rest & Hc). rewrite Hc in *. simpl. split; [done|exact Hch].
  - rewrite (Hlog ltac:(congruence)). done.
Qed.

(** a votable always holds the outcome of its election.  After any sequence of votes
    by valid clients on a fresh votable: each client's vote is the last one it
    cast, and if anyone voted the effective result is the minimum (maximum) of the
    enabled votes, -EINVAL when there is none, or for a set-any votable whether
    one is set; the callback was called for the first vote and afterwards exactly
    when the result changed, the latest call reporting the current result. *)
Theorem votes_elect ty cb s0 ballots :
  0 ≤ ty → create_votable true true true ty cb = inr s0 → Forall ballot_ok ballots →
  ∃ s, for_each ballots cast_vote s0 = (Done tt, s) ∧
    votes (vt s) = foldl (cast ty) (votes (vt s0)) ballots ∧
    (ballots ≠ [] → elected ty (votes (vt s)) (effective_result (vt s))) ∧
    (cb ≠ None → ballots ≠ [] → ∃ id rest, calls s = (effective_result (vt s), id) :: rest) ∧
    changes (calls s).
Proof.
  intros Hty Hnew Hb. unfold create_votable in Hnew. simpl in Hnew.
  destruct (Z.leb_spec NUM_VOTABLE_TYPES ty) as [|Hlt]; [done|]. injection Hnew as Hs0.
  assert (voter_inv s0 ∧ type (vt s0) = ty ∧ callback (vt s0) = cb ∧ voted_on (vt s0) = false) as (Hinv & Ht & Hc & Hv).
  { subst s0. simpl. split; [|done]. split; simpl; try done. }
  clear Hs0.
  assert (∃ s, for_each ballots cast_vote s0 = (Done tt, s) ∧ voter_inv s ∧ type (vt s) = ty ∧
    callback (vt s) = cb ∧ votes (vt s) = foldl (cast ty) (votes (vt s0)) ballots ∧
    (voted_on (vt s) = true ∨ ballots = [])) as (s & Hrun & [Hok Hel Hlog Hch] & Ht' & Hc' & Hvotes & Hvo).
  { clear Hv. revert s0 Hinv Ht Hc. induction Hb as [|b ballots Hb _ IH]; intros s0 Hinv Ht Hc.
    { exists s0. split; [done|]. split; [done|]. split; [done|]. split; [done|]. split; [done|by right]. }
    destruct (vote_step s0 b Hinv Hb) as (s1 & Hr1 & Hinv1 & Ht1 & Hc1 & Hv1 & Hvotes1). simpl.
    rewrite (kbind_Done _ _ _ _ _ Hr1).
    destruct (IH s1 Hinv1 ltac:(congruence) ltac:(congruence)) as (s & Hr & Hinv' & Ht' & Hc' & Hvotes & Hvo).
    exists s. split; [done|]. split; [done|]. split; [done|]. split; [done|].
    split; [by rewrite Hvotes, Hvotes1, Ht|]. destruct Hvo as [|Hnil]; [by left|]. subst ballots. simpl in Hr.
    injection Hr as <-. by left. }
  exists s. split; [done|]. split; [done|]. rewrite <- Ht' at 1.
  split; [intros Hne; apply Hel; naive_solver|]. split; [|done].
  intros Hcb Hne. rewrite <- Hc' in Hcb. specialize (Hlog Hcb).
  destruct Hvo as [Hvo|]; [|done]. by rewrite Hvo in Hlog.
Qed.

Definition sample_ballots : list ballot := [(0, true, 5); (1, true, 3); (0, true, 9); (1, false, 0)].

Lemma votes_elect_witness :
  ∃ s0 s, create_votable true true true VOTE_MIN (Some (λ _ _, 0)) = inr s0 ∧
    for_each sample_ballots cast_vote s0 = (Done tt, s) ∧
    effective_result (vt s) = 9 ∧ map fst (calls s) = [9; 3; 5] ∧ elected VOTE_MIN (votes (vt s)) 9.
Proof.
  assert (∃ s0, create_votable true true true VOTE_MIN (Some (λ _ _, 0)) = inr s0) as [s0 Hs0] by (by eexists).
  destruct (votes_elect VOTE_MIN (Some (λ _ _, 0)) s0 sample_ballots ltac:(done) Hs0) as (s & Hrun & _ & Hel & _).
  { repeat apply Forall_cons_2; [split; done..|apply Forall_nil_2]. }
  exists s0, s. split; [exact Hs0|]. split; [exact Hrun|].
  assert (effective_result (vt s) = 9 ∧ map fst (calls s) = [9; 3; 5]) as [Hr Hc].
  { replace s with ((for_each sample_ballots cast_vote s0).2) by (by rewrite Hrun).
    injection Hs0 as <-. vm_compute. split; reflexivity. }
  split; [exact Hr|]. split; [exact Hc|]. rewrite <- Hr. exact (Hel ltac:(discriminate)).
Defined.

(** The client reported as effective may no longer take part: when two clients agree and
    the first one withdraws, the result stays and so does its name. *)
Example effective_client_may_be_disabled :
  ∃ s0 s, create_votable true true true VOTE_MIN None = inr s0 ∧
    for_each [(0, true, 5); (1, true, 5); (0, false, 0)] cast_vote s0 = (Done tt, s) ∧
    get_effective_client (Some (vt s)) = 0 ∧ enabled (votes (vt s) !!! 0%nat) = false.
Proof. eexists _, _. split; [reflexivity|]. split; [reflexivity|]. split; reflexivity. Qed.
