(* ===== verification/WaltBoost.v ===== *)
(** * Scheduler boost (kernel/sched/walt/boost.c)

    Boosts are reference counted by type; the effective boost is the active one of
    highest priority, and switching from one to another runs an exit and an enter
    action.  The actions reach core control (the per-cluster boost counters of
    core_ctl.c) and the frequency aggregation switch of walt.h. *)

From S2P Require Import Prelude.

Definition NO_BOOST : Z := 0.
Definition FULL_THROTTLE_BOOST : Z := 1.
Definition CONSERVATIVE_BOOST : Z := 2.
Definition RESTRAINED_BOOST : Z := 3.
Definition STORAGE_BOOST : Z := 4.
Definition BALANCE_BOOST : Z := 5.
Definition BALANCE_BOOST_DISABLE : Z := - 5.
Definition SCHED_BOOST_START : Z := FULL_THROTTLE_BOOST.
Definition SCHED_BOOST_END : Z := BALANCE_BOOST + 1.

Inductive sched_boost_policy := SCHED_BOOST_NONE | SCHED_BOOST_ON_BIG | SCHED_BOOST_ON_ALL.

(** The parts of the system that do not change here. *)
Record boost_env := mk_boost_env {
  walt_disabled : bool;
  core_ctl_initialized : bool;
  hmp_capable : bool;
}.

Record boost := mk_boost {
  refcount : list Z;                    (* sched_boosts[].refcount *)
  sched_boost_type : Z;
  boost_policy : sched_boost_policy;
  sysctl_sched_boost : Z;
  sched_freq_aggr_en : bool;
  cluster_boost : list Z;               (* cluster_state[].boost, unsigned *)
}.

(** ** Effects *)

(** The return code and the cluster's counter. *)
Definition set_cluster_boost (c : Z) (b : bool) : Z * Z :=
  if b then (0, u32 (c + 1)) else if c =? 0 then (- EINVAL, c) else (0, c - 1).

Definition set_clusters (x : list Z) (s : boost) : boost :=
  mk_boost (refcount s) (sched_boost_type s) (boost_policy s) (sysctl_sched_boost s) (sched_freq_aggr_en s) x.

Definition core_ctl_set_boost (env : boost_env) (b : bool) (s : boost) : boost :=
  if walt_disabled env then s
  else if negb (core_ctl_initialized env) then s
  else set_clusters ((λ c, (set_cluster_boost c b).2) <$> cluster_boost s) s.

Definition walt_enable_frequency_aggregation (b : bool) (s : boost) : boost :=
  mk_boost (refcount s) (sched_boost_type s) (boost_policy s) (sysctl_sched_boost s) b (cluster_boost s).

Section ops.
Context (env : boost_env).

Definition sched_no_boost_nop (s : boost) : boost := s.
Definition sched_full_throttle_boost_enter (s : boost) : boost :=
  walt_enable_frequency_aggregation true (core_ctl_set_boost env true s).
Definition sched_full_throttle_boost_exit (s : boost) : boost :=
  walt_enable_frequency_aggregation false (core_ctl_set_boost env false s).
Definition sched_conservative_boost_enter (s : boost) : boost := s.
Definition sched_conservative_boost_exit (s : boost) : boost := s.
Definition sched_restrained_boost_enter (s : boost) : boost := walt_enable_frequency_aggregation true s.
Definition sched_restrained_boost_exit (s : boost) : boost := walt_enable_frequency_aggregation false s.
Definition sched_storage_boost_enter (s : boost) : boost := core_ctl_set_boost env true s.
Definition sched_storage_boost_exit (s : boost) : boost := core_ctl_set_boost env false s.
Definition sched_balance_boost_enter (s : boost) : boost := core_ctl_set_boost env true s.
Definition sched_balance_boost_exit (s : boost) : boost := core_ctl_set_boost env false s.

(** The table [sched_boosts]. *)
Definition boost_enter (type : Z) : boost → boost :=
  if type =? FULL_THROTTLE_BOOST then sched_full_throttle_boost_enter
  else if type =? CONSERVATIVE_BOOST then sched_conservative_boost_enter
  else if type =? RESTRAINED_BOOST then sched_restrained_boost_enter
  else if type =? STORAGE_BOOST then sched_storage_boost_enter
  else if type =? BALANCE_BOOST then sched_balance_boost_enter
  else sched_no_boost_nop.
Definition boost_exit (type : Z) : boost → boost :=
  if type =? FULL_THROTTLE_BOOST then sched_full_throttle_boost_exit
  else if type =? CONSERVATIVE_BOOST then sched_conservative_boost_exit
  else if type =? RESTRAINED_BOOST then sched_restrained_boost_exit
  else if type =? STORAGE_BOOST then sched_storage_boost_exit
  else if type =? BALANCE_BOOST then sched_balance_boost_exit
  else sched_no_boost_nop.

(** ** Operations *)

Definition count (s : boost) (type : Z) : Z := refcount s !!! Z.to_nat type.
Definition set_count (type n : Z) (s : boost) : boost :=
  mk_boost (<[Z.to_nat type := n]> (refcount s)) (sched_boost_type s) (boost_policy s) (sysctl_sched_boost s)
    (sched_freq_aggr_en s) (cluster_boost s).

Definition set_boost_policy (type : Z) : sched_boost_policy :=
  if (type =? NO_BOOST) || (type =? RESTRAINED_BOOST) then SCHED_BOOST_NONE
  else if hmp_capable env then SCHED_BOOST_ON_BIG
  else SCHED_BOOST_ON_ALL.

Definition verify_boost_params (type : Z) : bool :=
  (BALANCE_BOOST_DISABLE <=? type) && (type <=? BALANCE_BOOST).

(** The first type, in order of priority, with a reference. *)
Definition sched_effective_boost (s : boost) : Z :=
  match list_find (λ i, 1 ≤ count s i) (seqZ SCHED_BOOST_START (SCHED_BOOST_END - SCHED_BOOST_START)) with
  | Some (_, i) => i
  | None => NO_BOOST
  end.

(** The switch from the current to the effective boost. *)
Definition switch_boost (s : boost) : boost :=
  let prev_boost := sched_boost_type s in
  let next_boost := sched_effective_boost s in
  if next_boost =? prev_boost then s else boost_enter next_boost (boost_exit prev_boost s).

Definition sched_boost_disable (type : Z) (s : boost) : boost :=
  if count s type <=? 0 then s
  else
    let s := set_count type (count s type - 1) s in
    if negb (count s type =? 0) then s else switch_boost s.

Definition sched_boost_enable (type : Z) (s : boost) : boost :=
  let s := set_count type (s32 (count s type + 1)) s in
  if negb (count s type =? 1) then s else switch_boost s.

Definition sched_boost_disable_all (s : boost) : boost :=
  let prev_boost := sched_boost_type s in
  if prev_boost =? NO_BOOST then s
  else foldl (λ s i, set_count i 0 s) (boost_exit prev_boost s)
         (seqZ SCHED_BOOST_START (SCHED_BOOST_END - SCHED_BOOST_START)).

Definition _sched_set_boost (type : Z) (s : boost) : boost :=
  let s := if type =? 0 then sched_boost_disable_all s
           else if 0 <? type then sched_boost_enable type s
           else sched_boost_disable (- type) s in
  let eff := sched_effective_boost s in
  mk_boost (refcount s) eff (set_boost_policy eff) eff (sched_freq_aggr_en s) (cluster_boost s).

Definition sched_set_boost (type : Z) (s : boost) : Z * boost :=
  if walt_disabled env then (- EAGAIN, s)
  else if verify_boost_params type then (0, _sched_set_boost type s)
  else (- EINVAL, s).

(** [ret] and [data] are what [proc_dointvec_minmax] returns and has written to
    [sysctl_sched_boost]. *)
Definition sched_boost_handler (ret : Z) (write : bool) (data : Z) (s : boost) : Z * boost :=
  if negb (ret =? 0) || negb write then (ret, s)
  else
    let s := mk_boost (refcount s) (sched_boost_type s) (boost_policy s) data (sched_freq_aggr_en s) (cluster_boost s) in
    if verify_boost_params data then (0, _sched_set_boost data s) else (- EINVAL, s).

Definition walt_boost_init (s : boost) : boost := (sched_set_boost FULL_THROTTLE_BOOST s).2.
End ops.

(** ** Task groups: which boosts apply to which group *)

Inductive cgroup := ANDROID_CGROUP_OTHER | ANDROID_CGROUP_TOPAPP | ANDROID_CGROUP_FOREGROUND | ANDROID_CGROUP_BACKGROUND.
Record walt_task_group := mk_wtg { colocate : bool; sched_boost_enabled : list bool; group_type : cgroup }.

Definition walt_init_tg : walt_task_group :=
  mk_wtg false [false; true; false; false; true; false] ANDROID_CGROUP_OTHER.
(** [conservative] is the SoC feature bit. *)
Definition walt_init_topapp_tg (conservative : bool) : walt_task_group :=
  mk_wtg true [false; true; conservative; false; true; true] ANDROID_CGROUP_TOPAPP.
Definition walt_init_foreground_tg (conservative : bool) : walt_task_group :=
  mk_wtg false [false; true; conservative; false; true; true] ANDROID_CGROUP_FOREGROUND.
Definition walt_init_background_tg : walt_task_group :=
  mk_wtg false [false; true; false; false; true; false] ANDROID_CGROUP_BACKGROUND.

(** ** The effect of a boost *)

Definition aggregates (type : Z) : bool := (type =? FULL_THROTTLE_BOOST) || (type =? RESTRAINED_BOOST).
Definition core_boost (type : Z) : Z :=
  if (type =? FULL_THROTTLE_BOOST) || (type =? STORAGE_BOOST) || (type =? BALANCE_BOOST) then 1 else 0.

Definition boost_type (t : Z) : Prop := 0 ≤ t < SCHED_BOOST_END.

(** The effects in force are those of boost [type], on top of the boosts [ext] that
    others requested from core control. *)
Record effects (ext : list Z) (type : Z) (s : boost) : Prop := {
  ef_aggr : sched_freq_aggr_en s = aggregates type;
  ef_core : cluster_boost s = (λ c, c + core_boost type) <$> ext;
}.

(** The reference counts of a sequence of requests. *)
Definition count_step (l : list Z) (type : Z) : list Z :=
  if negb (verify_boost_params type) then l
  else if type =? 0 then replicate 6 0
  else if 0 <? type then alter (λ n, n + 1) (Z.to_nat type) l
  else alter (λ n, Z.max 0 (n - 1)) (Z.to_nat (- type)) l.

(** [type] is the active boost of highest priority, [NO_BOOST] if none is. *)
Definition highest (l : list Z) (type : Z) : Prop :=
  boost_type type ∧ (∀ i, 1 ≤ i < SCHED_BOOST_END → (type = 0 ∨ i < type) → l !!! Z.to_nat i ≤ 0) ∧
  (type ≠ 0 → 1 ≤ l !!! Z.to_nat type).

Lemma effective_highest s : highest (refcount s) (sched_effective_boost s).
Proof.
  unfold highest, sched_effective_boost, boost_type, count.
  change SCHED_BOOST_END with 6. change (seqZ SCHED_BOOST_START (6 - SCHED_BOOST_START)) with (seqZ 1 5).
  destruct (list_find _ _) as [[k i]|] eqn:E.
  - apply list_find_Some in E as (Hk & Hi & Hmin). apply lookup_seqZ in Hk as [-> Hk].
    split; [lia|]. split; [|done]. intros j Hj [|Hlt]; [lia|].
    destruct (decide (refcount s !!! Z.to_nat j ≤ 0)) as [|Hgt]; [done|]. exfalso.
    apply (Hmin (Z.to_nat (j - 1)) j); [|lia|lia]. apply lookup_seqZ. lia.
  - apply list_find_None in E. rewrite list.Forall_forall in E. unfold NO_BOOST.
    split; [lia|]. split; [|done]. intros j Hj _. specialize (E j ltac:(apply elem_of_seqZ; lia)). simpl in E. lia.
Qed.

Lemma highest_unique l t t' : highest l t → highest l t' → t = t'.
Proof.
  intros (Ht & Hz & Hp) (Ht' & Hz' & Hp'). unfold boost_type in *.
  destruct (decide (t = t')) as [|Hne]; [done|]. exfalso.
  destruct (decide (t = 0)) as [->|]; [specialize (Hz t' ltac:(lia) ltac:(lia)); specialize (Hp' ltac:(lia)); lia|].
  destruct (decide (t' = 0)) as [->|]; [specialize (Hz' t ltac:(lia) ltac:(lia)); specialize (Hp ltac:(lia)); lia|].
  destruct (decide (t < t')).
  - specialize (Hz' t ltac:(lia) ltac:(lia)). specialize (Hp ltac:(lia)). lia.
  - specialize (Hz t' ltac:(lia) ltac:(lia)). specialize (Hp' ltac:(lia)). lia.
Qed.

Section boost_inv.
Context (env : boost_env) (ext : list Z).
Hypothesis Hdis : walt_disabled env = false.
Hypothesis Hinit : core_ctl_initialized env = true.
Hypothesis Hext : Forall (λ c, 0 ≤ c < 2 ^ 32 - 1) ext.

Lemma core_ctl_on s : cluster_boost s = ext →
  core_ctl_set_boost env true s = set_clusters ((λ c, c + 1) <$> ext) s.
Proof using Hdis Hinit Hext.
  intros Hs. unfold core_ctl_set_boost. rewrite Hdis, Hinit, Hs. simpl. f_equal.
  apply list_fmap_ext. intros i c Hc. apply Z.mod_small.
  rewrite list.Forall_forall in Hext. specialize (Hext c (list_elem_of_lookup_2 _ _ _ Hc)). simpl in Hext. lia.
Qed.

Lemma core_ctl_off s : cluster_boost s = (λ c, c + 1) <$> ext →
  core_ctl_set_boost env false s = set_clusters ext s.
Proof using Hdis Hinit Hext.
  intros Hs. unfold core_ctl_set_boost. rewrite Hdis, Hinit, Hs. simpl. f_equal.
  rewrite <- list_fmap_compose. rewrite <- (list_fmap_id ext) at 2. apply list_fmap_ext. intros i c Hc. simpl.
  rewrite list.Forall_forall in Hext. specialize (Hext c (list_elem_of_lookup_2 _ _ _ Hc)). simpl in Hext.
  unfold set_cluster_boost. rewrite (proj2 (Z.eqb_neq _ _)) by lia. simpl. lia.
Qed.

Lemma plus_zero : (λ c : Z, c + 0) <$> ext = ext.
Proof. rewrite <- (list_fmap_id ext) at 2. apply list_fmap_ext. intros. simpl. lia. Qed.

(** Case analysis on a boost type. *)
Ltac boost_cases t :=
  assert (t = 0 ∨ t = 1 ∨ t = 2 ∨ t = 3 ∨ t = 4 ∨ t = 5) as [->|[->|[->|[->|[-> | ->]]]]]
    by (unfold boost_type, SCHED_BOOST_END, BALANCE_BOOST in *; lia).

Lemma exit_effects s t : boost_type t → effects ext t s →
  effects ext NO_BOOST (boost_exit env t s) ∧ refcount (boost_exit env t s) = refcount s.
Proof using Hdis Hinit Hext.
  intros Ht [Ha Hc]. boost_cases t; cbn in Ha, Hc; cbn;
    unfold sched_full_throttle_boost_exit, sched_conservative_boost_exit, sched_restrained_boost_exit,
      sched_storage_boost_exit, sched_balance_boost_exit, sched_no_boost_nop;
    rewrite ?core_ctl_off by done; (split; [split|done]); cbn; rewrite ?plus_zero in *; done.
Qed.

Lemma enter_effects s t : boost_type t → effects ext NO_BOOST s →
  effects ext t (boost_enter env t s) ∧ refcount (boost_enter env t s) = refcount s.
Proof using Hdis Hinit Hext.
  intros Ht [Ha Hc]. cbn in Ha, Hc. rewrite plus_zero in Hc. boost_cases t; cbn;
    unfold sched_full_throttle_boost_enter, sched_conservative_boost_enter, sched_restrained_boost_enter,
      sched_storage_boost_enter, sched_balance_boost_enter, sched_no_boost_nop;
    rewrite ?core_ctl_on by done; (split; [split|done]); cbn; rewrite ?plus_zero; done.
Qed.

Lemma effective_refcount s s' : refcount s' = refcount s → sched_effective_boost s' = sched_effective_boost s.
Proof. unfold sched_effective_boost, count. by intros ->. Qed.

Lemma switch_effects s :
  boost_type (sched_boost_type s) → effects ext (sched_boost_type s) s →
  effects ext (sched_effective_boost s) (switch_boost env s) ∧ refcount (switch_boost env s) = refcount s.
Proof using Hdis Hinit Hext.
  intros Ht He. unfold switch_boost.
  destruct (Z.eqb_spec (sched_effective_boost s) (sched_boost_type s)) as [->|_]; [done|].
  destruct (exit_effects s _ Ht He) as [He1 Hr1].
  destruct (enter_effects _ (sched_effective_boost s) (proj1 (effective_highest s)) He1) as [He2 Hr2].
  split; [done|congruence].
Qed.

Record boost_inv (n : Z) (s : boost) : Prop := {
  bi_len : length (refcount s) = 6%nat;
  bi_range i : (i < 6)%nat → 0 ≤ refcount s !!! i ≤ n;
  bi_none : refcount s !!! 0%nat = 0;
  bi_highest : highest (refcount s) (sched_boost_type s);
  bi_effects : effects ext (sched_boost_type s) s;
  bi_policy : boost_policy s = set_boost_policy env (sched_boost_type s);
  bi_sysctl : sysctl_sched_boost s = sched_boost_type s;
}.

(** Changing a count without changing whether it is positive. *)
Lemma highest_insert l t j n :
  (j < length l)%nat → (1 ≤ n ↔ 1 ≤ l !!! j) → highest l t → highest (<[j := n]> l) t.
Proof.
  intros Hj Hn (Ht & Hz & Hp). split; [done|].
  assert (∀ i, (1 ≤ <[j := n]> l !!! i ↔ 1 ≤ l !!! i)) as Hsame.
  { intros i. destruct (decide (i = j)) as [->|Hne].
    - by rewrite list_lookup_total_insert_eq.
    - by rewrite list_lookup_total_insert_ne. }
  split; [|intros H0; by apply Hsame, Hp]. intros i Hi Hlt. specialize (Hz i Hi Hlt).
  destruct (decide (1 ≤ <[j := n]> l !!! Z.to_nat i)) as [H1|]; [apply Hsame in H1; lia|lia].
Qed.

(** What remains to be shown after the counts have been updated. *)
Lemma set_boost_inv n n' s0 s type :
  boost_inv n s0 → n ≤ n' → _sched_set_boost env type s0 =
    mk_boost (refcount s) (sched_effective_boost s) (set_boost_policy env (sched_effective_boost s))
      (sched_effective_boost s) (sched_freq_aggr_en s) (cluster_boost s) →
  length (refcount s) = 6%nat → (∀ i, (i < 6)%nat → 0 ≤ refcount s !!! i ≤ n') → refcount s !!! 0%nat = 0 →
  effects ext (sched_effective_boost s) s → boost_inv n' (_sched_set_boost env type s0).
Proof.
  intros _ _ -> H1 H2 H3 [Ha Hc]. split; simpl; try done. apply effective_highest.
Qed.

Lemma insert_range l j n v :
  length l = 6%nat → (∀ i, (i < 6)%nat → 0 ≤ l !!! i ≤ n) → 0 ≤ v ≤ n + 1 →
  ∀ i, (i < 6)%nat → 0 ≤ <[j := v]> l !!! i ≤ n + 1.
Proof.
  intros Hlen Hr Hv i Hi. destruct (decide (i = j)) as [->|Hne].
  - rewrite list_lookup_total_insert_eq by lia. done.
  - rewrite list_lookup_total_insert_ne by done. specialize (Hr i Hi). lia.
Qed.

Lemma alter_insert (f : Z → Z) (l : list Z) j :
  (j < length l)%nat → alter f j l = <[j := f (l !!! j)]> l.
Proof.
  intros Hj. apply list_eq. intros i. rewrite list_lookup_alter. case_decide as H.
  - subst. by rewrite list_lookup_insert_eq, (list_lookup_lookup_total_lt _ _ Hj).
  - by rewrite list_lookup_insert_ne.
Qed.

Lemma enable_inv n s t :
  boost_inv n s → 1 ≤ t ≤ BALANCE_BOOST → n < INT_MAX →
  boost_inv (n + 1) (_sched_set_boost env t s) ∧
  refcount (_sched_set_boost env t s) = count_step (refcount s) t.
Proof using Hdis Hinit Hext.
  intros Hinv Ht Hn. pose proof Hinv as [Hlen Hr Hz Hh He _ _]. unfold BALANCE_BOOST, INT_MAX in *.
  assert (s32 (count s t + 1) = count s t + 1) as Hs32.
  { specialize (Hr (Z.to_nat t) ltac:(lia)). unfold s32, count. rewrite Z.mod_small by lia. lia. }
  set (s1 := set_count t (count s t + 1) s).
  assert (refcount s1 = count_step (refcount s) t) as Hstep.
  { unfold count_step. assert (verify_boost_params t = true) as -> by (unfold verify_boost_params, BALANCE_BOOST_DISABLE, BALANCE_BOOST; lia).
    rewrite (proj2 (Z.eqb_neq t 0)), (proj2 (Z.ltb_lt 0 t)) by lia. simpl. rewrite alter_insert by lia. done. }
  assert (count s1 t = count s t + 1) as Hc1 by (unfold count at 1, s1; simpl; by rewrite list_lookup_total_insert_eq by lia).
  set (s2 := sched_boost_enable env t s).
  assert (refcount s2 = refcount s1 ∧ effects ext (sched_effective_boost s2) s2) as [Hr2 He2].
  { unfold s2, sched_boost_enable. rewrite Hs32. fold s1. rewrite Hc1.
    destruct (Z.eqb_spec (count s t + 1) 1) as [Hone|Hmore]; simpl.
    - destruct (switch_effects s1 (proj1 Hh) ltac:(destruct He; by split)) as [Hef Hrf].
      split; [done|]. by rewrite (effective_refcount s1).
    - split; [done|]. replace (sched_effective_boost s1) with (sched_boost_type s); [destruct He; by split|].
      eapply highest_unique; [|apply effective_highest].
      apply highest_insert; [lia| |done]. unfold count in *. specialize (Hr (Z.to_nat t) ltac:(lia)). lia. }
  assert (_sched_set_boost env t s = mk_boost (refcount s2) (sched_effective_boost s2)
    (set_boost_policy env (sched_effective_boost s2)) (sched_effective_boost s2) (sched_freq_aggr_en s2) (cluster_boost s2)) as Heq.
  { unfold _sched_set_boost. rewrite (proj2 (Z.eqb_neq t 0)), (proj2 (Z.ltb_lt 0 t)) by lia. done. }
  split; [|by rewrite Heq; simpl; rewrite Hr2].
  pose proof (Hr (Z.to_nat t) ltac:(lia)) as Hrt.
  eapply (set_boost_inv n); [done|lia|exact Heq|..]; rewrite ?Hr2; try done.
  - unfold s1. simpl. by rewrite length_insert.
  - apply insert_range; [done|done|]. unfold count. lia.
  - unfold s1. simpl. rewrite list_lookup_total_insert_ne by lia. done.
Qed.

Lemma disable_inv n s t :
  boost_inv n s → 1 ≤ t ≤ BALANCE_BOOST →
  boost_inv (n + 1) (_sched_set_boost env (- t) s) ∧
  refcount (_sched_set_boost env (- t) s) = count_step (refcount s) (- t).
Proof using Hdis Hinit Hext.
  intros Hinv Ht. pose proof Hinv as [Hlen Hr Hz Hh He _ _]. unfold BALANCE_BOOST in *.
  pose proof (Hr (Z.to_nat t) ltac:(lia)) as Hrt.
  set (v := Z.max 0 (count s t - 1)).
  assert (count_step (refcount s) (- t) = <[Z.to_nat t := v]> (refcount s)) as Hstep.
  { unfold count_step. assert (verify_boost_params (- t) = true) as -> by (unfold verify_boost_params, BALANCE_BOOST_DISABLE, BALANCE_BOOST; lia).
    rewrite (proj2 (Z.eqb_neq _ 0)), (proj2 (Z.ltb_ge 0 _)) by lia. simpl. rewrite Z.opp_involutive, alter_insert by lia. done. }
  set (s2 := sched_boost_disable env t s).
  assert (refcount s2 = <[Z.to_nat t := v]> (refcount s) ∧ effects ext (sched_effective_boost s2) s2) as [Hr2 He2].
  { unfold s2, sched_boost_disable. unfold count in v.
    destruct (Z.leb_spec (count s t) 0) as [Hle|Hgt]; unfold count in *.
    { split.
      - rewrite list_insert_id; [done|]. rewrite (list_lookup_lookup_total_lt (refcount s)) by lia. f_equal. lia.
      - replace (sched_effective_boost s) with (sched_boost_type s); [done|].
        eapply highest_unique; [exact Hh|apply effective_highest]. }
    set (s1 := set_count t (refcount s !!! Z.to_nat t - 1) s).
    assert (refcount s1 = <[Z.to_nat t := v]> (refcount s)) as Hs1 by (unfold s1, v; simpl; f_equal; lia).
    rewrite Hs1, list_lookup_total_insert_eq by lia.
    destruct (Z.eqb_spec v 0) as [Hz0|Hnz]; simpl.
    - destruct (switch_effects s1 (proj1 Hh) ltac:(destruct He; by split)) as [Hef Hrf].
      split; [congruence|]. by rewrite (effective_refcount s1).
    - split; [done|]. replace (sched_effective_boost s1) with (sched_boost_type s); [destruct He; by split|].
      eapply highest_unique; [|apply effective_highest]. rewrite Hs1.
      apply highest_insert; [lia| |done]. lia. }
  assert (_sched_set_boost env (- t) s = mk_boost (refcount s2) (sched_effective_boost s2)
    (set_boost_policy env (sched_effective_boost s2)) (sched_effective_boost s2) (sched_freq_aggr_en s2) (cluster_boost s2)) as Heq.
  { unfold _sched_set_boost. rewrite (proj2 (Z.eqb_neq _ 0)), (proj2 (Z.ltb_ge 0 _)), Z.opp_involutive by lia. done. }
  split; [|by rewrite Heq; simpl; rewrite Hr2].
  eapply (set_boost_inv n); [done|lia|exact Heq|..]; rewrite ?Hr2; try done.
  - by rewrite length_insert.
  - apply insert_range; [done|done|]. unfold v, count. lia.
  - rewrite list_lookup_total_insert_ne by lia. done.
Qed.

Lemma zero_counts l : length l = 6%nat → l !!! 0%nat = 0 → (∀ i, 1 ≤ i < 6 → l !!! Z.to_nat i = 0) → l = replicate 6 0.
Proof.
  intros Hlen H0 Hz. destruct l as [|a [|b [|c [|d [|e [|f [|]]]]]]]; try done.
  pose proof (Hz 1 ltac:(lia)). pose proof (Hz 2 ltac:(lia)). pose proof (Hz 3 ltac:(lia)).
  pose proof (Hz 4 ltac:(lia)). pose proof (Hz 5 ltac:(lia)). simpl in *. by subst.
Qed.

Lemma disable_all_counts s :
  length (refcount s) = 6%nat → refcount s !!! 0%nat = 0 →
  let s' := foldl (λ s i, set_count i 0 s) s (seqZ 1 5) in
  refcount s' = replicate 6 0 ∧ sched_freq_aggr_en s' = sched_freq_aggr_en s ∧ cluster_boost s' = cluster_boost s.
Proof.
  intros Hlen H0. destruct (refcount s) as [|a [|b [|c [|d [|e [|f [|]]]]]]] eqn:E; try done.
  simpl in H0. subst a. change (seqZ 1 5) with [1; 2; 3; 4; 5]. cbn. rewrite E. done.
Qed.

Lemma disable_all_inv n s :
  boost_inv n s → 0 ≤ n → boost_inv (n + 1) (_sched_set_boost env 0 s) ∧
  refcount (_sched_set_boost env 0 s) = count_step (refcount s) 0.
Proof using Hdis Hinit Hext.
  intros Hinv Hn. pose proof Hinv as [Hlen Hr Hz Hh He _ _].
  set (s2 := sched_boost_disable_all env s).
  assert (refcount s2 = replicate 6 0 ∧ effects ext NO_BOOST s2) as [Hr2 He2].
  { unfold s2, sched_boost_disable_all. destruct (Z.eqb_spec (sched_boost_type s) NO_BOOST) as [H0|_].
    - rewrite H0 in He. split; [|done]. apply zero_counts; [done|done|]. intros i Hi.
      destruct Hh as (_ & Hz' & _). specialize (Hz' i Hi (or_introl H0)). specialize (Hr (Z.to_nat i) ltac:(lia)). lia.
    - destruct (exit_effects s _ (proj1 Hh) He) as [[Ha Hc] Hrc].
      destruct (disable_all_counts (boost_exit env (sched_boost_type s) s)) as (H1 & H2 & H3); rewrite ?Hrc; [done|done|].
      split; [exact H1|]. split; [etrans; [exact H2|exact Ha]|etrans; [exact H3|exact Hc]]. }
  assert (sched_effective_boost s2 = NO_BOOST) as Heff by (unfold sched_effective_boost, count; by rewrite Hr2).
  assert (_sched_set_boost env 0 s = mk_boost (refcount s2) (sched_effective_boost s2)
    (set_boost_policy env (sched_effective_boost s2)) (sched_effective_boost s2) (sched_freq_aggr_en s2) (cluster_boost s2)) as Heq
    by done.
  split; [|by rewrite Heq; simpl; rewrite Hr2].
  eapply (set_boost_inv n); [done|lia|exact Heq|..]; rewrite ?Hr2, ?Heff; try done.
  intros i Hi. assert (replicate 6 0 !!! i = 0) as -> by (by apply list_lookup_total_correct, lookup_replicate_2). lia.
Qed.

Lemma set_boost_step n s type :
  boost_inv n s → 0 ≤ n < INT_MAX →
  boost_inv (n + 1) (sched_set_boost env type s).2 ∧
  refcount (sched_set_boost env type s).2 = count_step (refcount s) type ∧
  (sched_set_boost env type s).1 = (if verify_boost_params type then 0 else - EINVAL).
Proof using Hdis Hinit Hext.
  intros Hinv Hn. unfold sched_set_boost. rewrite Hdis. destruct (verify_boost_params type) eqn:Ev; simpl.
  2:{ split; [|by unfold count_step; rewrite Ev]. destruct Hinv as [Hlen Hr ? ? ? ? ?]. split; try done.
      intros i Hi. specialize (Hr i Hi). lia. }
  unfold verify_boost_params, BALANCE_BOOST_DISABLE, BALANCE_BOOST in Ev.
  destruct (decide (type = 0)) as [->|].
  { destruct (disable_all_inv n s Hinv ltac:(lia)) as [H1 H2]. done. }
  destruct (decide (0 < type)).
  - destruct (enable_inv n s type Hinv) as [H1 H2]; [unfold BALANCE_BOOST; lia|lia|done].
  - destruct (disable_inv n s (- type) Hinv) as [H1 H2]; [unfold BALANCE_BOOST; lia|].
    rewrite Z.opp_involutive in *. done.
Qed.
End boost_inv.

(** The state at boot. *)
Definition boost_boot (ext : list Z) : boost := mk_boost (replicate 6 0) NO_BOOST SCHED_BOOST_NONE 0 false ext.

Lemma zero_count i : (i < 6)%nat → replicate 6 0 !!! i = 0.
Proof. intros Hi. by apply list_lookup_total_correct, lookup_replicate_2. Qed.

Lemma boot_inv env ext : boost_inv env ext 0 (boost_boot ext).
Proof.
  split; try done.
  - intros i Hi. change (refcount (boost_boot ext)) with (replicate 6 0). by rewrite zero_count.
  - change (refcount (boost_boot ext)) with (replicate 6 0).
    split; [by vm_compute|]. split; [|done]. intros i Hi _.
    change SCHED_BOOST_END with 6 in Hi. by rewrite zero_count by lia.
  - split; [done|]. simpl. symmetry. apply plus_zero.
Qed.

(** C39: boosts are reference counted and only the strongest one acts.  After any
    sequence of [sched_set_boost] requests from boot: the reference counts are
    those of the requests (an enable adds one, a disable takes one away but not
    below zero, 0 clears them, an invalid type changes nothing); the boost in force
    is the lowest-numbered type with a reference; frequency aggregation is on
    exactly for the full-throttle and restrained boosts; every cluster's core-control
    count is what others requested plus one exactly for the full-throttle, storage
    and balance boosts; and the placement policy is none exactly when there is no boost
    or the restrained one. *)
Theorem boost_requests_act env ext types :
  walt_disabled env = false → core_ctl_initialized env = true →
  Forall (λ c, 0 ≤ c < 2 ^ 32 - 1) ext → Z.of_nat (length types) < INT_MAX →
  let s := foldl (λ s t, (sched_set_boost env t s).2) (boost_boot ext) types in
  refcount s = foldl count_step (replicate 6 0) types ∧
  highest (refcount s) (sched_boost_type s) ∧
  sched_freq_aggr_en s = aggregates (sched_boost_type s) ∧
  cluster_boost s = (λ c, c + core_boost (sched_boost_type s)) <$> ext ∧
  (boost_policy s = SCHED_BOOST_NONE ↔ sched_boost_type s = NO_BOOST ∨ sched_boost_type s = RESTRAINED_BOOST).
Proof.
  intros Hdis Hinit Hext Hlen s.
  assert (∀ l n s0, boost_inv env ext n s0 → 0 ≤ n → n + Z.of_nat (length l) < INT_MAX →
    boost_inv env ext (n + Z.of_nat (length l)) (foldl (λ s t, (sched_set_boost env t s).2) s0 l) ∧
    refcount (foldl (λ s t, (sched_set_boost env t s).2) s0 l) = foldl count_step (refcount s0) l) as Hgen.
  { intros l. induction l as [|t l IH]; intros n s0 Hinv Hn Hl; simpl; [by rewrite Z.add_0_r|].
    cbn [length] in Hl. rewrite Nat2Z.inj_succ in *.
    destruct (set_boost_step env ext Hdis Hinit Hext n s0 t Hinv ltac:(lia)) as (Hinv1 & Hr1 & _).
    destruct (IH (n + 1) _ Hinv1 ltac:(lia) ltac:(lia)) as [Hinv2 Hr2].
    split; [by replace (n + Z.succ (Z.of_nat (length l))) with (n + 1 + Z.of_nat (length l)) by lia|].
    by rewrite Hr2, Hr1. }
  destruct (Hgen types 0 (boost_boot ext) (boot_inv env ext) ltac:(lia) ltac:(lia)) as [[_ _ _ Hh [Ha Hc] Hp _] Hr].
  fold s in Hh, Ha, Hc, Hp, Hr. do 4 (split; [done|]). rewrite Hp. unfold set_boost_policy.
  destruct (Z.eqb_spec (sched_boost_type s) NO_BOOST), (Z.eqb_spec (sched_boost_type s) RESTRAINED_BOOST); simpl;
    destruct (hmp_capable env); naive_solver.
Qed.

(** Storage and full throttle requested, full throttle released. *)
Lemma boost_requests_witness :
  let env := mk_boost_env false true true in
  let s := foldl (λ s t, (sched_set_boost env t s).2) (boost_boot [0; 3]) [4; 1; 1; -1; -1] in
  sched_boost_type s = STORAGE_BOOST ∧ sched_freq_aggr_en s = false ∧
  cluster_boost s = (λ c, c + core_boost (sched_boost_type s)) <$> [0; 3].
Proof.
  intros env s.
  destruct (boost_requests_act env [0; 3] [4; 1; 1; -1; -1] eq_refl eq_refl) as (_ & _ & Ha & Hc & _).
  - repeat constructor; lia.
  - vm_compute. reflexivity.
  - split; [reflexivity|]. split; [exact Ha|exact Hc].
Defined.
