(* ===== verification/WaltHalt.v ===== *)
(** * Halting CPUs (kernel/sched/walt/walt_halt.c)

    Clients vote to halt a CPU, fully or partially; a CPU is in the halt mask while
    some client's vote stands.  CPU masks are finite sets of CPU numbers and
    [for_each_cpu] visits them in increasing order.  The drain thread, the load
    balancer kick and the frequency caps are state the operations leave behind.
    The scheduler hooks that keep tasks away from halted CPUs are functions of
    the masks; a choice the kernel makes among the CPUs of a mask is a parameter
    that picks a member of the mask. *)

From S2P Require Import Prelude.

Abbreviation cpumask := (gset Z).

Inductive pause_type := HALT | PARTIAL_HALT.
#[export] Instance pause_type_eq_dec : EqDecision pause_type.
Proof. solve_decision. Defined.

Definition PAUSE_CORE_CTL : Z := 0x01.
Definition PAUSE_THERMAL : Z := 0x02.
Definition PAUSE_HYP : Z := 0x04.
Definition PAUSE_SBT : Z := 0x08.
Definition FREQ_QOS_MAX_DEFAULT_VALUE : Z := INT_MAX.

(** What does not change: the number of CPUs, the first 32-bit capable CPU
    ([nr_cpu_ids] when there is none), the clusters, the partially haltable CPUs
    and the sysctl. *)
Record halt_env := mk_halt_env {
  nr_cpu_ids : Z;
  el0_first : Z;
  cluster_id : Z → Z;
  part_haltable_cpus : cpumask;
  sysctl_max_freq_partial_halt : Z;
  h_walt_disabled : bool;
}.

Record halt := mk_halt {
  cpu_halt_mask : cpumask;
  cpu_partial_halt_mask : cpumask;
  client_vote_mask : pause_type → Z → Z;   (* per cpu, u8 *)
  cpus_to_drain : cpumask;
  partial_halt_cap : Z → Z;                (* freq_cap[PARTIAL_HALT_CAP][cluster] *)
  kicked : list Z;                         (* walt_smp_call_newidle_balance *)
}.

Section ops.
Context (env : halt_env).

(** [for_each_cpu] *)
Definition cpus_of (m : cpumask) : list Z := filter (λ c, c ∈ m) (seqZ 0 (nr_cpu_ids env)).

Definition mask_of (type : pause_type) (s : halt) : cpumask :=
  match type with HALT => cpu_halt_mask s | PARTIAL_HALT => cpu_partial_halt_mask s end.
Definition set_mask (type : pause_type) (m : cpumask) (s : halt) : halt :=
  match type with
  | HALT => mk_halt m (cpu_partial_halt_mask s) (client_vote_mask s) (cpus_to_drain s) (partial_halt_cap s) (kicked s)
  | PARTIAL_HALT => mk_halt (cpu_halt_mask s) m (client_vote_mask s) (cpus_to_drain s) (partial_halt_cap s) (kicked s)
  end.
Definition set_votes (f : pause_type → Z → Z) (s : halt) : halt :=
  mk_halt (cpu_halt_mask s) (cpu_partial_halt_mask s) f (cpus_to_drain s) (partial_halt_cap s) (kicked s).
Definition set_drain (m : cpumask) (s : halt) : halt :=
  mk_halt (cpu_halt_mask s) (cpu_partial_halt_mask s) (client_vote_mask s) m (partial_halt_cap s) (kicked s).
Definition set_cap (f : Z → Z) (s : halt) : halt :=
  mk_halt (cpu_halt_mask s) (cpu_partial_halt_mask s) (client_vote_mask s) (cpus_to_drain s) f (kicked s).
Definition kick (c : Z) (s : halt) : halt :=
  mk_halt (cpu_halt_mask s) (cpu_partial_halt_mask s) (client_vote_mask s) (cpus_to_drain s) (partial_halt_cap s)
    (c :: kicked s).

Definition is_state1 (s : halt) : bool :=
  if bool_decide (part_haltable_cpus env = ∅) then false
  else bool_decide (part_haltable_cpus env ⊆ cpu_partial_halt_mask s ∪ cpu_halt_mask s).

(** Caps the clusters of partially halted CPUs. *)
Definition restrict_cpus_and_freq (cpus : cpumask) (s : halt) : halt :=
  let cap :=
    if bool_decide (cpus ∩ cpu_partial_halt_mask s ≠ ∅) && bool_decide (cpus ∩ cpu_halt_mask s = ∅) && is_state1 s
    then sysctl_max_freq_partial_halt env else FREQ_QOS_MAX_DEFAULT_VALUE in
  set_cap (foldl (λ f c, <[cluster_id env c := cap]> f) (partial_halt_cap s) (cpus_of cpus)) s.

(** Adds the CPUs to the mask one by one; the first 32-bit capable CPU stops it. *)
Fixpoint halt_loop (cpus : list Z) (type : pause_type) (s : halt) : Z * halt :=
  match cpus with
  | [] => (0, s)
  | cpu :: cpus =>
      if cpu =? el0_first env then (- EINVAL, s)
      else halt_loop cpus type (set_mask type (mask_of type s ∪ {[cpu]}) s)
  end.

Definition halt_cpus (cpus : cpumask) (type : pause_type) (s : halt) : Z * halt :=
  let '(ret, s) := halt_loop (cpus_of cpus) type s in
  if negb (ret =? 0) then (ret, s)
  else
    let s := restrict_cpus_and_freq cpus s in
    match type with
    | HALT => (0, set_drain (cpus_to_drain s ∪ cpus) s)
    | PARTIAL_HALT => (0, s)
    end.

Definition start_cpus (cpus : cpumask) (type : pause_type) (s : halt) : Z * halt :=
  let s := foldl (λ s cpu, kick cpu (set_mask type (mask_of type s ∖ {[cpu]}) s)) s (cpus_of cpus) in
  (0, restrict_cpus_and_freq cpus s).

Definition update_vote (h : bool) (client old : Z) : Z :=
  u8 (if h then Z.lor old client else Z.land old (Z.lnot client)).
Definition update_clients (cpus : cpumask) (h : bool) (client : Z) (type : pause_type) (s : halt) : halt :=
  foldl (λ s cpu, set_votes (<[type := <[cpu := update_vote h client (client_vote_mask s type cpu)]>
                                        (client_vote_mask s type)]> (client_vote_mask s)) s)
    s (cpus_of cpus).

(** Removes the CPUs with votes from the mask. *)
Definition update_halt_cpus (cpus : cpumask) (type : pause_type) (s : halt) : cpumask :=
  foldl (λ m cpu, if client_vote_mask s type cpu =? 0 then m else m ∖ {[cpu]}) cpus (cpus_of cpus).

Definition walt_halt_cpus (cpus : cpumask) (client : Z) (type : pause_type) (s : halt) : Z * halt :=
  let requested_cpus := cpus in
  let cpus := update_halt_cpus cpus type s in
  if bool_decide (cpus = ∅) then (0, update_clients requested_cpus true client type s)
  else
    let '(ret, s) := halt_cpus cpus type s in
    if ret <? 0 then (ret, s) else (ret, update_clients requested_cpus true client type s).

Definition walt_pause_cpus (cpus : cpumask) (client : Z) (s : halt) : Z * halt :=
  if h_walt_disabled env then (- EAGAIN, s) else walt_halt_cpus cpus client HALT s.
Definition walt_partial_pause_cpus (cpus : cpumask) (client : Z) (s : halt) : Z * halt :=
  if h_walt_disabled env then (- EAGAIN, s) else walt_halt_cpus cpus client PARTIAL_HALT s.

Definition walt_start_cpus (cpus : cpumask) (client : Z) (type : pause_type) (s : halt) : Z * halt :=
  let requested_cpus := cpus in
  let s := update_clients requested_cpus false client type s in
  let cpus := update_halt_cpus cpus type s in
  let '(ret, s) := start_cpus cpus type s in
  if ret <? 0 then (ret, update_clients requested_cpus true client type s) else (ret, s).

Definition walt_resume_cpus (cpus : cpumask) (client : Z) (s : halt) : Z * halt :=
  if h_walt_disabled env then (- EAGAIN, s) else walt_start_cpus cpus client HALT s.
Definition walt_partial_resume_cpus (cpus : cpumask) (client : Z) (s : halt) : Z * halt :=
  if h_walt_disabled env then (- EAGAIN, s) else walt_start_cpus cpus client PARTIAL_HALT s.

Definition cpus_halted_by_client (cpus : cpumask) (client : Z) (s : halt) : bool :=
  existsb (λ cpu, negb (Z.land (client_vote_mask s HALT cpu) client =? 0)) (cpus_of cpus).

(** One round of the drain thread: [env_adds] are the CPUs added by others while it
    drains the ones it saw. *)
Definition try_drain_round (env_adds : cpumask) (s : halt) : list Z * halt :=
  if bool_decide (cpus_to_drain s = ∅) then ([], s)
  else
    let local_cpus := cpus_to_drain s in
    (cpus_of local_cpus, set_drain ((cpus_to_drain s ∪ env_adds) ∖ local_cpus) s).

(** ** Scheduler hooks *)

(** The parts of a task the hooks look at. *)
Record task := mk_task {
  cpus_ptr : cpumask;
  PF_KTHREAD : bool;
  compat_in_execve : bool;
  migration_disabled : bool;
  on_scx : bool;
}.

(** [active] and [dying] are [cpu_active_mask] and [cpu_dying_mask]; returns [*allowed]. *)
Definition android_rvh_is_cpu_allowed (active dying : cpumask) (s : halt) (p : task) (cpu : Z) (allowed : bool) : bool :=
  if h_walt_disabled env then allowed
  else if on_scx p then allowed
  else if bool_decide (cpu ∈ cpu_halt_mask s) then
    if compat_in_execve p then true
    else
      let cpus_allowed := (active ∩ cpus_ptr p) ∖ cpu_halt_mask s in
      if negb (PF_KTHREAD p) then bool_decide (cpus_allowed = ∅)
      else bool_decide (cpus_allowed ∖ dying = ∅)
  else allowed.

(** [pick] is [cpumask_any_and_distribute] on the intersection; returns [*dest_cpu]. *)
Definition android_rvh_set_cpus_allowed_by_task (pick : cpumask → Z) (cpu_valid_mask new_mask : cpumask)
    (s : halt) (p : task) (dest_cpu : Z) : Z :=
  if h_walt_disabled env then dest_cpu
  else if PF_KTHREAD p then dest_cpu
  else if bool_decide (dest_cpu ∈ cpu_halt_mask s) && negb (migration_disabled p) then
    if compat_in_execve p then dest_cpu
    else
      let allowed_cpus := (cpu_valid_mask ∖ cpu_halt_mask s) ∩ new_mask in
      if bool_decide (allowed_cpus = ∅) then dest_cpu else pick (allowed_cpus ∩ new_mask)
  else dest_cpu.

(** [cpumask_next]: the first CPU of the mask above [n], or [nr_cpu_ids]. *)
Definition cpumask_next (n : Z) (m : cpumask) : Z :=
  default (nr_cpu_ids env) (head (filter (λ c, n < c) (cpus_of m))).

Definition android_rvh_rto_next_cpu (rto_cpu : Z) (rto_mask : cpumask) (s : halt) (cpu : Z) : Z :=
  if h_walt_disabled env then cpu
  else if bool_decide (cpu ∈ cpu_halt_mask s) then cpumask_next rto_cpu (rto_mask ∖ cpu_halt_mask s)
  else cpu.

(** Everything the timer hook consults besides the halt mask. *)
Record timer_env := mk_timer_env {
  tm_active : cpumask;
  tm_housekeeping : cpumask;
  tm_idle : Z → bool;                   (* available_idle_cpu *)
  tm_domains : list cpumask;            (* spans of the domains of the CPU, innermost first *)
  tm_part_paused_by_us : cpumask;
  tm_paused_by_us : cpumask;
}.

(** [any] is [cpumask_any]; returns [*cpu]. *)
Definition android_rvh_get_nohz_timer_target (any : cpumask → Z) (te : timer_env) (s : halt) (cpu : Z) : Z :=
  let active_unhalted := tm_active te ∖ cpu_halt_mask s in
  let halted c := bool_decide (c ∈ cpu_halt_mask s) in
  let own := bool_decide (cpu ∈ tm_housekeeping te) && negb (halted cpu) in
  if own && negb (tm_idle te cpu) then cpu
  else
    let default_cpu := if own then cpu else -1 in
    let fallback :=
      if bool_decide (active_unhalted = ∅) then
        let tmp_part_pause := tm_active te ∩ tm_part_paused_by_us te in
        let tmp_pause := tm_active te ∩ tm_paused_by_us te in
        let tmp := if negb (bool_decide (tmp_part_pause = ∅)) then tmp_part_pause
                   else if negb (bool_decide (tmp_pause = ∅)) then tmp_pause
                   else tm_active te ∩ cpu_halt_mask s in
        snd <$> list_find (λ i, ¬ (i = cpu ∧ (1 < length (cpus_of tmp))%nat)) (cpus_of tmp)
      else None in
    match fallback with
    | Some i => i
    | None =>
        let busy := list_find (λ i, i ≠ cpu ∧ tm_idle te i = false ∧ i ∉ cpu_halt_mask s)
                      (sd ← tm_domains te; cpus_of (sd ∩ tm_housekeeping te)) in
        match busy with
        | Some (_, i) => i
        | None =>
            if default_cpu =? -1 then
              match list_find (λ i, i ≠ cpu ∧ tm_idle te i = false) (cpus_of (active_unhalted ∩ tm_housekeeping te)) with
              | Some (_, i) => i
              | None => if nr_cpu_ids env <=? any active_unhalted then cpu else any active_unhalted
              end
            else default_cpu
        end
    end.
End ops.

(** ** A CPU is halted while a vote stands *)

Section masks.
Context (env : halt_env).

Lemma elem_cpus_of m c : c ∈ cpus_of env m ↔ c ∈ m ∧ 0 ≤ c < nr_cpu_ids env.
Proof. unfold cpus_of. rewrite list_elem_of_filter, elem_of_seqZ. naive_solver lia. Qed.

Lemma NoDup_cpus_of m : NoDup (cpus_of env m).
Proof. apply list.NoDup_filter, NoDup_seqZ. Qed.

Lemma set_mask_set type m m' s : set_mask type m (set_mask type m' s) = set_mask type m s.
Proof. by destruct type. Qed.
Lemma mask_of_set type m s : mask_of type (set_mask type m s) = m.
Proof. by destruct type. Qed.
Lemma mask_of_set_ne type type' m s : type ≠ type' → mask_of type (set_mask type' m s) = mask_of type s.
Proof. by destruct type, type'. Qed.

Lemma halt_loop_run l type s :
  el0_first env ∉ l →
  halt_loop env l type s = (0, set_mask type (mask_of type s ∪ list_to_set l) s).
Proof.
  revert s. induction l as [|c l IH]; intros s Hl; simpl.
  - rewrite union_empty_r_L. f_equal. by destruct type, s.
  - apply not_elem_of_cons in Hl as [Hc Hl]. rewrite (proj2 (Z.eqb_neq _ _)) by congruence.
    rewrite IH, set_mask_set, mask_of_set by done. by rewrite (assoc_L (∪)).
Qed.

Lemma start_loop_run l type s :
  let s' := foldl (λ s c, kick c (set_mask type (mask_of type s ∖ {[c]}) s)) s l in
  client_vote_mask s' = client_vote_mask s ∧
  (∀ t, mask_of t s' = if decide (t = type) then mask_of type s ∖ list_to_set l else mask_of t s).
Proof.
  revert s. induction l as [|c l IH]; intros s; simpl.
  { split; [done|]. intros t. case_decide; [subst; by rewrite difference_empty_L|done]. }
  destruct (IH (kick c (set_mask type (mask_of type s ∖ {[c]}) s))) as [-> IH2].
  split; [by destruct type|]. intros t. rewrite IH2.
  assert (∀ t s0, mask_of t (kick c s0) = mask_of t s0) as Hkick by (by intros [] ?).
  rewrite !Hkick. case_decide as H; [subst; rewrite mask_of_set; set_solver|by apply mask_of_set_ne].
Qed.

(** Votes after [update_clients]. *)
Lemma update_clients_run cpus h client type s :
  let s' := update_clients env cpus h client type s in
  (∀ t, mask_of t s' = mask_of t s) ∧
  (∀ t c, client_vote_mask s' t c =
     if decide (t = type ∧ c ∈ cpus_of env cpus) then update_vote h client (client_vote_mask s t c)
     else client_vote_mask s t c).
Proof.
  unfold update_clients. pose proof (NoDup_cpus_of cpus) as Hnd. revert s Hnd.
  induction (cpus_of env cpus) as [|c0 l IH]; intros s Hnd; simpl.
  { split; [done|]. intros t c. rewrite decide_False by set_solver. done. }
  apply list.NoDup_cons in Hnd as [Hc0 Hnd]. destruct (IH (set_votes
    (<[type:=<[c0:=update_vote h client (client_vote_mask s type c0)]> (client_vote_mask s type)]>
       (client_vote_mask s)) s) Hnd) as [IH1 IH2].
  split; [intros t; rewrite IH1; by destruct t|]. intros t c. rewrite IH2. simpl.
  destruct (decide (t = type)) as [->|Ht].
  2:{ rewrite !decide_False by naive_solver. by rewrite fn_lookup_insert_ne. }
  rewrite fn_lookup_insert. destruct (decide (c = c0)) as [->|Hc].
  - rewrite (decide_False (P := _ ∧ c0 ∈ l)), decide_True by set_solver. by rewrite fn_lookup_insert.
  - rewrite fn_lookup_insert_ne by done. by destruct (decide (c ∈ l));
      [rewrite !decide_True by set_solver|rewrite !decide_False by set_solver].
Qed.

Lemma elem_update_halt_cpus cpus type s c :
  0 ≤ c < nr_cpu_ids env →
  c ∈ update_halt_cpus env cpus type s ↔ c ∈ cpus ∧ client_vote_mask s type c = 0.
Proof.
  intros Hc. unfold update_halt_cpus.
  assert (∀ l (m : cpumask), c ∈ foldl (λ m cpu, if client_vote_mask s type cpu =? 0 then m else m ∖ {[cpu]}) m l ↔
            c ∈ m ∧ (c ∈ l → client_vote_mask s type c = 0)) as Hgen.
  { intros l. induction l as [|x l IH]; intros m; simpl; [set_solver|]. rewrite IH.
    destruct (Z.eqb_spec (client_vote_mask s type x) 0); set_solver. }
  rewrite Hgen, elem_cpus_of. naive_solver.
Qed.

Lemma update_halt_subset cpus type s : update_halt_cpus env cpus type s ⊆ cpus.
Proof.
  unfold update_halt_cpus. generalize (cpus_of env cpus) as l. intros l. revert cpus.
  induction l as [|x l IH]; intros cpus; simpl; [done|]. etrans; [apply IH|]. destruct (_ =? 0); set_solver.
Qed.

(** The invariant: in the mask exactly when there is a vote. *)
Record halt_inv (s : halt) : Prop := {
  hi_mask type c : 0 ≤ c < nr_cpu_ids env → c ∈ mask_of type s ↔ client_vote_mask s type c ≠ 0;
  hi_u8 type c : 0 ≤ client_vote_mask s type c < 256;
}.

Definition client_ok (client : Z) : Prop := 0 < client < 256.

Lemma update_vote_u8 h client old : 0 ≤ update_vote h client old < 256.
Proof. by apply Z.mod_pos_bound. Qed.

Lemma update_vote_set client old : client_ok client → update_vote true client old ≠ 0.
Proof.
  intros Hc Hz. unfold client_ok in Hc. assert (0 ≤ Z.log2 client < 8) as Hb.
  { split; [apply Z.log2_nonneg|]. apply Z.log2_lt_pow2; lia. }
  apply (f_equal (λ z, Z.testbit z (Z.log2 client))) in Hz. unfold update_vote, u8 in Hz.
  rewrite Z.mod_pow2_bits_low, Z.lor_spec, Z.bit_log2, Z.testbit_0_l, orb_true_r in Hz by lia. done.
Qed.

(** A request: halt or start these CPUs on behalf of a client. *)
Record request := mk_request { rq_halt : bool; rq_type : pause_type; rq_cpus : cpumask; rq_client : Z }.
Definition serve (s : halt) (r : request) : Z * halt :=
  match rq_halt r, rq_type r with
  | true, HALT => walt_pause_cpus env (rq_cpus r) (rq_client r) s
  | true, PARTIAL_HALT => walt_partial_pause_cpus env (rq_cpus r) (rq_client r) s
  | false, HALT => walt_resume_cpus env (rq_cpus r) (rq_client r) s
  | false, PARTIAL_HALT => walt_partial_resume_cpus env (rq_cpus r) (rq_client r) s
  end.
(** The first 32-bit capable CPU is not to be halted. *)
Definition request_ok (r : request) : Prop :=
  client_ok (rq_client r) ∧ (rq_halt r = true → el0_first env ∉ rq_cpus r).

(** The votes after a request. *)
Definition voted (f : pause_type → Z → Z) (r : request) (type : pause_type) (c : Z) : Z :=
  if decide (type = rq_type r ∧ c ∈ cpus_of env (rq_cpus r))
  then update_vote (rq_halt r) (rq_client r) (f type c) else f type c.

Lemma halt_cpus_run cpus type s :
  el0_first env ∉ cpus →
  (halt_cpus env cpus type s).1 = 0 ∧
  client_vote_mask (halt_cpus env cpus type s).2 = client_vote_mask s ∧
  (∀ t, mask_of t (halt_cpus env cpus type s).2 =
     if decide (t = type) then mask_of type s ∪ list_to_set (cpus_of env cpus) else mask_of t s).
Proof.
  intros He. unfold halt_cpus. rewrite halt_loop_run by (rewrite elem_cpus_of; naive_solver). simpl.
  split; [by destruct type|]. split; [by destruct type|]. intros t. destruct type, t; simpl; by rewrite ?decide_True, ?decide_False.
Qed.

Lemma walt_halt_cpus_inv cpus client type s :
  halt_inv s → client_ok client → el0_first env ∉ cpus →
  let res := walt_halt_cpus env cpus client type s in
  res.1 = 0 ∧ halt_inv res.2 ∧
  ∀ t c, client_vote_mask res.2 t c = voted (client_vote_mask s) (mk_request true type cpus client) t c.
Proof.
  intros [Hm Hu] Hc He. unfold walt_halt_cpus. set (new := update_halt_cpus env cpus type s).
  set (s1 := if bool_decide (new = ∅) then s else (halt_cpus env new type s).2).
  assert (el0_first env ∉ new ∧ client_vote_mask s1 = client_vote_mask s ∧
    ∀ t c, 0 ≤ c < nr_cpu_ids env → c ∈ mask_of t s1 ↔ c ∈ mask_of t s ∨ (t = type ∧ c ∈ new)) as (Hnew & Hv1 & Hm1).
  { assert (el0_first env ∉ new) as Hnew by (intros Hin; by apply He, (update_halt_subset cpus type s)).
    split; [done|]. unfold s1. case_bool_decide as Hemp.
    - split; [done|]. intros t c _. rewrite Hemp. set_solver.
    - destruct (halt_cpus_run new type s Hnew) as (_ & -> & Hmask). split; [done|]. intros t c Hr.
      rewrite Hmask. case_decide as Ht; [|naive_solver]. subst t.
      rewrite elem_of_union, elem_of_list_to_set, elem_cpus_of. naive_solver. }
  assert ((if bool_decide (new = ∅) then (0, update_clients env cpus true client type s)
           else let '(ret, s0) := halt_cpus env new type s in
                if ret <? 0 then (ret, s0) else (ret, update_clients env cpus true client type s0))
          = (0, update_clients env cpus true client type s1)) as ->.
  { unfold s1. case_bool_decide; [done|]. destruct (halt_cpus_run new type s Hnew) as (Hr & _).
    destruct (halt_cpus env new type s) as [ret s0]. simpl in Hr. by subst. }
  cbn zeta. split; [done|]. cbn [snd].
  destruct (update_clients_run cpus true client type s1) as [Hmask Hvotes].
  assert (∀ t c, client_vote_mask (update_clients env cpus true client type s1) t c =
    voted (client_vote_mask s) (mk_request true type cpus client) t c) as Hvoted by (intros t c; by rewrite Hvotes, Hv1).
  split; [split|done].
  - intros t c Hr. rewrite Hmask, Hm1, Hvoted by done. unfold voted. simpl. rewrite Hm by done.
    case_decide as Hd; [|].
    + destruct Hd as [-> Hin]. split; [intros _; by apply update_vote_set|]. intros _.
      destruct (decide (client_vote_mask s type c = 0)); [right|by left].
      split; [done|]. apply elem_update_halt_cpus; [done|]. apply elem_cpus_of in Hin. naive_solver.
    + split; [|by left]. intros [?|[-> Hin]]; [done|]. exfalso. apply Hd. split; [done|].
      apply elem_update_halt_cpus in Hin; [|done]. apply elem_cpus_of. naive_solver.
  - intros t c. rewrite Hvoted. unfold voted. case_decide; [apply update_vote_u8|apply Hu].
Qed.

Lemma walt_start_cpus_inv cpus client type s :
  halt_inv s →
  let res := walt_start_cpus env cpus client type s in
  res.1 = 0 ∧ halt_inv res.2 ∧
  ∀ t c, client_vote_mask res.2 t c = voted (client_vote_mask s) (mk_request false type cpus client) t c.
Proof.
  intros [Hm Hu]. unfold walt_start_cpus, start_cpus.
  destruct (update_clients_run cpus false client type s) as [Hmask Hvotes].
  set (s1 := update_clients env cpus false client type s) in *.
  set (go := update_halt_cpus env cpus type s1).
  destruct (start_loop_run (cpus_of env go) type s1) as [Hv2 Hm2].
  set (s2 := foldl _ s1 (cpus_of env go)) in *. cbn. split; [done|].
  assert (∀ t c, client_vote_mask s2 t c = voted (client_vote_mask s) (mk_request false type cpus client) t c) as Hvoted.
  { intros t c. rewrite Hv2, Hvotes. done. }
  split; [split|exact Hvoted].
  - intros t c Hr. assert (mask_of t (restrict_cpus_and_freq env go s2) = mask_of t s2) as -> by (by destruct t).
    cbn. rewrite Hm2, Hvoted. unfold voted. cbn. case_decide as Ht; [subst t|].
    + assert (c ∈ cpus_of env go ↔ c ∈ cpus ∧ client_vote_mask s1 type c = 0) as Hgo.
      { unfold go. rewrite elem_cpus_of, elem_update_halt_cpus by done. naive_solver. }
      rewrite elem_of_difference, elem_of_list_to_set, Hgo, Hmask, Hm by done. rewrite Hvotes.
      case_decide as Hd; [destruct Hd as [_ [Hin _]%elem_cpus_of]|rewrite elem_cpus_of in Hd].
      * destruct (decide (update_vote false client (client_vote_mask s type c) = 0)) as [Hz|Hnz]; [naive_solver|].
        split; [naive_solver|]. intros _. split; [|naive_solver]. intros H0. apply Hnz. by rewrite H0.
      * naive_solver.
    + rewrite decide_False by naive_solver. by rewrite Hmask, Hm.
  - intros t c. cbn. rewrite Hvoted. unfold voted. case_decide; [apply update_vote_u8|apply Hu].
Qed.

Lemma serve_inv s r :
  halt_inv s → h_walt_disabled env = false → request_ok r →
  (serve s r).1 = 0 ∧ halt_inv (serve s r).2 ∧
  ∀ t c, client_vote_mask (serve s r).2 t c = voted (client_vote_mask s) r t c.
Proof.
  intros Hinv Hd [Hc He]. destruct r as [[|] [|] cpus client]; unfold serve; cbn in *;
    unfold walt_pause_cpus, walt_partial_pause_cpus, walt_resume_cpus, walt_partial_resume_cpus; rewrite Hd;
    first [by apply walt_start_cpus_inv | apply walt_halt_cpus_inv; [done|done|by apply He]].
Qed.
End masks.

(** No CPU halted, no vote. *)
Definition halt_boot : halt := mk_halt ∅ ∅ (λ _ _, 0) ∅ (λ _, FREQ_QOS_MAX_DEFAULT_VALUE) [].

(** C38: a CPU is halted exactly while a client's vote stands.  For any sequence of
    pause, partial pause, resume and partial resume requests from boot, none of
    which asks to halt the first 32-bit capable CPU: every request succeeds, each
    client's votes are those of its requests, and afterwards a CPU is in the halt
    (partial halt) mask if and only if some client's vote for it stands. *)
Theorem halted_iff_voted env reqs :
  h_walt_disabled env = false → Forall (request_ok env) reqs →
  let s := foldl (λ s r, (serve env s r).2) halt_boot reqs in
  (∀ pre r post, reqs = pre ++ r :: post →
     (serve env (foldl (λ s r, (serve env s r).2) halt_boot pre) r).1 = 0) ∧
  (∀ type c, client_vote_mask s type c = foldl (voted env) (λ _ _, 0) reqs type c) ∧
  (∀ type c, 0 ≤ c < nr_cpu_ids env → c ∈ mask_of type s ↔ client_vote_mask s type c ≠ 0).
Proof.
  intros Hd Hok s.
  assert (∀ l s0 f, halt_inv env s0 → Forall (request_ok env) l → (∀ t c, client_vote_mask s0 t c = f t c) →
    halt_inv env (foldl (λ s r, (serve env s r).2) s0 l) ∧
    ∀ t c, client_vote_mask (foldl (λ s r, (serve env s r).2) s0 l) t c = foldl (voted env) f l t c) as Hgen.
  { intros l. induction l as [|r l IH]; intros s0 f Hinv Hl Hf; simpl; [done|].
    apply list.Forall_cons in Hl as [Hr Hl]. destruct (serve_inv env s0 r Hinv Hd Hr) as (_ & Hinv1 & Hv1).
    apply IH; [done|done|]. intros t c. rewrite Hv1. unfold voted. by rewrite Hf. }
  assert (halt_inv env halt_boot) as Hboot
    by (split; [intros [] c _; simpl; set_solver|done]).
  destruct (Hgen reqs halt_boot (λ _ _, 0) Hboot Hok) as [[Hm Hu] Hv]; [done|].
  split; [|split; [exact Hv|exact Hm]].
  intros pre r post ->. apply Forall_app in Hok as [Hpre [Hr _]%list.Forall_cons].
  destruct (Hgen pre halt_boot (λ _ _, 0) Hboot Hpre) as [Hinv _]; [done|].
  by apply serve_inv.
Qed.

Definition sample_env : halt_env := mk_halt_env 8 0 (λ c, c / 4) {[6; 7]} 1000 false.

Lemma halted_iff_voted_witness :
  let reqs := [mk_request true HALT {[4; 5]} PAUSE_CORE_CTL; mk_request true HALT {[5]} PAUSE_THERMAL;
               mk_request false HALT {[4; 5]} PAUSE_CORE_CTL] in
  let s := foldl (λ s r, (serve sample_env s r).2) halt_boot reqs in
  5 ∈ cpu_halt_mask s ∧ 4 ∉ cpu_halt_mask s.
Proof.
  intros reqs s. destruct (halted_iff_voted sample_env reqs eq_refl) as (_ & Hv & Hm).
  { repeat apply Forall_cons_2; [..|apply Forall_nil_2];
      (split; [split; vm_compute; reflexivity|intros _; apply (bool_decide_unpack _); vm_compute; reflexivity]). }
  split.
  - apply (Hm HALT 5); [split; vm_compute; congruence|]. rewrite (Hv HALT 5). vm_compute. discriminate.
  - intros Hin. apply (Hm HALT 4) in Hin; [|split; vm_compute; congruence]. apply Hin. rewrite (Hv HALT 4).
    vm_compute. reflexivity.
Defined.

(** When the 32-bit capable CPU is among the requested ones the earlier CPUs stay in the
    mask without a vote, although the request fails. *)
Example failed_halt_leaves_cpus_halted :
  let env := mk_halt_env 8 5 (λ c, c / 4) ∅ 0 false in
  let '(ret, s) := walt_pause_cpus env {[4; 5]} PAUSE_CORE_CTL halt_boot in
  ret = - EINVAL ∧ 4 ∈ cpu_halt_mask s ∧ client_vote_mask s HALT 4 = 0.
Proof. vm_compute. split; [reflexivity|]. split; reflexivity. Qed.

(** ** The hooks *)

(** Where a task could go instead: an active CPU of its affinity that is not halted
    and, for a kernel thread, not dying. *)
Definition alternative (active dying : cpumask) (s : halt) (p : task) (c : Z) : Prop :=
  c ∈ active ∧ c ∈ cpus_ptr p ∧ c ∉ cpu_halt_mask s ∧ (PF_KTHREAD p = true → c ∉ dying).

(** a task is kept off a CPU only when it is halted and there is an alternative.
    [android_rvh_is_cpu_allowed] turns an allowed CPU into a refused one exactly
    when scheduling is under WALT's control for the task, the CPU is halted, the
    task is not a 32-bit task in execve, and some other active CPU of its affinity
    is not halted (nor dying, for a kernel thread): no task is left without a CPU. *)
Theorem cpu_refused_iff env active dying s p cpu :
  android_rvh_is_cpu_allowed env active dying s p cpu true = false ↔
  h_walt_disabled env = false ∧ on_scx p = false ∧ cpu ∈ cpu_halt_mask s ∧ compat_in_execve p = false ∧
  ∃ c, alternative active dying s p c.
Proof.
  unfold android_rvh_is_cpu_allowed, alternative.
  destruct (h_walt_disabled env); [naive_solver|]. destruct (on_scx p); [naive_solver|].
  case_bool_decide as Hcpu; [|naive_solver]. destruct (compat_in_execve p); [naive_solver|].
  destruct (PF_KTHREAD p); simpl; rewrite bool_decide_eq_false; split.
  - intros Hne. apply set_choose_L in Hne as [c Hc]. do 4 (split; [done|]). exists c. set_solver.
  - intros (_ & _ & _ & _ & c & Hc) He. assert (c ∈ ((active ∩ cpus_ptr p) ∖ cpu_halt_mask s) ∖ dying) by set_solver.
    set_solver.
  - intros Hne. apply set_choose_L in Hne as [c Hc]. do 4 (split; [done|]). exists c. set_solver.
  - intros (_ & _ & _ & _ & c & Hc) He. assert (c ∈ (active ∩ cpus_ptr p) ∖ cpu_halt_mask s) by set_solver.
    set_solver.
Qed.

(** A choice among the CPUs of a mask. *)
Definition picks (any : cpumask → Z) : Prop := ∀ m : cpumask, m ≠ ∅ → any m ∈ m.

(** timers avoid halted CPUs.  As long as some active CPU is not halted,
    [android_rvh_get_nohz_timer_target] never answers a halted CPU, whichever CPU
    it was asked for, for any topology and idle state, and whichever CPU
    [cpumask_any] picks. *)
Theorem timer_target_not_halted env any te s cpu :
  picks any → tm_active te ∖ cpu_halt_mask s ≠ ∅ →
  (∀ c, c ∈ tm_active te → c < nr_cpu_ids env) →
  android_rvh_get_nohz_timer_target env any te s cpu ∉ cpu_halt_mask s.
Proof.
  intros Hany Hne Hnr. unfold android_rvh_get_nohz_timer_target.
  set (au := tm_active te ∖ cpu_halt_mask s) in *. rewrite (bool_decide_false (au = ∅)) by done.
  destruct (bool_decide (cpu ∈ tm_housekeeping te) && negb (bool_decide (cpu ∈ cpu_halt_mask s))) eqn:Eown; simpl.
  - apply andb_true_iff in Eown as [_ Hc%negb_true_iff%bool_decide_eq_false].
    destruct (negb (tm_idle te cpu)); [done|].
    destruct (list_find _ _) as [[k i]|] eqn:E; [by apply list_find_Some in E as (_ & (_ & _ & Hi) & _)|].
    destruct (Z.eqb_spec cpu (-1)); [|done].
    destruct (list_find _ (cpus_of _ _)) as [[k i]|] eqn:E2.
    { apply list_find_Some in E2 as (Hk & _). apply list_elem_of_lookup_2, elem_cpus_of in Hk. set_solver. }
    specialize (Hany au Hne). destruct (Z.leb_spec (nr_cpu_ids env) (any au)); [done|set_solver].
  - destruct (list_find _ _) as [[k i]|] eqn:E; [by apply list_find_Some in E as (_ & (_ & _ & Hi) & _)|].
    destruct (list_find _ (cpus_of _ _)) as [[k i]|] eqn:E2.
    { apply list_find_Some in E2 as (Hk & _). apply list_elem_of_lookup_2, elem_cpus_of in Hk. set_solver. }
    specialize (Hany au Hne). destruct (Z.leb_spec (nr_cpu_ids env) (any au)) as [Hle|]; [|set_solver].
    specialize (Hnr (any au) ltac:(set_solver)). lia.
Qed.

(** The smallest CPU of a mask. *)
Definition first_cpu (m : cpumask) : Z := default 0 (head (elements m)).

Lemma first_cpu_picks : picks first_cpu.
Proof.
  intros m Hm. unfold first_cpu. destruct (elements m) as [|x l] eqn:E.
  - apply elements_empty_inv in E. set_solver.
  - apply elem_of_elements. rewrite E. by left.
Qed.

Lemma timer_target_witness :
  let s := mk_halt {[0; 1; 2]} ∅ (λ _ _, 0) ∅ (λ _, 0) [] in
  let te := mk_timer_env {[0; 1; 2; 3]} {[0; 1; 2; 3]} (λ _, true) [{[0; 1; 2; 3]}] ∅ ∅ in
  android_rvh_get_nohz_timer_target sample_env first_cpu te s 1 ∉ cpu_halt_mask s ∧
  android_rvh_get_nohz_timer_target sample_env first_cpu te s 1 = 3.
Proof.
  intros s te. split; [|vm_compute; reflexivity].
  apply (timer_target_not_halted sample_env first_cpu te s 1 first_cpu_picks).
  - vm_compute. discriminate.
  - intros c Hc. change (nr_cpu_ids sample_env) with 8.
    change (c ∈@{gset Z} {[0; 1; 2; 3]}) in Hc. set_unfold in Hc. lia.
Defined.
