(* ===== verification/HabPipe.v ===== *)
(** * The HAB shared-memory pipe (drivers/soc/qcom/hab/hab_pipe.c, hab_pipe.h)

    Two virtual machines exchange bytes through a pair of ring buffers in shared
    memory.  The write and read counts of a ring are shared; each side keeps its
    own index locally.  The model has the ring as a record whose [data] is a byte
    list: an access outside of it makes an operation [None].  [hab_pipe_read] also
    works on the caller's buffer, whose bytes are an argument and a result; the
    contents of the ring at each retry of a corrupted header are the argument
    [peer], because the other side may be writing.

    The pipe is a FIFO of bytes with a commit point, for every sequence of calls
    and across the wrap-around of the 32-bit counters; and
    whatever the other side writes into the shared memory, neither operation
    leaves the ring. *)

From S2P Require Import Prelude.

(** ** Data *)

Record hab_shared_buf := mk_shared_buf {
  rd_count : Z;
  wr_count : Z;
  sh_size : Z;
  data : list Z
}.

Record hab_pipe_endpoint := mk_endpoint {
  tx_wr_count : Z;
  tx_index : Z;
  rx_index : Z
}.

Record dbg_item := mk_dbg_item {
  it_rd_cnt : Z;
  it_wr_cnt : Z;
  it_index : Z;
  it_sz : Z;
  it_ret : Z
}.

Definition DBG_ITEM_SIZE : Z := 20.

Record dbg_items := mk_dbg_items {
  it : list dbg_item;
  it_idx : Z
}.

(** The two rings that follow the structure in [buf_base]: the top side sends
    through [buf_a], the bottom side through [buf_b].  The legacy pointers are only
    cleared ([true] is non-null). *)
Record hab_pipe := mk_pipe {
  top : hab_pipe_endpoint;
  bottom : hab_pipe_endpoint;
  legacy_buf_a : bool;
  legacy_buf_b : bool;
  legacy_total_size : Z;
  buf_a : hab_shared_buf;
  buf_b : hab_shared_buf
}.

(** Pointers into a pipe. *)
Inductive ring_ptr := BUF_A | BUF_B.
Inductive ep_ptr := TOP | BOTTOM.

(** ** Memory accesses *)

(** [memcpy] into the bytes [m] at [off]. *)
Definition splice (off : Z) (bs m : list Z) : option (list Z) :=
  if bool_decide (0 ≤ off ∧ off + Z.of_nat (length bs) ≤ Z.of_nat (length m))
  then Some (take (Z.to_nat off) m ++ bs ++ drop (Z.to_nat off + length bs) m)
  else None.

(** ** Operations *)

Definition sizeof_hab_pipe : Z := 88.
Definition sizeof_hab_shared_buf : Z := 12.

Definition hab_pipe_calc_required_bytes (shared_buf_size : Z) : Z :=
  u64 (sizeof_hab_pipe + 2 * (sizeof_hab_shared_buf + shared_buf_size)).

Definition zero_endpoint : hab_pipe_endpoint := mk_endpoint 0 0 0.
Definition zero_dbg_items : dbg_items :=
  mk_dbg_items (replicate (Z.to_nat DBG_ITEM_SIZE) (mk_dbg_item 0 0 0 0 0)) 0.

(** The endpoint, the transmit ring, the receive ring and the debug log, and the
    pipe; [itms] is whether the allocation of the log succeeds, [ptrs] whether both
    result pointers are given. *)
Definition hab_pipe_init (pipe : option hab_pipe) (ptrs itms : bool) (shared_buf_size : Z)
    (is_top : bool) : option (ep_ptr * ring_ptr * ring_ptr * option dbg_items) * option hab_pipe :=
  match pipe with
  | None => (None, pipe)
  | Some p =>
      if negb ptrs then (None, pipe)
      else
        let its := if itms then Some zero_dbg_items else None in
        if is_top then
          (Some (TOP, BUF_A, BUF_B, its),
           Some (mk_pipe zero_endpoint (bottom p) false (legacy_buf_b p) (legacy_total_size p)
                   (buf_a p) (buf_b p)))
        else
          let zero b := mk_shared_buf 0 0 shared_buf_size (data b) in
          (Some (BOTTOM, BUF_B, BUF_A, its),
           Some (mk_pipe (top p) zero_endpoint (legacy_buf_a p) false 0 (zero (buf_a p)) (zero (buf_b p))))
  end.

(** One [memcpy] of [hab_pipe_write], with the update of the count and the index. *)
Definition copy_in (buf_size : Z) (p : list Z) (off count : Z) (d : list Z) (wr idx : Z)
    : option (list Z * Z * Z) :=
  if 0 <? count then
    bs ← subrange off count p;
    d ← splice idx bs d;
    let idx := idx +₃₂ count in
    Some (d, wr +₃₂ count, if buf_size <=? idx then 0 else idx)
  else Some (d, wr, idx).

Definition hab_pipe_write (ep : hab_pipe_endpoint) (sh_buf : hab_shared_buf) (buf_size : Z)
    (p : option (list Z)) (num_bytes : Z) : option (Z * hab_pipe_endpoint * hab_shared_buf) :=
  let ep_tx_index := tx_index ep in
  let ep_tx_wr_count := tx_wr_count ep in
  let sh_buf_rd_count := rd_count sh_buf in
  if buf_size <? ep_tx_wr_count -₃₂ sh_buf_rd_count then Some (0, ep, sh_buf)
  else
    let space := buf_size -₃₂ (ep_tx_wr_count -₃₂ sh_buf_rd_count) in
    match p with
    | None => Some (0, ep, sh_buf)
    | Some p =>
        if (space <? num_bytes) || (num_bytes =? 0) then Some (0, ep, sh_buf)
        else if (buf_size <? ep_tx_index) || (buf_size <? num_bytes) then Some (0, ep, sh_buf)
        else
          let count1 := if num_bytes <=? buf_size -₃₂ ep_tx_index then num_bytes
                        else buf_size -₃₂ ep_tx_index in
          let count2 := num_bytes -₃₂ count1 in
          '(d, wr, idx) ← copy_in buf_size p 0 count1 (data sh_buf) ep_tx_wr_count ep_tx_index;
          '(d, wr, idx) ← copy_in buf_size p count1 count2 d wr idx;
          Some (num_bytes, mk_endpoint wr idx (rx_index ep),
                mk_shared_buf (rd_count sh_buf) (wr_count sh_buf) (sh_size sh_buf) d)
    end.

Definition hab_pipe_write_commit (ep : hab_pipe_endpoint) (sh_buf : hab_shared_buf) : hab_shared_buf :=
  mk_shared_buf (rd_count sh_buf) (tx_wr_count ep) (sh_size sh_buf) (data sh_buf).

Definition sizeof_hab_header : Z := 20.
Definition HAB_HEAD_SIGNATURE : Z := 0xBEE1BEE1.

(** [head->signature] of the header in [p]. *)
Definition head_signature (p : list Z) : option Z := read_le 4 p 12.

(** One [memcpy] out of the ring; nothing when [count] is 0. *)
Definition copy_out (d : list Z) (idx count : Z) (p : list Z) (off : Z) : option (list Z) :=
  if 0 <? count then bs ← subrange idx count d; splice off bs p else Some p.

(** The code between [retry:] and the end of the signature check: the caller's
    buffer, [retry_cnt] and [signature_mismatch].  At most 1002 passes. *)
Fixpoint retry (fuel : nat) (peer : Z → list Z) (index_saved index2 count1 count2 : Z)
    (retry_cnt : Z) (mismatch : bool) (p : list Z) : option (list Z * Z * bool) :=
  match fuel with
  | O => None
  | S fuel =>
      s ← head_signature p;
      if negb (s =? HAB_HEAD_SIGNATURE) then
        if retry_cnt <=? 1000 then
          let d := peer retry_cnt in
          p ← (bs ← subrange index_saved count1 d; splice 0 bs p);
          p ← copy_out d index2 count2 p count1;
          if negb mismatch then retry fuel peer index_saved index2 count1 count2 (retry_cnt + 1) mismatch p
          else Some (p, retry_cnt + 1, true)
        else Some (p, retry_cnt + 1, true)
      else Some (p, retry_cnt, false)
  end.

Definition RETRY_FUEL : nat := 1002.

(** The result, the caller's buffer, the endpoint, the ring and the static
    [signature_mismatch]. *)
Definition hab_pipe_read (peer : Z → list Z) (ep : hab_pipe_endpoint) (sh_buf : hab_shared_buf)
    (buf_size : Z) (p : option (list Z)) (size : Z) (clear : bool) (mismatch : bool)
    : option (Z * option (list Z) * hab_pipe_endpoint * hab_shared_buf * bool) :=
  let ep_rx_index := rx_index ep in
  let avail := wr_count sh_buf -₃₂ rd_count sh_buf in
  let index_saved := ep_rx_index in
  match p with
  | None => Some (0, p, ep, sh_buf, mismatch)
  | Some q =>
      if (avail =? 0) || (size =? 0) || (buf_size <? ep_rx_index) then Some (0, p, ep, sh_buf, mismatch)
      else
        let to_read := if avail <? size then avail else size in
        let count1 := if to_read <=? buf_size -₃₂ ep_rx_index then to_read
                      else buf_size -₃₂ ep_rx_index in
        let count2 := to_read -₃₂ count1 in
        q ← copy_out (data sh_buf) ep_rx_index count1 q 0;
        let idx := if 0 <? count1 then
                     let i := ep_rx_index +₃₂ count1 in if buf_size <=? i then 0 else i
                   else ep_rx_index in
        q ← copy_out (data sh_buf) idx count2 q count1;
        let idx := if 0 <? count2 then idx +₃₂ count2 else idx in
        if negb (count1 +₃₂ count2 =? 0) then
          '(q, retry_cnt, mismatch) ←
             (if clear && (size =? sizeof_hab_header)
              then retry RETRY_FUEL peer index_saved (idx -₃₂ count2) count1 count2 0 mismatch q
              else Some (q, 0, mismatch));
          let idx := if mismatch : bool then
                       let i := index_saved +₃₂ 1 in if sh_size sh_buf <=? i then 0 else i
                     else idx in
          let to_read := if mismatch : bool then (if retry_cnt <? 1000 then 0xFFFFFFFE else 0xFFFFFFFF)
                         else to_read in
          Some (to_read, Some q, mk_endpoint (tx_wr_count ep) (tx_index ep) idx,
                mk_shared_buf (rd_count sh_buf +₃₂ (if mismatch : bool then 1 else count1 + count2))
                  (wr_count sh_buf) (sh_size sh_buf) (data sh_buf), mismatch)
        else
          Some (to_read, Some q, mk_endpoint (tx_wr_count ep) (tx_index ep) idx, sh_buf, mismatch)
  end.

(** [idx], [rd_cnt], [wr_cnt]. *)
Definition hab_pipe_rxinfo (ep : hab_pipe_endpoint) (sh_buf : hab_shared_buf) : Z * Z * Z :=
  (rx_index ep, rd_count sh_buf, wr_count sh_buf).

(** ** Rings *)

(** Case analysis on the comparisons of the goal, keeping the possible cases. *)
Ltac zcases :=
  repeat match goal with
    | |- context [?a <=? ?b] => destruct (Z.leb_spec a b); try lia
    | |- context [?a <? ?b] => destruct (Z.ltb_spec a b); try lia
    end; simpl; try done.

Definition zget (l : list Z) (k : Z) : Z := l !!! Z.to_nat k.

Lemma zget_app l l' k :
  0 ≤ k → zget (l ++ l') k = if k <? zlen l then zget l k else zget l' (k - zlen l).
Proof.
  intros Hk. unfold zget, zlen. destruct (Z.ltb_spec k (Z.of_nat (length l))).
  - rewrite lookup_total_app_l by lia. done.
  - rewrite lookup_total_app_r by lia. f_equal. lia.
Qed.

Lemma zget_drop l n k : 0 ≤ n → 0 ≤ k → zget (drop (Z.to_nat n) l) k = zget l (n + k).
Proof. intros. unfold zget. rewrite lookup_total_drop. f_equal. lia. Qed.

Lemma zget_take l n k : 0 ≤ k < n → zget (take (Z.to_nat n) l) k = zget l k.
Proof. intros. unfold zget. rewrite lookup_total_take_lt by lia. done. Qed.

Lemma zget_ext l l' :
  zlen l = zlen l' → (∀ k, 0 ≤ k < zlen l → zget l k = zget l' k) → l = l'.
Proof.
  unfold zlen, zget. intros Hlen Hk. apply (list_eq_same_length l l' (length l)); [lia|lia|].
  intros i x y Hi Hx Hy. specialize (Hk (Z.of_nat i) ltac:(lia)). rewrite Nat2Z.id in Hk.
  by rewrite (list_lookup_total_correct _ _ _ Hx), (list_lookup_total_correct _ _ _ Hy) in Hk.
Qed.

(** A copy into a buffer, pointwise. *)
Lemma splice_spec off bs m :
  0 ≤ off → off + zlen bs ≤ zlen m →
  ∃ m', splice off bs m = Some m' ∧ zlen m' = zlen m ∧
    ∀ x, 0 ≤ x → zget m' x = if (off <=? x) && (x <? off + zlen bs) then zget bs (x - off) else zget m x.
Proof.
  intros Hoff Hlen. unfold splice. rewrite bool_decide_true by (unfold zlen in *; lia).
  eexists. split; [done|]. split.
  { unfold zlen in *. rewrite !length_app, length_take, length_drop. lia. }
  intros x Hx. assert (zlen (take (Z.to_nat off) m) = off) as Htl.
  { unfold zlen in *. rewrite length_take. lia. }
  rewrite zget_app, Htl by done. destruct (Z.ltb_spec x off) as [Hlt|Hge].
  { rewrite zget_take by lia. destruct (Z.leb_spec off x); [lia|done]. }
  destruct (Z.leb_spec off x); [|lia]. simpl. rewrite zget_app by lia.
  destruct (Z.ltb_spec x (off + zlen bs)), (Z.ltb_spec (x - off) (zlen bs)); try lia; [].
  replace (Z.to_nat off + length bs)%nat with (Z.to_nat (off + zlen bs)) by (unfold zlen in *; lia).
  rewrite zget_drop by (unfold zlen in *; lia). f_equal. lia.
Qed.

Lemma subrange_spec off n (m : list Z) :
  0 ≤ off → 0 ≤ n → off + n ≤ zlen m →
  ∃ bs, subrange off n m = Some bs ∧ zlen bs = n ∧ ∀ k, 0 ≤ k < n → zget bs k = zget m (off + k).
Proof.
  intros Ho Hn Hlen. unfold subrange. rewrite bool_decide_true by (unfold zlen in *; lia).
  eexists. split; [done|]. split.
  - unfold zlen in *. rewrite length_take, length_drop. lia.
  - intros k Hk. rewrite zget_take, zget_drop by lia. done.
Qed.

(** The position [k] places after [i] in a ring. *)
Lemma ring_pos size i k :
  0 ≤ i < size → 0 ≤ k ≤ size → (i + k) mod size = if i + k <? size then i + k else i + k - size.
Proof.
  intros Hi Hk. destruct (Z.ltb_spec (i + k) size).
  - apply Z.mod_small. lia.
  - symmetry. apply (Zmod_unique _ _ 1); lia.
Qed.

Lemma copy_in_spec size p off count d wr idx :
  0 ≤ count → 0 ≤ off → off + count ≤ zlen p → 0 ≤ idx → idx + count ≤ zlen d → zlen d < 2 ^ 32 →
  ∃ d', copy_in size p off count d wr idx =
          Some (d', if 0 <? count then wr +₃₂ count else wr,
                if 0 <? count then if size <=? idx + count then 0 else idx + count else idx) ∧
    zlen d' = zlen d ∧
    ∀ x, 0 ≤ x → zget d' x = if (idx <=? x) && (x <? idx + count) then zget p (off + (x - idx)) else zget d x.
Proof.
  intros Hc Ho Hp Hi Hd Hsz. unfold copy_in. destruct (Z.ltb_spec 0 count) as [Hpos|].
  2:{ exists d. split; [done|]. split; [done|]. intros x Hx.
      destruct (Z.leb_spec idx x), (Z.ltb_spec x (idx + count)); simpl; done || lia. }
  destruct (subrange_spec off count p) as (bs & -> & Hbs & Hget); [done..|]. simpl.
  destruct (splice_spec idx bs d) as (d' & -> & Hd' & Hx); [done|lia|]. simpl.
  exists d'. rewrite (u32_small (idx + count)) by lia. split; [done|]. split; [done|].
  intros x Hx0. rewrite Hx, Hbs by done.
  destruct (Z.leb_spec idx x), (Z.ltb_spec x (idx + count)); simpl; try done. apply Hget. lia.
Qed.

(** The two copies of a write put the bytes at consecutive places of the ring. *)
Lemma ring_write size p d wr j n :
  0 < n ≤ size → zlen p = n → zlen d = size → size < 2 ^ 32 → 0 ≤ j < size →
  let count1 := if n <=? size -₃₂ j then n else size -₃₂ j in
  ∃ d', ('(d, wr, idx) ← copy_in size p 0 count1 d wr j;
         copy_in size p count1 (n -₃₂ count1) d wr idx) = Some (d', wr +₃₂ n, (j + n) mod size) ∧
    zlen d' = size ∧
    ∀ k, 0 ≤ k < size → zget d' ((j + k) mod size) = if k <? n then zget p k else zget d ((j + k) mod size).
Proof.
  intros Hn Hp Hd Hsz Hj count1. unfold count1. rewrite (u32_small (size - j)) by lia.
  rewrite (ring_pos size j n) by lia.
  destruct (Z.leb_spec n (size - j)) as [Hle|Hgt].
  - rewrite Z.sub_diag, (u32_small 0) by lia.
    destruct (copy_in_spec size p 0 n d wr j) as (d' & -> & Hd' & Hx); [lia..|]. simpl. unfold copy_in. simpl.
    exists d'. destruct (Z.ltb_spec 0 n); [|lia]. split; [|split; [lia|]].
    + do 2 f_equal. destruct (Z.leb_spec size (j + n)), (Z.ltb_spec (j + n) size); lia.
    + intros k Hk. rewrite ring_pos by lia. rewrite Hx by (zcases; lia). zcases; f_equal; lia.
  - rewrite (u32_small (n - (size - j))) by lia.
    destruct (copy_in_spec size p 0 (size - j) d wr j) as (d1 & -> & Hd1 & Hx1); [lia..|]. simpl.
    destruct (Z.ltb_spec 0 (size - j)); [|lia]. destruct (Z.leb_spec size (j + (size - j))); [|lia].
    destruct (copy_in_spec size p (size - j) (n - (size - j)) d1 (wr +₃₂ (size - j)) 0)
      as (d' & -> & Hd' & Hx); [lia..|].
    exists d'. destruct (Z.ltb_spec 0 (n - (size - j))); [|lia]. split; [|split; [lia|]].
    + rewrite u32_plus. destruct (Z.leb_spec size (0 + (n - (size - j)))), (Z.ltb_spec (j + n) size);
        try lia; repeat f_equal; lia.
    + intros k Hk. rewrite ring_pos by lia. rewrite Hx, Hx1 by (zcases; lia). zcases; f_equal; lia.
Qed.

Lemma copy_out_spec d idx count p off :
  0 ≤ count → 0 ≤ idx → idx + count ≤ zlen d → 0 ≤ off → off + count ≤ zlen p →
  ∃ p', copy_out d idx count p off = Some p' ∧ zlen p' = zlen p ∧
    ∀ x, 0 ≤ x → zget p' x = if (off <=? x) && (x <? off + count) then zget d (idx + (x - off)) else zget p x.
Proof.
  intros Hc Hi Hd Ho Hp. unfold copy_out. destruct (Z.ltb_spec 0 count).
  2:{ exists p. split; [done|]. split; [done|]. intros x Hx. zcases. }
  destruct (subrange_spec idx count d) as (bs & -> & Hbs & Hget); [done..|]. simpl.
  destruct (splice_spec off bs p) as (p' & -> & Hp' & Hx); [done|lia|].
  exists p'. split; [done|]. split; [done|]. intros x Hx0. rewrite Hx, Hbs by done.
  zcases. apply Hget. lia.
Qed.

(** The two copies of a read, for the number [n] of bytes, the first index [i] and
    the second index [i2]. *)
Definition read_copies (d : list Z) (i i2 count1 count2 : Z) (p : list Z) : option (list Z) :=
  p ← copy_out d i count1 p 0; copy_out d i2 count2 p count1.

Definition read_index2 (size i count1 : Z) : Z :=
  if 0 <? count1 then let i := i +₃₂ count1 in if size <=? i then 0 else i else i.

Lemma ring_read size d p i n :
  0 < n ≤ size → n ≤ zlen p → zlen d = size → size < 2 ^ 32 → 0 ≤ i < size →
  let count1 := if n <=? size -₃₂ i then n else size -₃₂ i in
  let count2 := n -₃₂ count1 in
  let i2 := read_index2 size i count1 in
  0 < count1 ∧ 0 ≤ count2 ∧ count1 + count2 = n ∧ 0 ≤ i2 ∧ i2 + count2 < 2 ^ 32 ∧
  (if 0 <? count2 then i2 +₃₂ count2 else i2) = (i + n) mod size ∧
  ∃ p', read_copies d i i2 count1 count2 p = Some p' ∧ zlen p' = zlen p ∧
    ∀ x, 0 ≤ x → zget p' x = if x <? n then zget d ((i + x) mod size) else zget p x.
Proof.
  intros Hn Hp Hd Hsz Hi count1 count2 i2. assert (0 < count1 ≤ n ∧ i + count1 ≤ size ∧ (count1 < n → i + count1 = size)) as Hc1
    by (unfold count1; rewrite (u32_small (size - i)) by lia; zcases).
  clearbody count1. assert (count2 = n - count1) as Hc2 by (unfold count2; rewrite u32_small; lia).
  clearbody count2. assert (i2 = if size <=? i + count1 then 0 else i + count1) as Hi2.
  { unfold i2, read_index2. rewrite (u32_small (i + count1)) by lia. zcases. }
  clearbody i2. assert (0 ≤ i2 ∧ i2 + count2 ≤ size) as Hi2b by (rewrite Hi2; zcases).
  split; [lia|]. split; [lia|]. split; [lia|]. split; [lia|]. split; [lia|]. split.
  { rewrite (u32_small (i2 + count2)), ring_pos, Hi2 by lia. zcases. }
  unfold read_copies. destruct (copy_out_spec d i count1 p 0) as (p1 & -> & Hp1 & Hx1); [lia..|]. simpl.
  destruct (copy_out_spec d i2 count2 p1 count1) as (p2 & -> & Hp2 & Hx2); [lia..|].
  exists p2. split; [done|]. split; [lia|]. intros x Hx. rewrite Hx2, Hx1 by done.
  destruct (Z.ltb_spec x n) as [Hxn|]; [|zcases].
  rewrite ring_pos by lia. rewrite Hi2. zcases; f_equal; lia.
Qed.

Lemma head_signature_total p : zlen p = sizeof_hab_header → ∃ s, head_signature p = Some s.
Proof.
  unfold sizeof_hab_header. intros Hp. unfold head_signature, read_le.
  destruct (subrange_spec 12 4 p) as (bs & -> & _); [lia..|]. by eexists.
Qed.

(** The retries, when what is re-read is what was read. *)
Lemma retry_same fuel d i i2 c1 c2 cnt mismatch p s :
  0 < c1 → read_copies d i i2 c1 c2 p = Some p → head_signature p = Some s →
  0 ≤ cnt ≤ 1001 → 1002 - cnt ≤ Z.of_nat fuel →
  retry fuel (λ _, d) i i2 c1 c2 cnt mismatch p =
    Some (if s =? HAB_HEAD_SIGNATURE then (p, cnt, false)
          else (p, (if mismatch && (cnt <=? 1000) then cnt + 1 else 1002), true)).
Proof.
  intros Hc1 Hcopy Hs. unfold read_copies, copy_out in Hcopy.
  destruct (Z.ltb_spec 0 c1) as [_|]; [|lia].
  revert cnt. induction fuel as [|fuel IH]; intros cnt Hcnt Hfuel; [lia|]. simpl. rewrite Hs. simpl.
  destruct (Z.eqb_spec s HAB_HEAD_SIGNATURE); [done|]. simpl.
  destruct (Z.leb_spec cnt 1000).
  - unfold mbind, option_bind in *. destruct (subrange i c1 d) as [bs|]; [|done].
    destruct (splice 0 bs p) as [p1|]; [|done]. unfold copy_out, mbind, option_bind. rewrite Hcopy.
    destruct mismatch; simpl; [done|]. rewrite IH by lia.
    destruct (Z.eqb_spec s HAB_HEAD_SIGNATURE); done.
  - rewrite andb_false_r. do 3 f_equal. lia.
Qed.

(** ** The specification: a FIFO of bytes with a commit point *)

Record fifo := mk_fifo {
  committed : list Z;
  pending : list Z;
  resync : bool
}.

Definition fifo_write (cap : Z) (bs : list Z) (f : fifo) : Z * fifo :=
  if (zlen bs =? 0) || (cap - zlen (committed f ++ pending f) <? zlen bs) then (0, f)
  else (zlen bs, mk_fifo (committed f) (pending f ++ bs) (resync f)).

Definition fifo_commit (f : fifo) : fifo := mk_fifo (committed f ++ pending f) [] (resync f).

(** A read fills the caller's bytes [p] from the front of the queue.  A header that
    does not carry the signature puts the pipe out of sync: then, and until a header
    does, a read consumes one byte only. *)
Definition fifo_read (p : list Z) (clear : bool) (f : fifo) : Z * list Z * fifo :=
  let q := committed f in
  if (zlen q =? 0) || (zlen p =? 0) then (0, p, f)
  else
    let n := Z.min (zlen q) (zlen p) in
    let p' := take (Z.to_nat n) q ++ drop (Z.to_nat n) p in
    let head := clear && (zlen p =? sizeof_hab_header) in
    let bad := if head then negb (bool_decide (head_signature p' = Some HAB_HEAD_SIGNATURE))
               else resync f in
    if bad : bool then
      (if head && negb (resync f) then 0xFFFFFFFF else 0xFFFFFFFE, p',
       mk_fifo (drop 1 q) (pending f) true)
    else (n, p', mk_fifo (drop (Z.to_nat n) q) (pending f) false).

(** One direction of a pipe: the sender's and the receiver's endpoints, the ring and
    the receiver's [signature_mismatch]. *)
Record ring := mk_ring {
  r_tx : hab_pipe_endpoint;
  r_rx : hab_pipe_endpoint;
  r_sh : hab_shared_buf;
  r_bad : bool
}.

Record ring_ok (size : Z) (r : ring) (f : fifo) : Prop := {
  ok_size : 0 < size < 2 ^ 32;
  ok_len : zlen (data (r_sh r)) = size;
  ok_sh : sh_size (r_sh r) = size;
  ok_bad : r_bad r = resync f;
  ok_rx : 0 ≤ rx_index (r_rx r) < size;
  ok_room : zlen (committed f ++ pending f) ≤ size;
  ok_tx : tx_index (r_tx r) = (rx_index (r_rx r) + zlen (committed f ++ pending f)) mod size;
  ok_wr : wr_count (r_sh r) = u32 (rd_count (r_sh r) + zlen (committed f));
  ok_txwr : tx_wr_count (r_tx r) = u32 (rd_count (r_sh r) + zlen (committed f ++ pending f));
  ok_data : ∀ k, 0 ≤ k < zlen (committed f ++ pending f) →
              zget (data (r_sh r)) ((rx_index (r_rx r) + k) mod size) = zget (committed f ++ pending f) k
}.

Lemma write_refines size r f bs :
  ring_ok size r f → zlen bs < 2 ^ 32 →
  ∃ ep sh, hab_pipe_write (r_tx r) (r_sh r) size (Some bs) (zlen bs) =
             Some ((fifo_write size bs f).1, ep, sh) ∧
    ring_ok size (mk_ring ep (r_rx r) sh (r_bad r)) (fifo_write size bs f).2.
Proof.
  intros Hok Hbs. pose proof Hok as [Hsize Hlen Hsh Hbad Hrx Hroom Htx Hwr Htxwr Hdata].
  pose proof (zlen_nonneg bs). pose proof (zlen_nonneg (committed f ++ pending f)).
  set (all := committed f ++ pending f) in *.
  unfold hab_pipe_write, fifo_write. fold all. rewrite Htxwr, u32_diff, (u32_small (zlen all)) by lia.
  destruct (Z.ltb_spec size (zlen all)); [lia|]. rewrite (u32_small (size - zlen all)) by lia.
  rewrite orb_comm. destruct (_ || _) eqn:Eguard.
  { exists (r_tx r), (r_sh r). split; [done|]. by destruct r. }
  apply orb_false_iff in Eguard as [Hne%Z.eqb_neq Hfit%Z.ltb_ge].
  assert (0 ≤ tx_index (r_tx r) < size) as Hj by (rewrite Htx; apply Z.mod_pos_bound; lia).
  rewrite (proj2 (Z.ltb_ge size (tx_index (r_tx r)))), (proj2 (Z.ltb_ge size (zlen bs))) by lia. simpl.
  destruct (ring_write size bs (data (r_sh r)) (u32 (rd_count (r_sh r) + zlen all)) (tx_index (r_tx r)) (zlen bs))
    as (d' & Hcopy & Hd' & Hget); [lia..|].
  set (c1 := if zlen bs <=? _ then _ else _) in *.
  destruct (copy_in size bs 0 c1 _ _ _) as [[[d1 wr1] i1]|]; simpl in *; [|done].
  rewrite Hcopy. simpl. eexists _, _. split; [done|].
  constructor; simpl; rewrite ?app_assoc; fold all; rewrite ?zlen_app; try done; [lia|..].
  - rewrite Htx, Zplus_mod_idemp_l. f_equal. lia.
  - by rewrite u32_plus.
  - intros k Hk. rewrite zget_app by lia. destruct (Z.ltb_spec k (zlen all)) as [Hold|Hnew].
    + rewrite <- Hdata by lia. specialize (Hget (k - zlen all + size) ltac:(lia)).
      rewrite Htx, Zplus_mod_idemp_l in Hget.
      replace (_ + zlen all + (k - zlen all + size)) with (rx_index (r_rx r) + k + 1 * size) in Hget by lia.
      rewrite Z.mod_add in Hget by lia. rewrite Hget. zcases.
    + specialize (Hget (k - zlen all) ltac:(lia)). rewrite Htx, Zplus_mod_idemp_l in Hget.
      replace (_ + zlen all + (k - zlen all)) with (rx_index (r_rx r) + k) in Hget by lia.
      rewrite Hget. zcases.
Qed.

Lemma commit_refines size r f :
  ring_ok size r f →
  ring_ok size (mk_ring (r_tx r) (r_rx r) (hab_pipe_write_commit (r_tx r) (r_sh r)) (r_bad r)) (fifo_commit f).
Proof. intros []. constructor; simpl; rewrite ?app_nil_r; done. Qed.

(** The effect of consuming the first [n] committed bytes. *)
Lemma ring_ok_drop size r f n rx sh bad :
  ring_ok size r f → 0 ≤ n ≤ zlen (committed f) →
  rx_index rx = (rx_index (r_rx r) + n) mod size → rd_count sh = rd_count (r_sh r) +₃₂ n →
  wr_count sh = wr_count (r_sh r) → sh_size sh = sh_size (r_sh r) → data sh = data (r_sh r) →
  ring_ok size (mk_ring (r_tx r) rx sh bad) (mk_fifo (drop (Z.to_nat n) (committed f)) (pending f) bad).
Proof.
  intros [Hsize Hlen Hsh Hbad Hrx Hroom Htx Hwr Htxwr Hdata] Hn Hi Hrd Hw Hs Hd.
  assert (drop (Z.to_nat n) (committed f) ++ pending f = drop (Z.to_nat n) (committed f ++ pending f)) as Hdrop.
  { rewrite drop_app_le; [done|]. unfold zlen in Hn. lia. }
  assert (∀ l : list Z, n ≤ zlen l → zlen (drop (Z.to_nat n) l) = zlen l - n) as Hzd.
  { intros l Hl. unfold zlen in *. rewrite length_drop. lia. }
  assert (n ≤ zlen (committed f ++ pending f)) as Hn' by (rewrite zlen_app; unfold zlen in *; lia).
  constructor; simpl; rewrite ?Hdrop, ?Hd, ?Hs, ?Hw, ?Hrd, ?Hzd, ?u32_plus by lia; try done.
  - rewrite Hi. apply Z.mod_pos_bound. lia.
  - lia.
  - rewrite Htx, Hi, Zplus_mod_idemp_l. f_equal. lia.
  - rewrite Hwr. f_equal. lia.
  - rewrite Htxwr. f_equal. lia.
  - intros k Hk. rewrite Hi, Zplus_mod_idemp_l, zget_drop by lia. rewrite <- Hdata by lia.
    f_equal. f_equal. lia.
Qed.

(** What a read of [n] bytes copies. *)
Lemma read_copies_front size r f p n :
  ring_ok size r f → 0 < n ≤ zlen (committed f) → n ≤ zlen p →
  let i := rx_index (r_rx r) in
  let count1 := if n <=? size -₃₂ i then n else size -₃₂ i in
  let count2 := n -₃₂ count1 in
  let p' := take (Z.to_nat n) (committed f) ++ drop (Z.to_nat n) p in
  read_copies (data (r_sh r)) i (read_index2 size i count1) count1 count2 p = Some p'.
Proof.
  intros [Hsize Hlen _ _ Hrx Hroom _ _ _ Hdata] Hn Hp. pose proof (zlen_nonneg (pending f)).
  rewrite zlen_app in Hroom.
  intros i count1 count2 p'.
  destruct (ring_read size (data (r_sh r)) p i n) as (_ & _ & _ & _ & _ & _ & p2 & Hp2 & Hlen2 & Hget);
    [lia..|].
  fold count1 in Hp2. fold count2 in Hp2. rewrite Hp2. f_equal.
  assert (zlen (take (Z.to_nat n) (committed f)) = n) as Ht by (unfold zlen in *; rewrite length_take; lia).
  apply zget_ext.
  - unfold p'. rewrite Hlen2, zlen_app, Ht. unfold zlen in *. rewrite length_drop. lia.
  - intros x Hx. unfold p'. rewrite Hget, zget_app, Ht by lia. destruct (Z.ltb_spec x n).
    + rewrite zget_take, Hdata by (rewrite ?zlen_app; lia). rewrite zget_app by lia. zcases.
    + rewrite zget_drop by lia. f_equal. lia.
Qed.

Lemma retry_fuel_enough : 1002 - 0 ≤ Z.of_nat RETRY_FUEL.
Proof. vm_compute. discriminate. Qed.
Opaque RETRY_FUEL.

(** The signature check of a header that the other side does not rewrite. *)
Lemma header_check d i i2 c1 c2 bad p (head : bool) :
  0 < c1 → read_copies d i i2 c1 c2 p = Some p → (head = true → zlen p = sizeof_hab_header) →
  ∃ cnt bad', (if head then retry RETRY_FUEL (λ _, d) i i2 c1 c2 0 bad p else Some (p, 0, bad)) =
    Some (p, cnt, bad') ∧
    bad' = (if head then negb (bool_decide (head_signature p = Some HAB_HEAD_SIGNATURE)) else bad) ∧
    (bad' = true → (if cnt <? 1000 then 0xFFFFFFFE else 0xFFFFFFFF) =
                   if head && negb bad then 0xFFFFFFFF else 0xFFFFFFFE).
Proof.
  intros Hc1 Hcopy Hhead. destruct head.
  2:{ by exists 0, bad. }
  destruct (head_signature_total p) as [s Hs]; [by apply Hhead|].
  rewrite (retry_same RETRY_FUEL d i i2 c1 c2 0 bad p s Hc1 Hcopy Hs ltac:(lia) retry_fuel_enough), Hs.
  destruct (Z.eqb_spec s HAB_HEAD_SIGNATURE) as [->|Hne].
  - exists 0, false. rewrite bool_decide_true by done. done.
  - eexists _, true. split; [done|]. rewrite bool_decide_false by congruence. split; [done|].
    by destruct bad.
Qed.

Lemma read_refines size r f p clear :
  ring_ok size r f → zlen p < 2 ^ 32 →
  ∃ ep sh, let '(ret, p', f') := fifo_read p clear f in
    hab_pipe_read (λ _, data (r_sh r)) (r_rx r) (r_sh r) size (Some p) (zlen p) clear (r_bad r) =
      Some (ret, Some p', ep, sh, resync f') ∧
    ring_ok size (mk_ring (r_tx r) ep sh (resync f')) f'.
Proof.
  intros Hok Hp32. pose proof Hok as [Hsize Hlen Hsh Hbad Hrx Hroom Htx Hwr Htxwr Hdata].
  pose proof (zlen_nonneg (pending f)). pose proof (zlen_nonneg (committed f)). pose proof (zlen_nonneg p).
  rewrite zlen_app in Hroom.
  unfold fifo_read, hab_pipe_read. rewrite Hwr, u32_diff, u32_small by lia.
  rewrite (proj2 (Z.ltb_ge size (rx_index (r_rx r)))), orb_false_r by lia.
  destruct (_ || _) eqn:Eguard.
  { exists (r_rx r), (r_sh r). rewrite <- Hbad. split; [done|]. by destruct r. }
  apply orb_false_iff in Eguard as [Hq%Z.eqb_neq Hpn%Z.eqb_neq].
  set (n := Z.min (zlen (committed f)) (zlen p)).
  replace (if zlen (committed f) <? zlen p then _ else _) with n by (unfold n; zcases).
  assert (0 < n ≤ zlen (committed f) ∧ n ≤ zlen p) as Hn by lia. clearbody n.
  set (p' := take (Z.to_nat n) (committed f) ++ drop (Z.to_nat n) p).
  set (i := rx_index (r_rx r)) in *.
  set (count1 := if n <=? size -₃₂ i then n else size -₃₂ i).
  set (count2 := n -₃₂ count1).
  destruct (ring_read size (data (r_sh r)) p i n) as (Hc1 & Hc2 & Hc & Hi2 & Hi2b & Hidx & _); [lia..|].
  fold count1 in Hc1, Hc2, Hc, Hi2, Hi2b, Hidx. fold count2 in Hc2, Hc, Hi2b, Hidx.
  assert (read_copies (data (r_sh r)) i (read_index2 size i count1) count1 count2 p = Some p') as Hcopy
    by exact (read_copies_front size r f p n Hok ltac:(lia) ltac:(lia)).
  assert (zlen (take (Z.to_nat n) (committed f)) = n) as Ht by (unfold zlen in *; rewrite length_take; lia).
  assert (zlen p' = zlen p) as Hp'.
  { unfold p'. rewrite zlen_app, Ht. unfold zlen in *. rewrite length_drop. lia. }
  assert (read_copies (data (r_sh r)) i (read_index2 size i count1) count1 count2 p' = Some p') as Hagain.
  { assert (p' = take (Z.to_nat n) (committed f) ++ drop (Z.to_nat n) p') as Hp2.
    { unfold p' at 1. f_equal. unfold p'. rewrite drop_app_length'; [done|]. unfold zlen in Ht. lia. }
    rewrite Hp2 at 2. exact (read_copies_front size r f p' n Hok ltac:(lia) ltac:(lia)). }
  unfold read_copies in Hcopy.
  destruct (copy_out (data (r_sh r)) i count1 p 0) as [p1|]; simpl in Hcopy |- *; [|done].
  change (if 0 <? count1 then _ else i) with (read_index2 size i count1).
  set (i2 := read_index2 size i count1) in *. rewrite Hcopy. simpl.
  rewrite (u32_small (count1 + count2)), Hc by lia. destruct (Z.eqb_spec n 0); [lia|]. simpl.
  rewrite Hidx. assert ((i + n) mod size -₃₂ count2 = i2) as ->.
  { rewrite <- Hidx. destruct (Z.ltb_spec 0 count2); rewrite ?(u32_small (i2 + count2)) by lia;
      rewrite u32_small by lia; lia. }
  destruct (header_check (data (r_sh r)) i i2 count1 count2 (r_bad r) p' (clear && (zlen p =? sizeof_hab_header)))
    as (cnt & bad & -> & -> & Hcnt); [done|done| |].
  { rewrite Hp'. intros [_ Hz%Z.eqb_eq]%andb_true_iff. done. }
  simpl. rewrite Hbad in *.
  set (bad := if clear && _ then negb _ else resync f) in *.
  destruct bad; eexists _, _; simpl.
  - split; [by rewrite Hcnt|]. apply (ring_ok_drop size r f 1); simpl; try done; [lia|].
    rewrite u32_small, Hsh, ring_pos by lia. zcases.
  - split; [done|]. apply (ring_ok_drop size r f n); simpl; try done. lia.
Qed.

(** A read does not touch the bytes of the ring. *)
Lemma read_keeps_data peer ep sh size p n clear bad ret p' ep' sh' bad' :
  hab_pipe_read peer ep sh size p n clear bad = Some (ret, p', ep', sh', bad') → data sh' = data sh.
Proof.
  unfold hab_pipe_read. destruct p as [p|]; [|by intros [= _ _ _ <- _]].
  destruct (_ || _); [by intros [= _ _ _ <- _]|].
  destruct (copy_out _ _ _ p _) as [p1|]; cbn [mbind option_bind]; [|done].
  destruct (copy_out _ _ _ p1 _) as [p2|]; cbn [mbind option_bind]; [|done].
  destruct (negb _); [|by intros [= _ _ _ <- _]].
  destruct (if clear && _ then _ else _) as [[[q cnt] m]|]; cbn [mbind option_bind]; [|done].
  by intros [= _ _ _ <- _].
Qed.

(** ** The pipe is a FIFO *)

(** What the two sides do with one direction of the pipe. *)
Inductive pipe_call :=
  | CallWrite (bs : list Z)
  | CallCommit
  | CallRead (p : list Z) (clear : bool).

Definition call_ok (c : pipe_call) : Prop :=
  match c with
  | CallWrite bs => zlen bs < 2 ^ 32
  | CallCommit => True
  | CallRead p _ => zlen p < 2 ^ 32
  end.

(** A call on the code: its result, the bytes it delivers and the new ring. *)
Definition ring_call (size : Z) (c : pipe_call) (r : ring) : option (Z * list Z * ring) :=
  match c with
  | CallWrite bs =>
      '(ret, ep, sh) ← hab_pipe_write (r_tx r) (r_sh r) size (Some bs) (zlen bs);
      Some (ret, [], mk_ring ep (r_rx r) sh (r_bad r))
  | CallCommit =>
      Some (0, [], mk_ring (r_tx r) (r_rx r) (hab_pipe_write_commit (r_tx r) (r_sh r)) (r_bad r))
  | CallRead p clear =>
      '(ret, p, ep, sh, bad) ←
        hab_pipe_read (λ _, data (r_sh r)) (r_rx r) (r_sh r) size (Some p) (zlen p) clear (r_bad r);
      Some (ret, default [] p, mk_ring (r_tx r) ep sh bad)
  end.

(** The same call on the specification. *)
Definition fifo_call (size : Z) (c : pipe_call) (f : fifo) : Z * list Z * fifo :=
  match c with
  | CallWrite bs => let '(ret, f) := fifo_write size bs f in (ret, [], f)
  | CallCommit => (0, [], fifo_commit f)
  | CallRead p clear => fifo_read p clear f
  end.

Fixpoint ring_calls (size : Z) (cs : list pipe_call) (r : ring) : option (list (Z * list Z)) :=
  match cs with
  | [] => Some []
  | c :: cs => '(ret, p, r) ← ring_call size c r; l ← ring_calls size cs r; Some ((ret, p) :: l)
  end.

Fixpoint fifo_calls (size : Z) (cs : list pipe_call) (f : fifo) : list (Z * list Z) :=
  match cs with
  | [] => []
  | c :: cs => let '(ret, p, f) := fifo_call size c f in (ret, p) :: fifo_calls size cs f
  end.

Lemma call_refines size c r f :
  ring_ok size r f → call_ok c →
  ∃ r', ring_call size c r = Some ((fifo_call size c f).1, r') ∧ ring_ok size r' (fifo_call size c f).2.
Proof.
  intros Hok Hc. destruct c as [bs| |p clear]; cbn [ring_call fifo_call call_ok] in *.
  - destruct (write_refines size r f bs Hok Hc) as (ep & sh & -> & Hok'). simpl.
    destruct (fifo_write size bs f). by eexists.
  - eexists. split; [done|]. by apply commit_refines.
  - destruct (read_refines size r f p clear Hok Hc) as (ep & sh & H).
    destruct (fifo_read p clear f) as [[ret p'] f']. destruct H as [-> Hok']. by eexists.
Qed.

Lemma calls_refine size cs r f :
  ring_ok size r f → Forall call_ok cs → ring_calls size cs r = Some (fifo_calls size cs f).
Proof.
  intros Hok Hcs. revert r f Hok. induction Hcs as [|c cs Hc _ IH]; intros r f Hok; simpl; [done|].
  destruct (call_refines size c r f Hok Hc) as (r' & -> & Hok').
  destruct (fifo_call size c f) as [[ret p] f']. simpl in *. by rewrite (IH _ _ Hok').
Qed.

(** The direction of a pipe in which the side [tx] sends. *)
Definition direction (tx : ep_ptr) (p : hab_pipe) : ring :=
  match tx with
  | TOP => mk_ring (top p) (bottom p) (buf_a p) false
  | BOTTOM => mk_ring (bottom p) (top p) (buf_b p) false
  end.

(** Both sides initialise the pipe, the bottom one first, as [hab_qvm.c] does. *)
Definition pipe_ready (p : hab_pipe) (size : Z) : option hab_pipe :=
  (hab_pipe_init (hab_pipe_init (Some p) true true size false).2 true true size true).2.

Lemma pipe_ready_ok p p' size tx :
  0 < size < 2 ^ 32 → zlen (data (buf_a p)) = size → zlen (data (buf_b p)) = size →
  pipe_ready p size = Some p' → ring_ok size (direction tx p') (mk_fifo [] [] false).
Proof.
  intros Hs Ha Hb [= <-]. destruct tx; constructor; simpl; try done; unfold zlen; simpl; lia.
Qed.

(** C19: After both sides initialised a pipe whose two rings hold [size] bytes each,
    either direction behaves as a FIFO of bytes: for every sequence of writes,
    commits and reads (with or without the header check), the calls of the code
    succeed without leaving the ring and return the results and the bytes of the
    specification: a write is taken whole when it fits in the free space and refused
    otherwise, a read delivers the oldest committed bytes in order, and a header
    without the signature makes the reader skip one byte. *)
Theorem hab_pipe_is_fifo p p' size tx cs :
  0 < size < 2 ^ 32 → zlen (data (buf_a p)) = size → zlen (data (buf_b p)) = size →
  pipe_ready p size = Some p' → Forall call_ok cs →
  ring_calls size cs (direction tx p') = Some (fifo_calls size cs (mk_fifo [] [] false)).
Proof.
  intros Hs Ha Hb Hp Hcs. apply calls_refine; [|done]. by apply (pipe_ready_ok p).
Qed.

Definition sample_ring (n : nat) : hab_shared_buf := mk_shared_buf 7 9 0 (replicate n 0).
Definition sample_pipe (n : nat) : hab_pipe :=
  mk_pipe zero_endpoint zero_endpoint true true 5 (sample_ring n) (sample_ring n).

Lemma hab_pipe_is_fifo_witness :
  ∃ p', pipe_ready (sample_pipe 8) 8 = Some p' ∧
  let cs := [CallWrite [1; 2; 3; 4; 5]; CallRead [0; 0] false; CallCommit; CallRead [0; 0; 0] false;
             CallWrite [6; 7; 8; 9; 10]; CallWrite [11; 12]; CallCommit; CallRead [0; 0; 0; 0; 0; 0; 0; 0] false] in
  ring_calls 8 cs (direction BOTTOM p') =
    Some [(5, []); (0, [0; 0]); (0, []); (3, [1; 2; 3]); (5, []); (0, []); (0, []);
          (7, [4; 5; 6; 7; 8; 9; 10; 0])].
Proof.
  eexists. split; [reflexivity|]. intros cs.
  rewrite (hab_pipe_is_fifo (sample_pipe 8) _ 8 BOTTOM cs); [reflexivity|lia|reflexivity..|].
  repeat constructor.
Defined.

(** ** The local side against a hostile peer *)

(** What the other side leaves in the shared memory before a call: any counts and
    bytes, but no [size] above the real one; and what it puts there during the
    retries of a header. *)
Definition shared_ok (size : Z) (sh : hab_shared_buf) : Prop :=
  zlen (data sh) = size ∧ 0 ≤ sh_size sh ≤ size.
Definition local_ok (size : Z) (ep : hab_pipe_endpoint) : Prop :=
  0 ≤ tx_index ep < size ∧ 0 ≤ rx_index ep < size.

Lemma retry_safe fuel size peer i n cnt mismatch p :
  0 < n ≤ size → n ≤ zlen p → size < 2 ^ 32 → 0 ≤ i < size → (∀ k, zlen (peer k) = size) →
  zlen p = sizeof_hab_header → 0 ≤ cnt ≤ 1001 → 1002 - cnt ≤ Z.of_nat fuel →
  let count1 := if n <=? size -₃₂ i then n else size -₃₂ i in
  ∃ p' cnt' bad, retry fuel peer i (read_index2 size i count1) count1 (n -₃₂ count1) cnt mismatch p =
    Some (p', cnt', bad).
Proof.
  intros Hn Hnp Hs Hi Hpeer Hp Hcnt Hfuel count1. revert p cnt Hnp Hp Hcnt Hfuel.
  induction fuel as [|fuel IH]; intros p cnt Hnp Hp Hcnt Hfuel; [lia|]. simpl.
  destruct (head_signature_total p Hp) as [s ->]. simpl.
  destruct (negb (s =? HAB_HEAD_SIGNATURE)); [|by eexists _, _, _].
  destruct (Z.leb_spec cnt 1000); [|by eexists _, _, _].
  destruct (ring_read size (peer cnt) p i n Hn Hnp (Hpeer _) Hs Hi) as (Hc1 & _ & _ & _ & _ & _ & p' & Hcopy & Hp' & _).
  fold count1 in Hc1, Hcopy. unfold read_copies, copy_out in Hcopy. unfold copy_out.
  destruct (Z.ltb_spec 0 count1) as [_|]; [|lia].
  unfold mbind, option_bind in Hcopy |- *. destruct (subrange i count1 (peer cnt)) as [bs|]; [|done].
  destruct (splice 0 bs p) as [p1|]; [|done]. rewrite Hcopy.
  destruct mismatch; simpl; [by eexists _, _, _|]. apply IH; lia.
Qed.

Lemma write_safe size ep sh bs :
  0 < size < 2 ^ 32 → shared_ok size sh → local_ok size ep →
  ∃ ret ep' sh', hab_pipe_write ep sh size (Some bs) (zlen bs) = Some (ret, ep', sh') ∧ local_ok size ep'.
Proof.
  intros Hsize [Hlen _] [Htx Hrx]. pose proof (zlen_nonneg bs). unfold hab_pipe_write.
  destruct (size <? _); [by eexists _, _, _|].
  destruct (_ || _) eqn:E1; [by eexists _, _, _|].
  destruct ((size <? tx_index ep) || _) eqn:E2; [by eexists _, _, _|].
  apply orb_false_iff in E1 as [_ Hne%Z.eqb_neq]. apply orb_false_iff in E2 as [_ Hfit%Z.ltb_ge].
  destruct (ring_write size bs (data sh) (tx_wr_count ep) (tx_index ep) (zlen bs)) as (d' & Hcopy & _); [lia..|].
  set (c1 := if zlen bs <=? _ then _ else _) in *.
  destruct (copy_in size bs 0 c1 _ _ _) as [[[d1 wr1] i1]|]; simpl in *; [|done].
  rewrite Hcopy. eexists _, _, _. split; [done|]. split; simpl; [apply Z.mod_pos_bound|]; lia.
Qed.

Lemma read_safe size peer ep sh p clear bad :
  0 < size < 2 ^ 32 → shared_ok size sh → (∀ k, zlen (peer k) = size) → local_ok size ep → zlen p ≤ size →
  ∃ ret p' ep' sh' bad', hab_pipe_read peer ep sh size (Some p) (zlen p) clear bad =
    Some (ret, p', ep', sh', bad') ∧ local_ok size ep'.
Proof.
  intros Hsize [Hlen Hsh] Hpeer [Htx Hrx] Hp. pose proof (zlen_nonneg p). unfold hab_pipe_read.
  destruct (_ || (size <? rx_index ep)) eqn:Eguard; [by eexists _, _, _, _, _|].
  apply orb_false_iff in Eguard as [[Hav%Z.eqb_neq Hpn%Z.eqb_neq]%orb_false_iff _].
  set (avail := wr_count sh -₃₂ rd_count sh) in *.
  assert (0 ≤ avail) by (unfold avail, u32; apply Z.mod_pos_bound; lia).
  set (n := if avail <? zlen p then avail else zlen p).
  assert (0 < n ≤ zlen p) as Hn by (unfold n; zcases). clearbody n.
  set (i := rx_index ep) in *.
  destruct (ring_read size (data sh) p i n) as (Hc1 & Hc2 & Hc & Hi2 & Hi2b & Hidx & p' & Hcopy & Hp' & _); [lia..|].
  set (count1 := if n <=? size -₃₂ i then n else size -₃₂ i) in *. set (count2 := n -₃₂ count1) in *.
  unfold read_copies in Hcopy. destruct (copy_out (data sh) i count1 p 0) as [p1|]; simpl in Hcopy |- *; [|done].
  change (if 0 <? count1 then _ else i) with (read_index2 size i count1).
  set (i2 := read_index2 size i count1) in *. rewrite Hcopy. simpl.
  rewrite (u32_small (count1 + count2)), Hc by lia. destruct (Z.eqb_spec n 0); [lia|]. simpl. rewrite Hidx.
  assert ((i + n) mod size -₃₂ count2 = i2) as ->.
  { rewrite <- Hidx. destruct (Z.ltb_spec 0 count2); rewrite ?(u32_small (i2 + count2)) by lia;
      rewrite u32_small by lia; lia. }
  assert (∃ q cnt bad', (if clear && (zlen p =? sizeof_hab_header)
    then retry RETRY_FUEL peer i i2 count1 count2 0 bad p' else Some (p', 0, bad)) = Some (q, cnt, bad'))
    as (q & cnt & bad' & ->).
  { destruct (clear && _) eqn:Ehead; [|by eexists _, _, _].
    apply andb_true_iff in Ehead as [_ Hz%Z.eqb_eq].
    apply retry_safe; done || lia. }
  simpl. eexists _, _, _, _, _. split; [done|]. split; simpl; [done|].
  destruct bad'; [|apply Z.mod_pos_bound; lia]. rewrite u32_small by lia. zcases.
Qed.

(** A call of the local side and what the peer does around it: the transmit and
    receive rings it finds, and the receive ring at each retry. *)
Record hostile_call := mk_hostile_call {
  h_tx : hab_shared_buf;
  h_rx : hab_shared_buf;
  h_retry : Z → list Z;
  h_call : pipe_call
}.

Definition hostile_ok (size : Z) (h : hostile_call) : Prop :=
  shared_ok size (h_tx h) ∧ shared_ok size (h_rx h) ∧ (∀ k, zlen (h_retry h k) = size) ∧
  match h_call h with CallRead p _ => zlen p ≤ size | _ => True end.

(** The endpoint and [signature_mismatch] after the calls; [None] when one of them
    accesses memory outside its buffers. *)
Fixpoint hostile_run (size : Z) (hs : list hostile_call) (ep : hab_pipe_endpoint) (bad : bool)
    : option (hab_pipe_endpoint * bool) :=
  match hs with
  | [] => Some (ep, bad)
  | h :: hs =>
      match h_call h with
      | CallWrite bs =>
          '(_, ep, _) ← hab_pipe_write ep (h_tx h) size (Some bs) (zlen bs); hostile_run size hs ep bad
      | CallCommit => hostile_run size hs ep bad
      | CallRead p clear =>
          '(_, _, ep, _, bad) ← hab_pipe_read (h_retry h) ep (h_rx h) size (Some p) (zlen p) clear bad;
          hostile_run size hs ep bad
      end
  end.

(** C20: Memory safety against the other virtual machine: as long as the [size] word
    of the rings is not above the real size, no sequence of writes of any length and
    reads of at most [size] bytes accesses memory outside the rings and the caller's
    buffers, whatever counts and bytes the peer leaves in the shared memory before
    each call and during the retries; the local indices stay inside the ring. *)
Theorem hab_pipe_peer_safe size hs ep bad :
  0 < size < 2 ^ 32 → local_ok size ep → Forall (hostile_ok size) hs →
  ∃ ep' bad', hostile_run size hs ep bad = Some (ep', bad') ∧ local_ok size ep'.
Proof.
  intros Hsize Hep Hhs. revert ep bad Hep.
  induction Hhs as [|h hs (Htx & Hrx & Hretry & Hcall) _ IH]; intros ep bad Hep; cbn [hostile_run]; [by eexists _, _|].
  destruct (h_call h) as [bs| |p clear].
  - destruct (write_safe size ep (h_tx h) bs Hsize Htx Hep) as (? & ep' & ? & -> & Hep'). by apply IH.
  - by apply IH.
  - destruct (read_safe size (h_retry h) ep (h_rx h) p clear bad Hsize Hrx Hretry Hep Hcall)
      as (? & ? & ep' & ? & bad' & -> & Hep'). by apply IH.
Qed.

(** A ring of 32 bytes whose counts say that everything is readable. *)
Definition lying_ring (sz : Z) : hab_shared_buf := mk_shared_buf 0 4294967295 sz (replicate 32 5).

Lemma hab_pipe_peer_safe_witness :
  let header := CallRead (replicate 20 0) true in
  let h := mk_hostile_call (lying_ring 3) (lying_ring 31) (λ k, replicate 32 k) header in
  ∃ ep' bad', hostile_run 32 [h; h; h] (mk_endpoint 9 30 31) false = Some (ep', bad') ∧ local_ok 32 ep'.
Proof.
  intros header h. apply hab_pipe_peer_safe; [lia|split; simpl; lia|].
  assert (hostile_ok 32 h) as Hh; [|by repeat (apply Forall_cons_2; [exact Hh|])].
  split; [|split; [|split]]; [split; simpl; unfold zlen; simpl; lia..|done|unfold zlen; simpl; lia].
Defined.

(** The bound on the [size] word is needed: the resynchronisation step wraps the
    receive index at the [size] word, which the peer can write, and the guard of the
    next read accepts an index equal to the real size, so that it copies bytes from
    behind the ring. *)
Example hostile_size_reads_past_ring :
  let header := CallRead (replicate 20 0) true in
  let h := mk_hostile_call (lying_ring 32) (lying_ring 64) (λ k, replicate 32 k) header in
  hostile_run 32 [h] (mk_endpoint 0 0 31) false = Some (mk_endpoint 0 0 32, true) ∧
  hostile_run 32 [h; h] (mk_endpoint 0 0 31) false = None.
Proof. vm_compute. done. Qed.
