(* ===== verification/HabChan.v ===== *)
(** * The HAB shared-memory channel (drivers/soc/qcom/hab/qvm_comm.c, hab.h)

    A physical channel sends messages, a header and a payload each, through the
    pipe of [HabPipe].  The state holds the channel's side of the pipe, the
    sequence counters and the two static variables of the file; [upper] is the
    state of the layer above, which the message handler works on.  The handler
    ([hab_msg_recv]) is an argument of the dispatcher; the class [Consumes] states
    what the channel relies on: the handler reads the payload that the header
    announces and no more.  The doorbell to the other side is a counter.  The
    ring size, [PIPE_SHMEM_SIZE], is the argument [buf_size]. *)

From S2P Require Import Prelude HabPipe.

(** ** Message headers (hab.h) *)

Record hab_header := mk_header {
  id_type : Z;
  payload_size : Z;
  session_id : Z;
  signature : Z;
  sequence : Z
}.

Definition HAB_PAYLOAD_TYPE_PROFILE : Z := 6.
Definition HAB_PAYLOAD_TYPE_SCHE_MSG : Z := 9.
Definition HAB_PAYLOAD_TYPE_SCHE_MSG_ACK : Z := 10.
Definition HAB_PAYLOAD_TYPE_SCHE_RESULT_REQ : Z := 11.
Definition HAB_PAYLOAD_TYPE_SCHE_RESULT_RSP : Z := 12.

Definition HAB_HEADER_TYPE_SHIFT : Z := 16.
Definition HAB_HEADER_EXT_TYPE_SHIFT : Z := 0.
Definition HAB_HEADER_ID_SHIFT : Z := 20.
Definition HAB_HEADER_TYPE_MASK : Z := 0x000F0000.
Definition HAB_HEADER_TYPE_LEN : Z := 4.
Definition HAB_HEADER_EXT_TYPE_MASK : Z := 0x0000000F.
Definition HAB_HEADER_ID_MASK : Z := 0xFFF00000.
Definition HAB_VCID_ID_SHIFT : Z := 0.
Definition HAB_VCID_ID_MASK : Z := 0x00000FFF.

Definition HAB_VCID_GET_ID (vcid : Z) : Z := Z.shiftr (Z.land vcid HAB_VCID_ID_MASK) HAB_VCID_ID_SHIFT.

Definition with_id_type (x : Z) (h : hab_header) : hab_header :=
  mk_header x (payload_size h) (session_id h) (signature h) (sequence h).

(** The complement of a mask in a 32-bit word. *)
Definition not32 (m : Z) : Z := Z.lxor m (2 ^ 32 - 1).

Definition HAB_HEADER_SET_TYPE (h : hab_header) (type : Z) : hab_header :=
  with_id_type
    (Z.lor (Z.lor (Z.land (id_type h) (not32 (Z.lor HAB_HEADER_TYPE_MASK HAB_HEADER_EXT_TYPE_MASK)))
                  (Z.land (Z.shiftl type HAB_HEADER_TYPE_SHIFT) HAB_HEADER_TYPE_MASK))
           (Z.land (Z.shiftl (Z.shiftr type HAB_HEADER_TYPE_LEN) HAB_HEADER_EXT_TYPE_SHIFT)
                   HAB_HEADER_EXT_TYPE_MASK)) h.

Definition HAB_HEADER_SET_ID (h : hab_header) (id : Z) : hab_header :=
  with_id_type
    (Z.lor (Z.land (id_type h) (not32 HAB_HEADER_ID_MASK))
           (Z.land (Z.shiftl (HAB_VCID_GET_ID id) HAB_HEADER_ID_SHIFT) HAB_HEADER_ID_MASK)) h.

Definition HAB_HEADER_GET_TYPE (h : hab_header) : Z :=
  Z.lor (Z.shiftr (Z.land (id_type h) HAB_HEADER_TYPE_MASK) HAB_HEADER_TYPE_SHIFT)
        (Z.shiftl (Z.land (id_type h) HAB_HEADER_EXT_TYPE_MASK) HAB_HEADER_TYPE_LEN).

Definition HAB_HEADER_GET_ID (h : hab_header) : Z :=
  Z.land (Z.shiftr (Z.land (id_type h) HAB_HEADER_ID_MASK) (HAB_HEADER_ID_SHIFT - HAB_VCID_ID_SHIFT))
         HAB_VCID_ID_MASK.

(** The bytes of a header in memory (packed, little endian), and back. *)
Definition header_le (h : hab_header) : list Z :=
  le_encode 4 (id_type h) ++ le_encode 4 (payload_size h) ++ le_encode 4 (session_id h) ++
  le_encode 4 (signature h) ++ le_encode 4 (sequence h).

Definition header_of (p : list Z) : hab_header :=
  let field off := le_decode (take 4 (drop off p)) in
  mk_header (field 0%nat) (field 4%nat) (field 8%nat) (field 12%nat) (field 16%nat).

(** ** The channel *)

Record qvm_channel := mk_qvm {
  pipe_ep : hab_pipe_endpoint;
  tx_buf : hab_shared_buf;
  rx_buf : hab_shared_buf;
  dbg_itms : option dbg_items;
  side_buf : list Z
}.

Record pchan (U : Type) := mk_pchan {
  hyp_data : option qvm_channel;
  sequence_tx : Z;
  sequence_rx : Z;
  xvm_sche_tx_tv : Z * Z;       (* static xvm_sche_tx_tv_buffer *)
  mismatch : bool;              (* static signature_mismatch of hab_pipe_read *)
  notified : nat;               (* habhyp_notify *)
  dumped : nat;                 (* dump_hab_wq *)
  upper : U
}.
Arguments mk_pchan {U}.
Arguments hyp_data {U} p.
Arguments sequence_tx {U} p.
Arguments sequence_rx {U} p.
Arguments xvm_sche_tx_tv {U} p.
Arguments mismatch {U} p.
Arguments notified {U} p.
Arguments dumped {U} p.
Arguments upper {U} p.

Section chan.
Context {U : Type}.
Abbreviation M := (KM (pchan U)).

Definition set_hyp (x : option qvm_channel) (s : pchan U) : pchan U :=
  mk_pchan x (sequence_tx s) (sequence_rx s) (xvm_sche_tx_tv s) (mismatch s) (notified s) (dumped s) (upper s).
Definition set_mismatch (x : bool) (s : pchan U) : pchan U :=
  mk_pchan (hyp_data s) (sequence_tx s) (sequence_rx s) (xvm_sche_tx_tv s) x (notified s) (dumped s) (upper s).
Definition set_sequence_tx (x : Z) (s : pchan U) : pchan U :=
  mk_pchan (hyp_data s) x (sequence_rx s) (xvm_sche_tx_tv s) (mismatch s) (notified s) (dumped s) (upper s).
Definition set_sequence_rx (x : Z) (s : pchan U) : pchan U :=
  mk_pchan (hyp_data s) (sequence_tx s) x (xvm_sche_tx_tv s) (mismatch s) (notified s) (dumped s) (upper s).
Definition set_tv (x : Z * Z) (s : pchan U) : pchan U :=
  mk_pchan (hyp_data s) (sequence_tx s) (sequence_rx s) x (mismatch s) (notified s) (dumped s) (upper s).
Definition set_upper (x : U) (s : pchan U) : pchan U :=
  mk_pchan (hyp_data s) (sequence_tx s) (sequence_rx s) (xvm_sche_tx_tv s) (mismatch s) (notified s) (dumped s) x.
Definition habhyp_notify (s : pchan U) : pchan U :=
  mk_pchan (hyp_data s) (sequence_tx s) (sequence_rx s) (xvm_sche_tx_tv s) (mismatch s) (S (notified s)) (dumped s) (upper s).
Definition dump_hab_wq (s : pchan U) : pchan U :=
  mk_pchan (hyp_data s) (sequence_tx s) (sequence_rx s) (xvm_sche_tx_tv s) (mismatch s) (notified s) (S (dumped s)) (upper s).

(** [pchan->hyp_data], dereferenced. *)
Definition get_dev : M qvm_channel :=
  let* d := kgets hyp_data in match d with Some d => kret d | None => kfail Undef end.
Definition put_dev (d : qvm_channel) : M unit := kmodify (set_hyp (Some d)).

(** The debug log of reads. *)
Definition pipe_read_trace (size ret : Z) : M unit :=
  let* dev := get_dev in
  match dbg_itms dev with
  | None => kfail Undef
  | Some its =>
      if bool_decide (0 ≤ it_idx its < Z.of_nat (length (it its))) then
        let e := mk_dbg_item (rd_count (rx_buf dev)) (wr_count (rx_buf dev)) (rx_index (pipe_ep dev))
                   (u32 size) (u32 ret) in
        let idx := it_idx its + 1 in
        put_dev (mk_qvm (pipe_ep dev) (tx_buf dev) (rx_buf dev)
                   (Some (mk_dbg_items (<[Z.to_nat (it_idx its) := e]> (it its))
                            (if DBG_ITEM_SIZE <=? idx then 0 else idx))) (side_buf dev))
      else kfail Undef
  end.

(** The calls into the pipe on the channel's rings. *)
Definition chan_write (buf_size : Z) (p : option (list Z)) (n : Z) : M Z :=
  let* dev := get_dev in
  match hab_pipe_write (pipe_ep dev) (tx_buf dev) buf_size p n with
  | Some (ret, ep, sh) => put_dev (mk_qvm ep sh (rx_buf dev) (dbg_itms dev) (side_buf dev)) ;;; kret ret
  | None => kfail Undef
  end.

Definition chan_read (peer : Z → list Z) (buf_size : Z) (p : option (list Z)) (n : Z) (clear : bool)
    : M (Z * option (list Z)) :=
  let* dev := get_dev in
  let* bad := kgets mismatch in
  match hab_pipe_read peer (pipe_ep dev) (rx_buf dev) buf_size p n clear bad with
  | Some (ret, p, ep, sh, bad) =>
      put_dev (mk_qvm ep (tx_buf dev) sh (dbg_itms dev) (side_buf dev)) ;;;
      kmodify (set_mismatch bad) ;;;
      kret (ret, p)
  | None => kfail Undef
  end.

(** The result, as an [int], and the payload buffer. *)
Definition shmem_physical_channel_read (peer : Z → list Z) (buf_size : Z) (payload : option (list Z))
    (read_size : Z) : M (Z * option (list Z)) :=
  let* d := kgets hyp_data in
  match d with
  | None => kret (0, payload)
  | Some _ =>
      let* r := chan_read peer buf_size payload (u32 read_size) false in
      let '(ret, p) := r in
      pipe_read_trace read_size (s32 ret) ;;;
      kret (s32 ret, p)
  end.

(** What is written into the payload before it is sent; [inl] is an error. *)
Definition stamp (sec usec : Z) (type : Z) (payload : option (list Z)) : M (Z + option (list Z)) :=
  let* tv := kgets xvm_sche_tx_tv in
  let put off bs :=
    match payload with
    | Some p => match splice off bs p with Some p => kret (inr (Some p)) | None => kfail Undef end
    | None => kfail Undef
    end in
  if type =? HAB_PAYLOAD_TYPE_PROFILE then
    match payload with
    | Some _ => put 0 (le_encode 8 sec ++ le_encode 8 usec)
    | None => kret (inl (- EINVAL))
    end
  else if type =? HAB_PAYLOAD_TYPE_SCHE_RESULT_REQ then put 0 (le_encode 8 tv.1)
  else if type =? HAB_PAYLOAD_TYPE_SCHE_RESULT_RSP then put 16 (le_encode 8 tv.2)
  else kret (inr payload).

(** [sec], [usec] are the time read by [ktime_get_ts64], [ticks] the timer at the end.
    The result, and the caller's header and payload. *)
Definition shmem_physical_channel_send (buf_size sec usec ticks : Z) (header : hab_header)
    (payload : option (list Z)) : M (Z * hab_header * option (list Z)) :=
  let sizebytes := payload_size header in
  let total_size := sizeof_hab_header + sizebytes in
  if buf_size <? total_size then kret (- EINVAL, header, payload)
  else
    let* dev := get_dev in
    if buf_size -₃₂ (tx_wr_count (pipe_ep dev) -₃₂ rd_count (tx_buf dev)) <? total_size then
      kret (- EAGAIN, header, payload)
    else
      let* seq := kgets sequence_tx in
      let header := mk_header (id_type header) (payload_size header) (session_id header)
                      HAB_HEAD_SIGNATURE (seq +₃₂ 1) in
      let* n := chan_write buf_size (Some (header_le header)) sizeof_hab_header in
      if negb (n =? sizeof_hab_header) then kret (- EIO, header, payload)
      else
        let type := HAB_HEADER_GET_TYPE header in
        let* r := stamp sec usec type payload in
        match r with
        | inl err => kret (err, header, payload)
        | inr payload =>
            let* ok := (if negb (sizebytes =? 0)
                        then let* n := chan_write buf_size payload sizebytes in kret (n =? sizebytes)
                        else kret true) in
            if negb ok then kret (- EIO, header, payload)
            else
              let* dev := get_dev in
              put_dev (mk_qvm (pipe_ep dev) (hab_pipe_write_commit (pipe_ep dev) (tx_buf dev)) (rx_buf dev)
                         (dbg_itms dev) (side_buf dev)) ;;;
              kmodify (λ s, set_sequence_tx (sequence_tx s +₃₂ 1) s) ;;;
              kmodify (λ s, if type =? HAB_PAYLOAD_TYPE_SCHE_MSG then set_tv (ticks, (xvm_sche_tx_tv s).2) s
                            else if type =? HAB_PAYLOAD_TYPE_SCHE_MSG_ACK then set_tv ((xvm_sche_tx_tv s).1, ticks) s
                            else s) ;;;
              kmodify habhyp_notify ;;;
              kret (0, header, payload)
        end.

(** The loop of the dispatcher.  [header] is the local variable, whose bytes survive
    from one round to the next; [fuel] bounds the rounds ([Hang] when it runs out). *)
Fixpoint rx_loop (fuel : nat) (peer : Z → list Z) (buf_size : Z) (hab_msg_recv : hab_header → M unit)
    (header : list Z) : M unit :=
  match fuel with
  | O => kfail Hang
  | S fuel =>
      let* r := chan_read peer buf_size (Some header) sizeof_hab_header true in
      let '(ret, p) := r in
      let header := default header p in
      pipe_read_trace sizeof_hab_header ret ;;;
      let deliver :=
        kmodify (set_sequence_rx (sequence (header_of header))) ;;;
        hab_msg_recv (header_of header) ;;;
        rx_loop fuel peer buf_size hab_msg_recv header in
      if ret =? 0xFFFFFFFF then
        let* dev := get_dev in
        match subrange 0 buf_size (data (rx_buf dev)) with
        | Some bs =>
            put_dev (mk_qvm (pipe_ep dev) (tx_buf dev) (rx_buf dev) (dbg_itms dev) bs) ;;;
            kmodify dump_hab_wq ;;;
            deliver
        | None => kfail Undef
        end
      else if ret =? 0xFFFFFFFE then rx_loop fuel peer buf_size hab_msg_recv header
      else if negb (ret =? sizeof_hab_header) then kret tt
      else deliver
  end.

(** [junk] is what the uninitialised local [header] holds. *)
Definition shmem_physical_channel_rx_dispatch (fuel : nat) (peer : Z → list Z) (buf_size : Z)
    (hab_msg_recv : hab_header → M unit) (junk : list Z) : M unit :=
  rx_loop fuel peer buf_size hab_msg_recv junk.
End chan.

(** ** Header fields *)

Definition header_ok (h : hab_header) : Prop :=
  0 ≤ id_type h < 2 ^ 32 ∧ 0 ≤ payload_size h < 2 ^ 32 ∧ 0 ≤ session_id h < 2 ^ 32 ∧
  0 ≤ signature h < 2 ^ 32 ∧ 0 ≤ sequence h < 2 ^ 32.

Lemma header_of_le h : header_ok h → header_of (header_le h) = h.
Proof.
  intros (H1 & H2 & H3 & H4 & H5). destruct h as [a b c d e]. simpl in *.
  assert (∀ z (r : list Z), take 4 (le_encode 4 z ++ r) = le_encode 4 z) as Ht.
  { intros. by rewrite take_app_length'. }
  unfold header_of, header_le. cbn [id_type payload_size session_id signature sequence].
  f_equal.
  - rewrite drop_0, Ht. by apply read_le_encode.
  - rewrite drop_app_length' by done. rewrite Ht. by apply read_le_encode.
  - rewrite app_assoc, drop_app_length' by done. rewrite Ht. by apply read_le_encode.
  - rewrite !app_assoc, <- (app_assoc _ _ (le_encode 4 e)), drop_app_length' by done. rewrite Ht. by apply read_le_encode.
  - rewrite !app_assoc, drop_app_length' by done. rewrite firstn_all2 by done. by apply read_le_encode.
Qed.

Lemma zlen_header_le h : zlen (header_le h) = sizeof_hab_header.
Proof. reflexivity. Qed.

Lemma head_signature_le h : header_ok h → head_signature (header_le h) = Some (signature h).
Proof.
  intros (_ & _ & _ & H & _). unfold head_signature, read_le, header_le.
  rewrite app_assoc, app_assoc, (subrange_app 12 4) by done.
  change (Some (le_decode (le_encode 4 (signature h))) = Some (signature h)). f_equal. by apply read_le_encode.
Qed.

(** The bits of a field mask. *)
Lemma mask_bit s k n :
  0 ≤ s → 0 ≤ k → Z.testbit (Z.shiftl (Z.ones k) s) n = (0 <=? n) && (s <=? n) && (n <? s + k).
Proof.
  intros Hs Hk. destruct (Z.leb_spec 0 n) as [Hn|Hn]; [|by rewrite Z.testbit_neg_r].
  rewrite Z.shiftl_spec, Z.testbit_ones by lia. zcases.
Qed.

Lemma high_bit x k n : 0 ≤ x < 2 ^ k → k ≤ n → Z.testbit x n = false.
Proof.
  intros Hx Hn. destruct (decide (0 ≤ k)).
  - rewrite <- (Z.mod_small x (2 ^ k)) by done. by rewrite Z.mod_pow2_bits_high by lia.
  - rewrite Z.pow_neg_r in Hx by lia. lia.
Qed.

Lemma not32_bit m n : Z.testbit (not32 m) n = xorb (Z.testbit m n) ((0 <=? n) && (n <? 32)).
Proof.
  unfold not32. rewrite Z.lxor_spec. change (2 ^ 32 - 1) with (Z.shiftl (Z.ones 32) 0).
  rewrite mask_bit by lia. f_equal. zcases.
Qed.

Lemma shl_bit a k n : 0 ≤ k → Z.testbit (Z.shiftl a k) n = (0 <=? n) && Z.testbit a (n - k).
Proof.
  intros Hk. destruct (Z.leb_spec 0 n) as [Hn|Hn]; [by rewrite Z.shiftl_spec|by rewrite Z.testbit_neg_r].
Qed.
Lemma shr_bit a k n : 0 ≤ k → Z.testbit (Z.shiftr a k) n = (0 <=? n) && Z.testbit a (n + k).
Proof.
  intros Hk. destruct (Z.leb_spec 0 n) as [Hn|Hn]; [by rewrite Z.shiftr_spec|by rewrite Z.testbit_neg_r].
Qed.

Lemma type_mask_bits : HAB_HEADER_TYPE_MASK = Z.shiftl (Z.ones 4) 16.
Proof. reflexivity. Qed.
Lemma ext_mask_bits : HAB_HEADER_EXT_TYPE_MASK = Z.shiftl (Z.ones 4) 0.
Proof. reflexivity. Qed.
Lemma id_mask_bits : HAB_HEADER_ID_MASK = Z.shiftl (Z.ones 12) 20.
Proof. reflexivity. Qed.
Lemma vcid_mask_bits : HAB_VCID_ID_MASK = Z.shiftl (Z.ones 12) 0.
Proof. reflexivity. Qed.

(** Equality of words built from header fields, bit by bit. *)
Ltac header_bits :=
  unfold HAB_HEADER_GET_TYPE, HAB_HEADER_SET_TYPE, HAB_HEADER_GET_ID, HAB_HEADER_SET_ID, HAB_VCID_GET_ID,
    with_id_type, HAB_HEADER_TYPE_SHIFT, HAB_HEADER_EXT_TYPE_SHIFT, HAB_HEADER_ID_SHIFT,
    HAB_HEADER_TYPE_LEN, HAB_VCID_ID_SHIFT;
  rewrite ?type_mask_bits, ?ext_mask_bits, ?id_mask_bits, ?vcid_mask_bits; cbn [id_type];
  apply Z.bits_inj'; intros n Hn;
  repeat first [rewrite Z.land_spec | rewrite Z.lor_spec | rewrite not32_bit | rewrite mask_bit by lia
               | rewrite shr_bit by lia | rewrite shl_bit by lia];
  zcases; rewrite ?andb_false_r, ?andb_true_r, ?orb_false_r, ?orb_false_l; try done; try (f_equal; lia).

(** the packed [id_type] word.  Setting the type (up to 8 bits, split over two
    fields) and the channel id of a header gives them back, and neither disturbs the
    other, the remaining bits or the other words. *)
Theorem header_fields_independent h t id :
  0 ≤ id_type h < 2 ^ 32 → 0 ≤ t < 256 →
  HAB_HEADER_GET_TYPE (HAB_HEADER_SET_TYPE h t) = t ∧
  HAB_HEADER_GET_ID (HAB_HEADER_SET_ID h id) = HAB_VCID_GET_ID id ∧
  HAB_HEADER_GET_ID (HAB_HEADER_SET_TYPE h t) = HAB_HEADER_GET_ID h ∧
  HAB_HEADER_GET_TYPE (HAB_HEADER_SET_ID h id) = HAB_HEADER_GET_TYPE h.
Proof.
  intros Hi Ht. split; [|split; [|split]].
  - header_bits; symmetry; apply (high_bit t 8); done || lia.
  - header_bits.
  - header_bits.
  - header_bits.
Qed.

Lemma header_fields_witness :
  let h := HAB_HEADER_SET_ID (HAB_HEADER_SET_TYPE (mk_header 0xFFFFFFFF 4 5 6 7) 16) 0xABC123 in
  HAB_HEADER_GET_TYPE h = 16 ∧ HAB_HEADER_GET_ID h = 0x123.
Proof.
  intros h.
  destruct (header_fields_independent (mk_header 0xFFFFFFFF 4 5 6 7) 16 0) as (Ht & _); [simpl; lia..|].
  destruct (header_fields_independent (HAB_HEADER_SET_TYPE (mk_header 0xFFFFFFFF 4 5 6 7) 16) 16 0xABC123)
    as (_ & Hid & _ & Hkeep); [vm_compute; split; discriminate || done|lia|].
  unfold h. by rewrite Hkeep, Ht, Hid.
Defined.

(** ** Sending *)

(** Messages whose payload is sent as it is. *)
Definition plain (h : hab_header) : Prop :=
  let t := HAB_HEADER_GET_TYPE h in
  t ≠ HAB_PAYLOAD_TYPE_PROFILE ∧ t ≠ HAB_PAYLOAD_TYPE_SCHE_RESULT_REQ ∧ t ≠ HAB_PAYLOAD_TYPE_SCHE_RESULT_RSP.

Definition msg_ok (m : hab_header * list Z) : Prop :=
  header_ok m.1 ∧ plain m.1 ∧ zlen m.2 = payload_size m.1.

(** The header that goes out with sequence number [seq]. *)
Definition stamped (seq : Z) (h : hab_header) : hab_header :=
  mk_header (id_type h) (payload_size h) (session_id h) HAB_HEAD_SIGNATURE seq.

Definition msg_bytes (m : hab_header * list Z) : list Z := header_le m.1 ++ m.2.

Section send.
Context {U : Type} (size : Z).
Abbreviation M := (KM (pchan U)).

(** The channel [s] can send: [rx] is the receiving endpoint, [q] what was sent and
    not yet received. *)
Definition tx_ready (rx : hab_pipe_endpoint) (bad : bool) (s : pchan U) (q : list Z) : Prop :=
  ∃ dev, hyp_data s = Some dev ∧
    ring_ok size (mk_ring (pipe_ep dev) rx (tx_buf dev) bad) (mk_fifo q [] bad).

Lemma chan_write_run rx bad dev (s : pchan U) f bs :
  hyp_data s = Some dev → ring_ok size (mk_ring (pipe_ep dev) rx (tx_buf dev) bad) f → zlen bs < 2 ^ 32 →
  ∃ dev', chan_write size (Some bs) (zlen bs) s = (Done (fifo_write size bs f).1, set_hyp (Some dev') s) ∧
    rx_buf dev' = rx_buf dev ∧
    ring_ok size (mk_ring (pipe_ep dev') rx (tx_buf dev') bad) (fifo_write size bs f).2.
Proof.
  intros Hdev Hok Hbs. destruct (write_refines size _ f bs Hok Hbs) as (ep & sh & Hw & Hok').
  cbn [r_tx r_sh] in Hw. unfold chan_write, get_dev, kbind, kgets. rewrite Hdev. cbn beta iota. unfold kret at 1.
  rewrite Hw. eexists. split; [reflexivity|]. split; [done|]. exact Hok'.
Qed.

Lemma get_dev_run (s : pchan U) dev : hyp_data s = Some dev → get_dev s = (Done dev, s).
Proof. intros H. unfold get_dev, kbind, kgets. by rewrite H. Qed.

Lemma fifo_write_fits bs f :
  0 < zlen bs → zlen (committed f ++ pending f) + zlen bs ≤ size →
  fifo_write size bs f = (zlen bs, mk_fifo (committed f) (pending f ++ bs) (resync f)).
Proof.
  intros Hpos Hfit. unfold fifo_write. destruct (Z.eqb_spec (zlen bs) 0); [lia|]. zcases.
Qed.

Lemma stamp_plain sec usec h p (s : pchan U) :
  plain h → stamp sec usec (HAB_HEADER_GET_TYPE h) p s = (Done (inr p), s).
Proof.
  intros (H1 & H2 & H3). unfold stamp, kbind, kgets.
  by rewrite (proj2 (Z.eqb_neq _ _) H1), (proj2 (Z.eqb_neq _ _) H2), (proj2 (Z.eqb_neq _ _) H3).
Qed.

(** The part of a send after the header is in the ring. *)
Lemma payload_write_run rx bad dev (s : pchan U) q hb p :
  hyp_data s = Some dev → ring_ok size (mk_ring (pipe_ep dev) rx (tx_buf dev) bad) (mk_fifo q hb bad) →
  zlen q + zlen hb + zlen p ≤ size →
  ∃ dev', (if negb (zlen p =? 0) then let* n := chan_write size (Some p) (zlen p) in kret (n =? zlen p)
           else kret true) s = (Done true, set_hyp (Some dev') s) ∧
    ring_ok size (mk_ring (pipe_ep dev') rx (tx_buf dev') bad) (mk_fifo q (hb ++ p) bad).
Proof.
  intros Hdev Hok Hfit. pose proof (ok_size _ _ _ Hok). pose proof (zlen_nonneg q).
  pose proof (zlen_nonneg hb). pose proof (zlen_nonneg p).
  destruct (Z.eqb_spec (zlen p) 0) as [Hz|Hnz]; cbn [negb].
  - exists dev. assert (p = []) as -> by (apply length_zero_iff_nil; unfold zlen in Hz; lia).
    rewrite app_nil_r. split; [|done]. unfold kret. rewrite <- Hdev. by destruct s.
  - destruct (chan_write_run rx bad dev s _ p Hdev Hok ltac:(lia)) as (dev' & Hw & _ & Hok').
    rewrite fifo_write_fits in Hw, Hok' by (cbn [committed pending]; rewrite ?zlen_app; lia).
    exists dev'. rewrite (kbind_Done _ _ _ _ _ Hw). cbn [fst]. rewrite Z.eqb_refl. done.
Qed.

(** One message: it is sent when it fits, refused without any change otherwise. *)
Lemma send_run rx bad (s : pchan U) q h p sec usec ticks :
  tx_ready rx bad s q → msg_ok (h, p) →
  let h' := stamped (sequence_tx s +₃₂ 1) h in
  ∃ s', if zlen q + zlen (msg_bytes (h', p)) <=? size
        then shmem_physical_channel_send size sec usec ticks h (Some p) s = (Done (0, h', Some p), s') ∧
             tx_ready rx bad s' (q ++ msg_bytes (h', p)) ∧ sequence_tx s' = sequence_tx s +₃₂ 1
        else ∃ e, shmem_physical_channel_send size sec usec ticks h (Some p) s = (Done (e, h, Some p), s) ∧
             (e = - EINVAL ∨ e = - EAGAIN).
Proof.
  intros (dev & Hdev & Hok) (Hh & Hplain & Hp) h'. cbn [fst snd] in *.
  pose proof (ok_size _ _ _ Hok) as Hsize. pose proof (ok_room _ _ _ Hok) as Hroom.
  pose proof (ok_txwr _ _ _ Hok) as Hwr. cbn in Hroom, Hwr. rewrite app_nil_r in Hroom, Hwr.
  pose proof (zlen_nonneg q). pose proof (zlen_nonneg p).
  unfold msg_bytes. cbn [fst snd]. rewrite zlen_app, zlen_header_le.
  unfold shmem_physical_channel_send. rewrite <- Hp.
  destruct (Z.ltb_spec size (sizeof_hab_header + zlen p)) as [Hbig|Hsmall].
  { exists s. zcases. exists (- EINVAL). split; [done|by left]. }
  rewrite (kbind_Done _ _ _ _ _ (get_dev_run s dev Hdev)), Hwr, u32_diff.
  rewrite (u32_small (zlen q)), (u32_small (size - zlen q)) by lia.
  destruct (Z.ltb_spec (size - zlen q) (sizeof_hab_header + zlen p)) as [Hfull|Hfit].
  { exists s. zcases. exists (- EAGAIN). split; [done|by right]. }
  destruct (Z.leb_spec (zlen q + (sizeof_hab_header + zlen p)) size); [|lia].
  rewrite (kbind_Done (kgets sequence_tx) _ s (sequence_tx s) s eq_refl). rewrite Hp.
  fold (stamped (sequence_tx s +₃₂ 1) h). fold h'.
  destruct (chan_write_run rx bad dev s _ (header_le h') Hdev Hok) as (dev1 & Hw & _ & Hok1); [rewrite zlen_header_le; done|].
  rewrite fifo_write_fits in Hw, Hok1
    by (cbn [committed pending]; rewrite ?app_nil_r, zlen_header_le; unfold sizeof_hab_header in *; lia).
  rewrite zlen_header_le in Hw. rewrite (kbind_Done _ _ _ _ _ Hw). cbn [fst]. rewrite Z.eqb_refl. cbn [negb].
  rewrite (kbind_Done _ _ _ _ _ (stamp_plain sec usec h' (Some p) _ Hplain)). rewrite <- Hp.
  destruct (payload_write_run rx bad dev1 (set_hyp (Some dev1) s) q (header_le h') p) as (dev2 & Hw2 & Hok2);
    [done|exact Hok1|rewrite zlen_header_le; lia|].
  rewrite (kbind_Done _ _ _ _ _ Hw2). cbn [negb].
  rewrite (kbind_Done _ _ _ _ _ (get_dev_run (set_hyp (Some dev2) (set_hyp (Some dev1) s)) dev2 eq_refl)).
  eexists. split; [reflexivity|]. split; [|by repeat case_match].
  exists (mk_qvm (pipe_ep dev2) (hab_pipe_write_commit (pipe_ep dev2) (tx_buf dev2)) (rx_buf dev2)
            (dbg_itms dev2) (side_buf dev2)).
  split; [by repeat case_match|]. exact (commit_refines _ _ _ Hok2).
Qed.
End send.

(** ** Receiving *)

Section receive.
Context {U : Type} (size : Z).
Abbreviation M := (KM (pchan U)).

(** The channel [s] can receive: [tx] is the sending endpoint, [d] the bytes of the
    ring and [q] what is committed in it; the debug log is in place. *)
Definition rx_ready (tx : hab_pipe_endpoint) (d : list Z) (s : pchan U) (q : list Z) : Prop :=
  ∃ dev its, hyp_data s = Some dev ∧ dbg_itms dev = Some its ∧
    Z.of_nat (length (it its)) = DBG_ITEM_SIZE ∧ 0 ≤ it_idx its < DBG_ITEM_SIZE ∧
    data (rx_buf dev) = d ∧ mismatch s = false ∧
    ring_ok size (mk_ring tx (pipe_ep dev) (rx_buf dev) false) (mk_fifo q [] false).

(** What a handler promises for the headers in [P]: given the header of a message
    whose payload is at the front of the ring, it reads exactly the payload and acts
    on it. *)
Class Consumes (d : list Z) (P : hab_header → Prop) (recv : hab_header → M unit)
    (act : hab_header → list Z → U → U) : Prop :=
  consumes tx s h pl rest :
    rx_ready tx d s (pl ++ rest) → header_ok h → P h → zlen pl = payload_size h →
    sequence_rx s = sequence h →
    ∃ s', recv h s = (Done tt, s') ∧ rx_ready tx d s' rest ∧ upper s' = act h pl (upper s) ∧
      sequence_rx s' = sequence_rx s.

Lemma trace_run tx d s q n ret :
  rx_ready tx d s q →
  ∃ s', pipe_read_trace n ret s = (Done tt, s') ∧ rx_ready tx d s' q ∧
    upper s' = upper s ∧ sequence_rx s' = sequence_rx s.
Proof.
  intros (dev & its & Hdev & Hits & Hlen & Hidx & Hd & Hm & Hok).
  unfold pipe_read_trace. rewrite (kbind_Done _ _ _ _ _ (get_dev_run s dev Hdev)), Hits.
  rewrite bool_decide_true by lia. eexists. split; [reflexivity|]. split; [|done].
  eexists _, _. split; [reflexivity|]. split; [reflexivity|]. split; [cbn [it]; by rewrite length_insert|].
  split; [|split; [done|split; [done|exact Hok]]]. cbn [it_idx]. unfold DBG_ITEM_SIZE in *. zcases.
Qed.

(** A read of [zlen p] bytes that the specification does not refuse. *)
Lemma chan_read_run tx d s q p clear ret p' q' :
  rx_ready tx d s q → zlen p < 2 ^ 32 →
  fifo_read p clear (mk_fifo q [] false) = (ret, p', mk_fifo q' [] false) →
  ∃ s', chan_read (λ _, d) size (Some p) (zlen p) clear s = (Done (ret, Some p'), s') ∧
    rx_ready tx d s' q' ∧ upper s' = upper s ∧ sequence_rx s' = sequence_rx s.
Proof.
  intros (dev & its & Hdev & Hits & Hlen & Hidx & Hd & Hm & Hok) Hp Hf.
  destruct (read_refines size _ _ p clear Hok Hp) as (ep & sh & Hr). rewrite Hf in Hr.
  destruct Hr as [Hr Hok']. cbn [r_rx r_sh r_bad] in Hr.
  unfold chan_read. rewrite (kbind_Done _ _ _ _ _ (get_dev_run s dev Hdev)).
  rewrite (kbind_Done (kgets mismatch) _ s (mismatch s) s eq_refl), Hm. rewrite Hd in Hr. rewrite Hr.
  eexists. split; [reflexivity|]. split; [|done].
  eexists _, its. split; [reflexivity|]. split; [done|]. split; [done|]. split; [done|].
  split; [|split; [done|exact Hok']]. cbn [rx_buf]. rewrite <- Hd. by apply read_keeps_data in Hr.
Qed.

(** The front of the queue as a read sees it. *)
Lemma fifo_read_front p clear a rest :
  0 < zlen a → zlen p = zlen a →
  (clear && (zlen p =? sizeof_hab_header) = true → head_signature a = Some HAB_HEAD_SIGNATURE) →
  fifo_read p clear (mk_fifo (a ++ rest) [] false) = (zlen a, a, mk_fifo rest [] false).
Proof.
  intros Ha Hp Hsig. pose proof (zlen_nonneg rest). unfold fifo_read. cbn [committed pending resync].
  rewrite zlen_app, Hp. destruct (Z.eqb_spec (zlen a + zlen rest) 0); [lia|].
  destruct (Z.eqb_spec (zlen a) 0); [lia|]. cbn [orb]. rewrite Z.min_r by lia.
  assert (Z.to_nat (zlen a) = length a) as -> by (unfold zlen; lia).
  rewrite take_app_length, drop_app_length, drop_ge, app_nil_r by (unfold zlen in Hp; lia).
  rewrite Hp in Hsig. destruct (clear && (zlen a =? sizeof_hab_header)); [|done].
  rewrite Hsig by done. by rewrite bool_decide_true.
Qed.

Lemma fifo_read_nothing p clear : fifo_read p clear (mk_fifo [] [] false) = (0, p, mk_fifo [] [] false).
Proof. done. Qed.

(** The dispatcher delivers the messages of the ring in order. *)
Lemma rx_loop_run tx d P recv act `{!Consumes d P recv act} (msgs : list (hab_header * list Z)) fuel header s :
  rx_ready tx d s (concat (msg_bytes <$> msgs)) →
  Forall (λ m, header_ok m.1 ∧ P m.1 ∧ signature m.1 = HAB_HEAD_SIGNATURE ∧ zlen m.2 = payload_size m.1) msgs →
  zlen header = sizeof_hab_header → (length msgs < fuel)%nat →
  ∃ s', rx_loop fuel (λ _, d) size recv header s = (Done tt, s') ∧ rx_ready tx d s' [] ∧
    upper s' = foldl (λ u m, act m.1 m.2 u) (upper s) msgs ∧
    sequence_rx s' = foldl (λ _ m, sequence m.1) (sequence_rx s) msgs.
Proof.
  intros Hs Hmsgs. revert fuel header s Hs.
  induction Hmsgs as [|[h pl] msgs (Hh & HP & Hsig & Hpl) Hmsgs IH]; intros [|fuel] header s Hs Hhdr Hfuel;
    simpl in Hfuel; try lia; cbn [rx_loop]; rewrite <- Hhdr.
  - destruct (chan_read_run _ _ _ _ header true _ _ _ Hs ltac:(by rewrite Hhdr) (fifo_read_nothing header true))
      as (s1 & Hr & Hs1 & Hu1 & Hq1).
    rewrite (kbind_Done _ _ _ _ _ Hr). cbn beta iota. cbn [default].
    destruct (trace_run _ _ _ _ (zlen header) 0 Hs1) as (s2 & Ht & Hs2 & Hu2 & Hq2).
    rewrite (kbind_Done _ _ _ _ _ Ht), Hhdr. cbn -[upper sequence_rx]. eexists. split; [reflexivity|]. split; [done|].
    split; congruence.
  - cbn [fmap list_fmap concat] in Hs. unfold msg_bytes in Hs at 1. cbn [fst snd] in *. rewrite <- app_assoc in Hs.
    destruct (chan_read_run _ _ _ _ header true _ _ _ Hs ltac:(by rewrite Hhdr)
      (fifo_read_front header true (header_le h) _ ltac:(by rewrite zlen_header_le) ltac:(by rewrite zlen_header_le)
         ltac:(intros _; by rewrite head_signature_le, Hsig)))
      as (s1 & Hr & Hs1 & Hu1 & Hq1).
    rewrite (kbind_Done _ _ _ _ _ Hr). cbn beta iota. cbn [default].
    destruct (trace_run _ _ _ _ (zlen header) (zlen (header_le h)) Hs1) as (s2 & Ht & Hs2 & Hu2 & Hq2).
    rewrite (kbind_Done _ _ _ _ _ Ht), Hhdr, zlen_header_le. 
    change (sizeof_hab_header =? 4294967295) with false. change (sizeof_hab_header =? 4294967294) with false.
    rewrite Z.eqb_refl. cbn [negb]. unfold id. rewrite (header_of_le h Hh).
    unfold kbind at 1. cbn [kmodify].
    destruct (consumes tx (set_sequence_rx (sequence h) s2) h pl (concat (msg_bytes <$> msgs)))
      as (s3 & Hc & Hs3 & Hu3 & Hq3); [|done..|].
    { destruct Hs2 as (dev & its & H). exists dev, its. exact H. }
    rewrite (kbind_Done _ _ _ _ _ Hc).
    destruct (IH fuel (header_le h) s3 Hs3 (zlen_header_le h) ltac:(lia)) as (s4 & Hl & Hs4 & Hu4 & Hq4).
    exists s4. split; [exact Hl|]. split; [done|]. split.
    + rewrite Hu4, Hu3. cbn. by rewrite Hu2, Hu1.
    + rewrite Hq4, Hq3. done.
Qed.
End receive.

(** ** Both ends *)

Section link.
Context {U V : Type} (size : Z).

(** The sender [s] and the receiver [r] are the two ends of one ring in which [q] is
    committed. *)
Definition linked (s : pchan U) (r : pchan V) (q : list Z) : Prop :=
  ∃ ds dr its, hyp_data s = Some ds ∧ hyp_data r = Some dr ∧ dbg_itms dr = Some its ∧
    Z.of_nat (length (it its)) = DBG_ITEM_SIZE ∧ 0 ≤ it_idx its < DBG_ITEM_SIZE ∧ mismatch r = false ∧
    ring_ok size (mk_ring (pipe_ep ds) (pipe_ep dr) (tx_buf ds) false) (mk_fifo q [] false).

(** The ring is one piece of memory: what one side wrote is what the other sees. *)
Definition sees_tx (s : pchan U) (r : pchan V) : pchan V :=
  match hyp_data s, hyp_data r with
  | Some ds, Some dr => set_hyp (Some (mk_qvm (pipe_ep dr) (tx_buf dr) (tx_buf ds) (dbg_itms dr) (side_buf dr))) r
  | _, _ => r
  end.
Definition sees_rx (r : pchan V) (s : pchan U) : pchan U :=
  match hyp_data s, hyp_data r with
  | Some ds, Some dr => set_hyp (Some (mk_qvm (pipe_ep ds) (rx_buf dr) (rx_buf ds) (dbg_itms ds) (side_buf ds))) s
  | _, _ => s
  end.
Definition ring_bytes (s : pchan U) : list Z :=
  match hyp_data s with Some ds => data (tx_buf ds) | None => [] end.

Fixpoint send_all (sec usec ticks : Z) (msgs : list (hab_header * list Z)) : KM (pchan U) (list Z) :=
  match msgs with
  | [] => kret []
  | (h, p) :: msgs =>
      let* r := shmem_physical_channel_send size sec usec ticks h (Some p) in
      let* l := send_all sec usec ticks msgs in
      kret (r.1.1 :: l)
  end.

(** The messages with the signature and the sequence numbers after [seq]. *)
Fixpoint numbered (seq : Z) (msgs : list (hab_header * list Z)) : list (hab_header * list Z) :=
  match msgs with
  | [] => []
  | (h, p) :: msgs => (stamped (seq +₃₂ 1) h, p) :: numbered (seq +₃₂ 1) msgs
  end.

Lemma zlen_stamped seq h p : zlen (msg_bytes (stamped seq h, p)) = zlen (msg_bytes (h, p)).
Proof. reflexivity. Qed.

Lemma send_all_run rx sec usec ticks msgs s q :
  tx_ready size rx false s q → Forall msg_ok msgs →
  zlen q + zlen (concat (msg_bytes <$> msgs)) ≤ size →
  ∃ s', send_all sec usec ticks msgs s = (Done (replicate (length msgs) 0), s') ∧
    tx_ready size rx false s' (q ++ concat (msg_bytes <$> numbered (sequence_tx s) msgs)).
Proof.
  intros Hs Hmsgs. revert s q Hs. induction Hmsgs as [|[h p] msgs Hm _ IH]; intros s q Hs Hfit.
  { exists s. cbn. by rewrite app_nil_r. }
  cbn [fmap list_fmap concat] in Hfit. rewrite zlen_app in Hfit. pose proof (zlen_nonneg (concat (msg_bytes <$> msgs))).
  destruct (send_run size rx false s q h p sec usec ticks Hs Hm) as (s1 & H1).
  cbv zeta in H1. rewrite zlen_stamped in H1.
  destruct (Z.leb_spec (zlen q + zlen (msg_bytes (h, p))) size); [|lia]. destruct H1 as (Hsend & Hs1 & Hseq).
  destruct (IH s1 _ Hs1) as (s2 & Hall & Hs2).
  { rewrite zlen_app, zlen_stamped. lia. }
  exists s2. cbn [send_all numbered fmap list_fmap concat length]. rewrite (kbind_Done _ _ _ _ _ Hsend).
  rewrite (kbind_Done _ _ _ _ _ Hall). split; [done|]. rewrite Hseq, <- app_assoc in Hs2. exact Hs2.
Qed.

Lemma numbered_ok (P : hab_header → Prop) seq msgs :
  Forall msg_ok msgs → Forall (λ m, ∀ n, P (stamped n m.1)) msgs →
  Forall (λ m, header_ok m.1 ∧ P m.1 ∧ signature m.1 = HAB_HEAD_SIGNATURE ∧ zlen m.2 = payload_size m.1)
    (numbered seq msgs).
Proof.
  intros Hmsgs HP. revert seq. induction Hmsgs as [|[h p] msgs ((H1 & H2 & H3 & H4 & H5) & _ & Hp) _ IH]; intros seq;
    simpl; [constructor|]. apply list.Forall_cons in HP as [HP1 HP]. constructor; [|by apply IH].
  split; [|split; [apply HP1|done]]. pose proof (u32_range (seq + 1)). unfold header_ok. cbn in *. unfold HAB_HEAD_SIGNATURE. lia.
Qed.

Lemma length_numbered seq msgs : length (numbered seq msgs) = length msgs.
Proof. revert seq. induction msgs as [|[h p] msgs IH]; intros seq; simpl; [done|]. by rewrite IH. Qed.

(** What is sent is dispatched: any list of messages that fits into the ring is sent
    without error, and the dispatcher of the other side, with any handler that consumes
    the payloads their headers announce, hands over exactly these messages in order. *)
Lemma messages_delivered s r msgs sec usec ticks (P : hab_header → Prop) recv act junk :
  linked s r [] → Forall msg_ok msgs → zlen (concat (msg_bytes <$> msgs)) ≤ size →
  Forall (λ m, ∀ n, P (stamped n m.1)) msgs → (∀ d, Consumes size d P (recv d) act) → zlen junk = sizeof_hab_header →
  ∃ s' r', send_all sec usec ticks msgs s = (Done (replicate (length msgs) 0), s') ∧
    shmem_physical_channel_rx_dispatch (S (length msgs)) (λ _, ring_bytes s') size (recv (ring_bytes s')) junk
      (sees_tx s' r) = (Done tt, r') ∧
    upper r' = foldl (λ u m, act m.1 m.2 u) (upper r) (numbered (sequence_tx s) msgs) ∧
    linked (sees_rx r' s') r' [].
Proof.
  intros (ds & dr & its & Hs & Hr & Hits & Hlen & Hidx & Hbad & Hok) Hmsgs Hfit HP Hrecv Hjunk.
  destruct (send_all_run (pipe_ep dr) sec usec ticks msgs s []) as (s' & Hsend & ds' & Hs' & Hok');
    [by exists ds|done|done|]. cbn [app] in Hok'.
  exists s'. unfold ring_bytes, sees_tx, sees_rx. rewrite Hs', Hr.
  set (d := data (tx_buf ds')). specialize (Hrecv d).
  destruct (rx_loop_run size (pipe_ep ds') d P (recv d) act (numbered (sequence_tx s) msgs) (S (length msgs)) junk
    (set_hyp (Some (mk_qvm (pipe_ep dr) (tx_buf dr) (tx_buf ds') (dbg_itms dr) (side_buf dr))) r))
    as (r' & Hrun & Hr' & Hup & _).
  { eexists _, its. split; [reflexivity|]. by do 5 (split; [done|]). }
  { by apply numbered_ok. }
  { done. }
  { rewrite length_numbered. lia. }
  exists r'. split; [done|]. split; [exact Hrun|]. split; [exact Hup|].
  destruct Hr' as (dr' & its' & Hdr' & Hits' & Hlen' & Hidx' & _ & Hbad' & Hok2).
  rewrite Hdr'. eexists _, dr', its'. by do 6 (split; [done|]).
Qed.
End link.

(** A header without the signature is handed to the handler the first time it is seen:
    the branch for 0xFFFFFFFF falls through to the delivery. *)
Example corrupted_header_is_dispatched :
  let bytes := header_le (mk_header 5 6 7 0xBAD 9) in
  let ring := mk_shared_buf 0 20 32 (bytes ++ replicate 12 0) in
  let dev := mk_qvm zero_endpoint ring ring (Some zero_dbg_items) [] in
  let s := mk_pchan (Some dev) 0 0 (0, 0) false 0 0 ([] : list hab_header) in
  let log h := kmodify (λ s, set_upper (h :: upper s) s) in
  let '(o, s') := shmem_physical_channel_rx_dispatch 30 (λ _, data ring) 32 log (replicate 20 0) s in
  o = Done tt ∧ upper s' = [mk_header 5 6 7 0xBAD 9].
Proof. vm_compute. done. Qed.
