(* ===== verification/HabMsg.v ===== *)
(** * HAB messages, virtual channels and open requests (hab_msg.c, hab_vchan.c, hab_open.c, hab_pchan.c)

    The layer above the physical channel.  Its state holds the virtual channels of
    the physical channel by their 12-bit id, with their queues of received messages
    and reference counts, and the open requests received by the device.  Memory
    allocations succeed or fail as the argument [al] says; the handlers of the
    memory-sharing messages (export and import) are the argument [mem_msg].
    [sizeof (struct hab_open_send_data)] is 24. *)

From S2P Require Import Prelude HabPipe HabChan.

(** ** Data *)

Record hab_message := mk_message {
  sizebytes : Z;
  scatter : bool;
  msg_sequence_rx : Z;
  msg_data : list Z
}.

Record virtual_channel := mk_vchan {
  vc_id : Z;
  otherend_id : Z;
  otherend_closed : bool;
  vc_closed : bool;
  vc_session_id : Z;
  vc_refcount : Z;
  rx_list : list hab_message
}.

Record hab_open_send_data := mk_open_data {
  vchan_id : Z;
  sub_id : Z;
  open_id : Z;
  ver_fe : Z;
  ver_be : Z;
  ver_proto : Z
}.

(** [rq_pchan] identifies a physical channel, [None] is a null pointer. *)
Record hab_open_request := mk_open_request {
  rq_type : Z;
  rq_pchan : option Z;
  xdata : hab_open_send_data
}.

Record hab_open_node := mk_open_node {
  request : hab_open_request;
  age : Z
}.

Record hab_state := mk_hab {
  self : Z;                          (* this physical channel *)
  dom_id : Z;
  habdev_id : Z;
  pchan_closed : bool;
  pchan_refcount : Z;
  vcnt : Z;
  vchan_idr : gmap Z virtual_channel;
  openq_list : list hab_open_node;
  openq_cnt : Z
}.

Definition HAB_PAYLOAD_TYPE_MSG : Z := 0.
Definition HAB_PAYLOAD_TYPE_INIT : Z := 1.
Definition HAB_PAYLOAD_TYPE_INIT_ACK : Z := 2.
Definition HAB_PAYLOAD_TYPE_INIT_DONE : Z := 3.
Definition HAB_PAYLOAD_TYPE_EXPORT : Z := 4.
Definition HAB_PAYLOAD_TYPE_EXPORT_ACK : Z := 5.
Definition HAB_PAYLOAD_TYPE_CLOSE : Z := 7.
Definition HAB_PAYLOAD_TYPE_INIT_CANCEL : Z := 8.
Definition HAB_PAYLOAD_TYPE_IMPORT : Z := 13.
Definition HAB_PAYLOAD_TYPE_IMPORT_ACK : Z := 14.
Definition HAB_PAYLOAD_TYPE_IMPORT_ACK_FAIL : Z := 15.
Definition HAB_PAYLOAD_TYPE_UNIMPORT : Z := 16.
Definition HAB_PAYLOAD_TYPE_MAX : Z := 17.
Definition HAB_HEADER_SIZE_MAX : Z := 0x0007D000.
Definition HAB_OPEN_REQ_EXPIRE_TIME_S : Z := 3600 * 10.
Definition PAGE_SIZE : Z := 4096.
Definition sizeof_open_data : Z := 24.
Definition HAB_VCID_DOMID_SHIFT : Z := 12.
Definition HAB_VCID_MMID_SHIFT : Z := 20.
Definition HAB_VCID_DOMID_MASK : Z := 0x000FF000.
Definition HAB_VCID_MMID_MASK : Z := 0xFFF00000.
Definition EINTR : Z := 4.
Definition ENOENT : Z := 2.
Definition EOVERFLOW : Z := 75.
Definition ERESTARTSYS : Z := 512.

(** Which allocations succeed: a message, the pages of a scattered one, an open node,
    the buffer for a message that is dropped. *)
Record allocs := mk_allocs {
  al_msg : bool;
  al_pages : bool;
  al_node : bool;
  al_drop : bool
}.

Definition set_idr (x : gmap Z virtual_channel) (u : hab_state) : hab_state :=
  mk_hab (self u) (dom_id u) (habdev_id u) (pchan_closed u) (pchan_refcount u) (vcnt u) x (openq_list u) (openq_cnt u).
Definition set_openq (l : list hab_open_node) (n : Z) (u : hab_state) : hab_state :=
  mk_hab (self u) (dom_id u) (habdev_id u) (pchan_closed u) (pchan_refcount u) (vcnt u) (vchan_idr u) l n.
Definition set_refs (x : Z) (u : hab_state) : hab_state :=
  mk_hab (self u) (dom_id u) (habdev_id u) (pchan_closed u) x (vcnt u) (vchan_idr u) (openq_list u) (openq_cnt u).
Definition set_vcnt (x : Z) (u : hab_state) : hab_state :=
  mk_hab (self u) (dom_id u) (habdev_id u) (pchan_closed u) (pchan_refcount u) x (vchan_idr u) (openq_list u) (openq_cnt u).

Definition set_refcount (n : Z) (v : virtual_channel) : virtual_channel :=
  mk_vchan (vc_id v) (otherend_id v) (otherend_closed v) (vc_closed v) (vc_session_id v) n (rx_list v).
Definition set_rx_list (l : list hab_message) (v : virtual_channel) : virtual_channel :=
  mk_vchan (vc_id v) (otherend_id v) (otherend_closed v) (vc_closed v) (vc_session_id v) (vc_refcount v) l.
Definition set_otherend_closed (v : virtual_channel) : virtual_channel :=
  mk_vchan (vc_id v) (otherend_id v) true (vc_closed v) (vc_session_id v) (vc_refcount v) (rx_list v).

(** ** Reference counts (hab_pchan.c, hab_vchan.c) *)

Definition hab_pchan_get (u : hab_state) : hab_state := set_refs (pchan_refcount u + 1) u.
Definition hab_pchan_put (u : hab_state) : hab_state := set_refs (pchan_refcount u - 1) u.

(** [idr_alloc] is the kernel's: a free id in the given range, or an error. *)
Definition hab_vchan_alloc (idr_alloc : gmap Z virtual_channel → Z → Z → Z) (alloc : bool) (openid : Z)
    (u : hab_state) : option Z * hab_state :=
  if negb alloc then (None, u)
  else
    let id := idr_alloc (vchan_idr u) 1 (Z.shiftr HAB_VCID_ID_MASK HAB_VCID_ID_SHIFT + 1) in
    if id <=? 0 then (None, u)
    else
      let vcid := Z.lor (Z.lor (Z.land (Z.shiftl id HAB_VCID_ID_SHIFT) HAB_VCID_ID_MASK)
                               (Z.land (Z.shiftl (habdev_id u) HAB_VCID_MMID_SHIFT) HAB_VCID_MMID_MASK))
                        (Z.land (Z.shiftl (dom_id u) HAB_VCID_DOMID_SHIFT) HAB_VCID_DOMID_MASK) in
      let u := hab_pchan_get u in
      let u := set_vcnt (vcnt u + 1) u in
      (Some id, set_idr (<[id := mk_vchan vcid 0 (pchan_closed u) false openid 1 []]> (vchan_idr u)) u).

(** The messages go with the channel. *)
Definition hab_vchan_free (v : virtual_channel) (u : hab_state) : hab_state :=
  let u := set_vcnt (vcnt u - 1) u in
  let u := set_idr (delete (HAB_VCID_GET_ID (vc_id v)) (vchan_idr u)) u in
  hab_pchan_put u.

(** A message handler holds a channel by its key in the table. *)
Definition hab_vchan_put (id : Z) (u : hab_state) : hab_state :=
  match vchan_idr u !! id with
  | None => u
  | Some v =>
      let v := set_refcount (vc_refcount v - 1) v in
      let u := set_idr (<[id := v]> (vchan_idr u)) u in
      if vc_refcount v =? 0 then hab_vchan_free v u else u
  end.

Definition hab_vchan_get (h : hab_header) (u : hab_state) : option Z * hab_state :=
  let id := HAB_VCID_GET_ID (HAB_HEADER_GET_ID h) in
  match vchan_idr u !! id with
  | None => (None, u)
  | Some v =>
      if negb (vc_session_id v =? session_id h) then (None, u)
      else if otherend_id v =? 0 then (None, u)
      else if otherend_closed v || vc_closed v then (None, u)
      else if vc_refcount v =? 0 then (None, u)
      else (Some id, set_idr (<[id := set_refcount (vc_refcount v + 1) v]> (vchan_idr u)) u)
  end.

Definition hab_vchan_stop (id : Z) (u : hab_state) : hab_state :=
  set_idr (alter set_otherend_closed id (vchan_idr u)) u.

Definition hab_vchans_stop (u : hab_state) : hab_state :=
  set_idr (set_otherend_closed <$> vchan_idr u) u.

Definition hab_msg_queue (id : Z) (m : hab_message) (u : hab_state) : hab_state :=
  set_idr (alter (λ v, set_rx_list (rx_list v ++ [m]) v) id (vchan_idr u)) u.

(** ** Receiving (hab_msg.c) *)

Section recv.
Context (peer : Z → list Z) (buf_size : Z) (al : allocs) (now usec ticks : Z).
Abbreviation M := (KM (pchan hab_state)).

Definition on_upper {A} (f : hab_state → A * hab_state) : M A := λ s,
  let '(a, u) := f (upper s) in (Done a, set_upper u s).
Definition mod_upper (f : hab_state → hab_state) : M unit := kmodify (λ s, set_upper (f (upper s)) s).

(** [physical_channel_read] into a fresh buffer of [n] bytes. *)
Definition read_fresh (n : Z) : M (Z * list Z) :=
  let* r := shmem_physical_channel_read peer buf_size (Some (replicate (Z.to_nat n) 0)) n in
  kret (r.1, default [] r.2).

(** The reads of the scattered message: whole pages, then the rest. *)
Fixpoint read_pages (pages : nat) (total : Z) (acc : list Z) : M (Z * list Z) :=
  match pages with
  | O => kret (total, acc)
  | S pages =>
      let* r := read_fresh PAGE_SIZE in
      read_pages pages (u64 (total + r.1)) (acc ++ r.2)
  end.

Definition hab_scatter_msg_alloc (n : Z) : M (option hab_message) :=
  if n <=? PAGE_SIZE then kret None
  else if negb (al_pages al) then kret None
  else
    let* r := read_pages (Z.to_nat (n / PAGE_SIZE)) 0 [] in
    let* r := (if negb (n mod PAGE_SIZE =? 0)
               then let* q := read_fresh (n mod PAGE_SIZE) in kret (u64 (r.1 + q.1), r.2 ++ q.2)
               else kret r) in
    let* seq := kgets sequence_rx in
    kret (Some (mk_message r.1 true seq r.2)).

Definition hab_msg_alloc (n : Z) : M (option hab_message) :=
  if HAB_HEADER_SIZE_MAX <? n then kret None
  else if negb (al_msg al) then hab_scatter_msg_alloc n
  else
    let* r := read_fresh n in
    let* seq := kgets sequence_rx in
    kret (Some (mk_message (u64 r.1) false seq r.2)).

Definition hab_msg_drop (n : Z) : M unit :=
  if HAB_HEADER_SIZE_MAX <? n then kret tt
  else if negb (al_drop al) then kret tt
  else let* _ := read_fresh n in kret tt.

Definition open_data_of (p : list Z) : hab_open_send_data :=
  let field off := s32 (le_decode (take 4 (drop off p))) in
  mk_open_data (field 0%nat) (field 4%nat) (field 8%nat) (field 12%nat) (field 16%nat) (field 20%nat).

(** Reading [sizebytes] into a structure of 24 bytes; only that size is asked for. *)
Definition read_open_data (n : Z) : M (option hab_open_send_data) :=
  let* r := shmem_physical_channel_read peer buf_size (Some (replicate (Z.to_nat sizeof_open_data) 0)) n in
  kret (if r.1 =? n then Some (open_data_of (default [] r.2)) else None).

Definition hab_open_request_add (n type : Z) : M Z :=
  if negb (al_node al) then kret (- ENOMEM)
  else
    let* x := read_open_data n in
    match x with
    | None => kret (- EIO)
    | Some x =>
        mod_upper (λ u,
          let node := mk_open_node (mk_open_request type (Some (self u)) x) (now + HAB_OPEN_REQ_EXPIRE_TIME_S) in
          let u := hab_pchan_get u in
          set_openq (openq_list u ++ [node]) (openq_cnt u + 1) u) ;;;
        kret 0
    end.

(** An open request the cancellation [x] is for. *)
Definition cancelled (x : hab_open_send_data) (node : hab_open_node) : bool :=
  let r := request node in
  ((rq_type r =? HAB_PAYLOAD_TYPE_INIT) || (rq_type r =? HAB_PAYLOAD_TYPE_INIT_ACK)) &&
  (sub_id (xdata r) =? sub_id x) && (open_id (xdata r) =? open_id x) && (vchan_id (xdata r) =? vchan_id x).

Definition hab_open_receive_cancel (n : Z) : M Z :=
  let* x := read_open_data n in
  match x with
  | None => kret (- EIO)
  | Some x =>
      let* u := kgets upper in
      match list_find (λ node, cancelled x node = true) (openq_list u) with
      | Some (i, _) =>
          mod_upper (λ u, set_openq (delete i (openq_list u)) (openq_cnt u - 1) u) ;;; kret 0
      | None =>
          if negb (al_node al) then kret (- ENOMEM)
          else
            mod_upper (λ u,
              let x := mk_open_data (vchan_id x) (sub_id x) (open_id x) (ver_fe x) (ver_be x) 0 in
              let node := mk_open_node (mk_open_request HAB_PAYLOAD_TYPE_INIT_CANCEL (Some (self u)) x)
                            (now + HAB_OPEN_REQ_EXPIRE_TIME_S) in
              let u := hab_pchan_get u in
              set_openq (openq_list u ++ [node]) (openq_cnt u + 1) u) ;;;
            kret 0
      end
  end.

Definition is_open_type (type : Z) : bool :=
  (type =? HAB_PAYLOAD_TYPE_INIT) || (type =? HAB_PAYLOAD_TYPE_INIT_ACK) ||
  (type =? HAB_PAYLOAD_TYPE_INIT_DONE) || (type =? HAB_PAYLOAD_TYPE_INIT_CANCEL).

(** [recv_unimport] is [hab_recv_unimport_msg].  The error code and the channel. *)
Definition hab_try_get_vchan (recv_unimport : M unit) (h : hab_header) : M (Z * option Z) :=
  let n := payload_size h in
  let type := HAB_HEADER_GET_TYPE h in
  let vid := HAB_HEADER_GET_ID h in
  if negb (is_open_type type) then
    (if (HAB_PAYLOAD_TYPE_MAX <=? type) || (Z.shiftr HAB_HEADER_ID_MASK HAB_HEADER_ID_SHIFT <? vid) ||
        (vid =? 0) || (session_id h =? 0)
     then kmodify dump_hab_wq else kret tt) ;;;
    let* v := on_upper (hab_vchan_get h) in
    match v with
    | None =>
        if type =? HAB_PAYLOAD_TYPE_UNIMPORT then recv_unimport ;;; kret (0, None)
        else
          (if negb (n =? 0) then hab_msg_drop n else kret tt) ;;;
          kret (- EINVAL, None)
    | Some id =>
        let* u := kgets upper in
        if default false (otherend_closed <$> vchan_idr u !! id) then
          mod_upper (hab_vchan_put id) ;;;
          (if negb (n =? 0) then hab_msg_drop n else kret tt) ;;;
          kret (- ENODEV, None)
        else kret (0, Some id)
    end
  else if negb (n =? sizeof_open_data) then
    (if negb (n =? 0) then hab_msg_drop n ;;; kmodify dump_hab_wq else kret tt) ;;;
    kret (- ENODEV, None)
  else kret (0, None).

(** A received message with the bytes [bs] written over the data at [off].  The data of
    a scattered message are pointers to its pages, which this would overwrite. *)
Definition patch (off : Z) (bs : list Z) (m : option hab_message) : M (option hab_message) :=
  match m with
  | None => kret None
  | Some m =>
      if scatter m then kfail Undef
      else match splice off bs (msg_data m) with
           | Some d => kret (Some (mk_message (sizebytes m) (scatter m) (msg_sequence_rx m) d))
           | None => kfail Undef
           end
  end.

Definition queue_opt (vchan : option Z) (m : option hab_message) : M unit :=
  match vchan, m with
  | Some id, Some m => mod_upper (hab_msg_queue id m)
  | None, Some _ => kfail Undef
  | _, None => kret tt
  end.

(** [mem_msg type vchan] handles the messages of the memory-sharing protocol; [now],
    [usec] and [ticks] are the clocks that are read. *)
Definition hab_msg_recv (mem_msg : Z → option Z → hab_header → M Z) (h : hab_header) : M unit :=
  let n := payload_size h in
  let type := HAB_HEADER_GET_TYPE h in
  let* r := hab_try_get_vchan (let* _ := mem_msg HAB_PAYLOAD_TYPE_UNIMPORT None h in kret tt) h in
  let '(ret, vchan) := r in
  if negb (ret =? 0) || (bool_decide (vchan = None) && (type =? HAB_PAYLOAD_TYPE_UNIMPORT)) then kret tt
  else
    (if (type =? HAB_PAYLOAD_TYPE_MSG) || (type =? HAB_PAYLOAD_TYPE_SCHE_RESULT_REQ) ||
        (type =? HAB_PAYLOAD_TYPE_SCHE_RESULT_RSP) then
       let* m := hab_msg_alloc n in queue_opt vchan m
     else if (type =? HAB_PAYLOAD_TYPE_INIT) || (type =? HAB_PAYLOAD_TYPE_INIT_ACK) ||
             (type =? HAB_PAYLOAD_TYPE_INIT_DONE) then
       let* _ := hab_open_request_add n type in kret tt
     else if type =? HAB_PAYLOAD_TYPE_INIT_CANCEL then
       let* _ := hab_open_receive_cancel n in kret tt
     else if type =? HAB_PAYLOAD_TYPE_CLOSE then
       match vchan with Some id => mod_upper (hab_vchan_stop id) | None => kfail Undef end
     else if type =? HAB_PAYLOAD_TYPE_PROFILE then
       if n <? 32 then kret tt
       else let* m := hab_msg_alloc n in
            let* m := patch 16 (le_encode 8 now ++ le_encode 8 usec) m in
            queue_opt vchan m
     else if (type =? HAB_PAYLOAD_TYPE_SCHE_MSG) || (type =? HAB_PAYLOAD_TYPE_SCHE_MSG_ACK) then
       if n <? 8 then kret tt
       else let* m := hab_msg_alloc n in
            let* m := patch 0 (le_encode 8 ticks) m in
            queue_opt vchan m
     else if (type =? HAB_PAYLOAD_TYPE_EXPORT) || (type =? HAB_PAYLOAD_TYPE_EXPORT_ACK) ||
             (type =? HAB_PAYLOAD_TYPE_IMPORT) || (type =? HAB_PAYLOAD_TYPE_IMPORT_ACK) ||
             (type =? HAB_PAYLOAD_TYPE_IMPORT_ACK_FAIL) || (type =? HAB_PAYLOAD_TYPE_UNIMPORT) then
       let* _ := mem_msg type vchan h in kret tt
     else kret tt) ;;;
    match vchan with Some id => mod_upper (hab_vchan_put id) | None => kret tt end.
End recv.

(** ** Taking messages out (hab_msg.c) *)

Definition HABMM_SOCKET_RECV_FLAGS_NON_BLOCKING : Z := 1.
Definition HABMM_SOCKET_RECV_FLAGS_UNINTERRUPTIBLE : Z := 2.
Definition HABMM_SOCKET_RECV_FLAGS_TIMEOUT : Z := 4.

Definition hab_rx_queue_empty (v : virtual_channel) : bool := bool_decide (rx_list v = []).

(** [wait timeout interruptible] is what happens while the caller sleeps: the value
    [wait_event_*] returns and the channel afterwards.  The result, the message, the
    size and the channel. *)
Definition hab_msg_dequeue (wait : Z → bool → virtual_channel → Z * virtual_channel)
    (rsize timeout flags : Z) (v : virtual_channel) : Z * option hab_message * Z * virtual_channel :=
  let waits := Z.land flags HABMM_SOCKET_RECV_FLAGS_NON_BLOCKING =? 0 in
  let interruptible := Z.land flags HABMM_SOCKET_RECV_FLAGS_UNINTERRUPTIBLE =? 0 in
  let timeout := if Z.land flags HABMM_SOCKET_RECV_FLAGS_TIMEOUT =? 0 then UINT_MAX else timeout in
  let '(ret, v) := if waits && hab_rx_queue_empty v then wait timeout interruptible v else (- EAGAIN, v) in
  match rx_list v with
  | m :: l =>
      if sizebytes m <=? rsize then (0, Some m, sizebytes m, set_rx_list l v)
      else (- EOVERFLOW, None, sizebytes m, v)
  | [] =>
      let ret := if otherend_closed v then - ENODEV
                 else if ret =? - ERESTARTSYS then - EINTR
                 else if ret =? 0 then - ETIMEDOUT
                 else - EAGAIN in
      (ret, None, 0, v)
  end.

(** ** Open requests on the local side (hab_open.c) *)

Definition HAB_VER_PROT : Z := 1.

Definition hab_open_request_init (type : Z) (pchan : option Z) (vid sid oid : Z) (r : hab_open_request)
    : hab_open_request :=
  mk_open_request type pchan (mk_open_data vid sid oid (ver_fe (xdata r)) (ver_be (xdata r)) HAB_VER_PROT).

(** A request that answers [listen]. *)
Definition answers (listen : hab_open_request) (node : hab_open_node) : bool :=
  let r := request node in
  ((rq_type r =? rq_type listen) || (rq_type r =? HAB_PAYLOAD_TYPE_INIT_CANCEL)) &&
  (sub_id (xdata r) =? sub_id (xdata listen)) &&
  ((open_id (xdata listen) =? 0) || (open_id (xdata r) =? open_id (xdata listen))) &&
  (bool_decide (rq_pchan listen = None) || bool_decide (rq_pchan r = rq_pchan listen)).

(** The loop over the queue: what was found, what stays and how many references of
    the channel [me] were put for requests that expired. *)
Fixpoint find_loop (me now : Z) (listen : hab_open_request) (l : list hab_open_node)
    : option hab_open_request * list hab_open_node * Z :=
  match l with
  | [] => (None, [], 0)
  | node :: l =>
      if answers listen node then (Some (request node), l, 0)
      else
        let '(r, l, freed) := find_loop me now listen l in
        if age node <? now then
          (r, l, freed + if bool_decide (rq_pchan (request node) = Some me) then 1 else 0)
        else (r, node :: l, freed)
  end.

(** [listen_closed] is [listen->pchan && listen->pchan->closed].  The condition and
    [*recv_request], which stays [old] when nothing is found. *)
Definition hab_open_request_find (closing listen_closed : bool) (now : Z) (listen : hab_open_request)
    (old : option hab_open_request) (u : hab_state) : bool * option hab_open_request * hab_state :=
  if closing || listen_closed then (true, None, u)
  else
    let '(r, l, freed) := find_loop (self u) now listen (openq_list u) in
    let u := set_refs (pchan_refcount u - freed) u in
    match r with
    | Some r => (true, Some r, set_openq l (openq_cnt u - 1) u)
    | None => (false, old, set_openq l (openq_cnt u) u)
    end.

(** The bytes of the open data, and sending a request to the other side. *)
Definition open_data_le (x : hab_open_send_data) : list Z :=
  le_encode 4 (vchan_id x) ++ le_encode 4 (sub_id x) ++ le_encode 4 (open_id x) ++
  le_encode 4 (ver_fe x) ++ le_encode 4 (ver_be x) ++ le_encode 4 (ver_proto x).

Definition open_header (type : Z) : hab_header :=
  HAB_HEADER_SET_TYPE (mk_header 0 sizeof_open_data 0 0 0) type.

Definition hab_open_request_send {U} (buf_size sec usec ticks : Z) (r : hab_open_request) : KM (pchan U) Z :=
  let* x := shmem_physical_channel_send buf_size sec usec ticks (open_header (rq_type r))
              (Some (open_data_le (xdata r))) in
  kret x.1.1.

Definition hab_open_cancel_notify {U} (buf_size sec usec ticks : Z) (r : hab_open_request) : KM (pchan U) Z :=
  let* x := shmem_physical_channel_send buf_size sec usec ticks (open_header HAB_PAYLOAD_TYPE_INIT_CANCEL)
              (Some (open_data_le (xdata r))) in
  kret x.1.1.

Definition hab_open_request_free (request : option hab_open_request) (u : hab_state) : hab_state :=
  match request with Some _ => hab_pchan_put u | None => u end.

(** The pending opens of a context: the list and its count. *)
Definition hab_open_pending_enter (pending : hab_open_node) (c : list hab_open_node * Z)
    : list hab_open_node * Z := (c.1 ++ [pending], c.2 + 1).

Definition same_open (a b : hab_open_node) : bool :=
  let x := xdata (request a) in let y := xdata (request b) in
  (rq_type (request a) =? rq_type (request b)) && bool_decide (rq_pchan (request a) = rq_pchan (request b)) &&
  (vchan_id x =? vchan_id y) && (sub_id x =? sub_id y) && (open_id x =? open_id y).

Definition hab_open_pending_exit (pending : hab_open_node) (c : list hab_open_node * Z)
    : Z * (list hab_open_node * Z) :=
  let gone := filter (λ node, same_open node pending = true) c.1 in
  let kept := filter (λ node, same_open node pending = false) c.1 in
  (if bool_decide (gone = []) then - ENOENT else 0, (kept, c.2 - Z.of_nat (length gone))).

(** ** The handler consumes what the header announces *)

(** The channel a data message goes to. *)
Definition addressee (h : hab_header) (u : hab_state) : option virtual_channel :=
  match vchan_idr u !! HAB_VCID_GET_ID (HAB_HEADER_GET_ID h) with
  | Some v => if bool_decide (vc_session_id v = session_id h ∧ otherend_id v ≠ 0 ∧ otherend_closed v = false ∧
                              vc_closed v = false ∧ vc_refcount v ≠ 0) then Some v else None
  | None => None
  end.

Definition is_data_type (type : Z) : bool :=
  (type =? HAB_PAYLOAD_TYPE_MSG) || (type =? HAB_PAYLOAD_TYPE_SCHE_RESULT_REQ) ||
  (type =? HAB_PAYLOAD_TYPE_SCHE_RESULT_RSP).

(** Data messages of legal size, and open requests. *)
Definition regular (h : hab_header) : Prop :=
  is_data_type (HAB_HEADER_GET_TYPE h) = true ∧ payload_size h ≤ HAB_HEADER_SIZE_MAX ∨
  (HAB_HEADER_GET_TYPE h = HAB_PAYLOAD_TYPE_INIT ∨ HAB_HEADER_GET_TYPE h = HAB_PAYLOAD_TYPE_INIT_ACK ∨
   HAB_HEADER_GET_TYPE h = HAB_PAYLOAD_TYPE_INIT_DONE) ∧ payload_size h = sizeof_open_data.

(** What such a message does: a data message is appended to the queue of its
    addressee, or dropped when there is none; an open request joins the open queue. *)
Definition deliver (now : Z) (h : hab_header) (pl : list Z) (u : hab_state) : hab_state :=
  if is_data_type (HAB_HEADER_GET_TYPE h) then
    match addressee h u with
    | Some v =>
        set_idr (<[HAB_VCID_GET_ID (HAB_HEADER_GET_ID h) :=
                   set_rx_list (rx_list v ++ [mk_message (zlen pl) false (sequence h) pl]) v]> (vchan_idr u)) u
    | None => u
    end
  else
    set_openq (openq_list u ++ [mk_open_node (mk_open_request (HAB_HEADER_GET_TYPE h) (Some (self u)) (open_data_of pl))
                                  (now + HAB_OPEN_REQ_EXPIRE_TIME_S)]) (openq_cnt u + 1) (hab_pchan_get u).

(** [hab_vchan_get] finds the addressee and takes a reference. *)
Lemma vchan_get_addressee h u (id := HAB_VCID_GET_ID (HAB_HEADER_GET_ID h)) :
  hab_vchan_get h u =
    match addressee h u with
    | Some v => (Some id, set_idr (<[id := set_refcount (vc_refcount v + 1) v]> (vchan_idr u)) u)
    | None => (None, u)
    end.
Proof.
  unfold hab_vchan_get, addressee. fold id. destruct (vchan_idr u !! id) as [v|]; [|done].
  destruct (Z.eqb_spec (vc_session_id v) (session_id h)); cbn [negb]; [|by rewrite bool_decide_false by naive_solver].
  destruct (Z.eqb_spec (otherend_id v) 0); [by rewrite bool_decide_false by naive_solver|].
  destruct (otherend_closed v); cbn [orb]; [by rewrite bool_decide_false by naive_solver|].
  destruct (vc_closed v); [by rewrite bool_decide_false by naive_solver|].
  destruct (Z.eqb_spec (vc_refcount v) 0); [by rewrite bool_decide_false by naive_solver|].
  by rewrite bool_decide_true by naive_solver.
Qed.

Lemma addressee_Some h u v :
  addressee h u = Some v →
  vchan_idr u !! HAB_VCID_GET_ID (HAB_HEADER_GET_ID h) = Some v ∧ otherend_closed v = false ∧ vc_refcount v ≠ 0.
Proof.
  unfold addressee. destruct (vchan_idr u !! _) as [w|]; [|done]. case_bool_decide; [|done].
  intros [= <-]. naive_solver.
Qed.

(** Giving the reference back restores the channel, with its longer queue. *)
Lemma queue_put_restores id v m u :
  vchan_idr u !! id = Some v → vc_refcount v ≠ 0 →
  hab_vchan_put id (hab_msg_queue id m (set_idr (<[id := set_refcount (vc_refcount v + 1) v]> (vchan_idr u)) u)) =
  set_idr (<[id := set_rx_list (rx_list v ++ [m]) v]> (vchan_idr u)) u.
Proof.
  intros Hv Hrc. unfold hab_vchan_put, hab_msg_queue. cbn [vchan_idr set_idr].
  rewrite alter_insert_eq, lookup_insert_eq. cbn [vc_refcount set_refcount set_rx_list].
  replace (vc_refcount v + 1 - 1) with (vc_refcount v) by lia.
  destruct (Z.eqb_spec (vc_refcount v) 0); [done|]. unfold set_idr. cbn. rewrite !insert_insert_eq.
  by destruct v.
Qed.

Section consume.
Context (size : Z) (al : allocs) (now usec ticks : Z) (mem_msg : Z → option Z → hab_header → KM (pchan hab_state) Z).
Context (Hal : al = mk_allocs true (al_pages al) true true).

(** Two channel states that differ above the channel only. *)
Definition same_chan (s s' : pchan hab_state) : Prop :=
  hyp_data s' = hyp_data s ∧ mismatch s' = mismatch s ∧ sequence_rx s' = sequence_rx s.

Lemma same_chan_ready tx d s s' q : same_chan s s' → rx_ready size tx d s q → rx_ready size tx d s' q.
Proof. intros (H1 & H2 & _) (dev & its & H). exists dev, its. by rewrite H1, H2. Qed.

Lemma read_run tx d (s : pchan hab_state) p pl rest :
  rx_ready size tx d s (pl ++ rest) → zlen p = zlen pl → zlen pl < 2 ^ 31 →
  ∃ s', shmem_physical_channel_read (λ _, d) size (Some p) (zlen pl) s = (Done (zlen pl, Some pl), s') ∧
    rx_ready size tx d s' rest ∧ upper s' = upper s ∧ sequence_rx s' = sequence_rx s.
Proof.
  intros Hs Hp Hlt. pose proof (zlen_nonneg pl).
  assert (fifo_read p false (mk_fifo (pl ++ rest) [] false) = (zlen pl, pl, mk_fifo rest [] false)) as Hf.
  { destruct (decide (zlen pl = 0)) as [Hz|Hnz]; [|apply fifo_read_front; done || lia].
    unfold fifo_read. rewrite Hp, Hz, Z.eqb_refl, orb_true_r.
    assert (pl = []) as -> by (apply length_zero_iff_nil; unfold zlen in Hz; lia).
    assert (p = []) as -> by (apply length_zero_iff_nil; unfold zlen in Hp, Hz; lia). done. }
  destruct (chan_read_run size tx d s _ p false _ _ _ Hs ltac:(lia) Hf) as (s1 & Hr & Hs1 & Hu1 & Hq1).
  destruct (trace_run size tx d s1 rest (zlen pl) (zlen pl) Hs1) as (s2 & Ht & Hs2 & Hu2 & Hq2).
  exists s2. split; [|split; [done|split; congruence]].
  destruct Hs as (dev & its & Hdev & _). unfold shmem_physical_channel_read.
  rewrite (kbind_Done (kgets hyp_data) _ s (hyp_data s) s eq_refl), Hdev.
  rewrite (u32_small (zlen pl)) by lia. rewrite <- Hp at 1. rewrite (kbind_Done _ _ _ _ _ Hr).
  cbn beta iota. rewrite s32_small by lia. by rewrite (kbind_Done _ _ _ _ _ Ht).
Qed.

Lemma read_fresh_run tx d (s : pchan hab_state) pl rest :
  rx_ready size tx d s (pl ++ rest) → zlen pl < 2 ^ 31 →
  ∃ s', read_fresh (λ _, d) size (zlen pl) s = (Done (zlen pl, pl), s') ∧
    rx_ready size tx d s' rest ∧ upper s' = upper s ∧ sequence_rx s' = sequence_rx s.
Proof.
  intros Hs Hlt. pose proof (zlen_nonneg pl).
  destruct (read_run tx d s (replicate (Z.to_nat (zlen pl)) 0) pl rest Hs) as (s' & Hr & Hs'); [|done|].
  { unfold zlen. rewrite length_replicate. lia. }
  exists s'. split; [|done]. unfold read_fresh. by rewrite (kbind_Done _ _ _ _ _ Hr).
Qed.

Lemma max_size_small n : n ≤ HAB_HEADER_SIZE_MAX → n < 2 ^ 31.
Proof. unfold HAB_HEADER_SIZE_MAX. lia. Qed.

Lemma msg_alloc_run tx d (s : pchan hab_state) pl rest :
  rx_ready size tx d s (pl ++ rest) → zlen pl ≤ HAB_HEADER_SIZE_MAX →
  ∃ s', hab_msg_alloc (λ _, d) size al (zlen pl) s =
      (Done (Some (mk_message (zlen pl) false (sequence_rx s) pl)), s') ∧
    rx_ready size tx d s' rest ∧ upper s' = upper s ∧ sequence_rx s' = sequence_rx s.
Proof using Hal.
  intros Hs Hmax. pose proof (max_size_small _ Hmax). pose proof (zlen_nonneg pl).
  destruct (read_fresh_run tx d s pl rest Hs) as (s' & Hr & Hs' & Hu & Hq); [done|].
  exists s'. split; [|done]. unfold hab_msg_alloc. rewrite (proj2 (Z.ltb_ge _ _) Hmax), Hal. cbn [al_msg negb].
  rewrite (kbind_Done _ _ _ _ _ Hr). unfold kbind, kgets. rewrite Hq. cbn [fst snd].
  unfold u64. by rewrite Z.mod_small by lia.
Qed.

(** Dropping a message of [n] bytes, when there are any. *)
Lemma msg_drop_run tx d (s : pchan hab_state) pl rest :
  rx_ready size tx d s (pl ++ rest) → zlen pl ≤ HAB_HEADER_SIZE_MAX →
  ∃ s', (if negb (zlen pl =? 0) then hab_msg_drop (λ _, d) size al (zlen pl) else kret tt) s = (Done tt, s') ∧
    rx_ready size tx d s' rest ∧ upper s' = upper s ∧ sequence_rx s' = sequence_rx s.
Proof using Hal.
  intros Hs Hmax. destruct (Z.eqb_spec (zlen pl) 0) as [Hz|Hnz]; cbn [negb].
  - exists s. assert (pl = []) as -> by (apply length_zero_iff_nil; unfold zlen in Hz; lia). done.
  - destruct (read_fresh_run tx d s pl rest Hs) as (s' & Hr & Hs'); [by apply max_size_small|].
    exists s'. split; [|done]. unfold hab_msg_drop. rewrite (proj2 (Z.ltb_ge _ _) Hmax), Hal. cbn [al_drop negb].
    by rewrite (kbind_Done _ _ _ _ _ Hr).
Qed.

Abbreviation recv d := (hab_msg_recv (λ _, d) size al now usec ticks mem_msg).

Lemma data_type_cases t : is_data_type t = true → t = 0 ∨ t = 11 ∨ t = 12.
Proof.
  unfold is_data_type, HAB_PAYLOAD_TYPE_MSG, HAB_PAYLOAD_TYPE_SCHE_RESULT_REQ, HAB_PAYLOAD_TYPE_SCHE_RESULT_RSP.
  rewrite !orb_true_iff, !Z.eqb_eq. tauto.
Qed.

(** The check that only logs. *)
Lemma dump_if_run (b : bool) (s : pchan hab_state) :
  ∃ s', (if b then kmodify dump_hab_wq else kret tt) s = (Done tt, s') ∧ same_chan s s' ∧ upper s' = upper s.
Proof. destruct b; by eexists. Qed.

(** The reference to the addressee of [h] that a handler works with. *)
Definition held (h : hab_header) (v : virtual_channel) (u : hab_state) : hab_state :=
  set_idr (<[HAB_VCID_GET_ID (HAB_HEADER_GET_ID h) := set_refcount (vc_refcount v + 1) v]> (vchan_idr u)) u.

Lemma try_get_data tx d (s : pchan hab_state) h pl rest ru :
  rx_ready size tx d s (pl ++ rest) → is_data_type (HAB_HEADER_GET_TYPE h) = true →
  zlen pl = payload_size h → payload_size h ≤ HAB_HEADER_SIZE_MAX →
  ∃ s', sequence_rx s' = sequence_rx s ∧
    match addressee h (upper s) with
    | Some v =>
        hab_try_get_vchan (λ _, d) size al ru h s = (Done (0, Some (HAB_VCID_GET_ID (HAB_HEADER_GET_ID h))), s') ∧
        rx_ready size tx d s' (pl ++ rest) ∧ upper s' = held h v (upper s)
    | None =>
        hab_try_get_vchan (λ _, d) size al ru h s = (Done (- EINVAL, None), s') ∧
        rx_ready size tx d s' rest ∧ upper s' = upper s
    end.
Proof using All.
  intros Hs Ht Hpl Hmax. unfold hab_try_get_vchan. rewrite <- Hpl in *.
  assert (is_open_type (HAB_HEADER_GET_TYPE h) = false ∧
          (HAB_HEADER_GET_TYPE h =? HAB_PAYLOAD_TYPE_UNIMPORT) = false) as [Ho Hun].
  { destruct (data_type_cases _ Ht) as [->|[-> | ->]]; done. }
  rewrite Ho, Hun. cbn [negb].
  set (b := _ || (session_id h =? 0)). destruct (dump_if_run b s) as (s1 & Hd & Hs1 & Hu1).
  pose proof (same_chan_ready _ _ _ _ _ Hs1 Hs) as Hrdy1. pose proof Hs1 as (_ & _ & Hq1).
  rewrite (kbind_Done _ _ _ _ _ Hd).
  pose proof (vchan_get_addressee h (upper s)) as Hget. cbv zeta in Hget.
  destruct (addressee h (upper s)) as [v|] eqn:Ea.
  - destruct (addressee_Some _ _ _ Ea) as (Hv & Hopen & Hrc).
    exists (set_upper (held h v (upper s)) s1). split; [done|].
    rewrite (kbind_Done (on_upper _) _ s1 (Some (HAB_VCID_GET_ID (HAB_HEADER_GET_ID h)))
      (set_upper (held h v (upper s)) s1)) by (unfold on_upper; by rewrite Hu1, Hget).
    unfold kbind at 1, kgets at 1. cbn [upper set_upper]. unfold held at 1. cbn [vchan_idr set_idr].
    rewrite lookup_insert_eq. cbn [fmap option_fmap option_map default otherend_closed set_refcount].
    unfold id. rewrite Hopen. done.
  - rewrite (kbind_Done (on_upper _) _ s1 None s1)
      by (unfold on_upper; rewrite Hu1, Hget; by rewrite <- Hu1; destruct s1).
    destruct (msg_drop_run tx d s1 pl rest Hrdy1) as (s2 & Hdrop & Hs2 & Hu2 & Hq2); [done|].
    exists s2. split; [congruence|]. rewrite (kbind_Done _ _ _ _ _ Hdrop). split; [done|]. split; congruence || done.
Qed.

Lemma recv_data tx d (s : pchan hab_state) h pl rest :
  rx_ready size tx d s (pl ++ rest) → is_data_type (HAB_HEADER_GET_TYPE h) = true →
  zlen pl = payload_size h → payload_size h ≤ HAB_HEADER_SIZE_MAX → sequence_rx s = sequence h →
  ∃ s', recv d h s = (Done tt, s') ∧ rx_ready size tx d s' rest ∧ upper s' = deliver now h pl (upper s) ∧
    sequence_rx s' = sequence_rx s.
Proof using All.
  intros Hs Ht Hpl Hmax Hseq. unfold deliver. rewrite Ht. unfold hab_msg_recv.
  destruct (try_get_data tx d s h pl rest
    (let* _ := mem_msg HAB_PAYLOAD_TYPE_UNIMPORT None h in kret tt) Hs Ht Hpl Hmax) as (s1 & Hq1 & Hget).
  destruct (addressee h (upper s)) as [v|] eqn:Ea.
  - destruct Hget as (Hget & Hs1 & Hu1). destruct (addressee_Some _ _ _ Ea) as (Hv & _ & Hrc).
    rewrite (kbind_Done _ _ _ _ _ Hget). cbn beta iota. rewrite Z.eqb_refl. rewrite bool_decide_false by done. cbn [negb orb andb].
    unfold is_data_type in Ht. rewrite Ht. rewrite <- Hpl in *.
    destruct (msg_alloc_run tx d s1 pl rest Hs1 Hmax) as (s2 & Hal2 & Hs2 & Hu2 & Hq2).
    unfold kbind at 1. rewrite (kbind_Done _ _ _ _ _ Hal2). cbn [queue_opt].
    eexists. split; [reflexivity|]. split; [by eapply same_chan_ready|].
    cbn [upper set_upper]. rewrite Hu2, Hu1, Hq1, Hseq. split; [by apply queue_put_restores|cbn; congruence].
  - destruct Hget as (Hget & Hs1 & Hu1). rewrite (kbind_Done _ _ _ _ _ Hget). by exists s1.
Qed.

Lemma recv_open tx d (s : pchan hab_state) h pl rest (t := HAB_HEADER_GET_TYPE h) :
  rx_ready size tx d s (pl ++ rest) →
  t = HAB_PAYLOAD_TYPE_INIT ∨ t = HAB_PAYLOAD_TYPE_INIT_ACK ∨ t = HAB_PAYLOAD_TYPE_INIT_DONE →
  zlen pl = payload_size h → payload_size h = sizeof_open_data →
  ∃ s', recv d h s = (Done tt, s') ∧ rx_ready size tx d s' rest ∧ upper s' = deliver now h pl (upper s) ∧
    sequence_rx s' = sequence_rx s.
Proof using All.
  intros Hs Ht Hpl Hn. unfold deliver, hab_msg_recv, hab_try_get_vchan. fold t.
  assert (is_data_type t = false ∧ is_open_type t = true ∧ (t =? HAB_PAYLOAD_TYPE_UNIMPORT) = false ∧
    ((t =? HAB_PAYLOAD_TYPE_INIT) || (t =? HAB_PAYLOAD_TYPE_INIT_ACK) || (t =? HAB_PAYLOAD_TYPE_INIT_DONE)) = true)
    as (Hd & Ho & Hun & Hin) by (destruct Ht as [->|[-> | ->]]; done).
  unfold is_data_type in Hd. unfold is_data_type. rewrite Ho, Hn, Z.eqb_refl. cbn [negb].
  rewrite (kbind_Done (kret (0, None)) _ s (0, None) s eq_refl). cbn beta iota.
  rewrite Hun, andb_false_r, Hd, Hin. cbn [negb orb Z.eqb].
  destruct (read_run tx d s (replicate (Z.to_nat sizeof_open_data) 0) pl rest Hs) as (s1 & Hr & Hs1 & Hu1 & Hq1);
    [by rewrite Hpl, Hn|by rewrite Hpl, Hn|].
  unfold hab_open_request_add. rewrite Hal. cbn [al_node negb]. unfold read_open_data.
  rewrite Hpl, Hn in Hr. unfold kbind at 1 2 3 4. rewrite Hr. cbn [fst snd]. rewrite Z.eqb_refl.
  eexists. split; [reflexivity|]. split; [by eapply same_chan_ready|].
  cbn [upper set_upper]. rewrite Hu1. done.
Qed.

(** The handler implements the channel's interface: it takes exactly the announced
    payload out of the ring, whether or not the message can be delivered. *)
#[local] Instance hab_msg_recv_consumes d : Consumes size d regular (recv d) (deliver now).
Proof using All.
  intros tx s h pl rest Hs Hh [[Ht Hmax]|[Ht Hn]] Hpl Hseq; [by apply recv_data|by apply recv_open].
Qed.

(** C16: messages arrive.  Let the two ends of an empty ring be linked.  Any list of data
    messages of legal size and open requests that fits into the ring is sent without
    error, and the dispatcher of the other side, whose allocations succeed, hands over
    exactly these messages in order, with the signature and consecutive sequence
    numbers: a data message is appended to the queue of the virtual channel with that
    id, if it has the same session, is paired, open on both sides and alive, and
    otherwise vanishes; an open request joins the open queue.  No other channel, queue or
    reference count changes, and afterwards the ring is empty and linked again. *)
Theorem hab_messages_arrive {U} (s : pchan U) (r : pchan hab_state) msgs sec usec' ticks' junk :
  linked size s r [] → Forall msg_ok msgs → Forall (λ m, regular m.1) msgs →
  zlen (concat (msg_bytes <$> msgs)) ≤ size → zlen junk = sizeof_hab_header →
  ∃ s' r', send_all size sec usec' ticks' msgs s = (Done (replicate (length msgs) 0), s') ∧
    shmem_physical_channel_rx_dispatch (S (length msgs)) (λ _, ring_bytes s') size (recv (ring_bytes s')) junk
      (sees_tx s' r) = (Done tt, r') ∧
    upper r' = foldl (λ u m, deliver now m.1 m.2 u) (upper r) (numbered (sequence_tx s) msgs) ∧
    linked size (sees_rx r' s') r' [].
Proof using All.
  intros Hl Hmsgs Hreg Hfit Hjunk.
  apply (messages_delivered size s r msgs sec usec' ticks' regular (λ d, recv d)); try done; [|apply _].
  eapply list.Forall_impl; [exact Hreg|]. by intros [h p] H n.
Qed.
End consume.

(** A ring of 256 bytes, a sender and a receiver with one paired channel, number 5. *)
Definition sample_ring : hab_shared_buf := mk_shared_buf 0 0 256 (replicate 256 0).
Definition sample_dev : qvm_channel := mk_qvm zero_endpoint sample_ring sample_ring (Some zero_dbg_items) [].
Definition sample_sender : pchan unit := mk_pchan (Some sample_dev) 41 0 (0, 0) false 0 0 tt.
Definition sample_vchan : virtual_channel := mk_vchan 0x101005 9 false false 77 1 [].
Definition sample_hab : hab_state := mk_hab 3 1 1 false 2 1 {[5 := sample_vchan]} [] 0.
Definition sample_receiver : pchan hab_state := mk_pchan (Some sample_dev) 0 41 (0, 0) false 0 0 sample_hab.

(** A message for channel 5, one for a channel that does not exist, and an open request. *)
Definition sample_msgs : list (hab_header * list Z) :=
  [(HAB_HEADER_SET_ID (mk_header 0 3 77 0 0) 5, [10; 11; 12]);
   (HAB_HEADER_SET_ID (mk_header 0 2 77 0 0) 6, [1; 2]);
   (open_header HAB_PAYLOAD_TYPE_INIT, open_data_le (mk_open_data 0x101007 2 8 1 1 1))].

Lemma sample_linked : linked 256 sample_sender sample_receiver [].
Proof.
  exists sample_dev, sample_dev, zero_dbg_items. do 3 (split; [done|]). split; [done|].
  split; [vm_compute; split; [discriminate|done]|]. split; [done|].
  constructor; try done; unfold zlen; simpl; lia.
Qed.

Lemma hab_messages_arrive_witness :
  let al := mk_allocs true false true true in
  let none := λ (_ : Z) (_ : option Z) (_ : hab_header), kret (S := pchan hab_state) 0 in
  ∃ s' r', send_all 256 0 0 0 sample_msgs sample_sender = (Done [0; 0; 0], s') ∧
    shmem_physical_channel_rx_dispatch 4 (λ _, ring_bytes s') 256
      (hab_msg_recv (λ _, ring_bytes s') 256 al 100 0 0 none) (replicate 20 0) (sees_tx s' sample_receiver) = (Done tt, r') ∧
    rx_list <$> vchan_idr (upper r') !! 5 = Some [mk_message 3 false 42 [10; 11; 12]] ∧
    openq_list (upper r') = [mk_open_node (mk_open_request HAB_PAYLOAD_TYPE_INIT (Some 3) (mk_open_data 0x101007 2 8 1 1 1)) 36100].
Proof.
  intros al none.
  destruct (hab_messages_arrive 256 al 100 0 0 none eq_refl sample_sender sample_receiver sample_msgs 0 0 0 (replicate 20 0))
    as (s' & r' & Hsend & Hrecv & Hup & _).
  - exact sample_linked.
  - repeat (apply Forall_cons_2; [split; [|split]|]); try apply Forall_nil_2; vm_compute; intuition discriminate.
  - apply Forall_cons_2; [left; split; [done|vm_compute; discriminate]|].
    apply Forall_cons_2; [left; split; [done|vm_compute; discriminate]|].
    apply Forall_cons_2; [right; split; [by left|done]|apply Forall_nil_2].
  - vm_compute. discriminate.
  - done.
  - exists s', r'. split; [exact Hsend|]. split; [exact Hrecv|]. rewrite Hup. split; vm_compute; done.
Defined.

(** ** Messages leave in order *)

(** [n] non-blocking receives with a buffer of [rsize] bytes. *)
Fixpoint dequeue_calls (n : nat) (rsize : Z) (v : virtual_channel) : list (Z * option hab_message) * virtual_channel :=
  match n with
  | O => ([], v)
  | S n =>
      let '(ret, m, _, v) := hab_msg_dequeue (λ _ _ v, (0, v)) rsize 0 HABMM_SOCKET_RECV_FLAGS_NON_BLOCKING v in
      let '(l, v) := dequeue_calls n rsize v in
      ((ret, m) :: l, v)
  end.

(** What a receive returns on an empty queue without waiting. *)
Definition idle_code (v : virtual_channel) : Z := if otherend_closed v then - ENODEV else - EAGAIN.

Lemma dequeue_now wait rsize timeout v :
  hab_msg_dequeue wait rsize timeout HABMM_SOCKET_RECV_FLAGS_NON_BLOCKING v =
    match rx_list v with
    | m :: l => if sizebytes m <=? rsize then (0, Some m, sizebytes m, set_rx_list l v)
                else (- EOVERFLOW, None, sizebytes m, v)
    | [] => (idle_code v, None, 0, v)
    end.
Proof. unfold idle_code. by destruct v as [? ? [|] ? ? ? [|m l]]. Qed.

Lemma dequeue_idle n rsize v :
  rx_list v = [] → dequeue_calls n rsize v = (replicate n (idle_code v, None), v).
Proof.
  intros Hv. induction n as [|n IH]; [done|]. cbn [dequeue_calls].
  rewrite dequeue_now, Hv, IH. done.
Qed.

(** no message is lost or reordered on the way out.  With a buffer that is large
    enough, [n] receives return the queued messages in order, each once, even when the
    other side has closed in between; only then do they report -ENODEV (closed) or
    -EAGAIN.  And a message that is too large for the buffer stays at the front of the
    queue, its size is reported, and a second call with that size gets it. *)
Theorem dequeue_in_order v rsize n wait timeout flags :
  Forall (λ m, sizebytes m ≤ rsize) (rx_list v) →
  dequeue_calls n rsize v =
    (((λ m, (0, Some m)) <$> take n (rx_list v)) ++ replicate (n - length (rx_list v)) (idle_code v, None),
     set_rx_list (drop n (rx_list v)) v) ∧
  (∀ m l small, rx_list v = m :: l → small < sizebytes m →
     hab_msg_dequeue wait small timeout flags v = (- EOVERFLOW, None, sizebytes m, v) ∧
     hab_msg_dequeue wait (sizebytes m) timeout flags v = (0, Some m, sizebytes m, set_rx_list l v)).
Proof.
  intros Hall. split.
  - revert v Hall. induction n as [|n IH]; intros v Hall; [by destruct v|].
    destruct (rx_list v) as [|m l] eqn:Hl.
    { rewrite dequeue_idle by done. cbn. rewrite <- Hl. by destruct v. }
    apply list.Forall_cons in Hall as [Hm Hall]. cbn [dequeue_calls].
    rewrite dequeue_now, Hl, (proj2 (Z.leb_le _ _) Hm), IH by done. done.
  - intros m l small Hl Hsmall. unfold hab_msg_dequeue, hab_rx_queue_empty. rewrite Hl, bool_decide_false by done.
    rewrite andb_false_r, Hl, (proj2 (Z.leb_gt _ _) Hsmall), Z.leb_refl. done.
Qed.

Lemma dequeue_in_order_witness :
  let m k := mk_message k false 1 (replicate (Z.to_nat k) 7) in
  let v := set_rx_list [m 2; m 3] (set_otherend_closed sample_vchan) in
  dequeue_calls 3 10 v = ([(0, Some (m 2)); (0, Some (m 3)); (- ENODEV, None)], set_rx_list [] v).
Proof.
  intros m v. destruct (dequeue_in_order v 10 3 (λ _ _ v, (0, v)) 0 0) as [-> _]; [|reflexivity].
  repeat (apply Forall_cons_2; [vm_compute; discriminate|]). apply Forall_nil_2.
Defined.

(** ** The open queue *)

Definition expired (now : Z) (node : hab_open_node) : bool := age node <? now.
Definition of_chan (me : Z) (node : hab_open_node) : bool := bool_decide (rq_pchan (request node) = Some me).

(** Number of elements with a property. *)
Definition tally {A} (f : A → bool) (l : list A) : Z := zlen (filter (λ x, f x = true) l).

Lemma tally_cons {A} (f : A → bool) x l : tally f (x :: l) = (if f x then 1 else 0) + tally f l.
Proof. unfold tally, zlen. rewrite filter_cons. destruct (f x); simpl; lia. Qed.

Lemma find_loop_none me now listen l :
  list_find (λ n, answers listen n = true) l = None →
  find_loop me now listen l =
    (None, filter (λ n, expired now n = false) l, tally (λ n, expired now n && of_chan me n) l).
Proof.
  induction l as [|node l IH]; intros Hf; [done|]. cbn [list_find] in Hf. cbn [find_loop].
  destruct (answers listen node); [by rewrite decide_True in Hf|]. rewrite decide_False in Hf by done.
  rewrite fmap_None in Hf. rewrite (IH Hf), filter_cons, tally_cons.
  cbv beta. change (expired now node && of_chan me node) with ((age node <? now) && of_chan me node).
  destruct (age node <? now) eqn:Eage; cbn [andb].
  - rewrite decide_False by (unfold expired; congruence). unfold of_chan. case_bool_decide; f_equal; lia.
  - by rewrite decide_True.
Qed.

Lemma find_loop_some me now listen l i node :
  list_find (λ n, answers listen n = true) l = Some (i, node) →
  find_loop me now listen l =
    (Some (request node), filter (λ n, expired now n = false) (take i l) ++ drop (S i) l,
     tally (λ n, expired now n && of_chan me n) (take i l)).
Proof.
  revert i. induction l as [|x l IH]; intros i Hf; [done|]. cbn [list_find] in Hf. cbn [find_loop].
  destruct (answers listen x); [rewrite decide_True in Hf by done; by simplify_eq|].
  rewrite decide_False in Hf by done. apply fmap_Some in Hf as ([j y] & Hf & [= -> ->]).
  cbn [take drop]. rewrite (IH j Hf), filter_cons, tally_cons.
  cbv beta. change (expired now x && of_chan me x) with ((age x <? now) && of_chan me x).
  destruct (age x <? now) eqn:Eage; cbn [andb].
  - rewrite decide_False by (unfold expired; congruence). unfold of_chan. case_bool_decide; f_equal; lia.
  - by rewrite decide_True.
Qed.

(** waiting for an open request.  Unless the context or the channel closes,
    [hab_open_request_find] takes out of the open queue the oldest request that answers
    (same type or a cancellation, same sub id, and the open id and channel when they
    are asked for); besides that one it removes exactly the expired requests before it
    (all expired ones when nothing answers), keeps the rest in order, and puts the
    references that the removed requests of this channel held.  The count follows the
    request that is returned, but not the expired ones. *)
Theorem open_request_find_oldest now listen old u :
  let q := openq_list u in
  let gone i := tally (λ n, expired now n && of_chan (self u) n) (take i q) in
  match list_find (λ n, answers listen n = true) q with
  | Some (i, node) =>
      hab_open_request_find false false now listen old u =
        (true, Some (request node),
         set_openq (filter (λ n, expired now n = false) (take i q) ++ drop (S i) q) (openq_cnt u - 1)
           (set_refs (pchan_refcount u - gone i) u))
  | None =>
      hab_open_request_find false false now listen old u =
        (false, old,
         set_openq (filter (λ n, expired now n = false) q) (openq_cnt u)
           (set_refs (pchan_refcount u - gone (length q)) u))
  end.
Proof.
  intros q gone. unfold hab_open_request_find. cbn [orb].
  destruct (list_find (λ n, answers listen n = true) q) as [[i node]|] eqn:Hf.
  - rewrite (find_loop_some _ _ _ _ _ _ Hf). done.
  - rewrite (find_loop_none _ _ _ _ Hf). unfold gone. by rewrite firstn_all.
Qed.

(** The count drifts when a request expires, and a cancelled request keeps its
    reference to the channel. *)
Example expired_request_stays_counted :
  let node := mk_open_node (mk_open_request HAB_PAYLOAD_TYPE_INIT (Some 3) (mk_open_data 1 2 3 0 0 0)) 50 in
  let u := set_openq [node] 1 sample_hab in
  let listen := mk_open_request HAB_PAYLOAD_TYPE_INIT None (mk_open_data 0 9 0 0 0 0) in
  let '(found, _, u') := hab_open_request_find false false 60 listen None u in
  found = false ∧ openq_list u' = [] ∧ openq_cnt u' = 1.
Proof. vm_compute. done. Qed.

(** The references to the channel: an open request takes one, and the cancellation of
    the request removes it without giving the reference back. *)
Example cancelled_request_keeps_reference :
  let al := mk_allocs true true true true in
  let x := mk_open_data 0x101007 2 8 1 1 1 in
  let none := λ (_ : Z) (_ : option Z) (_ : hab_header), kret (S := pchan hab_state) 0 in
  let msgs := [(open_header HAB_PAYLOAD_TYPE_INIT, open_data_le x);
               (open_header HAB_PAYLOAD_TYPE_INIT_CANCEL, open_data_le x)] in
  let s' := (send_all 256 0 0 0 msgs sample_sender).2 in
  let r' := (shmem_physical_channel_rx_dispatch 3 (λ _, ring_bytes s') 256
               (hab_msg_recv (λ _, ring_bytes s') 256 al 100 0 0 none) (replicate 20 0)
               (sees_tx s' sample_receiver)).2 in
  openq_list (upper r') = [] ∧ openq_cnt (upper r') = 0 ∧
  pchan_refcount (upper r') = pchan_refcount sample_hab + 1.
Proof. vm_compute. done. Qed.

(** ** The table of virtual channels *)

(** Every channel sits under the id that its number contains, is referenced, and is
    counted once in [vcnt] and once in the references of the physical channel. *)
Record vchans_ok (base : Z) (u : hab_state) : Prop := {
  vo_id k v : vchan_idr u !! k = Some v → HAB_VCID_GET_ID (vc_id v) = k ∧ 1 ≤ k ≤ 0xFFF ∧ 1 ≤ vc_refcount v;
  vo_count : vcnt u = Z.of_nat (size (vchan_idr u));
  vo_refs : pchan_refcount u = base + vcnt u
}.

Lemma vcid_id id dev dom :
  1 ≤ id ≤ 0xFFF →
  HAB_VCID_GET_ID (Z.lor (Z.lor (Z.land (Z.shiftl id HAB_VCID_ID_SHIFT) HAB_VCID_ID_MASK)
                               (Z.land (Z.shiftl dev HAB_VCID_MMID_SHIFT) HAB_VCID_MMID_MASK))
                        (Z.land (Z.shiftl dom HAB_VCID_DOMID_SHIFT) HAB_VCID_DOMID_MASK)) = id.
Proof.
  intros Hid. unfold HAB_VCID_GET_ID, HAB_VCID_ID_SHIFT, HAB_VCID_MMID_SHIFT, HAB_VCID_DOMID_SHIFT.
  rewrite vcid_mask_bits. change HAB_VCID_MMID_MASK with (Z.shiftl (Z.ones 12) 20).
  change HAB_VCID_DOMID_MASK with (Z.shiftl (Z.ones 8) 12).
  apply Z.bits_inj'. intros n Hn.
  repeat first [rewrite Z.land_spec | rewrite Z.lor_spec | rewrite mask_bit by lia
               | rewrite shr_bit by lia | rewrite shl_bit by lia].
  zcases; rewrite ?andb_false_r, ?andb_true_r, ?orb_false_r, ?orb_false_l; try (f_equal; lia).
  all: symmetry; apply (high_bit id 12); lia.
Qed.

(** Updating one channel without touching its number, and keeping it referenced. *)
Lemma vchans_ok_update base u k v v' :
  vchans_ok base u → vchan_idr u !! k = Some v → vc_id v' = vc_id v → 1 ≤ vc_refcount v' →
  vchans_ok base (set_idr (<[k := v']> (vchan_idr u)) u).
Proof.
  intros [Hid Hcnt Hrefs] Hk Hv' Hr. split; cbn [vchan_idr vcnt pchan_refcount set_idr]; [|by rewrite map_size_insert_Some|done].
  intros j w [[-> <-]|[_ Hw]]%lookup_insert_Some; [|by apply Hid].
  rewrite Hv'. destruct (Hid j v Hk) as (H1 & H2 & _). done.
Qed.

Inductive vop :=
  | VAlloc (alloc : bool) (openid : Z)
  | VGet (h : hab_header)
  | VPut (id : Z)
  | VQueue (id : Z) (m : hab_message)
  | VStop (id : Z)
  | VStopAll.

Definition vstep (idr_alloc : gmap Z virtual_channel → Z → Z → Z) (u : hab_state) (op : vop) : hab_state :=
  match op with
  | VAlloc alloc openid => (hab_vchan_alloc idr_alloc alloc openid u).2
  | VGet h => (hab_vchan_get h u).2
  | VPut id => hab_vchan_put id u
  | VQueue id m => hab_msg_queue id m u
  | VStop id => hab_vchan_stop id u
  | VStopAll => hab_vchans_stop u
  end.

Lemma vchans_ok_alter base u k f :
  (∀ v, vc_id (f v) = vc_id v ∧ vc_refcount (f v) = vc_refcount v) → vchans_ok base u →
  vchans_ok base (set_idr (alter f k (vchan_idr u)) u).
Proof.
  intros Hf Hok. destruct (vchan_idr u !! k) as [v|] eqn:Hk.
  - rewrite <- (insert_id (vchan_idr u) k v Hk) at 1. rewrite alter_insert_eq. destruct (Hf v) as [H1 H2].
    apply (vchans_ok_update base u k v); [done..|]. rewrite H2. by destruct (vo_id _ _ Hok k v Hk) as (_ & _ & ?).
  - rewrite alter_id'; [by destruct u|done].
Qed.

Lemma vchan_alloc_ok base idr_alloc alloc openid u :
  (∀ m lo hi, let id := idr_alloc m lo hi in id ≤ 0 ∨ lo ≤ id < hi ∧ m !! id = None) →
  vchans_ok base u → vchans_ok base (hab_vchan_alloc idr_alloc alloc openid u).2.
Proof.
  intros Hidr Hok. unfold hab_vchan_alloc. destruct alloc; cbn [negb]; [|done].
  destruct (Hidr (vchan_idr u) 1 (Z.shiftr HAB_VCID_ID_MASK HAB_VCID_ID_SHIFT + 1)) as [Hneg|[Hrange Hfree]].
  { by rewrite (proj2 (Z.leb_le _ _) Hneg). }
  set (id := idr_alloc _ _ _) in *. destruct (Z.leb_spec id 0); [lia|].
  change (Z.shiftr HAB_VCID_ID_MASK HAB_VCID_ID_SHIFT + 1) with 4096 in Hrange.
  destruct Hok as [Hid Hcnt Hrefs]. split; cbn; [|rewrite map_size_insert_None by done; lia|lia].
  intros k v [[<- <-]|[_ Hv]]%lookup_insert_Some; [|by apply Hid].
  split; [apply vcid_id; lia|]. cbn. lia.
Qed.

Lemma vchan_put_ok base id u : vchans_ok base u → vchans_ok base (hab_vchan_put id u).
Proof.
  intros Hok. unfold hab_vchan_put. destruct (vchan_idr u !! id) as [v|] eqn:Hv; [|done].
  destruct (vo_id _ _ Hok id v Hv) as (Hid & Hr & Hpos). cbn [vc_refcount set_refcount].
  destruct (Z.eqb_spec (vc_refcount v - 1) 0).
  - unfold hab_vchan_free. cbn. rewrite Hid, delete_insert_eq. destruct Hok as [Hids Hcnt Hrefs]. split; cbn.
    + intros k w [_ Hw]%lookup_delete_Some. by apply Hids.
    + rewrite map_size_delete_Some by (by exists v).
      assert (size (vchan_idr u) ≠ 0%nat); [|lia]. rewrite map_size_ne_0_lookup. eauto.
    + lia.
  - apply (vchans_ok_update base u id v); [done..|]. cbn. lia.
Qed.

(** the table of virtual channels stays consistent.  Through any sequence of
    allocations, lookups by a header, releases, deliveries and stops: a channel sits
    under the id contained in its number, between 1 and 4095, so that the final release
    clears its own slot and no other; it is referenced at least once while it is in the
    table; and [vcnt] and the references of the physical channel count exactly the
    channels.  [idr_alloc] is any allocator that returns a free id of the range or an
    error. *)
Theorem vchan_table_consistent base idr_alloc ops u :
  (∀ m lo hi, let id := idr_alloc m lo hi in id ≤ 0 ∨ lo ≤ id < hi ∧ m !! id = None) →
  vchans_ok base u → vchans_ok base (foldl (vstep idr_alloc) u ops).
Proof.
  intros Hidr. revert u. induction ops as [|op ops IH]; intros u Hok; [done|]. cbn [foldl]. apply IH.
  destruct op as [alloc openid|h|id|id m|id|]; cbn [vstep].
  - by apply vchan_alloc_ok.
  - rewrite vchan_get_addressee. destruct (addressee h u) as [v|] eqn:Ea; [|done].
    destruct (addressee_Some _ _ _ Ea) as (Hv & _). apply (vchans_ok_update base u _ v); [done..|].
    destruct (vo_id _ _ Hok _ _ Hv) as (_ & _ & ?). cbn. lia.
  - by apply vchan_put_ok.
  - by apply vchans_ok_alter.
  - by apply vchans_ok_alter.
  - destruct Hok as [Hid Hcnt Hrefs]. split; cbn; [|by rewrite map_size_fmap|done].
    intros k v. rewrite lookup_fmap. intros (w & Hw & ->)%fmap_Some. exact (Hid _ _ Hw).
Qed.

(** The smallest free id of a range. *)
Definition first_free (m : gmap Z virtual_channel) (lo hi : Z) : Z :=
  match list_find (λ k, m !! k = None) (seqZ lo (hi - lo)) with Some (_, k) => k | None => - ENOMEM end.

Lemma first_free_ok m lo hi : let id := first_free m lo hi in id ≤ 0 ∨ lo ≤ id < hi ∧ m !! id = None.
Proof.
  unfold first_free. destruct (list_find _ _) as [[i k]|] eqn:E; [|left; vm_compute; discriminate].
  apply list_find_Some in E as (Hk & Hfree & _). apply lookup_seqZ in Hk. right. split; [lia|done].
Qed.

Lemma vchan_table_witness :
  let empty := mk_hab 3 1 1 false 1 0 ∅ [] 0 in
  let ops := [VAlloc true 8; VAlloc true 9; VPut 1; VAlloc true 10; VStopAll; VPut 2] in
  vchans_ok 1 (foldl (vstep first_free) empty ops).
Proof.
  intros empty ops. apply vchan_table_consistent; [exact first_free_ok|]. by split.
Defined.
