(* ===== verification/HabMem.v ===== *)
(** * Sharing memory between virtual machines (hab_mimex.c, the handlers in hab_msg.c)

    One virtual machine exports pages under an id, the other imports them: it asks for the
    descriptor, maps the pages, and tells the exporter when it is done.  A side is the state
    of one virtual channel's context on one physical channel.  Messages are values with the
    header's size; sending appends to [outbox] with the return code given by [send_codes],
    allocations succeed as [allocs] says, and both default to success.  This file has the
    descriptors, the messages and the waiting; HabPages has the page tables and HabShare the
    calls of the users.  Reference counts of channels and descriptors and statistics are left
    out. *)

From S2P Require Import Prelude Memory HabMsg.

Definition PAGE_SIZE : Z := 4096.
Definition MAX_EXP_PAYLOAD_COUNT : Z := 0xFFFFF.
Definition Q_AGE_THRESHOLD : Z := 1000000.
Definition sizeof_export_desc : Z := 88.
Definition sizeof_compressed_pfns : Z := 16.
Definition sizeof_region : Z := 8.
Definition pfns_nregions : Z := 8.
Definition pfns_region : Z := 12.

Inductive exp_desc_state := EXP_DESC_INIT | EXP_DESC_IMPORTING | EXP_DESC_IMPORTED.
Inductive export_state := HAB_EXP_EXPORTING | HAB_EXP_SUCCESS.

#[export] Instance exp_desc_state_eq_dec : EqDecision exp_desc_state.
Proof. solve_decision. Defined.
#[export] Instance export_state_eq_dec : EqDecision export_state.
Proof. solve_decision. Defined.

(** The fixed part of a descriptor without its pointers, and the bytes behind it. *)
Record export_desc := mk_desc {
  export_id : Z;
  readonly : Z;
  vcid_local : Z;
  vcid_remote : Z;
  domid_local : Z;
  domid_remote : Z;
  payload_count : Z;
  payload : list Z;
}.

(** [e_ctx] and [e_pchan]: the pointers are set. *)
Record export_desc_super := mk_super {
  exp : export_desc;
  e_ctx : bool;
  e_pchan : bool;
  payload_size : Z;
  import_state : exp_desc_state;
  exp_state : export_state;
  remote_imported : bool;
}.

Record hab_export_ack := mk_eack { ea_id : Z; ea_local : Z; ea_remote : Z }.
Record hab_import_ack := mk_iack { ia_id : Z; ia_local : Z; ia_remote : Z; imp_whse_added : bool }.

(** Messages of the protocol; the sizes are those of the headers. *)
Inductive mem_message :=
  | MExport (size : Z) (d : export_desc)
  | MExportAck (size : Z) (a : hab_export_ack)
  | MImport (id cnt : Z)
  | MImportAck (size : Z) (d : export_desc)
  | MImportAckFail (id : Z)
  | MUnimport (id : Z).

Record side := mk_side {
  sd_id : Z;                                    (* vchan->id *)
  sd_other : Z;                                 (* vchan->otherend_id *)
  sd_closed : bool;                             (* vchan->otherend_closed *)
  vmid_local : Z;
  vmid_remote : Z;
  mem_proto : Z;
  expid_idr : gmap Z export_desc_super;
  exp_whse : list Z;
  export_total : Z;
  exp_rxq : list (hab_export_ack * Z);          (* with their ages *)
  imp_whse : gmap Z export_desc_super;
  import_total : Z;
  imp_rxq : list (hab_import_ack * Z);
  outbox : list mem_message;
  send_codes : list Z;
  allocs : list bool;
}.

Abbreviation MM := (KM side).

Definition mod_idr (f : gmap Z export_desc_super → gmap Z export_desc_super) (s : side) : side :=
  mk_side (sd_id s) (sd_other s) (sd_closed s) (vmid_local s) (vmid_remote s) (mem_proto s) (f (expid_idr s)) (exp_whse s)
    (export_total s) (exp_rxq s) (imp_whse s) (import_total s) (imp_rxq s) (outbox s) (send_codes s) (allocs s).
Definition set_exp_whse (l : list Z) (n : Z) (s : side) : side :=
  mk_side (sd_id s) (sd_other s) (sd_closed s) (vmid_local s) (vmid_remote s) (mem_proto s) (expid_idr s) l
    n (exp_rxq s) (imp_whse s) (import_total s) (imp_rxq s) (outbox s) (send_codes s) (allocs s).
Definition set_exp_rxq (l : list (hab_export_ack * Z)) (s : side) : side :=
  mk_side (sd_id s) (sd_other s) (sd_closed s) (vmid_local s) (vmid_remote s) (mem_proto s) (expid_idr s) (exp_whse s)
    (export_total s) l (imp_whse s) (import_total s) (imp_rxq s) (outbox s) (send_codes s) (allocs s).
Definition set_imp_whse (m : gmap Z export_desc_super) (n : Z) (s : side) : side :=
  mk_side (sd_id s) (sd_other s) (sd_closed s) (vmid_local s) (vmid_remote s) (mem_proto s) (expid_idr s) (exp_whse s)
    (export_total s) (exp_rxq s) m n (imp_rxq s) (outbox s) (send_codes s) (allocs s).
Definition set_imp_rxq (l : list (hab_import_ack * Z)) (s : side) : side :=
  mk_side (sd_id s) (sd_other s) (sd_closed s) (vmid_local s) (vmid_remote s) (mem_proto s) (expid_idr s) (exp_whse s)
    (export_total s) (exp_rxq s) (imp_whse s) (import_total s) l (outbox s) (send_codes s) (allocs s).
Definition set_io (o : list mem_message) (c : list Z) (a : list bool) (s : side) : side :=
  mk_side (sd_id s) (sd_other s) (sd_closed s) (vmid_local s) (vmid_remote s) (mem_proto s) (expid_idr s) (exp_whse s)
    (export_total s) (exp_rxq s) (imp_whse s) (import_total s) (imp_rxq s) o c a.

Definition set_import_state (st : exp_desc_state) (x : export_desc_super) : export_desc_super :=
  mk_super (exp x) (e_ctx x) (e_pchan x) (payload_size x) st (exp_state x) (remote_imported x).
Definition set_remote_imported (b : bool) (x : export_desc_super) : export_desc_super :=
  mk_super (exp x) (e_ctx x) (e_pchan x) (payload_size x) (import_state x) (exp_state x) b.
Definition set_success (x : export_desc_super) : export_desc_super :=
  mk_super (exp x) (e_ctx x) (e_pchan x) (payload_size x) (import_state x) HAB_EXP_SUCCESS (remote_imported x).
Definition set_ptrs (x : export_desc_super) : export_desc_super :=
  mk_super (exp x) true true (payload_size x) (import_state x) (exp_state x) (remote_imported x).
Definition with_payload (bs : list Z) (d : export_desc) : export_desc :=
  mk_desc (export_id d) (readonly d) (vcid_local d) (vcid_remote d) (domid_local d) (domid_remote d) (payload_count d) bs.
Definition set_ids (dl dr vl vr : Z) (d : export_desc) : export_desc :=
  mk_desc (export_id d) (readonly d) vl vr dl dr (payload_count d) (payload d).

Definition physical_channel_send (m : mem_message) : MM Z := λ s,
  let ret := default 0 (head (send_codes s)) in
  (Done ret, set_io (if ret =? 0 then outbox s ++ [m] else outbox s) (tail (send_codes s)) (allocs s) s).
Definition kzalloc : MM bool := λ s,
  (Done (default true (head (allocs s))), set_io (outbox s) (send_codes s) (tail (allocs s)) s).

(** ** Sending *)

Definition hab_send_import_ack_fail (id : Z) : MM Z := physical_channel_send (MImportAckFail id).

(** A message with the descriptor has one byte more than its table; reading past the memory of
    the descriptor is an error. *)
Definition send_desc (mk : Z → export_desc → mem_message) (size : Z) (d : export_desc) : MM Z :=
  match subrange 0 (size + 1) (payload d) with
  | None => kfail Undef
  | Some bs => physical_channel_send (mk (u32 (sizeof_export_desc + 1 + size)) (with_payload bs d))
  end.

Definition hab_send_import_ack (x : export_desc_super) : MM Z :=
  let* ret := send_desc MImportAck (payload_size x) (exp x) in
  kmodify (mod_idr (alter set_ptrs (export_id (exp x)))) ;;;
  kret ret.

Definition hab_send_export_ack (d : export_desc) : MM Z :=
  physical_channel_send (MExportAck 12 (mk_eack (export_id d) (vcid_local d) (vcid_remote d))).

Definition hab_send_unimport_msg (id : Z) : MM unit := let* _ := physical_channel_send (MUnimport id) in kret tt.

(** ** Receiving *)

(** The warehouse is a search tree on the id (and the physical channel, which is fixed here). *)
Definition hab_export_enqueue (x : export_desc_super) : MM Z :=
  let* w := kgets imp_whse in
  match w !! export_id (exp x) with
  | Some _ => kret (- EINVAL)
  | None => kmodify (λ s, set_imp_whse (<[export_id (exp x) := x]> w) (import_total s + 1) s) ;;; kret 0
  end.

Definition queue_imp_ack (a : hab_import_ack) : MM unit := kmodify (λ s, set_imp_rxq (imp_rxq s ++ [(a, 0)]) s).

Definition hab_create_invalid_ack (id : Z) : MM unit :=
  let* ok := kzalloc in
  if negb ok then kret tt
  else let* s := kget in queue_imp_ack (mk_iack id (sd_id s) (sd_other s) false).

Definition hab_receive_import_ack_fail (id : Z) : MM Z :=
  let* ok := kzalloc in
  if negb ok then kret (- ENOMEM)
  else let* s := kget in queue_imp_ack (mk_iack id (sd_id s) (sd_other s) false) ;;; kret 0.

Definition hab_receive_create_export_ack (size : Z) (a : hab_export_ack) : MM Z :=
  let* ok := kzalloc in
  if negb ok then kret (- ENOMEM)
  else if 12 <? size then kret (- EINVAL)
  else if size =? 12 then kmodify (λ s, set_exp_rxq (exp_rxq s ++ [(a, 0)]) s) ;;; kret 0
  else kret (- EINVAL).

(** [err_imp]. *)
Definition refuse_desc (id ret : Z) : MM Z :=
  let* proto := kgets mem_proto in
  (if proto =? 1 then hab_create_invalid_ack id ;;; hab_send_unimport_msg id else kret tt) ;;;
  kret ret.

Definition exp_desc_min : Z := sizeof_export_desc + 1 + sizeof_compressed_pfns.

(** The numbers as this side sees them. *)
Definition local_ids (s : side) (d : export_desc) : export_desc :=
  if mem_proto s =? 1 then set_ids (vmid_local s) (vmid_remote s) (sd_id s) (vcid_local d) d
  else set_ids (vmid_local s) (vmid_remote s) (vcid_local d) (vcid_remote d) d.

Definition hab_receive_export_desc (size : Z) (d : export_desc) : MM Z :=
  if (HAB_HEADER_SIZE_MAX <? size) || (size <? exp_desc_min) then kret (- EINVAL)
  else
    let* ok := kzalloc in
    if negb ok then kret (- ENOMEM)
    else if negb (size =? sizeof_export_desc + zlen (payload d)) then kret (- EIO)
    else
      let* s := kget in
      if negb (sd_id s =? vcid_remote d) then refuse_desc (export_id d) (- EINVAL)
      else
        let d := local_ids s d in
        match read_le 4 (payload d) pfns_nregions with
        | None => kfail Undef
        | Some z =>
            let nregions := s32 z in
            if nregions <=? 0 then refuse_desc (export_id d) (- EINVAL)
            else if payload_count d <? nregions then refuse_desc (export_id d) (- EINVAL)
            else if MAX_EXP_PAYLOAD_COUNT <? payload_count d then refuse_desc (export_id d) (- EINVAL)
            else if negb (size =? exp_desc_min + nregions * sizeof_region) then refuse_desc (export_id d) (- EINVAL)
            else
              let* ok := (if mem_proto s =? 1 then kzalloc else kret true) in
              if negb ok then refuse_desc (export_id d) (- ENOMEM)
              else
                let* ret := hab_export_enqueue (mk_super d false true 0 EXP_DESC_INIT HAB_EXP_EXPORTING false) in
                (if mem_proto s =? 1
                 then queue_imp_ack (mk_iack (export_id d) (vcid_local d) (vcid_remote d) (ret =? 0))
                 else let* _ := hab_send_export_ack d in kret tt) ;;;
                kret ret
        end.

Definition hab_recv_imp_req (id cnt : Z) : MM unit :=
  let* s := kget in
  match expid_idr s !! id with
  | Some x =>
      if (cnt =? u32 (payload_count (exp x))) && (sd_id s =? vcid_local (exp x)) && bool_decide (exp_state x = HAB_EXP_SUCCESS) then
        kmodify (mod_idr (alter (set_remote_imported true) id)) ;;;
        let* _ := hab_send_import_ack x in kret tt
      else let* _ := hab_send_import_ack_fail id in kret tt
  | None => let* _ := hab_send_import_ack_fail id in kret tt
  end.

Definition hab_recv_unimport_msg (id : Z) : MM unit :=
  let* s := kget in
  match expid_idr s !! id with
  | Some x =>
      if (id =? export_id (exp x)) && e_pchan x
      then kmodify (mod_idr (alter (set_remote_imported false) id)) else kret tt
  | None => kret tt
  end.

(** The part of the switch in [hab_msg_recv] for these messages. *)
Definition mem_msg_recv (m : mem_message) : MM Z :=
  match m with
  | MExport size d => hab_receive_export_desc size d
  | MExportAck size a => hab_receive_create_export_ack size a
  | MImport id cnt => hab_recv_imp_req id cnt ;;; kret 0
  | MImportAck size d => hab_receive_export_desc size d
  | MImportAckFail id => hab_receive_import_ack_fail id
  | MUnimport id => hab_recv_unimport_msg id ;;; kret 0
  end.

(** ** Waiting for acknowledgements *)

Definition same_iack (a b : hab_import_ack) : bool := (ia_id a =? ia_id b) && (ia_local a =? ia_local b) && (ia_remote a =? ia_remote b).
Definition same_eack (a b : hab_export_ack) : bool := (ea_id a =? ea_id b) && (ea_local a =? ea_local b) && (ea_remote a =? ea_remote b).

(** Take the first match out of the queue; the others before it age, and expire. *)
Fixpoint take_ack {A} (matches : A → bool) (q : list (A * Z)) : option A * list (A * Z) :=
  match q with
  | [] => (None, [])
  | (a, age) :: q =>
      if matches a then (Some a, q)
      else
        let '(r, q) := take_ack matches q in
        (r, if Q_AGE_THRESHOLD <? age + 1 then q else (a, age + 1) :: q)
  end.

(** [Some added] ends the wait; a closed channel ends it with the flag untouched (0). *)
Definition hab_import_ack_find (a : hab_import_ack) : MM (option bool) :=
  let* s := kget in
  let '(r, q) := take_ack (same_iack a) (imp_rxq s) in
  kmodify (set_imp_rxq q) ;;;
  kret (match r with
        | Some b => Some (imp_whse_added b)
        | None => if sd_closed s then Some false else None
        end).

Definition hab_export_ack_find (a : hab_export_ack) : MM (option unit) :=
  let* s := kget in
  let '(r, q) := take_ack (λ b, same_eack a b || sd_closed s) (exp_rxq s) in
  kmodify (set_exp_rxq q) ;;;
  kret (match r with Some _ => Some tt | None => None end).

(** Sleep until the condition holds; the timeout strikes when nothing more happens. *)
Fixpoint wait_timeout {R} (env : list (side → side)) (cond : MM (option R)) : MM (option R) :=
  let* r := cond in
  match r with
  | Some _ => kret r
  | None => match env with [] => kret None | e :: env => kmodify e ;;; wait_timeout env cond end
  end.

Definition wait_result {R} (r : option R) : MM Z :=
  let* closed := kgets sd_closed in
  kret (match r with None => - EAGAIN | Some _ => if closed then - ENODEV else 0 end).

(** The code, and the flag of the acknowledgement. *)
Definition hab_import_ack_wait (env : list (side → side)) (a : hab_import_ack) : MM (Z * bool) :=
  let* r := wait_timeout env (hab_import_ack_find a) in
  let* ret := wait_result r in kret (ret, default false r).

Definition hab_export_ack_wait (env : list (side → side)) (a : hab_export_ack) : MM Z :=
  let* r := wait_timeout env (hab_export_ack_find a) in wait_result r.
