(* ===== verification/HabPages.v ===== *)
(** * Page tables of shared memory (hab_mem_linux.c)

    The exporter writes the page frames of a buffer into its descriptor as runs of consecutive
    pages ([habmem_compress_pfns]); the importer rebuilds the list from the bytes it received
    ([pages_list_create]).  Both work on raw memory, here a list of bytes in which an access out
    of bounds is [None].  The kernel's own checks of a frame number ([pfn_valid], [page_is_ram])
    are one function, an argument. *)

From S2P Require Import Prelude Memory HabMsg HabMem.

Definition EBADF : Z := 9.
Definition PAGE_SHIFT : Z := 12.
Definition sizeof_super : Z := 152.
Definition u64 (z : Z) : Z := z mod 2 ^ 64.

(** ** The table in memory *)

Definition store_le (n : nat) (off v : Z) (m : list Z) : option (list Z) :=
  if bool_decide (0 ≤ off ∧ off + Z.of_nat n ≤ zlen m) then Some (put off (le_encode n v) m) else None.

Definition region_off (j : Z) : Z := pfns_region + j * sizeof_region.
Definition set_size (j v : Z) : list Z → option (list Z) := store_le 4 (region_off j) v.
Definition set_space (j v : Z) : list Z → option (list Z) := store_le 4 (region_off j + 4) v.
Definition get_size (j : Z) (m : list Z) : option Z := s32 <$> read_le 4 m (region_off j).
Definition get_space (j : Z) (m : list Z) : option Z := s32 <$> read_le 4 m (region_off j + 4).

(** A buffer: pages this driver listed itself, or the scatter list (first frame and length of
    each entry) of another driver's buffer, [None] when it cannot be attached. *)
Inductive dma_buf :=
  | own_buf (pages : list Z)
  | foreign_buf (size : Z) (sgl : option (list (Z * Z))).

Definition buf_size (b : dma_buf) : Z :=
  match b with own_buf pages => Z.shiftl (zlen pages) PAGE_SHIFT | foreign_buf size _ => size end.

(** ** The exporter *)

(** The loop over [pages], from the second one; [prev] is the page before. *)
Fixpoint compress_pages (prev : Z) (pages : list Z) (j region_size : Z) (m : list Z) : option (Z * list Z) :=
  match pages with
  | [] =>
      m ← set_size j region_size m;
      m ← set_space j 0 m;
      m ← store_le 4 pfns_nregions (j + 1) m;
      Some (j + 1, m)
  | p :: pages =>
      if u64 (p - 1) =? prev then compress_pages p pages j (region_size + 1) m
      else
        m ← set_size j region_size m;
        m ← set_space j (p - prev - 1) m;
        compress_pages p pages (j + 1) 1 m
  end.

(** The loop over the scatter list; [pre] is the last page of the region before. *)
Fixpoint compress_sg (sgl : list (Z * Z)) (page_offset page_count j pre : Z) (m : list Z) : option (Z * list Z) :=
  match sgl with
  | [] => m ← store_le 4 pfns_nregions (j + 1) m; Some (j + 1, m)
  | (pfn, len) :: sgl =>
      let spage_size := Z.shiftr len PAGE_SHIFT in
      if spage_size <=? page_offset then compress_sg sgl (page_offset - spage_size) page_count j pre m
      else
        m ← (if j =? 0 then store_le 8 0 (pfn + page_offset) m else set_space (j - 1) (pfn - pre - 1) m);
        let size := spage_size - page_offset in
        m ← set_size j size m;
        if page_count <=? size then
          m ← set_size j page_count m;
          m ← set_space j 0 m;
          m ← store_le 4 pfns_nregions (j + 1) m;
          Some (j + 1, m)
        else compress_sg sgl 0 (page_count - size) (j + 1) (pfn + (size - 1)) m
  end.

(** The error code, or the size of the table and the memory with it. *)
Definition habmem_compress_pfns (b : dma_buf) (offset page_count : Z) (m : list Z) : option (Z + Z * list Z) :=
  if buf_size b <? page_count * PAGE_SIZE then Some (inl (- EINVAL))
  else
    let finish (r : option (Z * list Z)) :=
      '(n, m) ← r; Some (inr (u32 (sizeof_compressed_pfns + sizeof_region * n), m)) in
    match b with
    | foreign_buf _ None => Some (inl (- EBADF))
    | foreign_buf _ (Some sgl) => finish (compress_sg sgl (Z.shiftr offset PAGE_SHIFT) page_count 0 0 m)
    | own_buf pages =>
        match take (Z.to_nat page_count) pages with
        | [] => None
        | p :: rest => finish (m ← store_le 8 0 p m; compress_pages p rest 0 1 m)
        end
    end.

(** ** The importer *)

Fixpoint build_pages (n : nat) (i pfn total count : Z) (pages tbl : list Z) : option (Z + list Z) :=
  match n with
  | O => Some (if total =? count then inr pages else inl (- EINVAL))
  | S n =>
      size ← get_size i tbl;
      if size <=? 0 then Some (inl (- EINVAL))
      else
        let total := total + size in
        if count <? total then Some (inl (- EINVAL))
        else if count <? zlen pages + size then None
        else
          space ← get_space i tbl;
          build_pages n (i + 1) (u64 (pfn + s32 (size + space))) total count
            (pages ++ (u64 <$> seqZ pfn size)) tbl
  end.

(** [ok] is the outcome of the two allocations. *)
Definition pages_list_create (pfn_ok : Z → bool) (ok : bool) (d : export_desc) : option (Z + list Z) :=
  pfn ← read_le 8 (payload d) 0;
  if negb (pfn_ok pfn) then Some (inl (- EINVAL))
  else if negb ok then Some (inl (- ENOMEM))
  else
    n ← s32 <$> read_le 4 (payload d) pfns_nregions;
    build_pages (Z.to_nat n) 0 pfn 0 (payload_count d) [] (payload d).

(** ** The table as a list of regions *)

Definition enc_region (r : Z * Z) : list Z := le_encode 4 r.1 ++ le_encode 4 r.2.
Definition enc_regions (rs : list (Z * Z)) : list Z := concat (enc_region <$> rs).

(** What the importer makes of a table. *)
Fixpoint expand (pfn : Z) (rs : list (Z * Z)) : list Z :=
  match rs with
  | [] => []
  | (size, space) :: rs => seqZ pfn size ++ expand (pfn + (size + space)) rs
  end.

Fixpoint sizes (rs : list (Z * Z)) : Z := match rs with [] => 0 | r :: rs => r.1 + sizes rs end.

Definition frame (p : Z) : Prop := 0 ≤ p < 2 ^ 31 - 1.

(** Every region is not empty and stays among the frame numbers. *)
Fixpoint regions_ok (pfn : Z) (rs : list (Z * Z)) : Prop :=
  match rs with
  | [] => True
  | (size, space) :: rs =>
      frame pfn ∧ 0 < size < 2 ^ 31 ∧ - 2 ^ 31 ≤ space < 2 ^ 31 ∧ - 2 ^ 31 ≤ size + space < 2 ^ 31 ∧
      (rs ≠ [] → 0 ≤ pfn + (size + space)) ∧ pfn + size ≤ 2 ^ 31 ∧ regions_ok (pfn + (size + space)) rs
  end.

Lemma zlen_enc_regions rs : zlen (enc_regions rs) = sizeof_region * zlen rs.
Proof.
  induction rs as [|[a b] rs IH]; [done|]. unfold enc_regions in *. cbn [fmap list_fmap concat].
  rewrite zlen_app, IH. unfold enc_region, sizeof_region, zlen. rewrite length_app, !length_le_encode. cbn [length]. lia.
Qed.

Lemma has_read_le n z m off : has m off (le_encode n z) → read_le (Z.of_nat n) m off = Some (z mod 2 ^ (8 * Z.of_nat n)).
Proof.
  unfold has, read_le, zlen. rewrite length_le_encode. intros ->. cbn. by rewrite le_decode_encode.
Qed.

Lemma build_pages_run tbl count rs i pfn total pages :
  has tbl (region_off i) (enc_regions rs) → regions_ok pfn rs → zlen pages = total → total + sizes rs = count →
  build_pages (length rs) i pfn total count pages tbl = Some (inr (pages ++ expand pfn rs)).
Proof.
  revert i pfn total pages. induction rs as [|[size space] rs IH]; intros i pfn total pages Hh Hok Hl Hc;
    cbn [length build_pages expand sizes fst] in *.
  { rewrite app_nil_r, (proj2 (Z.eqb_eq total count)) by lia. done. }
  destruct Hok as (Hf & Hs & Hsp & Hsum & Hne & Hend & Hok).
  assert (0 ≤ sizes rs) as Hsz.
  { clear -Hok. revert Hok. generalize (pfn + (size + space)). clear.
    induction rs as [|[a b] rs IH]; intros p H; cbn in *; [lia|]. destruct H as (_ & ? & _ & _ & _ & _ & H).
    specialize (IH _ H). lia. }
  apply (has_app _ _ (enc_region (size, space)) (enc_regions rs)) in Hh as [Hr Hh].
  apply has_app in Hr as [H1 H2]. cbn [fst snd] in *. change (zlen (le_encode 4 _)) with 4 in H2.
  unfold get_size, get_space. rewrite (has_read_le 4 size _ _ H1 : read_le 4 _ _ = _), (has_read_le 4 space _ _ H2 : read_le 4 _ _ = _).
  cbn [fmap option_fmap option_map mbind option_bind]. change (2 ^ (8 * Z.of_nat 4)) with (2 ^ 32). rewrite !s32_mod by lia.
  destruct (Z.leb_spec size 0); [lia|]. destruct (Z.ltb_spec count (total + size)); [lia|].
  destruct (Z.ltb_spec count (zlen pages + size)); [lia|]. rewrite (s32_small (size + space)) by lia.
  assert (u64 <$> seqZ pfn size = seqZ pfn size) as ->.
  { rewrite <- (list_fmap_id (seqZ pfn size)) at 2. apply list_fmap_ext. intros k x Hx%lookup_seqZ.
    unfold id, u64. unfold frame in Hf. rewrite Z.mod_small; lia. }
  destruct rs as [|r rs].
  { cbn [length build_pages expand sizes] in *. rewrite app_nil_r.
    rewrite (proj2 (Z.eqb_eq (total + size) count)) by lia. done. }
  assert (frame (pfn + (size + space))) as Hf'.
  { destruct r as [a b]. destruct Hok as (Hf' & _). done. }
  replace (u64 (pfn + (size + space))) with (pfn + (size + space)) by (unfold u64, frame in *; rewrite Z.mod_small; lia).
  rewrite IH, <- app_assoc; [done| |done| |lia].
  - unfold region_off in *. replace (pfns_region + (i + 1) * sizeof_region) with (pfns_region + i * sizeof_region + zlen (enc_region (size, space))); [done|].
    unfold sizeof_region. change (zlen (enc_region (size, space))) with 8. lia.
  - rewrite zlen_app. unfold zlen at 2. rewrite length_seqZ. lia.
Qed.

Definition enc_table (first : Z) (rs : list (Z * Z)) : list Z :=
  le_encode 8 first ++ le_encode 4 (zlen rs) ++ enc_regions rs.

Lemma create_from_table pfn_ok first rs tail d :
  payload d = enc_table first rs ++ tail → payload_count d = sizes rs → regions_ok first rs → frame first →
  zlen rs < 2 ^ 31 → pfn_ok first = true →
  pages_list_create pfn_ok true d = Some (inr (expand first rs)).
Proof.
  intros Hp Hc Hok Hf Hn Hpf. unfold pages_list_create. pose proof (zlen_nonneg rs).
  assert (has (payload d) 0 (enc_table first rs)) as Hh by (apply has_split; exists [], tail; by rewrite Hp).
  apply has_app in Hh as [H1 [H2 H3]%has_app].
  change (0 + zlen (le_encode 8 first)) with pfns_nregions in *. change (pfns_nregions + zlen (le_encode 4 (zlen rs))) with (region_off 0) in *.
  rewrite (has_read_le 8 first _ _ H1 : read_le 8 _ _ = _), (has_read_le 4 _ _ _ H2 : read_le 4 _ _ = _).
  unfold frame in Hf. cbn [fmap option_fmap option_map mbind option_bind].
  rewrite (Z.mod_small first) by (change (2 ^ (8 * Z.of_nat 8)) with (2 ^ 64); lia).
  rewrite Hpf. cbn [negb]. change (2 ^ (8 * Z.of_nat 4)) with (2 ^ 32). rewrite s32_mod by lia.
  unfold zlen at 1. rewrite Nat2Z.id. by apply (build_pages_run _ _ rs 0 first 0 []).
Qed.

(** ** What the exporter writes *)

Lemma store_run n off v m : 0 ≤ off → off + Z.of_nat n ≤ zlen m → store_le n off v m = Some (put off (le_encode n v) m).
Proof. intros H1 H2. unfold store_le. by rewrite bool_decide_true. Qed.

(** The regions of a list of pages, with [size] pages up to [prev] already in the first. *)
Fixpoint page_regions (prev : Z) (pages : list Z) (size : Z) : list (Z * Z) :=
  match pages with
  | [] => [(size, 0)]
  | p :: pages => if p - 1 =? prev then page_regions p pages (size + 1) else (size, p - prev - 1) :: page_regions p pages 1
  end.

(** The regions of a list of runs (first frame and length). *)
Fixpoint run_regions (runs : list (Z * Z)) : list (Z * Z) :=
  match runs with
  | [] => []
  | (pfn, n) :: runs =>
      (n, match runs with [] => 0 | (next, _) :: _ => next - (pfn + (n - 1)) - 1 end) :: run_regions runs
  end.

Definition run_pages (runs : list (Z * Z)) : list Z := concat ((λ r, seqZ r.1 r.2) <$> runs).

Lemma page_regions_ne prev pages size : page_regions prev pages size ≠ [].
Proof. revert prev size; induction pages as [|p ps IH]; intros prev size; cbn; [done|]. by destruct (_ =? _). Qed.

Lemma expand_page_regions prev pages size :
  0 < size → expand (prev - size + 1) (page_regions prev pages size) = seqZ (prev - size + 1) size ++ pages.
Proof.
  revert prev size; induction pages as [|p ps IH]; intros prev size Hs; cbn [page_regions].
  { cbn. done. }
  destruct (Z.eqb_spec (p - 1) prev) as [<-|Hne].
  - replace (p - 1 - size + 1) with (p - (size + 1) + 1) by lia. rewrite IH by lia.
    rewrite (seqZ_app _ size 1), <- app_assoc by lia. replace (p - (size + 1) + 1 + size) with p by lia. by rewrite seqZ_cons by lia.
  - cbn [expand]. replace (prev - size + 1 + (size + (p - prev - 1))) with (p - 1 + 1) by lia.
    rewrite IH, (seqZ_cons (p - 1 + 1)) by lia. replace (p - 1 + 1) with p by lia. done.
Qed.

Lemma sizes_page_regions prev pages size : sizes (page_regions prev pages size) = size + zlen pages.
Proof.
  unfold zlen. revert prev size; induction pages as [|p ps IH]; intros prev size; cbn [page_regions length]; [cbn; lia|].
  destruct (_ =? _); cbn [sizes fst]; rewrite IH; lia.
Qed.

Lemma zlen_page_regions prev pages size : 1 ≤ zlen (page_regions prev pages size) ≤ 1 + zlen pages.
Proof.
  unfold zlen. revert prev size; induction pages as [|p ps IH]; intros prev size; cbn [page_regions length]; [cbn; lia|].
  specialize (IH p). destruct (_ =? _); [specialize (IH (size + 1))|specialize (IH 1)]; cbn [length]; lia.
Qed.

Lemma page_regions_ok prev pages size :
  0 < size → frame (prev - size + 1) → Forall frame (prev :: pages) → regions_ok (prev - size + 1) (page_regions prev pages size).
Proof.
  unfold frame. revert prev size; induction pages as [|p ps IH]; intros prev size Hs Hf Hp; cbn [page_regions regions_ok].
  { apply list.Forall_cons in Hp as [Hp _]. cbn; split_and!; (lia || done || (intros; lia)). }
  apply list.Forall_cons in Hp as [Hprev Hp]. pose proof (Forall_inv Hp) as Hp1. cbv beta in Hp1.
  destruct (Z.eqb_spec (p - 1) prev) as [<-|Hne].
  - replace (p - 1 - size + 1) with (p - (size + 1) + 1) in * by lia. apply IH; [lia|done|done].
  - cbn [regions_ok]. split_and!; try (unfold frame; lia); try (intros _; lia).
    + replace (prev - size + 1 + (size + (p - prev - 1))) with (p - 1 + 1) by lia. apply IH; [lia|lia|done].
Qed.

(** Stores stay inside the memory. *)
Ltac room := unfold region_off, pfns_region, sizeof_region, pfns_nregions in *;
  let rec go := first [rewrite zlen_put; [go|go|go] | rewrite ?zlen_app, ?zlen_le; lia] in go.

Lemma put_region j a b bs m :
  0 ≤ j → region_off (j + 1) + zlen bs ≤ zlen m →
  put (region_off (j + 1)) bs (put (region_off j + 4) (le_encode 4 b) (put (region_off j) (le_encode 4 a) m)) =
  put (region_off j) (enc_region (a, b) ++ bs) m.
Proof.
  intros Hj Hl. pose proof (zlen_nonneg bs). rewrite (put_next (region_off j)) by room.
  change (le_encode 4 a ++ le_encode 4 b) with (enc_region (a, b)).
  assert (zlen (enc_region (a, b)) = 8) as Hz by done. rewrite (put_next (region_off j)); [done|room..].
Qed.

Lemma compress_pages_run prev pages j size m (rs := page_regions prev pages size) :
  0 ≤ j → Forall frame (prev :: pages) → region_off (j + zlen rs) ≤ zlen m →
  compress_pages prev pages j size m =
  Some (j + zlen rs, put pfns_nregions (le_encode 4 (j + zlen rs)) (put (region_off j) (enc_regions rs) m)).
Proof.
  subst rs. unfold frame. revert prev j size m.
  induction pages as [|p ps IH]; intros prev j size m Hj Hf Hm; cbn [compress_pages page_regions] in *.
  - unfold set_size, set_space, region_off, pfns_region, sizeof_region, pfns_nregions in *.
    change (zlen [(size, 0)]) with 1 in *. rewrite store_run by lia. cbn [mbind option_bind].
    rewrite store_run by room. cbn [mbind option_bind].
    rewrite store_run by room. cbn [mbind option_bind].
    rewrite (put_next (12 + j * 8)) by room. done.
  - apply list.Forall_cons in Hf as [Hprev Hf]. pose proof (Forall_inv Hf) as Hp. cbv beta in Hp.
    assert ((u64 (p - 1) =? prev) = (p - 1 =? prev)) as ->.
    { apply eq_iff_eq_true. rewrite !Z.eqb_eq. unfold u64. destruct (decide (p = 0)) as [->|].
      - change ((0 - 1) mod 2 ^ 64) with (2 ^ 64 - 1). lia.
      - by rewrite Z.mod_small by lia. }
    destruct (p - 1 =? prev); [by apply IH|].
    pose proof (zlen_page_regions p ps 1) as Hz. pose proof (zlen_enc_regions (page_regions p ps 1)) as Hze.
    set (rs := page_regions p ps 1) in *.
    assert (zlen ((size, p - prev - 1) :: rs) = 1 + zlen rs) as Hc by (unfold zlen; cbn [length]; lia). rewrite Hc in *.
    assert (region_off (j + 1) + zlen (enc_regions rs) ≤ zlen m) as Hroom.
    { rewrite Hze. unfold region_off, pfns_region, sizeof_region in *. lia. }
    unfold set_size, set_space. rewrite store_run; [|room..].
    cbn [mbind option_bind]. rewrite store_run; [|room..].
    cbn [mbind option_bind]. rewrite IH; [|lia|done|].
    + fold rs. rewrite (put_region j size (p - prev - 1) (enc_regions rs) m Hj Hroom). by rewrite <- Z.add_assoc.
    + fold rs. room.
Qed.

(** The table, once the first frame is in front of it. *)
Lemma table_written first rs n m :
  zlen rs = n → region_off n ≤ zlen m →
  put pfns_nregions (le_encode 4 n) (put (region_off 0) (enc_regions rs) (put 0 (le_encode 8 first) m)) =
  put 0 (enc_table first rs) m.
Proof.
  intros <- Hm. pose proof (zlen_nonneg rs). pose proof (zlen_enc_regions rs) as Hz. unfold enc_table.
  unfold region_off, pfns_region, sizeof_region, pfns_nregions in *.
  rewrite (put_prev 8) by room.
  rewrite (put_next 0) by room. done.
Qed.

Definition entry_pages (e : Z * Z) : Z := Z.shiftr e.2 PAGE_SHIFT.
Definition sg_pages (sgl : list (Z * Z)) : list Z := concat ((λ e, seqZ e.1 (entry_pages e)) <$> sgl).

(** The runs of the first [count] pages of a scatter list. *)
Fixpoint sg_runs (sgl : list (Z * Z)) (count : Z) : list (Z * Z) :=
  match sgl with
  | [] => []
  | e :: sgl =>
      if entry_pages e <=? 0 then sg_runs sgl count
      else if count <=? entry_pages e then [(e.1, count)]
      else (e.1, entry_pages e) :: sg_runs sgl (count - entry_pages e)
  end.

Lemma sg_runs_pages sgl count : 0 < count → run_pages (sg_runs sgl count) = take (Z.to_nat count) (sg_pages sgl).
Proof.
  revert count. induction sgl as [|e sgl IH]; intros count Hc; cbn [sg_runs]; [by destruct (Z.to_nat count)|].
  unfold sg_pages in *. cbn [fmap list_fmap concat].
  destruct (Z.leb_spec (entry_pages e) 0) as [He|He]; [by rewrite seqZ_nil, IH by lia|].
  destruct (Z.leb_spec count (entry_pages e)) as [Hce|Hce].
  - replace (entry_pages e) with (count + (entry_pages e - count)) by lia.
    rewrite seqZ_app, <- app_assoc by lia. rewrite take_app_length' by (rewrite length_seqZ; lia).
    cbn. by rewrite app_nil_r.
  - change (run_pages ((e.1, entry_pages e) :: ?r)) with (seqZ e.1 (entry_pages e) ++ run_pages r). rewrite IH by lia.
    rewrite take_app_ge by (rewrite length_seqZ; lia). rewrite length_seqZ. do 2 f_equal. lia.
Qed.

Lemma sg_runs_enough sgl count : 0 < count ≤ zlen (sg_pages sgl) → ∃ r runs, sg_runs sgl count = r :: runs.
Proof.
  intros Hc. destruct (sg_runs sgl count) eqn:E; [|by eexists _, _].
  pose proof (sg_runs_pages sgl count ltac:(lia)) as H. rewrite E in H. cbn in H. symmetry in H.
  apply (f_equal length) in H. rewrite length_take in H. unfold zlen in *. cbn in H. lia.
Qed.

Lemma zlen_sg_cons f len sgl :
  0 ≤ Z.shiftr len PAGE_SHIFT → zlen (sg_pages ((f, len) :: sgl)) = Z.shiftr len PAGE_SHIFT + zlen (sg_pages sgl).
Proof.
  intros H. unfold sg_pages. cbn [fmap list_fmap concat]. rewrite zlen_app. f_equal. unfold zlen.
  rewrite length_seqZ. unfold entry_pages. cbn. lia.
Qed.

(** Entries before the offset are skipped. *)
Lemma compress_sg_skip before sgl count m :
  Forall (λ e, 0 ≤ entry_pages e) before →
  compress_sg (before ++ sgl) (zlen (sg_pages before)) count 0 0 m = compress_sg sgl 0 count 0 0 m.
Proof.
  induction 1 as [|[pfn len] before He Hb IH]; [done|]. cbn [app compress_sg].
  unfold sg_pages in *. cbn [fmap list_fmap concat]. rewrite zlen_app. unfold zlen at 1 3. rewrite length_seqZ.
  pose proof (zlen_nonneg (concat ((λ e, seqZ e.1 (entry_pages e)) <$> before))).
  unfold entry_pages in *. cbn [fst snd] in *. destruct (Z.leb_spec (Z.shiftr len PAGE_SHIFT)
    (Z.of_nat (Z.to_nat (Z.shiftr len PAGE_SHIFT)) + zlen (concat ((λ e, seqZ e.1 (Z.shiftr e.2 PAGE_SHIFT)) <$> before)))); [|lia].
  rewrite <- IH. f_equal. lia.
Qed.

(** From the second region on: the gap to the first page goes behind the region before. *)
Lemma compress_sg_run sgl count j pre m pfn k runs :
  Forall (λ e, 0 ≤ entry_pages e) sgl → sg_runs sgl count = (pfn, k) :: runs → 0 < count ≤ zlen (sg_pages sgl) → 0 < j →
  let rs := run_regions ((pfn, k) :: runs) in
  let n := j + zlen rs in
  region_off n ≤ zlen m →
  compress_sg sgl 0 count j pre m =
  Some (n, put pfns_nregions (le_encode 4 n) (put (region_off (j - 1) + 4) (le_encode 4 (pfn - pre - 1) ++ enc_regions rs) m)).
Proof.
  cbv zeta. intros Hlen. revert count j pre m pfn k runs.
  induction Hlen as [|[f len] sgl Hsp Hlen IH]; intros count j pre m pfn k runs Hr Hc Hj Hm; cbn [sg_runs compress_sg] in *; [done|].
  unfold entry_pages in Hr, Hsp. cbn [fst snd] in Hr, Hsp. 
  pose proof (zlen_sg_cons f len sgl Hsp) as Hz.
  set (sp := Z.shiftr len PAGE_SHIFT) in *.
  destruct (Z.leb_spec sp 0) as [Hs|Hs].
  { replace (0 - sp) with 0 by lia. apply IH; [done|lia|done|done]. }
  rewrite (proj2 (Z.eqb_neq j 0)), Z.sub_0_r by lia. unfold set_space, set_size.
  set (gap := le_encode 4 (f - pre - 1)). assert (zlen gap = 4) as Hg by apply zlen_le.
  destruct (Z.leb_spec count sp) as [Hcs|Hcs].
  - simplify_eq. cbn [run_regions] in *. change (zlen [(k, 0)]) with 1 in *.
    do 5 (rewrite store_run by room; cbn [mbind option_bind]). fold gap.
    rewrite (put_over (region_off j)) by room. rewrite (put_next (region_off j)) by room.
    rewrite (put_next (region_off (j - 1) + 4)) by room. done.
  - destruct (sg_runs_enough sgl (count - sp) ltac:(lia)) as ([pfn' k'] & runs' & Hr'). rewrite Hr' in Hr.
    injection Hr as <- <- <-. set (rs' := run_regions ((pfn', k') :: runs')) in *.
    assert (run_regions ((f, sp) :: (pfn', k') :: runs') = (sp, pfn' - (f + (sp - 1)) - 1) :: rs') as Hrs by done.
    rewrite Hrs in *. assert (zlen ((sp, pfn' - (f + (sp - 1)) - 1) :: rs') = 1 + zlen rs') as Hzr by (unfold zlen; cbn [length]; lia).
    rewrite Hzr in *. pose proof (zlen_nonneg rs'). pose proof (zlen_enc_regions rs').
    do 2 (rewrite store_run by room; cbn [mbind option_bind]). fold gap.
    rewrite (IH _ (j + 1) _ _ _ _ _ Hr'); [|lia..|fold rs'; room]. fold rs'.
    rewrite (put_next (region_off (j - 1) + 4)) by room.
    rewrite (put_next (region_off (j - 1) + 4)) by room.
    replace (j + 1 + zlen rs') with (j + (1 + zlen rs')) by lia. by rewrite <- app_assoc.
Qed.

(** The first region. *)
Lemma compress_sg_first sgl count m pfn k runs :
  Forall (λ e, 0 ≤ entry_pages e) sgl → sg_runs sgl count = (pfn, k) :: runs → 0 < count ≤ zlen (sg_pages sgl) →
  let rs := run_regions ((pfn, k) :: runs) in
  region_off (zlen rs) ≤ zlen m →
  compress_sg sgl 0 count 0 0 m = Some (zlen rs, put 0 (enc_table pfn rs) m).
Proof.
  cbv zeta. intros Hlen Hr Hc Hm. induction Hlen as [|[f len] sgl Hsp Hlen IH]; cbn [sg_runs compress_sg] in *; [done|].
  unfold entry_pages in Hr, Hsp. cbn [fst snd] in Hr, Hsp.
  pose proof (zlen_sg_cons f len sgl Hsp) as Hz.
  set (sp := Z.shiftr len PAGE_SHIFT) in *.
  destruct (Z.leb_spec sp 0) as [Hs|Hs].
  { replace (0 - sp) with 0 by lia. apply IH; [done|lia]. }
  rewrite Z.add_0_r, Z.sub_0_r. cbn [Z.eqb]. unfold set_space, set_size.
  destruct (Z.leb_spec count sp) as [Hcs|Hcs].
  - simplify_eq. cbn [run_regions] in *. change (zlen [(k, 0)]) with 1 in *.
    do 5 (rewrite store_run by room; cbn [mbind option_bind]).
    rewrite (put_over (region_off 0)) by room. rewrite (put_next (region_off 0)) by room.
    change (0 + 1) with 1. by rewrite <- (table_written pfn [(k, 0)] 1 m).
  - destruct (sg_runs_enough sgl (count - sp) ltac:(lia)) as ([pfn' k'] & runs' & Hr'). rewrite Hr' in Hr.
    injection Hr as <- <- <-. set (rs' := run_regions ((pfn', k') :: runs')) in *.
    assert (run_regions ((f, sp) :: (pfn', k') :: runs') = (sp, pfn' - (f + (sp - 1)) - 1) :: rs') as Hrs by done.
    rewrite Hrs in *. assert (zlen ((sp, pfn' - (f + (sp - 1)) - 1) :: rs') = 1 + zlen rs') as Hzr by (unfold zlen; cbn [length]; lia).
    rewrite Hzr in *. pose proof (zlen_nonneg rs'). pose proof (zlen_enc_regions rs').
    do 2 (rewrite store_run by room; cbn [mbind option_bind]). change (0 + 1) with 1.
    rewrite (compress_sg_run _ _ 1 _ _ _ _ _ Hlen Hr'); [|lia..|fold rs'; room]. fold rs'.
    rewrite (put_next (region_off 0)) by room. by rewrite <- (table_written f _ _ m Hzr).
Qed.

(** ** The round trip *)

Definition run_ok (r : Z * Z) : Prop := 0 < r.2 ∧ frame r.1 ∧ frame (r.1 + r.2 - 1).

Lemma sg_runs_ok sgl count :
  0 < count → Forall frame (take (Z.to_nat count) (sg_pages sgl)) → Forall run_ok (sg_runs sgl count).
Proof.
  intros Hc. rewrite <- sg_runs_pages by done.
  assert (Forall (λ r, 0 < r.2) (sg_runs sgl count)) as Hpos.
  { revert count Hc. induction sgl as [|e sgl IH]; intros count Hc; cbn [sg_runs]; [constructor|].
    destruct (Z.leb_spec (entry_pages e) 0); [by apply IH|].
    destruct (Z.leb_spec count (entry_pages e)); [repeat constructor; cbn; lia|].
    apply Forall_cons_2; [cbn; lia|]. apply IH. lia. }
  unfold run_pages. induction Hpos as [|[p n] runs Hn Hpos IH]; cbn [fmap list_fmap concat]; [constructor|].
  intros [Hp Hrest]%Forall_app. cbn [fst snd] in *. rewrite list.Forall_forall in Hp.
  apply Forall_cons_2; [|by apply IH]. split; [done|]. cbn [fst snd].
  split; apply Hp; apply elem_of_seqZ; lia.
Qed.

Lemma run_regions_ok p n runs : Forall run_ok ((p, n) :: runs) → regions_ok p (run_regions ((p, n) :: runs)).
Proof.
  revert p n. induction runs as [|[p' n'] runs IH]; intros p n [Hr Hrs]%list.Forall_cons.
  - destruct Hr as (H1 & H2 & H3). cbn [fst snd] in *. unfold frame in *. cbn.
    split_and!; (lia || done || (intros; lia)).
  - specialize (IH p' n' Hrs). pose proof (Forall_inv Hrs) as (H4 & H5 & H6). destruct Hr as (H1 & H2 & H3).
    cbn [fst snd] in *. unfold frame in H2, H3, H5, H6.
    change (run_regions ((p, n) :: (p', n') :: runs)) with ((n, p' - (p + (n - 1)) - 1) :: run_regions ((p', n') :: runs)).
    set (rs := run_regions ((p', n') :: runs)) in *. cbn [regions_ok].
    replace (p + (n + (p' - (p + (n - 1)) - 1))) with p' by lia. split_and!; try (unfold frame; lia); try (intros _; lia); done.
Qed.

Lemma expand_runs p n runs : expand p (run_regions ((p, n) :: runs)) = run_pages ((p, n) :: runs).
Proof.
  revert p n. induction runs as [|[p' n'] runs IH]; intros p n; [done|].
  change (run_regions ((p, n) :: (p', n') :: runs)) with ((n, p' - (p + (n - 1)) - 1) :: run_regions ((p', n') :: runs)).
  cbn [expand]. replace (p + (n + (p' - (p + (n - 1)) - 1))) with p' by lia. by rewrite IH.
Qed.

Lemma sizes_expand p rs : Forall (λ r, 0 ≤ r.1) rs → sizes rs = zlen (expand p rs).
Proof.
  intros H. revert p. induction H as [|[a b] rs Ha H IH]; intros p; [done|]. cbn [sizes expand fst] in *.
  rewrite zlen_app, <- IH. unfold zlen. rewrite length_seqZ. lia.
Qed.

Lemma regions_ok_pos p rs : regions_ok p rs → Forall (λ r, 0 ≤ r.1) rs.
Proof.
  revert p. induction rs as [|[a b] rs IH]; intros p; cbn; [by constructor|]. intros (_ & ? & _ & _ & _ & _ & H).
  apply Forall_cons_2; [cbn; lia|by eapply IH].
Qed.

Lemma zlen_regions_pages p rs : regions_ok p rs → zlen rs ≤ zlen (expand p rs).
Proof.
  revert p. induction rs as [|[a b] rs IH]; intros p; cbn [regions_ok expand]; [done|].
  intros (_ & ? & _ & _ & _ & _ & H). specialize (IH _ H). rewrite zlen_app. unfold zlen in *. rewrite length_seqZ. cbn [length]. lia.
Qed.

(** The pages a buffer shares. *)
Definition shared_pages (b : dma_buf) (offset count : Z) : list Z :=
  match b with
  | own_buf pages => take (Z.to_nat count) pages
  | foreign_buf _ None => []
  | foreign_buf _ (Some sgl) => take (Z.to_nat count) (drop (Z.to_nat (Z.shiftr offset PAGE_SHIFT)) (sg_pages sgl))
  end.

(** The buffer has the pages, and an offset into a scatter list is the start of an entry. *)
Definition buf_ok (b : dma_buf) (offset count : Z) : Prop :=
  count * PAGE_SIZE ≤ buf_size b ∧ 0 < count ∧ zlen (shared_pages b offset count) = count ∧
  Forall frame (shared_pages b offset count) ∧
  match b with
  | foreign_buf _ (Some sgl) =>
      ∃ before after, sgl = before ++ after ∧ zlen (sg_pages before) = Z.shiftr offset PAGE_SHIFT ∧
        Forall (λ e, 0 ≤ entry_pages e) sgl
  | _ => True
  end.

(** A table of regions comes back as its pages, from the bytes sent. *)
Definition table_for (pages : list Z) (r : option (Z + Z * list Z)) (m : list Z) : Prop :=
  ∃ first rs, r = Some (inr (u32 (sizeof_compressed_pfns + sizeof_region * zlen rs), put 0 (enc_table first rs) m)) ∧
    regions_ok first rs ∧ frame first ∧ head pages = Some first ∧ expand first rs = pages.

Lemma own_table pages offset count m :
  buf_ok (own_buf pages) offset count → region_off count ≤ zlen m →
  table_for (take (Z.to_nat count) pages) (habmem_compress_pfns (own_buf pages) offset count m) m.
Proof.
  intros (Hsize & Hc & Hl & Hf & _) Hm. cbn [shared_pages] in *. unfold habmem_compress_pfns.
  destruct (Z.ltb_spec (buf_size (own_buf pages)) (count * PAGE_SIZE)); [lia|].
  destruct (take (Z.to_nat count) pages) as [|p rest] eqn:E; [change (0 = count) in Hl; lia|].
  pose proof (zlen_page_regions p rest 1) as Hz. assert (zlen (p :: rest) = 1 + zlen rest) as Hzc by (unfold zlen; cbn [length]; lia).
  pose proof (Forall_inv Hf) as Hp. cbv beta in Hp.
  rewrite store_run by room. cbn [mbind option_bind].
  rewrite compress_pages_run; [|lia|done|room]. cbn [mbind option_bind].
  exists p, (page_regions p rest 1). rewrite Z.add_0_l, table_written; [|done|room].
  pose proof (page_regions_ok p rest 1 ltac:(lia)) as Hok. replace (p - 1 + 1) with p in Hok by lia.
  pose proof (expand_page_regions p rest 1 ltac:(lia)) as He. replace (p - 1 + 1) with p in He by lia.
  split_and!; [done|by apply Hok|done|done|]. rewrite He, seqZ_cons by lia. done.
Qed.

Lemma foreign_table size sgl offset count m :
  buf_ok (foreign_buf size (Some sgl)) offset count → region_off count ≤ zlen m →
  table_for (shared_pages (foreign_buf size (Some sgl)) offset count)
    (habmem_compress_pfns (foreign_buf size (Some sgl)) offset count m) m.
Proof.
  intros (Hsize & Hc & Hl & Hf & before & after & -> & Hoff & Hlen) Hm. cbn [shared_pages] in *. unfold habmem_compress_pfns.
  destruct (Z.ltb_spec (buf_size (foreign_buf size (Some (before ++ after)))) (count * PAGE_SIZE)); [lia|].
  assert (sg_pages (before ++ after) = sg_pages before ++ sg_pages after) as Happ.
  { unfold sg_pages. by rewrite fmap_app, concat_app. }
  rewrite <- Hoff in *. rewrite Happ, drop_app_length' in * by (unfold zlen; lia). apply Forall_app in Hlen as [Hb Ha].
  rewrite compress_sg_skip by done. unfold zlen in Hl. rewrite length_take in Hl.
  destruct (sg_runs_enough after count ltac:(unfold zlen; lia)) as ([pfn k] & runs & Hr).
  pose proof (sg_runs_ok after count Hc Hf) as Hok. rewrite Hr in Hok.
  pose proof (run_regions_ok pfn k runs Hok) as Hrok.
  assert (expand pfn (run_regions ((pfn, k) :: runs)) = take (Z.to_nat count) (sg_pages after)) as Hexp
    by (rewrite expand_runs, <- Hr; by apply sg_runs_pages).
  pose proof (zlen_regions_pages _ _ Hrok) as Hzr. rewrite Hexp in Hzr. unfold zlen at 2 in Hzr. rewrite length_take in Hzr.
  rewrite (compress_sg_first after count m pfn k runs Ha Hr); [|unfold zlen; lia|room]. cbn [mbind option_bind].
  exists pfn, (run_regions ((pfn, k) :: runs)). destruct (Forall_inv Hok) as (Hk & Hfp & _). cbn [fst snd] in *.
  split_and!; [done|done|done| |done].
  rewrite <- Hexp, expand_runs. unfold run_pages. cbn [fmap list_fmap concat fst snd]. by rewrite seqZ_cons by lia.
Qed.

Lemma compress_table b offset count m :
  buf_ok b offset count → region_off count ≤ zlen m →
  table_for (shared_pages b offset count) (habmem_compress_pfns b offset count m) m.
Proof.
  intros Hb Hm. destruct b as [pages|sz [sgl|]]; [by apply own_table|by apply foreign_table|].
  destruct Hb as (_ & Hc & Hl & _). change (0 = count) in Hl. lia.
Qed.

Lemma table_for_ne pages first rs : head pages = Some first → expand first rs = pages → 0 < zlen rs.
Proof. intros Hh He. destruct rs; [by rewrite <- He in Hh|]. unfold zlen. cbn [length]. lia. Qed.

Lemma zlen_enc_table first rs : zlen (enc_table first rs) = pfns_region + sizeof_region * zlen rs.
Proof. unfold enc_table. rewrite !zlen_app, !zlen_le, zlen_enc_regions. unfold pfns_region. lia. Qed.

Lemma table_rebuilds pfn_ok b offset count m d :
  buf_ok b offset count → count ≤ MAX_EXP_PAYLOAD_COUNT → sizeof_compressed_pfns + sizeof_region * count < zlen m →
  (∀ p, head (shared_pages b offset count) = Some p → pfn_ok p = true) → payload_count d = count →
  ∃ size m', habmem_compress_pfns b offset count m = Some (inr (size, m')) ∧
    size ≤ sizeof_compressed_pfns + sizeof_region * count ∧
    pages_list_create pfn_ok true (with_payload (take (Z.to_nat (size + 1)) m') d) = Some (inr (shared_pages b offset count)).
Proof.
  intros Hb Hmax Hm Hpf Hcnt. pose proof Hb as (_ & Hc & Hl & _).
  destruct (compress_table b offset count m Hb) as (first & rs & Hrun & Hok & Hff & Hhd & Hexp);
    [unfold sizeof_compressed_pfns in Hm; room|].
  pose proof (zlen_regions_pages _ _ Hok) as Hzr. rewrite Hexp, Hl in Hzr. pose proof (zlen_nonneg rs).
  unfold sizeof_compressed_pfns, sizeof_region, MAX_EXP_PAYLOAD_COUNT in *. rewrite u32_small in Hrun by lia.
  exists (16 + 8 * zlen rs), (put 0 (enc_table first rs) m). split; [done|]. split; [lia|].
  pose proof (zlen_enc_table first rs) as Hzt. unfold pfns_region, sizeof_region in Hzt.
  rewrite <- Hexp. eapply create_from_table; [| |done|done|lia|by apply Hpf].
  - cbn [payload with_payload]. unfold put. change (take (Z.to_nat 0) m) with (@nil Z). cbn [app]. rewrite take_app_ge by (unfold zlen in *; lia). done.
  - cbn [payload_count with_payload]. rewrite (sizes_expand first) by (by eapply regions_ok_pos). by rewrite Hexp, Hl, Hcnt.
Qed.

(** C32: A buffer survives its page table: what [habmem_compress_pfns] writes into the memory of
    a descriptor (pages of the driver's own list, or the scatter list of a foreign buffer from
    an offset at an entry's start), sent with the one byte more that the message has, makes
    [pages_list_create] rebuild exactly the pages shared, in order. *)
Theorem page_table_roundtrip pfn_ok b offset count m d :
  buf_ok b offset count → count ≤ MAX_EXP_PAYLOAD_COUNT → sizeof_compressed_pfns + sizeof_region * count < zlen m →
  (∀ p, head (shared_pages b offset count) = Some p → pfn_ok p = true) → payload_count d = count →
  ∃ size m', habmem_compress_pfns b offset count m = Some (inr (size, m')) ∧
    size ≤ sizeof_compressed_pfns + sizeof_region * count ∧
    pages_list_create pfn_ok true (with_payload (take (Z.to_nat (size + 1)) m') d) = Some (inr (shared_pages b offset count)).
Proof. apply table_rebuilds. Qed.

Lemma page_table_roundtrip_witness :
  ∃ size m', habmem_compress_pfns (foreign_buf 20480 (Some [(7, 4096); (100, 8192); (64, 8192)])) 4096 3 (replicate 64 0) = Some (inr (size, m')) ∧
    size ≤ 40 ∧
    pages_list_create (λ _, true) true (with_payload (take (Z.to_nat (size + 1)) m') (mk_desc 1 0 1 1 2 3 3 [])) = Some (inr [100; 101; 64]).
Proof.
  apply (page_table_roundtrip (λ _, true) (foreign_buf 20480 (Some [(7, 4096); (100, 8192); (64, 8192)])) 4096 3 (replicate 64 0) (mk_desc 1 0 1 1 2 3 3 []));
    [|done|done|done|done].
  split; [done|]. split; [done|]. split; [done|]. split; [repeat constructor; done|].
  exists [(7, 4096)], [(100, 8192); (64, 8192)]. split; [done|]. split; [done|]. repeat constructor; done.
Defined.

(** With an offset inside an entry that is not the last, the gap is counted from the wrong page:
    pages 13, 14, 15 and 100 are shared, the importer gets 13, 14, 15 and 103. *)
Example offset_shares_wrong_page :
  shared_pages (foreign_buf 24576 (Some [(10, 24576); (100, 8192)])) 12288 4 = [13; 14; 15; 100] ∧
  (r ← habmem_compress_pfns (foreign_buf 24576 (Some [(10, 24576); (100, 8192)])) 12288 4 (replicate 64 0);
   match r with
   | inl _ => None
   | inr (size, m) => pages_list_create (λ _, true) true (with_payload (take (Z.to_nat (size + 1)) m) (mk_desc 1 0 1 1 2 3 4 []))
   end) = Some (inr [13; 14; 15; 103]).
Proof. done. Qed.

(** ** Tables from the other side *)

Lemma read_le_Some n m off : 0 ≤ off → 0 ≤ n → off + n ≤ zlen m → is_Some (read_le n m off).
Proof. intros H1 H2 H3. unfold read_le, subrange. rewrite bool_decide_true by (unfold zlen in *; lia). by eexists. Qed.

Lemma build_pages_safe tbl count n i pfn total pages :
  0 ≤ i → region_off (i + Z.of_nat n) ≤ zlen tbl → zlen pages = total →
  ∃ r, build_pages n i pfn total count pages tbl = Some r ∧ ∀ l, r = inr l → zlen l = count.
Proof.
  revert i pfn total pages. induction n as [|n IH]; intros i pfn total pages Hi Hm Hl; cbn [build_pages].
  { eexists. split; [done|]. destruct (Z.eqb_spec total count); naive_solver. }
  unfold region_off, pfns_region, sizeof_region in *.
  destruct (read_le_Some 4 tbl (region_off i)) as [sz Hsz]; [unfold region_off, pfns_region, sizeof_region; lia..|].
  destruct (read_le_Some 4 tbl (region_off i + 4)) as [sp Hsp]; [unfold region_off, pfns_region, sizeof_region; lia..|].
  unfold get_size, get_space. rewrite Hsz, Hsp. cbn [fmap option_fmap option_map mbind option_bind].
  destruct (Z.leb_spec (s32 sz) 0); [by eexists|]. destruct (Z.ltb_spec count (total + s32 sz)); [by eexists|].
  destruct (Z.ltb_spec count (zlen pages + s32 sz)); [lia|].
  apply IH; [lia|lia|]. rewrite zlen_app. unfold zlen at 2. rewrite length_fmap, length_seqZ. lia.
Qed.

Lemma refuse_desc_total id ret s : ∃ s', refuse_desc id ret s = (Done ret, s').
Proof.
  unfold refuse_desc, hab_create_invalid_ack, hab_send_unimport_msg, queue_imp_ack, kzalloc, physical_channel_send, kbind, kgets, kret, kget, kmodify.
  destruct (mem_proto s =? 1); [|by eexists]. by destruct (default true _); eexists.
Qed.

(** The checks of [hab_receive_export_desc] give the importer a table it can read. *)
Definition desc_safe (d : export_desc) : Prop :=
  0 < payload_count d ≤ MAX_EXP_PAYLOAD_COUNT ∧
  ∀ pfn_ok ok, ∃ r, pages_list_create pfn_ok ok d = Some r ∧ ∀ pages, r = inr pages → zlen pages = payload_count d.

Lemma checked_desc_safe d size z :
  size = sizeof_export_desc + zlen (payload d) → read_le 4 (payload d) pfns_nregions = Some z →
  0 < s32 z → s32 z ≤ payload_count d → payload_count d ≤ MAX_EXP_PAYLOAD_COUNT →
  size = exp_desc_min + s32 z * sizeof_region → desc_safe d.
Proof.
  intros Hs Hn Hpos Hle Hmax Hsz. split; [lia|]. intros pfn_ok ok. unfold pages_list_create.
  unfold exp_desc_min, sizeof_export_desc, sizeof_compressed_pfns, sizeof_region in *.
  destruct (read_le_Some 8 (payload d) 0) as [f Hf]; [lia..|]. rewrite Hf, Hn. cbn [fmap option_fmap option_map mbind option_bind].
  destruct (pfn_ok f); cbn [negb]; [|by eexists]. destruct ok; cbn [negb]; [|by eexists].
  apply build_pages_safe; [lia| |done]. unfold region_off, pfns_region, sizeof_region. lia.
Qed.

Lemma enqueue_run x s :
  hab_export_enqueue x s =
  match imp_whse s !! export_id (exp x) with
  | Some _ => (Done (- EINVAL), s)
  | None => (Done 0, set_imp_whse (<[export_id (exp x) := x]> (imp_whse s)) (import_total s + 1) s)
  end.
Proof. unfold hab_export_enqueue, kgets, kbind. by destruct (imp_whse s !! _). Qed.

(** [local_ids] only changes the numbers of the machines and channels. *)
Lemma local_ids_keeps s d :
  export_id (local_ids s d) = export_id d ∧ payload_count (local_ids s d) = payload_count d ∧ payload (local_ids s d) = payload d.
Proof. unfold local_ids. by destruct (_ =? _). Qed.

Ltac refused :=
  match goal with |- context [refuse_desc ?i ?r ?s] =>
    destruct (refuse_desc_total i r s) as [? ->]; eexists _, _; split; [done|intros Hret; discriminate Hret] end.

(** C31: Whatever bytes the other machine sends as a descriptor, [hab_receive_export_desc] ends
    without reading outside the message; and a descriptor it accepts (result 0) is in the
    warehouse under its id with the bytes received, has between 1 and [MAX_EXP_PAYLOAD_COUNT]
    pages, and is one whose table the importer can walk without leaving the message and without
    writing past the array of [payload_count] pages, filling it exactly when it succeeds. *)
Theorem received_table_safe size d s :
  ∃ ret s', hab_receive_export_desc size d s = (Done ret, s') ∧
    (ret = 0 → ∃ x, imp_whse s' !! export_id d = Some x ∧ payload (exp x) = payload d ∧ desc_safe (exp x)).
Proof.
  unfold hab_receive_export_desc. destruct (HAB_HEADER_SIZE_MAX <? size) eqn:E1; cbn [orb]; [by eexists _, _|].
  destruct (Z.ltb_spec size exp_desc_min) as [|Hmin]; [by eexists _, _|].
  unfold kzalloc at 1. unfold kbind at 1. destruct (default true (head (allocs s))); cbn [negb]; [|by eexists _, _].
  destruct (Z.eqb_spec size (sizeof_export_desc + zlen (payload d))) as [Hsz|]; cbn [negb]; [|by eexists _, _].
  set (s1 := set_io _ _ _ s). unfold kget. unfold kbind at 1.
  destruct (sd_id s1 =? vcid_remote d); cbn [negb]; [|refused].
  cbv zeta.
  destruct (local_ids_keeps s1 d) as (Hid & Hpc & Hp). rewrite Hp.
  unfold exp_desc_min, sizeof_export_desc, sizeof_compressed_pfns in *.
  destruct (read_le_Some 4 (payload d) pfns_nregions) as [z Hz]; [unfold pfns_nregions; lia..|]. rewrite Hz.
  destruct (Z.leb_spec (s32 z) 0); [refused|]. destruct (Z.ltb_spec (payload_count (local_ids s1 d)) (s32 z)); [refused|].
  destruct (Z.ltb_spec MAX_EXP_PAYLOAD_COUNT (payload_count (local_ids s1 d))); [refused|].
  match goal with |- context [negb (size =? ?k)] => destruct (Z.eqb_spec size k) as [Hk|]; cbn [negb]; [|refused] end.
  assert (desc_safe (local_ids s1 d)) as Hsafe by (eapply (checked_desc_safe _ size z); rewrite ?Hp; done || lia).
  set (x := mk_super (local_ids s1 d) false true 0 EXP_DESC_INIT HAB_EXP_EXPORTING false).
  destruct (mem_proto s1 =? 1).
  - unfold kzalloc. unfold kbind at 1. destruct (default true (head (allocs s1))); cbn [negb]; [|refused].
    set (s2 := set_io _ _ _ s1). unfold kbind at 1. rewrite enqueue_run. change (export_id (exp x)) with (export_id (local_ids s1 d)).
    rewrite Hid. destruct (imp_whse s2 !! export_id d); eexists _, _; (split; [reflexivity|]); [done|]. intros _.
    exists x. cbn. by rewrite lookup_insert_eq.
  - unfold kret at 1. unfold kbind at 1. cbn [negb]. unfold kbind at 1. rewrite enqueue_run.
    change (export_id (exp x)) with (export_id (local_ids s1 d)). rewrite Hid.
    destruct (imp_whse s1 !! export_id d); eexists _, _; (split; [reflexivity|]); [done|]. intros _.
    exists x. cbn. by rewrite lookup_insert_eq.
Qed.
