(* ===== verification/HabShare.v ===== *)
(** * Exporting and importing (hab_mimex.c, the glue in hab_mem_linux.c)

    The calls of the users on a side, and two sides connected by their outboxes.  What the kernel
    answers about a buffer is an argument: the buffer found for an address or the error, the id
    of [idr_alloc_cyclic], whether a dma-buf could be made of the imported pages and whether it is
    still used when it is given back.  The descriptor lives in whole pages ([vzalloc]). *)

From S2P Require Import Prelude Memory HabMsg HabMem HabPages.

Definition HABMM_EXPIMP_FLAGS_FD : Z := 0x00010000.

Definition hab_get_vchan_fromvcid (vcid : Z) (ignore_remote : bool) : MM bool :=
  kgets (λ s, (vcid =? sd_id s) && (ignore_remote || negb (sd_closed s))).

(** ** Granting *)

Definition vzalloc_bytes (n : Z) : Z := PAGE_SIZE * ((n + (PAGE_SIZE - 1)) / PAGE_SIZE).

Definition habmem_add_export (id sizebytes flags : Z) : MM (option export_desc_super) :=
  if sizebytes =? 0 then kret None
  else
    let* ok := kzalloc in
    if negb ok then kret None
    else
      let* s := kget in
      let own := mem_proto s =? 1 in
      let x := mk_super (mk_desc (u32 id) flags (sd_id s) (sd_other s) (vmid_local s) (vmid_remote s) 0
                           (replicate (Z.to_nat (vzalloc_bytes sizebytes - sizeof_super)) 0))
                 own own 0 EXP_DESC_INIT HAB_EXP_EXPORTING false in
      (if id <? 0 then kret tt else kmodify (mod_idr (insert id x))) ;;;
      kret (Some x).

Definition set_count (n : Z) (x : export_desc_super) : export_desc_super :=
  mk_super (mk_desc (export_id (exp x)) (readonly (exp x)) (vcid_local (exp x)) (vcid_remote (exp x))
              (domid_local (exp x)) (domid_remote (exp x)) n (payload (exp x)))
    (e_ctx x) (e_pchan x) (payload_size x) (import_state x) (exp_state x) (remote_imported x).
Definition set_table (size : Z) (m : list Z) (x : export_desc_super) : export_desc_super :=
  mk_super (with_payload m (exp x)) (e_ctx x) (e_pchan x) size (import_state x) (exp_state x) (remote_imported x).

(** The code, the size of the table and the id. *)
Definition habmem_add_export_compress (b : dma_buf) (offset page_count flags id : Z) : MM (Z * Z * Z) :=
  let* r := habmem_add_export id (u32 (sizeof_super + sizeof_compressed_pfns + page_count * sizeof_region)) flags in
  match r with
  | None => kret (- ENOMEM, 0, 0)
  | Some x =>
      kmodify (mod_idr (alter (set_count page_count) id)) ;;;
      let* ok := kzalloc in
      if negb ok then kmodify (mod_idr (delete (u32 id))) ;;; kret (- ENOMEM, 0, 0)
      else
        match habmem_compress_pfns b offset page_count (payload (exp x)) with
        | None => kfail Undef
        | Some (inl ret) => kmodify (mod_idr (delete (u32 id))) ;;; kret (ret, 0, 0)
        | Some (inr (size, m)) => kmodify (mod_idr (alter (set_table size m) id)) ;;; kret (0, size, u32 id)
        end
  end.

(** [habmem_hyp_grant] and [habmem_hyp_grant_user]; [buf] is the buffer found, or the error. *)
Definition habmem_hyp_grant (buf : Z + dma_buf) (offset page_count flags id : Z) : MM (Z * Z * Z) :=
  match buf with
  | inl ret => kret (ret, 0, 0)
  | inr b => habmem_add_export_compress b offset page_count flags id
  end.

Definition habmem_hyp_grant_undo (export_id : Z) : MM Z :=
  let* s := kget in
  match expid_idr s !! export_id with
  | None => kret (- EINVAL)
  | Some _ => kmodify (mod_idr (delete export_id)) ;;; kret 1
  end.

(** ** The exporter's calls *)

Definition habmem_export_vchan (env : list (side → side)) (payload_size export_id : Z) : MM Z :=
  if HAB_HEADER_SIZE_MAX <? u32 (sizeof_export_desc + 1 + payload_size) then kret (- EINVAL)
  else
    let* s := kget in
    match expid_idr s !! export_id with
    | None => kret (- EINVAL)
    | Some x =>
        let* ret :=
          (if mem_proto s =? 0 then
             let* ret := send_desc MExport payload_size (exp x) in
             if negb (ret =? 0) then kret ret
             else
               let* ret := hab_export_ack_wait env (mk_eack (HabMem.export_id (exp x)) (vcid_local (exp x)) (vcid_remote (exp x))) in
               if negb (ret =? 0) then kret ret
               else kmodify (mod_idr (alter set_ptrs export_id)) ;;; kret 0
           else kret 0) in
        if negb (ret =? 0) then kret ret
        else
          kmodify (λ s, set_exp_whse (exp_whse s ++ [export_id]) (export_total s + 1) s) ;;;
          kmodify (mod_idr (alter set_success export_id)) ;;;
          kret 0
    end.

(** The fields of [struct hab_export]; [he_buffer]: the address is not null. *)
Record hab_export := mk_export { he_buffer : bool; he_vcid : Z; he_sizebytes : Z; he_flags : Z }.

(** The code and the id given to the user. *)
Definition hab_mem_export (env : list (side → side)) (buf : Z + dma_buf) (offset id : Z) (p : hab_export) : MM (Z * Z) :=
  if (he_sizebytes p =? 0) || negb (he_sizebytes p mod PAGE_SIZE =? 0)
     || (negb (he_buffer p) && (Z.land HABMM_EXPIMP_FLAGS_FD (he_flags p) =? 0))
  then kret (- EINVAL, 0)
  else
    let* ok := hab_get_vchan_fromvcid (he_vcid p) false in
    if negb ok then kret (- ENODEV, 0)
    else
      let* '(ret, payload_size, export_id) := habmem_hyp_grant buf offset (he_sizebytes p / PAGE_SIZE) (he_flags p) id in
      if ret <? 0 then kret (ret, 0)
      else
        let* ret := habmem_export_vchan env payload_size export_id in
        if ret =? 0 then kret (ret, export_id)
        else let* _ := habmem_hyp_grant_undo export_id in kret (ret, 0).

Definition habmem_hyp_revoke : Z := 0.

Definition habmem_remove_export (x : export_desc_super) : MM unit :=
  if negb (e_ctx x) then kret tt
  else kmodify (λ s, set_exp_whse (exp_whse s) (export_total s - 1) s).

Definition hab_mem_unexport (vcid exportid : Z) : MM Z :=
  let* ok := hab_get_vchan_fromvcid vcid true in
  if negb ok then kret (- ENODEV)
  else
    let* s := kget in
    match expid_idr s !! exportid with
    | None => kret (- EINVAL)
    | Some x =>
        if bool_decide (exp_state x = HAB_EXP_SUCCESS) && e_ctx x && negb (remote_imported x) then
          kmodify (mod_idr (delete exportid)) ;;;
          kmodify (λ s, set_exp_whse (filter (λ i, i ≠ exportid) (exp_whse s)) (export_total s) s) ;;;
          if negb (habmem_hyp_revoke =? 0) then kret habmem_hyp_revoke
          else habmem_remove_export x ;;; kret 0
        else kret (if remote_imported x then - EBUSY else - EINVAL)
    end.

(** ** The importer's calls *)

Record hab_import := mk_import { hi_vcid : Z; hi_sizebytes : Z; hi_exportid : Z }.

(** What the kernel answers while the pages are mapped: which frames exist, whether the
    allocations succeed, whether a dma-buf (and its descriptor) can be made.  A list of pages
    lives as long as its last dma-buf, which its holders decide: [g_listed] is what
    [pages_list_lookup] finds, the pages of a living list of the same id. *)
Record glue := mk_glue { g_pfn_ok : Z → bool; g_alloc : bool; g_dmabuf : bool; g_listed : option (list Z) }.

Definition habmem_import_to_dma_buf (g : glue) (d : export_desc) : MM (option (list Z)) :=
  let* pglist :=
    (match g_listed g with
     | Some pages => kret (Some pages)
     | None =>
         match pages_list_create (g_pfn_ok g) (g_alloc g) d with
         | None => kfail Undef
         | Some (inl _) => kret None
         | Some (inr pages) => kret (Some pages)
         end
     end) in
  kret (if g_dmabuf g then pglist else None).

Definition habmem_imp_hyp_map (g : glue) (d : export_desc) : MM (Z * list Z) :=
  let* dma_buf := habmem_import_to_dma_buf g d in
  kret (match dma_buf with None => (- EINVAL, []) | Some pages => (0, pages) end).

Definition mod_whse (f : gmap Z export_desc_super → gmap Z export_desc_super) (n : Z) : MM unit :=
  kmodify (λ s, set_imp_whse (f (imp_whse s)) (import_total s + n) s).

(** Up to the wait. *)
Definition import_begin (p : hab_import) : MM Z :=
  if negb (hi_sizebytes p mod PAGE_SIZE =? 0) then kret (- EINVAL)
  else
    let* ok := hab_get_vchan_fromvcid (hi_vcid p) false in
    if negb ok then kret (- ENODEV)
    else
      let* proto := kgets mem_proto in
      if proto =? 1 then physical_channel_send (MImport (hi_exportid p) (Z.shiftr (hi_sizebytes p) PAGE_SHIFT)) else kret 0.

(** From the search of the warehouse on: the code and the pages mapped. *)
Definition import_finish (g : glue) (p : hab_import) : MM (Z * list Z) :=
  let* s := kget in
  match imp_whse s !! hi_exportid p with
  | None => kret (- ENODEV, [])
  | Some x =>
      if bool_decide (import_state x = EXP_DESC_INIT) then
        mod_whse (alter (set_import_state EXP_DESC_IMPORTING) (hi_exportid p)) 0 ;;;
        let* '(ret, pages) :=
          (if negb (u32 (Z.shiftl (payload_count (exp x)) PAGE_SHIFT) =? hi_sizebytes p) then kret (- EINVAL, [])
           else habmem_imp_hyp_map g (exp x)) in
        mod_whse (alter (set_import_state (if ret =? 0 then EXP_DESC_IMPORTED else EXP_DESC_INIT)) (hi_exportid p)) 0 ;;;
        (if (mem_proto s =? 1) && negb (ret =? 0) then
           hab_send_unimport_msg (export_id (exp x)) ;;; mod_whse (delete (hi_exportid p)) (-1)
         else kret tt) ;;;
        kret (ret, pages)
      else kret (- EINVAL, [])
  end.

Definition import_ack_for (p : hab_import) (s : side) : hab_import_ack := mk_iack (hi_exportid p) (sd_id s) (sd_other s) false.

Definition hab_mem_import (env : list (side → side)) (g : glue) (p : hab_import) : MM (Z * list Z) :=
  let* ret := import_begin p in
  if negb (ret =? 0) then kret (ret, [])
  else
    let* s := kget in
    let* '(ret, added) := (if mem_proto s =? 1 then hab_import_ack_wait env (import_ack_for p s) else kret (0, true)) in
    if negb (ret =? 0) then kret (ret, [])
    else if negb added then kret (- EINVAL, [])
    else import_finish g p.

(** [in_use]: a kernel user still holds the buffer. *)
Definition hab_mem_unimport (in_use : bool) (vcid exportid : Z) : MM Z :=
  let* ok := hab_get_vchan_fromvcid vcid true in
  if negb ok then kret (- ENODEV)
  else
    let* s := kget in
    match imp_whse s !! exportid with
    | Some x =>
        if bool_decide (import_state x = EXP_DESC_IMPORTED) then
          mod_whse (delete exportid) (-1) ;;;
          let ret := if in_use then - EBUSY else 0 in
          (if mem_proto s =? 1 then hab_send_unimport_msg (export_id (exp x)) else kret tt) ;;;
          kret ret
        else kret (- EINVAL)
    | None => kret (- EINVAL)
    end.
