(* ===== verification/HabImport.v ===== *)
(** * What is imported stays exported (hab_mimex.c, hab_msg.c)

    Two machines on the newer protocol ([mem_proto] 1), connected by their outboxes, with one
    thread that imports and calls interleaved with deliveries in any order.  The steps are the
    operations of HabShare and HabMem; waiting for the acknowledgement is split into the polls
    of the wait queue.  Sends and allocations succeed and waits are not cut short. *)

From S2P Require Import Prelude Memory HabMsg HabMem HabPages HabShare.

Record shared := mk_shared { exporter : side; importer : side; pending : option hab_import }.

Definition popped (s : side) : side := set_io (tail (outbox s)) (send_codes s) (allocs s) s.

(** The buffer of an export has its pages, and the byte sent behind a full table is inside the
    pages of the descriptor. *)
Definition export_args_ok (buf : Z + dma_buf) (offset id : Z) (p : hab_export) (s : side) : Prop :=
  expid_idr s !! id = None ∧ 0 < id < 2 ^ 31 ∧ 0 ≤ he_sizebytes p < 2 ^ 32 ∧
  match buf with
  | inl ret => ret < 0
  | inr b =>
      let n := he_sizebytes p / PAGE_SIZE in
      0 < he_sizebytes p → buf_ok b offset n ∧ (sizeof_super + sizeof_compressed_pfns + n * sizeof_region) mod PAGE_SIZE ≠ 0
  end.

Inductive share_step : shared → shared → Prop :=
  | SExport env buf offset id p e i w :
      export_args_ok buf offset id p e →
      share_step (mk_shared e i w) (mk_shared (hab_mem_export env buf offset id p e).2 i w)
  | SUnexport vcid id e i w :
      share_step (mk_shared e i w) (mk_shared (hab_mem_unexport vcid id e).2 i w)
  | SToImporter m rest e i w :
      outbox e = m :: rest →
      share_step (mk_shared e i w) (mk_shared (popped e) (mem_msg_recv m i).2 w)
  | SToExporter m rest e i w :
      outbox i = m :: rest →
      share_step (mk_shared e i w) (mk_shared (mem_msg_recv m e).2 (popped i) w)
  | SImport p e i i' :
      import_begin p i = (Done 0, i') →
      share_step (mk_shared e i None) (mk_shared e i' (Some p))
  | SPoll p e i i' :
      hab_import_ack_find (import_ack_for p i) i = (Done None, i') →
      share_step (mk_shared e i (Some p)) (mk_shared e i' (Some p))
  | SImported g p e i i' (added : bool) :
      hab_import_ack_find (import_ack_for p i) i = (Done (Some added), i') →
      share_step (mk_shared e i (Some p)) (mk_shared e (if added then (import_finish g p i').2 else i') None)
  | SUnimport in_use vcid id e i :
      share_step (mk_shared e i None) (mk_shared e (hab_mem_unimport in_use vcid id i).2 None).

(** Two sides of an open virtual channel, nothing shared yet. *)
Definition fresh_side (id other vl vr : Z) : side :=
  mk_side id other false vl vr 1 ∅ [] 0 [] ∅ 0 [] [] [] [].
Definition share_init (a b va vb : Z) : shared := mk_shared (fresh_side a b va vb) (fresh_side b a vb va) None.

(** ** The invariant *)

Definition works (s : side) (id other : Z) : Prop :=
  sd_id s = id ∧ sd_other s = other ∧ sd_closed s = false ∧ mem_proto s = 1 ∧ send_codes s = [] ∧ allocs s = [].

(** A descriptor the other side accepts. *)
Definition sendable (a b id : Z) (d : export_desc) (size : Z) : Prop :=
  export_id d = id ∧ vcid_local d = a ∧ vcid_remote d = b ∧
  ∃ bs z, subrange 0 (size + 1) (payload d) = Some bs ∧ read_le 4 bs pfns_nregions = Some z ∧
    0 < s32 z ≤ payload_count d ∧ payload_count d ≤ MAX_EXP_PAYLOAD_COUNT ∧
    sizeof_export_desc + 1 + size = exp_desc_min + s32 z * sizeof_region ∧
    sizeof_export_desc + 1 + size ≤ HAB_HEADER_SIZE_MAX.

Definition entry_ok (a b id : Z) (x : export_desc_super) : Prop :=
  e_ctx x = true ∧ e_pchan x = true ∧ exp_state x = HAB_EXP_SUCCESS ∧ sendable a b id (exp x) (payload_size x).

Definition is_unimport (m : mem_message) : Prop := match m with MUnimport _ => True | _ => False end.

(** The exporter knows that [id] is imported, and will not be told otherwise. *)
Definition held (e i : side) (id : Z) : Prop :=
  (∃ x, expid_idr e !! id = Some x ∧ remote_imported x = true) ∧ MUnimport id ∉ outbox i.

(** Where the answer to the request is. *)
Inductive phase (a b : Z) (e i : side) : option hab_import → Prop :=
  | PIdle : Forall is_unimport (outbox i) → outbox e = [] → imp_rxq i = [] → phase a b e i None
  | PAsked p us n : outbox i = us ++ [MImport (hi_exportid p) n] → Forall is_unimport us → outbox e = [] → imp_rxq i = [] →
      phase a b e i (Some p)
  | PRefused p : outbox i = [] → outbox e = [MImportAckFail (hi_exportid p)] → imp_rxq i = [] → phase a b e i (Some p)
  | PGranted p x bs : outbox i = [] → sendable a b (hi_exportid p) (exp x) (payload_size x) →
      subrange 0 (payload_size x + 1) (payload (exp x)) = Some bs →
      outbox e = [MImportAck (u32 (sizeof_export_desc + 1 + payload_size x)) (with_payload bs (exp x))] → imp_rxq i = [] →
      held e i (hi_exportid p) → phase a b e i (Some p)
  | PAnswered p added age : outbox i = [] → outbox e = [] → imp_rxq i = [(mk_iack (hi_exportid p) b a added, age)] →
      phase a b e i (Some p).

Record sharing (a b : Z) (s : shared) : Prop := {
  sh_exporter : works (exporter s) a b;
  sh_importer : works (importer s) b a;
  sh_entries id x : expid_idr (exporter s) !! id = Some x → entry_ok a b id x;
  sh_held id x : imp_whse (importer s) !! id = Some x → export_id (exp x) = id ∧ held (exporter s) (importer s) id;
  sh_phase : phase a b (exporter s) (importer s) (pending s);
}.

(** ** The calls in a working system *)

Definition add_out (m : mem_message) (s : side) : side := set_io (outbox s ++ [m]) (send_codes s) (allocs s) s.

Lemma kzalloc_run s : allocs s = [] → kzalloc s = (Done true, s).
Proof. destruct s. cbn. by intros ->. Qed.
Lemma out_run m s : send_codes s = [] → physical_channel_send m s = (Done 0, add_out m s).
Proof. destruct s. unfold physical_channel_send, add_out. cbn. by intros ->. Qed.

Lemma vzalloc_room n : 0 < n → n mod PAGE_SIZE ≠ 0 → n + 1 ≤ vzalloc_bytes n.
Proof. unfold vzalloc_bytes, PAGE_SIZE. intros H1 H2. Z.div_mod_to_equations. lia. Qed.
Lemma vzalloc_least n : 0 ≤ n → n ≤ vzalloc_bytes n.
Proof. unfold vzalloc_bytes, PAGE_SIZE. intros H. Z.div_mod_to_equations. lia. Qed.

(** What [habmem_compress_pfns] writes can be sent and is accepted. *)
Lemma compress_sendable b offset n m :
  buf_ok b offset n → n ≤ MAX_EXP_PAYLOAD_COUNT → sizeof_compressed_pfns + sizeof_region * n < zlen m →
  ∃ size m' bs z, habmem_compress_pfns b offset n m = Some (inr (size, m')) ∧
    subrange 0 (size + 1) m' = Some bs ∧ read_le 4 bs pfns_nregions = Some z ∧ 0 < s32 z ≤ n ∧
    size = sizeof_compressed_pfns + s32 z * sizeof_region.
Proof.
  intros Hb Hmax Hm. pose proof Hb as (_ & Hc & Hl & _).
  destruct (compress_table b offset n m Hb) as (first & rs & Hrun & Hok & _ & Hhd & Hexp);
    [unfold region_off, pfns_region, sizeof_region, sizeof_compressed_pfns in *; lia|].
  pose proof (zlen_regions_pages _ _ Hok) as Hzr. rewrite Hexp, Hl in Hzr. pose proof (table_for_ne _ _ _ Hhd Hexp) as Hne.
  pose proof (zlen_enc_table first rs) as Hzt.
  unfold sizeof_compressed_pfns, sizeof_region, pfns_region, MAX_EXP_PAYLOAD_COUNT in *. rewrite u32_small in Hrun by lia.
  eexists _, _, (enc_table first rs ++ _), _. split; [exact Hrun|]. split; [|split; [|split]].
  - unfold subrange, put. change (take (Z.to_nat 0) m) with (@nil Z). cbn [app]. rewrite bool_decide_true.
    + change (drop (Z.to_nat 0) ?l) with l. rewrite take_app_ge by (unfold zlen in *; lia). done.
    + split; [lia|]. split; [lia|]. rewrite length_app, length_drop. unfold zlen in *. lia.
  - apply (has_read_le 4 (zlen rs)). apply has_split. eexists (le_encode 8 first), _. split; [|done].
    unfold enc_table. rewrite <- !app_assoc. done.
  - change (2 ^ (8 * Z.of_nat 4)) with (2 ^ 32). rewrite s32_mod; lia.
  - change (2 ^ (8 * Z.of_nat 4)) with (2 ^ 32). rewrite s32_mod; lia.
Qed.

Definition set_idr (m : gmap Z export_desc_super) : side → side := mod_idr (λ _, m).

Lemma grant_run b offset n flags id s a b' :
  works s a b' → 0 < id < 2 ^ 31 → n ≤ MAX_EXP_PAYLOAD_COUNT → buf_ok b offset n →
  (sizeof_super + sizeof_compressed_pfns + n * sizeof_region) mod PAGE_SIZE ≠ 0 →
  ∃ size x, habmem_hyp_grant (inr b) offset n flags id s = (Done (0, size, id), set_idr (<[id := x]> (expid_idr s)) s) ∧
    payload_size x = size ∧ remote_imported x = false ∧
    (sizeof_export_desc + 1 + size ≤ HAB_HEADER_SIZE_MAX → entry_ok a b' id (set_success x)) ∧ 0 ≤ size < 2 ^ 31 ∧
    payload_count (exp x) = n ∧
    ∃ m, sizeof_compressed_pfns + sizeof_region * n < zlen m ∧ habmem_compress_pfns b offset n m = Some (inr (size, payload (exp x))).
Proof.
  intros (Hid & Hot & Hcl & Hpr & Hsc & Hal) Hi Hmax Hb Hpage. pose proof Hb as (_ & Hn & _).
  unfold MAX_EXP_PAYLOAD_COUNT, sizeof_super, sizeof_compressed_pfns, sizeof_region in *.
  cbn [habmem_hyp_grant]. unfold habmem_add_export_compress, habmem_add_export, sizeof_super, sizeof_compressed_pfns, sizeof_region.
  rewrite (u32_small (152 + _ + _)) by lia. rewrite (proj2 (Z.eqb_neq _ 0)) by lia.
  pose proof (vzalloc_room (152 + 16 + n * 8) ltac:(lia) Hpage) as Hroom.
  set (m0 := replicate _ 0). assert (zlen m0 = vzalloc_bytes (152 + 16 + n * 8) - 152) as Hm0 by (unfold m0, zlen; rewrite length_replicate; lia).
  destruct (compress_sendable b offset n m0 Hb) as (size & m' & bs & z & Hrun & Hbs & Hz & Hzn & Hsize);
    [done|unfold sizeof_compressed_pfns, sizeof_region; lia|].
  unfold kbind at 1 2. rewrite kzalloc_run by done. cbn [negb]. unfold kget at 1, kbind at 1. cbv zeta.
  destruct (Z.ltb_spec id 0); [lia|]. unfold kmodify at 1, kbind at 1, kret at 1.
  unfold kmodify at 1, kbind at 1. unfold kbind at 1. rewrite kzalloc_run by done. cbn [negb exp payload].
  rewrite Hrun. unfold kmodify, kbind, kret. rewrite (u32_small id) by lia.
  eexists size, (set_table size m' (set_count n (mk_super (mk_desc id flags a b' (vmid_local s) (vmid_remote s) 0 m0) true true 0 EXP_DESC_INIT HAB_EXP_EXPORTING false))).
  split.
  { unfold set_idr, mod_idr. cbn. rewrite Hpr, Hid, Hot. cbn. by rewrite !alter_insert_eq. }
  split; [done|]. split; [done|]. unfold sizeof_compressed_pfns, sizeof_region in Hsize.
  split; [|split; [lia|]; split; [done|]; exists m0; split; [lia|exact Hrun]].
  intros Hmsg. do 3 (split; [done|]). do 3 (split; [done|]). exists bs, z. cbn.
  unfold exp_desc_min, sizeof_compressed_pfns, sizeof_region, sizeof_export_desc, MAX_EXP_PAYLOAD_COUNT in *.
  split; [done|]. split; [done|]. lia.
Qed.

Lemma export_run env buf offset id p s a b :
  works s a b → export_args_ok buf offset id p s →
  ∃ m l t, (hab_mem_export env buf offset id p s).2 = set_exp_whse l t (set_idr m s) ∧
    (m = expid_idr s ∨ ∃ x, m = <[id := x]> (expid_idr s) ∧ entry_ok a b id x).
Proof.
  intros Hw (Hfree & Hi & Hsz & Hbuf). pose proof Hw as (Hid & Hot & Hcl & Hpr & Hsc & Hal).
  assert (s = set_exp_whse (exp_whse s) (export_total s) (set_idr (expid_idr s) s)) as Hself by (by destruct s).
  unfold hab_mem_export. destruct (_ || _) eqn:Eargs; [exists (expid_idr s), (exp_whse s), (export_total s); split; [exact Hself|by left]|].
  apply orb_false_iff in Eargs as [[Hz%Z.eqb_neq Hmod%negb_false_iff%Z.eqb_eq]%orb_false_iff _].
  unfold hab_get_vchan_fromvcid, kgets. unfold kbind at 1.
  destruct (_ && _); cbn [negb]; [|exists (expid_idr s), (exp_whse s), (export_total s); split; [exact Hself|by left]].
  destruct buf as [ret|bf].
  { cbn [habmem_hyp_grant]. unfold kret at 1, kbind at 1. destruct (Z.ltb_spec ret 0); [|lia]. exists (expid_idr s), (exp_whse s), (export_total s); split; [exact Hself|by left]. }
  destruct (Hbuf ltac:(lia)) as [Hb Hpage]. set (n := he_sizebytes p / PAGE_SIZE) in *.
  assert (n ≤ MAX_EXP_PAYLOAD_COUNT) as Hmax.
  { unfold n, PAGE_SIZE, MAX_EXP_PAYLOAD_COUNT in *. Z.div_mod_to_equations. lia. }
  destruct (grant_run bf offset n (he_flags p) id s a b Hw Hi Hmax Hb Hpage) as (size & x & Hrun & Hps & _ & Hok & Hsize & _).
  rewrite (kbind_Done _ _ _ _ _ Hrun). change (0 <? 0) with false. cbv iota beta.
  set (s1 := set_idr _ s). unfold habmem_export_vchan.
  unfold sizeof_export_desc in *. rewrite u32_small by lia.
  assert (expid_idr s1 !! id = Some x) as Hlook by apply lookup_insert_eq.
  destruct (Z.ltb_spec HAB_HEADER_SIZE_MAX (88 + 1 + size)) as [Hbig|Hfit].
  - unfold kret at 1, kbind at 1. change (- EINVAL =? 0) with false. cbv iota.
    unfold habmem_hyp_grant_undo, kget. unfold kbind at 1 2. rewrite Hlook. unfold kmodify, kbind, kret.
    exists (expid_idr s), (exp_whse s), (export_total s). split; [|by left]. cbn [snd]. unfold s1, set_idr, mod_idr. cbn. by rewrite delete_insert_id.
  - unfold kget. unfold kbind at 1 2. rewrite Hlook. change (mem_proto s1) with (mem_proto s). rewrite Hpr. change (1 =? 0) with false. cbv iota.
    unfold kret, kbind, kmodify. cbn [negb Z.eqb snd].
    exists (<[id := set_success x]> (expid_idr s)), (exp_whse s ++ [id]), (export_total s + 1). split; [|right; eexists; split; [done|by apply Hok]].
    unfold s1, set_idr, mod_idr, set_exp_whse. cbn. by rewrite alter_insert_eq.
Qed.

Lemma recv_granted i a b id d size bs ack :
  works i b a → sendable a b id d size → subrange 0 (size + 1) (payload d) = Some bs →
  ack = MImportAck (u32 (sizeof_export_desc + 1 + size)) (with_payload bs d) →
  ∃ added w t, (mem_msg_recv ack i).2 =
      set_imp_rxq (imp_rxq i ++ [(mk_iack id b a added, 0)]) (set_imp_whse w t i) ∧
    (∀ k y, w !! k = Some y → imp_whse i !! k = Some y ∨ k = id ∧ export_id (exp y) = id) ∧
    (imp_whse i !! id = None → added = true ∧
      w = <[id := mk_super (local_ids i (with_payload bs d)) false true 0 EXP_DESC_INIT HAB_EXP_EXPORTING false]> (imp_whse i)).
Proof.
  intros (Hid & Hot & Hcl & Hpr & Hsc & Hal) (He & Hvl & Hvr & bs' & z & Hbs' & Hz & Hzn & Hmax & Hsize & Hmsg) Hbs ->.
  rewrite Hbs in Hbs'. injection Hbs' as <-. pose proof (subrange_zlen _ _ _ _ Hbs) as Hlen.
  cbn [mem_msg_recv]. unfold hab_receive_export_desc, exp_desc_min, sizeof_export_desc, sizeof_compressed_pfns, sizeof_region, MAX_EXP_PAYLOAD_COUNT, HAB_HEADER_SIZE_MAX in *.
  rewrite u32_small by lia. destruct (Z.ltb_spec 512000 (88 + 1 + size)); [lia|]. destruct (Z.ltb_spec (88 + 1 + size) (88 + 1 + 16)); [lia|].
  cbn [orb]. unfold kbind at 1. rewrite kzalloc_run by done. cbn [negb payload with_payload]. rewrite Hlen.
  rewrite (proj2 (Z.eqb_eq (88 + 1 + size) _)) by lia. cbn [negb]. unfold kget. unfold kbind at 1.
  unfold local_ids. rewrite Hid, Hpr. cbn [vcid_remote with_payload]. rewrite Hvr, Z.eqb_refl. change (1 =? 1) with true. cbn [negb].
  cbv zeta. cbn [payload set_ids with_payload payload_count vcid_local vcid_remote export_id]. rewrite Hz.
  destruct (Z.leb_spec (s32 z) 0); [lia|]. destruct (Z.ltb_spec (payload_count d) (s32 z)); [lia|].
  destruct (Z.ltb_spec 1048575 (payload_count d)); [lia|]. rewrite (proj2 (Z.eqb_eq (88 + 1 + size) _)) by lia. cbn [negb].
  unfold kbind at 1. rewrite kzalloc_run by done. cbn [negb]. unfold kbind at 1. rewrite enqueue_run. cbn [exp export_id set_ids with_payload].
  rewrite He, Hvl. destruct (imp_whse i !! id) eqn:Ew.
  - exists false, (imp_whse i), (import_total i). split; [by destruct i|]. split; [auto|congruence].
  - eexists true, _, _. split; [reflexivity|]. split; [|done]. intros k y. destruct (decide (k = id)) as [->|Hne].
    + rewrite lookup_insert_eq. intros [= <-]. right. split; [done|]. cbn. done.
    + rewrite lookup_insert_ne by done. auto.
Qed.

Lemma recv_refused i a b id : works i b a →
  (mem_msg_recv (MImportAckFail id) i).2 = set_imp_rxq (imp_rxq i ++ [(mk_iack id b a false, 0)]) i.
Proof.
  intros (Hid & Hot & Hcl & Hpr & Hsc & Hal). cbn [mem_msg_recv]. unfold hab_receive_import_ack_fail.
  unfold kbind at 1. rewrite kzalloc_run by done. cbn. by rewrite Hid, Hot.
Qed.

Lemma recv_request_granted e a b id x :
  works e a b → expid_idr e !! id = Some x → entry_ok a b id x →
  ∃ bs, subrange 0 (payload_size x + 1) (payload (exp x)) = Some bs ∧
    (mem_msg_recv (MImport id (u32 (payload_count (exp x)))) e).2 =
    add_out (MImportAck (u32 (sizeof_export_desc + 1 + payload_size x)) (with_payload bs (exp x)))
      (set_idr (<[id := set_ptrs (set_remote_imported true x)]> (expid_idr e)) e).
Proof.
  intros (Hid & Hot & Hcl & Hpr & Hsc & Hal) Ex (_ & _ & Hst & He & Hvl & _ & bs & z & Hbs & _). exists bs. split; [done|].
  cbn [mem_msg_recv]. unfold hab_recv_imp_req, kbind, kget. cbv beta iota. rewrite Ex, Hid, Hvl, Hst, !Z.eqb_refl. cbn [andb bool_decide].
  rewrite bool_decide_true by done. unfold hab_send_import_ack, send_desc, kmodify, kbind. rewrite Hbs, out_run by done.
  cbn [snd]. unfold add_out, set_idr, mod_idr. cbn. rewrite He. f_equal.
  rewrite <- (insert_id (expid_idr e) id x Ex) at 1. by rewrite !alter_insert_eq.
Qed.

Lemma recv_request e a b id n :
  works e a b → (∀ k x, expid_idr e !! k = Some x → entry_ok a b k x) →
  (mem_msg_recv (MImport id n) e).2 = add_out (MImportAckFail id) e ∨
  ∃ x bs, expid_idr e !! id = Some x ∧ subrange 0 (payload_size x + 1) (payload (exp x)) = Some bs ∧
    (mem_msg_recv (MImport id n) e).2 =
    add_out (MImportAck (u32 (sizeof_export_desc + 1 + payload_size x)) (with_payload bs (exp x)))
      (set_idr (<[id := set_ptrs (set_remote_imported true x)]> (expid_idr e)) e).
Proof.
  intros (Hid & Hot & Hcl & Hpr & Hsc & Hal) Hent. cbn [mem_msg_recv]. unfold hab_recv_imp_req, hab_send_import_ack_fail.
  unfold kbind, kget. cbv beta iota. destruct (expid_idr e !! id) as [x|] eqn:Ex.
  2: { left. by rewrite out_run by done. }
  destruct (_ && _ && _) eqn:Ec; [|left; by rewrite out_run by done]. right.
  destruct (recv_request_granted e a b id x ltac:(done) Ex (Hent id x Ex)) as (bs & Hbs & Hrun). exists x, bs.
  split; [done|]. split; [done|]. rewrite <- Hrun. apply andb_true_iff in Ec as [[Hn%Z.eqb_eq Hv]%andb_true_iff Hst].
  cbn [mem_msg_recv]. unfold hab_recv_imp_req, kbind, kget. cbv beta iota. by rewrite Ex, Z.eqb_refl, Hv, Hst.
Qed.

Lemma recv_release e a b id :
  works e a b →
  (mem_msg_recv (MUnimport id) e).2 = e ∨
  ∃ x, expid_idr e !! id = Some x ∧ (mem_msg_recv (MUnimport id) e).2 = set_idr (<[id := set_remote_imported false x]> (expid_idr e)) e.
Proof.
  intros _. cbn [mem_msg_recv]. unfold hab_recv_unimport_msg, kbind, kget. cbv beta iota.
  destruct (expid_idr e !! id) as [x|] eqn:Ex; [|by left]. destruct (_ && _); [|by left]. right. exists x. split; [done|].
  cbn. unfold set_idr, mod_idr. cbn. f_equal. rewrite <- (insert_id (expid_idr e) id x Ex) at 1. by rewrite alter_insert_eq.
Qed.

(** What the importer's calls do to it: descriptors may change their state or go, and the one
    given up is announced. *)
Definition importer_moves (i i' : side) (id : Z) : Prop := ∃ w t,
  (i' = set_imp_whse w t i ∨ i' = add_out (MUnimport id) (set_imp_whse w t i) ∧ w !! id = None) ∧
  ∀ k y, w !! k = Some y → ∃ y', imp_whse i !! k = Some y' ∧ exp y = exp y'.

Lemma importer_stays i id : importer_moves i i id.
Proof. exists (imp_whse i), (import_total i). split; [left; by destruct i|]. eauto. Qed.

Lemma import_begin_run p i i' a b :
  works i b a → import_begin p i = (Done 0, i') → ∃ n, i' = add_out (MImport (hi_exportid p) n) i.
Proof.
  intros (Hid & Hot & Hcl & Hpr & Hsc & Hal). unfold import_begin, hab_get_vchan_fromvcid, kgets, kbind.
  destruct (negb _); [done|]. destruct (negb _); [done|]. rewrite Hpr. change (1 =? 1) with true. cbv iota.
  rewrite out_run by done. intros [= <-]. by eexists.
Qed.

Lemma alter_states (w : gmap Z export_desc_super) st id k y :
  alter (set_import_state st) id w !! k = Some y → ∃ y', w !! k = Some y' ∧ exp y = exp y'.
Proof.
  rewrite lookup_alter_Some. intros [(<- & y' & Hy & ->)|[_ Hy]]; eauto.
Qed.

Lemma import_finish_moves g p i a b :
  works i b a → (∀ k x, imp_whse i !! k = Some x → export_id (exp x) = k) →
  importer_moves i (import_finish g p i).2 (hi_exportid p).
Proof.
  intros (Hid & Hot & Hcl & Hpr & Hsc & Hal) Hids. unfold import_finish, kget, kbind. cbv beta iota.
  destruct (imp_whse i !! hi_exportid p) as [x|] eqn:Ex; [|apply importer_stays].
  case_bool_decide; [|apply importer_stays]. unfold mod_whse at 1, kmodify. cbv beta iota.
  set (i1 := set_imp_whse _ _ i).
  assert (∀ o : Z * list Z, importer_moves i (match o with (ret, pages) =>
      kbind (mod_whse (alter (set_import_state (if ret =? 0 then EXP_DESC_IMPORTED else EXP_DESC_INIT)) (hi_exportid p)) 0) (λ _,
      kbind (if (mem_proto i =? 1) && negb (ret =? 0) then
           hab_send_unimport_msg (export_id (exp x)) ;;; mod_whse (delete (hi_exportid p)) (-1)
         else kret tt) (λ _, kret (ret, pages))) i1 end).2 (hi_exportid p)) as Hrest.
  { intros [ret pages]. rewrite Hpr, (Hids _ _ Ex). change (1 =? 1) with true. cbn [andb].
    unfold mod_whse, kmodify, kbind. destruct (ret =? 0); cbn [negb].
    - eexists _, _. split; [left; reflexivity|]. cbn [imp_whse set_imp_whse i1]. intros k y (y' & Hy & ->)%alter_states. by apply alter_states in Hy.
    - unfold hab_send_unimport_msg, kbind. rewrite out_run by done. unfold kret. cbv beta iota. cbn [snd].
      exists (delete (hi_exportid p) (alter (set_import_state EXP_DESC_INIT) (hi_exportid p)
        (alter (set_import_state EXP_DESC_IMPORTING) (hi_exportid p) (imp_whse i)))). eexists. split; [right; split; [reflexivity|apply lookup_delete_eq]|]. intros k y [_ Hy]%lookup_delete_Some.
      apply alter_states in Hy as (y' & Hy & ->). by apply alter_states in Hy. }
  destruct (negb _); [apply (Hrest (- EINVAL, []))|]. unfold habmem_imp_hyp_map, habmem_import_to_dma_buf.
  destruct (g_listed g) as [pages|]; [|destruct (pages_list_create _ _ _) as [[e|pages]|]].
  - unfold kret, kbind. destruct (g_dmabuf g); [apply (Hrest (0, pages))|apply (Hrest (- EINVAL, []))].
  - unfold kret, kbind. destruct (g_dmabuf g); apply (Hrest (- EINVAL, [])).
  - unfold kret, kbind. destruct (g_dmabuf g); [apply (Hrest (0, pages))|apply (Hrest (- EINVAL, []))].
  - eexists _, _. split; [left; reflexivity|]. cbn [imp_whse set_imp_whse i1]. intros k y Hy. by apply alter_states in Hy.
Qed.

Lemma unimport_moves in_use vcid id i a b :
  works i b a → (∀ k x, imp_whse i !! k = Some x → export_id (exp x) = k) →
  importer_moves i (hab_mem_unimport in_use vcid id i).2 id.
Proof.
  intros (Hid & Hot & Hcl & Hpr & Hsc & Hal) Hids. unfold hab_mem_unimport, hab_get_vchan_fromvcid, kgets, kget, kbind. cbv beta iota.
  destruct (negb _); [apply importer_stays|]. destruct (imp_whse i !! id) as [x|] eqn:Ex; [|apply importer_stays].
  case_bool_decide; [|apply importer_stays]. unfold mod_whse, kmodify. cbv beta iota zeta.
  rewrite Hpr, (Hids _ _ Ex). change (1 =? 1) with true. cbv iota. unfold hab_send_unimport_msg, kbind. rewrite out_run by done. unfold kret. cbv beta iota. cbn [snd].
  exists (delete id (imp_whse i)). eexists. split; [right; split; [reflexivity|apply lookup_delete_eq]|]. intros k y [_ Hy]%lookup_delete_Some. eauto.
Qed.

(** ** Every step keeps the invariant *)

Section sharing.
Context (a b : Z).
Implicit Types (e i : side) (w : option hab_import).

(** A step of the exporter that sends nothing and releases nothing held. *)
Lemma exporter_step e e' i w :
  sharing a b (mk_shared e i w) → works e' a b → outbox e' = outbox e →
  (∀ id x, expid_idr e' !! id = Some x → entry_ok a b id x) → (∀ id, held e i id → held e' i id) →
  sharing a b (mk_shared e' i w).
Proof.
  intros [He Hi Hent Hheld Hph] He' Hout Hent' Hk. cbn [exporter importer pending] in *. split; cbn [exporter importer pending]; try done.
  - intros id x Hx. destruct (Hheld id x Hx). auto.
  - destruct Hph; rewrite <- ?Hout in *.
    + by apply PIdle.
    + by eapply PAsked.
    + by eapply PRefused.
    + eapply PGranted; eauto.
    + by eapply PAnswered.
Qed.

Lemma share_export env buf offset id p e i w :
  export_args_ok buf offset id p e → sharing a b (mk_shared e i w) →
  sharing a b (mk_shared (hab_mem_export env buf offset id p e).2 i w).
Proof.
  intros Hargs Hs. pose proof Hs as [He _ Hent _ _]. cbn [exporter importer pending] in *. pose proof Hargs as (Hfree & _).
  destruct (export_run env buf offset id p e a b He Hargs) as (m & l & t & -> & Hm). apply (exporter_step e); [done|done|done| |].
  - intros k x Hx. change (m !! k = Some x) in Hx. destruct Hm as [->|(y & -> & Hy)]; [by apply Hent|].
    destruct (decide (k = id)) as [->|Hne]; [|rewrite lookup_insert_ne in Hx by done; by apply Hent].
    rewrite lookup_insert_eq in Hx. by injection Hx as <-.
  - intros k [(x & Hx & Hr) Hout]. split; [|done]. exists x. split; [|done]. change (m !! k = Some x).
    destruct Hm as [->|(y & -> & Hy)]; [done|]. rewrite lookup_insert_ne; [done|]. intros ->. by rewrite Hfree in Hx.
Qed.

Lemma unexport_run vcid id e :
  (hab_mem_unexport vcid id e).2 = e ∨
  ∃ x l t, expid_idr e !! id = Some x ∧ remote_imported x = false ∧
    (hab_mem_unexport vcid id e).2 = set_exp_whse l t (set_idr (delete id (expid_idr e)) e).
Proof.
  unfold hab_mem_unexport, hab_get_vchan_fromvcid, kgets, kget, kbind. cbv beta iota.
  destruct (negb _); [by left|]. destruct (expid_idr e !! id) as [x|] eqn:Ex; [|by left].
  destruct (_ && _) eqn:E; [|by left]. apply andb_true_iff in E as [[_ Hctx]%andb_true_iff Hr%negb_true_iff].
  right. exists x. change (negb (habmem_hyp_revoke =? 0)) with false. unfold habmem_remove_export. rewrite Hctx.
  eexists _, _. split; [done|]. split; [done|]. reflexivity.
Qed.

Lemma share_unexport vcid id e i w :
  sharing a b (mk_shared e i w) → sharing a b (mk_shared (hab_mem_unexport vcid id e).2 i w).
Proof.
  intros Hs. pose proof Hs as [He _ Hent _ _]. cbn [exporter importer pending] in *.
  destruct (unexport_run vcid id e) as [->|(x & l & t & Hx & Hr & ->)]; [done|]. apply (exporter_step e); [done|done|done| |].
  - intros k y Hy. change (delete id (expid_idr e) !! k = Some y) in Hy. apply lookup_delete_Some in Hy as [_ Hy]. by apply Hent.
  - intros k [(y & Hy & Hyr) Hout]. split; [|done]. exists y. split; [|done]. change (delete id (expid_idr e) !! k = Some y). apply lookup_delete_Some. split; [|done].
    intros ->. congruence.
Qed.

(** A step of the importer's calls, when no answer is on its way. *)
Lemma importer_step e i i' id :
  works e a b → works i b a → (∀ k x, expid_idr e !! k = Some x → entry_ok a b k x) →
  (∀ k x, imp_whse i !! k = Some x → export_id (exp x) = k ∧ held e i k) →
  Forall is_unimport (outbox i) → outbox e = [] → imp_rxq i = [] → importer_moves i i' id →
  sharing a b (mk_shared e i' None).
Proof.
  intros He Hi Hent Hheld Hout Hoe Hrx (wh & t & Hi' & Hkeep).
  split; cbn [exporter importer pending]; [done|by destruct Hi' as [->|[-> _]]|done| |].
  - intros k x Hx. destruct Hi' as [->|[-> Hid]]; change (wh !! k = Some x) in Hx.
    + destruct (Hkeep k x Hx) as (y & Hy & ->). by apply Hheld.
    + destruct (Hkeep k x Hx) as (y & Hy & ->). destruct (Hheld k y Hy) as (Hk & Hex & Hnot). split; [done|]. split; [done|].
      cbn [outbox add_out set_io set_imp_whse]. intros [Hin|Hin%list_elem_of_singleton]%elem_of_app; [done|]. injection Hin as ->. congruence.
  - apply PIdle; [|done|by destruct Hi' as [->|[-> _]]].
    destruct Hi' as [->|[-> _]]; [done|]. cbn. apply Forall_app_2; [done|]. by constructor.
Qed.

Lemma held_popped e i k : held e i k → held e (popped i) k.
Proof. intros [Hx Hn]. split; [done|]. unfold popped. cbn. destruct (outbox i); [done|]. cbn. set_solver. Qed.

(** The exporter learns that the buffer at the head of the queue was given up. *)
Lemma released e i id rest k :
  outbox i = MUnimport id :: rest → held e i k → held (mem_msg_recv (MUnimport id) e).2 (popped i) k.
Proof.
  intros Hout Hh. pose proof (held_popped _ _ _ Hh) as [_ Hnot']. destruct Hh as [(x & Hx & Hr) Hnot]. split; [|done].
  assert (k ≠ id) as Hne by (intros ->; rewrite Hout in Hnot; set_solver).
  exists x. split; [|done]. unfold mem_msg_recv, hab_recv_unimport_msg, kbind, kget. cbv beta iota.
  destruct (expid_idr e !! id); [|done]. destruct (_ && _); [|done]. cbn [snd kmodify kret expid_idr mod_idr].
  by rewrite lookup_alter_ne.
Qed.

Lemma release_keeps e id :
  works e a b → (∀ k x, expid_idr e !! k = Some x → entry_ok a b k x) →
  let e' := (mem_msg_recv (MUnimport id) e).2 in
  works e' a b ∧ outbox e' = outbox e ∧ ∀ k x, expid_idr e' !! k = Some x → entry_ok a b k x.
Proof.
  intros He Hent. cbv zeta. destruct (recv_release e a b id He) as [->|(x & Hx & ->)]; [done|]. split; [done|]. split; [done|].
  intros k y Hy. change (<[id := set_remote_imported false x]> (expid_idr e) !! k = Some y) in Hy.
  destruct (decide (k = id)) as [->|Hne]; [|rewrite lookup_insert_ne in Hy by done; by apply Hent].
  rewrite lookup_insert_eq in Hy. injection Hy as <-. exact (Hent id x Hx).
Qed.

Lemma share_to_exporter m rest e i w :
  outbox i = m :: rest → sharing a b (mk_shared e i w) → sharing a b (mk_shared (mem_msg_recv m e).2 (popped i) w).
Proof.
  intros Hout [He Hi Hent Hheld Hph]. cbn [exporter importer pending] in *.
  assert (outbox (popped i) = rest) as Hpop by (unfold popped; cbn; by rewrite Hout).
  assert (∀ id, m = MUnimport id → sharing a b (mk_shared (mem_msg_recv m e).2 (popped i) w)) as Hrel.
  { intros id ->. destruct (release_keeps e id He Hent) as (He' & Hoe' & Hent').
    split; cbn [exporter importer pending]; [done|done|done| |].
    - intros k x Hx. destruct (Hheld k x Hx). split; [done|]. by eapply released.
    - destruct Hph as [Hus|p us n Hus Hu|?|? ? ? Ho|? ? ? Ho]; try congruence; rewrite Hout in Hus.
      + apply PIdle; [rewrite Hpop; by inversion Hus|by rewrite Hoe'|done].
      + destruct us as [|u us]; [done|]. injection Hus as <- Hrest. apply (PAsked _ _ _ _ p us n); [by rewrite Hpop|by inversion Hu|by rewrite Hoe'|done]. }
  destruct Hph as [Hus|p us n Hus Hu Hoe Hrx|? Ho|? ? ? Ho|? ? ? Ho]; try congruence; rewrite Hout in Hus.
  { inversion Hus as [|m' l Hm Hl]; subst. destruct m; try done. by eapply Hrel. }
  destruct us as [|u us]; [|injection Hus as -> Hrest; inversion Hu as [|m' l Hm Hl]; subst; destruct u; try done; by eapply Hrel].
  injection Hus as -> ->.
  destruct (recv_request e a b (hi_exportid p) n He Hent) as [->|(x & bs & Hx & Hbs & ->)].
  - split; cbn [exporter importer pending]; [done|done|done| |].
    + intros k y Hy. destruct (Hheld k y Hy) as [Hk Hh]. split; [done|]. exact (held_popped _ _ _ Hh).
    + apply PRefused; [done|cbn; by rewrite Hoe|done].
  - set (e' := add_out _ _).
    assert (∀ k y, expid_idr e !! k = Some y → ∃ y', expid_idr e' !! k = Some y' ∧ (remote_imported y = true → remote_imported y' = true) ∧ entry_ok a b k y') as Hidr.
    { intros k y Hy. change (expid_idr e') with (<[hi_exportid p := set_ptrs (set_remote_imported true x)]> (expid_idr e)).
      destruct (decide (k = hi_exportid p)) as [->|Hne].
      - rewrite lookup_insert_eq. eexists. split; [done|]. split; [done|]. destruct (Hent _ _ Hx) as (_ & _ & Hst & Hsend). done.
      - rewrite lookup_insert_ne by done. exists y. auto. }
    assert (held e' (popped i) (hi_exportid p)) as Hheldp.
    { split; [|rewrite Hpop; set_solver]. eexists. split; [apply lookup_insert_eq|]. done. }
    split; cbn [exporter importer pending]; [done|done| | |].
    + intros k y Hy. change (<[hi_exportid p := set_ptrs (set_remote_imported true x)]> (expid_idr e) !! k = Some y) in Hy.
      destruct (decide (k = hi_exportid p)) as [->|Hne]; [|rewrite lookup_insert_ne in Hy by done; by apply Hent].
      rewrite lookup_insert_eq in Hy. injection Hy as <-. destruct (Hent _ _ Hx) as (_ & _ & Hst & Hsend). done.
    + intros k y Hy. destruct (Hheld k y Hy) as [Hk Hh]. split; [done|].
      destruct (held_popped _ _ _ Hh) as [(z & Hz & Hzr) Hnot]. split; [|done].
      destruct (Hidr k z Hz) as (z' & Hz' & Hr & _). eauto.
    + destruct (Hent _ _ Hx) as (_ & _ & _ & Hsend). eapply (PGranted _ _ _ _ p x bs); [done|done|done| |done|done].
      unfold e'. cbn [outbox add_out set_io set_idr mod_idr]. by rewrite Hoe.
Qed.

Lemma share_to_importer m rest e i w :
  outbox e = m :: rest → sharing a b (mk_shared e i w) → sharing a b (mk_shared (popped e) (mem_msg_recv m i).2 w).
Proof.
  intros Hout [He Hi Hent Hheld Hph]. cbn [exporter importer pending] in *.
  destruct Hph as [? Ho|? ? ? ? ? Ho|p Hi0 Ho Hrx|p x bs Hi0 Hsend Hbs Ho Hrx Hh|? ? ? ? Ho]; try congruence; rewrite Ho in Hout;
    injection Hout as <- <-; assert (outbox (popped e) = []) as Hpop by (unfold popped; cbn; by rewrite Ho).
  - rewrite (recv_refused i a b) by done. split; cbn [exporter importer pending]; [done|done|done|exact Hheld|].
    eapply PAnswered; [done|done|]. cbn. by rewrite Hrx.
  - destruct (recv_granted i a b _ _ _ _ _ Hi Hsend Hbs eq_refl) as (added & wh & t & -> & Hkeep & _).
    split; cbn [exporter importer pending]; [done|done|done| |].
    + intros k y Hy. change (wh !! k = Some y) in Hy. destruct (Hkeep k y Hy) as [Hy'|[-> Hid]]; [exact (Hheld k y Hy')|]. done.
    + eapply PAnswered; [done|done|]. cbn. by rewrite Hrx.
Qed.

Lemma find_answer p e i r i' :
  works i b a → hab_import_ack_find (import_ack_for p i) i = (Done r, i') → phase a b e i (Some p) →
  (r = None ∧ i' = i) ∨ ∃ added, r = Some added ∧ i' = set_imp_rxq [] i ∧ outbox i = [] ∧ outbox e = [].
Proof.
  intros (Hid & Hot & Hcl & _) Hrun Hph. unfold hab_import_ack_find, kget, kbind, kmodify in Hrun. cbv beta iota in Hrun.
  remember (Some p) as w eqn:Ew.
  destruct Hph as [|q us n ? ? ? Hrx|q ? ? Hrx|q ? ? ? ? ? ? Hrx|q added age Ho Hoe Hrx]; [discriminate Ew|injection Ew as ->..]; rewrite Hrx in Hrun; cbn [take_ack] in Hrun;
    rewrite ?Hcl in Hrun.
  1-3: left; injection Hrun as <- <-; split; [done|]; destruct i; cbn in *; by subst.
  right. exists added. unfold same_iack, import_ack_for in Hrun. cbn [ia_id ia_local ia_remote] in Hrun. rewrite Hid, Hot, !Z.eqb_refl in Hrun.
  cbn in Hrun. by injection Hrun as <- <-.
Qed.

Lemma share_step_keeps s s' : share_step s s' → sharing a b s → sharing a b s'.
Proof.
  intros Hstep Hs. destruct Hstep as [env buf offset id p e i w Hargs|vcid id e i w|m rest e i w Hout|m rest e i w Hout
    |p e i i' Hrun|p e i i' Hrun|g p e i i' added Hrun|in_use vcid id e i].
  - by apply share_export.
  - by apply share_unexport.
  - by eapply share_to_importer.
  - by eapply share_to_exporter.
  - destruct Hs as [He Hi Hent Hheld Hph]. cbn [exporter importer pending] in *.
    destruct (import_begin_run p i i' a b Hi Hrun) as [n ->]. inversion Hph as [Hus Hoe Hrx| | | |]; subst.
    split; cbn [exporter importer pending]; [done|done|done| |].
    + intros k x Hx. destruct (Hheld k x Hx) as (Hk & Hex & Hnot). split; [done|]. split; [done|]. cbn. set_solver.
    + eapply PAsked; [reflexivity|done|done|done].
  - pose proof Hs as [_ Hi _ _ Hph]. cbn [exporter importer pending] in *.
    destruct (find_answer p e i None i' Hi Hrun Hph) as [[_ ->]|(added & [=] & _)]. done.
  - destruct Hs as [He Hi Hent Hheld Hph]. cbn [exporter importer pending] in *.
    destruct (find_answer p e i (Some added) i' Hi Hrun Hph) as [[[=] _]|(_ & _ & -> & Ho & Hoe)].
    apply (importer_step e (set_imp_rxq [] i) _ (hi_exportid p)); try done; [cbn; by rewrite Ho|].
    destruct added; [|apply importer_stays]. eapply import_finish_moves; [exact Hi|]. intros k x Hx. by apply Hheld.
  - destruct Hs as [He Hi Hent Hheld Hph]. cbn [exporter importer pending] in *. inversion Hph as [Hus Hoe Hrx| | | |].
    apply (importer_step e i _ id); try done. eapply unimport_moves; [exact Hi|]. intros k x Hx. by apply Hheld.
Qed.

Lemma share_init_ok va vb : sharing a b (share_init a b va vb).
Proof. split; cbn; try done. by apply PIdle. Qed.

(** C29: What is imported stays exported, as long as no send and no allocation fails on either
    side and the channel stays open ([share_init] has no failures to come): in every state two
    machines reach by exporting, unexporting, importing with one thread, unimporting and
    delivering messages, in any order, each id in the importer's warehouse is exported and
    marked as imported, so that [hab_mem_unexport] answers -EBUSY for it and changes nothing.
    Exports have a fresh id, a size below 2^32 and a buffer with that many pages, shared from
    the start of an entry of its table, whose descriptor does not fill its last page of memory
    ([export_args_ok]). An acknowledgement that cannot be sent breaks it
    ([lost_acknowledgement_releases_import]). *)
Theorem imported_stays_exported va vb s id x :
  rtc share_step (share_init a b va vb) s → imp_whse (importer s) !! id = Some x →
  (∃ y, expid_idr (exporter s) !! id = Some y ∧ remote_imported y = true) ∧
  hab_mem_unexport a id (exporter s) = (Done (- EBUSY), exporter s).
Proof.
  intros Hsteps Hx. assert (sharing a b s) as [He _ _ Hheld _].
  { pose proof (share_init_ok va vb) as H0. induction Hsteps; [done|]. apply IHHsteps; [done|]. by eapply share_step_keeps. }
  destruct (Hheld id x Hx) as (_ & (y & Hy & Hr) & _). split; [by exists y|].
  destruct He as (Hid & _). unfold hab_mem_unexport, hab_get_vchan_fromvcid, kgets, kget, kbind. cbv beta iota.
  rewrite Hid, Z.eqb_refl. cbn [andb orb negb]. rewrite Hy, Hr. by rewrite andb_false_r.
Qed.
End sharing.

(** ** From the exporter's pages to the importer's *)

Definition first_out (s : side) : mem_message := default (MUnimport 0) (head (outbox s)).

(** The other machine handles the importer's message and its answer is delivered. *)
Definition answer (e i : side) : side :=
  let e' := (mem_msg_recv (first_out i) e).2 in (mem_msg_recv (first_out e') (popped i)).2.

Section delivery.
Context (a b : Z) (bf : dma_buf) (offset n id flags : Z).
Context (Hid : 0 < id < 2 ^ 31) (Hbuf : buf_ok bf offset n).
Context (Hpage : (sizeof_super + sizeof_compressed_pfns + n * sizeof_region) mod PAGE_SIZE ≠ 0).
Context (Hfits : sizeof_export_desc + 1 + (sizeof_compressed_pfns + sizeof_region * n) ≤ HAB_HEADER_SIZE_MAX).

Lemma export_delivers e :
  works e a b → expid_idr e !! id = None →
  ∃ x l t m, hab_mem_export [] (inr bf) offset id (mk_export true a (n * PAGE_SIZE) flags) e =
      (Done (0, id), set_exp_whse l t (set_idr (<[id := x]> (expid_idr e)) e)) ∧
    entry_ok a b id x ∧ payload_count (exp x) = n ∧
    sizeof_compressed_pfns + sizeof_region * n < zlen m ∧
    habmem_compress_pfns bf offset n m = Some (inr (payload_size x, payload (exp x))).
Proof using Hid Hbuf Hpage Hfits.
  intros Hw Hfree. pose proof Hw as (Hsd & _ & Hcl & Hpr & _). pose proof Hbuf as (_ & Hn & _).
  unfold sizeof_export_desc, sizeof_compressed_pfns, sizeof_region, HAB_HEADER_SIZE_MAX in Hfits.
  assert (n ≤ MAX_EXP_PAYLOAD_COUNT) as Hmax by (unfold MAX_EXP_PAYLOAD_COUNT; lia).
  destruct (grant_run bf offset n flags id e a b Hw Hid Hmax Hbuf Hpage) as (size & x & Hrun & Hps & _ & Hok & Hsize & Hpc & m & Hm & Hc).
  assert (size ≤ 16 + 8 * n) as Hle.
  { destruct (table_rebuilds (λ _, true) bf offset n m (exp x) Hbuf Hmax Hm ltac:(done) Hpc) as (size' & m' & Hc' & Hle & _).
    rewrite Hc in Hc'. injection Hc' as <- _. done. }
  unfold hab_mem_export, hab_get_vchan_fromvcid, kgets. cbn [he_sizebytes he_buffer he_vcid he_flags].
  rewrite (proj2 (Z.eqb_neq (n * PAGE_SIZE) 0)), Z_mod_mult by (unfold PAGE_SIZE; lia). cbn [orb negb andb Z.eqb].
  unfold kbind at 1. rewrite Hsd, Hcl, Z.eqb_refl. cbn [orb negb andb]. rewrite Z.div_mul by done.
  rewrite (kbind_Done _ _ _ _ _ Hrun). change (0 <? 0) with false. cbv iota beta. set (s1 := set_idr _ e).
  assert (expid_idr s1 !! id = Some x) as Hlook by apply lookup_insert_eq.
  unfold habmem_export_vchan. rewrite u32_small by (unfold sizeof_export_desc; lia).
  unfold sizeof_export_desc. destruct (Z.ltb_spec HAB_HEADER_SIZE_MAX (88 + 1 + size)) as [Hbig|_]; [unfold HAB_HEADER_SIZE_MAX in Hbig; lia|].
  unfold kget, kbind. cbv beta iota. rewrite Hlook. change (mem_proto s1) with (mem_proto e). rewrite Hpr. change (1 =? 0) with false. cbv iota.
  unfold kret, kmodify. cbn [negb Z.eqb].
  exists (set_success x), (exp_whse e ++ [id]), (export_total e + 1), m. split.
  { unfold s1, set_idr, mod_idr, set_exp_whse. cbn. by rewrite alter_insert_eq. }
  split; [apply Hok; unfold sizeof_export_desc, HAB_HEADER_SIZE_MAX; lia|]. split; [done|]. split; [done|].
  cbn [payload_size set_success exp]. by rewrite Hps.
Qed.

Lemma wait_answered i i' p added age :
  works i b a → imp_rxq i = [] → works i' b a → imp_rxq i' = [(mk_iack (hi_exportid p) b a added, age)] →
  ∀ f, f i = i' → hab_import_ack_wait [f] (import_ack_for p i) i = (Done (0, added), set_imp_rxq [] i').
Proof using.
  intros (Hi1 & Hi2 & Hcl & _) Hrx (_ & _ & Hcl' & _) Hrx' f Hf. unfold hab_import_ack_wait, wait_timeout, hab_import_ack_find, wait_result.
  unfold kbind, kget, kgets, kmodify. cbv beta iota. rewrite Hrx. cbn [take_ack]. cbv beta iota. rewrite Hcl. unfold kret at 1. cbv beta iota.
  replace (set_imp_rxq [] i) with i by (destruct i; cbn in *; by subst). rewrite Hf, Hrx'. cbn [take_ack]. unfold same_iack, import_ack_for.
  cbn [ia_id ia_local ia_remote]. rewrite Hi1, Hi2, !Z.eqb_refl. cbn. by rewrite Hcl'.
Qed.

(** The importer finds the descriptor and maps its pages. *)
Lemma finish_maps g p s y pages :
  imp_whse s !! hi_exportid p = Some y → import_state y = EXP_DESC_INIT →
  u32 (Z.shiftl (payload_count (exp y)) PAGE_SHIFT) = hi_sizebytes p →
  pages_list_create (g_pfn_ok g) (g_alloc g) (exp y) = Some (inr pages) → g_dmabuf g = true → g_listed g = None →
  (import_finish g p s).1 = Done (0, pages).
Proof using.
  intros Hy Hst Hsz Hpages Hdma Hlist. unfold import_finish, habmem_imp_hyp_map, habmem_import_to_dma_buf, mod_whse, kbind, kget, kmodify. cbv beta iota.
  rewrite Hy, Hst, bool_decide_true by done. rewrite Hsz, Z.eqb_refl. cbn [negb]. rewrite Hlist, Hpages, Hdma. unfold kret. cbv beta iota.
  change (0 =? 0) with true. by rewrite andb_false_r.
Qed.

(** C30: A buffer that is exported can be imported, page for page: on an open channel, with
    the messages delivered and no send or allocation failing, [hab_mem_export] gives out the
    fresh id and [hab_mem_import] of that id and size ends with 0 and exactly the pages of the
    buffer. The buffer has the pages; the offset is the start of an entry of its scatter list
    ([buf_ok]; elsewhere a wrong page is shared, [offset_shares_wrong_page] in HabPages); its
    table fits a message and does not fill its last page of memory. On the importer the id is
    not imported yet, no page list of that id is still alive from an earlier import
    ([g_listed]; its pages would be used, [living_list_is_reused]), and the kernel makes the
    dma-buf and accepts the first page. *)
Theorem export_import_delivers g e i :
  works e a b → works i b a → outbox e = [] → outbox i = [] → imp_rxq i = [] →
  expid_idr e !! id = None → imp_whse i !! id = None → g_alloc g = true → g_dmabuf g = true → g_listed g = None →
  (∀ p, head (shared_pages bf offset n) = Some p → g_pfn_ok g p = true) →
  let export := hab_mem_export [] (inr bf) offset id (mk_export true a (n * PAGE_SIZE) flags) e in
  export.1 = Done (0, id) ∧
  (hab_mem_import [answer export.2] g (mk_import b (n * PAGE_SIZE) id) i).1 = Done (0, shared_pages bf offset n).
Proof using Hid Hbuf Hpage Hfits.
  intros He Hi Hoe Hoi Hrx Hfree Hnone Hga Hgd Hgl Hpf. cbv zeta.
  destruct (export_delivers e He Hfree) as (x & l & t & m & -> & Hent & Hpc & Hm & Hc). cbn [fst snd]. split; [done|].
  set (e1 := set_exp_whse l t _). pose proof Hbuf as (_ & Hn & _). pose proof Hfits as Hfits'.
  unfold sizeof_export_desc, sizeof_compressed_pfns, sizeof_region, HAB_HEADER_SIZE_MAX in Hfits'.
  assert (n ≤ MAX_EXP_PAYLOAD_COUNT) as Hmax by (unfold MAX_EXP_PAYLOAD_COUNT; lia).
  destruct (recv_request_granted e1 a b id x) as (bs & Hbs & He2); [done|apply lookup_insert_eq|done|].
  rewrite Hpc, u32_small in He2 by lia. pose proof Hent as (_ & _ & _ & Hsend).
  set (p := mk_import b (n * PAGE_SIZE) id). set (i1 := add_out (MImport id n) i).
  destruct (recv_granted (popped i1) a b id (exp x) (payload_size x) bs _ Hi Hsend Hbs eq_refl) as (added & w & t' & Hi2 & _ & Hw).
  destruct (Hw Hnone) as [-> ->]. change (imp_rxq (popped i1)) with (imp_rxq i) in Hi2. rewrite Hrx in Hi2.
  set (i2 := set_imp_rxq _ _) in Hi2.
  assert (answer (e1) i1 = i2) as Hans.
  { unfold answer. replace (first_out i1) with (MImport id n) by (unfold first_out; cbn; by rewrite Hoi). rewrite He2.
    unfold first_out at 1. cbn [outbox add_out set_io set_idr mod_idr e1 set_exp_whse]. rewrite Hoe. exact Hi2. }
  assert (import_begin p i = (Done 0, i1)) as Hbegin.
  { destruct Hi as (Hi1 & _ & Hcl & Hpr & Hsc & _). unfold import_begin, hab_get_vchan_fromvcid, kgets, kbind. cbn [hi_sizebytes hi_vcid hi_exportid p].
    rewrite Z_mod_mult. cbn [negb Z.eqb]. cbv beta iota. rewrite Hi1, Hcl, Z.eqb_refl. cbn [negb andb orb]. rewrite Hpr. change (1 =? 1) with true. cbv iota. rewrite out_run by done.
    unfold i1. do 4 f_equal. unfold PAGE_SIZE, PAGE_SHIFT. rewrite Z.shiftr_div_pow2 by lia. by rewrite Z.div_mul. }
  unfold hab_mem_import. rewrite (kbind_Done _ _ _ _ _ Hbegin). cbn [negb Z.eqb]. unfold kget. unfold kbind at 1.
  pose proof Hi as (_ & _ & _ & Hpr & _). change (mem_proto i1) with (mem_proto i). rewrite Hpr. change (1 =? 1) with true. cbv iota beta.
  rewrite (kbind_Done _ _ _ _ _ (wait_answered i1 i2 p true 0 Hi Hrx Hi eq_refl (answer e1) Hans)). cbn [negb Z.eqb].
  destruct (table_rebuilds (g_pfn_ok g) bf offset n m (local_ids (popped i1) (exp x)) Hbuf Hmax Hm Hpf) as (size & m' & Hc' & _ & Hpages);
    [by rewrite (proj1 (proj2 (local_ids_keeps _ _)))|].
  rewrite Hc in Hc'. injection Hc' as <- <-.
  eapply finish_maps; [apply lookup_insert_eq|done| | |done|done].
  - cbn [exp]. rewrite (proj1 (proj2 (local_ids_keeps _ _))). cbn [payload_count with_payload]. rewrite Hpc. unfold PAGE_SHIFT, p, PAGE_SIZE. cbn [hi_sizebytes].
    rewrite Z.shiftl_mul_pow2 by lia. apply u32_small. lia.
  - rewrite Hga, <- Hpages. f_equal. apply subrange_Some in Hbs as (_ & _ & _ & ->). change (drop (Z.to_nat 0) (payload (exp x))) with (payload (exp x)).
    cbn [exp]. unfold local_ids. by destruct (_ =? _).
Qed.
End delivery.

(** ** Runs *)

(** One export of two pages and its import, stage by stage. *)
Module demo.
Definition p_exp : hab_export := mk_export true 1 8192 0.
Definition p_imp : hab_import := mk_import 2 8192 1.
Definition g : glue := mk_glue (λ _, true) true true None.
Definition e1 : side := (hab_mem_export [] (inr (own_buf [7; 40])) 0 1 p_exp (fresh_side 1 2 3 4)).2.
Definition i1 : side := (import_begin p_imp (fresh_side 2 1 4 3)).2.
Definition e2 : side := (mem_msg_recv (MImport 1 2) e1).2.
Definition ack : mem_message := default (MUnimport 0) (head (outbox e2)).
Definition i2 : side := (mem_msg_recv ack (popped i1)).2.
Definition i3 : side := (import_finish g p_imp (set_imp_rxq [] i2)).2.

(** A buffer of two pages is exported, imported and mapped. *)
Example shared_pages_arrive :
  hab_mem_import [λ _, i2] g p_imp (fresh_side 2 1 4 3) = (Done (0, [7; 40]), i3).
Proof. vm_compute. reflexivity. Qed.

Lemma demo_buf_ok : buf_ok (own_buf [7; 40]) 0 2.
Proof. split; [done|]. split; [done|]. split; [done|]. split; [|done]. unfold frame. repeat constructor; done. Qed.

Lemma imported_stays_exported_witness :
  ∃ s x, rtc share_step (share_init 1 2 3 4) s ∧ imp_whse (importer s) !! 1 = Some x ∧
    hab_mem_unexport 1 1 (exporter s) = (Done (- EBUSY), exporter s).
Proof.
  assert (rtc share_step (share_init 1 2 3 4) (mk_shared (popped e2) i3 None)) as Hs.
  { apply (rtc_l _ _ (mk_shared e1 (fresh_side 2 1 4 3) None)).
    { apply (SExport [] (inr (own_buf [7; 40])) 0 1 p_exp). split; [done|]. split; [lia|]. split; [cbn; lia|]. intros n Hn.
      split; [exact demo_buf_ok|by vm_compute]. }
    apply (rtc_l _ _ (mk_shared e1 i1 (Some p_imp))); [by apply SImport|].
    apply (rtc_l _ _ (mk_shared e2 (popped i1) (Some p_imp))); [by apply (SToExporter (MImport 1 2) [])|].
    apply (rtc_l _ _ (mk_shared (popped e2) i2 (Some p_imp))).
    { apply (SToImporter ack []). vm_compute. reflexivity. }
    apply (rtc_l _ _ (mk_shared (popped e2) i3 None)); [|done].
    apply (SImported g p_imp (popped e2) i2 (set_imp_rxq [] i2) true). vm_compute. reflexivity. }
  assert (is_Some (imp_whse i3 !! 1)) as [x Hx] by (vm_compute; by eexists).
  exists (mk_shared (popped e2) i3 None), x. split; [exact Hs|]. split; [exact Hx|].
  exact (proj2 (imported_stays_exported 1 2 3 4 (mk_shared (popped e2) i3 None) 1 x Hs Hx)).
Defined.

Lemma export_import_delivers_witness :
  (hab_mem_export [] (inr (own_buf [7; 40])) 0 1 (mk_export true 1 (2 * PAGE_SIZE) 0) (fresh_side 1 2 3 4)).1 = Done (0, 1) ∧
  (hab_mem_import [answer (hab_mem_export [] (inr (own_buf [7; 40])) 0 1 (mk_export true 1 (2 * PAGE_SIZE) 0) (fresh_side 1 2 3 4)).2] g
     (mk_import 2 (2 * PAGE_SIZE) 1) (fresh_side 2 1 4 3)).1 = Done (0, [7; 40]).
Proof.
  apply (export_import_delivers 1 2 (own_buf [7; 40]) 0 2 1 0 ltac:(lia) demo_buf_ok ltac:(done) ltac:(done) g (fresh_side 1 2 3 4) (fresh_side 2 1 4 3));
    done.
Defined.

(** Two threads on the importer: while the first gives the buffer back the second asks for it.
    The request is answered before the release is seen, and the second thread maps a buffer that
    the exporter believes is free. *)
Definition i4 : side := (import_begin p_imp i3).2.
Definition i5 : side := (hab_mem_unimport false 2 1 i4).2.
Definition e3 : side := (mem_msg_recv (MUnimport 1) (mem_msg_recv (MImport 1 2) (popped e2)).2).2.
Definition i6 : side := (mem_msg_recv ack i5).2.

Example second_importer_races_release :
  outbox i5 = [MImport 1 2; MUnimport 1] ∧ outbox e3 = [ack] ∧
  (import_finish g p_imp (set_imp_rxq [] i6)).1 = Done (0, [7; 40]) ∧
  (hab_mem_unexport 1 1 e3).1 = Done 0.
Proof. by vm_compute. Qed.

(** A request repeated for an imported buffer, with no memory for its acknowledgement: the
    exporter is told that the buffer is free, which is still mapped. *)
Definition i7 : side := (mem_msg_recv ack (set_io [] [] [true; false] i3)).2.

Example lost_acknowledgement_releases_import :
  outbox i7 = [MUnimport 1] ∧ (import_state <$> imp_whse i7 !! 1) = Some EXP_DESC_IMPORTED ∧
  (hab_mem_unexport 1 1 (mem_msg_recv (MUnimport 1) (mem_msg_recv (MImport 1 2) (popped e2)).2).2).1 = Done 0.
Proof. by vm_compute. Qed.

(** A buffer that is still in use is reported as busy, and given back all the same. *)
Example busy_buffer_is_given_back :
  (hab_mem_unimport true 2 1 i3).1 = Done (- EBUSY) ∧ outbox (hab_mem_unimport true 2 1 i3).2 = [MUnimport 1] ∧
  imp_whse (hab_mem_unimport true 2 1 i3).2 !! 1 = None.
Proof. by vm_compute. Qed.

(** The pages of an earlier import of the id, which someone still holds, are handed out instead of
    those of the descriptor: the list is found by the id and the physical channel alone. *)
Example living_list_is_reused :
  (import_finish (mk_glue (λ _, true) true true (Some [3; 4])) p_imp (set_imp_rxq [] i2)).1 = Done (0, [3; 4]).
Proof. by vm_compute. Qed.

(** 491 pages, no two of them neighbours: the table ends with the descriptor's memory, and the
    byte sent behind it is not there. *)
Definition scattered : side :=
  (hab_mem_export [] (inr (own_buf ((λ k, 2 * k) <$> seqZ 1 491))) 0 1 (mk_export true 1 (491 * 4096) 0) (fresh_side 1 2 3 4)).2.

Example full_table_is_read_past_its_end : (mem_msg_recv (MImport 1 491) scattered).1 = Undef.
Proof. by vm_compute. Qed.
End demo.
