(* ===== verification/WaltData.v ===== *)
(** * WALT window statistics: data (kernel/sched/walt/walt.h, include/linux/sched/walt.h)

    The part of [struct walt_task_struct] and [struct walt_rq] that window-based
    load tracking reads and writes, grouped by the functions that own each field:
    a task's window counters, its demand history, its pipeline bitmap, and a run
    queue's windows, busy-time sums, pending subtractions, top-task tables and
    aggregate statistics.  Nanosecond clocks and the u64 busy-time sums are
    integers (2^64 ns is 584 years); u32, u16 and u8 fields are kept at their
    width.  [WALT_BUG], [WALT_PANIC] and the calls into other components are
    events of a list. *)

From S2P Require Import Prelude.

(** ** Constants *)
Definition SCHED_FREQ_ACCOUNT_WAIT_TIME : bool := false.
Definition SCHED_ACCOUNT_WAIT_TIME : bool := true.
Definition NEW_TASK_ACTIVE_TIME : Z := 100000000.
Definition SCHED_CAPACITY_SHIFT : Z := 10.
Definition NUM_TRACKED_WINDOWS : Z := 2.
Definition NUM_LOAD_INDICES : Z := 1000.
Definition RAVG_HIST_SIZE : Z := 5.
Definition NUM_BUSY_BUCKETS : Z := 16.
Definition NUM_BUSY_BUCKETS_SHIFT : Z := 4.
Definition NSEC_PER_MSEC : Z := 1000000.
Definition U64_MAX : Z := 2 ^ 64 - 1.
Definition DEFAULT_CGROUP_COLOC_ID : Z := 1.
Definition GIANT_UTIL_THRESH_PCT : Z := 700.
Definition MAX_YIELD_CNT_PER_TASK_THR : Z := 25.
Definition YIELD_CNT_MASK : Z := 0x7F.

(** [wts->flags] *)
Definition WALT_INIT_BIT : Z := BIT 0.
Definition WALT_TRAILBLAZER_BIT : Z := BIT 1.
Definition WALT_IDLE_TASK_BIT : Z := BIT 2.
Definition WALT_LRB_PIPELINE_BIT : Z := BIT 3.
Definition WALT_GIANT_BIT : Z := BIT 4.

Inductive task_event :=
  PUT_PREV_TASK | PICK_NEXT_TASK | TASK_WAKE | TASK_MIGRATE | TASK_UPDATE | IRQ_UPDATE.
#[export] Instance task_event_eq_dec : EqDecision task_event.
Proof. solve_decision. Defined.

(** [sysctl_sched_window_stats_policy] *)
Definition WINDOW_STATS_RECENT : Z := 0.
Definition WINDOW_STATS_MAX : Z := 1.
Definition WINDOW_STATS_MAX_RECENT_AVG : Z := 2.
Definition WINDOW_STATS_AVG : Z := 3.

(** What the functions report: a failed check, and calls into components that
    are modelled elsewhere or not at all. *)
Inductive walt_out :=
  | BUG_CRA_UNDERFLOW                   (* cumulative_runnable_avg_scaled < 0 *)
  | BUG_PRED_UNDERFLOW                  (* pred_demands_sum_scaled < 0 *)
  | BUG_BUSY_UNDERFLOW                  (* a busy time check failed *)
  | BUG_WINDOW_MISMATCH                 (* task and run queue window differ *)
  | BUG_MARK_AHEAD                      (* mark_start more than a window ahead *)
  | BUG_MIGRATE_STATE                   (* migrated task is neither queued nor waking *)
  | BUG_GROUP                           (* not the default group *)
  | BUG_DOUBLE_ENQUEUE | BUG_DOUBLE_DEQUEUE | BUG_DEQUEUE_CPU | BUG_MISSED_DELAYED
  | BUG_NR_BIG | BUG_NR_TRAILBLAZER
  | PANIC_CLOCK                         (* wallclock behind the run queue or the task *)
  | PANIC_NOT_IDLE                      (* irq time for a task that is not idle *)
  | ACCOUNT_YIELDS (wallclock : Z)
  | NR_PROD (cpu inc : Z)               (* sched_update_nr_prod *)
  | FORCE_BIG_TASK_EVAL (cpu : Z)
  | IRQ_WORK_ROLLOVER | IRQ_WORK_MIGRATION
  | GOV_PIPELINE_BUSY (cpu : Z)         (* waltgov_run_callback *)
  | GOV_CALLBACK (cpu flag : Z)
  | WAKEUP_CTR (cpu : Z)
  | MISFIT_LOAD (cpu load : Z)          (* rq->misfit_task_load *)
  | CFS_ENQUEUE (cpu pid : Z) | CFS_DEQUEUE (cpu pid : Z).  (* walt_cfs_{en,de}queue_task *)
#[export] Instance walt_out_eq_dec : EqDecision walt_out.
Proof. solve_decision. Defined.

Definition bug_if (b : bool) (o : walt_out) : list walt_out := if b then [o] else [].

(** The failed checks of the window and busy-time bookkeeping. *)
Definition is_window_bug (o : walt_out) : bool :=
  match o with
  | BUG_BUSY_UNDERFLOW | BUG_WINDOW_MISMATCH | BUG_MARK_AHEAD | PANIC_CLOCK | PANIC_NOT_IDLE => true
  | _ => false
  end.
Definition quiet (o : list walt_out) : Prop := Forall (λ b, is_window_bug b = false) o.

(** ** A task's statistics: [struct walt_task_struct] *)
Record task_window := mk_task_window {
  mark_start : Z;
  window_start : Z;
  curr_window : Z;
  prev_window : Z;
  curr_window_cpu : Z → Z;
  prev_window_cpu : Z → Z;
  active_time : Z;
}.

Record task_demand := mk_task_demand {
  sum : Z;
  demand : Z;
  coloc_demand : Z;
  sum_history : list Z;        (* RAVG_HIST_SIZE entries *)
  sum_history_util : list Z;
  cidx : Z;
  busy_buckets : list Z;       (* NUM_BUSY_BUCKETS entries *)
  bucket_bitmask : Z;
  demand_scaled : Z;
  pred_demand_scaled : Z;
  unfilter : Z;
  high_util_history : Z;
  yield_state : Z;
}.

(** Low-activity tracking of pipeline tasks and the busy bitmap. *)
Record task_pipe := mk_task_pipe {
  pipeline_cpu : Z;
  busy_bitmap : Z;
  period_contrib_run : Z;
  lst : bool;
  lst_tgt_ns : Z;
  lst_state_counter : Z;
  continuous_active : Z;
  event_windows : Z;
}.

(** Migration and enqueue bookkeeping. *)
Record task_place := mk_task_place {
  prev_cpu : Z;
  new_cpu : Z;
  enqueue_after_migration : Z;
  prev_on_rq : Z;
  prev_on_rq_cpu : Z;
  last_enqueued_ts : Z;
  last_wake_ts : Z;
  misfit : bool;
  rtg_high_prio : bool;
}.

Record walt_task_struct := mk_wts {
  flags : Z;
  win : task_window;
  dem : task_demand;
  pipe : task_pipe;
  place : task_place;
  grp : option Z;              (* the id of the related thread group *)
  load_boost : Z;
  boosted_task_load : Z;
  cpu_cycles : Z;
  iowaited : bool;
}.

(** ** A run queue's statistics: [struct walt_rq] *)
Record walt_sched_stats := mk_walt_sched_stats {
  nr_big_tasks : Z;
  nr_trailblazer_tasks : Z;
  nr_giant_tasks : Z;
  cumulative_runnable_avg_scaled : Z;
  pred_demands_sum_scaled : Z;
  nr_rtg_high_prio_tasks : Z;
}.

(** [struct group_cpu_time]; the run queue's own four sums have the same shape. *)
Record group_cpu_time := mk_group_cpu_time {
  curr_runnable_sum : Z;
  prev_runnable_sum : Z;
  nt_curr_runnable_sum : Z;
  nt_prev_runnable_sum : Z;
}.

Record load_subtractions := mk_load_subtractions {
  ls_window_start : Z;
  subs : Z;
  new_subs : Z;
}.

(** [top_tasks], [top_tasks_bitmap] and the indices into them. *)
Record top_state := mk_top_state {
  top_tasks : bool → Z → Z;        (* table, load index: u8 counts *)
  top_tasks_bitmap : bool → Z;     (* a bit per load index, highest load first *)
  curr_table : bool;               (* 0 is false *)
  prev_top : Z;
  curr_top : Z;
}.

(** What the run queue last reported to the frequency governor, and the big task
    of the CPU ([big_task_pid]: 0 none, -1 several). *)
Record rq_gov := mk_rq_gov {
  old_busy_time : Z;
  old_estimated_time : Z;
  uclamp_min : Z;
  uclamp_max : Z;
  big_task_pid : Z;
}.

Record walt_rq := mk_walt_rq {
  walt_stats : walt_sched_stats;
  rq_window_start : Z;
  prev_window_size : Z;
  latest_clock : Z;
  rq_time : group_cpu_time;        (* the run queue's curr/prev/nt sums *)
  grp_time : group_cpu_time;
  load_subs : load_subtractions * load_subtractions;
  top : top_state;
  task_exec_scale : Z;
  last_cc_update : Z;
  cycles : Z;
  lrb_pipeline_start_time : Z;
  notif_pending : bool;
  enqueue_counter : Z;
  ed_task : option Z;              (* pid *)
  gov : rq_gov;
}.

(** ** Configuration and what a call reads from the kernel *)
Record walt_env := mk_walt_env {
  sched_ravg_window : Z;
  walt_scale_demand_divisor : Z;
  sched_load_granule : Z;
  possible_cpus : list Z;
  cluster_cpus : Z → list Z;           (* the CPUs of a CPU's cluster *)
  freq_domain : Z → Z → bool;          (* freq_domain_cpumask *)
  arch_scale_cpu_capacity : Z → Z;
  capacity_orig_of : Z → Z;
  max_possible_freq : Z → Z;           (* of the CPU's cluster *)
  cur_freq : Z → Z;
  num_sched_clusters : Z;
  cluster_first : Z → Z;               (* cpumask_first(&cpu_array[0][i]) *)
  is_max_possible_cluster_cpu : Z → bool;
  use_cycle_counter : bool;
  sched_io_is_busy : bool;
  sysctl_sched_window_stats_policy : Z;
  sysctl_sched_min_task_util_for_colocation : Z;
  sysctl_sched_task_unfilter_period : Z;
  sysctl_sched_lrpb_active_ms : Z → Z;
  is_ed_enabled : bool;                (* boost_policy != SCHED_BOOST_NONE *)
  capacity_curr_of : Z → Z;
  feat_uclamp_freq : bool;             (* walt_feat(WALT_FEAT_UCLAMP_FREQ_BIT) *)
  feat_trailblazer : bool;             (* sysctl_walt_feat(WALT_FEAT_TRAILBLAZER_BIT) *)
  pipeline_in_progress : bool;
}.

(** The task and run queue facts a call reads: [rq] is the task's run queue, as
    every caller passes it. *)
Record task_view := mk_task_view {
  tv_pid : Z;
  tv_cpu : Z;                 (* cpu_of(rq), which is task_cpu(p) *)
  tv_is_curr : bool;          (* rq->curr == p *)
  tv_curr_idle : bool;        (* rq->curr is the idle task of the run queue *)
  tv_queued : bool;           (* task_on_rq_queued(p) *)
  tv_runnable : bool;         (* task_is_runnable(p) *)
  tv_fair : bool;             (* walt_fair_task(p) *)
  tv_on_scx : bool;           (* task_on_scx(p); false without CONFIG_OPLUS_FEATURE_SCHED_EXT *)
  tv_state : Z;               (* p->__state *)
  tv_in_iowait : bool;
  tv_nr_iowait : Z;           (* atomic_read(&rq->nr_iowait) *)
  tv_rq_clock : Z;            (* walt_rq_clock(rq) *)
  tv_cycles : Z;              (* walt_get_cycle_counts_cb(cpu, wallclock) *)
  tv_big_task_pid : Z;        (* per_cpu(big_task_pid, task_cpu(p)) *)
}.

(** ** Field updates *)
Definition set_win (w : task_window) (t : walt_task_struct) : walt_task_struct :=
  mk_wts (flags t) w (dem t) (pipe t) (place t) (grp t) (load_boost t) (boosted_task_load t)
    (cpu_cycles t) (iowaited t).
Definition set_dem (fl : Z) (d : task_demand) (t : walt_task_struct) : walt_task_struct :=
  mk_wts fl (win t) d (pipe t) (place t) (grp t) (load_boost t) (boosted_task_load t)
    (cpu_cycles t) (iowaited t).
Definition set_pipe (fl : Z) (pp : task_pipe) (t : walt_task_struct) : walt_task_struct :=
  mk_wts fl (win t) (dem t) pp (place t) (grp t) (load_boost t) (boosted_task_load t)
    (cpu_cycles t) (iowaited t).
Definition set_place (pl : task_place) (t : walt_task_struct) : walt_task_struct :=
  mk_wts (flags t) (win t) (dem t) (pipe t) pl (grp t) (load_boost t) (boosted_task_load t)
    (cpu_cycles t) (iowaited t).
Definition set_grp (g : option Z) (t : walt_task_struct) : walt_task_struct :=
  mk_wts (flags t) (win t) (dem t) (pipe t) (place t) g (load_boost t) (boosted_task_load t)
    (cpu_cycles t) (iowaited t).
Definition set_cpu_cycles (c : Z) (t : walt_task_struct) : walt_task_struct :=
  mk_wts (flags t) (win t) (dem t) (pipe t) (place t) (grp t) (load_boost t) (boosted_task_load t)
    c (iowaited t).
Definition set_iowaited (b : bool) (t : walt_task_struct) : walt_task_struct :=
  mk_wts (flags t) (win t) (dem t) (pipe t) (place t) (grp t) (load_boost t) (boosted_task_load t)
    (cpu_cycles t) b.

Definition set_stats (s : walt_sched_stats) (q : walt_rq) : walt_rq :=
  mk_walt_rq s (rq_window_start q) (prev_window_size q) (latest_clock q) (rq_time q) (grp_time q)
    (load_subs q) (top q) (task_exec_scale q) (last_cc_update q) (cycles q)
    (lrb_pipeline_start_time q) (notif_pending q) (enqueue_counter q) (ed_task q) (gov q).
Definition set_window (ws size clock : Z) (q : walt_rq) : walt_rq :=
  mk_walt_rq (walt_stats q) ws size clock (rq_time q) (grp_time q)
    (load_subs q) (top q) (task_exec_scale q) (last_cc_update q) (cycles q)
    (lrb_pipeline_start_time q) (notif_pending q) (enqueue_counter q) (ed_task q) (gov q).
Definition set_times (r g : group_cpu_time) (q : walt_rq) : walt_rq :=
  mk_walt_rq (walt_stats q) (rq_window_start q) (prev_window_size q) (latest_clock q) r g
    (load_subs q) (top q) (task_exec_scale q) (last_cc_update q) (cycles q)
    (lrb_pipeline_start_time q) (notif_pending q) (enqueue_counter q) (ed_task q) (gov q).
Definition set_load_subs (l : load_subtractions * load_subtractions) (q : walt_rq) : walt_rq :=
  mk_walt_rq (walt_stats q) (rq_window_start q) (prev_window_size q) (latest_clock q)
    (rq_time q) (grp_time q) l (top q) (task_exec_scale q) (last_cc_update q) (cycles q)
    (lrb_pipeline_start_time q) (notif_pending q) (enqueue_counter q) (ed_task q) (gov q).
Definition set_top (tp : top_state) (q : walt_rq) : walt_rq :=
  mk_walt_rq (walt_stats q) (rq_window_start q) (prev_window_size q) (latest_clock q)
    (rq_time q) (grp_time q) (load_subs q) tp (task_exec_scale q) (last_cc_update q) (cycles q)
    (lrb_pipeline_start_time q) (notif_pending q) (enqueue_counter q) (ed_task q) (gov q).
Definition set_scale (sc : Z) (q : walt_rq) : walt_rq :=
  mk_walt_rq (walt_stats q) (rq_window_start q) (prev_window_size q) (latest_clock q)
    (rq_time q) (grp_time q) (load_subs q) (top q) sc (last_cc_update q) (cycles q)
    (lrb_pipeline_start_time q) (notif_pending q) (enqueue_counter q) (ed_task q) (gov q).
Definition set_cycles (upd cyc : Z) (q : walt_rq) : walt_rq :=
  mk_walt_rq (walt_stats q) (rq_window_start q) (prev_window_size q) (latest_clock q)
    (rq_time q) (grp_time q) (load_subs q) (top q) (task_exec_scale q) upd cyc
    (lrb_pipeline_start_time q) (notif_pending q) (enqueue_counter q) (ed_task q) (gov q).
Definition set_lrb (ts : Z) (q : walt_rq) : walt_rq :=
  mk_walt_rq (walt_stats q) (rq_window_start q) (prev_window_size q) (latest_clock q)
    (rq_time q) (grp_time q) (load_subs q) (top q) (task_exec_scale q) (last_cc_update q)
    (cycles q) ts (notif_pending q) (enqueue_counter q) (ed_task q) (gov q).
Definition set_notif (b : bool) (q : walt_rq) : walt_rq :=
  mk_walt_rq (walt_stats q) (rq_window_start q) (prev_window_size q) (latest_clock q)
    (rq_time q) (grp_time q) (load_subs q) (top q) (task_exec_scale q) (last_cc_update q)
    (cycles q) (lrb_pipeline_start_time q) b (enqueue_counter q) (ed_task q) (gov q).
Definition set_enqueue_counter (n : Z) (q : walt_rq) : walt_rq :=
  mk_walt_rq (walt_stats q) (rq_window_start q) (prev_window_size q) (latest_clock q)
    (rq_time q) (grp_time q) (load_subs q) (top q) (task_exec_scale q) (last_cc_update q)
    (cycles q) (lrb_pipeline_start_time q) (notif_pending q) n (ed_task q) (gov q).
Definition set_ed_task (p : option Z) (q : walt_rq) : walt_rq :=
  mk_walt_rq (walt_stats q) (rq_window_start q) (prev_window_size q) (latest_clock q)
    (rq_time q) (grp_time q) (load_subs q) (top q) (task_exec_scale q) (last_cc_update q)
    (cycles q) (lrb_pipeline_start_time q) (notif_pending q) (enqueue_counter q) p (gov q).
Definition set_gov (g : rq_gov) (q : walt_rq) : walt_rq :=
  mk_walt_rq (walt_stats q) (rq_window_start q) (prev_window_size q) (latest_clock q)
    (rq_time q) (grp_time q) (load_subs q) (top q) (task_exec_scale q) (last_cc_update q)
    (cycles q) (lrb_pipeline_start_time q) (notif_pending q) (enqueue_counter q) (ed_task q) g.

(** ** Helpers the components share *)
Definition sub_clamp (a b : Z) : Z := if a <? b then 0 else a - b.

Definition walt_flag_test (fl feature : Z) : bool := negb (Z.land fl feature =? 0).
Definition walt_flag_set (fl feature : Z) (set : bool) : Z :=
  if set then Z.lor fl feature else Z.ldiff fl feature.

Definition walt_is_idle_task (fl : Z) : bool := walt_flag_test fl WALT_IDLE_TASK_BIT.
Definition is_new_task (w : task_window) : bool := active_time w <? NEW_TASK_ACTIVE_TIME.

Definition scale_time_to_util (e : walt_env) (d : Z) : Z := d / walt_scale_demand_divisor e.
Definition scale_util_to_time (e : walt_env) (util : Z) : Z :=
  u32 (util * walt_scale_demand_divisor e).

(** [scale_exec_time]: [delta] weighed by the CPU's execution scale, and by the
    task's boost when it is in a group. *)
Definition scale_exec_time (q : walt_rq) (t : walt_task_struct) (delta : Z) : Z :=
  let delta := Z.shiftr (u64 (delta * task_exec_scale q)) SCHED_CAPACITY_SHIFT in
  if negb (load_boost t =? 0) && bool_decide (is_Some (grp t))
  then Z.shiftr (u64 (delta * (1024 + boosted_task_load t))) 10
  else delta.

Definition load_to_index (e : walt_env) (load : Z) : Z :=
  Z.min (load / sched_load_granule e) (NUM_LOAD_INDICES - 1).

(** ** Automation: case analysis on the integer comparisons of the goal *)
Ltac zcase :=
  match goal with
  | |- context [?a =? ?b] => destruct (Z.eqb_spec a b)
  | |- context [?a <? ?b] => destruct (Z.ltb_spec a b)
  | |- context [?a <=? ?b] => destruct (Z.leb_spec a b)
  end.
Ltac zcases := repeat zcase.

(** ** Facts *)
Lemma sub_clamp_le a b : b ≤ a → sub_clamp a b = a - b.
Proof. unfold sub_clamp. destruct (Z.ltb_spec a b); lia. Qed.

Lemma sub_clamp_nonneg a b : 0 ≤ a → 0 ≤ sub_clamp a b.
Proof. unfold sub_clamp. destruct (Z.ltb_spec a b); lia. Qed.

Lemma flag_test_bit fl n : 0 ≤ n → walt_flag_test fl (BIT n) = Z.testbit fl n.
Proof.
  intros Hn. unfold walt_flag_test, BIT. rewrite Z.shiftl_1_l.
  destruct (Z.testbit fl n) eqn:Hb.
  - apply negb_true_iff, Z.eqb_neq. intros H0.
    assert (Z.testbit (Z.land fl (2 ^ n)) n = true) as HT.
    { by rewrite Z.land_spec, Hb, Z.pow2_bits_true. }
    by rewrite H0, Z.bits_0 in HT.
  - apply negb_false_iff, Z.eqb_eq. apply Z.bits_inj'. intros m Hm.
    rewrite Z.land_spec, Z.bits_0, Z.pow2_bits_eqb by lia.
    destruct (Z.eqb_spec n m); subst; [by rewrite Hb | apply andb_false_r].
Qed.

Lemma flag_set_bit fl n m b : 0 ≤ n → 0 ≤ m →
  Z.testbit (walt_flag_set fl (BIT n) b) m = if m =? n then b else Z.testbit fl m.
Proof.
  intros Hn Hm. unfold walt_flag_set, BIT. rewrite Z.shiftl_1_l.
  destruct b; [rewrite Z.lor_spec | rewrite Z.ldiff_spec];
    rewrite Z.pow2_bits_eqb by lia;
    destruct (Z.eqb_spec m n), (Z.eqb_spec n m); subst; try lia;
    rewrite ?orb_true_r, ?orb_false_r, ?andb_false_r, ?andb_true_r; done.
Qed.

Lemma flag_test_set fl n m b : 0 ≤ n → 0 ≤ m →
  walt_flag_test (walt_flag_set fl (BIT n) b) (BIT m)
  = if m =? n then b else walt_flag_test fl (BIT m).
Proof. intros. rewrite !flag_test_bit, flag_set_bit by done. done. Qed.

Lemma scale_exec_time_nonneg q t d : 0 ≤ scale_exec_time q t d.
Proof.
  unfold scale_exec_time.
  case_match; apply Z.shiftr_nonneg, Z.mod_pos_bound; lia.
Qed.

Lemma scale_exec_time_0 q t : scale_exec_time q t 0 = 0.
Proof. unfold scale_exec_time. case_match; done. Qed.

Lemma load_to_index_range e load : 0 < sched_load_granule e → 0 ≤ load →
  0 ≤ load_to_index e load < NUM_LOAD_INDICES.
Proof.
  intros. unfold load_to_index, NUM_LOAD_INDICES.
  pose proof (Z.div_pos load (sched_load_granule e)). lia.
Qed.

Lemma u32_le z : 0 ≤ z → u32 z ≤ z.
Proof. intros. unfold u32. apply Z.mod_le; lia. Qed.
Lemma u16_range z : 0 ≤ u16 z < 2 ^ 16.
Proof. unfold u16. apply Z.mod_pos_bound. lia. Qed.

Lemma idle_flag_set fl n b : 0 ≤ n → n ≠ 2 →
  walt_is_idle_task (walt_flag_set fl (BIT n) b) = walt_is_idle_task fl.
Proof.
  intros. unfold walt_is_idle_task, WALT_IDLE_TASK_BIT. rewrite flag_test_set by lia.
  by rewrite (proj2 (Z.eqb_neq 2 n)) by lia.
Qed.

Lemma quiet_nil : quiet [].
Proof. constructor. Qed.
Lemma quiet_app o o' : quiet o → quiet o' → quiet (o ++ o').
Proof. apply Forall_app_2. Qed.
Lemma quiet_if c b : is_window_bug b = false → quiet (bug_if c b).
Proof. intros. destruct c; repeat constructor; done. Qed.

Create HintDb walt.
#[export] Hint Resolve quiet_nil quiet_app quiet_if : walt.
