(* ===== verification/WaltDemand.v ===== *)
(** * WALT task demand (kernel/sched/walt/walt.c)

    The demand side of window-based load tracking: the per-window [sum], the ring
    of the last five windows, the busy buckets and the prediction taken from them,
    and the adjustment of the run queue's aggregate statistics whenever the demand
    of a queued task changes.  These functions write the run queue's
    [walt_sched_stats], the task's flags and its demand record ([dstate]), and the
    low-activity state of a pipeline task; they only read the task's windows. *)

From S2P Require Import Prelude.
From S2P Require Import WaltData.

Record dstate := mk_ds {
  ds_stats : walt_sched_stats;
  ds_flags : Z;
  ds_dem : task_demand;
  ds_out : list walt_out;
}.

Definition set_ds_dem (d : task_demand) (s : dstate) : dstate :=
  mk_ds (ds_stats s) (ds_flags s) d (ds_out s).
Definition ds_emit (o : list walt_out) (s : dstate) : dstate :=
  mk_ds (ds_stats s) (ds_flags s) (ds_dem s) (ds_out s ++ o).

(** ** Aggregate statistics *)
Definition set_cra (cra pred : Z) (st : walt_sched_stats) : walt_sched_stats :=
  mk_walt_sched_stats (nr_big_tasks st) (nr_trailblazer_tasks st) (nr_giant_tasks st) cra pred
    (nr_rtg_high_prio_tasks st).
Definition set_giant (n : Z) (st : walt_sched_stats) : walt_sched_stats :=
  mk_walt_sched_stats (nr_big_tasks st) (nr_trailblazer_tasks st) n
    (cumulative_runnable_avg_scaled st) (pred_demands_sum_scaled st) (nr_rtg_high_prio_tasks st).
Definition set_trailblazer (n : Z) (st : walt_sched_stats) : walt_sched_stats :=
  mk_walt_sched_stats (nr_big_tasks st) n (nr_giant_tasks st)
    (cumulative_runnable_avg_scaled st) (pred_demands_sum_scaled st) (nr_rtg_high_prio_tasks st).

Definition fixup_cumulative_runnable_avg (st : walt_sched_stats) (demand_delta pred_delta : Z)
    : walt_sched_stats * list walt_out :=
  let cra := cumulative_runnable_avg_scaled st + demand_delta in
  let pds := pred_demands_sum_scaled st + pred_delta in
  (set_cra (if cra <? 0 then 0 else cra) (if pds <? 0 then 0 else pds) st,
   bug_if (cra <? 0) BUG_CRA_UNDERFLOW ++ bug_if (pds <? 0) BUG_PRED_UNDERFLOW).

Definition giant_cap (e : walt_env) : Z :=
  arch_scale_cpu_capacity e
    (cluster_first e (if 2 <=? num_sched_clusters e then num_sched_clusters e - 2
                      else num_sched_clusters e - 1)).

Definition fixup_nr_giant (e : walt_env) (fl : Z) (st : walt_sched_stats) (updated : Z)
    : Z * walt_sched_stats :=
  let was := walt_flag_test fl WALT_GIANT_BIT in
  if Z.shiftr (GIANT_UTIL_THRESH_PCT * giant_cap e) SCHED_CAPACITY_SHIFT <? updated then
    if was then (fl, st)
    else (walt_flag_set fl WALT_GIANT_BIT true, set_giant (nr_giant_tasks st + 1) st)
  else
    if was then
      let n := nr_giant_tasks st - 1 in
      (walt_flag_set fl WALT_GIANT_BIT false, set_giant (if n <? 0 then 0 else n) st)
    else (fl, st).

Definition fixup_walt_sched_stats_common (e : walt_env) (v : task_view) (updated updated_pred : Z)
    (s : dstate) : dstate :=
  if tv_on_scx v then s else
  let d := ds_dem s in
  let '(st, bugs) := fixup_cumulative_runnable_avg (ds_stats s) (updated - demand_scaled d)
                       (updated_pred - pred_demand_scaled d) in
  let '(fl, st) := if tv_fair v then fixup_nr_giant e (ds_flags s) st updated else (ds_flags s, st) in
  mk_ds st fl d (ds_out s ++ bugs).

(** ** Busy buckets *)
Definition INC_STEP : Z := 8.
Definition DEC_STEP : Z := 2.
Definition CONSISTENT_THRES : Z := 16.
Definition INC_STEP_BIG : Z := 16.

Definition bucket_step (idx : Z) (st : list Z * Z) (i : Z) : list Z * Z :=
  let '(buckets, mask) := st in
  let b := buckets !!! Z.to_nat i in
  if negb (idx =? i) then
    if DEC_STEP <? b then (<[Z.to_nat i := b - DEC_STEP]> buckets, mask)
    else (<[Z.to_nat i := 0]> buckets, Z.ldiff mask (BIT i))
  else
    let step := if CONSISTENT_THRES <=? b then INC_STEP_BIG else INC_STEP in
    (<[Z.to_nat i := if U8_MAX - step <? b then U8_MAX else b + step]> buckets, Z.lor mask (BIT i)).

Definition bucket_increase (buckets : list Z) (mask idx : Z) : list Z * Z :=
  foldl (bucket_step idx) (buckets, mask) (seqZ 0 NUM_BUSY_BUCKETS).

Definition busy_to_bucket (normalized_rt : Z) : Z :=
  let bidx := Z.min (Z.shiftr normalized_rt (SCHED_CAPACITY_SHIFT - NUM_BUSY_BUCKETS_SHIFT))
                (NUM_BUSY_BUCKETS - 1) in
  if bidx =? 0 then bidx + 1 else bidx.

(** [ffs]: one more than the index of the lowest set bit, 0 when there is none. *)
Definition ffs (m : Z) : Z :=
  match list_find (λ i, Z.testbit m i = true) (seqZ 0 16) with
  | Some (_, i) => i + 1
  | None => 0
  end.

(** The range of utilisations of a bucket; the lowest two are one. *)
Definition bucket_lo (b : Z) : Z :=
  if b <? 2 then 0 else Z.shiftl b (SCHED_CAPACITY_SHIFT - NUM_BUSY_BUCKETS_SHIFT).
Definition bucket_hi (b : Z) : Z :=
  Z.shiftl ((if b <? 2 then 1 else b) + 1) (SCHED_CAPACITY_SHIFT - NUM_BUSY_BUCKETS_SHIFT).

Definition get_pred_busy (w : task_window) (d : task_demand) (start runtime_scaled mask : Z) : Z :=
  let next_mask := Z.shiftr mask start in
  if is_new_task w then runtime_scaled else
  let first := if negb (next_mask =? 0) then ffs next_mask - 1 + start else NUM_BUSY_BUCKETS in
  if NUM_BUSY_BUCKETS <=? first then runtime_scaled else
  let dmin := bucket_lo first in
  let dmax := bucket_hi first in
  let ret := match list_find (λ h, dmin ≤ h < dmax) (sum_history_util d) with
             | Some (_, h) => h
             | None => runtime_scaled
             end in
  let ret := if ret <? dmin then (dmin + dmax) / 2 else ret in
  Z.max runtime_scaled ret.

Definition set_buckets (bs : list Z) (mask : Z) (d : task_demand) : task_demand :=
  mk_task_demand (sum d) (demand d) (coloc_demand d) (sum_history d) (sum_history_util d) (cidx d)
    bs mask (demand_scaled d) (pred_demand_scaled d) (unfilter d) (high_util_history d)
    (yield_state d).

Definition predict_and_update_buckets (w : task_window) (d : task_demand) (runtime_scaled : Z)
    : task_demand * Z :=
  let bidx := busy_to_bucket runtime_scaled in
  let pred := u16 (get_pred_busy w d bidx runtime_scaled (bucket_bitmask d)) in
  let '(bs, mask) := bucket_increase (busy_buckets d) (bucket_bitmask d) bidx in
  (set_buckets bs mask d, pred).

Definition set_pred (p : Z) (d : task_demand) : task_demand :=
  mk_task_demand (sum d) (demand d) (coloc_demand d) (sum_history d) (sum_history_util d) (cidx d)
    (busy_buckets d) (bucket_bitmask d) (demand_scaled d) p (unfilter d) (high_util_history d)
    (yield_state d).
Definition set_sum (x : Z) (d : task_demand) : task_demand :=
  mk_task_demand x (demand d) (coloc_demand d) (sum_history d) (sum_history_util d) (cidx d)
    (busy_buckets d) (bucket_bitmask d) (demand_scaled d) (pred_demand_scaled d) (unfilter d)
    (high_util_history d) (yield_state d).
Definition set_high_util (x : Z) (d : task_demand) : task_demand :=
  mk_task_demand (sum d) (demand d) (coloc_demand d) (sum_history d) (sum_history_util d) (cidx d)
    (busy_buckets d) (bucket_bitmask d) (demand_scaled d) (pred_demand_scaled d) (unfilter d)
    x (yield_state d).
Definition set_yield (x : Z) (d : task_demand) : task_demand :=
  mk_task_demand (sum d) (demand d) (coloc_demand d) (sum_history d) (sum_history_util d) (cidx d)
    (busy_buckets d) (bucket_bitmask d) (demand_scaled d) (pred_demand_scaled d) (unfilter d)
    (high_util_history d) x.

(** [task_on_rq_queued(p) && task_is_runnable(p)] *)
Definition tv_accounted (v : task_view) : bool := tv_queued v && tv_runnable v.

Definition update_task_pred_demand (e : walt_env) (v : task_view) (w : task_window)
    (event : task_event) (s : dstate) : dstate :=
  if walt_is_idle_task (ds_flags s) then s else
  if negb (bool_decide (event = PUT_PREV_TASK)) && negb (bool_decide (event = TASK_UPDATE)) &&
     (negb SCHED_FREQ_ACCOUNT_WAIT_TIME ||
      (negb (bool_decide (event = TASK_MIGRATE)) && negb (bool_decide (event = PICK_NEXT_TASK))))
  then s else
  if bool_decide (event = TASK_UPDATE) && negb (tv_runnable v) && negb SCHED_FREQ_ACCOUNT_WAIT_TIME
  then s else
  let curr_window_scaled := u16 (scale_time_to_util e (curr_window w)) in
  if curr_window_scaled <=? pred_demand_scaled (ds_dem s) then s else
  let new_pred := u16 (get_pred_busy w (ds_dem s) (busy_to_bucket curr_window_scaled)
                         curr_window_scaled (bucket_bitmask (ds_dem s))) in
  let s := if tv_accounted v
           then fixup_walt_sched_stats_common e v (demand_scaled (ds_dem s)) new_pred s else s in
  set_ds_dem (set_pred new_pred (ds_dem s)) s.

(** ** What counts as demand *)
Definition account_busy_for_task_demand (fl : Z) (v : task_view) (event : task_event) : bool :=
  if walt_is_idle_task fl then false else
  if bool_decide (event = TASK_WAKE) ||
     (negb SCHED_ACCOUNT_WAIT_TIME &&
      (bool_decide (event = PICK_NEXT_TASK) || bool_decide (event = TASK_MIGRATE))) then false else
  if bool_decide (event = PICK_NEXT_TASK) && tv_curr_idle v then false else
  if bool_decide (event = TASK_UPDATE) then
    if tv_is_curr v then true
    else if tv_runnable v then SCHED_ACCOUNT_WAIT_TIME else false
  else true.

(** ** Trailblazer tasks *)
Definition TRAILBLAZER_THRES : Z := 230.
Definition TRAILBLAZER_BYPASS : Z := 243.
Definition FINAL_BUCKET_STEP_UP : Z := 8.
Definition FINAL_BUCKET_STEP_DOWN : Z := 1.
Definition PIPELINE_IDLE_NS : Z := 3000000000.

(** Returns the demand, raised to a full CPU for a trailblazer. *)
Definition update_trailblazer_accounting (e : walt_env) (v : task_view) (w : task_window)
    (runtime runtime_scaled demand : Z) (s : dstate) : dstate * Z :=
  let was := walt_flag_test (ds_flags s) WALT_TRAILBLAZER_BIT in
  let d := if feat_trailblazer e && (mark_start w + PIPELINE_IDLE_NS <? tv_rq_clock v)
           then set_high_util 0 (ds_dem s) else ds_dem s in
  let blazing := negb (pipeline_in_progress e) && feat_trailblazer e &&
            (((demand <=? runtime) && (TRAILBLAZER_THRES <=? high_util_history d)) ||
             (TRAILBLAZER_BYPASS <=? high_util_history d)) in
  let demand' := if blazing then scale_util_to_time e (Z.shiftl 1 SCHED_CAPACITY_SHIFT) else demand in
  let fl := if blazing then walt_flag_set (ds_flags s) WALT_TRAILBLAZER_BIT true
            else if was then walt_flag_set (ds_flags s) WALT_TRAILBLAZER_BIT false
            else ds_flags s in
  let now := walt_flag_test fl WALT_TRAILBLAZER_BIT in
  let st := ds_stats s in
  let '(st, o) :=
    if tv_accounted v then
      (if was && negb now then set_trailblazer (nr_trailblazer_tasks st - 1) st
       else if negb was && now then set_trailblazer (nr_trailblazer_tasks st + 1) st
       else st,
       if negb (eqb was now) then [NR_PROD (tv_cpu v) 0] else [])
    else (st, []) in
  let cap := capacity_orig_of e (cluster_first e (num_sched_clusters e - 1)) in
  let cap := cap - Z.shiftr cap 3 in
  let h := high_util_history d in
  let d :=
    if u16 cap <=? runtime_scaled then
      set_high_util (if U8_MAX - FINAL_BUCKET_STEP_UP <? h then U8_MAX
                     else h + FINAL_BUCKET_STEP_UP) d
    else if negb (h =? 0) then set_high_util (h - FINAL_BUCKET_STEP_DOWN) d else d in
  (mk_ds st fl d (ds_out s ++ o), demand').

Definition update_obet_task (e : walt_env) (v : task_view) (demand' : Z) (s : dstate) : dstate :=
  if is_max_possible_cluster_cpu e (tv_cpu v) && (tv_big_task_pid v =? 0) && tv_runnable v &&
     (demand (ds_dem s) <? demand')
  then ds_emit [FORCE_BIG_TASK_EVAL (tv_cpu v)] s else s.

(** ** Low-activity tasks *)
Definition MIN_WINDOWS_FOR_LST : Z := 3.
Definition LST_ACTIVATION_TIMEOUT : Z := 250.
Definition LST_DELAY_MULTIPLIER : Z := 5.
Definition MSEC_TO_NSEC : Z := 1000000.

Definition update_lst (e : walt_env) (w : task_window) (wallclock : Z) (new_window : bool)
    (p : task_pipe) : task_pipe :=
  let hyst := MIN_WINDOWS_FOR_LST * sched_ravg_window e in
  let p :=
    if negb (mark_start w =? 0) && (mark_start w + hyst <? wallclock) then
      let cnt := u32 (lst_state_counter p + 1) in
      let factor := Z.min (u32 (cnt + LST_DELAY_MULTIPLIER) / LST_DELAY_MULTIPLIER) 10 in
      mk_task_pipe (pipeline_cpu p) (busy_bitmap p) (period_contrib_run p) true
        (wallclock + LST_ACTIVATION_TIMEOUT * MSEC_TO_NSEC * factor) cnt 0 (event_windows p)
    else
      let expired := negb (lst_tgt_ns p =? 0) && (lst_tgt_ns p <? wallclock) in
      let active := u32 (continuous_active p + 1) in
      let '(cnt, active) :=
        if 10 <? active
        then (u32 (Z.max (u32 (lst_state_counter p - 10)) 0), 0)   (* max_t(s64, u32, 0) *)
        else (lst_state_counter p, active) in
      mk_task_pipe (pipeline_cpu p) (busy_bitmap p) (period_contrib_run p)
        (if expired then false else lst p) (if expired then 0 else lst_tgt_ns p) cnt active
        (event_windows p) in
  if new_window then
    mk_task_pipe (pipeline_cpu p) (busy_bitmap p) (period_contrib_run p) (lst p) (lst_tgt_ns p)
      (lst_state_counter p) (continuous_active p) (s32 (event_windows p + 1))
  else p.

(** ** The history of windows *)
Definition push_sample (runtime runtime_scaled : Z) (d : task_demand) : task_demand :=
  mk_task_demand (sum d) (demand d) (coloc_demand d)
    (<[Z.to_nat (cidx d) := runtime]> (sum_history d))
    (<[Z.to_nat (cidx d) := runtime_scaled]> (sum_history_util d))
    ((cidx d + 1) mod RAVG_HIST_SIZE)
    (busy_buckets d) (bucket_bitmask d) (demand_scaled d) (pred_demand_scaled d) (unfilter d)
    (high_util_history d) (yield_state d).

Definition push_samples (runtime runtime_scaled samples : Z) (d : task_demand) : task_demand :=
  Nat.iter (Z.to_nat samples) (push_sample runtime runtime_scaled) d.

Definition list_sum (l : list Z) : Z := foldr Z.add 0 l.
Definition list_max (l : list Z) : Z := foldr Z.max 0 l.

Definition policy_demand (e : walt_env) (runtime max avg : Z) : Z :=
  if sysctl_sched_window_stats_policy e =? WINDOW_STATS_RECENT then runtime
  else if sysctl_sched_window_stats_policy e =? WINDOW_STATS_MAX then max
  else if sysctl_sched_window_stats_policy e =? WINDOW_STATS_AVG then avg
  else Z.max avg runtime.

Definition set_demands (dmd dscaled coloc pred unf : Z) (d : task_demand) : task_demand :=
  mk_task_demand (sum d) dmd coloc (sum_history d) (sum_history_util d) (cidx d)
    (busy_buckets d) (bucket_bitmask d) dscaled pred unf (high_util_history d) (yield_state d).

Section ops.
Context (e : walt_env) (v : task_view).
Context (w : task_window) (g : option Z).   (* the task's windows and group *)
Context (pws : Z).                          (* wrq->prev_window_size *)
Context (scale : Z → Z).                    (* scale_exec_time on this run queue and task *)

(** A fair task of a group may be a trailblazer. *)
Definition trailblazer_demand (runtime runtime_scaled dmd : Z) (s : dstate) : dstate * Z :=
  if tv_fair v && bool_decide (is_Some g)
  then update_trailblazer_accounting e v w runtime runtime_scaled dmd s else (s, dmd).

(** The new demand reaches the aggregate statistics and the task. *)
Definition commit_demand (dmd avg pred : Z) (s : dstate) : dstate :=
  let dscaled := u16 (scale_time_to_util e dmd) in
  let s := if tv_accounted v then fixup_walt_sched_stats_common e v dscaled pred s else s in
  let d := ds_dem s in
  let unf := if sysctl_sched_min_task_util_for_colocation e <? dscaled
             then sysctl_sched_task_unfilter_period e
             else if negb (unfilter d =? 0) then Z.max 0 (s32 (unfilter d - pws)) else unfilter d in
  set_ds_dem (set_demands dmd dscaled avg pred unf d) s.

Definition update_history (runtime samples : Z) (s : dstate) : dstate :=
  let s := if Z.land (yield_state (ds_dem s)) YIELD_CNT_MASK <? MAX_YIELD_CNT_PER_TASK_THR
           then set_ds_dem (set_yield 0 (ds_dem s)) s else s in
  if (runtime =? 0) || walt_is_idle_task (ds_flags s) || (samples =? 0) then s else
  let runtime_scaled := u16 (scale_time_to_util e runtime) in
  let d := set_sum 0 (push_samples runtime runtime_scaled samples (ds_dem s)) in
  let avg := u32 (list_sum (sum_history d) / RAVG_HIST_SIZE) in
  let dmd := policy_demand e runtime (list_max (sum_history d)) avg in
  let '(s, dmd) := trailblazer_demand runtime runtime_scaled dmd (set_ds_dem d s) in
  let s := if tv_fair v then update_obet_task e v dmd s else s in
  let '(d, pred) := predict_and_update_buckets w (ds_dem s) runtime_scaled in
  commit_demand dmd avg pred (set_ds_dem d s).

Definition add_to_task_demand (delta : Z) (d : task_demand) : task_demand * Z :=
  let delta := scale delta in
  let x := u32 (sum d + delta) in
  (set_sum (if sched_ravg_window e <? x then sched_ravg_window e else x) d, delta).

Definition ds_add (delta : Z) (s : dstate) : dstate * Z :=
  let '(d, r) := add_to_task_demand delta (ds_dem s) in
  (set_ds_dem d s, r).

(** [update_task_demand]: the new state, the low-activity state and the runtime. *)
Definition update_task_demand (event : task_event) (wallclock rq_ws : Z) (s : dstate)
    (p : task_pipe) : dstate * task_pipe * Z :=
  let window_size := sched_ravg_window e in
  let new_window := mark_start w <? rq_ws in
  let p := if pipeline_in_progress e && bool_decide (g = Some DEFAULT_CGROUP_COLOC_ID)
           then update_lst e w wallclock new_window p else p in
  if negb (account_busy_for_task_demand (ds_flags s) v event) then
    ((if new_window then update_history (sum (ds_dem s)) 1 s else s), p, 0)
  else if negb new_window then
    let '(s, r) := ds_add (wallclock - mark_start w) s in (s, p, r)
  else
    let delta := rq_ws - mark_start w in
    let nr_full_windows := s32 (delta / window_size) in
    let ws := rq_ws - nr_full_windows * window_size in
    let '(s, r) := ds_add (ws - mark_start w) s in
    let s := update_history (sum (ds_dem s)) 1 s in
    let '(s, r) :=
      if negb (nr_full_windows =? 0) then
        let scaled_window := scale window_size in
        let counts := if RAVG_HIST_SIZE <? nr_full_windows then RAVG_HIST_SIZE
                      else nr_full_windows in
        (update_history (u32 scaled_window) counts s, r + nr_full_windows * scaled_window)
      else (s, r) in
    let ws := ws + nr_full_windows * window_size in
    let '(s, r') := ds_add (wallclock - ws) s in
    (s, p, r + r').

End ops.

(** ** What the demand functions leave alone: whether the task is idle, and the
    window checks *)
Definition ds_kept (s s' : dstate) : Prop :=
  walt_is_idle_task (ds_flags s') = walt_is_idle_task (ds_flags s) ∧
  (quiet (ds_out s) → quiet (ds_out s')).

Lemma ds_kept_refl s : ds_kept s s.
Proof. done. Qed.
Lemma ds_kept_trans s s' s'' : ds_kept s s' → ds_kept s' s'' → ds_kept s s''.
Proof. intros [H1 H2] [H3 H4]. split; [congruence | auto]. Qed.
Lemma ds_kept_dem s d : ds_kept s (set_ds_dem d s).
Proof. done. Qed.
#[export] Hint Resolve ds_kept_refl : walt.

Lemma fixup_common_kept e v d p s : ds_kept s (fixup_walt_sched_stats_common e v d p s).
Proof.
  unfold fixup_walt_sched_stats_common, fixup_cumulative_runnable_avg, fixup_nr_giant, WALT_GIANT_BIT.
  destruct (tv_on_scx v); [done|]. split.
  - repeat case_match; cbn; rewrite ?idle_flag_set by lia; try done; simplify_eq; try done;
      by rewrite ?idle_flag_set by lia.
  - intros Hq. repeat case_match; simplify_eq; cbn; rewrite ?app_nil_r; try done;
      (apply quiet_app; [done | repeat constructor]).
Qed.

Lemma trailblazer_kept e v w r rs dmd s s' dmd' :
  update_trailblazer_accounting e v w r rs dmd s = (s', dmd') → ds_kept s s'.
Proof.
  unfold update_trailblazer_accounting, WALT_TRAILBLAZER_BIT. cbv zeta.
  match goal with |- context [if ?b then walt_flag_set ?f ?k true else ?r] =>
    set (fl := if b then walt_flag_set f k true else r) end.
  assert (walt_is_idle_task fl = walt_is_idle_task (ds_flags s)) as Hfl.
  { unfold fl. repeat case_match; rewrite ?idle_flag_set by lia; done. }
  clearbody fl. destruct (tv_accounted v); intros [= <- <-]; split; try done; cbn; intros Hq.
  - apply quiet_app; [done|]. case_match; repeat constructor.
  - by rewrite app_nil_r.
Qed.

Lemma update_obet_kept e v d s : ds_kept s (update_obet_task e v d s).
Proof.
  unfold update_obet_task, ds_emit. case_match; [|done]. split; [done|]. cbn. intros.
  apply quiet_app; [done|]. repeat constructor.
Qed.

Lemma commit_demand_kept e v pws dmd avg pred s : ds_kept s (commit_demand e v pws dmd avg pred s).
Proof.
  unfold commit_demand. eapply ds_kept_trans; [|apply ds_kept_dem].
  case_match; [apply fixup_common_kept | done].
Qed.

Lemma update_history_kept e v w g pws r n s : ds_kept s (update_history e v w g pws r n s).
Proof.
  unfold update_history. cbv zeta.
  set (s0 := if _ <? _ then _ else s).
  assert (ds_kept s s0) as H0 by (unfold s0; case_match; done). clearbody s0.
  case_match; [done|].
  destruct (trailblazer_demand _ _ _ _ _ _ _ _) as [s1 d1] eqn:H1.
  assert (ds_kept s s1) as Hk1.
  { eapply ds_kept_trans; [exact H0|]. revert H1. unfold trailblazer_demand. case_match.
    - intros Ht%trailblazer_kept. eapply ds_kept_trans; [apply ds_kept_dem | exact Ht].
    - intros [= <- <-]. apply ds_kept_dem. }
  set (s2 := if tv_fair v then _ else s1).
  assert (ds_kept s s2) as Hk2.
  { unfold s2. case_match; [eapply ds_kept_trans; [exact Hk1 | apply update_obet_kept] | done]. }
  clearbody s2. destruct (predict_and_update_buckets _ _ _) as [d2 p2].
  eapply ds_kept_trans; [exact Hk2|]. eapply ds_kept_trans; [apply ds_kept_dem|].
  apply commit_demand_kept.
Qed.

Lemma ds_add_kept e scale d s s' r : ds_add e scale d s = (s', r) → ds_kept s s'.
Proof. unfold ds_add, add_to_task_demand. intros [= <- <-]. apply ds_kept_dem. Qed.

Lemma update_task_demand_kept e v w g pws scale ev wc ws s p s' p' r :
  update_task_demand e v w g pws scale ev wc ws s p = (s', p', r) → ds_kept s s'.
Proof.
  unfold update_task_demand. cbv zeta. case_match.
  { intros [= <- <- <-]. case_match; [apply update_history_kept | done]. }
  case_match.
  { destruct (ds_add _ _ _ s) as [s1 r1] eqn:H1. intros [= <- <- <-]. by eapply ds_add_kept. }
  destruct (ds_add _ _ _ s) as [s1 r1] eqn:H1. apply ds_add_kept in H1.
  set (s2 := update_history _ _ _ _ _ (sum _) 1 s1).
  assert (ds_kept s s2) as H2 by (eapply ds_kept_trans; [exact H1 | apply update_history_kept]).
  clearbody s2.
  destruct (negb (s32 _ =? 0)); cbv beta iota.
  - destruct (ds_add _ _ _ (update_history _ _ _ _ _ _ _ s2)) as [s3 r3] eqn:H3. intros [= <- <- <-].
    apply ds_add_kept in H3.
    eapply ds_kept_trans; [exact H2|]. eapply ds_kept_trans; [apply update_history_kept | exact H3].
  - destruct (ds_add _ _ _ s2) as [s3 r3] eqn:H3. intros [= <- <- <-].
    apply ds_add_kept in H3. eapply ds_kept_trans; done.
Qed.

Lemma update_pred_kept e v w ev s : ds_kept s (update_task_pred_demand e v w ev s).
Proof.
  unfold update_task_pred_demand. cbv zeta. repeat (case_match; [done|]).
  eapply ds_kept_trans; [|apply ds_kept_dem]. case_match; [apply fixup_common_kept | done].
Qed.
