(* ===== verification/WaltTop.v ===== *)
(** * WALT top-task tables (kernel/sched/walt/walt.c)

    Each run queue counts, for the current and the previous window, how many of
    its tasks have a load in each of a thousand load ranges; a bitmap marks the
    non-empty ranges, highest load first, and [curr_top]/[prev_top] hold the
    highest one.  The load of the top task of the previous window drives the
    frequency choice. *)

From S2P Require Import Prelude.
From S2P Require Import WaltData.

(** ** Table and bitmap updates *)
Definition set_table (k : bool) (f : Z → Z) (tp : top_state) : top_state :=
  mk_top_state (<[k := f]> (top_tasks tp)) (top_tasks_bitmap tp) (curr_table tp)
    (prev_top tp) (curr_top tp).
Definition set_bitmap (k : bool) (m : Z) (tp : top_state) : top_state :=
  mk_top_state (top_tasks tp) (<[k := m]> (top_tasks_bitmap tp)) (curr_table tp)
    (prev_top tp) (curr_top tp).
Definition set_prev_top (i : Z) (tp : top_state) : top_state :=
  mk_top_state (top_tasks tp) (top_tasks_bitmap tp) (curr_table tp) i (curr_top tp).
Definition set_curr_top (i : Z) (tp : top_state) : top_state :=
  mk_top_state (top_tasks tp) (top_tasks_bitmap tp) (curr_table tp) (prev_top tp) i.

(** [table[i] += d], a u8. *)
Definition count_add (k : bool) (i d : Z) (tp : top_state) : top_state :=
  set_table k (<[i := u8 (top_tasks tp k i + d)]> (top_tasks tp k)) tp.
(** [if (!table[i]) __clear_bit(...)] and [if (table[i] == 1) __set_bit(...)] *)
Definition clear_if_empty (k : bool) (i : Z) (tp : top_state) : top_state :=
  if top_tasks tp k i =? 0
  then set_bitmap k (clear_bit (NUM_LOAD_INDICES - i - 1) (top_tasks_bitmap tp k)) tp else tp.
Definition set_if_first (k : bool) (i : Z) (tp : top_state) : top_state :=
  if top_tasks tp k i =? 1
  then set_bitmap k (set_bit (NUM_LOAD_INDICES - i - 1) (top_tasks_bitmap tp k)) tp else tp.

Definition find_next_bit (map size start : Z) : Z :=
  match list_find (λ i, Z.testbit map i = true) (seqZ start (size - start)) with
  | Some (_, i) => i
  | None => size
  end.

Definition get_top_index (bitmap old_top : Z) : Z :=
  let index := find_next_bit bitmap NUM_LOAD_INDICES old_top in
  if index =? NUM_LOAD_INDICES then 0 else NUM_LOAD_INDICES - 1 - index.

Definition clear_top_tasks_bitmap : Z := set_bit NUM_LOAD_INDICES 0.
Definition clear_top_tasks_table : Z → Z := λ _, 0.

Section ops.
Context (e : walt_env).

(** ** A task leaves or joins a run queue *)
Definition migrate_top_tasks_subtraction (w : task_window) (tp : top_state) : top_state :=
  let src := curr_table tp in
  let tp :=
    if negb (curr_window w =? 0) then
      let index := load_to_index e (curr_window w) in
      let tp := clear_if_empty src index (count_add src index (-1) tp) in
      if (index =? curr_top tp) && (top_tasks tp src index =? 0)
      then set_curr_top (get_top_index (top_tasks_bitmap tp src) (curr_top tp)) tp else tp
    else tp in
  let src := negb src in
  if negb (prev_window w =? 0) then
    let index := load_to_index e (prev_window w) in
    let tp := clear_if_empty src index (count_add src index (-1) tp) in
    if (index =? prev_top tp) && (top_tasks tp src index =? 0)
    then set_prev_top (get_top_index (top_tasks_bitmap tp src) (prev_top tp)) tp else tp
  else tp.

Definition migrate_top_tasks_addition (w : task_window) (tp : top_state) : top_state :=
  let dst := curr_table tp in
  let tp :=
    if negb (curr_window w =? 0) then
      let index := load_to_index e (curr_window w) in
      let tp := set_if_first dst index (count_add dst index 1 tp) in
      if curr_top tp <? index then set_curr_top index tp else tp
    else tp in
  let dst := negb dst in
  if negb (prev_window w =? 0) then
    let index := load_to_index e (prev_window w) in
    let tp := set_if_first dst index (count_add dst index 1 tp) in
    if prev_top tp <? index then set_prev_top index tp else tp
  else tp.

(** ** A task's load changes, and the window rolls over *)
Definition update_top_tasks (w : task_window) (old_curr_window : Z) (new_window full_window : bool)
    (tp : top_state) : top_state :=
  let curr := curr_table tp in
  let prev := negb curr in
  let cw := curr_window w in
  let pw := prev_window w in
  if (old_curr_window =? cw) && negb new_window then tp else
  let old_index := load_to_index e old_curr_window in
  let new_index := load_to_index e cw in
  if negb new_window then
    let zero_index_update := (old_curr_window =? 0) && negb (cw =? 0) in
    let tp :=
      if negb (old_index =? new_index) || zero_index_update then
        let tp := if negb (old_curr_window =? 0) then count_add curr old_index (-1) tp else tp in
        let tp := if negb (cw =? 0) then count_add curr new_index 1 tp else tp in
        if curr_top tp <? new_index then set_curr_top new_index tp else tp
      else tp in
    let tp := clear_if_empty curr old_index tp in
    set_if_first curr new_index tp
  else
    let update_index := load_to_index e pw in
    let tp :=
      if full_window then
        let tp := if negb (pw =? 0) then set_prev_top update_index (count_add prev update_index 1 tp)
                  else tp in
        set_if_first prev update_index tp
      else
        let zero_index_update := (old_curr_window =? 0) && negb (pw =? 0) in
        if negb (old_index =? update_index) || zero_index_update then
          let tp := if negb (old_curr_window =? 0) then count_add prev old_index (-1) tp else tp in
          let tp := count_add prev update_index 1 tp in
          let tp := if prev_top tp <? update_index then set_prev_top update_index tp else tp in
          set_if_first prev update_index (clear_if_empty prev old_index tp)
        else tp in
    if negb (cw =? 0) then
      let tp := count_add curr new_index 1 tp in
      let tp := if curr_top tp <? new_index then set_curr_top new_index tp else tp in
      set_if_first curr new_index tp
    else tp.

Definition rollover_top_tasks (full_window : bool) (tp : top_state) : top_state :=
  let c := curr_table tp in
  let p := negb c in
  let tp1 := set_bitmap p clear_top_tasks_bitmap (set_table p clear_top_tasks_table tp) in
  let tp2 := if full_window
             then set_bitmap c clear_top_tasks_bitmap (set_table c clear_top_tasks_table tp1)
             else tp1 in
  mk_top_state (top_tasks tp2) (top_tasks_bitmap tp2) p
    (if full_window then 0 else curr_top tp) 0.

Definition top_task_load (tp : top_state) : Z :=
  let index := prev_top tp in
  let prev := negb (curr_table tp) in
  if index =? 0 then
    if negb (test_bit (NUM_LOAD_INDICES - 1) (top_tasks_bitmap tp prev)) then 0
    else sched_load_granule e
  else if index =? NUM_LOAD_INDICES - 1 then sched_ravg_window e
  else u32 ((index + 1) * sched_load_granule e).

End ops.
