(* ===== verification/WaltWindow.v ===== *)
(** * WALT windows and busy time (kernel/sched/walt/walt.c)

    [walt_update_task_ravg] and what it calls: the run queue's window rolls over
    in whole window lengths, a task's time since its last event is split at the
    window boundary and added to the CPU's sums and to the task's own counters,
    the top-task tables follow, and the demand of the task is updated.  The
    functions are on the parts of the run queue and the task they write; the
    last one puts them together. *)

From S2P Require Import Prelude.
From S2P Require Import WaltData WaltDemand WaltTop.

(** ** The run queue's window *)
Definition rollover_sums (full_window : bool) (g : group_cpu_time) : group_cpu_time :=
  mk_group_cpu_time 0 (if full_window then 0 else curr_runnable_sum g)
    0 (if full_window then 0 else nt_curr_runnable_sum g).

Definition rollover_cpu_window (full_window : bool) (q : walt_rq) : walt_rq :=
  set_times (rollover_sums full_window (rq_time q)) (rollover_sums full_window (grp_time q)) q.

Definition update_window_start (e : walt_env) (cpu wallclock : Z) (q : walt_rq)
    : walt_rq * list walt_out :=
  let delta := wallclock - rq_window_start q in
  let o := bug_if (wallclock <? latest_clock q) PANIC_CLOCK ++ bug_if (delta <? 0) PANIC_CLOCK in
  let q := set_window (rq_window_start q) (prev_window_size q) wallclock q in
  if delta <? sched_ravg_window e then (q, o) else
  let nr_windows := s32 (delta / sched_ravg_window e) in
  let q := set_window (rq_window_start q + nr_windows * sched_ravg_window e)
             (sched_ravg_window e) wallclock q in
  let full_window := 1 <? nr_windows in
  let q := rollover_cpu_window full_window q in
  let q := set_top (rollover_top_tasks full_window (top q)) q in
  (q, o ++ (if cpu =? 0 then [ACCOUNT_YIELDS wallclock] else [])).

(** ** The execution scale *)
Definition DIV64_U64_ROUNDUP (x y : Z) : Z := u64 (x + (y - 1)) / y.

Definition read_cycle_counter (reading wallclock : Z) (q : walt_rq) : walt_rq * Z :=
  let q := if negb (last_cc_update q =? wallclock) then set_cycles wallclock reading q else q in
  (q, cycles q).

Definition update_task_cpu_cycles (e : walt_env) (v : task_view) (wallclock : Z)
    (q : walt_rq) (t : walt_task_struct) : walt_rq * walt_task_struct :=
  if use_cycle_counter e then
    let '(q, c) := read_cycle_counter (tv_cycles v) wallclock q in (q, set_cpu_cycles c t)
  else (q, t).

Definition cycles_between (old cur : Z) : Z :=
  if cur <? old then u64 (cur + (U64_MAX - old)) else cur - old.

Definition update_task_rq_cpu_cycles (e : walt_env) (v : task_view) (event : task_event)
    (wallclock irqtime : Z) (q : walt_rq) (t : walt_task_struct)
    : walt_rq * walt_task_struct * list walt_out :=
  let cpu := tv_cpu v in
  if negb (use_cycle_counter e) then
    (set_scale (DIV64_U64_ROUNDUP (u64 (cur_freq e cpu * arch_scale_cpu_capacity e cpu))
                  (max_possible_freq e cpu)) q, t, [])
  else
    let '(q, cur_cycles) := read_cycle_counter (tv_cycles v) wallclock q in
    let '(q, o) :=
      if negb (tv_curr_idle v) || negb (irqtime =? 0) then
        let cycles_delta := u64 (cycles_between (cpu_cycles t) cur_cycles * NSEC_PER_MSEC) in
        let time_delta := if bool_decide (event = IRQ_UPDATE) && walt_is_idle_task (flags t)
                          then irqtime else wallclock - mark_start (win t) in
        (set_scale (DIV64_U64_ROUNDUP (u64 (cycles_delta * arch_scale_cpu_capacity e cpu))
                      (u64 (time_delta * max_possible_freq e cpu))) q,
         bug_if (time_delta <? 0) PANIC_CLOCK)
      else (q, []) in
    (q, set_cpu_cycles cur_cycles t, o).

(** ** Busy time *)
Definition cpu_is_waiting_on_io (e : walt_env) (v : task_view) : bool :=
  if negb (sched_io_is_busy e) then false else negb (tv_nr_iowait v =? 0).

Definition account_busy_for_cpu_time (e : walt_env) (v : task_view) (fl irqtime : Z)
    (event : task_event) : bool :=
  if walt_is_idle_task fl then
    if bool_decide (event = PICK_NEXT_TASK) then false
    else negb (irqtime =? 0) || cpu_is_waiting_on_io e v
  else if bool_decide (event = TASK_WAKE) then false
  else if bool_decide (event = PUT_PREV_TASK) || bool_decide (event = IRQ_UPDATE) then true
  else if bool_decide (event = TASK_UPDATE) then
    if tv_is_curr v then true
    else if tv_runnable v then SCHED_FREQ_ACCOUNT_WAIT_TIME else false
  else SCHED_FREQ_ACCOUNT_WAIT_TIME.

Definition rollover_task_window (e : walt_env) (pws : Z) (full_window : bool) (w : task_window)
    : task_window :=
  let keep := negb full_window in
  mk_task_window (mark_start w) (window_start w)
    0 (if keep then curr_window w else 0)
    (λ i, if bool_decide (i ∈ possible_cpus e) then 0 else curr_window_cpu w i)
    (λ i, if bool_decide (i ∈ possible_cpus e)
          then (if keep then curr_window_cpu w i else 0) else prev_window_cpu w i)
    (if is_new_task w then active_time w + pws else active_time w).

(** What [update_cpu_busy_time] writes. *)
Record bstate := mk_bs {
  b_win : task_window;
  b_rq : group_cpu_time;
  b_grp : group_cpu_time;
  b_top : top_state;
  b_out : list walt_out;
}.

(** Add [dp] to the previous and [dc] to the current window's sums, the new-task
    sums too for a new task. *)
Definition sums_add (new_task : bool) (dp dc : Z) (g : group_cpu_time) : group_cpu_time :=
  mk_group_cpu_time (curr_runnable_sum g + dc) (prev_runnable_sum g + dp)
    (if new_task then nt_curr_runnable_sum g + dc else nt_curr_runnable_sum g)
    (if new_task then nt_prev_runnable_sum g + dp else nt_prev_runnable_sum g).

Definition acct (in_grp : bool) (f : group_cpu_time → group_cpu_time) (s : bstate) : bstate :=
  if in_grp then mk_bs (b_win s) (b_rq s) (f (b_grp s)) (b_top s) (b_out s)
  else mk_bs (b_win s) (f (b_rq s)) (b_grp s) (b_top s) (b_out s).

Definition set_b_win (w : task_window) (s : bstate) : bstate :=
  mk_bs w (b_rq s) (b_grp s) (b_top s) (b_out s).

(** The task's counters: added to within a window, assigned after a rollover. *)
Definition win_add_curr (cpu d : Z) (w : task_window) : task_window :=
  mk_task_window (mark_start w) (window_start w) (u32 (curr_window w + d)) (prev_window w)
    (<[cpu := u32 (curr_window_cpu w cpu + d)]> (curr_window_cpu w)) (prev_window_cpu w)
    (active_time w).
Definition win_set_curr (cpu d : Z) (w : task_window) : task_window :=
  mk_task_window (mark_start w) (window_start w) (u32 d) (prev_window w)
    (<[cpu := u32 d]> (curr_window_cpu w)) (prev_window_cpu w) (active_time w).
Definition win_add_prev (cpu d : Z) (w : task_window) : task_window :=
  mk_task_window (mark_start w) (window_start w) (curr_window w) (u32 (prev_window w + d))
    (curr_window_cpu w) (<[cpu := u32 (prev_window_cpu w cpu + d)]> (prev_window_cpu w))
    (active_time w).
Definition win_set_prev (cpu d : Z) (w : task_window) : task_window :=
  mk_task_window (mark_start w) (window_start w) (curr_window w) (u32 d)
    (curr_window_cpu w) (<[cpu := u32 d]> (prev_window_cpu w)) (active_time w).
Definition win_set_start (ws : Z) (w : task_window) : task_window :=
  mk_task_window (mark_start w) ws (curr_window w) (prev_window w) (curr_window_cpu w)
    (prev_window_cpu w) (active_time w).
Definition win_set_mark (ms : Z) (w : task_window) : task_window :=
  mk_task_window ms (window_start w) (curr_window w) (prev_window w) (curr_window_cpu w)
    (prev_window_cpu w) (active_time w).

Section busy.
Context (e : walt_env) (v : task_view).
Context (fl : Z) (in_grp : bool).            (* the task's flags; whether it has a group *)
Context (rq_ws pws : Z).                     (* the run queue's window *)
Context (scale : Z → Z).

(** The time since [mark_start] split over the previous and the current window,
    the task's counters following unless it is idle ([track]). *)
Definition account_split (track new_task full_window : bool) (ms wallclock : Z) (s : bstate)
    : bstate :=
  let cpu := tv_cpu v in
  let dp := if full_window then scale pws else scale (rq_ws - ms) in
  let s := if track
           then set_b_win ((if full_window then win_set_prev else win_add_prev) cpu dp (b_win s)) s
           else s in
  let s := acct in_grp (sums_add new_task dp 0) s in
  let dc := scale (wallclock - rq_ws) in
  let s := acct in_grp (sums_add new_task 0 dc) s in
  if track then set_b_win (win_set_curr cpu dc (b_win s)) s else s.

Definition update_cpu_busy_time (event : task_event) (wallclock irqtime : Z) (s : bstate) : bstate :=
  let cpu := tv_cpu v in
  let idle := walt_is_idle_task fl in
  let ms := mark_start (b_win s) in
  let old_curr_window := curr_window (b_win s) in
  let new_window := ms <? rq_ws in
  let full_window := new_window && (pws <=? rq_ws - ms) in
  let s := if new_window then
             let w := if negb idle then rollover_task_window e pws full_window (b_win s)
                      else b_win s in
             set_b_win (win_set_start rq_ws w) s
           else s in
  let new_task := is_new_task (b_win s) in
  let finish s := if negb idle
                  then mk_bs (b_win s) (b_rq s) (b_grp s)
                         (update_top_tasks e (b_win s) old_curr_window new_window full_window
                            (b_top s)) (b_out s)
                  else s in
  if negb (account_busy_for_cpu_time e v fl irqtime event) then finish s else
  let s := mk_bs (b_win s) (b_rq s) (b_grp s) (b_top s)
             (b_out s ++ bug_if (negb (window_start (b_win s) =? rq_ws)) BUG_WINDOW_MISMATCH) in
  let not_irq := (irqtime =? 0) || negb idle || cpu_is_waiting_on_io e v in
  if negb new_window then
    let delta := scale (if not_irq then wallclock - ms else irqtime) in
    let s := acct in_grp (sums_add new_task 0 delta) s in
    finish (if negb idle then set_b_win (win_add_curr cpu delta (b_win s)) s else s)
  else if negb (tv_is_curr v) then
    finish (account_split true new_task full_window ms wallclock s)
  else if not_irq then
    finish (account_split (negb idle) new_task full_window ms wallclock s)
  else
    let s := mk_bs (b_win s) (b_rq s) (b_grp s) (b_top s)
               (b_out s ++ bug_if (negb idle) PANIC_NOT_IDLE) in
    let ms := wallclock - irqtime in
    if rq_ws <? ms then
      acct in_grp (sums_add false 0 (scale irqtime)) s
    else
      let delta := rq_ws - ms in
      let delta := if pws <? delta then pws else delta in
      let s := acct in_grp (sums_add false (scale delta) 0) s in
      acct false (sums_add false 0 (scale (wallclock - rq_ws))) s.

End busy.

(** ** The busy bitmap of pipeline tasks *)
Definition SCHED_RAVG_8MS_WINDOW : Z := 8000000.
Definition SCHED_RAVG_12MS_WINDOW : Z := 12000000.
Definition SCHED_RAVG_16MS_WINDOW : Z := 16000000.

(** [set_bits] *)
Definition shift_in_bits (bitmap nr_bits : Z) (bit : bool) : Z :=
  let nr_bits := if 16 <? nr_bits then 16 else nr_bits in
  Z.lor (u16 (Z.shiftl bitmap nr_bits)) (if bit then Z.shiftl 1 nr_bits - 1 else 0).

Definition hweight16 (m : Z) : Z := zlen (filter (λ i, Z.testbit m i = true) (seqZ 0 16)).

Definition set_bm (bm contrib : Z) (p : task_pipe) : task_pipe :=
  mk_task_pipe (pipeline_cpu p) bm contrib (lst p) (lst_tgt_ns p) (lst_state_counter p)
    (continuous_active p) (event_windows p).

(** Whether the last windows were busy for long enough to boost. *)
Definition lrpb_active (e : walt_env) (bitmap : Z) : bool :=
  let W := sched_ravg_window e in
  let th := sysctl_sched_lrpb_active_ms e in
  if (W <=? SCHED_RAVG_8MS_WINDOW) && ((hweight16 (Z.land bitmap 0x00FF) <? th 0) || (th 0 =? 0))
  then false
  else if (W =? SCHED_RAVG_12MS_WINDOW) &&
          ((hweight16 (Z.land bitmap 0x0FFF) <? th 1) || (th 1 =? 0)) then false
  else if (SCHED_RAVG_16MS_WINDOW <=? W) && ((hweight16 bitmap <? th 2) || (th 2 =? 0)) then false
  else true.

Definition update_busy_bitmap (e : walt_env) (v : task_view) (ms : Z) (event : task_event)
    (wallclock fl lrb : Z) (p : task_pipe) : Z * Z * task_pipe * list walt_out :=
  let threshold := if sched_ravg_window e <=? SCHED_RAVG_8MS_WINDOW then 4000000 else 8000000 in
  let lrb := if lrb + threshold <? wallclock then 0 else lrb in
  if negb (pipeline_in_progress e) then (fl, lrb, p, []) else
  if pipeline_cpu p =? -1 then (fl, lrb, p, []) else
  let o := bug_if (wallclock <? ms) PANIC_CLOCK in
  let wallclock := if wallclock <? ms then ms else wallclock in
  let running := account_busy_for_cpu_time e v fl 0 event in
  let fl := if negb (tv_runnable v) then walt_flag_set fl WALT_LRB_PIPELINE_BIT false else fl in
  let boundary := (ms + (NSEC_PER_MSEC - 1)) / NSEC_PER_MSEC * NSEC_PER_MSEC in
  if wallclock <? boundary then
    (fl, lrb,
     (if running then set_bm (busy_bitmap p) (u32 (period_contrib_run p + (wallclock - ms))) p else p),
     o)
  else
    let contrib := if running then u32 (period_contrib_run p + (boundary - ms))
                   else period_contrib_run p in
    let bm := shift_in_bits (busy_bitmap p) 1 (500000 <? contrib) in
    let periods := s32 ((wallclock - boundary) / NSEC_PER_MSEC) in
    let bm := if negb (periods =? 0) then shift_in_bits bm periods running else bm in
    let p := set_bm bm (if running then wallclock mod NSEC_PER_MSEC else 0) p in
    if negb (tv_runnable v) then (fl, lrb, p, o) else
    if negb (lrpb_active e bm) then (fl, lrb, p, o) else
    if negb (lrb =? 0) then (fl, lrb, p, o) else
    (walt_flag_set fl WALT_LRB_PIPELINE_BIT true, wallclock, p, o).

(** ** [walt_update_task_ravg] *)

(** The window rollover work is queued by the CPU that advances
    [walt_irq_work_lastq_ws]. *)
Definition run_walt_irq_work_rollover (old_window_start rq_ws lastq_ws : Z) : Z * bool :=
  if old_window_start =? rq_ws then (lastq_ws, false)
  else if lastq_ws =? old_window_start then (rq_ws, true) else (lastq_ws, false).

Record ravg_state := mk_ravg {
  r_rq : walt_rq;
  r_task : walt_task_struct;
  r_lastq_ws : Z;                 (* walt_irq_work_lastq_ws *)
  r_out : list walt_out;
}.

(** The demand, busy-time, prediction and bitmap updates, each on its part. *)
Definition run_demand (e : walt_env) (v : task_view) (event : task_event) (wallclock : Z)
    (q : walt_rq) (t : walt_task_struct) : walt_rq * walt_task_struct * list walt_out :=
  let '(s, p, _) :=
    update_task_demand e v (win t) (grp t) (prev_window_size q) (scale_exec_time q t) event
      wallclock (rq_window_start q) (mk_ds (walt_stats q) (flags t) (dem t) []) (pipe t) in
  (set_stats (ds_stats s) q, set_pipe (ds_flags s) p (set_dem (ds_flags s) (ds_dem s) t), ds_out s).

Definition run_busy (e : walt_env) (v : task_view) (event : task_event) (wallclock irqtime : Z)
    (q : walt_rq) (t : walt_task_struct) : walt_rq * walt_task_struct * list walt_out :=
  let s := update_cpu_busy_time e v (flags t) (bool_decide (is_Some (grp t))) (rq_window_start q)
             (prev_window_size q) (scale_exec_time q t) event wallclock irqtime
             (mk_bs (win t) (rq_time q) (grp_time q) (top q) []) in
  (set_top (b_top s) (set_times (b_rq s) (b_grp s) q), set_win (b_win s) t, b_out s).

Definition run_pred (e : walt_env) (v : task_view) (event : task_event) (q : walt_rq)
    (t : walt_task_struct) : walt_rq * walt_task_struct * list walt_out :=
  let s := update_task_pred_demand e v (win t) event
             (mk_ds (walt_stats q) (flags t) (dem t) []) in
  (set_stats (ds_stats s) q, set_dem (ds_flags s) (ds_dem s) t, ds_out s).

Definition run_bitmap (e : walt_env) (v : task_view) (event : task_event) (wallclock : Z)
    (q : walt_rq) (t : walt_task_struct) : walt_rq * walt_task_struct * list walt_out :=
  let '(fl, lrb, p, o) := update_busy_bitmap e v (mark_start (win t)) event wallclock (flags t)
                            (lrb_pipeline_start_time q) (pipe t) in
  (set_lrb lrb q, set_pipe fl p t, o).

Definition walt_update_task_ravg (e : walt_env) (v : task_view) (event : task_event)
    (wallclock irqtime : Z) (s : ravg_state) : ravg_state :=
  let q := r_rq s in let t := r_task s in
  if tv_on_scx v then s else
  if (rq_window_start q =? 0) || (mark_start (win t) =? wallclock) then s else
  let old_window_start := rq_window_start q in
  let old_lrb_task := walt_flag_test (flags t) WALT_LRB_PIPELINE_BIT in
  let '(q, o) := update_window_start e (tv_cpu v) wallclock q in
  let old_lrb_cpu := negb (lrb_pipeline_start_time q =? 0) in
  let t := if window_start (win t) =? 0 then set_win (win_set_start (rq_window_start q) (win t)) t
           else t in
  let '(q, t, o) :=
    if mark_start (win t) =? 0 then
      let '(q, t) := update_task_cpu_cycles e v wallclock q t in (q, t, o)
    else
      let '(q, t, o1) := update_task_rq_cpu_cycles e v event wallclock irqtime q t in
      let '(q, t, o2) := run_demand e v event wallclock q t in
      let '(q, t, o3) := run_busy e v event wallclock irqtime q t in
      let '(q, t, o4) := run_pred e v event q t in
      let '(q, t, o5) := run_bitmap e v event wallclock q t in
      let t := if bool_decide (event = PUT_PREV_TASK) && negb (tv_state v =? 0)
               then set_iowaited (tv_in_iowait v) t else t in
      (q, t, o ++ o1 ++ o2 ++ o3 ++ o4 ++ o5) in
  let t := set_win (win_set_mark wallclock (win t)) t in
  let o := o ++ bug_if (window_start (win t) + sched_ravg_window e <? mark_start (win t))
                  BUG_MARK_AHEAD in
  let '(lastq, won) :=
    run_walt_irq_work_rollover old_window_start (rq_window_start q) (r_lastq_ws s) in
  let gov :=
    (negb (pipeline_cpu (pipe t) =? -1) && negb old_lrb_task &&
     walt_flag_test (flags t) WALT_LRB_PIPELINE_BIT) ||
    (old_lrb_cpu && (lrb_pipeline_start_time q =? 0)) in
  mk_ravg q t lastq
    (r_out s ++ o ++ (if won then [IRQ_WORK_ROLLOVER]
                      else if gov then [GOV_PIPELINE_BUSY (tv_cpu v)] else [])).
