(* ===== verification/WaltBusy.v ===== *)
(** * WALT busy time: the effect of one update

    What [walt_update_task_ravg] does to the busy-time sums of the run queue and
    to the task's own counters, stated per window: [wsum] is what a run queue
    holds for the window that starts at [x], [byw] what a task holds for it.
    After an update the task and the run queue are in the same window, and for
    every window the run queue still tracks, the sum has grown by at least as
    much as the task's share has. *)

From S2P Require Import Prelude.
From S2P Require Import WaltData WaltDemand WaltTop WaltWindow.

(** ** Per-window views *)
Definition wsum (W : Z) (n : bool) (ws : Z) (g : group_cpu_time) (x : Z) : Z :=
  if x =? ws then (if n then nt_curr_runnable_sum g else curr_runnable_sum g)
  else if x =? ws - W then (if n then nt_prev_runnable_sum g else prev_runnable_sum g)
  else 0.

Definition byw (W ws cur prv x : Z) : Z :=
  if x =? ws then cur else if x =? ws - W then prv else 0.

(** The grid of window starts with phase [φ]. *)
Definition on_grid (φ W x : Z) : Prop := ∃ k, x = φ + k * W.

Definition win_nonneg (w : task_window) : Prop :=
  (∀ c, 0 ≤ curr_window_cpu w c ∧ 0 ≤ prev_window_cpu w c) ∧ 0 ≤ curr_window w ∧ 0 ≤ prev_window w.

Definition win_zero (w : task_window) : Prop :=
  (∀ c, curr_window_cpu w c = 0 ∧ prev_window_cpu w c = 0) ∧ curr_window w = 0 ∧ prev_window w = 0.

(** A task that has not been accounted yet, or one whose last event lies in its
    window. *)
Definition win_ok (φ W : Z) (w : task_window) : Prop :=
  win_nonneg w ∧
  ((mark_start w = 0 ∧ window_start w = 0 ∧ win_zero w) ∨
   (0 < window_start w ∧ on_grid φ W (window_start w) ∧
    window_start w ≤ mark_start w < window_start w + W)).

Definition rq_ok (φ W : Z) (q : walt_rq) : Prop :=
  prev_window_size q = W ∧ W ≤ rq_window_start q < 2 ^ 64 ∧ on_grid φ W (rq_window_start q).

(** What the caller's clock satisfies: it is behind neither the run queue nor the
    task, and the run queue has not been idle for [2^31] windows. *)
Definition clock_ok (W wallclock : Z) (q : walt_rq) (w : task_window) : Prop :=
  latest_clock q ≤ wallclock ∧ rq_window_start q ≤ wallclock < 2 ^ 64 ∧ mark_start w ≤ wallclock ∧
  wallclock - rq_window_start q < 2 ^ 31 * W.

Lemma grid_lt φ W x y : 0 < W → on_grid φ W x → on_grid φ W y → x < y → x + W ≤ y.
Proof. intros HW [k ->] [l ->] H. assert (k < l) by nia. nia. Qed.

Lemma grid_add φ W x n : on_grid φ W x → on_grid φ W (x + n * W).
Proof. intros [k ->]. exists (k + n). lia. Qed.

(** ** The window rollover of a run queue *)
Section window.
Context (e : walt_env) (φ : Z).
Local Notation W := (sched_ravg_window e).
Context (HW : 0 < W).

Lemma update_window_start_spec cpu wc q q' o :
  rq_ok φ W q → latest_clock q ≤ wc → rq_window_start q ≤ wc < 2 ^ 64 →
  wc - rq_window_start q < 2 ^ 31 * W →
  update_window_start e cpu wc q = (q', o) →
  rq_ok φ W q' ∧ latest_clock q' = wc ∧
  rq_window_start q ≤ rq_window_start q' ≤ wc ∧ wc < rq_window_start q' + W ∧
  load_subs q' = load_subs q ∧ walt_stats q' = walt_stats q ∧
  lrb_pipeline_start_time q' = lrb_pipeline_start_time q ∧
  (∀ n x, rq_window_start q' - W ≤ x →
     wsum W n (rq_window_start q') (rq_time q') x = wsum W n (rq_window_start q) (rq_time q) x ∧
     wsum W n (rq_window_start q') (grp_time q') x = wsum W n (rq_window_start q) (grp_time q) x) ∧
  (∀ b, b ∈ o → b = ACCOUNT_YIELDS wc).
Proof.
  intros (Hp & Hw & Hg) Hl Hc Hb. unfold update_window_start.
  rewrite (proj2 (Z.ltb_ge wc (latest_clock q))) by lia.
  rewrite (proj2 (Z.ltb_ge (wc - _) 0)) by lia. cbn [bug_if app].
  destruct (Z.ltb_spec (wc - rq_window_start q) W) as [Hd|Hd].
  { intros [= <- <-]. cbn. split_and!; try done; try lia.
    intros b Hb'. by apply elem_of_nil in Hb'. }
  set (n := (wc - rq_window_start q) / W).
  assert (1 ≤ n) as Hn1.
  { apply (Z.div_le_lower_bound); lia. }
  assert (n < 2 ^ 31) as Hn2 by (apply Z.div_lt_upper_bound; lia).
  rewrite (s32_small n) by lia.
  pose proof (Z.mul_div_le (wc - rq_window_start q) W HW) as Hle.
  pose proof (Z.mul_succ_div_gt (wc - rq_window_start q) W HW) as Hgt. fold n in Hle, Hgt.
  intros [= <- <-]. cbn [rq_window_start prev_window_size latest_clock load_subs walt_stats
    lrb_pipeline_start_time rq_time grp_time set_top set_times set_window rollover_cpu_window].
  split_and!; try done; try nia.
  - split_and!; try done; cbn [rq_window_start set_top set_times set_window rollover_cpu_window]; try nia.
    by apply grid_add.
  - intros m x Hx. unfold wsum, rollover_sums. cbn [curr_runnable_sum prev_runnable_sum
      nt_curr_runnable_sum nt_prev_runnable_sum].
    split; destruct (Z.ltb_spec 1 n) as [Hf|Hf];
      zcases; destruct m; try done; try nia.
  - intros b Hb'. destruct (cpu =? 0); [by apply list_elem_of_singleton in Hb' | by apply elem_of_nil in Hb'].
Qed.
End window.

(** ** The busy time of one event *)

(** The task's windows after its rollover, before time is added. *)
Definition rolled (e : walt_env) (pws rq_ws : Z) (w : task_window) : task_window :=
  if mark_start w <? rq_ws
  then win_set_start rq_ws (rollover_task_window e pws (pws <=? rq_ws - mark_start w) w)
  else w.

(** [w'] is [w] with at most [dp] and [dc] added to the previous and the current
    window on [cpu]; u32 counters may wrap below that. *)
Record grown (cpu dp dc : Z) (w w' : task_window) : Prop := mk_grown {
  gr_mark : mark_start w' = mark_start w;
  gr_start : window_start w' = window_start w;
  gr_active : active_time w' = active_time w;
  gr_curr : 0 ≤ curr_window w' ≤ curr_window w + dc;
  gr_prev : 0 ≤ prev_window w' ≤ prev_window w + dp;
  gr_curr_cpu : ∀ c, 0 ≤ curr_window_cpu w' c ≤ curr_window_cpu w c + (if c =? cpu then dc else 0);
  gr_prev_cpu : ∀ c, 0 ≤ prev_window_cpu w' c ≤ prev_window_cpu w c + (if c =? cpu then dp else 0);
}.

Lemma fn_at (f : Z → Z) (k v c : Z) : (<[k := v]> f : Z → Z) c = if c =? k then v else f c.
Proof.
  destruct (Z.eqb_spec c k); subst; [by rewrite fn_lookup_insert | by rewrite fn_lookup_insert_ne].
Qed.

Lemma u32_bounds z d : 0 ≤ z → 0 ≤ d → 0 ≤ u32 (z + d) ≤ z + d.
Proof. intros. pose proof (u32_range (z + d)). pose proof (u32_le (z + d)). lia. Qed.
Lemma u32_set_bounds z d : 0 ≤ z → 0 ≤ d → 0 ≤ u32 d ≤ z + d.
Proof. intros. pose proof (u32_range d). pose proof (u32_le d). lia. Qed.

Lemma rolled_nonneg e pws ws w : win_nonneg w → win_nonneg (rolled e pws ws w).
Proof.
  intros (Hc & H1 & H2). unfold rolled, win_nonneg. case_match; [|done].
  cbn. split_and!; [intros c | lia | by case_match].
  specialize (Hc c). repeat case_match; lia.
Qed.

Lemma grown_refl cpu w : win_nonneg w → grown cpu 0 0 w w.
Proof.
  intros (Hc & ? & ?). split; try done; try lia; intros c; specialize (Hc c); case_match; lia.
Qed.

Ltac grown_tac Hc :=
  split; try done; cbn; try lia;
  try (apply u32_bounds; lia); try (apply u32_set_bounds; lia);
  intros c; specialize (Hc c); rewrite ?fn_at; zcases; subst; try lia;
  first [apply u32_bounds; lia | apply u32_set_bounds; lia].

Lemma grown_add_curr cpu d w : 0 ≤ d → win_nonneg w → grown cpu 0 d w (win_add_curr cpu d w).
Proof. intros Hd (Hc & ? & ?). grown_tac Hc. Qed.
Lemma grown_set_curr cpu d w : 0 ≤ d → win_nonneg w → grown cpu 0 d w (win_set_curr cpu d w).
Proof. intros Hd (Hc & ? & ?). grown_tac Hc. Qed.
Lemma grown_add_prev cpu d w : 0 ≤ d → win_nonneg w → grown cpu d 0 w (win_add_prev cpu d w).
Proof. intros Hd (Hc & ? & ?). grown_tac Hc. Qed.
Lemma grown_set_prev cpu d w : 0 ≤ d → win_nonneg w → grown cpu d 0 w (win_set_prev cpu d w).
Proof. intros Hd (Hc & ? & ?). grown_tac Hc. Qed.

Lemma grown_nonneg cpu dp dc w w' : grown cpu dp dc w w' → win_nonneg w'.
Proof.
  intros [_ _ _ ? ? Hc Hp]. split_and!; try lia.
  intros c. specialize (Hc c). specialize (Hp c). lia.
Qed.

Lemma grown_trans cpu dp dc dp' dc' w w' w'' :
  grown cpu dp dc w w' → grown cpu dp' dc' w' w'' → grown cpu (dp + dp') (dc + dc') w w''.
Proof.
  intros [? ? ? ? ? Hc Hp] [? ? ? ? ? Hc' Hp'].
  split; try congruence; try lia; intros c;
    specialize (Hc c); specialize (Hp c); specialize (Hc' c); specialize (Hp' c);
    destruct (c =? cpu); lia.
Qed.

Lemma sums_add_add n dp dc dp' dc' g :
  sums_add n dp' dc' (sums_add n dp dc g) = sums_add n (dp + dp') (dc + dc') g.
Proof. unfold sums_add. destruct n; cbn; f_equal; lia. Qed.

Lemma sums_add_0 n g : sums_add n 0 0 g = g.
Proof. destruct g, n; unfold sums_add; cbn; f_equal; lia. Qed.

Section busy_effect.
Context (e : walt_env) (v : task_view) (fl : Z) (in_grp : bool) (rq_ws pws : Z) (scale : Z → Z).
Context (Hscale : ∀ d, 0 ≤ scale d).

(** What [update_cpu_busy_time] does for a task that is not idle. *)
Definition busy_effect (event : task_event) (irqtime : Z) (s s' : bstate) : Prop :=
  let w := b_win s in
  let base := rolled e pws rq_ws w in
  ∃ dp dc, 0 ≤ dp ∧ 0 ≤ dc ∧
    b_rq s' = (if in_grp then b_rq s else sums_add (is_new_task base) dp dc (b_rq s)) ∧
    b_grp s' = (if in_grp then sums_add (is_new_task base) dp dc (b_grp s) else b_grp s) ∧
    grown (tv_cpu v) dp dc base (b_win s') ∧
    (account_busy_for_cpu_time e v fl irqtime event = false → dp = 0 ∧ dc = 0 ∧ b_win s' = base) ∧
    b_top s' = update_top_tasks e (b_win s') (curr_window w) (mark_start w <? rq_ws)
                 ((mark_start w <? rq_ws) && (pws <=? rq_ws - mark_start w)) (b_top s) ∧
    b_out s' = b_out s ++ bug_if (account_busy_for_cpu_time e v fl irqtime event &&
                                  negb (window_start base =? rq_ws)) BUG_WINDOW_MISMATCH.

Lemma account_split_grown new full ms wc s :
  win_nonneg (b_win s) →
  ∃ dp dc, 0 ≤ dp ∧ 0 ≤ dc ∧
    let s' := account_split v in_grp rq_ws pws scale true new full ms wc s in
    b_rq s' = (if in_grp then b_rq s else sums_add new dp dc (b_rq s)) ∧
    b_grp s' = (if in_grp then sums_add new dp dc (b_grp s) else b_grp s) ∧
    grown (tv_cpu v) dp dc (b_win s) (b_win s') ∧
    b_top s' = b_top s ∧ b_out s' = b_out s.
Proof using Hscale.
  intros Hn. unfold account_split, acct.
  set (dp := if full then scale pws else scale (rq_ws - ms)).
  assert (0 ≤ dp) as Hdp by (unfold dp; case_match; apply Hscale).
  set (dc := scale (wc - rq_ws)). assert (0 ≤ dc) as Hdc by apply Hscale.
  exists dp, dc. split; [done|]. split; [done|].
  assert (grown (tv_cpu v) dp 0 (b_win s)
            ((if full then win_set_prev else win_add_prev) (tv_cpu v) dp (b_win s))) as Hg.
  { case_match; [by apply grown_set_prev | by apply grown_add_prev]. }
  pose proof (grown_set_curr (tv_cpu v) dc _ Hdc (grown_nonneg _ _ _ _ _ Hg)) as Hg2.
  pose proof (grown_trans _ _ _ _ _ _ _ _ Hg Hg2) as Hg3.
  rewrite Z.add_0_r, Z.add_0_l in Hg3.
  destruct in_grp; cbn; rewrite ?sums_add_add, ?Z.add_0_r, ?Z.add_0_l; done.
Qed.

Lemma update_cpu_busy_time_effect event wc irqtime s :
  walt_is_idle_task fl = false → win_nonneg (b_win s) →
  busy_effect event irqtime s
    (update_cpu_busy_time e v fl in_grp rq_ws pws scale event wc irqtime s).
Proof using Hscale.
  intros Hidle Hn. unfold update_cpu_busy_time. rewrite Hidle. cbn [negb andb].
  set (new_window := mark_start (b_win s) <? rq_ws).
  set (full := new_window && _).
  set (s1 := if new_window then _ else s).
  assert (b_win s1 = rolled e pws rq_ws (b_win s)) as Hb.
  { unfold s1, rolled, full. fold new_window. destruct new_window; done. }
  assert (b_rq s1 = b_rq s ∧ b_grp s1 = b_grp s ∧ b_top s1 = b_top s ∧ b_out s1 = b_out s)
    as (Hr & Hg & Ht & Ho) by (unfold s1; destruct new_window; done).
  pose proof (rolled_nonneg e pws rq_ws _ Hn) as Hbn.
  clearbody s1. unfold busy_effect. fold new_window. fold full.
  destruct (account_busy_for_cpu_time e v fl irqtime event) eqn:Ha; cbn [negb andb].
  2:{ exists 0, 0. cbn. rewrite Hb, Hr, Hg, Ht, Ho, app_nil_r, !sums_add_0.
      split_and!; try lia; try done; [by case_match | by case_match | by apply grown_refl]. }
  assert ((irqtime =? 0) || true || cpu_is_waiting_on_io e v = true) as -> by (by rewrite orb_true_r).
  rewrite Hb, <- Hr, <- Hg, <- Ht, <- Ho.
  set (base := rolled e pws rq_ws (b_win s)) in *. cbn [b_win].
  set (s2 := mk_bs base (b_rq s1) (b_grp s1) (b_top s1) _).
  destruct new_window eqn:Hnw; cbn [negb].
  - destruct (account_split_grown (is_new_task base) full (mark_start (b_win s)) wc s2)
      as (dp & dc & H1 & H2 & H3 & H4 & H5 & H6 & H7); [done|].
    exists dp, dc. destruct (tv_is_curr v); cbn [negb b_win b_rq b_grp b_top b_out];
      rewrite H6, H7; split_and!; done.
  - exists 0, (scale (wc - mark_start (b_win s))).
    pose proof (grown_add_curr (tv_cpu v) _ base (Hscale (wc - mark_start (b_win s))) Hbn) as Hgr.
    unfold acct. destruct in_grp; cbn; split_and!; try done; apply Hscale.
Qed.
End busy_effect.

(** ** Windows of a task before and after *)
Lemma rolled_byw e φ W ws w cpu dp dc w' x :
  0 < W → on_grid φ W ws → 0 < window_start w → on_grid φ W (window_start w) →
  window_start w ≤ mark_start w < window_start w + W → window_start w ≤ ws →
  win_nonneg w → grown cpu dp dc (rolled e W ws w) w' →
  window_start w' = ws ∧
  (∀ c, c ∈ possible_cpus e →
    byw W ws (curr_window_cpu w' c) (prev_window_cpu w' c) x
    ≤ byw W (window_start w) (curr_window_cpu w c) (prev_window_cpu w c) x
      + (if c =? cpu then byw W ws dc dp x else 0)) ∧
  byw W ws (curr_window w') (prev_window w') x
    ≤ byw W (window_start w) (curr_window w) (prev_window w) x + byw W ws dc dp x.
Proof.
  intros HW Hg Hp Hgt [Hm1 Hm2] Hle (Hc & Hn1 & Hn2) [Hmk Hst _ Hcu Hpr Hcc Hpc].
  unfold rolled in *. destruct (Z.ltb_spec (mark_start w) ws) as [Hlt|Hge]; cbn in *.
  - split; [done|].
    assert (window_start w + W ≤ ws) as Hw by (eapply grid_lt; eauto; lia).
    assert (W ≤ ws - mark_start w ∨ window_start w = ws - W) as Hcase.
    { destruct (Z.le_gt_cases W (ws - mark_start w)); [by left|right].
      destruct (Z.lt_ge_cases (window_start w + W) ws) as [Hlt2|]; [|lia].
      assert (on_grid φ W (window_start w + W)) as Hg2 by (rewrite <-(Z.mul_1_l W) at 2; by apply grid_add).
      pose proof (grid_lt φ W _ _ HW Hg2 Hg Hlt2). lia. }
    assert (∀ c0 p0 c1 p1 d1 d2, 0 ≤ c0 → 0 ≤ p0 → 0 ≤ c1 ≤ d1 →
      0 ≤ p1 ≤ (if negb (W <=? ws - mark_start w) then c0 else 0) + d2 →
      byw W ws c1 p1 x ≤ byw W (window_start w) c0 p0 x + byw W ws d1 d2 x) as Hgen.
    { intros c0 p0 c1 p1 d1 d2 H1 H2 H3 H4. unfold byw.
      destruct (Z.leb_spec W (ws - mark_start w)); cbn [negb] in H4; zcases; try lia. }
    split.
    + intros c Hin. specialize (Hc c). specialize (Hcc c). specialize (Hpc c).
      rewrite bool_decide_true in Hcc, Hpc by done.
      assert (∀ d1 d2, (if c =? cpu then byw W ws d1 d2 x else 0)
               = byw W ws (if c =? cpu then d1 else 0) (if c =? cpu then d2 else 0) x) as Hb.
      { intros. unfold byw. destruct (c =? cpu); zcases; lia. }
      rewrite Hb. apply Hgen; try lia.
    + apply Hgen; try lia.
  - assert (ws = window_start w) as Hws.
    { destruct (Z.lt_ge_cases (window_start w) ws) as [Hl|]; [|lia].
      pose proof (grid_lt φ W _ _ HW Hgt Hg Hl). lia. }
    split; [lia|]. rewrite <- Hws. split.
    + intros c Hin. specialize (Hcc c). specialize (Hpc c). unfold byw.
      destruct (Z.eqb_spec c cpu); zcases; lia.
    + unfold byw. zcases; lia.
Qed.

(** The window after a rollover or without one, and the last event in it. *)
Lemma rolled_start e φ W ws w wc :
  0 < W → on_grid φ W ws → 0 < ws → on_grid φ W (window_start w) →
  window_start w ≤ mark_start w < window_start w + W → mark_start w ≤ wc →
  ws ≤ wc < ws + W → window_start w ≤ ws ∧ window_start (rolled e W ws w) = ws.
Proof.
  intros HW Hg Hp Hgt [Hm1 Hm2] Hmc [Hw1 Hw2].
  assert (window_start w ≤ ws) as Hle.
  { destruct (Z.lt_ge_cases ws (window_start w)) as [Hl|]; [|lia].
    pose proof (grid_lt φ W _ _ HW Hg Hgt Hl). lia. }
  split; [done|]. unfold rolled. destruct (Z.ltb_spec (mark_start w) ws); cbn; [done|].
  destruct (Z.lt_ge_cases (window_start w) ws) as [Hl|]; [|lia].
  pose proof (grid_lt φ W _ _ HW Hgt Hg Hl). lia.
Qed.

(** ** The idle task only adds to the sums *)
Definition sums_le (g g' : group_cpu_time) : Prop :=
  curr_runnable_sum g ≤ curr_runnable_sum g' ∧ prev_runnable_sum g ≤ prev_runnable_sum g' ∧
  nt_curr_runnable_sum g ≤ nt_curr_runnable_sum g' ∧ nt_prev_runnable_sum g ≤ nt_prev_runnable_sum g'.

Lemma sums_add_le n dp dc g : 0 ≤ dp → 0 ≤ dc → sums_le g (sums_add n dp dc g).
Proof. intros. unfold sums_le, sums_add; cbn. destruct n; lia. Qed.
Lemma sums_le_refl g : sums_le g g.
Proof. unfold sums_le. lia. Qed.
Lemma sums_le_trans g g' g'' : sums_le g g' → sums_le g' g'' → sums_le g g''.
Proof. unfold sums_le. lia. Qed.
Lemma wsum_le W n ws g g' x : sums_le g g' → wsum W n ws g x ≤ wsum W n ws g' x.
Proof. unfold sums_le, wsum. intros. zcases; destruct n; lia. Qed.
Lemma wsum_add W n new ws dp dc g x : 0 < W →
  wsum W n ws (sums_add new dp dc g) x
  = wsum W n ws g x + (if n && negb new then 0 else byw W ws dc dp x).
Proof. intros. unfold wsum, sums_add, byw. cbn. destruct n, new; cbn; zcases; lia. Qed.

Definition times_le (s s' : bstate) : Prop := sums_le (b_rq s) (b_rq s') ∧ sums_le (b_grp s) (b_grp s').

Lemma acct_le in_grp n dp dc s : 0 ≤ dp → 0 ≤ dc → times_le s (acct in_grp (sums_add n dp dc) s).
Proof.
  intros. unfold times_le, acct. destruct in_grp; cbn; auto using sums_add_le, sums_le_refl.
Qed.
Lemma times_le_trans s s' s'' : times_le s s' → times_le s' s'' → times_le s s''.
Proof. intros [] []. split; by eapply sums_le_trans. Qed.

Lemma busy_time_idle e v fl in_grp ws pws scale event wc irqtime s :
  (∀ d, 0 ≤ scale d) → walt_is_idle_task fl = true → win_nonneg (b_win s) →
  let s' := update_cpu_busy_time e v fl in_grp ws pws scale event wc irqtime s in
  times_le s s' ∧ win_nonneg (b_win s') ∧ mark_start (b_win s') = mark_start (b_win s) ∧
  window_start (b_win s') = (if mark_start (b_win s) <? ws then ws else window_start (b_win s)) ∧
  active_time (b_win s') = active_time (b_win s) ∧ b_top s' = b_top s ∧
  (window_start (b_win s') = ws → b_out s' = b_out s).
Proof.
  intros Hsc Hidle Hn. unfold update_cpu_busy_time. rewrite Hidle. cbn [negb].
  set (s1 := if mark_start (b_win s) <? ws then _ else s).
  assert (times_le s s1 ∧ win_nonneg (b_win s1) ∧ mark_start (b_win s1) = mark_start (b_win s) ∧
    window_start (b_win s1) = (if mark_start (b_win s) <? ws then ws else window_start (b_win s)) ∧
    active_time (b_win s1) = active_time (b_win s) ∧
    b_top s1 = b_top s ∧ b_out s1 = b_out s) as (H1 & H2 & H3 & H4 & Hac & H5 & H6).
  { unfold s1. case_match; cbn; split_and!; try done; split; apply sums_le_refl. }
  clearbody s1. destruct (account_busy_for_cpu_time _ _ _ _ _); cbn [negb].
  2: { split_and!; done. }
  set (s2 := mk_bs (b_win s1) (b_rq s1) (b_grp s1) (b_top s1) _).
  assert (window_start (b_win s1) = ws → b_out s2 = b_out s) as Ho.
  { intros Hw. unfold s2; cbn. rewrite Hw, Z.eqb_refl; cbn. by rewrite app_nil_r. }
  assert (times_le s s2) as Ht2 by done.
  assert (b_win s2 = b_win s1) as Hw2 by done. assert (b_top s2 = b_top s1) as Htop2 by done.
  clearbody s2.
  assert (∀ track new full ms,
    let s' := account_split v in_grp ws pws scale track new full ms wc s2 in
    times_le s s' ∧ win_nonneg (b_win s') ∧ mark_start (b_win s') = mark_start (b_win s) ∧
    window_start (b_win s') = (if mark_start (b_win s) <? ws then ws else window_start (b_win s)) ∧
    active_time (b_win s') = active_time (b_win s) ∧ b_top s' = b_top s ∧ (window_start (b_win s') = ws → b_out s' = b_out s)) as Hsplit.
  { intros [] new full ms; cbv zeta.
    - destruct (account_split_grown v in_grp ws pws scale Hsc new full ms wc s2)
        as (dp & dc & Hdp & Hdc & Hr & Hg & Hgr & Ht & Hou); [by rewrite Hw2|].
      split_and!.
      + eapply times_le_trans; [exact Ht2|]. split; rewrite ?Hr, ?Hg; case_match;
          auto using sums_add_le, sums_le_refl.
      + by eapply grown_nonneg.
      + rewrite (gr_mark _ _ _ _ _ Hgr). congruence.
      + rewrite (gr_start _ _ _ _ _ Hgr). congruence.
      + rewrite (gr_active _ _ _ _ _ Hgr). congruence.
      + congruence.
      + rewrite (gr_start _ _ _ _ _ Hgr), Hw2, Hou. done.
    - unfold account_split. split_and!.
      + eapply times_le_trans; [exact Ht2|].
        eapply times_le_trans; apply acct_le; try lia; auto; destruct full; auto.
      + unfold acct; destruct in_grp; cbn; by rewrite Hw2.
      + unfold acct; destruct in_grp; cbn; congruence.
      + unfold acct; destruct in_grp; cbn; congruence.
      + unfold acct; destruct in_grp; cbn; congruence.
      + unfold acct; destruct in_grp; cbn; congruence.
      + unfold acct; destruct in_grp; cbn; rewrite Hw2; done. }
  destruct (mark_start (b_win s) <? ws); cbn [negb].
  2: { split_and!; [eapply times_le_trans; [exact Ht2|]; apply acct_le; [lia | auto] |
       unfold acct; destruct in_grp; cbn; rewrite ?Hw2; try congruence; auto ..]. }
  destruct (tv_is_curr v); cbn [negb]; [|apply Hsplit].
  case_match; [apply Hsplit|]. cbn [bug_if]. rewrite app_nil_r.
  assert (mk_bs (b_win s2) (b_rq s2) (b_grp s2) (b_top s2) (b_out s2) = s2) as -> by (by destruct s2).
  case_match.
  - split_and!; [eapply times_le_trans; [exact Ht2|]; apply acct_le; [lia|auto] |
      unfold acct; destruct in_grp; cbn; rewrite ?Hw2; try congruence; auto ..].
  - split_and!; [eapply times_le_trans; [exact Ht2|];
        eapply times_le_trans; apply acct_le; auto; lia |
      unfold acct; destruct in_grp; cbn; rewrite ?Hw2; try congruence; auto ..].
Qed.

(** ** The shape of [walt_update_task_ravg] *)
Lemma acct_win ing f s : b_win (acct ing f s) = b_win s.
Proof. by destruct ing. Qed.

Lemma split_mark v ing ws pws scale track n full ms wc s :
  mark_start (b_win (account_split v ing ws pws scale track n full ms wc s)) = mark_start (b_win s).
Proof.
  unfold account_split. cbv zeta. destruct track; cbn; rewrite ?acct_win; cbn; rewrite ?acct_win;
    destruct full; done.
Qed.

Lemma busy_time_mark e v fl ing ws pws scale ev wc irq s :
  mark_start (b_win (update_cpu_busy_time e v fl ing ws pws scale ev wc irq s))
  = mark_start (b_win s).
Proof.
  unfold update_cpu_busy_time. cbv zeta.
  set (s1 := if mark_start (b_win s) <? ws then _ else s).
  assert (mark_start (b_win s1) = mark_start (b_win s)) as H1.
  { unfold s1. destruct (mark_start (b_win s) <? ws), (negb (walt_is_idle_task fl)); done. }
  clearbody s1. rewrite <- H1.
  destruct (negb (account_busy_for_cpu_time _ _ _ _ _)); [case_match; done|].
  set (s2 := mk_bs (b_win s1) (b_rq s1) (b_grp s1) (b_top s1) _).
  assert (b_win s2 = b_win s1) as H2 by done. clearbody s2. rewrite <- H2.
  case_match; [|case_match; [|case_match; [|case_match; rewrite ?acct_win; done]]];
    destruct (negb (walt_is_idle_task fl)); cbn [b_win]; rewrite ?acct_win, ?split_mark; cbn [b_win set_b_win]; rewrite ?acct_win; done.
Qed.

Definition in_group (t : walt_task_struct) : bool := bool_decide (is_Some (grp t)).

Definition started (ws : Z) (w : task_window) : task_window :=
  if window_start w =? 0 then win_set_start ws w else w.

(** What stays the same apart from windows, sums and tables. *)
Definition same_frame (q q' : walt_rq) (t t' : walt_task_struct) : Prop :=
  rq_window_start q' = rq_window_start q ∧ prev_window_size q' = prev_window_size q ∧
  latest_clock q' = latest_clock q ∧ load_subs q' = load_subs q ∧
  grp t' = grp t ∧ place t' = place t ∧
  walt_is_idle_task (flags t') = walt_is_idle_task (flags t).

Lemma same_frame_refl q t : same_frame q q t t.
Proof. done. Qed.
Lemma same_frame_trans q q' q'' t t' t'' :
  same_frame q q' t t' → same_frame q' q'' t' t'' → same_frame q q'' t t''.
Proof. unfold same_frame. intros; destruct_and!; split_and!; congruence. Qed.

Lemma task_cycles_frame e v ev wc irq q t q' t' o :
  mark_start (win t) ≤ wc → 0 ≤ irq →
  update_task_rq_cpu_cycles e v ev wc irq q t = (q', t', o) →
  same_frame q q' t t' ∧ rq_time q' = rq_time q ∧ grp_time q' = grp_time q ∧ top q' = top q ∧
  walt_stats q' = walt_stats q ∧ win t' = win t ∧ dem t' = dem t ∧ pipe t' = pipe t ∧
  flags t' = flags t ∧ o = [].
Proof.
  intros Hm Hi. unfold update_task_rq_cpu_cycles. destruct (use_cycle_counter e); cbn [negb].
  2:{ by intros [= <- <- <-]. }
  unfold read_cycle_counter.
  destruct (negb (last_cc_update q =? wc)); cbn;
    (destruct (negb (tv_curr_idle v) || negb (irq =? 0)); cbn;
     [destruct (bool_decide (ev = IRQ_UPDATE) && walt_is_idle_task (flags t));
      rewrite (proj2 (Z.ltb_ge _ 0)) by lia; cbn |]; by intros [= <- <- <-]).
Qed.

Lemma run_demand_frame e v ev wc q t q' t' o :
  run_demand e v ev wc q t = (q', t', o) →
  same_frame q q' t t' ∧ rq_time q' = rq_time q ∧ grp_time q' = grp_time q ∧ top q' = top q ∧
  win t' = win t ∧ quiet o.
Proof.
  unfold run_demand. destruct (update_task_demand _ _ _ _ _ _ _ _ _ _ _) as [[s p] r] eqn:H.
  intros [= <- <- <-]. apply update_task_demand_kept in H as [H1 H2]. cbn in *.
  split_and!; try done. apply H2. constructor.
Qed.

Lemma run_pred_frame e v ev q t q' t' o :
  run_pred e v ev q t = (q', t', o) →
  same_frame q q' t t' ∧ rq_time q' = rq_time q ∧ grp_time q' = grp_time q ∧ top q' = top q ∧
  win t' = win t ∧ quiet o.
Proof.
  unfold run_pred. intros [= <- <- <-].
  destruct (update_pred_kept e v (win t) ev (mk_ds (walt_stats q) (flags t) (dem t) [])) as [H1 H2].
  split_and!; try done. apply H2. constructor.
Qed.

Lemma busy_bitmap_idle e v ms ev wc fl lrb p :
  ms ≤ wc →
  walt_is_idle_task (update_busy_bitmap e v ms ev wc fl lrb p).1.1.1 = walt_is_idle_task fl ∧
  quiet (update_busy_bitmap e v ms ev wc fl lrb p).2.
Proof.
  intros. unfold update_busy_bitmap, WALT_LRB_PIPELINE_BIT. cbv zeta.
  rewrite (proj2 (Z.ltb_ge wc ms)) by lia. cbn [bug_if].
  destruct (negb (tv_runnable v));
    repeat (case_match; try (cbn [fst snd]; rewrite ?idle_flag_set by lia; split; [done|constructor])).
Qed.

Lemma run_bitmap_frame e v ev wc q t q' t' o :
  mark_start (win t) ≤ wc →
  run_bitmap e v ev wc q t = (q', t', o) →
  same_frame q q' t t' ∧ rq_time q' = rq_time q ∧ grp_time q' = grp_time q ∧ top q' = top q ∧
  walt_stats q' = walt_stats q ∧ dem t' = dem t ∧ win t' = win t ∧ quiet o.
Proof.
  intros Hm. unfold run_bitmap. destruct (update_busy_bitmap _ _ _ _ _ _ _ _) as [[[fl lrb] p] o'] eqn:H.
  intros [= <- <- <-].
  assert (walt_is_idle_task fl = walt_is_idle_task (flags t) ∧ quiet o') as [H1 H2].
  { pose proof (busy_bitmap_idle e v (mark_start (win t)) ev wc (flags t)
      (lrb_pipeline_start_time q) (pipe t) Hm) as Hb. rewrite H in Hb. exact Hb. }
  split_and!; try done.
Qed.

Record shape (e : walt_env) (v : task_view) (ev : task_event) (wc irq : Z) (s s' : ravg_state)
    : Prop := mk_shape {
  sh_frame : same_frame (update_window_start e (tv_cpu v) wc (r_rq s)).1 (r_rq s')
               (r_task s) (r_task s');
  sh_busy :
    let q1 := (update_window_start e (tv_cpu v) wc (r_rq s)).1 in
    let w1 := started (rq_window_start q1) (win (r_task s)) in
    ∃ scale fl b, (∀ d, 0 ≤ scale d) ∧ scale 0 = 0 ∧
      walt_is_idle_task fl = walt_is_idle_task (flags (r_task s)) ∧
      b = (if mark_start w1 =? 0 then mk_bs w1 (rq_time q1) (grp_time q1) (top q1) []
           else update_cpu_busy_time e v fl (in_group (r_task s)) (rq_window_start q1)
                  (prev_window_size q1) scale ev wc irq
                  (mk_bs w1 (rq_time q1) (grp_time q1) (top q1) [])) ∧
      rq_time (r_rq s') = b_rq b ∧ grp_time (r_rq s') = b_grp b ∧ top (r_rq s') = b_top b ∧
      win (r_task s') = win_set_mark wc (b_win b) ∧
      (quiet (r_out s) → quiet (update_window_start e (tv_cpu v) wc (r_rq s)).2 → quiet (b_out b) →
       wc ≤ window_start (b_win b) + sched_ravg_window e → quiet (r_out s'));
}.

Lemma ravg_shape e v ev wc irq s :
  tv_on_scx v = false → rq_window_start (r_rq s) ≠ 0 → mark_start (win (r_task s)) ≠ wc →
  mark_start (win (r_task s)) ≤ wc → 0 ≤ irq →
  shape e v ev wc irq s (walt_update_task_ravg e v ev wc irq s).
Proof.
  intros Hscx Hws Hmk Hmw Hi. unfold walt_update_task_ravg. cbv zeta. rewrite Hscx.
  rewrite (proj2 (Z.eqb_neq (rq_window_start (r_rq s)) 0)) by done.
  rewrite (proj2 (Z.eqb_neq (mark_start _) wc)) by done. cbn [orb].
  destruct (update_window_start e (tv_cpu v) wc (r_rq s)) as [q1 o] eqn:Hu.
  set (t1 := if window_start (win (r_task s)) =? 0 then _ else r_task s).
  assert (win t1 = started (rq_window_start q1) (win (r_task s))) as Hw1.
  { unfold t1, started. case_match; done. }
  assert (same_frame q1 q1 (r_task s) t1) as Hf1 by (unfold t1; case_match; done).
  assert (mark_start (win t1) = mark_start (win (r_task s))) as Hm1.
  { rewrite Hw1. unfold started. case_match; done. }
  clearbody t1.
  assert (∀ lastq (won gov : bool) (cpu : Z) q' t' o', same_frame q1 q' (r_task s) t' →
    (∃ scale fl b, (∀ d, 0 ≤ scale d) ∧ scale 0 = 0 ∧
      walt_is_idle_task fl = walt_is_idle_task (flags (r_task s)) ∧
      b = (if mark_start (win t1) =? 0 then mk_bs (win t1) (rq_time q1) (grp_time q1) (top q1) []
           else update_cpu_busy_time e v fl (in_group (r_task s)) (rq_window_start q1)
                  (prev_window_size q1) scale ev wc irq
                  (mk_bs (win t1) (rq_time q1) (grp_time q1) (top q1) [])) ∧
      rq_time q' = b_rq b ∧ grp_time q' = b_grp b ∧ top q' = b_top b ∧ win t' = b_win b ∧
      (quiet o → quiet (b_out b) → quiet o')) →
    shape e v ev wc irq s
      (mk_ravg q' (set_win (win_set_mark wc (win t')) t') lastq
         (r_out s ++ (o' ++ bug_if (window_start (win t') + sched_ravg_window e <? wc) BUG_MARK_AHEAD)
          ++ (if won then [IRQ_WORK_ROLLOVER] else if gov then [GOV_PIPELINE_BUSY cpu] else []))))
    as Hdone.
  { intros lastq won gov cpu q' t' o' Hf (scale & fl & b & H1 & H2 & H3 & H4 & H5 & H6 & H7 & H8 & H9).
    constructor; [by rewrite Hu|]. rewrite Hu. cbn [fst snd]. rewrite <- Hw1.
    exists scale, fl, b. split_and!; try done; [cbn; congruence|].
    intros Q1 Q2 Q3 Q4. cbn. apply quiet_app; [done|]. apply quiet_app; [apply quiet_app|].
    - auto.
    - rewrite H8, (proj2 (Z.ltb_ge _ wc)) by lia. constructor.
    - destruct won, gov; repeat constructor. }
  destruct (mark_start (win t1) =? 0) eqn:H0.
  - destruct (update_task_cpu_cycles e v wc q1 t1) as [q2 t2] eqn:E.
    assert (same_frame q1 q2 t1 t2 ∧ rq_time q2 = rq_time q1 ∧ grp_time q2 = grp_time q1 ∧
      top q2 = top q1 ∧ win t2 = win t1) as (F & R & G & T & Hw2).
    { revert E. unfold update_task_cpu_cycles, read_cycle_counter.
      destruct (use_cycle_counter e), (negb (last_cc_update q1 =? wc)); by intros [= <- <-]. }
    destruct (run_walt_irq_work_rollover _ _ _) as [lq won].
    apply (Hdone lq won _ _ q2 t2 o); [by eapply same_frame_trans|].
    exists (λ _, 0), (flags (r_task s)), (mk_bs (win t1) (rq_time q1) (grp_time q1) (top q1) []).
    split_and!; done.
  - destruct (update_task_rq_cpu_cycles e v ev wc irq q1 t1) as [[q2 t2] o1] eqn:E1.
    apply task_cycles_frame in E1 as (F1 & R1 & G1 & T1 & _ & W1 & _ & _ & _ & ->); [|lia|done].
    destruct (run_demand e v ev wc q2 t2) as [[q3 t3] o2] eqn:E2.
    apply run_demand_frame in E2 as (F2 & R2 & G2 & T2 & W2 & Q2).
    pose proof (same_frame_trans _ _ _ _ _ _ Hf1 (same_frame_trans _ _ _ _ _ _ F1 F2)) as F12.
    destruct (run_busy e v ev wc irq q3 t3) as [[q4 t4] o3] eqn:E3. unfold run_busy in E3.
    injection E3 as <- <- <-.
    set (b := update_cpu_busy_time _ _ _ _ _ _ _ _ _ _ _).
    set (q4 := set_top (b_top b) _). set (t4 := set_win (b_win b) t3).
    assert (same_frame q3 q4 t3 t4) as F3 by done.
    assert (mark_start (win t4) = mark_start (win (r_task s))) as Hm4.
    { unfold t4; cbn. unfold b. rewrite W2, W1.
      by rewrite busy_time_mark. }
    destruct (run_pred e v ev q4 t4) as [[q5 t5] o4] eqn:E4.
    apply run_pred_frame in E4 as (F4 & R4 & G4 & T4 & W4 & Q4).
    destruct (run_bitmap e v ev wc q5 t5) as [[q6 t6] o5] eqn:E5.
    apply run_bitmap_frame in E5 as (F5 & R5 & G5 & T5 & _ & _ & W5 & Q5); [|rewrite W4, Hm4; lia].
    destruct (run_walt_irq_work_rollover _ _ _) as [lq won].
    set (t7 := if bool_decide _ && _ then _ else t6).
    assert (same_frame q6 q6 t6 t7 ∧ win t7 = win t6) as [F6 W6] by (unfold t7; case_match; done).
    clearbody t7. apply (Hdone lq won _ _ q6 t7 (o ++ [] ++ o2 ++ b_out b ++ o4 ++ o5)).
    { eapply same_frame_trans; [exact F12|]. eapply same_frame_trans; [exact F3|].
      eapply same_frame_trans; [exact F4|]. eapply same_frame_trans; [exact F5 | exact F6]. }
    exists (scale_exec_time q3 t3), (flags t3), b. split_and!.
    + intros; apply scale_exec_time_nonneg.
    + apply scale_exec_time_0.
    + apply F12.
    + unfold b. destruct F12 as (-> & -> & _ & _ & Hgr & _). rewrite W2, W1, R2, R1, G2, G1, T2, T1.
      unfold in_group. by rewrite Hgr.
    + rewrite R5, R4. done.
    + rewrite G5, G4. done.
    + rewrite T5, T4. done.
    + rewrite W6, W5, W4. done.
    + intros Qo Qb. auto 8 with walt.
Qed.

(** ** The effect on the per-window sums *)
Definition rsum (W : Z) (gb n : bool) (q : walt_rq) (x : Z) : Z :=
  wsum W n (rq_window_start q) (if gb then grp_time q else rq_time q) x.

(** What task [t] has in the sums of CPU [c] ([gb]: the group sums) for window [x];
    [n] selects the sums of new tasks.  The idle task's share is not tracked. *)
Definition tshare (W : Z) (gb n : bool) (c : Z) (t : walt_task_struct) (x : Z) : Z :=
  if walt_is_idle_task (flags t) || (n && negb (is_new_task (win t))) || negb (eqb gb (in_group t))
  then 0
  else byw W (window_start (win t))
         (if gb then curr_window (win t) else curr_window_cpu (win t) c)
         (if gb then prev_window (win t) else prev_window_cpu (win t) c) x.

Lemma byw_nonneg W ws a b x : 0 ≤ a → 0 ≤ b → 0 ≤ byw W ws a b x.
Proof. unfold byw. zcases; lia. Qed.

Lemma tshare_nonneg W gb n c t x : win_nonneg (win t) → 0 ≤ tshare W gb n c t x.
Proof.
  intros (Hc & ? & ?). unfold tshare. case_match; [lia|]. specialize (Hc c).
  apply byw_nonneg; destruct gb; lia.
Qed.

Record ravg_effect (e : walt_env) (φ cpu wc : Z) (q : walt_rq) (t : walt_task_struct)
    (q' : walt_rq) (t' : walt_task_struct) : Prop := mk_ravg_effect {
  re_rq : rq_ok φ (sched_ravg_window e) q';
  re_ws : rq_window_start q ≤ rq_window_start q' ≤ wc;
  re_latest : latest_clock q' ≤ wc;
  re_subs : load_subs q' = load_subs q;
  re_mark : mark_start (win t') = wc;
  re_win : win_ok φ (sched_ravg_window e) (win t');
  re_grp : grp t' = grp t;
  re_place : place t' = place t;
  re_idle : walt_is_idle_task (flags t') = walt_is_idle_task (flags t);
  re_new : is_new_task (win t') = true → is_new_task (win t) = true;
  re_new_same : window_start (win t) = rq_window_start q' →
                is_new_task (win t') = is_new_task (win t);
  re_sync : mark_start (win t) < wc ∨ window_start (win t) = rq_window_start q →
            window_start (win t') = rq_window_start q';
  re_sums gb n x : rq_window_start q' - sched_ravg_window e ≤ x →
            rsum (sched_ravg_window e) gb n q x ≤ rsum (sched_ravg_window e) gb n q' x;
  re_cpu gb n x : cpu ∈ possible_cpus e → rq_window_start q' - sched_ravg_window e ≤ x →
            tshare (sched_ravg_window e) gb n cpu t' x + rsum (sched_ravg_window e) gb n q x
            ≤ rsum (sched_ravg_window e) gb n q' x + tshare (sched_ravg_window e) gb n cpu t x;
  re_other n c x : c ≠ cpu → c ∈ possible_cpus e →
            tshare (sched_ravg_window e) false n c t' x ≤ tshare (sched_ravg_window e) false n c t x;
}.

Lemma win_ok_marked φ W ws w' wc : 0 < W → 0 < ws → on_grid φ W ws → ws ≤ wc < ws + W →
  win_nonneg w' → window_start w' = ws → win_ok φ W (win_set_mark wc w').
Proof.
  intros ? ? ? ? (Hc & ? & ?) Hs. split; [split_and!; done|]. right. cbn. rewrite Hs. done.
Qed.

Lemma wsum_bytimes W n ws b b' x :
  times_le b b' → wsum W n ws (b_rq b) x ≤ wsum W n ws (b_rq b') x ∧
  wsum W n ws (b_grp b) x ≤ wsum W n ws (b_grp b') x.
Proof. intros []. split; by apply wsum_le. Qed.

Lemma is_new_rolled e W ws w : 0 < W →
  (is_new_task (rolled e W ws w) = true → is_new_task w = true) ∧
  (ws ≤ mark_start w → is_new_task (rolled e W ws w) = is_new_task w).
Proof.
  intros HW. unfold rolled. destruct (Z.ltb_spec (mark_start w) ws); [|done].
  split; [|lia]. unfold is_new_task; cbn. unfold is_new_task.
  destruct (Z.ltb_spec (active_time w) NEW_TASK_ACTIVE_TIME); cbn; [done|].
  destruct (Z.ltb_spec (active_time w) NEW_TASK_ACTIVE_TIME); lia.
Qed.

Section effect.
Context (e : walt_env) (φ : Z) (v : task_view) (ev : task_event) (wc irq : Z).
Local Notation W := (sched_ravg_window e).
Context (HW : 0 < W) (Hscx : tv_on_scx v = false) (Hirq : 0 ≤ irq).

Lemma tshare_zero gb n c t x : win_zero (win t) → tshare W gb n c t x = 0.
Proof using Type.
  intros (Hc & H1 & H2). unfold tshare, byw. destruct (Hc c) as [-> ->]. rewrite H1, H2.
  destruct gb; repeat case_match; done.
Qed.

(** The sums and shares after a busy update of a task that is not idle. *)
Lemma share_step gb n c t t' w1 q1 q' dp dc x :
  walt_is_idle_task (flags t) = false → walt_is_idle_task (flags t') = false →
  in_group t' = in_group t →
  rq_window_start q' = rq_window_start q1 → 0 ≤ dp → 0 ≤ dc →
  on_grid φ W (rq_window_start q1) → 0 < window_start w1 → on_grid φ W (window_start w1) →
  window_start w1 ≤ mark_start w1 < window_start w1 + W → window_start w1 ≤ rq_window_start q1 →
  win t = w1 → win_nonneg w1 →
  grown (tv_cpu v) dp dc (rolled e W (rq_window_start q1) w1) (win t') →
  rq_time q' = (if in_group t then rq_time q1
                else sums_add (is_new_task (rolled e W (rq_window_start q1) w1)) dp dc (rq_time q1)) →
  grp_time q' = (if in_group t
                 then sums_add (is_new_task (rolled e W (rq_window_start q1) w1)) dp dc (grp_time q1)
                 else grp_time q1) →
  c ∈ possible_cpus e →
  rsum W gb n q1 x ≤ rsum W gb n q' x ∧
  (c = tv_cpu v → tshare W gb n c t' x + rsum W gb n q1 x ≤ rsum W gb n q' x + tshare W gb n c t x) ∧
  (c ≠ tv_cpu v → gb = false → tshare W gb n c t' x ≤ tshare W gb n c t x).
Proof using HW.
  intros Hi Hi' Hgr Hws Hdp Hdc Hg Hp Hgt Hm Hle Hw Hn Hgw Hr Hgt' Hin.
  destruct (rolled_byw e φ W (rq_window_start q1) w1 (tv_cpu v) dp dc (win t') x HW Hg Hp Hgt Hm Hle
              Hn Hgw) as (Hst & Hcpu & Htot).
  specialize (Hcpu c Hin).
  set (nw := is_new_task (rolled e W (rq_window_start q1) w1)) in *.
  assert (is_new_task (win t') = nw) as Hnw'.
  { unfold nw, is_new_task. by rewrite (gr_active _ _ _ _ _ Hgw). }
  assert (nw = true → is_new_task w1 = true) as Hmono by (apply is_new_rolled; done).
  assert (∀ a b, 0 ≤ a → 0 ≤ b → 0 ≤ byw W (rq_window_start q1) a b x) as Hb
    by (intros; by apply byw_nonneg).
  specialize (Hb dc dp Hdc Hdp).
  assert (rsum W gb n q' x = rsum W gb n q1 x
    + (if eqb gb (in_group t) && negb (n && negb nw) then byw W (rq_window_start q1) dc dp x else 0)) as Hrs.
  { unfold rsum. rewrite Hr, Hgt', Hws. destruct gb, (in_group t); cbn [eqb andb];
      rewrite ?wsum_add by done; destruct n, nw; cbn [negb andb]; lia. }
  assert (∀ cc, 0 ≤ byw W (window_start w1) (curr_window_cpu w1 cc) (prev_window_cpu w1 cc) x) as Hb1.
  { intros cc. destruct Hn as (Hc & _). specialize (Hc cc). apply byw_nonneg; lia. }
  assert (0 ≤ byw W (window_start w1) (curr_window w1) (prev_window w1) x) as Hb2
    by (apply byw_nonneg; apply Hn).
  rewrite Hrs. unfold tshare. rewrite Hi, Hi', Hgr, Hnw', Hst, Hw. cbn [orb].
  specialize (Hb1 c).
  split_and!.
  - case_match; lia.
  - intros ->. rewrite Z.eqb_refl in Hcpu.
    destruct gb, (in_group t), n, nw; cbn [eqb negb andb orb];
      try (rewrite Hmono by done); cbn [eqb negb andb orb]; try lia; destruct (is_new_task w1); cbn; lia.
  - intros Hne ->. rewrite (proj2 (Z.eqb_neq c (tv_cpu v)) Hne) in Hcpu.
    destruct (in_group t), n, nw; cbn [eqb negb andb orb];
      try (rewrite Hmono by done); cbn [eqb negb andb orb]; try lia; destruct (is_new_task w1); cbn; lia.
Qed.

Lemma rsum_window cpu q q1 o gb n x :
  rq_ok φ W q → latest_clock q ≤ wc → rq_window_start q ≤ wc < 2 ^ 64 →
  wc - rq_window_start q < 2 ^ 31 * W →
  update_window_start e cpu wc q = (q1, o) → rq_window_start q1 - W ≤ x →
  rsum W gb n q1 x = rsum W gb n q x.
Proof using HW.
  intros H1 H2 H3 H4 H5 Hx.
  destruct (update_window_start_spec e φ HW _ _ _ _ _ H1 H2 H3 H4 H5)
    as (_ & _ & _ & _ & _ & _ & _ & Hs & _).
  unfold rsum. destruct (Hs n x Hx) as [Ha Hb]. by destruct gb.
Qed.

Lemma ravg_effect_holds s :
  rq_ok φ W (r_rq s) → win_ok φ W (win (r_task s)) → clock_ok W wc (r_rq s) (win (r_task s)) →
  let s' := walt_update_task_ravg e v ev wc irq s in
  ravg_effect e φ (tv_cpu v) wc (r_rq s) (r_task s) (r_rq s') (r_task s') ∧
  (quiet (r_out s) → quiet (r_out s')).
Proof using HW Hscx Hirq.
  intros Hq Ht (Hlat & Hws & Hmw & Hgap). cbv zeta.
  destruct (decide (mark_start (win (r_task s)) = wc)) as [Hm|Hm].
  { assert (walt_update_task_ravg e v ev wc irq s = s) as ->.
    { unfold walt_update_task_ravg. rewrite Hscx, Hm, Z.eqb_refl, orb_true_r. done. }
    split; [|done]. split; try done; try lia. }
  assert (rq_window_start (r_rq s) ≠ 0) as Hnz by (destruct Hq as (? & ? & ?); lia).
  destruct (ravg_shape e v ev wc irq s Hscx Hnz Hm Hmw Hirq) as [Hframe Hbusy].
  set (s' := walt_update_task_ravg e v ev wc irq s) in *. clearbody s'.
  destruct (update_window_start e (tv_cpu v) wc (r_rq s)) as [q1 o] eqn:Hu. cbn [fst snd] in *.
  pose proof (λ gb n x, rsum_window _ _ _ _ gb n x Hq Hlat Hws Hgap Hu) as Hroll.
  destruct (update_window_start_spec e φ HW _ _ _ _ _ Hq Hlat Hws Hgap Hu)
    as (Hq1 & Hl1 & [Hle1 Hle2] & Hlt1 & Hls & _ & _ & _ & Ho).
  destruct Hframe as (F1 & F2 & F3 & F4 & F5 & F6 & F7).
  assert (quiet o) as Hqo.
  { apply list.Forall_forall. intros b Hb. by rewrite (Ho b Hb). }
  assert (0 < rq_window_start q1) as Hp1 by (destruct Hq1 as (_ & ? & _); lia).
  assert (on_grid φ W (rq_window_start q1)) as Hg1 by apply Hq1.
  assert (prev_window_size q1 = W) as Hpws by apply Hq1.
  assert (rq_ok φ W (r_rq s')) as Hq'.
  { destruct Hq1 as (? & ? & ?). unfold rq_ok. by rewrite F1, F2. }
  destruct Hbusy as (scale & fl & b & Hsc & Hsc0 & Hfl & Hb & HR & HG & HT & HWn & HQ).
  destruct Ht as [Hnn [(Hm0 & Hs0 & Hz)|(Hsp & Hsg & Hsm)]].
  - (* first accounting of the task *)
    assert (started (rq_window_start q1) (win (r_task s)) = win_set_start (rq_window_start q1) (win (r_task s))) as Hst.
    { unfold started. by rewrite Hs0. }
    rewrite Hst in Hb. cbn [mark_start win_set_start] in Hb. rewrite Hm0 in Hb. cbn in Hb.
    assert (win_zero (win (r_task s'))) as Hz' by (rewrite HWn, Hb; cbn; exact Hz).
    assert (∀ gb n x, rsum W gb n (r_rq s') x = rsum W gb n q1 x) as Hrs.
    { intros. unfold rsum. rewrite F1, HR, HG, Hb. cbn. by destruct gb. }
    split.
    + split; try done; try (rewrite ?F1, ?F3, ?HWn; cbn; lia); try congruence.
      * rewrite HWn, Hb. eapply (win_ok_marked φ W (rq_window_start q1)); try done; try lia.
      * rewrite HWn, Hb. done.
      * rewrite HWn, Hb, F1. done.
      * intros gb n x Hx. rewrite F1 in Hx. rewrite Hrs, Hroll by done. lia.
      * intros gb n x _ Hx. rewrite F1 in Hx. rewrite Hrs, Hroll by done.
        rewrite !tshare_zero by done. lia.
      * intros n c x _ _. rewrite !tshare_zero by done. lia.
    + intros Hout. apply HQ; rewrite ?Hb; try done; [constructor | cbn; lia].
  - assert (started (rq_window_start q1) (win (r_task s)) = win (r_task s)) as Hst.
    { unfold started. rewrite (proj2 (Z.eqb_neq _ 0)) by lia. done. }
    rewrite Hst in Hb. rewrite (proj2 (Z.eqb_neq (mark_start (win (r_task s))) 0)) in Hb by lia.
    destruct (rolled_start e φ W (rq_window_start q1) (win (r_task s)) wc HW Hg1 Hp1 Hsg Hsm Hmw)
      as [Hle Hrs]; [lia|].
    rewrite Hpws in Hb.
    destruct (walt_is_idle_task (flags (r_task s))) eqn:Hidle.
    + (* the idle task *)
      destruct (busy_time_idle e v fl (in_group (r_task s)) (rq_window_start q1) W scale ev wc irq
        (mk_bs (win (r_task s)) (rq_time q1) (grp_time q1) (top q1) []) Hsc Hfl Hnn)
        as (B1 & B2 & B3 & B4 & Bac & _ & B5).
      rewrite <- Hb in B1, B2, B3, B4, Bac, B5.
      assert (window_start (b_win b) = rq_window_start q1) as Hbs.
      { rewrite B4. cbn [b_win]. revert Hrs. unfold rolled.
        destruct (mark_start (win (r_task s)) <? rq_window_start q1); done. }
      assert (∀ gb n x, rsum W gb n q1 x ≤ rsum W gb n (r_rq s') x) as Hmono.
      { intros. unfold rsum. rewrite F1, HR, HG.
        destruct (wsum_bytimes W n (rq_window_start q1) _ _ x B1) as [? ?]. by destruct gb. }
      assert (∀ gb n c x, tshare W gb n c (r_task s) x = 0 ∧ tshare W gb n c (r_task s') x = 0) as Hzs.
      { intros. unfold tshare. by rewrite F7, Hidle. }
      split.
      * split; try done; try (rewrite ?F1, ?F3, ?HWn; cbn; lia); try congruence.
        -- rewrite HWn. eapply (win_ok_marked φ W (rq_window_start q1)); try done; try lia.
        -- rewrite HWn. unfold is_new_task; cbn. by rewrite Bac.
        -- rewrite HWn. unfold is_new_task; cbn. by rewrite Bac.
        -- intros gb n x Hx. rewrite F1 in Hx. rewrite <- Hroll by done. apply Hmono.
        -- intros gb n x _ Hx. rewrite F1 in Hx. destruct (Hzs gb n (tv_cpu v) x) as [-> ->].
           rewrite <- Hroll by done. specialize (Hmono gb n x). lia.
        -- intros n c x _ _. destruct (Hzs false n c x) as [-> ->]. lia.
      * intros Hout. apply HQ; try done; rewrite ?B5 by done; [constructor|]. rewrite Hbs. lia.
    + (* a task that is not idle *)
      destruct (update_cpu_busy_time_effect e v fl (in_group (r_task s)) (rq_window_start q1) W scale Hsc
        ev wc irq (mk_bs (win (r_task s)) (rq_time q1) (grp_time q1) (top q1) []) Hfl Hnn)
        as (dp & dc & D1 & D2 & D3 & D4 & D5 & _ & _ & D6).
      rewrite <- Hb in D3, D4, D5, D6. cbn [b_win b_rq b_grp b_out app] in D3, D4, D5, D6.
      assert (window_start (b_win b) = rq_window_start q1) as Hbs.
      { by rewrite (gr_start _ _ _ _ _ D5). }
      assert (grown (tv_cpu v) dp dc (rolled e W (rq_window_start q1) (win (r_task s)))
                (b_win b)) as Hgw by done.
      assert (∀ gb n c x, c ∈ possible_cpus e →
        rsum W gb n q1 x ≤ rsum W gb n (r_rq s') x ∧
        (c = tv_cpu v → tshare W gb n c (r_task s') x + rsum W gb n q1 x
                        ≤ rsum W gb n (r_rq s') x + tshare W gb n c (r_task s) x) ∧
        (c ≠ tv_cpu v → gb = false → tshare W gb n c (r_task s') x ≤ tshare W gb n c (r_task s) x)) as Hstep.
      { intros gb n c x Hin.
        assert (∀ t'', win t'' = b_win b → in_group t'' = in_group (r_task s') →
           walt_is_idle_task (flags t'') = walt_is_idle_task (flags (r_task s')) →
           tshare W gb n c t'' x = tshare W gb n c (r_task s') x) as Hsame.
        { intros t'' H1 H2 H3. unfold tshare. rewrite H1, H2, H3, HWn. done. }
        rewrite <- (Hsame (set_win (b_win b) (r_task s'))) by done.
        eapply (share_step gb n c (r_task s) _ (win (r_task s)) q1 (r_rq s') dp dc x);
          try done; try congruence.
        unfold in_group; cbn. by rewrite F5. }
      destruct (is_new_rolled e W (rq_window_start q1) (win (r_task s)) HW) as [Hnew1 Hnew2].
      assert (is_new_task (win (r_task s')) = is_new_task (rolled e W (rq_window_start q1) (win (r_task s)))) as Hnew.
      { rewrite HWn. unfold is_new_task; cbn. by rewrite (gr_active _ _ _ _ _ D5). }
      split.
      * split; try done; try (rewrite ?F1, ?F3, ?HWn; cbn; lia); try congruence.
        -- rewrite HWn. eapply (win_ok_marked φ W (rq_window_start q1)); try done; try lia.
           by eapply grown_nonneg.
        -- rewrite Hnew. apply Hnew1.
        -- rewrite F1, Hnew. intros. apply Hnew2. lia.
        -- intros gb n x Hx. rewrite F1 in Hx. rewrite <- Hroll by done.
           unfold rsum. rewrite F1, HR, HG, D3, D4.
           destruct gb, (in_group (r_task s)); try lia; by apply wsum_le, sums_add_le.
        -- intros gb n x Hin Hx. rewrite F1 in Hx. rewrite <- Hroll by done. by apply Hstep.
        -- intros n c x Hne Hin. by apply Hstep.
      * intros Hout. apply HQ; try done; [|rewrite Hbs; lia].
        rewrite D6, Hrs, Z.eqb_refl, andb_false_r. constructor.
Qed.
End effect.
