(* ===== verification/WaltMigrate.v ===== *)
(** * WALT migration, groups and queueing (kernel/sched/walt/walt.c, walt_cfs.c)

    How busy time follows a task: between CPUs (subtracted when the kernel changes
    the task's CPU, added when the task is enqueued there), between a CPU's own
    sums and the sums of its related thread group, and, for the other CPUs of the
    source cluster, through pending subtractions that each CPU applies itself.
    The enqueue and dequeue hooks add and remove the task's demand.  Functions are
    on all run queues ([mstate]) and the one task they handle. *)

From S2P Require Import Prelude.
From S2P Require Import WaltData WaltDemand WaltTop WaltWindow.

Definition TASK_WAKING : Z := 0x200.
Definition EARLY_DETECTION_DURATION : Z := 9500000.

Record mstate := mk_ms {
  m_rqs : Z → walt_rq;
  m_task : walt_task_struct;
  m_lastq_ws : Z;
  m_out : list walt_out;
}.

Definition m_set_rq (cpu : Z) (q : walt_rq) (s : mstate) : mstate :=
  mk_ms (<[cpu := q]> (m_rqs s)) (m_task s) (m_lastq_ws s) (m_out s).
Definition m_set_task (t : walt_task_struct) (s : mstate) : mstate :=
  mk_ms (m_rqs s) t (m_lastq_ws s) (m_out s).
Definition m_emit (o : list walt_out) (s : mstate) : mstate :=
  mk_ms (m_rqs s) (m_task s) (m_lastq_ws s) (m_out s ++ o).

(** ** Checked subtraction from the sums *)
Definition busy_checks (new_task : bool) (dc dp : Z) (g : group_cpu_time) : list walt_out :=
  bug_if (curr_runnable_sum g <? dc) BUG_BUSY_UNDERFLOW ++
  bug_if (prev_runnable_sum g <? dp) BUG_BUSY_UNDERFLOW ++
  bug_if (new_task && (nt_curr_runnable_sum g <? dc)) BUG_BUSY_UNDERFLOW ++
  bug_if (new_task && (nt_prev_runnable_sum g <? dp)) BUG_BUSY_UNDERFLOW.

Definition sums_sub_curr (new_task : bool) (d : Z) (g : group_cpu_time) : group_cpu_time :=
  mk_group_cpu_time (sub_clamp (curr_runnable_sum g) d) (prev_runnable_sum g)
    (if new_task then sub_clamp (nt_curr_runnable_sum g) d else nt_curr_runnable_sum g)
    (nt_prev_runnable_sum g).
Definition sums_sub_prev (new_task : bool) (d : Z) (g : group_cpu_time) : group_cpu_time :=
  mk_group_cpu_time (curr_runnable_sum g) (sub_clamp (prev_runnable_sum g) d)
    (nt_curr_runnable_sum g)
    (if new_task then sub_clamp (nt_prev_runnable_sum g) d else nt_prev_runnable_sum g).
Definition sums_sub (new_task : bool) (dc dp : Z) (g : group_cpu_time) : group_cpu_time :=
  sums_sub_prev new_task dp (sums_sub_curr new_task dc g).

(** ** Pending subtractions *)
Definition ls_get (i : bool) (l : load_subtractions * load_subtractions) : load_subtractions :=
  if i then l.2 else l.1.
Definition ls_set (i : bool) (x : load_subtractions) (l : load_subtractions * load_subtractions)
    : load_subtractions * load_subtractions := if i then (l.1, x) else (x, l.2).

Definition ls_check (q : walt_rq) (prev_ws : Z) (l : load_subtractions) : list walt_out :=
  let g := rq_time q in
  if ls_window_start l =? rq_window_start q then
    bug_if (curr_runnable_sum g <? subs l) BUG_BUSY_UNDERFLOW ++
    bug_if (nt_curr_runnable_sum g <? new_subs l) BUG_BUSY_UNDERFLOW
  else if ls_window_start l =? prev_ws then
    bug_if (prev_runnable_sum g <? subs l) BUG_BUSY_UNDERFLOW ++
    bug_if (nt_prev_runnable_sum g <? new_subs l) BUG_BUSY_UNDERFLOW
  else [].

Definition ls_apply (ws prev_ws : Z) (l : load_subtractions) (g : group_cpu_time) : group_cpu_time :=
  if ls_window_start l =? ws then
    mk_group_cpu_time (sub_clamp (curr_runnable_sum g) (subs l)) (prev_runnable_sum g)
      (sub_clamp (nt_curr_runnable_sum g) (new_subs l)) (nt_prev_runnable_sum g)
  else if ls_window_start l =? prev_ws then
    mk_group_cpu_time (curr_runnable_sum g) (sub_clamp (prev_runnable_sum g) (subs l))
      (nt_curr_runnable_sum g) (sub_clamp (nt_prev_runnable_sum g) (new_subs l))
  else g.

Definition ls_clear (l : load_subtractions) : load_subtractions :=
  mk_load_subtractions (ls_window_start l) 0 0.

Definition account_load_subtractions (q : walt_rq) : walt_rq * list walt_out :=
  let ws := rq_window_start q in
  let prev_ws := u64 (ws - prev_window_size q) in
  let '(l0, l1) := load_subs q in
  (set_load_subs (ls_clear l0, ls_clear l1)
     (set_times (ls_apply ws prev_ws l1 (ls_apply ws prev_ws l0 (rq_time q))) (grp_time q) q),
   ls_check q prev_ws l0 ++ ls_check q prev_ws l1).

Definition create_subtraction_entry (ws : Z) (index : bool)
    (l : load_subtractions * load_subtractions) : load_subtractions * load_subtractions :=
  ls_set index (mk_load_subtractions ws 0 0) l.

(** The entry for window [ws], created in place of the oldest one when there is none. *)
Definition get_subtraction_index (ws : Z) (l : load_subtractions * load_subtractions)
    : (load_subtractions * load_subtractions) * bool :=
  let e0 := ls_window_start l.1 in
  let e1 := ls_window_start l.2 in
  if ws =? e0 then (l, false) else
  let oldest := if e0 <? U64_MAX then e0 else U64_MAX in
  if ws =? e1 then (l, true) else
  let oldest_index := e1 <? oldest in
  (create_subtraction_entry ws oldest_index l, oldest_index).

Definition update_rq_load_subtractions (index : bool) (sub_load : Z) (new_task : bool)
    (l : load_subtractions * load_subtractions) : load_subtractions * load_subtractions :=
  let x := ls_get index l in
  ls_set index (mk_load_subtractions (ls_window_start x) (subs x + sub_load)
                  (if new_task then new_subs x + sub_load else new_subs x)) l.

(** [load] of window [ws] is to be subtracted by the run queue itself. *)
Definition add_subtraction (ws load : Z) (new_task : bool) (q : walt_rq) : walt_rq :=
  let '(l, index) := get_subtraction_index ws (load_subs q) in
  set_load_subs (update_rq_load_subtractions index load new_task l) q.

Definition win_zero_curr (i : Z) (w : task_window) : task_window :=
  mk_task_window (mark_start w) (window_start w) (curr_window w) (prev_window w)
    (<[i := 0]> (curr_window_cpu w)) (prev_window_cpu w) (active_time w).
Definition win_zero_prev (i : Z) (w : task_window) : task_window :=
  mk_task_window (mark_start w) (window_start w) (curr_window w) (prev_window w)
    (curr_window_cpu w) (<[i := 0]> (prev_window_cpu w)) (active_time w).

Definition subtract_on_cpu (ws prev_ws : Z) (new_task : bool) (rqs_w : (Z → walt_rq) * task_window)
    (i : Z) : (Z → walt_rq) * task_window :=
  let '(rqs, w) := rqs_w in
  let '(rqs, w) :=
    if negb (curr_window_cpu w i =? 0)
    then (<[i := add_subtraction ws (curr_window_cpu w i) new_task (rqs i)]> rqs, win_zero_curr i w)
    else (rqs, w) in
  if negb (prev_window_cpu w i =? 0)
  then (<[i := add_subtraction prev_ws (prev_window_cpu w i) new_task (rqs i)]> rqs, win_zero_prev i w)
  else (rqs, w).

Definition update_cluster_load_subtractions (e : walt_env) (cpu ws : Z) (new_task : bool)
    (rqs : Z → walt_rq) (w : task_window) : (Z → walt_rq) * task_window :=
  let prev_ws := u64 (ws - prev_window_size (rqs cpu)) in
  foldl (subtract_on_cpu ws prev_ws new_task) (rqs, w)
    (filter (λ i, i ≠ cpu) (cluster_cpus e cpu)).

(** ** Between clusters *)
Definition migrate_inter_cluster_subtraction (e : walt_env) (cpu : Z) (new_task : bool) (s : mstate)
    : mstate :=
  let q := m_rqs s cpu in
  let w := win (m_task s) in
  let dc := curr_window_cpu w cpu in
  let dp := prev_window_cpu w cpu in
  let o := busy_checks new_task dc dp (rq_time q) in
  let q := set_times (sums_sub new_task dc dp (rq_time q)) (grp_time q) q in
  let '(rqs, w) :=
    update_cluster_load_subtractions e cpu (rq_window_start q) new_task
      (<[cpu := q]> (m_rqs s)) (win_zero_prev cpu (win_zero_curr cpu w)) in
  mk_ms rqs (set_win w (m_task s)) (m_lastq_ws s) (m_out s ++ o).

Definition win_place (cpu : Z) (w : task_window) : task_window :=
  mk_task_window (mark_start w) (window_start w) (curr_window w) (prev_window w)
    (<[cpu := curr_window w]> (curr_window_cpu w)) (<[cpu := prev_window w]> (prev_window_cpu w))
    (active_time w).

Definition migrate_inter_cluster_addition (cpu : Z) (new_task : bool) (s : mstate) : mstate :=
  let w := win (m_task s) in
  let q := m_rqs s cpu in
  m_set_task (set_win (win_place cpu w) (m_task s))
    (m_set_rq cpu (set_times (sums_add new_task (prev_window w) (curr_window w) (rq_time q))
                     (grp_time q) q) s).

(** ** A change of CPU *)
Definition same_freq_domain (e : walt_env) (src dst : Z) : bool :=
  (src =? dst) || freq_domain e src dst.

(** [is_ed_task] *)
Definition is_ed_task (pl : task_place) (wallclock : Z) : bool :=
  EARLY_DETECTION_DURATION <=? u64 (wallclock - last_wake_ts pl).

Definition pl_migrate (cpu eam : Z) (p : task_place) : task_place :=
  mk_task_place (prev_cpu p) cpu eam (prev_on_rq p) (prev_on_rq_cpu p) (last_enqueued_ts p)
    (last_wake_ts p) (misfit p) (rtg_high_prio p).
Definition pl_prev_cpu (cpu : Z) (p : task_place) : task_place :=
  mk_task_place cpu (new_cpu p) (enqueue_after_migration p) (prev_on_rq p) (prev_on_rq_cpu p)
    (last_enqueued_ts p) (last_wake_ts p) (misfit p) (rtg_high_prio p).
Definition pl_new_cpu (cpu : Z) (p : task_place) : task_place :=
  mk_task_place (prev_cpu p) cpu (enqueue_after_migration p) (prev_on_rq p) (prev_on_rq_cpu p)
    (last_enqueued_ts p) (last_wake_ts p) (misfit p) (rtg_high_prio p).
Definition pl_settled (p : task_place) : task_place :=
  mk_task_place (prev_cpu p) (new_cpu p) 0 (prev_on_rq p) (prev_on_rq_cpu p)
    (last_enqueued_ts p) (last_wake_ts p) (misfit p) (rtg_high_prio p).

Section ops.
Context (e : walt_env) (v : task_view).
Local Notation cpu := (tv_cpu v).

Definition m_ravg (event : task_event) (wallclock irqtime : Z) (s : mstate) : mstate :=
  let r := walt_update_task_ravg e v event wallclock irqtime
             (mk_ravg (m_rqs s cpu) (m_task s) (m_lastq_ws s) (m_out s)) in
  mk_ms (<[cpu := r_rq r]> (m_rqs s)) (r_task r) (r_lastq_ws r) (r_out r).

(** [wts->window_start != wrq->window_start] *)
Definition check_window (s : mstate) : mstate :=
  m_emit (bug_if (negb (window_start (win (m_task s)) =? rq_window_start (m_rqs s cpu)))
            BUG_WINDOW_MISMATCH) s.

(** [grp != related_thread_groups[DEFAULT_CGROUP_COLOC_ID]] *)
Definition check_group (g : Z) (s : mstate) : mstate :=
  m_emit (bug_if (negb (g =? DEFAULT_CGROUP_COLOC_ID)) BUG_GROUP) s.

Definition group_subtraction (new_task : bool) (w : task_window) (g : group_cpu_time)
    : group_cpu_time :=
  let g := if negb (curr_window w =? 0) then sums_sub_curr new_task (curr_window w) g else g in
  if negb (prev_window w =? 0) then sums_sub_prev new_task (prev_window w) g else g.

Definition group_checks (new_task : bool) (w : task_window) (g : group_cpu_time) : list walt_out :=
  (if negb (curr_window w =? 0) then
     bug_if (curr_runnable_sum g <? curr_window w) BUG_BUSY_UNDERFLOW ++
     bug_if (new_task && (nt_curr_runnable_sum g <? curr_window w)) BUG_BUSY_UNDERFLOW
   else []) ++
  (if negb (prev_window w =? 0) then
     bug_if (prev_runnable_sum g <? prev_window w) BUG_BUSY_UNDERFLOW ++
     bug_if (new_task && (nt_prev_runnable_sum g <? prev_window w)) BUG_BUSY_UNDERFLOW
   else []).

(** The source run queue gives the task's time up. *)
Definition leave_rq (s : mstate) : mstate :=
  let s := check_window s in
  let t := m_task s in
  let new_task := is_new_task (win t) in
  let q := m_rqs s cpu in
  let s :=
    match grp t with
    | Some g =>
      let s := check_group g s in
      m_emit (group_checks new_task (win t) (grp_time q))
        (m_set_rq cpu (set_times (rq_time q) (group_subtraction new_task (win t) (grp_time q)) q) s)
    | None =>
      if enqueue_after_migration (place t) =? 2
      then migrate_inter_cluster_subtraction e cpu new_task s else s
    end in
  let q := m_rqs s cpu in
  m_set_rq cpu (set_top (migrate_top_tasks_subtraction e (win (m_task s)) (top q)) q) s.

(** [migrate_busy_time_subtraction]; [on_rq] is [p->on_rq], [dst_cycles] the cycle
    counter of the destination. *)
Definition migrate_busy_time_subtraction (on_rq : bool) (dst wallclock dst_cycles : Z) (s : mstate)
    : mstate :=
  if negb on_rq && negb (tv_state v =? TASK_WAKING) then m_emit [BUG_MIGRATE_STATE] s else
  let t := m_task s in
  let double_migrate := negb (enqueue_after_migration (place t) =? 0) in
  let eam := if negb (same_freq_domain e cpu dst) then 2 else 1 in
  let s := m_set_task (set_place (pl_migrate dst eam (place t)) t) s in
  let s := m_ravg TASK_MIGRATE wallclock 0 s in
  let s := m_set_task (set_cpu_cycles dst_cycles (m_task s)) s in
  let s := if double_migrate then s else leave_rq s in
  let q := m_rqs s cpu in
  let s := if is_ed_enabled e && bool_decide (ed_task q = Some (tv_pid v))
           then m_set_rq cpu (set_ed_task None q) s else s in
  m_set_task (set_place (pl_prev_cpu cpu (place (m_task s))) (m_task s)) s.

Definition group_addition (new_task : bool) (w : task_window) (g : group_cpu_time)
    : group_cpu_time :=
  let g := if negb (curr_window w =? 0) then sums_add new_task 0 (curr_window w) g else g in
  if negb (prev_window w =? 0) then sums_add new_task (prev_window w) 0 g else g.

(** The destination run queue takes the task's time over. *)
Definition join_rq (s : mstate) : mstate :=
  let s := check_window s in
  let t := m_task s in
  let new_task := is_new_task (win t) in
  let q := m_rqs s cpu in
  let s :=
    match grp t with
    | Some g =>
      m_set_rq cpu (set_times (rq_time q) (group_addition new_task (win t) (grp_time q)) q)
        (check_group g s)
    | None =>
      if enqueue_after_migration (place t) =? 2
      then migrate_inter_cluster_addition cpu new_task s else s
    end in
  let q := m_rqs s cpu in
  m_set_rq cpu (set_top (migrate_top_tasks_addition e (win (m_task s)) (top q)) q) s.

(** [migrate_busy_time_addition] on the task's new CPU. *)
Definition migrate_busy_time_addition (wallclock : Z) (s : mstate) : mstate :=
  let src := prev_cpu (place (m_task s)) in
  let s := m_ravg TASK_UPDATE wallclock 0 s in
  let s := join_rq s in
  let s :=
    if enqueue_after_migration (place (m_task s)) =? 2 then
      let s := m_set_rq src (set_notif true (m_rqs s src)) s in
      m_emit [IRQ_WORK_MIGRATION] (m_set_rq cpu (set_notif true (m_rqs s cpu)) s)
    else s in
  let s := if is_ed_enabled e && is_ed_task (place (m_task s)) wallclock
           then m_set_rq cpu (set_ed_task (Some (tv_pid v)) (m_rqs s cpu)) s else s in
  m_set_task (set_place (pl_new_cpu (-1) (place (m_task s))) (m_task s)) s.

(** What the enqueue hook and [transfer_busy_time] do with a pending migration. *)
Definition settle_migration (wallclock : Z) (s : mstate) : mstate :=
  if negb (enqueue_after_migration (place (m_task s)) =? 0) then
    let s := migrate_busy_time_addition wallclock s in
    m_set_task (set_place (pl_settled (place (m_task s))) (m_task s)) s
  else s.

(** ** Related thread groups *)
Definition win_clear_cpus (w : task_window) : task_window :=
  mk_task_window (mark_start w) (window_start w) (curr_window w) (prev_window w)
    (λ i, if bool_decide (i ∈ possible_cpus e) then 0 else curr_window_cpu w i)
    (λ i, if bool_decide (i ∈ possible_cpus e) then 0 else prev_window_cpu w i) (active_time w).

(** The sums of the run queue to the sums of the group. *)
Definition rq_to_group (new_task : bool) (s : mstate) : mstate :=
  let w := win (m_task s) in
  let q := m_rqs s cpu in
  let dc := curr_window_cpu w cpu in
  let dp := prev_window_cpu w cpu in
  let s := m_emit (busy_checks new_task dc dp (rq_time q))
             (m_set_rq cpu (set_times (sums_sub new_task dc dp (rq_time q)) (grp_time q) q) s) in
  let '(rqs, w) := update_cluster_load_subtractions e cpu (rq_window_start q) new_task
                     (m_rqs s) w in
  let q := rqs cpu in
  let rqs := <[cpu := set_times (rq_time q)
                        (sums_add new_task (prev_window w) (curr_window w) (grp_time q)) q]> rqs in
  mk_ms rqs (set_win (win_place cpu w) (m_task s)) (m_lastq_ws s) (m_out s).

Definition group_to_rq (new_task : bool) (s : mstate) : mstate :=
  let w := win (m_task s) in
  let q := m_rqs s cpu in
  let s := m_emit (busy_checks new_task (curr_window w) (prev_window w) (grp_time q)) s in
  let q := set_times (sums_add new_task (prev_window w) (curr_window w) (rq_time q))
             (sums_sub new_task (curr_window w) (prev_window w) (grp_time q)) q in
  m_set_task (set_win (win_place cpu (win_clear_cpus w)) (m_task s)) (m_set_rq cpu q s).

(** [transfer_busy_time]; [wallclock2] is the clock read for a pending migration. *)
Definition transfer_busy_time (add : bool) (wallclock wallclock2 : Z) (s : mstate) : mstate :=
  let s := m_ravg TASK_UPDATE wallclock 0 s in
  let s := check_window s in
  let new_task := is_new_task (win (m_task s)) in
  let s := settle_migration wallclock2 s in
  if add then rq_to_group new_task s else group_to_rq new_task s.

(** [add_task_to_group] and [remove_task_from_group], the part under the run queue lock. *)
Definition add_task_to_group (id wallclock wallclock2 : Z) (s : mstate) : mstate :=
  let s := if tv_on_scx v then s else transfer_busy_time true wallclock wallclock2 s in
  m_set_task (set_grp (Some id) (m_task s)) s.
Definition remove_task_from_group (wallclock wallclock2 : Z) (s : mstate) : mstate :=
  let s := if tv_on_scx v then s else transfer_busy_time false wallclock wallclock2 s in
  m_set_task (set_grp None (m_task s)) s.

End ops.
