(* ===== verification/WaltHooks.v ===== *)
(** * WALT scheduler hooks and the tasks of the system (kernel/sched/walt/walt.c, walt_cfs.c)

    The enqueue and dequeue hooks with the aggregate statistics they keep, the
    start of a task, and the state of the whole system: every run queue and every
    task with its CPU.  An operation is one hook call; [run_op] is what it does
    and [op_ok] what the kernel guarantees when it makes the call. *)

From S2P Require Import Prelude.
From S2P Require Import WaltData WaltDemand WaltTop WaltWindow WaltBusy WaltMigrate.

Definition WALT_CPUFREQ_PL_BIT : Z := BIT 3.
Definition WALT_CPUFREQ_TRAILBLAZER_BIT : Z := BIT 8.
Definition WALT_CPUFREQ_UCLAMP_BIT : Z := BIT 10.

(** ** Aggregate statistics of a run queue *)
Definition walt_inc_cumulative_runnable_avg (d : task_demand) (st : walt_sched_stats)
    : walt_sched_stats * list walt_out :=
  fixup_cumulative_runnable_avg st (demand_scaled d) (pred_demand_scaled d).
Definition walt_dec_cumulative_runnable_avg (d : task_demand) (st : walt_sched_stats)
    : walt_sched_stats * list walt_out :=
  fixup_cumulative_runnable_avg st (- demand_scaled d) (- pred_demand_scaled d).

Definition b2z (b : bool) : Z := if b then 1 else 0.

(** [misfit] and [rtg_high_prio] are the task's, as set just before. *)
Definition inc_rq_walt_stats (fl : Z) (misfit rtg : bool) (st : walt_sched_stats) : walt_sched_stats :=
  mk_walt_sched_stats (nr_big_tasks st + b2z misfit)
    (nr_trailblazer_tasks st + b2z (walt_flag_test fl WALT_TRAILBLAZER_BIT))
    (nr_giant_tasks st + b2z (walt_flag_test fl WALT_GIANT_BIT))
    (cumulative_runnable_avg_scaled st) (pred_demands_sum_scaled st)
    (nr_rtg_high_prio_tasks st + b2z rtg).

Definition dec_rq_walt_stats (fl : Z) (misfit rtg : bool) (st : walt_sched_stats)
    : walt_sched_stats * list walt_out :=
  let big := nr_big_tasks st - b2z misfit in
  let giant := nr_giant_tasks st - b2z (walt_flag_test fl WALT_GIANT_BIT) in
  let tb := nr_trailblazer_tasks st - b2z (walt_flag_test fl WALT_TRAILBLAZER_BIT) in
  (mk_walt_sched_stats big tb (if giant <? 0 then 0 else giant)
     (cumulative_runnable_avg_scaled st) (pred_demands_sum_scaled st)
     (nr_rtg_high_prio_tasks st - b2z rtg),
   bug_if (big <? 0) BUG_NR_BIG ++ bug_if (tb <? 0) BUG_NR_TRAILBLAZER).

(** ** Governor notifications *)
Definition mult_frac (x n d : Z) : Z := u32 (u32 (x / d * n) + u32 (x mod d * n) / d).

Definition load_to_freq (e : walt_env) (cpu load : Z) : Z :=
  mult_frac (max_possible_freq e cpu) load (arch_scale_cpu_capacity e cpu).

Definition do_pl_notif (e : walt_env) (cpu : Z) (q : walt_rq) : bool :=
  let pl := pred_demands_sum_scaled (walt_stats q) in
  if capacity_orig_of e cpu =? capacity_curr_of e cpu then false else
  let prev := Z.max (old_busy_time (gov q)) (old_estimated_time (gov q)) in
  (prev <? pl) && (400000 <? load_to_freq e cpu (u32 (pl - prev))).

Definition notify_uclamp (e : walt_env) (cpu umin umax : Z) (q : walt_rq)
    : walt_rq * list walt_out :=
  if feat_uclamp_freq e &&
     (negb (uclamp_min (gov q) =? umin) || negb (uclamp_max (gov q) =? umax))
  then (set_gov (mk_rq_gov (old_busy_time (gov q)) (old_estimated_time (gov q)) umin umax
                   (big_task_pid (gov q))) q,
        [GOV_CALLBACK cpu WALT_CPUFREQ_UCLAMP_BIT])
  else (q, []).

(** ** Enqueue *)
Record enq_view := mk_enq_view {
  en_sched_delayed : bool;        (* p->se.sched_delayed *)
  en_flag_delayed : bool;         (* flags & ENQUEUE_DELAYED *)
  en_flag_wakeup : bool;          (* flags & ENQUEUE_WAKEUP *)
  en_per_cpu_kthread : bool;
  en_fits : Z → bool;             (* task_fits_max(p, cpu) *)
  en_rtg_high_prio : bool;        (* task_rtg_high_prio(p) *)
  en_uclamp_min : Z;
  en_uclamp_max : Z;
  en_clock : Z;                   (* walt_sched_clock() *)
}.

Definition pl_enqueued (cpu ts : Z) (p : task_place) : task_place :=
  mk_task_place (prev_cpu p) (new_cpu p) (enqueue_after_migration p) 1 cpu ts (last_wake_ts p)
    (misfit p) (rtg_high_prio p).
Definition pl_dequeued (p : task_place) : task_place :=
  mk_task_place (prev_cpu p) (new_cpu p) (enqueue_after_migration p) 2 (-1) (last_enqueued_ts p)
    (last_wake_ts p) (misfit p) (rtg_high_prio p).
Definition pl_fair (mf rtg : bool) (p : task_place) : task_place :=
  mk_task_place (prev_cpu p) (new_cpu p) (enqueue_after_migration p) (prev_on_rq p)
    (prev_on_rq_cpu p) (last_enqueued_ts p) (last_wake_ts p) mf rtg.

Section hooks.
Context (e : walt_env) (v : task_view).
Local Notation cpu := (tv_cpu v).

Definition m_stats (f : walt_sched_stats → walt_sched_stats * list walt_out) (s : mstate) : mstate :=
  let q := m_rqs s cpu in
  let '(st, o) := f (walt_stats q) in
  m_emit o (m_set_rq cpu (set_stats st q) s).

(** The counters of a fair task. *)
Definition enqueue_fair (x : enq_view) (double : bool) (s : mstate) : mstate :=
  if tv_fair v then
    let mf := negb (en_fits x cpu) in
    let p := place (m_task s) in
    let rtg := if double then rtg_high_prio p else en_rtg_high_prio x in
    let s := m_set_task (set_place (pl_fair mf rtg p) (m_task s)) s in
    let s := if double then s
             else m_stats (λ st, (inc_rq_walt_stats (flags (m_task s)) mf rtg st, [])) s in
    m_emit [CFS_ENQUEUE cpu (tv_pid v)] s
  else s.

Definition enqueue_notify (x : enq_view) (s : mstate) : mstate :=
  let q := m_rqs s cpu in
  if en_flag_wakeup x && walt_flag_test (flags (m_task s)) WALT_TRAILBLAZER_BIT
  then m_emit [GOV_CALLBACK cpu WALT_CPUFREQ_TRAILBLAZER_BIT] s
  else if en_flag_wakeup x && do_pl_notif e cpu q
  then m_emit [GOV_CALLBACK cpu WALT_CPUFREQ_PL_BIT] s
  else let '(q, o) := notify_uclamp e cpu (en_uclamp_min x) (en_uclamp_max x) q in
       m_emit o (m_set_rq cpu q s).

Definition enqueue_big_task (x : enq_view) (s : mstate) : mstate :=
  let q := m_rqs s cpu in
  let g := gov q in
  if (2 <=? num_sched_clusters e) && is_max_possible_cluster_cpu e cpu &&
     negb (en_fits x (cluster_first e (num_sched_clusters e - 2))) then
    let pid := if big_task_pid g =? 0 then tv_pid v
               else if negb (tv_pid v =? big_task_pid g) then -1 else big_task_pid g in
    m_set_rq cpu (set_gov (mk_rq_gov (old_busy_time g) (old_estimated_time g) (uclamp_min g)
                             (uclamp_max g) pid) q) s
  else s.

Definition android_rvh_enqueue_task (x : enq_view) (s : mstate) : mstate :=
  if tv_on_scx v then s else
  if en_sched_delayed x && negb (en_flag_delayed x) then s else
  let s := if en_flag_wakeup x then m_emit [WAKEUP_CTR cpu] s else s in
  let q := m_rqs s cpu in
  let s := if en_per_cpu_kthread x then s
           else m_set_rq cpu (set_enqueue_counter (u32 (enqueue_counter q + 1)) q) s in
  let double := prev_on_rq (place (m_task s)) =? 1 in
  let s := m_emit (bug_if double BUG_DOUBLE_ENQUEUE) s in
  let ts := if negb (enqueue_after_migration (place (m_task s)) =? 0) then en_clock x
            else tv_rq_clock v in
  let s := settle_migration e v (en_clock x) s in
  let s := m_set_task (set_place (pl_enqueued cpu ts (place (m_task s))) (m_task s)) s in
  let s := m_emit [NR_PROD cpu 1] s in
  let s := enqueue_fair x double s in
  let s := if double then s else m_stats (walt_inc_cumulative_runnable_avg (dem (m_task s))) s in
  enqueue_big_task x (enqueue_notify x s).

(** ** Dequeue *)
Record deq_view := mk_deq_view {
  dq_sched_delayed : bool;
  dq_cfs_tasks : list (Z * task_place);  (* rq->cfs_tasks, pids and placement *)
  dq_uclamp_min : Z;
  dq_uclamp_max : Z;
}.

(** The first early-detection task among the first ten others. *)
Fixpoint find_ed_task (wallclock deq : Z) (loop_max : nat) (l : list (Z * task_place)) : option Z :=
  match l with
  | [] => None
  | (pid, p) :: l =>
    match loop_max with
    | O => None
    | S n => if pid =? deq then find_ed_task wallclock deq loop_max l
             else if is_ed_task p wallclock then Some pid
             else find_ed_task wallclock deq n l
    end
  end.

(** [h_nr_running] is zero exactly when the list of fair tasks is empty. *)
Definition is_ed_task_present (wallclock deq : Z) (l : list (Z * task_place)) (q : walt_rq) : walt_rq :=
  if negb (is_ed_enabled e) then set_ed_task None q
  else set_ed_task (find_ed_task wallclock deq 10 l) q.

Definition dequeue_fair (double : bool) (s : mstate) : mstate :=
  if tv_fair v then
    let p := place (m_task s) in
    let s := if double then s
             else m_stats (dec_rq_walt_stats (flags (m_task s)) (misfit p) (rtg_high_prio p)) s in
    m_emit [CFS_DEQUEUE cpu (tv_pid v)] s
  else s.

Definition android_rvh_dequeue_task (x : deq_view) (s : mstate) : mstate :=
  if tv_on_scx v then s else
  let p := place (m_task s) in
  let s := m_emit (bug_if (dq_sched_delayed x && (prev_on_rq p =? 1)) BUG_MISSED_DELAYED) s in
  if dq_sched_delayed x && (prev_on_rq p =? 2) then s else
  let s := m_emit (bug_if ((0 <=? prev_on_rq_cpu p) && negb (prev_on_rq_cpu p =? cpu) &&
                           walt_flag_test (flags (m_task s)) WALT_INIT_BIT) BUG_DEQUEUE_CPU) s in
  let double := prev_on_rq p =? 2 in
  let s := m_emit (bug_if double BUG_DOUBLE_DEQUEUE) s in
  let s := m_set_task (set_place (pl_dequeued p) (m_task s)) s in
  let q := m_rqs s cpu in
  let s := if bool_decide (ed_task q = Some (tv_pid v))
           then m_set_rq cpu (is_ed_task_present (tv_rq_clock v) (tv_pid v) (dq_cfs_tasks x) q) s
           else s in
  let s := m_emit [NR_PROD cpu (-1)] s in
  let s := dequeue_fair double s in
  let s := if double then s else m_stats (walt_dec_cumulative_runnable_avg (dem (m_task s))) s in
  let '(q, o) := notify_uclamp e cpu (dq_uclamp_min x) (dq_uclamp_max x) (m_rqs s cpu) in
  m_emit o (m_set_rq cpu q s).

(** ** A task moves to the extensible class *)
Definition win_clear (w : task_window) : task_window :=
  mk_task_window (mark_start w) (window_start w) 0 0 (λ _, 0) (λ _, 0) (active_time w).
Definition android_vh_switching_to_scx (s : mstate) : mstate :=
  let t := m_task s in
  m_set_task (set_place (pl_settled (place t)) (set_win (win_clear (win t)) t)) s.

(** ** Misfit status of the running fair task, at the tick *)
Definition set_nr_big (n : Z) (st : walt_sched_stats) : walt_sched_stats :=
  mk_walt_sched_stats n (nr_trailblazer_tasks st) (nr_giant_tasks st)
    (cumulative_runnable_avg_scaled st) (pred_demands_sum_scaled st) (nr_rtg_high_prio_tasks st).

(** [fits] is [task_fits_max(p, rq->cpu)], [util] is [task_util(p)]. *)
Definition android_rvh_update_misfit_status (fits : bool) (util : Z) (s : mstate) : mstate :=
  let p := place (m_task s) in
  let load := if fits then 0 else util in
  let s := m_emit [MISFIT_LOAD cpu load] s in
  let mf := negb (load =? 0) in
  let change := b2z mf - b2z (misfit p) in
  if change =? 0 then s else
  let s := m_emit [NR_PROD cpu 0] s in
  let s := m_stats (λ st, let n := nr_big_tasks st + change in
                          (set_nr_big n st, bug_if (n <? 0) BUG_NR_BIG)) s in
  m_set_task (set_place (pl_fair mf (rtg_high_prio p) p) (m_task s)) s.

End hooks.
