(* ===== verification/WaltInv.v ===== *)
(** * WALT busy time: each operation keeps the books balanced

    For every CPU, every window it still tracks and each of its four kinds of sums
    (all tasks or new tasks, its own or its group's), the sum covers what every
    task has in it plus what is still to be subtracted.  This file proves, for one
    task against any such rest [R] of the other tasks, that updating, migrating
    and regrouping the task keeps that so, and that none of the busy-time and
    window checks of the code fails on the way. *)

From S2P Require Import Prelude.
From S2P Require Import WaltData WaltDemand WaltTop WaltWindow WaltBusy WaltMigrate.

(** ** Pending subtractions per window *)
Definition ls_amount (n : bool) (l : load_subtractions) (x : Z) : Z :=
  if ls_window_start l =? x then (if n then new_subs l else subs l) else 0.

Definition pend (gb n : bool) (q : walt_rq) (x : Z) : Z :=
  if gb then 0 else ls_amount n (load_subs q).1 x + ls_amount n (load_subs q).2 x.

Definition ls_nonneg (l : load_subtractions) : Prop := 0 ≤ subs l ∧ 0 ≤ new_subs l.
Definition subs_nonneg (q : walt_rq) : Prop :=
  ls_nonneg (load_subs q).1 ∧ ls_nonneg (load_subs q).2.

Lemma ls_amount_nonneg n l x : ls_nonneg l → 0 ≤ ls_amount n l x.
Proof. intros [? ?]. unfold ls_amount. zcases; destruct n; lia. Qed.
Lemma pend_nonneg gb n q x : subs_nonneg q → 0 ≤ pend gb n q x.
Proof.
  intros [? ?]. unfold pend. case_match; [lia|].
  pose proof (ls_amount_nonneg n (load_subs q).1 x). pose proof (ls_amount_nonneg n (load_subs q).2 x).
  naive_solver lia.
Qed.

(** A subtraction is recorded for its window; at worst an older record is lost. *)
Lemma add_subtraction_spec ws d new q : 0 ≤ d → subs_nonneg q →
  subs_nonneg (add_subtraction ws d new q) ∧
  rq_time (add_subtraction ws d new q) = rq_time q ∧
  grp_time (add_subtraction ws d new q) = grp_time q ∧
  rq_window_start (add_subtraction ws d new q) = rq_window_start q ∧
  prev_window_size (add_subtraction ws d new q) = prev_window_size q ∧
  latest_clock (add_subtraction ws d new q) = latest_clock q ∧
  top (add_subtraction ws d new q) = top q ∧
  walt_stats (add_subtraction ws d new q) = walt_stats q ∧
  ∀ n x, pend false n (add_subtraction ws d new q) x
         ≤ pend false n q x + (if (x =? ws) && negb (n && negb new) then d else 0).
Proof.
  intros Hd [[? ?] [? ?]]. unfold add_subtraction, get_subtraction_index, subs_nonneg, ls_nonneg, pend, ls_amount.
  destruct (load_subs q) as [[w0 s0 n0] [w1 s1 n1]] eqn:Hl. cbn in *.
  repeat (case_match; simplify_eq); unfold create_subtraction_entry, update_rq_load_subtractions, ls_set, ls_get;
    repeat (case_match; simplify_eq); cbn in *; split_and!; try done; try lia;
    intros n x; zcases; destruct n; cbn; repeat case_match; lia.
Qed.

(** Time moves from the task's counters to pending subtractions. *)
Definition nshare (W : Z) (n new : bool) (w : task_window) (c x : Z) : Z :=
  if n && negb new then 0
  else byw W (window_start w) (curr_window_cpu w c) (prev_window_cpu w c) x.

Record moved (W : Z) (new : bool) (rqs : Z → walt_rq) (w : task_window)
    (rqs' : Z → walt_rq) (w' : task_window) : Prop := mk_moved {
  mv_rq c : rq_time (rqs' c) = rq_time (rqs c) ∧ grp_time (rqs' c) = grp_time (rqs c) ∧
            rq_window_start (rqs' c) = rq_window_start (rqs c) ∧
            prev_window_size (rqs' c) = prev_window_size (rqs c) ∧
            latest_clock (rqs' c) = latest_clock (rqs c) ∧ top (rqs' c) = top (rqs c) ∧
            walt_stats (rqs' c) = walt_stats (rqs c);
  mv_subs c : subs_nonneg (rqs c) → subs_nonneg (rqs' c);
  mv_same : mark_start w' = mark_start w ∧ window_start w' = window_start w ∧
            curr_window w' = curr_window w ∧ prev_window w' = prev_window w ∧
            active_time w' = active_time w;
  mv_nonneg : win_nonneg w → win_nonneg w';
  mv_sum c n x : subs_nonneg (rqs c) → win_nonneg w →
    pend false n (rqs' c) x + nshare W n new w' c x ≤ pend false n (rqs c) x + nshare W n new w c x;
}.

Lemma moved_refl W new rqs w : moved W new rqs w rqs w.
Proof. split; try done; lia. Qed.

Lemma moved_trans W new rqs w rqs1 w1 rqs2 w2 :
  moved W new rqs w rqs1 w1 → moved W new rqs1 w1 rqs2 w2 → moved W new rqs w rqs2 w2.
Proof.
  intros [A1 A2 A3 A4 A5] [B1 B2 B3 B4 B5]. split; auto.
  - intros c. specialize (A1 c). specialize (B1 c). destruct_and!. split_and!; congruence.
  - destruct_and!. split_and!; congruence.
  - intros c n x Hs Hn. specialize (A5 c n x Hs Hn). specialize (B5 c n x (A2 c Hs) (A4 Hn)). lia.
Qed.

Lemma moved_curr W new rqs w (i : Z) : 0 < W → 0 ≤ curr_window_cpu w i →
  moved W new rqs w
    (<[i := add_subtraction (window_start w) (curr_window_cpu w i) new (rqs i)]> rqs) (win_zero_curr i w).
Proof.
  intros HW Hd.
  assert (subs_nonneg (rqs i) → _) as Hspec
    by exact (add_subtraction_spec (window_start w) (curr_window_cpu w i) new (rqs i) Hd).
  split.
  - intros c. destruct (decide (i = c)) as [<-|]; [|by rewrite fn_lookup_insert_ne].
    rewrite fn_lookup_insert. unfold add_subtraction. by repeat case_match.
  - intros c Hs. destruct (decide (i = c)) as [<-|]; [|by rewrite fn_lookup_insert_ne].
    rewrite fn_lookup_insert. by apply Hspec.
  - done.
  - intros (Hc & ? & ?). split_and!; try done. intros c. cbn. rewrite fn_at. specialize (Hc c).
    case_match; lia.
  - intros c n x Hs (Hn & _). unfold nshare, win_zero_curr, win_zero_prev;
    cbn [window_start curr_window_cpu prev_window_cpu]. destruct (decide (i = c)) as [<-|Hne].
    + rewrite !fn_lookup_insert. destruct (Hspec Hs) as (_ & _ & _ & _ & _ & _ & _ & _ & Hp).
      specialize (Hp n x). specialize (Hn i). revert Hp. unfold byw.
      destruct (n && negb new); cbn [negb andb]; zcases; cbn [andb]; lia.
    + rewrite !fn_lookup_insert_ne by done. lia.
Qed.

Lemma moved_prev W new rqs w (i : Z) : 0 < W → 0 ≤ prev_window_cpu w i → curr_window_cpu w i = 0 →
  moved W new rqs w
    (<[i := add_subtraction (window_start w - W) (prev_window_cpu w i) new (rqs i)]> rqs)
    (win_zero_prev i w).
Proof.
  intros HW Hd Hz.
  assert (subs_nonneg (rqs i) → _) as Hspec
    by exact (add_subtraction_spec (window_start w - W) (prev_window_cpu w i) new (rqs i) Hd).
  split.
  - intros c. destruct (decide (i = c)) as [<-|]; [|by rewrite fn_lookup_insert_ne].
    rewrite fn_lookup_insert. unfold add_subtraction. by repeat case_match.
  - intros c Hs. destruct (decide (i = c)) as [<-|]; [|by rewrite fn_lookup_insert_ne].
    rewrite fn_lookup_insert. by apply Hspec.
  - done.
  - intros (Hc & ? & ?). split_and!; try done. intros c. cbn. rewrite fn_at. specialize (Hc c).
    case_match; lia.
  - intros c n x Hs (Hn & _). unfold nshare, win_zero_curr, win_zero_prev;
    cbn [window_start curr_window_cpu prev_window_cpu]. destruct (decide (i = c)) as [<-|Hne].
    + rewrite !fn_lookup_insert. destruct (Hspec Hs) as (_ & _ & _ & _ & _ & _ & _ & _ & Hp).
      specialize (Hp n x). specialize (Hn i). revert Hp. unfold byw. rewrite Hz.
      destruct (n && negb new); cbn [negb andb]; zcases; cbn [andb]; lia.
    + rewrite !fn_lookup_insert_ne by done. lia.
Qed.

Lemma subtract_on_cpu_moved W new rqs w i rqs' w' : 0 < W → win_nonneg w →
  subtract_on_cpu (window_start w) (window_start w - W) new (rqs, w) i = (rqs', w') →
  moved W new rqs w rqs' w'.
Proof.
  intros HW Hn. destruct Hn as (Hc & _). unfold subtract_on_cpu.
  destruct (Z.eqb_spec (curr_window_cpu w i) 0) as [Hz|Hz]; cbn [negb].
  - destruct (Z.eqb_spec (prev_window_cpu w i) 0); cbn [negb]; intros [= <- <-];
      [apply moved_refl | apply moved_prev; try done; apply Hc].
  - destruct (Z.eqb_spec (prev_window_cpu (win_zero_curr i w) i) 0); cbn [negb]; intros [= <- <-].
    + apply moved_curr; [done | apply Hc].
    + eapply moved_trans; [apply moved_curr; [done | apply Hc]|].
      apply (moved_prev W new _ (win_zero_curr i w) i); try done; [apply Hc|].
      cbn. by rewrite fn_lookup_insert.
Qed.

Lemma cluster_subtractions_moved e W cpu new rqs w rqs' w' : 0 < W → win_nonneg w →
  prev_window_size (rqs cpu) = W → W ≤ window_start w < 2 ^ 64 →
  update_cluster_load_subtractions e cpu (window_start w) new rqs w = (rqs', w') →
  moved W new rqs w rqs' w' ∧ rqs' cpu = rqs cpu ∧
  curr_window_cpu w' cpu = curr_window_cpu w cpu ∧ prev_window_cpu w' cpu = prev_window_cpu w cpu.
Proof.
  intros HW Hn Hp Hws. unfold update_cluster_load_subtractions. rewrite Hp.
  assert (u64 (window_start w - W) = window_start w - W) as -> by (unfold u64; apply Z.mod_small; lia).
  set (ws := window_start w).
  assert (∀ l rqs0 w0, Forall (λ i, i ≠ cpu) l → window_start w0 = ws → win_nonneg w0 →
    let '(rqs1, w1) := foldl (subtract_on_cpu ws (ws - W) new) (rqs0, w0) l in
    moved W new rqs0 w0 rqs1 w1 ∧ rqs1 cpu = rqs0 cpu ∧
    curr_window_cpu w1 cpu = curr_window_cpu w0 cpu ∧ prev_window_cpu w1 cpu = prev_window_cpu w0 cpu) as Hl.
  { intros l. induction l as [|i l IH]; intros rqs0 w0 Hf Hw0 Hn0; cbn [foldl].
    { split_and!; try done. }
    apply list.Forall_cons in Hf as [Hi Hf].
    destruct (subtract_on_cpu ws (ws - W) new (rqs0, w0) i) as [rqs1 w1] eqn:E.
    assert (rqs1 cpu = rqs0 cpu ∧ curr_window_cpu w1 cpu = curr_window_cpu w0 cpu ∧
            prev_window_cpu w1 cpu = prev_window_cpu w0 cpu) as (E1 & E2 & E3).
    { revert E. unfold subtract_on_cpu. repeat case_match; intros; simplify_eq; cbn;
        rewrite ?fn_lookup_insert_ne by done; done. }
    rewrite <- Hw0 in E. apply subtract_on_cpu_moved in E as Hm; [|done|done].
    specialize (IH rqs1 w1 Hf). destruct (mv_same _ _ _ _ _ _ Hm) as (_ & Hs & _).
    rewrite Hs in IH. specialize (IH Hw0 (mv_nonneg _ _ _ _ _ _ Hm Hn0)).
    destruct (foldl _ _ _) as [rqs2 w2]. destruct IH as (I1 & I2 & I3 & I4).
    split_and!; try congruence. by eapply moved_trans. }
  intros E. specialize (Hl (filter (λ i, i ≠ cpu) (cluster_cpus e cpu)) rqs w).
  rewrite E in Hl. apply Hl; try done.
  apply list.Forall_forall. intros i Hi. by apply list_elem_of_filter in Hi as [? _].
Qed.

(** ** Subtraction from sums that cover it *)
Definition covers (W ws : Z) (new : bool) (dc dp : Z) (g : group_cpu_time) : Prop :=
  ∀ n, n = false ∨ new = true → dc ≤ wsum W n ws g ws ∧ dp ≤ wsum W n ws g (ws - W).

Lemma covers_le W ws new dc dp g : 0 < W → covers W ws new dc dp g →
  dc ≤ curr_runnable_sum g ∧ dp ≤ prev_runnable_sum g ∧
  (new = true → dc ≤ nt_curr_runnable_sum g ∧ dp ≤ nt_prev_runnable_sum g).
Proof.
  intros HW Hc. unfold covers, wsum in Hc. rewrite Z.eqb_refl in Hc.
  rewrite (proj2 (Z.eqb_neq (ws - W) ws)), Z.eqb_refl in Hc by lia.
  destruct (Hc false) as [? ?]; [by left|]. split_and!; [done|done|].
  intros ->. destruct (Hc true) as [? ?]; [by right|]. done.
Qed.

Lemma covers_checks W ws new dc dp g : 0 < W → covers W ws new dc dp g → busy_checks new dc dp g = [].
Proof.
  intros HW Hc. apply covers_le in Hc as (H1 & H2 & H3); [|done]. unfold busy_checks.
  rewrite (proj2 (Z.ltb_ge _ dc) H1), (proj2 (Z.ltb_ge _ dp) H2).
  destruct new; [|done]. destruct H3 as [H3 H4]; [done|].
  rewrite (proj2 (Z.ltb_ge _ dc) H3), (proj2 (Z.ltb_ge _ dp) H4). done.
Qed.

Lemma covers_sub W ws new dc dp g n x : 0 < W → covers W ws new dc dp g →
  wsum W n ws (sums_sub new dc dp g) x
  = wsum W n ws g x - (if n && negb new then 0 else byw W ws dc dp x).
Proof.
  intros HW Hc. apply covers_le in Hc as (H1 & H2 & H3); [|done].
  unfold wsum, byw, sums_sub, sums_sub_prev, sums_sub_curr. cbn.
  rewrite (sub_clamp_le _ _ H1), (sub_clamp_le _ _ H2).
  destruct new; [destruct H3 as [H3 H4]; [done|]; rewrite (sub_clamp_le _ _ H3), (sub_clamp_le _ _ H4)|];
    destruct n; cbn; zcases; lia.
Qed.

Lemma wsum_nonneg_all W ws g : 0 < W → (∀ n x, ws - W ≤ x → 0 ≤ wsum W n ws g x) →
  0 ≤ curr_runnable_sum g ∧ 0 ≤ prev_runnable_sum g ∧ 0 ≤ nt_curr_runnable_sum g ∧
  0 ≤ nt_prev_runnable_sum g.
Proof.
  intros HW Hn. destruct (covers_le W ws true 0 0 g HW) as (? & ? & H).
  { intros n _. split; apply Hn; lia. }
  destruct H; done.
Qed.

(** The guarded forms of the group sums. *)
Lemma group_subtraction_eq new w g :
  0 ≤ curr_runnable_sum g → 0 ≤ prev_runnable_sum g → 0 ≤ nt_curr_runnable_sum g →
  0 ≤ nt_prev_runnable_sum g →
  group_subtraction new w g = sums_sub new (curr_window w) (prev_window w) g.
Proof.
  intros. assert (∀ a, 0 ≤ a → sub_clamp a 0 = a) as Hz by (intros; rewrite sub_clamp_le; lia).
  destruct g as [a b c d]. unfold group_subtraction, sums_sub, sums_sub_curr, sums_sub_prev; cbn in *.
  destruct (Z.eqb_spec (curr_window w) 0) as [->|]; destruct (Z.eqb_spec (prev_window w) 0) as [->|];
    cbn; rewrite ?Hz by done; destruct new; done.
Qed.

Lemma group_checks_nil W ws new w g : 0 < W → covers W ws new (curr_window w) (prev_window w) g →
  group_checks new w g = [].
Proof.
  intros HW Hc. apply covers_le in Hc as (H1 & H2 & H3); [|done]. unfold group_checks.
  rewrite (proj2 (Z.ltb_ge _ (curr_window w)) H1), (proj2 (Z.ltb_ge _ (prev_window w)) H2).
  destruct new; [destruct H3 as [H3 H4]; [done|];
    rewrite (proj2 (Z.ltb_ge _ (curr_window w)) H3), (proj2 (Z.ltb_ge _ (prev_window w)) H4)|];
    repeat case_match; done.
Qed.

Lemma group_addition_eq new w g : group_addition new w g = sums_add new (prev_window w) (curr_window w) g.
Proof.
  destruct g. unfold group_addition, sums_add.
  destruct (Z.eqb_spec (curr_window w) 0) as [->|]; destruct (Z.eqb_spec (prev_window w) 0) as [->|];
    destruct new; cbn; f_equal; lia.
Qed.

Lemma fn_at_rq (f : Z → walt_rq) (k c : Z) q : (<[k := q]> f : Z → walt_rq) c = if c =? k then q else f c.
Proof.
  destruct (Z.eqb_spec c k); subst; [by rewrite fn_lookup_insert | by rewrite fn_lookup_insert_ne].
Qed.

(** ** One task against the rest *)
Section task.
Context (e : walt_env) (φ : Z).
Local Notation W := (sched_ravg_window e).
Context (HW : 0 < W).
(** What the other tasks have in the sums of CPU [c] for window [x]. *)
Context (R : bool → bool → Z → Z → Z).
Context (HR : ∀ gb n c x, 0 ≤ R gb n c x).
Context (cpu : Z).                       (* the task's CPU *)

(** A task whose group load is in flight between two CPUs is not attached. *)
Definition mshare (att gb n : bool) (c : Z) (t : walt_task_struct) (x : Z) : Z :=
  if gb && negb ((c =? cpu) && att) then 0 else tshare W gb n c t x.

Record minv (att : bool) (rqs : Z → walt_rq) (t : walt_task_struct) : Prop := mk_minv {
  mi_rq c : c ∈ possible_cpus e → rq_ok φ W (rqs c) ∧ subs_nonneg (rqs c);
  mi_win : win_ok φ W (win t);
  mi_sum gb n c x : c ∈ possible_cpus e → rq_window_start (rqs c) - W ≤ x →
    R gb n c x + mshare att gb n c t x + pend gb n (rqs c) x ≤ rsum W gb n (rqs c) x;
}.

(** Run queues and tasks that agree on everything the balance is about. *)
Definition rq_same (q q' : walt_rq) : Prop :=
  rq_window_start q' = rq_window_start q ∧ prev_window_size q' = prev_window_size q ∧
  rq_time q' = rq_time q ∧ grp_time q' = grp_time q ∧ load_subs q' = load_subs q ∧
  latest_clock q' = latest_clock q.
Definition task_same (t t' : walt_task_struct) : Prop :=
  win t' = win t ∧ grp t' = grp t ∧
  walt_is_idle_task (flags t') = walt_is_idle_task (flags t).

Lemma minv_frame att rqs rqs' t t' :
  (∀ c, rq_same (rqs c) (rqs' c)) → task_same t t' → minv att rqs t → minv att rqs' t'.
Proof using Type.
  intros Hr (Hw & Hg & Hi) [H1 H2 H3]. split.
  - intros c Hc. destruct (H1 c Hc) as [Ha Hb]. destruct (Hr c) as (E1 & E2 & E3 & E4 & E5 & E6).
    unfold rq_ok, subs_nonneg in *. rewrite E1, E2, E5. done.
  - by rewrite Hw.
  - intros gb n c x Hc Hx. destruct (Hr c) as (E1 & E2 & E3 & E4 & E5 & E6). rewrite E1 in Hx.
    specialize (H3 gb n c x Hc Hx). unfold mshare, tshare, in_group, pend, rsum in *.
    rewrite E1, E3, E4, E5, Hw, Hg, Hi. done.
Qed.

Lemma rq_same_refl q : rq_same q q.
Proof using Type. done. Qed.
Lemma rq_same_insert (c : Z) q (rqs : Z → walt_rq) : rq_same (rqs c) q → ∀ c', rq_same (rqs c') (<[c := q]> rqs c').
Proof using Type.
  intros H c'. destruct (decide (c = c')); subst;
    [by rewrite fn_lookup_insert | by rewrite fn_lookup_insert_ne].
Qed.

(** *** Updating the task *)
Lemma minv_ravg v ev wc irq att s :
  tv_cpu v = cpu → cpu ∈ possible_cpus e → tv_on_scx v = false → 0 ≤ irq →
  minv att (m_rqs s) (m_task s) → clock_ok W wc (m_rqs s cpu) (win (m_task s)) →
  let s' := m_ravg e v ev wc irq s in
  minv att (m_rqs s') (m_task s') ∧
  ravg_effect e φ cpu wc (m_rqs s cpu) (m_task s) (m_rqs s' cpu) (m_task s') ∧
  (∀ c, c ≠ cpu → m_rqs s' c = m_rqs s c) ∧
  (quiet (m_out s) → quiet (m_out s')).
Proof using HW HR.
  intros Hv Hin Hscx Hirq Hm Hcl. cbv zeta. unfold m_ravg. rewrite Hv.
  destruct Hm as [H1 H2 H3]. destruct (H1 cpu Hin) as [Hq Hsub].
  destruct (ravg_effect_holds e φ v ev wc irq HW Hscx Hirq
    (mk_ravg (m_rqs s cpu) (m_task s) (m_lastq_ws s) (m_out s)) Hq H2 Hcl) as [He Hquiet].
  set (r := walt_update_task_ravg _ _ _ _ _ _) in *. rewrite Hv in He. cbn [r_rq r_task r_out] in He, Hquiet.
  cbn [m_rqs m_task m_out]. rewrite fn_lookup_insert.
  split_and!; try done; [|by intros; apply fn_lookup_insert_ne].
  split.
  - intros c Hc. destruct (decide (cpu = c)); subst; rewrite ?fn_lookup_insert, ?fn_lookup_insert_ne by done;
      [|by apply H1]. split; [apply He|]. unfold subs_nonneg. by rewrite (re_subs _ _ _ _ _ _ _ _ He).
  - apply He.
  - intros gb n c x Hc Hx.
    destruct (decide (cpu = c)) as [<-|Hne].
    + rewrite fn_lookup_insert in *.
      assert (pend gb n (r_rq r) x = pend gb n (m_rqs s cpu) x) as ->.
      { unfold pend. by rewrite (re_subs _ _ _ _ _ _ _ _ He). }
      pose proof (re_ws _ _ _ _ _ _ _ _ He).
      specialize (H3 gb n cpu x Hin). specialize (H3 ltac:(lia)).
      pose proof (re_cpu _ _ _ _ _ _ _ _ He gb n x Hin Hx).
      pose proof (re_sums _ _ _ _ _ _ _ _ He gb n x Hx).
      unfold mshare in *. rewrite Z.eqb_refl in *. destruct gb, att; cbn [andb negb] in *; lia.
    + rewrite fn_lookup_insert_ne in * by done.
      specialize (H3 gb n c x Hc Hx). unfold mshare in *.
      destruct gb; cbn [andb negb] in *.
      * rewrite (proj2 (Z.eqb_neq c cpu)) in * by congruence. cbn [andb negb] in *. lia.
      * pose proof (re_other _ _ _ _ _ _ _ _ He n c x ltac:(congruence) Hc). lia.
Qed.

(** *** What the balance says about the task's own share *)
Lemma minv_covers_rq att rqs t n x :
  cpu ∈ possible_cpus e → minv att rqs t → rq_window_start (rqs cpu) - W ≤ x →
  tshare W false n cpu t x ≤ wsum W n (rq_window_start (rqs cpu)) (rq_time (rqs cpu)) x.
Proof using HR.
  intros Hin [H1 H2 H3] Hx. specialize (H3 false n cpu x Hin Hx). unfold mshare, rsum in H3. cbn in H3.
  pose proof (HR false n cpu x). destruct (H1 cpu Hin) as [_ Hs].
  pose proof (pend_nonneg false n _ x Hs). unfold pend in *. cbn in *. lia.
Qed.

Lemma minv_covers_grp rqs t n x :
  cpu ∈ possible_cpus e → minv true rqs t → rq_window_start (rqs cpu) - W ≤ x →
  tshare W true n cpu t x ≤ wsum W n (rq_window_start (rqs cpu)) (grp_time (rqs cpu)) x.
Proof using HR.
  intros Hin [H1 H2 H3] Hx. specialize (H3 true n cpu x Hin Hx). unfold mshare, rsum in H3.
  rewrite Z.eqb_refl in H3. cbn in H3. pose proof (HR true n cpu x). lia.
Qed.

Lemma own_share_rq t n x : walt_is_idle_task (flags t) = false → grp t = None →
  tshare W false n cpu t x = nshare W n (is_new_task (win t)) (win t) cpu x.
Proof using Type.
  intros Hi Hg. unfold tshare, nshare, in_group. rewrite Hi, Hg. cbn.
  by destruct n, (is_new_task (win t)).
Qed.

Lemma rq_covers att rqs t :
  cpu ∈ possible_cpus e → minv att rqs t → walt_is_idle_task (flags t) = false → grp t = None →
  window_start (win t) = rq_window_start (rqs cpu) →
  covers W (rq_window_start (rqs cpu)) (is_new_task (win t)) (curr_window_cpu (win t) cpu)
    (prev_window_cpu (win t) cpu) (rq_time (rqs cpu)).
Proof using HW HR.
  intros Hin Hm Hi Hg Hs n Hn.
  pose proof (minv_covers_rq att rqs t n (rq_window_start (rqs cpu)) Hin Hm ltac:(lia)) as H1.
  pose proof (minv_covers_rq att rqs t n (rq_window_start (rqs cpu) - W) Hin Hm ltac:(lia)) as H2.
  rewrite own_share_rq in H1, H2 by done. unfold nshare, byw in *. rewrite Hs in *.
  rewrite Z.eqb_refl in *. rewrite (proj2 (Z.eqb_neq (_ - W) _)) in H2 by lia.
  destruct Hn as [->|Hn]; [done|]. rewrite Hn in *. destruct n; done.
Qed.

Lemma grp_covers rqs t g :
  cpu ∈ possible_cpus e → minv true rqs t → walt_is_idle_task (flags t) = false → grp t = Some g →
  window_start (win t) = rq_window_start (rqs cpu) →
  covers W (rq_window_start (rqs cpu)) (is_new_task (win t)) (curr_window (win t))
    (prev_window (win t)) (grp_time (rqs cpu)).
Proof using HW HR.
  intros Hin Hm Hi Hg Hs n Hn.
  pose proof (minv_covers_grp rqs t n (rq_window_start (rqs cpu)) Hin Hm ltac:(lia)) as H1.
  pose proof (minv_covers_grp rqs t n (rq_window_start (rqs cpu) - W) Hin Hm ltac:(lia)) as H2.
  unfold tshare, in_group, byw in *. rewrite Hi, Hg, Hs in *. cbn [orb eqb bool_decide] in *.
  rewrite bool_decide_true in * by eauto. cbn [negb eqb] in *. rewrite !orb_false_r in *.
  rewrite Z.eqb_refl in *. rewrite (proj2 (Z.eqb_neq (_ - W) _)) in H2 by lia.
  destruct Hn as [->|Hn]; [done|]. rewrite Hn in *. destruct n; done.
Qed.

(** *** Leaving the sums of the run queue *)
Lemma minv_nonneg_sums att rqs t c : c ∈ possible_cpus e → minv att rqs t →
  ∀ gb n x, rq_window_start (rqs c) - W ≤ x → 0 ≤ rsum W gb n (rqs c) x.
Proof using HR.
  intros Hin [H1 H2 H3] gb n x Hx. specialize (H3 gb n c x Hin Hx).
  pose proof (HR gb n c x). destruct (H1 c Hin) as [_ Hs]. pose proof (pend_nonneg gb n _ x Hs).
  assert (0 ≤ mshare att gb n c t x).
  { unfold mshare. case_match; [lia | apply tshare_nonneg; apply H2]. }
  lia.
Qed.

Lemma minv_update_cpu att att' rqs t q' t' :
  cpu ∈ possible_cpus e → minv att rqs t → rq_ok φ W q' → subs_nonneg q' → win_ok φ W (win t') →
  rq_window_start q' = rq_window_start (rqs cpu) →
  (∀ gb n x, rq_window_start q' - W ≤ x →
     mshare att' gb n cpu t' x + pend gb n q' x + rsum W gb n (rqs cpu) x
     ≤ mshare att gb n cpu t x + pend gb n (rqs cpu) x + rsum W gb n q' x) →
  (∀ gb n c x, c ≠ cpu → c ∈ possible_cpus e → mshare att' gb n c t' x ≤ mshare att gb n c t x) →
  minv att' (<[cpu := q']> rqs) t'.
Proof using Type.
  intros Hin [H1 H2 H3] Hq Hs Hw Hws Hc Ho. split; [|done|].
  - intros c Hcp. destruct (decide (cpu = c)) as [<-|];
      [by rewrite fn_lookup_insert | rewrite fn_lookup_insert_ne by done; by apply H1].
  - intros gb n c x Hcp. destruct (decide (cpu = c)) as [<-|].
    + rewrite fn_lookup_insert. intros Hx. specialize (Hc gb n x Hx). rewrite Hws in Hx.
      specialize (H3 gb n cpu x Hin Hx). lia.
    + rewrite fn_lookup_insert_ne by done. intros Hx. specialize (H3 gb n c x Hcp Hx).
      specialize (Ho gb n c x ltac:(congruence) Hcp). lia.
Qed.

(** The other CPUs after the cluster's pending subtractions. *)
Lemma minv_moved_other att rqs t rqs1 w1 rqs' w' n c x :
  minv att rqs t → walt_is_idle_task (flags t) = false → grp t = None →
  moved W (is_new_task (win t)) rqs1 w1 rqs' w' → rqs1 c = rqs c → win_nonneg w1 →
  nshare W n (is_new_task (win t)) w1 c x = nshare W n (is_new_task (win t)) (win t) c x →
  c ∈ possible_cpus e → rq_window_start (rqs c) - W ≤ x →
  R false n c x + nshare W n (is_new_task (win t)) w' c x + pend false n (rqs' c) x
  ≤ rsum W false n (rqs' c) x.
Proof using Type.
  intros [H1 H2 H3] Hi Hg Hmv Hc Hn1 Hsh Hin Hx. specialize (H3 false n c x Hin Hx).
  destruct (H1 c Hin) as [_ Hs].
  pose proof (mv_sum _ _ _ _ _ _ Hmv c n x ltac:(by rewrite Hc) Hn1) as Hm.
  destruct (mv_rq _ _ _ _ _ _ Hmv c) as (E1 & E2 & E3 & _). rewrite Hc in *.
  assert (mshare att false n c t x = nshare W n (is_new_task (win t)) (win t) c x) as Ht.
  { unfold mshare, tshare, nshare, in_group. rewrite Hi, Hg. cbn.
    by destruct n, (is_new_task (win t)). }
  unfold rsum in *. rewrite E1, E3. cbn [negb andb] in *. lia.
Qed.

Lemma minv_inter_cluster_subtraction att s :
  cpu ∈ possible_cpus e → minv att (m_rqs s) (m_task s) →
  walt_is_idle_task (flags (m_task s)) = false → grp (m_task s) = None →
  window_start (win (m_task s)) = rq_window_start (m_rqs s cpu) →
  let s' := migrate_inter_cluster_subtraction e cpu (is_new_task (win (m_task s))) s in
  minv att (m_rqs s') (m_task s') ∧ m_out s' = m_out s ∧
  curr_window_cpu (win (m_task s')) cpu = 0 ∧ prev_window_cpu (win (m_task s')) cpu = 0 ∧
  curr_window (win (m_task s')) = curr_window (win (m_task s)) ∧
  prev_window (win (m_task s')) = prev_window (win (m_task s)) ∧
  window_start (win (m_task s')) = window_start (win (m_task s)) ∧
  place (m_task s') = place (m_task s) ∧ grp (m_task s') = grp (m_task s) ∧
  flags (m_task s') = flags (m_task s) ∧
  (∀ c, rq_window_start (m_rqs s' c) = rq_window_start (m_rqs s c)).
Proof using HW HR.
  intros Hin Hm Hi Hg Hs. unfold migrate_inter_cluster_subtraction. cbv zeta.
  set (t := m_task s) in *. set (w := win t) in *. set (q := m_rqs s cpu) in *. set (new := is_new_task w).
  pose proof (rq_covers att (m_rqs s) t Hin Hm Hi Hg Hs) as Hcov. fold w q new in Hcov.
  rewrite (covers_checks W _ _ _ _ _ HW Hcov).
  set (q1 := set_times _ _ _). set (w1 := win_zero_prev cpu (win_zero_curr cpu w)).
  destruct (mi_rq _ _ _ Hm cpu Hin) as [(Hq1 & Hq2 & Hq3) Hq4]. fold q in Hq1, Hq2, Hq3, Hq4.
  destruct (mi_win _ _ _ Hm) as [Hnn Hok]. fold t w in Hnn, Hok.
  assert (win_nonneg w1) as Hn1.
  { destruct Hnn as (Hc & ? & ?). split_and!; try done. intros c. cbn. rewrite !fn_at. specialize (Hc c).
    case_match; lia. }
  destruct (update_cluster_load_subtractions _ _ _ _ _ _) as [rqs' w'] eqn:Hu.
  assert (rq_window_start q1 = window_start w1) as Hqw by (cbn; fold w in Hs; congruence).
  rewrite Hqw in Hu.
  apply (cluster_subtractions_moved e W) in Hu as (Hmv & Hcpu & Hc0 & Hp0); try done.
  2:{ by rewrite fn_lookup_insert. }
  2:{ rewrite <- Hqw; cbn; lia. }
  destruct (mv_same _ _ _ _ _ _ Hmv) as (S1 & S2 & S3 & S4 & S5).
  rewrite fn_lookup_insert in Hcpu.
  assert (is_new_task w' = new) as Hnew by (unfold new, is_new_task; by rewrite S5).
  assert (∀ c, rq_window_start (rqs' c) = rq_window_start (m_rqs s c)) as Hws.
  { intros c. destruct (mv_rq _ _ _ _ _ _ Hmv c) as (_ & _ & -> & _).
    destruct (decide (cpu = c)) as [<-|]; [by rewrite fn_lookup_insert | by rewrite fn_lookup_insert_ne]. }
  assert (curr_window_cpu w' cpu = 0) as Hc1 by (rewrite Hc0; cbn; by rewrite fn_lookup_insert).
  assert (prev_window_cpu w' cpu = 0) as Hp1 by (rewrite Hp0; cbn; by rewrite fn_lookup_insert).
  cbn [m_rqs m_task m_out win set_win place grp flags]. rewrite app_nil_r.
  split; [|done]. split.
  - intros c Hcp. destruct (mv_rq _ _ _ _ _ _ Hmv c) as (_ & _ & E3 & E4 & _).
    destruct (mi_rq _ _ _ Hm c Hcp) as [(A1 & A2 & A3) A4].
    destruct (decide (cpu = c)) as [<-|Hne].
    + rewrite Hcpu. split; [split_and!; cbn; try done; lia|].
      revert A4. unfold subs_nonneg; cbn; by fold q.
    + rewrite fn_lookup_insert_ne in E3, E4 by done.
      split; [unfold rq_ok; rewrite E3, E4; done|].
      apply (mv_subs _ _ _ _ _ _ Hmv). by rewrite fn_lookup_insert_ne.
  - split; [exact (mv_nonneg _ _ _ _ _ _ Hmv Hn1)|]. cbn.
    destruct Hok as [(O1 & O2 & O3 & O4)|(O1 & O2 & O3)]; rewrite ?S1, ?S2; cbn [mark_start window_start w1 win_zero_prev win_zero_curr].
    + fold w in Hs. rewrite O2 in Hs. lia.
    + right. rewrite ?S1, ?S2. done.
  - intros gb n c x Hcp Hx. rewrite Hws in Hx.
    assert (∀ y, mshare att false n c (set_win w' t) y = nshare W n new w' c y) as Hsh.
    { intros y. unfold mshare, tshare, nshare, in_group; cbn. rewrite Hi, Hg, Hnew. cbn.
      by destruct n, new. }
    destruct gb.
    + (* the task has no group *)
      pose proof (mi_sum _ _ _ Hm true n c x Hcp Hx) as H3.
      assert (mshare att true n c (set_win w' t) x = 0) as ->.
      { unfold mshare, tshare, in_group; cbn. rewrite Hg. cbn. rewrite !orb_true_r. by case_match. }
      assert (0 ≤ mshare att true n c t x).
      { unfold mshare. case_match; [lia | by apply tshare_nonneg]. }
      destruct (mv_rq _ _ _ _ _ _ Hmv c) as (_ & E2 & E3 & _).
      unfold rsum, pend in *. rewrite E2, E3.
      destruct (decide (cpu = c)) as [<-|Hne];
        [rewrite fn_lookup_insert; cbn; fold q in H3; lia | rewrite fn_lookup_insert_ne by done; lia].
    + rewrite Hsh. destruct (decide (cpu = c)) as [<-|Hne].
      * pose proof (mi_sum _ _ _ Hm false n cpu x Hin Hx) as H3. fold q in H3.
        rewrite Hcpu. unfold rsum at 1. cbn [rq_time rq_window_start set_times q1].
        rewrite covers_sub by done.
        assert (nshare W n new w' cpu x = 0) as ->.
        { unfold nshare, byw. rewrite Hc1, Hp1. by repeat case_match. }
        assert (mshare att false n cpu t x = nshare W n new w cpu x) as Ht.
        { unfold mshare; cbn. by rewrite own_share_rq. }
        rewrite Ht in H3. unfold nshare in H3. fold w in Hs. rewrite Hs in H3.
        unfold rsum, pend in *. cbn in *. lia.
      * eapply (minv_moved_other att (m_rqs s) t _ w1); try done.
        -- by rewrite fn_lookup_insert_ne.
        -- unfold nshare; cbn. rewrite !fn_lookup_insert_ne by done. done.
Qed.

(** A new top-task table is not part of the balance. *)
Lemma minv_set_top att s tp : minv att (m_rqs s) (m_task s) →
  let s' := m_set_rq cpu (set_top tp (m_rqs s cpu)) s in
  minv att (m_rqs s') (m_task s').
Proof using Type.
  intros Hm. eapply minv_frame; [|done | exact Hm]. apply rq_same_insert. done.
Qed.

Lemma mshare_nogroup att n c t x : grp t = None → mshare att true n c t x = 0.
Proof using Type.
  intros Hg. unfold mshare, tshare, in_group. rewrite Hg. cbn. rewrite orb_true_r. by case_match.
Qed.
Lemma mshare_detached n c t x : mshare false true n c t x = 0.
Proof using Type. unfold mshare. by rewrite andb_false_r. Qed.

Lemma minv_detach att rqs t : grp t = None → minv att rqs t → ∀ att', minv att' rqs t.
Proof using Type.
  intros Hg [H1 H2 H3] att'. split; [done|done|]. intros gb n c x Hc Hx.
  specialize (H3 gb n c x Hc Hx). destruct gb; [|done]. rewrite mshare_nogroup in * by done. done.
Qed.

Lemma group_share att n t x g : walt_is_idle_task (flags t) = false → grp t = Some g → att = true →
  mshare att true n cpu t x
  = if n && negb (is_new_task (win t)) then 0
    else byw W (window_start (win t)) (curr_window (win t)) (prev_window (win t)) x.
Proof using Type.
  intros Hi Hg ->. unfold mshare, tshare, in_group. rewrite Z.eqb_refl, Hi, Hg. cbn.
  by rewrite orb_false_r.
Qed.

Lemma rq_share_group att n c t x g : grp t = Some g → mshare att false n c t x = 0.
Proof using Type.
  intros Hg. unfold mshare, tshare, in_group. rewrite Hg. cbn. by rewrite orb_true_r.
Qed.

Lemma group_share_other att n c t x : c ≠ cpu → mshare att true n c t x = 0.
Proof using Type. intros H. unfold mshare. by rewrite (proj2 (Z.eqb_neq c cpu) H). Qed.

Lemma minv_leave v s :
  tv_cpu v = cpu → cpu ∈ possible_cpus e → minv true (m_rqs s) (m_task s) →
  walt_is_idle_task (flags (m_task s)) = false →
  window_start (win (m_task s)) = rq_window_start (m_rqs s cpu) → (quiet (m_out s)) →
  let s' := leave_rq e v s in
  minv false (m_rqs s') (m_task s') ∧ quiet (m_out s') ∧ place (m_task s') = place (m_task s) ∧
  grp (m_task s') = grp (m_task s) ∧
  walt_is_idle_task (flags (m_task s')) = walt_is_idle_task (flags (m_task s)).
Proof using HW HR.
  intros Hv Hin Hm Hi Hs Hq. unfold leave_rq, check_window. rewrite Hv. cbv zeta.
  cbn [m_task m_rqs m_emit]. rewrite Hs, Z.eqb_refl. cbn [negb bug_if].
  set (s0 := m_emit [] s).
  assert (minv true (m_rqs s0) (m_task s0)) as Hm0 by done.
  assert (quiet (m_out s0)) as Hq0 by (cbn; by rewrite app_nil_r).
  destruct (grp (m_task s)) as [g|] eqn:Hg.
  - set (q := m_rqs s cpu).
    pose proof (grp_covers (m_rqs s) (m_task s) g Hin Hm Hi Hg Hs) as Hcov. fold q in Hcov.
    rewrite (group_checks_nil W _ _ _ _ HW Hcov).
    destruct (mi_rq _ _ _ Hm cpu Hin) as [(Hq1 & Hq2 & Hq3) Hq4].
    assert (∀ n x, rq_window_start q - W ≤ x → 0 ≤ wsum W n (rq_window_start q) (grp_time q) x) as Hnn.
    { intros n x Hx. exact (minv_nonneg_sums true (m_rqs s) (m_task s) cpu Hin Hm true n x Hx). }
    destruct (wsum_nonneg_all W _ _ HW Hnn) as (N1 & N2 & N3 & N4).
    rewrite group_subtraction_eq by done.
    set (g1 := sums_sub _ _ _ _).
    assert (minv false (<[cpu := set_times (rq_time q) g1 q]> (m_rqs s)) (m_task s)) as Hmid.
    { apply (minv_update_cpu true false (m_rqs s) (m_task s)); try done.
      - apply Hm.
      - intros gb n x Hx. unfold rsum, pend; cbn [rq_time grp_time rq_window_start load_subs set_times].
        fold q. destruct gb.
        + rewrite mshare_detached, (group_share true n _ x g) by done. unfold g1.
          rewrite covers_sub by done. rewrite Hs. fold q. lia.
        + rewrite !(rq_share_group _ n cpu _ x g) by done. lia.
      - intros gb n c x Hne Hcp. destruct gb.
        + rewrite mshare_detached, group_share_other by done. lia.
        + rewrite !(rq_share_group _ n c _ x g) by done. lia. }
    cbn [m_rqs m_task m_out m_emit m_set_rq check_group].
    split_and!; try done.
    + eapply (minv_set_top false (m_set_rq cpu _ s)). exact Hmid.
    + repeat apply quiet_app; try done; try constructor. by apply quiet_if.
  - destruct (enqueue_after_migration (place (m_task s)) =? 2).
    + destruct (minv_inter_cluster_subtraction true s0 Hin Hm0 Hi Hg Hs)
        as (M1 & M2 & _ & _ & _ & _ & M3 & M4 & M5 & M6 & M7).
      cbn [m_task m_emit s0] in M1, M2, M3, M4, M5, M6. 
      set (s1 := migrate_inter_cluster_subtraction _ _ _ _) in *.
      split_and!; cbn [m_task m_set_rq].
      * eapply minv_set_top, minv_detach; [|exact M1]. congruence.
      * cbn [m_out m_set_rq]. rewrite M2. done.
      * exact M4.
      * congruence.
      * by rewrite M6.
    + split_and!; try done. eapply minv_set_top, minv_detach; [done|exact Hm0].
Qed.

(** *** Joining the sums of the run queue *)

(** What joining or regrouping leaves alone. *)
Definition kept (s s' : mstate) : Prop :=
  grp (m_task s') = grp (m_task s) ∧
  walt_is_idle_task (flags (m_task s')) = walt_is_idle_task (flags (m_task s)) ∧
  window_start (win (m_task s')) = window_start (win (m_task s)) ∧
  is_new_task (win (m_task s')) = is_new_task (win (m_task s)) ∧
  rq_window_start (m_rqs s' cpu) = rq_window_start (m_rqs s cpu).

Lemma kept_refl s : kept s s.
Proof using Type. done. Qed.
Lemma kept_trans s s' s'' : kept s s' → kept s' s'' → kept s s''.
Proof using Type. unfold kept. intros; destruct_and!; split_and!; congruence. Qed.

Lemma win_place_ok w c : win_ok φ W w → win_ok φ W (win_place c w).
Proof using Type.
  intros [(Hc & H1 & H2) Hok]. split.
  - split_and!; try done. intros c'. cbn. rewrite !fn_at. specialize (Hc c'). case_match; lia.
  - destruct Hok as [(O1 & O2 & O3 & O4 & O5)|O]; [left|by right].
    split_and!; try done. split_and!; try done. intros c'. cbn. rewrite !fn_at. specialize (O3 c').
    case_match; lia.
Qed.

Lemma minv_inter_cluster_addition att s :
  cpu ∈ possible_cpus e → minv att (m_rqs s) (m_task s) →
  walt_is_idle_task (flags (m_task s)) = false → grp (m_task s) = None →
  window_start (win (m_task s)) = rq_window_start (m_rqs s cpu) →
  let s' := migrate_inter_cluster_addition cpu (is_new_task (win (m_task s))) s in
  minv att (m_rqs s') (m_task s').
Proof using HW HR.
  intros Hin Hm Hi Hg Hs. unfold migrate_inter_cluster_addition. cbv zeta.
  cbn [m_rqs m_task m_set_task m_set_rq].
  destruct (mi_rq _ _ _ Hm cpu Hin) as [(Hq1 & Hq2 & Hq3) Hq4].
  destruct (mi_win _ _ _ Hm) as [Hnn Hok].
  apply (minv_update_cpu att att (m_rqs s) (m_task s)); try done.
  - apply win_place_ok. apply Hm.
  - intros gb n x Hx. unfold rsum, pend; cbn [rq_time grp_time rq_window_start load_subs set_times].
    destruct gb; [rewrite !mshare_nogroup by done; lia|].
    rewrite wsum_add by done. unfold mshare; cbn [andb]. rewrite !own_share_rq by done.
    unfold nshare, is_new_task at 1; cbn. rewrite !fn_lookup_insert. fold (is_new_task (win (m_task s))).
    rewrite Hs. destruct (n && negb (is_new_task (win (m_task s)))); [lia|].
    destruct Hnn as (Hc & _). specialize (Hc cpu).
    pose proof (byw_nonneg W (rq_window_start (m_rqs s cpu)) (curr_window_cpu (win (m_task s)) cpu)
      (prev_window_cpu (win (m_task s)) cpu) x). lia.
  - intros gb n c x Hne Hcp. unfold mshare. case_match; [lia|].
    unfold tshare, in_group, is_new_task; cbn. rewrite !fn_lookup_insert_ne by congruence.
    destruct gb; lia.
Qed.

Lemma minv_join v s :
  tv_cpu v = cpu → cpu ∈ possible_cpus e → minv false (m_rqs s) (m_task s) →
  walt_is_idle_task (flags (m_task s)) = false →
  window_start (win (m_task s)) = rq_window_start (m_rqs s cpu) → quiet (m_out s) →
  let s' := join_rq e v s in
  minv true (m_rqs s') (m_task s') ∧ quiet (m_out s') ∧ kept s s' ∧
  place (m_task s') = place (m_task s).
Proof using HW HR.
  intros Hv Hin Hm Hi Hs Hq. unfold join_rq, check_window. rewrite Hv. cbv zeta.
  cbn [m_task m_rqs m_emit]. rewrite Hs, Z.eqb_refl. cbn [negb bug_if].
  set (s0 := m_emit [] s).
  assert (minv false (m_rqs s0) (m_task s0)) as Hm0 by done.
  assert (quiet (m_out s0)) as Hq0 by (cbn; by rewrite app_nil_r).
  destruct (grp (m_task s)) as [g|] eqn:Hg.
  - rewrite group_addition_eq. set (q := m_rqs s cpu). set (g1 := sums_add _ _ _ _).
    destruct (mi_rq _ _ _ Hm cpu Hin) as [(Hq1 & Hq2 & Hq3) Hq4].
    assert (minv true (<[cpu := set_times (rq_time q) g1 q]> (m_rqs s)) (m_task s)) as Hmid.
    { apply (minv_update_cpu false true (m_rqs s) (m_task s)); try done.
      - apply Hm.
      - intros gb n x Hx. unfold rsum, pend; cbn [rq_time grp_time rq_window_start load_subs set_times].
        fold q. destruct gb.
        + rewrite mshare_detached, (group_share true n _ x g) by done. unfold g1.
          rewrite wsum_add by done. rewrite Hs. fold q. lia.
        + rewrite !(rq_share_group _ n cpu _ x g) by done. lia.
      - intros gb n c x Hne Hcp. destruct gb.
        + rewrite !group_share_other by done. lia.
        + rewrite !(rq_share_group _ n c _ x g) by done. lia. }
    cbn [m_rqs m_task m_out m_emit m_set_rq check_group]. split_and!; try done.
    + eapply (minv_set_top true (m_set_rq cpu _ s)). exact Hmid.
    + repeat apply quiet_app; try done; try constructor. by apply quiet_if.
    + split_and!; try done. cbn. by rewrite !fn_lookup_insert.
  - destruct (enqueue_after_migration (place (m_task s)) =? 2).
    + pose proof (minv_inter_cluster_addition false s0 Hin Hm0 Hi Hg Hs) as Ha.
      split_and!; try done.
      * eapply minv_set_top, minv_detach; [|exact Ha]. done.
      * split_and!; try done. cbn. by rewrite !fn_lookup_insert.
    + split_and!; try done.
      * eapply minv_set_top, minv_detach; [done|exact Hm0].
      * split_and!; try done. cbn. by rewrite fn_lookup_insert.
Qed.

(** Marks, notifications and placement are not part of the balance either. *)
Lemma minv_addition v wc s :
  tv_cpu v = cpu → cpu ∈ possible_cpus e → tv_on_scx v = false →
  minv false (m_rqs s) (m_task s) → walt_is_idle_task (flags (m_task s)) = false →
  clock_ok W wc (m_rqs s cpu) (win (m_task s)) →
  mark_start (win (m_task s)) < wc ∨ window_start (win (m_task s)) = rq_window_start (m_rqs s cpu) →
  quiet (m_out s) →
  let s1 := m_ravg e v TASK_UPDATE wc 0 s in
  let s' := migrate_busy_time_addition e v wc s in
  minv true (m_rqs s') (m_task s') ∧ quiet (m_out s') ∧ kept s1 s'.
Proof using HW HR.
  intros Hv Hin Hscx Hm Hi Hcl Hsync Hq. cbv zeta. unfold migrate_busy_time_addition. rewrite Hv.
  destruct (minv_ravg v TASK_UPDATE wc 0 false s Hv Hin Hscx ltac:(lia) Hm Hcl) as (M1 & M2 & _ & M3).
  set (s1 := m_ravg e v TASK_UPDATE wc 0 s) in *.
  destruct (minv_join v s1 Hv Hin M1) as (J1 & J2 & J3 & J4).
  { by rewrite (re_idle _ _ _ _ _ _ _ _ M2). }
  { by apply (re_sync _ _ _ _ _ _ _ _ M2). }
  { auto. }
  set (s2 := join_rq e v s1) in *. clearbody s2 s1.
  set (s3 := if enqueue_after_migration (place (m_task s2)) =? 2 then _ else s2).
  assert (minv true (m_rqs s3) (m_task s3) ∧ quiet (m_out s3) ∧ kept s1 s3) as (K1 & K2 & K3).
  { unfold s3. case_match; [|done]. cbn [m_rqs m_task m_out m_emit m_set_rq]. split_and!.
    - eapply minv_frame; [|done | exact J1]. intros c.
      rewrite !fn_at_rq. zcases; subst; try done;
        match goal with H : cpu = _ |- _ => rewrite <- H end; done.
    - apply quiet_app; [done|]. repeat constructor.
    - destruct J3 as (? & ? & ? & ? & ?). split_and!; try done. cbn. rewrite fn_lookup_insert. cbn.
      rewrite fn_at_rq. zcases; [match goal with H : cpu = _ |- _ => rewrite <- H end|]; cbn; congruence. }
  clearbody s3.
  set (s4 := if is_ed_enabled e && _ then _ else s3).
  assert (minv true (m_rqs s4) (m_task s4) ∧ quiet (m_out s4) ∧ kept s1 s4) as (L1 & L2 & L3).
  { unfold s4. case_match; [|done]. cbn [m_rqs m_task m_out m_set_rq]. split_and!; try done.
    - eapply minv_frame; [|done | exact K1]. apply rq_same_insert. done.
    - destruct K3 as (? & ? & ? & ? & ?). split_and!; try done. cbn. by rewrite fn_lookup_insert. }
  clearbody s4. cbn [m_rqs m_task m_out m_set_task]. split_and!; try done.
  by apply (minv_frame true (m_rqs s4) (m_rqs s4) (m_task s4)).
Qed.

Lemma minv_settle v wc s :
  tv_cpu v = cpu → cpu ∈ possible_cpus e → tv_on_scx v = false →
  minv (enqueue_after_migration (place (m_task s)) =? 0) (m_rqs s) (m_task s) →
  walt_is_idle_task (flags (m_task s)) = false →
  (enqueue_after_migration (place (m_task s)) ≠ 0 →
   clock_ok W wc (m_rqs s cpu) (win (m_task s)) ∧
   (mark_start (win (m_task s)) < wc ∨ window_start (win (m_task s)) = rq_window_start (m_rqs s cpu))) →
  quiet (m_out s) →
  let s' := settle_migration e v wc s in
  minv true (m_rqs s') (m_task s') ∧ quiet (m_out s') ∧
  enqueue_after_migration (place (m_task s')) = 0 ∧
  (enqueue_after_migration (place (m_task s)) ≠ 0 → kept (m_ravg e v TASK_UPDATE wc 0 s) s') ∧
  (enqueue_after_migration (place (m_task s)) = 0 → s' = s).
Proof using HW HR.
  intros Hv Hin Hscx Hm Hi Hcl Hq. cbv zeta. unfold settle_migration.
  destruct (Z.eqb_spec (enqueue_after_migration (place (m_task s))) 0) as [Hz|Hz]; cbn [negb].
  - split_and!; done.
  - destruct (Hcl Hz) as [Hc1 Hc2].
    destruct (minv_addition v wc s Hv Hin Hscx Hm Hi Hc1 Hc2 Hq) as (A1 & A2 & A3).
    set (s1 := migrate_busy_time_addition e v wc s) in *. clearbody s1.
    cbn [m_rqs m_task m_out m_set_task]. split_and!; try done.
    by apply (minv_frame true (m_rqs s1) (m_rqs s1) (m_task s1)).
Qed.

(** *** Changing group *)
Lemma minv_rq_to_group v id s :
  tv_cpu v = cpu → cpu ∈ possible_cpus e → minv true (m_rqs s) (m_task s) →
  walt_is_idle_task (flags (m_task s)) = false → grp (m_task s) = None →
  window_start (win (m_task s)) = rq_window_start (m_rqs s cpu) → quiet (m_out s) →
  let s' := rq_to_group e v (is_new_task (win (m_task s))) s in
  minv true (m_rqs s') (set_grp (Some id) (m_task s')) ∧ quiet (m_out s') ∧
  place (m_task s') = place (m_task s).
Proof using HW HR.
  intros Hv Hin Hm Hi Hg Hs Hq. unfold rq_to_group. rewrite Hv. cbv zeta.
  set (t := m_task s) in *. set (w := win t) in *. set (q := m_rqs s cpu) in *. set (new := is_new_task w).
  pose proof (rq_covers true (m_rqs s) t Hin Hm Hi Hg Hs) as Hcov. fold w q new in Hcov.
  rewrite (covers_checks W _ _ _ _ _ HW Hcov).
  set (q1 := set_times _ _ _).
  destruct (mi_rq _ _ _ Hm cpu Hin) as [(Hq1 & Hq2 & Hq3) Hq4]. fold q in Hq1, Hq2, Hq3, Hq4.
  destruct (mi_win _ _ _ Hm) as [Hnn Hok]. fold t w in Hnn, Hok.
  cbn [m_rqs m_task m_out m_emit m_set_rq m_lastq_ws].
  destruct (update_cluster_load_subtractions _ _ _ _ _ _) as [rqs' w'] eqn:Hu.
  assert (rq_window_start q = window_start w) as Hqw by (fold w in Hs; congruence).
  rewrite Hqw in Hu.
  apply (cluster_subtractions_moved e W) in Hu as (Hmv & Hcpu & _ & _); try done.
  2:{ by rewrite fn_lookup_insert. }
  2:{ rewrite <- Hqw; lia. }
  destruct (mv_same _ _ _ _ _ _ Hmv) as (S1 & S2 & S3 & S4 & S5).
  rewrite fn_lookup_insert in Hcpu.
  assert (∀ c, c ≠ cpu → rq_window_start (rqs' c) = rq_window_start (m_rqs s c) ∧
             prev_window_size (rqs' c) = prev_window_size (m_rqs s c) ∧
             grp_time (rqs' c) = grp_time (m_rqs s c)) as Hws.
  { intros c Hne. destruct (mv_rq _ _ _ _ _ _ Hmv c) as (_ & -> & -> & -> & _).
    by rewrite fn_lookup_insert_ne. }
  cbn [m_rqs m_task m_out]. set (t' := set_grp _ _).
  assert (grp t' = Some id) as Hg' by done. assert (walt_is_idle_task (flags t') = false) as Hi' by done.
  assert (win t' = win_place cpu w') as Hw' by done.
  split; [split|split; [by rewrite app_nil_r | done]].
  - intros c Hcp. destruct (mi_rq _ _ _ Hm c Hcp) as [(A1 & A2 & A3) A4].
    rewrite fn_at_rq. destruct (Z.eqb_spec c cpu) as [->|Hne].
    + rewrite Hcpu. split; [split_and!; cbn; try done; lia|].
      revert A4. unfold subs_nonneg; cbn; by fold q.
    + destruct (Hws c Hne) as (E3 & E4 & _). split; [unfold rq_ok; rewrite E3, E4; done|].
      apply (mv_subs _ _ _ _ _ _ Hmv). by rewrite fn_lookup_insert_ne.
  - rewrite Hw'. apply win_place_ok. split; [exact (mv_nonneg _ _ _ _ _ _ Hmv Hnn)|].
    rewrite S1, S2. destruct Hok as [(O1 & O2 & O3)|O]; [|by right]. fold w in Hs. rewrite O2 in Hs. lia.
  - intros gb n c x Hcp. rewrite fn_at_rq. destruct (Z.eqb_spec c cpu) as [->|Hne].
    + rewrite Hcpu. intros Hx. cbn in Hx. fold q in Hx.
      pose proof (mi_sum _ _ _ Hm gb n cpu x Hin Hx) as H3. fold q t in H3.
      unfold rsum, pend in *; cbn [rq_time grp_time rq_window_start load_subs set_times q1].
      destruct gb.
      * rewrite (mshare_nogroup true n cpu t x Hg) in H3.
        rewrite (group_share true n t' x id Hi' Hg' eq_refl), Hw'.
        rewrite wsum_add by done. unfold is_new_task; cbn [active_time window_start curr_window prev_window win_place].
        rewrite S2, S3, S4, S5, <- Hqw. fold (is_new_task w). fold new. lia.
      * rewrite (rq_share_group true n cpu t' x id Hg'), covers_sub by done.
        assert (mshare true false n cpu t x = nshare W n new w cpu x) as Ht.
        { unfold mshare; cbn. by rewrite own_share_rq. }
        rewrite Ht in H3. unfold nshare in H3. rewrite <- Hqw in H3. lia.
    + intros Hx. destruct (Hws c Hne) as (E3 & E4 & E5). rewrite E3 in Hx.
      destruct gb.
      * rewrite group_share_other by done. pose proof (mi_sum _ _ _ Hm true n c x Hcp Hx) as H3.
        rewrite group_share_other in H3 by done. unfold rsum, pend in *. rewrite E3, E5. lia.
      * rewrite (rq_share_group true n c t' x id Hg').
        pose proof (minv_moved_other true (m_rqs s) t _ w rqs' w' n c x Hm Hi Hg Hmv) as Ho.
        specialize (Ho ltac:(by rewrite fn_lookup_insert_ne) Hnn eq_refl Hcp Hx).
        assert (0 ≤ nshare W n (is_new_task (win t)) w' c x); [|lia].
        unfold nshare. case_match; [lia|]. destruct (mv_nonneg _ _ _ _ _ _ Hmv Hnn) as (Hc & _).
        apply byw_nonneg; apply Hc.
Qed.

Lemma minv_group_to_rq v g s :
  tv_cpu v = cpu → cpu ∈ possible_cpus e → minv true (m_rqs s) (m_task s) →
  walt_is_idle_task (flags (m_task s)) = false → grp (m_task s) = Some g →
  window_start (win (m_task s)) = rq_window_start (m_rqs s cpu) → quiet (m_out s) →
  let s' := group_to_rq e v (is_new_task (win (m_task s))) s in
  minv true (m_rqs s') (set_grp None (m_task s')) ∧ quiet (m_out s') ∧
  place (m_task s') = place (m_task s).
Proof using HW HR.
  intros Hv Hin Hm Hi Hg Hs Hq. unfold group_to_rq. rewrite Hv. cbv zeta.
  pose proof (grp_covers (m_rqs s) (m_task s) g Hin Hm Hi Hg Hs) as Hcov.
  rewrite (covers_checks W _ _ _ _ _ HW Hcov).
  cbn [m_rqs m_task m_out m_emit m_set_rq m_set_task].
  destruct (mi_rq _ _ _ Hm cpu Hin) as [(Hq1 & Hq2 & Hq3) Hq4].
  destruct (mi_win _ _ _ Hm) as [Hnn Hok].
  set (t := m_task s) in *. set (w := win t) in *. set (q := m_rqs s cpu) in *.
  set (t' := set_grp None _). assert (grp t' = None) as Hg' by done.
  assert (win t' = win_place cpu (win_clear_cpus e w)) as Hw' by done.
  split; [|split; [by rewrite app_nil_r | done]].
  apply (minv_update_cpu true true (m_rqs s) t); try done.
  - rewrite Hw'. apply win_place_ok. destruct Hnn as (Hc & ? & ?). split.
    + split_and!; try done. intros c. cbn. specialize (Hc c). case_match; lia.
    + destruct Hok as [(O1 & O2 & O3)|O]; [|by right]. fold w in Hs. rewrite O2 in Hs. lia.
  - intros gb n x Hx. unfold rsum, pend; cbn [rq_time grp_time rq_window_start load_subs set_times]. fold q.
    destruct gb.
    + rewrite (mshare_nogroup true n cpu t' x Hg'), (group_share true n t x g Hi Hg eq_refl).
      rewrite covers_sub by done. fold w. fold w in Hs. rewrite Hs. fold q. lia.
    + rewrite (rq_share_group true n cpu t x g Hg), wsum_add by done.
      unfold mshare; cbn [andb]. rewrite (own_share_rq t' n x) by done.
      rewrite Hw'. unfold nshare, is_new_task; cbn. rewrite !fn_lookup_insert.
      fold w in Hs. rewrite Hs. fold q. destruct (n && _); lia.
  - intros gb n c x Hne Hcp. destruct gb.
    + rewrite !group_share_other by done. lia.
    + rewrite (rq_share_group true n c t x g Hg). unfold mshare, tshare; cbn [andb]. rewrite Hw'. cbn.
      rewrite !fn_lookup_insert_ne by congruence. rewrite bool_decide_true by done.
      case_match; [lia|]. unfold byw. repeat case_match; lia.
Qed.

(** [transfer_busy_time], joining or leaving a group.  A pending migration is
    settled first, with a clock of its own; while the task is new both clocks are
    read in one window, because the code asks only once whether it is new. *)
Definition same_window (a b : Z) : Prop :=
  ∀ x, on_grid φ W x → x ≤ a < x + W → b < x + W.
Definition settle_clock (wc wc2 : Z) (w : task_window) : Prop :=
  wc ≤ wc2 < 2 ^ 64 ∧ wc2 - wc ≤ (2 ^ 31 - 1) * W ∧ (is_new_task w = true → same_window wc wc2).

Lemma win_ok_at w wc : win_ok φ W w → mark_start w = wc → 0 < wc →
  on_grid φ W (window_start w) ∧ window_start w ≤ wc < window_start w + W.
Proof using Type. intros [_ [(H & _)|(_ & H1 & H2)]] Hm Hp; [lia|]. rewrite <- Hm. done. Qed.

Lemma minv_transfer v (id : option Z) wc wc2 s :
  tv_cpu v = cpu → cpu ∈ possible_cpus e → tv_on_scx v = false →
  minv (enqueue_after_migration (place (m_task s)) =? 0) (m_rqs s) (m_task s) →
  walt_is_idle_task (flags (m_task s)) = false → (is_Some id ↔ grp (m_task s) = None) →
  clock_ok W wc (m_rqs s cpu) (win (m_task s)) →
  mark_start (win (m_task s)) < wc ∨ window_start (win (m_task s)) = rq_window_start (m_rqs s cpu) →
  (enqueue_after_migration (place (m_task s)) ≠ 0 → settle_clock wc wc2 (win (m_task s))) → quiet (m_out s) →
  let s' := transfer_busy_time e v (bool_decide (is_Some id)) wc wc2 s in
  minv true (m_rqs s') (set_grp id (m_task s')) ∧ quiet (m_out s') ∧
  enqueue_after_migration (place (m_task s')) = 0.
Proof using HW HR.
  intros Hv Hin Hscx Hm Hi Hid Hcl Hsync Hset Hq. cbv zeta. unfold transfer_busy_time.
  destruct (minv_ravg v TASK_UPDATE wc 0 _ s Hv Hin Hscx ltac:(lia) Hm Hcl) as (M1 & M2 & _ & M3).
  set (s1 := m_ravg e v TASK_UPDATE wc 0 s) in *. clearbody s1.
  pose proof (re_sync _ _ _ _ _ _ _ _ M2 Hsync) as Hs1.
  unfold check_window. rewrite Hv, Hs1, Z.eqb_refl. cbn [negb bug_if].
  set (s1' := m_emit [] s1).
  assert (quiet (m_out s1')) as Hq1 by (cbn; rewrite app_nil_r; auto).
  assert (enqueue_after_migration (place (m_task s1')) = enqueue_after_migration (place (m_task s))) as Heam.
  { cbn. by rewrite (re_place _ _ _ _ _ _ _ _ M2). }
  assert (0 < wc) as Hpos.
  { pose proof (re_ws _ _ _ _ _ _ _ _ M2). destruct (re_rq _ _ _ _ _ _ _ _ M2) as (_ & ? & _). lia. }
  destruct (win_ok_at _ wc (re_win _ _ _ _ _ _ _ _ M2) (re_mark _ _ _ _ _ _ _ _ M2) Hpos) as [Hgr Hin1].
  assert (enqueue_after_migration (place (m_task s)) ≠ 0 → clock_ok W wc2 (m_rqs s1' cpu) (win (m_task s1'))) as Hcl2.
  { intros (Hw2 & Hgap & _)%Hset. pose proof (re_ws _ _ _ _ _ _ _ _ M2). pose proof (re_latest _ _ _ _ _ _ _ _ M2).
    pose proof (re_mark _ _ _ _ _ _ _ _ M2). unfold clock_ok; cbn. rewrite <- Hs1 in *. nia. }
  destruct (minv_settle v wc2 s1' Hv Hin Hscx) as (T1 & T2 & T3 & T4 & T5); try done.
  { by rewrite Heam. }
  { cbn. by rewrite (re_idle _ _ _ _ _ _ _ _ M2). }
  { intros Hz. rewrite Heam in Hz. split; [by apply Hcl2|]. right. exact Hs1. }
  set (s2 := settle_migration e v wc2 s1') in *.
  assert (grp (m_task s2) = grp (m_task s1) ∧ walt_is_idle_task (flags (m_task s2)) = walt_is_idle_task (flags (m_task s1)) ∧
    is_new_task (win (m_task s2)) = is_new_task (win (m_task s1)) ∧
    window_start (win (m_task s2)) = rq_window_start (m_rqs s2 cpu)) as (K1 & K2 & K4 & Hs2).
  { destruct (decide (enqueue_after_migration (place (m_task s1')) = 0)) as [Hz|Hz].
    - rewrite (T5 Hz). done.
    - rewrite Heam in Hz. specialize (Hcl2 Hz). destruct (Hset Hz) as (Hw2 & _ & Hsame).
      destruct (minv_ravg v TASK_UPDATE wc2 0 _ s1' Hv Hin Hscx ltac:(lia) M1 Hcl2) as (N1 & N2 & _ & _).
      rewrite <- Heam in Hz. specialize (T4 Hz). set (s3 := m_ravg e v TASK_UPDATE wc2 0 s1') in *. clearbody s3 s2.
      destruct T4 as (K1 & K2 & K3 & K4 & K5).
      pose proof (re_sync _ _ _ _ _ _ _ _ N2 ltac:(right; exact Hs1)) as Hs3.
      split_and!; [rewrite K1; apply N2 | rewrite K2; apply N2 | rewrite K4 | congruence].
      destruct (is_new_task (win (m_task s1))) eqn:Hnew.
      + pose proof (Hsame (re_new _ _ _ _ _ _ _ _ M2 Hnew) _ Hgr Hin1) as Hb. rewrite <- Hnew.
        apply (re_new_same _ _ _ _ _ _ _ _ N2). cbn. rewrite <- Hs3.
        destruct (win_ok_at _ wc2 (re_win _ _ _ _ _ _ _ _ N2) (re_mark _ _ _ _ _ _ _ _ N2) ltac:(lia)) as [Hgr3 Hin3].
        destruct (Z.lt_trichotomy (window_start (win (m_task s3))) (window_start (win (m_task s1)))) as [Hl|[Hl|Hl]];
          [|done|]; [pose proof (grid_lt φ W _ _ HW Hgr3 Hgr Hl) | pose proof (grid_lt φ W _ _ HW Hgr Hgr3 Hl)]; lia.
      + apply not_true_is_false. intros Hn. apply (re_new _ _ _ _ _ _ _ _ N2) in Hn. cbn in Hn. congruence. }
  clearbody s2. cbn [m_task m_emit s1'].
  assert (grp (m_task s2) = grp (m_task s)) as Hg2 by (rewrite K1; apply M2).
  assert (walt_is_idle_task (flags (m_task s2)) = false) as Hi2 by (rewrite K2, (re_idle _ _ _ _ _ _ _ _ M2); done).
  rewrite <- K4. destruct id as [i|].
  - rewrite bool_decide_true by eauto.
    destruct (minv_rq_to_group v i s2) as (A1 & A2 & A3); try done.
    { rewrite Hg2. apply Hid. eauto. }
    split_and!; try done. by rewrite A3.
  - rewrite bool_decide_false by (by intros [? ?]).
    destruct (grp (m_task s)) as [g|] eqn:Hg; [|by destruct (proj2 Hid eq_refl)].
    destruct (minv_group_to_rq v g s2) as (A1 & A2 & A3); done.
Qed.

(** *** Leaving a CPU *)
Lemma minv_subtraction v on_rq dst wc cyc s :
  tv_cpu v = cpu → cpu ∈ possible_cpus e → tv_on_scx v = false →
  minv (enqueue_after_migration (place (m_task s)) =? 0) (m_rqs s) (m_task s) →
  walt_is_idle_task (flags (m_task s)) = false →
  clock_ok W wc (m_rqs s cpu) (win (m_task s)) →
  mark_start (win (m_task s)) < wc ∨ window_start (win (m_task s)) = rq_window_start (m_rqs s cpu) →
  on_rq = true ∨ tv_state v = TASK_WAKING → quiet (m_out s) →
  let s' := migrate_busy_time_subtraction e v on_rq dst wc cyc s in
  minv false (m_rqs s') (m_task s') ∧ quiet (m_out s') ∧
  enqueue_after_migration (place (m_task s')) ≠ 0.
Proof using HW HR.
  intros Hv Hin Hscx Hm Hi Hcl Hsync Hst Hq. cbv zeta. unfold migrate_busy_time_subtraction.
  assert (negb on_rq && negb (tv_state v =? TASK_WAKING) = false) as ->.
  { destruct Hst as [->| ->]; [done|]. by rewrite Z.eqb_refl, andb_false_r. }
  set (eam := if negb (same_freq_domain e (tv_cpu v) dst) then 2 else 1).
  assert (eam ≠ 0) as Hnz by (unfold eam; case_match; lia). clearbody eam.
  set (att := enqueue_after_migration (place (m_task s)) =? 0) in *. clearbody att.
  set (s0 := m_set_task (set_place _ (m_task s)) s).
  assert (minv att (m_rqs s0) (m_task s0)) as Hm0.
  { by apply (minv_frame att (m_rqs s) (m_rqs s) (m_task s)). }
  destruct (minv_ravg v TASK_MIGRATE wc 0 att s0 Hv Hin Hscx ltac:(lia) Hm0 Hcl) as (M1 & M2 & _ & M3).
  set (s1 := m_ravg e v TASK_MIGRATE wc 0 s0) in *. clearbody s1.
  pose proof (re_sync _ _ _ _ _ _ _ _ M2 Hsync) as Hs1.
  set (s2 := m_set_task (set_cpu_cycles cyc (m_task s1)) s1).
  assert (minv att (m_rqs s2) (m_task s2)) as Hm2.
  { by apply (minv_frame att (m_rqs s1) (m_rqs s1) (m_task s1)). }
  assert (walt_is_idle_task (flags (m_task s2)) = false) as Hi2.
  { cbn. by rewrite (re_idle _ _ _ _ _ _ _ _ M2). }
  assert (enqueue_after_migration (place (m_task s2)) = eam) as He2.
  { cbn. by rewrite (re_place _ _ _ _ _ _ _ _ M2). }
  set (s3 := if negb att then s2 else leave_rq e v s2).
  assert (minv false (m_rqs s3) (m_task s3) ∧ quiet (m_out s3) ∧
          place (m_task s3) = place (m_task s2)) as (A1 & A2 & A3).
  { unfold s3. destruct att; cbn [negb].
    - destruct (minv_leave v s2 Hv Hin Hm2 Hi2) as (B1 & B2 & B3 & _); [exact Hs1 | by apply M3 | done].
    - split_and!; try done. by apply M3. }
  clearbody s3. rewrite Hv. cbv zeta.
  set (s4 := if is_ed_enabled e && _ then _ else s3).
  assert (minv false (m_rqs s4) (m_task s4) ∧ quiet (m_out s4) ∧ m_task s4 = m_task s3) as (B1 & B2 & B3).
  { unfold s4. case_match; [|done]. cbn [m_rqs m_task m_out m_set_rq]. split_and!; try done.
    eapply minv_frame; [|done | exact A1]. by apply rq_same_insert. }
  clearbody s4. cbn [m_rqs m_task m_out m_set_task]. split_and!.
  - by apply (minv_frame false (m_rqs s4) (m_rqs s4) (m_task s4)).
  - done.
  - cbn. by rewrite B3, A3, He2.
Qed.
End task.
