(* ===== verification/WaltSystem.v ===== *)
(** * WALT: the whole system

    Every run queue and every task with its CPU, and the hook calls as operations
    on them ([run_op]); [op_ok] is what the kernel guarantees when it makes a
    call.  The main theorem: in every state the operations reach from the start of
    WALT, the busy-time sums of every CPU cover what its tasks have in them, and
    no operation fails one of the window and busy-time checks of the code, each of
    which would otherwise panic the kernel. *)

From S2P Require Import Prelude.
From S2P Require Import WaltData WaltDemand WaltTop WaltWindow WaltBusy WaltMigrate WaltHooks WaltInv.

(** A task: its CPU, its statistics, and what the kernel has done with it: whether it
    is queued, whether it was a fair task when it was queued, and the last of its
    queueing calls since WALT started: an enqueue ([Some true]), a dequeue or none. *)
Record ktask := mk_kt {
  kt_cpu : Z;
  kt_wts : walt_task_struct;
  kt_queued : bool;
  kt_fair : bool;
  kt_told : option bool;
}.

Definition kt_keep (k : ktask) : ktask := k.
Definition kt_move (dst : Z) (k : ktask) : ktask := mk_kt dst (kt_wts k) (kt_queued k) (kt_fair k) (kt_told k).
Definition kt_queue (q fair : bool) (k : ktask) : ktask := mk_kt (kt_cpu k) (kt_wts k) q fair (Some q).

Record system := mk_sys {
  sys_rqs : Z → walt_rq;
  sys_tasks : gmap Z ktask;
  sys_lastq_ws : Z;
  sys_out : list walt_out;
}.

(** ** The start of WALT and of a task *)

(** [init_new_task_load]: [t0] is what the memory held before, [pct] the parent's
    [init_load_pct], [windows]/[scaled] the default initial load. *)
Definition init_new_task_load (e : walt_env) (pct windows scaled this_cpu : Z) (t0 : walt_task_struct)
    : walt_task_struct :=
  let windows' := if negb (pct =? 0) then u32 (pct * sched_ravg_window e / 100) else windows in
  let scaled' := if negb (pct =? 0) then u32 (scale_time_to_util e windows') else scaled in
  let d0 := dem t0 in
  let fl := walt_flag_set (walt_flag_set (walt_flag_set (flags t0) WALT_INIT_BIT true)
                             WALT_TRAILBLAZER_BIT false) WALT_GIANT_BIT false in
  mk_wts fl
    (mk_task_window 0 0 0 0 (λ _, 0) (λ _, 0) 0)
    (mk_task_demand 0 windows' windows' (replicate (Z.to_nat RAVG_HIST_SIZE) windows')
       (sum_history_util d0) 0 (replicate (Z.to_nat NUM_BUSY_BUCKETS) 0) 0 (u16 scaled') 0
       (sysctl_sched_task_unfilter_period e) 0 0)
    (mk_task_pipe (-1) 0 0 false 0 0 0 0)
    (mk_task_place this_cpu (-1) 0 0 (-1) (last_enqueued_ts (place t0)) (last_wake_ts (place t0))
       false false)
    None 0 0 0 false.

(** [walt_sched_init_rq], and [walt_init_stop_handler] starting the window. *)
Definition walt_sched_init_rq (e : walt_env) (tick_sched_clock : Z) (q0 : walt_rq) : walt_rq :=
  let z := mk_group_cpu_time 0 0 0 0 in
  mk_walt_rq (mk_walt_sched_stats 0 0 0 0 0 0) tick_sched_clock (sched_ravg_window e)
    (latest_clock q0) z z (mk_load_subtractions 0 0 0, mk_load_subtractions 0 0 0)
    (mk_top_state (λ _, clear_top_tasks_table) (λ _, clear_top_tasks_bitmap) false 0 0)
    1024 0 0 0 false (enqueue_counter q0) None
    (mk_rq_gov 0 0 0 1024 (big_task_pid (gov q0))).

(** ** Operations *)
Inductive walt_op :=
  | OpUpdate (id : Z) (v : task_view) (event : task_event) (wallclock irqtime : Z)
  | OpIrqStart (id : Z) (v : task_view) (wallclock : Z)
  | OpMigrate (id : Z) (v : task_view) (on_rq : bool) (dst wallclock cycles : Z)
  | OpEnqueue (id : Z) (v : task_view) (x : enq_view)
  | OpDequeue (id : Z) (v : task_view) (x : deq_view)
  | OpJoinGroup (id : Z) (v : task_view) (g wallclock wallclock2 : Z)
  | OpLeaveGroup (id : Z) (v : task_view) (wallclock wallclock2 : Z)
  | OpAccount (cpu : Z)
  | OpFork (id cpu this_cpu pct windows scaled : Z) (g : option Z) (t0 : walt_task_struct)
  | OpExit (id : Z)
  | OpMisfit (id : Z) (v : task_view) (fits : bool) (util : Z)
  | OpSwitchScx (id : Z).

(** [f] on the task's statistics, [ku] on what the kernel knows of it. *)
Definition with_task (id : Z) (f : mstate → mstate) (ku : ktask → ktask) (s : system) : system :=
  match sys_tasks s !! id with
  | None => s
  | Some k =>
    let m := f (mk_ms (sys_rqs s) (kt_wts k) (sys_lastq_ws s) (sys_out s)) in
    mk_sys (m_rqs m)
      (<[id := mk_kt (kt_cpu (ku k)) (m_task m) (kt_queued (ku k)) (kt_fair (ku k)) (kt_told (ku k))]> (sys_tasks s))
      (m_lastq_ws m) (m_out m)
  end.

Definition irq_start (e : walt_env) (v : task_view) (wallclock : Z) (s : mstate) : mstate :=
  let q := m_rqs s (tv_cpu v) in
  if rq_window_start q =? 0 then s else
  let '(q, t) := update_task_cpu_cycles e v wallclock q (m_task s) in
  m_set_task t (m_set_rq (tv_cpu v) q s).

(** The call queues the task: it is not of the extensible class, nor moved while its
    dequeue is delayed. *)
Definition enqueue_seen (v : task_view) (x : enq_view) : bool :=
  negb (tv_on_scx v) && negb (en_sched_delayed x && negb (en_flag_delayed x)).

Definition run_op (e : walt_env) (op : walt_op) (s : system) : system :=
  match op with
  | OpUpdate id v ev wc irq => with_task id (m_ravg e v ev wc irq) kt_keep s
  | OpIrqStart id v wc => with_task id (irq_start e v wc) kt_keep s
  | OpMigrate id v on_rq dst wc cyc =>
    with_task id (if tv_on_scx v then λ m, m
                  else migrate_busy_time_subtraction e v on_rq dst wc cyc) (kt_move dst) s
  | OpEnqueue id v x =>
    with_task id (android_rvh_enqueue_task e v x)
      (λ k, if enqueue_seen v x then kt_queue true (tv_fair v) k else k) s
  | OpDequeue id v x =>
    with_task id (android_rvh_dequeue_task e v x)
      (λ k, if tv_on_scx v then k else kt_queue false (kt_fair k) k) s
  | OpJoinGroup id v g wc wc2 => with_task id (add_task_to_group e v g wc wc2) kt_keep s
  | OpLeaveGroup id v wc wc2 => with_task id (remove_task_from_group e v wc wc2) kt_keep s
  | OpAccount cpu =>
    let '(q, o) := account_load_subtractions (sys_rqs s cpu) in
    mk_sys (<[cpu := q]> (sys_rqs s)) (sys_tasks s) (sys_lastq_ws s) (sys_out s ++ o)
  | OpFork id cpu this_cpu pct windows scaled g t0 =>
    mk_sys (sys_rqs s)
      (<[id := mk_kt cpu (set_grp g (init_new_task_load e pct windows scaled this_cpu t0)) false false None]>
         (sys_tasks s)) (sys_lastq_ws s) (sys_out s)
  | OpExit id => mk_sys (sys_rqs s) (delete id (sys_tasks s)) (sys_lastq_ws s) (sys_out s)
  | OpMisfit id v fits util =>
    with_task id (android_rvh_update_misfit_status v fits util) kt_keep s
  | OpSwitchScx id => with_task id android_vh_switching_to_scx kt_keep s
  end.

(** [walt_init_stop_handler]: every task, the idle tasks marked as such, and every
    run queue initialised, all windows at the same tick. *)
Definition walt_init_stop_handler (e : walt_env) (tick this_cpu : Z) (rqs0 : Z → walt_rq)
    (tasks0 idle0 : gmap Z ktask) : system :=
  let init t := init_new_task_load e 0 0 0 this_cpu t in
  mk_sys (λ c, walt_sched_init_rq e tick (rqs0 c))
    (((λ k, let t := init (kt_wts k) in
            mk_kt (kt_cpu k) (set_dem (walt_flag_set (flags t) WALT_IDLE_TASK_BIT true) (dem t) t)
              (kt_queued k) (kt_fair k) None) <$> idle0) ∪
     ((λ k, mk_kt (kt_cpu k) (init (kt_wts k)) (kt_queued k) (kt_fair k) None) <$> tasks0)) tick [].

(** ** What the calls are assumed to meet

    The kernel guarantees that a call is about a task on its own CPU and of the right
    class, that clocks do not run backwards and that no run queue is idle for 2^31
    windows.  Two premises are more than it guarantees, and without them checks do
    fail (WaltCases): a migration, the enqueue after it and a group change need a
    clock past the task's last event when the run queue is in another window
    ([clock_moved]), and a group change of a new task with a pending migration
    reads its two clocks in one window ([settle_moved]). *)
Section ok.
Context (e : walt_env) (φ : Z).
Local Notation W := (sched_ravg_window e).

(** The call is about task [k] on its own run queue. *)
Definition on_task (s : system) (id : Z) (v : task_view) (P : ktask → Prop) : Prop :=
  ∃ k, sys_tasks s !! id = Some k ∧ tv_cpu v = kt_cpu k ∧ P k.

(** The clock is behind nothing; and it has moved since the task's last event, unless
    the task and the run queue are in the same window. *)
Definition clock_moved (s : system) (wc : Z) (k : ktask) : Prop :=
  clock_ok W wc (sys_rqs s (kt_cpu k)) (win (kt_wts k)) ∧
  (mark_start (win (kt_wts k)) < wc ∨ window_start (win (kt_wts k)) = rq_window_start (sys_rqs s (kt_cpu k))).

(** The second clock of a group change, which is read when a migration is pending. *)
Definition settle_moved (wc wc2 : Z) (k : ktask) : Prop :=
  enqueue_after_migration (place (kt_wts k)) ≠ 0 → settle_clock e φ wc wc2 (win (kt_wts k)).

Definition op_ok (op : walt_op) (s : system) : Prop :=
  match op with
  | OpUpdate id v ev wc irq =>
    on_task s id v (λ k, tv_on_scx v = false →
      0 ≤ irq ∧ clock_ok W wc (sys_rqs s (kt_cpu k)) (win (kt_wts k)))
  | OpIrqStart id v wc => on_task s id v (λ k, True)
  | OpMigrate id v on_rq dst wc cyc =>
    dst ∈ possible_cpus e ∧
    on_task s id v (λ k, tv_on_scx v = false ∧ walt_is_idle_task (flags (kt_wts k)) = false ∧
      clock_moved s wc k ∧ (on_rq = true ∨ tv_state v = TASK_WAKING))
  | OpEnqueue id v x =>
    on_task s id v (λ k, tv_on_scx v = false → walt_is_idle_task (flags (kt_wts k)) = false ∧
      (enqueue_after_migration (place (kt_wts k)) ≠ 0 → clock_moved s (en_clock x) k))
  | OpDequeue id v x => on_task s id v (λ k, True)
  | OpJoinGroup id v g wc wc2 =>
    on_task s id v (λ k, tv_on_scx v = false ∧ walt_is_idle_task (flags (kt_wts k)) = false ∧
      grp (kt_wts k) = None ∧ clock_moved s wc k ∧ settle_moved wc wc2 k)
  | OpLeaveGroup id v wc wc2 =>
    on_task s id v (λ k, tv_on_scx v = false ∧ walt_is_idle_task (flags (kt_wts k)) = false ∧
      is_Some (grp (kt_wts k)) ∧ clock_moved s wc k ∧ settle_moved wc wc2 k)
  | OpAccount cpu => cpu ∈ possible_cpus e
  | OpFork id cpu _ _ _ _ _ _ => sys_tasks s !! id = None ∧ cpu ∈ possible_cpus e
  | OpExit id => True
  | OpMisfit id v _ _ => on_task s id v (λ k, True)
  | OpSwitchScx id => True
  end.

Inductive reachable (s0 : system) : system → Prop :=
  | reach_start : reachable s0 s0
  | reach_step s op : reachable s0 s → op_ok op s → reachable s0 (run_op e op s).
End ok.

(** ** Sums over the tasks *)
Definition tsum (f : ktask → Z) (m : gmap Z ktask) : Z := map_fold (λ _ k acc, f k + acc) 0 m.

Lemma tsum_empty f : tsum f ∅ = 0.
Proof. unfold tsum. by rewrite map_fold_empty. Qed.
Lemma tsum_insert f m i k : m !! i = None → tsum f (<[i := k]> m) = f k + tsum f m.
Proof. intros. unfold tsum. rewrite map_fold_insert_L; [done | intros; lia | done]. Qed.
Lemma tsum_delete f m i k : m !! i = Some k → tsum f m = f k + tsum f (delete i m).
Proof. intros. unfold tsum. rewrite (map_fold_delete_L _ _ i k m); [done | intros; lia | done]. Qed.
Lemma tsum_update f m i k : tsum f (<[i := k]> m) = f k + tsum f (delete i m).
Proof. rewrite <- insert_delete_eq. apply tsum_insert, lookup_delete_eq. Qed.
Lemma tsum_nonneg f m : (∀ i k, m !! i = Some k → 0 ≤ f k) → 0 ≤ tsum f m.
Proof.
  induction m as [|i k m Hm IH] using map_ind; intros Hf; [by rewrite tsum_empty|].
  rewrite tsum_insert by done. pose proof (Hf i k (lookup_insert_eq _ _ _)).
  assert (0 ≤ tsum f m); [|lia]. apply IH. intros j k' Hj. apply (Hf j).
  rewrite lookup_insert_ne; [done|]. intros ->. congruence.
Qed.
Lemma tsum_zero f m : (∀ i k, m !! i = Some k → f k = 0) → tsum f m = 0.
Proof.
  induction m as [|i k m Hm IH] using map_ind; intros Hf; [by rewrite tsum_empty|].
  rewrite tsum_insert by done. rewrite (Hf i k (lookup_insert_eq _ _ _)), IH; [done|].
  intros j k' Hj. apply (Hf j). rewrite lookup_insert_ne; [done|]. intros ->. congruence.
Qed.

(** ** The balance of the system *)
Section balance.
Context (e : walt_env) (φ : Z).
Local Notation W := (sched_ravg_window e).
Context (HW : 0 < W).

Definition attached (k : ktask) : bool := enqueue_after_migration (place (kt_wts k)) =? 0.

(** What task [k] has in the sums of CPU [c] for window [x]. *)
Definition share (gb n : bool) (c x : Z) (k : ktask) : Z :=
  mshare e (kt_cpu k) (attached k) gb n c (kt_wts k) x.

Record busy_inv (s : system) : Prop := mk_busy_inv {
  bi_rq c : c ∈ possible_cpus e → rq_ok φ W (sys_rqs s c) ∧ subs_nonneg (sys_rqs s c);
  bi_task id k : sys_tasks s !! id = Some k → win_ok φ W (win (kt_wts k)) ∧ kt_cpu k ∈ possible_cpus e;
  bi_sum gb n c x : c ∈ possible_cpus e → rq_window_start (sys_rqs s c) - W ≤ x →
    tsum (share gb n c x) (sys_tasks s) + pend gb n (sys_rqs s c) x ≤ rsum W gb n (sys_rqs s c) x;
}.

Lemma share_nonneg gb n c x k : win_nonneg (win (kt_wts k)) → 0 ≤ share gb n c x k.
Proof using Type.
  intros. unfold share, mshare. case_match; [lia | by apply tshare_nonneg].
Qed.

(** The other tasks. *)
Definition rest (s : system) (id : Z) (gb n : bool) (c x : Z) : Z :=
  tsum (share gb n c x) (delete id (sys_tasks s)).

Lemma rest_nonneg s id gb n c x : busy_inv s → 0 ≤ rest s id gb n c x.
Proof using Type.
  intros Hi. apply tsum_nonneg. intros j k [_ Hj]%lookup_delete_Some.
  apply share_nonneg. by destruct (bi_task s Hi j k Hj) as [[? _] _].
Qed.

Lemma busy_to_minv s id k : busy_inv s → sys_tasks s !! id = Some k →
  minv e φ (rest s id) (kt_cpu k) (attached k) (sys_rqs s) (kt_wts k).
Proof using Type.
  intros Hi Hk. split; [by apply Hi | by apply (bi_task s Hi id k)|].
  intros gb n c x Hc Hx. pose proof (bi_sum s Hi gb n c x Hc Hx) as H.
  rewrite (tsum_delete _ _ id k Hk) in H. unfold rest. unfold share at 1 in H. lia.
Qed.

Lemma minv_to_busy s id k m dst qd fr tl att :
  busy_inv s → sys_tasks s !! id = Some k → dst ∈ possible_cpus e →
  minv e φ (rest s id) (kt_cpu k) att (m_rqs m) (m_task m) →
  (att = (enqueue_after_migration (place (m_task m)) =? 0) ∧ dst = kt_cpu k ∨
   att = false ∧ enqueue_after_migration (place (m_task m)) ≠ 0) →
  busy_inv (mk_sys (m_rqs m) (<[id := mk_kt dst (m_task m) qd fr tl]> (sys_tasks s)) (m_lastq_ws m) (m_out m)).
Proof using Type.
  intros Hi Hk Hd [M1 M2 M3] Hatt. split; cbn.
  - done.
  - intros j k' Hj. destruct (decide (j = id)) as [->|].
    + rewrite lookup_insert_eq in Hj. injection Hj as <-. done.
    + rewrite lookup_insert_ne in Hj by done. by apply (bi_task s Hi j).
  - intros gb n c x Hc Hx. specialize (M3 gb n c x Hc Hx). rewrite tsum_update. fold (rest s id gb n c x).
    assert (share gb n c x (mk_kt dst (m_task m) qd fr tl) = mshare e (kt_cpu k) att gb n c (m_task m) x) as ->; [|lia].
    unfold share, attached, mshare; cbn. destruct Hatt as [[-> ->]|[-> Hz]]; [done|].
    rewrite (proj2 (Z.eqb_neq _ _) Hz), !andb_false_r. by destruct gb.
Qed.
End balance.

(** ** What the hooks do besides moving busy time *)
Definition fr (s s' : mstate) : Prop :=
  (∀ c, rq_same (m_rqs s c) (m_rqs s' c)) ∧ task_same (m_task s) (m_task s') ∧
  enqueue_after_migration (place (m_task s')) = enqueue_after_migration (place (m_task s)) ∧
  (quiet (m_out s) → quiet (m_out s')).

Lemma fr_refl s : fr s s.
Proof. done. Qed.
Lemma fr_trans s s' s'' : fr s s' → fr s' s'' → fr s s''.
Proof.
  intros (A & (B1 & B2 & B3) & C & D) (A' & (B1' & B2' & B3') & C' & D').
  split_and!; try congruence; auto.
  - intros c. specialize (A c). specialize (A' c). unfold rq_same in *. destruct_and!. split_and!; congruence.
  - split_and!; congruence.
Qed.
Lemma fr_emit o s : quiet o → fr s (m_emit o s).
Proof. intros. split_and!; try done. cbn. auto with walt. Qed.
Lemma fr_rq c q s : rq_same (m_rqs s c) q → fr s (m_set_rq c q s).
Proof. intros. split_and!; try done. cbn. by apply rq_same_insert. Qed.
Lemma fr_task t s : task_same (m_task s) t →
  enqueue_after_migration (place t) = enqueue_after_migration (place (m_task s)) → fr s (m_set_task t s).
Proof. intros. split_and!; done. Qed.
Lemma fr_stats v f s : (∀ st, quiet (f st).2) → fr s (m_stats v f s).
Proof.
  intros Hf. unfold m_stats. specialize (Hf (walt_stats (m_rqs s (tv_cpu v)))).
  destruct (f _) as [st o]. eapply fr_trans; [|apply fr_emit, Hf]. by apply fr_rq.
Qed.
#[export] Hint Resolve fr_refl fr_emit fr_rq fr_task fr_stats : walt.

Lemma fixup_quiet st d p : quiet (fixup_cumulative_runnable_avg st d p).2.
Proof. unfold fixup_cumulative_runnable_avg. cbn. auto with walt. Qed.
Lemma dec_stats_quiet fl m r st : quiet (dec_rq_walt_stats fl m r st).2.
Proof. unfold dec_rq_walt_stats. cbn. auto with walt. Qed.
Lemma quiet_one o : is_window_bug o = false → quiet [o].
Proof. by repeat constructor. Qed.
#[export] Hint Resolve fixup_quiet dec_stats_quiet quiet_one : walt.

Lemma fr_notify_uclamp e c mn mx s q o :
  notify_uclamp e c mn mx (m_rqs s c) = (q, o) → fr s (m_emit o (m_set_rq c q s)).
Proof.
  unfold notify_uclamp. intros H.
  assert (rq_same (m_rqs s c) q ∧ quiet o) as [H1 H2]
    by (revert H; case_match; intros [= <- <-]; split; [done|auto with walt|done|constructor]).
  eapply fr_trans; [|by apply fr_emit]. by apply fr_rq.
Qed.

Lemma fr_enqueue_fair v x dbl s : fr s (enqueue_fair v x dbl s).
Proof.
  unfold enqueue_fair. case_match; [|done].
  set (s1 := m_set_task _ s). assert (fr s s1) as H1 by (apply fr_task; done).
  eapply fr_trans; [exact H1|]. eapply fr_trans; [|apply fr_emit; auto with walt].
  destruct dbl; [done|]. apply fr_stats. intros. constructor.
Qed.

Lemma fr_enqueue_notify e v x s : fr s (enqueue_notify e v x s).
Proof.
  unfold enqueue_notify. repeat (case_match; [apply fr_emit; auto with walt|]).
  destruct (notify_uclamp _ _ _ _ _) as [q o] eqn:Hu. by eapply fr_notify_uclamp.
Qed.

Lemma fr_enqueue_big e v x s : fr s (enqueue_big_task e v x s).
Proof. unfold enqueue_big_task. case_match; [by apply fr_rq | done]. Qed.

(** The enqueue hook settles a pending migration between two parts that move no
    busy time. *)
Lemma enqueue_shape e v x s : tv_on_scx v = false →
  en_sched_delayed x && negb (en_flag_delayed x) = false →
  ∃ s1, fr s s1 ∧ m_task s1 = m_task s ∧
    fr (settle_migration e v (en_clock x) s1) (android_rvh_enqueue_task e v x s).
Proof.
  intros Hscx Hd. unfold android_rvh_enqueue_task. rewrite Hscx, Hd.
  set (s1 := if en_flag_wakeup x then _ else s).
  assert (fr s s1 ∧ m_task s1 = m_task s) as [F1 T1]
    by (unfold s1; case_match; [split; [apply fr_emit; auto with walt|] |]; done).
  set (s2 := if en_per_cpu_kthread x then s1 else _).
  assert (fr s s2 ∧ m_task s2 = m_task s) as [F2 T2].
  { unfold s2. case_match; [done|]. split; [|done]. eapply fr_trans; [exact F1|]. by apply fr_rq. }
  clearbody s2. clear s1 F1 T1. cbv zeta.
  set (dbl := prev_on_rq (place (m_task s2)) =? 1).
  set (s3 := m_emit (bug_if dbl BUG_DOUBLE_ENQUEUE) s2).
  assert (fr s s3) as F3 by (eapply fr_trans; [exact F2 | apply fr_emit; auto with walt]).
  exists s3. split_and!; [done | done |].
  set (s4 := settle_migration e v (en_clock x) s3). clearbody s4 s3.
  set (s5 := m_set_task _ s4). assert (fr s4 s5) as F5 by (by apply fr_task). clearbody s5.
  set (s6 := enqueue_fair v x dbl (m_emit [NR_PROD (tv_cpu v) 1] s5)).
  assert (fr s4 s6) as F6.
  { eapply fr_trans; [exact F5|]. eapply fr_trans; [|apply fr_enqueue_fair]. apply fr_emit. auto with walt. }
  clearbody s6. eapply fr_trans; [|apply fr_enqueue_big]. eapply fr_trans; [|apply fr_enqueue_notify].
  eapply fr_trans; [exact F6|]. case_match; [done|]. apply fr_stats. intros. apply fixup_quiet.
Qed.

Lemma fr_dequeue e v x s : fr s (android_rvh_dequeue_task e v x s).
Proof.
  unfold android_rvh_dequeue_task. case_match; [done|].
  set (s1 := m_emit _ s). assert (fr s s1) as F1 by (apply fr_emit; auto with walt).
  case_match; [done|]. clearbody s1. cbv zeta.
  set (p := place (m_task s)). set (dbl := prev_on_rq p =? 2).
  set (s3 := m_emit (bug_if dbl BUG_DOUBLE_DEQUEUE) (m_emit _ s1)).
  assert (fr s s3) as F3.
  { eapply fr_trans; [exact F1|]. eapply fr_trans; apply fr_emit; auto with walt. }
  clearbody s3. set (s4 := m_set_task _ s3).
  assert (fr s s4) as F4.
  { eapply fr_trans; [exact F3|]. apply fr_task; [done|]. destruct F3 as (_ & _ & -> & _). done. }
  clearbody s4.
  set (s5 := if bool_decide (ed_task (m_rqs s4 (tv_cpu v)) = Some (tv_pid v)) then _ else s4).
  assert (fr s s5) as F5.
  { eapply fr_trans; [exact F4|]. unfold s5. case_match; [|done]. apply fr_rq.
    unfold is_ed_task_present. case_match; done. }
  clearbody s5. set (s6 := dequeue_fair v dbl (m_emit [NR_PROD (tv_cpu v) (-1)] s5)).
  assert (fr s s6) as F6.
  { eapply fr_trans; [exact F5|]. unfold s6, dequeue_fair.
    eapply fr_trans; [apply (fr_emit [NR_PROD (tv_cpu v) (-1)]); auto with walt|].
    case_match; [|done]. eapply fr_trans; [|apply fr_emit; auto with walt].
    case_match; [done|]. apply fr_stats. intros. apply dec_stats_quiet. }
  clearbody s6.
  set (s7 := if dbl then s6 else _).
  assert (fr s s7) as F7.
  { eapply fr_trans; [exact F6|]. unfold s7. case_match; [done|]. apply fr_stats. intros. apply fixup_quiet. }
  clearbody s7. destruct (notify_uclamp _ _ _ _ _) as [q o] eqn:Hu.
  eapply fr_trans; [exact F7|]. by eapply fr_notify_uclamp.
Qed.

Lemma fr_irq_start e v wc s : fr s (irq_start e v wc s).
Proof.
  unfold irq_start, update_task_cpu_cycles, read_cycle_counter.
  repeat case_match; simplify_eq; try done;
    (eapply fr_trans; [|by apply fr_task]; by apply fr_rq).
Qed.

Lemma fr_misfit v fits util s : fr s (android_rvh_update_misfit_status v fits util s).
Proof.
  unfold android_rvh_update_misfit_status. cbv zeta.
  set (s1 := m_emit [MISFIT_LOAD _ _] s). assert (fr s s1) as F1 by (apply fr_emit; auto with walt).
  case_match; [done|].
  set (s2 := m_stats v _ _).
  assert (fr s s2) as F2.
  { eapply fr_trans; [exact F1|].
    eapply fr_trans; [apply (fr_emit [NR_PROD (tv_cpu v) 0]); auto with walt|].
    apply fr_stats. intros. cbn. auto with walt. }
  assert (m_task s2 = m_task s) as T2 by done.
  clearbody s2. eapply fr_trans; [exact F2|]. apply fr_task; rewrite T2; done.
Qed.

Lemma fr_minv e φ R cpu att s s' :
  fr s s' → minv e φ R cpu att (m_rqs s) (m_task s) → minv e φ R cpu att (m_rqs s') (m_task s').
Proof. intros (A & B & _ & _). by apply minv_frame. Qed.

(** ** Pending subtractions are covered when they are applied *)
Lemma ls_covered_amount W ws g l : 0 < W →
  (∀ n x, ws - W ≤ x → ls_amount n l x ≤ wsum W n ws g x) →
  (ls_window_start l = ws → subs l ≤ curr_runnable_sum g ∧ new_subs l ≤ nt_curr_runnable_sum g) ∧
  (ls_window_start l = ws - W → subs l ≤ prev_runnable_sum g ∧ new_subs l ≤ nt_prev_runnable_sum g).
Proof.
  intros HW Hc. split; intros Hl; split;
    [pose proof (Hc false ws ltac:(lia)) as H | pose proof (Hc true ws ltac:(lia)) as H
    |pose proof (Hc false (ws - W) ltac:(lia)) as H | pose proof (Hc true (ws - W) ltac:(lia)) as H];
    revert H; unfold ls_amount, wsum; rewrite Hl; zcases; lia.
Qed.

Lemma ls_check_nil W q l : 0 < W →
  (∀ n x, rq_window_start q - W ≤ x →
     ls_amount n l x ≤ wsum W n (rq_window_start q) (rq_time q) x) →
  ls_check q (rq_window_start q - W) l = [].
Proof.
  intros HW Hc. destruct (ls_covered_amount W _ _ l HW Hc) as [H1 H2]. unfold ls_check.
  destruct (Z.eqb_spec (ls_window_start l) (rq_window_start q)) as [E|].
  - destruct (H1 E) as [A1 A2].
    by rewrite (proj2 (Z.ltb_ge _ (subs l)) A1), (proj2 (Z.ltb_ge _ (new_subs l)) A2).
  - destruct (Z.eqb_spec (ls_window_start l) (rq_window_start q - W)) as [E|]; [|done].
    destruct (H2 E) as [A1 A2].
    by rewrite (proj2 (Z.ltb_ge _ (subs l)) A1), (proj2 (Z.ltb_ge _ (new_subs l)) A2).
Qed.

Lemma ls_apply_covered W ws l g S : 0 < W → ls_nonneg l → (∀ n x, 0 ≤ S n x) →
  (∀ n x, ws - W ≤ x → S n x + ls_amount n l x ≤ wsum W n ws g x) →
  ∀ n x, ws - W ≤ x → S n x ≤ wsum W n ws (ls_apply ws (ws - W) l g) x.
Proof.
  intros HW Hl HS Hc. destruct (ls_covered_amount W ws g l HW) as [H1 H2].
  { intros n x Hx. specialize (Hc n x Hx). specialize (HS n x). lia. }
  intros n x Hx. specialize (Hc n x Hx). specialize (HS n x). revert Hc. unfold ls_apply.
  destruct (Z.eqb_spec (ls_window_start l) ws) as [E|NE].
  - destruct (H1 E) as [A1 A2]. unfold ls_amount, wsum; cbn.
    rewrite (sub_clamp_le _ _ A1), (sub_clamp_le _ _ A2), E. zcases; destruct n; lia.
  - destruct (Z.eqb_spec (ls_window_start l) (ws - W)) as [E|NE'].
    + destruct (H2 E) as [A1 A2]. unfold ls_amount, wsum; cbn.
      rewrite (sub_clamp_le _ _ A1), (sub_clamp_le _ _ A2), E. zcases; destruct n; lia.
    + pose proof (ls_amount_nonneg n l x Hl). lia.
Qed.

Lemma account_covered φ W q S q' o :
  0 < W → rq_ok φ W q → subs_nonneg q → (∀ n x, 0 ≤ S n x) →
  (∀ n x, rq_window_start q - W ≤ x → S n x + pend false n q x ≤ rsum W false n q x) →
  account_load_subtractions q = (q', o) →
  o = [] ∧ rq_ok φ W q' ∧ subs_nonneg q' ∧ grp_time q' = grp_time q ∧
  rq_window_start q' = rq_window_start q ∧ top q' = top q ∧ walt_stats q' = walt_stats q ∧
  (∀ n x, pend false n q' x = 0) ∧
  (∀ n x, rq_window_start q' - W ≤ x → S n x ≤ rsum W false n q' x).
Proof.
  intros HW (Hp & Hws & Hg) [Hn0 Hn1] HS Hb. unfold account_load_subtractions. rewrite Hp.
  assert (u64 (rq_window_start q - W) = rq_window_start q - W) as -> by (unfold u64; apply Z.mod_small; lia).
  unfold pend, rsum in Hb. destruct (load_subs q) as [l0 l1] eqn:Hl. cbn [fst snd] in *.
  assert (∀ n x, 0 ≤ ls_amount n l0 x ∧ 0 ≤ ls_amount n l1 x) as Ha
    by (split; by apply ls_amount_nonneg).
  intros [= <- <-]. rewrite !(ls_check_nil W) by
    (try done; intros n x Hx; specialize (Hb n x Hx); specialize (Ha n x); specialize (HS n x); lia).
  split_and!; try done.
  - intros n x. unfold pend, ls_amount; cbn. by destruct n; repeat case_match.
  - intros n x Hx. cbn in Hx. unfold rsum; cbn [rq_time set_load_subs set_times rq_window_start].
    apply ls_apply_covered; try done. intros n' x' Hx'.
    apply (ls_apply_covered W _ l0 (rq_time q) (λ n x, S n x + ls_amount n l1 x)); try done.
    + intros n2 x2. specialize (HS n2 x2). specialize (Ha n2 x2). lia.
    + intros n2 x2 Hx2. specialize (Hb n2 x2 Hx2). lia.
Qed.

(** ** Every operation keeps the balance *)
Section main.
Context (e : walt_env) (φ : Z).
Local Notation W := (sched_ravg_window e).
Context (HW : 0 < W).

(** An operation on one task that ends with the books balanced for it. *)
Lemma with_task_inv s id k f ku att :
  busy_inv e φ s → sys_tasks s !! id = Some k → kt_cpu (ku k) ∈ possible_cpus e →
  let m := f (mk_ms (sys_rqs s) (kt_wts k) (sys_lastq_ws s) (sys_out s)) in
  minv e φ (rest e s id) (kt_cpu k) att (m_rqs m) (m_task m) →
  (att = (enqueue_after_migration (place (m_task m)) =? 0) ∧ kt_cpu (ku k) = kt_cpu k ∨
   att = false ∧ enqueue_after_migration (place (m_task m)) ≠ 0) → quiet (m_out m) →
  busy_inv e φ (with_task id f ku s) ∧ quiet (sys_out (with_task id f ku s)).
Proof using Type.
  intros Hi Hk Hd m Hm Hatt Hq. unfold with_task. rewrite Hk. split; [|done].
  exact (minv_to_busy e φ s id k m _ _ _ _ att Hi Hk Hd Hm Hatt).
Qed.

Lemma fr_step s id k f ku :
  kt_cpu (ku k) = kt_cpu k → busy_inv e φ s → sys_tasks s !! id = Some k → quiet (sys_out s) →
  fr (mk_ms (sys_rqs s) (kt_wts k) (sys_lastq_ws s) (sys_out s))
     (f (mk_ms (sys_rqs s) (kt_wts k) (sys_lastq_ws s) (sys_out s))) →
  busy_inv e φ (with_task id f ku s) ∧ quiet (sys_out (with_task id f ku s)).
Proof using Type.
  intros Hku Hi Hk Hq Hf. pose proof (busy_to_minv e φ s id k Hi Hk) as Hm.
  apply (with_task_inv s id k f ku (attached k)); try done.
  - rewrite Hku. by apply (bi_task e φ s Hi id k).
  - exact (fr_minv e φ _ _ _ _ _ Hf Hm).
  - left. split; [|done]. destruct Hf as (_ & _ & -> & _). done.
  - by apply Hf.
Qed.

Lemma step_enqueue s id v x k :
  busy_inv e φ s → sys_tasks s !! id = Some k → tv_cpu v = kt_cpu k → quiet (sys_out s) →
  (tv_on_scx v = false → walt_is_idle_task (flags (kt_wts k)) = false ∧
     (enqueue_after_migration (place (kt_wts k)) ≠ 0 → clock_moved e s (en_clock x) k)) →
  busy_inv e φ (run_op e (OpEnqueue id v x) s) ∧ quiet (sys_out (run_op e (OpEnqueue id v x) s)).
Proof using HW.
  intros Hi Hk Hv Hq Hok. cbn [run_op].
  set (m := mk_ms (sys_rqs s) (kt_wts k) (sys_lastq_ws s) (sys_out s)).
  destruct (tv_on_scx v) eqn:Hscx.
  { apply (fr_step s id k); try done; [by case_match|].
    unfold android_rvh_enqueue_task. by rewrite Hscx. }
  destruct (en_sched_delayed x && negb (en_flag_delayed x)) eqn:Hd.
  { apply (fr_step s id k); try done; [by case_match|].
    unfold android_rvh_enqueue_task. by rewrite Hscx, Hd. }
  destruct (Hok eq_refl) as [Hidle Hclock].
  destruct (enqueue_shape e v x m Hscx Hd) as (m1 & F1 & T1 & F2).
  destruct (bi_task e φ s Hi id k Hk) as [Hwin Hin].
  pose proof (fr_minv e φ _ _ _ _ _ F1 (busy_to_minv e φ s id k Hi Hk)) as Hm1.
  rewrite T1 in Hm1. destruct F1 as (R1 & _ & _ & Q1).
  assert (∀ c, rq_window_start (m_rqs m1 c) = rq_window_start (sys_rqs s c) ∧
               latest_clock (m_rqs m1 c) = latest_clock (sys_rqs s c)) as Hw.
  { intros c. destruct (R1 c) as (-> & _ & _ & _ & _ & ->). done. }
  destruct (minv_settle e φ HW (rest e s id) (λ gb n c y, rest_nonneg e φ s id gb n c y Hi) (kt_cpu k)
    v (en_clock x) m1 Hv Hin Hscx) as (S1 & S2 & S3 & _); rewrite ?T1; try done.
  { intros Hz. destruct (Hclock Hz) as [(C1 & C2 & C3 & C4) C5]. destruct (Hw (kt_cpu k)) as [E1 E2].
    split; [unfold clock_ok; by rewrite E1, E2|]. by rewrite E1. }
  { by apply Q1. }
  apply (with_task_inv s id k _ _ true); try done.
  - by case_match.
  - exact (fr_minv e φ _ _ _ _ _ F2 S1).
  - left. split; [|by case_match]. destruct F2 as (_ & _ & E & _). unfold m in E. by rewrite E, S3.
  - by apply F2.
Qed.

Lemma step_group s id v (g : option Z) wc wc2 k f :
  busy_inv e φ s → sys_tasks s !! id = Some k → tv_cpu v = kt_cpu k → quiet (sys_out s) →
  tv_on_scx v = false → walt_is_idle_task (flags (kt_wts k)) = false →
  (is_Some g ↔ grp (kt_wts k) = None) → clock_moved e s wc k → settle_moved e φ wc wc2 k →
  (∀ m, f m = let m' := transfer_busy_time e v (bool_decide (is_Some g)) wc wc2 m in
              m_set_task (set_grp g (m_task m')) m') →
  busy_inv e φ (with_task id f kt_keep s) ∧ quiet (sys_out (with_task id f kt_keep s)).
Proof using HW.
  intros Hi Hk Hv Hq Hscx Hidle Hg [Hcl Hmv] Hw Hf.
  destruct (bi_task e φ s Hi id k Hk) as [Hwin Hin].
  destruct (minv_transfer e φ HW (rest e s id) (λ gb n c y, rest_nonneg e φ s id gb n c y Hi) (kt_cpu k)
    v g wc wc2 (mk_ms (sys_rqs s) (kt_wts k) (sys_lastq_ws s) (sys_out s)))
    as (T1 & T2 & T3); try done.
  { exact (busy_to_minv e φ s id k Hi Hk). }
  apply (with_task_inv s id k f kt_keep true); try done; rewrite Hf; cbv zeta; cbn [m_task m_rqs m_out m_set_task].
  - exact T1.
  - left. split; [|done]. cbn. by rewrite T3.
  - exact T2.
Qed.

Lemma step_account s cpu :
  busy_inv e φ s → cpu ∈ possible_cpus e → quiet (sys_out s) →
  busy_inv e φ (run_op e (OpAccount cpu) s) ∧ quiet (sys_out (run_op e (OpAccount cpu) s)).
Proof using HW.
  intros Hi Hin Hq. cbn [run_op].
  destruct (account_load_subtractions (sys_rqs s cpu)) as [q o] eqn:Ha.
  destruct (bi_rq e φ s Hi cpu Hin) as [Hok Hnn].
  destruct (account_covered φ W _ (λ n x, tsum (share e false n cpu x) (sys_tasks s)) q o HW Hok Hnn)
    as (-> & A2 & A3 & A4 & A5 & _ & _ & A6 & A7); try done.
  { intros n x. apply tsum_nonneg. intros j k Hj. apply share_nonneg.
    by destruct (bi_task e φ s Hi j k Hj) as [[? _] _]. }
  { intros n x Hx. exact (bi_sum e φ s Hi false n cpu x Hin Hx). }
  cbn [sys_out]. rewrite app_nil_r. split; [|done]. split; cbn.
  - intros c Hc. destruct (decide (cpu = c)) as [<-|];
      [by rewrite fn_lookup_insert | rewrite fn_lookup_insert_ne by done; by apply Hi].
  - by apply Hi.
  - intros gb n c x Hc. destruct (decide (cpu = c)) as [<-|].
    + rewrite fn_lookup_insert. intros Hx. destruct gb.
      * rewrite A5 in Hx. pose proof (bi_sum e φ s Hi true n cpu x Hin Hx) as H.
        unfold rsum, pend in *. rewrite A4, A5. done.
      * rewrite A6. specialize (A7 n x Hx). lia.
    + rewrite fn_lookup_insert_ne by done. by apply Hi.
Qed.

Lemma step_scx s id k :
  busy_inv e φ s → sys_tasks s !! id = Some k → quiet (sys_out s) →
  busy_inv e φ (with_task id android_vh_switching_to_scx kt_keep s) ∧
  quiet (sys_out (with_task id android_vh_switching_to_scx kt_keep s)).
Proof using Type.
  intros Hi Hk Hq. destruct (bi_task e φ s Hi id k Hk) as [Hwin Hin].
  destruct (busy_to_minv e φ s id k Hi Hk) as [M1 M2 M3].
  assert (win_zero (win_clear (win (kt_wts k)))) as Hz by done.
  apply (with_task_inv s id k _ _ true); try done; [|by left].
  split; [done | |].
  - destruct M2 as [_ [(H1 & H2 & _)|H]]; (split; [by split_and!|]); [left | right]; done.
  - intros gb n c x Hc Hx. specialize (M3 gb n c x Hc Hx).
    pose proof (share_nonneg e gb n c x k (proj1 Hwin)) as Hs. unfold share in Hs.
    assert (mshare e (kt_cpu k) true gb n c
      (set_place (pl_settled (place (kt_wts k))) (set_win (win_clear (win (kt_wts k))) (kt_wts k))) x = 0) as E
      by (unfold mshare; case_match; [done | by apply tshare_zero]).
    cbn [android_vh_switching_to_scx m_task m_rqs m_set_task]. rewrite E.
    cbn [m_rqs] in M3. lia.
Qed.

Lemma share_fresh gb n c x cpu g pct wd sc tc t0 :
  share e gb n c x (mk_kt cpu (set_grp g (init_new_task_load e pct wd sc tc t0)) false false None) = 0.
Proof using Type.
  unfold share, mshare. case_match; [done|]. apply tshare_zero. done.
Qed.

Lemma step_inv s op :
  busy_inv e φ s → op_ok e φ op s → quiet (sys_out s) →
  busy_inv e φ (run_op e op s) ∧ quiet (sys_out (run_op e op s)).
Proof using HW.
  intros Hi Hok Hq. destruct op as [id v ev wc irq|id v wc|id v on_rq dst wc cyc|id v x|id v x
    |id v g wc wc2|id v wc wc2|cpu|id cpu tc pct wd sc g t0|id|id v fits util|id]; cbn [op_ok] in Hok.
  - destruct Hok as (k & Hk & Hv & Hok). destruct (bi_task e φ s Hi id k Hk) as [Hwin Hin].
    cbn [run_op]. destruct (tv_on_scx v) eqn:Hscx.
    + apply (fr_step s id k); try done. unfold m_ravg, walt_update_task_ravg. rewrite Hscx. cbn.
      split_and!; try done. intros c. cbn. by apply rq_same_insert.
    + destruct (Hok eq_refl) as [Hirq Hcl].
      destruct (minv_ravg e φ HW (rest e s id) (λ gb n c y, rest_nonneg e φ s id gb n c y Hi) (kt_cpu k)
        v ev wc irq (attached k) (mk_ms (sys_rqs s) (kt_wts k) (sys_lastq_ws s) (sys_out s)) Hv Hin Hscx Hirq)
        as (M1 & M2 & _ & M3); [exact (busy_to_minv e φ s id k Hi Hk) | done |].
      apply (with_task_inv s id k _ kt_keep (attached k)); try done; [|by apply M3].
      left. split; [|done]. by rewrite (re_place _ _ _ _ _ _ _ _ M2).
  - destruct Hok as (k & Hk & Hv & _). apply (fr_step s id k); try done. apply fr_irq_start.
  - destruct Hok as (Hdst & k & Hk & Hv & Hscx & Hidle & [Hcl Hmv] & Hst).
    destruct (bi_task e φ s Hi id k Hk) as [Hwin Hin]. cbn [run_op]. rewrite Hscx.
    destruct (minv_subtraction e φ HW (rest e s id) (λ gb n c y, rest_nonneg e φ s id gb n c y Hi) (kt_cpu k)
      v on_rq dst wc cyc (mk_ms (sys_rqs s) (kt_wts k) (sys_lastq_ws s) (sys_out s)))
      as (T1 & T2 & T3); try done.
    { exact (busy_to_minv e φ s id k Hi Hk). }
    apply (with_task_inv s id k _ (kt_move dst) false); try done. by right.
  - destruct Hok as (k & Hk & Hv & Hok). by apply (step_enqueue s id v x k).
  - destruct Hok as (k & Hk & Hv & _). apply (fr_step s id k); try done; [by case_match|].
    apply fr_dequeue.
  - destruct Hok as (k & Hk & Hv & Hscx & Hidle & Hg & Hcl & Hw).
    apply (step_group s id v (Some g) wc wc2 k); try done.
    intros m. unfold add_task_to_group. by rewrite Hscx.
  - destruct Hok as (k & Hk & Hv & Hscx & Hidle & Hg & Hcl & Hw).
    apply (step_group s id v None wc wc2 k); try done.
    + split; [by intros [? ?] | intros Hn; rewrite Hn in Hg; by destruct Hg].
    + intros m. unfold remove_task_from_group. by rewrite Hscx.
  - by apply step_account.
  - destruct Hok as [Hn Hin]. split; [|done]. split; cbn.
    + apply Hi.
    + intros j k Hj. destruct (decide (j = id)) as [->|].
      * rewrite lookup_insert_eq in Hj. injection Hj as <-. split; [|done].
        split; [split_and!; cbn; try done; lia | left; done].
      * rewrite lookup_insert_ne in Hj by done. by apply (bi_task e φ s Hi j).
    + intros gb n c x Hc Hx. rewrite tsum_insert, share_fresh by done. by apply Hi.
  - split; [|done]. split; cbn.
    + apply Hi.
    + intros j k [_ Hj]%lookup_delete_Some. by apply (bi_task e φ s Hi j).
    + intros gb n c x Hc Hx. pose proof (bi_sum e φ s Hi gb n c x Hc Hx) as H.
      destruct (sys_tasks s !! id) as [k|] eqn:Hk; [|by rewrite delete_id].
      rewrite (tsum_delete _ _ id k Hk) in H.
      pose proof (share_nonneg e gb n c x k). destruct (bi_task e φ s Hi id k Hk) as [[? _] _].
      naive_solver lia.
  - destruct Hok as (k & Hk & Hv & _). apply (fr_step s id k); try done. apply fr_misfit.
  - cbn [run_op]. destruct (sys_tasks s !! id) as [k|] eqn:Hk; [|by unfold with_task; rewrite Hk].
    by apply (step_scx s id k).
Qed.
End main.

(** ** The start *)
Definition placed (e : walt_env) (m : gmap Z ktask) : Prop :=
  ∀ id k, m !! id = Some k → kt_cpu k ∈ possible_cpus e.

Lemma start_inv e tick tc rqs0 tasks0 idle0 :
  0 < sched_ravg_window e → sched_ravg_window e ≤ tick < 2 ^ 64 → placed e tasks0 → placed e idle0 →
  busy_inv e tick (walt_init_stop_handler e tick tc rqs0 tasks0 idle0).
Proof.
  intros HW Ht Hp Hpi.
  assert (∀ id k, sys_tasks (walt_init_stop_handler e tick tc rqs0 tasks0 idle0) !! id = Some k →
    win (kt_wts k) = mk_task_window 0 0 0 0 (λ _, 0) (λ _, 0) 0 ∧ kt_cpu k ∈ possible_cpus e) as Hk.
  { intros id k. cbn. rewrite lookup_union_Some_raw. rewrite !lookup_fmap.
    intros [Hi|[_ Hi]]; apply fmap_Some in Hi as (k0 & Hk0 & ->); (split; [done | cbn; first [by eapply Hpi | by eapply Hp]]). }
  split.
  - intros c Hc. split; [|by split]. split_and!; cbn; try done; try lia. exists 0. lia.
  - intros id k Hi. destruct (Hk id k Hi) as [Hw Hin]. split; [|done]. rewrite Hw.
    split; [split_and!; cbn; try done; lia | left; done].
  - intros gb n c x Hc Hx. rewrite tsum_zero.
    + unfold pend, ls_amount, rsum, wsum. cbn. destruct gb, n; repeat case_match; done.
    + intros id k Hi. destruct (Hk id k Hi) as [Hw _]. unfold share, mshare. case_match; [done|].
      apply tshare_zero. rewrite Hw. done.
Qed.

Lemma reachable_inv e φ s0 s :
  0 < sched_ravg_window e → busy_inv e φ s0 → quiet (sys_out s0) → reachable e φ s0 s →
  busy_inv e φ s ∧ quiet (sys_out s).
Proof.
  intros HW Hi Hq Hr. induction Hr as [|s op _ [IH1 IH2] Hok]; [done|]. by apply step_inv.
Qed.

(** ** A run on two CPUs in clusters of their own
    A task runs on CPU 0, is dequeued, moves to CPU 1, is enqueued and runs there
    across a window boundary; CPU 0 then applies its pending subtractions. *)
Definition ex_env : walt_env :=
  mk_walt_env 8000000 7812 10000 [0; 1] (λ c, [c]) (λ a b, a =? b) (λ _, 1024) (λ _, 1024)
    (λ _, 3000000) (λ _, 1500000) 2 (λ i, i) (λ c, c =? 1) false true 2 0 100 (λ _, 0) false
    (λ _, 512) false true false.
Definition ex_wts : walt_task_struct :=
  mk_wts 0 (mk_task_window 0 0 0 0 (λ _, 0) (λ _, 0) 0)
    (mk_task_demand 0 0 0 [] (replicate 5 0) 0 [] 0 0 0 0 0 0) (mk_task_pipe 0 0 0 false 0 0 0 0)
    (mk_task_place 0 0 0 0 0 0 0 false false) None 0 0 0 false.
Definition ex_rq : walt_rq :=
  walt_sched_init_rq ex_env 0 (mk_walt_rq (mk_walt_sched_stats 0 0 0 0 0 0) 0 0 0
    (mk_group_cpu_time 0 0 0 0) (mk_group_cpu_time 0 0 0 0)
    (mk_load_subtractions 0 0 0, mk_load_subtractions 0 0 0)
    (mk_top_state (λ _, clear_top_tasks_table) (λ _, clear_top_tasks_bitmap) false 0 0)
    1024 0 0 0 false 0 None (mk_rq_gov 0 0 0 1024 0)).
Definition ex_tasks : gmap Z ktask := {[ 1 := mk_kt 0 ex_wts true true None ]}.
Definition ex_idle : gmap Z ktask :=
  {[ 100 := mk_kt 0 ex_wts false false None; 101 := mk_kt 1 ex_wts false false None ]}.
Definition ex_start : system :=
  walt_init_stop_handler ex_env 80000000 0 (λ _, ex_rq) ex_tasks ex_idle.
Definition ex_view (cpu : Z) (curr queued : bool) (state clock : Z) : task_view :=
  mk_task_view 1 cpu curr false queued queued true false state false 0 clock 0 0.
Definition ex_ops : list walt_op :=
  [ OpUpdate 1 (ex_view 0 false true 0 81000000) PICK_NEXT_TASK 81000000 0;
    OpUpdate 1 (ex_view 0 true true 0 84000000) PUT_PREV_TASK 84000000 0;
    OpDequeue 1 (ex_view 0 true true 0 84000000) (mk_deq_view false [] 0 1024);
    OpMigrate 1 (ex_view 0 false false 0x200 85000000) false 1 85000000 0;
    OpEnqueue 1 (ex_view 1 false false 0x200 86000000)
      (mk_enq_view false false true false (λ _, false) false 0 1024 86000000);
    OpUpdate 1 (ex_view 1 false true 0 87000000) PICK_NEXT_TASK 87000000 0;
    OpUpdate 1 (ex_view 1 true true 0 91000000) PUT_PREV_TASK 91000000 0;
    OpMisfit 1 (ex_view 1 true true 0 91000000) true 300;
    OpAccount 0 ].
Definition ex_run (n : nat) : system := foldl (λ s op, run_op ex_env op s) ex_start (take n ex_ops).

Lemma on_task_get s id v (P : ktask → Prop) :
  match sys_tasks s !! id with Some k => tv_cpu v = kt_cpu k ∧ P k | None => False end →
  on_task s id v P.
Proof. unfold on_task. destruct (sys_tasks s !! id) as [k|]; [|done]. intros [? ?]. by exists k. Qed.

Fixpoint ops_ok (e : walt_env) (φ : Z) (ops : list walt_op) (s : system) : Prop :=
  match ops with
  | [] => True
  | op :: ops => op_ok e φ op s ∧ ops_ok e φ ops (run_op e op s)
  end.
Lemma run_reachable e φ s0 ops s :
  reachable e φ s0 s → ops_ok e φ ops s → reachable e φ s0 (foldl (λ s op, run_op e op s) s ops).
Proof.
  revert s. induction ops as [|op ops IH]; intros s Hr; [done|]. intros [H1 H2]. cbn.
  apply IH; [|done]. by apply reach_step.
Qed.

Lemma ex_ops_ok : ops_ok ex_env 80000000 ex_ops ex_start.
Proof.
  unfold ex_ops. cbn [ops_ok].
  repeat match goal with |- _ ∧ _ => split | |- True => exact I end; cbn [op_ok];
    try match goal with |- _ ∈ _ ∧ _ => split end;
    match goal with
    | |- on_task _ _ _ _ => apply on_task_get; vm_compute; intuition congruence
    | |- _ ∈ _ => apply (bool_decide_unpack _); by vm_compute
    end.
Qed.
Lemma ex_placed : placed ex_env ex_tasks ∧ placed ex_env ex_idle.
Proof.
  unfold ex_tasks, ex_idle.
  split; intros id k.
  - intros [_ <-]%lookup_singleton_Some. cbn. set_solver.
  - rewrite lookup_insert_Some, lookup_singleton_Some. intros [[_ <-]|[_ [_ <-]]]; cbn; set_solver.
Qed.
Lemma ex_reachable : reachable ex_env 80000000 ex_start (ex_run 9).
Proof. apply (run_reachable _ _ _ ex_ops); [apply reach_start | apply ex_ops_ok]. Qed.

(** C1: From the start of WALT on (the clock at least one window, all tasks on possible CPUs),
    through any sequence of updates, interrupts, migrations, enqueues, dequeues, group
    changes, forks, exits and pending subtractions that meets [op_ok], none of the busy-time,
    window and clock checks of the code ([WALT_BUG], [WALT_PANIC]) ever fails. [op_ok] asks:
    the window size is fixed; the call is about a known task on its own CPU; a migration or
    group change is not of the idle task nor under sched_ext, and a migrating task is queued
    or waking; joins are by ungrouped, leaves by grouped tasks; a fork has a new id; clocks do
    not run backwards and no run queue is idle for 2^31 windows. Two premises are more than
    the kernel guarantees: a migration, the enqueue after it and a group change read a clock
    past the task's last event, unless task and run queue are in one window; and a group
    change that settles the pending migration of a new task reads its two clocks in one
    window. Without the first BUG_WINDOW_MISMATCH fails ([enqueue_at_the_same_clock] in
    WaltCases), without the second BUG_BUSY_UNDERFLOW ([new_task_settled_in_next_window]). *)
Theorem walt_checks_never_fail e tick tc rqs0 tasks0 idle0 s :
  0 < sched_ravg_window e → sched_ravg_window e ≤ tick < 2 ^ 64 → placed e tasks0 → placed e idle0 →
  reachable e tick (walt_init_stop_handler e tick tc rqs0 tasks0 idle0) s →
  ∀ o, o ∈ sys_out s → is_window_bug o = false.
Proof.
  intros HW Ht Hp Hpi Hr.
  destruct (reachable_inv e tick _ s HW (start_inv e tick tc rqs0 tasks0 idle0 HW Ht Hp Hpi)
    ltac:(constructor) Hr) as [_ Hq].
  exact (proj1 (list.Forall_forall _ _) Hq).
Qed.
Lemma walt_checks_never_fail_witness :
  0 < sched_ravg_window ex_env ∧ reachable ex_env 80000000 ex_start (ex_run 9) ∧
  length (sys_out (ex_run 9)) = 11%nat ∧
  ∀ o, o ∈ sys_out (ex_run 9) → is_window_bug o = false.
Proof.
  split; [done|]. split; [exact ex_reachable|]. split; [by vm_compute|].
  apply (walt_checks_never_fail ex_env 80000000 0 (λ _, ex_rq) ex_tasks ex_idle (ex_run 9));
    [done | done | apply ex_placed | apply ex_placed | exact ex_reachable].
Defined.

(** C2: In every state that operations meeting [op_ok] reach from the start of WALT, the four
    sums of every CPU (current and previous window, its own and its group's) cover what all
    tasks have in them, for all tasks and for new tasks, together with what is still to be
    subtracted. [op_ok] is as in the theorem on the checks above: besides what the kernel
    guarantees it asks for a clock past the task's last event at a migration, the enqueue
    after it and a group change, unless task and run queue are in one window, and for one
    window when a group change settles the pending migration of a new task. In the case that
    the last premise excludes the sums of the new tasks do drop below the tasks' share
    ([new_task_settled_in_next_window] in WaltCases). *)
Theorem busy_time_covers_tasks e tick tc rqs0 tasks0 idle0 s c n :
  0 < sched_ravg_window e → sched_ravg_window e ≤ tick < 2 ^ 64 → placed e tasks0 → placed e idle0 →
  reachable e tick (walt_init_stop_handler e tick tc rqs0 tasks0 idle0) s → c ∈ possible_cpus e →
  let q := sys_rqs s c in
  let ws := rq_window_start q in
  let W := sched_ravg_window e in
  let held gb x := tsum (share e gb n c x) (sys_tasks s) + pend gb n q x in
  held false ws ≤ (if n then nt_curr_runnable_sum else curr_runnable_sum) (rq_time q) ∧
  held false (ws - W) ≤ (if n then nt_prev_runnable_sum else prev_runnable_sum) (rq_time q) ∧
  held true ws ≤ (if n then nt_curr_runnable_sum else curr_runnable_sum) (grp_time q) ∧
  held true (ws - W) ≤ (if n then nt_prev_runnable_sum else prev_runnable_sum) (grp_time q).
Proof.
  intros HW Ht Hp Hpi Hr Hc.
  destruct (reachable_inv e tick _ s HW (start_inv e tick tc rqs0 tasks0 idle0 HW Ht Hp Hpi)
    ltac:(constructor) Hr) as [Hi _].
  pose proof (λ gb x Hx, bi_sum e tick s Hi gb n c x Hc Hx) as Hs. cbv zeta.
  pose proof (Hs false (rq_window_start (sys_rqs s c)) ltac:(lia)) as S1.
  pose proof (Hs false (rq_window_start (sys_rqs s c) - sched_ravg_window e) ltac:(lia)) as S2.
  pose proof (Hs true (rq_window_start (sys_rqs s c)) ltac:(lia)) as S3.
  pose proof (Hs true (rq_window_start (sys_rqs s c) - sched_ravg_window e) ltac:(lia)) as S4.
  unfold rsum, wsum in S1, S2, S3, S4. rewrite Z.eqb_refl in S1, S2, S3, S4.
  rewrite (proj2 (Z.eqb_neq (_ - sched_ravg_window e) _)) in S2, S4 by lia.
  destruct n; done.
Qed.
Lemma busy_time_covers_tasks_witness :
  reachable ex_env 80000000 ex_start (ex_run 9) ∧
  tsum (share ex_env false false 1 88000000) (sys_tasks (ex_run 9)) = 1500000 ∧
  tsum (share ex_env false false 1 88000000) (sys_tasks (ex_run 9)) + pend false false (sys_rqs (ex_run 9) 1) 88000000
    ≤ curr_runnable_sum (rq_time (sys_rqs (ex_run 9) 1)).
Proof.
  split; [exact ex_reachable|]. split; [by vm_compute|].
  apply (busy_time_covers_tasks ex_env 80000000 0 (λ _, ex_rq) ex_tasks ex_idle (ex_run 9) 1 false);
    [done | done | apply ex_placed | apply ex_placed | exact ex_reachable | cbn; set_solver].
Defined.
