(* ===== verification/WaltStats.v ===== *)
(** * WALT aggregate statistics

    The statistics of a run queue are sums over its queued tasks: the cumulative
    demand and predicted demand, and the numbers of big, trailblazer, giant and
    high-priority group tasks.  Every function that changes a queued task's demand
    or flags changes the statistics by the same amount, so the sums are exact in
    every state the hooks reach, and the clamps and checks on them never act. *)

From S2P Require Import Prelude.
From S2P Require Import WaltData WaltDemand WaltTop WaltWindow WaltBusy WaltMigrate WaltHooks WaltInv WaltSystem.

Inductive stat := Cra | Pred | Giant | Trail | Big | Rtg.

Definition sget (i : stat) (st : walt_sched_stats) : Z :=
  match i with
  | Cra => cumulative_runnable_avg_scaled st
  | Pred => pred_demands_sum_scaled st
  | Giant => nr_giant_tasks st
  | Trail => nr_trailblazer_tasks st
  | Big => nr_big_tasks st
  | Rtg => nr_rtg_high_prio_tasks st
  end.

(** What a queued task has in each statistic. *)
Definition dget (fair : bool) (fl : Z) (d : task_demand) (i : stat) : Z :=
  match i with
  | Cra => demand_scaled d
  | Pred => pred_demand_scaled d
  | Giant => b2z (fair && walt_flag_test fl WALT_GIANT_BIT)
  | Trail => b2z (fair && walt_flag_test fl WALT_TRAILBLAZER_BIT)
  | Big | Rtg => 0
  end.
Definition tget (fair : bool) (t : walt_task_struct) (i : stat) : Z :=
  match i with
  | Big => b2z (fair && misfit (place t))
  | Rtg => b2z (fair && rtg_high_prio (place t))
  | _ => dget fair (flags t) (dem t) i
  end.

(** The failed checks of the queueing and of the aggregate statistics. *)
Definition is_queue_bug (o : walt_out) : bool :=
  match o with
  | BUG_CRA_UNDERFLOW | BUG_PRED_UNDERFLOW | BUG_DOUBLE_ENQUEUE | BUG_DOUBLE_DEQUEUE
  | BUG_DEQUEUE_CPU | BUG_MISSED_DELAYED | BUG_NR_BIG | BUG_NR_TRAILBLAZER => true
  | _ => false
  end.
Definition calm (o : list walt_out) : Prop := Forall (λ b, is_queue_bug b = false) o.

Lemma calm_nil : calm [].
Proof. constructor. Qed.
Lemma calm_app o o' : calm o → calm o' → calm (o ++ o').
Proof. apply Forall_app_2. Qed.
Lemma calm_if c b : is_queue_bug b = false → calm (bug_if c b).
Proof. intros. destruct c; repeat constructor; done. Qed.
Lemma calm_one b : is_queue_bug b = false → calm [b].
Proof. by repeat constructor. Qed.
#[export] Hint Resolve calm_nil calm_app calm_if calm_one : walt.

Lemma b2z_nonneg b : 0 ≤ b2z b.
Proof. destruct b; cbn; lia. Qed.

(** Scaled demands are never negative. *)
Definition dem_pos (d : task_demand) : Prop := 0 ≤ demand_scaled d ∧ 0 ≤ pred_demand_scaled d.

(** ** The demand functions *)
Section demand.
Context (e : walt_env) (v : task_view).
Context (Hscx : tv_on_scx v = false).

(** What the statistics hold for the other tasks. *)
Definition slack (s : dstate) (i : stat) : Z :=
  sget i (ds_stats s) - dget (tv_fair v) (ds_flags s) (ds_dem s) i.

Definition bal (s s' : dstate) : Prop :=
  (tv_accounted v = false → ds_stats s' = ds_stats s) ∧
  (tv_accounted v = true → (∀ i, 0 ≤ slack s i) → ∀ i, slack s' i = slack s i) ∧
  (calm (ds_out s) → (tv_accounted v = true → ∀ i, 0 ≤ slack s i) → calm (ds_out s')) ∧
  (dem_pos (ds_dem s) → dem_pos (ds_dem s')).

Lemma bal_refl s : bal s s.
Proof using Type. done. Qed.

Lemma bal_trans s s' s'' : bal s s' → bal s' s'' → bal s s''.
Proof using Type.
  intros (A1 & A2 & A3 & A4) (B1 & B2 & B3 & B4). split_and!; auto.
  - intros H. rewrite B1, A1; done.
  - intros H Hs i. assert (∀ i, 0 ≤ slack s' i) as Hs' by (intros j; rewrite A2 by done; apply Hs).
    rewrite B2, A2; done.
  - intros Hc Hs. apply B3; [by apply A3|]. intros Ha i. rewrite A2; auto.
Qed.

Lemma bal_dem s d :
  demand_scaled d = demand_scaled (ds_dem s) → pred_demand_scaled d = pred_demand_scaled (ds_dem s) →
  bal s (set_ds_dem d s).
Proof using Type.
  intros H1 H2. split_and!; try done.
  - intros _ _ i. unfold slack, set_ds_dem; cbn. destruct i; cbn; congruence.
  - unfold dem_pos; cbn. by rewrite H1, H2.
Qed.

Lemma giant_balanced fl st upd fl' st' :
  tv_fair v = true → fixup_nr_giant e fl st upd = (fl', st') →
  0 ≤ nr_giant_tasks st - b2z (walt_flag_test fl WALT_GIANT_BIT) →
  nr_giant_tasks st' - b2z (walt_flag_test fl' WALT_GIANT_BIT)
    = nr_giant_tasks st - b2z (walt_flag_test fl WALT_GIANT_BIT) ∧
  walt_flag_test fl' WALT_TRAILBLAZER_BIT = walt_flag_test fl WALT_TRAILBLAZER_BIT ∧
  (∀ i, i ≠ Giant → sget i st' = sget i st).
Proof using Type.
  intros Hf H Hs.
  assert (∀ b, walt_flag_test (walt_flag_set fl WALT_GIANT_BIT b) WALT_GIANT_BIT = b) as G1
    by (intros; unfold WALT_GIANT_BIT; by rewrite flag_test_set).
  assert (∀ b, walt_flag_test (walt_flag_set fl WALT_GIANT_BIT b) WALT_TRAILBLAZER_BIT
    = walt_flag_test fl WALT_TRAILBLAZER_BIT) as G2
    by (intros; unfold WALT_GIANT_BIT, WALT_TRAILBLAZER_BIT; by rewrite flag_test_set).
  revert H Hs. unfold fixup_nr_giant.
  destruct (_ <? upd), (walt_flag_test fl WALT_GIANT_BIT) eqn:Hw; cbn [b2z]; intros H0 Hs;
    pose proof (f_equal fst H0) as Hfl; pose proof (f_equal snd H0) as Hst; cbn [fst snd] in Hfl, Hst;
    rewrite <- Hfl, <- Hst, ?G1, ?G2, ?Hw; cbn [b2z nr_giant_tasks set_giant];
    rewrite ?(proj2 (Z.ltb_ge (nr_giant_tasks st - 1) 0)) by lia;
    (split_and!; [lia | done | intros []; done]).
Qed.

(** Raising or lowering the demand of a queued task. *)
Lemma fixup_common_balanced upd pred s d' :
  tv_accounted v = true → 0 ≤ upd → 0 ≤ pred → (∀ i, 0 ≤ slack s i) →
  demand_scaled d' = upd → pred_demand_scaled d' = pred →
  (∀ i, slack (set_ds_dem d' (fixup_walt_sched_stats_common e v upd pred s)) i = slack s i) ∧
  (calm (ds_out s) → calm (ds_out (fixup_walt_sched_stats_common e v upd pred s))).
Proof using Hscx.
  intros Ha Hu Hp Hs H1 H2. unfold fixup_walt_sched_stats_common. rewrite Hscx.
  unfold fixup_cumulative_runnable_avg.
  pose proof (Hs Cra) as Hc. pose proof (Hs Pred) as Hpd. pose proof (Hs Giant) as Hg.
  unfold slack in Hc, Hpd, Hg; cbn in Hc, Hpd, Hg.
  rewrite (proj2 (Z.ltb_ge (cumulative_runnable_avg_scaled (ds_stats s) + _) 0)) by lia.
  rewrite (proj2 (Z.ltb_ge (pred_demands_sum_scaled (ds_stats s) + _) 0)) by lia.
  set (st := set_cra _ _ _). cbn [bug_if app].
  destruct (tv_fair v) eqn:Hf.
  - destruct (fixup_nr_giant e (ds_flags s) st upd) as [fl' st'] eqn:Hgi.
    destruct (giant_balanced _ _ _ _ _ Hf Hgi) as (G1 & G2 & G3); [cbn in *; lia|].
    split; [|by rewrite app_nil_r].
    intros i. unfold slack, set_ds_dem; cbn [ds_stats ds_flags ds_dem].
    destruct i; cbn [dget andb]; rewrite ?G3 by done; rewrite ?Hf, ?H1, ?H2; cbn; try lia;
      cbn in *; rewrite ?G2; lia.
  - split; [|by rewrite app_nil_r]. intros i. unfold slack, set_ds_dem; cbn [ds_stats ds_flags ds_dem].
    destruct i; cbn; rewrite ?Hf, ?H1, ?H2; cbn; lia.
Qed.

Lemma commit_demand_bal pws dmd avg pred s : 0 ≤ pred → bal s (commit_demand e v pws dmd avg pred s).
Proof using Hscx.
  intros Hp. unfold commit_demand. set (ds := u16 _). assert (0 ≤ ds) as Hd by apply u16_range.
  destruct (tv_accounted v) eqn:Ha.
  - split_and!; [intros; congruence| | |].
    + intros _ Hs. by apply fixup_common_balanced.
    + intros Hc Hs. cbn. eapply (fixup_common_balanced ds pred s (set_demands 0 ds 0 pred 0 (ds_dem s)));
        auto.
    + done.
  - split_and!; try done. intros; congruence.
Qed.

Lemma trailblazer_bal w r rs dmd s s' dmd' :
  tv_fair v = true → update_trailblazer_accounting e v w r rs dmd s = (s', dmd') → bal s s'.
Proof using Type.
  intros Hf. unfold update_trailblazer_accounting. cbv zeta.
  set (was := walt_flag_test (ds_flags s) WALT_TRAILBLAZER_BIT).
  match goal with |- context [if ?b then walt_flag_set ?f ?k true else ?r] =>
    set (fl := if b then walt_flag_set f k true else r) end.
  assert (walt_flag_test fl WALT_GIANT_BIT = walt_flag_test (ds_flags s) WALT_GIANT_BIT) as Hg.
  { unfold fl, WALT_GIANT_BIT, WALT_TRAILBLAZER_BIT. repeat case_match; rewrite ?flag_test_set by lia; done. }
  clearbody fl. set (now := walt_flag_test fl WALT_TRAILBLAZER_BIT).
  match goal with |- context [mk_ds _ fl ?d _] => set (d1 := d) end.
  assert (demand_scaled d1 = demand_scaled (ds_dem s) ∧ pred_demand_scaled d1 = pred_demand_scaled (ds_dem s))
    as [D1 D2] by (unfold d1; repeat case_match; done).
  clearbody d1. destruct (tv_accounted v) eqn:Ha; intros [= <- <-].
  - split_and!; [congruence| | |].
    + intros _ _ i. unfold slack; cbn [ds_stats ds_flags ds_dem]. rewrite Hf.
      destruct i; cbn [dget andb]; rewrite ?D1, ?D2, ?Hg; fold was now; destruct was, now; cbn; lia.
    + intros Hc _. cbn. apply calm_app; [done|]. case_match; auto with walt.
    + unfold dem_pos; cbn. by rewrite D1, D2.
  - split_and!; try done; [congruence| |].
    + intros. cbn. by rewrite app_nil_r.
    + unfold dem_pos; cbn. by rewrite D1, D2.
Qed.

Lemma update_obet_bal d s : bal s (update_obet_task e v d s).
Proof using Type.
  unfold update_obet_task, ds_emit. case_match; [|done]. split_and!; try done.
  intros. cbn. auto with walt.
Qed.

Lemma push_samples_scaled r rs n d :
  demand_scaled (push_samples r rs n d) = demand_scaled d ∧
  pred_demand_scaled (push_samples r rs n d) = pred_demand_scaled d.
Proof using Type.
  unfold push_samples. generalize (Z.to_nat n) as k. intros k.
  induction k as [|k IH]; [done|]. cbn. done.
Qed.

Lemma update_history_bal w g pws r n s : bal s (update_history e v w g pws r n s).
Proof using Hscx.
  unfold update_history. cbv zeta.
  set (s0 := if _ <? _ then _ else s).
  assert (bal s s0) as H0 by (unfold s0; case_match; [by apply bal_dem | done]). clearbody s0.
  case_match; [done|].
  destruct (trailblazer_demand _ _ _ _ _ _ _ _) as [s1 d1] eqn:H1.
  assert (bal s s1) as Hk1.
  { eapply bal_trans; [exact H0|]. revert H1. unfold trailblazer_demand.
    set (s0' := set_ds_dem _ s0).
    assert (bal s0 s0') as Hb by (apply bal_dem; cbn; apply push_samples_scaled).
    case_match eqn:Hc.
    - intros Ht. apply andb_true_iff in Hc as [Hf _].
      eapply bal_trans; [exact Hb | exact (trailblazer_bal _ _ _ _ _ _ _ Hf Ht)].
    - by intros [= <- <-]. }
  set (s2 := if tv_fair v then _ else s1).
  assert (bal s s2) as Hk2.
  { unfold s2. case_match; [eapply bal_trans; [exact Hk1 | apply update_obet_bal] | done]. }
  clearbody s2. destruct (predict_and_update_buckets _ _ _) as [d2 p2] eqn:Hp.
  assert (0 ≤ p2 ∧ demand_scaled d2 = demand_scaled (ds_dem s2) ∧
          pred_demand_scaled d2 = pred_demand_scaled (ds_dem s2)) as (P1 & P2 & P3).
  { revert Hp. unfold predict_and_update_buckets. destruct (bucket_increase _ _ _).
    intros [= <- <-]. split_and!; try done. apply u16_range. }
  eapply bal_trans; [exact Hk2|]. eapply bal_trans; [by apply bal_dem|]. by apply commit_demand_bal.
Qed.

Lemma ds_add_bal scale d s s' r : ds_add e scale d s = (s', r) → bal s s'.
Proof using Type. unfold ds_add, add_to_task_demand. intros [= <- <-]. by apply bal_dem. Qed.

Lemma update_task_demand_bal w g pws scale ev wc ws s p s' p' r :
  update_task_demand e v w g pws scale ev wc ws s p = (s', p', r) → bal s s'.
Proof using Hscx.
  unfold update_task_demand. cbv zeta. case_match.
  { intros [= <- <- <-]. case_match; [apply update_history_bal | done]. }
  case_match.
  { destruct (ds_add _ _ _ s) as [s1 r1] eqn:H1. intros [= <- <- <-]. by eapply ds_add_bal. }
  destruct (ds_add _ _ _ s) as [s1 r1] eqn:H1. apply ds_add_bal in H1.
  set (s2 := update_history _ _ _ _ _ (sum _) 1 s1).
  assert (bal s s2) as H2 by (eapply bal_trans; [exact H1 | apply update_history_bal]).
  clearbody s2. destruct (negb (s32 _ =? 0)); cbv beta iota.
  - destruct (ds_add _ _ _ (update_history _ _ _ _ _ _ _ s2)) as [s3 r3] eqn:H3. intros [= <- <- <-].
    apply ds_add_bal in H3.
    eapply bal_trans; [exact H2|]. eapply bal_trans; [apply update_history_bal | exact H3].
  - destruct (ds_add _ _ _ s2) as [s3 r3] eqn:H3. intros [= <- <- <-].
    apply ds_add_bal in H3. eapply bal_trans; done.
Qed.

Lemma update_pred_bal w ev s : 0 ≤ demand_scaled (ds_dem s) → bal s (update_task_pred_demand e v w ev s).
Proof using Hscx.
  intros Hd. unfold update_task_pred_demand. cbv zeta. repeat (case_match; [done|]).
  set (np := u16 (get_pred_busy _ _ _ _ _)). assert (0 ≤ np) as Hn by apply u16_range. clearbody np.
  destruct (tv_accounted v) eqn:Ha.
  - split_and!; [congruence| | |].
    + intros _ Hs. apply fixup_common_balanced; try done. unfold fixup_walt_sched_stats_common.
      rewrite Hscx. by repeat case_match.
    + intros Hc Hs. cbn.
      eapply (fixup_common_balanced (demand_scaled (ds_dem s)) np s (set_demands 0 (demand_scaled (ds_dem s)) 0 np 0 (ds_dem s))); auto.
    + intros [? ?]. split; [|done]. cbn. unfold fixup_walt_sched_stats_common. rewrite Hscx.
      by repeat case_match.
  - split_and!; [done | congruence | done |]. by intros [? ?].
Qed.
End demand.

Lemma busy_bitmap_flags e v ms ev wc fl lrb p :
  walt_flag_test (update_busy_bitmap e v ms ev wc fl lrb p).1.1.1 WALT_GIANT_BIT
    = walt_flag_test fl WALT_GIANT_BIT ∧
  walt_flag_test (update_busy_bitmap e v ms ev wc fl lrb p).1.1.1 WALT_TRAILBLAZER_BIT
    = walt_flag_test fl WALT_TRAILBLAZER_BIT ∧
  calm (update_busy_bitmap e v ms ev wc fl lrb p).2.
Proof.
  unfold update_busy_bitmap, WALT_LRB_PIPELINE_BIT, WALT_GIANT_BIT, WALT_TRAILBLAZER_BIT. cbv zeta.
  destruct (negb (tv_runnable v));
    repeat (case_match; try (cbn [fst snd]; rewrite ?flag_test_set by lia; split_and!; auto with walt; done)).
Qed.

(** ** One update *)
Section ravg.
Context (e : walt_env) (v : task_view).
Context (Hscx : tv_on_scx v = false).

Definition rslack (q : walt_rq) (t : walt_task_struct) (i : stat) : Z :=
  sget i (walt_stats q) - tget (tv_fair v) t i.

(** What the queueing hooks keep about a task. *)
Definition qkept (p p' : task_place) : Prop :=
  misfit p' = misfit p ∧ rtg_high_prio p' = rtg_high_prio p ∧
  prev_on_rq p' = prev_on_rq p ∧ prev_on_rq_cpu p' = prev_on_rq_cpu p.

(** The statistics change by what the task's share changes, if the task is queued. *)
Definition rbal (q : walt_rq) (t : walt_task_struct) (q' : walt_rq) (t' : walt_task_struct) : Prop :=
  (tv_accounted v = false → walt_stats q' = walt_stats q) ∧
  (tv_accounted v = true → (∀ i, 0 ≤ rslack q t i) → ∀ i, rslack q' t' i = rslack q t i) ∧
  qkept (place t) (place t') ∧ (dem_pos (dem t) → dem_pos (dem t')).

Lemma rbal_refl q t : rbal q t q t.
Proof using Type. done. Qed.
Lemma rbal_trans q t q' t' q'' t'' : rbal q t q' t' → rbal q' t' q'' t'' → rbal q t q'' t''.
Proof using Type.
  intros (A1 & A2 & A3 & A4) (B1 & B2 & B3 & B4). split_and!; auto.
  - intros H. rewrite B1, A1; done.
  - intros H Hs i. assert (∀ i, 0 ≤ rslack q' t' i) as Hs' by (intros j; rewrite A2 by done; apply Hs).
    rewrite B2, A2; done.
  - destruct A3 as (? & ? & ? & ?), B3 as (? & ? & ? & ?). split_and!; congruence.
Qed.
Lemma rbal_same q t q' t' :
  walt_stats q' = walt_stats q → dem t' = dem t → qkept (place t) (place t') →
  walt_flag_test (flags t') WALT_GIANT_BIT = walt_flag_test (flags t) WALT_GIANT_BIT →
  walt_flag_test (flags t') WALT_TRAILBLAZER_BIT = walt_flag_test (flags t) WALT_TRAILBLAZER_BIT →
  rbal q t q' t'.
Proof using Type.
  intros H1 H2 H3 H4 H5. split; [done|]. split; [|split; [done | by rewrite H2]].
  destruct H3 as (K1 & K2 & _). intros _ _ i. unfold rslack. destruct i; cbn; congruence.
Qed.

(** A balanced run of the demand functions, put back into the run queue and task. *)
Lemma bal_rbal q t s' t' :
  bal v (mk_ds (walt_stats q) (flags t) (dem t) []) s' →
  flags t' = ds_flags s' → dem t' = ds_dem s' → place t' = place t →
  rbal q t (set_stats (ds_stats s') q) t' ∧
  ((tv_accounted v = true → ∀ i, 0 ≤ rslack q t i) → calm (ds_out s')).
Proof using Type.
  intros (B1 & B2 & B3 & B4) H1 H2 H3. cbn in *.
  assert (∀ i, rslack q t i = slack v (mk_ds (walt_stats q) (flags t) (dem t) []) i
            - match i with Big => b2z (tv_fair v && misfit (place t))
                         | Rtg => b2z (tv_fair v && rtg_high_prio (place t)) | _ => 0 end) as Hq.
  { intros []; unfold rslack, slack; cbn; lia. }
  assert (∀ i, rslack (set_stats (ds_stats s') q) t' i = slack v s' i
            - match i with Big => b2z (tv_fair v && misfit (place t))
                         | Rtg => b2z (tv_fair v && rtg_high_prio (place t)) | _ => 0 end) as Hq'.
  { intros []; unfold rslack, slack; cbn; rewrite ?H1, ?H2, ?H3; lia. }
  assert ((∀ i, 0 ≤ rslack q t i) → ∀ i, 0 ≤ slack v (mk_ds (walt_stats q) (flags t) (dem t) []) i) as Hpos.
  { intros Hs i. specialize (Hs i). rewrite Hq in Hs. pose proof (b2z_nonneg (tv_fair v && misfit (place t))).
    pose proof (b2z_nonneg (tv_fair v && rtg_high_prio (place t))). destruct i; lia. }
  split.
  - split; [done|]. split; [|by rewrite H2, H3].
    intros Ha Hs i. rewrite Hq, Hq', B2; auto.
  - intros Hs. apply B3; auto with walt.
Qed.

Lemma calm_busy fl ing ws pws scale ev wc irq s :
  calm (b_out s) → calm (b_out (update_cpu_busy_time e v fl ing ws pws scale ev wc irq s)).
Proof using Type.
  intros Hc. unfold update_cpu_busy_time. cbv zeta.
  assert (∀ g f s, b_out (acct g f s) = b_out s) as Hacct by (by intros []).
  assert (∀ tr n f m s, b_out (account_split v ing ws pws scale tr n f m wc s) = b_out s) as Hsp.
  { intros tr n f m s0. unfold account_split. destruct tr; cbn; rewrite ?Hacct; done. }
  set (s1 := if mark_start (b_win s) <? ws then _ else s).
  assert (calm (b_out s1)) as H1 by (unfold s1; by case_match). clearbody s1.
  destruct (negb (account_busy_for_cpu_time _ _ _ _ _)); [by case_match|].
  set (s2 := mk_bs (b_win s1) (b_rq s1) (b_grp s1) (b_top s1) (b_out s1 ++ _)). assert (calm (b_out s2)) as H2 by (cbn; auto with walt). clearbody s2.
  destruct (negb (mark_start (b_win s) <? ws)).
  { destruct (negb (walt_is_idle_task fl)); cbn [b_out set_b_win]; rewrite ?Hacct; done. }
  destruct (negb (tv_is_curr v)).
  { destruct (negb (walt_is_idle_task fl)); cbn [b_out]; rewrite ?Hsp; done. }
  case_match.
  { destruct (negb (walt_is_idle_task fl)); cbn [b_out]; rewrite ?Hsp; done. }
  case_match; rewrite ?Hacct; cbn [b_out]; auto with walt.
Qed.

Lemma ravg_stats ev wc irq s :
  (tv_accounted v = true → ∀ i, 0 ≤ rslack (r_rq s) (r_task s) i) → dem_pos (dem (r_task s)) →
  let s' := walt_update_task_ravg e v ev wc irq s in
  rbal (r_rq s) (r_task s) (r_rq s') (r_task s') ∧ (calm (r_out s) → calm (r_out s')).
Proof using Hscx.
  intros Hs Hd. cbv zeta. unfold walt_update_task_ravg. cbv zeta. rewrite Hscx.
  case_match; [done|].
  destruct (update_window_start e (tv_cpu v) wc (r_rq s)) as [q1 o] eqn:Hu.
  assert (walt_stats q1 = walt_stats (r_rq s) ∧ calm o) as [Hst Ho].
  { revert Hu. unfold update_window_start. cbv zeta. case_match; intros [= <- <-]; split; try done;
      auto with walt. apply calm_app; [auto with walt|]. case_match; auto with walt. }
  set (t1 := if window_start (win (r_task s)) =? 0 then _ else r_task s).
  assert (rbal (r_rq s) (r_task s) q1 t1) as R1.
  { apply rbal_same; try done; unfold t1; by case_match. }
  clearbody t1.
  assert (∀ q' t' o' lastq (won gv : bool) c, rbal (r_rq s) (r_task s) q' t' → calm o' →
    rbal (r_rq s) (r_task s) q' (set_win (win_set_mark wc (win t')) t') ∧
    (calm (r_out s) → calm (r_out (mk_ravg q' (set_win (win_set_mark wc (win t')) t') lastq
      (r_out s ++ (o' ++ bug_if (window_start (win t') + sched_ravg_window e <? wc) BUG_MARK_AHEAD)
       ++ (if won then [IRQ_WORK_ROLLOVER] else if gv then [GOV_PIPELINE_BUSY c] else [])))))) as Hdone.
  { intros q' t' o' lastq won gv c Hr Ho'. split.
    - eapply rbal_trans; [exact Hr|]. by apply rbal_same.
    - intros Hc. cbn. repeat (apply calm_app; auto with walt). destruct won, gv; auto with walt. }
  destruct (mark_start (win t1) =? 0).
  - destruct (update_task_cpu_cycles e v wc q1 t1) as [q2 t2] eqn:E.
    destruct (run_walt_irq_work_rollover _ _ _) as [lq won].
    apply (Hdone q2 t2 o); [|done]. eapply rbal_trans; [exact R1|].
    revert E. unfold update_task_cpu_cycles, read_cycle_counter.
    destruct (use_cycle_counter e), (negb (last_cc_update q1 =? wc)); intros [= <- <-]; by apply rbal_same.
  - destruct (update_task_rq_cpu_cycles e v ev wc irq q1 t1) as [[q2 t2] o1] eqn:E1.
    assert (rbal (r_rq s) (r_task s) q2 t2 ∧ calm o1) as [R2 C1].
    { revert E1. unfold update_task_rq_cpu_cycles, read_cycle_counter.
      destruct (use_cycle_counter e), (negb (last_cc_update q1 =? wc)),
        (negb (tv_curr_idle v) || negb (irq =? 0)); cbn; intros [= <- <- <-]; (split; [|auto with walt]);
        (eapply rbal_trans; [exact R1 | by apply rbal_same]). }
    destruct (run_demand e v ev wc q2 t2) as [[q3 t3] o2] eqn:E2.
    assert (rbal (r_rq s) (r_task s) q3 t3 ∧ calm o2) as [R3 C2].
    { revert E2. unfold run_demand. destruct (update_task_demand _ _ _ _ _ _ _ _ _ _ _) as [[ss p] r] eqn:Hd'.
      intros [= <- <- <-]. apply update_task_demand_bal in Hd'; [|done].
      destruct (bal_rbal q2 t2 ss (set_pipe (ds_flags ss) p (set_dem (ds_flags ss) (ds_dem ss) t2)) Hd')
        as [B1 B2]; try done.
      split; [by eapply rbal_trans|]. apply B2. intros Ha i. destruct R2 as (_ & -> & _); auto. }
    destruct (run_busy e v ev wc irq q3 t3) as [[q4 t4] o3] eqn:E3.
    assert (rbal (r_rq s) (r_task s) q4 t4 ∧ calm o3) as [R4 C3].
    { revert E3. unfold run_busy. intros [= <- <- <-]. split; [|apply calm_busy; constructor].
      eapply rbal_trans; [exact R3 | by apply rbal_same]. }
    destruct (run_pred e v ev q4 t4) as [[q5 t5] o4] eqn:E4.
    assert (rbal (r_rq s) (r_task s) q5 t5 ∧ calm o4) as [R5 C4].
    { revert E4. unfold run_pred. intros [= <- <- <-].
      destruct (bal_rbal q4 t4 (update_task_pred_demand e v (win t4) ev (mk_ds (walt_stats q4) (flags t4) (dem t4) []))
        (set_dem (ds_flags (update_task_pred_demand e v (win t4) ev (mk_ds (walt_stats q4) (flags t4) (dem t4) [])))
          (ds_dem (update_task_pred_demand e v (win t4) ev (mk_ds (walt_stats q4) (flags t4) (dem t4) []))) t4))
        as [B1 B2]; try done.
      { apply update_pred_bal; [done|]. by apply R4. }
      split; [by eapply rbal_trans|]. apply B2. intros Ha i. destruct R4 as (_ & -> & _); auto. }
    destruct (run_bitmap e v ev wc q5 t5) as [[q6 t6] o5] eqn:E5.
    assert (rbal (r_rq s) (r_task s) q6 t6 ∧ calm o5) as [R6 C5].
    { revert E5. unfold run_bitmap.
      destruct (update_busy_bitmap _ _ _ _ _ _ _ _) as [[[fl lrb] p] o'] eqn:H'. intros [= <- <- <-].
      destruct (busy_bitmap_flags e v (mark_start (win t5)) ev wc (flags t5) (lrb_pipeline_start_time q5) (pipe t5))
        as (F1 & F2 & F3). rewrite H' in F1, F2, F3. cbn [fst snd] in F1, F2, F3.
      split; [|done]. eapply rbal_trans; [exact R5 | by apply rbal_same]. }
    destruct (run_walt_irq_work_rollover _ _ _) as [lq won].
    set (t7 := if bool_decide _ && _ then _ else t6).
    assert (rbal (r_rq s) (r_task s) q6 t7) as R7.
    { eapply rbal_trans; [exact R6|]. apply rbal_same; unfold t7; try case_match; done. }
    clearbody t7. apply (Hdone q6 t7 (o ++ o1 ++ o2 ++ o3 ++ o4 ++ o5)); [done|]. auto 10 with walt.
Qed.
End ravg.
