(* ===== verification/WaltQueue.v ===== *)
(** * WALT: the aggregate statistics of the whole system

    A CPU's statistics are what the tasks queued on it have in them, exactly, in
    every state the hook calls reach, and none of the queueing and statistics
    checks of the code ever fails.  [queue_ok] is what the kernel guarantees about
    queueing when it calls a hook. *)

From S2P Require Import Prelude.
From S2P Require Import WaltData WaltDemand WaltTop WaltWindow WaltBusy WaltMigrate WaltHooks WaltInv WaltSystem WaltStats.

(** ** Steps that leave the statistics alone *)
Definition plain (s s' : mstate) : Prop :=
  (∀ c, walt_stats (m_rqs s' c) = walt_stats (m_rqs s c)) ∧
  dem (m_task s') = dem (m_task s) ∧ flags (m_task s') = flags (m_task s) ∧
  qkept (place (m_task s)) (place (m_task s')) ∧ (calm (m_out s) → calm (m_out s')).

Lemma plain_refl s : plain s s.
Proof. done. Qed.
Lemma plain_trans s s' s'' : plain s s' → plain s' s'' → plain s s''.
Proof.
  intros (A1 & A2 & A3 & (? & ? & ? & ?) & A5) (B1 & B2 & B3 & (? & ? & ? & ?) & B5).
  split_and!; try congruence; auto. unfold qkept. split_and!; congruence.
Qed.
Lemma plain_emit o s : calm o → plain s (m_emit o s).
Proof. intros. split_and!; try done. intros. cbn. auto with walt. Qed.
Lemma plain_rq c q s : walt_stats q = walt_stats (m_rqs s c) → plain s (m_set_rq c q s).
Proof.
  intros Hq. split_and!; try done. intros d. cbn. destruct (decide (c = d)) as [<-|];
    [by rewrite fn_lookup_insert | by rewrite fn_lookup_insert_ne].
Qed.
Lemma plain_task t s :
  dem t = dem (m_task s) → flags t = flags (m_task s) → qkept (place (m_task s)) (place t) →
  plain s (m_set_task t s).
Proof. done. Qed.
#[export] Hint Resolve plain_refl plain_emit : walt.

(** ** Migration *)
Lemma calm_busy_checks n dc dp g : calm (busy_checks n dc dp g).
Proof. unfold busy_checks. auto 10 with walt. Qed.
#[export] Hint Resolve calm_busy_checks : walt.

Lemma cluster_subs_stats e cpu ws n rqs w rqs' w' :
  update_cluster_load_subtractions e cpu ws n rqs w = (rqs', w') →
  ∀ c, walt_stats (rqs' c) = walt_stats (rqs c).
Proof.
  unfold update_cluster_load_subtractions. generalize (filter (λ i, i ≠ cpu) (cluster_cpus e cpu)).
  generalize (u64 (ws - prev_window_size (rqs cpu))). intros pws l. revert rqs w.
  assert (∀ ws x n i (rqs : Z → walt_rq) c, walt_stats (<[i := add_subtraction ws x n (rqs i)]> rqs c)
    = walt_stats (rqs c)) as Hadd.
  { intros ws0 x n0 i rqs c. destruct (decide (i = c)) as [<-|];
      [rewrite fn_lookup_insert | by rewrite fn_lookup_insert_ne].
    unfold add_subtraction. by destruct (get_subtraction_index _ _). }
  induction l as [|i l IH]; intros rqs w; [by intros [= <- <-]|]. cbn [foldl].
  destruct (subtract_on_cpu ws pws n (rqs, w) i) as [rqs1 w1] eqn:H1. intros H c.
  rewrite (IH _ _ H c). revert H1. unfold subtract_on_cpu.
  repeat case_match; simplify_eq; intros [= <- <-]; by rewrite ?Hadd.
Qed.

Section migrate.
Context (e : walt_env) (v : task_view).
Local Notation cpu := (tv_cpu v).

Lemma plain_check_window s : plain s (check_window v s).
Proof using Type. apply plain_emit. auto with walt. Qed.

Lemma plain_inter_sub n s : plain s (migrate_inter_cluster_subtraction e cpu n s).
Proof using Type.
  unfold migrate_inter_cluster_subtraction. cbv zeta.
  destruct (update_cluster_load_subtractions _ _ _ _ _ _) as [rqs w] eqn:H.
  split_and!; try done; [|intros; cbn; auto with walt].
  intros c. cbn. rewrite (cluster_subs_stats _ _ _ _ _ _ _ _ H c).
  destruct (decide (cpu = c)) as [<-|]; [by rewrite fn_lookup_insert | by rewrite fn_lookup_insert_ne].
Qed.

Lemma plain_leave s : plain s (leave_rq e v s).
Proof using Type.
  unfold leave_rq. pose proof (plain_check_window s) as P1.
  set (s1 := check_window v s) in *. clearbody s1.
  match goal with |- context [m_set_rq cpu (set_top (migrate_top_tasks_subtraction e (win (m_task ?x)) _) _) _] =>
    set (s2 := x) end.
  assert (plain s s2) as P2.
  { eapply plain_trans; [exact P1|]. unfold s2. destruct (grp (m_task s1)) as [g|].
    - unfold check_group. eapply plain_trans; [|apply plain_emit; unfold group_checks; repeat case_match; auto 10 with walt].
      eapply plain_trans; [apply (plain_emit (bug_if (negb (g =? DEFAULT_CGROUP_COLOC_ID)) BUG_GROUP)); auto with walt|].
      by apply plain_rq.
    - case_match; [apply plain_inter_sub | done]. }
  clearbody s2. eapply plain_trans; [exact P2|]. by apply plain_rq.
Qed.

Lemma plain_join s : plain s (join_rq e v s).
Proof using Type.
  unfold join_rq. pose proof (plain_check_window s) as P1.
  set (s1 := check_window v s) in *. clearbody s1.
  match goal with |- context [m_set_rq cpu (set_top (migrate_top_tasks_addition e (win (m_task ?x)) _) _) _] =>
    set (s2 := x) end.
  assert (plain s s2) as P2.
  { eapply plain_trans; [exact P1|]. unfold s2. destruct (grp (m_task s1)) as [g|].
    - unfold check_group.
      eapply plain_trans; [apply (plain_emit (bug_if (negb (g =? DEFAULT_CGROUP_COLOC_ID)) BUG_GROUP)); auto with walt|].
      by apply plain_rq.
    - case_match; [|done]. unfold migrate_inter_cluster_addition.
      eapply plain_trans; [|by apply plain_task]. by apply plain_rq. }
  clearbody s2. eapply plain_trans; [exact P2|]. by apply plain_rq.
Qed.

Lemma plain_rq_to_group n s : plain s (rq_to_group e v n s).
Proof using Type.
  unfold rq_to_group. cbv zeta. set (s1 := m_emit _ _).
  assert (plain s s1) as P1.
  { eapply plain_trans; [|apply plain_emit; auto with walt]. by apply plain_rq. }
  clearbody s1. eapply plain_trans; [exact P1|].
  destruct (update_cluster_load_subtractions _ _ _ _ _ _) as [rqs w] eqn:H.
  split_and!; try done. intros c. cbn. rewrite <- (cluster_subs_stats _ _ _ _ _ _ _ _ H c).
  destruct (decide (cpu = c)) as [<-|]; [by rewrite fn_lookup_insert | by rewrite fn_lookup_insert_ne].
Qed.

Lemma plain_group_to_rq n s : plain s (group_to_rq e v n s).
Proof using Type.
  unfold group_to_rq. cbv zeta. eapply plain_trans; [|by apply plain_task].
  eapply plain_trans; [apply (plain_emit (busy_checks n (curr_window (win (m_task s)))
    (prev_window (win (m_task s))) (grp_time (m_rqs s cpu)))); auto with walt|]. by apply plain_rq.
Qed.
End migrate.

(** ** Steps that move a queued task's share with it *)
Section sbal.
Context (e : walt_env) (v : task_view).
Context (Hscx : tv_on_scx v = false).
Local Notation cpu := (tv_cpu v).

Definition covered (s : mstate) : Prop :=
  (tv_accounted v = true → ∀ i, 0 ≤ rslack v (m_rqs s cpu) (m_task s) i) ∧ dem_pos (dem (m_task s)).
Definition moved (s s' : mstate) : Prop :=
  (∀ c, c ≠ cpu → walt_stats (m_rqs s' c) = walt_stats (m_rqs s c)) ∧
  rbal v (m_rqs s cpu) (m_task s) (m_rqs s' cpu) (m_task s') ∧ (calm (m_out s) → calm (m_out s')).
Definition sbal (s s' : mstate) : Prop := covered s → moved s s'.

Lemma sbal_trans s s' s'' : sbal s s' → sbal s' s'' → sbal s s''.
Proof using Type.
  intros A B Hc. destruct (A Hc) as (A1 & A2 & A3).
  destruct B as (B1 & B2 & B3).
  { destruct Hc as [H1 H2], A2 as (_ & R2 & _ & R4). split; [|by apply R4].
    intros Ha i. rewrite R2; auto. }
  split_and!; auto.
  - intros c Hn. by rewrite B1, A1.
  - by eapply rbal_trans.
Qed.

Lemma plain_sbal s s' : plain s s' → sbal s s'.
Proof using Type.
  intros (P1 & P2 & P3 & P4 & P5) _. split_and!; auto. by apply rbal_same; rewrite ?P3.
Qed.

Lemma sbal_ravg ev wc irq s : sbal s (m_ravg e v ev wc irq s).
Proof using Hscx.
  intros [H1 H2]. unfold m_ravg.
  destruct (ravg_stats e v Hscx ev wc irq (mk_ravg (m_rqs s cpu) (m_task s) (m_lastq_ws s) (m_out s)))
    as [R1 R2]; [done | done |].
  split_and!; cbn; [|by rewrite fn_lookup_insert | done].
  intros c Hc. by rewrite fn_lookup_insert_ne.
Qed.

Lemma sbal_addition wc s : sbal s (migrate_busy_time_addition e v wc s).
Proof using Hscx.
  unfold migrate_busy_time_addition. cbv zeta.
  set (s1 := m_ravg e v TASK_UPDATE wc 0 s). assert (sbal s s1) as B1 by apply sbal_ravg. clearbody s1.
  set (s2 := join_rq e v s1). assert (plain s1 s2) as P2 by apply plain_join. clearbody s2.
  eapply sbal_trans; [exact B1|]. apply plain_sbal. eapply plain_trans; [exact P2|].
  set (s3 := if enqueue_after_migration _ =? 2 then _ else s2).
  assert (plain s2 s3) as P3.
  { unfold s3. case_match; [|done]. eapply plain_trans; [|apply plain_emit; auto with walt].
    eapply plain_trans; by apply plain_rq. }
  clearbody s3. eapply plain_trans; [exact P3|].
  set (s4 := if is_ed_enabled e && _ then _ else s3).
  assert (plain s3 s4) as P4 by (unfold s4; case_match; [by apply plain_rq | done]).
  clearbody s4. eapply plain_trans; [exact P4|]. by apply plain_task.
Qed.

Lemma sbal_settle wc s : sbal s (settle_migration e v wc s).
Proof using Hscx.
  unfold settle_migration. case_match; [|by apply plain_sbal].
  cbv zeta. set (s1 := migrate_busy_time_addition e v wc s).
  apply (sbal_trans s s1); [apply sbal_addition|]. clearbody s1. apply plain_sbal. by apply plain_task.
Qed.

Lemma sbal_subtraction on_rq dst wc cyc s :
  sbal s (migrate_busy_time_subtraction e v on_rq dst wc cyc s).
Proof using Hscx.
  unfold migrate_busy_time_subtraction. case_match; [apply plain_sbal, plain_emit; auto with walt|].
  cbv zeta. set (s0 := m_set_task _ s). assert (plain s s0) as P0 by by apply plain_task.
  set (b := negb (enqueue_after_migration _ =? 0)). clearbody b s0.
  apply (sbal_trans s s0); [by apply plain_sbal|].
  set (s1 := m_ravg e v TASK_MIGRATE wc 0 s0). apply (sbal_trans s0 s1); [apply sbal_ravg|].
  clearbody s1. apply plain_sbal.
  set (s2 := m_set_task _ s1). assert (plain s1 s2) as P2 by by apply plain_task. clearbody s2.
  eapply plain_trans; [exact P2|].
  set (s3 := if b then s2 else _). assert (plain s2 s3) as P3 by (unfold s3; case_match; [done | apply plain_leave]).
  clearbody s3. eapply plain_trans; [exact P3|].
  set (s4 := if is_ed_enabled e && _ then _ else s3).
  assert (plain s3 s4) as P4 by (unfold s4; case_match; [by apply plain_rq | done]).
  clearbody s4. eapply plain_trans; [exact P4|]. by apply plain_task.
Qed.

Lemma sbal_transfer add wc wc2 s : sbal s (transfer_busy_time e v add wc wc2 s).
Proof using Hscx.
  unfold transfer_busy_time. cbv zeta. set (s1 := m_ravg e v TASK_UPDATE wc 0 s).
  apply (sbal_trans s s1); [apply sbal_ravg|]. clearbody s1. set (s2 := check_window v s1).
  apply (sbal_trans s1 s2); [apply plain_sbal, plain_check_window|]. clearbody s2.
  set (n := is_new_task _). set (s3 := settle_migration e v wc2 s2).
  apply (sbal_trans s2 s3); [apply sbal_settle|]. clearbody s3 n.
  apply plain_sbal. case_match; [apply plain_rq_to_group | apply plain_group_to_rq].
Qed.
End sbal.

(** ** The system *)
Definition qshare (i : stat) (c : Z) (k : ktask) : Z :=
  if kt_queued k && (kt_cpu k =? c) then tget (kt_fair k) (kt_wts k) i else 0.

(** Where WALT believes the task is. *)
Definition place_ok (k : ktask) : Prop :=
  let p := place (kt_wts k) in
  (∀ q, kt_told k = Some q → kt_queued k = q) ∧
  if kt_queued k then prev_on_rq p = (if kt_told k then 1 else 0) ∧ (0 ≤ prev_on_rq_cpu p → prev_on_rq_cpu p = kt_cpu k)
  else prev_on_rq p = (if kt_told k then 2 else 0) ∧ prev_on_rq_cpu p < 0.

Record queue_inv (s : system) : Prop := mk_queue_inv {
  qi_task id k : sys_tasks s !! id = Some k → dem_pos (dem (kt_wts k)) ∧ place_ok k;
  qi_sum i c : sget i (walt_stats (sys_rqs s c)) = tsum (qshare i c) (sys_tasks s);
}.

(** What the kernel guarantees about the queue a task is in when it calls a hook:
    [task_on_rq_queued] and [task_is_runnable] hold exactly of the queued tasks, a task
    changes class only while dequeued, is enqueued only when not queued and changes CPU
    only when not queued.  A dequeue is of a queued task, or completes the delayed
    dequeue of one; [sched_delayed] is set by the fair class within a dequeue call, after
    the hook, and gone with the next enqueue: while it is set the task's last call was
    a dequeue, unless there was none since WALT started. *)
Definition view_ok (v : task_view) (k : ktask) : Prop :=
  tv_accounted v = kt_queued k ∧ (kt_queued k = true → tv_fair v = kt_fair k).

Definition queue_ok (op : walt_op) (s : system) : Prop :=
  match op with
  | OpUpdate id v _ _ _ | OpJoinGroup id v _ _ _ | OpLeaveGroup id v _ _ =>
    on_task s id v (λ k, tv_on_scx v = false → view_ok v k)
  | OpIrqStart id v _ => on_task s id v (λ k, True)
  | OpMigrate id v _ _ _ _ =>
    on_task s id v (λ k, kt_queued k = false ∧ tv_accounted v = false)
  | OpEnqueue id v x =>
    on_task s id v (λ k, enqueue_seen v x = true → kt_queued k = false ∧
      (enqueue_after_migration (place (kt_wts k)) ≠ 0 → tv_accounted v = false))
  | OpDequeue id v x =>
    on_task s id v (λ k, tv_on_scx v = false →
      (dq_sched_delayed x = true → kt_told k ≠ Some true) ∧
      (kt_queued k = true ∧ tv_fair v = kt_fair k ∨ dq_sched_delayed x = true ∧ kt_told k = Some false))
  | OpMisfit id v _ _ => on_task s id v (λ k, kt_queued k = true ∧ kt_fair k = true)
  | OpExit id => ∀ k, sys_tasks s !! id = Some k → kt_queued k = false
  | OpFork id _ _ _ _ _ _ _ => sys_tasks s !! id = None
  | OpAccount _ | OpSwitchScx _ => True
  end.

(** ** The hooks that queue and dequeue *)
Section hooks.
Context (e : walt_env) (v : task_view).
Local Notation cpu := (tv_cpu v).

(** The statistics of the task's CPU go from [g] to [g'], no other CPU's change. *)
Definition adds (g : stat → Z) (s s' : mstate) : Prop :=
  (∀ c, c ≠ cpu → walt_stats (m_rqs s' c) = walt_stats (m_rqs s c)) ∧
  (∀ i, sget i (walt_stats (m_rqs s' cpu)) = sget i (walt_stats (m_rqs s cpu)) + g i) ∧
  (calm (m_out s) → calm (m_out s')).

Lemma adds_trans g h s s' s'' : adds g s s' → adds h s' s'' → adds (λ i, g i + h i) s s''.
Proof using Type.
  intros (A1 & A2 & A3) (B1 & B2 & B3). split_and!; auto.
  - intros c Hc. by rewrite B1, A1.
  - intros i. rewrite B2, A2. lia.
Qed.
Lemma adds_ext g h s s' : (∀ i, g i = h i) → adds g s s' → adds h s s'.
Proof using Type. intros Hg (A1 & A2 & A3). split_and!; auto. intros i. by rewrite A2, Hg. Qed.
Lemma plain_adds s s' : plain s s' → adds (λ _, 0) s s'.
Proof using Type. intros (A1 & _ & _ & _ & A5). split_and!; auto. intros i. rewrite A1. lia. Qed.
Lemma adds_plain g s s' s'' : adds g s s' → plain s' s'' → adds g s s''.
Proof using Type.
  intros A B%plain_adds. eapply adds_ext; [|eapply adds_trans; [exact A | exact B]]. intros; cbn; lia.
Qed.
Lemma plain_then_adds g s s' s'' : plain s s' → adds g s' s'' → adds g s s''.
Proof using Type.
  intros A%plain_adds B. eapply adds_ext; [|eapply adds_trans; [exact A | exact B]]. intros; cbn; lia.
Qed.

Lemma m_stats_adds g f s :
  calm (f (walt_stats (m_rqs s cpu))).2 →
  (∀ i, sget i (f (walt_stats (m_rqs s cpu))).1 = sget i (walt_stats (m_rqs s cpu)) + g i) →
  adds g s (m_stats v f s).
Proof using Type.
  intros Hc Hg. unfold m_stats. destruct (f _) as [st o]. cbn in *. split_and!; cbn.
  - intros c Hn. by rewrite fn_lookup_insert_ne.
  - intros i. rewrite fn_lookup_insert. apply Hg.
  - auto with walt.
Qed.

Lemma plain_notify_uclamp mn mx s q o :
  notify_uclamp e cpu mn mx (m_rqs s cpu) = (q, o) → plain s (m_emit o (m_set_rq cpu q s)).
Proof using Type.
  unfold notify_uclamp. intros H.
  assert (walt_stats q = walt_stats (m_rqs s cpu) ∧ calm o) as [H1 H2]
    by (revert H; case_match; intros [= <- <-]; split; auto with walt).
  eapply plain_trans; [|by apply plain_emit]. by apply plain_rq.
Qed.

(** What a task adds: the demand sums, and for a fair task the counters. *)
Definition dshare (d : task_demand) (i : stat) : Z :=
  match i with Cra => demand_scaled d | Pred => pred_demand_scaled d | _ => 0 end.
Definition fshare (fl : Z) (mf rtg : bool) (i : stat) : Z :=
  match i with
  | Giant => b2z (walt_flag_test fl WALT_GIANT_BIT)
  | Trail => b2z (walt_flag_test fl WALT_TRAILBLAZER_BIT)
  | Big => b2z mf | Rtg => b2z rtg | _ => 0
  end.
Lemma tget_split fair t i :
  tget fair t i = dshare (dem t) i +
    if fair then fshare (flags t) (misfit (place t)) (rtg_high_prio (place t)) i else 0.
Proof using Type. destruct fair, i; cbn; lia. Qed.

Lemma inc_cra_adds d s :
  dem_pos d → (∀ i, 0 ≤ sget i (walt_stats (m_rqs s cpu))) →
  adds (dshare d) s (m_stats v (walt_inc_cumulative_runnable_avg d) s).
Proof using Type.
  intros [D1 D2] Hp. pose proof (Hp Cra) as P1. pose proof (Hp Pred) as P2. cbn in P1, P2.
  apply m_stats_adds; unfold walt_inc_cumulative_runnable_avg, fixup_cumulative_runnable_avg.
  - cbn [snd]. rewrite !(proj2 (Z.ltb_ge _ 0)) by lia. constructor.
  - intros i. cbn [fst]. rewrite !(proj2 (Z.ltb_ge _ 0)) by lia. destruct i; cbn; lia.
Qed.
Lemma dec_cra_adds d s :
  demand_scaled d ≤ cumulative_runnable_avg_scaled (walt_stats (m_rqs s cpu)) →
  pred_demand_scaled d ≤ pred_demands_sum_scaled (walt_stats (m_rqs s cpu)) →
  adds (λ i, - dshare d i) s (m_stats v (walt_dec_cumulative_runnable_avg d) s).
Proof using Type.
  intros P1 P2. apply m_stats_adds; unfold walt_dec_cumulative_runnable_avg, fixup_cumulative_runnable_avg.
  - cbn [snd]. rewrite !(proj2 (Z.ltb_ge _ 0)) by lia. constructor.
  - intros i. cbn [fst]. rewrite !(proj2 (Z.ltb_ge _ 0)) by lia. destruct i; cbn; lia.
Qed.

Lemma enqueue_fair_adds x s :
  let s' := enqueue_fair v x false s in
  adds (λ i, if tv_fair v then fshare (flags (m_task s')) (misfit (place (m_task s')))
                                 (rtg_high_prio (place (m_task s'))) i else 0) s s' ∧
  dem (m_task s') = dem (m_task s) ∧ prev_on_rq (place (m_task s')) = prev_on_rq (place (m_task s)) ∧
  prev_on_rq_cpu (place (m_task s')) = prev_on_rq_cpu (place (m_task s)).
Proof using Type.
  unfold enqueue_fair. destruct (tv_fair v); [|by split; [apply plain_adds|]].
  split; [|done]. eapply adds_plain; [|apply plain_emit; auto with walt]. cbv zeta.
  set (s1 := m_set_task _ s).
  assert (adds (λ _, 0) s s1) as A1 by (split_and!; try done; intros; cbn; lia).
  set (g := fshare (flags (m_task s)) (negb (en_fits x cpu)) (en_rtg_high_prio x)).
  apply (adds_ext (λ i, 0 + g i)); [by intros i|].
  apply (adds_trans _ _ s s1); [exact A1|]. apply m_stats_adds; [constructor|].
  intros i. cbn [fst]. destruct i; cbn; lia.
Qed.

Lemma dequeue_fair_adds s :
  (tv_fair v = true → ∀ i, fshare (flags (m_task s)) (misfit (place (m_task s)))
     (rtg_high_prio (place (m_task s))) i ≤ sget i (walt_stats (m_rqs s cpu))) →
  let s' := dequeue_fair v false s in
  adds (λ i, - if tv_fair v then fshare (flags (m_task s)) (misfit (place (m_task s)))
                                  (rtg_high_prio (place (m_task s))) i else 0) s s' ∧
  m_task s' = m_task s.
Proof using Type.
  intros Hp. unfold dequeue_fair. destruct (tv_fair v).
  - specialize (Hp eq_refl). pose proof (Hp Giant) as P1. pose proof (Hp Trail) as P2.
    pose proof (Hp Big) as P3. cbn in P1, P2, P3. split; [|by unfold m_stats, dec_rq_walt_stats].
    cbv zeta. eapply adds_plain; [|apply plain_emit; auto with walt].
    apply m_stats_adds; unfold dec_rq_walt_stats; cbv zeta.
    + cbn [snd]. rewrite !(proj2 (Z.ltb_ge _ 0)) by lia. constructor.
    + intros i. cbn [fst]. rewrite !(proj2 (Z.ltb_ge _ 0)) by lia. destruct i; cbn; lia.
  - split; [|done]. by apply plain_adds.
Qed.
End hooks.

Section enqueue.
Context (e : walt_env) (v : task_view).
Context (Hscx : tv_on_scx v = false).
Local Notation cpu := (tv_cpu v).

Lemma settle_unqueued wc s :
  dem_pos (dem (m_task s)) →
  (enqueue_after_migration (place (m_task s)) ≠ 0 → tv_accounted v = false) →
  adds v (λ _, 0) s (settle_migration e v wc s) ∧ dem_pos (dem (m_task (settle_migration e v wc s))).
Proof using Hscx.
  intros Hd Ha. destruct (Z.eqb_spec (enqueue_after_migration (place (m_task s))) 0) as [E|E].
  - unfold settle_migration. rewrite (proj2 (Z.eqb_eq _ _) E). split; [by apply plain_adds | done].
  - specialize (Ha E). destruct (sbal_settle e v Hscx wc s) as (M1 & (R1 & _ & _ & R4) & M3).
    { split; [congruence | done]. }
    split; [|by apply R4]. split_and!; try done. intros i. rewrite R1 by done. lia.
Qed.

Lemma enqueue_adds x s :
  en_sched_delayed x && negb (en_flag_delayed x) = false → prev_on_rq (place (m_task s)) ≠ 1 →
  dem_pos (dem (m_task s)) →
  (enqueue_after_migration (place (m_task s)) ≠ 0 → tv_accounted v = false) →
  (∀ i, 0 ≤ sget i (walt_stats (m_rqs s cpu))) →
  let s' := android_rvh_enqueue_task e v x s in
  adds v (tget (tv_fair v) (m_task s')) s s' ∧ dem_pos (dem (m_task s')) ∧
  prev_on_rq (place (m_task s')) = 1 ∧ prev_on_rq_cpu (place (m_task s')) = cpu.
Proof using Hscx.
  intros Hx Hp Hd Ha Hs. cbv zeta. unfold android_rvh_enqueue_task. rewrite Hscx, Hx. cbv zeta.
  set (s1 := if en_flag_wakeup x then _ else s).
  assert (plain s s1 ∧ m_task s1 = m_task s) as [P1 T1]
    by (unfold s1; case_match; [split; [apply plain_emit; auto with walt|] |]; done).
  set (s2 := if en_per_cpu_kthread x then s1 else _).
  assert (plain s s2 ∧ m_task s2 = m_task s) as [P2 T2].
  { unfold s2. case_match; [done|]. split; [|done]. eapply plain_trans; [exact P1|]. by apply plain_rq. }
  clearbody s2. clear s1 P1 T1. rewrite T2, (proj2 (Z.eqb_neq _ _) Hp). cbn [bug_if].
  set (s3 := m_emit [] s2).
  assert (plain s s3 ∧ m_task s3 = m_task s) as [P3 T3].
  { split; [|done]. eapply plain_trans; [exact P2 | apply plain_emit; auto with walt]. }
  clearbody s3. clear s2 P2 T2.
  destruct (settle_unqueued (en_clock x) s3) as [A4 D4]; [by rewrite T3 | by rewrite T3|].
  pose proof (plain_then_adds v _ _ _ _ P3 A4) as A5. clear A4.
  set (s4 := settle_migration e v (en_clock x) s3) in *. clearbody s4.
  match goal with |- context [pl_enqueued cpu ?t _] => set (ts := t); clearbody ts end.
  set (s5 := m_emit [NR_PROD cpu 1] _).
  assert (adds v (λ _, 0) s s5) as A6.
  { destruct A5 as (B1 & B2 & B3). split_and!; try done. cbn. auto with walt. }
  destruct (enqueue_fair_adds v x s5) as (A7 & D7 & O7 & C7).
  assert (prev_on_rq (place (m_task s5)) = 1 ∧ prev_on_rq_cpu (place (m_task s5)) = cpu ∧
          dem (m_task s5) = dem (m_task s4)) as (O5 & C5 & D5) by done.
  rewrite O5 in O7. rewrite C5 in C7. rewrite D5 in D7. clearbody s5.
  pose proof (adds_trans v _ _ _ _ _ A6 A7) as A8.
  set (s6 := enqueue_fair v x false s5) in *. clearbody s6.
  assert (dem_pos (dem (m_task s6))) as D6 by by rewrite D7.
  assert (∀ i, 0 ≤ sget i (walt_stats (m_rqs s6 cpu))) as Hs6.
  { intros i. destruct A8 as (_ & -> & _). specialize (Hs i).
    destruct (tv_fair v); [|lia]. destruct i; cbn [fshare]; try lia;
      match goal with |- context [b2z ?b] => pose proof (b2z_nonneg b) end; lia. }
  pose proof (inc_cra_adds v (dem (m_task s6)) s6 D6 Hs6) as A9.
  set (s7 := m_stats v _ s6) in *.
  assert (m_task s7 = m_task s6) as T7 by done.
  clearbody s7. pose proof (adds_trans v _ _ _ _ _ A8 A9) as A10.
  assert (plain s7 (enqueue_notify e v x s7)) as P8.
  { unfold enqueue_notify. cbv zeta. destruct (notify_uclamp _ _ _ _ _) as [q o] eqn:Hu.
    destruct (en_flag_wakeup x && walt_flag_test _ _); [apply plain_emit; auto with walt|].
    destruct (en_flag_wakeup x && do_pl_notif _ _ _); [apply plain_emit; auto with walt|].
    by eapply plain_notify_uclamp. }
  assert (m_task (enqueue_notify e v x s7) = m_task s7) as T8.
  { unfold enqueue_notify. by repeat case_match. }
  set (s8 := enqueue_notify e v x s7) in *. clearbody s8.
  assert (plain s8 (enqueue_big_task e v x s8) ∧ m_task (enqueue_big_task e v x s8) = m_task s8) as [P9 T9].
  { unfold enqueue_big_task. cbv zeta. destruct (_ && _ && negb _); [|done].
    split; [by apply plain_rq | done]. }
  rewrite T9, T8, T7. split_and!; try done.
  eapply adds_plain; [|exact P9]. eapply adds_plain; [|exact P8].
  eapply adds_ext; [|exact A10]. intros i. rewrite tget_split. cbn. lia.
Qed.

Lemma dequeue_adds x s :
  (dq_sched_delayed x = true → prev_on_rq (place (m_task s)) ≠ 1) → prev_on_rq (place (m_task s)) ≠ 2 →
  (0 ≤ prev_on_rq_cpu (place (m_task s)) → prev_on_rq_cpu (place (m_task s)) = cpu) →
  dem_pos (dem (m_task s)) →
  (∀ i, tget (tv_fair v) (m_task s) i ≤ sget i (walt_stats (m_rqs s cpu))) →
  let s' := android_rvh_dequeue_task e v x s in
  adds v (λ i, - tget (tv_fair v) (m_task s) i) s s' ∧ dem (m_task s') = dem (m_task s) ∧
  prev_on_rq (place (m_task s')) = 2 ∧ prev_on_rq_cpu (place (m_task s')) = -1.
Proof using Hscx.
  intros Hx Hp Hc Hd Hs. cbv zeta. unfold android_rvh_dequeue_task. rewrite Hscx.
  cbv zeta. rewrite (proj2 (Z.eqb_neq _ _) Hp), andb_false_r.
  assert (dq_sched_delayed x && (prev_on_rq (place (m_task s)) =? 1) = false) as ->.
  { destruct (dq_sched_delayed x); [|done]. by apply Z.eqb_neq, Hx. }
  assert ((0 <=? prev_on_rq_cpu (place (m_task s))) && negb (prev_on_rq_cpu (place (m_task s)) =? cpu) = false)
    as -> by (zcases; cbn; try done; lia).
  cbn [andb bug_if]. set (s3 := m_emit [] (m_emit [] (m_emit [] s))).
  assert (plain s s3 ∧ m_task s3 = m_task s) as [P3 T3].
  { split; [|done]. repeat (eapply plain_trans; [|apply plain_emit; auto with walt]). done. }
  clearbody s3. rewrite T3. set (s4 := m_set_task _ s3).
  assert (adds v (λ _, 0) s s4) as A4.
  { destruct (plain_adds v _ _ P3) as (B1 & B2 & B3). by split_and!. }
  assert (dem (m_task s4) = dem (m_task s) ∧ flags (m_task s4) = flags (m_task s) ∧
    misfit (place (m_task s4)) = misfit (place (m_task s)) ∧
    rtg_high_prio (place (m_task s4)) = rtg_high_prio (place (m_task s)) ∧
    prev_on_rq (place (m_task s4)) = 2 ∧ prev_on_rq_cpu (place (m_task s4)) = -1)
    as (E1 & E2 & E3 & E4 & E5 & E6) by done.
  clearbody s4. set (s5 := if bool_decide _ then _ else s4).
  assert (plain s4 s5 ∧ m_task s5 = m_task s4) as [P5 T5].
  { unfold s5. case_match; [|done]. split; [|done]. apply plain_rq. unfold is_ed_task_present. by case_match. }
  clearbody s5. set (s6 := m_emit [NR_PROD cpu (-1)] s5).
  assert (plain s4 s6 ∧ m_task s6 = m_task s4) as [P6 T6].
  { split; [|done]. eapply plain_trans; [exact P5 | apply plain_emit; auto with walt]. }
  clearbody s6. clear s5 P5 T5.
  pose proof (adds_plain v _ _ _ _ A4 P6) as A6.
  assert (∀ i, sget i (walt_stats (m_rqs s6 cpu)) = sget i (walt_stats (m_rqs s cpu))) as H6.
  { intros i. destruct A6 as (_ & -> & _). lia. }
  destruct (dequeue_fair_adds v s6) as [A7 T7].
  { intros Hf i. rewrite T6, E2, E3, E4, H6. specialize (Hs i). rewrite tget_split, Hf in Hs.
    destruct Hd as [? ?]. assert (0 ≤ dshare (dem (m_task s)) i) by (destruct i; cbn; lia). lia. }
  pose proof (adds_trans v _ _ _ _ _ A6 A7) as A8.
  set (s7 := dequeue_fair v false s6) in *. clearbody s7.
  rewrite T6 in T7. rewrite T6, E2, E3, E4 in A8.
  assert (∀ i, sget i (walt_stats (m_rqs s7 cpu)) = sget i (walt_stats (m_rqs s cpu)) -
    if tv_fair v then fshare (flags (m_task s)) (misfit (place (m_task s))) (rtg_high_prio (place (m_task s))) i
    else 0) as H7.
  { intros i. destruct A8 as (_ & -> & _). lia. }
  assert (adds v (λ i, - dshare (dem (m_task s7)) i) s7
    (m_stats v (walt_dec_cumulative_runnable_avg (dem (m_task s7))) s7)) as A9.
  { apply dec_cra_adds; rewrite T7, E1.
    - pose proof (H7 Cra) as H. pose proof (Hs Cra) as H'. cbn in H, H'. destruct (tv_fair v); lia.
    - pose proof (H7 Pred) as H. pose proof (Hs Pred) as H'. cbn in H, H'. destruct (tv_fair v); lia. }
  pose proof (adds_trans v _ _ _ _ _ A8 A9) as A10.
  set (s8 := m_stats v _ s7) in *. assert (m_task s8 = m_task s7) as T8 by done. clearbody s8.
  destruct (notify_uclamp _ _ _ _ _) as [q o] eqn:Hu.
  change (m_task (m_emit o (m_set_rq cpu q s8))) with (m_task s8). rewrite T8, T7. split_and!; try done.
  eapply adds_plain; [|by eapply plain_notify_uclamp].
  eapply adds_ext; [|exact A10]. intros i. rewrite tget_split, T7, E1. cbn. lia.
Qed.
End enqueue.

Lemma misfit_adds v fits util s :
  b2z (misfit (place (m_task s))) ≤ nr_big_tasks (walt_stats (m_rqs s (tv_cpu v))) →
  let s' := android_rvh_update_misfit_status v fits util s in
  adds v (λ i, tget true (m_task s') i - tget true (m_task s) i) s s' ∧
  dem (m_task s') = dem (m_task s) ∧ prev_on_rq (place (m_task s')) = prev_on_rq (place (m_task s)) ∧
  prev_on_rq_cpu (place (m_task s')) = prev_on_rq_cpu (place (m_task s)).
Proof.
  intros Hn. cbv zeta. unfold android_rvh_update_misfit_status. cbv zeta.
  set (s1 := m_emit _ s). assert (plain s s1 ∧ m_rqs s1 = m_rqs s ∧ m_task s1 = m_task s) as (P1 & R1 & T1)
    by (split; [apply plain_emit; auto with walt | done]). clearbody s1.
  set (mf := negb _). clearbody mf. destruct (_ =? 0).
  { split; [|by rewrite T1]. eapply adds_ext; [|by apply plain_adds]. intros i. cbn. rewrite T1. lia. }
  set (s2 := m_emit _ s1). assert (plain s s2 ∧ m_rqs s2 = m_rqs s ∧ m_task s2 = m_task s) as (P2 & R2 & T2).
  { split; [|done]. eapply plain_trans; [exact P1 | apply plain_emit; auto with walt]. }
  clearbody s2. set (ch := b2z mf - b2z _). set (s3 := m_stats v _ s2).
  assert (adds v (λ i, match i with Big => ch | _ => 0 end) s2 s3) as A3.
  { apply m_stats_adds.
    - cbn [snd]. rewrite R2, (proj2 (Z.ltb_ge _ 0)); [constructor|]. unfold ch. pose proof (b2z_nonneg mf). lia.
    - intros []; cbn; lia. }
  assert (m_task s3 = m_task s) as T3 by (by rewrite <- T2). clearbody s3.
  rewrite T3. split; [|done].
  apply (plain_then_adds v _ _ _ _ P2) in A3. eapply (adds_ext v) in A3; [exact A3|].
  intros i. destruct i; cbn; rewrite ?T3; unfold ch; lia.
Qed.

(** ** Every operation keeps the statistics exact *)
Section main.
Context (e : walt_env).

Lemma qshare_nonneg i c k : dem_pos (dem (kt_wts k)) → 0 ≤ qshare i c k.
Proof using Type.
  intros [? ?]. unfold qshare. case_match; [|lia]. destruct i; cbn [tget dget]; try done; apply b2z_nonneg.
Qed.

(** The others on the task's CPU. *)
Definition qrest (s : system) (id : Z) (i : stat) (c : Z) : Z :=
  tsum (qshare i c) (delete id (sys_tasks s)).

Lemma qrest_sum s id k i c : queue_inv s → sys_tasks s !! id = Some k →
  sget i (walt_stats (sys_rqs s c)) = qshare i c k + qrest s id i c ∧ 0 ≤ qrest s id i c.
Proof using Type.
  intros Hi Hk. split.
  - rewrite (qi_sum s Hi i c). by apply tsum_delete.
  - apply tsum_nonneg. intros j k' [_ Hj]%lookup_delete_Some. apply qshare_nonneg.
    by destruct (qi_task s Hi j k' Hj).
Qed.

Lemma queue_step s id k k' rqs lq out :
  queue_inv s → sys_tasks s !! id = Some k → dem_pos (dem (kt_wts k')) → place_ok k' →
  (∀ i c, sget i (walt_stats (rqs c)) = sget i (walt_stats (sys_rqs s c)) - qshare i c k + qshare i c k') →
  queue_inv (mk_sys rqs (<[id := k']> (sys_tasks s)) lq out).
Proof using Type.
  intros Hi Hk Hd Hp Hs. split; cbn.
  - intros j kj Hj. destruct (decide (j = id)) as [->|].
    + rewrite lookup_insert_eq in Hj. by simplify_eq.
    + rewrite lookup_insert_ne in Hj by done. by apply (qi_task s Hi j).
  - intros i c. rewrite Hs, tsum_update. fold (qrest s id i c).
    destruct (qrest_sum s id k i c Hi Hk) as [-> _]. lia.
Qed.

Lemma qshare_cpu i c kc q t f o : c ≠ kc → qshare i c (mk_kt kc t q f o) = 0.
Proof using Type. intros. unfold qshare. cbn. by rewrite (proj2 (Z.eqb_neq _ _)), andb_false_r. Qed.
Lemma qshare_here i c t f o : qshare i c (mk_kt c t true f o) = tget f t i.
Proof using Type. unfold qshare. cbn. by rewrite Z.eqb_refl. Qed.
Lemma qshare_unqueued i c k : kt_queued k = false → qshare i c k = 0.
Proof using Type. unfold qshare. by intros ->. Qed.

(** An operation that moves the task's share with it. *)
Lemma sbal_step s id k v f :
  queue_inv s → sys_tasks s !! id = Some k → tv_cpu v = kt_cpu k → view_ok v k →
  calm (sys_out s) → (∀ m, sbal v m (f m)) →
  queue_inv (with_task id f kt_keep s) ∧ calm (sys_out (with_task id f kt_keep s)).
Proof using Type.
  intros Hi Hk Hv [Ha Hf] Hc Hb. unfold with_task. rewrite Hk. cbv zeta. unfold kt_keep.
  destruct (qi_task s Hi id k Hk) as [Hd Hp].
  destruct (Hb (mk_ms (sys_rqs s) (kt_wts k) (sys_lastq_ws s) (sys_out s))) as (M1 & (R1 & R2 & R3 & R4) & M3).
  { split; [|done]. cbn. intros Hq i. rewrite Hv. unfold rslack. rewrite Ha in Hq. rewrite Hf by done.
    destruct (qrest_sum s id k i (kt_cpu k) Hi Hk) as [-> ?].
    destruct k as [kc kw kq kf ko]; cbn [kt_cpu kt_wts kt_queued kt_fair] in *. rewrite Hq.
    rewrite qshare_here. lia. }
  set (m := f _) in *. clearbody m. cbn [m_rqs m_task m_out] in *. split; [|by apply M3].
  apply (queue_step s id k); try done.
  - by apply R4.
  - revert Hp. unfold place_ok; cbn. destruct R3 as (_ & _ & -> & ->). done.
  - intros i c. destruct k as [kc kw kq kf ko]; cbn in *. destruct (decide (c = kc)) as [->|Hn].
    + destruct kq; [|rewrite !qshare_unqueued by done; rewrite <- Hv, R1 by done; lia].
      rewrite !qshare_here.
      rewrite <- Hv. specialize (R2 Ha). unfold rslack in R2. rewrite (Hf eq_refl) in R2.
      assert (∀ i, 0 ≤ sget i (walt_stats (sys_rqs s (tv_cpu v))) - tget kf kw i) as Hs.
      { intros j. rewrite Hv. destruct (qrest_sum s id _ j kc Hi Hk) as [-> ?].
        rewrite qshare_here. lia. }
      specialize (R2 Hs i). lia.
    + rewrite M1 by congruence.
      rewrite !qshare_cpu by done. lia.
Qed.

(** The queueing hooks: the share that appears or disappears is the task's. *)
Lemma adds_step s id k v f ku :
  queue_inv s → sys_tasks s !! id = Some k → tv_cpu v = kt_cpu k → kt_cpu (ku k) = kt_cpu k →
  calm (sys_out s) →
  let m := f (mk_ms (sys_rqs s) (kt_wts k) (sys_lastq_ws s) (sys_out s)) in
  let k' := mk_kt (kt_cpu k) (m_task m) (kt_queued (ku k)) (kt_fair (ku k)) (kt_told (ku k)) in
  adds v (λ i, qshare i (kt_cpu k) k' - qshare i (kt_cpu k) k)
    (mk_ms (sys_rqs s) (kt_wts k) (sys_lastq_ws s) (sys_out s)) m →
  dem_pos (dem (m_task m)) → place_ok k' →
  queue_inv (with_task id f ku s) ∧ calm (sys_out (with_task id f ku s)).
Proof using Type.
  intros Hi Hk Hv Hc Ho m k' (A1 & A2 & A3) Hd Hp. unfold with_task. rewrite Hk. cbv zeta. fold m.
  rewrite Hc. fold k'. split; [|by apply A3]. clearbody m.
  apply (queue_step s id k); try done.
  intros i c. destruct (decide (c = kt_cpu k)) as [->|Hn].
  - rewrite <- Hv at 1. rewrite A2. cbn [m_rqs]. rewrite Hv. lia.
  - rewrite A1 by congruence. destruct k as [kc kw kq kf ko]. unfold k'. cbn in Hn.
    rewrite !qshare_cpu by done. cbn. lia.
Qed.

Lemma sget_nonneg s i c : queue_inv s → 0 ≤ sget i (walt_stats (sys_rqs s c)).
Proof using Type.
  intros Hi. rewrite (qi_sum s Hi i c). apply tsum_nonneg. intros j k Hj. apply qshare_nonneg.
  by destruct (qi_task s Hi j k Hj).
Qed.
Lemma queued_share s id k i : queue_inv s → sys_tasks s !! id = Some k → kt_queued k = true →
  tget (kt_fair k) (kt_wts k) i ≤ sget i (walt_stats (sys_rqs s (kt_cpu k))).
Proof using Type.
  intros Hi Hk Hq. destruct (qrest_sum s id k i (kt_cpu k) Hi Hk) as [-> ?].
  destruct k as [kc kw kq kf ko]; cbn [kt_cpu kt_wts kt_queued kt_fair] in *. rewrite Hq, qshare_here. lia.
Qed.

Lemma idle_step_at s id k f ku (m := mk_ms (sys_rqs s) (kt_wts k) (sys_lastq_ws s) (sys_out s)) :
  queue_inv s → sys_tasks s !! id = Some k → ku k = k → calm (sys_out s) →
  plain m (f m) → queue_inv (with_task id f ku s) ∧ calm (sys_out (with_task id f ku s)).
Proof using Type.
  intros Hi Hk Hku Hc (P1 & P2 & P3 & P4 & P5). subst m.
  unfold with_task. rewrite Hk. cbv zeta. rewrite Hku. set (m := f _) in *. clearbody m.
  cbn [m_rqs m_task m_out] in *. split; [|by apply P5]. destruct (qi_task s Hi id k Hk) as [Hd Hp].
  destruct P4 as (K1 & K2 & K3 & K4). apply (queue_step s id k); try done.
  - cbn. by rewrite P2.
  - revert Hp. unfold place_ok; cbn. by rewrite K3, K4.
  - intros i c. rewrite P1. assert (qshare i c (mk_kt (kt_cpu k) (m_task m) (kt_queued k) (kt_fair k) (kt_told k))
      = qshare i c k) as ->; [|lia].
    unfold qshare; cbn. destruct (_ && _); [|done]. destruct i; cbn; congruence.
Qed.

Lemma idle_step s id k f ku :
  queue_inv s → sys_tasks s !! id = Some k → ku k = k → calm (sys_out s) →
  (∀ m, plain m (f m)) → queue_inv (with_task id f ku s) ∧ calm (sys_out (with_task id f ku s)).
Proof using Type. intros Hi Hk Hku Hc Hf. by apply (idle_step_at s id k). Qed.

Lemma plain_irq_start v wc m : plain m (irq_start e v wc m).
Proof using Type.
  unfold irq_start, update_task_cpu_cycles, read_cycle_counter.
  repeat case_match; simplify_eq; try done;
    (eapply plain_trans; [|by apply plain_task]; by apply plain_rq).
Qed.

Lemma queue_enqueue s id v x :
  queue_inv s → queue_ok (OpEnqueue id v x) s → calm (sys_out s) →
  queue_inv (run_op e (OpEnqueue id v x) s) ∧ calm (sys_out (run_op e (OpEnqueue id v x) s)).
Proof using Type.
  intros Hi (k & Hk & Hv & Hq) Hc. cbn [run_op]. destruct (enqueue_seen v x) eqn:Hs.
  - destruct (Hq eq_refl) as [Hkq Ha]. apply andb_true_iff in Hs as [Hx Hd]. apply negb_true_iff in Hx, Hd.
    destruct (qi_task s Hi id k Hk) as [Hdem Hp]. unfold place_ok in Hp. rewrite Hkq in Hp.
    destruct (enqueue_adds e v Hx x (mk_ms (sys_rqs s) (kt_wts k) (sys_lastq_ws s) (sys_out s)))
      as (A1 & A2 & A3 & A4); try done;
      [cbn; rewrite (proj1 (proj2 Hp)); by destruct (kt_told k) | intros; by apply sget_nonneg |].
    apply (adds_step s id k v); try done; cbn [kt_queue kt_queued kt_fair kt_cpu kt_told].
    + eapply adds_ext; [|exact A1]. intros i. cbn. rewrite qshare_here, (qshare_unqueued i _ k) by done. lia.
    + unfold place_ok. cbn [kt_queued kt_wts kt_cpu kt_told]. rewrite A3, A4. naive_solver.
  - apply (idle_step s id k); try done. intros m. unfold android_rvh_enqueue_task.
    unfold enqueue_seen in Hs. destruct (tv_on_scx v); [done|]. cbn in Hs. apply negb_false_iff in Hs.
    by rewrite Hs.
Qed.

Lemma queue_dequeue s id v x :
  queue_inv s → queue_ok (OpDequeue id v x) s → calm (sys_out s) →
  queue_inv (run_op e (OpDequeue id v x) s) ∧ calm (sys_out (run_op e (OpDequeue id v x) s)).
Proof using Type.
  intros Hi (k & Hk & Hv & Hq) Hc. cbn [run_op].
  destruct (tv_on_scx v) eqn:Hx.
  { apply (idle_step s id k); try done. intros m. unfold android_rvh_dequeue_task. by rewrite Hx. }
  destruct (Hq eq_refl) as [Hdel Hcase]. destruct (qi_task s Hi id k Hk) as [Hdem Hp].
  destruct (kt_queued k) eqn:Hkq.
  - destruct Hcase as [[_ Hf]|[_ Ht]].
    2:{ apply (proj1 Hp) in Ht. congruence. }
    unfold place_ok in Hp. rewrite Hkq in Hp. destruct Hp as (Ht & Hp1 & Hp2).
    destruct (dequeue_adds e v Hx x (mk_ms (sys_rqs s) (kt_wts k) (sys_lastq_ws s) (sys_out s)))
      as (A1 & A2 & A3 & A4); try done.
    { cbn. intros Hd%Hdel. rewrite Hp1. destruct (kt_told k) as [[]|]; naive_solver. }
    { cbn. rewrite Hp1. by destruct (kt_told k). }
    { cbn. by rewrite Hv. }
    { cbn. intros i. rewrite Hv, Hf. by apply queued_share with id. }
    apply (adds_step s id k v); try done; cbn [kt_queue kt_queued kt_fair kt_cpu kt_told].
    + eapply adds_ext; [|exact A1]. intros i. cbn [m_task]. rewrite qshare_unqueued by done.
      destruct k as [kc kw kq kf ko]; cbn [kt_cpu kt_wts kt_queued kt_fair] in *. rewrite Hkq, qshare_here, Hf. lia.
    + by rewrite A2.
    + unfold place_ok. cbn [kt_queued kt_wts kt_cpu kt_told]. rewrite A3, A4. naive_solver.
  - destruct Hcase as [[? _]|[Hd Ht]]; [done|]. unfold place_ok in Hp. rewrite Hkq, Ht in Hp. destruct Hp as (_ & Hp & _).
    apply (idle_step_at s id k); try done.
    + unfold kt_queue; destruct k; cbn in *; congruence.
    + unfold android_rvh_dequeue_task. rewrite Hx, Hd. cbn [m_task]. rewrite Hp. cbn. apply plain_emit. auto with walt.
Qed.

Lemma queue_misfit s id v fits util :
  queue_inv s → queue_ok (OpMisfit id v fits util) s → calm (sys_out s) →
  queue_inv (run_op e (OpMisfit id v fits util) s) ∧ calm (sys_out (run_op e (OpMisfit id v fits util) s)).
Proof using Type.
  intros Hi (k & Hk & Hv & Hkq & Hf) Hc. cbn [run_op]. destruct (qi_task s Hi id k Hk) as [Hdem Hp].
  pose proof (queued_share s id k Big Hi Hk Hkq) as Hb. rewrite Hf in Hb. cbn [tget andb sget] in Hb.
  destruct (misfit_adds v fits util (mk_ms (sys_rqs s) (kt_wts k) (sys_lastq_ws s) (sys_out s)))
    as (A1 & A2 & A3 & A4); [cbn; by rewrite Hv|].
  apply (adds_step s id k v); try done; unfold kt_keep; cbn [kt_queued kt_fair kt_cpu].
  - eapply adds_ext; [|exact A1]. intros i. cbn [m_task].
    destruct k as [kc kw kq kf ko]; cbn [kt_cpu kt_wts kt_queued kt_fair] in *.
    rewrite Hkq, Hf, !qshare_here. done.
  - by rewrite A2.
  - revert Hp. unfold place_ok. cbn [kt_queued kt_wts kt_cpu]. rewrite A3, A4. done.
Qed.

(** A change of CPU: the task is in no statistics. *)
Lemma queue_migrate s id v on_rq dst wc cyc :
  queue_inv s → queue_ok (OpMigrate id v on_rq dst wc cyc) s → calm (sys_out s) →
  queue_inv (run_op e (OpMigrate id v on_rq dst wc cyc) s) ∧
  calm (sys_out (run_op e (OpMigrate id v on_rq dst wc cyc) s)).
Proof using Type.
  intros Hi (k & Hk & Hv & Hkq & Ha) Hc. cbn [run_op]. destruct (qi_task s Hi id k Hk) as [Hdem Hp].
  set (f := if tv_on_scx v then _ else _).
  assert (∀ m, sbal v m (f m)) as Hb.
  { intros m. unfold f. destruct (tv_on_scx v) eqn:Hx; [by apply plain_sbal | by apply sbal_subtraction]. }
  clearbody f. unfold with_task. rewrite Hk. cbv zeta. cbn [kt_move kt_cpu kt_queued kt_fair].
  destruct (Hb (mk_ms (sys_rqs s) (kt_wts k) (sys_lastq_ws s) (sys_out s))) as (M1 & (R1 & _ & R3 & R4) & M3).
  { split; [congruence | done]. }
  set (m := f _) in *. clearbody m. cbn [m_rqs m_task m_out] in *. split; [|by apply M3].
  apply (queue_step s id k); try done.
  - by apply R4.
  - revert Hp. unfold place_ok; cbn [kt_queued kt_wts kt_cpu]. rewrite Hkq.
    destruct R3 as (_ & _ & -> & ->). done.
  - intros i c. rewrite !qshare_unqueued by done.
    destruct (decide (c = tv_cpu v)) as [->|]; [rewrite R1 by done | rewrite M1 by done]; lia.
Qed.

Lemma scx_update v ev wc irq m : tv_on_scx v = true → plain m (m_ravg e v ev wc irq m).
Proof using Type.
  intros Hx. unfold m_ravg, walt_update_task_ravg. rewrite Hx. split_and!; try done.
  intros c. cbn [m_rqs r_rq]. destruct (decide (tv_cpu v = c)) as [<-|];
    [by rewrite fn_lookup_insert | by rewrite fn_lookup_insert_ne].
Qed.

Lemma queue_group s id v g f :
  queue_inv s → on_task s id v (λ k, tv_on_scx v = false → view_ok v k) → calm (sys_out s) →
  (∀ m, f m = let m' := if tv_on_scx v then m else g m in m_set_task (set_grp (grp (m_task (f m))) (m_task m')) m') →
  (∀ m, tv_on_scx v = false → sbal v m (g m)) →
  queue_inv (with_task id f kt_keep s) ∧ calm (sys_out (with_task id f kt_keep s)).
Proof using Type.
  intros Hi (k & Hk & Hv & Hq) Hc Hf Hg. destruct (tv_on_scx v) eqn:Hx.
  - apply (idle_step s id k); try done. intros m. rewrite Hf. by apply plain_task.
  - apply (sbal_step s id k v); auto. intros m. rewrite Hf. cbv zeta.
    apply (sbal_trans v _ (g m)); [by apply Hg|]. by apply plain_sbal, plain_task.
Qed.

Lemma queue_step_inv s op :
  queue_inv s → queue_ok op s → calm (sys_out s) →
  queue_inv (run_op e op s) ∧ calm (sys_out (run_op e op s)).
Proof using Type.
  intros Hi Hok Hc. destruct op as [id v ev wc irq|id v wc|id v on_rq dst wc cyc|id v x|id v x
    |id v g wc wc2|id v wc wc2|cpu|id cpu tc pct wd sc g t0|id|id v fits util|id].
  - destruct Hok as (k & Hk & Hv & Hq). cbn [run_op]. destruct (tv_on_scx v) eqn:Hx.
    + apply (idle_step s id k); try done. intros m. by apply scx_update.
    + apply (sbal_step s id k v); auto. intros m. by apply sbal_ravg.
  - destruct Hok as (k & Hk & Hv & _). apply (idle_step s id k); try done. intros m. apply plain_irq_start.
  - by apply queue_migrate.
  - by apply queue_enqueue.
  - by apply queue_dequeue.
  - apply (queue_group s id v (transfer_busy_time e v true wc wc2)); try done.
    intros m Hx. by apply sbal_transfer.
  - apply (queue_group s id v (transfer_busy_time e v false wc wc2)); try done.
    intros m Hx. by apply sbal_transfer.
  - cbn. destruct (account_load_subtractions (sys_rqs s cpu)) as [q o] eqn:Ha.
    assert (walt_stats q = walt_stats (sys_rqs s cpu) ∧ calm o) as [Hq Ho].
    { revert Ha. unfold account_load_subtractions, ls_check. destruct (load_subs _). intros [= <- <-].
      split; [done|]. repeat case_match; auto 10 with walt. }
    split; [|cbn; auto with walt]. split; [apply Hi|]. intros i c. cbn. rewrite <- (qi_sum s Hi i c).
    destruct (decide (cpu = c)) as [<-|]; [by rewrite fn_lookup_insert, Hq | by rewrite fn_lookup_insert_ne].
  - cbn in Hok |- *. split; [|done]. split; cbn.
    + intros j k Hj. destruct (decide (j = id)) as [->|].
      * rewrite lookup_insert_eq in Hj. injection Hj as <-. split; [|done]. split; [apply u16_range | done].
      * rewrite lookup_insert_ne in Hj by done. by apply (qi_task s Hi j).
    + intros i c. rewrite tsum_insert, qshare_unqueued by done. rewrite (qi_sum s Hi i c). lia.
  - cbn in Hok |- *. split; [|done]. split; cbn.
    + intros j k [_ Hj]%lookup_delete_Some. by apply (qi_task s Hi j).
    + intros i c. destruct (sys_tasks s !! id) as [k|] eqn:Hk.
      * destruct (qrest_sum s id k i c Hi Hk) as [-> _]. by rewrite qshare_unqueued by auto.
      * rewrite delete_id by done. apply Hi.
  - by apply queue_misfit.
  - cbn [run_op]. destruct (sys_tasks s !! id) as [k|] eqn:Hk; [|by unfold with_task; rewrite Hk].
    by apply (idle_step s id k).
Qed.
End main.

(** ** From the start *)
Lemma tget_zero fair t i :
  demand_scaled (dem t) = 0 → pred_demand_scaled (dem t) = 0 →
  walt_flag_test (flags t) WALT_GIANT_BIT = false → walt_flag_test (flags t) WALT_TRAILBLAZER_BIT = false →
  misfit (place t) = false → rtg_high_prio (place t) = false → tget fair t i = 0.
Proof. intros ? ? H1 H2 H3 H4. destruct i; cbn; rewrite ?H1, ?H2, ?H3, ?H4, ?andb_false_r; done. Qed.

Lemma init_flags e tc t0 :
  let fl := flags (init_new_task_load e 0 0 0 tc t0) in
  walt_flag_test fl WALT_GIANT_BIT = false ∧ walt_flag_test fl WALT_TRAILBLAZER_BIT = false ∧
  walt_flag_test (walt_flag_set fl WALT_IDLE_TASK_BIT true) WALT_GIANT_BIT = false ∧
  walt_flag_test (walt_flag_set fl WALT_IDLE_TASK_BIT true) WALT_TRAILBLAZER_BIT = false.
Proof.
  unfold init_new_task_load, WALT_GIANT_BIT, WALT_TRAILBLAZER_BIT, WALT_INIT_BIT, WALT_IDLE_TASK_BIT.
  cbv zeta. cbn [flags]. by rewrite !flag_test_set by lia.
Qed.

Lemma queue_start e tick tc rqs0 tasks0 idle0 :
  queue_inv (walt_init_stop_handler e tick tc rqs0 tasks0 idle0).
Proof.
  assert (∀ id k, sys_tasks (walt_init_stop_handler e tick tc rqs0 tasks0 idle0) !! id = Some k →
    dem_pos (dem (kt_wts k)) ∧ place_ok k ∧ ∀ i c, qshare i c k = 0) as Hk.
  { intros id k. cbn. rewrite lookup_union_Some_raw, !lookup_fmap.
    intros [Hi|[_ Hi]]; apply fmap_Some in Hi as (k0 & Hk0 & ->); split_and!; try (done || by (unfold place_ok; cbn; destruct (kt_queued k0); done)).
    all: intros i c; unfold qshare; cbn [kt_queued kt_cpu kt_wts kt_fair]; destruct (_ && _); [|done];
      destruct (init_flags e tc (kt_wts k0)) as (F1 & F2 & F3 & F4); by apply tget_zero. }
  split.
  - intros id k Hi. destruct (Hk id k Hi) as (? & ? & _). done.
  - intros i c. rewrite tsum_zero; [by destruct i|]. intros id k Hi. by apply (Hk id k Hi).
Qed.

Inductive queue_reachable (e : walt_env) (s0 : system) : system → Prop :=
  | qreach_start : queue_reachable e s0 s0
  | qreach_step s op : queue_reachable e s0 s → queue_ok op s → queue_reachable e s0 (run_op e op s).

Lemma queue_reachable_inv e s0 s :
  queue_inv s0 → calm (sys_out s0) → queue_reachable e s0 s → queue_inv s ∧ calm (sys_out s).
Proof.
  intros Hi Hc Hr. induction Hr as [|s op _ [IH1 IH2] Hok]; [done|]. by apply queue_step_inv.
Qed.

Fixpoint queue_ops_ok (e : walt_env) (ops : list walt_op) (s : system) : Prop :=
  match ops with
  | [] => True
  | op :: ops => queue_ok op s ∧ queue_ops_ok e ops (run_op e op s)
  end.
Lemma run_queue_reachable e s0 ops s :
  queue_reachable e s0 s → queue_ops_ok e ops s →
  queue_reachable e s0 (foldl (λ s op, run_op e op s) s ops).
Proof.
  revert s. induction ops as [|op ops IH]; intros s Hr; [done|]. intros [H1 H2]. cbn.
  apply IH; [|done]. by apply qreach_step.
Qed.
Lemma ex_queue_reachable : queue_reachable ex_env ex_start (ex_run 9).
Proof.
  apply (run_queue_reachable _ _ ex_ops); [apply qreach_start|]. unfold ex_ops. cbn [queue_ops_ok].
  repeat match goal with |- _ ∧ _ => split | |- True => exact I end; cbn [queue_ok];
    match goal with
    | |- on_task _ _ _ _ => apply on_task_get; vm_compute; intuition congruence
    | |- True => exact I
    end.
Qed.

(** C3: From the start of WALT on, when the hook calls meet the kernel's queueing rules
    ([queue_ok]), the statistics of every CPU are exactly the sums over the tasks queued on
    it: demand and predicted demand of every task, and the numbers of big, trailblazer, giant
    and high-priority group tasks among the fair ones. [queue_ok] asks: a call is about a task
    on its own CPU; the view's queued flag is right; a task changes class only while dequeued,
    and is enqueued, migrates and exits only when not queued; a dequeue is of a queued task or
    completes the delayed dequeue of one; and [sched_delayed] is not set while the task's last
    queueing call was an enqueue. *)
Theorem statistics_exact e tick tc rqs0 tasks0 idle0 s i c :
  queue_reachable e (walt_init_stop_handler e tick tc rqs0 tasks0 idle0) s →
  sget i (walt_stats (sys_rqs s c)) = tsum (qshare i c) (sys_tasks s).
Proof.
  intros Hr. destruct (queue_reachable_inv e _ s (queue_start e tick tc rqs0 tasks0 idle0)
    ltac:(constructor) Hr) as [Hi _]. by apply Hi.
Qed.
Lemma statistics_exact_witness :
  queue_reachable ex_env ex_start (ex_run 9) ∧
  tsum (qshare Cra 1) (sys_tasks (ex_run 9)) = 384 ∧
  sget Cra (walt_stats (sys_rqs (ex_run 9) 1)) = tsum (qshare Cra 1) (sys_tasks (ex_run 9)).
Proof.
  split; [exact ex_queue_reachable|]. split; [by vm_compute|].
  exact (statistics_exact ex_env 80000000 0 (λ _, ex_rq) ex_tasks ex_idle (ex_run 9) Cra 1 ex_queue_reachable).
Defined.

(** C4: From the start of WALT on, when the hook calls meet the kernel's queueing rules
    ([queue_ok]), none of the queueing checks (double enqueue or dequeue, dequeue on another
    CPU, missed delayed dequeue) and none of the checks that a statistic became negative ever
    fails. The rules speak of the kernel's queue state and of the calls made before
    ([kt_queued], [kt_told]), not of WALT's own [prev_on_rq]: a call is about a task on its
    own CPU; the view's queued flag is right; a task changes class only while dequeued, and is
    enqueued, migrates and exits only when not queued; a dequeue is of a queued task, or the
    task's last call was a dequeue and [sched_delayed] is set; and [sched_delayed] is not set
    while its last call was an enqueue. *)
Theorem queue_checks_never_fail e tick tc rqs0 tasks0 idle0 s :
  queue_reachable e (walt_init_stop_handler e tick tc rqs0 tasks0 idle0) s →
  ∀ o, o ∈ sys_out s → is_queue_bug o = false.
Proof.
  intros Hr. destruct (queue_reachable_inv e _ s (queue_start e tick tc rqs0 tasks0 idle0)
    ltac:(constructor) Hr) as [_ Hq]. exact (proj1 (list.Forall_forall _ _) Hq).
Qed.
Lemma queue_checks_never_fail_witness :
  queue_reachable ex_env ex_start (ex_run 9) ∧ CFS_ENQUEUE 1 1 ∈ sys_out (ex_run 9) ∧
  ∀ o, o ∈ sys_out (ex_run 9) → is_queue_bug o = false.
Proof.
  split; [exact ex_queue_reachable|]. split; [apply (bool_decide_unpack _); by vm_compute|].
  exact (queue_checks_never_fail ex_env 80000000 0 (λ _, ex_rq) ex_tasks ex_idle (ex_run 9) ex_queue_reachable).
Defined.
