(* ===== verification/WaltTypes.v ===== *)
(** * WALT: the types of a task's demand record

    The histories keep their five entries and the machine width of their elements,
    the ring index stays inside, the busy buckets stay bytes and the bucket bitmap
    has exactly the bits of the non-empty buckets, whatever hook calls the kernel
    makes, in whatever order and with whatever arguments.  Then: what a pushed
    window does to the history, and where the predicted demand lies. *)

From S2P Require Import Prelude.
From S2P Require Import WaltData WaltDemand WaltTop WaltWindow WaltBusy WaltMigrate WaltHooks WaltInv WaltSystem WaltStats WaltQueue.

Definition u32_typed (z : Z) : Prop := 0 ≤ z < 2 ^ 32.
Definition u16_typed (z : Z) : Prop := 0 ≤ z < 2 ^ 16.

Definition buckets_typed (bs : list Z) (mask : Z) : Prop :=
  zlen bs = NUM_BUSY_BUCKETS ∧
  (∀ i b, bs !! i = Some b → 0 ≤ b ≤ U8_MAX ∧ Z.testbit mask (Z.of_nat i) = negb (b =? 0)) ∧
  (∀ i, NUM_BUSY_BUCKETS ≤ i → Z.testbit mask i = false).

Record dem_typed (W : Z) (d : task_demand) : Prop := mk_dem_typed {
  dt_sum : 0 ≤ sum d ≤ W;
  dt_hist : zlen (sum_history d) = RAVG_HIST_SIZE ∧ Forall u32_typed (sum_history d);
  dt_util : zlen (sum_history_util d) = RAVG_HIST_SIZE ∧ Forall u16_typed (sum_history_util d);
  dt_cidx : 0 ≤ cidx d < RAVG_HIST_SIZE;
  dt_buckets : buckets_typed (busy_buckets d) (bucket_bitmask d);
  dt_demand : u32_typed (demand d) ∧ u32_typed (coloc_demand d);
  dt_scaled : u16_typed (demand_scaled d) ∧ u16_typed (pred_demand_scaled d);
  dt_high : 0 ≤ high_util_history d ≤ U8_MAX;
}.

Lemma u32_in z : u32_typed (u32 z).
Proof. unfold u32_typed, u32. apply Z.mod_pos_bound. lia. Qed.
Lemma u16_in z : u16_typed (u16 z).
Proof. apply u16_range. Qed.
#[export] Hint Resolve u32_in u16_in : walt.

(** ** Busy buckets *)
Lemma bucket_step_typed idx bs mask i bs' mask' :
  buckets_typed bs mask → 0 ≤ i < NUM_BUSY_BUCKETS →
  bucket_step idx (bs, mask) i = (bs', mask') → buckets_typed bs' mask'.
Proof.
  intros (H1 & H2 & H3) Hi. unfold bucket_step, NUM_BUSY_BUCKETS, U8_MAX in *.
  assert (Z.to_nat i < length bs)%nat as Hlen by (unfold zlen in *; lia).
  destruct (lookup_lt_is_Some_2 bs (Z.to_nat i) Hlen) as [b Hb].
  rewrite (list_lookup_total_correct _ _ _ Hb). destruct (H2 _ _ Hb) as [Hr _].
  assert (∀ x m, 0 ≤ x ≤ 255 → Z.testbit m i = negb (x =? 0) →
    (∀ j, 0 ≤ j → j ≠ i → Z.testbit m j = Z.testbit mask j) →
    buckets_typed (<[Z.to_nat i := x]> bs) m) as Hset.
  { intros x m Hx Hm Hoth. split_and!.
    - unfold zlen in *. by rewrite length_insert.
    - intros j y Hj. apply list_lookup_insert_Some in Hj as [(<- & -> & _)|[Hn Hj]].
      + rewrite Z2Nat.id by lia. done.
      + destruct (H2 _ _ Hj) as [? <-]. split; [done|]. apply Hoth; lia.
    - unfold NUM_BUSY_BUCKETS. intros j Hj. rewrite Hoth by lia. by apply H3. }
  assert (∀ j, 0 ≤ j → Z.testbit (BIT i) j = (j =? i)) as Hbit.
  { intros j Hj. unfold BIT. rewrite Z.shiftl_1_l, Z.pow2_bits_eqb by lia. apply Z.eqb_sym. }
  destruct (H2 _ _ Hb) as [_ Htb]. rewrite Z2Nat.id in Htb by lia. unfold DEC_STEP.
  destruct (negb (idx =? i)); [destruct (Z.ltb_spec 2 b)|]; intros [= <- <-].
  - apply Hset; [lia | | done]. rewrite Htb, !(proj2 (Z.eqb_neq _ 0)) by lia. done.
  - apply Hset; [lia | |].
    + by rewrite Z.ldiff_spec, Hbit, Z.eqb_refl, andb_false_r by lia.
    + intros j Hj Hn. rewrite Z.ldiff_spec, Hbit by lia. rewrite (proj2 (Z.eqb_neq _ _) Hn). apply andb_true_r.
  - unfold CONSISTENT_THRES, INC_STEP_BIG, INC_STEP.
    set (x := if _ <? b then 255 else _). assert (0 < x ≤ 255) as Hx by (unfold x; zcases; lia).
    clearbody x. apply Hset; [lia | |].
    + rewrite Z.lor_spec, Hbit, Z.eqb_refl, orb_true_r, (proj2 (Z.eqb_neq _ 0)) by lia. done.
    + intros j Hj Hn. rewrite Z.lor_spec, Hbit by lia. rewrite (proj2 (Z.eqb_neq _ _) Hn). apply orb_false_r.
Qed.

Lemma bucket_increase_typed bs mask idx :
  buckets_typed bs mask → buckets_typed (bucket_increase bs mask idx).1 (bucket_increase bs mask idx).2.
Proof.
  unfold bucket_increase. intros H.
  assert (Forall (λ i, 0 ≤ i < NUM_BUSY_BUCKETS) (seqZ 0 NUM_BUSY_BUCKETS)) as Hl.
  { apply list.Forall_forall. intros i Hi%elem_of_seqZ. lia. }
  revert bs mask H. induction Hl as [|i l Hi Hl IH]; intros bs mask H; [done|]. cbn [foldl].
  destruct (bucket_step idx (bs, mask) i) as [bs' mask'] eqn:Hs. apply IH. by eapply bucket_step_typed.
Qed.

(** ** The demand functions *)
Section typed.
Context (e : walt_env).
Local Notation W := (sched_ravg_window e).
Context (HW : 0 < W < 2 ^ 32).

Lemma push_samples_typed r n d : u32_typed r → dem_typed W d →
  dem_typed W (push_samples r (u16 (scale_time_to_util e r)) n d).
Proof using Type.
  intros Hr. unfold push_samples. generalize (Z.to_nat n) as k. intros k Hd.
  induction k as [|k IH]; [done|]. cbn [Nat.iter]. destruct IH as [T1 [T2 T2'] [T3 T3'] T4 T5 T6 T7 T8].
  split; try done; cbn.
  - split; [unfold zlen in *; by rewrite length_insert | by apply Forall_insert].
  - split; [unfold zlen in *; by rewrite length_insert | apply Forall_insert; auto with walt].
  - unfold RAVG_HIST_SIZE. apply Z.mod_pos_bound. lia.
Qed.

Lemma list_avg_range d : dem_typed W d → 0 ≤ list_sum (sum_history d) / RAVG_HIST_SIZE < 2 ^ 32.
Proof using Type.
  intros [_ [Hl Hf] _ _ _ _ _ _]. unfold RAVG_HIST_SIZE in *.
  assert (∀ l, Forall u32_typed l → 0 ≤ list_sum l ∧ list_sum l ≤ zlen l * (2 ^ 32 - 1)) as Hs.
  { intros l. induction 1 as [|x l [Hx1 Hx2] _ [IH1 IH2]]; [done|]. unfold zlen in *. cbn [list_sum foldr length].
    fold (list_sum l). lia. }
  destruct (Hs _ Hf). split; [apply Z.div_pos; lia|]. apply Z.div_lt_upper_bound; lia.
Qed.
Lemma list_max_range l : Forall u32_typed l → u32_typed (list_max l).
Proof using Type. induction 1 as [|x l Hx _ IH]; [split; cbn; lia|].
  unfold u32_typed, list_max in *. cbn [foldr]. lia. Qed.

Lemma policy_typed r d : u32_typed r → dem_typed W d →
  u32_typed (policy_demand e r (list_max (sum_history d)) (u32 (list_sum (sum_history d) / RAVG_HIST_SIZE))).
Proof using Type.
  intros Hr Hd. pose proof (list_max_range _ (proj2 (dt_hist _ _ Hd))) as Hm.
  pose proof (u32_in (list_sum (sum_history d) / RAVG_HIST_SIZE)) as Ha.
  unfold policy_demand, u32_typed in *. repeat case_match; lia.
Qed.

Lemma fixup_common_dem v d p s : ds_dem (fixup_walt_sched_stats_common e v d p s) = ds_dem s.
Proof using Type.
  unfold fixup_walt_sched_stats_common. destruct (tv_on_scx v); [done|].
  destruct (fixup_cumulative_runnable_avg _ _ _) as [st o].
  destruct (tv_fair v); [by destruct (fixup_nr_giant e (ds_flags s) st d) | done].
Qed.

Lemma trailblazer_typed v w r rs dmd s s' dmd' : u32_typed dmd → dem_typed W (ds_dem s) →
  update_trailblazer_accounting e v w r rs dmd s = (s', dmd') → u32_typed dmd' ∧ dem_typed W (ds_dem s').
Proof using Type.
  intros Hd Ht. unfold update_trailblazer_accounting. cbv zeta.
  set (d0 := if feat_trailblazer e && _ then _ else ds_dem s).
  assert (dem_typed W d0) as H0 by (unfold d0; case_match; [destruct Ht; split; done | done]). clearbody d0.
  match goal with |- context [mk_ds _ _ ?d _] => set (d1 := d) end.
  assert (dem_typed W d1) as H1.
  { pose proof (dt_high _ _ H0) as Hh. unfold U8_MAX, FINAL_BUCKET_STEP_UP, FINAL_BUCKET_STEP_DOWN in *.
    unfold d1. destruct (u16 _ <=? rs); [|case_match eqn:Hz; [|done]]; destruct H0; split; try done; cbn;
      unfold U8_MAX in *; [case_match; lia|]. apply negb_true_iff, Z.eqb_neq in Hz. lia. }
  clearbody d1. destruct (tv_accounted v); intros [= <- <-]; (split; [|done]);
    (case_match; [unfold scale_util_to_time; auto with walt | done]).
Qed.

Lemma update_history_typed v w g pws r n s : u32_typed r →
  dem_typed W (ds_dem s) → dem_typed W (ds_dem (update_history e v w g pws r n s)).
Proof using HW.
  intros Hr Ht. unfold update_history. cbv zeta. set (s0 := if _ <? _ then _ else s).
  assert (dem_typed W (ds_dem s0)) as H0 by (unfold s0; case_match; [destruct Ht; split; done | done]).
  clearbody s0. case_match; [done|].
  set (d1 := set_sum 0 _).
  assert (dem_typed W d1) as H1.
  { destruct (push_samples_typed r n (ds_dem s0) Hr H0). split; try done. cbn. lia. }
  clearbody d1. set (avg := u32 _). set (dmd := policy_demand _ _ _ _).
  assert (u32_typed dmd) as Hd by (by apply policy_typed). assert (u32_typed avg) as Ha by apply u32_in.
  clearbody dmd avg.
  destruct (trailblazer_demand _ _ _ _ _ _ _ _) as [s1 dm1] eqn:Htb.
  assert (u32_typed dm1 ∧ dem_typed W (ds_dem s1)) as [D1 T1].
  { revert Htb. unfold trailblazer_demand. case_match; [by apply trailblazer_typed | by intros [= <- <-]]. }
  set (s2 := if tv_fair v then _ else s1).
  assert (dem_typed W (ds_dem s2)) as T2.
  { unfold s2. case_match; [|done]. unfold update_obet_task. by case_match. }
  clearbody s2. unfold predict_and_update_buckets.
  destruct (bucket_increase _ _ _) as [bs m] eqn:Hb.
  pose proof (bucket_increase_typed (busy_buckets (ds_dem s2)) (bucket_bitmask (ds_dem s2))
    (busy_to_bucket (u16 (scale_time_to_util e r))) (dt_buckets _ _ T2)) as B2. rewrite Hb in B2.
  unfold commit_demand. set (s3 := if tv_accounted v then _ else _).
  assert (ds_dem s3 = set_buckets bs m (ds_dem s2)) as E3
    by (unfold s3; case_match; [by rewrite fixup_common_dem | done]).
  clearbody s3. cbn [ds_dem set_ds_dem]. rewrite E3. destruct T2. split; try done. cbn. auto with walt.
Qed.

Lemma ds_add_typed scale d s s' r : (∀ x, 0 ≤ scale x) →
  dem_typed W (ds_dem s) → ds_add e scale d s = (s', r) → dem_typed W (ds_dem s').
Proof using HW.
  intros Hs Ht. unfold ds_add, add_to_task_demand. intros [= <- <-]. destruct Ht. split; try done. cbn.
  pose proof (u32_in (sum (ds_dem s) + scale d)) as Hu. unfold u32_typed in Hu. zcases; lia.
Qed.

Lemma update_task_demand_typed v w g pws scale ev wc ws s p s' p' r : (∀ x, 0 ≤ scale x) →
  dem_typed W (ds_dem s) → update_task_demand e v w g pws scale ev wc ws s p = (s', p', r) →
  dem_typed W (ds_dem s').
Proof using HW.
  intros Hsc Ht. unfold update_task_demand. cbv zeta.
  assert (∀ s, dem_typed W (ds_dem s) → u32_typed (sum (ds_dem s))) as Hsum.
  { intros s0 [H _ _ _ _ _ _ _]. unfold u32_typed. lia. }
  case_match.
  { intros [= <- <- <-]. case_match; [by apply update_history_typed; auto | done]. }
  case_match.
  { destruct (ds_add _ _ _ s) as [s1 r1] eqn:H1. intros [= <- <- <-]. by eapply ds_add_typed. }
  destruct (ds_add _ _ _ s) as [s1 r1] eqn:H1. apply ds_add_typed in H1; try done.
  set (s2 := update_history _ _ _ _ _ (sum _) 1 s1).
  assert (dem_typed W (ds_dem s2)) as H2 by (apply update_history_typed; auto). clearbody s2.
  destruct (negb (s32 _ =? 0)); cbv beta iota.
  - destruct (ds_add _ _ _ (update_history _ _ _ _ _ _ _ s2)) as [s3 r3] eqn:H3. intros [= <- <- <-].
    eapply ds_add_typed; [done| |exact H3]. apply update_history_typed; auto with walt.
  - destruct (ds_add _ _ _ s2) as [s3 r3] eqn:H3. intros [= <- <- <-]. by eapply ds_add_typed.
Qed.

Lemma update_pred_typed v w ev s :
  dem_typed W (ds_dem s) → dem_typed W (ds_dem (update_task_pred_demand e v w ev s)).
Proof using HW.
  intros Ht. unfold update_task_pred_demand. cbv zeta. repeat (case_match; [done|]).
  set (s1 := if tv_accounted v then _ else s).
  assert (ds_dem s1 = ds_dem s) as E by (unfold s1; case_match; [apply fixup_common_dem | done]).
  clearbody s1. cbn. rewrite E. destruct Ht. split; try done. cbn. split; [tauto | apply u16_in].
Qed.

(** ** The hooks *)
Definition typed (m : mstate) : Prop := dem_typed W (dem (m_task m)).

Lemma plain_typed m m' : plain m m' → typed m → typed m'.
Proof using Type. intros (_ & H & _). unfold typed. by rewrite H. Qed.

Lemma ravg_typed v ev wc irq m : typed m → typed (m_ravg e v ev wc irq m).
Proof using HW.
  intros Ht. unfold typed, m_ravg, walt_update_task_ravg. cbv zeta. cbn [r_rq r_task r_lastq_ws r_out].
  destruct (tv_on_scx v); [done|]. destruct (_ || _); [done|].
  destruct (update_window_start _ _ _ _) as [q1 o].
  set (t1 := if window_start (win (m_task m)) =? 0 then _ else m_task m).
  assert (dem t1 = dem (m_task m)) as E1 by (unfold t1; by case_match). clearbody t1.
  destruct (mark_start (win t1) =? 0).
  { destruct (update_task_cpu_cycles e v wc q1 t1) as [q2 t2] eqn:E.
    destruct (run_walt_irq_work_rollover _ _ _). cbn.
    assert (dem t2 = dem t1) as ->; [|by rewrite E1].
    revert E. unfold update_task_cpu_cycles. destruct (read_cycle_counter _ _ _).
    by destruct (use_cycle_counter e); intros [= <- <-]. }
  destruct (update_task_rq_cpu_cycles e v ev wc irq q1 t1) as [[q2 t2] o1] eqn:E2.
  assert (dem t2 = dem t1) as D2.
  { revert E2. unfold update_task_rq_cpu_cycles. destruct (read_cycle_counter _ _ _).
    repeat case_match; by intros [= <- <- <-]. }
  destruct (run_demand e v ev wc q2 t2) as [[q3 t3] o2] eqn:E3.
  assert (dem_typed W (dem t3)) as D3.
  { revert E3. unfold run_demand. destruct (update_task_demand _ _ _ _ _ _ _ _ _ _ _) as [[ss p] r] eqn:Hd.
    intros [= <- <- <-]. eapply update_task_demand_typed in Hd; [exact Hd | apply scale_exec_time_nonneg|].
    cbn. by rewrite D2, E1. }
  destruct (run_busy e v ev wc irq q3 t3) as [[q4 t4] o3] eqn:E4.
  assert (dem t4 = dem t3) as D4 by (revert E4; unfold run_busy; by intros [= <- <- <-]).
  destruct (run_pred e v ev q4 t4) as [[q5 t5] o4] eqn:E5.
  assert (dem_typed W (dem t5)) as D5.
  { revert E5. unfold run_pred. intros [= <- <- <-]. apply update_pred_typed. cbn. by rewrite D4. }
  destruct (run_bitmap e v ev wc q5 t5) as [[q6 t6] o5] eqn:E6.
  assert (dem t6 = dem t5) as D6.
  { revert E6. unfold run_bitmap. destruct (update_busy_bitmap _ _ _ _ _ _ _ _) as [[[? ?] ?] ?].
    by intros [= <- <- <-]. }
  destruct (run_walt_irq_work_rollover _ _ _). cbn.
  case_match; cbn; by rewrite D6.
Qed.

Lemma settle_typed v wc m : typed m → typed (settle_migration e v wc m).
Proof using HW.
  intros Ht. unfold settle_migration. case_match; [|done]. unfold typed, migrate_busy_time_addition. cbv zeta.
  set (m1 := m_ravg e v TASK_UPDATE wc 0 m). assert (typed m1) as H1 by by apply ravg_typed. clearbody m1.
  apply (plain_typed _ _ (plain_join e v m1)) in H1. set (m2 := join_rq e v m1) in *. clearbody m2.
  unfold typed in H1. repeat case_match; done.
Qed.

Lemma subtraction_typed v on_rq dst wc cyc m :
  typed m → typed (migrate_busy_time_subtraction e v on_rq dst wc cyc m).
Proof using HW.
  intros Ht. unfold migrate_busy_time_subtraction. case_match; [done|]. cbv zeta.
  set (m1 := m_ravg e v TASK_MIGRATE wc 0 _). assert (typed m1) as H1 by by apply ravg_typed. clearbody m1.
  set (b := negb (enqueue_after_migration _ =? 0)). clearbody b.
  set (m2 := m_set_task _ m1). assert (typed m2) as H2 by done. clearbody m2.
  set (m3 := if b then m2 else _).
  assert (typed m3) as H3 by (unfold m3; case_match; [done | by eapply plain_typed, H2; apply plain_leave]).
  clearbody m3. unfold typed in *. by case_match.
Qed.

Lemma transfer_typed v add wc wc2 m : typed m → typed (transfer_busy_time e v add wc wc2 m).
Proof using HW.
  intros Ht. unfold transfer_busy_time. cbv zeta.
  set (m1 := m_ravg e v TASK_UPDATE wc 0 m). assert (typed m1) as H1 by by apply ravg_typed. clearbody m1.
  set (m2 := check_window v m1). assert (typed m2) as H2 by done. clearbody m2.
  set (n := is_new_task _). clearbody n. apply (settle_typed v wc2) in H2.
  case_match; (eapply plain_typed, H2); [apply plain_rq_to_group | apply plain_group_to_rq].
Qed.

Lemma enqueue_typed v x m : typed m → typed (android_rvh_enqueue_task e v x m).
Proof using HW.
  intros Ht. unfold android_rvh_enqueue_task. do 2 (case_match; [done|]). cbv zeta.
  set (m1 := if en_flag_wakeup x then _ else m). assert (m_task m1 = m_task m) as E1 by (unfold m1; by case_match).
  clearbody m1. set (m2 := if en_per_cpu_kthread x then m1 else _).
  assert (m_task m2 = m_task m) as E2 by (unfold m2; by case_match). clearbody m2.
  set (dbl := prev_on_rq _ =? 1). set (m3 := m_emit _ m2).
  assert (typed m3) as H3 by (unfold typed; cbn; by rewrite E2). clearbody m3 dbl.
  apply (settle_typed v (en_clock x)) in H3. set (m4 := settle_migration _ _ _ _) in *. clearbody m4.
  set (ts := if negb _ then _ else _). clearbody ts.
  set (m5 := m_emit [NR_PROD _ 1] _). assert (typed m5) as H5 by done. clearbody m5.
  assert (typed (enqueue_fair v x dbl m5)) as H6
    by (unfold enqueue_fair, typed, m_stats; repeat case_match; done).
  set (m6 := enqueue_fair _ _ _ _) in *. clearbody m6.
  set (m7 := if dbl then m6 else _).
  assert (typed m7) as H7 by (unfold m7, m_stats; repeat case_match; done). clearbody m7.
  assert (typed (enqueue_notify e v x m7)) as H8 by (unfold enqueue_notify, typed; repeat case_match; done).
  unfold enqueue_big_task, typed in *. repeat case_match; done.
Qed.

Lemma dequeue_typed v x m : typed m → typed (android_rvh_dequeue_task e v x m).
Proof using Type.
  intros Ht. unfold android_rvh_dequeue_task. case_match; [done|]. cbv zeta. case_match; [done|].
  set (dbl := prev_on_rq _ =? 2). clearbody dbl. set (m4 := m_set_task _ _).
  assert (typed m4) as H4 by done. clearbody m4. set (m5 := if bool_decide _ then _ else m4).
  assert (typed m5) as H5 by (unfold m5; by case_match). clearbody m5.
  set (m6 := m_emit _ m5). assert (typed m6) as H6 by done. clearbody m6.
  assert (typed (dequeue_fair v dbl m6)) as H7.
  { unfold dequeue_fair, typed, m_stats, dec_rq_walt_stats. repeat case_match; done. }
  set (m7 := dequeue_fair _ _ _) in *. clearbody m7. set (m8 := if dbl then m7 else _).
  assert (typed m8) as H8 by (unfold m8, m_stats; repeat case_match; done). clearbody m8.
  by destruct (notify_uclamp _ _ _ _ _).
Qed.
End typed.

(** ** The system *)
(** The array of a fresh task's memory, which [init_new_task_load] does not set. *)
Definition util_typed (t : walt_task_struct) : Prop :=
  zlen (sum_history_util (dem t)) = RAVG_HIST_SIZE ∧ Forall u16_typed (sum_history_util (dem t)).

Definition op_typed (op : walt_op) : Prop :=
  match op with
  | OpFork _ _ _ _ windows _ _ t0 => u32_typed windows ∧ util_typed t0
  | _ => True
  end.

Definition sys_typed (e : walt_env) (s : system) : Prop :=
  ∀ id k, sys_tasks s !! id = Some k → dem_typed (sched_ravg_window e) (dem (kt_wts k)).

Lemma init_typed e pct windows scaled tc t0 :
  0 < sched_ravg_window e < 2 ^ 32 → u32_typed windows → util_typed t0 →
  dem_typed (sched_ravg_window e) (dem (init_new_task_load e pct windows scaled tc t0)).
Proof.
  intros HW Hw Hu. unfold init_new_task_load.
  set (w := if negb (pct =? 0) then _ else windows).
  assert (u32_typed w) as Hww by (unfold w; case_match; auto with walt). clearbody w.
  split; cbn [dem sum sum_history sum_history_util cidx busy_buckets bucket_bitmask demand coloc_demand
              demand_scaled pred_demand_scaled high_util_history]; try done.
  - lia.
  - split; [done|]. apply Forall_replicate, Hww.
  - split_and!; [done | |intros; apply Z.bits_0].
    intros i b Hb. apply lookup_replicate in Hb as [-> _]. rewrite Z.bits_0. done.
  - split; [apply u16_in | done].
Qed.

Lemma with_task_typed e id f ku s :
  (∀ m, typed e m → typed e (f m)) → sys_typed e s → sys_typed e (with_task id f ku s).
Proof.
  intros Hf Hs. unfold with_task. destruct (sys_tasks s !! id) as [k|] eqn:Hk; [|done].
  intros j kj. cbn. rewrite lookup_insert_Some. intros [[<- <-]|[_ Hj]]; [|by eapply Hs].
  cbn. apply (Hf (mk_ms _ _ _ _)). by eapply Hs.
Qed.

Lemma run_op_typed e op s :
  0 < sched_ravg_window e < 2 ^ 32 → op_typed op → sys_typed e s → sys_typed e (run_op e op s).
Proof.
  intros HW Ho Hs. destruct op as [id v ev wc irq|id v wc|id v on_rq dst wc cyc|id v x|id v x
    |id v g wc wc2|id v wc wc2|cpu|id cpu tc pct wd sc g t0|id|id v fits util|id]; cbn [run_op].
  - apply with_task_typed; [|done]. intros m. by apply ravg_typed.
  - apply with_task_typed; [|done]. intros m. apply plain_typed, plain_irq_start.
  - apply with_task_typed; [|done]. intros m. case_match; [done | by apply subtraction_typed].
  - apply with_task_typed; [|done]. intros m. by apply enqueue_typed.
  - apply with_task_typed; [|done]. intros m. by apply dequeue_typed.
  - apply with_task_typed; [|done]. intros m Hm. unfold add_task_to_group, typed.
    cbn [m_task m_set_task dem set_grp]. destruct (tv_on_scx v); [done | by apply transfer_typed].
  - apply with_task_typed; [|done]. intros m Hm. unfold remove_task_from_group, typed.
    cbn [m_task m_set_task dem set_grp]. destruct (tv_on_scx v); [done | by apply transfer_typed].
  - by destruct (account_load_subtractions _).
  - destruct Ho as [Hw Hu]. intros j kj. cbn. rewrite lookup_insert_Some.
    intros [[<- <-]|[_ Hj]]; [|by eapply Hs].
    cbn [kt_wts]. exact (init_typed e pct wd sc tc t0 HW Hw Hu).
  - intros j kj. cbn. intros [_ Hj]%lookup_delete_Some. by eapply Hs.
  - apply with_task_typed; [|done]. intros m Hm. unfold android_rvh_update_misfit_status, typed, m_stats.
    cbv zeta. by case_match.
  - by apply with_task_typed.
Qed.

(** C5: The demand record of every task keeps its types: five history entries of 32
    and 16 bits, the ring index inside, bytes in the sixteen busy buckets with
    exactly the bits of the non-empty ones in the bitmap, and the window's sum at
    most a window, through every sequence of hook calls with any arguments. *)
Theorem demand_records_typed e tick tc rqs0 tasks0 idle0 ops id k :
  0 < sched_ravg_window e < 2 ^ 32 →
  (∀ i k0, tasks0 !! i = Some k0 ∨ idle0 !! i = Some k0 → util_typed (kt_wts k0)) →
  Forall op_typed ops →
  sys_tasks (foldl (λ s op, run_op e op s) (walt_init_stop_handler e tick tc rqs0 tasks0 idle0) ops) !! id
    = Some k →
  dem_typed (sched_ravg_window e) (dem (kt_wts k)).
Proof.
  intros HW H0 Hops. revert id k.
  assert (sys_typed e (walt_init_stop_handler e tick tc rqs0 tasks0 idle0)) as Hs.
  { intros i k. cbn. rewrite lookup_union_Some_raw, !lookup_fmap.
    intros [Hi|[_ Hi]]; apply fmap_Some in Hi as (k0 & Hk0 & ->); cbn [kt_wts dem set_dem];
      (apply (init_typed e 0 0 0 tc); [done | done |]; eapply H0; eauto). }
  clear H0. revert Hs. generalize (walt_init_stop_handler e tick tc rqs0 tasks0 idle0).
  induction Hops as [|op ops Ho _ IH]; intros s Hs id k; [by apply Hs|].
  cbn. apply IH. by apply run_op_typed.
Qed.
Lemma ex_util_typed i k0 : ex_tasks !! i = Some k0 ∨ ex_idle !! i = Some k0 → util_typed (kt_wts k0).
Proof.
  intros Hi. assert (kt_wts k0 = ex_wts) as ->; [|by split; [done | apply Forall_replicate]].
  unfold ex_tasks, ex_idle in Hi. destruct Hi as [Hi|Hi].
  - apply lookup_singleton_Some in Hi as [_ <-]. done.
  - apply lookup_insert_Some in Hi as [[_ <-]|[_ Hi]]; [done|]. by apply lookup_singleton_Some in Hi as [_ <-].
Qed.
Lemma demand_records_typed_witness :
  let s := foldl (λ s op, run_op ex_env op s)
             (walt_init_stop_handler ex_env 80000000 0 (λ _, ex_rq) ex_tasks ex_idle) ex_ops in
  is_Some (sys_tasks s !! 1) ∧
  ∀ k, sys_tasks s !! 1 = Some k → dem_typed (sched_ravg_window ex_env) (dem (kt_wts k)).
Proof.
  cbv zeta. split; [apply (bool_decide_unpack _); by vm_compute|]. intros k Hk.
  assert (0 < sched_ravg_window ex_env < 2 ^ 32) as HW by (cbn; lia).
  assert (Forall op_typed ex_ops) as Hops by (unfold ex_ops; repeat first [apply List.Forall_nil | apply List.Forall_cons; [exact I|]]).
  exact (demand_records_typed ex_env 80000000 0 (λ _, ex_rq) ex_tasks ex_idle ex_ops 1 k HW ex_util_typed Hops Hk).
Defined.

(** ** The history of windows *)
Section history.
Context (r rs : Z).
Local Notation pushed k d := (Nat.iter k (push_sample r rs) d).

Lemma pushed_kept k d :
  length (sum_history (pushed k d)) = length (sum_history d) ∧
  length (sum_history_util (pushed k d)) = length (sum_history_util d) ∧
  (0 ≤ cidx d < 5 → cidx (pushed k d) = (cidx d + Z.of_nat k) mod 5).
Proof using Type.
  induction k as [|k (I1 & I2 & I3)].
  - split_and!; try done. intros. cbn. rewrite Z.add_0_r, Z.mod_small by lia. done.
  - change (pushed (S k) d) with (push_sample r rs (pushed k d)). set (d' := pushed k d) in *. clearbody d'. unfold push_sample; cbn [sum_history sum_history_util cidx].
    rewrite !length_insert. split_and!; try done. intros Hc. rewrite (I3 Hc). unfold RAVG_HIST_SIZE.
    rewrite Zplus_mod_idemp_l. f_equal. lia.
Qed.

(** Entry [j] was written by one of the last [k] pushes, or is as before. *)
Lemma pushed_lookup k d j :
  0 ≤ cidx d < 5 → 0 ≤ j < 5 → length (sum_history d) = 5%nat → length (sum_history_util d) = 5%nat →
  sum_history (pushed k d) !! Z.to_nat j
    = (if (j - cidx d) mod 5 <? Z.of_nat k then Some r else sum_history d !! Z.to_nat j) ∧
  sum_history_util (pushed k d) !! Z.to_nat j
    = (if (j - cidx d) mod 5 <? Z.of_nat k then Some rs else sum_history_util d !! Z.to_nat j).
Proof using Type.
  intros Hc Hj L1 L2. induction k as [|k [I1 I2]].
  - rewrite (proj2 (Z.ltb_ge _ _)); [done|]. apply Z.mod_pos_bound. lia.
  - change (pushed (S k) d) with (push_sample r rs (pushed k d)). destruct (pushed_kept k d) as (K1 & K2 & K3). specialize (K3 Hc).
    set (d' := pushed k d) in *. clearbody d'. unfold push_sample; cbn [sum_history sum_history_util]. rewrite K3.
    destruct (decide (j = (cidx d + Z.of_nat k) mod 5)) as [->|Hn].
    + rewrite !list_lookup_insert_eq by (rewrite ?K1, ?K2, ?L1, ?L2; pose proof (Z.mod_pos_bound (cidx d + Z.of_nat k) 5); lia).
      rewrite (proj2 (Z.ltb_lt _ _)); [done|]. Z.to_euclidean_division_equations. lia.
    + rewrite !list_lookup_insert_ne by (pose proof (Z.mod_pos_bound (cidx d + Z.of_nat k) 5); lia).
      rewrite I1, I2. assert (((j - cidx d) mod 5 <? Z.of_nat k) = ((j - cidx d) mod 5 <? Z.of_nat (S k))) as ->; [|done].
      apply eq_true_iff_eq. rewrite !Z.ltb_lt. Z.to_euclidean_division_equations. lia.
Qed.
End history.

Lemma push_samples_full r rs n d : 5 ≤ n → 0 ≤ cidx d < 5 →
  zlen (sum_history d) = RAVG_HIST_SIZE → zlen (sum_history_util d) = RAVG_HIST_SIZE →
  sum_history (push_samples r rs n d) = replicate 5 r ∧
  sum_history_util (push_samples r rs n d) = replicate 5 rs.
Proof.
  unfold zlen, RAVG_HIST_SIZE. intros Hn Hc L1 L2. unfold push_samples.
  destruct (pushed_kept r rs (Z.to_nat n) d) as (K1 & K2 & _).
  assert (∀ j, (j < 5)%nat → (Z.of_nat j - cidx d) mod 5 <? Z.of_nat (Z.to_nat n) = true) as Hlt.
  { intros j Hj. apply Z.ltb_lt. pose proof (Z.mod_pos_bound (Z.of_nat j - cidx d) 5). lia. }
  split; apply list_eq_same_length with 5%nat; rewrite ?length_replicate; try lia;
    intros j x y Hj Hx Hy; apply lookup_replicate in Hy as [-> _];
    destruct (pushed_lookup r rs (Z.to_nat n) d (Z.of_nat j)) as [P1 P2]; try lia;
    rewrite Nat2Z.id, (Hlt j Hj) in P1, P2; congruence.
Qed.

(** What pushing samples leaves alone. *)
Definition set_ring (h u : list Z) (c : Z) (d : task_demand) : task_demand :=
  mk_task_demand (sum d) (demand d) (coloc_demand d) h u c (busy_buckets d) (bucket_bitmask d)
    (demand_scaled d) (pred_demand_scaled d) (unfilter d) (high_util_history d) (yield_state d).
Lemma push_samples_ring r rs n d :
  let d' := push_samples r rs n d in d' = set_ring (sum_history d') (sum_history_util d') (cidx d') d.
Proof.
  cbv zeta. unfold push_samples. induction (Z.to_nat n) as [|k IH]; [by destruct d|].
  change (Nat.iter (S k) ?f ?x) with (f (Nat.iter k f x)). rewrite IH. done.
Qed.

(** The ring index is only read to place the next sample. *)
Definition set_cidx (c : Z) (d : task_demand) : task_demand :=
  mk_task_demand (sum d) (demand d) (coloc_demand d) (sum_history d) (sum_history_util d) c
    (busy_buckets d) (bucket_bitmask d) (demand_scaled d) (pred_demand_scaled d) (unfilter d)
    (high_util_history d) (yield_state d).
Definition ds_cidx (c : Z) (s : dstate) : dstate := set_ds_dem (set_cidx c (ds_dem s)) s.

Section cidx.
Context (e : walt_env) (v : task_view) (c : Z).

Lemma fixup_common_cidx u p s :
  fixup_walt_sched_stats_common e v u p (ds_cidx c s) = ds_cidx c (fixup_walt_sched_stats_common e v u p s).
Proof using Type.
  unfold fixup_walt_sched_stats_common. destruct (tv_on_scx v); [done|].
  cbn [ds_dem ds_cidx set_ds_dem set_cidx demand_scaled pred_demand_scaled ds_stats ds_flags ds_out].
  destruct (fixup_cumulative_runnable_avg _ _ _) as [st o].
  destruct (tv_fair v); [by destruct (fixup_nr_giant _ _ _ _) | done].
Qed.

Lemma trailblazer_cidx w g r rs dmd s s' dmd' :
  trailblazer_demand e v w g r rs dmd s = (s', dmd') →
  trailblazer_demand e v w g r rs dmd (ds_cidx c s) = (ds_cidx c s', dmd').
Proof using Type.
  unfold trailblazer_demand. case_match; [|by intros [= <- <-]].
  unfold update_trailblazer_accounting. cbv zeta. destruct s as [st fl [a1 a2 a3 a4 a5 a6 a7 a8 a9 b1 b2 b3 b4] o].
  cbn [ds_dem ds_cidx set_ds_dem set_cidx ds_stats ds_flags ds_out high_util_history].
  destruct (feat_trailblazer e && (_ <? tv_rq_clock v)), (tv_accounted v);
    cbn [high_util_history set_cidx set_high_util]; intros [= <- <-]; f_equal; unfold ds_cidx, set_ds_dem;
    cbn [ds_dem ds_stats ds_flags ds_out]; f_equal; repeat case_match; done.
Qed.

Lemma commit_cidx pws dmd avg pred s :
  commit_demand e v pws dmd avg pred (ds_cidx c s) = ds_cidx c (commit_demand e v pws dmd avg pred s).
Proof using Type.
  unfold commit_demand. destruct (tv_accounted v); [rewrite fixup_common_cidx|]; done.
Qed.
End cidx.

(** C6: However many whole windows have passed, pushing five of them (the cap in
    [update_task_demand]) changes statistics, flags and demand exactly as pushing
    every one; only the position of the next sample in the ring, whose entries are
    all the same by then, differs. *)
Theorem window_cap_exact e v w g pws r n s :
  5 ≤ n → dem_typed (sched_ravg_window e) (ds_dem s) →
  ∃ c, update_history e v w g pws r n s = ds_cidx c (update_history e v w g pws r RAVG_HIST_SIZE s).
Proof.
  intros Hn Ht. unfold update_history. cbv zeta. set (s0 := if _ <? _ then _ else s).
  assert (0 ≤ cidx (ds_dem s0) < 5 ∧ zlen (sum_history (ds_dem s0)) = RAVG_HIST_SIZE ∧
    zlen (sum_history_util (ds_dem s0)) = RAVG_HIST_SIZE) as (H1 & H2 & H3).
  { destruct Ht as [_ [? _] [? _] ? _ _ _ _]. unfold s0. by case_match. }
  rewrite (proj2 (Z.eqb_neq n 0)), (proj2 (Z.eqb_neq RAVG_HIST_SIZE 0)) by (unfold RAVG_HIST_SIZE; lia).
  destruct (_ || _).
  { exists (cidx (ds_dem s0)). unfold ds_cidx, set_ds_dem, set_cidx. destruct s0 as [? ? [] ?]. done. }
  set (rs := u16 (scale_time_to_util e r)).
  exists (cidx (push_samples r rs n (ds_dem s0))). set (c := cidx (push_samples r rs n _)).
  destruct (push_samples_full r rs n (ds_dem s0) Hn H1 H2 H3) as [A1 A2].
  destruct (push_samples_full r rs RAVG_HIST_SIZE (ds_dem s0) ltac:(done) H1 H2 H3) as [B1 B2].
  assert (set_sum 0 (push_samples r rs n (ds_dem s0))
    = set_cidx c (set_sum 0 (push_samples r rs RAVG_HIST_SIZE (ds_dem s0)))) as ->.
  { rewrite (push_samples_ring r rs n), (push_samples_ring r rs RAVG_HIST_SIZE), A1, A2, B1, B2. done. }
  set (d1 := set_sum 0 (push_samples r rs RAVG_HIST_SIZE (ds_dem s0))). clearbody c d1. clear A1 A2 B1 B2.
  change (sum_history (set_cidx c d1)) with (sum_history d1).
  change (set_ds_dem (set_cidx c d1) s0) with (ds_cidx c (set_ds_dem d1 s0)).
  destruct (trailblazer_demand e v w g r rs _ (set_ds_dem d1 s0)) as [s1 dm1] eqn:Htb.
  rewrite (trailblazer_cidx e v c _ _ _ _ _ _ _ _ Htb).
  set (s2 := if tv_fair v then update_obet_task e v dm1 s1 else s1).
  assert ((if tv_fair v then update_obet_task e v dm1 (ds_cidx c s1) else ds_cidx c s1) = ds_cidx c s2) as ->.
  { unfold s2. destruct (tv_fair v); [|done]. unfold update_obet_task. cbn [ds_dem ds_cidx set_ds_dem demand set_cidx].
    by case_match. }
  clearbody s2. unfold predict_and_update_buckets.
  cbn [ds_dem ds_cidx set_ds_dem set_cidx busy_buckets bucket_bitmask].
  destruct (bucket_increase _ _ _) as [bs m].
  change (set_ds_dem (set_buckets bs m (set_cidx c (ds_dem s2))) (ds_cidx c s2))
    with (ds_cidx c (set_ds_dem (set_buckets bs m (ds_dem s2)) s2)).
  by rewrite commit_cidx.
Qed.
Definition ex_demand : task_demand :=
  mk_task_demand 0 3000000 3000000 [3000000; 2000000; 2500000; 1000000; 4000000] [384; 256; 320; 128; 512] 3
    ([0; 0; 0; 0; 0; 0; 12; 0; 8] ++ replicate 7 0) 0x140 384 384 0 0 0.
Lemma ex_demand_typed : dem_typed (sched_ravg_window ex_env) ex_demand.
Proof.
  split; try done.
  - split; [done|]. repeat constructor; done.
  - split; [done|]. repeat constructor; done.
  - split_and!; [done | |].
    + intros i b Hb.
      do 16 (destruct i as [|i]; [injection Hb as <-; by vm_compute|]). done.
    + intros i Hi. unfold NUM_BUSY_BUCKETS in Hi. apply Z.bits_above_log2; [done|].
      change (Z.log2 (bucket_bitmask ex_demand)) with 8. lia.
Qed.
Lemma window_cap_exact_witness :
  let s := mk_ds (mk_walt_sched_stats 0 0 0 400 400 0) 0 ex_demand [] in
  let run n := update_history ex_env (ex_view 0 true true 0 0) (win ex_wts) None 8000000 1000000 n s in
  dem_typed (sched_ravg_window ex_env) ex_demand ∧ cidx (ds_dem (run 7)) ≠ cidx (ds_dem (run RAVG_HIST_SIZE)) ∧
  ∃ c, run 7 = ds_cidx c (run RAVG_HIST_SIZE).
Proof.
  cbv zeta. split; [exact ex_demand_typed|]. split; [by vm_compute|].
  apply (window_cap_exact ex_env (ex_view 0 true true 0 0) (win ex_wts) None 8000000 1000000 7
    (mk_ds (mk_walt_sched_stats 0 0 0 400 400 0) 0 ex_demand [])); [lia | exact ex_demand_typed].
Defined.

(** ** The prediction *)
Lemma ffs_spec m : m ≠ 0 → (∀ j, 16 ≤ j → Z.testbit m j = false) →
  0 ≤ ffs m - 1 < 16 ∧ Z.testbit m (ffs m - 1) = true ∧ (∀ j, 0 ≤ j < ffs m - 1 → Z.testbit m j = false).
Proof.
  intros Hz Hhi. unfold ffs.
  destruct (list_find _ _) as [[k x]|] eqn:Hf.
  - apply list_find_Some in Hf as (Hl & Hx & Hmin). apply lookup_seqZ in Hl as [-> Hk].
    replace (0 + Z.of_nat k + 1 - 1) with (Z.of_nat k) by lia. replace (0 + Z.of_nat k) with (Z.of_nat k) in Hx by lia.
    split_and!; try lia; [done|]. intros j Hj. apply not_true_is_false.
    apply (Hmin (Z.to_nat j)); [apply lookup_seqZ; lia | lia].
  - exfalso. apply Hz, Z.bits_inj'. intros j Hj. rewrite Z.bits_0.
    destruct (Z.lt_ge_cases j 16); [|by apply Hhi]. apply not_true_is_false.
    rewrite list_find_None, list.Forall_forall in Hf. apply Hf, elem_of_seqZ. lia.
Qed.

(** A bucket is the first non-empty one from [start] on. *)
Definition first_bucket (d : task_demand) (start b : Z) : Prop :=
  start ≤ b < NUM_BUSY_BUCKETS ∧ busy_buckets d !!! Z.to_nat b ≠ 0 ∧
  ∀ j, start ≤ j < b → busy_buckets d !!! Z.to_nat j = 0.

Lemma bucket_bit W d j : dem_typed W d → 0 ≤ j < NUM_BUSY_BUCKETS →
  Z.testbit (bucket_bitmask d) j = negb (busy_buckets d !!! Z.to_nat j =? 0).
Proof.
  intros Ht Hj. destruct (dt_buckets _ _ Ht) as (H1 & H2 & _). unfold NUM_BUSY_BUCKETS, zlen in *.
  destruct (lookup_lt_is_Some_2 (busy_buckets d) (Z.to_nat j)) as [b Hb]; [lia|].
  destruct (H2 _ _ Hb) as [_ E]. rewrite Z2Nat.id in E by lia. by rewrite E, (list_lookup_total_correct _ _ _ Hb).
Qed.

Lemma bucket_mid b : 0 ≤ b → 0 ≤ bucket_lo b < bucket_hi b.
Proof.
  intros Hb. unfold bucket_lo, bucket_hi, SCHED_CAPACITY_SHIFT, NUM_BUSY_BUCKETS_SHIFT.
  rewrite !Z.shiftl_mul_pow2 by lia. zcases; lia.
Qed.

Lemma first_bucket_unique d start b b' : first_bucket d start b → first_bucket d start b' → b = b'.
Proof.
  intros (G1 & G2 & G3) (K1 & K2 & K3). destruct (Z.lt_trichotomy b b') as [H|[H|H]]; [|done|].
  - exfalso. apply G2, K3. lia.
  - exfalso. apply K2, G3. lia.
Qed.

(** The bitmap shifted to [start] tells the first bucket. *)
Lemma next_bucket W d start : dem_typed W d → 0 ≤ start < 16 →
  let m := Z.shiftr (bucket_bitmask d) start in
  (m = 0 → ∀ j, start ≤ j < NUM_BUSY_BUCKETS → busy_buckets d !!! Z.to_nat j = 0) ∧
  (m ≠ 0 → first_bucket d start (ffs m - 1 + start)).
Proof.
  intros Ht Hst m.
  assert (∀ j, start ≤ j < 16 → Z.testbit m (j - start) = negb (busy_buckets d !!! Z.to_nat j =? 0)) as Hm.
  { intros j Hj. unfold m. rewrite Z.shiftr_spec by lia. replace (j - start + start) with j by lia.
    apply (bucket_bit W); [done | unfold NUM_BUSY_BUCKETS; lia]. }
  assert (∀ j, 16 ≤ j + start → 0 ≤ j → Z.testbit m j = false) as Hhi.
  { intros j Hj Hj0. unfold m. rewrite Z.shiftr_spec by lia.
    apply (proj2 (proj2 (dt_buckets _ _ Ht))). unfold NUM_BUSY_BUCKETS. lia. }
  unfold NUM_BUSY_BUCKETS, first_bucket. split.
  - intros Hz j Hj. specialize (Hm j Hj). rewrite Hz, Z.bits_0 in Hm.
    symmetry in Hm. by apply negb_false_iff, Z.eqb_eq in Hm.
  - intros Hz. destruct (ffs_spec m Hz) as (F1 & F2 & F3); [intros; apply Hhi; lia|].
    set (f := ffs m - 1) in *. clearbody f.
    assert (f + start < 16) as Hlt by (destruct (Z.lt_ge_cases (f + start) 16); [done | rewrite Hhi in F2 by lia; done]).
    split_and!; [lia | done | |].
    + replace f with (f + start - start) in F2 by lia. rewrite Hm in F2 by lia.
      by apply negb_true_iff, Z.eqb_neq in F2.
    + intros j Hj. specialize (F3 (j - start) ltac:(lia)). rewrite Hm in F3 by lia.
      by apply negb_false_iff, Z.eqb_eq in F3.
Qed.

(** The predicted demand is never below the runtime seen; a new task, and one
    with no history in its own or a higher bucket, is predicted that runtime; for
    any other the prediction is at least the lower end of the first non-empty
    bucket from the runtime's own on, and inside that bucket unless it is the
    runtime itself. *)
Theorem prediction_in_bucket W w d rt :
  dem_typed W d → 0 ≤ rt →
  let start := busy_to_bucket rt in
  let p := get_pred_busy w d start rt (bucket_bitmask d) in
  rt ≤ p ∧ (is_new_task w = true → p = rt) ∧
  ((∀ j, start ≤ j < NUM_BUSY_BUCKETS → busy_buckets d !!! Z.to_nat j = 0) → p = rt) ∧
  (∀ b, is_new_task w = false → first_bucket d start b → bucket_lo b ≤ p ∧ (p < bucket_hi b ∨ p = rt)).
Proof.
  intros Ht Hrt. cbv zeta. set (start := busy_to_bucket rt).
  assert (0 ≤ start < 16) as Hst.
  { unfold start, busy_to_bucket, SCHED_CAPACITY_SHIFT, NUM_BUSY_BUCKETS_SHIFT, NUM_BUSY_BUCKETS.
    pose proof (proj2 (Z.shiftr_nonneg rt (10 - 4)) Hrt). zcases; lia. }
  clearbody start. destruct (next_bucket W d start Ht Hst) as [Hnone Hsome].
  unfold get_pred_busy. set (m := Z.shiftr _ start) in *. clearbody m.
  destruct (is_new_task w); [split_and!; try done; lia|].
  destruct (Z.eqb_spec m 0) as [Hz|Hz]; cbn [negb].
  { rewrite (proj2 (Z.leb_le NUM_BUSY_BUCKETS NUM_BUSY_BUCKETS)) by lia. split_and!; [lia | done | done |].
    intros b _ (Hb & Hne & _). exfalso. by apply Hne, Hnone. }
  specialize (Hsome Hz). set (b0 := ffs m - 1 + start) in *. clearbody b0.
  pose proof Hsome as (K1 & K2 & _). unfold NUM_BUSY_BUCKETS in *.
  rewrite (proj2 (Z.leb_gt 16 b0)) by lia. pose proof (bucket_mid b0 ltac:(lia)) as Hmid.
  set (h := match list_find _ _ with Some (_, h) => h | None => rt end).
  assert (h = rt ∨ bucket_lo b0 ≤ h < bucket_hi b0) as Hh.
  { unfold h. destruct (list_find _ _) as [[k x]|] eqn:Hf; [|by left].
    apply list_find_Some in Hf as (_ & Hx & _). by right. }
  clearbody h. set (ret := if h <? bucket_lo b0 then _ else h).
  assert (bucket_lo b0 ≤ ret ∧ (ret = rt ∨ ret < bucket_hi b0)) as [R1 R2].
  { assert (bucket_lo b0 ≤ (bucket_lo b0 + bucket_hi b0) / 2 < bucket_hi b0)
      by (Z.to_euclidean_division_equations; lia).
    unfold ret. zcases; lia. }
  clearbody ret. split_and!; [lia | done | |].
  - intros Hall. exfalso. by apply K2, Hall.
  - intros b _ Hb. rewrite (first_bucket_unique d start b b0) by done. lia.
Qed.
Lemma prediction_in_bucket_witness :
  first_bucket ex_demand (busy_to_bucket 330) 6 ∧
  let p := get_pred_busy (win_set_mark 1 (mk_task_window 0 0 0 0 (λ _, 0) (λ _, 0) 900000000)) ex_demand
             (busy_to_bucket 330) 330 (bucket_bitmask ex_demand) in
  p = 384 ∧ bucket_lo 6 ≤ p ∧ (p < bucket_hi 6 ∨ p = 330).
Proof.
  assert (first_bucket ex_demand (busy_to_bucket 330) 6) as Hf.
  { split_and!; try done. intros j Hj. change (busy_to_bucket 330) with 5 in Hj. by replace j with 5 by lia. }
  split; [exact Hf|]. cbv zeta. split; [by vm_compute|].
  apply (prediction_in_bucket (sched_ravg_window ex_env) _ ex_demand 330 ex_demand_typed ltac:(lia));
    [by vm_compute | exact Hf].
Defined.
