(* ===== verification/WaltCases.v ===== *)
(** * WALT: cases in which the code departs from what it means to do

    Runs of the definitions on concrete states. *)

From S2P Require Import Prelude.
From S2P Require Import WaltData WaltDemand WaltTop WaltWindow WaltBusy WaltMigrate WaltHooks WaltInv WaltSystem.

Definition top_env : walt_env :=
  mk_walt_env 10000000 9765 10000 [0] (λ c, [c]) (λ a b, a =? b) (λ _, 1024) (λ _, 1024)
    (λ _, 3000000) (λ _, 1500000) 1 (λ i, i) (λ c, c =? 0) false true 2 0 100 (λ _, 0) false
    (λ _, 512) false true false.
Definition load_window (curr prev : Z) : task_window := mk_task_window 1 1 curr prev (λ _, 0) (λ _, 0) 0.
Definition no_tops : top_state :=
  mk_top_state (λ _, clear_top_tasks_table) (λ _, clear_top_tasks_bitmap) false 0 0.
Definition two_tasks : top_state :=
  migrate_top_tasks_addition top_env (load_window 8000500 0)
    (migrate_top_tasks_addition top_env (load_window 9000500 0) no_tops).
(** [get_top_index] passes the old top index, a load index, as the start bit in a
    bitmap that is stored from the highest load down: when the top task leaves and
    its index was above 500, the next one below it is skipped. *)
Example top_task_forgotten :
  curr_top two_tasks = 900 ∧
  curr_top (migrate_top_tasks_subtraction top_env (load_window 9000500 0) two_tasks) = 0 ∧
  top_tasks (migrate_top_tasks_subtraction top_env (load_window 9000500 0) two_tasks) false 800 = 1.
Proof. by vm_compute. Qed.
Definition busy_prev : top_state :=
  migrate_top_tasks_addition top_env (load_window 0 9000500) no_tops.
(** A task that ran the whole window on a slow CPU has a scaled load below a window
    and lowers [prev_top], although a heavier task is in the table. *)
Example prev_top_lowered :
  prev_top busy_prev = 900 ∧
  prev_top (update_top_tasks top_env (load_window 0 4000000) 0 true true busy_prev) = 400.
Proof. by vm_compute. Qed.
(** [max_t(s64, counter - 10, 0)] subtracts in 32 bits before it clamps. *)
Example lst_counter_wraps :
  lst_state_counter (update_lst top_env (load_window 0 0) 2 false (mk_task_pipe 0 0 0 false 0 3 10 0)) = 2 ^ 32 - 7.
Proof. by vm_compute. Qed.
(** The distance between two readings of a counter that wrapped is one short. *)
Example cycle_wrap_off_by_one : cycles_between (2 ^ 64 - 1) 0 = 0.
Proof. done. Qed.
Definition ex3_env : walt_env :=
  mk_walt_env 8000000 7812 10000 [0; 1; 2] (λ c, if c =? 0 then [0] else [1; 2])
    (λ a b, negb (a =? 0) && negb (b =? 0)) (λ _, 1024) (λ _, 1024)
    (λ _, 3000000) (λ _, 1500000) 2 (λ i, i) (λ c, negb (c =? 0)) false true 2 0 100 (λ _, 0) false
    (λ _, 512) false true false.
Definition ex3_ops (first second : Z) : list walt_op :=
  [ OpUpdate 1 (ex_view 0 false true 0 81000000) PICK_NEXT_TASK 81000000 0;
    OpUpdate 1 (ex_view 0 true true 0 84000000) PUT_PREV_TASK 84000000 0;
    OpDequeue 1 (ex_view 0 true true 0 84000000) (mk_deq_view false [] 0 1024);
    OpMigrate 1 (ex_view 0 false false 0x200 84100000) false first 84100000 0;
    OpMigrate 1 (ex_view first false false 0x200 84200000) false second 84200000 0;
    OpEnqueue 1 (ex_view second false false 0x200 84300000)
      (mk_enq_view false false true false (λ _, false) false 0 1024 84300000) ].
Definition ex3_run (ops : list walt_op) : system :=
  foldl (λ s op, run_op ex3_env op s)
    (walt_init_stop_handler ex3_env 80000000 0 (λ _, ex_rq) ex_tasks ∅) ops.
(** A second migration before the enqueue overwrites [enqueue_after_migration]: after
    a move to another cluster and then inside it, the time taken from the first CPU
    is added to none. *)
Example double_migration_loses_load :
  let s := ex3_run (ex3_ops 1 2) in
  ((λ k, curr_window (win (kt_wts k))) <$> sys_tasks s !! 1,
   curr_runnable_sum (rq_time (sys_rqs s 0)), curr_runnable_sum (rq_time (sys_rqs s 1)),
   curr_runnable_sum (rq_time (sys_rqs s 2))) = (Some 1500000, 0, 0, 0).
Proof. by vm_compute. Qed.

(** ** Where the premises of the balance are needed *)

Definition last_outs (s s' : system) : list walt_out := drop (length (sys_out s)) (sys_out s').

(** The task leaves CPU 0 in a new window and is enqueued on CPU 1 with the same reading of
    the clock: [walt_update_task_ravg] returns at once when the clock is the task's
    [mark_start], the window of CPU 1 stays behind, and the check of
    [migrate_busy_time_addition] fails. *)
Definition moved_ops : list walt_op :=
  [ OpUpdate 1 (ex_view 0 false true 0 81000000) PICK_NEXT_TASK 81000000 0;
    OpDequeue 1 (ex_view 0 true true 0 84000000) (mk_deq_view false [] 0 1024);
    OpMigrate 1 (ex_view 0 false false 0x200 89000000) false 1 89000000 0 ].
Example enqueue_at_the_same_clock :
  let s := foldl (λ s op, run_op ex_env op s) ex_start moved_ops in
  BUG_WINDOW_MISMATCH ∈ last_outs s (run_op ex_env (OpEnqueue 1 (ex_view 1 false false 0x200 89000000)
    (mk_enq_view false false true false (λ _, false) false 0 1024 89000000)) s).
Proof. apply (bool_decide_unpack _). by vm_compute. Qed.

(** A task that is new for twelve windows moves to CPU 1 and joins a group before it is enqueued.
    [transfer_busy_time] asks whether it is new and then reads the clock again; a window
    begins in between, the task is not new any more when its time is added, and the check
    on the sum of the new tasks fails. *)
Definition new_ops : list walt_op :=
  OpUpdate 1 (ex_view 0 false true 0 81000000) PICK_NEXT_TASK 81000000 0 ::
  map (λ i, OpUpdate 1 (ex_view 0 true true 0 (81000000 + 8000000 * i)) TASK_UPDATE (81000000 + 8000000 * i) 0) (seqZ 1 12) ++
  [ OpUpdate 1 (ex_view 0 true true 0 178000000) PUT_PREV_TASK 178000000 0;
    OpDequeue 1 (ex_view 0 true true 0 178000000) (mk_deq_view false [] 0 1024);
    OpMigrate 1 (ex_view 0 false false 0x200 179000000) false 1 179000000 0 ].
Example new_task_settled_in_next_window :
  let s := foldl (λ s op, run_op ex_env op s) ex_start new_ops in
  let joined wc2 := run_op ex_env (OpJoinGroup 1 (ex_view 1 false false 0x200 183000000) 1 183000000 wc2) s in
  BUG_BUSY_UNDERFLOW ∈ last_outs s (joined 185000000) ∧ ¬ BUG_BUSY_UNDERFLOW ∈ last_outs s (joined 183500000).
Proof. split; apply (bool_decide_unpack _); by vm_compute. Qed.
