(* ===== verification/CoreCtl.v ===== *)
(** * Core control: how many CPUs a cluster needs (kernel/sched/walt/core_ctl.c)

    Core control keeps, per cluster, the parameters written through sysfs, the load
    seen in the last window and the number of CPUs needed, and pauses or resumes
    CPUs to meet it.  This file has the state, the sysfs stores, the load
    evaluation and [eval_need]; CoreCtlAct has the enforcement.  The halting of
    CPUs is WaltHalt's; its state is part of ours.  [nr_stats] and the other
    answers of the scheduler are in [ctl_env]; they may change from call to call.
    The configuration is the shipped one: CONFIG_OPLUS_FEATURE_SCHED_EXT and
    CONFIG_OPLUS_FEATURE_PIPELINE on. *)

From S2P Require Import Prelude.
From S2P Require Import WaltHalt.

Definition MAX_CPUS_PER_CLUSTER : Z := 6.
Definition MAX_CLUSTERS : Z := 4.
Definition MAX_NR_THRESHOLD : Z := 4.
Definition GIANT_TASK_OFFLINE_DELAY_NS : Z := 300000000.

Record sched_avg_stats := mk_avg_stats {
  nr : Z;
  nr_misfit : Z;
  nr_max : Z;
  nr_scaled : Z;
  nr_giant : Z;
}.

(** ** State *)

(** What sysfs writes. *)
Record cluster_params := mk_params {
  min_cpus : Z;
  min_partial_cpus : Z;
  max_cpus : Z;
  offline_delay_ms : Z;
  busy_up_thres : Z → Z;
  busy_down_thres : Z → Z;
  task_thres : Z;
  enable : bool;
  nr_not_preferred_cpus : Z;
  nrrun_cpu_mask : cpumask;
  nrrun_cpu_misfit_mask : cpumask;
  nrrun_cpu_min_misfit : Z;
  assist_cpu_mask : cpumask;
  assist_cpu_misfit_mask : cpumask;
  assist_cpu_min_misfit : Z;
}.

(** The load of the last window. *)
Record cluster_load := mk_load {
  nrrun : Z;
  max_nr : Z;
  nr_assist : Z;
  nr_busy : Z;
  nr_big : Z;
  strict_nrrun : Z;
}.

Record cluster_data := mk_cluster {
  inited : bool;
  num_cpus : Z;
  cpu_mask : cpumask;
  first_cpu : Z;
  lru : list Z;                (* CPUs, the next one to act on first *)
  params : cluster_params;
  cl_load : cluster_load;
  active_cpus : Z;
  need_cpus : Z;
  need_ts : Z;
  boost : Z;
}.

Record cpu_data := mk_cpu {
  is_busy : bool;
  busy_pct : Z;
  not_preferred : bool;
  disabled : bool;
  cluster : option nat;
}.

(** The single-big-thread mode. *)
Record sbt_state := mk_sbt {
  cpus_for_sbt_pause : cpumask;
  prev_is_sbt : bool;
  now_is_sbt : bool;
  prev_is_sbt_windows : Z;
  sysctl_sched_sbt_pause_cpus : Z;
  written_once : bool;
}.

Inductive ctl_event :=
  | ROTATION_CHECKPOINT (window_start giant : Z)
  | SMART_FREQ (window_start big_avg wakeup_ctr_sum : Z)
  | CALL_NOTIFIER (nr_big : Z)
  | WAKE_UP_THREAD.

Record core_ctl := mk_ctl {
  clusters : list cluster_data;
  cpu_state : Z → cpu_data;
  cpus_paused_by_us : cpumask;
  cpus_part_paused_by_us : cpumask;
  part_haltable : cpumask;
  halts : halt;
  core_ctl_pending : bool;
  initialized : bool;
  assist_params_initialized : bool;
  core_ctl_check_timestamp : Z;
  last_nr_big : Z;
  sbt : sbt_state;
  ctl_out : list ctl_event;
}.

Record ctl_env := mk_ctl_env {
  nr_stats : Z → sched_avg_stats;          (* sched_get_nr_running_avg() *)
  sched_cpu_high_irqload : Z → bool;
  sched_get_cpu_util_pct : Z → Z;
  cpu_active : Z → bool;
  scx_enabled : bool;
  oplus_is_pipeline_scene : bool;
  walt_rotation_stop_hyst_start_ts : Z;
  ktime_ms : Z;                            (* ktime_to_ms(ktime_get()) *)
  sched_clock : Z;                         (* walt_sched_clock() *)
  sysctl_sched_sbt_enable : bool;
  sysctl_sched_sbt_delay_windows : Z;
  any_large_above_util_threshold : Z → bool;
  is_large_cpu_cap_low : bool;
  sched_clusters : list cpumask;           (* cpu_array[0]; the clusters of for_each_sched_cluster *)
  NR_CPUS : Z;
  core_ctl_notifier_head : bool;           (* a notifier is registered *)
  cpu_device : Z → option bool;            (* get_cpu_device(); its offline_disabled *)
  kobject_add : Z → Z;
}.

(** ** Field updates *)
Definition set_need (act need ts : Z) (c : cluster_data) : cluster_data :=
  mk_cluster (inited c) (num_cpus c) (cpu_mask c) (first_cpu c) (lru c) (params c) (cl_load c)
    act need ts (boost c).
Definition set_boost (b : Z) (c : cluster_data) : cluster_data :=
  mk_cluster (inited c) (num_cpus c) (cpu_mask c) (first_cpu c) (lru c) (params c) (cl_load c)
    (active_cpus c) (need_cpus c) (need_ts c) b.
Definition set_params (p : cluster_params) (c : cluster_data) : cluster_data :=
  mk_cluster (inited c) (num_cpus c) (cpu_mask c) (first_cpu c) (lru c) p (cl_load c)
    (active_cpus c) (need_cpus c) (need_ts c) (boost c).
Definition set_load (l : cluster_load) (c : cluster_data) : cluster_data :=
  mk_cluster (inited c) (num_cpus c) (cpu_mask c) (first_cpu c) (lru c) (params c) l
    (active_cpus c) (need_cpus c) (need_ts c) (boost c).
Definition set_lru (l : list Z) (c : cluster_data) : cluster_data :=
  mk_cluster (inited c) (num_cpus c) (cpu_mask c) (first_cpu c) l (params c) (cl_load c)
    (active_cpus c) (need_cpus c) (need_ts c) (boost c).
Definition set_active (n : Z) (c : cluster_data) : cluster_data :=
  set_need n (need_cpus c) (need_ts c) c.

Definition set_clusters (l : list cluster_data) (s : core_ctl) : core_ctl :=
  mk_ctl l (cpu_state s) (cpus_paused_by_us s) (cpus_part_paused_by_us s) (part_haltable s) (halts s)
    (core_ctl_pending s) (initialized s) (assist_params_initialized s) (core_ctl_check_timestamp s)
    (last_nr_big s) (sbt s) (ctl_out s).
Definition set_cluster (i : nat) (c : cluster_data) (s : core_ctl) : core_ctl :=
  set_clusters (<[i := c]> (clusters s)) s.
Definition set_cpus (f : Z → cpu_data) (s : core_ctl) : core_ctl :=
  mk_ctl (clusters s) f (cpus_paused_by_us s) (cpus_part_paused_by_us s) (part_haltable s) (halts s)
    (core_ctl_pending s) (initialized s) (assist_params_initialized s) (core_ctl_check_timestamp s)
    (last_nr_big s) (sbt s) (ctl_out s).
Definition set_paused (m pm : cpumask) (h : halt) (s : core_ctl) : core_ctl :=
  mk_ctl (clusters s) (cpu_state s) m pm (part_haltable s) h
    (core_ctl_pending s) (initialized s) (assist_params_initialized s) (core_ctl_check_timestamp s)
    (last_nr_big s) (sbt s) (ctl_out s).
Definition set_haltable (m : cpumask) (s : core_ctl) : core_ctl :=
  mk_ctl (clusters s) (cpu_state s) (cpus_paused_by_us s) (cpus_part_paused_by_us s) m (halts s)
    (core_ctl_pending s) (initialized s) (assist_params_initialized s) (core_ctl_check_timestamp s)
    (last_nr_big s) (sbt s) (ctl_out s).
Definition set_pending (b : bool) (s : core_ctl) : core_ctl :=
  mk_ctl (clusters s) (cpu_state s) (cpus_paused_by_us s) (cpus_part_paused_by_us s) (part_haltable s)
    (halts s) b (initialized s) (assist_params_initialized s) (core_ctl_check_timestamp s)
    (last_nr_big s) (sbt s) (ctl_out s).
Definition set_check (params_ok : bool) (ts : Z) (s : core_ctl) : core_ctl :=
  mk_ctl (clusters s) (cpu_state s) (cpus_paused_by_us s) (cpus_part_paused_by_us s) (part_haltable s)
    (halts s) (core_ctl_pending s) (initialized s) params_ok ts (last_nr_big s) (sbt s) (ctl_out s).
Definition set_nr_big (n : Z) (s : core_ctl) : core_ctl :=
  mk_ctl (clusters s) (cpu_state s) (cpus_paused_by_us s) (cpus_part_paused_by_us s) (part_haltable s)
    (halts s) (core_ctl_pending s) (initialized s) (assist_params_initialized s)
    (core_ctl_check_timestamp s) n (sbt s) (ctl_out s).
Definition set_sbt (x : sbt_state) (s : core_ctl) : core_ctl :=
  mk_ctl (clusters s) (cpu_state s) (cpus_paused_by_us s) (cpus_part_paused_by_us s) (part_haltable s)
    (halts s) (core_ctl_pending s) (initialized s) (assist_params_initialized s)
    (core_ctl_check_timestamp s) (last_nr_big s) x (ctl_out s).
Definition ctl_emit (o : list ctl_event) (s : core_ctl) : core_ctl :=
  mk_ctl (clusters s) (cpu_state s) (cpus_paused_by_us s) (cpus_part_paused_by_us s) (part_haltable s)
    (halts s) (core_ctl_pending s) (initialized s) (assist_params_initialized s)
    (core_ctl_check_timestamp s) (last_nr_big s) (sbt s) (ctl_out s ++ o).

Definition set_is_busy (b : bool) (d : cpu_data) : cpu_data :=
  mk_cpu b (busy_pct d) (not_preferred d) (disabled d) (cluster d).
Definition set_busy_pct (n : Z) (d : cpu_data) : cpu_data :=
  mk_cpu (is_busy d) n (not_preferred d) (disabled d) (cluster d).
Definition set_not_preferred (b : bool) (d : cpu_data) : cpu_data :=
  mk_cpu (is_busy d) (busy_pct d) b (disabled d) (cluster d).
Definition set_cpu_cluster (dis : bool) (i : nat) (d : cpu_data) : cpu_data :=
  mk_cpu (is_busy d) (busy_pct d) (not_preferred d) dis (Some i).

(** [cpumask_weight] *)
Definition weight (m : cpumask) : Z := Z.of_nat (size m).
Definition zsum (f : Z → Z) (l : list Z) : Z := foldr (λ c a, f c + a) 0 l.

Section eval.
Context (he : halt_env) (e : ctl_env).

Definition cpu_halted (s : core_ctl) (c : Z) : bool := bool_decide (c ∈ cpu_halt_mask (halts s)).
Definition cpu_partial_halted (s : core_ctl) (c : Z) : bool :=
  bool_decide (c ∈ cpu_partial_halt_mask (halts s)).

(** ** Counting CPUs *)
Definition active_cpu_count_from_mask (s : core_ctl) (m : cpumask) : Z :=
  weight ((m ∖ cpu_halt_mask (halts s)) ∖ cpu_partial_halt_mask (halts s)).
Definition get_active_cpu_count (s : core_ctl) (cl : cluster_data) : Z :=
  active_cpu_count_from_mask s (cpu_mask cl).
Definition get_assist_active_cpu_count (s : core_ctl) (cl : cluster_data) : Z :=
  weight ((assist_cpu_mask (params cl) ∖ cpu_halt_mask (halts s)) ∖ cpu_partial_halt_mask (halts s)).
Definition cluster_paused_cpus (s : core_ctl) (cl : cluster_data) : Z :=
  weight (cpu_mask cl ∩ (cpus_paused_by_us s ∪ cpus_part_paused_by_us s)).
Definition is_active (s : core_ctl) (c : Z) : bool :=
  cpu_active e c && negb (cpu_halted s c) && negb (cpu_partial_halted s c).

(** ** The load of a window *)
Definition not_part (s : core_ctl) (m : cpumask) : list Z :=
  filter (λ c, cpu_partial_halted s c = false) (cpus_of he m).

Definition compute_cluster_nr_run (s : core_ctl) (cl : cluster_data) : Z :=
  let m := nrrun_cpu_mask (params cl) in
  let nr_need := zsum (λ c, nr (nr_stats e c)) (not_part s m) in
  if bool_decide (m ∩ cpu_partial_halt_mask (halts s) ≠ ∅) &&
     (active_cpu_count_from_mask s m <=? u32 nr_need)
  then s32 (nr_need - active_cpu_count_from_mask s m) else nr_need.

Definition compute_cluster_nr_misfit (cl : cluster_data) : Z :=
  zsum (λ c, nr_misfit (nr_stats e c)) (cpus_of he (nrrun_cpu_misfit_mask (params cl))).

Definition compute_cluster_max_nr (s : core_ctl) (cl : cluster_data) : Z :=
  foldl (λ m c, Z.max m (nr_max (nr_stats e c))) 0 (not_part s (cpu_mask cl)).

Definition compute_cluster_nr_run_assist (s : core_ctl) (cl : cluster_data) : Z :=
  zsum (λ c, nr (nr_stats e c)) (not_part s (assist_cpu_mask (params cl))).

Definition compute_cluster_nr_misfit_assist (s : core_ctl) (cl : cluster_data) : Z :=
  zsum (λ c, nr_misfit (nr_stats e c)) (not_part s (assist_cpu_misfit_mask (params cl))).

Definition cluster_real_big_tasks (index : nat) (cl : cluster_data) : Z :=
  zsum (λ c, if decide (index = 0%nat) then nr_misfit (nr_stats e c) else nr (nr_stats e c))
    (cpus_of he (cpu_mask cl)).

(** Over all clusters; only for the first. *)
Definition compute_cluster_nr_strict_need (s : core_ctl) (index : nat) : Z :=
  if negb (bool_decide (index = 0%nat)) then 0 else
  foldl (λ a icl, let '(i, cl) := icl in
           let scaled := Z.quot (zsum (λ c, nr_scaled (nr_stats e c)) (not_part s (cpu_mask cl))) 100 in
           if decide (i = 0%nat) then a + scaled else a + Z.max 0 (scaled - active_cpus cl))
    0 (imap pair (clusters s)).

(** One CPU of the cluster: its new busy state. *)
Definition busy_now (s : core_ctl) (cl : cluster_data) (thres_idx : Z) (c : Z) : bool :=
  let d := cpu_state s c in
  if cpu_partial_halted s c then false
  else if (busy_up_thres (params cl) thres_idx <=? busy_pct d) || sched_cpu_high_irqload e c then true
  else if busy_pct d <? busy_down_thres (params cl) thres_idx then false
  else is_busy d.


(** Updates [active_cpus] and the CPUs' busy states. *)
Definition compute_cluster_nr_busy (i : nat) (cl : cluster_data) (s : core_ctl)
    : Z * cluster_data * core_ctl :=
  let cl := set_active (get_active_cpu_count s cl) cl in
  let thres_idx := if active_cpus cl =? 0 then 0 else active_cpus cl - 1 in
  let busy := busy_now s cl thres_idx in
  let cpus := foldl (λ f c, <[c := set_is_busy (busy c) (f c)]> f) (cpu_state s) (lru cl) in
  (zsum (λ c, if cpu_partial_halted s c then 0 else if busy c then 1 else 0) (lru cl), cl,
   set_cluster i cl (set_cpus cpus s)).

(** One cluster's turn in [update_running_avg]; the numbers of big and giant tasks. *)
Definition update_cluster_avg (i : nat) (cl : cluster_data) (s : core_ctl) : core_ctl * Z * Z :=
  let p := params cl in
  let nr_need := compute_cluster_nr_run s cl in
  let nr_misfit_need := compute_cluster_nr_misfit cl in
  let target_misfit := if nrrun_cpu_min_misfit p <? u32 nr_misfit_need then u32 nr_misfit_need else 0 in
  let nrrun' := s32 (nr_need + target_misfit) in
  let max_nr' := u32 (compute_cluster_max_nr s cl) in
  let nr_assist_need := compute_cluster_nr_run_assist s cl in
  let nr_misfit_assist_need := compute_cluster_nr_misfit_assist s cl in
  let target_assist := if assist_cpu_min_misfit p <? u32 nr_misfit_assist_need
                       then u32 nr_misfit_assist_need else 0 in
  let strict := u32 (compute_cluster_nr_strict_need s i) in
  let assist_active := get_assist_active_cpu_count s cl in
  let assist :=
    if bool_decide (assist_cpu_mask p ∩ cpus_paused_by_us s = ∅) &&
       bool_decide (assist_cpu_mask p ∩ cpus_part_paused_by_us s = ∅) &&
       (assist_active <? u32 (nr_assist_need + target_assist))
    then u32 (nr_assist_need + target_assist - assist_active) else 0 in
  let '(busy, cl, s) := compute_cluster_nr_busy i cl s in
  let big := cluster_real_big_tasks i cl in
  let cl := set_load (mk_load nrrun' max_nr' assist (u32 busy) (u32 big) strict) cl in
  (set_cluster i cl s, big, zsum (λ c, nr_giant (nr_stats e c)) (cpus_of he (cpu_mask cl))).

(** Visits the clusters in order; each turn sees the state the earlier ones left. *)
Definition for_each_cluster {A} (f : nat → cluster_data → core_ctl * A → core_ctl * A)
    (sa : core_ctl * A) : core_ctl * A :=
  foldl (λ sa i, match clusters sa.1 !! i with Some cl => f i cl sa | None => sa end)
    sa (seq 0 (length (clusters sa.1))).

Definition update_running_avg (window_start wakeup_ctr_sum : Z) (s : core_ctl) : core_ctl :=
  let '(s, (big_avg, giant)) :=
    for_each_cluster (λ i cl sa,
      let '(s, (big, gi)) := sa in
      if negb (inited cl) then sa else
      let '(s, b, g) := update_cluster_avg i cl s in (s, (big + b, gi + g)))
      (s, (0, 0)) in
  ctl_emit [ROTATION_CHECKPOINT window_start giant; SMART_FREQ window_start big_avg wakeup_ctr_sum]
    (set_nr_big (u32 big_avg) s).

(** ** The need *)
Definition apply_task_need (cl : cluster_data) : Z :=
  let l := cl_load cl in
  if task_thres (params cl) <=? u32 (nrrun l) then num_cpus cl else
  let need := s32 (nr_busy l) in
  let need := s32 (need + nr_assist l) in
  let need := if need <? nrrun l then need + 1 else need in
  let need := if MAX_NR_THRESHOLD <? max_nr l then need + 1 else need in
  let need := if u32 need <? strict_nrrun l then s32 (strict_nrrun l) else need in
  u32 need.

Definition apply_limits (cl : cluster_data) (need : Z) : Z :=
  if negb (enable (params cl)) || scx_enabled e then num_cpus cl
  else if negb (boost cl =? 0) && oplus_is_pipeline_scene e then num_cpus cl
  else Z.min (Z.max (min_cpus (params cl)) need) (max_cpus (params cl)).

Definition adjustment_possible (s : core_ctl) (cl : cluster_data) (need : Z) : bool :=
  (need <? active_cpus cl) || ((active_cpus cl <? need) && negb (cluster_paused_cpus s cl =? 0)).

(** The need before the limits. *)
Definition raw_need (cl : cluster_data) (window_start : Z) : Z :=
  if negb (boost cl =? 0) || negb (enable (params cl)) ||
     (negb (walt_rotation_stop_hyst_start_ts e =? 0) &&
      (u64 (window_start - walt_rotation_stop_hyst_start_ts e) <? GIANT_TASK_OFFLINE_DELAY_NS))
  then max_cpus (params cl) else apply_task_need cl.

(** Whether the number of CPUs is to be changed now, and the cluster. *)
Definition eval_cluster (s : core_ctl) (cl : cluster_data) (window_start : Z) : bool * cluster_data :=
  if negb (inited cl) then (false, cl) else
  let new_need := apply_limits cl (raw_need cl window_start) in
  let last_need := need_cpus cl in
  let now := ktime_ms e in
  let commit adj_now :=
    if adj_now : bool then (adjustment_possible s cl new_need, set_need (active_cpus cl) new_need now cl)
    else (false, cl) in
  if active_cpus cl <? new_need then commit true
  else if (new_need =? last_need) && (new_need =? active_cpus cl)
  then (false, set_need (active_cpus cl) last_need now cl)
  else commit (offline_delay_ms (params cl) <=? now - need_ts cl).

Definition eval_need (i : nat) (window_start : Z) (s : core_ctl) : bool * core_ctl :=
  match clusters s !! i with
  | None => (false, s)
  | Some cl => let '(b, cl) := eval_cluster s cl window_start in (b, set_cluster i cl s)
  end.

Definition wake_up_core_ctl_thread (s : core_ctl) : core_ctl :=
  ctl_emit [WAKE_UP_THREAD] (set_pending true s).

Definition sysfs_param_changed (i : nat) (s : core_ctl) : core_ctl :=
  let '(b, s) := eval_need i (sched_clock e) s in
  if b then wake_up_core_ctl_thread s else s.

(** ** The sysfs stores

    [val] is what [sscanf] or [kstrtoul] converted; a store answers [count] or an
    error. *)
Definition with_cluster (i : nat) (s : core_ctl) (k : cluster_data → Z * core_ctl) : Z * core_ctl :=
  match clusters s !! i with Some cl => k cl | None => (- EIO, s) end.

(** Writes the parameters and re-evaluates the need. *)
Definition change_params (i : nat) (cl : cluster_data) (p : cluster_params) (s : core_ctl) : core_ctl :=
  sysfs_param_changed i (set_cluster i (set_params p cl) s).

Definition p_limits (mn mp mx : Z) (p : cluster_params) : cluster_params :=
  mk_params mn mp mx (offline_delay_ms p) (busy_up_thres p) (busy_down_thres p) (task_thres p) (enable p)
    (nr_not_preferred_cpus p) (nrrun_cpu_mask p) (nrrun_cpu_misfit_mask p) (nrrun_cpu_min_misfit p)
    (assist_cpu_mask p) (assist_cpu_misfit_mask p) (assist_cpu_min_misfit p).
Definition p_delay (d thres : Z) (en : bool) (p : cluster_params) : cluster_params :=
  mk_params (min_cpus p) (min_partial_cpus p) (max_cpus p) d (busy_up_thres p) (busy_down_thres p) thres en
    (nr_not_preferred_cpus p) (nrrun_cpu_mask p) (nrrun_cpu_misfit_mask p) (nrrun_cpu_min_misfit p)
    (assist_cpu_mask p) (assist_cpu_misfit_mask p) (assist_cpu_min_misfit p).
Definition p_busy (up down : Z → Z) (np : Z) (p : cluster_params) : cluster_params :=
  mk_params (min_cpus p) (min_partial_cpus p) (max_cpus p) (offline_delay_ms p) up down (task_thres p) (enable p)
    np (nrrun_cpu_mask p) (nrrun_cpu_misfit_mask p) (nrrun_cpu_min_misfit p)
    (assist_cpu_mask p) (assist_cpu_misfit_mask p) (assist_cpu_min_misfit p).
Definition p_masks (rm rmm : cpumask) (rmin : Z) (am amm : cpumask) (amin : Z) (p : cluster_params)
    : cluster_params :=
  mk_params (min_cpus p) (min_partial_cpus p) (max_cpus p) (offline_delay_ms p) (busy_up_thres p)
    (busy_down_thres p) (task_thres p) (enable p) (nr_not_preferred_cpus p) rm rmm rmin am amm amin.

Definition store_min_cpus (i : nat) (val : option Z) (count : Z) (s : core_ctl) : Z * core_ctl :=
  with_cluster i s (λ cl, match val with
  | None => (- EINVAL, s)
  | Some v => let p := params cl in
      (count, change_params i cl (p_limits (Z.min v (num_cpus cl)) (min_partial_cpus p) (max_cpus p) p) s)
  end).

Definition store_min_partial_cpus (i : nat) (val : option Z) (count : Z) (s : core_ctl) : Z * core_ctl :=
  with_cluster i s (λ cl, match val with
  | None => (- EINVAL, s)
  | Some v => let p := params cl in let n := Z.min v (num_cpus cl) in
      let s := change_params i cl (p_limits (min_cpus p) n (max_cpus p) p) s in
      (count, set_haltable (if negb (n =? 0) then part_haltable s ∪ cpu_mask cl
                            else part_haltable s ∖ cpu_mask cl) s)
  end).

Definition store_max_cpus (i : nat) (val : option Z) (count : Z) (s : core_ctl) : Z * core_ctl :=
  with_cluster i s (λ cl, match val with
  | None => (- EINVAL, s)
  | Some v => let p := params cl in
      (count, change_params i cl (p_limits (min_cpus p) (min_partial_cpus p) (Z.min v (num_cpus cl)) p) s)
  end).

Definition store_offline_delay_ms (i : nat) (val : option Z) (count : Z) (s : core_ctl) : Z * core_ctl :=
  with_cluster i s (λ cl, match val with
  | None => (- EINVAL, s)
  | Some v => let p := params cl in (count, change_params i cl (p_delay v (task_thres p) (enable p) p) s)
  end).

Definition store_task_thres (i : nat) (val : option Z) (count : Z) (s : core_ctl) : Z * core_ctl :=
  with_cluster i s (λ cl, match val with
  | None => (- EINVAL, s)
  | Some v => if v <? num_cpus cl then (- EINVAL, s) else
      let p := params cl in (count, change_params i cl (p_delay (offline_delay_ms p) v (enable p) p) s)
  end).

Definition store_enable (i : nat) (val : option Z) (count : Z) (s : core_ctl) : Z * core_ctl :=
  with_cluster i s (λ cl, match val with
  | None => (- EINVAL, s)
  | Some v => let bval := negb (v =? 0) in let p := params cl in
      (count, if negb (eqb bval (enable p)) then
                change_params i cl (p_delay (offline_delay_ms p) (task_thres p) bval p) s else s)
  end).

(** One value for all the cluster's CPUs, or one for each. *)
Definition thresholds (cl : cluster_data) (vals : list Z) (old : Z → Z) : option (Z → Z) :=
  let ret := Z.of_nat (length vals) in
  if negb (ret =? 1) && negb (ret =? num_cpus cl) then None
  else Some (λ j, if (0 <=? j) && (j <? num_cpus cl)
                  then (if ret =? 1 then nth 0 vals 0 else nth (Z.to_nat j) vals 0) else old j).

Definition store_busy_up_thres (i : nat) (vals : list Z) (count : Z) (s : core_ctl) : Z * core_ctl :=
  with_cluster i s (λ cl, let p := params cl in
  match thresholds cl vals (busy_up_thres p) with
  | None => (- EINVAL, s)
  | Some f => (count, change_params i cl (p_busy f (busy_down_thres p) (nr_not_preferred_cpus p) p) s)
  end).

Definition store_busy_down_thres (i : nat) (vals : list Z) (count : Z) (s : core_ctl) : Z * core_ctl :=
  with_cluster i s (λ cl, let p := params cl in
  match thresholds cl vals (busy_down_thres p) with
  | None => (- EINVAL, s)
  | Some f => (count, change_params i cl (p_busy (busy_up_thres p) f (nr_not_preferred_cpus p) p) s)
  end).

(** The CPUs of the cluster are those from [first_cpu] on. *)
Definition store_not_preferred (i : nat) (vals : list Z) (count : Z) (s : core_ctl) : Z * core_ctl :=
  with_cluster i s (λ cl, let p := params cl in
  if negb (Z.of_nat (length vals) =? num_cpus cl) then (- EINVAL, s) else
  let cpus := foldl (λ f iv, <[first_cpu cl + Z.of_nat iv.1 :=
                        set_not_preferred (negb (iv.2 =? 0)) (f (first_cpu cl + Z.of_nat iv.1))]> f)
                (cpu_state s) (imap pair vals) in
  let n := zsum (λ v, if v =? 0 then 0 else 1) vals in
  (count, set_cluster i (set_params (p_busy (busy_up_thres p) (busy_down_thres p) n p) cl) (set_cpus cpus s))).

(** The CPUs of a bit mask. *)
Definition to_cpumask (bits : Z) : cpumask :=
  list_to_set (filter (λ c, Z.testbit bits c = true) (seqZ 0 (NR_CPUS e))).

(** The four mask stores; the need is not re-evaluated. *)
Definition store_mask (upd : cpumask → cluster_params → cluster_params)
    (i : nat) (val : Z + Z) (count : Z) (s : core_ctl) : Z * core_ctl :=
  with_cluster i s (λ cl, match val with
  | inl err => (err, s)
  | inr bits => (count, set_cluster i (set_params (upd (to_cpumask bits) (params cl)) cl) s)
  end).
Definition store_nrrun_cpu_mask := store_mask (λ m p,
  p_masks m (nrrun_cpu_misfit_mask p) (nrrun_cpu_min_misfit p) (assist_cpu_mask p)
    (assist_cpu_misfit_mask p) (assist_cpu_min_misfit p) p).
Definition store_nrrun_cpu_misfit_mask := store_mask (λ m p,
  p_masks (nrrun_cpu_mask p) m (nrrun_cpu_min_misfit p) (assist_cpu_mask p)
    (assist_cpu_misfit_mask p) (assist_cpu_min_misfit p) p).
Definition store_assist_cpu_mask := store_mask (λ m p,
  p_masks (nrrun_cpu_mask p) (nrrun_cpu_misfit_mask p) (nrrun_cpu_min_misfit p) m
    (assist_cpu_misfit_mask p) (assist_cpu_min_misfit p) p).
Definition store_assist_cpu_misfit_mask := store_mask (λ m p,
  p_masks (nrrun_cpu_mask p) (nrrun_cpu_misfit_mask p) (nrrun_cpu_min_misfit p) (assist_cpu_mask p)
    m (assist_cpu_min_misfit p) p).

Definition store_assist_cpu_min_misfit (i : nat) (val : option Z) (count : Z) (s : core_ctl) : Z * core_ctl :=
  with_cluster i s (λ cl, match val with
  | None => (- EINVAL, s)
  | Some v => let p := params cl in
      (count, change_params i cl (p_masks (nrrun_cpu_mask p) (nrrun_cpu_misfit_mask p)
         (nrrun_cpu_min_misfit p) (assist_cpu_mask p) (assist_cpu_misfit_mask p) v p) s)
  end).
Definition store_nrrun_cpu_min_misfit (i : nat) (val : option Z) (count : Z) (s : core_ctl) : Z * core_ctl :=
  with_cluster i s (λ cl, match val with
  | None => (- EINVAL, s)
  | Some v => let p := params cl in
      (count, change_params i cl (p_masks (nrrun_cpu_mask p) (nrrun_cpu_misfit_mask p)
         v (assist_cpu_mask p) (assist_cpu_misfit_mask p) (assist_cpu_min_misfit p) p) s)
  end).

(** What the parsers make of a written buffer: [sscanf] of one and of six unsigned
    numbers, and [kstrtoul]. *)
Record sysfs_buf := mk_buf { buf_one : option Z; buf_six : list Z; buf_ul : Z + Z }.

Inductive core_ctl_attr :=
  | attr_min_cpus | attr_min_partial_cpus | attr_max_cpus | attr_offline_delay_ms
  | attr_busy_up_thres | attr_busy_down_thres | attr_task_thres | attr_enable
  | attr_need_cpus | attr_active_cpus | attr_global_state | attr_not_preferred
  | attr_nrrun_cpu_mask | attr_nrrun_cpu_misfit_mask | attr_nrrun_cpu_min_misfit
  | attr_assist_cpu_mask | attr_assist_cpu_misfit_mask | attr_assist_cpu_min_misfit.

Definition store (a : core_ctl_attr) (i : nat) (b : sysfs_buf) (count : Z) (s : core_ctl) : Z * core_ctl :=
  match a with
  | attr_min_cpus => store_min_cpus i (buf_one b) count s
  | attr_min_partial_cpus => store_min_partial_cpus i (buf_one b) count s
  | attr_max_cpus => store_max_cpus i (buf_one b) count s
  | attr_offline_delay_ms => store_offline_delay_ms i (buf_one b) count s
  | attr_busy_up_thres => store_busy_up_thres i (buf_six b) count s
  | attr_busy_down_thres => store_busy_down_thres i (buf_six b) count s
  | attr_task_thres => store_task_thres i (buf_one b) count s
  | attr_enable => store_enable i (buf_one b) count s
  | attr_need_cpus | attr_active_cpus | attr_global_state => (- EIO, s)
  | attr_not_preferred => store_not_preferred i (buf_six b) count s
  | attr_nrrun_cpu_mask => store_nrrun_cpu_mask i (buf_ul b) count s
  | attr_nrrun_cpu_misfit_mask => store_nrrun_cpu_misfit_mask i (buf_ul b) count s
  | attr_nrrun_cpu_min_misfit => store_nrrun_cpu_min_misfit i (buf_one b) count s
  | attr_assist_cpu_mask => store_assist_cpu_mask i (buf_ul b) count s
  | attr_assist_cpu_misfit_mask => store_assist_cpu_misfit_mask i (buf_ul b) count s
  | attr_assist_cpu_min_misfit => store_assist_cpu_min_misfit i (buf_one b) count s
  end.

(** ** Boosts *)

(** The answer, whether the cluster's boost started or ended ([None]: not
    written), and the cluster. *)
Definition set_cluster_boost (cl : cluster_data) (b : bool) : Z * option bool * cluster_data :=
  if b then (0, Some (boost cl =? 0), set_boost (u32 (boost cl + 1)) cl)
  else if boost cl =? 0 then (- EINVAL, None, cl)
  else let cl := set_boost (boost cl - 1) cl in (0, Some (boost cl =? 0), cl).

Definition core_ctl_set_cluster_boost (idx : Z) (b : bool) (s : core_ctl) : Z * core_ctl :=
  match (if 0 <=? idx then clusters s !! Z.to_nat idx else None) with
  | None => (- EINVAL, s)
  | Some cl =>
      let '(ret, chg, cl) := set_cluster_boost cl b in
      let s := set_cluster (Z.to_nat idx) cl s in
      (ret, if default false chg then sysfs_param_changed (Z.to_nat idx) s else s)
  end.

Definition core_ctl_set_boost (b : bool) (s : core_ctl) : Z * core_ctl :=
  if h_walt_disabled he then (- EAGAIN, s)
  else if negb (initialized s) then (0, s)
  else
    let '(s, (ret, chg)) :=
      for_each_cluster (λ i cl sa, let '(s, (ret, chg)) := sa in
        let '(ret, c, cl) := set_cluster_boost cl b in (set_cluster i cl s, (ret, default chg c)))
        (s, (0, false)) in
    (ret, if chg then (for_each_cluster (λ i _ sa, (sysfs_param_changed i sa.1, tt)) (s, tt)).1 else s).

(** ** Initialisation *)
Definition find_cluster_by_first_cpu (c : Z) (s : core_ctl) : bool :=
  existsb (λ cl, first_cpu cl =? c) (clusters s).

Definition all_cpus : cpumask := list_to_set (seqZ 0 (NR_CPUS e)).
Definition params_zero : cluster_params :=
  mk_params 0 0 0 0 (λ _, 0) (λ _, 0) 0 false 0 ∅ ∅ 0 ∅ ∅ 0.
Definition params_init (n : Z) : cluster_params :=
  mk_params 1 0 n 100 (λ _, 0) (λ _, 0) UINT_MAX false 0 all_cpus all_cpus 0 all_cpus all_cpus 0.

Definition cluster_init (mask : cpumask) (s : core_ctl) : Z * core_ctl :=
  let first := default (nr_cpu_ids he) (head (cpus_of he mask)) in
  if find_cluster_by_first_cpu first s then (0, s)
  else match cpu_device e first with
  | None => (- ENODEV, s)
  | Some _ =>
      let i := length (clusters s) in
      if Z.of_nat i =? MAX_CLUSTERS then (- EINVAL, s)
      else
        let n := weight mask in
        if MAX_CPUS_PER_CLUSTER <? n
        then (- EINVAL, set_clusters (clusters s ++ [mk_cluster false n mask 0 [] params_zero
                          (mk_load 0 0 0 0 0 0) 0 0 0 0]) s)
        else
          let cl := mk_cluster true n mask first (cpus_of he mask) (params_init n) (mk_load n 0 0 0 0 0)
                      (active_cpu_count_from_mask s mask) n 0 0 in
          (kobject_add e first,
           set_cpus (foldl (λ f c, <[c := set_cpu_cluster (default false (cpu_device e c)) i (f c)]> f)
                       (cpu_state s) (cpus_of he mask))
             (set_clusters (clusters s ++ [cl]) s))
  end.

(** [thread] is the error of [kthread_run], 0 when the thread was made. *)
Definition core_ctl_init (thread : Z) (s : core_ctl) : Z * core_ctl :=
  if negb (thread =? 0) then (thread, s)
  else
    let s := foldl (λ s m, (cluster_init m s).2) s (sched_clusters e) in
    (0, mk_ctl (clusters s) (cpu_state s) (cpus_paused_by_us s) (cpus_part_paused_by_us s)
          (part_haltable s) (halts s) (core_ctl_pending s) true (assist_params_initialized s)
          (core_ctl_check_timestamp s) (last_nr_big s) (sbt s) (ctl_out s)).
End eval.

(** The static state. *)
Definition core_ctl_boot : core_ctl :=
  mk_ctl [] (λ _, mk_cpu false 0 false false None) ∅ ∅ ∅ halt_boot false false false 0 0
    (mk_sbt ∅ false false 0 0 false) [].
