(* ===== verification/CoreCtlAct.v ===== *)
(** * Core control: pausing and resuming CPUs (kernel/sched/walt/core_ctl.c)

    [do_core_ctl] walks each cluster's CPUs in least-recently-used order, picks the
    ones to pause or to resume and asks WaltHalt to halt or start them on behalf of
    PAUSE_CORE_CTL; [sbt_ctl_check] does so for PAUSE_SBT.  The walks are the
    kernel's safe list walks: the next entry is read before the body runs and the
    body may move the current entry to the tail, so that a moved entry is met again
    at the end unless a count stops the walk.  Every operation is one step: the code
    runs the walks under [state_lock]. *)

From S2P Require Import Prelude.
From S2P Require Import WaltHalt.
From S2P Require Import CoreCtl.

Definition SBT_CPU_BUSY_PCT_THRESH : Z := 20.
Definition SBT_CPU_BUSY_UTIL_THRESH : Z := 200.
Definition SBT_LIMIT : Z := 45.

(** ** The safe walk

    The list is [before ++ rest] and the walk stands at the head of [rest].  The
    body breaks ([None]), goes on ([false]) or goes on having moved the entry to
    the tail ([true]).  [fuel] is the number of entries visited at most. *)
Section walk.
Context {A : Type} (body : Z → A → option (bool * A)).

Fixpoint lru_walk (fuel : nat) (before rest : list Z) (a : A) : list Z * A :=
  match fuel, rest with
  | O, _ | _, [] => (before ++ rest, a)
  | S fuel, c :: rest =>
      match body c a with
      | None => (before ++ c :: rest, a)
      | Some (false, a) => lru_walk fuel (before ++ [c]) rest a
      | Some (true, a) =>
          match rest with
          | [] => (before ++ [c], a)
          | _ => lru_walk fuel before (rest ++ [c]) a
          end
      end
  end.
End walk.

Section act.
Context (he : halt_env) (e : ctl_env).

(** WaltHalt's environment with the partially haltable CPUs of the moment. *)
Definition halt_env_now (s : core_ctl) : halt_env :=
  mk_halt_env (nr_cpu_ids he) (el0_first he) (cluster_id he) (part_haltable s)
    (sysctl_max_freq_partial_halt he) (h_walt_disabled he).

(** ** Choosing the CPUs to pause *)

(** The CPUs to pause and to pause partially. *)
Record pick := mk_pick { to_pause : cpumask; to_part : cpumask }.

Definition part_body (s : core_ctl) (c : Z) (a : Z * pick) : option (bool * (Z * pick)) :=
  let '(num, p) := a in
  if num <=? 0 then None
  else if bool_decide (c ∈ to_pause p) && negb (bool_decide (c ∈ cpus_part_paused_by_us s))
  then Some (true, (num - 1, mk_pick (to_pause p ∖ {[c]}) (to_part p ∪ {[c]})))
  else Some (false, a).

Definition part_fuel (l : list Z) : nat := S (2 * length l).

Definition try_to_partial_pause (s : core_ctl) (cl : cluster_data) (p : pick) : cluster_data * pick :=
  let num := s32 (min_partial_cpus (params cl) - weight (cpus_part_paused_by_us s)) in
  if num <=? 0 then (cl, p)
  else let '(l, (_, p)) := lru_walk (part_body s) (part_fuel (lru cl)) [] (lru cl) (num, p) in
       (set_lru l cl, p).

(** First walk: the idle CPUs, down to [need]. *)
Definition pause_body (s : core_ctl) (cl : cluster_data) (need : Z) (c : Z) (a : Z * cpumask)
    : option (bool * (Z * cpumask)) :=
  let '(nr_pending, m) := a in
  let d := cpu_state s c in
  if disabled d then Some (false, a)
  else if negb (is_active e s c) then Some (false, a)
  else if u32 (active_cpus cl - nr_pending) =? need then None
  else if is_busy d then Some (false, a)
  else if negb (nr_not_preferred_cpus (params cl) =? 0) && negb (not_preferred d) then Some (false, a)
  else Some (true, (u32 (nr_pending + 1), m ∪ {[c]})).

(** Forced walk: any CPU, down to [max_cpus]. *)
Definition force_body (s : core_ctl) (cl : cluster_data) (first_pass : bool) (c : Z) (a : Z * cpumask)
    : option (bool * (Z * cpumask)) :=
  let '(nr_pending, m) := a in
  let d := cpu_state s c in
  if disabled d then Some (false, a)
  else if negb (is_active e s c) then Some (false, a)
  else if u32 (active_cpus cl - nr_pending) <=? max_cpus (params cl) then None
  else if first_pass && negb (not_preferred d) then Some (false, a)
  else Some (true, (u32 (nr_pending + 1), m ∪ {[c]})).

Definition over_max (cl : cluster_data) (a : Z * cpumask) : bool :=
  max_cpus (params cl) <? u32 (active_cpus cl - a.1).

Definition force_pass (s : core_ctl) (cl : cluster_data) (first_pass : bool) (la : list Z * (Z * cpumask))
    : list Z * (Z * cpumask) :=
  if over_max cl la.2
  then lru_walk (force_body s cl first_pass) (Z.to_nat (num_cpus cl)) [] la.1 la.2 else la.

Definition pause_walks (s : core_ctl) (cl : cluster_data) (need : Z) (m : cpumask)
    : list Z * (Z * cpumask) :=
  let first_pass := negb (nr_not_preferred_cpus (params cl) =? 0) in
  let la := lru_walk (pause_body s cl need) (Z.to_nat (num_cpus cl)) [] (lru cl) (0, m) in
  let la := force_pass s cl first_pass la in
  if first_pass && over_max cl la.2 then force_pass s cl false la else la.

Definition try_to_pause (i : nat) (cl : cluster_data) (need : Z) (p : pick) (s : core_ctl)
    : core_ctl * pick :=
  let '(l, (_, m)) := pause_walks s cl need (to_pause p) in
  let '(cl, p) := try_to_partial_pause s (set_lru l cl) (mk_pick m (to_part p)) in
  (set_cluster i cl s, p).

(** ** Choosing the CPUs to resume *)
Definition resume_body (s : core_ctl) (cl : cluster_data) (need : Z) (force : bool) (c : Z)
    (a : Z * cpumask) : option (bool * (Z * cpumask)) :=
  let '(nr_pending, m) := a in
  if negb (bool_decide (c ∈ cpus_paused_by_us s)) && negb (bool_decide (c ∈ cpus_part_paused_by_us s))
  then Some (false, a)
  else if is_active e s c || (negb force && not_preferred (cpu_state s c)) then Some (false, a)
  else if u32 (active_cpus cl + nr_pending) =? need then None
  else Some (true, (u32 (nr_pending + 1), m ∪ {[c]})).

(** [nr_pending], the cluster and the CPUs to resume. *)
Definition __try_to_resume (s : core_ctl) (cl : cluster_data) (need : Z) (force : bool) (m : cpumask)
    : Z * cluster_data * cpumask :=
  let '(l, (n, m)) :=
    lru_walk (resume_body s cl need force) (Z.to_nat (num_cpus cl)) [] (lru cl) (0, m) in
  (n, set_lru l cl, m).

Definition try_to_partial_resume (s : core_ctl) (unpause : cpumask) : cpumask :=
  unpause ∩ cpus_part_paused_by_us s.

(** [to_pause] and [to_part] are the CPUs to resume fully and partially. *)
Definition try_to_resume (i : nat) (cl : cluster_data) (need : Z) (p : pick) (s : core_ctl)
    : core_ctl * pick :=
  let '(n, cl, m) := __try_to_resume s cl need false (to_pause p) in
  if u32 (active_cpus cl + n) =? need then (set_cluster i cl s, mk_pick m (to_part p))
  else
    let '(_, cl, m) := __try_to_resume s cl need true m in
    (set_cluster i cl s, mk_pick m (try_to_partial_resume s m)).

(** ** Halting and starting them *)
Definition core_ctl_pause_cpus (p : pick) (s : core_ctl) : core_ctl :=
  let part := to_part p ∖ cpus_part_paused_by_us s in
  let s :=
    if bool_decide (part = ∅) then s else
    let '(ret, h) := walt_partial_pause_cpus (halt_env_now s) part PAUSE_CORE_CTL (halts s) in
    set_paused (cpus_paused_by_us s)
      (if ret <? 0 then cpus_part_paused_by_us s else cpus_part_paused_by_us s ∪ part) h s in
  let full := to_pause p ∖ cpus_paused_by_us s in
  if bool_decide (full = ∅) then s else
  let '(ret, h) := walt_pause_cpus (halt_env_now s) full PAUSE_CORE_CTL (halts s) in
  set_paused (if ret <? 0 then cpus_paused_by_us s else cpus_paused_by_us s ∪ full)
    (cpus_part_paused_by_us s) h s.

Definition core_ctl_resume_cpus (p : pick) (s : core_ctl) : core_ctl :=
  let part := to_part p ∩ cpus_part_paused_by_us s in
  let s :=
    if bool_decide (part = ∅) then s else
    let '(ret, h) := walt_partial_resume_cpus (halt_env_now s) part PAUSE_CORE_CTL (halts s) in
    set_paused (cpus_paused_by_us s)
      (if ret <? 0 then cpus_part_paused_by_us s else cpus_part_paused_by_us s ∖ part) h s in
  let full := to_pause p ∩ cpus_paused_by_us s in
  if bool_decide (full = ∅) then s else
  let '(ret, h) := walt_resume_cpus (halt_env_now s) full PAUSE_CORE_CTL (halts s) in
  set_paused (if ret <? 0 then cpus_paused_by_us s else cpus_paused_by_us s ∖ full)
    (cpus_part_paused_by_us s) h s.

(** One cluster's turn: the CPUs to pause and to resume so far. *)
Definition adjust_cluster (i : nat) (cl : cluster_data) (sa : core_ctl * (pick * pick))
    : core_ctl * (pick * pick) :=
  let '(s, (pause, unpause)) := sa in
  let cl := set_active (get_active_cpu_count s cl) cl in
  let s := set_cluster i cl s in
  let need := apply_limits e cl (need_cpus cl) in
  if adjustment_possible s cl need then
    if need <? active_cpus cl then
      let '(s, pause) := try_to_pause i cl need pause s in (s, (pause, unpause))
    else if active_cpus cl <? need then
      let '(s, unpause) := try_to_resume i cl need unpause s in (s, (pause, unpause))
    else (s, (pause, unpause))
  else (s, (pause, unpause)).

Definition do_core_ctl (s : core_ctl) : core_ctl :=
  let '(s, (pause, unpause)) :=
    for_each_cluster adjust_cluster (s, (mk_pick ∅ ∅, mk_pick ∅ ∅)) in
  core_ctl_resume_cpus unpause (core_ctl_pause_cpus pause s).

Definition should_core_ctl (s : core_ctl) : bool :=
  if scx_enabled e then existsb (λ cl, negb (active_cpus cl =? num_cpus cl)) (clusters s) else true.

(** One turn of the thread's loop, woken or not; [None]: it is stopped. *)
Definition try_core_ctl_round (kthread_should_stop : bool) (s : core_ctl) : option core_ctl :=
  if negb (core_ctl_pending s) && kthread_should_stop then None
  else Some (do_core_ctl (set_pending false s)).

(** ** The window's check *)
Definition core_ctl_check_masks_set (s : core_ctl) : bool :=
  forallb (λ cl, let p := params cl in
    negb ((nr_cpu_ids he <? weight (nrrun_cpu_mask p)) || (nr_cpu_ids he <? weight (nrrun_cpu_misfit_mask p)) ||
          (nr_cpu_ids he <? weight (assist_cpu_mask p)) || (nr_cpu_ids he <? weight (assist_cpu_misfit_mask p))))
    (clusters s).

Definition core_ctl_non_large_cpus_below_busy_pct (s : core_ctl) : bool :=
  let non_large := ⋃ (take (length (sched_clusters e) - 1) (sched_clusters e)) in
  forallb (λ c, negb (SBT_CPU_BUSY_PCT_THRESH <? busy_pct (cpu_state s c))) (cpus_of he non_large).

Definition core_ctl_is_sbt (wakeup_ctr_sum : Z) (s : core_ctl) : bool :=
  let nr_big_of := match clusters s !! (length (sched_clusters e) - 1)%nat with
                   | Some cl => nr_big (cl_load cl) | None => 0 end in
  sysctl_sched_sbt_enable e && (last_nr_big s =? 1) && (nr_big_of =? 1) &&
  negb (SBT_LIMIT <? wakeup_ctr_sum) && core_ctl_non_large_cpus_below_busy_pct s &&
  any_large_above_util_threshold e SBT_CPU_BUSY_UTIL_THRESH && negb (is_large_cpu_cap_low e).

Definition sbt_with (prev now : bool) (windows : Z) (x : sbt_state) : sbt_state :=
  mk_sbt (cpus_for_sbt_pause x) prev now windows (sysctl_sched_sbt_pause_cpus x) (written_once x).

Definition sbt_ctl_check (wakeup_ctr_sum : Z) (s : core_ctl) : core_ctl :=
  let x := sbt s in
  let now := core_ctl_is_sbt wakeup_ctr_sum s in
  let prev := prev_is_sbt x in
  let w := prev_is_sbt_windows x in
  let delay := sysctl_sched_sbt_delay_windows e in
  let local_cpus := cpus_for_sbt_pause x in
  if negb (bool_decide (local_cpus = ∅)) then
    if eqb prev now then set_sbt (sbt_with prev now (if w <? delay then delay else w) x) s
    else
      let w1 := if now then w - 1 else w in
      if now && (0 <? w) then set_sbt (sbt_with prev now w1 x) s
      else
        let h := if negb prev && now then (walt_pause_cpus (halt_env_now s) local_cpus PAUSE_SBT (halts s)).2
                 else if prev && negb now then (walt_resume_cpus (halt_env_now s) local_cpus PAUSE_SBT (halts s)).2
                 else halts s in
        set_sbt (sbt_with now now delay x)
          (set_paused (cpus_paused_by_us s) (cpus_part_paused_by_us s) h s)
  else set_sbt (sbt_with now now w x) s.

(** [proc] is the answer of [proc_dointvec_minmax] and the value after it. *)
Definition walt_proc_sbt_pause_handler (write : bool) (proc : Z * Z) (s : core_ctl) : Z * core_ctl :=
  let x := sbt s in
  let '(ret, new) := proc in
  let old := sysctl_sched_sbt_pause_cpus x in
  let keep v m once := set_sbt (mk_sbt m (prev_is_sbt x) (now_is_sbt x) (prev_is_sbt_windows x) v once) s in
  if negb (ret =? 0) || negb write || (old =? new)
  then (ret, keep new (cpus_for_sbt_pause x) (written_once x))
  else if written_once x then (ret, keep old (cpus_for_sbt_pause x) true)
  else (ret, keep new (to_cpumask e new) true).

Definition core_ctl_call_notifier (s : core_ctl) : core_ctl :=
  if negb (core_ctl_notifier_head e) then s else ctl_emit [CALL_NOTIFIER (last_nr_big s)] s.

(** The CPUs of initialised clusters. *)
Definition cpu_managed (s : core_ctl) (c : Z) : bool :=
  match cluster (cpu_state s c) with
  | Some i => match clusters s !! i with Some cl => inited cl | None => false end
  | None => false
  end.

Definition update_busy_pct (s : core_ctl) : core_ctl :=
  set_cpus (foldl (λ f c, if cpu_managed s c then <[c := set_busy_pct (sched_get_cpu_util_pct e c) (f c)]> f else f)
              (cpu_state s) (seqZ 0 (nr_cpu_ids he))) s.

Definition core_ctl_check (window_start wakeup_ctr_sum : Z) (s : core_ctl) : core_ctl :=
  if negb (initialized s) then s
  else if negb (assist_params_initialized s)
  then set_check (core_ctl_check_masks_set s) (core_ctl_check_timestamp s) s
  else if window_start =? core_ctl_check_timestamp s then s
  else
    let s := set_check true window_start s in
    let s := update_busy_pct s in
    let s := update_running_avg he e window_start wakeup_ctr_sum s in
    let '(s, wakeup) :=
      for_each_cluster (λ i _ sa, let '(b, s) := eval_need e i window_start sa.1 in (s, sa.2 || b)) (s, false) in
    let s := if wakeup then do_core_ctl s else s in
    sbt_ctl_check wakeup_ctr_sum (core_ctl_call_notifier s).
End act.
