(* ===== verification/CoreCtlPick.v ===== *)
(** * Core control: what the walks pick

    The walks of CoreCtlAct as one pass over the list, the counts they keep, and
    the number of CPUs [do_core_ctl] leaves active. *)

From S2P Require Import Prelude.
From S2P Require Import WaltHalt.
From S2P Require Import CoreCtl.
From S2P Require Import CoreCtlAct.

(** ** One pass *)
Section scan.
Context {A : Type} (body : Z → A → option (bool * A)).

(** Each entry once, in order; moved entries end behind the others. *)
Fixpoint scan (before todo moved : list Z) (a : A) : list Z * A :=
  match todo with
  | [] => (before ++ moved, a)
  | c :: todo =>
      match body c a with
      | None => (before ++ (c :: todo) ++ moved, a)
      | Some (false, a) => scan (before ++ [c]) todo moved a
      | Some (true, a) => scan before todo (moved ++ [c]) a
      end
  end.

(** A walk of at most as many entries as the list had is one pass: no moved entry is
    met twice. *)
Lemma lru_walk_scan todo before moved a :
  lru_walk body (length todo) before (todo ++ moved) a = scan before todo moved a.
Proof.
  revert before moved a. induction todo as [|c todo IH]; intros before moved a; [by destruct moved|].
  simpl. destruct (body c a) as [[[] a']|]; [|apply IH|done].
  destruct (todo ++ moved) as [|x l] eqn:E.
  - by apply app_eq_nil in E as [-> ->].
  - by rewrite <-E, <-app_assoc, IH.
Qed.

Lemma lru_walk_perm fuel before rest a : (lru_walk body fuel before rest a).1 ≡ₚ before ++ rest.
Proof.
  revert before rest a. induction fuel as [|fuel IH]; intros before rest a; [done|].
  destruct rest as [|c rest]; [done|]. simpl. destruct (body c a) as [[[] a']|]; [|by rewrite IH, <-app_assoc|done].
  destruct rest as [|x rest]; [done|]. rewrite IH. f_equiv. by rewrite <-Permutation_cons_append.
Qed.

Lemma lru_walk_ind (P : A → Prop) fuel before rest a :
  P a → (∀ c a mv a', c ∈ before ++ rest → P a → body c a = Some (mv, a') → P a') →
  P (lru_walk body fuel before rest a).2.
Proof.
  revert before rest a. induction fuel as [|fuel IH]; intros before rest a Ha Hb; [done|].
  destruct rest as [|c rest]; [done|]. simpl. destruct (body c a) as [[[] a']|] eqn:E; [| |done].
  - assert (P a') as Ha' by (apply (Hb c a true a'); [set_solver|done|done]).
    destruct rest as [|x rest]; [done|]. apply IH; [done|]. intros c' a1 mv a2 Hin. apply Hb. set_solver.
  - assert (P a') as Ha' by (apply (Hb c a false a'); [set_solver|done|done]).
    apply IH; [done|]. intros c' a1 mv a2 Hin. apply Hb. set_solver.
Qed.
End scan.

(** ** Halting adds at most the requested CPUs *)
Section masks.
Context (env : halt_env).

Lemma halt_loop_mask l type s t :
  (∀ c, c ∈ mask_of t s → c ∈ mask_of t (halt_loop env l type s).2) ∧
  (∀ c, c ∈ mask_of t (halt_loop env l type s).2 → c ∈ mask_of t s ∨ (t = type ∧ c ∈ l)) ∧
  client_vote_mask (halt_loop env l type s).2 = client_vote_mask s.
Proof.
  revert s. induction l as [|x l IH]; intros s; simpl; [naive_solver|].
  case_match; [simpl; naive_solver|].
  destruct (IH (set_mask type (mask_of type s ∪ {[x]}) s)) as (H1 & H2 & H3).
  assert (∀ c, c ∈ mask_of t (set_mask type (mask_of type s ∪ {[x]}) s) ↔ c ∈ mask_of t s ∨ (t = type ∧ c = x)) as Hm.
  { intros c. destruct (decide (t = type)) as [->|Ht]; [rewrite mask_of_set; set_solver|].
    rewrite mask_of_set_ne by done. naive_solver. }
  split_and!; [intros c Hc; apply H1, Hm; by left| |rewrite H3; by destruct type].
  intros c Hc. apply H2 in Hc. rewrite Hm in Hc. set_solver.
Qed.

Lemma update_clients_mask cpus h client type s t :
  mask_of t (update_clients env cpus h client type s) = mask_of t s.
Proof. apply update_clients_run. Qed.

Lemma halt_cpus_mask cpus type s t :
  (∀ c, c ∈ mask_of t s → c ∈ mask_of t (halt_cpus env cpus type s).2) ∧
  (∀ c, c ∈ mask_of t (halt_cpus env cpus type s).2 → c ∈ mask_of t s ∨ (t = type ∧ c ∈ cpus)) ∧
  client_vote_mask (halt_cpus env cpus type s).2 = client_vote_mask s.
Proof.
  unfold halt_cpus. destruct (halt_loop_mask (cpus_of env cpus) type s t) as (H1 & H2 & H3).
  destruct (halt_loop env (cpus_of env cpus) type s) as [ret s1]. cbn [snd] in *.
  assert (∀ c, c ∈ cpus_of env cpus → c ∈ cpus) as Hc by (intros c; rewrite elem_cpus_of; naive_solver).
  destruct (negb (ret =? 0)); cbn [snd]; [naive_solver|].
  destruct type, t; cbn; naive_solver.
Qed.

Lemma walt_halt_mask cpus client type s t :
  (∀ c, c ∈ mask_of t s → c ∈ mask_of t (walt_halt_cpus env cpus client type s).2) ∧
  (∀ c, c ∈ mask_of t (walt_halt_cpus env cpus client type s).2 → c ∈ mask_of t s ∨ (t = type ∧ c ∈ cpus)).
Proof.
  unfold walt_halt_cpus. case_bool_decide; cbn [snd]; [rewrite update_clients_mask; naive_solver|].
  destruct (halt_cpus_mask (update_halt_cpus env cpus type s) type s t) as (H1 & H2 & _).
  destruct (halt_cpus env _ type s) as [ret s1]. cbn [snd] in *.
  destruct (ret <? 0); cbn [snd]; rewrite ?update_clients_mask; (split; [done|]);
    intros c Hc; apply H2 in Hc; pose proof (update_halt_subset env cpus type s); set_solver.
Qed.

Lemma walt_start_mask cpus client type s t c :
  c ∈ mask_of t (walt_start_cpus env cpus client type s).2 → c ∈ mask_of t s.
Proof.
  unfold walt_start_cpus, start_cpus.
  set (s1 := update_clients env cpus false client type s). set (go := update_halt_cpus env cpus type s1).
  destruct (start_loop_run (cpus_of env go) type s1) as [_ Hm]. cbn in Hm. cbn.
  assert (∀ s0, mask_of t (restrict_cpus_and_freq env go s0) = mask_of t s0) as -> by (by destruct t).
  rewrite Hm. unfold s1. rewrite !update_clients_mask. case_decide; [subst; set_solver|done].
Qed.
End masks.

(** ** What a cluster's turn picks *)
Section pick.
Context (he : halt_env) (e : ctl_env).

(** The CPUs of a mask that are not halted. *)
Definition unhalted (s : core_ctl) (m : cpumask) : cpumask :=
  (m ∖ cpu_halt_mask (halts s)) ∖ cpu_partial_halt_mask (halts s).

(** A cluster as [cluster_init] makes it and the operations keep it. *)
Record cluster_ok (cl : cluster_data) : Prop := {
  co_num : num_cpus cl = weight (cpu_mask cl);
  co_range c : c ∈ cpu_mask cl → 0 ≤ c < nr_cpu_ids he;
  co_lru : if inited cl then lru cl ≡ₚ cpus_of he (cpu_mask cl) else lru cl = [];
  co_small : inited cl = true → num_cpus cl ≤ MAX_CPUS_PER_CLUSTER;
  co_min : 0 ≤ min_cpus (params cl);
  co_max : 0 ≤ max_cpus (params cl);
  co_need : 0 ≤ need_cpus cl;
}.

Lemma weight_nonneg m : 0 ≤ weight m.
Proof. unfold weight. lia. Qed.
Lemma weight_mono m m' : m ⊆ m' → weight m ≤ weight m'.
Proof. intros H. unfold weight. apply inj_le, subseteq_size, H. Qed.
Lemma weight_add m c : weight (m ∪ {[c]}) ≤ weight m + 1.
Proof. unfold weight. pose proof (size_union_alt m {[c]}). pose proof (subseteq_size ({[c]} ∖ m) {[c]} ltac:(set_solver)).
  rewrite size_singleton in *. lia. Qed.
Lemma weight_diff m m' : weight m - weight m' ≤ weight (m ∖ m').
Proof.
  assert (m ⊆ (m ∖ m') ∪ m') as H by (intros c Hc; destruct (decide (c ∈ m')); set_solver).
  unfold weight. apply subseteq_size in H. rewrite size_union in H by set_solver. lia.
Qed.

Lemma lru_in_mask cl c : cluster_ok cl → c ∈ lru cl → inited cl = true ∧ c ∈ cpu_mask cl.
Proof.
  intros [_ _ Hl _ _ _ _] Hc. destruct (inited cl); [|rewrite Hl in Hc; set_solver].
  rewrite Hl, elem_cpus_of in Hc. naive_solver.
Qed.

Lemma active_le s cl : get_active_cpu_count s cl ≤ weight (cpu_mask cl).
Proof. apply weight_mono. set_solver. Qed.

(** The walks' count: it stays within the distance to [need] and bounds the number
    of picked CPUs, which are CPUs of the cluster that are not halted. *)
Definition picked (s : core_ctl) (cl : cluster_data) (need : Z) (m : cpumask) (a : Z * cpumask) : Prop :=
  0 ≤ a.1 ≤ active_cpus cl - need ∧
  ∃ sel, a.2 = m ∪ sel ∧ sel ⊆ unhalted s (cpu_mask cl) ∧ weight sel ≤ a.1.

Lemma is_active_unhalted s cl c :
  c ∈ cpu_mask cl → is_active e s c = true → c ∈ unhalted s (cpu_mask cl).
Proof.
  unfold is_active, cpu_halted, cpu_partial_halted, unhalted. intros Hc H.
  apply andb_true_iff in H as [[_ H1]%andb_true_iff H2]. apply negb_true_iff, bool_decide_eq_false in H1, H2.
  set_solver.
Qed.

Lemma picked_one s cl need m c n m' :
  c ∈ cpu_mask cl → is_active e s c = true → active_cpus cl < 2 ^ 32 → 0 ≤ need →
  n < active_cpus cl - need → picked s cl need m (n, m') → picked s cl need m (u32 (n + 1), m' ∪ {[c]}).
Proof.
  intros Hc Hact Hs Hn Hlt [Hr (sel & Hm & Hsel & Hw)]. cbn [fst snd] in *.
  unfold picked; cbn [fst snd]. unfold u32. rewrite Z.mod_small by lia. split; [lia|]. exists (sel ∪ {[c]}).
  split_and!; [set_solver| |pose proof (weight_add sel c); lia].
  pose proof (is_active_unhalted s cl c Hc Hact). set_solver.
Qed.

Lemma pause_body_picked s cl need m c a mv a' :
  c ∈ cpu_mask cl → active_cpus cl < 2 ^ 32 → 0 ≤ need →
  picked s cl need m a → pause_body e s cl need c a = Some (mv, a') → picked s cl need m a'.
Proof.
  intros Hc Hs Hn Ha. destruct a as [n m']. unfold pause_body.
  destruct (disabled _); [by intros [= <- <-]|]. destruct (is_active e s c) eqn:E; [|by intros [= <- <-]]. cbn [negb].
  destruct (Z.eqb_spec (u32 (active_cpus cl - n)) need) as [|Hne]; [done|].
  destruct (is_busy _); [by intros [= <- <-]|]. destruct (_ && _); [by intros [= <- <-]|]. intros [= <- <-].
  apply picked_one; [done..| |done]. destruct Ha as [Hr _]. cbn in Hr. unfold u32 in Hne.
  rewrite Z.mod_small in Hne by lia. lia.
Qed.

Lemma force_body_picked s cl need m fp c a mv a' :
  c ∈ cpu_mask cl → active_cpus cl < 2 ^ 32 → 0 ≤ need → need ≤ max_cpus (params cl) →
  picked s cl need m a → force_body e s cl fp c a = Some (mv, a') → picked s cl need m a'.
Proof.
  intros Hc Hs Hn Hmax Ha. destruct a as [n m']. unfold force_body.
  destruct (disabled _); [by intros [= <- <-]|]. destruct (is_active e s c) eqn:E; [|by intros [= <- <-]]. cbn [negb].
  destruct (Z.leb_spec (u32 (active_cpus cl - n)) (max_cpus (params cl))) as [|Hgt]; [done|].
  destruct (_ && _); [by intros [= <- <-]|]. intros [= <- <-].
  apply picked_one; [done..| |done]. destruct Ha as [Hr _]. cbn in Hr. unfold u32 in Hgt.
  rewrite Z.mod_small in Hgt by lia. lia.
Qed.

Lemma force_pass_picked s cl need m fp la :
  cluster_ok cl → (inited cl = true → active_cpus cl < 2 ^ 32) → 0 ≤ need → need ≤ max_cpus (params cl) →
  la.1 ≡ₚ lru cl → picked s cl need m la.2 →
  (force_pass e s cl fp la).1 ≡ₚ lru cl ∧ picked s cl need m (force_pass e s cl fp la).2.
Proof.
  intros Hok Hs Hn Hmax Hp Ha. unfold force_pass. destruct (over_max _ _); [|done].
  split; [by rewrite lru_walk_perm|]. apply (lru_walk_ind _ (picked s cl need m)); [done|].
  intros c a mv a' Hc. simpl in Hc. rewrite Hp in Hc.
  destruct (lru_in_mask cl c Hok Hc). apply force_body_picked; [done|by apply Hs|done..].
Qed.

Lemma pause_walks_picked s cl need m :
  cluster_ok cl → (inited cl = true → active_cpus cl < 2 ^ 32) → 0 ≤ need ≤ active_cpus cl → need ≤ max_cpus (params cl) →
  (pause_walks e s cl need m).1 ≡ₚ lru cl ∧ picked s cl need m (pause_walks e s cl need m).2.
Proof.
  intros Hok Hs Hn Hmax. unfold pause_walks.
  set (la := lru_walk _ _ _ _ _).
  assert (la.1 ≡ₚ lru cl ∧ picked s cl need m la.2) as [Hp Ha].
  { split; [apply lru_walk_perm|]. apply (lru_walk_ind _ (picked s cl need m)).
    - split; [cbn; lia|]. exists ∅. cbn. split_and!; [set_solver..|]. unfold weight. rewrite size_empty. lia.
    - intros c a mv a' Hc. destruct (lru_in_mask cl c Hok Hc). apply pause_body_picked; [done|by apply Hs|lia]. }
  clearbody la.
  destruct (force_pass_picked s cl need m (negb (nr_not_preferred_cpus (params cl) =? 0)) la) as [Hp1 Ha1]; [done..|lia|done|done|done|].
  set (la1 := force_pass e s cl _ la) in *. clearbody la1.
  destruct (_ && _); [|done]. apply force_pass_picked; [done..|lia|done|done|done].
Qed.

Lemma part_body_union s p0 c a mv a' :
  to_pause a.2 ∪ to_part a.2 = to_pause p0 ∪ to_part p0 →
  part_body s c a = Some (mv, a') → to_pause a'.2 ∪ to_part a'.2 = to_pause p0 ∪ to_part p0.
Proof.
  destruct a as [n p]. unfold part_body. cbn [snd]. intros <-. destruct (n <=? 0); [done|].
  destruct (bool_decide _ && _) eqn:E; [|by intros [= <- <-]]. intros [= <- <-]. cbn.
  apply andb_true_iff in E as [Hc%bool_decide_eq_true _]. apply set_eq. intros x. destruct (decide (x = c)); set_solver.
Qed.

(** Picking the partial ones among them only distributes the CPUs. *)
Lemma try_to_partial_pause_union s cl p :
  let res := try_to_partial_pause s cl p in
  (∃ l, res.1 = set_lru l cl ∧ l ≡ₚ lru cl) ∧
  to_pause res.2 ∪ to_part res.2 = to_pause p ∪ to_part p.
Proof.
  unfold try_to_partial_pause. destruct (_ <=? 0).
  { cbn. split; [|done]. exists (lru cl). split; [by destruct cl|done]. }
  set (num := s32 _). destruct (lru_walk _ _ _ _ _) as [l [n q]] eqn:E. cbn [fst snd]. split.
  - exists l. split; [done|]. change l with (l, (n, q)).1. rewrite <-E. apply lru_walk_perm.
  - change q with (l, (n, q)).2.2. rewrite <-E.
    apply (lru_walk_ind _ (λ a, to_pause a.2 ∪ to_part a.2 = to_pause p ∪ to_part p)); [done|].
    intros c a mv a' _. apply part_body_union.
Qed.

(** A moved CPU leaves the CPUs to pause, so that it is passed when it is met again:
    the walk for the partial pauses, which no count stops, ends within twice the
    length of the list, and [part_fuel] does not cut it short. *)
Definition left_to_visit (rest : list Z) (p : pick) : nat :=
  length rest + length (filter (λ c, c ∈ to_pause p) rest).

Lemma part_walk_ends s f f' before rest num p :
  (left_to_visit rest p ≤ f)%nat → (left_to_visit rest p ≤ f')%nat →
  lru_walk (part_body s) f before rest (num, p) = lru_walk (part_body s) f' before rest (num, p).
Proof.
  revert f' before rest num p. induction f as [|f IH]; intros f' before rest num p Hf Hf'; destruct rest as [|c rest].
  { by destruct f'. }
  { unfold left_to_visit in Hf. cbn [length] in Hf. lia. }
  { by destruct f'. }
  destruct f' as [|f']; [unfold left_to_visit in Hf'; cbn in Hf'; lia|]. cbn [lru_walk part_body].
  assert (∀ q, (length (filter (λ x, x ∈ to_pause q) rest) ≤ length (filter (λ x, x ∈ to_pause q) (c :: rest)))%nat) as Hcons
    by (intros q; rewrite filter_cons; case_decide; cbn; lia).
  destruct (num <=? 0); [done|]. destruct (bool_decide _ && _) eqn:E.
  - apply andb_true_iff in E as [Hc%bool_decide_eq_true _]. destruct rest as [|x rest]; [done|].
    set (q := mk_pick _ _). assert (left_to_visit ((x :: rest) ++ [c]) q < left_to_visit (c :: x :: rest) p)%nat as Hlt.
    { unfold left_to_visit. rewrite list.filter_app, !length_app, (filter_cons_True _ c (x :: rest)) by done. cbn [length].
      rewrite (filter_cons_False _ c []) by (unfold q; cbn; set_solver). change (filter (λ c0, c0 ∈ to_pause q) []) with (@nil Z). cbn [length].
      assert (∀ l, length (filter (λ y, y ∈ to_pause q) l) ≤ length (filter (λ y, y ∈ to_pause p) l))%nat as Hsub.
      { intros l. induction l as [|y l IHl]; [done|]. rewrite !filter_cons.
        destruct (decide (y ∈ to_pause q)) as [Hy|]; destruct (decide (y ∈ to_pause p)); cbn [length]; try lia.
        unfold q in Hy. cbn in Hy. set_solver. }
      pose proof (Hsub (x :: rest)). cbn [length] in *. lia. }
    apply IH; lia.
  - apply IH; unfold left_to_visit in *; cbn [length] in *; specialize (Hcons p); lia.
Qed.

Lemma part_fuel_enough s l before num p f :
  (part_fuel l ≤ f)%nat →
  lru_walk (part_body s) f before l (num, p) = lru_walk (part_body s) (part_fuel l) before l (num, p).
Proof.
  intros Hf. assert (left_to_visit l p ≤ part_fuel l)%nat as H.
  { unfold left_to_visit, part_fuel. pose proof (length_filter (λ c, c ∈ to_pause p) l). lia. }
  apply part_walk_ends; lia.
Qed.

(** [need] as [do_core_ctl] takes it. *)
Lemma apply_limits_max cl n :
  cluster_ok cl → 0 ≤ n →
  let need := apply_limits e cl n in
  0 ≤ need ∧ (need < num_cpus cl → need ≤ max_cpus (params cl)).
Proof.
  intros Hok Hn. unfold apply_limits. pose proof (co_num _ Hok). pose proof (weight_nonneg (cpu_mask cl)).
  pose proof (co_min _ Hok). pose proof (co_max _ Hok).
  destruct (_ || _); [cbn; lia|]. destruct (_ && _); cbn; lia.
Qed.

(** ** The loop over the clusters *)
Lemma for_each_ind {A} (f : nat → cluster_data → core_ctl * A → core_ctl * A) (P : nat → core_ctl * A → Prop) sa :
  P 0%nat sa →
  (∀ i sa', (i < length (clusters sa.1))%nat → P i sa' →
     P (S i) (match clusters sa'.1 !! i with Some cl => f i cl sa' | None => sa' end)) →
  P (length (clusters sa.1)) (for_each_cluster f sa).
Proof.
  intros H0 HS. unfold for_each_cluster. set (n := length (clusters sa.1)) in *.
  assert (∀ k m sa', (m + k = n)%nat → P m sa' →
    P n (foldl (λ sa i, match clusters sa.1 !! i with Some cl => f i cl sa | None => sa end) sa' (seq m k))) as Hgen.
  { intros k. induction k as [|k IH]; intros m sa' Hmk HP; cbn [seq foldl].
    - by replace n with m by lia.
    - apply IH; [lia|]. apply HS; [lia|done]. }
  by apply Hgen.
Qed.

(** A cluster after its turn: only the order and the active count differ. *)
Definition turned (cl cl' : cluster_data) : Prop :=
  ∃ l n, cl' = set_active n (set_lru l cl) ∧ l ≡ₚ lru cl.

Lemma turned_refl cl : turned cl cl.
Proof. exists (lru cl), (active_cpus cl). by destruct cl. Qed.
Lemma turned_active n cl : turned cl (set_active n cl).
Proof. by exists (lru cl), n. Qed.
Lemma turned_lru l cl cl' : turned cl cl' → l ≡ₚ lru cl' → turned cl (set_lru l cl').
Proof. intros (l' & n & -> & Hp) Hl. exists l, n. split; [done|]. by rewrite Hl. Qed.
Lemma turned_ok cl cl' : turned cl cl' → cluster_ok cl → cluster_ok cl'.
Proof.
  intros (l & n & -> & Hp) [H1 H2 H3 H4 H5 H6 H7]. split; try done. cbn in *. destruct (inited cl).
  - by rewrite Hp.
  - rewrite H3 in Hp. by apply Permutation_nil_r in Hp.
Qed.
Lemma turned_trans a b c : turned a b → turned b c → turned a c.
Proof.
  intros (l & n & -> & Hp) (l' & n' & -> & Hp'). exists l', n'. split; [done|]. by rewrite Hp'.
Qed.

(** The number of CPUs a cluster may lose. *)
Definition spare (s : core_ctl) (cl : cluster_data) : Z :=
  Z.max 0 (get_active_cpu_count s cl - apply_limits e cl (need_cpus cl)).
Definition mentioned (p : pick) : cpumask := to_pause p ∪ to_part p.

(** [k] clusters had their turn. *)
Record adjusted (s0 : core_ctl) (k : nat) (sa : core_ctl * (pick * pick)) : Prop := {
  ad_frame : ∃ l, sa.1 = set_clusters l s0 ∧ Forall2 turned (clusters s0) l;
  ad_spare i cl : clusters s0 !! i = Some cl →
    weight (mentioned sa.2.1 ∩ cpu_mask cl) ≤ spare s0 cl ∧
    ((k ≤ i)%nat → mentioned sa.2.1 ∩ cpu_mask cl = ∅);
  ad_range c : c ∈ mentioned sa.2.1 → ∃ i cl, clusters s0 !! i = Some cl ∧ c ∈ cpu_mask cl;
}.

Record clusters_ok (s : core_ctl) : Prop := {
  cs_each i cl : clusters s !! i = Some cl → cluster_ok cl;
  cs_disj i j cl cl' : clusters s !! i = Some cl → clusters s !! j = Some cl' → i ≠ j →
    cpu_mask cl ## cpu_mask cl';
}.

(** Adding CPUs of cluster [k] to the CPUs to pause. *)
Lemma adjusted_pick s0 k cl0 cl1 s pause unpause sel pause' :
  clusters_ok s0 → clusters s0 !! k = Some cl0 → adjusted s0 k (s, (pause, unpause)) →
  turned cl0 cl1 → mentioned pause' = mentioned pause ∪ sel →
  sel ⊆ cpu_mask cl0 → weight sel ≤ spare s0 cl0 →
  adjusted s0 (S k) (set_cluster k cl1 s, (pause', unpause)).
Proof.
  intros Hs Hk [(l & Hl & Hf) Hsp Hrg] Ht Hm Hsel Hw. cbn [fst snd] in *. subst s. split; cbn [fst snd].
  - exists (<[k := cl1]> l). split; [done|]. rewrite <-(list_insert_id _ _ _ Hk). by apply Forall2_insert.
  - intros i cl Hi. destruct (Hsp i cl Hi) as [Hsp1 Hsp2]. rewrite Hm. destruct (decide (i = k)) as [->|Hne].
    + rewrite Hk in Hi. injection Hi as <-. rewrite intersection_union_r_L, Hsp2, union_empty_l_L by lia.
      rewrite (proj1 (subseteq_intersection_L _ _) Hsel). split; [done|lia].
    + assert ((mentioned pause ∪ sel) ∩ cpu_mask cl = mentioned pause ∩ cpu_mask cl) as ->
        by (pose proof (cs_disj _ Hs i k cl cl0 Hi Hk Hne); set_solver).
      split; [done|]. intros Hle. apply Hsp2. lia.
  - intros c. rewrite Hm. intros [Hc|Hc]%elem_of_union; [by apply Hrg|]. exists k, cl0. set_solver.
Qed.

Lemma set_cluster_twice i a b s : set_cluster i a (set_cluster i b s) = set_cluster i a s.
Proof. unfold set_cluster, set_clusters. cbn. by rewrite list_insert_insert_eq. Qed.

Lemma try_to_pause_turn i cl need p s :
  cluster_ok cl → (inited cl = true → active_cpus cl < 2 ^ 32) → 0 ≤ need ≤ active_cpus cl →
  need ≤ max_cpus (params cl) →
  ∃ cl' p' sel, try_to_pause e i cl need p s = (set_cluster i cl' s, p') ∧ turned cl cl' ∧
    mentioned p' = mentioned p ∪ sel ∧ sel ⊆ unhalted s (cpu_mask cl) ∧ weight sel ≤ active_cpus cl - need.
Proof.
  intros Hok Hs Hn Hmax. unfold try_to_pause.
  destruct (pause_walks_picked s cl need (to_pause p) Hok Hs Hn Hmax) as [Hp [Hr (sel & Hm & Hsel & Hw)]].
  destruct (pause_walks e s cl need (to_pause p)) as [l [n m]]. cbn [fst snd] in *. subst m.
  destruct (try_to_partial_pause_union s (set_lru l cl) (mk_pick (to_pause p ∪ sel) (to_part p)))
    as [(l2 & Hl2 & Hp2) Hu].
  destruct (try_to_partial_pause s _ _) as [cl2 p2]. cbn [fst snd to_pause to_part] in *. subst cl2.
  exists (set_lru l2 (set_lru l cl)), p2, sel. split_and!; [done| | |done|lia].
  - apply turned_lru; [|done]. apply turned_lru; [apply turned_refl|done].
  - unfold mentioned. rewrite Hu. set_solver.
Qed.

Lemma try_to_resume_turn i cl need p s :
  ∃ cl' p', try_to_resume e i cl need p s = (set_cluster i cl' s, p') ∧ turned cl cl'.
Proof.
  unfold try_to_resume, __try_to_resume. set (f := Z.to_nat (num_cpus cl)).
  destruct (lru_walk _ _ _ _ _) as [l [n m]] eqn:E.
  assert (l ≡ₚ lru cl) as Hl by (change l with (l, (n, m)).1; rewrite <-E; apply lru_walk_perm).
  assert (turned cl (set_lru l cl)) as Ht by (apply turned_lru; [apply turned_refl|done]).
  destruct (_ =? _); [by eexists _, _|]. destruct (lru_walk _ _ _ (lru (set_lru l cl)) _) as [l' [n' m']] eqn:E'.
  eexists _, _. split; [done|]. apply turned_lru; [done|].
  change l' with (l', (n', m')).1. rewrite <-E'. apply lru_walk_perm.
Qed.

Lemma adjust_cluster_step s0 k sa :
  clusters_ok s0 → (k < length (clusters s0))%nat → adjusted s0 k sa →
  adjusted s0 (S k) (match clusters sa.1 !! k with Some cl => adjust_cluster e k cl sa | None => sa end).
Proof.
  intros Hs Hk Had. pose proof Had as [(l & Hl & Hf) Hsp Hrg]. destruct sa as [s [pause unpause]]. cbn [fst snd] in *. subst s.
  destruct (lookup_lt_is_Some_2 _ _ Hk) as [cl0 H0]. destruct (Forall2_lookup_l _ _ _ _ _ Hf H0) as (cl' & Hcl' & Ht).
  cbn [clusters set_clusters]. rewrite Hcl'. pose proof (cs_each _ Hs _ _ H0) as Hok.
  assert (∀ p pause' s', s' = set_cluster k p (set_clusters l s0) → turned cl0 p → pause' = pause →
    ∀ u, adjusted s0 (S k) (s', (pause', u))) as Hskip.
  { intros p pause' s' -> Hp -> u. apply (adjusted_pick s0 k cl0 p (set_clusters l s0) pause u ∅ pause);
      [done|done|by destruct Had; split|done|set_solver|set_solver|].
    unfold weight, spare. rewrite size_empty. lia. }
  unfold adjust_cluster. set (cl1 := set_active _ cl'). set (s1 := set_cluster k cl1 _).
  assert (turned cl0 cl1) as Ht1 by (by apply (turned_trans _ cl'), turned_active).
  pose proof (turned_ok _ _ Ht1 Hok) as Hok1.
  assert (active_cpus cl1 = get_active_cpu_count s0 cl0 ∧ num_cpus cl1 = num_cpus cl0 ∧ cpu_mask cl1 = cpu_mask cl0 ∧
    apply_limits e cl1 (need_cpus cl1) = apply_limits e cl0 (need_cpus cl0)) as (Hact & Hnum & Hmask & Hneed).
  { destruct Ht as (l' & n & -> & _). done. }
  rewrite Hneed. set (need := apply_limits e cl0 (need_cpus cl0)) in *.
  destruct (apply_limits_max cl0 (need_cpus cl0) Hok (co_need _ Hok)) as [Hn Hmax].
  destruct (adjustment_possible s1 cl1 need); [|by apply (Hskip cl1)].
  destruct (Z.ltb_spec need (active_cpus cl1)) as [Hlt|_].
  2:{ destruct (active_cpus cl1 <? need); [|by apply (Hskip cl1)].
      destruct (try_to_resume_turn k cl1 need unpause s1) as (cl2 & p2 & -> & Ht2).
      apply (Hskip cl2); [apply set_cluster_twice|by apply (turned_trans _ cl1)|done]. }
  pose proof (active_le s0 cl0) as Hle. pose proof (co_num _ Hok) as Hnw.
  destruct (try_to_pause_turn k cl1 need pause s1) as (cl2 & p2 & sel & -> & Ht2 & Hm & Hsel & Hw); [done| |lia| |].
  { intros Hi. pose proof (co_small _ Hok1 Hi). unfold MAX_CPUS_PER_CLUSTER in *. lia. }
  { destruct Ht1 as (l' & n & -> & _). apply Hmax. cbn in *. lia. }
  unfold s1. rewrite set_cluster_twice.
  apply (adjusted_pick s0 k cl0 cl2 _ pause unpause sel p2); [done..|by apply (turned_trans _ cl1)|done| |].
  - rewrite <-Hmask. unfold unhalted in Hsel. set_solver.
  - unfold spare. fold need. lia.
Qed.

Lemma adjusted_start s0 : adjusted s0 0 (s0, (mk_pick ∅ ∅, mk_pick ∅ ∅)).
Proof.
  split; cbn [fst snd].
  - exists (clusters s0). split; [by destruct s0|]. induction (clusters s0); constructor; [apply turned_refl|done].
  - intros i cl _. assert (mentioned (mk_pick ∅ ∅) ∩ cpu_mask cl = ∅) as -> by (unfold mentioned; set_solver).
    split; [|done]. unfold weight, spare. rewrite size_empty. lia.
  - unfold mentioned. set_solver.
Qed.

Lemma adjusted_all s0 :
  clusters_ok s0 →
  adjusted s0 (length (clusters s0)) (for_each_cluster (adjust_cluster e) (s0, (mk_pick ∅ ∅, mk_pick ∅ ∅))).
Proof.
  intros Hs. apply (for_each_ind (adjust_cluster e) (adjusted s0) (s0, (mk_pick ∅ ∅, mk_pick ∅ ∅)));
    [apply adjusted_start|]. intros i sa Hi. by apply adjust_cluster_step.
Qed.

(** ** The CPUs left active *)
Lemma walt_pause_mask env type cpus client h t c :
  c ∈ mask_of t (match type with HALT => walt_pause_cpus env cpus client h
                 | PARTIAL_HALT => walt_partial_pause_cpus env cpus client h end).2 →
  c ∈ mask_of t h ∨ (t = type ∧ c ∈ cpus).
Proof.
  destruct type; unfold walt_pause_cpus, walt_partial_pause_cpus; destruct (h_walt_disabled env); cbn [snd];
    try (by left); apply walt_halt_mask.
Qed.

Lemma walt_resume_mask env type cpus client h t c :
  c ∈ mask_of t (match type with HALT => walt_resume_cpus env cpus client h
                 | PARTIAL_HALT => walt_partial_resume_cpus env cpus client h end).2 →
  c ∈ mask_of t h.
Proof.
  destruct type; unfold walt_resume_cpus, walt_partial_resume_cpus; destruct (h_walt_disabled env); cbn [snd];
    try done; apply walt_start_mask.
Qed.

Lemma core_ctl_pause_mask p s t c :
  c ∈ mask_of t (halts (core_ctl_pause_cpus he p s)) → c ∈ mask_of t (halts s) ∨ c ∈ mentioned p.
Proof.
  unfold core_ctl_pause_cpus. set (part := to_part p ∖ _). set (s1 := if bool_decide (part = ∅) then s else _).
  assert (c ∈ mask_of t (halts s1) → c ∈ mask_of t (halts s) ∨ c ∈ mentioned p) as H1.
  { unfold s1. case_bool_decide; [by left|].
    pose proof (walt_pause_mask (halt_env_now he s) PARTIAL_HALT part PAUSE_CORE_CTL (halts s) t c) as Hm. cbn in Hm.
    destruct (walt_partial_pause_cpus _ _ _ _) as [ret h]. cbn in *. intros Hc. apply Hm in Hc.
    unfold mentioned. set_solver. }
  clearbody s1. set (full := to_pause p ∖ _). case_bool_decide; [done|].
  pose proof (walt_pause_mask (halt_env_now he s1) HALT full PAUSE_CORE_CTL (halts s1) t c) as Hm. cbn in Hm.
  destruct (walt_pause_cpus _ _ _ _) as [ret h]. cbn in *. intros Hc. apply Hm in Hc as [Hc|[_ Hc]]; [by apply H1|].
  unfold mentioned. set_solver.
Qed.

Lemma core_ctl_resume_mask p s t c :
  c ∈ mask_of t (halts (core_ctl_resume_cpus he p s)) → c ∈ mask_of t (halts s).
Proof.
  unfold core_ctl_resume_cpus. set (part := to_part p ∩ _). set (s1 := if bool_decide (part = ∅) then s else _).
  assert (c ∈ mask_of t (halts s1) → c ∈ mask_of t (halts s)) as H1.
  { unfold s1. case_bool_decide; [done|].
    pose proof (walt_resume_mask (halt_env_now he s) PARTIAL_HALT part PAUSE_CORE_CTL (halts s) t c) as Hm.
    cbn in Hm. by destruct (walt_partial_resume_cpus _ _ _ _) as [ret h]. }
  clearbody s1. set (full := to_pause p ∩ _). case_bool_decide; [done|].
  pose proof (walt_resume_mask (halt_env_now he s1) HALT full PAUSE_CORE_CTL (halts s1) t c) as Hm. cbn in Hm.
  destruct (walt_resume_cpus _ _ _ _) as [ret h]. cbn in *. naive_solver.
Qed.

Lemma unhalted_shrinks s s' (U m : cpumask) :
  (∀ t c, c ∈ mask_of t (halts s') → c ∈ mask_of t (halts s) ∨ c ∈ U) →
  active_cpu_count_from_mask s m - weight (U ∩ m) ≤ active_cpu_count_from_mask s' m.
Proof.
  intros H. unfold active_cpu_count_from_mask. set (A := (m ∖ _) ∖ _).
  trans (weight (A ∖ (U ∩ m))); [apply weight_diff|]. apply weight_mono. intros c Hc.
  pose proof (H HALT c) as H1. pose proof (H PARTIAL_HALT c) as H2. cbn in H1, H2. set_solver.
Qed.

(** core control never takes away a CPU that is needed.  Whatever the load, the
    boosts, the not-preferred and disabled CPUs and the other clients' halts, and
    even when halting is refused half-way, one [do_core_ctl] leaves every cluster
    with at least the CPUs it needs under its limits, or with as many as were
    active before if those were fewer. *)
Theorem do_core_ctl_keeps_needed s i cl :
  clusters_ok s → clusters s !! i = Some cl →
  Z.min (get_active_cpu_count s cl) (apply_limits e cl (need_cpus cl)) ≤
  get_active_cpu_count (do_core_ctl he e s) cl.
Proof.
  intros Hs Hi. unfold do_core_ctl. destruct (adjusted_all s Hs) as [(l & Hl & _) Hsp _].
  destruct (for_each_cluster _ _) as [s1 [pause unpause]]. cbn [fst snd] in *.
  destruct (Hsp i cl Hi) as [Hw _].
  pose proof (unhalted_shrinks s (core_ctl_resume_cpus he unpause (core_ctl_pause_cpus he pause s1))
    (mentioned pause) (cpu_mask cl)) as Hsh.
  unfold get_active_cpu_count, spare in *. cut (∀ t c, c ∈ mask_of t (halts (core_ctl_resume_cpus he unpause
    (core_ctl_pause_cpus he pause s1))) → c ∈ mask_of t (halts s) ∨ c ∈ mentioned pause).
  { intros H. specialize (Hsh H). unfold get_active_cpu_count in Hw. lia. }
  intros t c Hc. apply core_ctl_resume_mask, core_ctl_pause_mask in Hc. by rewrite Hl in Hc.
Qed.
End pick.
