(* ===== verification/CoreCtlExact.v ===== *)
(** * Core control: exactly which CPUs are picked

    The number of CPUs [try_to_pause] and [try_to_resume] pick, as functions of how
    many CPUs of the cluster qualify. *)

From S2P Require Import Prelude.
From S2P Require Import WaltHalt.
From S2P Require Import CoreCtl.
From S2P Require Import CoreCtlAct.
From S2P Require Import CoreCtlPick.

(** ** A pass that takes up to a number of qualifying CPUs *)
Section take.
Context (body : Z → Z * cpumask → option (bool * (Z * cpumask))) (elig : Z → bool) (k : Z).

(** Below the number it takes the qualifying CPUs and passes the others; at the
    number it changes nothing. *)
Record takes : Prop := {
  tk_take c n m : 0 ≤ n < k → elig c = true → body c (n, m) = Some (true, (n + 1, m ∪ {[c]}));
  tk_pass c n m : 0 ≤ n < k → elig c = false → body c (n, m) = Some (false, (n, m));
  tk_stop c m : body c (k, m) = None ∨ body c (k, m) = Some (false, (k, m));
}.

Definition fits (c : Z) : Prop := elig c = true.
#[local] Instance fits_dec c : Decision (fits c).
Proof. unfold fits. apply _. Defined.

Lemma scan_stop before todo moved m :
  takes → (scan body before todo moved (k, m)).2 = (k, m).
Proof.
  intros Ht. revert before moved. induction todo as [|c todo IH]; intros before moved; [done|].
  cbn [scan]. destruct (tk_stop Ht c m) as [-> | ->]; [done|apply IH].
Qed.

Lemma scan_take before todo moved n m :
  takes → 0 ≤ n ≤ k →
  let good := filter fits todo in
  let res := scan body before todo moved (n, m) in
  res.2 = (n + Z.min (k - n) (Z.of_nat (length good)), m ∪ list_to_set (take (Z.to_nat (k - n)) good)) ∧
  (n + Z.of_nat (length good) < k → res.1 = before ++ filter (λ c, ¬ fits c) todo ++ moved ++ good).
Proof.
  intros Ht. revert before moved n m. induction todo as [|c todo IH]; intros before moved n m Hn.
  { cbn. rewrite take_nil. split; [f_equal; [lia|set_solver]|by rewrite app_nil_r]. }
  destruct (decide (n = k)) as [->|Hnk].
  { cbn zeta. rewrite scan_stop by done. rewrite Z.sub_diag. cbn [Z.to_nat take]. split; [f_equal; [lia|set_solver]|lia]. }
  cbn [scan]. rewrite !filter_cons. destruct (elig c) eqn:E.
  - rewrite (tk_take Ht c n m) by (done || lia).
    rewrite (decide_True (P := fits c)) by done. rewrite (decide_False (P := ¬ fits c)) by (unfold fits; naive_solver).
    destruct (IH before (moved ++ [c]) (n + 1) (m ∪ {[c]})) as [IH1 IH2]; [lia|]. split.
    + rewrite IH1. replace (Z.to_nat (k - n)) with (S (Z.to_nat (k - (n + 1)))) by lia. cbn [length take list_to_set].
      f_equal; [lia|]. set_solver.
    + cbn [length]. intros H. rewrite IH2 by lia. by rewrite <-app_assoc.
  - rewrite (tk_pass Ht c n m) by (done || lia).
    rewrite (decide_False (P := fits c)) by (unfold fits; congruence).
    rewrite (decide_True (P := ¬ fits c)) by (unfold fits; congruence).
    destruct (IH (before ++ [c]) moved n m) as [IH1 IH2]; [lia|]. split; [done|].
    intros H. rewrite IH2 by lia. by rewrite <-app_assoc.
Qed.
End take.

(** The size of a set of distinct CPUs. *)
Lemma weight_list l : NoDup l → weight (list_to_set l) = Z.of_nat (length l).
Proof. intros H. unfold weight. by rewrite size_list_to_set. Qed.

Lemma filter_and_length {P Q : Z → Prop} `{∀ x, Decision (P x), ∀ x, Decision (Q x)} (l : list Z) :
  (∀ x, P x → Q x) →
  (length (filter Q (filter (λ x, ¬ P x) l)) + length (filter P l) = length (filter Q l))%nat.
Proof.
  intros HPQ. induction l as [|x l IH]; [done|]. rewrite !filter_cons.
  destruct (decide (P x)) as [HP|HP].
  - rewrite (decide_False (P := ¬ P x)) by naive_solver. rewrite decide_True by auto. cbn [length]. lia.
  - rewrite (decide_True (P := ¬ P x)) by done. rewrite filter_cons. destruct (decide (Q x)); cbn [length]; lia.
Qed.

(** [try_to_pause]'s second walk and [try_to_resume]'s second pass: having taken all
    that fit [P], take up to [k] that fit [Q], the others first. *)
Lemma take_rest {P Q : Z → Prop} `{∀ x, Decision (P x), ∀ x, Decision (Q x)} (l : list Z) (k : nat) :
  NoDup l → (∀ x, P x → Q x) →
  let l2 := filter (λ x, ¬ P x) l ++ filter P l in
  weight (list_to_set (filter P l) ∪ list_to_set (take k (filter Q l2))) =
  Z.of_nat (length (filter P l)) +
  Z.min (Z.of_nat k) (Z.of_nat (length (filter Q l)) - Z.of_nat (length (filter P l))).
Proof.
  intros Hnd HPQ l2. unfold l2. rewrite list.filter_app.
  set (A := filter Q (filter (λ x, ¬ P x) l)). set (B := filter P l).
  assert (filter Q B = B) as ->.
  { unfold B. clear -HPQ. induction l as [|x l IH]; [done|]. rewrite filter_cons. destruct (decide (P x)) as [HP|]; [|done].
    rewrite filter_cons, decide_True by auto. by rewrite IH. }
  pose proof (filter_and_length l HPQ) as Hlen. fold A B in Hlen.
  assert (list_to_set B ∪ list_to_set (take k (A ++ B)) =@{cpumask} list_to_set (B ++ take k A)) as ->.
  { rewrite list_to_set_app_L. apply set_eq. intros x. rewrite !elem_of_union, !elem_of_list_to_set, take_app, list.elem_of_app.
    pose proof (λ H, subseteq_take (k - length A) B x H). naive_solver. }
  rewrite weight_list.
  - rewrite length_app, length_take. lia.
  - apply list.NoDup_app. split_and!; [by apply list.NoDup_filter| |].
    + intros x Hx Hx'. apply subseteq_take in Hx'. unfold A in Hx'. apply list_elem_of_filter in Hx' as [_ Hx'].
      apply list_elem_of_filter in Hx' as [Hx' _]. unfold B in Hx. apply list_elem_of_filter in Hx. naive_solver.
    + apply (sublist_NoDup _ A); [|apply sublist_take]. by apply list.NoDup_filter, list.NoDup_filter.
Qed.

Section exact.
Context (he : halt_env) (e : ctl_env).

(** ** Pausing *)

(** A CPU that may be paused when there is a spare one; one that may be forced. *)
Definition forceable (s : core_ctl) (c : Z) : bool := negb (disabled (cpu_state s c)) && is_active e s c.
Definition idle (s : core_ctl) (c : Z) : bool := forceable s c && negb (is_busy (cpu_state s c)).
Definition count (f : Z → bool) (l : list Z) : Z := Z.of_nat (length (filter (λ c, f c = true) l)).

Lemma pause_takes s cl need :
  nr_not_preferred_cpus (params cl) = 0 → 0 ≤ need ≤ active_cpus cl → active_cpus cl < 2 ^ 32 →
  takes (pause_body e s cl need) (idle s) (active_cpus cl - need).
Proof.
  intros Hnp Hn Ha. split.
  - intros c n m Hr Hc. unfold idle, forceable in Hc. unfold pause_body.
    destruct (disabled _); [done|]. destruct (is_active e s c); [|done]. destruct (is_busy _); [done|].
    rewrite Hnp. unfold u32. rewrite !Z.mod_small by lia. cbn [negb]. by rewrite (proj2 (Z.eqb_neq _ _)) by lia.
  - intros c n m Hr Hc. unfold idle, forceable in Hc. unfold pause_body.
    destruct (disabled _); [done|]. destruct (is_active e s c); [|done]. destruct (is_busy _); [|done].
    unfold u32. rewrite !Z.mod_small by lia. cbn [negb]. by rewrite (proj2 (Z.eqb_neq _ _)) by lia.
  - intros c m. unfold pause_body. destruct (disabled _); [by right|]. destruct (is_active e s c); [|by right].
    left. unfold u32. rewrite Z.mod_small by lia. cbn [negb]. by rewrite (proj2 (Z.eqb_eq _ _)) by lia.
Qed.

Lemma force_takes s cl :
  0 ≤ max_cpus (params cl) ≤ active_cpus cl → active_cpus cl < 2 ^ 32 →
  takes (force_body e s cl false) (forceable s) (active_cpus cl - max_cpus (params cl)).
Proof.
  intros Hn Ha. split.
  - intros c n m Hr Hc. unfold forceable in Hc. unfold force_body.
    destruct (disabled _); [done|]. destruct (is_active e s c); [|done].
    unfold u32. rewrite !Z.mod_small by lia. cbn [negb andb]. by rewrite (proj2 (Z.leb_gt _ _)) by lia.
  - intros c n m Hr Hc. unfold forceable in Hc. unfold force_body.
    destruct (disabled _); [done|]. by destruct (is_active e s c).
  - intros c m. unfold force_body. destruct (disabled _); [by right|]. destruct (is_active e s c); [|by right].
    left. unfold u32. rewrite Z.mod_small by lia. cbn [negb]. by rewrite (proj2 (Z.leb_le _ _)) by lia.
Qed.

Lemma lru_nodup cl : cluster_ok he cl → NoDup (lru cl).
Proof.
  intros Hok. pose proof (co_lru _ _ Hok) as Hl. destruct (inited cl).
  - rewrite Hl. apply NoDup_cpus_of.
  - rewrite Hl. constructor.
Qed.
Lemma lru_length cl : cluster_ok he cl → inited cl = true → Z.to_nat (num_cpus cl) = length (lru cl).
Proof.
  intros Hok Hi. pose proof (co_lru _ _ Hok) as Hl. rewrite Hi in Hl. rewrite Hl, (co_num _ _ Hok).
  assert (cpu_mask cl = list_to_set (cpus_of he (cpu_mask cl))) as E.
  { apply set_eq. intros c. rewrite elem_of_list_to_set, elem_cpus_of. pose proof (co_range _ _ Hok c). naive_solver. }
  rewrite E at 1. rewrite weight_list by apply NoDup_cpus_of. lia.
Qed.

Lemma walk_take body elig k l fuel m :
  takes body elig k → 0 ≤ k → fuel = length l →
  let res := lru_walk body fuel [] l (0, m) in
  res.2 = (Z.min k (count elig l), m ∪ list_to_set (take (Z.to_nat k) (filter (λ c, elig c = true) l))) ∧
  (count elig l < k →
   res.1 = filter (λ c, ¬ elig c = true) l ++ filter (λ c, elig c = true) l).
Proof.
  intros Ht Hk ->. pose proof (lru_walk_scan body l [] [] (0, m)) as E. rewrite app_nil_r in E. rewrite E.
  destruct (scan_take body elig k [] l [] 0 m Ht) as [H1 H2]; [lia|]. cbn zeta in *. rewrite H1.
  rewrite Z.sub_0_r. split; [done|]. intros H. rewrite H2; [done|]. exact H.
Qed.

Lemma count_le (f g : Z → bool) l : (∀ c, f c = true → g c = true) → count f l ≤ count g l.
Proof. intros H. unfold count. pose proof (filter_and_length (P := λ c, f c = true) (Q := λ c, g c = true) l H) as E. apply inj_le. etrans; [apply Nat.le_add_l|]. apply Nat.eq_le_incl. exact E. Qed.

(** The second pass of a search: all that fit [f] taken, up to [k] that fit [g]. *)
Lemma second_pass (f g : Z → bool) l k :
  NoDup l → (∀ c, f c = true → g c = true) → 0 ≤ k →
  weight (list_to_set (filter (λ c, f c = true) l) ∪
          list_to_set (take (Z.to_nat k) (filter (λ c, g c = true)
            (filter (λ c, ¬ f c = true) l ++ filter (λ c, f c = true) l)))) =
  count f l + Z.min k (count g l - count f l).
Proof.
  intros Hnd Hfg Hk. etrans; [apply (take_rest (P := λ c, f c = true) (Q := λ c, g c = true) l); done|].
  rewrite Z2Nat.id by lia. reflexivity.
Qed.

Lemma first_pass_weight (f : Z → bool) l k :
  NoDup l → 0 ≤ k →
  weight (list_to_set (take (Z.to_nat k) (filter (λ c, f c = true) l))) = Z.min k (count f l).
Proof.
  intros Hnd Hk. rewrite weight_list; [rewrite length_take; unfold count; lia|].
  apply (sublist_NoDup _ (filter (λ c, f c = true) l)); [by apply list.NoDup_filter|apply sublist_take].
Qed.

Lemma pause_walks_exact s cl need m :
  cluster_ok he cl → inited cl = true → active_cpus cl < 2 ^ 32 → nr_not_preferred_cpus (params cl) = 0 →
  0 ≤ need ≤ active_cpus cl → need ≤ max_cpus (params cl) →
  ∃ sel, (pause_walks e s cl need m).2.2 = m ∪ sel ∧
    weight sel = Z.max (Z.min (active_cpus cl - need) (count (idle s) (lru cl)))
                       (Z.min (active_cpus cl - max_cpus (params cl)) (count (forceable s) (lru cl))).
Proof.
  intros Hok Hi Ha Hnp Hn Hmax. unfold pause_walks. rewrite Hnp. cbn [Z.eqb negb andb].
  pose proof (lru_nodup cl Hok) as Hnd. pose proof (lru_length cl Hok Hi) as Hlen.
  set (k := active_cpus cl - need). set (k2 := active_cpus cl - max_cpus (params cl)).
  assert (∀ c, idle s c = true → forceable s c = true) as Himp by (intros c H; by apply andb_true_iff in H as [? _]).
  pose proof (count_le _ _ (lru cl) Himp) as Hle.
  destruct (walk_take (pause_body e s cl need) (idle s) k (lru cl) (Z.to_nat (num_cpus cl)) m) as [H1 H2];
    [by apply pause_takes|lia|done|]. cbn zeta in *.
  set (la := lru_walk _ _ _ _ _) in *. clearbody la. unfold force_pass, over_max. rewrite H1. cbn [fst snd].
  assert (0 ≤ count (idle s) (lru cl)) by (unfold count; lia).
  unfold u32. rewrite Z.mod_small by lia.
  destruct (Z.ltb_spec (max_cpus (params cl)) (active_cpus cl - Z.min k (count (idle s) (lru cl)))) as [Hov|Hov].
  2:{ rewrite H1. eexists. split; [reflexivity|]. rewrite first_pass_weight by (done || lia). lia. }
  assert (count (idle s) (lru cl) < k2) as Hlt by lia. rewrite H2 by lia.
  set (A := filter (λ c, ¬ idle s c = true) (lru cl)). set (B := filter (λ c, idle s c = true) (lru cl)).
  assert (Z.to_nat (num_cpus cl) = length (A ++ B)) as Hlen2.
  { rewrite Hlen. apply Permutation_length. unfold A, B. rewrite Permutation_app_comm. by rewrite filter_app_complement. }
  pose proof (lru_walk_scan (force_body e s cl false) (A ++ B) [] [] (Z.min k (count (idle s) (lru cl)),
     m ∪ list_to_set (take (Z.to_nat k) B))) as E. rewrite app_nil_r in E. rewrite Hlen2, E.
  destruct (scan_take (force_body e s cl false) (forceable s) k2 [] (A ++ B) [] (Z.min k (count (idle s) (lru cl)))
     (m ∪ list_to_set (take (Z.to_nat k) B))) as [H3 _]; [by apply force_takes; lia|lia|]. cbn zeta in H3.
  rewrite H3. cbn [fst snd].
  assert (take (Z.to_nat k) B = B) as -> by (apply take_ge; unfold count in *; fold B in Hlt; lia).
  eexists. split; [by rewrite <-(assoc_L (∪))|].
  etrans; [apply (second_pass (idle s) (forceable s)); [done|done|lia]|]. lia.
Qed.

(** C9: how many CPUs are paused.  In a cluster whose CPUs are all equally preferred,
    [try_to_pause] picks exactly as many idle CPUs as are above the need, or all
    of them when there are fewer, and beyond that forces CPUs, busy ones included,
    only until [max_cpus] are left: the number of CPUs picked is the larger of the
    two.  Disabled and inactive CPUs are never picked. *)
Theorem try_to_pause_exact s i cl need p :
  cluster_ok he cl → inited cl = true → active_cpus cl < 2 ^ 32 → nr_not_preferred_cpus (params cl) = 0 →
  0 ≤ need ≤ active_cpus cl → need ≤ max_cpus (params cl) →
  ∃ sel, mentioned (try_to_pause e i cl need p s).2 = mentioned p ∪ sel ∧
    weight sel = Z.max (Z.min (active_cpus cl - need) (count (idle s) (lru cl)))
                       (Z.min (active_cpus cl - max_cpus (params cl)) (count (forceable s) (lru cl))).
Proof.
  intros Hok Hi Ha Hnp Hn Hmax. unfold try_to_pause.
  destruct (pause_walks_exact s cl need (to_pause p) Hok Hi Ha Hnp Hn Hmax) as (sel & Hsel & Hw).
  destruct (pause_walks e s cl need (to_pause p)) as [l [n m]]. cbn [fst snd] in Hsel. subst m.
  destruct (try_to_partial_pause_union s (set_lru l cl) (mk_pick (to_pause p ∪ sel) (to_part p))) as [_ Hu].
  destruct (try_to_partial_pause s _ _) as [cl2 p2]. cbn [fst snd to_pause to_part] in *.
  exists sel. split; [|done]. unfold mentioned. rewrite Hu. set_solver.
Qed.

(** ** Resuming *)
Definition resumable (s : core_ctl) (c : Z) : bool :=
  (bool_decide (c ∈ cpus_paused_by_us s) || bool_decide (c ∈ cpus_part_paused_by_us s)) && negb (is_active e s c).
Definition preferred (s : core_ctl) (c : Z) : bool := resumable s c && negb (not_preferred (cpu_state s c)).

Lemma resume_takes s cl need (force : bool) :
  0 ≤ active_cpus cl ≤ need → need < 2 ^ 32 →
  takes (resume_body e s cl need force) (if force then resumable s else preferred s) (need - active_cpus cl).
Proof.
  intros Hn Hs. split.
  - intros c n m Hr Hc. assert (resumable s c = true ∧ (force = false → not_preferred (cpu_state s c) = false)) as [H1 H2].
    { destruct force; [done|]. apply andb_true_iff in Hc as [H1 H2%negb_true_iff]. by split. }
    unfold resumable in H1. unfold resume_body.
    destruct (bool_decide (c ∈ cpus_paused_by_us s)), (bool_decide (c ∈ cpus_part_paused_by_us s)),
      (is_active e s c); try done; cbn [negb andb orb];
      (assert (negb force && not_preferred (cpu_state s c) = false) as -> by (destruct force; [done|by rewrite H2]));
      unfold u32; rewrite !Z.mod_small by lia; by rewrite (proj2 (Z.eqb_neq _ _)) by lia.
  - intros c n m Hr Hc. unfold resume_body.
    destruct force; unfold preferred, resumable in Hc;
    destruct (bool_decide (c ∈ cpus_paused_by_us s)), (bool_decide (c ∈ cpus_part_paused_by_us s)),
      (is_active e s c), (not_preferred (cpu_state s c)); done.
  - intros c m. unfold resume_body. destruct (_ && _); [by right|]. destruct (_ || _); [by right|]. left.
    unfold u32. rewrite Z.mod_small by lia. by rewrite (proj2 (Z.eqb_eq _ _)) by lia.
Qed.

(** how many CPUs are resumed.  [try_to_resume] picks exactly as many preferred CPUs
    as are missing when there are enough; otherwise it picks them all and then as
    many of the others as were missing at the start: the first pass's CPUs are not
    subtracted, so up to twice the missing number may be resumed. *)
Theorem try_to_resume_exact s i cl need p :
  cluster_ok he cl → inited cl = true → 0 ≤ active_cpus cl ≤ need → need < 2 ^ 32 →
  let missing := need - active_cpus cl in
  let np := count (preferred s) (lru cl) in
  ∃ sel, to_pause (try_to_resume e i cl need p s).2 = to_pause p ∪ sel ∧
    weight sel = if missing <=? np then missing
                 else np + Z.min missing (count (resumable s) (lru cl) - np).
Proof.
  intros Hok Hi Hn Hs missing np. unfold try_to_resume, __try_to_resume.
  pose proof (lru_nodup cl Hok) as Hnd. pose proof (lru_length cl Hok Hi) as Hlen.
  assert (0 ≤ np) by (unfold np, count; lia).
  destruct (walk_take (resume_body e s cl need false) (preferred s) missing (lru cl) (Z.to_nat (num_cpus cl)) (to_pause p))
    as [H1 H2]; [by apply (resume_takes s cl need false)|lia|done|]. cbn zeta in *.
  destruct (lru_walk _ _ _ (lru cl) _) as [l [n m]]. cbn [fst snd] in *. injection H1 as -> ->. fold np in H2. fold np.
  change (active_cpus (set_lru l cl)) with (active_cpus cl).
  unfold u32. rewrite Z.mod_small by lia. destruct (Z.leb_spec missing np) as [Hge|Hlt].
  { rewrite (proj2 (Z.eqb_eq _ _)) by lia. eexists. split; [reflexivity|].
    rewrite first_pass_weight by (done || lia). fold np. lia. }
  rewrite (proj2 (Z.eqb_neq _ _)) by lia. rewrite H2 by done. cbn [num_cpus lru set_lru].
  set (A := filter (λ c, ¬ preferred s c = true) (lru cl)). set (B := filter (λ c, preferred s c = true) (lru cl)).
  assert (Z.to_nat (num_cpus cl) = length (A ++ B)) as Hlen2.
  { rewrite Hlen. apply Permutation_length. unfold A, B. rewrite Permutation_app_comm. by rewrite filter_app_complement. }
  destruct (walk_take (resume_body e s (set_lru (A ++ B) cl) need true) (resumable s) missing (A ++ B)
    (Z.to_nat (num_cpus cl)) (to_pause p ∪ list_to_set (take (Z.to_nat missing) B))) as [H3 _];
    [by apply (resume_takes s (set_lru (A ++ B) cl) need true)|lia|done|]. cbn zeta in H3.
  destruct (lru_walk _ _ _ (A ++ B) _) as [l' [n' m']]. cbn [fst snd] in *. injection H3 as _ ->.
  assert (take (Z.to_nat missing) B = B) as -> by (apply take_ge; unfold np, count in Hlt; fold B in Hlt; lia).
  eexists. split; [by rewrite <-(assoc_L (∪))|].
  apply (second_pass (preferred s) (resumable s)); [done| |lia]. intros c Hc. by apply andb_true_iff in Hc as [? _].
Qed.
End exact.
