(* ===== verification/CoreCtlVotes.v ===== *)
(** * Core control: the votes it holds

    The halting operations of WaltHalt as core control uses them, whether they
    succeed or fail: the votes they leave, and that a CPU with a vote is halted. *)

From S2P Require Import Prelude.
From S2P Require Import WaltHalt.
From S2P Require Import CoreCtl.
From S2P Require Import CoreCtlAct.
From S2P Require Import CoreCtlPick.

(** Bit [k] of a CPU's votes. *)
Definition vote (k : Z) (h : halt) (t : pause_type) (c : Z) : bool :=
  Z.testbit (client_vote_mask h t c) k.

Lemma update_vote_bit b client old k :
  0 ≤ k < 8 →
  Z.testbit (update_vote b client old) k =
  if b then Z.testbit old k || Z.testbit client k else Z.testbit old k && negb (Z.testbit client k).
Proof.
  intros Hk. unfold update_vote, u8. rewrite Z.mod_pow2_bits_low by lia.
  destruct b; [apply Z.lor_spec|]. by rewrite Z.land_spec, Z.lnot_spec by lia.
Qed.

Section votes.
Context (env : halt_env).

(** A CPU with a vote is halted. *)
Definition voted_halted (h : halt) : Prop :=
  ∀ t c, 0 ≤ c < nr_cpu_ids env → client_vote_mask h t c ≠ 0 → c ∈ mask_of t h.

Lemma halt_loop_ret l type s :
  (halt_loop env l type s).1 = 0 ∧ (∀ c, c ∈ l → c ∈ mask_of type (halt_loop env l type s).2) ∨
  (halt_loop env l type s).1 < 0.
Proof.
  revert s. induction l as [|x l IH]; intros s; simpl; [left; set_solver|].
  destruct (x =? el0_first env); [right; cbn; unfold EINVAL; lia|].
  set (s1 := set_mask type _ s). destruct (IH s1) as [[H1 H2]|H]; [|by right]. left. split; [done|].
  intros c [->|Hc]%elem_of_cons; [|by apply H2]. apply halt_loop_mask. unfold s1. rewrite mask_of_set. set_solver.
Qed.

Lemma halt_cpus_ret cpus type s :
  (halt_cpus env cpus type s).1 = 0 ∧
    (∀ c, 0 ≤ c < nr_cpu_ids env → c ∈ cpus → c ∈ mask_of type (halt_cpus env cpus type s).2) ∨
  (halt_cpus env cpus type s).1 < 0.
Proof.
  unfold halt_cpus. destruct (halt_loop_ret (cpus_of env cpus) type s) as [[H1 H2]|H].
  - left. destruct (halt_loop env _ type s) as [ret s1]. cbn [fst snd] in *. subst ret. cbn.
    split; [by destruct type|]. intros c Hr Hc. pose proof (H2 c) as H. rewrite elem_cpus_of in H.
    destruct type; cbn in *; naive_solver.
  - right. destruct (halt_loop env _ type s) as [ret s1]. cbn [fst] in *.
    rewrite (proj2 (Z.eqb_neq ret 0)) by lia. cbn. done.
Qed.

(** Whether or not the CPUs could be halted. *)
Lemma walt_halt_votes cpus client type h :
  let res := walt_halt_cpus env cpus client type h in
  (∀ t c, client_vote_mask res.2 t c =
     if res.1 <? 0 then client_vote_mask h t c
     else voted env (client_vote_mask h) (mk_request true type cpus client) t c) ∧
  (voted_halted h → voted_halted res.2).
Proof.
  unfold walt_halt_cpus. set (new := update_halt_cpus env cpus type h).
  destruct (update_clients_run env cpus true client type h) as [Hm0 Hv0].
  case_bool_decide as Hne.
  { cbn [fst snd]. split; [done|]. intros Hh t c Hr. rewrite Hm0, Hv0.
    case_decide as Hd; [|by apply Hh]. destruct Hd as [-> [Hc _]%elem_cpus_of]. intros _. apply Hh; [done|].
    intros H0. assert (c ∈ new) as Hn by (by apply elem_update_halt_cpus). set_solver. }
  destruct (halt_cpus_mask env new type h HALT) as (_ & _ & Hv1).
  destruct (halt_cpus_ret new type h) as [[H1 H2]|H1].
  2:{ pose proof (halt_cpus_mask env new type h) as Hm.
      destruct (halt_cpus env new type h) as [ret h1]. cbn [fst snd] in *.
      rewrite (proj2 (Z.ltb_lt ret 0)) by done. cbn [fst snd]. rewrite (proj2 (Z.ltb_lt ret 0)) by done.
      split; [by rewrite Hv1|]. intros Hh t c Hr Hz. apply (Hm t), Hh; [done|]. by rewrite <-Hv1. }
  pose proof (halt_cpus_mask env new type h) as Hm.
  destruct (halt_cpus env new type h) as [ret h1]. cbn [fst snd] in *. subst ret. cbn [Z.ltb Z.compare fst snd].
  destruct (update_clients_run env cpus true client type h1) as [Hm1 Hv2].
  split; [intros t c; by rewrite Hv2, Hv1|]. intros Hh t c Hr. rewrite Hm1, Hv2, Hv1.
  destruct (decide (client_vote_mask h t c = 0)) as [Hz|Hz].
  - case_decide as Hd; [|done]. destruct Hd as [-> [Hc _]%elem_cpus_of]. intros _. apply H2; [done|].
    by apply elem_update_halt_cpus.
  - intros _. by apply (Hm t), Hh.
Qed.

Lemma walt_start_votes cpus client type h :
  let res := walt_start_cpus env cpus client type h in
  res.1 = 0 ∧
  (∀ t c, client_vote_mask res.2 t c = voted env (client_vote_mask h) (mk_request false type cpus client) t c) ∧
  (voted_halted h → voted_halted res.2).
Proof.
  unfold walt_start_cpus, start_cpus.
  destruct (update_clients_run env cpus false client type h) as [Hm Hv].
  set (h1 := update_clients env cpus false client type h) in *. set (go := update_halt_cpus env cpus type h1).
  destruct (start_loop_run (cpus_of env go) type h1) as [Hv2 Hm2]. set (h2 := foldl _ h1 (cpus_of env go)) in *.
  cbn [fst snd]. cbn. split; [done|].
  assert (∀ t, mask_of t (restrict_cpus_and_freq env go h2) = mask_of t h2) as Hr by (by intros []).
  split; [intros t c; by rewrite Hv2, Hv|]. intros Hh t c Hrg. cbn. rewrite Hr, Hm2, Hv2. intros Hz.
  assert (c ∈ mask_of t h1) as Hin.
  { rewrite Hm. apply Hh; [done|]. intros H0. apply Hz. rewrite Hv, H0. case_decide; [|done].
    unfold update_vote. by rewrite Z.land_0_l. }
  case_decide as Ht; [subst t|done]. apply elem_of_difference. split; [done|]. rewrite elem_of_list_to_set.
  intros [Hgo _]%elem_cpus_of. apply elem_update_halt_cpus in Hgo as [_ H0]; [|done]. by rewrite H0 in Hz.
Qed.

(** A request of any client, whether it succeeds or not. *)
Definition answered (r : request) (h : halt) (res : Z * halt) : Prop :=
  (∀ t c, client_vote_mask res.2 t c =
     if res.1 <? 0 then client_vote_mask h t c else voted env (client_vote_mask h) r t c) ∧
  (voted_halted h → voted_halted res.2) ∧
  (rq_halt r = false → h_walt_disabled env = false → res.1 = 0).

Lemma serve_answered h r : answered r h (serve env h r).
Proof.
  destruct r as [[|] [|] cpus client]; unfold serve, answered; cbn [rq_halt rq_type rq_cpus rq_client];
    unfold walt_pause_cpus, walt_partial_pause_cpus, walt_resume_cpus, walt_partial_resume_cpus;
    (destruct (h_walt_disabled env); [done|]);
    first [ destruct (walt_halt_votes cpus client HALT h) as [H1 H2]; done
          | destruct (walt_halt_votes cpus client PARTIAL_HALT h) as [H1 H2]; done
          | destruct (walt_start_votes cpus client HALT h) as (H0 & H1 & H2); rewrite H0; done
          | destruct (walt_start_votes cpus client PARTIAL_HALT h) as (H0 & H1 & H2); rewrite H0; done ].
Qed.

(** One bit of the votes after a request. *)
Lemma answered_vote r h res k t c :
  answered r h res → 0 ≤ k < 8 →
  vote k res.2 t c =
  if bool_decide (0 ≤ res.1 ∧ t = rq_type r ∧ c ∈ cpus_of env (rq_cpus r)) && Z.testbit (rq_client r) k
  then rq_halt r else vote k h t c.
Proof.
  intros (H & _) Hk. unfold vote. rewrite H. unfold voted.
  destruct (Z.ltb_spec res.1 0) as [Hlt|Hge].
  { rewrite bool_decide_false by lia. done. }
  case_decide as Hd; [rewrite bool_decide_true by naive_solver|rewrite bool_decide_false by naive_solver; done].
  cbn [andb]. rewrite update_vote_bit by done. destruct (rq_halt r), (Z.testbit (rq_client r) k), (Z.testbit _ k); done.
Qed.
End votes.
