(* ===== verification/CoreCtlSystem.v ===== *)
(** * Core control as a whole

    The operations of core control in any order from its initialisation, with the
    other clients' halt requests in between, and the invariant they keep: what core
    control believes it paused is what it votes for, a paused CPU is halted, the
    lists stay permutations of the clusters, and the single-big-thread mode holds
    its votes only while it lasts. *)

From S2P Require Import Prelude.
From S2P Require Import WaltHalt.
From S2P Require Import CoreCtl.
From S2P Require Import CoreCtlAct.
From S2P Require Import CoreCtlPick.
From S2P Require Import CoreCtlVotes.

Definition by_us (t : pause_type) (s : core_ctl) : cpumask :=
  match t with HALT => cpus_paused_by_us s | PARTIAL_HALT => cpus_part_paused_by_us s end.
Definition CORE_CTL_BIT : Z := 0.
Definition SBT_BIT : Z := 3.

Section inv.
Context (he : halt_env).

Definition managed (s : core_ctl) (c : Z) : Prop :=
  ∃ i cl, clusters s !! i = Some cl ∧ c ∈ cpu_mask cl.

Record ctl_inv (s : core_ctl) : Prop := {
  ci_clusters : clusters_ok he s;
  ci_votes t c : vote CORE_CTL_BIT (halts s) t c = true ↔ c ∈ by_us t s;
  ci_managed t c : c ∈ by_us t s → managed s c;
  ci_halted : voted_halted he (halts s);
  ci_sbt t c : vote SBT_BIT (halts s) t c = true →
    t = HALT ∧ 0 ≤ c < nr_cpu_ids he ∧ prev_is_sbt (sbt s) = true ∧ c ∈ cpus_for_sbt_pause (sbt s);
  ci_once : written_once (sbt s) = false → cpus_for_sbt_pause (sbt s) = ∅;
}.

Lemma managed_range s c : clusters_ok he s → managed s c → 0 ≤ c < nr_cpu_ids he.
Proof. intros Hs (i & cl & Hi & Hc). exact (co_range _ _ (cs_each _ _ Hs _ _ Hi) c Hc). Qed.

(** ** Steps that halt nothing *)

(** A cluster keeps its CPUs and stays well-formed. *)
Definition kept (cl cl' : cluster_data) : Prop :=
  cpu_mask cl' = cpu_mask cl ∧ (cluster_ok he cl → cluster_ok he cl').
Record quiet (s s' : core_ctl) : Prop := {
  qu_clusters : Forall2 kept (clusters s) (clusters s');
  qu_halts : halts s' = halts s;
  qu_by_us t : by_us t s' = by_us t s;
  qu_sbt : sbt s' = sbt s;
}.

#[export] Instance kept_preorder : PreOrder kept.
Proof. split; [done|]. intros a b c [H1 H2] [H3 H4]. split; [congruence|naive_solver]. Qed.
#[export] Instance quiet_preorder : PreOrder quiet.
Proof.
  split; [by intros s|]. intros s1 s2 s3 [A1 A2 A3 A4] [B1 B2 B3 B4]. split; [by etrans|congruence| |congruence].
  intros t. by rewrite B3, A3.
Qed.

Lemma quiet_lookup s s' i cl' :
  quiet s s' → clusters s' !! i = Some cl' → ∃ cl, clusters s !! i = Some cl ∧ kept cl cl'.
Proof. intros [H _ _ _] Hi. destruct (Forall2_lookup_r _ _ _ _ _ H Hi) as (cl & ? & ?). by exists cl. Qed.
Lemma quiet_managed s s' c : quiet s s' → managed s c → managed s' c.
Proof.
  intros [H _ _ _] (i & cl & Hi & Hc). destruct (Forall2_lookup_l _ _ _ _ _ H Hi) as (cl' & Hi' & Hm & _).
  exists i, cl'. by rewrite Hm.
Qed.

Lemma quiet_inv s s' : quiet s s' → ctl_inv s → ctl_inv s'.
Proof.
  intros Hq [[H1 H2] Hv Hm Hh Hs Ho]. pose proof Hq as [_ Eh Eb Es]. split.
  - split.
    + intros i cl' Hi. destruct (quiet_lookup s s' i cl' Hq Hi) as (cl & Hcl & _ & Hk). by apply Hk, (H1 i).
    + intros i j a b Ha Hb Hij. destruct (quiet_lookup s s' i a Hq Ha) as (a0 & Ha0 & -> & _).
      destruct (quiet_lookup s s' j b Hq Hb) as (b0 & Hb0 & -> & _). by apply (H2 i j).
  - intros t c. by rewrite Eh, Eb.
  - intros t c. rewrite Eb. intros Hc. by apply (quiet_managed s), (Hm t).
  - by rewrite Eh.
  - intros t c. rewrite Eh, Es. apply Hs.
  - by rewrite Es.
Qed.

(** Updates of fields the invariant does not look at. *)
Lemma quiet_other s s' :
  clusters s' = clusters s → halts s' = halts s → (∀ t, by_us t s' = by_us t s) → sbt s' = sbt s → quiet s s'.
Proof. intros H1 H2 H3 H4. split; [|done..]. by rewrite H1. Qed.

Lemma quiet_set_cluster i cl cl' s :
  clusters s !! i = Some cl → kept cl cl' → quiet s (set_cluster i cl' s).
Proof.
  intros Hi Hk. split; [|done|by intros []|done]. cbn. rewrite <-(list_insert_id _ _ _ Hi) at 1.
  by apply Forall2_insert.
Qed.

(** A loop over the clusters each turn of which is quiet. *)
Lemma quiet_for_each {A} (f : nat → cluster_data → core_ctl * A → core_ctl * A) s a :
  (∀ i cl sa, clusters sa.1 !! i = Some cl → quiet sa.1 (f i cl sa).1) →
  quiet s (for_each_cluster f (s, a)).1.
Proof.
  intros Hf. apply (for_each_ind f (λ _ sa, quiet s sa.1) (s, a)); [done|]. intros i sa _ Hq.
  destruct (clusters sa.1 !! i) as [cl|] eqn:E; [|done]. etrans; [done|by apply Hf].
Qed.

(** ** The evaluation is quiet *)
Section env.
Context (e : ctl_env).

Lemma kept_fields cl cl' :
  inited cl' = inited cl → num_cpus cl' = num_cpus cl → cpu_mask cl' = cpu_mask cl → lru cl' = lru cl →
  (cluster_ok he cl → 0 ≤ min_cpus (params cl') ∧ 0 ≤ max_cpus (params cl') ∧ 0 ≤ need_cpus cl') → kept cl cl'.
Proof.
  intros E1 E2 E3 E4 H. split; [done|]. intros Hok. destruct (H Hok) as (Hn & Hx & Hd). destruct Hok as [K1 K2 K3 K4 K5 K6 K7].
  split; rewrite ?E1, ?E2, ?E3, ?E4; done.
Qed.

Lemma kept_params cl p :
  (cluster_ok he cl → 0 ≤ min_cpus p ∧ 0 ≤ max_cpus p) → kept cl (set_params p cl).
Proof. intros H. apply kept_fields; [done..|]. intros Hok. destruct (H Hok). pose proof (co_need _ _ Hok). done. Qed.

Lemma raw_need_nonneg cl w : cluster_ok he cl → 0 ≤ raw_need e cl w.
Proof.
  intros Hok. unfold raw_need, apply_task_need. destruct (_ || _); [apply (co_max _ _ Hok)|].
  destruct (_ <=? _); [rewrite (co_num _ _ Hok); apply weight_nonneg|]. apply Z.mod_pos_bound. lia.
Qed.

Lemma eval_cluster_kept s cl w : kept cl (eval_cluster e s cl w).2.
Proof.
  assert (∀ n t, (cluster_ok he cl → 0 ≤ n) → kept cl (set_need (active_cpus cl) n t cl)) as Hk.
  { intros n t Hn. apply kept_fields; [done..|]. intros Hok. pose proof (co_min _ _ Hok). pose proof (co_max _ _ Hok).
    split_and!; [done..|]. by apply Hn. }
  assert (cluster_ok he cl → 0 ≤ apply_limits e cl (raw_need e cl w)) as Hn.
  { intros Hok. by apply (apply_limits_max he), raw_need_nonneg. }
  unfold eval_cluster. destruct (negb (inited cl)); [done|]. destruct (_ <? _); [by apply Hk|].
  destruct (_ && _); [apply Hk; apply co_need|]. destruct (_ <=? _); [by apply Hk|done].
Qed.

Lemma eval_need_quiet i w s : quiet s (eval_need e i w s).2.
Proof.
  unfold eval_need. destruct (clusters s !! i) as [cl|] eqn:E; [|done].
  pose proof (eval_cluster_kept s cl w). destruct (eval_cluster e s cl w) as [b cl']. by apply (quiet_set_cluster i cl).
Qed.

Lemma wake_up_quiet s : quiet s (wake_up_core_ctl_thread s).
Proof. by apply quiet_other; [..|intros []|]. Qed.

Lemma sysfs_param_changed_quiet i s : quiet s (sysfs_param_changed e i s).
Proof.
  unfold sysfs_param_changed. pose proof (eval_need_quiet i (sched_clock e) s) as H.
  destruct (eval_need e i _ s) as [[] s1]; cbn in H; [|done]. etrans; [exact H|apply wake_up_quiet].
Qed.

Lemma update_cluster_avg_quiet i cl s :
  clusters s !! i = Some cl → quiet s (update_cluster_avg he e i cl s).1.1.
Proof.
  intros Hi. unfold update_cluster_avg, compute_cluster_nr_busy. cbn [fst].
  rewrite set_cluster_twice. etrans; [|apply (quiet_set_cluster i cl); [exact Hi|]].
  - by apply quiet_other; [..|intros []|].
  - apply kept_fields; [done..|]. intros [K1 K2 K3 K4 K5 K6 K7]. done.
Qed.

Lemma update_running_avg_quiet w ctr s : quiet s (update_running_avg he e w ctr s).
Proof.
  unfold update_running_avg. set (f := λ i cl sa, _).
  assert (quiet s (for_each_cluster f (s, (0, 0))).1) as Hq.
  { apply quiet_for_each. intros i cl [s1 [big gi]] Hi. unfold f. destruct (negb (inited cl)); [done|].
    pose proof (update_cluster_avg_quiet i cl s1 Hi) as H. by destruct (update_cluster_avg he e i cl s1) as [[s2 b] g]. }
  destruct (for_each_cluster f (s, (0, 0))) as [s1 [b g]]. cbn in Hq. etrans; [exact Hq|].
  by apply quiet_other; [..|intros []|].
Qed.

(** ** So are the stores and the boosts *)
Lemma change_params_quiet i cl p s :
  clusters s !! i = Some cl → (cluster_ok he cl → 0 ≤ min_cpus p ∧ 0 ≤ max_cpus p) →
  quiet s (change_params e i cl p s).
Proof.
  intros Hi Hp. unfold change_params. etrans; [|apply sysfs_param_changed_quiet].
  by apply (quiet_set_cluster i cl), kept_params.
Qed.

Lemma kept_limits cl p :
  min_cpus p = min_cpus (params cl) → max_cpus p = max_cpus (params cl) →
  cluster_ok he cl → 0 ≤ min_cpus p ∧ 0 ≤ max_cpus p.
Proof. intros -> -> Hok. split; [apply (co_min _ _ Hok)|apply (co_max _ _ Hok)]. Qed.

Lemma with_cluster_quiet i s k :
  (∀ cl, clusters s !! i = Some cl → quiet s (k cl).2) → quiet s (with_cluster i s k).2.
Proof. intros H. unfold with_cluster. destruct (clusters s !! i) eqn:E; [by apply H|done]. Qed.

(** Values read by [sscanf] are unsigned. *)
Definition buf_ok (b : sysfs_buf) : Prop := ∀ v, buf_one b = Some v → 0 ≤ v.

Lemma min_num_nonneg cl v : 0 ≤ v → cluster_ok he cl → 0 ≤ Z.min v (num_cpus cl).
Proof. intros Hv Hok. rewrite (co_num _ _ Hok). pose proof (weight_nonneg (cpu_mask cl)). lia. Qed.

Lemma store_quiet a i b count s : buf_ok b → quiet s (store e a i b count s).2.
Proof.
  intros Hb. destruct a; cbn [store]; try done; apply with_cluster_quiet; intros cl Hi;
    try (destruct (buf_one b) as [v|] eqn:Ev; [|done]); try (destruct (buf_ul b); [done|]); cbn beta zeta.
  - apply change_params_quiet; [done|]. intros Hok. split; [apply min_num_nonneg; auto|apply (co_max _ _ Hok)].
  - cbn [snd]. set (s1 := change_params _ _ _ _ _).
    assert (quiet s s1) by (apply change_params_quiet; [done|by apply kept_limits]).
    etrans; [done|]. by apply quiet_other; [..|intros []|].
  - apply change_params_quiet; [done|]. intros Hok. split; [apply (co_min _ _ Hok)|apply min_num_nonneg; auto].
  - apply change_params_quiet; [done|by apply kept_limits].
  - destruct (thresholds cl _ _); [|done]. apply change_params_quiet; [done|by apply kept_limits].
  - destruct (thresholds cl _ _); [|done]. apply change_params_quiet; [done|by apply kept_limits].
  - destruct (_ <? _); [done|]. apply change_params_quiet; [done|by apply kept_limits].
  - cbn [snd]. destruct (negb _); [|done]. apply change_params_quiet; [done|by apply kept_limits].
  - destruct (negb _); [done|]. cbn [snd]. etrans; [|apply (quiet_set_cluster i cl); [exact Hi|]].
    + by apply quiet_other; [..|intros []|].
    + by apply kept_params, kept_limits.
  - by apply (quiet_set_cluster i cl), kept_params, kept_limits.
  - by apply (quiet_set_cluster i cl), kept_params, kept_limits.
  - apply change_params_quiet; [done|by apply kept_limits].
  - by apply (quiet_set_cluster i cl), kept_params, kept_limits.
  - by apply (quiet_set_cluster i cl), kept_params, kept_limits.
  - apply change_params_quiet; [done|by apply kept_limits].
Qed.

Lemma set_cluster_boost_kept cl b : kept cl (set_cluster_boost cl b).2.
Proof.
  unfold set_cluster_boost. destruct b; [|destruct (_ =? _)]; apply kept_fields; try done;
    intros Hok; destruct Hok as [K1 K2 K3 K4 K5 K6 K7]; done.
Qed.

Lemma core_ctl_set_cluster_boost_quiet idx b s : quiet s (core_ctl_set_cluster_boost e idx b s).2.
Proof.
  unfold core_ctl_set_cluster_boost. destruct (0 <=? idx); [|done].
  destruct (clusters s !! Z.to_nat idx) as [cl|] eqn:E; [|done].
  pose proof (set_cluster_boost_kept cl b) as Hk. destruct (set_cluster_boost cl b) as [[ret chg] cl'].
  cbn [snd] in *. pose proof (quiet_set_cluster _ _ _ _ E Hk). destruct (default false chg); [|done].
  etrans; [done|apply sysfs_param_changed_quiet].
Qed.

Lemma core_ctl_set_boost_quiet b s : quiet s (core_ctl_set_boost he e b s).2.
Proof.
  unfold core_ctl_set_boost. destruct (h_walt_disabled he); [done|]. destruct (negb _); [done|].
  set (f := λ i cl sa, _).
  assert (quiet s (for_each_cluster f (s, (0, false))).1) as Hq.
  { apply quiet_for_each. intros i cl [s1 [ret chg]] Hi. unfold f. cbn [fst] in Hi.
    pose proof (set_cluster_boost_kept cl b) as Hk. destruct (set_cluster_boost cl b) as [[ret' chg'] cl'].
    by apply (quiet_set_cluster i cl). }
  destruct (for_each_cluster f (s, (0, false))) as [s1 [ret chg]]. cbn [fst snd] in *. destruct chg; [|done].
  etrans; [exact Hq|]. apply quiet_for_each. intros i cl sa _. apply sysfs_param_changed_quiet.
Qed.

(** ** Halting *)

(** A request of core control's own: the book is kept with the votes. *)
Lemma own_request b t m s res s' :
  ctl_inv s → answered he (mk_request b t m PAUSE_CORE_CTL) (halts s) res →
  (∀ c, c ∈ m → managed s c) →
  clusters s' = clusters s → sbt s' = sbt s → halts s' = res.2 →
  by_us t s' = (if res.1 <? 0 then by_us t s else if b then by_us t s ∪ m else by_us t s ∖ m) →
  (∀ t', t' ≠ t → by_us t' s' = by_us t' s) →
  ctl_inv s'.
Proof.
  intros [Hc Hv Hm Hh Hs Ho] Ha Hmg Ec Es Eh Et En. split.
  - destruct Hc as [H1 H2]. split; rewrite Ec; done.
  - intros t' c. rewrite Eh, (answered_vote he _ _ _ _ t' c Ha) by (unfold CORE_CTL_BIT; lia).
    change (Z.testbit (rq_client (mk_request b t m PAUSE_CORE_CTL)) CORE_CTL_BIT) with true. rewrite andb_true_r.
    cbn [rq_type rq_cpus rq_halt]. destruct (decide (t' = t)) as [->|Hne].
    2:{ rewrite En, bool_decide_false by naive_solver. apply Hv. }
    rewrite Et. destruct (Z.ltb_spec res.1 0); [rewrite bool_decide_false by lia; apply Hv|].
    assert (c ∈ cpus_of he m ↔ c ∈ m) as Hcm.
    { rewrite elem_cpus_of. split; [naive_solver|]. intros Hin. split; [done|]. by apply (managed_range s), Hmg. }
    case_bool_decide as Hd.
    + destruct b; [|split; [done|set_solver]]. split; [|done]. intros _. set_solver.
    + rewrite Hv. assert (c ∉ m) by naive_solver. destruct b; set_solver.
  - intros t' c Hin. assert (∀ c, managed s c → managed s' c) as Hms by (unfold managed; by rewrite Ec).
    apply Hms. destruct (decide (t' = t)) as [->|Hne]; [|rewrite En in Hin by done; by apply (Hm t')].
    rewrite Et in Hin. destruct (_ <? _); [by apply (Hm t)|]. destruct b; [|apply (Hm t); set_solver].
    apply elem_of_union in Hin as [Hin|Hin]; [by apply (Hm t)|by apply Hmg].
  - rewrite Eh. by apply Ha.
  - intros t' c. rewrite Eh, Es, (answered_vote he _ _ _ _ t' c Ha) by (unfold SBT_BIT; lia).
    change (Z.testbit (rq_client (mk_request b t m PAUSE_CORE_CTL)) SBT_BIT) with false. rewrite andb_false_r. apply Hs.
  - by rewrite Es.
Qed.

Lemma answered_now s r h res : answered (halt_env_now he s) r h res → answered he r h res.
Proof. done. Qed.

Lemma core_ctl_pause_inv p s :
  ctl_inv s → (∀ c, c ∈ mentioned p → managed s c) →
  ctl_inv (core_ctl_pause_cpus he p s) ∧ (∀ c, managed s c → managed (core_ctl_pause_cpus he p s) c).
Proof.
  intros Hi Hm. unfold core_ctl_pause_cpus. set (part := to_part p ∖ _).
  set (s1 := if bool_decide (part = ∅) then s else _).
  assert (ctl_inv s1 ∧ clusters s1 = clusters s) as [H1 Ec].
  { unfold s1. case_bool_decide; [done|].
    pose proof (serve_answered (halt_env_now he s) (halts s) (mk_request true PARTIAL_HALT part PAUSE_CORE_CTL)) as Ha.
    cbn in Ha. destruct (walt_partial_pause_cpus _ _ _ _) as [ret h] eqn:E. split; [|done].
    apply (own_request true PARTIAL_HALT part s (ret, h)); [done|done| |done..|by intros []].
    intros c Hc. apply Hm. unfold mentioned. set_solver. }
  clearbody s1. set (full := to_pause p ∖ _).
  assert (∀ c, managed s c → managed s1 c) as Hms by (unfold managed; by rewrite Ec).
  case_bool_decide; [done|].
  pose proof (serve_answered (halt_env_now he s1) (halts s1) (mk_request true HALT full PAUSE_CORE_CTL)) as Ha.
  cbn in Ha. destruct (walt_pause_cpus _ _ _ _) as [ret h] eqn:E. split; [|done].
  apply (own_request true HALT full s1 (ret, h)); [done|done| |done..|by intros []].
  intros c Hc. apply Hms, Hm. unfold mentioned. set_solver.
Qed.

Lemma core_ctl_resume_inv p s : ctl_inv s → ctl_inv (core_ctl_resume_cpus he p s).
Proof.
  intros Hi. unfold core_ctl_resume_cpus. set (part := to_part p ∩ _).
  set (s1 := if bool_decide (part = ∅) then s else _).
  assert (ctl_inv s1) as H1.
  { unfold s1. case_bool_decide; [done|].
    pose proof (serve_answered (halt_env_now he s) (halts s) (mk_request false PARTIAL_HALT part PAUSE_CORE_CTL)) as Ha.
    cbn in Ha. destruct (walt_partial_resume_cpus _ _ _ _) as [ret h] eqn:E.
    apply (own_request false PARTIAL_HALT part s (ret, h)); [done|done| |done..|by intros []].
    intros c Hc. apply (ci_managed _ Hi PARTIAL_HALT). cbn. set_solver. }
  clearbody s1. set (full := to_pause p ∩ _). case_bool_decide; [done|].
  pose proof (serve_answered (halt_env_now he s1) (halts s1) (mk_request false HALT full PAUSE_CORE_CTL)) as Ha.
  cbn in Ha. destruct (walt_resume_cpus _ _ _ _) as [ret h] eqn:E.
  apply (own_request false HALT full s1 (ret, h)); [done|done| |done..|by intros []].
  intros c Hc. apply (ci_managed _ H1 HALT). cbn. set_solver.
Qed.

Lemma turned_kept cl cl' : turned cl cl' → kept cl cl'.
Proof. intros Ht. split; [by destruct Ht as (l & n & -> & _)|by apply turned_ok]. Qed.

Lemma do_core_ctl_inv s : ctl_inv s → ctl_inv (do_core_ctl he e s).
Proof.
  intros Hi. unfold do_core_ctl. destruct (adjusted_all he e s (ci_clusters _ Hi)) as [(l & Hl & Hf) _ Hrg].
  destruct (for_each_cluster _ _) as [s1 [pause unpause]]. cbn [fst snd] in *.
  assert (quiet s s1) as Hq.
  { rewrite Hl. split; [|done|by intros []|done]. cbn. eapply Forall2_impl; [exact turned_kept|exact Hf]. }
  apply core_ctl_resume_inv, core_ctl_pause_inv; [by apply (quiet_inv s)|].
  intros c Hc. apply (quiet_managed s); [done|]. destruct (Hrg c Hc) as (i & cl & ? & ?). by exists i, cl.
Qed.

(** A request of another client; [x] is the single-big-thread state after it. *)
Lemma other_request r s res s' :
  ctl_inv s → answered he r (halts s) res → Z.testbit (rq_client r) CORE_CTL_BIT = false →
  clusters s' = clusters s → halts s' = res.2 → (∀ t, by_us t s' = by_us t s) →
  (∀ t c, vote SBT_BIT res.2 t c = true →
     t = HALT ∧ 0 ≤ c < nr_cpu_ids he ∧ prev_is_sbt (sbt s') = true ∧ c ∈ cpus_for_sbt_pause (sbt s')) →
  (written_once (sbt s') = false → cpus_for_sbt_pause (sbt s') = ∅) →
  ctl_inv s'.
Proof.
  intros [Hc Hv Hm Hh Hs Ho] Ha Hb Ec Eh Eb Hsbt Ho'. split; [|..|done].
  - destruct Hc as [H1 H2]. split; rewrite Ec; done.
  - intros t c. rewrite Eh, Eb, (answered_vote he _ _ _ _ t c Ha) by (unfold CORE_CTL_BIT; lia).
    rewrite Hb, andb_false_r. apply Hv.
  - intros t c. rewrite Eb. intros Hin. unfold managed. rewrite Ec. by apply (Hm t).
  - rewrite Eh. by apply Ha.
  - rewrite Eh. done.
Qed.

(** The single-big-thread state may change as long as its votes agree. *)
Lemma sbt_inv x s :
  ctl_inv s →
  (∀ c, vote SBT_BIT (halts s) HALT c = true → prev_is_sbt x = true ∧ c ∈ cpus_for_sbt_pause x) →
  (written_once x = false → cpus_for_sbt_pause x = ∅) → ctl_inv (set_sbt x s).
Proof.
  intros [Hc Hv Hm Hh Hs Ho] Hx Hw. split; try done.
  - by destruct Hc; split.
  - intros t c Hb. destruct (Hs t c Hb) as (-> & Hr & _). destruct (Hx c Hb). done.
Qed.

Lemma sbt_ctl_check_inv ctr s :
  h_walt_disabled he = false → ctl_inv s → ctl_inv (sbt_ctl_check he e ctr s).
Proof.
  intros Hd Hi. pose proof (ci_sbt _ Hi) as Hs. pose proof (ci_once _ Hi) as Ho. unfold sbt_ctl_check.
  set (x := sbt s) in *. set (now := core_ctl_is_sbt he e ctr s). set (loc := cpus_for_sbt_pause x) in *.
  assert (∀ p w, p = prev_is_sbt x → ctl_inv (set_sbt (sbt_with p now w x) s)) as Hkeep.
  { intros p w ->. apply sbt_inv; [done| |done]. intros c Hc. destruct (Hs HALT c Hc) as (_ & _ & ? & ?). done. }
  destruct (bool_decide (loc = ∅)) eqn:El; cbn [negb].
  { apply bool_decide_eq_true in El. apply sbt_inv; [done| |done].
    intros c Hc. destruct (Hs HALT c Hc) as (_ & _ & _ & ?). set_solver. }
  destruct (eqb (prev_is_sbt x) now) eqn:Eq; [by apply Hkeep|]. apply eqb_false_iff in Eq.
  destruct (now && _) eqn:Ew; [by apply Hkeep|].
  assert (∀ b, let res := serve (halt_env_now he s) (halts s) (mk_request b HALT loc PAUSE_SBT) in
    prev_is_sbt x = negb b → now = b →
    ctl_inv (set_sbt (sbt_with now now (sysctl_sched_sbt_delay_windows e) x)
      (set_paused (cpus_paused_by_us s) (cpus_part_paused_by_us s) res.2 s))) as Hgo.
  { intros b res Hp Hn. pose proof (serve_answered (halt_env_now he s) (halts s) (mk_request b HALT loc PAUSE_SBT)) as Ha.
    fold res in Ha. apply (other_request (mk_request b HALT loc PAUSE_SBT) s res); [done|done|done|done|done|by intros []| |done].
    intros t c. rewrite (answered_vote he _ _ _ _ t c Ha) by (unfold SBT_BIT; lia).
    change (Z.testbit (rq_client (mk_request b HALT loc PAUSE_SBT)) SBT_BIT) with true. rewrite andb_true_r.
    cbn [rq_type rq_cpus rq_halt]. clear El. case_bool_decide as Hc.
    - intros ->. destruct Hc as (_ & -> & [Hc Hr]%elem_cpus_of). split; [done|]. split; [done|]. split; [exact Hn|exact Hc].
    - intros Hvt. destruct (Hs t c Hvt) as (-> & Hr & Hp1 & Hc1). destruct b; [by rewrite Hp in Hp1|].
      exfalso. apply Hc. split_and!; [|done|by apply elem_cpus_of].
      destruct Ha as (_ & _ & H0). rewrite H0 by done. done. }
  destruct now eqn:En, (prev_is_sbt x) eqn:Ep; try done; cbn [negb andb].
  - apply (Hgo true); done.
  - apply (Hgo false); done.
Qed.

Lemma sbt_pause_handler_inv write proc s :
  ctl_inv s → ctl_inv (walt_proc_sbt_pause_handler e write proc s).2.
Proof.
  intros Hi. pose proof (ci_sbt _ Hi) as Hs. pose proof (ci_once _ Hi) as Ho.
  assert (∀ c, vote SBT_BIT (halts s) HALT c = true →
    prev_is_sbt (sbt s) = true ∧ c ∈ cpus_for_sbt_pause (sbt s)) as Hv by (intros c Hc; by apply (Hs HALT c) in Hc as (_ & _ & ?)).
  unfold walt_proc_sbt_pause_handler. destruct proc as [ret new].
  destruct (_ || _); [by apply sbt_inv|]. destruct (written_once (sbt s)) eqn:Ew; [by apply sbt_inv|].
  apply sbt_inv; [done| |done]. intros c Hc. apply Hv in Hc as [_ Hc]. rewrite Ho in Hc by done. set_solver.
Qed.

Lemma core_ctl_check_inv w ctr s :
  h_walt_disabled he = false → ctl_inv s → ctl_inv (core_ctl_check he e w ctr s).
Proof.
  intros Hd Hi. unfold core_ctl_check. destruct (negb (initialized s)); [done|].
  destruct (negb (assist_params_initialized s)); [by apply (quiet_inv s); [apply quiet_other; [..|intros []|]|]|].
  destruct (w =? _); [done|]. set (s1 := update_busy_pct _ _ _).
  assert (quiet s s1) as H1 by (by apply quiet_other; [..|intros []|]). clearbody s1.
  pose proof (update_running_avg_quiet w ctr s1) as H2. set (s2 := update_running_avg he e w ctr s1) in *.
  clearbody s2. set (f := λ i cl sa, _).
  assert (quiet s2 (for_each_cluster f (s2, false)).1) as H3.
  { apply quiet_for_each. intros i cl [s3 b] _. unfold f. cbn [fst snd]. pose proof (eval_need_quiet i w s3).
    by destruct (eval_need e i w s3). }
  destruct (for_each_cluster f (s2, false)) as [s3 wakeup]. cbn [fst] in H3.
  assert (ctl_inv s3) as Hi3 by (apply (quiet_inv s2), (quiet_inv s1), (quiet_inv s); done).
  set (s4 := if wakeup then do_core_ctl he e s3 else s3).
  assert (ctl_inv s4) as Hi4 by (unfold s4; destruct wakeup; [by apply do_core_ctl_inv|done]). clearbody s4.
  apply sbt_ctl_check_inv; [done|]. apply (quiet_inv s4); [|done]. unfold core_ctl_call_notifier.
  destruct (negb _); [done|]. by apply quiet_other; [..|intros []|].
Qed.

Lemma try_core_ctl_round_inv stop s s' :
  ctl_inv s → try_core_ctl_round he e stop s = Some s' → ctl_inv s'.
Proof.
  intros Hi. unfold try_core_ctl_round. destruct (_ && _); [done|]. intros [= <-]. apply do_core_ctl_inv.
  apply (quiet_inv s); [|done]. by apply quiet_other; [..|intros []|].
Qed.
End env.

(** ** Initialisation *)

(** The clusters of the system: disjoint sets of existing CPUs. *)
Record topology_ok (e : ctl_env) : Prop := {
  tp_range m c : m ∈ sched_clusters e → c ∈ m → 0 ≤ c < nr_cpu_ids he;
  tp_disj i j m m' : sched_clusters e !! i = Some m → sched_clusters e !! j = Some m' → i ≠ j → m ## m';
}.

Lemma append_cluster_inv cl s s' :
  ctl_inv s → cluster_ok he cl → (∀ i cl', clusters s !! i = Some cl' → cpu_mask cl' ## cpu_mask cl) →
  clusters s' = clusters s ++ [cl] → halts s' = halts s → (∀ t, by_us t s' = by_us t s) → sbt s' = sbt s →
  ctl_inv s'.
Proof.
  intros [[H1 H2] Hv Hm Hh Hs Ho] Hcl Hd Ec Eh Eb Es.
  assert (∀ i x, clusters s' !! i = Some x → clusters s !! i = Some x ∨ (i = length (clusters s) ∧ x = cl)) as Hl.
  { intros i x. rewrite Ec. intros [Hx|[Hi Hx]]%lookup_app_Some; [by left|right].
    apply list_lookup_singleton_Some in Hx as [Hi0 ->]. split; [lia|done]. }
  split; [split|..|by rewrite Es].
  - intros i x [Hx|[_ ->]]%Hl; [by apply (H1 i)|done].
  - intros i j x y [Hx|[-> ->]]%Hl [Hy|[-> ->]]%Hl Hij; [by apply (H2 i j)|by apply (Hd i)| |done].
    symmetry. by apply (Hd j).
  - intros t c. by rewrite Eh, Eb.
  - intros t c. rewrite Eb. intros Hc. destruct (Hm t c Hc) as (i & x & Hx & Hin). exists i, x. split; [|done].
    rewrite Ec. by apply lookup_app_l_Some.
  - by rewrite Eh.
  - intros t c. rewrite Eh, Es. apply Hs.
Qed.

Lemma cluster_init_inv e m s :
  ctl_inv s → (∀ c, c ∈ m → 0 ≤ c < nr_cpu_ids he) →
  (∀ i cl, clusters s !! i = Some cl → cpu_mask cl ## m) →
  ctl_inv (cluster_init he e m s).2 ∧
  (∀ i cl, clusters (cluster_init he e m s).2 !! i = Some cl → cpu_mask cl = m ∨ clusters s !! i = Some cl).
Proof.
  intros Hi Hr Hd. unfold cluster_init. set (first := default _ _).
  destruct (find_cluster_by_first_cpu _ _); [split; [done|naive_solver]|].
  destruct (cpu_device e first); [|split; [done|naive_solver]].
  destruct (_ =? _); [split; [done|naive_solver]|].
  assert (∀ cl s', cluster_ok he cl → cpu_mask cl = m → clusters s' = clusters s ++ [cl] → halts s' = halts s →
    (∀ t, by_us t s' = by_us t s) → sbt s' = sbt s →
    ctl_inv s' ∧ (∀ i x, clusters s' !! i = Some x → cpu_mask x = m ∨ clusters s !! i = Some x)) as Hgo.
  { intros cl s' Hcl Hm Ec Eh Eb Es. split; [apply (append_cluster_inv cl s); [done|done|by rewrite Hm|done..]|].
    intros i x. rewrite Ec. intros [Hx|[_ Hx]]%lookup_app_Some; [by right|].
    apply list_lookup_singleton_Some in Hx as [_ <-]. by left. }
  pose proof (weight_nonneg m).
  destruct (Z.ltb_spec MAX_CPUS_PER_CLUSTER (weight m)); cbn [snd].
  - match goal with |- context [clusters s ++ [?cl]] => apply (Hgo cl) end; try done.
  - match goal with |- context [clusters s ++ [?cl]] => apply (Hgo cl) end; try done.
    split; cbn; try done; lia.
Qed.

Lemma ctl_boot_inv : ctl_inv core_ctl_boot.
Proof.
  split; cbn; try done.
  - intros t c. unfold vote. destruct t; cbn; set_solver.
  - intros t c. destruct t; cbn; set_solver.
  - intros t c. unfold vote. by destruct t.
Qed.

Lemma core_ctl_init_inv e thread : topology_ok e → ctl_inv (core_ctl_init he e thread core_ctl_boot).2.
Proof.
  intros [Hr Hd]. unfold core_ctl_init. destruct (negb _); [apply ctl_boot_inv|]. cbn [snd].
  assert (∀ l pre s, pre ++ l = sched_clusters e → ctl_inv s →
    (∀ i cl, clusters s !! i = Some cl → cpu_mask cl ∈ pre) →
    ctl_inv (foldl (λ s m, (cluster_init he e m s).2) s l)) as Hgen.
  { intros l. induction l as [|m l IH]; intros pre s Hpre Hi Hin; cbn [foldl]; [done|].
    destruct (cluster_init_inv e m s Hi) as [Hi' Hin'].
    - intros c. apply Hr. rewrite <-Hpre. set_solver.
    - intros i cl Hcl. apply Hin, list_elem_of_lookup in Hcl as [k Hk].
      pose proof (lookup_lt_Some _ _ _ Hk).
      apply (Hd k (length pre)); [rewrite <-Hpre; by apply lookup_app_l_Some| |lia].
      rewrite <-Hpre. by apply list_lookup_middle.
    - apply (IH (pre ++ [m])); [by rewrite <-app_assoc|done|]. intros i cl Hcl.
      destruct (Hin' i cl Hcl) as [->|H]; [set_solver|]. apply Hin in H. set_solver. }
  set (s := foldl _ _ _). assert (ctl_inv s) as Hs by (apply (Hgen _ []); [done|apply ctl_boot_inv|done]).
  clearbody s. apply (quiet_inv s); [|done]. by apply quiet_other; [..|intros []|].
Qed.
End inv.

(** ** Runs *)
Inductive ctl_op :=
  | OpStore (a : core_ctl_attr) (i : nat) (b : sysfs_buf) (count : Z)
  | OpBoost (b : bool)
  | OpClusterBoost (idx : Z) (b : bool)
  | OpCheck (window_start wakeup_ctr_sum : Z)
  | OpThread (kthread_should_stop : bool)
  | OpSbtCpus (write : bool) (proc : Z * Z)
  | OpRequest (r : request).

Section run.
Context (he : halt_env).

Definition step (s : core_ctl) (eo : ctl_env * ctl_op) : core_ctl :=
  let '(e, o) := eo in
  match o with
  | OpStore a i b count => (store e a i b count s).2
  | OpBoost b => (core_ctl_set_boost he e b s).2
  | OpClusterBoost idx b => (core_ctl_set_cluster_boost e idx b s).2
  | OpCheck w ctr => core_ctl_check he e w ctr s
  | OpThread stop => default s (try_core_ctl_round he e stop s)
  | OpSbtCpus write proc => (walt_proc_sbt_pause_handler e write proc s).2
  | OpRequest r => set_paused (cpus_paused_by_us s) (cpus_part_paused_by_us s)
                     (serve (halt_env_now he s) (halts s) r).2 s
  end.

(** Written values are unsigned; the other clients have votes of their own. *)
Definition op_ok (eo : ctl_env * ctl_op) : Prop :=
  match eo.2 with
  | OpStore _ _ b _ => buf_ok b
  | OpRequest r => Z.testbit (rq_client r) CORE_CTL_BIT = false ∧ Z.testbit (rq_client r) SBT_BIT = false
  | _ => True
  end.

(** Initialised in [e0], then the operations. *)
Definition run (e0 : ctl_env) (ops : list (ctl_env * ctl_op)) : core_ctl :=
  foldl step (core_ctl_init he e0 0 core_ctl_boot).2 ops.

Lemma ctl_step_inv s eo : h_walt_disabled he = false → op_ok eo → ctl_inv he s → ctl_inv he (step s eo).
Proof.
  intros Hd Hok Hi. destruct eo as [e o]. destruct o; cbn [step].
  - apply (quiet_inv he s); [by apply store_quiet|done].
  - apply (quiet_inv he s); [apply core_ctl_set_boost_quiet|done].
  - apply (quiet_inv he s); [apply core_ctl_set_cluster_boost_quiet|done].
  - by apply core_ctl_check_inv.
  - destruct (try_core_ctl_round _ _ _ _) eqn:E; [by eapply try_core_ctl_round_inv|done].
  - by apply sbt_pause_handler_inv.
  - destruct Hok as [Hc Hs]. pose proof (serve_answered (halt_env_now he s) (halts s) r) as Ha.
    apply (other_request he r s (serve (halt_env_now he s) (halts s) r)); [done..|by intros []| |apply (ci_once _ _ Hi)].
    intros t c. rewrite (answered_vote he _ _ _ _ t c Ha) by (unfold SBT_BIT; lia). rewrite Hs, andb_false_r.
    apply (ci_sbt _ _ Hi).
Qed.

Lemma run_inv e0 ops :
  h_walt_disabled he = false → topology_ok he e0 → Forall op_ok ops → ctl_inv he (run e0 ops).
Proof.
  intros Hd Ht. unfold run. pose proof (core_ctl_init_inv he e0 0 Ht) as Hi. revert Hi.
  generalize (core_ctl_init he e0 0 core_ctl_boot).2 as s. induction ops as [|o ops IH]; intros s Hi Hok; [done|].
  apply list.Forall_cons in Hok as [Ho Hok]. apply IH; [by apply ctl_step_inv|done].
Qed.
End run.

(** ** What holds after any run *)

(** C8: core control's book-keeping is exact.  After the initialisation on any topology
    of disjoint clusters and any sequence of sysfs writes, boosts, window checks,
    thread rounds, writes of the single-big-thread mask and halt requests of the
    other clients, in any environment, and whether or not the halts succeed: the
    CPUs core control believes it paused (partially paused) are exactly those with
    its vote, all of them are halted (partially halted), each cluster's list is a
    permutation of its CPUs, and single-big-thread votes stand only in that mode and
    on its CPUs. *)
Theorem core_ctl_books_match he e0 ops :
  h_walt_disabled he = false → topology_ok he e0 → Forall op_ok ops →
  let s := run he e0 ops in
  (∀ t c, Z.testbit (client_vote_mask (halts s) t c) CORE_CTL_BIT = true ↔ c ∈ by_us t s) ∧
  (∀ t c, c ∈ by_us t s → c ∈ mask_of t (halts s)) ∧
  (∀ i cl, clusters s !! i = Some cl → inited cl = true → lru cl ≡ₚ cpus_of he (cpu_mask cl)) ∧
  (∀ t c, Z.testbit (client_vote_mask (halts s) t c) SBT_BIT = true →
     t = HALT ∧ prev_is_sbt (sbt s) = true ∧ c ∈ cpus_for_sbt_pause (sbt s)).
Proof.
  intros Hd Ht Hops s. pose proof (run_inv he e0 ops Hd Ht Hops) as Hi. fold s in Hi. clearbody s.
  split; [apply (ci_votes _ _ Hi)|]. split; [|split].
  - intros t c Hc. apply (ci_halted _ _ Hi).
    + by apply (managed_range he s), (ci_managed _ _ Hi t); [apply (ci_clusters _ _ Hi)|].
    + intros Hz. apply (ci_votes _ _ Hi) in Hc. unfold vote in Hc. by rewrite Hz in Hc.
  - intros i cl Hcl Hin. pose proof (co_lru _ _ (cs_each _ _ (ci_clusters _ _ Hi) i cl Hcl)) as H. by rewrite Hin in H.
  - intros t c Hc. destruct (ci_sbt _ _ Hi t c Hc) as (? & _ & ? & ?). done.
Qed.

(** C7: core control never takes away a needed CPU: in any reachable state, whatever the
    load, the boosts, the preferences and the other clients' halts, and even when
    halting fails half-way, [do_core_ctl] leaves every cluster with at least the
    CPUs it needs under its limits, or with as many as were active before if those
    were fewer. *)
Theorem needed_cpus_stay he e0 ops e i cl :
  h_walt_disabled he = false → topology_ok he e0 → Forall op_ok ops →
  clusters (run he e0 ops) !! i = Some cl →
  Z.min (get_active_cpu_count (run he e0 ops) cl) (apply_limits e cl (need_cpus cl)) ≤
  get_active_cpu_count (do_core_ctl he e (run he e0 ops)) cl.
Proof.
  intros Hd Ht Hops Hcl. apply (do_core_ctl_keeps_needed he e _ i); [|done].
  by apply ci_clusters, run_inv.
Qed.

(** ** A run: three clusters, the second enabled and idle *)
Definition ex_he : halt_env := mk_halt_env 8 8 (λ c, c / 4) ∅ 1000 false.
Definition ex_env (ms : Z) : ctl_env :=
  mk_ctl_env (λ _, mk_avg_stats 0 0 0 0 0) (λ _, false) (λ _, 0) (λ _, true) false false 0 ms 0 true 1
    (λ _, false) false [{[0; 1; 2; 3]}; {[4; 5; 6]}; {[7]}] 32 false (λ _, Some false) (λ _, 0).
Definition one (v : Z) : sysfs_buf := mk_buf (Some v) [] (inl (- EINVAL)).
Definition ex_ops : list (ctl_env * ctl_op) :=
  [(ex_env 500, OpStore attr_enable 1 (one 1) 1);
   (ex_env 600, OpRequest (mk_request true HALT {[6]} PAUSE_THERMAL));
   (ex_env 700, OpThread false)].

Lemma ctl_ex_topology : topology_ok ex_he (ex_env 0).
Proof.
  split.
  - intros m c Hm Hc. change (nr_cpu_ids ex_he) with 8. cbn [sched_clusters ex_env] in Hm. set_unfold in Hm.
    destruct Hm as [->|[->|[->|[]]]]; set_unfold in Hc; lia.
  - intros i j m m' Hi Hj Hij. cbn [sched_clusters ex_env] in *.
    destruct i as [|[|[|i]]], j as [|[|[|j]]]; try done; injection Hi as <-; injection Hj as <-; set_solver by lia.
Qed.
Lemma ctl_ex_ops_ok : Forall op_ok ex_ops.
Proof.
  repeat apply Forall_cons_2; [..|apply Forall_nil_2]; cbn; [|done..]. intros v. cbn. intros [= <-]. lia.
Qed.

Lemma core_ctl_books_match_witness :
  let s := run ex_he (ex_env 0) ex_ops in
  4 ∈ cpu_halt_mask (halts s) ∧ Z.testbit (client_vote_mask (halts s) HALT 4) CORE_CTL_BIT = true.
Proof.
  pose proof (core_ctl_books_match ex_he (ex_env 0) ex_ops eq_refl ctl_ex_topology ctl_ex_ops_ok) as K.
  assert (4 ∈ by_us HALT (run ex_he (ex_env 0) ex_ops)) as H by (apply (bool_decide_unpack _); vm_compute; exact I).
  revert K H. cbv zeta. generalize (run ex_he (ex_env 0) ex_ops) as s. intros s (Hv & Hh & _) H.
  split; [exact (Hh HALT 4 H)|exact (proj2 (Hv HALT 4) H)].
Defined.

Lemma needed_cpus_stay_witness :
  match clusters (run ex_he (ex_env 0) ex_ops) !! 1%nat with
  | Some cl => 1 ≤ get_active_cpu_count (do_core_ctl ex_he (ex_env 900) (run ex_he (ex_env 0) ex_ops)) cl
  | None => False
  end.
Proof.
  assert ((λ cl, Z.min (get_active_cpu_count (run ex_he (ex_env 0) ex_ops) cl)
                   (apply_limits (ex_env 900) cl (need_cpus cl))) <$> clusters (run ex_he (ex_env 0) ex_ops) !! 1%nat
          = Some 1) as H by (vm_compute; reflexivity).
  destruct (clusters (run ex_he (ex_env 0) ex_ops) !! 1%nat) as [cl|] eqn:E; [|discriminate H].
  cbn [fmap option_fmap option_map] in H. injection H as H. rewrite <-H at 1.
  exact (needed_cpus_stay ex_he (ex_env 0) ex_ops (ex_env 900) 1 cl eq_refl ctl_ex_topology ctl_ex_ops_ok E).
Defined.
