(* ===== verification/CoreCtlCases.v ===== *)
(** * Core control: cases

    Witnesses of CoreCtlExact's theorems and concrete runs of the code's corner
    cases. *)

From S2P Require Import Prelude.
From S2P Require Import WaltHalt.
From S2P Require Import CoreCtl.
From S2P Require Import CoreCtlAct.
From S2P Require Import CoreCtlPick.
From S2P Require Import CoreCtlExact.
From S2P Require Import CoreCtlVotes.
From S2P Require Import CoreCtlSystem.

(** One cluster of four CPUs. *)
Definition np_cpu (b : bool) : cpu_data := mk_cpu false 0 b false (Some 0%nat).
Definition np_cluster (np mx active need : Z) : cluster_data :=
  mk_cluster true 4 {[0; 1; 2; 3]} 0 [0; 1; 2; 3]
    (mk_params 1 0 mx 100 (λ _, 0) (λ _, 0) UINT_MAX true np ∅ ∅ 0 ∅ ∅ 0) (mk_load 0 0 0 0 0 0) active need 0 0.
Definition np_state (halted part : cpumask) (pref : Z → bool) (cl : cluster_data) : core_ctl :=
  mk_ctl [cl] (λ c, np_cpu (negb (pref c))) halted part ∅
    (mk_halt halted part (λ t c, if decide (t = HALT) then (if decide (c ∈ halted) then 1 else 0)
                                else (if decide (c ∈ part) then 1 else 0)) ∅ (λ _, 0) [])
    false true true 0 0 (mk_sbt ∅ false false 0 0 false) [].
Definition four : halt_env := mk_halt_env 4 4 (λ c, 0) ∅ 1000 false.

Lemma np_cluster_ok np mx active need : 0 ≤ mx → 0 ≤ need → cluster_ok four (np_cluster np mx active need).
Proof.
  intros Hm Hn. split; [vm_compute; reflexivity| |vm_compute; reflexivity|vm_compute; discriminate|cbn; lia|done|done].
  intros c Hc. cbn in Hc. change (nr_cpu_ids four) with 4. set_unfold in Hc. lia.
Qed.

(** Four idle CPUs, one needed, three may stay: three are paused. *)
Lemma try_to_pause_exact_witness :
  let s := np_state ∅ ∅ (λ _, true) (np_cluster 0 3 4 1) in
  ∃ sel, mentioned (try_to_pause (ex_env 0) 0 (np_cluster 0 3 4 1) 1 (mk_pick ∅ ∅) s).2 = mentioned (mk_pick ∅ ∅) ∪ sel ∧
    weight sel = 3.
Proof.
  intros s. destruct (try_to_pause_exact four (ex_env 0) s 0 (np_cluster 0 3 4 1) 1 (mk_pick ∅ ∅)) as (sel & H1 & H2);
    [apply np_cluster_ok; discriminate|reflexivity|vm_compute; reflexivity|reflexivity|
     split; vm_compute; discriminate|vm_compute; discriminate|].
  exists sel. split; [exact H1|]. rewrite H2. vm_compute. reflexivity.
Defined.

Lemma try_to_resume_exact_witness :
  let s := np_state {[0; 1; 2; 3]} ∅ (λ c, c =? 0) (np_cluster 3 4 0 2) in
  ∃ sel, to_pause (try_to_resume (ex_env 0) 0 (np_cluster 3 4 0 2) 2 (mk_pick ∅ ∅) s).2 = ∅ ∪ sel ∧ weight sel = 3.
Proof.
  intros s. destruct (try_to_resume_exact four (ex_env 0) s 0 (np_cluster 3 4 0 2) 2 (mk_pick ∅ ∅)) as (sel & H1 & H2);
    [apply np_cluster_ok; discriminate|reflexivity|split; vm_compute; discriminate|vm_compute; reflexivity|].
  exists sel. split; [exact H1|]. rewrite H2. vm_compute. reflexivity.
Defined.

(** Two CPUs are needed, three are resumed: the second pass starts from zero. *)
Example resume_overshoots :
  let s := np_state {[0; 1; 2; 3]} ∅ (λ c, c =? 0) (np_cluster 3 4 0 2) in
  let s' := do_core_ctl four (ex_env 0) s in
  get_active_cpu_count s (np_cluster 3 4 0 2) = 0 ∧ apply_limits (ex_env 0) (np_cluster 3 4 0 2) 2 = 2 ∧
  get_active_cpu_count s' (np_cluster 3 4 0 2) = 3.
Proof. vm_compute. split_and!; reflexivity. Qed.

(** A partially paused CPU is picked to be resumed, but the first pass finds enough
    CPUs and returns before the partially paused ones are noted: it stays paused,
    however often core control runs. *)
Example partial_never_resumed :
  let s := np_state ∅ {[0]} (λ _, true) (np_cluster 0 4 3 4) in
  let s1 := do_core_ctl four (ex_env 0) s in
  let s2 := do_core_ctl four (ex_env 0) s1 in
  get_active_cpu_count s (np_cluster 0 4 3 4) = 3 ∧ apply_limits (ex_env 0) (np_cluster 0 4 3 4) 4 = 4 ∧
  elements (cpu_partial_halt_mask (halts s1)) = [0] ∧ elements (cpu_partial_halt_mask (halts s2)) = [0].
Proof. vm_compute. split_and!; reflexivity. Qed.

(** At most two CPUs may be active, three stay: the forced walk counts the
    not-preferred CPU the first walk picked a second time. *)
Example forced_pause_counts_twice :
  let s := np_state ∅ ∅ (λ c, negb (c =? 0)) (np_cluster 1 2 4 2) in
  let s' := do_core_ctl four (ex_env 0) s in
  apply_limits (ex_env 0) (np_cluster 1 2 4 2) 2 = 2 ∧ elements (cpus_paused_by_us s') = [0] ∧
  get_active_cpu_count s' (np_cluster 1 2 4 2) = 3.
Proof. vm_compute. split_and!; reflexivity. Qed.

(** A boost of all clusters while the last one is already boosted: the others are not
    re-evaluated; without the earlier boost they are. *)
Definition idle_first : list (ctl_env * ctl_op) :=
  [(ex_env 500, OpStore attr_enable 0 (one 1) 1); (ex_env 600, OpThread false)].
Example boost_follows_last_cluster :
  let s := run ex_he (ex_env 0) (idle_first ++ [(ex_env 700, OpClusterBoost 2 true); (ex_env 800, OpBoost true)]) in
  let s' := run ex_he (ex_env 0) (idle_first ++ [(ex_env 800, OpBoost true)]) in
  map boost (clusters s) = [1; 1; 2] ∧ map need_cpus (clusters s) = [1; 3; 1] ∧
  map boost (clusters s') = [1; 1; 1] ∧ map need_cpus (clusters s') = [4; 3; 1].
Proof. vm_compute. split_and!; reflexivity. Qed.

(** After CPUs were paused a boost raises the need to all four, but the thread is not
    woken: [active_cpus] still has the count from before the pause. *)
Example boost_sees_stale_count :
  let s := run ex_he (ex_env 0) (idle_first ++ [(ex_env 800, OpBoost true)]) in
  elements (cpus_paused_by_us s) = [2; 1; 0] ∧ map need_cpus (clusters s) = [4; 3; 1] ∧
  map active_cpus (clusters s) = [4; 3; 1] ∧ core_ctl_pending s = false.
Proof. vm_compute. split_and!; reflexivity. Qed.

(** Two clusters that may each pause one CPU partially: the CPU the first paused is
    counted against the second, whose CPU is paused fully. *)
Example partial_count_is_global :
  let s := run ex_he (ex_env 0)
    [(ex_env 100, OpStore attr_min_partial_cpus 0 (one 1) 1); (ex_env 100, OpStore attr_min_partial_cpus 1 (one 1) 1);
     (ex_env 500, OpStore attr_enable 0 (one 1) 1); (ex_env 600, OpThread false);
     (ex_env 700, OpStore attr_enable 1 (one 1) 1); (ex_env 800, OpThread false)] in
  elements (cpus_part_paused_by_us s) = [0] ∧ map min_partial_cpus (map params (clusters s)) = [1; 1; 0].
Proof. vm_compute. split_and!; reflexivity. Qed.
