(* ===== verification/RpmhActive.v ===== *)
(** * Active votes beside the sleep and wake sets

    An active batch goes to a TCS of its own ([active_apart]).  It leaves the sleep and
    wake TCSes and the client's cache alone, so the controller stays coherent as long as
    what happens during its waits ([meanwhile]) keeps it so. *)

From S2P Require Import Prelude Kernel CmdDb RpmhRsc RpmhTcs Rpmh RpmhCache RpmhFlush RpmhSend.

Section active.
Context (P : Z) `{D : Device} {SD : StorageDevice D} {B : BitmapSearch} {HB : BitmapSearchSpec B} (N C : Z).
Abbreviation coherent := (coherent P N C).
Abbreviation table := (table N C).

(** Where a group of TCSes lies. *)
Definition shape (d : rsc_drv) (i : Z) (type : nat) : Z * Z * Z :=
  (tg_offset (tcs_of d i type), tg_num_tcs (tcs_of d i type), tg_ncpt (tcs_of d i type)).

Definition active_of (d : rsc_drv) (i : Z) : tcs_group := tcs_of d i (get_tcs_for_msg d RPMH_ACTIVE_ONLY_STATE i).

(** The channels that [rpmh_rsc_get_channel] may answer. *)
Definition live (d : rsc_drv) (i : Z) : Prop := i = CH0 ∨ i = CH1 ∧ num_channels d ≠ 1.

(** The active requests of every live channel go to TCSes that are neither sleep nor
    wake TCSes of channel [c], and take a whole payload. *)
Record active_apart (c : Z) (d : rsc_drv) : Prop := {
  aa_irq : irq_apart N C d;
  aa_group i : live d i → group_at N C (active_of d i) ∧ P ≤ tg_ncpt (active_of d i);
  aa_apart i m type : live d i → (type < 2)%nat → in_group (active_of d i) m → ¬ in_group (tcs_of d c type) m;
}.

(** What may happen while an active write waits. *)
Definition meanwhile (c : Z) (e : rsc → rsc) : Prop := ∀ s, coherent s c → active_apart c (drv s) →
  coherent (e s) c ∧ active_apart c (drv (e s)) ∧ num_channels (drv (e s)) = num_channels (drv s) ∧
  ∀ i type, shape (drv (e s)) i type = shape (drv s) i type.

(** A part of the active write: only registers of TCSes apart from the sleep and wake sets change. *)
Record apart_step (c : Z) (s s' : rsc) : Prop := {
  as_coherent : coherent s' c;
  as_apart : active_apart c (drv s');
  as_channels : num_channels (drv s') = num_channels (drv s);
  as_shape i type : shape (drv s') i type = shape (drv s) i type;
}.

Lemma apart_refl c s : coherent s c → active_apart c (drv s) → apart_step c s s.
Proof. by split. Qed.
Lemma apart_trans c s1 s2 s3 : apart_step c s1 s2 → apart_step c s2 s3 → apart_step c s1 s3.
Proof. intros [_ _ H1 H2] [H3 H4 H5 H6]. split; [done..|congruence|]. intros i type. by rewrite H6, H2. Qed.

(** ** The sleep and wake TCSes of [c] keep their registers. *)
Definition sets_kept (c : Z) (s s' : rsc) : Prop := ∀ F, table s F → ∃ F', table s' F' ∧
  ∀ x type, (type < 2)%nat → in_group (tcs_of (drv s) c type) (cfg_tcs x) → F' x = F x.

Lemma holds_kept c s s' Q :
  sets_kept c s s' → layout_ok N C (drv s') → channel_wf (drv s') c →
  (∀ type, (type < 2)%nat → tcs_of (drv s') c type = tcs_of (drv s) c type) →
  tcs_holds N C s c Q → tcs_holds N C s' c Q.
Proof.
  intros Hk HL Hwf Hg [_ _ H3 H4 (F & HT & HF)]. split; [done|done| | |].
  - intros type Ht. rewrite Hg by done. by apply H3.
  - intros m. rewrite !Hg by (unfold SLEEP_TCS, WAKE_TCS; lia). apply H4.
  - destruct (Hk F HT) as (F' & HT' & Hsame). exists F'. split; [done|]. intros type Ht. rewrite Hg by done.
    destruct (group_frame F F' (tcs_of (drv s) c type)) as [Hs Hp]; [intros x Hx; by apply (Hsame x type)|].
    destruct (HF type Ht) as [H5 H6]. split; [by apply Hs|]. intros a v. by rewrite Hp.
Qed.

Lemma coherent_kept c s s' :
  sets_kept c s s' → layout_ok N C (drv s') → channel_wf (drv s') c →
  (∀ type, (type < 2)%nat → tcs_of (drv s') c type = tcs_of (drv s) c type) →
  client (drv s') = client (drv s) → drv_tcs (drv s') = drv_tcs (drv s) → coherent s c → coherent s' c.
Proof.
  intros Hk HL Hwf Hg Hc Ht [[Q HQ] H2 H3 H4]. split.
  - exists Q. by apply (holds_kept c s).
  - by rewrite Hc.
  - unfold no_control. by rewrite Ht.
  - rewrite Hc. intros Hd. apply (holds_kept c s); auto.
Qed.

Lemma coherent_layout c s : coherent s c → layout_ok N C (drv s) ∧ channel_wf (drv s) c.
Proof. intros [[Q [H1 H2 _ _ _]] _ _ _]. done. Qed.

(** Reading registers. *)
Lemma reads_step c s s' : coherent s c → active_apart c (drv s) → (∀ F, table s F → reads N C s F s') → apart_step c s s'.
Proof.
  intros HC HA Hr. destruct (coherent_layout c s HC) as [HL Hwf].
  destruct (Hr (λ x, peek (hw s) (cfg_addr (drv s) x)) ltac:(done)) as [[Hd _] _].
  split; rewrite ?Hd; try done. apply (coherent_kept c s); rewrite ?Hd; try done.
  intros F HT. exists F. split; [by apply Hr|done].
Qed.

(** ** Requests are recorded in their group *)
Lemma tcs_of_set_req d i j type type' n r :
  tcs_of (upd_tcs i type (set_req n r) d) j type' = tcs_of d j type' ∨
  Z.to_nat i = Z.to_nat j ∧ type = type' ∧ tcs_of (upd_tcs i type (set_req n r) d) j type' = set_req n r (tcs_of d j type').
Proof.
  unfold tcs_of, channel_of, upd_tcs. cbn [ch set_chs]. rewrite !list_lookup_total_alt, !list_lookup_alter.
  destruct (decide (Z.to_nat i = Z.to_nat j)) as [Hij|]; [rewrite Hij|by left].
  destruct (ch d !! Z.to_nat j) as [k|]; cbn [fmap option_fmap option_map default from_option id chn_tcs]; [|by left].
  rewrite !list_lookup_alter. destruct (decide (type = type')) as [Ht|]; [rewrite Ht|by left].
  destruct (chn_tcs k !! type') as [g|]; cbn [fmap option_fmap option_map default from_option id]; [by right|by left].
Qed.

Lemma shape_set_req d i j type type' n r : shape (upd_tcs i type (set_req n r) d) j type' = shape d j type'.
Proof. unfold shape. destruct (tcs_of_set_req d i j type type' n r) as [->|(_ & _ & ->)]; done. Qed.

Lemma active_of_shape d d' i : (∀ type, shape d' i type = shape d i type) →
  get_tcs_for_msg d' RPMH_ACTIVE_ONLY_STATE i = get_tcs_for_msg d RPMH_ACTIVE_ONLY_STATE i ∧
  tg_offset (active_of d' i) = tg_offset (active_of d i) ∧ tg_num_tcs (active_of d' i) = tg_num_tcs (active_of d i) ∧
  tg_ncpt (active_of d' i) = tg_ncpt (active_of d i).
Proof.
  intros Hs. assert (get_tcs_for_msg d' RPMH_ACTIVE_ONLY_STATE i = get_tcs_for_msg d RPMH_ACTIVE_ONLY_STATE i) as E.
  { unfold get_tcs_for_msg. specialize (Hs ACTIVE_TCS). unfold shape in Hs. injection Hs as _ -> _. done. }
  unfold active_of. rewrite E. specialize (Hs (get_tcs_for_msg d RPMH_ACTIVE_ONLY_STATE i)). unfold shape in Hs. by injection Hs.
Qed.

Lemma apart_shape c d d' : irq_apart N C d' → num_channels d' = num_channels d →
  (∀ i type, shape d' i type = shape d i type) → active_apart c d → active_apart c d'.
Proof.
  intros Hirq Hn Hs [_ H2 H3]. split; [done| |].
  - intros i Hi. unfold live in Hi. rewrite Hn in Hi. destruct (H2 i Hi) as [[[] ? ? ? ?] ?].
    destruct (active_of_shape d d' i (Hs i)) as (_ & E1 & E2 & E3). rewrite E3.
    split; [|done]. split; [split|..]; rewrite ?E1, ?E2, ?E3; done.
  - intros i m type Hi Ht. unfold live in Hi. rewrite Hn in Hi. specialize (H3 i m type Hi Ht). unfold in_group in *.
    destruct (active_of_shape d d' i (Hs i)) as (_ & -> & -> & _). specialize (Hs c type). unfold shape in Hs.
    by injection Hs as -> -> _.
Qed.

(** ** The parts of an active write *)
Abbreviation kept_apart c s0 := (preserves (apart_step c s0)).

Lemma apart_then c s0 s s' : apart_step c s0 s → (coherent s c → active_apart c (drv s) → apart_step c s s') → apart_step c s0 s'.
Proof. intros H Hs. apply (apart_trans c s0 s); [done|]. destruct H. by apply Hs. Qed.

Lemma readl_apart c s0 a : kept_apart c s0 (readl_relaxed a).
Proof.
  intros s Hs. apply (apart_then c s0 s); [done|]. intros HC HA. apply reads_step; [done..|]. intros F HT.
  destruct (coherent_layout c s HC) as [HL _]. edestruct (readl_reads N C s F s a HL) as (v & s' & -> & HR); [by split|done].
Qed.
#[local] Hint Resolve readl_apart : kpres.

Lemma read_tcs_reg_apart c s0 r m : kept_apart c s0 (read_tcs_reg r m).
Proof. unfold read_tcs_reg. kpreserve. Qed.
Lemma read_tcs_cmd_apart c s0 r m j : kept_apart c s0 (read_tcs_cmd r m j).
Proof. unfold read_tcs_cmd. kpreserve. Qed.
#[local] Hint Resolve read_tcs_reg_apart read_tcs_cmd_apart : kpres.

Lemma get_channel_apart c s0 spin : kept_apart c s0 (rpmh_rsc_get_channel spin).
Proof. unfold rpmh_rsc_get_channel. kpreserve. Qed.
Lemma claim_apart c s0 g m : kept_apart c s0 (claim_tcs_for_req g m).
Proof. unfold claim_tcs_for_req, check_for_req_inflight, find_free_tcs. kpreserve. Qed.

Lemma get_channel_live spin s i s' : rpmh_rsc_get_channel spin s = (Done i, s') → i = - EBUSY ∨ live (drv s) i.
Proof.
  unfold rpmh_rsc_get_channel, kgets. unfold kbind at 1. destruct (Z.eqb_spec (num_channels (drv s)) 1) as [E|E].
  { intros [= <- _]. by right; left. }
  intros H. apply kbind_inv in H as ([b|] & s1 & _ & H); [|done]. injection H as <- _.
  destruct (negb _); [by right; right|]. destruct (negb _); [by right; left|by left].
Qed.

(** *** Waiting *)
Lemma meanwhile_apart c s0 e s : meanwhile c e → apart_step c s0 s → apart_step c s0 (e s).
Proof.
  intros He Hs. apply (apart_then c s0 s); [done|]. intros HC HA. destruct (He s HC HA) as (H1 & H2 & H3 & H4). by split.
Qed.

Lemma wait_event_post {R} (I : rsc → Prop) (Q : R → Prop) env cond s r s' :
  Forall (λ e, ∀ s, I s → I (e s)) env → preserves I cond →
  (∀ s x s', I s → cond s = (Done (Some x), s') → Q x) →
  I s → wait_event env cond s = (Done r, s') → Q r.
Proof.
  intros He Hc HQ. revert s. induction He as [|e env He _ IH]; intros s Hs H; cbn [wait_event] in H;
    apply kbind_inv in H as ([x|] & s1 & H1 & H); try done; try (injection H as <- _; by eapply HQ).
  pose proof (Hc s Hs) as Hs1. rewrite H1 in Hs1. apply kbind_inv in H as ([] & s2 & [= <-] & H). by eapply IH; [apply He|].
Qed.

Lemma wait_for_completion_apart c s0 env compl :
  Forall (meanwhile c) env → kept_apart c s0 (wait_for_completion_timeout env compl).
Proof.
  induction 1 as [|e env He _ IH]; cbn [wait_for_completion_timeout]; kpreserve.
  apply preserves_modify. intros s. by apply meanwhile_apart.
Qed.

(** *** Claiming and programming a TCS *)
Lemma in_group_shape d d' i type m : shape d' i type = shape d i type → in_group (tcs_of d' i type) m → in_group (tcs_of d i type) m.
Proof. unfold shape, in_group. by intros [= -> -> _]. Qed.

Lemma claim_in_group c s0 s i r id s' (type := get_tcs_for_msg (drv s0) RPMH_ACTIVE_ONLY_STATE i) :
  apart_step c s0 s → live (drv s0) i →
  claim_tcs_for_req (tcs_of (drv s) i type) (msg r) s = (Done id, s') → 0 ≤ id → in_group (active_of (drv s0) i) id.
Proof.
  intros [HC HA Hn Hs] Hi H Hid. destruct (coherent_layout c s HC) as [HL _].
  assert (tcs_of (drv s) i type = active_of (drv s) i) as E.
  { unfold active_of. by rewrite (proj1 (active_of_shape (drv s0) (drv s) i (Hs i))). }
  assert (live (drv s) i) as Hi' by (unfold live; by rewrite Hn).
  destruct (claim_tcs_run N C s (λ x, peek (hw s) (cfg_addr (drv s) x)) (tcs_of (drv s) i type) (msg r) HL) as (id' & s1 & Hrun & _ & Hcase);
    [done|rewrite E; by apply (aa_group _ _ HA)|].
  rewrite H in Hrun. injection Hrun as <- <-. destruct Hcase as [->|[Hin _]]; [done|]. by eapply in_group_shape; [apply Hs|exact Hin].
Qed.

(** The request is recorded and its TCS marked in use. *)
Lemma record_apart c s0 s i id n r use (type := get_tcs_for_msg (drv s0) RPMH_ACTIVE_ONLY_STATE i) :
  apart_step c s0 s → live (drv s0) i → in_group (active_of (drv s0) i) id →
  apart_step c s0 (on_drv (λ d, set_tcs_in_use (use d) d) (on_drv (upd_tcs i type (set_req n r)) s)).
Proof.
  intros Hs0 Hi Hid. apply (apart_then c s0 s); [done|]. intros HC HA. destruct (coherent_layout c s HC) as [HL Hwf].
  destruct Hs0 as [_ _ Hn Hs]. assert (live (drv s) i) as Hi' by (unfold live; by rewrite Hn).
  destruct (active_of_shape (drv s0) (drv s) i (Hs i)) as (Et & E1 & E2 & _).
  assert (∀ j t, shape (upd_tcs i type (set_req n r) (drv s)) j t = shape (drv s) j t) as Hsh by (intros; apply shape_set_req).
  split; cbn [drv on_drv]; [|apply (apart_shape c (drv s)); [apply HA|done|done|done]|done|done].
  apply (coherent_kept c s); cbn [drv on_drv hw]; [|destruct HL as [Ha Hb]; split; [exact Ha|exact Hb]| | |done|done|done].
  - intros F HT. by exists F.
  - by apply channel_wf_upd.
  - intros t Ht. destruct (tcs_of_set_req (drv s) i c type t n r) as [H|(Hc & <- & _)]; [exact H|]. exfalso.
    apply (aa_apart _ _ HA i id type Hi' Ht); [unfold in_group; by rewrite E1, E2|].
    assert (tcs_of (drv s) c type = active_of (drv s) i) as ->; [|unfold in_group; by rewrite E1, E2].
    unfold active_of, tcs_of, channel_of. unfold type. by rewrite Et, Hc.
Qed.

Lemma program_apart c s0 s i id m b :
  apart_step c s0 s → live (drv s0) i → in_group (active_of (drv s0) i) id → num_cmds m ≤ P →
  ∃ s', (write_tcs_reg_sync RSC_DRV_CMD_ENABLE id 0 ;;;
         write_tcs_reg_sync RSC_DRV_CMD_WAIT_FOR_CMPL id 0 ;;;
         enable_tcs_irq id b ;;;
         __tcs_buffer_write id 0 m ;;;
         __tcs_set_trigger id true) s = (Done tt, s') ∧ apart_step c s0 s'.
Proof.
  intros Hs0 Hi Hid Hm. pose proof Hs0 as [HC HA Hn Hs]. destruct (coherent_layout c s HC) as [HL Hwf].
  destruct (active_of_shape (drv s0) (drv s) i (Hs i)) as (_ & E1 & E2 & _).
  assert (live (drv s) i) as Hi' by (unfold live; by rewrite Hn).
  assert (in_group (active_of (drv s) i) id) as Hid' by (unfold in_group; by rewrite E1, E2).
  destruct (aa_group _ _ HA i Hi') as [[_ Hoff Hend Hcap Hmax] HP]. unfold MAX_CMDS_PER_TCS in Hmax.
  pose proof Hid' as Hrange. unfold in_group in Hrange.
  assert (∀ F, table s F → _) as Hrun by (intros F HT; exact (program_tcs_run N C s F id m b HL (aa_irq _ _ HA) HT
    ltac:(lia) ltac:(lia) ltac:(lia))).
  destruct (Hrun (λ x, peek (hw s) (cfg_addr (drv s) x)) ltac:(done)) as (s' & _ & Hr & [Hd _] & _).
  exists s'. split; [exact Hr|]. apply (apart_then c s0 s); [done|]. intros _ _. split; rewrite ?Hd; try done.
  apply (coherent_kept c s); rewrite ?Hd; try done. intros F HT.
  destruct (Hrun F HT) as (s'' & F' & Hr' & _ & HT' & _ & Hother). rewrite Hr in Hr'. injection Hr' as <-.
  exists F'. split; [done|]. intros x type Ht Hx. apply Hother. intros E. rewrite E in Hx. by apply (aa_apart _ _ HA i id type Hi' Ht).
Qed.

Lemma send_data_apart c s0 env i r x s' :
  coherent s0 c → active_apart c (drv s0) → live (drv s0) i → Forall (meanwhile c) env →
  req_state (msg r) = RPMH_ACTIVE_ONLY_STATE → num_cmds (msg r) ≤ P →
  rpmh_rsc_send_data env r i s0 = (Done x, s') → apart_step c s0 s' ∧ (x = 0 ∨ x = - EBUSY).
Proof.
  intros HC HA Hi Henv Hst Hm. unfold rpmh_rsc_send_data. unfold kgets at 1. unfold kbind at 1. rewrite Hst.
  assert (apart_step c s0 s0) as H0 by (by apply apart_refl).
  destruct (drv_in_solver_mode (drv s0)); [intros [= <- <-]; auto|].
  set (type := get_tcs_for_msg _ _ _). intros H. apply kbind_inv in H as (id & s1 & Hw & H).
  assert (Forall (λ e, ∀ s, apart_step c s0 s → apart_step c s0 (e s)) env) as Henv'
    by (eapply list.Forall_impl; [exact Henv|]; intros e He s; by apply meanwhile_apart).
  match type of Hw with wait_event _ ?cond _ = _ => assert (kept_apart c s0 cond) as Hc by (kpreserve; apply claim_apart) end.
  assert (in_group (active_of (drv s0) i) id) as Hid.
  { eapply (wait_event_post (apart_step c s0)); [exact Henv'|exact Hc| |exact H0|exact Hw].
    intros s y s2 Hs Hy. apply kbind_inv in Hy as (d & s3 & [= <- <-] & Hy).
    apply kbind_inv in Hy as (z & s4 & Hcl & Hy). destruct (Z.leb_spec 0 z) as [Hz|]; [|done].
    injection Hy as <- _. by eapply claim_in_group. }
  pose proof (preserves_wait_event _ _ _ Henv' Hc s0 H0) as H1. rewrite Hw in H1.
  unfold mod_drv at 1 2, kmodify in H. unfold kbind at 1 2 in H.
  pose proof (record_apart c s0 s1 i id (Z.to_nat (id - tg_offset (tcs_of (drv s0) i type))) r
    (λ d, set_bit id (tcs_in_use d)) H1 Hi Hid) as H2.
  edestruct program_apart as (s3 & Hr3 & H3); [exact H2|exact Hi|exact Hid|exact Hm|].
  erewrite program_tcs_then in H by exact Hr3. destruct (wait_for_compl (msg r)); [injection H as <- <-; auto|].
  injection H as <- <-. split; [|by left]. apply (apart_then c s0 s3); [done|]. intros HC3 HA3. destruct (coherent_layout c s3 HC3) as [HL3 Hwf3].
  split; [|by destruct HA3|done..]. apply (coherent_kept c s3); [|destruct HL3 as [Ha Hb]; split; [exact Ha|exact Hb]|done..].
  intros F HT. by exists F.
Qed.

(** ** An active batch *)
Lemma fill_rpmh_msg_active req l n :
  1 ≤ n ≤ P → ∃ r, __fill_rpmh_msg P req RPMH_ACTIVE_ONLY_STATE (Some l) n = (0, r) ∧
    req_state (msg r) = RPMH_ACTIVE_ONLY_STATE ∧ num_cmds (msg r) ≤ P.
Proof.
  intros Hn. unfold __fill_rpmh_msg. assert ((n =? 0) || (P <? n) = false) as -> by (apply orb_false_iff; lia).
  eexists. split; [reflexivity|]. cbn. split; [done|lia].
Qed.

(** An active batch of at most a payload that returns is accepted or refused with -EBUSY,
    and leaves the controller coherent. *)
Lemma write_batch_active c irq spin env env_compl compl l n s x s' :
  coherent s c → active_apart c (drv s) → Forall (meanwhile c) env → Forall (meanwhile c) env_compl → 1 ≤ n !!! 0%nat ≤ P →
  rpmh_write_batch P false irq spin env env_compl compl RPMH_ACTIVE_ONLY_STATE (Some l) n s = (Done x, s') →
  apart_step c s s' ∧ (x = 0 ∨ x = - EBUSY).
Proof.
  intros HC HA He1 He2 Hn. assert (apart_step c s s) as H0 by (by apply apart_refl).
  unfold rpmh_write_batch, kgets. unfold kbind at 1.
  assert (check_ctrlr_state (client (drv s)) RPMH_ACTIVE_ONLY_STATE = 0 ∨
          check_ctrlr_state (client (drv s)) RPMH_ACTIVE_ONLY_STATE = - EBUSY) as [-> | ->].
  { unfold check_ctrlr_state. cbn. destruct (_ =? 0); [by left|]. destruct (ctrlr_in_solver_mode _); auto. }
  2:{ intros [= <- <-]. auto. }
  cbn [negb Z.eqb]. rewrite bool_decide_true by done.
  edestruct (fill_rpmh_msg_active) as (m & Em & Hst & Hnum); [exact Hn|]. rewrite Em. cbn [negb Z.eqb]. intros H.
  apply kbind_inv in H as (i & s1 & Hch & H). pose proof (get_channel_apart c s spin s H0) as H1. rewrite Hch in H1. cbn [snd] in H1.
  destruct (get_channel_live spin s i s1 Hch) as [->|Hlive]; [injection H as <- <-; auto|].
  destruct (Z.ltb_spec i 0) as [Hneg|Hi]; [destruct Hlive as [->|[-> _]]; done|].
  assert (live (drv s1) i) as Hl1 by (unfold live; by rewrite (as_channels _ _ _ H1)).
  apply kbind_inv in H as (ret & s2 & Hsend & H). pose proof H1 as [HC1 HA1 _ _].
  destruct (send_data_apart c s1 env i m ret s2 HC1 HA1 Hl1 He1 Hst Hnum Hsend) as [H2 Hret].
  pose proof (apart_trans _ _ _ _ H1 H2) as H3. destruct Hret as [-> | ->]; [|injection H as <- <-; auto]. cbn [negb Z.eqb] in H.
  apply kbind_inv in H as (fin & s3 & Hwait & H).
  pose proof (wait_for_completion_apart c s env_compl compl He2 s2 H3) as H4. rewrite Hwait in H4. cbn [snd] in H4.
  destruct fin; [injection H as <- <-; auto|]. by apply kbind_inv in H as (? & s4 & _ & H).
Qed.
End active.
