(* ===== verification/Bcm.v ===== *)
(** * Interconnect votes for the bus clock managers (drivers/interconnect/qcom)

    bcm-voter.c and icc-rpmh.c: clients' bandwidth requests are aggregated per
    interconnect node and bucket (awake, wake, sleep), per bus clock manager (BCM),
    turned into commands and written through the RPMh client layer (Rpmh).  The
    state is that of one voter: its nodes and BCMs by number, the BCMs waiting to be
    committed and those whose wake and sleep votes may differ.  The bucket numbers,
    the tags and the encoding of a vote are in headers outside the repository: they
    are the record [icc_cfg].  [list_sort] is the kernel's; [ListSort] states what
    the code relies on.  Arrays indexed by bucket are functions. *)

From Stdlib Require Import Sorting.Sorted.
From S2P Require Import Prelude.
From S2P Require Import Kernel.
From S2P Require Import RpmhRsc.
From S2P Require Import Rpmh.

Definition MAX_BCMS : Z := 64.
Definition MAX_VCD : Z := 10.
Definition MAX_BCM_PER_NODE : Z := 3.

(** dt-bindings/interconnect/qcom,icc.h and soc/qcom/tcs.h. *)
Record icc_cfg := mk_icc_cfg {
  QCOM_ICC_NUM_BUCKETS : Z;
  QCOM_ICC_BUCKET_AMC : Z;
  QCOM_ICC_BUCKET_WAKE : Z;
  QCOM_ICC_BUCKET_SLEEP : Z;
  QCOM_ICC_TAG_ALWAYS : Z;
  QCOM_ICC_TAG_PERF_MODE : Z;
  BCM_TCS_CMD_VOTE_MASK : Z;
  BCM_TCS_CMD : bool → bool → Z → Z → Z;   (* commit, valid, vote_x, vote_y *)
  MAX_RPMH_PAYLOAD : Z;
}.

(** [list_sort] with [cmp_vcd]: the BCMs by virtual clock domain. *)
Class ListSort := list_sort : (nat → Z) → list nat → list nat.
Class ListSortSpec (L : ListSort) : Prop := {
  list_sort_perm key l : list_sort key l ≡ₚ l;
  list_sort_sorted key l : StronglySorted (λ a b, key a ≤ key b) (list_sort key l);
}.

Inductive qcom_icc_bcm_type := QCOM_ICC_BCM_TYPE_BW | QCOM_ICC_BCM_TYPE_MASK.
#[export] Instance bcm_type_eq_dec : EqDecision qcom_icc_bcm_type.
Proof. solve_decision. Defined.

Record qcom_icc_node := mk_node {
  channels : Z;
  buswidth : Z;
  sum_avg : Z → Z;
  max_peak : Z → Z;
  perf_mode : Z → bool;
  bcms : list nat;
  init_avg : Z;           (* of the framework's node, from qcom_icc_get_bw() *)
  init_peak : Z;
}.

Record qcom_icc_bcm := mk_bcm {
  type : qcom_icc_bcm_type;
  addr : Z;
  vote_x : Z → Z;
  vote_y : Z → Z;
  vote_scale : Z;
  enable_mask : Z;
  perf_mode_mask : Z;
  keepalive : bool;
  unit_ : Z;              (* aux_data.unit *)
  width : Z;
  vcd : Z;
  crm_node : Z;
  nodes : list nat;
}.

Inductive crm_drv_type := CRM_HW_DRV | CRM_SW_DRV.
Record crm_cmd := mk_crm_cmd { pwr_state : Z; resource_idx : Z; crm_data : Z; crm_wait : bool }.
Record qcom_icc_crm_voter := mk_crm_voter { client_type : crm_drv_type; client_idx : Z; pwr_states : Z }.

Record bcm_voter := mk_voter {
  commit_list : list nat;
  ws_list : list nat;
  tcs_wait : Z;
  has_amc : bool;
  crm : option qcom_icc_crm_voter;
  registered : bool;      (* on bcm_voters *)
}.

Record icc := mk_icc {
  icc_nodes : nat → qcom_icc_node;
  icc_bcms : nat → qcom_icc_bcm;
  voter : bcm_voter;
}.

Definition set_votes (x y : Z → Z) (b : qcom_icc_bcm) : qcom_icc_bcm :=
  mk_bcm (type b) (addr b) x y (vote_scale b) (enable_mask b) (perf_mode_mask b) (keepalive b)
    (unit_ b) (width b) (vcd b) (crm_node b) (nodes b).
Definition set_keepalive (k : bool) (b : qcom_icc_bcm) : qcom_icc_bcm :=
  mk_bcm (type b) (addr b) (vote_x b) (vote_y b) (vote_scale b) (enable_mask b) (perf_mode_mask b) k
    (unit_ b) (width b) (vcd b) (crm_node b) (nodes b).
Definition set_lists (c w : list nat) (v : bcm_voter) : bcm_voter :=
  mk_voter c w (tcs_wait v) (has_amc v) (crm v) (registered v).
Definition set_bw (a p : Z → Z) (m : Z → bool) (n : qcom_icc_node) : qcom_icc_node :=
  mk_node (channels n) (buswidth n) a p m (bcms n) (init_avg n) (init_peak n).
Definition upd_node (i : nat) (n : qcom_icc_node) (s : icc) : icc :=
  mk_icc (<[i := n]> (icc_nodes s)) (icc_bcms s) (voter s).
Definition upd_bcm (i : nat) (b : qcom_icc_bcm) (s : icc) : icc :=
  mk_icc (icc_nodes s) (<[i := b]> (icc_bcms s)) (voter s).
Definition upd_lists (c w : list nat) (s : icc) : icc :=
  mk_icc (icc_nodes s) (icc_bcms s) (set_lists c w (voter s)).

Section defs.
Context (cfg : icc_cfg).

Definition buckets : list Z := seqZ 0 (QCOM_ICC_NUM_BUCKETS cfg).

(** ** Requests of the clients *)
Definition qcom_icc_bcm_voter_add (b : nat) (s : icc) : icc :=
  let v := voter s in
  if negb (registered v) then s
  else upd_lists (if decide (b ∈ commit_list v) then commit_list v else commit_list v ++ [b])
         (if decide (b ∈ ws_list v) then ws_list v else ws_list v ++ [b]) s.

Definition qcom_icc_pre_aggregate (i : nat) (s : icc) : icc :=
  let qn := icc_nodes s i in
  foldl (λ s b, qcom_icc_bcm_voter_add b s)
    (upd_node i (set_bw (λ _, 0) (λ _, 0) (λ _, false) qn) s) (bcms qn).

(** One bucket of a node. *)
Definition aggregate_bucket (tag avg_bw peak_bw b : Z) (qn : qcom_icc_node) : Z * Z * bool :=
  let '(a, p, m) :=
    if negb (Z.land tag (BIT b) =? 0) then
      (u64 (sum_avg qn b + avg_bw), Z.max (u32 (max_peak qn b)) peak_bw,
       perf_mode qn b || negb (Z.land tag (QCOM_ICC_TAG_PERF_MODE cfg) =? 0) &&
                         (negb (avg_bw =? 0) || negb (peak_bw =? 0)))
    else (sum_avg qn b, max_peak qn b, perf_mode qn b) in
  if negb (init_avg qn =? 0) || negb (init_peak qn =? 0)
  then (Z.max a (init_avg qn), Z.max p (init_peak qn), m) else (a, p, m).

(** The node and the framework's own totals. *)
Definition qcom_icc_aggregate (i : nat) (tag avg_bw peak_bw agg_avg agg_peak : Z) (s : icc) : icc * Z * Z :=
  let qn := icc_nodes s i in
  let tag := if tag =? 0 then QCOM_ICC_TAG_ALWAYS cfg else tag in
  let r b := if decide (b ∈ buckets) then aggregate_bucket tag avg_bw peak_bw b qn
             else (sum_avg qn b, max_peak qn b, perf_mode qn b) in
  (upd_node i (set_bw (λ b, (r b).1.1) (λ b, (r b).1.2) (λ b, (r b).2) qn) s,
   u32 (agg_avg + avg_bw), Z.max agg_peak peak_bw).

(** ** Aggregation per BCM *)

(** [base] is not zero: [do_div] would trap. *)
Definition bcm_div (num base : Z) : Z :=
  if negb (num =? 0) && (num <? base) then 1 else num / base.

(** The votes of a BCM as functions of the bucket, before the keepalive. *)
Definition mask_vote (s : icc) (b : qcom_icc_bcm) (bucket : Z) : Z :=
  foldl (λ y i, let n := icc_nodes s i in
    let y := if negb (sum_avg n bucket =? 0) || negb (max_peak n bucket =? 0) then Z.lor y (enable_mask b) else y in
    if perf_mode n bucket then Z.lor y (perf_mode_mask b) else y) 0 (nodes b).

Definition bcm_aggregate_mask (s : icc) (b : qcom_icc_bcm) : qcom_icc_bcm :=
  let x k := if decide (k ∈ buckets) then 0 else vote_x b k in
  let y k := if decide (k ∈ buckets) then mask_vote s b k else vote_y b k in
  let keep k := keepalive b && (bool_decide (k = QCOM_ICC_BUCKET_AMC cfg) || bool_decide (k = QCOM_ICC_BUCKET_WAKE cfg)) in
  set_votes x (λ k, if keep k then Z.lor (y k) (enable_mask b) else y k) b.

Definition agg_avg (s : icc) (b : qcom_icc_bcm) (bucket : Z) : Z :=
  foldl (λ a i, let n := icc_nodes s i in
    Z.max a (bcm_div (u64 (sum_avg n bucket * width b)) (u32 (buswidth n * channels n)))) 0 (nodes b).
Definition agg_peak (s : icc) (b : qcom_icc_bcm) (bucket : Z) : Z :=
  foldl (λ a i, let n := icc_nodes s i in
    Z.max a (bcm_div (u64 (max_peak n bucket * width b)) (buswidth n))) 0 (nodes b).
Definition to_vote (b : qcom_icc_bcm) (bw : Z) : Z := bcm_div (u64 (bw * vote_scale b)) (unit_ b).

Definition bcm_aggregate (s : icc) (b : qcom_icc_bcm) : qcom_icc_bcm :=
  let x k := if decide (k ∈ buckets) then to_vote b (agg_avg s b k) else vote_x b k in
  let y k := if decide (k ∈ buckets) then to_vote b (agg_peak s b k) else vote_y b k in
  let amc := QCOM_ICC_BUCKET_AMC cfg in
  let keep k := keepalive b && (x amc =? 0) && (y amc =? 0) &&
                (bool_decide (k = amc) || bool_decide (k = QCOM_ICC_BUCKET_WAKE cfg)) in
  set_votes (λ k, if keep k then 1 else x k) (λ k, if keep k then 1 else y k) b.

Definition aggregate_bcm (s : icc) (b : qcom_icc_bcm) : qcom_icc_bcm :=
  if bool_decide (type b = QCOM_ICC_BCM_TYPE_MASK) || negb (enable_mask b =? 0)
  then bcm_aggregate_mask s b else bcm_aggregate s b.

(** ** Commands *)
Definition clip (v : Z) : Z := if BCM_TCS_CMD_VOTE_MASK cfg <? v then BCM_TCS_CMD_VOTE_MASK cfg else v.

Definition tcs_cmd_gen (x y a : Z) (commit wait : bool) : tcs_cmd :=
  let valid := negb ((x =? 0) && (y =? 0)) in
  mk_cmd a (u32 (BCM_TCS_CMD cfg commit valid (clip x) (clip y))) (if wait then 1 else 0).

(** [n] and the commands so far; [None]: written outside the arrays. *)
Record gen := mk_gen { g_cmds : list tcs_cmd; g_n : list Z; g_batch : nat; g_cur : Z }.

Definition gen_step (s : icc) (bucket : Z) (b : nat) (rest : list nat) (g : gen) : option gen :=
  let bcm := icc_bcms s b in
  let commit := match rest with [] => true | b' :: _ => negb (vcd bcm =? vcd (icc_bcms s b')) end in
  let cur := if commit then 0 else g_cur g + 1 in
  let wait := commit && negb (Z.land (tcs_wait (voter s)) (BIT bucket) =? 0) in
  if MAX_BCMS <=? Z.of_nat (length (g_cmds g)) then None else
  let cmds := g_cmds g ++ [tcs_cmd_gen (vote_x bcm bucket) (vote_y bcm bucket) (addr bcm) commit wait] in
  match g_n g !! g_batch g with
  | None => None
  | Some c =>
      let c := c + 1 in
      let n := <[g_batch g := c]> (g_n g) in
      if MAX_RPMH_PAYLOAD cfg <=? c then
        if commit then Some (mk_gen cmds n (S (g_batch g)) cur)
        else if (S (g_batch g) <? length n)%nat
        then Some (mk_gen cmds (<[S (g_batch g) := cur]> (<[g_batch g := c - cur]> n)) (S (g_batch g)) cur)
        else None
      else Some (mk_gen cmds n (g_batch g) cur)
  end.

Fixpoint gen_loop (s : icc) (bucket : Z) (l : list nat) (g : gen) : option gen :=
  match l with
  | [] => Some g
  | b :: l => match gen_step s bucket b l g with Some g => gen_loop s bucket l g | None => None end
  end.

Definition tcs_list_gen (bucket : Z) (s : icc) : option (list tcs_cmd * list Z) :=
  match gen_loop s bucket (commit_list (voter s))
          (mk_gen [] (replicate (Z.to_nat (MAX_VCD + 1)) 0) 0 0) with
  | Some g => Some (g_cmds g, g_n g)
  | None => None
  end.

(** ** Committing *)
Context {L : ListSort} `{D : Device} {B : BitmapSearch}.
Abbreviation M := (KM rsc).

Definition sort_commit (s : icc) : icc :=
  upd_lists (list_sort (λ b, vcd (icc_bcms s b)) (commit_list (voter s))) (ws_list (voter s)) s.

(** What a blocking write meets: see [rpmh_write_batch]. *)
Record wb_env := mk_wb_env {
  wb_irq_data : bool;
  wb_spin : positive;
  wb_tcs : list (rsc → rsc);
  wb_compl_env : list (rsc → rsc);
  wb_compl : nat;
}.
Definition write_batch (standalone : bool) (w : wb_env) (st : rpmh_state) (cmds : list tcs_cmd) (n : list Z) : M Z :=
  rpmh_write_batch (MAX_RPMH_PAYLOAD cfg) standalone (wb_irq_data w) (wb_spin w) (wb_tcs w) (wb_compl_env w)
    (wb_compl w) st (Some cmds) n.

(** Whether the wake and the sleep vote of a BCM differ. *)
Definition differs (s : icc) (b : nat) : bool :=
  let bcm := icc_bcms s b in
  let wake := QCOM_ICC_BUCKET_WAKE cfg in
  let sleep := QCOM_ICC_BUCKET_SLEEP cfg in
  negb (vote_x bcm wake =? vote_x bcm sleep) || negb (vote_y bcm wake =? vote_y bcm sleep).

(** After the active votes: the wake and sleep sets; [ret] is the answer so far. *)
Definition commit_wake_sleep (standalone : bool) (w : wb_env) (ret : Z) (s : icc) : M (Z * icc) :=
  rpmh_invalidate (MAX_RPMH_PAYLOAD cfg) standalone ;;;
  let keep := filter (λ b, negb (has_amc (voter s)) || differs s b = true) (ws_list (voter s)) in
  let s := upd_lists keep keep s in
  if bool_decide (keep = []) then kret (ret, s)
  else
    let s := sort_commit s in
    match tcs_list_gen (QCOM_ICC_BUCKET_WAKE cfg) s with
    | None => kfail Undef
    | Some (cmds, n) =>
        let* ret := write_batch standalone w RPMH_WAKE_ONLY_STATE cmds n in
        if negb (ret =? 0) then kret (ret, s)
        else
          match tcs_list_gen (QCOM_ICC_BUCKET_SLEEP cfg) s with
          | None => kfail Undef
          | Some (cmds, n) =>
              let* ret := write_batch standalone w RPMH_SLEEP_STATE cmds n in
              kret (ret, s)
          end
    end.

Definition commit_rpmh (standalone : bool) (w : wb_env) (s : icc) : M (Z * icc) :=
  if has_amc (voter s) then
    let s := sort_commit s in
    match tcs_list_gen (QCOM_ICC_BUCKET_AMC cfg) s with
    | None => kfail Undef
    | Some (cmds, n) =>
        if n !!! 0%nat =? 0 then kret (0, s)
        else
          let* ret := write_batch standalone w RPMH_ACTIVE_ONLY_STATE cmds n in
          if negb (ret =? 0) && negb (ret =? - EBUSY) then kret (ret, s)
          else commit_wake_sleep standalone w ret s
    end
  else commit_wake_sleep standalone w 0 s.

(** ** The CRM instead of RPMh *)
Definition CRM_ACTIVE_STATE : Z := 0.
Definition CRM_SLEEP_STATE : Z := 1.
Definition CRM_WAKE_STATE : Z := 2.

Definition map_crm_pwr_state (t : crm_drv_type) (bucket : Z) : Z :=
  match t with
  | CRM_HW_DRV => bucket
  | CRM_SW_DRV =>
      if bucket =? QCOM_ICC_BUCKET_AMC cfg then CRM_ACTIVE_STATE
      else if bucket =? QCOM_ICC_BUCKET_WAKE cfg then CRM_WAKE_STATE
      else if bucket =? QCOM_ICC_BUCKET_SLEEP cfg then CRM_SLEEP_STATE else - EINVAL
  end.

Definition crm_cmd_gen (t : crm_drv_type) (bucket node x y : Z) : Z + crm_cmd :=
  let st := map_crm_pwr_state t bucket in
  if st <? 0 then inl st
  else inr (mk_crm_cmd st node (u32 (BCM_TCS_CMD cfg true true (clip x) (clip y))) true).

(** [crm_write] is the answer of the n-th [crm_write_bw_pt_vote]; the commands written. *)
Fixpoint crm_loop (crm_write : nat → Z) (cv : qcom_icc_crm_voter) (l : list (qcom_icc_bcm * Z)) (out : list crm_cmd)
    : Z * list crm_cmd :=
  match l with
  | [] => (0, out)
  | (b, i) :: l =>
      match crm_cmd_gen (client_type cv) i (crm_node b) (vote_x b i) (vote_y b i) with
      | inl err => (err, out)
      | inr c =>
          let ret := crm_write (length out) in
          if negb (ret =? 0) then (ret, out ++ [c]) else crm_loop crm_write cv l (out ++ [c])
      end
  end.
Definition commit_crm (crm_write : nat → Z) (cv : qcom_icc_crm_voter) (s : icc) : Z * list crm_cmd :=
  crm_loop crm_write cv
    (b ← commit_list (voter s); (λ i, (icc_bcms s b, i)) <$> seqZ 0 (pwr_states cv)) [].

Definition aggregate_all (s : icc) : icc :=
  foldl (λ s b, upd_bcm b (aggregate_bcm s (icc_bcms s b)) s) s (commit_list (voter s)).

(** The answer, the state, and the commands given to the CRM. *)
Definition qcom_icc_bcm_voter_commit (standalone : bool) (w : wb_env) (crm_write : nat → Z) (s : icc)
    : M (Z * icc * list crm_cmd) :=
  if negb (registered (voter s)) then kret (- ENODEV, s, [])
  else
    let s := aggregate_all s in
    match crm (voter s) with
    | Some cv =>
        let '(ret, out) := commit_crm crm_write cv s in
        kret (ret, upd_lists [] (ws_list (voter s)) s, out)
    | None =>
        let* r := commit_rpmh standalone w s in
        kret (r.1, upd_lists [] (ws_list (voter r.2)) r.2, [])
    end.

(** ** Bandwidth while QoS is configured *)

(** [bcm_needs_qos_proxy] from the flag, the voter index and whether the nodes have a QoS box. *)
Definition bcm_needs_qos_proxy (qos_proxy : bool) (voter_idx : Z) (qosbox : list bool) : bool :=
  qos_proxy || (voter_idx =? 0) && existsb id qosbox.

(** The bodies of the loops of [enable_qos_deps] and [disable_qos_deps]. *)
Definition enable_qos_bcm (standalone : bool) (w : wb_env) (crm_write : nat → Z) (b : nat) (s : icc) : M (Z * icc) :=
  let old := keepalive (icc_bcms s b) in
  let s := upd_bcm b (set_keepalive true (icc_bcms s b)) s in
  let* r := qcom_icc_bcm_voter_commit standalone w crm_write (qcom_icc_bcm_voter_add b s) in
  kret (r.1.1, upd_bcm b (set_keepalive old (icc_bcms r.1.2 b)) r.1.2).
Definition disable_qos_bcm (standalone : bool) (w : wb_env) (crm_write : nat → Z) (b : nat) (s : icc) : M icc :=
  let* r := qcom_icc_bcm_voter_commit standalone w crm_write (qcom_icc_bcm_voter_add b s) in
  kret r.1.2.

(** [needs b] is [bcm_needs_qos_proxy]; [clk] is the answer of [clk_bulk_prepare_enable]. *)
Fixpoint enable_qos_deps (standalone : bool) (w : wb_env) (crm_write : nat → Z) (needs : nat → bool) (clk : Z)
    (l : list nat) (s : icc) : M (Z * icc) :=
  match l with
  | [] => kret (clk, s)
  | b :: l =>
      if needs b then
        let* r := enable_qos_bcm standalone w crm_write b s in
        if negb (r.1 =? 0) then kret r else enable_qos_deps standalone w crm_write needs clk l r.2
      else enable_qos_deps standalone w crm_write needs clk l s
  end.
Fixpoint disable_qos_deps (standalone : bool) (w : wb_env) (crm_write : nat → Z) (needs : nat → bool)
    (l : list nat) (s : icc) : M icc :=
  match l with
  | [] => kret s
  | b :: l =>
      let* s := if needs b then disable_qos_bcm standalone w crm_write b s else kret s in
      disable_qos_deps standalone w crm_write needs l s
  end.
(** The registers written in between are those of qnoc-qos.c. *)
Definition qcom_icc_rpmh_configure_qos (standalone : bool) (w : wb_env) (crm_write : nat → Z) (needs : nat → bool) (clk : Z)
    (l : list nat) (s : icc) : M (Z * icc) :=
  let* r := enable_qos_deps standalone w crm_write needs clk l s in
  if negb (r.1 =? 0) then kret r
  else
    let* s := disable_qos_deps standalone w crm_write needs l r.2 in
    kret (0, s).

(** ** Initialisation of a BCM *)
Definition INT_MAX : Z := 2 ^ 31 - 1.
Definition set_addr (a : Z) (b : qcom_icc_bcm) : qcom_icc_bcm :=
  mk_bcm (type b) a (vote_x b) (vote_y b) (vote_scale b) (enable_mask b) (perf_mode_mask b) (keepalive b)
    (unit_ b) (width b) (vcd b) (crm_node b) (nodes b).
Definition set_aux (u w v : Z) (b : qcom_icc_bcm) : qcom_icc_bcm :=
  mk_bcm (type b) (addr b) (vote_x b) (vote_y b) (if vote_scale b =? 0 then 1000 else vote_scale b) (enable_mask b)
    (perf_mode_mask b) (keepalive b) (Z.max 1 (u32 u)) (Z.max 1 (u16 w)) v (crm_node b) (nodes b).
Definition link_bcm (b : nat) (n : qcom_icc_node) : qcom_icc_node :=
  mk_node (channels n) (buswidth n) (sum_avg n) (max_peak n) (perf_mode n) (bcms n ++ [b]) (init_avg n) (init_peak n).
(** [icc_node_add] copies the initial bandwidth to the framework's node. *)
Definition set_init (v : Z) (n : qcom_icc_node) : qcom_icc_node :=
  mk_node (channels n) (buswidth n) (sum_avg n) (max_peak n) (perf_mode n) (bcms n) v v.

(** Linking the nodes; [None]: a node has no room for another BCM. *)
Fixpoint link_nodes (b : nat) (l : list nat) (s : icc) : option icc :=
  match l with
  | [] => Some s
  | i :: l =>
      if MAX_BCM_PER_NODE <=? Z.of_nat (length (bcms (icc_nodes s i))) then None
      else link_nodes b l (upd_node i (link_bcm b (icc_nodes s i)) s)
  end.

(** The command database answers the address and the auxiliary data: an error, no
    data, or unit, width and VCD.  [None]: written outside an array. *)
Definition qcom_icc_bcm_init (disabled : bool) (read_addr : Z) (aux : Z + option (Z * Z * Z)) (b : nat) (s : icc)
    : option (Z * icc) :=
  let bcm := icc_bcms s b in
  if disabled || negb (addr bcm =? 0) then Some (0, s)
  else if read_addr =? 0 then Some (- EINVAL, s)
  else
    let s := upd_bcm b (set_addr read_addr bcm) s in
    match aux with
    | inl err => Some (err, s)
    | inr None => Some (- EINVAL, s)
    | inr (Some (u, w, v)) =>
        let s := upd_bcm b (set_aux u w v (icc_bcms s b)) s in
        match link_nodes b (nodes bcm) s with
        | None => None
        | Some s =>
            match keepalive bcm, nodes bcm with
            | false, _ => Some (0, s)
            | true, [] => None
            | true, i :: _ => Some (0, qcom_icc_bcm_voter_add b (upd_node i (set_init INT_MAX (icc_nodes s i)) s))
            end
        end
    end.
End defs.
