(* ===== verification/BcmBatch.v ===== *)
(** * Interconnect votes: the batches of commands

    [tcs_list_gen] on a list of BCMs sorted by virtual clock domain (VCD): the
    commands it makes and how it divides them. *)

From Stdlib Require Import Sorting.Sorted.
From S2P Require Import Prelude.
From S2P Require Import Kernel.
From S2P Require Import RpmhRsc.
From S2P Require Import Rpmh.
From S2P Require Import Bcm.

Section batch.
Context (cfg : icc_cfg) (s : icc) (bucket : Z).

Definition key (b : nat) : Z := vcd (icc_bcms s b).
Abbreviation P := (MAX_RPMH_PAYLOAD cfg).

(** A BCM is the last of its VCD: the commit bit. *)
Definition commits (b : nat) (rest : list nat) : bool :=
  match rest with [] => true | b' :: _ => negb (key b =? key b') end.
Definition cmd_of (b : nat) (commit : bool) : tcs_cmd :=
  let bcm := icc_bcms s b in
  tcs_cmd_gen cfg (vote_x bcm bucket) (vote_y bcm bucket) (addr bcm) commit
    (commit && negb (Z.land (tcs_wait (voter s)) (BIT bucket) =? 0)).
Fixpoint vcd_cmds (l : list nat) : list tcs_cmd :=
  match l with [] => [] | b :: l => cmd_of b (commits b l) :: vcd_cmds l end.

Lemma length_vcd_cmds l : length (vcd_cmds l) = length l.
Proof. induction l; cbn; congruence. Qed.

(** Batches in order of their VCDs, none shared. *)
Definition before (p q : list nat) : Prop := ∀ x y, x ∈ p → y ∈ q → key x < key y.
Definition len (l : list nat) : Z := Z.of_nat (length l).

(** A bound of the number of VCDs before the next BCM. *)
Definition next_vcd (l : list nat) : Z := match l with [] => MAX_VCD | b :: _ => key b end.

(** The loop in front of [l]: closed batches [parts], in the open batch the finished
    VCDs [o] and the BCMs [c] of the VCD at hand. *)
Record gen_inv (parts : list (list nat)) (o c l : list nat) (g : gen) : Prop := {
  gi_parts : StronglySorted before parts;
  gi_closed : before (concat parts) (o ++ c ++ l);
  gi_open : before o (c ++ l);
  gi_cur : ∀ x, x ∈ c → ∃ b l', l = b :: l' ∧ key x = key b;
  gi_sizes : Forall (λ p, 1 ≤ len p ≤ P) parts;
  gi_room : len o + len c < P;
  gi_n : ∃ z, g_n g = map len parts ++ (len o + len c) :: replicate z 0 ∧
           Z.of_nat (length parts + S z) = MAX_VCD + 1;
  gi_batch : g_batch g = length parts;
  gi_size : g_cur g = len c;
  gi_first : parts = [] ∨ (length parts = 1%nat ∧ o = [] ∧ c = [] ∧ P ≤ len (concat parts)) ∨
    P < len (concat parts ++ o ++ c ++ l);
  gi_few : Z.of_nat (length parts) + (if decide (o = []) then 0 else 1) ≤ next_vcd l;
}.

Definition sorted_vcd (l : list nat) : Prop := StronglySorted (λ a b, key a ≤ key b) l.

(** The size of a VCD. *)
Definition vcd_size (l : list nat) (v : Z) : Z := len (filter (λ b, key b = v) l).

Lemma StronglySorted_snoc {A} (R : A → A → Prop) l x :
  StronglySorted R l → (∀ y, y ∈ l → R y x) → StronglySorted R (l ++ [x]).
Proof.
  induction 1 as [|y l Hl IH Hy]; intros Hx; cbn; [repeat constructor|]. constructor.
  - apply IH. intros z Hz. apply Hx. by right.
  - apply Forall_app. split; [done|]. constructor; [|done]. apply Hx. by left.
Qed.

(** Below, for the step: what follows a BCM in a sorted list. *)
Lemma sorted_head b l : sorted_vcd (b :: l) → (∀ y, y ∈ l → key b ≤ key y) ∧ sorted_vcd l.
Proof. inversion 1 as [|? ? Hl Hb]; subst. split; [|done]. by apply list.Forall_forall. Qed.

Lemma commits_lt b l : sorted_vcd (b :: l) → commits b l = true → ∀ y, y ∈ l → key b < key y.
Proof.
  intros Hs Hc y Hy. destruct l as [|b' l]; [by apply not_elem_of_nil in Hy|]. cbn in Hc.
  apply negb_true_iff, Z.eqb_neq in Hc. apply sorted_head in Hs as [H1 Hs].
  pose proof (H1 b' ltac:(by left)). apply elem_of_cons in Hy as [->|Hy]; [lia|].
  apply sorted_head in Hs as [H2 _]. pose proof (H2 y Hy). lia.
Qed.

Lemma insert_open {A} (a : list A) x y z k : k = length a → <[k := y]> (a ++ x :: z) = a ++ y :: z.
Proof. intros ->. rewrite insert_app_r_alt by lia. by rewrite Nat.sub_diag. Qed.
Lemma lookup_open {A} (a : list A) x z k : k = length a → (a ++ x :: z) !! k = Some x.
Proof. intros ->. by apply list_lookup_middle. Qed.

Lemma len_app a b : len (a ++ b) = len a + len b.
Proof. unfold len. rewrite length_app. lia. Qed.
Lemma len_one b : len [b] = 1.
Proof. done. Qed.
Lemma len_nonneg a : 0 ≤ len a.
Proof. unfold len. lia. Qed.

(** The VCD at hand, when it goes on, does not fill a batch. *)
Lemma current_fits c b l :
  commits b l = false → (∀ x, x ∈ c → key x = key b) → vcd_size (c ++ b :: l) (key b) ≤ P → len c + 1 < P.
Proof.
  intros Hc Hk Hs. destruct l as [|b' l]; [done|]. cbn in Hc. apply negb_false_iff, Z.eqb_eq in Hc.
  unfold vcd_size in Hs. rewrite list.filter_app, len_app in Hs.
  assert (filter (λ x, key x = key b) c = c) as Hf.
  { clear -Hk. induction c as [|x c IH]; [done|]. rewrite filter_cons, decide_True by (apply Hk; by left).
    rewrite IH; [done|]. intros y Hy. apply Hk. by right. }
  rewrite Hf, !filter_cons, !decide_True in Hs by done. unfold len in *. cbn [length] in Hs. lia.
Qed.

(** Closing the open batch [q]. *)
Lemma close_parts parts q rest :
  StronglySorted before parts → before (concat parts) (q ++ rest) → before q rest →
  Forall (λ p, 1 ≤ len p ≤ P) parts → 1 ≤ len q ≤ P →
  StronglySorted before (parts ++ [q]) ∧ before (concat (parts ++ [q])) rest ∧
  Forall (λ p, 1 ≤ len p ≤ P) (parts ++ [q]) ∧ map len (parts ++ [q]) = map len parts ++ [len q].
Proof.
  intros Hp Hc Hq Hf Hl. split_and!.
  - apply StronglySorted_snoc; [done|]. intros p Hp' x y Hx Hy. apply Hc; [|set_solver].
    apply list_elem_of_In, in_concat. exists p. by rewrite <-!list_elem_of_In.
  - rewrite concat_app. cbn. rewrite app_nil_r. intros x y Hx Hy. apply elem_of_app in Hx as [Hx|Hx].
    + apply Hc; set_solver.
    + by apply Hq.
  - by apply Forall_app_2; [|constructor].
  - by rewrite map_app.
Qed.

Lemma gen_step_inv parts o c b l g :
  sorted_vcd (b :: l) → 0 ≤ key b < MAX_VCD → vcd_size (c ++ b :: l) (key b) ≤ P →
  Z.of_nat (length (g_cmds g)) < MAX_BCMS → gen_inv parts o c (b :: l) g →
  ∃ parts' o' c' g', gen_step cfg s bucket b l g = Some g' ∧
    g_cmds g' = g_cmds g ++ [cmd_of b (commits b l)] ∧
    concat parts' ++ o' ++ c' = concat parts ++ o ++ c ++ [b] ∧ gen_inv parts' o' c' l g'.
Proof.
  intros Hsort Hkey Hsize Hroom [Hp Hcl Hop Hcu Hsz Hrm (z & Hn & Hz) Hb Hc Hfst Hfew].
  pose proof Hfew as Hfb. cbn [next_vcd] in Hfb.
  assert (Z.of_nat (length parts) ≤ key b) as Hfb' by (revert Hfb; destruct (decide (o = [])); lia). assert (∀ x, x ∈ c → key x = key b) as Hck.
  { intros x Hx. destruct (Hcu x Hx) as (? & ? & [= <- <-] & ?). done. }
  destruct (sorted_head b l Hsort) as [Hle _]. pose proof (len_nonneg o). pose proof (len_nonneg c).
  assert (parts ≠ [] → P < len (concat parts ++ o ++ c ++ b :: l)) as Hlong.
  { intros Hne. destruct Hfst as [->|[(_ & -> & -> & Hge)|?]]; [done| |done].
    rewrite !len_app. unfold len at 4. cbn [length]. pose proof (len_nonneg []). lia. }
  unfold gen_step. fold (key b). change (match l with [] => true | b' :: _ => negb (key b =? vcd (icc_bcms s b')) end)
    with (commits b l). fold (cmd_of b (commits b l)).
  rewrite (proj2 (Z.leb_gt _ _)) by done. rewrite Hb, Hn, lookup_open by (by rewrite length_map).
  rewrite insert_open by (by rewrite length_map).
  destruct (commits b l) eqn:Ec.
  - pose proof (commits_lt b l Hsort Ec) as Hlt. set (q := o ++ c ++ [b]).
    assert (len q = len o + len c + 1) as Hq by (unfold q; rewrite !len_app, len_one; lia).
    assert (before q l) as Hql.
    { intros x y Hx Hy. unfold q in Hx. rewrite !elem_of_app, list_elem_of_singleton in Hx. destruct Hx as [Hx|[Hx|Hx]].
      - apply Hop; set_solver.
      - rewrite (Hck x Hx). by apply Hlt.
      - subst. by apply Hlt. }
    assert (before (concat parts) (q ++ l)) as Hcq.
    { intros x y Hx Hy. apply Hcl; [done|]. unfold q in Hy. set_solver. }
    assert (key b + 1 ≤ next_vcd l) as Hnext.
    { destruct l as [|b' l']; cbn; [lia|]. pose proof (Hlt b' ltac:(by left)). lia. }
    destruct (Z.leb_spec P (len o + len c + 1)).
    + destruct (close_parts parts q l Hp Hcq Hql Hsz ltac:(lia)) as (K1 & K2 & K3 & K4).
      exists (parts ++ [q]), [], [], (mk_gen (g_cmds g ++ [cmd_of b true]) (map len parts ++ (len o + len c + 1) :: replicate z 0)
        (S (length parts)) 0).
      split_and!; [done|done|by rewrite concat_app; cbn; rewrite !app_nil_r|]. split; try done.
      * intros x y Hx. set_solver.
      * set_solver.
      * cbn. unfold len in *. cbn in *. lia.
      * destruct z as [|z]; [exfalso; unfold MAX_VCD in *; lia|]. exists z. cbn [g_n]. split.
        -- rewrite K4, Hq. cbn. by rewrite <-app_assoc.
        -- rewrite length_app. cbn. lia.
      * cbn. rewrite length_app. cbn. lia.
      * right. destruct (decide (parts = [])) as [->|Hne]; [left; split_and!; [done..|cbn; rewrite app_nil_r; lia]|right].
        specialize (Hlong Hne). rewrite concat_app. cbn. rewrite app_nil_r. unfold q. by rewrite <-!app_assoc.
      * rewrite length_app, decide_True by done. cbn [length]. lia.
    + exists parts, q, [], (mk_gen (g_cmds g ++ [cmd_of b true]) (map len parts ++ (len o + len c + 1) :: replicate z 0) (length parts) 0).
      split_and!; [done|done|unfold q; by rewrite app_nil_r|]. split; try done.
      * set_solver.
      * change (len []) with 0. lia.
      * exists z. cbn [g_n]. split; [|done]. rewrite Hq. change (len []) with 0. by rewrite Z.add_0_r.
      * destruct (decide (parts = [])) as [->|Hne]; [by left|]. do 2 right. specialize (Hlong Hne).
        unfold q. by rewrite <-!app_assoc.
      * destruct (decide (q = [])); lia.
  - pose proof (current_fits c b l Ec Hck Hsize) as Hfit. set (c' := c ++ [b]).
    assert (len c' = len c + 1) as Hc' by (unfold c'; by rewrite len_app, len_one).
    assert (∃ b' l', l = b' :: l' ∧ key b' = key b) as (b' & l' & El & Ek).
    { destruct l as [|b' l']; [done|]. cbn in Ec. apply negb_false_iff, Z.eqb_eq in Ec. by exists b', l'. }
    assert (∀ x, x ∈ c' → ∃ b0 l0, l = b0 :: l0 ∧ key x = key b0) as Hcur'.
    { intros x Hx. exists b', l'. split; [done|]. rewrite Ek. unfold c' in Hx. apply elem_of_app in Hx as [Hx|Hx]; [by apply Hck|].
      apply list_elem_of_singleton in Hx. by subst. }
    destruct (Z.leb_spec P (len o + len c + 1)).
    + assert (o ≠ []) as Ho by (intros ->; unfold len in *; cbn in *; lia).
      rewrite decide_False in Hfb by done.
      destruct (close_parts parts o (c' ++ l) Hp) as (K1 & K2 & K3 & K4); [|..|done| |].
      { intros x y Hx Hy. apply Hcl; [done|]. unfold c' in Hy. set_solver. }
      { intros x y Hx Hy. apply Hop; [done|]. unfold c' in Hy. set_solver. }
      { unfold len in *. destruct o; [done|]. cbn [length] in *. lia. }
      destruct z as [|z]; [exfalso; unfold MAX_VCD in *; lia|].
      rewrite (proj2 (Nat.ltb_lt _ _)) by (rewrite length_app, length_map; cbn; lia).
      eexists (parts ++ [o]), [], c', _. split; [reflexivity|]. split; [done|].
      split; [unfold c'; rewrite concat_app; cbn; by rewrite app_nil_r, <-!app_assoc|].
      split; cbn [g_n g_batch g_cur]; try done.
      * intros x y Hx. set_solver.
      * change (len []) with 0. lia.
      * exists z. rewrite insert_open by (by rewrite length_map). rewrite Hc. cbn [replicate].
        replace (map len parts ++ len o + len c + 1 - (len c + 1) :: 0 :: replicate z 0)
          with (map len (parts ++ [o]) ++ 0 :: replicate z 0) by (rewrite K4, <-app_assoc; cbn; do 2 f_equal; lia).
        rewrite insert_open by (rewrite length_map, length_app; cbn; lia). rewrite Hc'. split; [done|].
        rewrite length_app. cbn. lia.
      * rewrite length_app. cbn. lia.
      * lia.
      * do 2 right. rewrite concat_app. cbn. rewrite app_nil_r. unfold c'. rewrite !len_app, len_one. rewrite El.
        unfold len in *. cbn [length]. lia.
      * rewrite El. cbn [next_vcd]. rewrite length_app, Ek, decide_True by done. cbn [length]. lia.
    + eexists parts, o, c', _. split; [reflexivity|]. split; [done|]. split; [done|].
      split; cbn [g_n g_batch g_cur]; try done.
      * intros x y Hx Hy. apply Hcl; [done|]. unfold c' in Hy. set_solver.
      * intros x y Hx Hy. apply Hop; [done|]. unfold c' in Hy. set_solver.
      * lia.
      * exists z. split; [|done]. do 2 f_equal. lia.
      * lia.
      * destruct (decide (parts = [])) as [->|Hne]; [by left|]. do 2 right. specialize (Hlong Hne).
        unfold c'. by rewrite <-!app_assoc.
      * rewrite El. cbn [next_vcd]. by rewrite Ek.
Qed.

Lemma vcd_size_app a l v : vcd_size (a ++ l) v = vcd_size a v + vcd_size l v.
Proof. unfold vcd_size. by rewrite list.filter_app, len_app. Qed.

Lemma gen_loop_inv l parts o c g :
  sorted_vcd l → (∀ b, b ∈ l → 0 ≤ key b < MAX_VCD) →
  (∀ v, vcd_size (concat parts ++ o ++ c ++ l) v ≤ P) →
  Z.of_nat (length (g_cmds g)) + len l ≤ MAX_BCMS → gen_inv parts o c l g →
  ∃ parts' o' g', gen_loop cfg s bucket l g = Some g' ∧ g_cmds g' = g_cmds g ++ vcd_cmds l ∧
    concat parts' ++ o' = concat parts ++ o ++ c ++ l ∧ gen_inv parts' o' [] [] g'.
Proof.
  revert parts o c g. induction l as [|b l IH]; intros parts o c g Hsort Hkey Hsize Hroom Hinv.
  { exists parts, o, g. assert (c = []) as ->.
    { destruct c as [|x c]; [done|]. destruct (gi_cur _ _ _ _ _ Hinv x) as (? & ? & ? & _); [by left|done]. }
    cbn. rewrite !app_nil_r. done. }
  assert (len (b :: l) = len l + 1) as Hlen by (unfold len; cbn [length]; lia). pose proof (len_nonneg l).
  destruct (gen_step_inv parts o c b l g) as (parts' & o' & c' & g' & Hg & Hcm & Hcat & Hinv'); [done|apply Hkey; by left| |lia|done|].
  { pose proof (Hsize (key b)) as Hs. rewrite !vcd_size_app in Hs. rewrite vcd_size_app.
    assert (0 ≤ vcd_size (concat parts) (key b) ∧ 0 ≤ vcd_size o (key b)) by (split; apply len_nonneg). lia. }
  cbn [gen_loop]. rewrite Hg.
  assert (concat parts' ++ o' ++ c' ++ l = concat parts ++ o ++ c ++ b :: l) as Hcat'.
  { replace (concat parts' ++ o' ++ c' ++ l) with ((concat parts' ++ o' ++ c') ++ l) by (by rewrite <-!app_assoc).
    rewrite Hcat. by rewrite <-!app_assoc. }
  destruct (IH parts' o' c' g') as (parts2 & o2 & g2 & K1 & K2 & K3 & K4); [by destruct (sorted_head b l Hsort)| | | |done|].
  - intros x Hx. apply Hkey. by right.
  - by rewrite Hcat'.
  - rewrite Hcm, length_app. cbn [length]. lia.
  - exists parts2, o2, g2. split_and!; [done| |by rewrite K3|done]. rewrite K2, Hcm, <-app_assoc. done.
Qed.

(** The batches of a list of BCMs. *)
Lemma vcd_batches_spec :
  let l := commit_list (voter s) in
  1 ≤ P → sorted_vcd l → (∀ b, b ∈ l → 0 ≤ key b < MAX_VCD) → (∀ v, vcd_size l v ≤ P) → len l ≤ MAX_BCMS →
  ∃ parts z, tcs_list_gen cfg bucket s = Some (vcd_cmds l, map len parts ++ replicate (S z) 0) ∧
    concat parts = l ∧ Forall (λ p, 1 ≤ len p ≤ P) parts ∧ StronglySorted before parts ∧
    (len l ≤ P → (length parts ≤ 1)%nat).
Proof.
  intros l HP Hsort Hkey Hsize Hlen.
  destruct (gen_loop_inv l [] [] [] (mk_gen [] (replicate (Z.to_nat (MAX_VCD + 1)) 0) 0 0))
    as (parts & o & g & Hg & Hcm & Hcat & [Hp Hcl _ _ Hsz Hrm (z & Hn & Hz) _ _ Hfst Hfew]); [done..| |].
  { split; try done; try (intros x y Hx; by apply not_elem_of_nil in Hx).
    - constructor.
    - intros x Hx. by apply not_elem_of_nil in Hx.
    - change (len []) with 0. lia.
    - by exists 10%nat.
    - by left.
    - rewrite decide_True by done. cbn [length]. destruct l as [|b l']; cbn [next_vcd]; [done|].
      pose proof (Hkey b ltac:(by left)). lia. }
  unfold tcs_list_gen. fold l. rewrite Hg, Hcm, Hn. cbn [g_cmds app]. cbn [concat app] in Hcat. change (len []) with 0 in *.
  cbn [next_vcd] in Hfew. destruct (decide (o = [])) as [->|Ho].
  - exists parts, z. rewrite app_nil_r in Hcat. split_and!; [done..|]. intros Hfit.
    destruct Hfst as [->|[[-> _]|Hgt]]; [cbn; lia|lia|]. cbn in Hgt. rewrite app_nil_r, Hcat in Hgt. lia.
  - rewrite app_nil_r in Hcl. destruct (close_parts parts o [] Hp) as (K1 & _ & K3 & K4); [by rewrite app_nil_r| |done| |].
    { intros x y _ Hy. by apply not_elem_of_nil in Hy. }
    { destruct o; [done|]. unfold len in *. cbn [length] in *. lia. }
    destruct z as [|z]; [exfalso; unfold MAX_VCD in *; lia|]. exists (parts ++ [o]), z. split_and!; [| |done|done|].
    + rewrite K4, Z.add_0_r. cbn. by rewrite <-app_assoc.
    + rewrite concat_app. cbn. by rewrite app_nil_r.
    + intros Hfit. destruct Hfst as [->|[(_ & ? & _)|Hgt]]; [cbn; lia|done|]. cbn in Hgt.
      rewrite app_nil_r, Hcat in Hgt. lia.
Qed.

(** Only the first count is read by [rpmh_write_batch]: it is everything exactly
    when all the commands fit one payload. *)
Lemma parts_in_one_payload parts l :
  concat parts = l → Forall (λ p, 1 ≤ len p ≤ P) parts → (length parts ≤ 1)%nat →
  (map len parts ++ [0]) !!! 0%nat = len l.
Proof.
  intros <- Hf Hl. destruct parts as [|p [|q parts]]; cbn in *; [done| |lia]. by rewrite app_nil_r.
Qed.

(** the batches of a vote keep every virtual clock domain together.  For BCMs sorted by
    VCD, no VCD larger than a payload, VCD numbers below MAX_VCD and at most
    MAX_BCMS of them, [tcs_list_gen] stays inside its arrays, makes one command per
    BCM, with the commit bit on exactly the last of each VCD, and divides them into
    batches of 1 to MAX_RPMH_PAYLOAD commands, counted in the zero-terminated array,
    such that no VCD is in two batches; when all fit one payload there is
    one batch. *)
Theorem vcd_batches :
  let l := commit_list (voter s) in
  1 ≤ P → sorted_vcd l → (∀ b, b ∈ l → 0 ≤ key b < MAX_VCD) → (∀ v, vcd_size l v ≤ P) → len l ≤ MAX_BCMS →
  ∃ parts z, tcs_list_gen cfg bucket s = Some (vcd_cmds l, map len parts ++ replicate (S z) 0) ∧
    concat parts = l ∧ Forall (λ p, 1 ≤ len p ≤ P) parts ∧ StronglySorted before parts ∧
    (len l ≤ P → (length parts ≤ 1)%nat).
Proof. apply vcd_batches_spec. Qed.
End batch.

Lemma sorted_vcd_ext s s' l : (∀ b, key s b = key s' b) → sorted_vcd s l → sorted_vcd s' l.
Proof.
  intros H. induction 1 as [|b l Hl IH Hb]; constructor; [done|]. eapply List.Forall_impl; [|exact Hb].
  intros x. cbn. by rewrite !H.
Qed.
