(* ===== verification/BcmVoter.v ===== *)
(** * Interconnect votes: from a client's request to the sleep and wake sets

    The lists of the voter and their invariant, the votes as functions of the
    bandwidth requested, and, with RpmhFlush, what the sleep and wake TCSes hold
    after a commit and a flush. *)

From Stdlib Require Import Sorting.Sorted.
From S2P Require Import Prelude.
From S2P Require Import Kernel.
From S2P Require Import CmdDb.
From S2P Require Import RpmhRsc.
From S2P Require Import RpmhTcs.
From S2P Require Import Rpmh.
From S2P Require Import RpmhCache.
From S2P Require Import RpmhFlush.
From S2P Require Import Bcm.
From S2P Require Import BcmBatch.

(** ** The lists *)
Section lists.
Context (cfg : icc_cfg).

(** Every BCM waiting for a commit may differ, and every BCM that differs is known. *)
Record voter_inv (s : icc) : Prop := {
  vi_commit : NoDup (commit_list (voter s));
  vi_ws : NoDup (ws_list (voter s));
  vi_sub b : b ∈ commit_list (voter s) → b ∈ ws_list (voter s);
  vi_differs b : differs cfg s b = true → b ∈ ws_list (voter s);
}.

Lemma add_nodup (l : list nat) b : NoDup l → NoDup (if decide (b ∈ l) then l else l ++ [b]).
Proof.
  intros H. case_decide; [done|]. apply list.NoDup_app. split_and!; [done|set_solver|apply NoDup_singleton].
Qed.
Lemma elem_add (l : list nat) b x : x ∈ (if decide (b ∈ l) then l else l ++ [b]) ↔ x ∈ l ∨ x = b.
Proof. case_decide; [set_solver|]. rewrite elem_of_app, list_elem_of_singleton. done. Qed.

Lemma voter_add_inv b s : voter_inv s → voter_inv (qcom_icc_bcm_voter_add b s).
Proof.
  intros [H1 H2 H3 H4]. unfold qcom_icc_bcm_voter_add. destruct (negb _); [done|]. split; cbn.
  - by apply add_nodup.
  - by apply add_nodup.
  - intros x. rewrite !elem_add. naive_solver.
  - intros x Hx. rewrite elem_add. left. by apply H4.
Qed.

Lemma nodes_inv n s : voter_inv s → voter_inv (mk_icc n (icc_bcms s) (voter s)).
Proof. intros [H1 H2 H3 H4]. by split. Qed.

Lemma pre_aggregate_inv i s : voter_inv s → voter_inv (qcom_icc_pre_aggregate i s).
Proof.
  intros H. unfold qcom_icc_pre_aggregate.
  assert (voter_inv (upd_node i (set_bw (λ _, 0) (λ _, 0) (λ _, false) (icc_nodes s i)) s)) as H0 by (by apply nodes_inv).
  revert H0. generalize (upd_node i (set_bw (λ _, 0) (λ _, 0) (λ _, false) (icc_nodes s i)) s). clear H.
  induction (bcms (icc_nodes s i)) as [|b l IH]; intros s0 H0; cbn; [done|]. by apply IH, voter_add_inv.
Qed.

Lemma aggregate_inv i tag a p x y s : voter_inv s → voter_inv (qcom_icc_aggregate cfg i tag a p x y s).1.1.
Proof. apply nodes_inv. Qed.

(** Committing changes only the votes of the BCMs waiting. *)
Lemma aggregate_all_frame s :
  icc_nodes (aggregate_all cfg s) = icc_nodes s ∧ voter (aggregate_all cfg s) = voter s ∧
  ∀ b, b ∉ commit_list (voter s) → icc_bcms (aggregate_all cfg s) b = icc_bcms s b.
Proof.
  unfold aggregate_all. generalize (commit_list (voter s)) as l. intros l. revert s.
  induction l as [|b l IH]; intros s; cbn; [done|].
  destruct (IH (upd_bcm b (aggregate_bcm cfg s (icc_bcms s b)) s)) as (H1 & H2 & H3). split_and!; [done..|].
  intros x Hx. apply not_elem_of_cons in Hx as [Hne Hx]. rewrite H3 by done. cbn. by rewrite fn_lookup_insert_ne.
Qed.

(** A BCM's new votes depend on the nodes only. *)
Lemma aggregate_bcm_nodes s s' b : icc_nodes s = icc_nodes s' → aggregate_bcm cfg s b = aggregate_bcm cfg s' b.
Proof.
  intros H. unfold aggregate_bcm, bcm_aggregate_mask, bcm_aggregate, mask_vote, agg_avg, agg_peak. by rewrite H.
Qed.

Lemma aggregate_all_votes s b :
  NoDup (commit_list (voter s)) → b ∈ commit_list (voter s) →
  icc_bcms (aggregate_all cfg s) b = aggregate_bcm cfg s (icc_bcms s b).
Proof.
  unfold aggregate_all. generalize (commit_list (voter s)) as l. intros l Hnd Hb.
  assert (∀ l s0, icc_nodes s0 = icc_nodes s → b ∉ l → icc_bcms (foldl (λ s b, upd_bcm b (aggregate_bcm cfg s (icc_bcms s b)) s) s0 l) b
    = icc_bcms s0 b) as Hout.
  { clear l Hnd Hb. intros l. induction l as [|c l IH]; intros s0 Hs0 Hb; cbn; [done|].
    apply not_elem_of_cons in Hb as [Hne Hb]. rewrite IH by done. cbn. by rewrite fn_lookup_insert_ne. }
  assert (∀ l s0, icc_nodes s0 = icc_nodes s → icc_bcms s0 b = icc_bcms s b → NoDup l → b ∈ l →
    icc_bcms (foldl (λ s b, upd_bcm b (aggregate_bcm cfg s (icc_bcms s b)) s) s0 l) b = aggregate_bcm cfg s (icc_bcms s b)) as Hin.
  { clear l Hnd Hb. intros l. induction l as [|c l IH]; intros s0 Hs0 Hb0 Hnd Hb; [by apply not_elem_of_nil in Hb|].
    apply list.NoDup_cons in Hnd as [Hc Hnd]. cbn. destruct (decide (b = c)) as [->|Hne].
    - rewrite Hout by done. cbn. rewrite fn_lookup_insert, Hb0. by apply aggregate_bcm_nodes.
    - apply IH; [done| |done|]; [cbn; by rewrite fn_lookup_insert_ne|]. apply elem_of_cons in Hb. naive_solver. }
  by apply Hin.
Qed.

Lemma differs_bcm s s' b : icc_bcms s b = icc_bcms s' b → differs cfg s b = differs cfg s' b.
Proof. unfold differs. by intros ->. Qed.

Lemma aggregate_all_inv s : voter_inv s → voter_inv (aggregate_all cfg s).
Proof.
  intros [H1 H2 H3 H4]. destruct (aggregate_all_frame s) as (_ & Hv & Hb). split; rewrite Hv; try done.
  intros b Hd. destruct (decide (b ∈ commit_list (voter s))) as [Hin|Hin]; [by apply H3|].
  apply H4. by rewrite (differs_bcm s (aggregate_all cfg s)) by (by rewrite Hb).
Qed.

(** ** Votes of a BCM as a function of its nodes *)
Definition bcm_votes (s : icc) (b : qcom_icc_bcm) (k : Z) : Z * Z :=
  (vote_x (aggregate_bcm cfg s b) k, vote_y (aggregate_bcm cfg s b) k).

Definition same_nodes (s s' : icc) (l : list nat) : Prop := ∀ i, i ∈ l → icc_nodes s i = icc_nodes s' i.

Lemma foldl_agree {A} (f f' : A → nat → A) l a :
  (∀ x i, i ∈ l → f x i = f' x i) → foldl f a l = foldl f' a l.
Proof.
  revert a. induction l as [|i l IH]; intros a H; cbn; [done|].
  rewrite (H a i) by (by left). apply IH. intros x j Hj. apply H. by right.
Qed.

Lemma mask_vote_ext s s' b k : same_nodes s s' (nodes b) → mask_vote s b k = mask_vote s' b k.
Proof. intros H. apply foldl_agree. intros x i Hi. by rewrite (H i Hi). Qed.
Lemma agg_avg_ext s s' b k : same_nodes s s' (nodes b) → agg_avg s b k = agg_avg s' b k.
Proof. intros H. apply foldl_agree. intros x i Hi. by rewrite (H i Hi). Qed.
Lemma agg_peak_ext s s' b k : same_nodes s s' (nodes b) → agg_peak s b k = agg_peak s' b k.
Proof. intros H. apply foldl_agree. intros x i Hi. by rewrite (H i Hi). Qed.

Lemma bcm_votes_ext s s' b k : same_nodes s s' (nodes b) → bcm_votes s b k = bcm_votes s' b k.
Proof.
  intros H. unfold bcm_votes, aggregate_bcm. destruct (_ || _).
  - unfold bcm_aggregate_mask. cbn. by rewrite (mask_vote_ext s s' b k H).
  - unfold bcm_aggregate. cbn.
    by rewrite !(agg_avg_ext s s' b _ H), !(agg_peak_ext s s' b _ H).
Qed.

(** The bucket numbers of the header are buckets. *)
Definition cfg_ok : Prop :=
  QCOM_ICC_BUCKET_AMC cfg ∈ buckets cfg ∧ QCOM_ICC_BUCKET_WAKE cfg ∈ buckets cfg ∧ QCOM_ICC_BUCKET_SLEEP cfg ∈ buckets cfg.

(** Aggregating again, with the nodes unchanged, changes nothing. *)
Lemma bcm_votes_again s b k :
  cfg_ok → k ∈ buckets cfg → bcm_votes s (aggregate_bcm cfg s b) k = bcm_votes s b k.
Proof.
  intros (Hamc & _) Hk. unfold bcm_votes, aggregate_bcm.
  destruct (bool_decide (type b = QCOM_ICC_BCM_TYPE_MASK) || negb (enable_mask b =? 0)) eqn:E.
  - cbn. rewrite E. cbn. rewrite !decide_True by done. done.
  - cbn. rewrite E. cbn. rewrite !decide_True by done. done.
Qed.
End lists.
