(* ===== verification/BcmCommit.v ===== *)
(** * Interconnect votes: what a commit leaves in the sleep and wake sets

    The voter on top of the RPMh client layer: the wake and sleep batches a commit
    caches, that client requests and commits keep voter and cache in step, and what
    the TCSes hold after the next flush. *)

From Stdlib Require Import Sorting.Sorted.
From S2P Require Import Prelude.
From S2P Require Import Kernel.
From S2P Require Import CmdDb.
From S2P Require Import RpmhRsc.
From S2P Require Import RpmhTcs.
From S2P Require Import Rpmh.
From S2P Require Import RpmhCache.
From S2P Require Import RpmhFlush.
From S2P Require Import Bcm.
From S2P Require Import BcmBatch.
From S2P Require Import BcmVoter.

Section commit.
Context (cfg : icc_cfg).
Abbreviation P := (MAX_RPMH_PAYLOAD cfg).
Context (Hpayload : 1 ≤ P).
Context `{D : Device} {SD : StorageDevice D} {B : BitmapSearch} {HB : BitmapSearchSpec B} (N C : Z).
Context {L : ListSort} {HL : ListSortSpec L}.
Abbreviation coherent := (coherent P N C).
Abbreviation batch := (batch P).

(** ** Caching one set *)
Definition among (l : list tcs_cmd) (a v : Z) : Prop := ∃ x, x ∈ l ∧ cmd_addr x = a ∧ cmd_data x = v.

Lemma sends_among m l a v : nth_cmd m <$> seqZ 0 (num_cmds m) = l → sends m a v ↔ among l a v.
Proof.
  intros <-. unfold sends, among. split.
  - intros (i & Hi & Ha & Hv). exists (nth_cmd m i). split; [|done]. apply list_elem_of_fmap. exists i.
    split; [done|]. apply elem_of_seqZ. lia.
  - intros (x & Hx & Ha & Hv). apply list_elem_of_fmap in Hx as (i & -> & Hi). apply elem_of_seqZ in Hi.
    exists i. split; [lia|done].
Qed.

Lemma write_batch_cached w st cmds n rs c :
  coherent rs c → st ≠ RPMH_ACTIVE_ONLY_STATE → n !!! 0%nat = Z.of_nat (length cmds) → 1 ≤ n !!! 0%nat ≤ P →
  ∃ rs', write_batch cfg false w st cmds n rs = (Done 0, rs') ∧ coherent rs' c ∧
    (∀ a v, sends (msg (batch (client (drv rs')) st)) a v ↔ among cmds a v) ∧
    (∀ st', st' ≠ st → st' ≠ RPMH_ACTIVE_ONLY_STATE → batch (client (drv rs')) st' = batch (client (drv rs)) st').
Proof.
  intros HC Hst Hn Hle. pose proof (ch_ctrlr _ _ _ _ _ HC) as Hok.
  unfold write_batch, rpmh_write_batch, kgets. unfold kbind at 1.
  rewrite check_ctrlr_state_passive by done. cbn [negb Z.eqb]. rewrite bool_decide_false by done.
  destruct (__fill_rpmh_msg _ _ _ _ _) as [ret req] eqn:E.
  assert (ret = 0) as ->.
  { unfold __fill_rpmh_msg in E. rewrite (proj2 (Z.eqb_neq _ _)), (proj2 (Z.ltb_ge _ _)) in E by lia. by injection E. }
  destruct (fill_rpmh_msg_cmds P _ _ _ _ _ (eq_sym Hn) E) as [Hcm _].
  assert (batch_ok st (msg req)) as Hb.
  { unfold __fill_rpmh_msg in E. rewrite (proj2 (Z.eqb_neq _ _)), (proj2 (Z.ltb_ge _ _)) in E by lia.
    injection E as <-. split; [cbn; lia|]. split; [done|by right]. }
  eexists. split; [reflexivity|]. split_and!.
  - apply coherent_dirty; [done| |done]. by apply ctrlr_ok_batch.
  - intros a v. unfold Rpmh.batch. cbn. rewrite list_lookup_total_insert_eq; [by apply sends_among|].
    rewrite (ko_batches _ _ Hok). destruct st; [vm_compute; lia..|done].
  - intros st' Hne Hact. unfold Rpmh.batch. cbn. rewrite list_lookup_total_insert_ne; [done|]. by destruct st, st'.
Qed.

Lemma invalidate_empties rs c :
  coherent rs c → ∃ rs', rpmh_invalidate P false rs = (Done tt, rs') ∧ coherent rs' c ∧
    ∀ st a v, st ≠ RPMH_ACTIVE_ONLY_STATE → ¬ sends (msg (batch (client (drv rs')) st)) a v.
Proof.
  intros HC. pose proof (ko_batches _ _ (ch_ctrlr _ _ _ _ _ HC)) as Hlen.
  destruct (invalidate_coherent P N C rs c HC) as (rs' & Hrun & HC'). exists rs'. split_and!; [done..|].
  unfold rpmh_invalidate, mod_ctrlr, mod_drv, kmodify in Hrun. injection Hrun as <-.
  intros st a v Hst. unfold Rpmh.batch. cbn.
  destruct (batch_cache (client (drv rs))) as [|b1 [|b2 [|]]]; try done.
  destruct st; [apply sends_empty; done..|done].
Qed.
(** ** The wake and sleep sets *)
Definition set_bucket (st : rpmh_state) : Z :=
  match st with RPMH_SLEEP_STATE => QCOM_ICC_BUCKET_SLEEP cfg | RPMH_WAKE_ONLY_STATE => QCOM_ICC_BUCKET_WAKE cfg
              | RPMH_ACTIVE_ONLY_STATE => QCOM_ICC_BUCKET_AMC cfg end.

(** The sets cached for the BCMs [l], in this order. *)
Definition cached_sets (s : icc) (l : list nat) (rs : rsc) : Prop :=
  ∀ st a v, st ≠ RPMH_ACTIVE_ONLY_STATE →
    sends (msg (batch (client (drv rs)) st)) a v ↔ among (vcd_cmds cfg s (set_bucket st) l) a v.

(** The same commands for every BCM. *)
Definition same_cmds (s s' : icc) : Prop :=
  tcs_wait (voter s) = tcs_wait (voter s') ∧
  ∀ b, let x := icc_bcms s b in let y := icc_bcms s' b in
    vote_x x = vote_x y ∧ vote_y x = vote_y y ∧ addr x = addr y ∧ vcd x = vcd y.

Lemma same_cmds_bcms s s' : icc_bcms s = icc_bcms s' → tcs_wait (voter s) = tcs_wait (voter s') → same_cmds s s'.
Proof. intros Hb Hw. split; [done|]. intros b. by rewrite Hb. Qed.

Lemma vcd_cmds_ext s s' bucket l : same_cmds s s' → vcd_cmds cfg s bucket l = vcd_cmds cfg s' bucket l.
Proof.
  intros [Hw Hb]. induction l as [|b l IH]; cbn [vcd_cmds]; [done|]. rewrite IH. f_equal.
  assert (commits s b l = commits s' b l) as ->.
  { destruct l as [|c l]; cbn; [done|]. unfold key. by rewrite (proj2 (proj2 (proj2 (Hb b)))), (proj2 (proj2 (proj2 (Hb c)))). }
  unfold cmd_of. destruct (Hb b) as (-> & -> & -> & _). by rewrite Hw.
Qed.
Lemma cached_sets_ext s s' l rs : same_cmds s s' → cached_sets s l rs → cached_sets s' l rs.
Proof. intros He H st a v Hst. rewrite <-(vcd_cmds_ext s s') by done. by apply H. Qed.

(** Lists a commit can handle: they fit one payload. *)
Definition fits (s : icc) (l : list nat) : Prop :=
  len l ≤ P ∧ len l ≤ MAX_BCMS ∧ ∀ b, b ∈ l → 0 ≤ key s b < MAX_VCD.

Lemma vcd_size_le s l v : vcd_size s l v ≤ len l.
Proof. unfold vcd_size, len. pose proof (length_filter (λ b, key s b = v) l). lia. Qed.

(** The commands of a sorted list in one batch. *)
Lemma one_batch s bucket :
  let l := commit_list (voter s) in
  fits s l → sorted_vcd s l →
  ∃ n, tcs_list_gen cfg bucket s = Some (vcd_cmds cfg s bucket l, n) ∧
    n !!! 0%nat = Z.of_nat (length (vcd_cmds cfg s bucket l)) ∧ n !!! 0%nat = len l.
Proof.
  intros l (HP & Hmax & Hk) Hs.
  destruct (vcd_batches_spec cfg s bucket) as (parts & z & Hgen & Hcat & Hf & _ & Hone); [done..| |done|].
  { intros v. etransitivity; [apply vcd_size_le|done]. }
  exists (map len parts ++ replicate (S z) 0). split; [done|].
  assert ((map len parts ++ replicate (S z) 0) !!! 0%nat = len l) as Hn; [|by rewrite Hn, length_vcd_cmds].
  rewrite <-(parts_in_one_payload cfg parts l Hcat Hf (Hone HP)). by destruct parts.
Qed.

Lemma sort_commit_sorted s :
  commit_list (voter (sort_commit s)) ≡ₚ commit_list (voter s) ∧
  sorted_vcd (sort_commit s) (commit_list (voter (sort_commit s))).
Proof. split; [apply list_sort_perm|]. apply list_sort_sorted. Qed.

Lemma fits_perm s s' l l' : icc_bcms s = icc_bcms s' → l ≡ₚ l' → fits s l → fits s' l'.
Proof.
  intros Hb Hp (H1 & H2 & H3). unfold fits, len, key in *. rewrite <-Hb, <-Hp. split_and!; [done..|].
  intros b Hin. apply H3. by rewrite Hp.
Qed.

(** The BCMs a commit keeps on the list of wake and sleep votes. *)
Definition kept (s : icc) : list nat :=
  filter (λ b, negb (has_amc (voter s)) || differs cfg s b = true) (ws_list (voter s)).

Lemma fits_kept s : fits s (ws_list (voter s)) → fits s (kept s).
Proof.
  intros (H1 & H2 & H3). unfold fits, len in *. pose proof (length_filter (λ b, negb (has_amc (voter s)) || differs cfg s b = true) (ws_list (voter s))).
  unfold kept. split_and!; [lia..|]. intros b Hb. apply list_elem_of_filter in Hb as [_ Hb]. by apply H3.
Qed.

Lemma commit_wake_sleep_sets w ret s rs c :
  coherent rs c → fits s (ws_list (voter s)) →
  ∃ r l rs', commit_wake_sleep cfg false w ret s rs = (Done (r, upd_lists l (kept s) s), rs') ∧
    coherent rs' c ∧ r = (if decide (kept s = []) then ret else 0) ∧
    l ≡ₚ kept s ∧ sorted_vcd s l ∧ cached_sets s l rs'.
Proof.
  intros HC Hfit. unfold commit_wake_sleep. fold (kept s).
  destruct (invalidate_empties rs c HC) as (rs0 & Hinv & HC0 & Hempty). rewrite (kbind_Done _ _ _ _ _ Hinv).
  case_bool_decide as Hk.
  { exists ret, [], rs0. rewrite Hk. split_and!; [done..| |]; [constructor|].
    intros st a v Hst. split; [intros H; by apply Hempty in H|]. intros (x & Hx & _). by apply not_elem_of_nil in Hx. }
  set (s1 := sort_commit (upd_lists (kept s) (kept s) s)).
  destruct (sort_commit_sorted (upd_lists (kept s) (kept s) s)) as [Hp Hs]. fold s1 in Hp, Hs. change (commit_list (voter s1) ≡ₚ kept s) in Hp.
  assert (fits s1 (commit_list (voter s1))) as Hf by (by eapply fits_perm; [..|by apply fits_kept]).
  assert (1 ≤ len (commit_list (voter s1)) ≤ P) as Hlen.
  { split; [|apply Hf]. unfold len. rewrite Hp. destruct (kept s); [done|cbn; lia]. }
  destruct (one_batch s1 (QCOM_ICC_BUCKET_WAKE cfg) Hf Hs) as (n1 & Hg1 & Hn1 & Hn1'). rewrite Hg1.
  destruct (write_batch_cached w RPMH_WAKE_ONLY_STATE _ n1 rs0 c HC0 ltac:(done) Hn1 ltac:(lia)) as (rs1 & Hw1 & HC1 & Hb1 & _).
  rewrite (kbind_Done _ _ _ _ _ Hw1). cbn [negb Z.eqb].
  destruct (one_batch s1 (QCOM_ICC_BUCKET_SLEEP cfg) Hf Hs) as (n2 & Hg2 & Hn2 & Hn2'). rewrite Hg2.
  destruct (write_batch_cached w RPMH_SLEEP_STATE _ n2 rs1 c HC1 ltac:(done) Hn2 ltac:(lia)) as (rs2 & Hw2 & HC2 & Hb2 & Hb2').
  rewrite (kbind_Done _ _ _ _ _ Hw2).
  exists 0, (commit_list (voter s1)), rs2. rewrite decide_False by done. split_and!; [reflexivity|done..|].
  apply (cached_sets_ext s1); [done|]. intros [] a v Hst; cbn [set_bucket]; [by rewrite Hb2| |done].
  rewrite (Hb2' RPMH_WAKE_ONLY_STATE) by done. by rewrite Hb1.
Qed.
End commit.
