(* ===== verification/BcmSystem.v ===== *)
(** * Interconnect votes: from the clients' requests to the TCSes

    Any sequence of bandwidth requests, commits, other clients' RPMh votes and
    flushes: the votes of the BCMs not waiting are those of the bandwidth now
    requested, and after a flush the sleep and wake TCSes hold the votes
    of exactly the BCMs whose two votes differ. *)

From Stdlib Require Import Sorting.Sorted.
From S2P Require Import Prelude.
From S2P Require Import Kernel.
From S2P Require Import CmdDb.
From S2P Require Import RpmhRsc.
From S2P Require Import RpmhTcs.
From S2P Require Import Rpmh.
From S2P Require Import RpmhCache.
From S2P Require Import RpmhFlush.
From S2P Require Import RpmhActive.
From S2P Require Import Bcm.
From S2P Require Import BcmBatch.
From S2P Require Import BcmVoter.
From S2P Require Import BcmCommit.

(** Waiting BCMs added one by one. *)
Lemma adds_frame l s :
  registered (voter s) = true →
  let s' := foldl (λ s b, qcom_icc_bcm_voter_add b s) s l in
  icc_bcms s' = icc_bcms s ∧ icc_nodes s' = icc_nodes s ∧
  voter s' = set_lists (commit_list (voter s')) (ws_list (voter s')) (voter s) ∧
  ∀ b, b ∈ commit_list (voter s') ↔ b ∈ commit_list (voter s) ∨ b ∈ l.
Proof.
  revert s. induction l as [|a l IH]; intros s Hr; cbn [foldl].
  { split_and!; [done..| |]; [by destruct s as [? ? []]|]. set_solver. }
  assert (qcom_icc_bcm_voter_add a s = upd_lists (if decide (a ∈ commit_list (voter s)) then commit_list (voter s) else commit_list (voter s) ++ [a])
         (if decide (a ∈ ws_list (voter s)) then ws_list (voter s) else ws_list (voter s) ++ [a]) s) as E.
  { unfold qcom_icc_bcm_voter_add. by rewrite Hr. }
  rewrite E. destruct (IH (upd_lists (if decide (a ∈ commit_list (voter s)) then commit_list (voter s) else commit_list (voter s) ++ [a])
         (if decide (a ∈ ws_list (voter s)) then ws_list (voter s) else ws_list (voter s) ++ [a]) s) Hr) as (H1 & H2 & H3 & H4).
  split_and!; [done..| |]; [exact H3|]. intros b. rewrite H4. cbn [voter upd_lists set_lists commit_list].
  rewrite elem_add, elem_of_cons. naive_solver.
Qed.

Section system.
Context (cfg : icc_cfg).
Abbreviation P := (MAX_RPMH_PAYLOAD cfg).
Context (Hpayload : 1 ≤ P) (Hcfg : cfg_ok cfg).
Context `{D : Device} {SD : StorageDevice D} {B : BitmapSearch} {HB : BitmapSearchSpec B} (N C : Z).
Context {L : ListSort} {HL : ListSortSpec L}.
Abbreviation coherent := (coherent P N C).
Abbreviation tcs_holds := (tcs_holds N C).

(** ** Operations *)

(** The framework's [aggregate_requests]: the node is cleared and the requests of its
    paths, as tag, average and peak, are added up. *)
Definition aggregate_requests (i : nat) (reqs : list (Z * Z * Z)) (s : icc) : icc :=
  (foldl (λ '(s, x, y) '(tag, avg, peak), qcom_icc_aggregate cfg i tag avg peak x y s)
     (qcom_icc_pre_aggregate i s, 0, 0) reqs).1.1.

(** The votes of other clients of the controller do not use batches. *)
Inductive vop :=
  | Request (i : nat) (reqs : list (Z * Z * Z))
  | Commit (w : wb_env) (crm_write : nat → Z)
  | Qos_enable (w : wb_env) (crm_write : nat → Z) (b : nat)
  | Qos_disable (w : wb_env) (crm_write : nat → Z) (b : nat)
  | Other_async (st : rpmh_state) (cmd : option (list tcs_cmd)) (n : Z)
  | Other_write (compl : nat) (st : rpmh_state) (cmd : option (list tcs_cmd)) (n : Z)
  | Flush_sets (tb : timebase).

Definition run_vop (c : Z) (o : vop) (s : icc) : KM rsc icc :=
  match o with
  | Request i reqs => kret (aggregate_requests i reqs s)
  | Commit w cw => let* r := qcom_icc_bcm_voter_commit cfg false w cw s in kret r.1.2
  | Qos_enable w cw b => let* r := enable_qos_bcm cfg false w cw b s in kret r.2
  | Qos_disable w cw b => disable_qos_bcm cfg false w cw b s
  | Other_async st cmd n => run_call P c (Write_async st cmd n) ;;; kret s
  | Other_write compl st cmd n => run_call P c (Write compl st cmd n) ;;; kret s
  | Flush_sets tb => run_call P c (Flush tb) ;;; kret s
  end.
Fixpoint run_vops (c : Z) (l : list vop) (s : icc) : KM rsc icc :=
  match l with [] => kret s | o :: l => let* s := run_vop c o s in run_vops c l s end.

(** The active votes have TCSes of their own, what other code does while they wait keeps the
    controller coherent, and the write returns: a TCS becomes free and the hardware completes
    the request in time. *)
Definition amc_returns (c : Z) (w : wb_env) (s : icc) (rs : rsc) : Prop :=
  active_apart P N C c (drv rs) ∧
  Forall (meanwhile P N C c) (wb_tcs w) ∧ Forall (meanwhile P N C c) (wb_compl_env w) ∧
  ∀ cmds n, tcs_list_gen cfg (QCOM_ICC_BUCKET_AMC cfg) s = Some (cmds, n) → n !!! 0%nat ≠ 0 →
  ∃ r rs1, write_batch cfg false w RPMH_ACTIVE_ONLY_STATE cmds n rs = (Done r, rs1).

Definition commit_ok (c : Z) (w : wb_env) (s : icc) (rs : rsc) : Prop :=
  fits cfg s (ws_list (voter s)) ∧ amc_returns c w (sort_commit (aggregate_all cfg s)) rs.

Definition vop_ok (c : Z) (o : vop) (s : icc) (rs : rsc) : Prop :=
  match o with
  | Request _ _ | Flush_sets _ => True
  | Commit w _ => commit_ok c w s rs
  | Qos_enable w _ b => commit_ok c w (qcom_icc_bcm_voter_add b (upd_bcm b (set_keepalive true (icc_bcms s b)) s)) rs
  | Qos_disable w _ b => commit_ok c w (qcom_icc_bcm_voter_add b s) rs
  | Other_async st cmd n | Other_write _ st cmd n => set_ok st cmd n
  end.
Fixpoint vops_ok (c : Z) (l : list vop) (s : icc) (rs : rsc) : Prop :=
  match l with
  | [] => True
  | o :: l => vop_ok c o s rs ∧ ∀ s' rs', run_vop c o s rs = (Done s', rs') → vops_ok c l s' rs'
  end.

(** ** The invariant *)
Definition of_rpmh (s : icc) : Prop :=
  registered (voter s) = true ∧ crm (voter s) = None ∧ has_amc (voter s) = true.

(** The nodes know the BCMs they belong to. *)
Definition linked (s : icc) : Prop := ∀ i b, i ∈ nodes (icc_bcms s b) → b ∈ bcms (icc_nodes s i).

(** The votes of the BCMs not waiting, but for those in [X], are those of the requests. *)
Definition fresh (X : list nat) (s : icc) : Prop :=
  ∀ b k, b ∉ X → b ∉ commit_list (voter s) → k ∈ buckets cfg →
    (vote_x (icc_bcms s b) k, vote_y (icc_bcms s b) k) = bcm_votes cfg s (icc_bcms s b) k.

(** The cached sets are those of the BCMs that differ, by VCD. *)
Definition synced (s : icc) (rs : rsc) : Prop :=
  ∃ l, NoDup l ∧ (∀ b, b ∈ l ↔ differs cfg s b = true) ∧ sorted_vcd s l ∧ cached_sets cfg s l rs.

Record system_inv (X : list nat) (c : Z) (s : icc) (rs : rsc) : Prop := {
  si_voter : voter_inv cfg s;
  si_rpmh : of_rpmh s;
  si_linked : linked s;
  si_fresh : fresh X s;
  si_coherent : coherent rs c;
  si_synced : synced s rs;
}.

(** ** Requests *)
(** What a request leaves and changes. *)
Definition requested (i : nat) (s s' : icc) : Prop :=
  icc_bcms s' = icc_bcms s ∧ (∀ j, j ≠ i → icc_nodes s' j = icc_nodes s j) ∧ bcms (icc_nodes s' i) = bcms (icc_nodes s i) ∧
  voter s' = set_lists (commit_list (voter s')) (ws_list (voter s')) (voter s) ∧
  ∀ b, b ∈ commit_list (voter s') ↔ b ∈ commit_list (voter s) ∨ b ∈ bcms (icc_nodes s i).

Lemma pre_aggregate_requested i s : registered (voter s) = true → requested i s (qcom_icc_pre_aggregate i s).
Proof.
  intros Hr. unfold qcom_icc_pre_aggregate.
  destruct (adds_frame (bcms (icc_nodes s i)) (upd_node i (set_bw (λ _, 0) (λ _, 0) (λ _, false) (icc_nodes s i)) s) Hr)
    as (H1 & H2 & H3 & H4).
  split_and!; [done| | |exact H3|done].
  - intros j Hj. rewrite H2. cbn. by rewrite fn_lookup_insert_ne.
  - rewrite H2. cbn. by rewrite fn_lookup_insert.
Qed.

Lemma aggregate_requested i tag a p x y s s' :
  requested i s s' → requested i s (qcom_icc_aggregate cfg i tag a p x y s').1.1.
Proof.
  intros (H1 & H2 & H3 & H4 & H5). unfold qcom_icc_aggregate. cbn. split_and!; [done| | |done..].
  - intros j Hj. cbn. rewrite fn_lookup_insert_ne by done. by apply H2.
  - cbn. rewrite fn_lookup_insert. done.
Qed.

Lemma requests_keep (Q : icc → Prop) i reqs s :
  (∀ s tag a p x y, Q s → Q (qcom_icc_aggregate cfg i tag a p x y s).1.1) →
  Q (qcom_icc_pre_aggregate i s) → Q (aggregate_requests i reqs s).
Proof.
  intros Hstep. unfold aggregate_requests. generalize (qcom_icc_pre_aggregate i s) as s0.
  generalize 0 at 1 as x. generalize 0 as y.
  induction reqs as [|[[tag a] p] reqs IH]; intros y x s0 H; cbn [foldl]; [done|].
  pose proof (Hstep s0 tag a p x y H) as H'. destruct (qcom_icc_aggregate cfg i tag a p x y s0) as [[s1 x1] y1].
  by apply IH.
Qed.

Lemma requests_requested i reqs s : registered (voter s) = true → requested i s (aggregate_requests i reqs s).
Proof.
  intros Hr. apply (requests_keep (requested i s)); [intros; by apply aggregate_requested|by apply pre_aggregate_requested].
Qed.
Lemma requests_voter_inv i reqs s : voter_inv cfg s → voter_inv cfg (aggregate_requests i reqs s).
Proof. intros H. apply requests_keep; [intros; by apply aggregate_inv|by apply pre_aggregate_inv]. Qed.

Lemma request_inv X c i reqs s rs : system_inv X c s rs → system_inv X c (aggregate_requests i reqs s) rs.
Proof.
  intros [Hv (Hr & Hc & Ha) Hl Hf HC (l & H1 & H2 & H3 & H4)].
  destruct (requests_requested i reqs s Hr) as (E1 & E2 & E3 & E4 & E5).
  pose proof (requests_voter_inv i reqs s Hv) as Hv'.
  set (s' := aggregate_requests i reqs s) in *.
  split; [done| | | |done|].
  - unfold of_rpmh. by rewrite E4.
  - intros j b Hj. rewrite E1 in Hj. apply Hl in Hj. destruct (decide (j = i)) as [->|Hne]; [by rewrite E3|by rewrite E2].
  - intros b k HX Hb Hk. rewrite E1. rewrite E5 in Hb. rewrite Hf by tauto. apply bcm_votes_ext.
    intros j Hj. symmetry. apply E2. intros ->. apply Hb. right. by apply Hl.
  - exists l. split_and!; [done| | |].
    + intros b. rewrite H2. by rewrite (differs_bcm cfg s' s) by (by rewrite E1).
    + unfold sorted_vcd, key. by rewrite E1.
    + eapply cached_sets_ext; [|exact H4]. apply same_cmds_bcms; [done|by rewrite E4].
Qed.

(** ** Commits *)
Lemma aggregate_bcm_links s b : nodes (aggregate_bcm cfg s b) = nodes b.
Proof. unfold aggregate_bcm, bcm_aggregate_mask, bcm_aggregate. by destruct (_ || _). Qed.
Lemma aggregate_bcm_vcd s b : vcd (aggregate_bcm cfg s b) = vcd b.
Proof. unfold aggregate_bcm, bcm_aggregate_mask, bcm_aggregate. by destruct (_ || _). Qed.

(** A BCM after the aggregation. *)
Lemma aggregate_all_bcm s b :
  NoDup (commit_list (voter s)) →
  icc_bcms (aggregate_all cfg s) b =
  if decide (b ∈ commit_list (voter s)) then aggregate_bcm cfg s (icc_bcms s b) else icc_bcms s b.
Proof.
  intros Hnd. case_decide; [by apply aggregate_all_votes|]. by apply aggregate_all_frame.
Qed.
Lemma aggregate_all_key s b : NoDup (commit_list (voter s)) → key (aggregate_all cfg s) b = key s b.
Proof. intros Hnd. unfold key. rewrite aggregate_all_bcm by done. case_decide; [apply aggregate_bcm_vcd|done]. Qed.

(** What holds as soon as every waiting BCM is aggregated and none waits. *)
Lemma committed_facts X X' s s' ws :
  voter_inv cfg s → of_rpmh s → linked s → fresh X s → (∀ b, b ∈ X → b ∈ commit_list (voter s) ∨ b ∈ X') →
  icc_nodes s' = icc_nodes s → icc_bcms s' = icc_bcms (aggregate_all cfg s) → voter s' = set_lists [] ws (voter s) →
  of_rpmh s' ∧ linked s' ∧ fresh X' s'.
Proof.
  intros Hv Hr Hl Hf HX En Eb Ev. pose proof (vi_commit _ _ Hv) as Hnd. split_and!.
  - unfold of_rpmh. by rewrite Ev.
  - intros i b. rewrite En, Eb, aggregate_all_bcm by done. case_decide; [rewrite aggregate_bcm_links|]; apply Hl.
  - intros b k Hb' _ Hk. assert (same_nodes s' s (nodes (icc_bcms s' b))) as Hs by (intros i _; by rewrite En).
    rewrite (bcm_votes_ext cfg s' s) by done. rewrite Eb, aggregate_all_bcm by done. case_decide as Hb.
    + rewrite bcm_votes_again by done. done.
    + apply Hf; [|done..]. intros Hin. by destruct (HX b Hin).
Qed.

Lemma fits_commit s : voter_inv cfg s → fits cfg s (ws_list (voter s)) → fits cfg s (commit_list (voter s)).
Proof.
  intros [Hc Hw Hsub _] (H1 & H2 & H3). unfold len in *.
  assert (length (commit_list (voter s)) ≤ length (ws_list (voter s)))%nat.
  { apply submseteq_length, NoDup_submseteq; done. }
  split_and!; [unfold len; lia..|]. intros b Hb. by apply H3, Hsub.
Qed.

Lemma differs_kept s b : of_rpmh s → voter_inv cfg s → b ∈ kept cfg s ↔ differs cfg s b = true.
Proof.
  intros (_ & _ & Ha) Hv. unfold kept. rewrite list_elem_of_filter, Ha. cbn [negb orb]. split; [by intros []|].
  intros H. split; [done|]. by apply (vi_differs _ _ Hv).
Qed.

(** A commit of an RPMh voter: what it answers, and the lists and sets it leaves. *)
Lemma commit_rpmh_run c w s rs :
  voter_inv cfg s → of_rpmh s → coherent rs c → fits cfg s (ws_list (voter s)) → amc_returns c w (sort_commit s) rs →
  commit_list (voter s) = [] ∧ commit_rpmh cfg false w s rs = (Done (0, sort_commit s), rs) ∨
  ∃ r l rs', commit_rpmh cfg false w s rs = (Done (r, upd_lists l (kept cfg s) s), rs') ∧
    coherent rs' c ∧ l ≡ₚ kept cfg s ∧ sorted_vcd s l ∧ cached_sets cfg s l rs'.
Proof.
  intros Hv Hr HC Hfit Hamc. unfold commit_rpmh. rewrite (proj2 (proj2 Hr)). set (s1 := sort_commit s) in *.
  destruct (sort_commit_sorted s) as [Hp Hs]. fold s1 in Hp, Hs.
  assert (fits cfg s1 (commit_list (voter s1))) as Hf by (by eapply fits_perm; [..|by apply fits_commit]).
  destruct (one_batch cfg Hpayload s1 (QCOM_ICC_BUCKET_AMC cfg) Hf Hs) as (n & Hg & _ & Hn). rewrite Hg.
  destruct (Z.eqb_spec (n !!! 0%nat) 0) as [Hz|Hnz].
  - left. split; [|done]. rewrite Hz in Hn. unfold len in Hn. apply length_zero_iff_nil. rewrite <-Hp. lia.
  - right. destruct Hamc as (Haa & He1 & He2 & Hret). destruct (Hret _ _ Hg Hnz) as (r & rs1 & Hw). rewrite (kbind_Done _ _ _ _ _ Hw).
    assert (1 ≤ n !!! 0%nat ≤ P) as Hrange by (rewrite Hn in *; destruct Hf as [? _]; unfold len in *; lia).
    destruct (write_batch_active P N C c _ _ _ _ _ _ _ _ _ _ HC Haa He1 He2 Hrange Hw) as [[HC1 _ _ _] Hr1].
    assert (negb (r =? 0) && negb (r =? - EBUSY) = false) as -> by (destruct Hr1 as [-> | ->]; reflexivity).
    destruct (commit_wake_sleep_sets cfg Hpayload N C w r s1 rs1 c HC1 Hfit) as (r2 & l & rs2 & Hrun & HC2 & _ & Hl & Hsl & Hset).
    exists r2, l, rs2. rewrite Hrun. split_and!; done.
Qed.

Lemma commit_inv X X' c w cw s rs :
  system_inv X c s rs → commit_ok c w s rs → (∀ b, b ∈ X → b ∈ commit_list (voter s) ∨ b ∈ X') →
  ∃ r s' rs', qcom_icc_bcm_voter_commit cfg false w cw s rs = (Done (r, s', []), rs') ∧
    system_inv X' c s' rs' ∧ commit_list (voter s') = [].
Proof.
  intros [Hv Hr Hl Hf HC Hsy] [Hfit Hamc] HX. unfold qcom_icc_bcm_voter_commit. rewrite (proj1 Hr). cbn [negb].
  destruct (aggregate_all_frame cfg s) as (En & Ev & _). rewrite Ev, (proj1 (proj2 Hr)).
  set (s0 := aggregate_all cfg s) in *.
  assert (voter_inv cfg s0) as Hv0 by (by apply aggregate_all_inv).
  assert (of_rpmh s0) as Hr0 by (unfold of_rpmh; by rewrite Ev).
  assert (fits cfg s0 (ws_list (voter s0))) as Hfit0.
  { rewrite Ev. destruct Hfit as (? & ? & Hk). split_and!; [done..|]. intros b Hb. unfold s0.
    rewrite aggregate_all_key by apply Hv. by apply Hk. }
  destruct (commit_rpmh_run c w s0 rs Hv0 Hr0 HC Hfit0 Hamc) as [[Hnil Hrun]|(r & l & rs' & Hrun & HC' & Hp & Hs & Hset)];
    rewrite (kbind_Done _ _ _ _ _ Hrun); (eexists _, _, _; split; [reflexivity|]; split; [|done]).
  - assert (s0 = s) as E0 by (unfold s0, aggregate_all; rewrite Ev in Hnil; by rewrite Hnil).
    match goal with |- system_inv X' c ?s' rs => destruct (committed_facts X X' s s' (ws_list (voter s)) Hv Hr Hl Hf HX) as (K1 & K2 & K3) end;
      [by rewrite <-En|done|cbn; by rewrite Ev|].
    destruct Hv0 as [V1 V2 V3 V4]. rewrite E0 in *. destruct Hsy as (l & H1 & H2 & H3 & H4). split; [|done..|].
    + split; cbn; [constructor|done| |done]. intros b Hb. by apply not_elem_of_nil in Hb.
    + exists l. split_and!; [done..|]. by eapply cached_sets_ext; [|exact H4].
  - match goal with |- system_inv X' c ?s' rs' => destruct (committed_facts X X' s s' (kept cfg s0) Hv Hr Hl Hf HX) as (K1 & K2 & K3) end;
      [done|done|cbn; by rewrite Ev|].
    assert (NoDup (kept cfg s0)) as Hnd by (apply list.NoDup_filter, Hv0).
    split; [|done..|].
    + split; cbn; [constructor|done| |]; [intros b Hb; by apply not_elem_of_nil in Hb|].
      intros b Hb. by apply differs_kept.
    + exists l. split_and!; [by rewrite Hp| |done|by eapply cached_sets_ext; [|exact Hset]].
      intros b. transitivity (b ∈ kept cfg s0); [by rewrite Hp|exact (differs_kept s0 b Hr0 Hv0)].
Qed.

(** ** The other calls *)
Lemma synced_batch s rs rs' :
  batch_cache (client (drv rs')) = batch_cache (client (drv rs)) → synced s rs → synced s rs'.
Proof.
  intros E (l & H1 & H2 & H3 & H4). exists l. split_and!; [done..|]. intros st a v Hst.
  rewrite (batch_eq P _ _ st E). by apply H4.
Qed.

Lemma system_inv_rsc X c s rs rs' :
  system_inv X c s rs → coherent rs' c → batch_cache (client (drv rs')) = batch_cache (client (drv rs)) →
  system_inv X c s rs'.
Proof. intros [Hv Hr Hl Hf HC Hsy] HC' E. split; [done..|]. by eapply synced_batch. Qed.

Lemma call_inv X c k s rs :
  system_inv X c s rs →
  (match k with Write_async st cmd n | Write _ st cmd n => set_ok st cmd n | Flush _ => True | _ => False end) →
  ∃ rs', run_call P c k rs = (Done tt, rs') ∧ system_inv X c s rs'.
Proof.
  intros HI Hk. pose proof (si_coherent _ _ _ _ HI) as HC.
  destruct k as [st cmd n|compl st cmd n| | |tb]; try done; cbn [run_call];
    [edestruct (write_async_coherent P N C rs c st cmd n HC Hk) as (r & rs' & Hrun & HC' & E)
    |edestruct (write_coherent P N C rs c compl st cmd n HC Hk) as (r & rs' & Hrun & HC' & E)
    |edestruct (flush_coherent P Hpayload N C tb rs c HC) as (r & rs' & Hrun & HC' & E)];
    exists rs'; rewrite (kbind_Done _ _ _ _ _ Hrun); (split; [done|by eapply system_inv_rsc]).
Qed.

(** ** QoS proxies *)
Lemma keepalive_inv X c b k s rs :
  system_inv X c s rs → system_inv (b :: X) c (upd_bcm b (set_keepalive k (icc_bcms s b)) s) rs.
Proof.
  intros [[V1 V2 V3 V4] Hr Hl Hf HC (l & H1 & H2 & H3 & H4)].
  set (s' := upd_bcm b _ s).
  assert (∀ x, x ≠ b → icc_bcms s' x = icc_bcms s x) as Hne by (intros x Hx; cbn; by rewrite fn_lookup_insert_ne).
  assert (icc_bcms s' b = set_keepalive k (icc_bcms s b)) as Hb by (cbn; by rewrite fn_lookup_insert).
  assert (∀ x, differs cfg s' x = differs cfg s x ∧ key s' x = key s x ∧ nodes (icc_bcms s' x) = nodes (icc_bcms s x)) as Hx.
  { intros x. unfold differs, key. destruct (decide (x = b)) as [->|Hn]; [by rewrite Hb|by rewrite (Hne x)]. }
  split; [|done| | |done|].
  - split; try done. intros x. rewrite (proj1 (Hx x)). apply V4.
  - intros i x. rewrite (proj2 (proj2 (Hx x))). apply Hl.
  - intros x q HX Hc Hq. apply not_elem_of_cons in HX as [Hn HX]. rewrite (Hne x) by done. by apply Hf.
  - exists l. split_and!; [done| | |].
    + intros x. by rewrite (proj1 (Hx x)).
    + eapply sorted_vcd_ext; [|exact H3]. intros x. symmetry. apply Hx.
    + eapply cached_sets_ext; [|exact H4]. split; [done|]. intros x.
      destruct (decide (x = b)) as [->|Hn]; [by rewrite Hb|by rewrite (Hne x)].
Qed.

Lemma add_inv X c b s rs :
  system_inv X c s rs →
  system_inv X c (qcom_icc_bcm_voter_add b s) rs ∧ b ∈ commit_list (voter (qcom_icc_bcm_voter_add b s)).
Proof.
  intros [Hv Hr Hl Hf HC (l & H1 & H2 & H3 & H4)]. destruct (adds_frame [b] s (proj1 Hr)) as (E1 & E2 & E3 & E4).
  cbn [foldl] in *. pose proof (voter_add_inv cfg b s Hv) as Hv'. set (s' := qcom_icc_bcm_voter_add b s) in *.
  split; [|apply E4; right; by left]. split; [done| | | |done|].
  - unfold of_rpmh. by rewrite E3.
  - intros i x. rewrite E1, E2. apply Hl.
  - intros x k HX Hc Hk. rewrite E4 in Hc. rewrite E1, Hf by tauto. apply bcm_votes_ext. intros i _. by rewrite E2.
  - exists l. split_and!; [done| | |].
    + intros x. rewrite H2. by rewrite (differs_bcm cfg s' s) by (by rewrite E1).
    + unfold sorted_vcd, key. by rewrite E1.
    + eapply cached_sets_ext; [|exact H4]. apply same_cmds_bcms; [done|by rewrite E3].
Qed.

(** ** Every run *)

(** The BCMs that hold a proxy vote after [l]. *)
Definition proxied (X : list nat) (o : vop) : list nat :=
  match o with
  | Qos_enable _ _ b => b :: X
  | Qos_disable _ _ b => filter (λ x, x ≠ b) X
  | _ => X
  end.

Lemma vop_inv X c o s rs :
  system_inv X c s rs → vop_ok c o s rs →
  ∃ s' rs', run_vop c o s rs = (Done s', rs') ∧ system_inv (proxied X o) c s' rs'.
Proof.
  intros HI Ho. destruct o as [i reqs|w cw|w cw b|w cw b|st cmd n|compl st cmd n|tb]; cbn [run_vop proxied].
  - eexists _, _. split; [done|]. by apply request_inv.
  - destruct (commit_inv X X c w cw s rs HI Ho) as (r & s' & rs' & Hrun & HI' & _); [by right|].
    rewrite (kbind_Done _ _ _ _ _ Hrun). by exists s', rs'.
  - destruct (add_inv _ c b _ rs (keepalive_inv X c b true s rs HI)) as [HI1 Hb].
    destruct (commit_inv _ X c w cw _ rs HI1 Ho) as (r & s' & rs' & Hrun & HI' & _).
    { intros x Hx. apply elem_of_cons in Hx as [->|Hx]; [by left|by right]. }
    unfold enable_qos_bcm. rewrite (kbind_Done _ _ _ _ _ (kbind_Done _ _ _ _ _ Hrun)).
    eexists _, _. split; [reflexivity|]. by apply keepalive_inv.
  - destruct (add_inv X c b s rs HI) as [HI1 Hb].
    destruct (commit_inv X (filter (λ x, x ≠ b) X) c w cw _ rs HI1 Ho) as (r & s' & rs' & Hrun & HI' & _).
    { intros x Hx. destruct (decide (x = b)) as [->|Hn]; [by left|right]. by apply list_elem_of_filter. }
    unfold disable_qos_bcm. rewrite (kbind_Done _ _ _ _ _ Hrun). by exists s', rs'.
  - destruct (call_inv X c (Write_async st cmd n) s rs HI Ho) as (rs' & Hrun & HI').
    rewrite (kbind_Done _ _ _ _ _ Hrun). by exists s, rs'.
  - destruct (call_inv X c (Write compl st cmd n) s rs HI Ho) as (rs' & Hrun & HI').
    rewrite (kbind_Done _ _ _ _ _ Hrun). by exists s, rs'.
  - destruct (call_inv X c (Flush tb) s rs HI I) as (rs' & Hrun & HI').
    rewrite (kbind_Done _ _ _ _ _ Hrun). by exists s, rs'.
Qed.

Lemma vops_inv X c l s rs :
  system_inv X c s rs → vops_ok c l s rs →
  ∃ s' rs', run_vops c l s rs = (Done s', rs') ∧ system_inv (foldl proxied X l) c s' rs'.
Proof.
  revert X s rs. induction l as [|o l IH]; intros X s rs HI Hl; cbn [run_vops foldl]; [by exists s, rs|].
  destruct Hl as [Ho Hl]. destruct (vop_inv X c o s rs HI Ho) as (s1 & rs1 & Hrun & HI1).
  rewrite (kbind_Done _ _ _ _ _ Hrun). apply IH; [done|]. by apply Hl.
Qed.

(** ** QoS configuration *)
Definition qos_ops (w : wb_env) (cw : nat → Z) (needs : nat → bool) (l : list nat) : list vop :=
  map (Qos_enable w cw) (filter (λ b, needs b = true) l) ++ map (Qos_disable w cw) (filter (λ b, needs b = true) l).

Lemma disable_qos_ops c w cw needs l s rs :
  disable_qos_deps cfg false w cw needs l s rs = run_vops c (map (Qos_disable w cw) (filter (λ b, needs b = true) l)) s rs.
Proof.
  revert s rs. induction l as [|b l IH]; intros s rs; [done|]. cbn [disable_qos_deps]. rewrite filter_cons.
  destruct (needs b) eqn:E; [rewrite decide_True by done|rewrite decide_False by done].
  - cbn [map run_vops]. unfold kbind. cbn [run_vop]. by destruct (disable_qos_bcm _ _ _ _ _ s rs) as [[] ?].
  - rewrite <-IH. done.
Qed.

Lemma enable_qos_ops c w cw needs clk l s rs s' rs' :
  enable_qos_deps cfg false w cw needs clk l s rs = (Done (0, s'), rs') →
  run_vops c (map (Qos_enable w cw) (filter (λ b, needs b = true) l)) s rs = (Done s', rs').
Proof.
  revert s rs. induction l as [|b l IH]; intros s rs; cbn [enable_qos_deps]; [by intros [= _ <- <-]|]. rewrite filter_cons.
  destruct (needs b) eqn:E; [rewrite decide_True by done|rewrite decide_False by done; apply IH].
  cbn [map run_vops run_vop]. unfold kbind. destruct (enable_qos_bcm _ _ _ _ _ s rs) as [[[r s1]| | |] rs1]; try done. cbn [fst snd].
  destruct (Z.eqb_spec r 0) as [->|Hr]; cbn [negb]; [apply IH|]. intros [= ? _ _]. done.
Qed.

Lemma run_vops_app c l1 l2 s rs :
  run_vops c (l1 ++ l2) s rs = (let* s := run_vops c l1 s in run_vops c l2 s) rs.
Proof.
  revert s rs. induction l1 as [|o l IH]; intros s rs; [done|]. cbn [app run_vops]. unfold kbind at 1 2 3.
  by destruct (run_vop c o s rs) as [[s1| | |] rs1].
Qed.

Lemma proxied_qos w cw l : foldl proxied [] (map (Qos_enable w cw) l ++ map (Qos_disable w cw) l) = [].
Proof.
  rewrite foldl_app.
  assert (∀ l X, foldl proxied X (map (Qos_enable w cw) l) = rev l ++ X) as He.
  { intros l'. induction l' as [|b l' IH]; intros X; [done|]. cbn [map foldl proxied rev]. rewrite IH, <-app_assoc. done. }
  assert (∀ l X, (∀ b, b ∈ X → b ∈ l) → foldl proxied X (map (Qos_disable w cw) l) = []) as Hd.
  { intros l'. induction l' as [|b l' IH]; intros X HX; cbn [map foldl proxied].
    - destruct X as [|x X]; [done|]. exfalso. apply (not_elem_of_nil x), HX. by left.
    - apply IH. intros x Hx. apply list_elem_of_filter in Hx as [Hn Hx]. apply HX, elem_of_cons in Hx. naive_solver. }
  rewrite He, app_nil_r. apply Hd. intros b. rewrite !list_elem_of_In. by rewrite <-in_rev.
Qed.

(** The QoS settings leave no proxy vote: when the configuration succeeds the system is
    as good as before it. *)
Lemma configure_qos_inv c w cw needs clk l s rs s' rs' :
  system_inv [] c s rs → vops_ok c (qos_ops w cw needs l) s rs →
  qcom_icc_rpmh_configure_qos cfg false w cw needs clk l s rs = (Done (0, s'), rs') → system_inv [] c s' rs'.
Proof.
  intros HI Hok Hrun. destruct (vops_inv [] c _ s rs HI Hok) as (s2 & rs2 & Hr & HI2).
  unfold qos_ops in *. rewrite proxied_qos in HI2. rewrite run_vops_app in Hr.
  unfold qcom_icc_rpmh_configure_qos in Hrun. unfold kbind in Hrun, Hr.
  destruct (enable_qos_deps cfg false w cw needs clk l s rs) as [[[r1 s1]| | |] rs1] eqn:E1; try done. cbn [fst snd] in Hrun.
  destruct (Z.eqb_spec r1 0) as [->|Hn]; cbn [negb] in Hrun; [|by injection Hrun].
  rewrite (enable_qos_ops c _ _ _ _ _ _ _ _ _ E1) in Hr. rewrite <-disable_qos_ops in Hr. rewrite Hr in Hrun.
  by injection Hrun as <- <-.
Qed.

(** What the sleep and wake TCSes are to hold: the votes of the BCMs [l] and the
    other clients' votes. *)
Definition voted (s : icc) (l : list nat) (k : rpmh_ctrlr) (t : nat) (a v : Z) : Prop :=
  (∃ st, st ≠ RPMH_ACTIVE_ONLY_STATE ∧ sw_type st = t ∧ among (vcd_cmds cfg s (set_bucket cfg st) l) a v) ∨
  cached_cmds k t a v.

Lemma flush_voted X c tb s rs :
  system_inv X c s rs →
  ∃ r rs', rpmh_flush P false tb c rs = (Done r, rs') ∧
    (r = - ENOMEM ∨ r = 0 ∧ ∃ l, NoDup l ∧ (∀ b, b ∈ l ↔ differs cfg s b = true) ∧ sorted_vcd s l ∧
       tcs_holds rs' c (voted s l (client (drv rs)))).
Proof.
  intros [_ _ _ _ HC (l & H1 & H2 & H3 & H4)].
  assert (∀ rs', tcs_holds rs' c (flush_cmds P (client (drv rs))) → tcs_holds rs' c (voted s l (client (drv rs)))) as Hext.
  { intros rs' HT. eapply tcs_holds_ext; [exact HT|]. intros t a v _. apply or_iff_compat_r, exist_proper. intros st.
    split; intros (? & ? & H); (split_and!; [done..|]); by apply H4. }
  destruct (dirty (client (drv rs))) eqn:Hd.
  - pose proof HC as [[Q HQ] Hok Hnc _].
    destruct (rpmh_flush_spec P Hpayload N C tb c rs Q HQ Hok Hd Hnc) as (r & rs' & Hrun & Hcase).
    exists r, rs'. split; [done|]. destruct Hcase as [(-> & _ & HT)|(-> & _)]; [right; split; [done|]; exists l; eauto|by left].
  - exists 0, rs. split; [apply rpmh_flush_clean; [done|apply HC]|]. right. split; [done|]. exists l.
    split_and!; [done..|]. by apply Hext, (ch_clean _ _ _ _ _ HC).
Qed.

(** The votes of a BCM in a bucket. *)
Definition votes_at (s : icc) (b : nat) (k : Z) : Z * Z := (vote_x (icc_bcms s b) k, vote_y (icc_bcms s b) k).

Lemma differs_votes s b :
  differs cfg s b = true ↔ votes_at s b (QCOM_ICC_BUCKET_WAKE cfg) ≠ votes_at s b (QCOM_ICC_BUCKET_SLEEP cfg).
Proof.
  unfold differs, votes_at. rewrite orb_true_iff, !negb_true_iff, !Z.eqb_neq, pair_equal_spec. lia.
Qed.

(** C12: bandwidth requests reach the hardware. Start with a registered RPMh voter (without
    CRM) that sends active votes, in step with the controller (after probe, with all BCMs
    waiting for their first commit, say), and take any sequence of requests of clients,
    commits, proxy votes for QoS settings, sleep and wake votes of other drivers and flushes.
    Every call returns; the votes of every BCM not waiting and without a proxy vote are the
    aggregation of the bandwidth its nodes ask for now; and the next flush either lacks room
    (-ENOMEM) or leaves in the sleep and wake TCSes exactly the sleep and wake commands of the
    BCMs whose two votes differ, ordered by VCD with the commit bit on the last of each, and
    the other drivers' votes. The conditions ([vops_ok], [coherent]): at every commit the BCMs
    that may differ fit one RPMh payload, with VCDs in range, and the active write returns,
    that is, a TCS becomes free and the completion comes in time; the active TCSes are not the
    sleep and wake ones and take a whole payload ([active_apart]); what other code does while
    the write waits keeps the controller coherent ([meanwhile]; the write itself is proved
    to); other drivers' votes are not 0xFFFFFFFF, their arrays are as long as announced and
    they write no batches; there is no control TCS. *)
Theorem bandwidth_reaches_tcs c ops s rs tb :
  system_inv [] c s rs → vops_ok c ops s rs →
  ∃ s' rs', run_vops c ops s rs = (Done s', rs') ∧
    (∀ b k, b ∉ foldl proxied [] ops → b ∉ commit_list (voter s') → k ∈ buckets cfg →
       votes_at s' b k = bcm_votes cfg s' (icc_bcms s' b) k) ∧
    ∃ r rs2, rpmh_flush P false tb c rs' = (Done r, rs2) ∧
      (r = - ENOMEM ∨ r = 0 ∧ ∃ l, NoDup l ∧ (∀ b, b ∈ l ↔ votes_at s' b (QCOM_ICC_BUCKET_WAKE cfg) ≠ votes_at s' b (QCOM_ICC_BUCKET_SLEEP cfg)) ∧
         sorted_vcd s' l ∧ tcs_holds rs2 c (voted s' l (client (drv rs')))).
Proof.
  intros HI Hops. destruct (vops_inv [] c ops s rs HI Hops) as (s' & rs' & Hrun & HI'). exists s', rs'.
  split; [done|]. split; [apply HI'|].
  destruct (flush_voted _ c tb s' rs' HI') as (r & rs2 & Hfl & Hcase). exists r, rs2. split; [done|].
  destruct Hcase as [|(? & l & ? & Hl & ?)]; [by left|right]. split; [done|]. exists l. split; [done|]. split; [|done].
  intros b. rewrite Hl. apply differs_votes.
Qed.
End system.
