(* ===== verification/BcmVotes.v ===== *)
(** * Interconnect votes: the arithmetic

    The bandwidth of a node as sums and maxima over the requests of its paths, and
    the votes of a BCM as a function of the bandwidth of its nodes: they grow with
    it and are zero only without demand. *)

From S2P Require Import Prelude.
From S2P Require Import Kernel.
From S2P Require Import RpmhRsc.
From S2P Require Import Bcm.
From S2P Require Import BcmVoter.
From S2P Require Import BcmSystem.

(** ** A node's bandwidth *)
Section node.
Context (cfg : icc_cfg).
Abbreviation ALWAYS := (QCOM_ICC_TAG_ALWAYS cfg).

(** The requests that count for bucket [k]. *)
Definition tag_of (t : Z) : Z := if t =? 0 then ALWAYS else t.
Definition counts (k : Z) (r : Z * Z * Z) : Prop := Z.land (tag_of r.1.1) (BIT k) ≠ 0.
#[local] Instance counts_dec k r : Decision (counts k r).
Proof. unfold counts. apply _. Defined.
Definition performs (r : Z * Z * Z) : bool :=
  negb (Z.land (tag_of r.1.1) (QCOM_ICC_TAG_PERF_MODE cfg) =? 0) && (negb (r.1.2 =? 0) || negb (r.2 =? 0)).

Definition total_avg (k : Z) (l : list (Z * Z * Z)) : Z := foldr (λ r, Z.add r.1.2) 0 (filter (counts k) l).
Definition top_peak (k : Z) (l : list (Z * Z * Z)) : Z := foldr (λ r, Z.max r.2) 0 (filter (counts k) l).
Definition any_perf (k : Z) (l : list (Z * Z * Z)) : bool := existsb performs (filter (counts k) l).

Lemma total_avg_snoc k l r : total_avg k (l ++ [r]) = total_avg k l + (if decide (counts k r) then r.1.2 else 0).
Proof.
  unfold total_avg. rewrite list.filter_app. induction (filter (counts k) l) as [|x l' IH]; cbn [app foldr].
  - case_decide as H; [rewrite filter_cons_True by done|rewrite filter_cons_False by done]; cbn; lia.
  - lia.
Qed.
Lemma top_peak_snoc k l r : top_peak k (l ++ [r]) = Z.max (top_peak k l) (if decide (counts k r) then r.2 else 0).
Proof.
  unfold top_peak. rewrite list.filter_app. induction (filter (counts k) l) as [|x l' IH]; cbn [app foldr].
  - case_decide as H; [rewrite filter_cons_True by done|rewrite filter_cons_False by done]; cbn; lia.
  - lia.
Qed.
Lemma any_perf_snoc k l r : any_perf k (l ++ [r]) = any_perf k l || bool_decide (counts k r) && performs r.
Proof.
  unfold any_perf. rewrite list.filter_app, existsb_app. f_equal.
  case_bool_decide as H; [rewrite filter_cons_True by done|rewrite filter_cons_False by done]; cbn; by rewrite ?orb_false_r.
Qed.
Lemma top_peak_nonneg k l : 0 ≤ top_peak k l.
Proof. unfold top_peak. induction (filter (counts k) l); cbn; lia. Qed.
Lemma top_peak_u32 k l : Forall (λ r, 0 ≤ r.2 < 2 ^ 32) l → top_peak k l < 2 ^ 32.
Proof.
  unfold top_peak. induction 1 as [|x l' Hx _ IH]; [done|]. rewrite filter_cons. case_decide; cbn [foldr]; lia.
Qed.

(** The node after the requests [l] so far. *)
Definition node_has (l : list (Z * Z * Z)) (n : qcom_icc_node) : Prop :=
  ∀ k, k ∈ buckets cfg → sum_avg n k = u64 (total_avg k l) ∧ max_peak n k = top_peak k l ∧ perf_mode n k = any_perf k l.

Lemma aggregate_node i tag a p x y s l :
  Forall (λ r, 0 ≤ r.2 < 2 ^ 32) (l ++ [(tag, a, p)]) →
  init_avg (icc_nodes s i) = 0 → init_peak (icc_nodes s i) = 0 → node_has l (icc_nodes s i) →
  let n := icc_nodes (qcom_icc_aggregate cfg i tag a p x y s).1.1 i in
  init_avg n = 0 ∧ init_peak n = 0 ∧ node_has (l ++ [(tag, a, p)]) n.
Proof.
  intros Hp Hia Hip Hn. cbn. rewrite fn_lookup_insert. split_and!; [done..|]. intros k Hk.
  destruct (Hn k Hk) as (H1 & H2 & H3). cbn. rewrite !decide_True by done.
  apply Forall_app in Hp as [Hp Hq]. apply list.Forall_cons in Hq as [Hq _]. cbn in Hq.
  pose proof (top_peak_u32 k l Hp). pose proof (top_peak_nonneg k l).
  unfold aggregate_bucket. rewrite Hia, Hip. cbn [negb Z.eqb orb].
  rewrite total_avg_snoc, top_peak_snoc, any_perf_snoc. fold (tag_of tag).
  destruct (Z.eqb_spec (Z.land (tag_of tag) (BIT k)) 0) as [Hz|Hnz]; cbn [negb fst snd].
  - rewrite !decide_False, bool_decide_false by (intros Hc; by apply Hc). cbn. rewrite Z.add_0_r, orb_false_r. split_and!; [done| |done]. lia.
  - rewrite !decide_True, bool_decide_true by done. cbn. rewrite H1, H2, H3. split_and!.
    + unfold u64. by rewrite Zplus_mod_idemp_l.
    + unfold u32. rewrite Z.mod_small by lia. done.
    + done.
Qed.

Lemma adds_nodes l s : icc_nodes (foldl (λ s b, qcom_icc_bcm_voter_add b s) s l) = icc_nodes s.
Proof.
  revert s. induction l as [|b l IH]; intros s; cbn; [done|]. rewrite IH. unfold qcom_icc_bcm_voter_add.
  by destruct (negb _).
Qed.

Lemma requests_node i reqs s l x y :
  Forall (λ r, 0 ≤ r.2 < 2 ^ 32) (l ++ reqs) →
  init_avg (icc_nodes s i) = 0 ∧ init_peak (icc_nodes s i) = 0 ∧ node_has l (icc_nodes s i) →
  node_has (l ++ reqs)
    (icc_nodes (foldl (λ '(s, x, y) '(tag, avg, peak), qcom_icc_aggregate cfg i tag avg peak x y s) (s, x, y) reqs).1.1 i).
Proof.
  revert s l x y.
  induction reqs as [|[[tag a] p] reqs IH]; intros s l x y Hp (H1 & H2 & H3); cbn [foldl]; [by rewrite app_nil_r|].
  rewrite (cons_middle _ l), app_assoc in Hp |- *.
  pose proof (aggregate_node i tag a p x y s l (proj1 (proj1 (Forall_app _ _ _) Hp)) H1 H2 H3) as H'.
  destruct (qcom_icc_aggregate cfg i tag a p x y s) as [[s1 x1] y1]. by apply IH.
Qed.

(** a node's bandwidth is the sum and the maximum of its requests.  Whatever the
    node held, after the framework has gone through the requests of its paths every
    bucket has the sum (modulo 2^64) of the average bandwidths and the maximum of the
    peak bandwidths of the requests whose tag names it, a tag of zero naming those of
    QCOM_ICC_TAG_ALWAYS, and is in performance mode exactly when one of them asked for
    it with some bandwidth: the order of the requests does not matter. *)
Theorem requests_add_up i reqs s k :
  Forall (λ r, 0 ≤ r.2 < 2 ^ 32) reqs → init_avg (icc_nodes s i) = 0 → init_peak (icc_nodes s i) = 0 →
  k ∈ buckets cfg →
  let n := icc_nodes (aggregate_requests cfg i reqs s) i in
  sum_avg n k = u64 (total_avg k reqs) ∧ max_peak n k = top_peak k reqs ∧ perf_mode n k = any_perf k reqs.
Proof.
  intros Hp Hia Hip Hk.
  refine (requests_node i reqs (qcom_icc_pre_aggregate i s) [] 0 0 Hp _ k Hk). unfold qcom_icc_pre_aggregate.
  rewrite adds_nodes. cbn. rewrite fn_lookup_insert. done.
Qed.
End node.

(** ** A BCM's votes *)
Lemma bcm_div_zero num base : 0 ≤ num → 0 < base → bcm_div num base = 0 ↔ num = 0.
Proof.
  intros Hn Hb. unfold bcm_div. destruct (Z.eqb_spec num 0) as [->|Hz]; cbn [negb andb]; [by rewrite Z.div_0_l by lia|].
  destruct (Z.ltb_spec num base); [done|]. split; [|done]. intros H0. apply Z.div_small_iff in H0; lia.
Qed.
Lemma bcm_div_nonneg num base : 0 ≤ num → 0 < base → 0 ≤ bcm_div num base.
Proof. intros Hn Hb. unfold bcm_div. destruct (_ && _); [done|]. by apply Z.div_pos. Qed.
Lemma bcm_div_mono num num' base : 0 ≤ num ≤ num' → 0 < base → bcm_div num base ≤ bcm_div num' base.
Proof.
  intros Hn Hb. unfold bcm_div. destruct (Z.eqb_spec num 0) as [->|Hz]; cbn [negb andb].
  - rewrite Z.div_0_l by lia. apply (bcm_div_nonneg num' base); lia.
  - rewrite (proj2 (Z.eqb_neq num' 0)) by lia. cbn [negb andb].
    destruct (Z.ltb_spec num base), (Z.ltb_spec num' base); [done| |lia|apply Z.div_le_mono; lia].
    apply Z.div_le_lower_bound; lia.
Qed.

Section fold_max.
Context (f g : nat → Z).
Abbreviation top f := (foldl (λ a i, Z.max a (f i))).
Lemma foldl_max_le a a' l : a ≤ a' → (∀ i, i ∈ l → f i ≤ g i) → top f a l ≤ top g a' l.
Proof.
  revert a a'. induction l as [|i l IH]; intros a a' Ha H; cbn; [done|].
  apply IH; [pose proof (H i ltac:(by left)); lia|]. intros j Hj. apply H. by right.
Qed.
Lemma foldl_max_base a l : a ≤ top f a l.
Proof. revert a. induction l as [|i l IH]; intros a; cbn; [done|]. pose proof (IH (Z.max a (f i))). lia. Qed.
Lemma foldl_max_zero a l : 0 ≤ a → (∀ i, i ∈ l → 0 ≤ f i) → top f a l = 0 ↔ a = 0 ∧ ∀ i, i ∈ l → f i = 0.
Proof.
  revert a. induction l as [|i l IH]; intros a Ha H; cbn; [set_solver|].
  pose proof (H i ltac:(by left)) as Hi. rewrite IH; [|lia|intros j Hj; apply H; by right].
  setoid_rewrite elem_of_cons. split.
  - intros [Hz Hl]. split; [lia|]. intros j [->|Hj]; [lia|by apply Hl].
  - intros [-> Hl]. split; [rewrite (Hl i) by (by left); lia|]. intros j Hj. apply Hl. by right.
Qed.
End fold_max.

Section votes.
Context (cfg : icc_cfg).

(** A BCM with a bandwidth vote as [qcom_icc_bcm_init] leaves it, without keepalive,
    and products that fit 64 bits. *)
Record bw_ok (s : icc) (b : qcom_icc_bcm) (k : Z) : Prop := {
  bo_type : type b = QCOM_ICC_BCM_TYPE_BW;
  bo_mask : enable_mask b = 0;
  bo_keep : keepalive b = false;
  bo_width : 0 < width b;
  bo_unit : 0 < unit_ b;
  bo_scale : 0 < vote_scale b;
  bo_node i : i ∈ nodes b → let n := icc_nodes s i in
    0 ≤ sum_avg n k ∧ sum_avg n k * width b < 2 ^ 64 ∧ 0 ≤ max_peak n k ∧ max_peak n k * width b < 2 ^ 64 ∧
    0 < buswidth n ∧ 0 < channels n ∧ buswidth n * channels n < 2 ^ 32;
  bo_avg : agg_avg s b k * vote_scale b < 2 ^ 64;
  bo_peak : agg_peak s b k * vote_scale b < 2 ^ 64;
}.

Lemma bw_votes s b k : bw_ok s b k → k ∈ buckets cfg → bcm_votes cfg s b k = (to_vote b (agg_avg s b k), to_vote b (agg_peak s b k)).
Proof.
  intros [Ht Hm Hk _ _ _ _ _ _] Hin. unfold bcm_votes, aggregate_bcm, bcm_aggregate. rewrite Ht, Hm, Hk.
  rewrite bool_decide_false by done. cbn [orb negb Z.eqb set_votes vote_x vote_y andb]. by rewrite !decide_True by done.
Qed.

(** The quotient of one node. *)
Definition node_avg (s : icc) (b : qcom_icc_bcm) (k : Z) (i : nat) : Z :=
  bcm_div (u64 (sum_avg (icc_nodes s i) k * width b)) (u32 (buswidth (icc_nodes s i) * channels (icc_nodes s i))).
Definition node_peak (s : icc) (b : qcom_icc_bcm) (k : Z) (i : nat) : Z :=
  bcm_div (u64 (max_peak (icc_nodes s i) k * width b)) (buswidth (icc_nodes s i)).

Lemma node_quotients s b k i :
  bw_ok s b k → i ∈ nodes b → let n := icc_nodes s i in
  node_avg s b k i = bcm_div (sum_avg n k * width b) (buswidth n * channels n) ∧
  node_peak s b k i = bcm_div (max_peak n k * width b) (buswidth n) ∧
  0 ≤ sum_avg n k * width b ∧ 0 ≤ max_peak n k * width b ∧ 0 < buswidth n * channels n ∧ 0 < buswidth n.
Proof.
  intros Hok Hi. pose proof (bo_node _ _ _ Hok i Hi) as (H1 & H2 & H3 & H4 & H5 & H6 & H7).
  pose proof (bo_width _ _ _ Hok). unfold node_avg, node_peak. cbn zeta. unfold u32.
  rewrite !u64_small, (Z.mod_small (_ * _)) by nia. split_and!; [done|done|nia..].
Qed.

Lemma agg_nonneg s b k : 0 ≤ agg_avg s b k ∧ 0 ≤ agg_peak s b k.
Proof. split; apply (foldl_max_base _ 0). Qed.

Lemma agg_zero s b k :
  bw_ok s b k →
  (agg_avg s b k = 0 ↔ ∀ i, i ∈ nodes b → sum_avg (icc_nodes s i) k = 0) ∧
  (agg_peak s b k = 0 ↔ ∀ i, i ∈ nodes b → max_peak (icc_nodes s i) k = 0).
Proof.
  intros Hok. pose proof (bo_width _ _ _ Hok) as Hw.
  pose proof (foldl_max_zero (node_avg s b k) 0 (nodes b)) as Ha. pose proof (foldl_max_zero (node_peak s b k) 0 (nodes b)) as Hp.
  change (foldl _ 0 (nodes b)) with (agg_avg s b k) in Ha. change (foldl _ 0 (nodes b)) with (agg_peak s b k) in Hp.
  rewrite Ha, Hp; [|done| |done|];
    try (intros i Hi; destruct (node_quotients s b k i Hok Hi) as (Ea & Ep & ? & ? & ? & ?); rewrite ?Ea, ?Ep; by apply bcm_div_nonneg).
  split; (split; [intros [_ H] i Hi|intros H; split; [done|]; intros i Hi]);
    destruct (node_quotients s b k i Hok Hi) as (Ea & Ep & ? & ? & ? & ?).
  - specialize (H i Hi). rewrite Ea in H. apply bcm_div_zero in H; [nia|done..].
  - rewrite Ea, (H i Hi), Z.mul_0_l. by apply bcm_div_zero.
  - specialize (H i Hi). rewrite Ep in H. apply bcm_div_zero in H; [nia|done..].
  - rewrite Ep, (H i Hi), Z.mul_0_l. by apply bcm_div_zero.
Qed.

Lemma to_vote_zero b a : 0 ≤ a → a * vote_scale b < 2 ^ 64 → 0 < vote_scale b → 0 < unit_ b → to_vote b a = 0 ↔ a = 0.
Proof. intros Ha Hf Hs Hu. unfold to_vote. rewrite u64_small by nia. rewrite bcm_div_zero by nia. nia. Qed.
Lemma to_vote_mono b a a' : 0 ≤ a ≤ a' → a' * vote_scale b < 2 ^ 64 → 0 < vote_scale b → 0 < unit_ b → to_vote b a ≤ to_vote b a'.
Proof. intros Ha Hf Hs Hu. unfold to_vote. rewrite !u64_small by nia. apply bcm_div_mono; nia. Qed.

(** At least as much bandwidth on every node. *)
Definition more (s s' : icc) (b : qcom_icc_bcm) (k : Z) : Prop := ∀ i, i ∈ nodes b →
  let n := icc_nodes s i in let n' := icc_nodes s' i in
  sum_avg n k ≤ sum_avg n' k ∧ max_peak n k ≤ max_peak n' k ∧ buswidth n = buswidth n' ∧ channels n = channels n'.

Lemma agg_mono s s' b k :
  bw_ok s b k → bw_ok s' b k → more s s' b k → agg_avg s b k ≤ agg_avg s' b k ∧ agg_peak s b k ≤ agg_peak s' b k.
Proof.
  intros Hok Hok' Hm. pose proof (bo_width _ _ _ Hok) as Hw.
  split; [apply (foldl_max_le (node_avg s b k) (node_avg s' b k))|apply (foldl_max_le (node_peak s b k) (node_peak s' b k))];
    (done || intros i Hi; destruct (Hm i Hi) as (Ha & Hp & Eb & Ec);
     destruct (node_quotients s b k i Hok Hi) as (E1 & E2 & ? & ? & ? & ?);
     destruct (node_quotients s' b k i Hok' Hi) as (E1' & E2' & ? & ? & ? & ?);
     rewrite ?E1, ?E2, ?E1', ?E2', <-?Eb, <-?Ec; apply bcm_div_mono; nia).
Qed.

(** C13: votes follow the demand.  The votes of a bandwidth BCM without keepalive, with
    the divisors [qcom_icc_bcm_init] ensures and products within 64 bits, are both
    zero exactly when no node of the BCM has average or peak bandwidth in the bucket, however
    small the bandwidth and large the units; and with more bandwidth on some nodes
    neither vote gets smaller. *)
Theorem votes_follow_demand s s' b k :
  bw_ok s b k → bw_ok s' b k → more s s' b k → k ∈ buckets cfg →
  (bcm_votes cfg s b k = (0, 0) ↔ ∀ i, i ∈ nodes b → sum_avg (icc_nodes s i) k = 0 ∧ max_peak (icc_nodes s i) k = 0) ∧
  (bcm_votes cfg s b k).1 ≤ (bcm_votes cfg s' b k).1 ∧ (bcm_votes cfg s b k).2 ≤ (bcm_votes cfg s' b k).2.
Proof.
  intros Hok Hok' Hm Hk. rewrite !bw_votes by done. destruct (agg_mono s s' b k Hok Hok' Hm) as [Ma Mp].
  destruct (agg_nonneg s b k) as [Na Np]. destruct (agg_zero s b k Hok) as [Za Zp].
  destruct Hok as [_ _ _ _ Hu Hs _ Fa Fp]. destruct Hok' as [_ _ _ _ _ _ _ Fa' Fp']. split.
  - rewrite pair_equal_spec, !to_vote_zero, Za, Zp by done. naive_solver.
  - split; by apply to_vote_mono.
Qed.
End votes.

(** ** Initialisation *)
Lemma link_nodes_run b l s s' :
  link_nodes b l s = Some s' →
  icc_bcms s' = icc_bcms s ∧ voter s' = voter s ∧
  (∀ i, i ∈ l → b ∈ bcms (icc_nodes s' i)) ∧ ∀ i x, x ∈ bcms (icc_nodes s i) → x ∈ bcms (icc_nodes s' i).
Proof.
  revert s. induction l as [|j l IH]; intros s; cbn [link_nodes].
  { intros [= <-]. split_and!; [done..| |done]. intros i Hi. by apply not_elem_of_nil in Hi. }
  destruct (_ <=? _); [done|]. intros H. destruct (IH _ H) as (H1 & H2 & H3 & H4). split_and!; [done..| |].
  - intros i Hi. apply elem_of_cons in Hi as [->|Hi]; [|by apply H3]. apply H4. cbn. rewrite fn_lookup_insert.
    apply elem_of_app. right. by left.
  - intros i x Hx. apply H4. cbn. destruct (decide (i = j)) as [->|Hne]; [|by rewrite fn_lookup_insert_ne].
    rewrite fn_lookup_insert. cbn. apply elem_of_app. by left.
Qed.

(** A BCM is ready after [qcom_icc_bcm_init] has returned 0 for the first time: it has the
    address of the command database, divisors that are not zero, its nodes know it, other
    links are kept, and with keepalive it waits for a first commit. *)
Lemma bcm_init_ready a aux b s s' :
  addr (icc_bcms s b) = 0 → (∀ e, aux = inl e → e ≠ 0) → 0 ≤ vote_scale (icc_bcms s b) →
  qcom_icc_bcm_init false a aux b s = Some (0, s') →
  let n := icc_bcms s' b in
  addr n = a ∧ a ≠ 0 ∧ 0 < unit_ n ∧ 0 < width n ∧ 0 < vote_scale n ∧ nodes n = nodes (icc_bcms s b) ∧
  (∀ i, i ∈ nodes n → b ∈ bcms (icc_nodes s' i)) ∧
  (∀ i x, x ∈ bcms (icc_nodes s i) → x ∈ bcms (icc_nodes s' i)) ∧
  (keepalive n = true → registered (voter s) = true → b ∈ commit_list (voter s')).
Proof.
  intros Ha Haux Hs. unfold qcom_icc_bcm_init. rewrite Ha. cbn [orb negb Z.eqb].
  destruct (Z.eqb_spec a 0) as [|Hne]; [done|]. destruct aux as [e|[[[u w] v]|]]; [|..|done].
  { intros [= He _]. by specialize (Haux e eq_refl). }
  destruct (link_nodes _ _ _) as [s1|] eqn:E; [|done]. destruct (link_nodes_run _ _ _ _ E) as (H1 & H2 & H3 & H4).
  assert (icc_bcms s1 b = set_aux u w v (set_addr a (icc_bcms s b))) as Eb by (rewrite H1; cbn; by rewrite !fn_lookup_insert).
  assert (0 < unit_ (icc_bcms s1 b) ∧ 0 < width (icc_bcms s1 b) ∧ 0 < vote_scale (icc_bcms s1 b)) as Hpos.
  { rewrite Eb. cbn. destruct (Z.eqb_spec (vote_scale (icc_bcms s b)) 0); lia. }
  destruct (keepalive (icc_bcms s b)) eqn:Ek.
  - destruct (nodes (icc_bcms s b)) as [|i l] eqn:En; [done|]. intros [= <-].
    set (s2 := upd_node i _ s1).
    assert (∀ x j, x ∈ bcms (icc_nodes s1 j) → x ∈ bcms (icc_nodes s2 j)) as Hl.
    { intros x j Hx. unfold s2. cbn. destruct (decide (j = i)) as [->|Hj]; [by rewrite fn_lookup_insert|by rewrite fn_lookup_insert_ne]. }
    assert (icc_bcms (qcom_icc_bcm_voter_add b s2) = icc_bcms s1 ∧ icc_nodes (qcom_icc_bcm_voter_add b s2) = icc_nodes s2) as [-> ->].
    { unfold qcom_icc_bcm_voter_add. by destruct (negb _). }
    rewrite Eb in *. cbn. rewrite En. split_and!; [done|done|apply Hpos..|done| | |].
    + intros j Hj. by apply Hl, H3.
    + intros j x Hx. by apply Hl, H4.
    + intros _ Hr. apply (proj2 (proj2 (proj2 (adds_frame [b] s2 ltac:(unfold s2; cbn; by rewrite H2))))). right. by left.
  - intros [= <-]. rewrite Eb in *. cbn. rewrite Ek. split_and!; [done|done|apply Hpos..|done|done|done|done].
Qed.
