(* ===== verification/BcmCases.v ===== *)
(** * Interconnect votes: concrete runs

    A voter with a few nodes and BCMs on a controller, awake or in solver mode, the
    hypotheses of the theorems at this input, and runs that show behaviour
    worth knowing. *)

From Stdlib Require Import Sorting.Sorted.
From S2P Require Import Prelude.
From S2P Require Import Kernel.
From S2P Require Import CmdDb.
From S2P Require Import RpmhRsc.
From S2P Require Import RpmhTcs.
From S2P Require Import Rpmh.
From S2P Require Import RpmhCache.
From S2P Require Import RpmhFlush.
From S2P Require Import RpmhSend.
From S2P Require Import RpmhActive.
From S2P Require Import Bcm.
From S2P Require Import BcmBatch.
From S2P Require Import BcmVoter.
From S2P Require Import BcmCommit.
From S2P Require Import BcmSystem.
From S2P Require Import BcmVotes.

(** ** A stable insertion sort *)
Section sort.
Context (key : nat → Z).
Fixpoint vcd_insert (b : nat) (l : list nat) : list nat :=
  match l with [] => [b] | c :: l' => if key b <=? key c then b :: l else c :: vcd_insert b l' end.
Definition vcd_sort (l : list nat) : list nat := foldr vcd_insert [] l.

Lemma vcd_insert_perm b l : vcd_insert b l ≡ₚ b :: l.
Proof. induction l as [|c l IH]; cbn; [done|]. destruct (_ <=? _); [done|]. rewrite IH. constructor. Qed.
Lemma vcd_insert_sorted b l :
  StronglySorted (λ a b, key a ≤ key b) l → StronglySorted (λ a b, key a ≤ key b) (vcd_insert b l).
Proof.
  induction 1 as [|c l Hl IH Hc]; cbn; [repeat constructor|]. destruct (Z.leb_spec (key b) (key c)) as [Hle|Hgt].
  - constructor; [by constructor|]. constructor; [done|]. eapply List.Forall_impl; [|exact Hc]. cbn. lia.
  - constructor; [done|]. rewrite vcd_insert_perm. constructor; [lia|done].
Qed.
End sort.
#[local] Instance insertion_sort : ListSort := vcd_sort.
#[local] Instance insertion_sort_ok : ListSortSpec insertion_sort.
Proof.
  split; intros key l; unfold list_sort, insertion_sort, vcd_sort; induction l as [|b l IH]; cbn.
  - done.
  - by rewrite vcd_insert_perm, IH.
  - constructor.
  - by apply vcd_insert_sorted.
Qed.

(** ** The voter *)
Definition ex_cfg : icc_cfg :=
  mk_icc_cfg 3 0 1 2 7 8 0x3fff
    (λ commit valid x y, Z.lor (Z.shiftl (Z.b2z commit) 30) (Z.lor (Z.shiftl (Z.b2z valid) 29) (Z.lor (Z.shiftl x 14) y))) 16.

Definition ex_node (l : list nat) : qcom_icc_node := mk_node 1 8 (λ _, 0) (λ _, 0) (λ _, false) l 0 0.
Definition ex_bcm (a v : Z) (l : list nat) : qcom_icc_bcm :=
  mk_bcm QCOM_ICC_BCM_TYPE_BW a (λ _, 0) (λ _, 0) 1000 0 0 false 1000 8 v 0 l.
(** Node [i] belongs to BCM [i]; BCM [i] below [n] has VCD [v i]. *)
Definition ex_icc (n : nat) (v : nat → Z) : icc :=
  mk_icc (λ i, ex_node [i]) (λ b, ex_bcm (0x50000 + 4 * Z.of_nat b) (v b) [b])
    (mk_voter (seq 0 n) (seq 0 n) 1 true None true).

Definition solver_client : rpmh_ctrlr :=
  mk_rpmh_ctrlr true true SOLVER_PRESENT [zero_request 16; zero_request 16] 0 (replicate 250 (mk_cache_req 0 0 0)).
Definition solver_rsc : rsc := with_client solver_client [] sample_rsc.

Lemma solver_coherent : coherent 16 8 16 solver_rsc 0.
Proof.
  split.
  - eexists. apply tcs_holds_with_client, sample_rsc_holds.
  - split; [split|done|].
    + reflexivity.
    + vm_compute. split; discriminate.
    + apply (bool_decide_unpack _). by vm_compute.
    + intros [] Hst; [split; [done|split; [done|by left]]..|done].
  - done.
  - done.
Qed.

(** Outside solver mode, with TCS 0 idle. *)
Definition awake_client : rpmh_ctrlr := set_ctrlr_solver false solver_client.
Definition awake_rsc : rsc := mk_rsc mem_device (sample_drv awake_client) {[0xD28 := 1]} [].

Lemma awake_kept : sets_kept 8 16 0 (with_client awake_client [] solver_rsc) awake_rsc.
Proof.
  intros F HT. exists (λ x, if decide (cfg_tcs x < 2) then peek (hw awake_rsc) (cfg_addr (drv awake_rsc) x) else F x). split.
  - intros x Hx. case_decide as Hlt; [done|]. rewrite <-(HT x Hx).
    destruct (cfg_off_range (regs (drv awake_rsc)) 8 16 x) as [Ho _]; [by right; left|vm_compute; discriminate|done|].
    change (default 0 (({[0xD28 := 1]} : gmap Z Z) !! cfg_addr (drv awake_rsc) x) = default 0 ((∅ : gmap Z Z) !! cfg_addr (drv awake_rsc) x)).
    rewrite lookup_singleton_ne, lookup_empty; [done|]. rewrite cfg_addr_split.
    change (tcs_base (drv awake_rsc)) with 0xD00. change (tcs_stride (drv awake_rsc)) with 672. lia.
  - intros x [|[|]] Ht Hx; [change (2 ≤ cfg_tcs x < 2 + 3) in Hx|change (5 ≤ cfg_tcs x < 5 + 3) in Hx|lia];
      by rewrite decide_False by lia.
Qed.

Lemma awake_coherent : coherent 16 8 16 awake_rsc 0.
Proof.
  pose proof (coherent_layout 16 8 16 0 solver_rsc solver_coherent) as [[Ha Hs] Hwf].
  apply (coherent_kept 16 8 16 0 (with_client awake_client [] solver_rsc)); [apply awake_kept|split; [exact Ha|exact Hs]|exact Hwf|done..|].
  apply coherent_with_client; [apply solver_coherent| |done].
  destruct (ch_ctrlr _ _ _ _ _ solver_coherent) as [[] ? ?]. by split; [split|..].
Qed.

(** The active TCSes 0 and 1 are apart from the sleep TCSes 2 to 4 and the wake TCSes 5 to 7. *)
Lemma awake_apart : active_apart 16 8 16 0 (drv awake_rsc).
Proof.
  assert (∀ i, live (drv awake_rsc) i → i = 0) as H0 by (intros i [->|[_ H]]; [done|by destruct H]).
  split.
  - apply irq_apart_tables; [right; left|vm_compute; discriminate].
  - intros i ->%H0. split; [split; [split|..]; vm_compute; congruence|vm_compute; discriminate].
  - intros i m [|[|]] ->%H0 Ht;
      [change (0 ≤ m < 0 + 2 → ¬ (2 ≤ m < 2 + 3))|change (0 ≤ m < 0 + 2 → ¬ (5 ≤ m < 5 + 3))|]; lia.
Qed.

(** The interrupt of the controller signals the completion. *)
Definition signal (compl : nat) (rs : rsc) : rsc := mk_rsc mem_device (drv rs) (hw rs) (compl :: completed rs).

Lemma signal_meanwhile compl : meanwhile 16 8 16 0 (signal compl).
Proof.
  intros rs HC HA. split; [|done]. destruct (coherent_layout 16 8 16 0 rs HC) as [HL Hwf].
  apply (coherent_kept 16 8 16 0 rs); [|done..]. intros F HT. by exists F.
Qed.

(** ** A run *)
Definition ex_v (b : nat) : Z := if decide (b = 0%nat) then 2 else 1.

Lemma ex_cfg_ok : cfg_ok ex_cfg.
Proof. split_and!; by apply (bool_decide_unpack _). Qed.

Lemma ex_bw_ok n v b k : bw_ok (ex_icc n v) (icc_bcms (ex_icc n v) b) k.
Proof. by split. Qed.

Lemma ex_inv : system_inv ex_cfg 8 16 [] 0 (ex_icc 2 ex_v) awake_rsc.
Proof.
  split.
  - split; [apply (bool_decide_unpack _); by vm_compute..|done|]. intros b Hb. cbn in Hb. discriminate Hb.
  - done.
  - intros i b Hi. cbn in *. apply list_elem_of_singleton in Hi as ->. by left.
  - intros b k _ _ Hk. rewrite bw_votes by (apply ex_bw_ok || done). reflexivity.
  - apply awake_coherent.
  - exists []. split_and!; [constructor| |constructor|].
    + intros b. split; [intros H; by apply not_elem_of_nil in H|cbn; discriminate].
    + intros st a v Hst. split; [|intros (x & Hx & _); by apply not_elem_of_nil in Hx].
      destruct st; [intros H; by apply sends_empty in H..|done].
Qed.

Definition ex_wb : wb_env := mk_wb_env false 1 [] [signal 9] 9.

(** Node 0 asks for bandwidth always, node 1 when awake; then the votes are committed. *)
Definition ex_ops : list vop :=
  [ Request 0 [(0, 100, 200); (7, 50, 10)];
    Request 1 [(3, 800, 1600)];
    Commit ex_wb (λ _, 0);
    Flush_sets sample_tb;
    Other_async RPMH_SLEEP_STATE (Some [mk_cmd 0x30008 3 0]) 1;
    Other_write 7 RPMH_WAKE_ONLY_STATE (Some [mk_cmd 0x30008 4 0]) 1 ].

Lemma ex_bcm_ops_ok : vops_ok ex_cfg 8 16 0 ex_ops (ex_icc 2 ex_v) awake_rsc.
Proof.
  split; [done|]. intros s1 rs1 [= <- <-]. split; [done|]. intros s2 rs2 [= <- <-].
  split; [split; [|split_and!; [apply awake_apart|apply Forall_nil_2|apply Forall_cons_2; [apply signal_meanwhile|apply Forall_nil_2]|]]|].
  { split_and!; [vm_compute; discriminate..|]. intros b _. change (0 ≤ ex_v b < MAX_VCD). unfold ex_v. case_decide; split; done. }
  { intros cmds n Hg _. vm_compute in Hg. injection Hg as <- <-. eexists _, _. vm_compute. reflexivity. }
  intros s3 rs3 _. split; [done|]. intros s4 rs4 _.
  split; [split; [done|]; intros l [= <-]; split; [done|]; by constructor|]. intros s5 rs5 _.
  split; [split; [done|]; intros l [= <-]; split; [done|]; by constructor|]. done.
Qed.

(** Node 1's BCM differs, the other does not; the active votes of both are in TCS 0; the flush succeeds. *)
Lemma bandwidth_reaches_tcs_witness :
  ∃ s' rs' rs2, run_vops ex_cfg 0 ex_ops (ex_icc 2 ex_v) awake_rsc = (Done s', rs') ∧
    rpmh_flush 16 false sample_tb 0 rs' = (Done 0, rs2) ∧ tcs_in_use (drv rs') = 1 ∧
    votes_at s' 0 1 = (150, 200) ∧ votes_at s' 0 2 = (150, 200) ∧
    votes_at s' 1 1 = (800, 1600) ∧ votes_at s' 1 2 = (0, 0) ∧
    ∃ l, (∀ b, b ∈ l ↔ votes_at s' b 1 ≠ votes_at s' b 2) ∧ tcs_holds 8 16 rs2 0 (voted ex_cfg s' l (client (drv rs'))).
Proof.
  destruct (bandwidth_reaches_tcs ex_cfg ltac:(done) ex_cfg_ok 8 16 0 ex_ops (ex_icc 2 ex_v) awake_rsc sample_tb
              ex_inv ex_bcm_ops_ok) as (s' & rs' & Hrun & _ & r & rs2 & Hfl & Hcase).
  exists s', rs', rs2. split; [exact Hrun|].
  assert (r = 0) as ->.
  { replace rs' with (run_vops ex_cfg 0 ex_ops (ex_icc 2 ex_v) awake_rsc).2 in Hfl by (by rewrite Hrun).
    apply (f_equal fst) in Hfl. vm_compute in Hfl. congruence. }
  split; [exact Hfl|]. split.
  { replace rs' with (run_vops ex_cfg 0 ex_ops (ex_icc 2 ex_v) awake_rsc).2 by (by rewrite Hrun). vm_compute. reflexivity. }
  assert (∀ b k, match (run_vops ex_cfg 0 ex_ops (ex_icc 2 ex_v) awake_rsc).1 with Done s => votes_at s b k | _ => (0, 0) end
    = votes_at s' b k) as Hd by (intros b k; by rewrite Hrun).
  split; [rewrite <-Hd; vm_compute; reflexivity|]. split; [rewrite <-Hd; vm_compute; reflexivity|].
  split; [rewrite <-Hd; vm_compute; reflexivity|]. split; [rewrite <-Hd; vm_compute; reflexivity|]. clear Hd.
  destruct Hcase as [He|(_ & l & _ & Hl & _ & HT)]; [discriminate He|]. exists l. split; [exact Hl|exact HT].
Defined.

(** ** Batches *)
Definition small_cfg : icc_cfg := mk_icc_cfg 3 0 1 2 7 8 0x3fff (BCM_TCS_CMD ex_cfg) 4.
Definition two_vcds (b : nat) : Z := if decide (b < 3)%nat then 0 else 1.

Lemma vcd_batches_witness :
  ∃ parts z, tcs_list_gen small_cfg 1 (ex_icc 6 two_vcds) =
      Some (vcd_cmds small_cfg (ex_icc 6 two_vcds) 1 (seq 0 6), map len parts ++ replicate (S z) 0) ∧
    concat parts = seq 0 6 ∧ Some (map len parts ++ replicate (S z) 0) = Some [3; 3; 0; 0; 0; 0; 0; 0; 0; 0; 0].
Proof.
  destruct (vcd_batches small_cfg (ex_icc 6 two_vcds) 1) as (parts & z & Hg & Hc & _).
  - discriminate.
  - change (sorted_vcd (ex_icc 6 two_vcds) (vcd_sort (key (ex_icc 6 two_vcds)) (seq 0 6))). apply list_sort_sorted.
  - intros b _. change (0 ≤ two_vcds b < MAX_VCD). unfold two_vcds. case_decide; split; done.
  - intros v. destruct (decide (v = 0)) as [->|H0]; [vm_compute; discriminate|].
    destruct (decide (v = 1)) as [->|H1]; [vm_compute; discriminate|].
    unfold vcd_size. assert (∀ l, filter (λ b, key (ex_icc 6 two_vcds) b = v) l = []) as ->; [|vm_compute; discriminate].
    intros l. induction l as [|b l IH]; [done|]. rewrite filter_cons_False; [done|]. intros <-. revert H0 H1.
    change (two_vcds b ≠ 0 → two_vcds b ≠ 1 → False). unfold two_vcds. by case_decide.
  - vm_compute. discriminate.
  - exists parts, z. split; [exact Hg|]. split; [exact Hc|].
    transitivity (snd <$> tcs_list_gen small_cfg 1 (ex_icc 6 two_vcds)); [by rewrite Hg|vm_compute; reflexivity].
Defined.

(** ** Arithmetic *)
Lemma requests_add_up_witness :
  let n := icc_nodes (aggregate_requests ex_cfg 0 [(0, 100, 200); (3, 50, 300); (15, 1, 1)] (ex_icc 2 ex_v)) 0%nat in
  sum_avg n 1 = 151 ∧ max_peak n 1 = 300 ∧ perf_mode n 1 = true.
Proof.
  exact (requests_add_up ex_cfg 0 [(0, 100, 200); (3, 50, 300); (15, 1, 1)] (ex_icc 2 ex_v) 1
    ltac:(repeat (apply Forall_cons_2; [by split|]); apply Forall_nil_2) eq_refl eq_refl ltac:(by apply (bool_decide_unpack _))).
Defined.

(** One node asks for the smallest bandwidth, then for more. *)
Definition small_demand : icc := aggregate_requests ex_cfg 0 [(0, 1, 1)] (ex_icc 2 ex_v).
Definition more_demand : icc := aggregate_requests ex_cfg 0 [(0, 5000, 9000)] (ex_icc 2 ex_v).
Lemma votes_follow_demand_witness :
  bcm_votes ex_cfg small_demand (icc_bcms small_demand 0%nat) 1 = (1, 1) ∧
  (bcm_votes ex_cfg small_demand (icc_bcms small_demand 0%nat) 1).1 ≤
  (bcm_votes ex_cfg more_demand (icc_bcms small_demand 0%nat) 1).1.
Proof.
  split; [vm_compute; reflexivity|].
  apply (votes_follow_demand ex_cfg small_demand more_demand (icc_bcms small_demand 0%nat) 1).
  - split; try reflexivity. intros i Hi. assert (i = 0%nat) as -> by (by apply list_elem_of_singleton in Hi). split_and!; vm_compute; congruence.
  - split; try reflexivity. intros i Hi. assert (i = 0%nat) as -> by (by apply list_elem_of_singleton in Hi). split_and!; vm_compute; congruence.
  - intros i Hi. assert (i = 0%nat) as -> by (by apply list_elem_of_singleton in Hi). split_and!; vm_compute; congruence.
  - by apply (bool_decide_unpack _).
Defined.

(** ** Behaviour worth knowing *)

(** Every node asks for bandwidth while awake. *)
Definition all_awake (s : icc) (n : nat) : icc := foldl (λ s i, aggregate_requests ex_cfg i [(3, 800, 1600)] s) s (seq 0 n).
Definition committed (s : icc) : outcome (Z * icc * list crm_cmd) * rsc :=
  qcom_icc_bcm_voter_commit ex_cfg false ex_wb (λ _, 0) s solver_rsc.
Definition answer (r : outcome (Z * icc * list crm_cmd) * rsc) : option Z :=
  match r.1 with Done (z, _, _) => Some z | _ => None end.
Definition wake_addrs (r : outcome (Z * icc * list crm_cmd) * rsc) : list Z :=
  let m := msg (batch 16 (client (drv r.2)) RPMH_WAKE_ONLY_STATE) in
  (λ i, cmd_addr (nth_cmd m i)) <$> seqZ 0 (num_cmds m).

(** 17 BCMs differ, in 9 VCDs; [tcs_list_gen] makes two batches, [rpmh_write_batch] caches the first:
    the 17th BCM has no wake command although the commit answers 0. *)
Example second_batch_lost :
  let r := committed (all_awake (ex_icc 17 (λ b, Z.of_nat b / 2)) 17) in
  answer r = Some 0 ∧ length (wake_addrs r) = 16%nat ∧ bool_decide (0x50000 + 4 * 16 ∈ wake_addrs r) = false.
Proof. vm_compute. done. Qed.

(** 17 BCMs of one VCD: the first batch is empty and nothing at all is sent. *)
Example large_vcd_not_sent :
  let r := committed (all_awake (ex_icc 17 (λ _, 3)) 17) in
  answer r = Some 0 ∧ wake_addrs r = [].
Proof. vm_compute. done. Qed.

(** The active votes are refused in solver mode and no BCM differs: the commit
    answers -EBUSY, though the refusal is expected and harmless. *)
Example busy_reported :
  answer (committed (aggregate_requests ex_cfg 0 [(0, 100, 200)] (ex_icc 1 ex_v))) = Some (- EBUSY).
Proof. vm_compute. done. Qed.

(** The auxiliary data could not be read: the address is set all the same, and the next
    attempt answers 0 without the data and the links. *)
Example failed_init_forgotten :
  let s := mk_icc (λ i, ex_node []) (λ b, mk_bcm QCOM_ICC_BCM_TYPE_BW 0 (λ _, 0) (λ _, 0) 0 0 0 false 0 0 0 0 [0%nat])
             (mk_voter [] [] 1 true None true) in
  match qcom_icc_bcm_init false 0x50000 (inl (- EINVAL)) 0 s with
  | Some (r1, s1) =>
      match qcom_icc_bcm_init false 0x50000 (inr (Some (1000, 8, 1))) 0 s1 with
      | Some (r2, s2) => r1 = - EINVAL ∧ r2 = 0 ∧ unit_ (icc_bcms s2 0%nat) = 0 ∧ bcms (icc_nodes s2 0%nat) = []
      | None => False
      end
  | None => False
  end.
Proof. vm_compute. done. Qed.
