(* ===== verification/SchedAvg.v ===== *)
(** * WALT: average numbers of runnable tasks (kernel/sched/walt/sched_avg.c)

    Every enqueue and dequeue adds, per CPU, the number of tasks times the time it
    lasted; core control polls the averages once per window.  The same calls keep
    CPUs out of deep idle states for a while after they were busy.  Clock readings
    and what the scheduler answers are arguments; clusters have CPUs and CPUs a capacity.  [WALT_PANIC] stops the system. *)

From S2P Require Import Prelude.
From S2P Require Import WaltHalt.
From S2P Require Import CoreCtl.

Definition NR_THRESHOLD_PCT : Z := 40.
Definition BUSY_NR_RUN : Z := 3.
Definition BUSY_LOAD_FACTOR : Z := 10.
Definition TRAILBLAZER_BOOST_THRESH_IPC : Z := 300.
Definition NSEC_PER_MSEC : Z := 1000000.

(** The counters of a CPU. *)
Record cpu_nr := mk_cpu_nr {
  nr_prod_sum : Z;
  last_time : Z;
  last_time_cpu : Z;
  nr_big_prod_sum : Z;
  nr_giant_prod_sum : Z;
  pcpu_nr : Z;
  pcpu_nr_max : Z;
}.
(** How long a CPU stays out of deep idle states. *)
Record cpu_hyst := mk_cpu_hyst {
  busy_hyst_end_time : Z;
  hyst_time : Z;
  coloc_hyst_busy : Z;
  coloc_hyst_time : Z;
  util_hyst_time : Z;
  smart_freq_legacy_reason_hyst_ns : Z;
}.
Record sched_avg := mk_sched_avg {
  nrs : Z → cpu_nr;
  hysts : Z → cpu_hyst;
  last_get_time : Z;
  stats : Z → sched_avg_stats;
  cstats_util_pct : Z → Z;
  trailblazer_boost_state_ns : Z;
}.

(** The sysctl settings and the scheduler's state. *)
Record avg_env := mk_avg_env {
  num_cpus : Z;                                   (* possible CPUs *)
  walt_disabled : bool;
  arch_scale_cpu_capacity : Z → Z;
  cpu_util : Z → Z;
  wrq_util : Z → Z;
  capacity_orig_of : Z → Z;
  walt_big_tasks : Z → Z;
  walt_giant_tasks : Z → Z;
  walt_trailblazer_tasks : Z → Z;
  ipc_cnt : Z → Z;
  in_last_cluster : Z → bool;                     (* cpumask_test_cpu(cpu, &cpu_array[0][num_sched_clusters-1]) *)
  last_cluster_weight : Z;
  large_cpu_cap_low : bool;
  is_max_possible_cluster_cpu : Z → bool;
  is_obet : bool;
  pipeline_in_progress : bool;
  lpm_bias_config : bool;                         (* CONFIG_SCHED_CONSERVATIVE_BOOST_LPM_BIAS *)
  conservative_boost : bool;                      (* sched_boost_type == CONSERVATIVE_BOOST *)
  is_rtgb_active : bool;
  rtgb_active_time : Z;
  is_reserved : Z → bool;
  avg_clusters : list (Z * list Z);               (* id and CPUs of each cluster *)
  sysctl_sched_busy_hyst : Z;
  sysctl_sched_busy_hyst_enable_cpus : Z;
  sysctl_sched_coloc_busy_hyst_enable_cpus : Z;
  sysctl_sched_coloc_busy_hyst_cpu : Z → Z;
  sysctl_sched_coloc_busy_hyst_cpu_busy_pct : Z → Z;
  sysctl_sched_coloc_busy_hyst_max_ms : Z;
  sysctl_sched_util_busy_hyst_enable_cpus : Z;
  sysctl_sched_util_busy_hyst_cpu : Z → Z;
  sysctl_sched_util_busy_hyst_cpu_util : Z → Z;
}.

Definition set_nr (c : Z) (x : cpu_nr) (s : sched_avg) : sched_avg :=
  mk_sched_avg (<[c := x]> (nrs s)) (hysts s) (last_get_time s) (stats s) (cstats_util_pct s) (trailblazer_boost_state_ns s).
Definition set_hysts (h : Z → cpu_hyst) (s : sched_avg) : sched_avg :=
  mk_sched_avg (nrs s) h (last_get_time s) (stats s) (cstats_util_pct s) (trailblazer_boost_state_ns s).
Definition set_hyst (c : Z) (x : cpu_hyst) (s : sched_avg) : sched_avg := set_hysts (<[c := x]> (hysts s)) s.
Definition set_stats (c : Z) (x : sched_avg_stats) (s : sched_avg) : sched_avg :=
  mk_sched_avg (nrs s) (hysts s) (last_get_time s) (<[c := x]> (stats s)) (cstats_util_pct s) (trailblazer_boost_state_ns s).
Definition set_cstats (c v : Z) (s : sched_avg) : sched_avg :=
  mk_sched_avg (nrs s) (hysts s) (last_get_time s) (stats s) (<[c := v]> (cstats_util_pct s)) (trailblazer_boost_state_ns s).
Definition set_get_time (t : Z) (s : sched_avg) : sched_avg :=
  mk_sched_avg (nrs s) (hysts s) t (stats s) (cstats_util_pct s) (trailblazer_boost_state_ns s).
Definition set_trailblazer (t : Z) (s : sched_avg) : sched_avg :=
  mk_sched_avg (nrs s) (hysts s) (last_get_time s) (stats s) (cstats_util_pct s) t.
Definition set_end_time (t : Z) (h : cpu_hyst) : cpu_hyst :=
  mk_cpu_hyst t (hyst_time h) (coloc_hyst_busy h) (coloc_hyst_time h) (util_hyst_time h) (smart_freq_legacy_reason_hyst_ns h).
Definition set_smart_hyst (t : Z) (h : cpu_hyst) : cpu_hyst :=
  mk_cpu_hyst (busy_hyst_end_time h) (hyst_time h) (coloc_hyst_busy h) (coloc_hyst_time h) (util_hyst_time h) t.

Section defs.
Context (e : avg_env).
Abbreviation M := (KM sched_avg).

Definition possible_cpus : list Z := seqZ 0 (num_cpus e).

(** ** Hysteresis *)
Definition mult_frac (x n d : Z) : Z := u64 (x / d * n + x mod d * n / d).

Definition MAX_RTGB_TIME : Z := u32 (sysctl_sched_coloc_busy_hyst_max_ms e) * NSEC_PER_MSEC.

Definition sched_update_hyst_times (s : sched_avg) : sched_avg :=
  let rtgb_active := is_rtgb_active e && negb (conservative_boost e) && (rtgb_active_time e <? MAX_RTGB_TIME) in
  let enabled c mask := negb (Z.land (BIT c) mask =? 0) in
  set_hysts (λ c,
    let h := hysts s c in
    if decide (c ∈ possible_cpus) then
      mk_cpu_hyst (busy_hyst_end_time h)
        (if enabled c (sysctl_sched_busy_hyst_enable_cpus e) then sysctl_sched_busy_hyst e else 0)
        (mult_frac (arch_scale_cpu_capacity e c) (sysctl_sched_coloc_busy_hyst_cpu_busy_pct e c) 100)
        (if enabled c (sysctl_sched_coloc_busy_hyst_enable_cpus e) && rtgb_active
         then sysctl_sched_coloc_busy_hyst_cpu e c else 0)
        (if enabled c (sysctl_sched_util_busy_hyst_enable_cpus e) then sysctl_sched_util_busy_hyst_cpu e c else 0)
        (smart_freq_legacy_reason_hyst_ns h)
    else h) s.

(** The loop over all CPUs stops once the sum reaches the threshold. *)
Fixpoint util_reaches (l : list Z) (total thres : Z) : bool :=
  match l with
  | [] => false
  | i :: l => let total := u64 (total + cpu_util e i) in if thres <=? total then true else util_reaches l total thres
  end.

Definition update_busy_hyst_end_time (c enq prev_nr_run curr_time : Z) (s : sched_avg) : sched_avg :=
  let h := hysts s c in
  if is_max_possible_cluster_cpu e c && is_obet e && ((1 <? last_cluster_weight e) || negb (pipeline_in_progress e)) then s
  else if (hyst_time h =? 0) && (coloc_hyst_time h =? 0) && (util_hyst_time h =? 0) && (smart_freq_legacy_reason_hyst_ns h =? 0)
  then s
  else
    let dequeue := enq <? 0 in
    let nr_run_trigger := (BUSY_NR_RUN <=? prev_nr_run) && (pcpu_nr (nrs s c) <? BUSY_NR_RUN) in
    let load_trigger := dequeue && (capacity_orig_of e c <? u64 (cpu_util e c * BUSY_LOAD_FACTOR)) in
    let coloc_load_trigger := dequeue && (coloc_hyst_busy h <? cpu_util e c) in
    let util_load_trigger := dequeue && util_reaches possible_cpus 0 (sysctl_sched_util_busy_hyst_cpu_util e c) in
    let coloc_trigger := nr_run_trigger || coloc_load_trigger in
    let hyst_trigger := nr_run_trigger || load_trigger || (lpm_bias_config e && conservative_boost e) in
    let agg := Z.max (Z.max (Z.max (if hyst_trigger then hyst_time h else 0) (if coloc_trigger then coloc_hyst_time h else 0))
                        (if util_load_trigger then util_hyst_time h else 0)) (smart_freq_legacy_reason_hyst_ns h) in
    if agg =? 0 then s else set_hyst c (set_end_time (u64 (curr_time + agg)) h) s.

(** [proc_dointvec_minmax] answers [ret]. *)
Definition sched_busy_hyst_handler (ret : Z) (write : bool) (s : sched_avg) : Z * sched_avg :=
  (ret, if (ret =? 0) && write then sched_update_hyst_times s else s).

(** The answer and, with 0, the timeout. *)
Definition sched_lpm_disallowed_time (now c : Z) (s : sched_avg) : Z * option Z :=
  let bias_end_time := busy_hyst_end_time (hysts s c) in
  if walt_disabled e then (- EAGAIN, None)
  else if is_reserved e c then (0, Some (10 * NSEC_PER_MSEC))
  else if now <? bias_end_time then (0, Some (bias_end_time - now))
  else (2 ^ 31 - 1, None).

(** [hyst_ms i c] is the table's entry of reason [i]; [active] the cluster's reasons. *)
Definition update_smart_freq_legacy_reason_hyst_time (LEGACY_SMART_FREQ : Z) (hyst_ms : Z → Z → Z) (active : Z) (cpus : list Z)
    (s : sched_avg) : sched_avg :=
  set_hysts (λ c,
    if decide (c ∈ cpus) then
      set_smart_hyst (foldl (λ m i, if negb (Z.land active (BIT i) =? 0) then Z.max (hyst_ms i c) m else m) 0
                        (seqZ 0 LEGACY_SMART_FREQ) * NSEC_PER_MSEC) (hysts s c)
    else hysts s c) s.

(** ** Counting *)
Definition backwards (diff : Z) : bool := 2 ^ 63 <=? diff.

Definition add_prod (c now this_cpu nr' diff : Z) (x : cpu_nr) : cpu_nr :=
  mk_cpu_nr (u64 (nr_prod_sum x + pcpu_nr x * diff)) now this_cpu (u64 (nr_big_prod_sum x + walt_big_tasks e c * diff))
    (u64 (nr_giant_prod_sum x + walt_giant_tasks e c * diff)) nr' (Z.max (pcpu_nr_max x) nr').

Definition sched_update_nr_prod (c enq now this_cpu nr_running : Z) : M unit :=
  let* s := kget in
  let x := nrs s c in
  let diff := u64 (now - last_time x) in
  if backwards diff then kfail Bug
  else
    kmodify (set_nr c (add_prod c now this_cpu (u32 (nr_running + enq)) diff x)) ;;;
    if enq =? 0 then kret tt else kmodify (update_busy_hyst_end_time c enq (pcpu_nr x) now).

(** ** Polling *)
Definition cpu_stats (c now period : Z) (x : cpu_nr) : sched_avg_stats :=
  let diff := u64 (now - last_time x) in
  let tmp sum n := u64 (u64 (sum + n * diff) * 100) / period in
  let tmp_nr := tmp (nr_prod_sum x) (pcpu_nr x) in
  let tmp_misfit := tmp (nr_big_prod_sum x) (walt_big_tasks e c) in
  let tmp_giant := tmp (nr_giant_prod_sum x) (walt_giant_tasks e c) in
  let rounded t := s32 (u64 (t + NR_THRESHOLD_PCT) / 100) in
  mk_avg_stats (rounded tmp_nr) (rounded tmp_misfit) (s32 (pcpu_nr_max x)) (s32 tmp_nr) (rounded tmp_giant).

Definition poll_cpu (period : Z) (clk : Z → Z) (this_cpu c : Z) : M unit :=
  let* s := kget in
  let x := nrs s c in
  let now := clk c in
  if backwards (u64 (now - last_time x)) then kfail Bug
  else
    kmodify (set_stats c (cpu_stats c now period x)) ;;;
    kmodify (set_nr c (mk_cpu_nr 0 now this_cpu 0 0 (pcpu_nr x) (pcpu_nr x))).

Definition trailblazer_boost_cpu (c : Z) : bool :=
  negb (walt_trailblazer_tasks e c =? 0) && in_last_cluster e c && (TRAILBLAZER_BOOST_THRESH_IPC <=? ipc_cnt e c) &&
  negb (large_cpu_cap_low e).

Definition update_cluster_util (cl : Z * list Z) (s : sched_avg) : sched_avg :=
  let sum := foldl (λ a c, u32 (a + u64 (wrq_util e c * 100) / arch_scale_cpu_capacity e c)) 0 cl.2 in
  set_cstats cl.1 (sum / Z.of_nat (length cl.2)) s.

(** [t0] is the first reading of the clock, [clk c] that for CPU [c]. *)
Definition sched_get_nr_running_avg (t0 : Z) (clk : Z → Z) (this_cpu : Z) : M (option (Z → sched_avg_stats)) :=
  let* s := kget in
  let period := u64 (t0 - last_get_time s) in
  if walt_disabled e then kret None
  else if period =? 0 then kret (Some (stats s))
  else
    for_each possible_cpus (poll_cpu period clk this_cpu) ;;;
    let curr_time := default t0 (clk <$> list.last possible_cpus) in
    (if existsb trailblazer_boost_cpu possible_cpus then kmodify (set_trailblazer curr_time) else kret tt) ;;;
    for_each (avg_clusters e) (λ cl, kmodify (update_cluster_util cl)) ;;;
    let* s := kget in
    (if existsb (λ c, negb (coloc_hyst_time (hysts s c) =? 0)) possible_cpus && (MAX_RTGB_TIME <=? rtgb_active_time e)
     then kmodify sched_update_hyst_times else kret tt) ;;;
    kmodify (set_get_time curr_time) ;;;
    let* s := kget in
    kret (Some (stats s)).

Definition sched_get_cluster_util_pct (id : Z) (s : sched_avg) : Z :=
  if id <? MAX_CLUSTERS then cstats_util_pct s id else 0.

(** The busy time of the last window, own and group, in units of capacity. *)
Definition sched_get_cpu_util_pct (walt_scale_demand_divisor prev_runnable_sum grp_prev_runnable_sum c : Z) : Z :=
  let capacity := capacity_orig_of e c in
  let util := u64 (prev_runnable_sum + grp_prev_runnable_sum) / walt_scale_demand_divisor in
  let util := if capacity <=? util then capacity else util in
  u32 (u64 (util * 100) / capacity).
End defs.
