(* ===== verification/SchedAvgSpec.v ===== *)
(** * WALT: what the averages mean

    The counters of a CPU refine a list of segments, each a time and the numbers of
    tasks that lasted for it; a poll reports the mean over the segments since the
    last one. *)

From S2P Require Import Prelude.
From S2P Require Import WaltHalt.
From S2P Require Import CoreCtl.
From S2P Require Import SchedAvg.

(** ** Segments *)
Record seg := mk_seg { dt : Z; seg_nr : Z; seg_big : Z; seg_giant : Z }.
Record acpu := mk_acpu { segs : list seg; since : Z; cur : Z }.

Definition weigh (f : seg → Z) (l : list seg) : Z := foldr (λ x, Z.add (f x * dt x)) 0 l.
Definition peak (base : Z) (l : list seg) : Z := foldr (λ x, Z.max (seg_nr x)) base l.
Definition duration (l : list seg) : Z := weigh (λ _, 1) l.

Lemma weigh_snoc f l x : weigh f (l ++ [x]) = weigh f l + f x * dt x.
Proof. unfold weigh. induction l as [|y l IH]; cbn [app foldr]; lia. Qed.
Lemma peak_snoc b l x : peak b (l ++ [x]) = Z.max (peak b l) (seg_nr x).
Proof. unfold peak. induction l as [|y l IH]; cbn [app foldr]; lia. Qed.
Lemma peak_base b b' l : peak (Z.max b b') l = Z.max (peak b l) b'.
Proof. unfold peak. induction l as [|y l IH]; cbn [foldr]; lia. Qed.

(** The abstract state: the segments since the last poll, its time, and its report. *)
Record aavg := mk_aavg { acpus : Z → acpu; a_get : Z; a_stats : Z → sched_avg_stats }.

Section spec.
Context (e : avg_env).

(** The segments with the one that ends now. *)
Definition closed (c now : Z) (a : acpu) : list seg :=
  segs a ++ [mk_seg (now - since a) (cur a) (walt_big_tasks e c) (walt_giant_tasks e c)].

Definition a_update (c now n : Z) (a : aavg) : aavg :=
  mk_aavg (<[c := mk_acpu (closed c now (acpus a c)) now n]> (acpus a)) (a_get a) (a_stats a).

(** Two decimal places, modulo 2^64; and rounded, up from 60 per cent. *)
Definition mean100 (f : seg → Z) (period : Z) (l : list seg) : Z := u64 (100 * weigh f l) / period.
Definition rounded (m : Z) : Z := s32 (u64 (m + NR_THRESHOLD_PCT) / 100).
Definition report (c now period : Z) (a : acpu) : sched_avg_stats :=
  let l := closed c now a in
  mk_avg_stats (rounded (mean100 seg_nr period l)) (rounded (mean100 seg_big period l))
    (s32 (peak (cur a) (segs a))) (s32 (mean100 seg_nr period l)) (rounded (mean100 seg_giant period l)).

Definition a_poll (t0 : Z) (clk : Z → Z) (a : aavg) : aavg :=
  if walt_disabled e || (t0 =? a_get a) then a
  else
    mk_aavg (λ c, if decide (c ∈ possible_cpus e) then mk_acpu [] (clk c) (cur (acpus a c)) else acpus a c)
      (default t0 (clk <$> list.last (possible_cpus e)))
      (λ c, if decide (c ∈ possible_cpus e) then report c (clk c) (t0 - a_get a) (acpus a c) else a_stats a c).

(** ** Refinement *)
Record cpu_rel (x : cpu_nr) (a : acpu) : Prop := {
  cr_nr : nr_prod_sum x = u64 (weigh seg_nr (segs a));
  cr_big : nr_big_prod_sum x = u64 (weigh seg_big (segs a));
  cr_giant : nr_giant_prod_sum x = u64 (weigh seg_giant (segs a));
  cr_last : last_time x = since a;
  cr_cur : pcpu_nr x = cur a;
  cr_max : pcpu_nr_max x = peak (cur a) (segs a);
}.

Lemma add_prod_rel c now this n x a :
  cpu_rel x a → 0 ≤ now - since a < 2 ^ 63 →
  cpu_rel (add_prod e c now this n (u64 (now - last_time x)) x) (mk_acpu (closed c now a) now n).
Proof.
  intros [H1 H2 H3 H4 H5 H6] Ht. unfold add_prod, closed.
  rewrite H4, (u64_small (now - since a)) by lia.
  split; cbn [nr_prod_sum nr_big_prod_sum nr_giant_prod_sum last_time pcpu_nr pcpu_nr_max segs since cur];
    rewrite ?weigh_snoc, ?H1, ?H2, ?H3, ?H5, ?H6, ?u64_add_l; try done.
  rewrite peak_snoc. cbn. rewrite <-(peak_base n (cur a)), (Z.max_comm n), peak_base. done.
Qed.

Lemma cpu_stats_rel c now period x a :
  cpu_rel x a → 0 ≤ now - since a < 2 ^ 63 → cpu_stats e c now period x = report c now period a.
Proof.
  intros [H1 H2 H3 H4 H5 H6] Ht. unfold cpu_stats, report, closed, mean100.
  rewrite H1, H2, H3, H4, H5, H6, (u64_small (now - since a)) by lia.
  rewrite !weigh_snoc, !u64_add_l, !u64_mul_l. cbn [seg_nr seg_big seg_giant dt].
  rewrite !(Z.mul_comm 100). done.
Qed.
End spec.

(** ** Operations *)
Record avg_rel (s : sched_avg) (a : aavg) : Prop := {
  ar_cpu c : cpu_rel (nrs s c) (acpus a c);
  ar_get : last_get_time s = a_get a;
  ar_stats c : stats s c = a_stats a c;
}.

Inductive aop :=
  | Update (e : avg_env) (c enq now this_cpu nr_running : Z)
  | Poll (e : avg_env) (t0 : Z) (clk : Z → Z) (this_cpu : Z)
  | Hyst_write (e : avg_env) (ret : Z) (write : bool)
  | Smart_freq (n : Z) (hyst_ms : Z → Z → Z) (active : Z) (cpus : list Z).

Definition run_aop (o : aop) : KM sched_avg unit :=
  match o with
  | Update e c enq now this n => sched_update_nr_prod e c enq now this n
  | Poll e t0 clk this => sched_get_nr_running_avg e t0 clk this ;;; kret tt
  | Hyst_write e ret w => kmodify (λ s, (sched_busy_hyst_handler e ret w s).2)
  | Smart_freq n ms act cpus => kmodify (update_smart_freq_legacy_reason_hyst_time n ms act cpus)
  end.
Definition a_op (o : aop) (a : aavg) : aavg :=
  match o with
  | Update e c enq now _ n => a_update e c now (u32 (n + enq)) a
  | Poll e t0 clk _ => a_poll e t0 clk a
  | Hyst_write _ _ _ | Smart_freq _ _ _ _ => a
  end.

(** The clock does not run backwards. *)
Definition aop_ok (o : aop) (a : aavg) : Prop :=
  match o with
  | Update e c _ now _ _ => 0 ≤ now - since (acpus a c) < 2 ^ 63
  | Poll e t0 clk _ => 0 ≤ t0 - a_get a < 2 ^ 64 ∧ ∀ c, c ∈ possible_cpus e → 0 ≤ clk c - since (acpus a c) < 2 ^ 63
  | Hyst_write _ _ _ | Smart_freq _ _ _ _ => True
  end.
Fixpoint aops_ok (l : list aop) (a : aavg) : Prop :=
  match l with [] => True | o :: l => aop_ok o a ∧ aops_ok l (a_op o a) end.

Lemma not_backwards z : 0 ≤ z < 2 ^ 63 → backwards (u64 z) = false.
Proof. intros H. unfold backwards. rewrite u64_small by lia. apply Z.leb_gt; lia. Qed.

(** What the counters and the report become is all that matters here. *)
Lemma avg_rel_same s s' a :
  avg_rel s a → nrs s' = nrs s → last_get_time s' = last_get_time s → stats s' = stats s → avg_rel s' a.
Proof. intros [H1 H2 H3] E1 E2 E3. split; [intros c; by rewrite E1|by rewrite E2|intros c; by rewrite E3]. Qed.

Lemma busy_hyst_same e c enq p now s :
  let s' := update_busy_hyst_end_time e c enq p now s in
  nrs s' = nrs s ∧ last_get_time s' = last_get_time s ∧ stats s' = stats s.
Proof.
  cbv zeta. unfold update_busy_hyst_end_time. destruct (_ && _ && _); [done|]. destruct (_ && _ && _ && _); [done|].
  by destruct (_ =? 0).
Qed.

Lemma update_run e c enq now this n s a :
  avg_rel s a → aop_ok (Update e c enq now this n) a →
  ∃ s', sched_update_nr_prod e c enq now this n s = (Done tt, s') ∧ avg_rel s' (a_update e c now (u32 (n + enq)) a).
Proof.
  intros [H1 H2 H3] Hok. cbn [aop_ok] in Hok. unfold sched_update_nr_prod, kget. unfold kbind at 1.
  rewrite (cr_last _ _ (H1 c)), not_backwards by done.
  set (s1 := set_nr c (add_prod e c now this (u32 (n + enq)) (u64 (now - since (acpus a c))) (nrs s c)) s).
  assert (avg_rel s1 (a_update e c now (u32 (n + enq)) a)) as HR.
  { split; [|done|done]. intros x. unfold s1. cbn [nrs set_nr acpus a_update].
    destruct (decide (x = c)) as [->|Hne]; [rewrite !fn_lookup_insert|rewrite !fn_lookup_insert_ne by done; apply H1].
    rewrite <-(cr_last _ _ (H1 c)). by apply add_prod_rel. }
  unfold kmodify. unfold kbind at 1. fold s1. destruct (enq =? 0); [by exists s1|]. eexists. split; [reflexivity|].
  destruct (busy_hyst_same e c enq (pcpu_nr (nrs s c)) now s1) as (E1 & E2 & E3). by eapply avg_rel_same.
Qed.

(** The loop of a poll. *)
Lemma poll_loop e period clk this l s :
  NoDup l → (∀ c, c ∈ l → 0 ≤ clk c - last_time (nrs s c) < 2 ^ 63) →
  ∃ s', for_each l (poll_cpu e period clk this) s = (Done tt, s') ∧
    last_get_time s' = last_get_time s ∧
    ∀ c, nrs s' c = (if decide (c ∈ l) then mk_cpu_nr 0 (clk c) this 0 0 (pcpu_nr (nrs s c)) (pcpu_nr (nrs s c)) else nrs s c) ∧
      stats s' c = if decide (c ∈ l) then cpu_stats e c (clk c) period (nrs s c) else stats s c.
Proof.
  revert s. induction l as [|c l IH]; intros s Hnd Hclk; cbn [for_each]; [by exists s|].
  apply list.NoDup_cons in Hnd as [Hc Hnd]. unfold poll_cpu at 1. unfold kget, kmodify. unfold kbind at 1 2.
  rewrite not_backwards by (apply Hclk; by left). unfold kbind at 1.
  set (s1 := set_nr c (mk_cpu_nr 0 (clk c) this 0 0 (pcpu_nr (nrs s c)) (pcpu_nr (nrs s c)))
               (set_stats c (cpu_stats e c (clk c) period (nrs s c)) s)).
  assert (∀ x, x ≠ c → nrs s1 x = nrs s x ∧ stats s1 x = stats s x) as Hne.
  { intros x Hx. unfold s1. cbn. by rewrite !fn_lookup_insert_ne by done. }
  destruct (IH s1 Hnd) as (s' & Hrun & Hg & Hall).
  { intros x Hx. rewrite (proj1 (Hne x ltac:(by intros ->))). apply Hclk. by right. }
  exists s'. split; [exact Hrun|]. split; [done|]. intros x. destruct (Hall x) as [-> ->].
  destruct (decide (x = c)) as [->|Hx].
  - rewrite !(decide_False (P := c ∈ l)), !decide_True by (done || by left).
    unfold s1. cbn [nrs stats set_nr set_stats]. by rewrite !fn_lookup_insert.
  - destruct (Hne x Hx) as [E1 E2]. rewrite E1, E2.
    destruct (decide (x ∈ l)) as [Hin|Hin]; [rewrite !decide_True by (by right)|rewrite !decide_False by set_solver]; done.
Qed.

(** The rest of a poll leaves counters and report alone. *)
Lemma clusters_same e l s :
  ∃ s', for_each l (λ cl, kmodify (update_cluster_util e cl)) s = (Done tt, s') ∧
    nrs s' = nrs s ∧ last_get_time s' = last_get_time s ∧ stats s' = stats s.
Proof.
  revert s. induction l as [|cl l IH]; intros s; cbn [for_each]; [by exists s|].
  destruct (IH (update_cluster_util e cl s)) as (s' & Hrun & ?). exists s'. split; [exact Hrun|done].
Qed.

Lemma possible_nodup e : NoDup (possible_cpus e).
Proof. apply NoDup_seqZ. Qed.

Lemma poll_run e t0 clk this s a :
  avg_rel s a → aop_ok (Poll e t0 clk this) a →
  ∃ r s', sched_get_nr_running_avg e t0 clk this s = (Done r, s') ∧ avg_rel s' (a_poll e t0 clk a) ∧
    (walt_disabled e = false → ∃ f, r = Some f ∧ ∀ c, f c = stats s' c).
Proof.
  intros HR [Ht Hclk]. pose proof HR as [H1 H2 H3]. unfold sched_get_nr_running_avg, a_poll. unfold kget at 1. unfold kbind at 1.
  rewrite H2, u64_small by lia. destruct (walt_disabled e) eqn:Ed; cbn [orb]; [by exists None, s|].
  destruct (Z.eqb_spec t0 (a_get a)) as [->|Hne].
  { rewrite Z.sub_diag. cbn [Z.eqb]. exists (Some (stats s)), s. split; [done|]. split; [done|]. eauto. }
  rewrite (proj2 (Z.eqb_neq _ _)) by lia.
  destruct (poll_loop e (t0 - a_get a) clk this (possible_cpus e) s (possible_nodup e)) as (s1 & Hr1 & Hg1 & Hall).
  { intros c Hc. rewrite (cr_last _ _ (H1 c)). by apply Hclk. }
  rewrite (kbind_Done _ _ _ _ _ Hr1). set (t := default t0 (clk <$> list.last (possible_cpus e))).
  assert (∃ s2, (if existsb (trailblazer_boost_cpu e) (possible_cpus e) then kmodify (set_trailblazer t) else kret tt) s1 = (Done tt, s2) ∧
    nrs s2 = nrs s1 ∧ stats s2 = stats s1) as (s2 & Hr2 & N2 & S2) by (destruct (existsb _ _); eexists; done).
  rewrite (kbind_Done _ _ _ _ _ Hr2).
  destruct (clusters_same e (avg_clusters e) s2) as (s3 & Hr3 & N3 & _ & S3). rewrite (kbind_Done _ _ _ _ _ Hr3).
  unfold kget at 1. unfold kbind at 1.
  assert (∃ s4, (if existsb (λ c, negb (coloc_hyst_time (hysts s3 c) =? 0)) (possible_cpus e) && (MAX_RTGB_TIME e <=? rtgb_active_time e)
     then kmodify (sched_update_hyst_times e) else kret tt) s3 = (Done tt, s4) ∧ nrs s4 = nrs s3 ∧ stats s4 = stats s3)
    as (s4 & Hr4 & N4 & S4) by (destruct (_ && _); eexists; done).
  rewrite (kbind_Done _ _ _ _ _ Hr4). eexists _, _. split; [reflexivity|]. split; [|intros _; by eexists].
  split; [|done|]; intros c; cbn [nrs stats set_get_time acpus a_stats]; destruct (Hall c) as [Hn Hs].
  - rewrite N4, N3, N2, Hn. destruct (decide (c ∈ possible_cpus e)) as [Hc|Hc]; [|done].
    split; cbn; [done..|apply H1|apply H1].
  - rewrite S4, S3, S2, Hs. destruct (decide (c ∈ possible_cpus e)) as [Hc|Hc]; [|done].
    apply cpu_stats_rel; [done|by apply Hclk].
Qed.

Lemma hyst_write_rel e ret w s a : avg_rel s a → avg_rel (sched_busy_hyst_handler e ret w s).2 a.
Proof. intros H. unfold sched_busy_hyst_handler. cbn. destruct (_ && _); [|done]. by eapply avg_rel_same. Qed.

Lemma aop_run o s a :
  avg_rel s a → aop_ok o a → ∃ s', run_aop o s = (Done tt, s') ∧ avg_rel s' (a_op o a).
Proof.
  intros HR Hok. destruct o as [e c enq now this n|e t0 clk this|e ret w|n ms act cpus]; cbn [run_aop a_op].
  - by apply update_run.
  - destruct (poll_run e t0 clk this s a HR Hok) as (r & s' & Hrun & HR' & _). rewrite (kbind_Done _ _ _ _ _ Hrun). by exists s'.
  - eexists. split; [reflexivity|]. by apply hyst_write_rel.
  - eexists. split; [reflexivity|]. by eapply avg_rel_same.
Qed.

Lemma aops_run l s a :
  avg_rel s a → aops_ok l a → ∃ s', for_each l run_aop s = (Done tt, s') ∧ avg_rel s' (foldl (λ a o, a_op o a) a l).
Proof.
  revert s a. induction l as [|o l IH]; intros s a HR Hl; cbn [for_each foldl]; [by exists s|].
  destruct Hl as [Ho Hl]. destruct (aop_run o s a HR Ho) as (s1 & Hrun & HR1). rewrite (kbind_Done _ _ _ _ _ Hrun). by apply IH.
Qed.

Lemma aops_ok_app l l' a : aops_ok (l ++ l') a → aops_ok l a ∧ aops_ok l' (foldl (λ a o, a_op o a) a l).
Proof.
  revert a. induction l as [|o l IH]; intros a; cbn [app aops_ok foldl]; [done|].
  intros [Ho Hl]. destruct (IH _ Hl). done.
Qed.

(** C10: the averages are those of the tasks seen.  With a clock that does not run backwards,
    any sequence of enqueues, dequeues and misfit updates on any CPUs, polls and changes of the
    hysteresis settings runs without panic, and every poll answers for every CPU what the
    segments since the last poll give: the weighted numbers of all, misfit and giant tasks over
    the period, times 100 and modulo 2^64, rounded up from 60 per cent, and the
    largest number of tasks seen. *)
Theorem averages_refine l e t0 clk this s a :
  avg_rel s a → aops_ok (l ++ [Poll e t0 clk this]) a → walt_disabled e = false →
  ∃ f s', (for_each l run_aop ;;; sched_get_nr_running_avg e t0 clk this) s = (Done (Some f), s') ∧
    let a' := foldl (λ a o, a_op o a) a l in
    ∀ c, f c = a_stats (a_poll e t0 clk a') c.
Proof.
  intros HR Hok Hd.
  destruct (aops_ok_app l [Poll e t0 clk this] a Hok) as [Hl [Hp _]].
  destruct (aops_run l s a HR Hl) as (s1 & Hrun & HR1). rewrite (kbind_Done _ _ _ _ _ Hrun).
  destruct (poll_run e t0 clk this s1 _ HR1 Hp) as (r & s' & Hrun' & HR' & Hf). destruct (Hf Hd) as (f & -> & Hfc).
  exists f, s'. split; [done|]. intros a' c. rewrite Hfc. apply (ar_stats _ _ HR').
Qed.

(** ** A true mean *)
Section mean.
Context (N : Z).

(** Polls that read the clock once for all CPUs. *)
Definition instant (o : aop) : Prop :=
  match o with
  | Poll e t0 clk _ => num_cpus e = N ∧ ∀ c, c ∈ seqZ 0 N → clk c = t0
  | Update e _ _ _ _ _ => num_cpus e = N
  | _ => True
  end.

(** The segments of every CPU cover the time since the last poll. *)
Definition spans (a : aavg) : Prop :=
  ∀ c, c ∈ seqZ 0 N → duration (segs (acpus a c)) = since (acpus a c) - a_get a ∧ Forall (λ x, 0 ≤ dt x) (segs (acpus a c)).

Lemma closed_spans e c now a :
  duration (segs (acpus a c)) = since (acpus a c) - a_get a → Forall (λ x, 0 ≤ dt x) (segs (acpus a c)) →
  0 ≤ now - since (acpus a c) →
  duration (closed e c now (acpus a c)) = now - a_get a ∧ Forall (λ x, 0 ≤ dt x) (closed e c now (acpus a c)).
Proof.
  intros H1 H2 Hn. unfold closed, duration in *. rewrite weigh_snoc, H1. cbn [dt]. split; [lia|].
  apply Forall_app_2; [done|]. apply Forall_cons_2; [done|apply Forall_nil_2].
Qed.

Lemma a_op_spans o a : spans a → aop_ok o a → instant o → spans (a_op o a).
Proof.
  intros Hs Hok Hi. destruct o as [e c enq now this n|e t0 clk this| |]; cbn [a_op instant] in *; [| |done|done].
  - intros x Hx. cbn [acpus a_update a_get]. destruct (decide (x = c)) as [->|Hne]; [|rewrite fn_lookup_insert_ne by done; by apply Hs].
    rewrite fn_lookup_insert. destruct (Hs c Hx) as [H1 H2]. apply closed_spans; [done..|]. cbn [aop_ok since] in *. lia.
  - destruct Hi as [HN Hc]. unfold a_poll. destruct (_ || _); [done|]. intros x Hx. cbn [acpus a_get]. unfold possible_cpus. rewrite HN.
    rewrite decide_True by done. cbn [segs since]. split; [|constructor]. rewrite (Hc x Hx).
    destruct (list.last (seqZ 0 N)) as [y|] eqn:Hy; cbn [fmap option_map default option_fmap from_option].
    + rewrite Hc; [unfold duration; cbn; lia|]. apply list.last_Some in Hy as (l & ->). apply elem_of_app. right. by left.
    + apply list.last_None in Hy. rewrite Hy in Hx. by apply not_elem_of_nil in Hx.
Qed.

Lemma weigh_between f lo hi l :
  Forall (λ x, 0 ≤ dt x) l → (∀ x, x ∈ l → lo ≤ f x ≤ hi) → lo * duration l ≤ weigh f l ≤ hi * duration l.
Proof.
  unfold duration, weigh. induction 1 as [|x l Hx _ IH]; intros Hf; cbn [foldr]; [lia|].
  pose proof (Hf x ltac:(by left)). destruct IH as [IH1 IH2]; [intros y Hy; apply Hf; by right|]. nia.
Qed.

Lemma mean100_between f lo hi period l :
  Forall (λ x, 0 ≤ dt x) l → duration l = period → 0 < period → 0 ≤ lo → (∀ x, x ∈ l → lo ≤ f x ≤ hi) →
  100 * (hi * period) < 2 ^ 64 → 100 * lo ≤ mean100 f period l ≤ 100 * hi.
Proof.
  intros Hl Hd Hp Hlo Hf Hov. destruct (weigh_between f lo hi l Hl Hf) as [H1 H2]. rewrite Hd in *.
  unfold mean100. rewrite u64_small by nia. split; [apply Z.div_le_lower_bound; nia|apply Z.div_le_upper_bound; nia].
Qed.

Lemma rounded_between m lo hi : 0 ≤ lo → 100 * lo ≤ m ≤ 100 * hi → 100 * hi < 2 ^ 31 → lo ≤ rounded m ≤ hi.
Proof.
  intros Hlo Hm Hhi. unfold rounded, NR_THRESHOLD_PCT. rewrite u64_small by lia.
  assert (lo ≤ (m + 40) / 100 ≤ hi) by (split; [apply Z.div_le_lower_bound; lia|apply Z.lt_succ_r, Z.div_lt_upper_bound; lia]).
  rewrite s32_small; lia.
Qed.

Lemma ops_spans l a : spans a → aops_ok l a → Forall instant l → spans (foldl (λ a o, a_op o a) a l).
Proof.
  revert a. induction l as [|o l IH]; intros a Hs Hl Hi; cbn [foldl]; [done|]. destruct Hl as [Ho Hl].
  apply list.Forall_cons in Hi as [Hi0 Hi]. apply IH; [by apply a_op_spans|done..].
Qed.

(** C11: the averages are means.  When polls read the clock at one instant, between two polls
    the segments of a CPU last exactly the period; so if between [lo] and [hi] tasks were
    runnable all the time (and sums and results fit their types), the poll reports between [lo]
    and [hi] tasks, in whole tasks and in hundredths; with a constant number it reports this number. *)
Theorem average_between l e t clk this s a c lo hi :
  avg_rel s a → spans a → aops_ok (l ++ [Poll e t clk this]) a → Forall instant (l ++ [Poll e t clk this]) →
  walt_disabled e = false → c ∈ seqZ 0 N →
  let a' := foldl (λ a o, a_op o a) a l in
  a_get a' < t → 0 ≤ lo → (∀ x, x ∈ closed e c t (acpus a' c) → lo ≤ seg_nr x ≤ hi) →
  100 * hi < 2 ^ 31 → 100 * (hi * (t - a_get a')) < 2 ^ 64 →
  ∃ f s', (for_each l run_aop ;;; sched_get_nr_running_avg e t clk this) s = (Done (Some f), s') ∧
    lo ≤ nr (f c) ≤ hi ∧ 100 * lo ≤ nr_scaled (f c) ≤ 100 * hi.
Proof.
  intros HR Hs Hok Hi Hd Hc a' Ht Hlo Hx Hhi Hov. apply Forall_app in Hi as [Hi Hp]. apply list.Forall_cons in Hp as [[HN Hclk] _].
  destruct (aops_ok_app l [Poll e t clk this] a Hok) as [Hl [Hp _]]. fold a' in Hp.
  destruct (ops_spans l a Hs Hl Hi c Hc) as [H1 H2]. fold a' in H1, H2.
  destruct (aops_run l s a HR Hl) as (s1 & Hrun & HR1). rewrite (kbind_Done _ _ _ _ _ Hrun).
  destruct (poll_run e t clk this s1 a' HR1 Hp) as (r & s' & Hrun' & HR' & Hf). destruct (Hf Hd) as (f & -> & Hfc).
  exists f, s'. split; [done|]. rewrite Hfc, (ar_stats _ _ HR'). unfold a_poll. rewrite Hd. cbn [orb].
  rewrite (proj2 (Z.eqb_neq _ _)) by lia. cbn [a_stats]. unfold possible_cpus. rewrite HN, decide_True by done.
  rewrite (Hclk c Hc). destruct Hp as [_ Hp]. specialize (Hp c). unfold possible_cpus in Hp. rewrite HN, (Hclk c Hc) in Hp.
  destruct (closed_spans e c t a' H1 H2) as [K1 K2]; [specialize (Hp Hc); lia|].
  pose proof (mean100_between seg_nr lo hi (t - a_get a') _ K2 K1 ltac:(lia) Hlo Hx Hov) as Hm.
  cbn [report nr nr_scaled]. split; [by apply rounded_between|]. rewrite s32_small; lia.
Qed.
End mean.
