(* ===== verification/SchedAvgCases.v ===== *)
(** * WALT: averages on concrete runs

    Two CPUs with a few enqueues and dequeues, the hypotheses of the theorems at this
    input, and runs that show behaviour worth knowing. *)

From S2P Require Import Prelude.
From S2P Require Import WaltHalt.
From S2P Require Import CoreCtl.
From S2P Require Import SchedAvg.
From S2P Require Import SchedAvgSpec.

Definition two_cpus : avg_env :=
  mk_avg_env 2 false (λ _, 1024) (λ _, 100) (λ _, 512) (λ _, 1024) (λ c, if decide (c = 1) then 1 else 0) (λ _, 0) (λ _, 0) (λ _, 0)
    (λ _, false) 1 false (λ _, false) false false false false false 0 (λ _, false) [(0, [0; 1])] 5000000 3 0 (λ _, 0) (λ _, 10) 0 0
    (λ _, 0) (λ _, 0).

(** After a poll at time 1000, with one task on CPU 0 and none on CPU 1. *)
Definition start : sched_avg :=
  mk_sched_avg (λ c, if decide (c = 0) then mk_cpu_nr 0 1000 0 0 0 1 1 else mk_cpu_nr 0 1000 0 0 0 0 0)
    (λ _, mk_cpu_hyst 0 5000000 0 0 0 0) 1000 (λ _, mk_avg_stats 0 0 0 0 0) (λ _, 0) 0.
Definition a_start : aavg :=
  mk_aavg (λ c, mk_acpu [] 1000 (if decide (c = 0) then 1 else 0)) 1000 (λ _, mk_avg_stats 0 0 0 0 0).

Definition at_once (t : Z) : Z → Z := λ _, t.
(** CPU 0 has 1, 3, 2 tasks for 1000, 2000, 1000 ns; CPU 1 gets one task for half the time. *)
Definition window : list aop :=
  [ Update two_cpus 0 1 2000 0 2; Update two_cpus 1 1 3000 1 0; Update two_cpus 0 (-1) 4000 0 3 ].

Lemma start_rel : avg_rel start a_start.
Proof. split; [|done|done]. intros c. unfold start, a_start. cbn [nrs acpus]. by case_decide. Qed.

Lemma window_ok : aops_ok (window ++ [Poll two_cpus 5000 (at_once 5000) 0]) a_start.
Proof.
  do 3 (split; [vm_compute; split; congruence|]). split; [|done]. split; [vm_compute; split; congruence|].
  intros c Hc. assert (c = 0 ∨ c = 1) as [-> | ->].
  { unfold possible_cpus in Hc. apply elem_of_seqZ in Hc. cbn in Hc. lia. }
  - vm_compute. split; congruence.
  - vm_compute. split; congruence.
Qed.

Lemma averages_refine_witness :
  ∃ f s', (for_each window run_aop ;;; sched_get_nr_running_avg two_cpus 5000 (at_once 5000) 0) start = (Done (Some f), s') ∧
    f 0 = mk_avg_stats 2 0 3 225 0 ∧ f 1 = mk_avg_stats 0 1 1 50 0.
Proof.
  destruct (averages_refine window two_cpus 5000 (at_once 5000) 0 start a_start start_rel window_ok eq_refl) as (f & s' & Hrun & Hf).
  exists f, s'. split; [exact Hrun|]. split; rewrite Hf; vm_compute; reflexivity.
Defined.

Lemma start_spans : spans 2 a_start.
Proof. intros c _. cbn. split; [done|constructor]. Qed.

Lemma average_between_witness :
  ∃ f s', (for_each window run_aop ;;; sched_get_nr_running_avg two_cpus 5000 (at_once 5000) 0) start = (Done (Some f), s') ∧
    1 ≤ nr (f 0) ≤ 3 ∧ 100 * 1 ≤ nr_scaled (f 0) ≤ 100 * 3.
Proof.
  apply (average_between 2 window two_cpus 5000 (at_once 5000) 0 start a_start 0 1 3 start_rel start_spans window_ok).
  - repeat apply Forall_cons_2; [..|apply Forall_nil_2]; try reflexivity. split; [reflexivity|]. intros c _. reflexivity.
  - reflexivity.
  - apply (bool_decide_unpack _). vm_compute. reflexivity.
  - vm_compute. reflexivity.
  - lia.
  - intros x Hx.
    assert (Forall (λ x, 1 ≤ seg_nr x ≤ 3) (closed two_cpus 0 5000 (acpus (foldl (λ a o, a_op o a) a_start window) 0))) as H.
    { apply (bool_decide_unpack _). vm_compute. reflexivity. }
    exact (proj1 (list.Forall_forall _ _) H x Hx).
  - reflexivity.
  - vm_compute. reflexivity.
Defined.

(** ** Behaviour worth knowing *)

(** A poll that takes 60 ns between CPU 0 and CPU 1 starts the next period at CPU 1's reading: a
    CPU that always had one task is reported with two. *)
Definition slow (t : Z) : Z → Z := λ c, t + 60 * c.
Definition reported (r : outcome (option (Z → sched_avg_stats)) * sched_avg) (c : Z) : option (Z * Z * Z) :=
  match r.1 with Done (Some f) => Some (nr (f c), nr_max (f c), nr_scaled (f c)) | _ => None end.
Example slow_poll_overestimates :
  reported ((sched_get_nr_running_avg two_cpus 2000 (slow 2000) 0 ;;;
             sched_get_nr_running_avg two_cpus 2100 (slow 2100) 0) start) 0 = Some (2, 1, 250).
Proof. vm_compute. reflexivity. Qed.

(** A task that ran for 60 per cent of the period counts as one, with 59 per cent it does not. *)
Example counts_from_sixty_percent : rounded 60 = 1 ∧ rounded 59 = 0.
Proof. vm_compute. done. Qed.

(** A trigger replaces the end of the hysteresis even by an earlier time. *)
Example bias_may_shrink :
  let s := set_hyst 0 (mk_cpu_hyst 9000000 0 0 0 0 1000) start in
  busy_hyst_end_time (hysts (update_busy_hyst_end_time two_cpus 0 1 1 2000 s) 0) = 3000.
Proof. vm_compute. reflexivity. Qed.
