(* ===== verification/HabOpen.v ===== *)
(** * HAB contexts: opening, using and closing virtual channels (hab.c, hab_open.c)

    A context's calls on a device with one physical channel.  Sending puts a message into the outbox
    or answers an error; HabMsg shows that what is put into a ring arrives at the other
    side.  A wait is given what happens meanwhile and whether a signal ends it.  A
    virtual channel is named by its key in the channel's table. *)

From S2P Require Import Prelude HabChan HabMsg.

Definition HAB_API_VER : Z := Z.lor (Z.shiftl (Z.land 1 0xFF) 16) (Z.land 0 0xFFF).
Definition HAB_HS_TIMEOUT : Z := 10 * 1000 * 1000.
Definition HABMM_SOCKET_OPEN_FLAGS_UNINTERRUPTIBLE : Z := 4.
Definition HABMM_SOCKET_SEND_FLAGS_NON_BLOCKING : Z := 1.
Definition HABMM_SOCKET_SEND_FLAGS_XING_VM_STAT : Z := 2.
Definition HABMM_SOCKET_XVM_SCHE_TEST : Z := 4.
Definition HABMM_SOCKET_XVM_SCHE_TEST_ACK : Z := 8.
Definition HABMM_SOCKET_XVM_SCHE_RESULT_REQ : Z := 16.
Definition HABMM_SOCKET_XVM_SCHE_RESULT_RSP : Z := 32.
Definition sizeof_xing_vm_stat : Z := 32.
Definition EPROTO : Z := 71.
Definition EPERM : Z := 1.

(** The device with its channel, and the context. *)
Record uhab := mk_uhab {
  chan : hab_state;
  mem_proto : Z;
  closing : bool;
  kernel : bool;
  pending_open : list hab_open_node * Z;      (* and pending_cnt *)
  vchannels : list Z;
  ctx_vcnt : Z;
  outbox : list (hab_header * list Z);
  send_codes : list Z;                        (* what the next sends answer; then 0 *)
}.

Definition set_chan (u : hab_state) (s : uhab) : uhab :=
  mk_uhab u (mem_proto s) (closing s) (kernel s) (pending_open s) (vchannels s) (ctx_vcnt s) (outbox s) (send_codes s).
Definition set_proto (p : Z) (s : uhab) : uhab :=
  mk_uhab (chan s) p (closing s) (kernel s) (pending_open s) (vchannels s) (ctx_vcnt s) (outbox s) (send_codes s).
Definition set_pending (p : list hab_open_node * Z) (s : uhab) : uhab :=
  mk_uhab (chan s) (mem_proto s) (closing s) (kernel s) p (vchannels s) (ctx_vcnt s) (outbox s) (send_codes s).
Definition set_vchannels (l : list Z) (n : Z) (s : uhab) : uhab :=
  mk_uhab (chan s) (mem_proto s) (closing s) (kernel s) (pending_open s) l n (outbox s) (send_codes s).
Definition set_outbox (l : list (hab_header * list Z)) (c : list Z) (s : uhab) : uhab :=
  mk_uhab (chan s) (mem_proto s) (closing s) (kernel s) (pending_open s) (vchannels s) (ctx_vcnt s) l c.

Abbreviation M := (KM uhab).

Definition mod_chan (f : hab_state → hab_state) : M unit := kmodify (λ s, set_chan (f (chan s)) s).
Definition on_chan {A} (f : hab_state → A * hab_state) : M A := λ s,
  let '(a, u) := f (chan s) in (Done a, set_chan u s).
Definition vchan_of (k : Z) (s : uhab) : option virtual_channel := vchan_idr (chan s) !! k.
Definition set_otherend_id (x : Z) (v : virtual_channel) : virtual_channel :=
  mk_vchan (vc_id v) x (otherend_closed v) (vc_closed v) (vc_session_id v) (vc_refcount v) (rx_list v).
Definition set_vc_closed (v : virtual_channel) : virtual_channel :=
  mk_vchan (vc_id v) (otherend_id v) (otherend_closed v) true (vc_session_id v) (vc_refcount v) (rx_list v).
Definition mod_vchan (k : Z) (f : virtual_channel → virtual_channel) : M unit :=
  mod_chan (λ u, set_idr (alter f k (vchan_idr u)) u).

(** ** Sending *)

(** [physical_channel_send] of a back end: the message is on its way, or there is an error. *)
Definition chan_send (h : hab_header) (p : list Z) : M Z :=
  let* s := kget in
  let code := default 0 (head (send_codes s)) in
  kmodify (set_outbox (if code =? 0 then outbox s ++ [(h, p)] else outbox s) (tail (send_codes s))) ;;;
  kret code.

(** As [hab_open_request_send], with the channel of the request. *)
Definition open_request_send (r : hab_open_request) : M Z :=
  match rq_pchan r with
  | None => kfail Undef
  | Some _ => chan_send (open_header (rq_type r)) (open_data_le (xdata r))
  end.

(** ** Waiting for a request *)
Record waits := mk_waits { meanwhile : list (uhab → uhab); signal : bool }.

Section listen.
Context (now : Z).

Fixpoint wait_find (env : list (uhab → uhab)) (listen : hab_open_request) : M (bool * option hab_open_request) :=
  let* s := kget in
  let '(ok, r, u) := hab_open_request_find (closing s) (negb (bool_decide (rq_pchan listen = None)) && pchan_closed (chan s))
                       now listen None (chan s) in
  kmodify (set_chan u) ;;;
  if (ok : bool) then kret (true, r)
  else match env with
       | [] => kret (false, None)
       | f :: env => kmodify f ;;; wait_find env listen
       end.

Definition hab_open_listen (w : waits) (listen : hab_open_request) (ms_timeout flags : Z) : M (Z * option hab_open_request) :=
  let* s := kget in
  let uninterruptible := kernel s && negb (Z.land flags HABMM_SOCKET_OPEN_FLAGS_UNINTERRUPTIBLE =? 0) in
  let* r := wait_find (meanwhile w) listen in
  let '(met, recv) := r in
  if 0 <? ms_timeout then
    kret (if (met : bool) then 0 else if signal w then - EINTR else - EAGAIN, recv)
  else if negb met && (uninterruptible || negb (signal w)) then kfail Hang
  else
    let* s := kget in
    kret (if closing s then - ENODEV else if met then 0 else - EINTR, recv).

(** ** Opening *)
Definition with_ver_fe (v : Z) (r : hab_open_request) : hab_open_request :=
  let x := xdata r in
  mk_open_request (rq_type r) (rq_pchan r) (mk_open_data (vchan_id x) (sub_id x) (open_id x) v (ver_be x) (ver_proto x)).
Definition with_ver_be (v : Z) (r : hab_open_request) : hab_open_request :=
  let x := xdata r in
  mk_open_request (rq_type r) (rq_pchan r) (mk_open_data (vchan_id x) (sub_id x) (open_id x) (ver_fe x) v (ver_proto x)).
Definition major (v : Z) : Z := Z.land v 0xFFFF0000.

Definition pending_enter (r : hab_open_request) : M unit :=
  kmodify (λ s, set_pending (hab_open_pending_enter (mk_open_node r 0) (pending_open s)) s).
Definition pending_exit (r : hab_open_request) : M unit :=
  kmodify (λ s, set_pending (hab_open_pending_exit (mk_open_node r 0) (pending_open s)).2 s).

(** The end of both functions on an error, with what they hold. *)
Definition open_failed (k : Z) (ret : Z) : M (Z + Z) :=
  mod_chan (hab_vchan_put k) ;;; mod_chan hab_pchan_put ;;; kret (inl ret).

(** After the wait for the acknowledgement. *)
Definition frontend_paired (k : Z) (req pend q : hab_open_request) : M (Z + Z) :=
  let x := xdata req in
  if negb (major (ver_fe (xdata q)) =? major (ver_be (xdata q))) then
    pending_exit pend ;;; open_failed k (- EPROTO)
  else
    pending_exit pend ;;;
    kmodify (set_proto (if ver_proto (xdata q) =? 0 then 0 else 1)) ;;;
    mod_vchan k (set_otherend_id (vchan_id (xdata q))) ;;;
    mod_chan (hab_open_request_free (Some q)) ;;;
    let* ret := open_request_send
                  (with_ver_fe HAB_API_VER (hab_open_request_init HAB_PAYLOAD_TYPE_INIT_DONE (rq_pchan req) 0 (sub_id x) (open_id x) req)) in
    if negb (ret =? 0) then open_failed k ret
    else mod_chan hab_pchan_put ;;; kret (inr k).

Definition frontend_cancel (k id ret : Z) (req pend : hab_open_request) : M (Z + Z) :=
  let x := xdata req in
  let* _ := open_request_send
              (with_ver_fe HAB_API_VER (hab_open_request_init HAB_PAYLOAD_TYPE_INIT_CANCEL (rq_pchan req) id (sub_id x) (open_id x) req)) in
  pending_exit pend ;;;
  open_failed k (if ret =? - EAGAIN then - ETIMEDOUT else if negb (ret =? - EINTR) then - EINVAL else ret).

(** [dev_ok], [pchan_ok]: device and channel were found; [junk] is in the uninitialised request. *)
Definition frontend_open (idr_alloc : gmap Z virtual_channel → Z → Z → Z) (dev_ok pchan_ok alloc : bool) (junk : hab_open_send_data)
    (sub oid timeout flags : Z) (w : waits) : M (Z + Z) :=
  if negb dev_ok || negb pchan_ok then kret (inl (- EINVAL))
  else
    mod_chan hab_pchan_get ;;;
    let* v := on_chan (hab_vchan_alloc idr_alloc alloc oid) in
    match v with
    | None => mod_chan hab_pchan_put ;;; kret (inl (- ENOMEM))
    | Some k =>
        let* s := kget in
        let id := default 0 (vc_id <$> vchan_of k s) in
        let me := Some (self (chan s)) in
        let pend := with_ver_fe HAB_API_VER (hab_open_request_init HAB_PAYLOAD_TYPE_INIT me id sub oid (mk_open_request 0 None junk)) in
        let* ret := open_request_send pend in
        if negb (ret =? 0) then open_failed k ret
        else
          pending_enter pend ;;;
          let req := hab_open_request_init HAB_PAYLOAD_TYPE_INIT_ACK me 0 sub oid pend in
          let* r := hab_open_listen w req timeout flags in
          match r with
          | (ret, recv) =>
              match (if ret =? 0 then recv else None) with
              | Some q => frontend_paired k req pend q
              | None => frontend_cancel k id ret req pend
              end
          end
    end.

(** The backend after it has sent the acknowledgement [pend] and waited: [None] is another round. *)
Definition backend_waited (k : Z) (pend : hab_open_request) (ret : Z) (recv : option hab_open_request) : M (option (Z + Z)) :=
  let x := xdata pend in
  let done := hab_open_request_init HAB_PAYLOAD_TYPE_INIT_DONE (rq_pchan pend) 0 (sub_id x) (open_id x) pend in
  let cancel := hab_open_request_init HAB_PAYLOAD_TYPE_INIT_CANCEL (rq_pchan pend) (vchan_id x) (sub_id x) (open_id x) done in
  pending_exit pend ;;;
  if negb (ret =? 0) && match recv with Some q => rq_type q =? HAB_PAYLOAD_TYPE_INIT_CANCEL | None => false end then
    let* _ := open_request_send cancel in
    pending_exit pend ;;;
    let* e := open_failed k (- EINVAL) in kret (Some e)
  else if negb (ret =? - EAGAIN) then
    pending_exit pend ;;;
    match (if ret =? 0 then recv else None) with
    | None => let* e := open_failed k (- EINVAL) in kret (Some e)
    | Some q => mod_chan (hab_open_request_free (Some q)) ;;; mod_chan hab_pchan_put ;;; kret (Some (inr k))
    end
  else
    let* _ := open_request_send (with_ver_be HAB_API_VER cancel) in
    pending_exit pend ;;;
    mod_chan (hab_vchan_put k) ;;; mod_chan hab_pchan_put ;;;
    kret None.

(** One round of the loop. *)
Definition backend_round (idr_alloc : gmap Z virtual_channel → Z → Z → Z) (alloc : bool) (junk : hab_open_send_data)
    (sub timeout flags : Z) (w1 w2 : waits) : M (option (Z + Z)) :=
  let req := hab_open_request_init HAB_PAYLOAD_TYPE_INIT None 0 sub 0 (mk_open_request 0 None junk) in
  let* r := hab_open_listen w1 req timeout flags in
  match r with
  | (ret, recv) =>
      match (if ret =? 0 then recv else None) with
      | None => kret (Some (inl (if ret =? - EAGAIN then - ETIMEDOUT else if ret =? 0 then - EINVAL else ret)))
      | Some q =>
          if negb (major (ver_fe (xdata q)) =? major HAB_API_VER) then
            let* _ := open_request_send
                        (with_ver_be HAB_API_VER (hab_open_request_init HAB_PAYLOAD_TYPE_INIT_ACK None 0 sub (open_id (xdata q)) req)) in
            kret (Some (inl (- EPROTO)))
          else
            kmodify (set_proto (if ver_proto (xdata q) =? 0 then 0 else 1)) ;;;
            mod_chan hab_pchan_get ;;;
            mod_chan (hab_open_request_free (Some q)) ;;;
            let* v := on_chan (hab_vchan_alloc idr_alloc alloc (open_id (xdata q))) in
            match v with
            | None => mod_chan hab_pchan_put ;;; kret (Some (inl (- ENOMEM)))
            | Some k =>
                mod_vchan k (set_otherend_id (vchan_id (xdata q))) ;;;
                let* s := kget in
                let id := default 0 (vc_id <$> vchan_of k s) in
                let me := Some (self (chan s)) in
                let pend := with_ver_be HAB_API_VER (with_ver_fe (ver_fe (xdata q))
                              (hab_open_request_init HAB_PAYLOAD_TYPE_INIT_ACK me id sub (open_id (xdata q)) req)) in
                let* ret := open_request_send pend in
                if negb (ret =? 0) then let* e := open_failed k ret in kret (Some e)
                else
                  pending_enter pend ;;;
                  let* r := hab_open_listen w2
                              (hab_open_request_init HAB_PAYLOAD_TYPE_INIT_DONE me 0 sub (open_id (xdata q)) pend) HAB_HS_TIMEOUT flags in
                  backend_waited k pend r.1 r.2
            end
      end
  end.

(** [rounds] has what happens during the two waits of each round. *)
Fixpoint backend_loop (idr_alloc : gmap Z virtual_channel → Z → Z → Z) (alloc : bool) (junk : hab_open_send_data)
    (sub timeout flags : Z) (rounds : list (waits * waits)) : M (Z + Z) :=
  match rounds with
  | [] => kfail Hang
  | (w1, w2) :: rounds =>
      let* r := backend_round idr_alloc alloc junk sub timeout flags w1 w2 in
      match r with
      | Some e => kret e
      | None => backend_loop idr_alloc alloc junk sub timeout flags rounds
      end
  end.
Definition backend_listen (idr_alloc : gmap Z virtual_channel → Z → Z → Z) (dev_ok alloc : bool) (junk : hab_open_send_data)
    (sub timeout flags : Z) (rounds : list (waits * waits)) : M (Z + Z) :=
  if negb dev_ok then kret (inl (- EINVAL)) else backend_loop idr_alloc alloc junk sub timeout flags rounds.

(** Not in loopback mode.  The code and the id. *)
Definition hab_vchan_open (idr_alloc : gmap Z virtual_channel → Z → Z → Z) (dev_ok pchan_ok kernel_only is_be alloc : bool)
    (junk : hab_open_send_data) (sub oid timeout flags : Z) (w : waits) (rounds : list (waits * waits)) : M (Z * option Z) :=
  if negb dev_ok then kret (- ENODEV, None)
  else if negb pchan_ok then kret (- ENODEV, None)
  else
    mod_chan hab_pchan_get ;;;
    let* s := kget in
    if kernel_only && negb (kernel s) then kret (- EPERM, None)
    else
      let* r := (if is_be then backend_listen idr_alloc dev_ok alloc junk sub timeout flags rounds
                 else frontend_open idr_alloc dev_ok pchan_ok alloc junk sub oid timeout flags w) in
      match r with
      | inl err => kret (err, None)
      | inr k =>
          let* s := kget in
          kmodify (set_vchannels (vchannels s ++ [k]) (ctx_vcnt s + 1)) ;;;
          kret (0, vc_id <$> vchan_of k s)
      end.
End listen.

(** ** Using a channel *)
Definition has_vcid (s : uhab) (vcid : Z) (k : Z) : Prop := vc_id <$> vchan_of k s = Some vcid.
#[export] Instance has_vcid_dec s vcid k : Decision (has_vcid s vcid k).
Proof. unfold has_vcid. apply _. Defined.

Definition hab_get_vchan_fromvcid (vcid : Z) (ignore_remote : bool) : M (option Z) :=
  let* s := kget in
  match list_find (has_vcid s vcid) (vchannels s) with
  | None => kret None
  | Some (_, k) =>
      match vchan_of k s with
      | None => kret None
      | Some v =>
          if (negb ignore_remote && otherend_closed v) || vc_closed v || (vc_refcount v =? 0) then kret None
          else mod_vchan k (set_refcount (vc_refcount v + 1)) ;;; kret (Some k)
      end
  end.

(** The type of a message from the flags; [None] is -EINVAL. *)
Definition send_type (flags n : Z) : option Z :=
  let on f := negb (Z.land flags f =? 0) in
  if on HABMM_SOCKET_SEND_FLAGS_XING_VM_STAT then if n <? sizeof_xing_vm_stat then None else Some HAB_PAYLOAD_TYPE_PROFILE
  else if on HABMM_SOCKET_XVM_SCHE_TEST then Some HAB_PAYLOAD_TYPE_SCHE_MSG
  else if on HABMM_SOCKET_XVM_SCHE_TEST_ACK then Some HAB_PAYLOAD_TYPE_SCHE_MSG_ACK
  else if on HABMM_SOCKET_XVM_SCHE_RESULT_REQ then if n <? 8 then None else Some HAB_PAYLOAD_TYPE_SCHE_RESULT_REQ
  else if on HABMM_SOCKET_XVM_SCHE_RESULT_RSP then if n <? 24 then None else Some HAB_PAYLOAD_TYPE_SCHE_RESULT_RSP
  else Some HAB_PAYLOAD_TYPE_MSG.

(** Retries while the ring is full; [env] is what happens at each [schedule]. *)
Fixpoint send_retry (env : list (uhab → uhab)) (k : Z) (nonblocking : bool) (h : hab_header) (data : list Z) : M Z :=
  let* ret := chan_send h data in
  let* s := kget in
  if default false (otherend_closed <$> vchan_of k s) || nonblocking || negb (ret =? - EAGAIN) then kret ret
  else match env with
       | [] => kfail Hang
       | f :: env => kmodify f ;;; send_retry env k nonblocking h data
       end.

Definition data_header (type n : Z) (v : virtual_channel) : hab_header :=
  HAB_HEADER_SET_ID (HAB_HEADER_SET_TYPE (mk_header 0 n (vc_session_id v) 0 0) type) (otherend_id v).

Definition hab_vchan_send (env : list (uhab → uhab)) (vcid : Z) (data : list Z) (flags : Z) : M Z :=
  let n := Z.of_nat (length data) in
  if HAB_HEADER_SIZE_MAX <? n then kret (- EINVAL)
  else
    let* k := hab_get_vchan_fromvcid vcid false in
    let* s := kget in
    match k with
    | None => kret (- ENODEV)
    | Some k =>
        match vchan_of k s with
        | None => kfail Undef
        | Some v =>
            if otherend_closed v then mod_chan (hab_vchan_put k) ;;; kret (- ENODEV)
            else
              match send_type flags n with
              | None => kret (- EINVAL)
              | Some type =>
                  let* ret := send_retry env k (negb (Z.land flags HABMM_SOCKET_SEND_FLAGS_NON_BLOCKING =? 0)) (data_header type n v) data in
                  mod_chan (hab_vchan_put k) ;;; kret ret
              end
        end
    end.

(** [dispatch] is [physical_channel_rx_dispatch]; [wait] as in [hab_msg_dequeue]. *)
Definition hab_vchan_recv (dispatch : uhab → uhab) (wait : Z → bool → virtual_channel → Z * virtual_channel) (vcid rsize timeout flags : Z)
    : M (Z * option hab_message * Z) :=
  let* k := hab_get_vchan_fromvcid vcid true in
  match k with
  | None => kret (- ENODEV, None, rsize)
  | Some k =>
      (if negb (Z.land flags HABMM_SOCKET_RECV_FLAGS_NON_BLOCKING =? 0) then kmodify dispatch else kret tt) ;;;
      let* s := kget in
      match vchan_of k s with
      | None => kfail Undef
      | Some v =>
          let '(ret, m, size, v) := hab_msg_dequeue wait rsize timeout flags v in
          mod_vchan k (λ _, v) ;;;
          mod_chan (hab_vchan_put k) ;;;
          kret (ret, m, size)
      end
  end.

(** ** Closing *)
Definition hab_send_close_msg (k : Z) : M unit :=
  let* s := kget in
  match vchan_of k s with
  | Some v =>
      if otherend_closed v then kret tt
      else let* _ := chan_send (data_header HAB_PAYLOAD_TYPE_CLOSE 0 v) [] in kret tt
  | None => kret tt
  end.
Definition hab_vchan_stop_notify (k : Z) : M unit := hab_send_close_msg k ;;; mod_chan (hab_vchan_stop k).

Definition hab_vchan_close (vcid : Z) : M Z :=
  let* s := kget in
  match list_find (has_vcid s vcid) (vchannels s) with
  | None => kret (- ENODEV)
  | Some (i, k) =>
      mod_vchan k set_vc_closed ;;;
      kmodify (λ s, set_vchannels (delete i (vchannels s)) (ctx_vcnt s - 1) s) ;;;
      hab_vchan_stop_notify k ;;;
      mod_chan (hab_vchan_put k) ;;;
      kret 0
  end.
