(* ===== verification/HabHandshake.v ===== *)
(** * The open handshake pairs two virtual channels (hab.c, hab_open.c, hab_msg.c)

    The frontend sends INIT and waits for INIT_ACK, the backend waits for INIT, sends
    INIT_ACK and waits for INIT_DONE.  Here the two calls are run against each other:
    what one side receives while it waits is what the other has sent. *)

From S2P Require Import Prelude HabPipe HabChan HabMsg HabOpen.

(** ** The data of a request crosses unchanged *)

Definition int32 (z : Z) : Prop := - 2 ^ 31 ≤ z < 2 ^ 31.

Definition data_int32 (x : hab_open_send_data) : Prop :=
  int32 (vchan_id x) ∧ int32 (sub_id x) ∧ int32 (open_id x) ∧ int32 (ver_fe x) ∧ int32 (ver_be x) ∧ int32 (ver_proto x).

Lemma field_back n z l l' :
  int32 z → length l = n → s32 (le_decode (take 4 (drop n (l ++ le_encode 4 z ++ l')))) = z.
Proof.
  intros Hz <-. rewrite drop_app_length, take_app_length'; [|by rewrite length_le_encode].
  rewrite le_decode_encode. by apply s32_mod.
Qed.

Lemma open_data_back x : data_int32 x → open_data_of (open_data_le x) = x.
Proof.
  destruct x as [a b c d e f]. intros (Ha & Hb & Hc & Hd & He & Hf). cbn in *.
  unfold open_data_of, open_data_le. cbn [vchan_id sub_id open_id ver_fe ver_be ver_proto].
  f_equal.
  - by apply (field_back 0 a []).
  - by apply (field_back 4 b (le_encode 4 a)).
  - by apply (field_back 8 c (le_encode 4 a ++ le_encode 4 b)).
  - by apply (field_back 12 d (le_encode 4 a ++ le_encode 4 b ++ le_encode 4 c)).
  - by apply (field_back 16 e (le_encode 4 a ++ le_encode 4 b ++ le_encode 4 c ++ le_encode 4 d)).
  - by apply (field_back 20 f (le_encode 4 a ++ le_encode 4 b ++ le_encode 4 c ++ le_encode 4 d ++ le_encode 4 e) []).
Qed.

Lemma open_header_type t : 0 ≤ t < 256 → HAB_HEADER_GET_TYPE (open_header t) = t.
Proof.
  intros Ht. unfold open_header.
  by destruct (header_fields_independent (mk_header 0 sizeof_open_data 0 0 0) t 0) as [-> _]; [cbn; lia|..].
Qed.

(** ** Waiting for one message *)

Definition receive (now : Z) (m : hab_header * list Z) (s : uhab) : uhab := set_chan (deliver now m.1 m.2 (chan s)) s.

(** The message of a request, and the request it becomes at the other side. *)
Definition open_msg (t : Z) (x : hab_open_send_data) : hab_header * list Z := (open_header t, open_data_le x).
Definition awake (s : uhab) : Prop := closing s = false ∧ pchan_closed (chan s) = false.

Lemma refind_same u : set_openq (openq_list u) (openq_cnt u) (set_refs (pchan_refcount u - 0) u) = u.
Proof. destruct u. unfold set_openq, set_refs. cbn. f_equal. lia. Qed.

Definition no_reply (now : Z) (listen : hab_open_request) (n : hab_open_node) : Prop := answers listen n = false ∧ expired now n = false.

Lemma nothing_expires now listen me l : Forall (no_reply now listen) l →
  filter (λ n, expired now n = false) l = l ∧ tally (λ n, expired now n && of_chan me n) l = 0.
Proof.
  induction 1 as [|n l [_ Hn] _ [IH1 IH2]]; [done|]. rewrite filter_cons, tally_cons, decide_True by done.
  rewrite IH1, IH2, Hn. done.
Qed.

Lemma no_answer now listen l : Forall (no_reply now listen) l → list_find (λ n, answers listen n = true) l = None.
Proof.
  intros Hl. apply list_find_None. eapply list.Forall_impl; [exact Hl|]. intros n [-> _]. done.
Qed.

Section waiting.
Context (now : Z) (t : Z) (x : hab_open_send_data) (listen : hab_open_request) (s : uhab).
Context (Hawake : awake s) (Ht : 0 ≤ t < 256) (Hd : is_data_type t = false) (Hx : data_int32 x).
Context (Hold : Forall (no_reply now listen) (openq_list (chan s))).
Context (Hans : answers listen (mk_open_node (mk_open_request t (Some (self (chan s))) x) (now + HAB_OPEN_REQ_EXPIRE_TIME_S)) = true).

(** A wait for a request that the next message brings. *)
Lemma wait_one : wait_find now [receive now (open_msg t x)] listen s =
  (Done (true, Some (mk_open_request t (Some (self (chan s))) x)), set_chan (set_refs (pchan_refcount (chan s) + 1) (chan s)) s).
Proof using All.
  destruct Hawake as [Hc Hp], (nothing_expires now listen (self (chan s)) _ Hold) as [He1 He2].
  assert (receive now (open_msg t x) s = set_chan (set_openq (openq_list (chan s) ++
      [mk_open_node (mk_open_request t (Some (self (chan s))) x) (now + HAB_OPEN_REQ_EXPIRE_TIME_S)])
      (openq_cnt (chan s) + 1) (hab_pchan_get (chan s))) s) as Hrec.
  { unfold receive, deliver. cbn [open_msg fst snd]. by rewrite open_header_type, Hd, open_data_back. }
  cbn [wait_find]. unfold kbind at 1, kget at 1. rewrite Hc, Hp, andb_false_r. unfold hab_open_request_find at 1. cbn [orb].
  rewrite (find_loop_none _ _ _ _ (no_answer _ _ _ Hold)), He1, He2. cbn [openq_cnt set_refs]. rewrite refind_same.
  rewrite (kbind_Done (kmodify _) _ s tt s) by (unfold kmodify; by destruct s).
  cbn beta iota. unfold kbind at 1, kmodify at 1. rewrite Hrec. unfold kbind at 1, kget at 1.
  cbn [closing set_chan chan pchan_closed set_openq hab_pchan_get set_refs]. rewrite Hc, Hp, andb_false_r.
  unfold hab_open_request_find. cbn [orb openq_list set_openq self pchan_refcount hab_pchan_get set_refs openq_cnt].
  rewrite (find_loop_some _ _ _ _ (length (openq_list (chan s)))
    (mk_open_node (mk_open_request t (Some (self (chan s))) x) (now + HAB_OPEN_REQ_EXPIRE_TIME_S))).
  - rewrite take_app_length, He1, He2. unfold kbind, kmodify, kret. cbn [request].
    rewrite drop_ge by (rewrite length_app; cbn; lia). rewrite app_nil_r.
    unfold set_chan, set_openq, set_refs, hab_pchan_get. cbn. do 3 f_equal; lia.
  - apply list_find_app_Some. right. split; [|split; [by apply (no_answer now)|]].
    + lia.
    + rewrite Nat.sub_diag. cbn. by rewrite decide_True.
Qed.
End waiting.

(** ** One side at a time *)

Definition vcid_of (u : hab_state) (id : Z) : Z :=
  Z.lor (Z.lor (Z.land (Z.shiftl id HAB_VCID_ID_SHIFT) HAB_VCID_ID_MASK)
               (Z.land (Z.shiftl (habdev_id u) HAB_VCID_MMID_SHIFT) HAB_VCID_MMID_MASK))
        (Z.land (Z.shiftl (dom_id u) HAB_VCID_DOMID_SHIFT) HAB_VCID_DOMID_MASK).

(** A new channel [v] under [k]; its table entry holds a reference. *)
Definition opened (k : Z) (v : virtual_channel) (u : hab_state) : hab_state :=
  set_idr (<[k := v]> (vchan_idr u)) (set_vcnt (vcnt u + 1) (hab_pchan_get u)).

(** A side after the handshake, with the messages it sent. *)
Definition after (k : Z) (v : virtual_channel) (sent : list (hab_header * list Z)) (s : uhab) : uhab :=
  set_outbox (outbox s ++ sent) [] (set_proto 1 (set_chan (opened k v (chan s)) s)).

Lemma send_open s r p : send_codes s = [] → rq_pchan r = Some p →
  open_request_send r s = (Done 0, set_outbox (outbox s ++ [open_msg (rq_type r) (xdata r)]) [] s).
Proof. intros Hs Hr. unfold open_request_send, chan_send, kbind, kget, kmodify, kret. by rewrite Hr, Hs. Qed.

(** Leaving the pending opens undoes entering them; leaving twice is harmless. *)
Definition not_pending (oid : Z) (c : list hab_open_node * Z) : Prop := Forall (λ n, open_id (xdata (request n)) ≠ oid) c.1.

Lemma not_same_open r n : open_id (xdata (request n)) ≠ open_id (xdata r) → same_open n (mk_open_node r 0) = false.
Proof. intros Hn. unfold same_open. cbn [request]. rewrite (proj2 (Z.eqb_neq _ _) Hn). apply andb_false_r. Qed.

Lemma same_open_refl r : same_open (mk_open_node r 0) (mk_open_node r 0) = true.
Proof. unfold same_open. by rewrite !Z.eqb_refl, bool_decide_true. Qed.

Lemma exit_absent r c : not_pending (open_id (xdata r)) c → (hab_open_pending_exit (mk_open_node r 0) c).2 = c.
Proof.
  destruct c as [l n]. unfold not_pending, hab_open_pending_exit. cbn [fst snd]. intros Hl.
  assert (filter (λ node, same_open node (mk_open_node r 0) = true) l = [] ∧
          filter (λ node, same_open node (mk_open_node r 0) = false) l = l) as [-> ->]; [|cbn; f_equal; lia].
  induction Hl as [|m l Hm _ [IH1 IH2]]; [done|]. rewrite !filter_cons, (not_same_open r m Hm).
  rewrite IH1, IH2. by repeat case_decide.
Qed.

Lemma exit_entered r c : not_pending (open_id (xdata r)) c →
  (hab_open_pending_exit (mk_open_node r 0) (hab_open_pending_enter (mk_open_node r 0) c)).2 = c.
Proof.
  intros Hc. pose proof (exit_absent r c Hc) as He. destruct c as [l n]. unfold hab_open_pending_exit, hab_open_pending_enter in *.
  cbn [fst snd] in *. apply pair_equal_spec in He as [He1 He2].
  rewrite !list.filter_app, !filter_cons, same_open_refl, He1.
  repeat case_decide; try done. rewrite !filter_nil, app_nil_r, length_app. cbn [length]. f_equal. lia.
Qed.

(** A side that can open a channel under the key [k]. *)
Record fresh (now k oid : Z) (idr_alloc : gmap Z virtual_channel → Z → Z → Z) (s : uhab) : Prop := {
  fr_alloc : idr_alloc (vchan_idr (chan s)) 1 4096 = k;
  fr_key : 1 ≤ k ≤ 4095;
  fr_free : vchan_idr (chan s) !! k = None;
  fr_awake : awake s;
  fr_send : send_codes s = [];
  fr_oid : oid ≠ 0;
  fr_pending : not_pending oid (pending_open s);
  fr_queue : Forall (λ n, open_id (xdata (request n)) ≠ oid ∧ expired now n = false) (openq_list (chan s));
}.

Lemma queue_no_reply now k oid idr_alloc s listen : fresh now k oid idr_alloc s → open_id (xdata listen) = oid →
  Forall (no_reply now listen) (openq_list (chan s)).
Proof.
  intros Hf Ho. eapply list.Forall_impl; [apply (fr_queue _ _ _ _ _ Hf)|]. cbv beta. intros n [Hn He]. split; [|done].
  unfold answers. rewrite Ho, (proj2 (Z.eqb_neq _ _) Hn), (proj2 (Z.eqb_neq _ _) (fr_oid _ _ _ _ _ Hf)).
  cbn [orb]. by rewrite andb_false_r.
Qed.

Definition new_vchan (u : hab_state) (k other oid : Z) : virtual_channel := mk_vchan (vcid_of u k) other false false oid 1 [].

Lemma alloc_fresh idr_alloc k oid s : idr_alloc (vchan_idr (chan s)) 1 4096 = k → 1 ≤ k → pchan_closed (chan s) = false →
  on_chan (hab_vchan_alloc idr_alloc true oid) s = (Done (Some k), set_chan (opened k (new_vchan (chan s) k 0 oid) (chan s)) s).
Proof.
  intros Hk H1 Hp. unfold on_chan, hab_vchan_alloc. cbn [negb].
  change (Z.shiftr HAB_VCID_ID_MASK HAB_VCID_ID_SHIFT + 1) with 4096. rewrite Hk.
  destruct (Z.leb_spec k 0); [lia|]. cbn [pchan_closed set_vcnt hab_pchan_get set_refs]. by rewrite Hp.
Qed.

Lemma listen_one now t x listen s sig timeout flags :
  awake s → 0 ≤ t < 256 → is_data_type t = false → data_int32 x → Forall (no_reply now listen) (openq_list (chan s)) →
  answers listen (mk_open_node (mk_open_request t (Some (self (chan s))) x) (now + HAB_OPEN_REQ_EXPIRE_TIME_S)) = true →
  hab_open_listen now (mk_waits [receive now (open_msg t x)] sig) listen timeout flags s =
    (Done (0, Some (mk_open_request t (Some (self (chan s))) x)), set_chan (set_refs (pchan_refcount (chan s) + 1) (chan s)) s).
Proof.
  intros Ha Ht Hd Hx Hq Hans. unfold hab_open_listen. unfold kbind at 1, kget at 1. cbn [meanwhile signal].
  rewrite (kbind_Done _ _ _ _ _ (wait_one now t x listen s Ha Ht Hd Hx Hq Hans)). cbn beta iota. cbn [negb andb].
  destruct (0 <? timeout); [done|]. unfold kbind, kget. cbn [closing set_chan]. destruct Ha as [-> _]. done.
Qed.

(** The frontend's messages, and the conditions on the answer it accepts. *)
Definition init_data (u : hab_state) (k sub oid be : Z) : hab_open_send_data := mk_open_data (vcid_of u k) sub oid HAB_API_VER be 1.
Definition done_data (sub oid be : Z) : hab_open_send_data := mk_open_data 0 sub oid HAB_API_VER be 1.
Definition good_answer (sub oid : Z) (x : hab_open_send_data) : Prop :=
  data_int32 x ∧ sub_id x = sub ∧ open_id x = oid ∧ major (ver_fe x) = major (ver_be x) ∧ ver_proto x ≠ 0.

Lemma put_get u : hab_pchan_put (hab_pchan_get u) = u.
Proof. destruct u. unfold hab_pchan_put, hab_pchan_get, set_refs. cbn. f_equal. lia. Qed.

Lemma alter_known {A} (f : A → A) (m : gmap Z A) k v : m !! k = Some v → alter f k m = <[k := f v]> m.
Proof. intros Hv. rewrite <- (insert_id m k v Hv) at 1. by rewrite alter_insert_eq. Qed.

Lemma frontend_paired_run k req pend q s p v c :
  major (ver_fe (xdata q)) = major (ver_be (xdata q)) → ver_proto (xdata q) ≠ 0 → send_codes s = [] → rq_pchan req = Some p →
  vchan_idr (chan s) !! k = Some v → (hab_open_pending_exit (mk_open_node pend 0) (pending_open s)).2 = c →
  frontend_paired k req pend q s =
    (Done (inr k),
     set_outbox (outbox s ++ [open_msg HAB_PAYLOAD_TYPE_INIT_DONE
                                (done_data (sub_id (xdata req)) (open_id (xdata req)) (ver_be (xdata req)))]) []
       (set_pending c (set_proto 1 (set_chan (set_refs (pchan_refcount (chan s) - 2)
         (set_idr (<[k := set_otherend_id (vchan_id (xdata q)) v]> (vchan_idr (chan s))) (chan s))) s)))).
Proof.
  intros Hver Hproto Hsend Hreq Hv Hexit. unfold frontend_paired. rewrite Hver, Z.eqb_refl. cbn [negb].
  rewrite (proj2 (Z.eqb_neq _ _) Hproto).
  unfold pending_exit, mod_vchan, mod_chan. unfold kbind at 1 2 3 4, kmodify. cbn [pending_open chan set_pending set_proto set_chan].
  rewrite Hexit. cbn [pending_open chan set_pending set_proto set_chan vchan_idr].
  erewrite kbind_Done by (by apply (send_open _ _ p)). cbn [Z.eqb negb].
  unfold kbind, kmodify, kret.
  unfold set_outbox, set_chan, set_pending, set_proto, hab_open_request_free, hab_pchan_put, set_refs, set_idr. cbn.
  rewrite (alter_known _ _ _ _ Hv). do 3 f_equal. lia.
Qed.

(** Reading the fields of a state through the updates. *)
Ltac fields := cbn [chan mem_proto closing kernel pending_open vchannels ctx_vcnt outbox send_codes self dom_id habdev_id pchan_closed
  pchan_refcount vcnt vchan_idr openq_list openq_cnt set_outbox set_pending set_chan set_proto after opened set_idr set_vcnt
  hab_pchan_get hab_pchan_put hab_open_request_free set_refs].

(** States are equal field by field. *)
Lemma uhab_eq s s' :
  chan s = chan s' → mem_proto s = mem_proto s' → closing s = closing s' → kernel s = kernel s' → pending_open s = pending_open s' →
  vchannels s = vchannels s' → ctx_vcnt s = ctx_vcnt s' → outbox s = outbox s' → send_codes s = send_codes s' → s = s'.
Proof. destruct s, s'. cbn. congruence. Qed.

Lemma hab_eq u u' :
  self u = self u' → dom_id u = dom_id u' → habdev_id u = habdev_id u' → pchan_closed u = pchan_closed u' →
  pchan_refcount u = pchan_refcount u' → vcnt u = vcnt u' → vchan_idr u = vchan_idr u' → openq_list u = openq_list u' →
  openq_cnt u = openq_cnt u' → u = u'.
Proof. destruct u, u'. cbn. congruence. Qed.

(** The request of the frontend, and its state when it starts to wait. *)
Definition fe_pend (u : hab_state) (k sub oid be : Z) : hab_open_request :=
  mk_open_request HAB_PAYLOAD_TYPE_INIT (Some (self u)) (init_data u k sub oid be).
Definition fe_waiting (k sub oid be : Z) (s : uhab) : uhab :=
  set_pending (hab_open_pending_enter (mk_open_node (fe_pend (chan s) k sub oid be) 0) (pending_open s))
    (set_outbox (outbox s ++ [open_msg HAB_PAYLOAD_TYPE_INIT (init_data (chan s) k sub oid be)]) []
      (set_chan (opened k (new_vchan (chan s) k 0 oid) (hab_pchan_get (chan s))) s)).

Lemma frontend_calls now k oid idr_alloc s sub junk timeout flags w :
  fresh now k oid idr_alloc s →
  let pend := fe_pend (chan s) k sub oid (ver_be junk) in
  let req := hab_open_request_init HAB_PAYLOAD_TYPE_INIT_ACK (Some (self (chan s))) 0 sub oid pend in
  frontend_open now idr_alloc true true true junk sub oid timeout flags w s =
    (let* r := hab_open_listen now w req timeout flags in
     match (if r.1 =? 0 then r.2 else None) with
     | Some q => frontend_paired k req pend q
     | None => frontend_cancel k (vcid_of (chan s) k) r.1 req pend
     end) (fe_waiting k sub oid (ver_be junk) s).
Proof.
  intros Hf pend req. pose proof (fr_awake _ _ _ _ _ Hf) as [Hc Hp]. unfold frontend_open. cbn [negb orb].
  rewrite (kbind_Done (mod_chan hab_pchan_get) _ s tt (set_chan (hab_pchan_get (chan s)) s) eq_refl).
  rewrite (kbind_Done _ _ _ _ _ (alloc_fresh idr_alloc k oid (set_chan (hab_pchan_get (chan s)) s)
    (fr_alloc _ _ _ _ _ Hf) (proj1 (fr_key _ _ _ _ _ Hf)) Hp)).
  unfold kbind at 1, kget at 1.
  match goal with |- context [vchan_of k ?u] => set (s1 := u) end.
  assert (vchan_of k s1 = Some (new_vchan (chan s) k 0 oid)) as Hv1
    by (unfold s1, vchan_of; fields; by rewrite lookup_insert_eq).
  rewrite Hv1. cbn [fmap option_fmap option_map default new_vchan vc_id].
  change (with_ver_fe HAB_API_VER _) with pend. change (hab_open_request_init _ _ 0 sub oid pend) with req.
  rewrite (kbind_Done _ _ _ _ _ (send_open s1 pend _ (fr_send _ _ _ _ _ Hf) eq_refl)). cbn [negb Z.eqb].
  unfold pending_enter at 1. rewrite (kbind_Done (kmodify _) _ _ _ _ eq_refl).
  replace (set_pending _ _) with (fe_waiting k sub oid (ver_be junk) s); [|reflexivity].
  unfold kbind. destruct (hab_open_listen _ _ _ _ _ _) as [[[ret recv]| | |] s']; reflexivity.
Qed.

Lemma frontend_opens now k oid idr_alloc s sub junk x timeout flags sig :
  fresh now k oid idr_alloc s → good_answer sub oid x →
  frontend_open now idr_alloc true true true junk sub oid timeout flags
      (mk_waits [receive now (open_msg HAB_PAYLOAD_TYPE_INIT_ACK x)] sig) s =
    (Done (inr k), after k (new_vchan (chan s) k (vchan_id x) oid)
       [open_msg HAB_PAYLOAD_TYPE_INIT (init_data (chan s) k sub oid (ver_be junk));
        open_msg HAB_PAYLOAD_TYPE_INIT_DONE (done_data sub oid (ver_be junk))] s).
Proof.
  intros Hf (Hx & Hsub & Hoid & Hver & Hproto). rewrite (frontend_calls now k oid) by done.
  erewrite kbind_Done; [|apply listen_one; [exact (fr_awake _ _ _ _ _ Hf)|done..|by apply (queue_no_reply _ k oid idr_alloc s)|]].
  2: { unfold answers. cbn. rewrite Hsub, Hoid, !Z.eqb_refl, orb_true_r. by rewrite bool_decide_true. }
  cbn [fst snd]. rewrite Z.eqb_refl.
  erewrite (frontend_paired_run k _ (fe_pend (chan s) k sub oid (ver_be junk)) _ _ _ (new_vchan (chan s) k 0 oid) (pending_open s));
    [|exact Hver|exact Hproto|reflexivity|reflexivity|apply lookup_insert_eq
     |exact (exit_entered (fe_pend (chan s) k sub oid (ver_be junk)) (pending_open s) (fr_pending _ _ _ _ _ Hf))].
  f_equal. apply uhab_eq; [|reflexivity..|unfold fe_waiting; fields; by rewrite <- app_assoc|reflexivity].
  apply hab_eq; try reflexivity; unfold fe_waiting; fields; [lia|apply insert_insert_eq].
Qed.

(** The backend's message, and the requests it takes. *)
Definition ack_data (u : hab_state) (k sub oid fe : Z) : hab_open_send_data := mk_open_data (vcid_of u k) sub oid fe HAB_API_VER 1.
Definition good_call (sub oid : Z) (x : hab_open_send_data) : Prop :=
  data_int32 x ∧ sub_id x = sub ∧ open_id x = oid ∧ major (ver_fe x) = major HAB_API_VER ∧ ver_proto x ≠ 0.
Definition good_done (sub oid : Z) (x : hab_open_send_data) : Prop := data_int32 x ∧ sub_id x = sub ∧ open_id x = oid.

(** No call or cancellation for the sub id waits in the queue. *)
Definition uncalled (sub : Z) (u : hab_state) : Prop :=
  Forall (λ n, sub_id (xdata (request n)) = sub →
    rq_type (request n) ≠ HAB_PAYLOAD_TYPE_INIT ∧ rq_type (request n) ≠ HAB_PAYLOAD_TYPE_INIT_CANCEL) (openq_list u).

Lemma uncalled_no_reply now k oid idr_alloc s sub r :
  fresh now k oid idr_alloc s → uncalled sub (chan s) →
  Forall (no_reply now (hab_open_request_init HAB_PAYLOAD_TYPE_INIT None 0 sub 0 r)) (openq_list (chan s)).
Proof.
  intros Hf Hu. pose proof (fr_queue _ _ _ _ _ Hf) as Hq. unfold uncalled in Hu.
  rewrite list.Forall_forall in Hq, Hu |- *. intros n Hin. destruct (Hq n Hin) as [_ He]. pose proof (Hu n Hin) as Hn. split; [|done].
  unfold answers. cbn [rq_type sub_id xdata hab_open_request_init].
  destruct (Z.eqb_spec (sub_id (xdata (request n))) sub) as [Hs|Hs]; [|by rewrite andb_false_r].
  destruct (Hn Hs) as [H1 H2]. by rewrite (proj2 (Z.eqb_neq _ _) H1), (proj2 (Z.eqb_neq _ _) H2).
Qed.

Lemma backend_waited_run k pend q s c :
  (hab_open_pending_exit (mk_open_node pend 0) (pending_open s)).2 = c → not_pending (open_id (xdata pend)) c →
  backend_waited k pend 0 (Some q) s =
    (Done (Some (inr k)), set_pending c (set_chan (set_refs (pchan_refcount (chan s) - 2) (chan s)) s)).
Proof.
  intros Hexit Hc. unfold backend_waited, pending_exit, mod_chan. change (negb (0 =? - EAGAIN)) with true. cbn [Z.eqb negb andb].
  unfold kbind at 1, kmodify at 1. rewrite Hexit. unfold kbind, kmodify, kret. cbn [pending_open set_pending].
  rewrite exit_absent by done. f_equal. apply uhab_eq; [|reflexivity..]. apply hab_eq; try reflexivity. cbn. lia.
Qed.

Lemma backend_round_run now k oid idr_alloc s sub junk xi xd timeout flags sig1 sig2 :
  fresh now k oid idr_alloc s → uncalled sub (chan s) → good_call sub oid xi → good_done sub oid xd →
  backend_round now idr_alloc true junk sub timeout flags
      (mk_waits [receive now (open_msg HAB_PAYLOAD_TYPE_INIT xi)] sig1)
      (mk_waits [receive now (open_msg HAB_PAYLOAD_TYPE_INIT_DONE xd)] sig2) s =
    (Done (Some (inr k)), after k (new_vchan (chan s) k (vchan_id xi) oid)
       [open_msg HAB_PAYLOAD_TYPE_INIT_ACK (ack_data (chan s) k sub oid (ver_fe xi))] s).
Proof.
  intros Hf Hu (Hx & Hsub & Hoid & Hver & Hproto) (Hxd & Hdsub & Hdoid). pose proof (fr_awake _ _ _ _ _ Hf) as [Hc Hp].
  unfold backend_round.
  erewrite kbind_Done; [|apply listen_one; [done..|by apply (uncalled_no_reply _ k oid idr_alloc s)|]].
  2: { unfold answers. cbn. by rewrite Hsub, Z.eqb_refl. }
  cbn beta iota. rewrite Z.eqb_refl. cbn [xdata]. rewrite Hver, Z.eqb_refl. cbn [negb].
  rewrite (proj2 (Z.eqb_neq _ _) Hproto).
  unfold mod_chan at 1 2. rewrite !(kbind_Done (kmodify _) _ _ _ _ eq_refl).
  match goal with |- context [kbind (on_chan _) _ ?u] => replace u with (set_proto 1 (set_chan (hab_pchan_get (chan s)) s)) end.
  2: { apply uhab_eq; [|reflexivity..]. apply hab_eq; try reflexivity. fields. lia. }
  rewrite Hoid, (kbind_Done _ _ _ _ _ (alloc_fresh idr_alloc k oid (set_proto 1 (set_chan (hab_pchan_get (chan s)) s))
    (fr_alloc _ _ _ _ _ Hf) (proj1 (fr_key _ _ _ _ _ Hf)) Hp)).
  unfold mod_vchan, mod_chan. rewrite (kbind_Done (kmodify _) _ _ _ _ eq_refl).
  match goal with |- context [kbind kget _ ?u] => replace u with (set_proto 1 (set_chan
      (opened k (new_vchan (chan s) k (vchan_id xi) oid) (hab_pchan_get (chan s))) s)) end.
  2: { apply uhab_eq; [|reflexivity..]. apply hab_eq; try reflexivity. fields. by rewrite alter_insert_eq. }
  set (s1 := set_proto 1 _). unfold kbind at 1, kget at 1.
  assert (vchan_of k s1 = Some (new_vchan (chan s) k (vchan_id xi) oid)) as ->
    by (unfold s1, vchan_of; fields; by rewrite lookup_insert_eq).
  cbn [fmap option_fmap option_map default new_vchan vc_id].
  match goal with |- context [open_request_send ?p] => set (pend := p) end.
  rewrite (kbind_Done _ _ _ _ _ (send_open s1 pend _ (fr_send _ _ _ _ _ Hf) eq_refl)). cbn [negb Z.eqb].
  unfold pending_enter. rewrite (kbind_Done (kmodify _) _ _ _ _ eq_refl).
  erewrite kbind_Done; [|apply listen_one; [done..|by apply (queue_no_reply _ k oid idr_alloc s)|]].
  2: { unfold answers. cbn. rewrite Hdsub, Hdoid, !Z.eqb_refl, orb_true_r. by rewrite bool_decide_true. }
  cbn [fst snd]. rewrite (backend_waited_run k pend _ _ (pending_open s)).
  - f_equal. apply uhab_eq; try reflexivity. apply hab_eq; try reflexivity. unfold s1. fields. lia.
  - fields. exact (exit_entered pend (pending_open s) (fr_pending _ _ _ _ _ Hf)).
  - exact (fr_pending _ _ _ _ _ Hf).
Qed.

Lemma backend_opens now k oid idr_alloc s sub junk xi xd timeout flags sig1 sig2 rounds :
  fresh now k oid idr_alloc s → uncalled sub (chan s) → good_call sub oid xi → good_done sub oid xd →
  backend_listen now idr_alloc true true junk sub timeout flags
      ((mk_waits [receive now (open_msg HAB_PAYLOAD_TYPE_INIT xi)] sig1,
        mk_waits [receive now (open_msg HAB_PAYLOAD_TYPE_INIT_DONE xd)] sig2) :: rounds) s =
    (Done (inr k), after k (new_vchan (chan s) k (vchan_id xi) oid)
       [open_msg HAB_PAYLOAD_TYPE_INIT_ACK (ack_data (chan s) k sub oid (ver_fe xi))] s).
Proof.
  intros Hf Hu Hi Hd. unfold backend_listen. cbn [negb backend_loop].
  erewrite kbind_Done by (by apply (backend_round_run now k oid)). done.
Qed.

(** ** The frontend without an answer *)

Lemma wait_none now listen s : awake s → Forall (no_reply now listen) (openq_list (chan s)) →
  wait_find now [] listen s = (Done (false, None), s).
Proof.
  intros [Hc Hp] Hold. destruct (nothing_expires now listen (self (chan s)) _ Hold) as [He1 He2].
  cbn [wait_find]. unfold kbind at 1, kget at 1. rewrite Hc, Hp, andb_false_r. unfold hab_open_request_find. cbn [orb].
  rewrite (find_loop_none _ _ _ _ (no_answer _ _ _ Hold)), He1, He2. cbn [openq_cnt set_refs]. rewrite refind_same.
  unfold kbind, kmodify, kret. by destruct s.
Qed.

Lemma listen_none now listen s sig timeout flags : awake s → Forall (no_reply now listen) (openq_list (chan s)) → 0 < timeout →
  hab_open_listen now (mk_waits [] sig) listen timeout flags s = (Done (if sig then - EINTR else - EAGAIN, None), s).
Proof.
  intros Ha Hq Ht. unfold hab_open_listen. unfold kbind at 1, kget at 1. cbn [meanwhile signal].
  rewrite (kbind_Done _ _ _ _ _ (wait_none now listen s Ha Hq)). cbn beta iota. by rewrite (proj2 (Z.ltb_lt _ _) Ht).
Qed.

Lemma put_opened k v u : HAB_VCID_GET_ID (vc_id v) = k → vc_refcount v = 1 → vchan_idr u !! k = None →
  hab_vchan_put k (opened k v u) = u.
Proof.
  intros Hk Hr Hfree. unfold hab_vchan_put. fields. rewrite lookup_insert_eq. cbn [vc_refcount set_refcount]. rewrite Hr.
  change (1 - 1 =? 0) with true. cbn iota.
  unfold hab_vchan_free. apply hab_eq; try reflexivity; fields; [lia..|].
  cbn [vc_id set_refcount]. rewrite Hk, insert_insert_eq. by apply delete_insert_id.
Qed.

(** The frontend reports the timeout or the signal and tells the other side, and no
    trace of the channel, its references or the pending open remains. *)
Theorem frontend_gives_up now k oid idr_alloc s sub junk timeout flags sig :
  fresh now k oid idr_alloc s → 0 < timeout →
  frontend_open now idr_alloc true true true junk sub oid timeout flags (mk_waits [] sig) s =
    (Done (inl (if sig then - EINTR else - ETIMEDOUT)),
     set_outbox (outbox s ++ [open_msg HAB_PAYLOAD_TYPE_INIT (init_data (chan s) k sub oid (ver_be junk));
                              open_msg HAB_PAYLOAD_TYPE_INIT_CANCEL (init_data (chan s) k sub oid (ver_be junk))]) [] s).
Proof.
  intros Hf Ht. rewrite (frontend_calls now k oid) by done.
  erewrite kbind_Done; [|apply listen_none; [exact (fr_awake _ _ _ _ _ Hf)|by apply (queue_no_reply _ k oid idr_alloc s)|done]].
  cbn [fst snd]. replace ((if sig then - EINTR else - EAGAIN) =? 0) with false by (by destruct sig). 
  unfold frontend_cancel. erewrite kbind_Done by (by apply (send_open _ _ (self (chan s)))).
  unfold pending_exit at 1. rewrite (kbind_Done (kmodify _) _ _ _ _ eq_refl).
  unfold open_failed, mod_chan. rewrite !(kbind_Done (kmodify _) _ _ _ _ eq_refl). unfold kret. f_equal; [by destruct sig|].
  apply uhab_eq; try reflexivity; unfold fe_waiting; fields.
  - rewrite put_opened; [apply put_get|apply vcid_id, (fr_key _ _ _ _ _ Hf)|done|apply (fr_free _ _ _ _ _ Hf)].
  - exact (exit_entered (fe_pend (chan s) k sub oid (ver_be junk)) (pending_open s) (fr_pending _ _ _ _ _ Hf)).
  - by rewrite <- app_assoc.
Qed.

(** ** Both sides *)

Lemma vcid_range u k : 0 ≤ habdev_id u < 0x800 → 0 ≤ vcid_of u k < 2 ^ 31.
Proof.
  intros Hd. replace (vcid_of u k) with (vcid_of u k mod 2 ^ 31); [apply Z.mod_pos_bound; lia|].
  unfold vcid_of, HAB_VCID_ID_SHIFT, HAB_VCID_MMID_SHIFT, HAB_VCID_DOMID_SHIFT.
  rewrite vcid_mask_bits. change HAB_VCID_MMID_MASK with (Z.shiftl (Z.ones 12) 20).
  change HAB_VCID_DOMID_MASK with (Z.shiftl (Z.ones 8) 12). rewrite <- Z.land_ones by lia. change (Z.ones 31) with (Z.shiftl (Z.ones 31) 0).
  apply Z.bits_inj'. intros n Hn.
  repeat first [rewrite Z.land_spec | rewrite Z.lor_spec | rewrite mask_bit by lia | rewrite shl_bit by lia].
  zcases; rewrite ?andb_false_r, ?andb_true_r, ?orb_false_r, ?orb_false_l; try done.
  symmetry. apply (high_bit _ 11); lia.
Qed.

Lemma vcid_key u k : 1 ≤ k ≤ 4095 → HAB_VCID_GET_ID (vcid_of u k) = k.
Proof. apply vcid_id. Qed.

Lemma vcid_nonzero u k : 1 ≤ k ≤ 4095 → vcid_of u k ≠ 0.
Proof. intros Hk H0. pose proof (vcid_key u k Hk) as Hid. rewrite H0 in Hid. change (HAB_VCID_GET_ID 0) with 0 in Hid. lia. Qed.

Lemma header_carries_id h id : HAB_VCID_GET_ID (HAB_HEADER_GET_ID (HAB_HEADER_SET_ID h id)) = HAB_VCID_GET_ID id.
Proof. header_bits. Qed.

(** What one end of a pair sends goes to the other. *)
Lemma pair_addressed t n v w k u :
  otherend_id v = vc_id w → HAB_VCID_GET_ID (vc_id w) = k → vc_session_id v = vc_session_id w → vchan_idr u !! k = Some w →
  otherend_id w ≠ 0 → otherend_closed w = false → vc_closed w = false → vc_refcount w ≠ 0 →
  addressee (data_header t n v) u = Some w.
Proof.
  intros Ho Hk Hs Hu H1 H2 H3 H4. unfold addressee, data_header. rewrite header_carries_id, Ho, Hk, Hu.
  by rewrite bool_decide_true.
Qed.

(** C17: the handshake pairs two channels.  A frontend and a backend that are open, whose
    sends succeed, whose allocators hand out the free keys [kf] and [kb], and in whose
    queues nothing bears the new open id or calls for the sub id, run their open calls
    against each other: the backend receives the frontend's INIT while it waits for a
    call and the INIT_DONE while it waits for completion, the frontend receives the
    backend's INIT_ACK.  Both calls succeed; the frontend has sent INIT and INIT_DONE
    and the backend INIT_ACK, and nothing else.  Each side has exactly one new virtual
    channel with one reference, the pending opens and the queues are as before, and of
    the references taken on the physical channel only the new channel's remains.  The
    two channels name each other and share the session, so that every message one of
    them sends is addressed to the other. *)
Theorem handshake_pairs now now' kf kb oid sub allocf allocb junkf junkb fe be tf tb flagsf flagsb sig sig1 sig2 rounds :
  fresh now kf oid allocf fe → fresh now' kb oid allocb be → uncalled sub (chan be) →
  0 ≤ habdev_id (chan fe) < 0x800 → 0 ≤ habdev_id (chan be) < 0x800 → int32 sub → int32 oid → int32 (ver_be junkf) →
  ∃ init ack fin vf vb fe' be',
    frontend_open now allocf true true true junkf sub oid tf flagsf (mk_waits [receive now ack] sig) fe = (Done (inr kf), fe') ∧
    backend_listen now' allocb true true junkb sub tb flagsb
      ((mk_waits [receive now' init] sig1, mk_waits [receive now' fin] sig2) :: rounds) be = (Done (inr kb), be') ∧
    outbox fe' = outbox fe ++ [init; fin] ∧ outbox be' = outbox be ++ [ack] ∧
    chan fe' = opened kf vf (chan fe) ∧ chan be' = opened kb vb (chan be) ∧
    pending_open fe' = pending_open fe ∧ pending_open be' = pending_open be ∧
    vc_refcount vf = 1 ∧ vc_refcount vb = 1 ∧ rx_list vf = [] ∧ rx_list vb = [] ∧
    (∀ t n, addressee (data_header t n vf) (chan be') = Some vb ∧ addressee (data_header t n vb) (chan fe') = Some vf).
Proof.
  intros Hf Hb Hu Hdf Hdb Hsub Hoid Hjunk.
  pose proof (fr_key _ _ _ _ _ Hf) as Hkf. pose proof (fr_key _ _ _ _ _ Hb) as Hkb.
  pose proof (vcid_range (chan fe) kf Hdf) as Hrf. pose proof (vcid_range (chan be) kb Hdb) as Hrb.
  pose proof (vcid_key (chan fe) kf Hkf) as Hif. pose proof (vcid_key (chan be) kb Hkb) as Hib.
  assert (int32 HAB_API_VER) as Hver by (vm_compute; intuition discriminate).
  assert (int32 1 ∧ int32 0) as [Hone Hzero] by (vm_compute; intuition discriminate).
  assert (int32 (vcid_of (chan fe) kf) ∧ int32 (vcid_of (chan be) kb)) as [Hvf Hvb] by (unfold int32; lia).
  assert (vcid_of (chan fe) kf ≠ 0 ∧ vcid_of (chan be) kb ≠ 0) as [Hnf Hnb] by (split; by apply vcid_nonzero).
  eexists _, _, _, (new_vchan (chan fe) kf (vcid_of (chan be) kb) oid), (new_vchan (chan be) kb (vcid_of (chan fe) kf) oid), _, _.
  split; [by apply (frontend_opens now kf oid allocf fe sub junkf (ack_data (chan be) kb sub oid HAB_API_VER))|].
  split; [by apply (backend_opens now' kb oid allocb be sub junkb (init_data (chan fe) kf sub oid (ver_be junkf))
                      (done_data sub oid (ver_be junkf)))|].
  do 10 (split; [reflexivity|]). intros t n.
  split; [apply (pair_addressed _ _ _ _ kb)|apply (pair_addressed _ _ _ _ kf)]; try done; apply lookup_insert_eq.
Qed.

(** ** Closing *)

(** No channel of the list has the number [vcid]. *)
Definition none_named (vcid : Z) (l : list Z) (s : uhab) : Prop := Forall (λ j, vc_id <$> vchan_of j s ≠ Some vcid) l.

Lemma find_only s l k vcid : none_named vcid l s → vc_id <$> vchan_of k s = Some vcid →
  list_find (has_vcid s vcid) (l ++ [k]) = Some (length l, k).
Proof.
  intros Hl Hk. apply list_find_app_Some. right. split; [lia|]. split; [by apply list_find_None|].
  rewrite Nat.sub_diag. cbn. by rewrite decide_True.
Qed.

Lemma close_msg_run k v s : vchan_of k s = Some v → otherend_closed v = false → send_codes s = [] →
  hab_send_close_msg k s = (Done tt, set_outbox (outbox s ++ [(data_header HAB_PAYLOAD_TYPE_CLOSE 0 v, [])]) [] s).
Proof.
  intros Hv Ho Hs. unfold hab_send_close_msg, kbind, kget. rewrite Hv, Ho.
  unfold chan_send, kbind, kget, kmodify, kret. by rewrite Hs.
Qed.

Lemma alter_opened f k v u : set_idr (alter f k (vchan_idr (opened k v u))) (opened k v u) = opened k (f v) u.
Proof. unfold opened, set_idr. fields. by rewrite alter_insert_eq. Qed.

