(* ===== verification/HabOpenCases.v ===== *)
(** * HAB contexts on concrete inputs

    Witnesses for the theorems of HabHandshake, and runs that show where opening and
    sending deviate from what they mean to do. *)

From S2P Require Import Prelude HabPipe HabChan HabMsg HabOpen HabHandshake.

(** A kernel context on the channel 3 of the device 101. *)
Definition idle_hab (dom : Z) : hab_state := mk_hab 3 dom 101 false 1 0 ∅ [] 0.
Definition idle (dom : Z) : uhab := mk_uhab (idle_hab dom) 0 false true ([], 0) [] 0 [] [].
Definition some_junk : hab_open_send_data := mk_open_data 11 12 13 14 15 16.

Lemma idle_fresh dom now : fresh now 1 7 first_free (idle dom).
Proof.
  split; [vm_compute; reflexivity|lia|done|done|done|lia|constructor..].
Qed.

Lemma handshake_pairs_witness :
  ∃ init ack fin vf vb fe' be',
    frontend_open 50 first_free true true true some_junk 2 7 0 0 (mk_waits [receive 50 ack] false) (idle 1) = (Done (inr 1), fe') ∧
    backend_listen 60 first_free true true some_junk 2 1000 0
      [(mk_waits [receive 60 init] false, mk_waits [receive 60 fin] false)] (idle 2) = (Done (inr 1), be') ∧
    chan fe' = opened 1 vf (idle_hab 1) ∧ chan be' = opened 1 vb (idle_hab 2) ∧
    addressee (data_header HAB_PAYLOAD_TYPE_MSG 5 vf) (chan be') = Some vb.
Proof.
  destruct (handshake_pairs 50 60 1 1 7 2 first_free first_free some_junk some_junk (idle 1) (idle 2) 0 1000 0 0 false false false [])
    as (init & ack & fin & vf & vb & fe' & be' & Hf & Hb & _ & _ & Hcf & Hcb & _ & _ & _ & _ & _ & _ & Haddr).
  - apply idle_fresh.
  - apply idle_fresh.
  - constructor.
  - cbn. lia.
  - cbn. lia.
  - unfold int32. lia.
  - unfold int32. lia.
  - unfold int32. cbn. lia.
  - exists init, ack, fin, vf, vb, fe', be'. split; [exact Hf|]. split; [exact Hb|]. split; [exact Hcf|]. split; [exact Hcb|].
    exact (proj1 (Haddr HAB_PAYLOAD_TYPE_MSG 5)).
Defined.

(** An open channel of the context, with number 0x6501001. *)
Definition open_vchan : virtual_channel := mk_vchan 0x6501001 0x6502001 false false 7 1 [].
Definition open_side : uhab := mk_uhab (opened 1 open_vchan (idle_hab 1)) 1 false true ([], 0) [1] 1 [] [].


(** ** Deviations *)

(** A cancellation that finds no open request in the queue, as [hab_open_receive_cancel] queues it. *)
Definition cancel_node (now : Z) (x : hab_open_send_data) : hab_open_node :=
  mk_open_node (mk_open_request HAB_PAYLOAD_TYPE_INIT_CANCEL (Some 3) x) (now + HAB_OPEN_REQ_EXPIRE_TIME_S).
Definition receive_cancel (now : Z) (x : hab_open_send_data) (s : uhab) : uhab :=
  set_chan (set_openq (openq_list (chan s) ++ [cancel_node now x]) (openq_cnt (chan s) + 1) (hab_pchan_get (chan s))) s.

Definition call (ver : Z) : hab_open_send_data := mk_open_data 0x6501001 2 7 ver 0 1.
Definition be_run (env1 env2 : list (uhab → uhab)) (s : uhab) : outcome (Z + Z) * uhab :=
  backend_listen 60 first_free true true some_junk 2 1000 0 [(mk_waits env1 false, mk_waits env2 false)] s.

(** The reply to a frontend of another major version is sent through a null channel. *)
Example version_mismatch_crashes :
  (be_run [receive 60 (open_msg HAB_PAYLOAD_TYPE_INIT (call 0x20000))] [] (idle 2)).1 = Undef.
Proof. vm_compute. done. Qed.

(** The frontend cancels while the backend waits for INIT_DONE: the backend reports an open channel. *)
Example cancelled_open_succeeds :
  (be_run [receive 60 (open_msg HAB_PAYLOAD_TYPE_INIT (call HAB_API_VER))] [receive_cancel 60 (call HAB_API_VER)] (idle 2)).1 =
  Done (inr 1).
Proof. vm_compute. done. Qed.

(** A cancellation left in the queue is taken for the next call and acknowledged. *)
Example stale_cancel_is_a_call :
  let s' := (be_run [receive_cancel 60 (call HAB_API_VER)] [] (idle 2)).2 in
  HAB_HEADER_GET_TYPE <$> (outbox s').*1 = [HAB_PAYLOAD_TYPE_INIT_ACK; HAB_PAYLOAD_TYPE_INIT_CANCEL].
Proof. vm_compute. done. Qed.

(** The frontend takes a cancellation for its acknowledgement. *)
Example cancel_is_an_acknowledgement :
  (frontend_open 50 first_free true true true some_junk 2 7 0 0
     (mk_waits [receive_cancel 50 (mk_open_data 0x6502001 2 7 HAB_API_VER HAB_API_VER 1)] false) (idle 1)).1 = Done (inr 1).
Proof. vm_compute. done. Qed.

(** A frontend that meets another version gives back its channel, but not the request's reference. *)
Example mismatch_keeps_reference :
  let x := mk_open_data 0 2 7 HAB_API_VER 0x20000 1 in
  let r := frontend_open 50 first_free true true true some_junk 2 7 0 0
             (mk_waits [receive 50 (open_msg HAB_PAYLOAD_TYPE_INIT_ACK x)] false) (idle 1) in
  r.1 = Done (inl (- EPROTO)) ∧ pchan_refcount (chan r.2) = pchan_refcount (idle_hab 1) + 1.
Proof. vm_compute. done. Qed.

(** Opening through [hab_vchan_open] and closing leaves a reference to the physical channel. *)
Example open_keeps_reference :
  let ack := open_msg HAB_PAYLOAD_TYPE_INIT_ACK (mk_open_data 0x6502001 2 7 HAB_API_VER HAB_API_VER 1) in
  let '(r, s) := hab_vchan_open 50 first_free true true false false true some_junk 2 7 0 0 (mk_waits [receive 50 ack] false) [] (idle 1) in
  let '(r', s') := hab_vchan_close 0x6501001 s in
  r = Done (0, Some 0x6501001) ∧ r' = Done 0 ∧ pchan_refcount (chan s') = pchan_refcount (idle_hab 1) + 1.
Proof. vm_compute. done. Qed.

(** A profiling message that is too short keeps the reference to the virtual channel, which then outlives its close. *)
Example short_profile_keeps_reference :
  let '(r, s) := hab_vchan_send [] 0x6501001 [1; 2; 3] HABMM_SOCKET_SEND_FLAGS_XING_VM_STAT open_side in
  let '(r', s') := hab_vchan_close 0x6501001 s in
  r = Done (- EINVAL) ∧ r' = Done 0 ∧ is_Some (vchan_of 1 s').
Proof. vm_compute. split; [done|]. split; [done|]. by eexists. Qed.
