(* ===== verification/QmiMsg.v ===== *)
(** * QMI message interface (drivers/soc/qcom/qmi_interface.c)

    A handle owns a QRTR socket.  It registers lookups and services with the name
    service, tells the client about servers that come and go, and matches responses with
    transactions by their id.  Sockets and the transaction objects of the clients are
    kept by number, so that what is shared and what is released can be seen; the use of
    a released socket is [Undef].  A callback of the client is recorded, with its
    answer where the code uses it.  Locks are held for whole operations. *)

From S2P Require Import Prelude QmiEncDec QmiSafe.

Definition QRTR_PORT_CTRL : Z := 0xfffffffe.
Definition QRTR_TYPE_BYE : Z := 3.
Definition QRTR_TYPE_NEW_SERVER : Z := 4.
Definition QRTR_TYPE_DEL_SERVER : Z := 5.
Definition QRTR_TYPE_DEL_CLIENT : Z := 6.
Definition QRTR_TYPE_NEW_LOOKUP : Z := 10.
Definition QMI_REQUEST : Z := 0.
Definition QMI_RESPONSE : Z := 2.
Definition QMI_INDICATION : Z := 4.
Definition sizeof_ctrl_pkt : Z := 20.
Definition ENETRESET : Z := 102.
Definition EPIPE : Z := 32.
Definition EAFNOSUPPORT : Z := 97.
Definition EPROBE_DEFER : Z := 517.

(** ** Data *)

Record sockaddr_qrtr := mk_addr { sq_node : Z; sq_port : Z }.

Record qmi_service := mk_svc {
  service : Z;
  version : Z;
  instance : Z;
  svc_node : Z;
  svc_port : Z
}.

(** [txn_done] counts the completions not yet waited for; [dest] are the bytes of the
    structure. *)
Record qmi_txn := mk_txn {
  txn_id : Z;
  txn_done : Z;
  txn_result : Z;
  txn_ei : option (list qmi_elem_info);
  dest : option (list Z)
}.

(** [fn] is what the handler does to the transaction. *)
Record qmi_msg_handler := mk_handler {
  h_type : Z;
  h_msg_id : Z;
  h_ei : option (list qmi_elem_info);
  decoded_size : Z;
  fn : sockaddr_qrtr → qmi_txn → list Z → qmi_txn
}.

(** The callbacks: whether they are there, and the answer of [new_server]. *)
Record qmi_ops := mk_ops {
  new_server : option (qmi_service → Z);
  del_server : bool;
  net_reset : bool;
  msg_handler : bool;
  bye : bool;
  del_client : bool
}.

Inductive call :=
  | CNewServer (svc : qmi_service) (ret : Z)
  | CDelServer (svc : qmi_service)
  | CNetReset
  | CMsgHandler (from : sockaddr_qrtr) (buf : list Z)
  | CBye (node : Z)
  | CDelClient (node port : Z)
  | CHandler (type msg_id : Z) (from : sockaddr_qrtr) (txn : Z) (decoded : list Z).

Record socket := mk_socket { user_data : bool; sent : list (option sockaddr_qrtr * list Z) }.

Record qmi_handle := mk_qmi {
  sock : option Z;
  sq : sockaddr_qrtr;
  recv_buf_size : Z;
  lookups : list qmi_service;
  lookup_results : list qmi_service;
  services : list qmi_service;
  ops : qmi_ops;
  txns : gmap Z Z;
  handlers : option (list qmi_msg_handler);
  (* the rest of the world *)
  objs : gmap Z qmi_txn;
  socks : gmap Z socket;
  calls : list call;
  send_codes : list Z;                 (* errors of the next sends; then none *)
  work : bool                          (* queued *)
}.

Definition set_sock (k : option Z) (a : sockaddr_qrtr) (s : qmi_handle) : qmi_handle :=
  mk_qmi k a (recv_buf_size s) (lookups s) (lookup_results s) (services s) (ops s) (txns s) (handlers s) (objs s) (socks s) (calls s) (send_codes s) (work s).
Definition set_lists (l r v : list qmi_service) (s : qmi_handle) : qmi_handle :=
  mk_qmi (sock s) (sq s) (recv_buf_size s) l r v (ops s) (txns s) (handlers s) (objs s) (socks s) (calls s) (send_codes s) (work s).
Definition set_txns (m : gmap Z Z) (s : qmi_handle) : qmi_handle :=
  mk_qmi (sock s) (sq s) (recv_buf_size s) (lookups s) (lookup_results s) (services s) (ops s) m (handlers s) (objs s) (socks s) (calls s) (send_codes s) (work s).
Definition set_objs (m : gmap Z qmi_txn) (s : qmi_handle) : qmi_handle :=
  mk_qmi (sock s) (sq s) (recv_buf_size s) (lookups s) (lookup_results s) (services s) (ops s) (txns s) (handlers s) m (socks s) (calls s) (send_codes s) (work s).
Definition set_socks (m : gmap Z socket) (c : list Z) (s : qmi_handle) : qmi_handle :=
  mk_qmi (sock s) (sq s) (recv_buf_size s) (lookups s) (lookup_results s) (services s) (ops s) (txns s) (handlers s) (objs s) m (calls s) c (work s).
Definition add_call (c : call) (s : qmi_handle) : qmi_handle :=
  mk_qmi (sock s) (sq s) (recv_buf_size s) (lookups s) (lookup_results s) (services s) (ops s) (txns s) (handlers s) (objs s) (socks s) (calls s ++ [c]) (send_codes s) (work s).
Definition set_work (b : bool) (s : qmi_handle) : qmi_handle :=
  mk_qmi (sock s) (sq s) (recv_buf_size s) (lookups s) (lookup_results s) (services s) (ops s) (txns s) (handlers s) (objs s) (socks s) (calls s) (send_codes s) b.
Definition set_config (n : Z) (o : qmi_ops) (h : option (list qmi_msg_handler)) (s : qmi_handle) : qmi_handle :=
  mk_qmi (sock s) (sq s) n (lookups s) (lookup_results s) (services s) o (txns s) h (objs s) (socks s) (calls s) (send_codes s) (work s).

Abbreviation M := (KM qmi_handle).

(** ** Sockets (net/socket.c, as far as the file uses them) *)

Definition sock_release (k : Z) : M unit :=
  let* s := kget in
  match socks s !! k with
  | None => kfail Undef
  | Some _ => kmodify (set_socks (delete k (socks s)) (send_codes s))
  end.

Definition set_user_data (k : Z) (b : bool) : M unit :=
  let* s := kget in
  match socks s !! k with
  | None => kfail Undef
  | Some x => kmodify (set_socks (<[k := mk_socket b (sent x)]> (socks s)) (send_codes s))
  end.

(** Answers an error or the number of bytes. *)
Definition kernel_sendmsg (k : Z) (to : option sockaddr_qrtr) (bs : list Z) : M Z :=
  let* s := kget in
  match socks s !! k with
  | None => kfail Undef
  | Some x =>
      let code := default 0 (head (send_codes s)) in
      if code <? 0 then kmodify (set_socks (socks s) (tail (send_codes s))) ;;; kret code
      else kmodify (set_socks (<[k := mk_socket (user_data x) (sent x ++ [(to, bs)])]> (socks s)) (tail (send_codes s))) ;;;
           kret (Z.of_nat (length bs))
  end.

(** [mk] and [name] are what [sock_create_kern] and [kernel_getsockname] answer. *)
Definition qmi_sock_create (mk : Z + Z) (name : Z + sockaddr_qrtr) : M (Z + Z * sockaddr_qrtr) :=
  match mk with
  | inl err => kret (inl err)
  | inr k =>
      kmodify (λ s, set_socks (<[k := mk_socket false []]> (socks s)) (send_codes s) s) ;;;
      match name with
      | inl err => sock_release k ;;; kret (inl err)
      | inr a => set_user_data k true ;;; kret (inr (k, a))
      end
  end.

(** ** Control packets *)

(** [cmd] and the four words of [server]. *)
Definition ctrl_pkt_le (cmd a b c d : Z) : list Z :=
  le_encode 4 cmd ++ le_encode 4 a ++ le_encode 4 b ++ le_encode 4 c ++ le_encode 4 d.
Definition word (i : nat) (buf : list Z) : Z := le_decode (take 4 (drop (4 * i) buf)).

Definition ctrl_instance (svc : qmi_service) : Z := u32 (Z.lor (version svc) (Z.shiftl (instance svc) 8)).

Definition send_ctrl (pkt : list Z) : M unit :=
  let* s := kget in
  match sock s with
  | Some k => let* _ := kernel_sendmsg k (Some (mk_addr (sq_node (sq s)) QRTR_PORT_CTRL)) pkt in kret tt
  | None => kret tt
  end.

Definition qmi_send_new_lookup (svc : qmi_service) : M unit :=
  send_ctrl (ctrl_pkt_le QRTR_TYPE_NEW_LOOKUP (service svc) (ctrl_instance svc) 0 0).

Definition qmi_send_new_server (svc : qmi_service) : M unit :=
  let* s := kget in
  send_ctrl (ctrl_pkt_le QRTR_TYPE_NEW_SERVER (service svc) (ctrl_instance svc) (sq_node (sq s)) (sq_port (sq s))).

Definition qmi_add_lookup (alloc : bool) (serv ver inst : Z) : M Z :=
  if negb alloc then kret (- ENOMEM)
  else
    let svc := mk_svc serv ver inst 0 0 in
    kmodify (λ s, set_lists (svc :: lookups s) (lookup_results s) (services s) s) ;;;
    qmi_send_new_lookup svc ;;;
    kret 0.

Definition qmi_add_server (alloc : bool) (serv ver inst : Z) : M Z :=
  if negb alloc then kret (- ENOMEM)
  else
    let svc := mk_svc serv ver inst 0 0 in
    kmodify (λ s, set_lists (lookups s) (lookup_results s) (svc :: services s) s) ;;;
    qmi_send_new_server svc ;;;
    kret 0.

(** ** Servers that come and go *)

Definition qmi_recv_new_server (alloc : bool) (serv inst node port : Z) : M unit :=
  let* s := kget in
  match new_server (ops s) with
  | None => kret tt
  | Some answer =>
      if (node =? 0) && (port =? 0) then kret tt
      else if negb alloc then kret tt
      else
        let svc := mk_svc serv (Z.land inst 0xff) (Z.shiftr inst 8) node port in
        let ret := answer svc in
        kmodify (add_call (CNewServer svc ret)) ;;;
        if ret <? 0 then kret tt
        else kmodify (λ s, set_lists (lookups s) (svc :: lookup_results s) (services s) s)
  end.

(** The servers that go: -1 matches every node or port. *)
Definition dying (node port : Z) (svc : qmi_service) : bool :=
  negb (negb (node =? UINT_MAX) && negb (svc_node svc =? node)) && negb (negb (port =? UINT_MAX) && negb (svc_port svc =? port)).

Fixpoint del_loop (node port : Z) (l : list qmi_service) : M (list qmi_service) :=
  match l with
  | [] => kret []
  | svc :: l =>
      if negb (dying node port svc) then let* kept := del_loop node port l in kret (svc :: kept)
      else
        let* s := kget in
        (if del_server (ops s) then kmodify (add_call (CDelServer svc)) else kret tt) ;;;
        del_loop node port l
  end.

Definition qmi_recv_del_server (node port : Z) : M unit :=
  let* s := kget in
  let* kept := del_loop node port (lookup_results s) in
  kmodify (λ s, set_lists (lookups s) kept (services s) s).

Definition qmi_recv_bye (node : Z) : M unit :=
  qmi_recv_del_server node UINT_MAX ;;;
  let* s := kget in
  if bye (ops s) then kmodify (add_call (CBye node)) else kret tt.

Definition qmi_recv_del_client (node port : Z) : M unit :=
  let* s := kget in
  if del_client (ops s) then kmodify (add_call (CDelClient node port)) else kret tt.

Definition qmi_recv_ctrl_pkt (alloc : bool) (buf : list Z) : M unit :=
  if Z.of_nat (length buf) <? sizeof_ctrl_pkt then kret tt
  else
    let cmd := word 0 buf in
    if cmd =? QRTR_TYPE_BYE then qmi_recv_bye (word 1 buf)
    else if cmd =? QRTR_TYPE_NEW_SERVER then qmi_recv_new_server alloc (word 1 buf) (word 2 buf) (word 3 buf) (word 4 buf)
    else if cmd =? QRTR_TYPE_DEL_SERVER then qmi_recv_del_server (word 3 buf) (word 4 buf)
    else if cmd =? QRTR_TYPE_DEL_CLIENT then qmi_recv_del_client (word 1 buf) (word 2 buf)
    else kret tt.

(** ** Transactions *)

(** [idr] is the kernel's [idr_alloc_cyclic]: an id of the range 0 to U16_MAX - 1 that is
    not in use, or an error. *)
Definition qmi_txn_init (idr : gmap Z Z → Z) (txn : Z) (ei : option (list qmi_elem_info)) (c_struct : option (list Z)) : M Z :=
  let* s := kget in
  let ret := idr (txns s) in
  kmodify (λ s, set_objs (<[txn := mk_txn (u16 ret) 0 0 ei c_struct]> (objs s)) s) ;;;
  (if ret <? 0 then kret tt else kmodify (λ s, set_txns (<[ret := txn]> (txns s)) s)) ;;;
  kret ret.

Definition get_txn (txn : Z) : M qmi_txn :=
  let* s := kget in match objs s !! txn with Some t => kret t | None => kfail Undef end.
Definition put_txn (txn : Z) (t : qmi_txn) : M unit := kmodify (λ s, set_objs (<[txn := t]> (objs s)) s).
Definition complete (t : qmi_txn) : qmi_txn := mk_txn (txn_id t) (txn_done t + 1) (txn_result t) (txn_ei t) (dest t).
Definition set_result (ret : Z) (t : qmi_txn) : qmi_txn := mk_txn (txn_id t) (txn_done t) ret (txn_ei t) (dest t).
Definition set_dest (d : option (list Z)) (t : qmi_txn) : qmi_txn := mk_txn (txn_id t) (txn_done t) (txn_result t) (txn_ei t) d.

(** [env] is what happens while the caller waits; after it the time is over. *)
Fixpoint wait_for_completion (env : list (qmi_handle → qmi_handle)) (txn : Z) : M bool :=
  let* t := get_txn txn in
  if 0 <? txn_done t then
    put_txn txn (mk_txn (txn_id t) (txn_done t - 1) (txn_result t) (txn_ei t) (dest t)) ;;; kret true
  else match env with
       | [] => kret false
       | f :: env => kmodify f ;;; wait_for_completion env txn
       end.

Definition qmi_txn_wait (env : list (qmi_handle → qmi_handle)) (txn : Z) : M Z :=
  let* met := wait_for_completion env txn in
  let* t := get_txn txn in
  if txn_result t =? - ENETRESET then kret (txn_result t)
  else
    kmodify (λ s, set_txns (delete (txn_id t) (txns s)) s) ;;;
    kret (if (met : bool) then txn_result t else - ETIMEDOUT).

Definition qmi_txn_cancel (txn : Z) : M unit :=
  let* t := get_txn txn in
  kmodify (λ s, set_txns (delete (txn_id t) (txns s)) s).

(** ** Receiving *)

(** [qmi_decode_message] into the structure [d]. *)
Definition decode_into (buf : list Z) (ei : option (list qmi_elem_info)) (d : list Z) : M (Z * list Z) := λ s,
  let '(r, d) := qmi_decode_message (decode_fuel (default [] ei) (Z.of_nat (length buf))) (Some buf) (Z.of_nat (length buf)) ei false d in
  (match r with Done r => Done (r, d) | Hang => Hang | Bug => Bug | Undef => Undef end, s).

Definition hdr_type (buf : list Z) : Z := le_decode (take 1 buf).
Definition hdr_txn_id (buf : list Z) : Z := le_decode (take 2 (drop 1 buf)).
Definition hdr_msg_id (buf : list Z) : Z := le_decode (take 2 (drop 3 buf)).

Definition handles (type msg_id : Z) (h : qmi_msg_handler) : Prop := h_type h = type ∧ h_msg_id h = msg_id.
#[export] Instance handles_dec type msg_id h : Decision (handles type msg_id h).
Proof. unfold handles. apply _. Defined.

(** The transaction after the handler. *)
Definition qmi_invoke_handler (alloc : bool) (from : sockaddr_qrtr) (t : qmi_txn) (buf : list Z) : M qmi_txn :=
  let* s := kget in
  match handlers s with
  | None => kret t
  | Some hs =>
      match list_find (handles (hdr_type buf) (hdr_msg_id buf)) hs with
      | None => kret t
      | Some (_, h) =>
          if negb alloc then kret t
          else
            let* r := decode_into buf (h_ei h) (replicate (Z.to_nat (decoded_size h)) 0) in
            if r.1 <? 0 then kret t
            else
              kmodify (add_call (CHandler (h_type h) (h_msg_id h) from (txn_id t) r.2)) ;;;
              kret (fn h from t r.2)
      end
  end.

Definition qmi_handle_message (alloc : bool) (from : sockaddr_qrtr) (buf : list Z) : M unit :=
  if Z.of_nat (length buf) <? QMI_HEADER_SIZE then kret tt
  else if hdr_type buf =? QMI_RESPONSE then
    let* s := kget in
    match txns s !! hdr_txn_id buf with
    | None => kret tt
    | Some txn =>
        let* t := get_txn txn in
        match dest t, txn_ei t with
        | Some d, Some ei =>
            let* r := decode_into buf (Some ei) d in
            put_txn txn (complete (set_result r.1 (set_dest (Some r.2) t)))
        | _, _ =>
            let* t := qmi_invoke_handler alloc from t buf in
            put_txn txn t
        end
    end
  else
    let* _ := qmi_invoke_handler alloc from (mk_txn (hdr_txn_id buf) 0 0 None None) buf in
    kret tt.

Fixpoint send_each (send : qmi_service → M unit) (l : list qmi_service) : M unit :=
  match l with [] => kret tt | svc :: l => send svc ;;; send_each send l end.

Definition qmi_handle_net_reset (mk : Z + Z) (name : Z + sockaddr_qrtr) : M unit :=
  let* r := qmi_sock_create mk name in
  match r with
  | inl _ => kret tt
  | inr (k, a) =>
      let* s := kget in
      match sock s with
      | None => kfail Undef
      | Some old =>
          sock_release old ;;;
          kmodify (λ s, set_sock None (sq s) s) ;;;
          qmi_recv_del_server UINT_MAX UINT_MAX ;;;
          let* s := kget in
          (if net_reset (ops s) then kmodify (add_call CNetReset) else kret tt) ;;;
          kmodify (set_sock (Some k) a) ;;;
          let* s := kget in
          send_each qmi_send_new_lookup (lookups s) ;;;
          send_each qmi_send_new_server (services s)
      end
  end.

(** [inbox] is what [kernel_recvmsg] answers, then -EAGAIN; a message is cut to the buffer. *)
Fixpoint qmi_data_ready_work (mk : Z + Z) (name : Z + sockaddr_qrtr) (alloc : bool) (inbox : list (Z + sockaddr_qrtr * list Z)) : M unit :=
  let* s := kget in
  match sock s, inbox with
  | None, _ => kret tt
  | Some _, [] => kret tt
  | Some _, inl err :: _ => if err =? - ENETRESET then qmi_handle_net_reset mk name else kret tt
  | Some _, inr (from, bs) :: inbox =>
      let buf := take (Z.to_nat (recv_buf_size s)) bs in
      (if (sq_node from =? sq_node (sq s)) && (sq_port from =? QRTR_PORT_CTRL) then qmi_recv_ctrl_pkt alloc buf
       else if msg_handler (ops s) then kmodify (add_call (CMsgHandler from buf))
       else qmi_handle_message alloc from buf) ;;;
      qmi_data_ready_work mk name alloc inbox
  end.

Definition qmi_data_ready (k : Z) : M unit :=
  let* s := kget in
  match socks s !! k with
  | Some x => if user_data x then kmodify (set_work true) else kret tt
  | None => kfail Undef
  end.

(** ** Handles *)

Definition qmi_handle_init (buf_ok wq_ok : bool) (mk : Z + Z) (name : Z + sockaddr_qrtr) (size : Z)
    (o : option qmi_ops) (h : option (list qmi_msg_handler)) : M Z :=
  kmodify (λ s, set_work false (set_txns ∅ (set_lists [] [] [] s))) ;;;
  let size := size + QMI_HEADER_SIZE in
  kmodify (λ s, set_config (if size <? sizeof_ctrl_pkt then sizeof_ctrl_pkt else size) (default (ops s) o) h s) ;;;
  if negb buf_ok then kret (- ENOMEM)
  else if negb wq_ok then kret (- ENOMEM)
  else
    let* r := qmi_sock_create mk name in
    match r with
    | inl err => kret (if err =? - EAFNOSUPPORT then - EPROBE_DEFER else err)
    | inr (k, a) => kmodify (set_sock (Some k) a) ;;; kret 0
    end.

(** Removing the transactions one by one, and waking their waiters. *)
Fixpoint release_txns (l : list (Z * Z)) : M unit :=
  match l with
  | [] => kret tt
  | (id, txn) :: l =>
      let* s := kget in
      (if bool_decide (txns s !! id = Some txn) then
         let* t := get_txn txn in
         kmodify (λ s, set_txns (delete (txn_id t) (txns s)) s) ;;;
         put_txn txn (complete (set_result (- ENETRESET) t))
       else kret tt) ;;;
      release_txns l
  end.

(** [running] is the work that [cancel_work_sync] waits for. *)
Definition qmi_handle_release (running : M unit) : M unit :=
  let* s := kget in
  match sock s with
  | None => kfail Undef
  | Some k =>
      set_user_data k false ;;;
      running ;;;
      qmi_recv_del_server UINT_MAX UINT_MAX ;;;
      sock_release k ;;;
      kmodify (λ s, set_work false (set_sock None (sq s) s)) ;;;
      let* s := kget in
      release_txns (map_to_list (txns s)) ;;;
      kmodify (λ s, set_lists [] (lookup_results s) [] (set_txns ∅ s))
  end.

(** ** Sending *)

(** [c_struct] is [None] for NULL; [ID] is the id of the transaction. *)
Definition qmi_send_message (alloc : bool) (to : option sockaddr_qrtr) (ID type msg_id len : Z)
    (ei : option (list qmi_elem_info)) (c_struct : option (list Z)) : M Z :=
  match qmi_encode_message alloc (tsize (default [] ei)) type msg_id len ID ei c_struct with
  | Done (inl err) => kret err
  | Done (inr (msg, len)) =>
      let* s := kget in
      match sock s with
      | Some k => let* ret := kernel_sendmsg k to (take (Z.to_nat len) msg) in kret (if ret <? 0 then ret else 0)
      | None => kret (- EPIPE)
      end
  | Hang => kfail Hang
  | Bug => kfail Bug
  | Undef => kfail Undef
  end.

Definition qmi_send_request (alloc : bool) (to : option sockaddr_qrtr) (txn msg_id len : Z)
    (ei : option (list qmi_elem_info)) (c_struct : option (list Z)) : M Z :=
  let* t := get_txn txn in qmi_send_message alloc to (txn_id t) QMI_REQUEST msg_id len ei c_struct.

(** A response takes the transaction the handler was given. *)
Definition qmi_send_response (alloc : bool) (to : option sockaddr_qrtr) (t : qmi_txn) (msg_id len : Z)
    (ei : option (list qmi_elem_info)) (c_struct : option (list Z)) : M Z :=
  qmi_send_message alloc to (txn_id t) QMI_RESPONSE msg_id len ei c_struct.

(** [txn] is the object on the stack. *)
Definition qmi_send_indication (idr : gmap Z Z → Z) (txn : Z) (alloc : bool) (to : option sockaddr_qrtr) (msg_id len : Z)
    (ei : option (list qmi_elem_info)) (c_struct : option (list Z)) : M Z :=
  let* ret := qmi_txn_init idr txn None None in
  if ret <? 0 then kret ret
  else
    let* t := get_txn txn in
    let* rval := qmi_send_message alloc to (txn_id t) QMI_INDICATION msg_id len ei c_struct in
    qmi_txn_cancel txn ;;;
    kret rval.
