(* ===== verification/QmiMsgInv.v ===== *)
(** * What a QMI handle keeps through its life (qmi_interface.c)

    The state of an initialised handle: its socket is alive and was told of every lookup
    and service, the table of transactions leads to the objects with those ids, and the
    servers the client was told of are those it has not been told the end of.  Every
    operation returns and keeps this. *)

From S2P Require Import Prelude Memory QmiEncDec QmiSafe QmiMsg.

#[export] Instance qmi_service_eq_dec : EqDecision qmi_service.
Proof. solve_decision. Defined.

(** ** The invariant *)

(** A structure and the table for it. *)
Definition txn_ok (t : qmi_txn) : Prop :=
  match txn_ei t, dest t with Some ei, Some d => table_ok (zlen d) ei | _, _ => True end.

(** A handler's table fits its structure; the handler fills out the result and may complete. *)
Definition handler_ok (h : qmi_msg_handler) : Prop :=
  match h_ei h with Some ei => 0 ≤ decoded_size h ∧ table_ok (decoded_size h) ei | None => True end ∧
  ∀ from t d, txn_id (fn h from t d) = txn_id t ∧ txn_ei (fn h from t d) = txn_ei t ∧ dest (fn h from t d) = dest t.

Definition lookup_msg (s : qmi_handle) (svc : qmi_service) : option sockaddr_qrtr * list Z :=
  (Some (mk_addr (sq_node (sq s)) QRTR_PORT_CTRL), ctrl_pkt_le QRTR_TYPE_NEW_LOOKUP (service svc) (ctrl_instance svc) 0 0).
Definition server_msg (s : qmi_handle) (svc : qmi_service) : option sockaddr_qrtr * list Z :=
  (Some (mk_addr (sq_node (sq s)) QRTR_PORT_CTRL),
   ctrl_pkt_le QRTR_TYPE_NEW_SERVER (service svc) (ctrl_instance svc) (sq_node (sq s)) (sq_port (sq s))).

(** The name service was told everything over the socket. *)
Definition registered (s : qmi_handle) (l : list (option sockaddr_qrtr * list Z)) : Prop :=
  (∀ svc, svc ∈ lookups s → lookup_msg s svc ∈ l) ∧ (∀ svc, svc ∈ services s → server_msg s svc ∈ l).

(** How often the client was told of a server, and of its end. *)
Definition is_new (svc : qmi_service) (c : call) : bool :=
  match c with CNewServer x ret => (0 <=? ret) && bool_decide (x = svc) | _ => false end.
Definition is_del (svc : qmi_service) (c : call) : bool :=
  match c with CDelServer x => bool_decide (x = svc) | _ => false end.
Definition times {A} (f : A → bool) (l : list A) : nat := length (filter (λ x, f x = true) l).
#[local] Arguments times : simpl never.
Definition balanced (s : qmi_handle) : Prop := ∀ svc,
  times (is_new svc) (calls s) = (times (is_del svc) (calls s) + times (λ x, bool_decide (x = svc)) (lookup_results s))%nat.

Record sock_ok (s : qmi_handle) : Prop := {
  so_live : ∃ k x, sock s = Some k ∧ socks s !! k = Some x ∧ registered s (sent x);
  so_codes : send_codes s = []
}.
Record table_inv (s : qmi_handle) : Prop := {
  ti_txns id a : txns s !! id = Some a → 0 ≤ id < 65535 ∧ ∃ t, objs s !! a = Some t ∧ txn_id t = id;
  ti_objs a t : objs s !! a = Some t → txn_ok t;
  ti_handlers : Forall handler_ok (default [] (handlers s))
}.
Record servers_ok (s : qmi_handle) : Prop := {
  sv_balanced : balanced s;
  sv_told : del_server (ops s) = true
}.
Definition qmi_ok (s : qmi_handle) : Prop := sock_ok s ∧ table_inv s ∧ servers_ok s.

(** ** Counting *)

Lemma times_app {A} (f : A → bool) l k : times f (l ++ k) = (times f l + times f k)%nat.
Proof. unfold times. by rewrite list.filter_app, length_app. Qed.
Lemma times_cons {A} (f : A → bool) x l : times f (x :: l) = ((if f x then 1 else 0) + times f l)%nat.
Proof. unfold times. rewrite filter_cons. by destruct (f x). Qed.

Lemma times_one {A} (f : A → bool) x : times f [x] = if f x then 1%nat else 0%nat.
Proof. rewrite times_cons. by destruct (f x). Qed.

(** ** Sending over the socket *)

Definition posted (ms : list (option sockaddr_qrtr * list Z)) (s : qmi_handle) : qmi_handle :=
  match sock s with
  | Some k => set_socks (alter (λ x, mk_socket (user_data x) (sent x ++ ms)) k (socks s)) [] s
  | None => s
  end.

Definition live (s : qmi_handle) : Prop := (∃ k x, sock s = Some k ∧ socks s !! k = Some x) ∧ send_codes s = [].

Lemma sock_ok_live s : sock_ok s → live s.
Proof. intros [(k & x & Hk & Hx & _) Hc]. split; [by exists k, x|done]. Qed.

Lemma posted_live ms s : live s → live (posted ms s).
Proof.
  intros [(k & x & Hk & Hx) Hc]. unfold posted. rewrite Hk. split; [|done]. eexists k, _. split; [done|]. cbn.
  by rewrite lookup_alter_eq, Hx.
Qed.

Lemma posted_nil s : live s → posted [] s = s.
Proof.
  intros [(k & x & Hk & Hx) Hc]. unfold posted. rewrite Hk, alter_id.
  - destruct s. cbn in *. by subst.
  - intros y _. rewrite app_nil_r. by destruct y.
Qed.

Lemma posted_posted ms ms' s : live s → posted ms' (posted ms s) = posted (ms ++ ms') s.
Proof.
  intros [(k & x & Hk & Hx) Hc]. unfold posted at 2 3. rewrite Hk. unfold posted. cbn [sock set_socks socks]. rewrite Hk.
  unfold set_socks. cbn. f_equal. apply map_eq. intros j. destruct (decide (k = j)) as [<-|Hj].
  - rewrite !lookup_alter_eq, Hx. cbn. by rewrite app_assoc.
  - by rewrite !lookup_alter_ne.
Qed.

Lemma sendmsg_run k to bs s : live s → sock s = Some k → kernel_sendmsg k to bs s = (Done (zlen bs), posted [(to, bs)] s).
Proof.
  intros [(k' & x & Hk & Hx) Hc] Hk'. rewrite Hk' in Hk. injection Hk as <-.
  unfold posted, kernel_sendmsg, kbind, kget. rewrite Hx, Hc, Hk'. cbn [head default Z.ltb Z.compare].
  unfold kmodify, kret. cbn [tail]. rewrite <- (insert_id (socks s) k x Hx) at 2. by rewrite alter_insert_eq.
Qed.

Lemma send_ctrl_run s pkt : live s →
  send_ctrl pkt s = (Done tt, posted [(Some (mk_addr (sq_node (sq s)) QRTR_PORT_CTRL), pkt)] s).
Proof.
  intros Hl. pose proof Hl as [(k & x & Hk & Hx) _]. unfold send_ctrl. unfold kbind at 1, kget at 1. rewrite Hk.
  by rewrite (kbind_Done _ _ _ _ _ (sendmsg_run k _ pkt s Hl Hk)).
Qed.

Lemma posted_sq ms s : sq (posted ms s) = sq s.
Proof. unfold posted. by destruct (sock s). Qed.

Lemma send_each_run (send : qmi_service → M unit) (msg : qmi_handle → qmi_service → option sockaddr_qrtr * list Z) l s :
  (∀ s svc, live s → send svc s = (Done tt, posted [msg s svc] s)) → (∀ ms s svc, msg (posted ms s) svc = msg s svc) →
  live s → send_each send l s = (Done tt, posted (msg s <$> l) s).
Proof.
  intros Hsend Hmsg. revert s. induction l as [|svc l IH]; intros s Hs; cbn [send_each fmap list_fmap]; [by rewrite posted_nil|].
  rewrite (kbind_Done _ _ _ _ _ (Hsend s svc Hs)), IH by (by apply posted_live). rewrite posted_posted by done.
  do 3 f_equal. apply list_fmap_ext. intros i x _. apply Hmsg.
Qed.

Lemma lookups_run l s : live s → send_each qmi_send_new_lookup l s = (Done tt, posted (lookup_msg s <$> l) s).
Proof.
  apply send_each_run; [|intros ms s' svc; unfold lookup_msg; by rewrite posted_sq].
  intros s' svc Hs. by apply send_ctrl_run.
Qed.

Lemma servers_run l s : live s → send_each qmi_send_new_server l s = (Done tt, posted (server_msg s <$> l) s).
Proof.
  apply send_each_run; [|intros ms s' svc; unfold server_msg; by rewrite posted_sq].
  intros s' svc Hs. unfold qmi_send_new_server, kbind at 1, kget at 1. by apply send_ctrl_run.
Qed.

(** ** Each operation returns and keeps the invariant *)

Lemma table_frame s s' : txns s' = txns s → objs s' = objs s → handlers s' = handlers s → table_inv s → table_inv s'.
Proof. intros H1 H2 H3 [Ht Ho Hh]. split; rewrite ?H1, ?H2, ?H3; done. Qed.
Lemma servers_frame s s' : calls s' = calls s → lookup_results s' = lookup_results s → ops s' = ops s → servers_ok s → servers_ok s'.
Proof. intros H1 H2 H3 [Hb Ht]. split; [|by rewrite H3]. unfold balanced. by rewrite H1, H2. Qed.
Lemma sock_frame s s' : sock s' = sock s → sq s' = sq s → lookups s' = lookups s → services s' = services s → socks s' = socks s →
  send_codes s' = send_codes s → sock_ok s → sock_ok s'.
Proof.
  intros H1 H2 H3 H4 H5 H6 [Hl Hc]. split; [|by rewrite H6]. rewrite H1, H5. unfold registered, lookup_msg, server_msg in *.
  rewrite H2, H3, H4. done.
Qed.

Lemma posted_ok ms k x s : sock s = Some k → socks s !! k = Some x → send_codes s = [] → registered s (sent x ++ ms) → sock_ok (posted ms s).
Proof.
  intros Hk Hx Hc Hr. unfold posted. rewrite Hk. split; [|done]. eexists k, _. split; [done|]. split; [cbn; by rewrite lookup_alter_eq, Hx|].
  exact Hr.
Qed.

Lemma posted_frame ms s : txns (posted ms s) = txns s ∧ objs (posted ms s) = objs s ∧ handlers (posted ms s) = handlers s ∧
  calls (posted ms s) = calls s ∧ lookup_results (posted ms s) = lookup_results s ∧ ops (posted ms s) = ops s.
Proof. unfold posted. by destruct (sock s). Qed.

Lemma add_lookup_runs alloc serv ver inst s : qmi_ok s → ∃ r s', qmi_add_lookup alloc serv ver inst s = (Done r, s') ∧ qmi_ok s'.
Proof.
  intros (Hs & Ht & Hv). unfold qmi_add_lookup. destruct alloc; cbn [negb]; [|by exists (- ENOMEM), s].
  set (svc := mk_svc serv ver inst 0 0). set (s1 := set_lists (svc :: lookups s) (lookup_results s) (services s) s).
  rewrite (kbind_Done (kmodify _) _ s tt _ eq_refl). cbv beta. fold svc. fold s1. destruct Hs as [(k & x & Hk & Hx & Hr1 & Hr2) Hc].
  assert (live s1) as Hl by (split; [by exists k, x|done]).
  rewrite (kbind_Done (qmi_send_new_lookup svc) _ _ _ _ (send_ctrl_run s1 _ Hl)).
  eexists 0, _. split; [reflexivity|]. destruct (posted_frame [lookup_msg s1 svc] s1) as (P1 & P2 & P3 & P4 & P5 & P6). split; [|split].
  - apply (posted_ok [lookup_msg s1 svc] k x); try done. split; intros y Hy; [|apply elem_of_app; left; by apply Hr2].
    apply elem_of_app. apply elem_of_cons in Hy as [->|Hy]; [right; set_solver|left; by apply Hr1].
  - by apply (table_frame s).
  - by apply (servers_frame s).
Qed.

Lemma add_server_runs alloc serv ver inst s : qmi_ok s → ∃ r s', qmi_add_server alloc serv ver inst s = (Done r, s') ∧ qmi_ok s'.
Proof.
  intros (Hs & Ht & Hv). unfold qmi_add_server. destruct alloc; cbn [negb]; [|by exists (- ENOMEM), s].
  set (svc := mk_svc serv ver inst 0 0). set (s1 := set_lists (lookups s) (lookup_results s) (svc :: services s) s).
  rewrite (kbind_Done (kmodify _) _ s tt _ eq_refl). cbv beta. fold svc. fold s1. destruct Hs as [(k & x & Hk & Hx & Hr1 & Hr2) Hc].
  assert (live s1) as Hl by (split; [by exists k, x|done]).
  rewrite (kbind_Done (qmi_send_new_server svc) _ _ _ _ (send_ctrl_run s1 _ Hl)).
  eexists 0, _. split; [reflexivity|]. destruct (posted_frame [server_msg s1 svc] s1) as (P1 & P2 & P3 & P4 & P5 & P6). split; [|split].
  - apply (posted_ok [server_msg s1 svc] k x); try done. split; intros y Hy; [apply elem_of_app; left; by apply Hr1|].
    apply elem_of_app. apply elem_of_cons in Hy as [->|Hy]; [right; set_solver|left; by apply Hr2].
  - by apply (table_frame s).
  - by apply (servers_frame s).
Qed.

(** The loop over the dying servers tells the client about each. *)
Lemma del_loop_run node port l s : del_server (ops s) = true →
  ∃ s', del_loop node port l s = (Done (filter (λ x, dying node port x = false) l), s') ∧
    s' = mk_qmi (sock s) (sq s) (recv_buf_size s) (lookups s) (lookup_results s) (services s) (ops s) (txns s) (handlers s) (objs s) (socks s)
           (calls s ++ (CDelServer <$> filter (λ x, dying node port x = true) l)) (send_codes s) (work s).
Proof.
  revert s. induction l as [|svc l IH]; intros s Hd; cbn [del_loop].
  - eexists. split; [done|]. destruct s. cbn. by rewrite app_nil_r.
  - rewrite !filter_cons. destruct (dying node port svc) eqn:Ed; cbn [negb].
    + unfold kbind at 1, kget at 1. rewrite Hd. rewrite (kbind_Done (kmodify _) _ _ tt (add_call (CDelServer svc) s) eq_refl).
      destruct (IH (add_call (CDelServer svc) s) Hd) as (s' & -> & ->).
      eexists. split; [by repeat case_decide|]. repeat case_decide; try done. cbn. f_equal. by rewrite <- app_assoc.
    + destruct (IH s Hd) as (s' & Hrun & ->). rewrite (kbind_Done _ _ _ _ _ Hrun).
      eexists. split; [by repeat case_decide|]. repeat case_decide; try done.
Qed.

(** A change of what the client was told, and of nothing else but the known servers. *)
Definition client_only (s s' : qmi_handle) : Prop :=
  sock s' = sock s ∧ sq s' = sq s ∧ lookups s' = lookups s ∧ services s' = services s ∧ socks s' = socks s ∧
  send_codes s' = send_codes s ∧ txns s' = txns s ∧ objs s' = objs s ∧ handlers s' = handlers s ∧ ops s' = ops s ∧
  recv_buf_size s' = recv_buf_size s.

Lemma client_only_ok s s' : qmi_ok s → client_only s s' → servers_ok s' → qmi_ok s'.
Proof.
  intros (Hs & Ht & _) (H1 & H2 & H3 & H4 & H5 & H6 & H7 & H8 & H9 & _) Hv.
  split; [by apply (sock_frame s)|]. split; [by apply (table_frame s)|done].
Qed.

Lemma times_split {A} (f p : A → bool) l :
  times f l = (times f (filter (λ x, p x = true) l) + times f (filter (λ x, p x = false) l))%nat.
Proof.
  induction l as [|x l IH]; [done|]. rewrite !filter_cons, times_cons, IH.
  destruct (p x) eqn:E; repeat case_decide; try done; rewrite times_cons; lia.
Qed.

Lemma times_del svc l : times (is_del svc) (CDelServer <$> l) = times (λ x, bool_decide (x = svc)) l.
Proof. induction l as [|x l IH]; [done|]. rewrite fmap_cons, !times_cons, IH. done. Qed.
Lemma times_new_del svc l : times (is_new svc) (CDelServer <$> l) = 0%nat.
Proof. by induction l as [|x l IH]; [|rewrite fmap_cons, times_cons, IH]. Qed.

Lemma del_server_run node port s : servers_ok s →
  ∃ s', qmi_recv_del_server node port s = (Done tt, s') ∧ client_only s s' ∧ servers_ok s' ∧
    lookup_results s' = filter (λ x, dying node port x = false) (lookup_results s).
Proof.
  intros [Hb Hd]. unfold qmi_recv_del_server, kbind at 1, kget at 1.
  destruct (del_loop_run node port (lookup_results s) s Hd) as (s1 & Hrun & ->). rewrite (kbind_Done _ _ _ _ _ Hrun).
  eexists. split; [reflexivity|]. split; [done|]. split; [|done]. split; [|done]. intros svc. cbn.
  rewrite !times_app, times_del, times_new_del, (Hb svc), (times_split _ (dying node port) (lookup_results s)). lia.
Qed.

Lemma all_dying svc : dying UINT_MAX UINT_MAX svc = true.
Proof. unfold dying. by rewrite Z.eqb_refl. Qed.

Lemma filter_none_dying l : filter (λ x, dying UINT_MAX UINT_MAX x = false) l = [].
Proof. induction l as [|x l IH]; [done|]. rewrite filter_cons, all_dying. by case_decide. Qed.

Lemma other_call_ok c s : (∀ svc, is_new svc c = false ∧ is_del svc c = false) → servers_ok s → servers_ok (add_call c s).
Proof.
  intros Hc [Hb Hd]. split; [|done]. intros svc. cbn. rewrite !times_app, !times_one, (Hb svc). destruct (Hc svc) as [-> ->]. lia.
Qed.

Lemma new_server_runs alloc serv inst node port s : qmi_ok s →
  ∃ s', qmi_recv_new_server alloc serv inst node port s = (Done tt, s') ∧ qmi_ok s' ∧ socks s' = socks s.
Proof.
  intros Hq. pose proof Hq as (_ & _ & Hb & Hd). unfold qmi_recv_new_server, kbind at 1, kget at 1.
  destruct (new_server (ops s)) as [answer|]; [|by exists s].
  destruct ((node =? 0) && (port =? 0)); [by exists s|]. destruct alloc; cbn [negb]; [|by exists s].
  set (svc := mk_svc _ _ _ _ _). unfold kbind, kmodify. destruct (Z.ltb_spec (answer svc) 0) as [Hneg|Hpos].
  - eexists. split; [reflexivity|]. split; [|done]. apply (client_only_ok s); [done..|]. split; [|done]. intros y. cbn.
    rewrite !times_app, !times_one, (Hb y). cbn. rewrite (proj2 (Z.leb_gt _ _) Hneg). cbn. lia.
  - eexists. split; [reflexivity|]. split; [|done]. apply (client_only_ok s); [done..|]. split; [|done]. intros y. cbn.
    rewrite !times_app, !times_one, !times_cons, (Hb y). cbn. rewrite (proj2 (Z.leb_le _ _) Hpos). cbn. lia.
Qed.

Lemma ctrl_pkt_runs alloc buf s : qmi_ok s → ∃ s', qmi_recv_ctrl_pkt alloc buf s = (Done tt, s') ∧ qmi_ok s' ∧ socks s' = socks s.
Proof.
  intros Hq. unfold qmi_recv_ctrl_pkt. destruct (_ <? _); [by exists s|].
  assert (∀ node port, ∃ s', qmi_recv_del_server node port s = (Done tt, s') ∧ qmi_ok s' ∧ socks s' = socks s) as Hdel.
  { intros node port. destruct (del_server_run node port s) as (s' & Hr & Hc & Hv & _); [apply Hq|]. exists s'. split; [done|].
    split; [by apply (client_only_ok s)|apply Hc]. }
  destruct (_ =? QRTR_TYPE_BYE).
  { unfold qmi_recv_bye. destruct (Hdel (word 1 buf) UINT_MAX) as (s1 & Hr & Hq1 & Hk1). rewrite (kbind_Done _ _ _ _ _ Hr).
    unfold kbind, kget. destruct (bye (ops s1)); [|by exists s1]. eexists. split; [reflexivity|]. split; [|done].
    apply (client_only_ok s1); [done..|]. apply other_call_ok; [done|apply Hq1]. }
  destruct (_ =? QRTR_TYPE_NEW_SERVER); [by apply new_server_runs|].
  destruct (_ =? QRTR_TYPE_DEL_SERVER); [apply Hdel|].
  destruct (_ =? QRTR_TYPE_DEL_CLIENT); [|by exists s].
  unfold qmi_recv_del_client, kbind, kget. destruct (del_client (ops s)); [|by exists s]. eexists. split; [reflexivity|]. split; [|done].
  apply (client_only_ok s); [done..|]. apply other_call_ok; [done|apply Hq].
Qed.

(** ** Receiving messages *)

Definition message_ok (buf : list Z) : Prop := Forall (λ b, 0 ≤ b < 256) buf ∧ zlen buf < 2 ^ 31.

Lemma decode_runs buf ei d s : message_ok buf → QMI_HEADER_SIZE ≤ zlen buf →
  match ei with Some t => table_ok (zlen d) t | None => True end →
  ∃ r d', decode_into buf ei d s = (Done (r, d'), s) ∧ length d' = length d.
Proof.
  intros [Hb Hl] H7 Htbl. unfold decode_into, qmi_decode_message. fold (zlen buf). unfold QMI_HEADER_SIZE in *.
  destruct ei as [t|]; [|by exists (- EINVAL), d]. cbn [default orb]. rewrite (proj2 (Z.eqb_neq _ _)) by lia.
  rewrite u32_small by lia. unfold qmi_decode.
  destruct (decode_loop_safe buf (zlen d) Hb Hl (decode_fuel t (zlen buf)) t t 0 (zlen d) 7 (zlen buf - 7) 1 0 0)
    with (m := d) as (r & d' & Hrun & [Hlen _] & _); try done; try lia.
  - unfold zlen in *. lia.
  - unfold max_answer. simpl. lia.
  - unfold fuel_needed, decode_fuel. simpl. lia.
  - unfold id. rewrite Hrun. by exists r, d'.
Qed.

Lemma invoke_runs alloc from t buf s : qmi_ok s → message_ok buf → QMI_HEADER_SIZE ≤ zlen buf →
  ∃ t' s', qmi_invoke_handler alloc from t buf s = (Done t', s') ∧ qmi_ok s' ∧ objs s' = objs s ∧ socks s' = socks s ∧
    txn_id t' = txn_id t ∧ txn_ei t' = txn_ei t ∧ dest t' = dest t.
Proof.
  intros Hq Hm H7. unfold qmi_invoke_handler, kbind at 1, kget at 1.
  destruct (handlers s) as [hs|] eqn:Ehs; [|by exists t, s].
  destruct (list_find _ hs) as [[i h]|] eqn:Ef; [|by exists t, s]. destruct alloc; cbn [negb]; [|by exists t, s].
  apply list_find_Some in Ef as (Hi & _ & _). apply list_elem_of_lookup_2 in Hi.
  pose proof Hq as (_ & [_ _ Hhs] & Hv). rewrite Ehs in Hhs. cbn in Hhs. rewrite list.Forall_forall in Hhs. destruct (Hhs h Hi) as [Htbl Hfn].
  destruct (decode_runs buf (h_ei h) (replicate (Z.to_nat (decoded_size h)) 0) s Hm H7) as (r & d & Hrun & _).
  { destruct (h_ei h) as [ei|]; [|done]. destruct Htbl as [Hsz Htbl]. unfold zlen. rewrite length_replicate, Z2Nat.id by done. done. }
  rewrite (kbind_Done _ _ _ _ _ Hrun). cbn [fst snd]. destruct (r <? 0); [by exists t, s|].
  unfold kbind, kmodify, kret. destruct (Hfn from t d) as (H1 & H2 & H3).
  eexists _, _. split; [reflexivity|]. split; [|done]. apply (client_only_ok s); [done..|]. by apply other_call_ok.
Qed.

Lemma put_txn_ok a t t' s : qmi_ok s → objs s !! a = Some t → txn_id t' = txn_id t → txn_ok t' →
  qmi_ok (set_objs (<[a := t']> (objs s)) s).
Proof.
  intros (Hs & [Ht Ho Hh] & Hv) Ha Hid Hok. split; [by apply (sock_frame s)|]. split; [|by apply (servers_frame s)].
  split; cbn; [| |done].
  - intros id b Hb. destruct (Ht id b Hb) as (Hr & u & Hu & Hui). split; [done|].
    destruct (decide (a = b)) as [<-|Hab]; [|exists u; by rewrite lookup_insert_ne].
    exists t'. rewrite lookup_insert_eq. split; [done|congruence].
  - intros b u [[<- <-]|[_ Hu]]%lookup_insert_Some; [done|by apply (Ho b)].
Qed.

Lemma handle_message_runs alloc from buf s : qmi_ok s → message_ok buf → ∃ s', qmi_handle_message alloc from buf s = (Done tt, s') ∧ qmi_ok s' ∧ socks s' = socks s.
Proof.
  intros Hq Hm. unfold qmi_handle_message. fold (zlen buf). destruct (Z.ltb_spec (zlen buf) QMI_HEADER_SIZE) as [|H7]; [by exists s|].
  destruct (hdr_type buf =? QMI_RESPONSE).
  - unfold kbind at 1, kget at 1. destruct (txns s !! hdr_txn_id buf) as [a|] eqn:Ea; [|by exists s].
    pose proof Hq as (_ & [Ht Ho Hh] & _). destruct (Ht _ _ Ea) as (_ & t & Hobj & Hid).
    rewrite (kbind_Done (get_txn a) _ s t s) by (unfold get_txn, kbind, kget; by rewrite Hobj).
    destruct (dest t) as [d|] eqn:Ed, (txn_ei t) as [ei|] eqn:Ee.
    1: { destruct (decode_runs buf (Some ei) d s Hm H7) as (r & d' & Hrun & Hlen).
         { pose proof (Ho _ _ Hobj) as Hok. unfold txn_ok in Hok. by rewrite Ed, Ee in Hok. }
         rewrite (kbind_Done _ _ _ _ _ Hrun). eexists. split; [reflexivity|]. split; [|done]. apply (put_txn_ok a t); [done..|].
         pose proof (Ho _ _ Hobj) as Hok. unfold txn_ok in *. rewrite Ed, Ee in Hok. cbn. rewrite Ee. unfold zlen in *. by rewrite Hlen. }
    all: destruct (invoke_runs alloc from t buf s Hq Hm H7) as (t' & s1 & Hrun & Hq1 & Ho1 & Hk1 & H1 & H2 & H3);
      rewrite (kbind_Done _ _ _ _ _ Hrun); eexists; (split; [reflexivity|]); (split; [|done]); apply (put_txn_ok a t); try done;
      [by rewrite Ho1|unfold txn_ok; rewrite H2, H3, Ed, Ee; done].
  - destruct (invoke_runs alloc from (mk_txn (hdr_txn_id buf) 0 0 None None) buf s Hq Hm H7) as (t' & s1 & Hrun & Hq1 & _ & Hk1 & _).
    rewrite (kbind_Done _ _ _ _ _ Hrun). by exists s1.
Qed.

(** ** The name service restarts *)

Lemma sock_create_run mk name s : (∀ k, mk = inr k → socks s !! k = None) →
  qmi_sock_create mk name s =
    match mk, name with
    | inl err, _ => (Done (inl err), s)
    | inr k, inl err => (Done (inl err), s)
    | inr k, inr a => (Done (inr (k, a)), set_socks (<[k := mk_socket true []]> (socks s)) (send_codes s) s)
    end.
Proof.
  intros Hfresh. unfold qmi_sock_create. destruct mk as [err|k]; [done|]. pose proof (Hfresh k eq_refl) as Hk.
  rewrite (kbind_Done (kmodify _) _ s tt _ eq_refl). cbv beta. destruct name as [err|a].
  - unfold sock_release, kbind, kget. cbn. rewrite lookup_insert_eq. unfold kmodify. cbn. rewrite delete_insert_id by done. by destruct s.
  - unfold set_user_data, kbind, kget. cbn. rewrite lookup_insert_eq. unfold kmodify. cbn. by rewrite insert_insert_eq.
Qed.

Lemma release_run k x s : socks s !! k = Some x → sock_release k s = (Done tt, set_socks (delete k (socks s)) (send_codes s) s).
Proof. intros Hk. unfold sock_release, kbind, kget. by rewrite Hk. Qed.

(** A new socket is told of everything. *)
Lemma register_all k u s : sock s = Some k → socks s !! k = Some (mk_socket u []) → send_codes s = [] → servers_ok s → table_inv s →
  ∃ s', (send_each qmi_send_new_lookup (lookups s) ;;; send_each qmi_send_new_server (services s)) s = (Done tt, s') ∧ qmi_ok s' ∧
    sock s' = sock s ∧ sq s' = sq s ∧ lookup_results s' = lookup_results s.
Proof.
  intros Hk Hx Hc Hv Ht. assert (live s) as Hl by (split; [by eexists k, _|done]).
  rewrite (kbind_Done _ _ _ _ _ (lookups_run (lookups s) s Hl)), servers_run by (by apply posted_live).
  rewrite posted_posted by done. eexists. split; [reflexivity|].
  set (ms := _ ++ _). destruct (posted_frame ms s) as (P1 & P2 & P3 & P4 & P5 & P6). split; [split; [|split]|].
  - apply (posted_ok ms k (mk_socket u [])); try done. unfold ms. cbn [sent app].
    split; intros svc Hsvc; apply elem_of_app; [left|right]; apply list_elem_of_fmap; exists svc; (split; [|done]); [done|].
    unfold server_msg. by rewrite posted_sq.
  - by apply (table_frame s).
  - by apply (servers_frame s).
  - split; [|split; [apply posted_sq|done]]. unfold posted. by rewrite Hk.
Qed.

Lemma net_reset_runs mk name s : qmi_ok s → (∀ k, mk = inr k → socks s !! k = None) →
  ∃ s', qmi_handle_net_reset mk name s = (Done tt, s') ∧ qmi_ok s' ∧
    match mk, name with inr k, inr a => sock s' = Some k ∧ sq s' = a ∧ lookup_results s' = [] | _, _ => s' = s end.
Proof.
  intros Hq Hfresh. unfold qmi_handle_net_reset. unfold kbind at 1. rewrite (sock_create_run mk name s Hfresh).
  destruct mk as [err|k]; [by exists s|]. destruct name as [err|a]; [by exists s|].
  destruct Hq as ([(old & x & Hold & Hx & _) Hc] & Ht & Hv). pose proof (Hfresh k eq_refl) as Hk.
  assert (old ≠ k) as Hne by congruence.
  set (s1 := set_socks _ _ s). unfold kbind at 1, kget at 1. replace (sock s1) with (Some old) by done.
  rewrite (kbind_Done _ _ _ _ _ (release_run old x s1 ltac:(cbn; by rewrite lookup_insert_ne))).
  rewrite (kbind_Done (kmodify _) _ _ tt _ eq_refl). cbv beta. set (s2 := set_sock None _ _).
  assert (servers_ok s2) as Hv2 by (by apply (servers_frame s)).
  destruct (del_server_run UINT_MAX UINT_MAX s2 Hv2) as (s3 & Hrun & Hco & Hv3 & Hres). rewrite (kbind_Done _ _ _ _ _ Hrun).
  rewrite filter_none_dying in Hres. destruct Hco as (_ & _ & C3 & C4 & C5 & C6 & C7 & C8 & C9 & _).
  unfold kbind at 1, kget at 1.
  assert (∃ s4, (if net_reset (ops s3) then kmodify (add_call CNetReset) else kret tt) s3 = (Done tt, s4) ∧
    s4 = (if net_reset (ops s3) then add_call CNetReset s3 else s3)) as (s4 & Hr4 & Hs4) by (destruct (net_reset (ops s3)); by eexists).
  rewrite (kbind_Done _ _ _ _ _ Hr4). rewrite (kbind_Done (kmodify _) _ _ tt _ eq_refl). set (s5 := set_sock (Some k) a s4).
  assert (socks s5 !! k = Some (mk_socket true []) ∧ send_codes s5 = [] ∧ servers_ok s5 ∧ table_inv s5 ∧ lookup_results s5 = []) as
    (Hk5 & Hc5 & Hv5 & Ht5 & Hl5).
  { assert (servers_ok s4) as Hv4 by (rewrite Hs4; destruct (net_reset (ops s3)); [by apply other_call_ok|done]).
    subst s4. split; [|split; [|split; [|split]]].
    - destruct (net_reset _); cbn; rewrite C5; cbn; by rewrite lookup_delete_ne, lookup_insert_eq.
    - destruct (net_reset _); cbn; rewrite C6; done.
    - by apply (servers_frame (if net_reset (ops s3) then add_call CNetReset s3 else s3)).
    - apply (table_frame s); try done; destruct (net_reset _); cbn; done.
    - destruct (net_reset _); done. }
  destruct (register_all k true s5) as (s6 & Hr6 & Hq6 & H6 & H6' & H6''); try done.
  unfold kbind at 1, kget at 1. rewrite Hr6. exists s6. split; [done|]. split; [done|]. by rewrite H6, H6', H6''.
Qed.

(** ** The work *)

Definition fresh_sock (mk : Z + Z) (s : qmi_handle) : Prop := ∀ k, mk = inr k → socks s !! k = None.
Definition inbox_ok (inbox : list (Z + sockaddr_qrtr * list Z)) : Prop :=
  Forall (λ m, match m with inr (_, bs) => message_ok bs | inl _ => True end) inbox.

Lemma message_take n bs : message_ok bs → message_ok (take n bs).
Proof. intros [Hb Hl]. split; [by apply Forall_take|]. unfold zlen in *. rewrite length_take. lia. Qed.

Lemma work_runs mk name alloc inbox s : qmi_ok s → fresh_sock mk s → inbox_ok inbox →
  ∃ s', qmi_data_ready_work mk name alloc inbox s = (Done tt, s') ∧ qmi_ok s'.
Proof.
  intros Hq Hfresh Hin. revert s Hq Hfresh. induction Hin as [|m inbox Hm Hin IH]; intros s Hq Hfresh;
    cbn [qmi_data_ready_work]; unfold kbind at 1, kget at 1; destruct (sock s); try (by exists s).
  destruct m as [err|[from bs]].
  - destruct (err =? - ENETRESET); [|by exists s]. destruct (net_reset_runs mk name s Hq Hfresh) as (s' & Hr & Hq' & _). by exists s'.
  - pose proof (message_take (Z.to_nat (recv_buf_size s)) bs Hm) as Hbuf. set (buf := take _ bs) in *.
    match goal with |- context [kbind ?m _] => assert (∃ s1, m s = (Done tt, s1) ∧ qmi_ok s1 ∧ socks s1 = socks s) as (s1 & Hr & Hq1 & Hk1) end.
    { destruct (_ && _); [by apply ctrl_pkt_runs|]. destruct (msg_handler (ops s)); [|by apply handle_message_runs].
      eexists. split; [reflexivity|]. split; [|done]. apply (client_only_ok s); [done..|]. apply other_call_ok; [done|apply Hq]. }
    rewrite (kbind_Done _ _ _ _ _ Hr). apply IH; [done|]. intros k Hk. rewrite Hk1. by apply Hfresh.
Qed.

(** ** Transactions and sending *)

Definition idle_txn (txn : Z) (s : qmi_handle) : Prop := ∀ id, txns s !! id ≠ Some txn.
(** What [idr_alloc_cyclic] promises. *)
Definition idr_law (idr : gmap Z Z → Z) (s : qmi_handle) : Prop :=
  idr (txns s) < 0 ∨ 0 ≤ idr (txns s) < 65535 ∧ txns s !! idr (txns s) = None.

Lemma table_swap s s' : qmi_ok s → sock s' = sock s → sq s' = sq s → lookups s' = lookups s → services s' = services s → socks s' = socks s →
  send_codes s' = send_codes s → calls s' = calls s → lookup_results s' = lookup_results s → ops s' = ops s → table_inv s' → qmi_ok s'.
Proof. intros (Hs & _ & Hv) H1 H2 H3 H4 H5 H6 H7 H8 H9 Ht. split; [by apply (sock_frame s)|]. split; [done|by apply (servers_frame s)]. Qed.

Lemma txn_init_runs idr txn ei d s : qmi_ok s → idle_txn txn s → idr_law idr s → txn_ok (mk_txn 0 0 0 ei d) →
  ∃ s', qmi_txn_init idr txn ei d s = (Done (idr (txns s)), s') ∧ qmi_ok s' ∧
    objs s' = <[txn := mk_txn (u16 (idr (txns s))) 0 0 ei d]> (objs s) ∧
    txns s' = (if idr (txns s) <? 0 then txns s else <[idr (txns s) := txn]> (txns s)).
Proof.
  intros Hq Hidle Hidr Hok. pose proof Hq as (_ & [Ht Ho Hh] & _). unfold qmi_txn_init, kbind, kget, kmodify, kret.
  destruct (Z.ltb_spec (idr (txns s)) 0) as [Hneg|Hpos].
  - eexists. split; [reflexivity|]. split; [|done]. apply (table_swap s); try done. split; cbn; [| |done].
    + intros id a Ha. destruct (Ht id a Ha) as (Hr & t & Hobj & Hid). split; [done|]. exists t.
      rewrite lookup_insert_ne; [done|]. intros ->. by apply (Hidle id).
    + intros a t [[<- <-]|[_ Hu]]%lookup_insert_Some; [exact Hok|by apply (Ho a)].
  - destruct Hidr as [?|[Hr Hfree]]; [lia|]. eexists. split; [reflexivity|]. split; [|done]. apply (table_swap s); try done. split; cbn; [| |done].
    + intros id a [[<- <-]|[_ Ha]]%lookup_insert_Some.
      * split; [done|]. rewrite lookup_insert_eq. eexists. split; [done|]. cbn. unfold u16. by rewrite Z.mod_small by lia.
      * destruct (Ht id a Ha) as (Hr' & t & Hobj & Hid). split; [done|]. exists t.
        rewrite lookup_insert_ne; [done|]. intros ->. by apply (Hidle id).
    + intros a t [[<- <-]|[_ Hu]]%lookup_insert_Some; [exact Hok|by apply (Ho a)].
Qed.

Lemma forget_ok id s : qmi_ok s → qmi_ok (set_txns (delete id (txns s)) s).
Proof.
  intros Hq. apply (table_swap s); try done. destruct Hq as (_ & [Ht Ho Hh] & _). split; cbn; [|done..].
  intros j a [_ Ha]%lookup_delete_Some. by apply Ht.
Qed.

Lemma get_txn_run a t s : objs s !! a = Some t → get_txn a s = (Done t, s).
Proof. intros Ha. unfold get_txn, kbind, kget. by rewrite Ha. Qed.

Lemma cancel_runs txn t s : qmi_ok s → objs s !! txn = Some t →
  qmi_txn_cancel txn s = (Done tt, set_txns (delete (txn_id t) (txns s)) s).
Proof. intros Hq Ht. unfold qmi_txn_cancel. by rewrite (kbind_Done _ _ _ _ _ (get_txn_run txn t s Ht)). Qed.

(** Waiting; what happens meanwhile keeps the invariant and the object. *)
Definition keeps (txn : Z) (f : qmi_handle → qmi_handle) : Prop :=
  ∀ s, qmi_ok s → is_Some (objs s !! txn) → qmi_ok (f s) ∧ is_Some (objs (f s) !! txn).

Lemma completion_runs env txn s : Forall (keeps txn) env → qmi_ok s → is_Some (objs s !! txn) →
  ∃ met s', wait_for_completion env txn s = (Done met, s') ∧ qmi_ok s' ∧ is_Some (objs s' !! txn).
Proof.
  intros Henv. revert s. induction Henv as [|f env Hf Henv IH]; intros s Hq [t Ht]; cbn [wait_for_completion];
    rewrite (kbind_Done _ _ _ _ _ (get_txn_run txn t s Ht)); destruct (0 <? txn_done t).
  1,3: eexists true, _; split; [reflexivity|]; split;
    [apply (put_txn_ok txn t); [done..|exact (ti_objs _ (proj1 (proj2 Hq)) _ _ Ht)]|cbn; rewrite lookup_insert_eq; by eexists].
  - exists false, s. split; [done|]. split; [done|by eexists].
  - unfold kbind, kmodify. destruct (Hf s Hq) as [Hq1 Ht1]; [by eexists|]. by apply IH.
Qed.

Lemma txn_wait_runs env txn s : Forall (keeps txn) env → qmi_ok s → is_Some (objs s !! txn) →
  ∃ r s', qmi_txn_wait env txn s = (Done r, s') ∧ qmi_ok s'.
Proof.
  intros Henv Hq Ht. unfold qmi_txn_wait. destruct (completion_runs env txn s Henv Hq Ht) as (met & s1 & Hr & Hq1 & [t Ht1]).
  rewrite (kbind_Done _ _ _ _ _ Hr), (kbind_Done _ _ _ _ _ (get_txn_run txn t s1 Ht1)).
  destruct (txn_result t =? - ENETRESET); [by eexists _, s1|]. eexists _, _. split; [reflexivity|]. by apply forget_ok.
Qed.

Definition encodable (type msg_id len ID : Z) (alloc : bool) (ei : option (list qmi_elem_info)) (c_struct : option (list Z)) : Prop :=
  ∃ r, qmi_encode_message alloc (tsize (default [] ei)) type msg_id len ID ei c_struct = Done r.

Lemma post_any_ok ms s : qmi_ok s → qmi_ok (posted ms s).
Proof.
  intros ([(k & x & Hk & Hx & Hr1 & Hr2) Hc] & Ht & Hv). destruct (posted_frame ms s) as (P1 & P2 & P3 & P4 & P5 & P6). split; [|split].
  - apply (posted_ok ms k x); try done. split; intros svc Hsvc; apply elem_of_app; left; [by apply Hr1|by apply Hr2].
  - by apply (table_frame s).
  - by apply (servers_frame s).
Qed.

Lemma send_message_runs alloc to ID type msg_id len ei c s : qmi_ok s → encodable type msg_id len ID alloc ei c →
  ∃ r s', qmi_send_message alloc to ID type msg_id len ei c s = (Done r, s') ∧ qmi_ok s' ∧ objs s' = objs s ∧ txns s' = txns s.
Proof.
  intros Hq [r Hr]. unfold qmi_send_message. rewrite Hr. destruct r as [err|[msg n]]; [by exists err, s|].
  unfold kbind at 1, kget at 1. pose proof Hq as ([(k & x & Hk & Hx & _) Hc] & _ & _). rewrite Hk.
  rewrite (kbind_Done _ _ _ _ _ (sendmsg_run k to (take (Z.to_nat n) msg) s ltac:(split; [by exists k, x|done]) Hk)).
  eexists _, _. split; [reflexivity|]. destruct (posted_frame [(to, take (Z.to_nat n) msg)] s) as (P1 & P2 & _).
  split; [by apply post_any_ok|done].
Qed.
