(* ===== verification/QmiMsgSystem.v ===== *)
(** * The life of a QMI handle (qmi_interface.c)

    All calls on a handle in any order, from its start to its release, and the delivery
    of a response to the transaction that waits for it. *)

From S2P Require Import Prelude Memory QmiEncDec QmiSafe QmiMsg QmiMsgInv.

Inductive op :=
  | OAddLookup (alloc : bool) (serv ver inst : Z)
  | OAddServer (alloc : bool) (serv ver inst : Z)
  | OWork (mk : Z + Z) (name : Z + sockaddr_qrtr) (alloc : bool) (inbox : list (Z + sockaddr_qrtr * list Z))
  | OReady (k : Z)
  | OTxnInit (idr : gmap Z Z → Z) (txn : Z) (ei : option (list qmi_elem_info)) (d : option (list Z))
  | OTxnWake (txn : Z)                    (* the end of a wait, answered or not *)
  | OTxnCancel (txn : Z)
  | OSendRequest (alloc : bool) (to : option sockaddr_qrtr) (txn msg_id len : Z) (ei : option (list qmi_elem_info)) (c : option (list Z))
  | OSendResponse (alloc : bool) (to : option sockaddr_qrtr) (t : qmi_txn) (msg_id len : Z) (ei : option (list qmi_elem_info)) (c : option (list Z))
  | OSendIndication (idr : gmap Z Z → Z) (txn : Z) (alloc : bool) (to : option sockaddr_qrtr) (msg_id len : Z) (ei : option (list qmi_elem_info)) (c : option (list Z)).

Definition forget_answer {A} (m : M A) : M unit := let* _ := m in kret tt.

Definition step (o : op) : M unit :=
  match o with
  | OAddLookup alloc serv ver inst => forget_answer (qmi_add_lookup alloc serv ver inst)
  | OAddServer alloc serv ver inst => forget_answer (qmi_add_server alloc serv ver inst)
  | OWork mk name alloc inbox => qmi_data_ready_work mk name alloc inbox
  | OReady k => qmi_data_ready k
  | OTxnInit idr txn ei d => forget_answer (qmi_txn_init idr txn ei d)
  | OTxnWake txn => forget_answer (qmi_txn_wait [] txn)
  | OTxnCancel txn => qmi_txn_cancel txn
  | OSendRequest alloc to txn msg_id len ei c => forget_answer (qmi_send_request alloc to txn msg_id len ei c)
  | OSendResponse alloc to t msg_id len ei c => forget_answer (qmi_send_response alloc to t msg_id len ei c)
  | OSendIndication idr txn alloc to msg_id len ei c => forget_answer (qmi_send_indication idr txn alloc to msg_id len ei c)
  end.

Fixpoint run (os : list op) : M unit :=
  match os with [] => kret tt | o :: os => step o ;;; run os end.

(** What the callers and the rest of the kernel guarantee: messages are bytes, a new
    socket is new, a transaction object is not in use when it is initialised, its table
    fits its structure, and so does what is sent. *)
Definition op_ok (s : qmi_handle) (o : op) : Prop :=
  match o with
  | OAddLookup _ _ _ _ | OAddServer _ _ _ _ => True
  | OWork mk _ _ inbox => fresh_sock mk s ∧ inbox_ok inbox
  | OReady k => is_Some (socks s !! k)
  | OTxnInit idr txn ei d => idle_txn txn s ∧ idr_law idr s ∧ txn_ok (mk_txn 0 0 0 ei d)
  | OTxnWake txn | OTxnCancel txn => is_Some (objs s !! txn)
  | OSendRequest alloc _ txn msg_id len ei c => ∃ t, objs s !! txn = Some t ∧ encodable QMI_REQUEST msg_id len (txn_id t) alloc ei c
  | OSendResponse alloc _ t msg_id len ei c => encodable QMI_RESPONSE msg_id len (txn_id t) alloc ei c
  | OSendIndication idr txn alloc _ msg_id len ei c =>
      idle_txn txn s ∧ idr_law idr s ∧ ∀ ID, encodable QMI_INDICATION msg_id len ID alloc ei c
  end.

Fixpoint ops_ok (os : list op) (s : qmi_handle) : Prop :=
  match os with [] => True | o :: os => op_ok s o ∧ ops_ok os (step o s).2 end.

Lemma indication_runs idr txn alloc to msg_id len ei c s :
  qmi_ok s → idle_txn txn s → idr_law idr s → (∀ ID, encodable QMI_INDICATION msg_id len ID alloc ei c) →
  ∃ r s', qmi_send_indication idr txn alloc to msg_id len ei c s = (Done r, s') ∧ qmi_ok s'.
Proof.
  intros Hq Hidle Hidr Henc. unfold qmi_send_indication.
  destruct (txn_init_runs idr txn None None s Hq Hidle Hidr I) as (s1 & Hr & Hq1 & Ho1 & _). rewrite (kbind_Done _ _ _ _ _ Hr).
  destruct (idr (txns s) <? 0); [by eexists _, s1|]. set (t := mk_txn _ _ _ _ _) in Ho1.
  assert (objs s1 !! txn = Some t) as Ht by (rewrite Ho1; apply lookup_insert_eq).
  rewrite (kbind_Done _ _ _ _ _ (get_txn_run txn t s1 Ht)).
  destruct (send_message_runs alloc to (txn_id t) QMI_INDICATION msg_id len ei c s1 Hq1 (Henc _)) as (r & s2 & Hr2 & Hq2 & Ho2 & _).
  rewrite (kbind_Done _ _ _ _ _ Hr2), (kbind_Done _ _ _ _ _ (cancel_runs txn t s2 Hq2 ltac:(by rewrite Ho2))).
  eexists _, _. split; [reflexivity|]. by apply forget_ok.
Qed.

Lemma answered {A} (m : M A) s : (∃ r s', m s = (Done r, s') ∧ qmi_ok s') → ∃ s', forget_answer m s = (Done tt, s') ∧ qmi_ok s'.
Proof. intros (r & s' & Hr & Hq). exists s'. unfold forget_answer. by rewrite (kbind_Done _ _ _ _ _ Hr). Qed.

Lemma step_runs o s : qmi_ok s → op_ok s o → ∃ s', step o s = (Done tt, s') ∧ qmi_ok s'.
Proof.
  intros Hq Hok. destruct o; cbn [step op_ok] in *.
  - by apply answered, add_lookup_runs.
  - by apply answered, add_server_runs.
  - destruct Hok. by apply work_runs.
  - destruct Hok as [x Hx]. unfold qmi_data_ready, kbind, kget. rewrite Hx. destruct (user_data x); [|by exists s].
    eexists. split; [reflexivity|]. destruct Hq as (Hs & Ht & Hv). split; [by apply (sock_frame s)|]. split; [by apply (table_frame s)|by apply (servers_frame s)].
  - destruct Hok as (H1 & H2 & H3). apply answered. destruct (txn_init_runs idr txn ei d s) as (s' & Hr & Hq' & _); [done..|]. by eexists _, s'.
  - by apply answered, txn_wait_runs.
  - destruct Hok as [t Ht]. rewrite (cancel_runs txn t) by done. eexists. split; [reflexivity|]. by apply forget_ok.
  - destruct Hok as (t & Ht & Henc). apply answered. unfold qmi_send_request. rewrite (kbind_Done _ _ _ _ _ (get_txn_run txn t s Ht)).
    destruct (send_message_runs alloc to (txn_id t) QMI_REQUEST msg_id len ei c s Hq Henc) as (r & s' & Hr & Hq' & _). by exists r, s'.
  - apply answered. destruct (send_message_runs alloc to (txn_id t) QMI_RESPONSE msg_id len ei c s Hq Hok) as (r & s' & Hr & Hq' & _).
    by exists r, s'.
  - destruct Hok as (H1 & H2 & H3). by apply answered, indication_runs.
Qed.

Lemma run_keeps os s : qmi_ok s → ops_ok os s → ∃ s', run os s = (Done tt, s') ∧ qmi_ok s'.
Proof.
  revert s. induction os as [|o os IH]; intros s Hq Hok; [by exists s|]. destruct Hok as [Ho Hos].
  destruct (step_runs o s Hq Ho) as (s1 & Hr & Hq1). cbn [run]. rewrite (kbind_Done _ _ _ _ _ Hr). apply IH; [done|]. by rewrite Hr in Hos.
Qed.

(** ** Start *)

(** The memory before: nothing was reported yet, objects of clients fit their tables, sends do not fail. *)
Record before (o : qmi_ops) (h : option (list qmi_msg_handler)) (s : qmi_handle) : Prop := {
  be_calls : calls s = [];
  be_codes : send_codes s = [];
  be_objs : ∀ a t, objs s !! a = Some t → txn_ok t;
  be_handlers : Forall handler_ok (default [] h);
  be_told : del_server o = true
}.

Lemma init_runs k a size o h s : before o h s → socks s !! k = None →
  ∃ s', qmi_handle_init true true (inr k) (inr a) size (Some o) h s = (Done 0, s') ∧ qmi_ok s' ∧ sock s' = Some k ∧ calls s' = [].
Proof.
  intros [Hc Hs Ho Hh Hd] Hk. unfold qmi_handle_init. rewrite !(kbind_Done (kmodify _) _ _ tt _ eq_refl). cbv beta. cbn [negb].
  set (s1 := set_config _ _ _ _). unfold kbind at 1. rewrite sock_create_run by (intros k' [= <-]; exact Hk). unfold kbind, kmodify, kret.
  eexists. split; [reflexivity|]. split; [|done]. split; [|split].
  - split; [|exact Hs]. eexists k, _. split; [done|]. split; [cbn; apply lookup_insert_eq|]. split; intros svc Hsvc; by apply not_elem_of_nil in Hsvc.
  - split; cbn; [|exact Ho|exact Hh]. intros id b Hb. by rewrite lookup_empty in Hb.
  - split; [|exact Hd]. intros svc. cbn. by rewrite Hc.
Qed.

(** ** Release *)

Definition ended (t : qmi_txn) : qmi_txn := complete (set_result (- ENETRESET) t).

Lemma release_txns_run l s : table_inv s → NoDup l.*1 → (∀ id a, (id, a) ∈ l → txns s !! id = Some a) →
  ∃ m o, release_txns l s = (Done tt, set_txns m (set_objs o s)) ∧
    (∀ id a, (id, a) ∈ l → o !! a = ended <$> objs s !! a) ∧ (∀ a, a ∉ l.*2 → o !! a = objs s !! a).
Proof.
  revert s. induction l as [|[id a] l IH]; intros s Ht Hnd Hin; cbn [release_txns].
  { exists (txns s), (objs s). split; [by destruct s|]. split; [|done]. intros id a Ha. by apply not_elem_of_nil in Ha. }
  rewrite fmap_cons, list.NoDup_cons in Hnd. destruct Hnd as [Hnot Hnd]. pose proof (Hin id a ltac:(set_solver)) as Ha.
  unfold kbind at 1, kget at 1. rewrite bool_decide_true by done.
  destruct (ti_txns _ Ht id a Ha) as (_ & t & Hobj & Hid). unfold kbind at 1. rewrite (kbind_Done _ _ _ _ _ (get_txn_run a t s Hobj)).
  rewrite (kbind_Done (kmodify _) _ _ tt _ eq_refl). cbv beta. unfold put_txn, kmodify. fold (ended t). cbn [objs set_txns].
  set (s1 := set_objs _ _).
  assert (∀ id' a', (id', a') ∈ l → txns s1 !! id' = Some a' ∧ a' ≠ a) as Hl.
  { intros id' a' Hl. assert (id' ≠ id) as Hne by (intros ->; apply Hnot, list_elem_of_fmap; by exists (id, a')).
    pose proof (Hin id' a' ltac:(set_solver)) as Ha'. split; [cbn [s1 txns set_objs set_txns]; rewrite Hid, lookup_delete_ne by done; exact Ha'|].
    intros ->. destruct (ti_txns _ Ht id' a Ha') as (_ & t' & Hobj' & Hid'). congruence. }
  destruct (IH s1) as (m & o & Hr & Hin1 & Hout1); [|done|intros id' a' Hl'; by apply Hl|].
  { destruct Ht as [H1 H2 H3]. split; cbn; [| |done].
    - intros j b [_ Hj]%lookup_delete_Some. destruct (H1 j b Hj) as (Hr & u & Hu & Huid). split; [done|].
      destruct (decide (a = b)) as [<-|Hab]; [|exists u; by rewrite lookup_insert_ne].
      exists (ended t). rewrite lookup_insert_eq. split; [done|]. cbn. congruence.
    - intros b u [[<- <-]|[_ Hu]]%lookup_insert_Some; [exact (H2 _ _ Hobj)|by apply (H2 b)]. }
  exists m, o. split; [by rewrite Hr|]. split.
  - intros id' a' [[= -> ->]|Hl']%elem_of_cons.
    + rewrite (Hout1 a), Hobj; [cbn; by rewrite lookup_insert_eq|]. intros ([j b] & -> & Hj)%list_elem_of_fmap. by destruct (Hl j b Hj).
    + rewrite (Hin1 id' a' Hl'). cbn. destruct (Hl _ _ Hl') as [_ Hne]. by rewrite lookup_insert_ne by done.
  - intros b Hb. rewrite fmap_cons, not_elem_of_cons in Hb. destruct Hb as [Hb1 Hb2]. rewrite (Hout1 b Hb2). cbn. by rewrite lookup_insert_ne by done.
Qed.

Lemma release_runs s : qmi_ok s →
  ∃ s', qmi_handle_release (kret tt) s = (Done tt, s') ∧ balanced s' ∧ lookup_results s' = [] ∧ sock s' = None ∧ txns s' = ∅ ∧
    (∀ k, sock s = Some k → socks s' = delete k (socks s)) ∧
    ∀ id a, txns s !! id = Some a → objs s' !! a = ended <$> objs s !! a.
Proof.
  intros ([(k & x & Hk & Hx & _) Hc] & Ht & Hv). unfold qmi_handle_release. unfold kbind at 1, kget at 1. rewrite Hk.
  rewrite (kbind_Done (set_user_data k false) _ s tt (set_socks (<[k := mk_socket false (sent x)]> (socks s)) (send_codes s) s))
    by (unfold set_user_data, kbind, kget; by rewrite Hx).
  rewrite (kbind_Done (kret tt) _ _ tt _ eq_refl). set (s1 := set_socks _ _ s).
  destruct (del_server_run UINT_MAX UINT_MAX s1) as (s2 & Hr & Hco & Hv2 & Hres); [by apply (servers_frame s)|].
  rewrite (kbind_Done _ _ _ _ _ Hr). rewrite filter_none_dying in Hres. destruct Hco as (_ & C2 & _ & _ & C5 & _ & C7 & C8 & C9 & _).
  assert (socks s2 !! k = Some (mk_socket false (sent x))) as Hk2 by (rewrite C5; cbn; apply lookup_insert_eq).
  rewrite (kbind_Done _ _ _ _ _ (release_run k _ s2 Hk2)). rewrite (kbind_Done (kmodify _) _ _ tt _ eq_refl). cbv beta.
  set (s3 := set_work false _). unfold kbind at 1, kget at 1. replace (txns s3) with (txns s) by (cbn; by rewrite C7).
  destruct (release_txns_run (map_to_list (txns s)) s3) as (m & o & Hr3 & Hin & _).
  - by apply (table_frame s).
  - apply NoDup_fst_map_to_list.
  - intros id a Ha. apply elem_of_map_to_list in Ha. cbn. by rewrite C7.
  - rewrite (kbind_Done _ _ _ _ _ Hr3). eexists. split; [reflexivity|].
    split; [exact (sv_balanced _ Hv2)|]. split; [exact Hres|]. split; [done|]. split; [done|]. split.
    + intros k' [= <-]. cbn. rewrite C5. cbn. by rewrite delete_insert_eq.
    + intros id a Ha. cbn. rewrite (Hin id a); [cbn; by rewrite C8|]. by apply elem_of_map_to_list.
Qed.

(** A waiter returns the reset, and does not touch the table of the handle. *)
Lemma wait_ended txn t s : objs s !! txn = Some t → txn_result t = - ENETRESET →
  ∃ s', qmi_txn_wait [] txn s = (Done (- ENETRESET), s') ∧ txns s' = txns s.
Proof.
  intros Ht Hr. unfold qmi_txn_wait. cbn [wait_for_completion]. unfold kbind at 1. rewrite (kbind_Done _ _ _ _ _ (get_txn_run txn t s Ht)).
  destruct (0 <? txn_done t).
  - unfold put_txn, kbind at 1, kmodify, kret at 1. rewrite (kbind_Done _ _ _ _ _ (get_txn_run txn _ _ (lookup_insert_eq _ _ _))). cbn [txn_result].
    rewrite Hr, Z.eqb_refl. by eexists.
  - unfold kret at 1. rewrite (kbind_Done _ _ _ _ _ (get_txn_run txn t s Ht)), Hr, Z.eqb_refl. by eexists.
Qed.

(** C21: a handle from its successful start to its release. However lookups, services,
    messages of any content, restarts of the name service, transactions, requests, responses
    and indications follow each other, one at a time, every call returns and no released
    socket is used. At each point the servers the client knows of are exactly those it was
    told of, with a non-negative answer, and not yet told the end of; the current socket was
    sent the registration of every lookup and every service, also after restarts; and the
    table of transactions leads from an id to the object that has this id. The release tells
    the client the end of every server that is left, so that each one reported was withdrawn
    exactly as often; it releases the socket, empties the table, and every waiting transaction
    ends with -ENETRESET. The conditions: the socket's sends never fail ([before]); no work
    runs while the handle is released (the argument [kret tt]; when a restart is handled then,
    the released socket is used, see [release_races_reset] in QmiMsgCases); the client has a
    [del_server] callback; tables fit their structures, what is sent can be encoded, new
    sockets are new, [idr_alloc_cyclic] gives free ids and a transaction object is idle when
    initialised ([ops_ok]). *)
Theorem qmi_handle_life k a size o h s0 s1 os :
  before o h s0 → socks s0 !! k = None →
  qmi_handle_init true true (inr k) (inr a) size (Some o) h s0 = (Done 0, s1) → ops_ok os s1 →
  ∃ s2 s3, run os s1 = (Done tt, s2) ∧ qmi_handle_release (kret tt) s2 = (Done tt, s3) ∧
    balanced s2 ∧
    (∃ k2 x, sock s2 = Some k2 ∧ socks s2 !! k2 = Some x ∧ registered s2 (sent x) ∧ socks s3 = delete k2 (socks s2)) ∧
    (∀ id txn, txns s2 !! id = Some txn → ∃ t, objs s2 !! txn = Some t ∧ txn_id t = id ∧
       objs s3 !! txn = Some (ended t) ∧ (qmi_txn_wait [] txn s3).1 = Done (- ENETRESET)) ∧
    (∀ svc, times (is_new svc) (calls s3) = times (is_del svc) (calls s3)) ∧ txns s3 = ∅ ∧ sock s3 = None.
Proof.
  intros Hb Hk Hinit Hos. destruct (init_runs k a size o h s0 Hb Hk) as (s1' & Hr & Hq1 & _). rewrite Hinit in Hr. injection Hr as <-.
  destruct (run_keeps os s1 Hq1 Hos) as (s2 & Hr2 & Hq2).
  destruct (release_runs s2 Hq2) as (s3 & Hr3 & Hb3 & Hl3 & Hk3 & Ht3 & Hs3 & Ho3).
  exists s2, s3. split; [done|]. split; [done|]. destruct Hq2 as ([(k2 & x & Hk2 & Hx & Hreg) _] & Ht & Hv).
  split; [apply Hv|]. split; [exists k2, x; eauto|]. split; [|split; [|done]].
  - intros id txn Htx. destruct (ti_txns _ Ht id txn Htx) as (_ & t & Hobj & Hid). exists t. split; [done|]. split; [done|].
    pose proof (Ho3 id txn Htx) as Ho. rewrite Hobj in Ho. cbn in Ho. split; [done|].
    destruct (wait_ended txn (ended t) s3 Ho eq_refl) as (s4 & -> & _). done.
  - intros svc. rewrite (Hb3 svc), Hl3. change (times _ []) with 0%nat. lia.
Qed.
