(* ===== verification/QmiRpc.v ===== *)
(** * A call over QMI (qmi_interface.c on top of qmi_encdec.c)

    A client sends a request, a server's handler is given it and sends a response, and the
    client's transaction receives it: what the interface does with the messages joined to
    what the encoder and decoder do with their contents. *)

From S2P Require Import Prelude Memory QmiEncDec QmiSafe QmiSchema QmiEncode QmiRound QmiMsg QmiMsgInv.

(** The bytes on the wire. *)
Definition wire_msg (type ID msg_id : Z) (w : list Z) : list Z := header_bytes type ID msg_id (zlen w) ++ w.

Lemma wire_msg_length type ID msg_id w : zlen (wire_msg type ID msg_id w) = QMI_HEADER_SIZE + zlen w.
Proof.
  unfold wire_msg, QMI_HEADER_SIZE. unfold zlen at 1 3. rewrite length_app.
  change (length (header_bytes _ _ _ _)) with 7%nat. lia.
Qed.

Lemma wire_msg_header type ID msg_id w : 0 ≤ type < 256 → 0 ≤ ID < 2 ^ 16 → 0 ≤ msg_id < 2 ^ 16 →
  hdr_type (wire_msg type ID msg_id w) = type ∧ hdr_txn_id (wire_msg type ID msg_id w) = ID ∧
  hdr_msg_id (wire_msg type ID msg_id w) = msg_id ∧ zlen (wire_msg type ID msg_id w) = QMI_HEADER_SIZE + zlen w.
Proof.
  intros Ht Hi Hm. unfold hdr_type, hdr_txn_id, hdr_msg_id. split; [|split; [|split]].
  - change (take 1 _) with (le_encode 1 type). rewrite le_decode_encode, Z.mod_small; [done|]. exact Ht.
  - change (take 2 _) with (le_encode 2 ID). rewrite le_decode_encode, Z.mod_small; [done|]. exact Hi.
  - change (take 2 _) with (le_encode 2 msg_id). rewrite le_decode_encode, Z.mod_small; [done|]. exact Hm.
  - apply wire_msg_length.
Qed.

(** Values [vs] of the schema [fs] in the structure [s], small enough for a message. *)
Record sendable (fs : list field) (size : Z) (s : list Z) (vs : list value) (len : Z) : Prop := {
  se_schema : schema_ok fs size;
  se_views : views fs 0 s = Some vs;
  se_bytes : Forall is_byte s;
  se_struct : zlen s < 2 ^ 31;
  se_room : zlen (wires 1 fs vs) ≤ len;
  se_len : len + QMI_HEADER_SIZE < 2 ^ 31;
  se_tlvs : Forall2 (λ f v, zlen (payload 1 f v) < 2 ^ 16) fs vs
}.

Lemma send_wire to ID type msg_id len fs size x vs s : live s → sendable fs size x vs len →
  qmi_send_message true to ID type msg_id len (Some (table fs)) (Some x) s =
    (Done 0, posted [(to, wire_msg type ID msg_id (wires 1 fs vs))] s).
Proof.
  intros Hl [H1 H2 H3 H4 H5 H6 H7]. unfold qmi_send_message. cbn [default].
  unfold id. rewrite (encode_message_wire fs size x vs) by done.
  pose proof Hl as [(k & y & Hk & Hy) Hc]. unfold kbind at 1, kget at 1. rewrite Hk.
  set (msg := take _ _). assert (msg = wire_msg type ID msg_id (wires 1 fs vs)) as Hmsg.
  { unfold msg, wire_msg. rewrite app_assoc. apply take_app_length'.
    pose proof (wire_msg_length type ID msg_id (wires 1 fs vs)) as Hw. unfold wire_msg, zlen at 1 in Hw. lia. }
  rewrite (kbind_Done _ _ _ _ _ (sendmsg_run k to msg s Hl Hk)). pose proof (zlen_nonneg msg).
  destruct (Z.ltb_spec (zlen msg) 0); [lia|]. by rewrite Hmsg.
Qed.

Lemma decode_wire type ID msg_id len fs size x vs s : sendable fs size x vs len →
  ∃ d, decode_into (wire_msg type ID msg_id (wires 1 fs vs)) (Some (table fs)) (replicate (Z.to_nat size) 0) s =
      (Done (zlen (wires 1 fs vs), d), s) ∧ views fs 0 d = Some vs.
Proof.
  intros [H1 H2 H3 H4 H5 H6 H7]. set (w := wires 1 fs vs) in *.
  pose proof (wire_msg_length type ID msg_id w : Z.of_nat (length _) = _) as Hlen.
  destruct (decode_message_wire fs size x vs type msg_id ID [] (decode_fuel (table fs) (QMI_HEADER_SIZE + zlen w))) as (d & Hr & Hv);
    fold w; try done.
  - lia.
  - unfold decode_fuel, QMI_HEADER_SIZE. pose proof (zlen_nonneg w). lia.
  - fold w in Hr. rewrite app_nil_r in Hr. exists d. split; [|done]. unfold decode_into. rewrite Hlen. cbn [default]. unfold id, wire_msg.
    by rewrite Hr.
Qed.

(** ** Both ends *)

(** A request reaches the handler for it, with the values and the id of the transaction. *)
Lemma request_handled from ID msg_id len fs size x vs hs i h s :
  sendable fs size x vs len → 0 ≤ ID < 2 ^ 16 → 0 ≤ msg_id < 2 ^ 16 → handlers s = Some hs →
  list_find (handles QMI_REQUEST msg_id) hs = Some (i, h) → h_ei h = Some (table fs) → decoded_size h = size →
  ∃ d, qmi_handle_message true from (wire_msg QMI_REQUEST ID msg_id (wires 1 fs vs)) s =
      (Done tt, add_call (CHandler QMI_REQUEST msg_id from ID d) s) ∧ views fs 0 d = Some vs.
Proof.
  intros Hse HID Hmsg Hhs Hf Hei Hsize. set (w := wires 1 fs vs).
  destruct (wire_msg_header QMI_REQUEST ID msg_id w) as (Ht & Hi & Hm & Hl); [done..|].
  destruct (decode_wire QMI_REQUEST ID msg_id len fs size x vs s Hse) as (d & Hr & Hv). fold w in Hr.
  exists d. split; [|done]. unfold qmi_handle_message. fold (zlen (wire_msg QMI_REQUEST ID msg_id w)). rewrite Hl.
  pose proof (zlen_nonneg w). destruct (Z.ltb_spec (QMI_HEADER_SIZE + zlen w) QMI_HEADER_SIZE); [lia|].
  rewrite Ht. change (QMI_REQUEST =? QMI_RESPONSE) with false. cbn iota. rewrite Hi.
  unfold qmi_invoke_handler. unfold kbind at 1 2, kget at 1. rewrite Hhs, Ht, Hm, Hf. cbn [negb].
  rewrite Hei, Hsize, (kbind_Done _ _ _ _ _ Hr). cbn [fst snd]. destruct (Z.ltb_spec (zlen w) 0); [lia|].
  apply list_find_Some in Hf as (_ & [Hty Hmi] & _). unfold kbind, kmodify, kret. cbn [txn_id]. by rewrite Hty, Hmi.
Qed.

(** A response completes the transaction that has its id, and changes nothing else. *)
Lemma response_completes from ID msg_id len fs size x vs txn s :
  sendable fs size x vs len → 0 ≤ ID < 2 ^ 16 → 0 ≤ msg_id < 2 ^ 16 → txns s !! ID = Some txn →
  objs s !! txn = Some (mk_txn ID 0 0 (Some (table fs)) (Some (replicate (Z.to_nat size) 0))) →
  ∃ d, qmi_handle_message true from (wire_msg QMI_RESPONSE ID msg_id (wires 1 fs vs)) s =
      (Done tt, set_objs (<[txn := mk_txn ID 1 (zlen (wires 1 fs vs)) (Some (table fs)) (Some d)]> (objs s)) s) ∧ views fs 0 d = Some vs.
Proof.
  intros Hse HID Hmsg Htx Hobj. set (w := wires 1 fs vs).
  destruct (wire_msg_header QMI_RESPONSE ID msg_id w) as (Ht & Hi & _ & Hl); [done..|].
  destruct (decode_wire QMI_RESPONSE ID msg_id len fs size x vs s Hse) as (d & Hr & Hv). fold w in Hr.
  exists d. split; [|done]. unfold qmi_handle_message. fold (zlen (wire_msg QMI_RESPONSE ID msg_id w)). rewrite Hl.
  pose proof (zlen_nonneg w). destruct (Z.ltb_spec (QMI_HEADER_SIZE + zlen w) QMI_HEADER_SIZE); [lia|].
  rewrite Ht, Z.eqb_refl, Hi. unfold kbind at 1, kget at 1. rewrite Htx.
  rewrite (kbind_Done _ _ _ _ _ (get_txn_run txn _ s Hobj)). cbn [dest txn_ei]. by rewrite (kbind_Done _ _ _ _ _ Hr).
Qed.

(** The waiter takes the result and frees the id. *)
Lemma waiter_returns txn t s : objs s !! txn = Some t → txn_done t = 1 → 0 ≤ txn_result t →
  ∃ s', qmi_txn_wait [] txn s = (Done (txn_result t), s') ∧ txns s' = delete (txn_id t) (txns s) ∧ dest <$> objs s' !! txn = Some (dest t).
Proof.
  intros Ht Hd Hr. unfold qmi_txn_wait. cbn [wait_for_completion]. unfold kbind at 1. rewrite (kbind_Done _ _ _ _ _ (get_txn_run txn t s Ht)), Hd.
  change (0 <? 1) with true. cbn iota. unfold put_txn, kbind at 1, kmodify at 1, kret at 1.
  rewrite (kbind_Done _ _ _ _ _ (get_txn_run txn _ _ (lookup_insert_eq _ _ _))). cbn [txn_result txn_id].
  destruct (Z.eqb_spec (txn_result t) (- ENETRESET)) as [He|_]; [unfold ENETRESET in He; lia|].
  eexists. split; [reflexivity|]. split; [done|]. cbn. by rewrite lookup_insert_eq.
Qed.

(** C22: a call is answered.  A client whose transaction [txn] has the id [ID] and waits for a
    response of the schema [fr] sends the values [vq] in a request; the server has a handler
    for that message.  The send succeeds; receiving its bytes calls the handler once, with
    the transaction id and a structure that holds the same values.  When the server sends the
    values [vr] in a response for the transaction it was given, receiving those bytes
    completes the client's transaction and changes no other; the client's wait then returns
    the length of the response, the id is free again, and the structure of the client holds
    [vr].  The schemas are well-formed and the messages fit. *)
Theorem rpc_answered c d txn ID msg_id to from peer fq sizeq xq vq lenq fr sizer xr vr lenr hs i h :
  live c → live d → sendable fq sizeq xq vq lenq → sendable fr sizer xr vr lenr → 0 ≤ ID < 2 ^ 16 → 0 ≤ msg_id < 2 ^ 16 →
  txns c !! ID = Some txn → objs c !! txn = Some (mk_txn ID 0 0 (Some (table fr)) (Some (replicate (Z.to_nat sizer) 0))) →
  handlers d = Some hs → list_find (handles QMI_REQUEST msg_id) hs = Some (i, h) → h_ei h = Some (table fq) → decoded_size h = sizeq →
  ∃ req resp dq dr c1 d1 d2 c2 c3,
    qmi_send_request true to txn msg_id lenq (Some (table fq)) (Some xq) c = (Done 0, c1) ∧ c1 = posted [(to, req)] c ∧
    qmi_handle_message true from req d = (Done tt, d1) ∧ calls d1 = calls d ++ [CHandler QMI_REQUEST msg_id from ID dq] ∧
    views fq 0 dq = Some vq ∧
    qmi_send_response true (Some from) (mk_txn ID 0 0 None None) msg_id lenr (Some (table fr)) (Some xr) d1 = (Done 0, d2) ∧
    d2 = posted [(Some from, resp)] d1 ∧
    qmi_handle_message true peer resp c1 = (Done tt, c2) ∧ (∀ a, a ≠ txn → objs c2 !! a = objs c !! a) ∧
    qmi_txn_wait [] txn c2 = (Done (zlen (wires 1 fr vr)), c3) ∧ txns c3 = delete ID (txns c) ∧
    dest <$> objs c3 !! txn = Some (Some dr) ∧ views fr 0 dr = Some vr.
Proof.
  intros Hc Hd Hq Hr HID Hmsg Htx Hobj Hhs Hf Hei Hsize.
  destruct (request_handled from ID msg_id lenq fq sizeq xq vq hs i h d) as (dq & Hreq & Hvq); [done..|].
  set (c1 := posted [(to, wire_msg QMI_REQUEST ID msg_id (wires 1 fq vq))] c).
  destruct (posted_frame [(to, wire_msg QMI_REQUEST ID msg_id (wires 1 fq vq))] c) as (P1 & P2 & _). fold c1 in P1, P2.
  destruct (response_completes peer ID msg_id lenr fr sizer xr vr txn c1) as (dr & Hresp & Hvr); [done..|by rewrite P1|by rewrite P2|].
  set (c2 := set_objs _ c1) in Hresp. set (t := mk_txn ID 1 _ _ _) in c2.
  destruct (waiter_returns txn t c2) as (c3 & Hw & Ht3 & Hd3); [apply lookup_insert_eq|done|apply zlen_nonneg|].
  eexists _, _, dq, dr, c1, _, _, c2, c3. split.
  { unfold qmi_send_request. rewrite (kbind_Done _ _ _ _ _ (get_txn_run txn _ c Hobj)). by apply (send_wire _ _ _ _ _ _ sizeq). }
  split; [reflexivity|]. split; [exact Hreq|]. split; [reflexivity|]. split; [done|]. split; [by apply (send_wire _ _ _ _ _ _ sizer)|].
  split; [reflexivity|]. split; [exact Hresp|]. split.
  { intros a Ha. unfold c2. cbn. rewrite lookup_insert_ne by done. by rewrite P2. }
  split; [exact Hw|]. split; [rewrite Ht3; unfold c2; cbn; by rewrite P1|]. split; [exact Hd3|done].
Qed.

(** ** Announcements *)

Lemma word_at n z l l' : 0 ≤ z < 2 ^ 32 → length l = (4 * n)%nat → word n (l ++ le_encode 4 z ++ l') = z.
Proof.
  intros Hz Hl. unfold word. rewrite <- Hl, drop_app_length, take_app_length'; [|by rewrite length_le_encode].
  rewrite le_decode_encode. by apply Z.mod_small.
Qed.

Lemma ctrl_words cmd a b c d : 0 ≤ cmd < 2 ^ 32 → 0 ≤ a < 2 ^ 32 → 0 ≤ b < 2 ^ 32 → 0 ≤ c < 2 ^ 32 → 0 ≤ d < 2 ^ 32 →
  let p := ctrl_pkt_le cmd a b c d in word 0 p = cmd ∧ word 1 p = a ∧ word 2 p = b ∧ word 3 p = c ∧ word 4 p = d.
Proof.
  intros H0 H1 H2 H3 H4 p. unfold p, ctrl_pkt_le. split; [|split; [|split; [|split]]].
  - by apply (word_at 0 cmd []).
  - by apply (word_at 1 a (le_encode 4 cmd)).
  - by apply (word_at 2 b (le_encode 4 cmd ++ le_encode 4 a)).
  - by apply (word_at 3 c (le_encode 4 cmd ++ le_encode 4 a ++ le_encode 4 b)).
  - by apply (word_at 4 d (le_encode 4 cmd ++ le_encode 4 a ++ le_encode 4 b ++ le_encode 4 c) []).
Qed.

Lemma instance_parts v i : 0 ≤ v < 256 → 0 ≤ i < 2 ^ 24 →
  let x := u32 (Z.lor v (Z.shiftl i 8)) in Z.land x 0xff = v ∧ Z.shiftr x 8 = i ∧ 0 ≤ x < 2 ^ 32.
Proof.
  intros Hv Hi. rewrite lor_bytes by lia. cbv zeta. rewrite u32_small by lia.
  change 0xff with (Z.ones 8). rewrite Z.land_ones, Z.shiftr_div_pow2 by lia. change (2 ^ 8) with 256.
  rewrite (Z.mul_comm 256). split; [rewrite Z.mod_add by lia; apply Z.mod_small; lia|].
  split; [rewrite Z.div_add, Z.div_small by lia; lia|lia].
Qed.

(** The packet with which a service is announced reads back at a client as the server it
    describes, if the version fits its byte. *)
Theorem announcement_understood s d svc answer :
  0 ≤ service svc < 2 ^ 32 → 0 ≤ version svc < 256 → 0 ≤ instance svc < 2 ^ 24 →
  0 < sq_node (sq s) < 2 ^ 32 → 0 ≤ sq_port (sq s) < 2 ^ 32 →
  let found := mk_svc (service svc) (version svc) (instance svc) (sq_node (sq s)) (sq_port (sq s)) in
  new_server (ops d) = Some answer → 0 ≤ answer found →
  ∃ d', qmi_recv_ctrl_pkt true (server_msg s svc).2 d = (Done tt, d') ∧ lookup_results d' = found :: lookup_results d.
Proof.
  intros Hs Hv Hi Hn Hp found Hans Hok. unfold server_msg. cbn [snd].
  destruct (instance_parts (version svc) (instance svc) Hv Hi) as (Hv' & Hi' & Hx). fold (ctrl_instance svc) in Hv', Hi', Hx.
  destruct (ctrl_words QRTR_TYPE_NEW_SERVER (service svc) (ctrl_instance svc) (sq_node (sq s)) (sq_port (sq s))) as (W0 & W1 & W2 & W3 & W4);
    [vm_compute; intuition congruence|done|done|lia|done|].
  set (p := ctrl_pkt_le _ _ _ _ _) in *. unfold qmi_recv_ctrl_pkt. change (Z.of_nat (length p) <? sizeof_ctrl_pkt) with false. cbn iota.
  rewrite W0, W1, W2, W3, W4. change (QRTR_TYPE_NEW_SERVER =? QRTR_TYPE_BYE) with false. rewrite Z.eqb_refl.
  unfold qmi_recv_new_server, kbind at 1, kget at 1. rewrite Hans, (proj2 (Z.eqb_neq _ _)) by lia. cbn [andb negb].
  rewrite Hv', Hi'. fold found. unfold kbind, kmodify. destruct (Z.ltb_spec (answer found) 0); [lia|]. by eexists.
Qed.
