(* ===== verification/QmiMsgCases.v ===== *)
(** * QMI handles on concrete inputs

    Witnesses for the theorems on handles and calls, and runs where the interface departs
    from what it means to do. *)

From S2P Require Import Prelude Memory QmiEncDec QmiSafe QmiSchema QmiEncode QmiRound QmiMsg QmiMsgInv QmiMsgSystem QmiRpc.

Definition all_ops : qmi_ops := mk_ops (Some (λ _, 0)) true true false true true.
Definition fresh_handle : qmi_handle := mk_qmi None (mk_addr 0 0) 0 [] [] [] all_ops ∅ None ∅ ∅ [] [] false.
Definition node1 : sockaddr_qrtr := mk_addr 1 0x4001.
Definition name_service : sockaddr_qrtr := mk_addr 1 QRTR_PORT_CTRL.

(** The smallest free id; a handle has few transactions here. *)
Definition first_id (m : gmap Z Z) : Z :=
  match list_find (λ k, m !! k = None) (seqZ 0 16) with Some (_, k) => k | None => - ENOMEM end.

Lemma first_id_law s : idr_law first_id s.
Proof.
  unfold idr_law, first_id. destruct (list_find _ _) as [[i k]|] eqn:E; [|left; vm_compute; reflexivity].
  apply list_find_Some in E as (Hk & Hfree & _). apply lookup_seqZ in Hk. right. split; [lia|done].
Qed.

Definition start : qmi_handle := (qmi_handle_init true true (inr 3) (inr node1) 64 (Some all_ops) None fresh_handle).2.

(** A lookup and a service, two servers of which one goes, a restart of the name service,
    and a transaction that is not answered. *)
Definition some_life : list op :=
  [OAddLookup true 0x42 1 0; OAddServer true 0x77 1 2;
   OWork (inl 0) (inl 0) true [inr (name_service, ctrl_pkt_le QRTR_TYPE_NEW_SERVER 0x42 0x201 5 9);
                               inr (name_service, ctrl_pkt_le QRTR_TYPE_NEW_SERVER 0x42 0x201 6 9);
                               inr (name_service, ctrl_pkt_le QRTR_TYPE_BYE 5 0 0 0)];
   OTxnInit first_id 100 None None;
   OWork (inr 4) (inr node1) true [inl (- ENETRESET)]].

Lemma empty_idle txn s : txns s = ∅ → idle_txn txn s.
Proof. intros Hs id. rewrite Hs. by rewrite lookup_empty. Qed.

Lemma some_life_ok : ops_ok some_life start.
Proof.
  cbn [some_life ops_ok op_ok]. split; [done|]. split; [done|].
  assert (∀ l, forallb (λ b, (0 <=? b) && (b <? 256)) l = true → zlen l < 2 ^ 31 → message_ok l) as Hmsg.
  { intros l Hl Hn. split; [|done]. apply list.Forall_forall. intros b Hb. rewrite forallb_forall in Hl.
    specialize (Hl b). rewrite <- list_elem_of_In in Hl. specialize (Hl Hb). lia. }
  split.
  { split; [done|]. repeat (apply Forall_cons_2; [apply Hmsg; vm_compute; reflexivity|]). apply Forall_nil_2. }
  split.
  { split; [|split; [apply first_id_law|done]]. apply empty_idle. vm_compute. reflexivity. }
  split; [|done]. split; [|repeat constructor]. intros k [= <-]. vm_compute. reflexivity.
Qed.

Lemma qmi_handle_life_witness :
  ∃ s2 s3, run some_life start = (Done tt, s2) ∧ qmi_handle_release (kret tt) s2 = (Done tt, s3) ∧
    ∀ svc, times (is_new svc) (calls s3) = times (is_del svc) (calls s3).
Proof.
  destruct (qmi_handle_life 3 node1 64 all_ops None fresh_handle start some_life) as (s2 & s3 & H2 & H3 & _ & _ & _ & Hbal & _).
  - split; done.
  - reflexivity.
  - reflexivity.
  - exact some_life_ok.
  - exists s2, s3. split; [exact H2|]. split; [exact H3|exact Hbal].
Defined.

(** What this life reports to the client. *)
Example some_life_calls :
  calls (qmi_handle_release (kret tt) (run some_life start).2).2 =
  [CNewServer (mk_svc 0x42 1 2 5 9) 0; CNewServer (mk_svc 0x42 1 2 6 9) 0; CDelServer (mk_svc 0x42 1 2 5 9); CBye 5;
   CDelServer (mk_svc 0x42 1 2 6 9); CNetReset].
Proof. vm_compute. reflexivity. Qed.

(** ** A call *)
Definition demo_values : list value := default [] (views demo_fields 0 demo_struct).

Lemma demo_sendable : sendable demo_fields 33 demo_struct demo_values 40.
Proof.
  split.
  - exact demo_schema_ok.
  - reflexivity.
  - repeat (apply Forall_cons_2; [split; vm_compute; congruence|]). apply Forall_nil_2.
  - vm_compute. reflexivity.
  - vm_compute. congruence.
  - vm_compute. reflexivity.
  - unfold demo_values, demo_fields. vm_compute default. repeat (apply Forall2_cons_2; [vm_compute; reflexivity|]). apply Forall2_nil_2.
Qed.

Definition demo_handler : qmi_msg_handler := mk_handler QMI_REQUEST 0x20 (Some (table demo_fields)) 33 (λ _ t _, t).
Definition client : qmi_handle := (qmi_txn_init first_id 100 (Some (table demo_fields)) (Some (replicate 33 0)) start).2.
Definition server : qmi_handle := (qmi_handle_init true true (inr 8) (inr node1) 64 (Some all_ops) (Some [demo_handler]) fresh_handle).2.

Lemma rpc_answered_witness :
  ∃ c1 req d1 c2 c3 resp dr,
    qmi_send_request true (Some node1) 100 0x20 40 (Some (table demo_fields)) (Some demo_struct) client = (Done 0, c1) ∧
    qmi_handle_message true node1 req server = (Done tt, d1) ∧
    qmi_handle_message true node1 resp c1 = (Done tt, c2) ∧ qmi_txn_wait [] 100 c2 = (Done 27, c3) ∧
    dest <$> objs c3 !! 100 = Some (Some dr) ∧ views demo_fields 0 dr = Some demo_values.
Proof.
  destruct (rpc_answered client server 100 0 0x20 (Some node1) node1 node1 demo_fields 33 demo_struct demo_values 40
    demo_fields 33 demo_struct demo_values 40 [demo_handler] 0 demo_handler)
    as (req & resp & dq & dr & c1 & d1 & d2 & c2 & c3 & H1 & _ & H3 & _ & _ & _ & _ & H8 & _ & H10 & _ & H12 & H13).
  - split; [|reflexivity]. exists 3, (mk_socket true []). split; reflexivity.
  - split; [|reflexivity]. exists 8, (mk_socket true []). split; reflexivity.
  - exact demo_sendable.
  - exact demo_sendable.
  - lia.
  - lia.
  - reflexivity.
  - reflexivity.
  - reflexivity.
  - reflexivity.
  - reflexivity.
  - reflexivity.
  - exists c1, req, d1, c2, c3, resp, dr. split; [exact H1|]. split; [exact H3|]. split; [exact H8|]. split; [exact H10|].
    split; [exact H12|exact H13].
Defined.

(** ** Deviations *)

(** The release takes the socket before it waits for the work: when the work handles a
    restart of the name service meanwhile, the socket is released twice and the new one
    is not. *)
Example release_races_reset :
  let reset := qmi_data_ready_work (inr 4) (inr node1) true [inl (- ENETRESET)] in
  let r := qmi_handle_release reset start in
  r.1 = Undef ∧ is_Some (socks r.2 !! 4).
Proof. vm_compute. split; [done|by eexists]. Qed.

(** Without memory for a new socket a restart of the name service has no effect at all:
    the client is not told and nothing is registered again. *)
Example reset_without_socket :
  let s := (run (take 3 some_life) start).2 in
  qmi_handle_net_reset (inl (- ENOMEM)) (inl 0) s = (Done tt, s) ∧ length (lookup_results s) = 1%nat.
Proof. split; [reflexivity|]. vm_compute. reflexivity. Qed.

(** A version above 255 spills into the instance that clients see. *)
Example version_spills :
  let s := (qmi_add_server true 0x77 0x301 0 start).2 in
  let pkt := default [] ((λ x, default [] (snd <$> head (sent x))) <$> socks s !! 3) in
  lookup_results (qmi_recv_ctrl_pkt true pkt start).2 = [mk_svc 0x77 1 3 1 0x4001].
Proof. vm_compute. reflexivity. Qed.

(** A response is matched by its transaction id alone: another message id from another
    node completes the transaction too. *)
Example any_response_completes :
  let resp := wire_msg QMI_RESPONSE 0 0x99 [] in
  txn_done <$> objs (qmi_handle_message true (mk_addr 7 7) resp client).2 !! 100 = Some 1.
Proof. vm_compute. reflexivity. Qed.
