(* ===== verification/QrtrNs.v ===== *)
(** * The QRTR name service (net/qrtr/ns.c)

    It keeps the servers of every node by port and the lookups of local clients, tells
    the clients about matching servers and neighbours about local ones.  A node is its
    table of servers; [xa_for_each] goes through a table by rising index.  What a send
    answers and which allocations succeed are arguments; messages that were sent are
    kept in order. *)

From stdpp Require Import sorting.
From S2P Require Import Prelude QmiMsg.

Definition QRTR_NODE_BCAST : Z := 0xffffffff.
Definition QRTR_TYPE_HELLO : Z := 2.
Definition QRTR_TYPE_DEL_LOOKUP : Z := 11.
Definition recv_buf_bytes : Z := 4096.
Definition ENOENT : Z := 2.

(** ** Data *)

Record qrtr_server_filter := mk_filter { f_service : Z; f_instance : Z; ifilter : Z }.
Record qrtr_lookup := mk_lookup { lk_service : Z; lk_instance : Z; lk_sq : sockaddr_qrtr }.
Record qrtr_server := mk_server { srv_service : Z; srv_instance : Z; srv_node : Z; srv_port : Z }.

Record qrtr_ns := mk_ns {
  nodes : gmap Z (gmap Z qrtr_server);
  ns_lookups : list qrtr_lookup;
  local_node : Z;
  ns_sent : list (sockaddr_qrtr * list Z);
  ns_codes : list Z                          (* what the next sends answer; then 20 *)
}.

(** Which allocations succeed: a server, a node, the slot of a server, a lookup. *)
Record ns_allocs := mk_ns_allocs { al_server : bool; al_ns_node : bool; al_slot : bool; al_lookup : bool }.

Definition set_nodes (m : gmap Z (gmap Z qrtr_server)) (s : qrtr_ns) : qrtr_ns :=
  mk_ns m (ns_lookups s) (local_node s) (ns_sent s) (ns_codes s).
Definition set_ns_lookups (l : list qrtr_lookup) (s : qrtr_ns) : qrtr_ns :=
  mk_ns (nodes s) l (local_node s) (ns_sent s) (ns_codes s).
Definition set_ns_sent (l : list (sockaddr_qrtr * list Z)) (c : list Z) (s : qrtr_ns) : qrtr_ns :=
  mk_ns (nodes s) (ns_lookups s) (local_node s) l c.

Abbreviation M := (KM qrtr_ns).

(** The entries of an xarray by rising index. *)
Definition by_index {A} (p q : Z * A) : Prop := p.1 ≤ q.1.
#[export] Instance by_index_dec {A} (p q : Z * A) : Decision (by_index p q).
Proof. unfold by_index. apply _. Defined.
Definition xa_entries {A} (m : gmap Z A) : list (Z * A) := merge_sort by_index (map_to_list m).

Fixpoint xa_for_each {A} (body : A → M unit) (l : list (Z * A)) : M unit :=
  match l with [] => kret tt | (_, x) :: l => body x ;;; xa_for_each body l end.

(** ** Nodes *)

(** Whether there is a node. *)
Definition node_get (al : ns_allocs) (node_id : Z) : M bool :=
  let* s := kget in
  match nodes s !! node_id with
  | Some _ => kret true
  | None =>
      if negb (al_ns_node al) then kret false
      else kmodify (set_nodes (<[node_id := ∅]> (nodes s))) ;;; kret true
  end.

Definition servers_of (s : qrtr_ns) (node_id : Z) : gmap Z qrtr_server := default ∅ (nodes s !! node_id).

Definition at_port (node_id port : Z) (p : Z * qrtr_server) : Prop := srv_node p.2 = node_id ∧ srv_port p.2 = port.
#[export] Instance at_port_dec node_id port p : Decision (at_port node_id port p).
Proof. unfold at_port. apply _. Defined.

Definition qrtr_get_service_id (node_id port_id : Z) (s : qrtr_ns) : Z :=
  match nodes s !! node_id with
  | None => - EINVAL
  | Some t => match list_find (at_port node_id port_id) (xa_entries t) with
              | Some (_, (_, srv)) => s32 (srv_service srv)
              | None => - EINVAL
              end
  end.

Definition qrtr_get_service_instance_id (node_id port_id : Z) (s : qrtr_ns) : Z :=
  match nodes s !! node_id with
  | None => - EINVAL
  | Some t => match list_find (at_port node_id port_id) (xa_entries t) with
              | Some (_, (_, srv)) => s32 (srv_instance srv)
              | None => - EINVAL
              end
  end.

(** ** Messages *)

Definition server_match (srv : qrtr_server) (f : qrtr_server_filter) : bool :=
  if negb (f_service f =? 0) && negb (srv_service srv =? f_service f) then false
  else
    let i := if (ifilter f =? 0) && negb (f_instance f =? 0) then UINT_MAX else ifilter f in
    Z.land (srv_instance srv) i =? f_instance f.

(** Answers an error or the size. *)
Definition ns_sendmsg (to : sockaddr_qrtr) (pkt : list Z) : M Z :=
  let* s := kget in
  let code := default 20 (head (ns_codes s)) in
  kmodify (set_ns_sent (if code <? 0 then ns_sent s else ns_sent s ++ [(to, pkt)]) (tail (ns_codes s))) ;;;
  kret code.

Definition server_pkt (cmd : Z) (srv : qrtr_server) : list Z :=
  ctrl_pkt_le cmd (srv_service srv) (srv_instance srv) (srv_node srv) (srv_port srv).

Definition service_announce_new (dest : sockaddr_qrtr) (srv : qrtr_server) : M Z :=
  ns_sendmsg dest (server_pkt QRTR_TYPE_NEW_SERVER srv).
Definition service_announce_del (dest : sockaddr_qrtr) (srv : qrtr_server) : M unit :=
  let* _ := ns_sendmsg dest (server_pkt QRTR_TYPE_DEL_SERVER srv) in kret tt.

Definition lookup_notify (to : sockaddr_qrtr) (srv : option qrtr_server) (new : bool) : M unit :=
  let cmd := if new then QRTR_TYPE_NEW_SERVER else QRTR_TYPE_DEL_SERVER in
  let* _ := ns_sendmsg to (match srv with Some srv => server_pkt cmd srv | None => ctrl_pkt_le cmd 0 0 0 0 end) in
  kret tt.

Definition bcast_sq : sockaddr_qrtr := mk_addr QRTR_NODE_BCAST QRTR_PORT_CTRL.

(** Until a send fails with another error than -ENODEV. *)
Fixpoint announce_loop (sq : sockaddr_qrtr) (l : list (Z * qrtr_server)) : M Z :=
  match l with
  | [] => kret 0
  | (_, srv) :: l =>
      let* ret := service_announce_new sq srv in
      if (ret <? 0) && negb (ret =? - ENODEV) then kret ret else announce_loop sq l
  end.
Fixpoint announce_nodes (sq : sockaddr_qrtr) (l : list (Z * gmap Z qrtr_server)) : M Z :=
  match l with
  | [] => kret 0
  | (id, t) :: l =>
      if id =? sq_node sq then announce_nodes sq l
      else
        let* ret := announce_loop sq (xa_entries t) in
        if ret <? 0 then kret ret else announce_nodes sq l
  end.
Definition announce_servers (sq : sockaddr_qrtr) : M Z :=
  let* s := kget in announce_nodes sq (xa_entries (nodes s)).

(** ** Servers *)

(** A server on the port is replaced. *)
Definition server_add (al : ns_allocs) (serv inst node_id port : Z) : M (option qrtr_server) :=
  if (serv =? 0) || (port =? 0) then kret None
  else if negb (al_server al) then kret None
  else
    let srv := mk_server serv inst node_id port in
    let* ok := node_get al node_id in
    if negb ok then kret None
    else if negb (al_slot al) then kret None
    else
      kmodify (λ s, set_nodes (<[node_id := <[port := srv]> (servers_of s node_id)]> (nodes s)) s) ;;;
      kret (Some srv).

(** Whether a lookup is told about a server. *)
Definition observes (srv : qrtr_server) (lk : qrtr_lookup) : bool :=
  negb (negb (lk_service lk =? 0) && negb (lk_service lk =? srv_service srv)) &&
  negb (negb (lk_instance lk =? 0) && negb (lk_instance lk =? srv_instance srv)).

Fixpoint notify_all (srv : qrtr_server) (new : bool) (l : list qrtr_lookup) : M unit :=
  match l with
  | [] => kret tt
  | lk :: l => (if observes srv lk then lookup_notify (lk_sq lk) (Some srv) new else kret tt) ;;; notify_all srv new l
  end.

Definition server_del (node_id port : Z) (bcast : bool) : M Z :=
  let* s := kget in
  match servers_of s node_id !! port with
  | None => kret 0
  | Some srv =>
      kmodify (λ s, set_nodes (<[node_id := delete port (servers_of s node_id)]> (nodes s)) s) ;;;
      (if (srv_node srv =? local_node s) && bcast then service_announce_del bcast_sq srv else kret tt) ;;;
      let* s := kget in
      notify_all srv false (ns_lookups s) ;;;
      kret 0
  end.

(** ** Commands *)

Definition say_hello (dest : sockaddr_qrtr) : M Z := ns_sendmsg dest (ctrl_pkt_le QRTR_TYPE_HELLO 0 0 0 0).

Definition ctrl_cmd_hello (sq : sockaddr_qrtr) : M Z :=
  let* ret := say_hello sq in
  if ret <? 0 then kret ret else announce_servers sq.

(** [client.node] and [client.port] are the first two words; all local servers get the packet. *)
Definition tell_local (al : ns_allocs) (pkt : list Z) : M Z :=
  let* s := kget in
  let* ok := node_get al (local_node s) in
  if negb ok then kret 0
  else
    let* s := kget in
    xa_for_each (λ srv, let* _ := ns_sendmsg (mk_addr (srv_node srv) (srv_port srv)) pkt in kret tt)
      (xa_entries (servers_of s (local_node s))) ;;;
    kret 0.

Definition ctrl_cmd_bye (al : ns_allocs) (from : sockaddr_qrtr) : M Z :=
  let* ok := node_get al (sq_node from) in
  if negb ok then kret 0
  else
    let* s := kget in
    xa_for_each (λ srv, let* _ := server_del (sq_node from) (srv_port srv) true in kret tt)
      (xa_entries (servers_of s (sq_node from))) ;;;
    tell_local al (ctrl_pkt_le QRTR_TYPE_BYE (sq_node from) 0 0 0).

Definition of_client (node_id port : Z) (lk : qrtr_lookup) : bool :=
  (sq_node (lk_sq lk) =? node_id) && (sq_port (lk_sq lk) =? port).

Definition ctrl_cmd_del_client (al : ns_allocs) (from : sockaddr_qrtr) (node_id port : Z) : M Z :=
  let* s := kget in
  if negb (sq_node from =? node_id) then kret (- EINVAL)
  else if (sq_node from =? local_node s) && negb (sq_port from =? port) then kret (- EINVAL)
  else
    kmodify (set_ns_lookups (filter (λ lk, of_client node_id port lk = false) (ns_lookups s))) ;;;
    let* ok := node_get al node_id in
    (if (ok : bool) then let* _ := server_del node_id port false in kret tt else kret tt) ;;;
    tell_local al (ctrl_pkt_le QRTR_TYPE_DEL_CLIENT node_id port 0 0).

Definition ctrl_cmd_new_server (al : ns_allocs) (from : sockaddr_qrtr) (serv inst node_id port : Z) : M Z :=
  let* s := kget in
  let loc := sq_node from =? local_node s in
  let node_id := if loc then sq_node from else node_id in
  let port := if loc then sq_port from else port in
  let* r := server_add al serv inst node_id port in
  match r with
  | None => kret (- EINVAL)
  | Some srv =>
      let* ret := (if srv_node srv =? local_node s then service_announce_new bcast_sq srv else kret 0) in
      if ret <? 0 then kret ret
      else
        let* s := kget in
        notify_all srv true (ns_lookups s) ;;;
        kret ret
  end.

Definition ctrl_cmd_del_server (al : ns_allocs) (from : sockaddr_qrtr) (serv inst node_id port : Z) : M Z :=
  let* s := kget in
  let loc := sq_node from =? local_node s in
  let node_id := if loc then sq_node from else node_id in
  let port := if loc then sq_port from else port in
  if loc && negb (sq_port from =? port) then kret (- EINVAL)
  else
    let* ok := node_get al node_id in
    if negb ok then kret (- ENOENT)
    else let* _ := server_del node_id port true in kret 0.

Definition ctrl_cmd_new_lookup (al : ns_allocs) (from : sockaddr_qrtr) (serv inst : Z) : M Z :=
  let* s := kget in
  if negb (sq_node from =? local_node s) then kret (- EINVAL)
  else if negb (al_lookup al) then kret (- ENOMEM)
  else
    kmodify (set_ns_lookups (ns_lookups s ++ [mk_lookup serv inst from])) ;;;
    let* s := kget in
    xa_for_each (λ t,
      xa_for_each (λ srv, if server_match srv (mk_filter serv inst 0) then lookup_notify from (Some srv) true else kret tt) (xa_entries t))
      (xa_entries (nodes s)) ;;;
    lookup_notify from None true ;;;
    kret 0.

(** The lookups that go. *)
Definition dropped (from : sockaddr_qrtr) (serv inst : Z) (lk : qrtr_lookup) : bool :=
  of_client (sq_node from) (sq_port from) lk && (lk_service lk =? serv) &&
  negb (negb (lk_instance lk =? 0) && negb (lk_instance lk =? inst)).
Definition ctrl_cmd_del_lookup (from : sockaddr_qrtr) (serv inst : Z) : M unit :=
  kmodify (λ s, set_ns_lookups (filter (λ lk, dropped from serv inst lk = false) (ns_lookups s)) s).

(** ** The worker *)

Definition ns_handle (al : ns_allocs) (sq : sockaddr_qrtr) (buf : list Z) : M Z :=
  let cmd := word 0 buf in
  if cmd =? QRTR_TYPE_HELLO then ctrl_cmd_hello sq
  else if cmd =? QRTR_TYPE_BYE then ctrl_cmd_bye al sq
  else if cmd =? QRTR_TYPE_DEL_CLIENT then ctrl_cmd_del_client al sq (word 1 buf) (word 2 buf)
  else if cmd =? QRTR_TYPE_NEW_SERVER then ctrl_cmd_new_server al sq (word 1 buf) (word 2 buf) (word 3 buf) (word 4 buf)
  else if cmd =? QRTR_TYPE_DEL_SERVER then ctrl_cmd_del_server al sq (word 1 buf) (word 2 buf) (word 3 buf) (word 4 buf)
  else if cmd =? QRTR_TYPE_NEW_LOOKUP then ctrl_cmd_new_lookup al sq (word 1 buf) (word 2 buf)
  else if cmd =? QRTR_TYPE_DEL_LOOKUP then ctrl_cmd_del_lookup sq (word 1 buf) (word 2 buf) ;;; kret 0
  else kret 0.

(** [inbox] is what [kernel_recvmsg] answers, then -EAGAIN.  The length of a message is not
    looked at: behind a short one the buffer holds what was there before. *)
Fixpoint worker_loop (buf : list Z) (inbox : list (ns_allocs * (Z + sockaddr_qrtr * list Z))) : M unit :=
  match inbox with
  | [] => kret tt
  | (_, inl _) :: _ => kret tt
  | (al, inr (sq, bs)) :: inbox =>
      let bs := take (Z.to_nat recv_buf_bytes) bs in
      let buf := bs ++ drop (length bs) buf in
      let* _ := ns_handle al sq buf in
      worker_loop buf inbox
  end.
Definition qrtr_ns_worker (alloc : bool) (inbox : list (ns_allocs * (Z + sockaddr_qrtr * list Z))) : M unit :=
  if negb alloc then kret tt else worker_loop (replicate (Z.to_nat recv_buf_bytes) 0) inbox.

(** [getname] is the length and the node that [kernel_getsockname] gives; whether the
    socket was released again is part of the answer. *)
Definition qrtr_ns_init (create : Z) (getname : Z + Z * Z) (task_ok : bool) (bind : Z) : M (Z * bool) :=
  kmodify (set_ns_lookups []) ;;;
  if create <? 0 then kret (create, false)
  else
    match getname with
    | inl err => kret (err, true)
    | inr (len, node) =>
        if negb task_ok then kret (len, true)
        else
          kmodify (λ s, mk_ns (nodes s) (ns_lookups s) node (ns_sent s) (ns_codes s)) ;;;
          if bind <? 0 then kret (bind, true)
          else
            let* ret := say_hello bcast_sq in
            if ret <? 0 then kret (ret, true) else kret (0, false)
    end.
