(* ===== verification/QrtrNsInv.v ===== *)
(** * What the clients of the name service hear (net/qrtr/ns.c)

    The notifications a client receives, taken in order, describe a table of servers.
    Through every command this table is kept equal to the registered servers that one of
    the client's lookups asks for. *)

From stdpp Require Import sorting.
From S2P Require Import Prelude Memory QmiMsg QmiMsgInv QmiRpc QrtrNs.

#[export] Instance sockaddr_eq_dec : EqDecision sockaddr_qrtr.
Proof. solve_decision. Defined.

(** ** The table a client builds *)

Abbreviation table := (gmap (Z * Z) (Z * Z)).     (* node and port to service and instance *)

Definition hear (v : table) (pkt : list Z) : table :=
  let cmd := word 0 pkt in
  if cmd =? QRTR_TYPE_NEW_SERVER then
    if (word 3 pkt =? 0) && (word 4 pkt =? 0) then v else <[(word 3 pkt, word 4 pkt) := (word 1 pkt, word 2 pkt)]> v
  else if cmd =? QRTR_TYPE_DEL_SERVER then delete (word 3 pkt, word 4 pkt) v
  else if cmd =? QRTR_TYPE_BYE then filter (λ p, p.1.1 ≠ word 1 pkt) v
  else v.

(** The packets of a list that go to [a]. *)
Definition to_addr (a : sockaddr_qrtr) (d : list (sockaddr_qrtr * list Z)) : list (list Z) :=
  snd <$> filter (λ m, m.1 = a) d.

Definition hear_all (d : list (sockaddr_qrtr * list Z)) (V : sockaddr_qrtr → table) : sockaddr_qrtr → table :=
  λ a, foldl hear (V a) (to_addr a d).

(** ** What it should be *)

Definition word32 (z : Z) : Prop := 0 ≤ z < 2 ^ 32.

Record server_ok (n p : Z) (srv : qrtr_server) : Prop := {
  sk_node : srv_node srv = n;
  sk_port : srv_port srv = p;
  sk_nonzero : p ≠ 0;
  sk_n : word32 n;
  sk_p : word32 p;
  sk_service : word32 (srv_service srv);
  sk_instance : word32 (srv_instance srv)
}.

Record ns_ok (s : qrtr_ns) : Prop := {
  no_servers n p srv : servers_of s n !! p = Some srv → server_ok n p srv;
  no_lookups : Forall (λ lk, sq_node (lk_sq lk) = local_node s) (ns_lookups s);
  no_codes : ns_codes s = [];
  no_local : 0 ≤ local_node s < QRTR_NODE_BCAST
}.

(** A lookup of [a] that asks for the server. *)
Definition wanted (a : sockaddr_qrtr) (srv : qrtr_server) (lk : qrtr_lookup) : Prop := lk_sq lk = a ∧ observes srv lk = true.
#[export] Instance wanted_dec a srv lk : Decision (wanted a srv lk).
Proof. unfold wanted. apply _. Defined.

Definition wants (s : qrtr_ns) (a : sockaddr_qrtr) (srv : qrtr_server) : Prop := Exists (wanted a srv) (ns_lookups s).
#[export] Instance wants_dec s a srv : Decision (wants s a srv).
Proof. unfold wants. apply _. Defined.

Definition expected (s : qrtr_ns) (a : sockaddr_qrtr) (k : Z * Z) : option (Z * Z) :=
  match servers_of s k.1 !! k.2 with
  | Some srv => if decide (wants s a srv) then Some (srv_service srv, srv_instance srv) else None
  | None => None
  end.

Definition informed (s : qrtr_ns) (V : sockaddr_qrtr → table) : Prop :=
  ∀ a k, sq_node a = local_node s → V a !! k = expected s a k.

(** A part of a command: it sends [d] and keeps the clients informed. *)
Record part (s s' : qrtr_ns) : Prop := {
  pa_ok : ns_ok s';
  pa_local : local_node s' = local_node s;
  pa_lookups : ns_lookups s' = ns_lookups s;
  pa_sent : ∃ d, ns_sent s' = ns_sent s ++ d ∧ ∀ V, informed s V → informed s' (hear_all d V)
}.

(** ** Hearing *)

Lemma to_addr_app a d e : to_addr a (d ++ e) = to_addr a d ++ to_addr a e.
Proof. unfold to_addr. by rewrite list.filter_app, fmap_app. Qed.

Lemma hear_all_app d e V a : hear_all (d ++ e) V a = hear_all e (hear_all d V) a.
Proof. unfold hear_all. by rewrite to_addr_app, foldl_app. Qed.

Lemma informed_ext s V W : (∀ a, sq_node a = local_node s → V a = W a) → informed s V → informed s W.
Proof. intros H HV a k Ha. rewrite <- H by done. by apply HV. Qed.

Lemma part_refl s : ns_ok s → part s s.
Proof.
  intros Hs. split; [done|done|done|]. exists []. split; [by rewrite app_nil_r|]. done.
Qed.

Lemma part_trans s1 s2 s3 : part s1 s2 → part s2 s3 → part s1 s3.
Proof.
  intros [_ Hl1 Hk1 (d1 & Hs1 & Hi1)] [Hok Hl2 Hk2 (d2 & Hs2 & Hi2)]. split; [done|congruence|congruence|].
  exists (d1 ++ d2). split; [by rewrite Hs2, Hs1, app_assoc|]. intros V HV.
  eapply informed_ext; [|exact (Hi2 _ (Hi1 _ HV))]. intros a _. by rewrite hear_all_app.
Qed.

Lemma server_pkt_words cmd n p srv : 0 ≤ cmd < 2 ^ 32 → server_ok n p srv →
  let pkt := server_pkt cmd srv in
  word 0 pkt = cmd ∧ word 1 pkt = srv_service srv ∧ word 2 pkt = srv_instance srv ∧ word 3 pkt = n ∧ word 4 pkt = p.
Proof.
  intros Hc [H1 H2 H3 H4 H5 H6 H7]. unfold server_pkt. rewrite H1, H2. by apply ctrl_words.
Qed.

Lemma hear_new n p srv v : server_ok n p srv →
  hear v (server_pkt QRTR_TYPE_NEW_SERVER srv) = <[(n, p) := (srv_service srv, srv_instance srv)]> v.
Proof.
  intros Hs. destruct (server_pkt_words QRTR_TYPE_NEW_SERVER n p srv) as (W0 & W1 & W2 & W3 & W4); [done|done|].
  unfold hear. rewrite W0, W1, W2, W3, W4, Z.eqb_refl. rewrite (proj2 (Z.eqb_neq p 0)) by apply Hs. by rewrite andb_false_r.
Qed.

Lemma hear_del n p srv v : server_ok n p srv → hear v (server_pkt QRTR_TYPE_DEL_SERVER srv) = delete (n, p) v.
Proof.
  intros Hs. destruct (server_pkt_words QRTR_TYPE_DEL_SERVER n p srv) as (W0 & W1 & W2 & W3 & W4); [done|done|].
  unfold hear. rewrite W0, W3, W4. done.
Qed.

(** Hearing the same again changes nothing. *)
Lemma hear_copies v pkt m : (∀ w, hear (hear w pkt) pkt = hear w pkt) →
  foldl hear v (replicate m pkt) = match m with O => v | _ => hear v pkt end.
Proof.
  intros Hidem. destruct m as [|m]; [done|]. cbn [replicate foldl]. induction m as [|m IH]; [done|]. cbn [replicate foldl].
  by rewrite Hidem.
Qed.

(** ** Sending *)

(** What has been sent grows by [d]. *)
Definition plus (s : qrtr_ns) (d : list (sockaddr_qrtr * list Z)) : qrtr_ns := set_ns_sent (ns_sent s ++ d) [] s.

Lemma plus_nil s : ns_ok s → plus s [] = s.
Proof. intros [_ _ Hc _]. destruct s. unfold plus, set_ns_sent. cbn in *. by rewrite app_nil_r, Hc. Qed.
Lemma plus_plus s d e : plus (plus s d) e = plus s (d ++ e).
Proof. unfold plus, set_ns_sent. cbn. by rewrite app_assoc. Qed.
Lemma plus_ok s d : ns_ok s → ns_ok (plus s d).
Proof. intros [H1 H2 H3 H4]. by split. Qed.

Lemma ns_sendmsg_run to pkt s : ns_codes s = [] → ns_sendmsg to pkt s = (Done 20, plus s [(to, pkt)]).
Proof. intros Hc. unfold ns_sendmsg, kbind, kget, kmodify, kret. by rewrite Hc. Qed.

(** A loop whose body only sends. *)
Lemma xa_for_each_sends {A B} (g : B → sockaddr_qrtr * list Z) (f : A → list B) (body : A → M unit) l s :
  (∀ x s, ns_ok s → body x s = (Done tt, plus s (g <$> f x))) → ns_ok s →
  xa_for_each body l s = (Done tt, plus s (g <$> mjoin ((λ p, f p.2) <$> l))).
Proof.
  intros Hb. revert s. induction l as [|[i x] l IH]; intros s Hs.
  - cbn. by rewrite plus_nil.
  - cbn [xa_for_each fmap list_fmap mjoin list_join snd]. rewrite (kbind_Done _ _ _ _ _ (Hb x s Hs)), IH by by apply plus_ok.
    by rewrite plus_plus, <- fmap_app.
Qed.

(** Messages that change no client's table. *)
Lemma plus_part s d : ns_ok s →
  (∀ m V, m ∈ d → informed s V → sq_node m.1 = local_node s → hear (V m.1) m.2 = V m.1) → part s (plus s d).
Proof.
  intros Hs Hd. split; [by apply plus_ok|done|done|]. exists d. split; [done|]. intros V HV.
  apply (informed_ext s V); [|done]. intros a Ha. unfold hear_all, to_addr.
  assert (Forall (λ pkt, hear (V a) pkt = V a) (snd <$> filter (λ m, m.1 = a) d)) as Hall.
  { apply Forall_fmap, list.Forall_forall. intros m [Hm Hin]%list_elem_of_filter. cbn. rewrite <- Hm. apply Hd; [done|done|by rewrite Hm]. }
  induction Hall as [|pkt l Hp _ IH]; [done|]. cbn. by rewrite Hp.
Qed.

(** ** Notifications of one server *)

Definition notes (cmd : Z) (srv : qrtr_server) (l : list qrtr_lookup) : list (sockaddr_qrtr * list Z) :=
  (λ lk, (lk_sq lk, server_pkt cmd srv)) <$> filter (λ lk, observes srv lk = true) l.

Lemma notify_all_run srv (new : bool) l s : ns_ok s →
  notify_all srv new l s = (Done tt, plus s (notes (if new then QRTR_TYPE_NEW_SERVER else QRTR_TYPE_DEL_SERVER) srv l)).
Proof.
  revert s. induction l as [|lk l IH]; intros s Hs.
  - cbn. by rewrite plus_nil.
  - cbn [notify_all]. unfold notes. rewrite filter_cons. destruct (observes srv lk) eqn:Ho.
    + rewrite decide_True by done. unfold lookup_notify at 1.
      erewrite kbind_Done; [|erewrite kbind_Done; [done|apply ns_sendmsg_run, Hs]].
      rewrite IH by by apply plus_ok. by rewrite plus_plus.
    + rewrite decide_False by done. apply IH, Hs.
Qed.

Lemma to_addr_notes a cmd srv l : to_addr a (notes cmd srv l) = replicate (length (filter (wanted a srv) l)) (server_pkt cmd srv).
Proof.
  unfold notes.
  generalize (server_pkt cmd srv) as pkt. intros pkt. unfold to_addr. induction l as [|lk l IH]; [done|].
  rewrite !filter_cons. destruct (decide (observes srv lk = true)) as [Ho|Ho]; cbn [fmap list_fmap].
  - rewrite filter_cons. cbn [fst]. destruct (decide (lk_sq lk = a)) as [Ha|Ha].
    + rewrite decide_True by (by split). cbn [fmap list_fmap length replicate snd]. by rewrite IH.
    + rewrite decide_False by (by intros [? _]). exact IH.
  - rewrite decide_False by (by intros [_ ?]). exact IH.
Qed.

Lemma hear_notes n p srv s a cmd V : server_ok n p srv → cmd = QRTR_TYPE_NEW_SERVER ∨ cmd = QRTR_TYPE_DEL_SERVER →
  hear_all (notes cmd srv (ns_lookups s)) V a = if decide (wants s a srv) then hear (V a) (server_pkt cmd srv) else V a.
Proof.
  intros Hs Hc. unfold hear_all. rewrite to_addr_notes, hear_copies.
  - case_decide as Hw; unfold wants in Hw.
    + apply list.Exists_exists in Hw as (lk & Hin & Hw). destruct (length _) eqn:Hl; [|done].
      apply length_zero_iff_nil in Hl. exfalso. apply (not_elem_of_nil lk). rewrite <- Hl. by apply list_elem_of_filter.
    + destruct (filter _ _) as [|lk l] eqn:Hl; [done|]. destruct Hw. apply list.Exists_exists. exists lk.
      apply and_comm, (list_elem_of_filter (wanted a srv)). rewrite Hl. left.
  - intros w. destruct Hc as [-> | ->].
    + by rewrite !(hear_new n p), insert_insert_eq by done.
    + rewrite !(hear_del n p) by done. by rewrite delete_delete_eq.
Qed.

(** ** Servers come and go *)

Lemma servers_of_insert s n t m :
  servers_of (set_nodes (<[n := t]> (nodes s)) s) m = if decide (n = m) then t else servers_of s m.
Proof.
  unfold servers_of, set_nodes. cbn. case_decide as Hn; [subst m; by rewrite lookup_insert_eq|by rewrite lookup_insert_ne].
Qed.

Lemma wants_same s s' a srv : ns_lookups s' = ns_lookups s → wants s' a srv ↔ wants s a srv.
Proof. intros Hl. unfold wants. by rewrite Hl. Qed.

(** The same servers and lookups. *)
Lemma informed_same s s' V : local_node s' = local_node s → ns_lookups s' = ns_lookups s →
  (∀ n, servers_of s' n = servers_of s n) → informed s V → informed s' V.
Proof.
  intros Hn Hl Hs HV a k Ha. rewrite HV by congruence. unfold expected. rewrite Hs.
  destruct (_ !! _) as [srv|]; [|done]. pose proof (wants_same s s' a srv Hl). repeat case_decide; tauto.
Qed.

Lemma node_get_run al n s : ns_ok s → ∃ r s', node_get al n s = (Done r, s') ∧ part s s' ∧
  (∀ m, servers_of s' m = servers_of s m) ∧ (r = false → servers_of s n = ∅).
Proof.
  intros Hs. unfold node_get, kbind at 1, kget at 1. destruct (nodes s !! n) as [t|] eqn:Hn.
  { eexists _, _. split; [done|]. split; [by apply part_refl|done]. }
  destruct (al_ns_node al); cbn [negb]; (eexists _, _; split; [done|]).
  - assert (∀ m, servers_of (set_nodes (<[n:=∅]> (nodes s)) s) m = servers_of s m) as Hsame.
    { intros m. rewrite servers_of_insert. case_decide as Hm; [|done]. subst m. unfold servers_of. by rewrite Hn. }
    split; [|done]. destruct Hs as [H1 H2 H3 H4]. split; [|done|done|].
    + split; [|done..]. intros m p srv. rewrite Hsame. apply H1.
    + exists []. split; [by rewrite app_nil_r|]. intros V HV. by apply (informed_same s).
  - split; [by apply part_refl|]. split; [done|]. intros _. unfold servers_of. by rewrite Hn.
Qed.

Definition elsewhere (s : qrtr_ns) (m : sockaddr_qrtr * list Z) : Prop := sq_node m.1 ≠ local_node s.

Lemma hear_elsewhere s d e V a : Forall (elsewhere s) d → sq_node a = local_node s → hear_all (d ++ e) V a = hear_all e V a.
Proof.
  intros Hd Ha. unfold hear_all. rewrite to_addr_app. replace (to_addr a d) with (@nil (list Z)); [done|].
  unfold to_addr. induction Hd as [|m d Hm _ IH]; [done|]. rewrite filter_cons, decide_False; [done|].
  intros <-. by apply Hm.
Qed.

Lemma bcast_elsewhere s pkt : ns_ok s → Forall (elsewhere s) [(bcast_sq, pkt)].
Proof. intros Hs. constructor; [|constructor]. unfold elsewhere. cbn. pose proof (no_local s Hs). lia. Qed.

(** The table of one node changes at one port, and the observers are told. *)
Section port_changes.
Context (s : qrtr_ns) (Hs : ns_ok s) (n p : Z) (srv : qrtr_server) (Hok : server_ok n p srv).
Context (bc : list (sockaddr_qrtr * list Z)) (Hbc : Forall (elsewhere s) bc).

Lemma server_gone : servers_of s n !! p = Some srv →
  part s (plus (set_nodes (<[n := delete p (servers_of s n)]> (nodes s)) s) (bc ++ notes QRTR_TYPE_DEL_SERVER srv (ns_lookups s))).
Proof.
  intros Hsrv. set (s1 := set_nodes _ s).
  assert (∀ m q, servers_of s1 m !! q = if decide ((m, q) = (n, p)) then None else servers_of s m !! q) as Hs1.
  { intros m q. unfold s1. rewrite servers_of_insert. destruct (decide ((m, q) = (n, p))) as [Hk|Hk].
    - injection Hk as -> ->. rewrite decide_True by done. apply lookup_delete_eq.
    - case_decide as Hm; [|done]. subst m. apply lookup_delete_ne. congruence. }
  split; [apply plus_ok|done|done|].
  - destruct Hs as [H1 H2 H3 H4]. split; [|done..]. intros m q srv'. rewrite Hs1. case_decide; [done|apply H1].
  - eexists. split; [done|]. intros V HV a [m q] Ha. rewrite (hear_elsewhere s), (hear_notes n p) by auto.
    unfold expected. cbn [fst snd]. change (servers_of (plus s1 _) m) with (servers_of s1 m). rewrite Hs1.
    specialize (HV a (m, q) Ha). unfold expected in HV. cbn [fst snd] in HV.
    destruct (decide ((m, q) = (n, p))) as [Hk|Hk].
    + injection Hk as -> ->. rewrite Hsrv in HV. destruct (decide (wants s a srv)); [|done].
      rewrite (hear_del n p) by done. apply lookup_delete_eq.
    + destruct (decide (wants s a srv)); [|exact HV]. rewrite (hear_del n p), lookup_delete_ne by (done || congruence). exact HV.
Qed.

(** The port is free or has the same server. *)
Lemma server_comes : (∀ old, servers_of s n !! p = Some old → old = srv) →
  part s (plus (set_nodes (<[n := <[p := srv]> (servers_of s n)]> (nodes s)) s) (bc ++ notes QRTR_TYPE_NEW_SERVER srv (ns_lookups s))).
Proof.
  intros Hold. set (s1 := set_nodes _ s).
  assert (∀ m q, servers_of s1 m !! q = if decide ((m, q) = (n, p)) then Some srv else servers_of s m !! q) as Hs1.
  { intros m q. unfold s1. rewrite servers_of_insert. destruct (decide ((m, q) = (n, p))) as [Hk|Hk].
    - injection Hk as -> ->. rewrite decide_True by done. apply lookup_insert_eq.
    - case_decide as Hm; [|done]. subst m. apply lookup_insert_ne. congruence. }
  split; [apply plus_ok|done|done|].
  - destruct Hs as [H1 H2 H3 H4]. split; [|done..]. intros m q srv'. rewrite Hs1. case_decide as Hk; [|apply H1].
    injection Hk as -> ->. by intros [= <-].
  - eexists. split; [done|]. intros V HV a [m q] Ha. rewrite (hear_elsewhere s), (hear_notes n p) by auto.
    unfold expected. cbn [fst snd]. change (servers_of (plus s1 _) m) with (servers_of s1 m). rewrite Hs1.
    specialize (HV a (m, q) Ha). unfold expected in HV. cbn [fst snd] in HV.
    destruct (decide ((m, q) = (n, p))) as [Hk|Hk].
    + injection Hk as -> ->. change (decide (wants (plus s1 _) a srv)) with (decide (wants s a srv)).
      destruct (decide (wants s a srv)) as [Hw|Hw].
      * rewrite (hear_new n p) by done. apply lookup_insert_eq.
      * rewrite HV. destruct (servers_of s n !! p) as [old|]; [|done]. rewrite (Hold old) by done. by rewrite decide_False.
    + destruct (decide (wants s a srv)); [|exact HV]. rewrite (hear_new n p), lookup_insert_ne by (done || congruence). exact HV.
Qed.

End port_changes.

Lemma server_del_run n p bcast s : ns_ok s → ∃ s', server_del n p bcast s = (Done 0, s') ∧ part s s' ∧
  ∀ q, servers_of s' n !! q = if decide (q = p) then None else servers_of s n !! q.
Proof.
  intros Hs. unfold server_del. rewrite (kbind_Done kget _ _ _ _ eq_refl). destruct (servers_of s n !! p) as [srv|] eqn:Hsrv.
  2: { exists s. split; [done|]. split; [by apply part_refl|]. intros q. case_decide; [by subst q|done]. }
  rewrite (kbind_Done (kmodify _) _ _ _ _ eq_refl). cbv beta. set (s1 := set_nodes (<[n := delete p (servers_of s n)]> (nodes s)) s).
  pose proof (no_servers s Hs n p srv Hsrv) as Hok.
  pose (bc := if (srv_node srv =? local_node s) && bcast then [(bcast_sq, server_pkt QRTR_TYPE_DEL_SERVER srv)] else []).
  assert (Forall (elsewhere s) bc) as Hbc by (unfold bc; destruct (_ && _); [by apply bcast_elsewhere|constructor]).
  pose proof (server_gone s Hs n p srv Hok bc Hbc Hsrv) as Hpart.
  assert (ns_ok s1) as Hs1.
  { destruct Hpart as [[H1 H2 H3 H4] _ _ _]. split; [exact H1|exact H2|exact (no_codes s Hs)|exact H4]. }
  exists (plus s1 (bc ++ notes QRTR_TYPE_DEL_SERVER srv (ns_lookups s))). split; [|split; [exact Hpart|]].
  - erewrite kbind_Done with (s' := plus s1 bc); [|unfold bc; destruct (_ && _)].
    + rewrite (kbind_Done kget _ _ _ _ eq_refl). rewrite (kbind_Done _ _ _ _ _ (notify_all_run srv false _ _ (plus_ok _ bc Hs1))).
      by rewrite plus_plus.
    + unfold service_announce_del. by rewrite (kbind_Done _ _ _ _ _ (ns_sendmsg_run _ _ _ (no_codes _ Hs1))).
    + by rewrite plus_nil.
  - intros q. change (servers_of (plus s1 _) n) with (servers_of s1 n). unfold s1. rewrite servers_of_insert, decide_True by done.
    case_decide as Hq; [subst q; apply lookup_delete_eq|by apply lookup_delete_ne].
Qed.
