(* ===== verification/QrtrNsSystem.v ===== *)
(** * The name service and its clients (net/qrtr/ns.c)

    Every command, run to its end, keeps the clients informed; so does any sequence of
    packets. *)

From stdpp Require Import sorting.
From S2P Require Import Prelude Memory QmiMsg QmiMsgInv QmiRpc QrtrNs QrtrNsInv.

(** ** Clients and packets *)

(** Some lookup of [a] in [l] asks for the service and instance. *)
Definition asked (l : list qrtr_lookup) (a : sockaddr_qrtr) (kv : (Z * Z) * (Z * Z)) : Prop :=
  Exists (wanted a (mk_server kv.2.1 kv.2.2 0 0)) l.
#[export] Instance asked_dec l a kv : Decision (asked l a kv).
Proof. unfold asked. apply _. Defined.

(** A client that withdraws a lookup, or itself, drops what none of its other lookups asks for;
    nobody else forgets anything. *)
Definition withdraws (buf : list Z) : Prop := word 0 buf = QRTR_TYPE_DEL_LOOKUP ∨ word 0 buf = QRTR_TYPE_DEL_CLIENT.
#[export] Instance withdraws_dec buf : Decision (withdraws buf).
Proof. unfold withdraws. apply _. Defined.
Definition forget (from : sockaddr_qrtr) (buf : list Z) (l : list qrtr_lookup) (V : sockaddr_qrtr → table) : sockaddr_qrtr → table :=
  λ a, if decide (a = from ∧ withdraws buf) then filter (asked l a) (V a) else V a.

Definition server_key (s : qrtr_ns) (from : sockaddr_qrtr) (buf : list Z) : Z * Z :=
  if sq_node from =? local_node s then (sq_node from, sq_port from) else (word 3 buf, word 4 buf).

(** A packet that the service can be expected to handle: a local client does not say HELLO,
    and a port is not registered for another service before the first one is gone. *)
Record packet_ok (s : qrtr_ns) (from : sockaddr_qrtr) (buf : list Z) : Prop := {
  pk_bytes : Forall is_byte buf;
  pk_node : word32 (sq_node from);
  pk_port : word32 (sq_port from);
  pk_hello : word 0 buf = QRTR_TYPE_HELLO → sq_node from ≠ local_node s;
  pk_free : word 0 buf = QRTR_TYPE_NEW_SERVER → let k := server_key s from buf in
    ∀ old, servers_of s k.1 !! k.2 = Some old → srv_service old = word 1 buf ∧ srv_instance old = word 2 buf
}.

(** A command from start to end. *)
Record told (from : sockaddr_qrtr) (buf : list Z) (s s' : qrtr_ns) : Prop := {
  td_ok : ns_ok s';
  td_local : local_node s' = local_node s;
  td_sent : ∃ d, ns_sent s' = ns_sent s ++ d ∧ ∀ V, informed s V → informed s' (hear_all d (forget from buf (ns_lookups s') V))
}.

(** ** Lookups *)

Lemma forget_same from buf s l V a : (∀ lk, lk ∈ ns_lookups s → lk ∈ l) → informed s V → sq_node a = local_node s →
  forget from buf l V a = V a.
Proof.
  intros Hl HV Ha. unfold forget. case_decide; [|done]. apply map_filter_id. intros k x Hx. rewrite HV in Hx by done. unfold expected in Hx.
  destruct (_ !! _) as [srv|]; [|done]. case_decide as Hw; [|done]. injection Hx as <-. unfold asked. cbn.
  apply list.Exists_exists in Hw as (lk & Hin & Hw). apply list.Exists_exists. exists lk. split; [by apply Hl|exact Hw].
Qed.

Lemma part_told from buf s s' : part s s' → told from buf s s'.
Proof.
  intros [H1 H2 H3 (d & H4 & H5)]. split; [done|done|]. exists d. split; [done|]. intros V HV.
  apply (informed_ext s' (hear_all d V)); [|by apply H5]. intros a Ha. unfold hear_all.
  rewrite (forget_same _ _ s); [done|by rewrite H3|done|congruence].
Qed.

Lemma fewer_ok s (P : qrtr_lookup → Prop) `{∀ lk, Decision (P lk)} : ns_ok s → ns_ok (set_ns_lookups (filter P (ns_lookups s)) s).
Proof.
  intros [H1 H2 H3 H4]. split; [exact H1| |exact H3|exact H4]. cbn. apply list.Forall_forall. intros lk [_ Hin]%list_elem_of_filter.
  exact (proj1 (list.Forall_forall _ _) H2 lk Hin).
Qed.

(** Only lookups of the sender go. *)
Lemma fewer_lookups from buf s (P : qrtr_lookup → Prop) `{∀ lk, Decision (P lk)} :
  withdraws buf → (∀ lk, lk ∈ ns_lookups s → ¬ P lk → lk_sq lk = from) →
  let s1 := set_ns_lookups (filter P (ns_lookups s)) s in
  ∀ V, informed s V → informed s1 (forget from buf (ns_lookups s1) V).
Proof.
  intros Hw Hown s1 V HV a k Ha. unfold forget.
  assert (∀ srv, wants s1 a srv → wants s a srv) as Hmore.
  { intros srv (lk & Hin & Hwant)%list.Exists_exists. apply list_elem_of_filter in Hin as [_ Hin]. apply list.Exists_exists. by exists lk. }
  destruct (decide (a = from ∧ withdraws buf)) as [_|Hno].
  - apply option_eq. intros x. rewrite map_lookup_filter_Some, (HV a k Ha).
    unfold expected. change (servers_of s1 k.1) with (servers_of s k.1). destruct (servers_of s k.1 !! k.2) as [srv|]; [|naive_solver].
    assert (asked (ns_lookups s1) a (k, (srv_service srv, srv_instance srv)) ↔ wants s1 a srv) as Hask by done.
    specialize (Hmore srv). repeat case_decide; naive_solver.
  - rewrite (HV a k Ha). unfold expected. change (servers_of s1 k.1) with (servers_of s k.1).
    destruct (servers_of s k.1 !! k.2) as [srv|]; [|done].
    assert (wants s a srv → wants s1 a srv) as Hless; [|specialize (Hmore srv); repeat case_decide; naive_solver].
    intros (lk & Hin & Hwant)%list.Exists_exists. apply list.Exists_exists. exists lk. split; [|exact Hwant].
    apply list_elem_of_filter. split; [|exact Hin]. destruct (decide (P lk)) as [|Hn]; [done|]. exfalso. apply Hno.
    split; [|exact Hw]. rewrite <- (Hown lk Hin Hn). symmetry. apply Hwant.
Qed.

Lemma fewer_told from buf s (P : qrtr_lookup → Prop) `{∀ lk, Decision (P lk)} s' :
  withdraws buf → (∀ lk, lk ∈ ns_lookups s → ¬ P lk → lk_sq lk = from) →
  part (set_ns_lookups (filter P (ns_lookups s)) s) s' → told from buf s s'.
Proof.
  intros Hw Hown [H1 H2 H3 (d & H4 & H5)]. pose proof (fewer_lookups from buf s P Hw Hown) as HV. split; [done|done|]. exists d.
  split; [done|]. intros V HI. rewrite H3. by apply H5, HV.
Qed.

Lemma of_client_sq lk a : of_client (sq_node a) (sq_port a) lk = true → lk_sq lk = a.
Proof. unfold of_client. intros [H1%Z.eqb_eq H2%Z.eqb_eq]%andb_true_iff. destruct (lk_sq lk), a. cbn in *. congruence. Qed.

(** ** Commands *)

Lemma xa_elem {A} (m : gmap Z A) i x : (i, x) ∈ xa_entries m ↔ m !! i = Some x.
Proof. unfold xa_entries. by rewrite merge_sort_Permutation, elem_of_map_to_list. Qed.

Lemma announce_loop_run sq l s : ns_ok s → ∃ d, announce_loop sq l s = (Done 0, plus s d) ∧ Forall (λ m, m.1 = sq) d.
Proof.
  revert s. induction l as [|[i srv] l IH]; intros s Hs.
  - exists []. rewrite plus_nil by done. by split.
  - cbn [announce_loop]. unfold service_announce_new. rewrite (kbind_Done _ _ _ _ _ (ns_sendmsg_run _ _ _ (no_codes _ Hs))).
    destruct (IH _ (plus_ok s [(sq, server_pkt QRTR_TYPE_NEW_SERVER srv)] Hs)) as (d & Hd & Hsq). cbn [Z.ltb Z.compare andb].
    rewrite Hd, plus_plus. eexists. split; [done|]. by constructor.
Qed.

Lemma announce_nodes_run sq l s : ns_ok s → ∃ d, announce_nodes sq l s = (Done 0, plus s d) ∧ Forall (λ m, m.1 = sq) d.
Proof.
  revert s. induction l as [|[i t] l IH]; intros s Hs.
  - exists []. rewrite plus_nil by done. by split.
  - cbn [announce_nodes]. destruct (i =? sq_node sq); [by apply IH|].
    destruct (announce_loop_run sq (xa_entries t) s Hs) as (d & Hd & Hsq). rewrite (kbind_Done _ _ _ _ _ Hd).
    cbn [Z.ltb Z.compare]. destruct (IH _ (plus_ok s d Hs)) as (e & He & Hsq'). rewrite He, plus_plus. eexists. split; [done|].
    by apply Forall_app.
Qed.

Lemma hello_run sq s : ns_ok s → sq_node sq ≠ local_node s → ∃ r s', ctrl_cmd_hello sq s = (Done r, s') ∧ part s s'.
Proof.
  intros Hs Hsq. unfold ctrl_cmd_hello, say_hello. rewrite (kbind_Done _ _ _ _ _ (ns_sendmsg_run _ _ _ (no_codes _ Hs))).
  cbn [Z.ltb Z.compare]. unfold announce_servers. rewrite (kbind_Done kget _ _ _ _ eq_refl).
  set (m0 := (sq, _)). destruct (announce_nodes_run sq (xa_entries (nodes (plus s [m0]))) _ (plus_ok s [m0] Hs)) as (d & Hd & Hall).
  eexists _, _. split; [exact Hd|]. rewrite plus_plus. apply plus_part; [done|]. intros m V Hm _ Hl.
  assert (Forall (λ m, m.1 = sq) ([m0] ++ d)) as Hall' by by constructor.
  apply (proj1 (list.Forall_forall _ _) Hall') in Hm. congruence.
Qed.

(** A packet that tells no client anything new goes to the local servers. *)
Lemma tell_local_run al pkt s : ns_ok s →
  (∀ V a, informed s V → sq_node a = local_node s → hear (V a) pkt = V a) → ∃ r s', tell_local al pkt s = (Done r, s') ∧ part s s'.
Proof.
  intros Hs Hp. unfold tell_local. rewrite (kbind_Done kget _ _ _ _ eq_refl).
  destruct (node_get_run al (local_node s) s Hs) as (ok & s1 & Hn & Hpart & Hsame & _). rewrite (kbind_Done _ _ _ _ _ Hn).
  destruct ok; cbn [negb]; [|by eexists _, _]. rewrite (kbind_Done kget _ _ _ _ eq_refl).
  pose proof (pa_ok _ _ Hpart) as Hs1.
  erewrite kbind_Done; [|apply (xa_for_each_sends (λ srv, (mk_addr (srv_node srv) (srv_port srv), pkt)) (λ srv, [srv]) _ _ s1); [|exact Hs1]].
  2: { intros srv s2 Hs2. by rewrite (kbind_Done _ _ _ _ _ (ns_sendmsg_run _ _ _ (no_codes _ Hs2))). }
  eexists _, _. split; [done|]. apply (part_trans _ s1); [done|]. apply plus_part; [done|].
  intros m V Hm HV Hl. apply list_elem_of_fmap in Hm as (srv & -> & _). cbn [fst snd] in *. apply Hp; [|by rewrite <- (pa_local _ _ Hpart)].
  apply (informed_same s1); [symmetry; apply Hpart|symmetry; apply Hpart|done|done].
Qed.

Lemma hear_client n p v : word32 n → word32 p → hear v (ctrl_pkt_le QRTR_TYPE_DEL_CLIENT n p 0 0) = v.
Proof.
  intros Hn Hp. destruct (ctrl_words QRTR_TYPE_DEL_CLIENT n p 0 0) as (W & _); [done|done|done|done|done|].
  unfold hear. by rewrite W.
Qed.

Lemma hear_bye n v : word32 n → hear v (ctrl_pkt_le QRTR_TYPE_BYE n 0 0 0) = filter (λ p, p.1.1 ≠ n) v.
Proof.
  intros Hn. destruct (ctrl_words QRTR_TYPE_BYE n 0 0 0) as (W & W1 & _); [done|done|done|done|done|].
  unfold hear. by rewrite W, W1.
Qed.

(** All servers of the node are deleted. *)
Lemma bye_loop_run n l s : ns_ok s → (∀ q srv, servers_of s n !! q = Some srv → (q, srv) ∈ l) →
  Forall (λ e, srv_port e.2 = e.1) l →
  ∃ s', xa_for_each (λ srv, let* _ := server_del n (srv_port srv) true in kret tt) l s = (Done tt, s') ∧ part s s' ∧
    servers_of s' n = ∅.
Proof.
  revert s. induction l as [|[i srv] l IH]; intros s Hs Hl Hports.
  - exists s. split; [done|]. split; [by apply part_refl|]. apply map_eq. intros q. rewrite lookup_empty.
    destruct (servers_of s n !! q) as [srv|] eqn:Hq; [|done]. by apply Hl, not_elem_of_nil in Hq.
  - apply list.Forall_cons in Hports as [Hi Hports]. cbn in Hi. cbn [xa_for_each].
    destruct (server_del_run n (srv_port srv) true s Hs) as (s1 & Hrun & Hpart & Hs1).
    erewrite kbind_Done; [|erewrite kbind_Done; [done|exact Hrun]].
    destruct (IH s1) as (s2 & Hrun2 & Hpart2 & Hnone); [apply Hpart| |exact Hports|].
    { intros q x. rewrite Hs1. case_decide; [done|]. intros Hq. apply Hl in Hq.
      apply elem_of_cons in Hq as [Heq|Hq]; [congruence|done]. }
    exists s2. split; [exact Hrun2|]. split; [by apply (part_trans _ s1)|done].
Qed.

Lemma bye_run al sq s : ns_ok s → word32 (sq_node sq) → ∃ r s', ctrl_cmd_bye al sq s = (Done r, s') ∧ part s s'.
Proof.
  intros Hs Hsq. unfold ctrl_cmd_bye. destruct (node_get_run al (sq_node sq) s Hs) as (ok & s1 & Hn & Hpart & Hsame & _).
  rewrite (kbind_Done _ _ _ _ _ Hn). destruct ok; cbn [negb]; [|by eexists _, _]. rewrite (kbind_Done kget _ _ _ _ eq_refl).
  destruct (bye_loop_run (sq_node sq) (xa_entries (servers_of s1 (sq_node sq))) s1) as (s2 & Hrun & Hpart2 & Hnone); [apply Hpart| | |].
  { intros q srv Hq. by apply xa_elem. }
  { apply list.Forall_forall. intros [i srv] Hin%xa_elem. by apply (no_servers s1 (pa_ok _ _ Hpart)) in Hin as []. }
  rewrite (kbind_Done _ _ _ _ _ Hrun).
  destruct (tell_local_run al (ctrl_pkt_le QRTR_TYPE_BYE (sq_node sq) 0 0 0) s2) as (r & s3 & Hrun3 & Hpart3); [apply Hpart2| |].
  { intros V a HV Ha. rewrite hear_bye by done. apply map_filter_id. intros k x Hx. rewrite HV in Hx by done.
    unfold expected in Hx. intros Hk. cbn in Hk. rewrite Hk, Hnone in Hx. by rewrite lookup_empty in Hx. }
  exists r, s3. split; [exact Hrun3|]. apply (part_trans _ s1), (part_trans _ s2); done.
Qed.

Lemma del_client_run al sq buf n p s : ns_ok s → word32 n → word32 p → withdraws buf →
  ∃ r s', ctrl_cmd_del_client al sq n p s = (Done r, s') ∧ told sq buf s s'.
Proof.
  intros Hs Hn Hp Hbuf. unfold ctrl_cmd_del_client. rewrite (kbind_Done kget _ _ _ _ eq_refl).
  destruct (Z.eqb_spec (sq_node sq) n) as [Hsn|]; cbn [negb]; [|eexists _, _; split; [done|]; by apply part_told, part_refl].
  destruct ((sq_node sq =? local_node s) && negb (sq_port sq =? p)) eqn:Hport; [eexists _, _; split; [done|]; by apply part_told, part_refl|].
  rewrite (kbind_Done (kmodify _) _ _ _ _ eq_refl). cbv beta. set (s1 := set_ns_lookups _ s).
  assert (ns_ok s1) as Hs1 by by apply fewer_ok.
  destruct (node_get_run al n s1 Hs1) as (ok & s2 & Hget & Hpart & Hsame & _). rewrite (kbind_Done _ _ _ _ _ Hget).
  assert (∃ s3, (if ok then let* _ := server_del n p false in kret tt else kret tt) s2 = (Done tt, s3) ∧ part s2 s3) as (s3 & Hdel & Hpart3).
  { pose proof (pa_ok _ _ Hpart) as Hs2. destruct ok; [|by exists s2; split; [|apply part_refl]].
    destruct (server_del_run n p false s2 Hs2) as (s3 & Hrun & Hp3 & _). exists s3. by rewrite (kbind_Done _ _ _ _ _ Hrun). }
  rewrite (kbind_Done _ _ _ _ _ Hdel).
  destruct (tell_local_run al (ctrl_pkt_le QRTR_TYPE_DEL_CLIENT n p 0 0) s3) as (r & s4 & Hrun4 & Hpart4); [apply Hpart3| |].
  { intros V a _ _. by apply hear_client. }
  exists r, s4. split; [exact Hrun4|]. apply (fewer_told sq buf s (λ lk, of_client n p lk = false)); [done| |].
  { intros lk Hin Hc%not_false_is_true. apply of_client_sq. pose proof (proj1 (list.Forall_forall _ _) (no_lookups s Hs) lk Hin) as Hloc.
    cbn in Hloc. unfold of_client in *. apply andb_true_iff in Hc as [Hc1%Z.eqb_eq Hc2%Z.eqb_eq].
    rewrite Hsn, (proj2 (Z.eqb_eq n (local_node s))) in Hport by congruence. cbn [andb] in Hport.
    apply negb_false_iff, Z.eqb_eq in Hport. rewrite Hsn, Hport. by rewrite Hc1, Hc2, !Z.eqb_refl. }
  apply (part_trans _ s2), (part_trans _ s3); done.
Qed.

Lemma ns_del_server_run al sq sv i n p s : ns_ok s → ∃ r s', ctrl_cmd_del_server al sq sv i n p s = (Done r, s') ∧ part s s'.
Proof.
  intros Hs. unfold ctrl_cmd_del_server. rewrite (kbind_Done kget _ _ _ _ eq_refl). cbv zeta.
  set (n' := if sq_node sq =? local_node s then sq_node sq else n). set (p' := if sq_node sq =? local_node s then sq_port sq else p).
  destruct (_ && _); [eexists _, _; split; [done|]; by apply part_refl|].
  destruct (node_get_run al n' s Hs) as (ok & s2 & Hget & Hpart & Hsame & _). rewrite (kbind_Done _ _ _ _ _ Hget).
  destruct ok; cbn [negb]; [|by eexists _, _].
  destruct (server_del_run n' p' true s2 (pa_ok _ _ Hpart)) as (s3 & Hrun & Hp3 & _). rewrite (kbind_Done _ _ _ _ _ Hrun).
  eexists _, _. split; [done|]. by apply (part_trans _ s2).
Qed.

Lemma server_add_run al sv i n p s : ns_ok s →
  ∃ s1, part s s1 ∧ (∀ m, servers_of s1 m = servers_of s m) ∧
  (server_add al sv i n p s = (Done None, s1) ∨
   sv ≠ 0 ∧ p ≠ 0 ∧ let srv := mk_server sv i n p in
   server_add al sv i n p s = (Done (Some srv), set_nodes (<[n := <[p := srv]> (servers_of s1 n)]> (nodes s1)) s1)).
Proof.
  intros Hs. unfold server_add. destruct ((sv =? 0) || (p =? 0)) eqn:Hz.
  { exists s. split; [by apply part_refl|]. split; [done|by left]. }
  apply orb_false_iff in Hz as [Hsv%Z.eqb_neq Hp%Z.eqb_neq]. destruct (negb (al_server al)).
  { exists s. split; [by apply part_refl|]. split; [done|by left]. }
  destruct (node_get_run al n s Hs) as (ok & s1 & Hget & Hpart & Hsame & _). exists s1. split; [done|]. split; [done|].
  cbv zeta. rewrite (kbind_Done _ _ _ _ _ Hget). destruct ok; cbn [negb]; [|by left].
  destruct (negb (al_slot al)); [by left|]. right. by rewrite (kbind_Done (kmodify _) _ _ _ _ eq_refl).
Qed.

Lemma new_server_run al sq sv i n p s : ns_ok s → word32 sv → word32 i → word32 n → word32 p →
  word32 (sq_node sq) → word32 (sq_port sq) →
  (let k := if sq_node sq =? local_node s then (sq_node sq, sq_port sq) else (n, p) in
   ∀ old, servers_of s k.1 !! k.2 = Some old → srv_service old = sv ∧ srv_instance old = i) →
  ∃ r s', ctrl_cmd_new_server al sq sv i n p s = (Done r, s') ∧ part s s'.
Proof.
  intros Hs Hsv Hi Hn Hp Hqn Hqp Hfree. unfold ctrl_cmd_new_server. rewrite (kbind_Done kget _ _ _ _ eq_refl). cbv zeta.
  set (n' := if sq_node sq =? local_node s then sq_node sq else n). set (p' := if sq_node sq =? local_node s then sq_port sq else p).
  assert (word32 n' ∧ word32 p') as [Hn' Hp'] by (unfold n', p'; by destruct (_ =? _)).
  assert (∀ old, servers_of s n' !! p' = Some old → srv_service old = sv ∧ srv_instance old = i) as Hfree'.
  { cbv zeta in Hfree. unfold n', p'. by destruct (_ =? _). }
  destruct (server_add_run al sv i n' p' s Hs) as (s1 & Hpart & Hsame & [Hadd|(Hsv0 & Hp0 & Hadd)]).
  { rewrite (kbind_Done _ _ _ _ _ Hadd). by eexists _, _. }
  rewrite (kbind_Done _ _ _ _ _ Hadd). cbv iota beta. set (srv := mk_server sv i n' p') in *. set (s2 := set_nodes _ s1).
  pose proof (pa_ok _ _ Hpart) as Hs1. assert (server_ok n' p' srv) as Hok by by split.
  pose (bc := if srv_node srv =? local_node s then [(bcast_sq, server_pkt QRTR_TYPE_NEW_SERVER srv)] else []).
  assert (Forall (elsewhere s1) bc) as Hbc by (unfold bc; destruct (srv_node srv =? local_node s); [by apply bcast_elsewhere|constructor]).
  assert (part s1 (plus s2 (bc ++ notes QRTR_TYPE_NEW_SERVER srv (ns_lookups s1)))) as Hpart2.
  { apply server_comes; [done|done|done|]. intros old Hold. rewrite Hsame in Hold. pose proof (no_servers s Hs _ _ _ Hold) as [H1 H2 _ _ _ _ _].
    apply Hfree' in Hold as [H3 H4]. destruct old. cbn in *. unfold srv. congruence. }
  assert (ns_ok s2) as Hs2.
  { destruct Hpart2 as [[H1 H2 H3 H4] _ _ _]. split; [exact H1|exact H2|exact (no_codes s1 Hs1)|exact H4]. }
  exists (if srv_node srv =? local_node s then 20 else 0), (plus s2 (bc ++ notes QRTR_TYPE_NEW_SERVER srv (ns_lookups s1))).
  split; [|by apply (part_trans _ s1)].
  erewrite kbind_Done with (s' := plus s2 bc) (a := if srv_node srv =? local_node s then 20 else 0); [|unfold bc; destruct (srv_node srv =? local_node s)].
  - replace ((if srv_node srv =? local_node s then 20 else 0) <? 0) with false by (by destruct (srv_node srv =? local_node s)). rewrite (kbind_Done kget _ _ _ _ eq_refl).
    rewrite (kbind_Done _ _ _ _ _ (notify_all_run srv true _ _ (plus_ok _ bc Hs2))). by rewrite plus_plus.
  - exact (ns_sendmsg_run _ _ _ (no_codes _ Hs2)).
  - by rewrite plus_nil.
Qed.

(** *** A new lookup *)

Lemma server_match_observes n p srv sv i from : server_ok n p srv → server_match srv (mk_filter sv i 0) = observes srv (mk_lookup sv i from).
Proof.
  intros Hok. unfold server_match, observes. cbn [f_service f_instance ifilter lk_service lk_instance].
  rewrite (Z.eqb_sym (srv_service srv)). destruct (sv =? 0), (sv =? srv_service srv); cbn [negb andb]; try done;
    change (0 =? 0) with true; cbn [andb]; destruct (Z.eqb_spec i 0) as [->|Hi]; cbn [negb]; try (by rewrite Z.land_0_r).
  all: pose proof (sk_instance _ _ _ Hok) as [H1 H2]; change UINT_MAX with (Z.ones 32); rewrite Z.land_ones, Z.mod_small by lia;
    rewrite Z.eqb_sym; by destruct (i =? _).
Qed.

(** The servers that match, node by node. *)
Definition listed (s : qrtr_ns) (f : qrtr_server_filter) : list qrtr_server :=
  mjoin ((λ e, mjoin ((λ e', if server_match e'.2 f then [e'.2] else []) <$> xa_entries e.2)) <$> xa_entries (nodes s)).

Lemma elem_of_listed s f srv : ns_ok s →
  srv ∈ listed s f ↔ servers_of s (srv_node srv) !! srv_port srv = Some srv ∧ server_match srv f = true.
Proof.
  intros Hs. unfold listed. split.
  - intros (l & Hin & ([n t] & -> & Ht%xa_elem)%list_elem_of_fmap)%list_elem_of_join.
    apply list_elem_of_join in Hin as (l & Hin & ([p srv'] & -> & Hp%xa_elem)%list_elem_of_fmap). cbn [snd] in *.
    destruct (server_match srv' f) eqn:Hm; [|by apply not_elem_of_nil in Hin]. apply list_elem_of_singleton in Hin as ->.
    assert (servers_of s n !! p = Some srv') as Hreg by (unfold servers_of; by rewrite Ht).
    destruct (no_servers s Hs n p srv' Hreg) as [-> -> _ _ _ _ _]. done.
  - intros [Hreg Hm]. unfold servers_of in Hreg. destruct (nodes s !! srv_node srv) as [t|] eqn:Ht; [|exfalso; exact (lookup_empty_Some _ _ Hreg)].
    apply list_elem_of_join. eexists. split; [|apply list_elem_of_fmap; exists (srv_node srv, t); split; [done|by apply xa_elem]].
    cbn [snd]. apply list_elem_of_join. eexists. split; [|apply list_elem_of_fmap; exists (srv_port srv, srv); split; [done|by apply xa_elem]].
    cbn [snd]. rewrite Hm. by apply list_elem_of_singleton.
Qed.

(** Hearing a list of servers. *)
Lemma hear_list v l k : (∀ srv, srv ∈ l → server_ok (srv_node srv) (srv_port srv) srv) →
  let w := foldl hear v (server_pkt QRTR_TYPE_NEW_SERVER <$> l) in
  (∃ srv, srv ∈ l ∧ k = (srv_node srv, srv_port srv) ∧ w !! k = Some (srv_service srv, srv_instance srv)) ∨
  (∀ srv, srv ∈ l → k ≠ (srv_node srv, srv_port srv)) ∧ w !! k = v !! k.
Proof.
  induction l as [|srv l IH] using rev_ind; intros Hok.
  { right. split; [intros srv []%not_elem_of_nil|done]. }
  destruct IH as [(x & Hin & Hk & Hw)|[Hno Hw]]; [intros x Hx; apply Hok, elem_of_app; by left| |];
    rewrite fmap_app, foldl_app; cbn [fmap list_fmap foldl];
    rewrite (hear_new (srv_node srv) (srv_port srv)) by (apply Hok, elem_of_app; right; by apply list_elem_of_singleton);
    destruct (decide (k = (srv_node srv, srv_port srv))) as [Heq|Hne].
  1, 3: left; exists srv; split; [apply elem_of_app; right; by apply list_elem_of_singleton|];
    split; [exact Heq|]; rewrite Heq; apply lookup_insert_eq.
  - left. exists x. rewrite lookup_insert_ne by done. split; [apply elem_of_app; by left|done].
  - right. rewrite lookup_insert_ne by done. split; [|done].
    intros x [Hx|Hx%list_elem_of_singleton]%elem_of_app; [by apply Hno|by subst x].
Qed.

Definition end_of_list : list Z := ctrl_pkt_le QRTR_TYPE_NEW_SERVER 0 0 0 0.
Lemma hear_end v : hear v end_of_list = v.
Proof.
  destruct (ctrl_words QRTR_TYPE_NEW_SERVER 0 0 0 0) as (W0 & _ & _ & W3 & W4); [done|done|done|done|done|].
  unfold hear, end_of_list. by rewrite W0, W3, W4.
Qed.

Lemma to_addr_all a d : Forall (λ m, m.1 = a) d → to_addr a d = snd <$> d.
Proof.
  intros Hd. unfold to_addr. f_equal. induction Hd as [|m d Hm _ IH]; [done|]. by rewrite filter_cons, decide_True, IH.
Qed.

Lemma wants_more s lk a srv : wants (set_ns_lookups (ns_lookups s ++ [lk]) s) a srv ↔ wants s a srv ∨ wanted a srv lk.
Proof. unfold wants. cbn. rewrite List.Exists_app, List.Exists_cons, List.Exists_nil. tauto. Qed.

(** The client hears the servers it asks for. *)
Lemma lookup_listed s sv i from V : ns_ok s → sq_node from = local_node s → informed s V →
  let s1 := set_ns_lookups (ns_lookups s ++ [mk_lookup sv i from]) s in
  informed s1 (hear_all (((λ srv, (from, server_pkt QRTR_TYPE_NEW_SERVER srv)) <$> listed s1 (mk_filter sv i 0)) ++ [(from, end_of_list)]) V).
Proof.
  intros Hs Hfrom HV s1 a k Ha. unfold hear_all. set (lk := mk_lookup sv i from) in *. specialize (HV a k Ha). unfold expected in *.
  change (servers_of s1 k.1) with (servers_of s k.1). assert (ns_ok s1) as Hs1.
  { destruct Hs as [H1 H2 H3 H4]. split; [exact H1|apply Forall_app; by split; [|constructor]|exact H3|exact H4]. }
  set (d := _ ++ _). assert (Forall (λ m, m.1 = from) d) as Hd.
  { apply Forall_app. split; [by apply Forall_fmap, list.Forall_true|by constructor]. }
  destruct (decide (from = a)) as [<-|Hne].
  - rewrite to_addr_all by done. unfold d. rewrite fmap_app, <- list_fmap_compose. unfold compose. cbn [fmap list_fmap snd].
    rewrite foldl_app. cbn [foldl]. rewrite hear_end. set (l := listed s1 _).
    destruct (hear_list (V from) l k) as [(srv & Hin & -> & Hw)|[Hno Hw]].
    + intros srv [Hreg _]%elem_of_listed; [|done]. exact (no_servers s1 Hs1 _ _ _ Hreg).
    + apply elem_of_listed in Hin as [Hreg Hm]; [|done]. change (servers_of s1) with (servers_of s) in Hreg. cbn [fst snd].
      rewrite Hreg, decide_True; [exact Hw|]. apply wants_more. right. split; [done|].
      unfold lk. by rewrite <- (server_match_observes _ _ _ sv i from (no_servers s Hs _ _ _ Hreg)).
    + etransitivity; [exact Hw|]. rewrite HV. destruct (servers_of s k.1 !! k.2) as [srv|] eqn:Hreg; [|done].
      pose proof (no_servers s Hs _ _ _ Hreg) as Hok. assert (observes srv lk = false) as Hobs.
      { apply not_true_is_false. intros Ho. apply (Hno srv).
        - apply elem_of_listed; [done|]. rewrite (sk_node _ _ _ Hok), (sk_port _ _ _ Hok). split; [exact Hreg|].
          by rewrite (server_match_observes _ _ _ sv i from Hok).
        - rewrite (sk_node _ _ _ Hok), (sk_port _ _ _ Hok). by destruct k. }
      pose proof (wants_more s lk from srv) as Hiff. unfold wanted in Hiff. rewrite Hobs in Hiff. repeat case_decide; naive_solver.
  - assert (to_addr a d = []) as ->.
    { unfold to_addr. clear Hs Hs1. induction Hd as [|m d Hm _ IH]; [done|]. rewrite filter_cons, decide_False; [done|congruence]. }
    cbn [foldl]. rewrite HV. destruct (servers_of s k.1 !! k.2) as [srv|]; [|done].
    pose proof (wants_more s lk a srv) as Hiff. unfold wanted in Hiff. cbn [lk_sq lk] in Hiff. repeat case_decide; naive_solver.
Qed.

Lemma new_lookup_run al sq buf sv i s : ns_ok s → ∃ r s', ctrl_cmd_new_lookup al sq sv i s = (Done r, s') ∧ told sq buf s s'.
Proof.
  intros Hs. unfold ctrl_cmd_new_lookup. rewrite (kbind_Done kget _ _ _ _ eq_refl).
  destruct (Z.eqb_spec (sq_node sq) (local_node s)) as [Hsq|Hsq]; cbn [negb]; [|eexists _, _; split; [done|]; by apply part_told, part_refl].
  destruct (negb (al_lookup al)); [eexists _, _; split; [done|]; by apply part_told, part_refl|].
  rewrite (kbind_Done (kmodify _) _ _ _ _ eq_refl). cbv beta. set (s1 := set_ns_lookups _ s). rewrite (kbind_Done kget _ _ _ _ eq_refl).
  assert (ns_ok s1) as Hs1.
  { destruct Hs as [H1 H2 H3 H4]. split; [exact H1|apply Forall_app; by split; [|constructor]|exact H3|exact H4]. }
  set (g := λ srv, (sq, server_pkt QRTR_TYPE_NEW_SERVER srv)).
  pose (match_one := λ srv, if server_match srv (mk_filter sv i 0) then [srv] else []).
  erewrite kbind_Done; [|apply (xa_for_each_sends g (λ t, mjoin ((λ e', match_one e'.2) <$> xa_entries t)) _ _ s1); [|exact Hs1]].
  2: { intros t s2 Hs2. apply (xa_for_each_sends g match_one); [|done]. intros srv s3 Hs3. unfold match_one.
       destruct (server_match srv _); [|cbn; by rewrite plus_nil]. unfold lookup_notify.
       by rewrite (kbind_Done _ _ _ _ _ (ns_sendmsg_run _ _ _ (no_codes _ Hs3))). }
  unfold lookup_notify. erewrite kbind_Done; [|erewrite kbind_Done; [done|by apply ns_sendmsg_run]].
  eexists _, _. split; [done|]. rewrite plus_plus. split; [by apply plus_ok|done|]. eexists. split; [done|]. intros V HV.
  cbn [ns_lookups plus set_ns_sent set_ns_lookups s1].
  refine (informed_ext _ _ _ _ (lookup_listed s sv i sq V Hs Hsq HV)). intros a Ha. unfold hear_all.
  rewrite (forget_same _ _ s); [done| |done|exact Ha]. intros lk Hlk. apply elem_of_app. by left.
Qed.

Lemma del_lookup_run sq buf sv i s : ns_ok s → withdraws buf → ∃ s', ctrl_cmd_del_lookup sq sv i s = (Done tt, s') ∧ told sq buf s s'.
Proof.
  intros Hs Hbuf. eexists. split; [done|]. apply (fewer_told sq buf s (λ lk, dropped sq sv i lk = false)); [done| |by apply part_refl, fewer_ok].
  intros lk _ Hd%not_false_is_true. unfold dropped in Hd. apply andb_true_iff in Hd as [[Hc _]%andb_true_iff _]. by apply of_client_sq.
Qed.

(** ** Every packet *)

Lemma word_range i buf : Forall is_byte buf → word32 (word i buf).
Proof.
  intros Hb. unfold word, word32. set (l := take _ _). assert (Forall is_byte l) as Hl by by apply Forall_take, Forall_drop.
  apply le_decode_range in Hl. assert (256 ^ zlen l ≤ 256 ^ 4) as Hle.
  { apply Z.pow_le_mono_r; [lia|]. unfold zlen, l. rewrite length_take. lia. }
  change (256 ^ 4) with (2 ^ 32) in Hle. lia.
Qed.

Lemma ns_handle_told al from buf s : ns_ok s → packet_ok s from buf → ∃ r s', ns_handle al from buf s = (Done r, s') ∧ told from buf s s'.
Proof.
  intros Hs [Hb Hn Hp Hhello Hfree]. assert (∀ i, word32 (word i buf)) as Hw by (intros i; by apply word_range).
  assert (∀ m : M Z, (∃ r s', m s = (Done r, s') ∧ part s s') → ∃ r s', m s = (Done r, s') ∧ told from buf s s') as Hpt.
  { intros m (r & s' & Hrun & Hpart). exists r, s'. split; [exact Hrun|by apply part_told]. }
  unfold ns_handle.
  destruct (Z.eqb_spec (word 0 buf) QRTR_TYPE_HELLO); [apply Hpt, hello_run; auto|].
  destruct (Z.eqb_spec (word 0 buf) QRTR_TYPE_BYE); [apply Hpt, bye_run; auto|].
  destruct (Z.eqb_spec (word 0 buf) QRTR_TYPE_DEL_CLIENT); [by apply del_client_run; auto; right|].
  destruct (Z.eqb_spec (word 0 buf) QRTR_TYPE_NEW_SERVER); [by apply Hpt, new_server_run; auto|].
  destruct (Z.eqb_spec (word 0 buf) QRTR_TYPE_DEL_SERVER); [by apply Hpt, ns_del_server_run|].
  destruct (Z.eqb_spec (word 0 buf) QRTR_TYPE_NEW_LOOKUP); [by apply new_lookup_run|].
  destruct (Z.eqb_spec (word 0 buf) QRTR_TYPE_DEL_LOOKUP).
  - destruct (del_lookup_run from buf (word 1 buf) (word 2 buf) s Hs) as (s' & Hrun & Ht); [by left|]. rewrite (kbind_Done _ _ _ _ _ Hrun). by eexists _, _.
  - eexists _, _. split; [done|]. by apply part_told, part_refl.
Qed.

(** ** The service and the tables of its clients *)

Definition world : Type := qrtr_ns * (sockaddr_qrtr → table).

(** The worker handles one packet, and the clients hear what is sent. *)
Inductive ns_step : world → world → Prop :=
| ns_receive s V al from buf r s' d :
    packet_ok s from buf → ns_handle al from buf s = (Done r, s') → ns_sent s' = ns_sent s ++ d →
    ns_step (s, V) (s', hear_all d (forget from buf (ns_lookups s') V)).

Definition booted (node : Z) : qrtr_ns := (qrtr_ns_init 0 (inr (12, node)) true 0 (mk_ns ∅ [] 0 [] [])).2.

Record settled (node : Z) (w : world) : Prop := {
  st_ok : ns_ok w.1;
  st_local : local_node w.1 = node;
  st_informed : informed w.1 w.2
}.

Lemma booted_servers node n : servers_of (booted node) n = ∅.
Proof. reflexivity. Qed.

Lemma booted_settled node : 0 ≤ node < QRTR_NODE_BCAST → settled node (booted node, λ _, ∅).
Proof.
  intros Hn. split; [split; [|by constructor|done|done]|done|]; cbn [fst snd].
  - intros n p srv. rewrite booted_servers. by intros ?%lookup_empty_Some.
  - intros a k _. unfold expected. rewrite booted_servers. by rewrite !lookup_empty.
Qed.

Lemma ns_step_settled node w w' : settled node w → ns_step w w' → settled node w'.
Proof.
  intros [Hs Hl HV] Hstep. destruct Hstep as [s V al from buf r s' d Hp Hrun Hd]. cbn [fst snd] in *.
  destruct (ns_handle_told al from buf s Hs Hp) as (r' & s'' & Hrun' & [H1 H2 (e & He & HI)]).
  rewrite Hrun in Hrun'. injection Hrun' as <- <-. rewrite Hd in He. apply app_inv_head in He as <-.
  split; [exact H1|by rewrite <- Hl|by apply HI].
Qed.

Lemma reached_settled node w : 0 ≤ node < QRTR_NODE_BCAST → rtc ns_step (booted node, λ _, ∅) w → settled node w.
Proof.
  intros Hn Hrun. pose proof (booted_settled node Hn) as H0. revert H0. induction Hrun as [|w1 w2 w3 Hstep _ IH]; [done|].
  intros H1. by apply IH, (ns_step_settled node w1).
Qed.

(** C23: Provided the sends of the service succeed, whatever packets arrive, in whatever order
    and with whatever failing allocations, every command of the name service returns, and the
    notifications that a local client has received so far describe exactly the registered
    servers that one of its registered lookups asks for: the table it builds from NEW_SERVER,
    DEL_SERVER and BYE has such a server at its node and port, with its service and instance,
    and nothing else. The only thing a client does to its table by itself is when it sends
    DEL_LOOKUP or DEL_CLIENT: it drops what none of its lookups left asks for ([forget]).
    Local clients do not say HELLO, and a port is not registered for another service while it
    is taken ([packet_ok]). When a send fails, or a port is taken over, clients do miss a
    change ([failed_broadcast_hides_server], [takeover_not_told] in QrtrNsCases). *)
Theorem clients_informed node s V : 0 ≤ node < QRTR_NODE_BCAST → rtc ns_step (booted node, λ _, ∅) (s, V) →
  (∀ a k, sq_node a = node → V a !! k = expected s a k) ∧
  ∀ al from buf, packet_ok s from buf → ∃ r s' d, ns_handle al from buf s = (Done r, s') ∧ ns_sent s' = ns_sent s ++ d ∧
    ns_step (s, V) (s', hear_all d (forget from buf (ns_lookups s') V)).
Proof.
  intros Hn Hrun. destruct (reached_settled node _ Hn Hrun) as [Hs Hl HV]. cbn [fst snd] in *. split.
  - intros a k Ha. apply HV. by rewrite Hl.
  - intros al from buf Hp. destruct (ns_handle_told al from buf s Hs Hp) as (r & s' & Hh & [_ _ (d & Hd & _)]).
    exists r, s', d. split; [exact Hh|]. split; [exact Hd|]. by apply (ns_receive s V al from buf r s' d).
Qed.

(** The two calls that other drivers make find the server of a port. *)
Lemma port_found s n p t : ns_ok s → nodes s !! n = Some t →
  snd <$> (snd <$> list_find (at_port n p) (xa_entries t)) = t !! p.
Proof.
  intros Hs Ht. assert (∀ q x, t !! q = Some x → server_ok n q x) as Hok.
  { intros q x Hq. apply (no_servers s Hs). unfold servers_of. by rewrite Ht. }
  destruct (list_find (at_port n p) (xa_entries t)) as [[j [q x]]|] eqn:Hf; cbn [fmap option_fmap option_map snd].
  - apply list_find_Some in Hf as (Hin & [_ Hp] & _). apply list_elem_of_lookup_2, xa_elem in Hin. cbn in Hp.
    pose proof (sk_port _ _ _ (Hok _ _ Hin)) as Hq. congruence.
  - apply list_find_None in Hf. destruct (t !! p) as [x|] eqn:Hx; [|done]. exfalso.
    apply (proj1 (list.Forall_forall _ _) Hf (p, x)); [by apply xa_elem|]. destruct (Hok p x Hx). by split.
Qed.

Theorem service_id_found s n p : ns_ok s →
  qrtr_get_service_id n p s = from_option (λ srv, s32 (srv_service srv)) (- EINVAL) (servers_of s n !! p) ∧
  qrtr_get_service_instance_id n p s = from_option (λ srv, s32 (srv_instance srv)) (- EINVAL) (servers_of s n !! p).
Proof.
  intros Hs. unfold qrtr_get_service_id, qrtr_get_service_instance_id, servers_of.
  destruct (nodes s !! n) as [t|] eqn:Ht; cbn [default from_option id].
  - rewrite <- (port_found s n p t Hs Ht). by destruct (list_find _ _) as [[j [q x]]|].
  - by rewrite lookup_empty.
Qed.
