(* ===== verification/QrtrNsCases.v ===== *)
(** * The name service at work

    A run of the service as the witness of its theorem, and inputs at which the code does
    something else than its comments say or its clients expect. *)

From stdpp Require Import sorting.
From S2P Require Import Prelude Memory QmiMsg QmiMsgInv QmiRpc QrtrNs QrtrNsInv QrtrNsSystem.

Definition all_ok : ns_allocs := mk_ns_allocs true true true true.
Definition client : sockaddr_qrtr := mk_addr 1 0x4001.
Definition modem : sockaddr_qrtr := mk_addr 7 QRTR_PORT_CTRL.

(** The client looks for service 5; the modem registers it on port 9. *)
Definition ask : list Z := ctrl_pkt_le QRTR_TYPE_NEW_LOOKUP 5 0 0 0.
Definition offer (cmd serv : Z) : list Z := ctrl_pkt_le cmd serv 2 7 9.

Definition after (from : sockaddr_qrtr) (buf : list Z) (s : qrtr_ns) : qrtr_ns := (ns_handle all_ok from buf s).2.
Definition asked_1 : qrtr_ns := after client ask (booted 1).
Definition offered_1 : qrtr_ns := after modem (offer QRTR_TYPE_NEW_SERVER 5) asked_1.

Lemma ctrl_bytes cmd a b c d : Forall is_byte (ctrl_pkt_le cmd a b c d).
Proof. unfold ctrl_pkt_le, is_byte. repeat (apply Forall_app; split); apply le_encode_bytes. Qed.

Lemma ask_ok : packet_ok (booted 1) client ask.
Proof. split; [apply ctrl_bytes|by vm_compute|by vm_compute|by vm_compute|by vm_compute]. Qed.
Lemma offer_ok : packet_ok asked_1 modem (offer QRTR_TYPE_NEW_SERVER 5).
Proof. split; [apply ctrl_bytes|by vm_compute|by vm_compute|by vm_compute|]. intros _ k old H. vm_compute in H. discriminate H. Qed.

(** In the end the client knows the modem's server and nothing else. *)
Lemma clients_informed_witness : ∃ V, rtc ns_step (booted 1, λ _, ∅) (offered_1, V) ∧
  V client !! (7, 9) = Some (5, 2) ∧ V client !! (7, 8) = None.
Proof.
  eassert (rtc ns_step (booted 1, λ _, ∅) (offered_1, _)) as Hrun.
  { eapply rtc_l.
    - apply (ns_receive (booted 1) _ all_ok client ask 0 asked_1 [(client, end_of_list)] ask_ok); by vm_compute.
    - eapply rtc_once.
      apply (ns_receive asked_1 _ all_ok modem (offer QRTR_TYPE_NEW_SERVER 5) 0 offered_1 [(client, offer QRTR_TYPE_NEW_SERVER 5)] offer_ok);
        by vm_compute. }
  eexists. split; [exact Hrun|].
  assert (0 ≤ 1 < QRTR_NODE_BCAST) as Hn by (by vm_compute).
  destruct (clients_informed 1 offered_1 _ Hn Hrun) as [Hknows _].
  split; rewrite Hknows by reflexivity; by vm_compute.
Defined.

(** ** Deviations *)

Definition heard (s : qrtr_ns) : table := foldl hear ∅ (to_addr client (ns_sent s)).

(** The modem registers service 6 on the port of service 5: the old server is gone, but the
    client that asked for service 5 is not told and keeps it. *)
Example takeover_not_told : let s := after modem (offer QRTR_TYPE_NEW_SERVER 6) offered_1 in
  expected s client (7, 9) = None ∧ heard s !! (7, 9) = Some (5, 2).
Proof. by vm_compute. Qed.

(** A local server is registered while the broadcast fails (here with -EIO): the command fails,
    the server stays registered, and the client that asked for it does not hear of it. *)
Example failed_broadcast_hides_server :
  let '(r, s) := ns_handle all_ok (mk_addr 1 20) (ctrl_pkt_le QRTR_TYPE_NEW_SERVER 5 3 0 0)
                   (set_ns_sent (ns_sent asked_1) [-5] asked_1) in
  r = Done (-5) ∧ expected s client (1, 20) = Some (5, 3) ∧ heard s !! (1, 20) = None.
Proof. by vm_compute. Qed.

(** A packet of four bytes from node 8, DEL_SERVER, deletes the server of the packet before it:
    what is missing is read from the buffer as that packet left it. *)
Example short_packet_reads_the_one_before :
  let inbox := [(all_ok, inr (modem, offer QRTR_TYPE_NEW_SERVER 5));
                (all_ok, inr (mk_addr 8 QRTR_PORT_CTRL, le_encode 4 QRTR_TYPE_DEL_SERVER))] in
  servers_of (qrtr_ns_worker true (take 1 inbox) asked_1).2 7 !! 9 = Some (mk_server 5 2 7 9) ∧
  servers_of (qrtr_ns_worker true inbox asked_1).2 7 !! 9 = None.
Proof. by vm_compute. Qed.

(** Without a thread the initialization answers the length of the socket's name, which is positive. *)
Example no_thread_no_error : (qrtr_ns_init 0 (inr (12, 1)) false 0 (mk_ns ∅ [] 0 [] [])).1 = Done (12, true).
Proof. by vm_compute. Qed.

(** A node that says HELLO hears of the servers of a third node too. *)
Example hello_announces_third_node : let sq := mk_addr 3 QRTR_PORT_CTRL in
  to_addr sq (ns_sent (after sq (ctrl_pkt_le QRTR_TYPE_HELLO 0 0 0 0) offered_1)) =
  [ctrl_pkt_le QRTR_TYPE_HELLO 0 0 0 0; offer QRTR_TYPE_NEW_SERVER 5].
Proof. by vm_compute. Qed.

(** A local client that names another port in DEL_SERVER unregisters its own server: the check for
    such a packet compares the port with itself. *)
Example del_server_ignores_port :
  let s := after client (ctrl_pkt_le QRTR_TYPE_NEW_SERVER 5 3 0 0) (booted 1) in
  let '(r, s') := ns_handle all_ok client (ctrl_pkt_le QRTR_TYPE_DEL_SERVER 5 3 1 20) s in
  servers_of s 1 !! 0x4001 = Some (mk_server 5 3 1 0x4001) ∧ r = Done 0 ∧ servers_of s' 1 !! 0x4001 = None.
Proof. by vm_compute. Qed.
